(* ===== verification/_CoqProject ===== *)
-Q . S2P
Prelude.v
Text.v
Ordered.v
Keyed.v
External.v
Wire.v
Clock.v
Decimals.v
Programs.v
EntryBudget.v
Protocol.v
RiskAuthority.v
Ledger.v
Intents.v
IntentSafety.v
IntentReadback.v
Instances.v
RateBudget.v
TradeApi.v
OrderBook.v
Reference.v
Market.v
Stream.v
PublicRuntime.v
PublicCoordinator.v
Account.v
PrivateRuntime.v
PrivateCoordinator.v
History.v
TimeSeries.v
FinanceWindow.v
TradeService.v
TradeDemo.v
TradePlan.v
TradeCensus.v
TradeExecute.v
TradeSafety.v
TradeReconcile.v
TradeDispatch.v
TradeVenue.v
Schedule.v
Lots.v
MoneyText.v
Faults.v
AccountLedger.v
AccountLedgerFacts.v
Analysis.v
RiskAnalysis.v
RiskGates.v
RiskSafety.v
RiskBounds.v
RiskDemo.v
Candidate.v
Scenario.v
Microstructure.v
HistoryFeatures.v
Tca.v
Statistics.v
Validation.v
ReportsDemo.v
Books.v
BookFlows.v
Capital.v
BooksSums.v
BooksSafety.v
BooksFills.v
Holdings.v
BooksDemo.v
Requests.v
Session.v
Transport.v
Preflight.v
GitHub.v
Mailbox.v
Catalog.v
SessionDemo.v
