(* ===== verification/Prelude.v ===== *)
(** * OKX engine: a verification development

    The engine (src/crates) is a Rust workspace that observes an OKX account and its
    markets over REST and WebSockets, keeps a durable ledger of orders and money, and
    places orders on behalf of strategies under a risk policy.  This library models the
    parts that carry its own logic and proves what makes them correct.  The files follow
    the crates, and a definition has the name of the Rust function, method, type or
    constant it translates.

    ** How the parts interact
    [okx-api] sends requests under a budget ([RateBudget]) and stamps mutations from
    the exchange's clock ([Clock]).  [okx-observation] turns rows into validated values:
    the registry of instruments ([Reference]), market snapshots ([Market]) built from
    REST or from a stream ([Stream]) that owns an order book ([OrderBook]), account
    snapshots ([Account]) and bounded history ([History]).  [okx-runtime] holds these
    values behind two locks and feeds them from sockets: [PublicRuntime] and
    [PrivateRuntime] are the states under the locks, [PublicCoordinator] and
    [PrivateCoordinator] the loops that own a connection generation.  [okx-execution]
    owns the database: [Ledger] is its tables, [Intents] the operations on orders,
    [IntentSafety] and [IntentReadback] their guarantees.  [okx-agent] sizes orders
    ([EntryBudget]) and reports how well it observes the account ([FinanceWindow]).
    [okx-kernel] supplies closed time ranges ([TimeSeries]).

    ** The files
    - [Prelude], [Text], [Ordered], [Keyed], [External]: shared notions.  [result] is
      Rust's [Result] with its monad; [for_each] and [try_fold] its loops; [Text] its
      string operations over the UTF-8 bytes; [Ordered] its [BTreeMap] as a sorted
      association list that keeps the key already present, and its stable sort; [Keyed]
      vectors of records with distinct identities; [External] the interfaces of
      third-party code.
    - [Wire]: the rows, channels, arguments and subscriptions of okx-api and okx-ws.
    - [RateBudget]: okx-api/src/rate.rs.  No window of a domain ever holds more than its
      limit ([rate_window_bound]); what an admission does to every domain; throttles
      block every plan that shares a domain; the announced deferral suffices; the waiting
      loop ends.
    - [Clock]: okx-api/src/clock.rs and the clock call of client.rs: an accepted sample
      bounds the life of a mutation by the exchange's own clock.
    - [OrderBook], [Reference], [Market], [Stream], [Account], [History]: the files of the
      same names of okx-observation/src (lower case).  The book refines a map from price to
      the last update; the registry and the account snapshot are refinements of what their
      updates say per identity, with their invariants; readiness is graded exactly;
      snapshots and pages of history are accepted exactly when their evidence is complete
      and consistent, and do not depend on the order of a page.
    - [PublicRuntime], [PublicCoordinator], [PrivateRuntime], [PrivateCoordinator]:
      okx-runtime/src/public and /private.  A fresh read is only answered on evidence of
      the current connection; an undisturbed window means no message arrived; the
      working set is the last twelve demands; reconciliation is exact.
    - [TimeSeries]: okx-kernel/src/time_series.rs; [FinanceWindow]:
      okx-agent/src/finance_window.rs; both are exact reports.
    - [Decimals], [EntryBudget]: okx-agent/src/trade_service/entry_budget.rs: the sized order
      is the first from its start downwards that fits its caps, the start is what was asked for
      or the largest that fits without the rounding of the fee, and sizing ends.
    - [Ledger], [Intents], [IntentSafety], [IntentReadback]: okx-execution/src
      (account_store.rs, ledger/sql/intents.rs, orders.rs, projections.rs) and the schema
      account-v2.sql.  Over any history of calls and crashes an order is posted at most
      once, under its guards, never when it was declared unsent; at most one increase is
      uncertain; keys are unique; an intent's life goes forward only.
    - [Protocol], [RiskAuthority]: okx-protocol/src (trading.rs, account_governance.rs,
      accounts.rs, risk_authority.rs): what an accepted amount, account policy, census
      and causal proof mean, and that the three amount validators agree.
    - [Requests], [Session]: the other messages of okx-protocol: trading.rs, analytics.rs and
      lib.rs with every validation.  What is authenticated of an envelope determines what it
      binds; the account keys host control accepts are the texts of valid keys.
    - [Transport], [Preflight]: okx-agent.  [Transport] is one session of
      cloudflare_transport.rs as a step relation ([session]), without the arm of a shutdown, which
      drains the flights for ten seconds: a policy that comes with a request
      counts only on the strength of a ping of the session, used once, and the work in flight is
      bounded.  [Preflight] is execution_preflight.rs: the two keys of an account.
    - [GitHub], [Mailbox]: okx-github/src/lib.rs, and okx-agent's github_mailbox.rs and once.rs
      with okx-protocol's crypto.rs.  A read of an issue finds the comments after the cursor; a
      download in parts takes only the parts of one representation, and ends; what the mailbox dispatches was sealed for it and
      passes as a read; over any history ([mailbox_run]) an answered request is not dispatched
      again, where a read gives the comments after the cursor and comments are only added.  [Catalog]: the verified accounts of accounts.rs and account_catalog_proto.rs, read
      back from what is written.  [SessionDemo]: inputs at which these theorems apply.
    - [Programs], [Instances], [TradeApi], [TradeService], [TradePlan], [TradeDemo]: the trade
      service.  [Programs] is asynchronous code as a tree of effects with its runs and a logic
      of them; [TradeService] the effects of trade_service/mod.rs (clocks, database jobs,
      market and account reads, the risk authority, the exchange) and its governance;
      [TradeApi] okx-api/src/trade.rs; [Instances] the strategies and stops of the store
      (ledger/sql/definitions.rs, projections.rs); [TradePlan] trade_service/plan.rs: an
      accepted increase is inside every limit of its account, a reduction inside position and
      lots, a preview only reads.  [TradeDemo] is the small world of the witnesses.
    - [TradeCensus], [TradeExecute], [TradeSafety]: trade_service/execute.rs.  [TradeCensus] is
      the evidence the authority gets about every real account; [TradeExecute] one order from
      its request to the answer of the exchange, with the release of an unsent reservation
      (reconcile.rs); [TradeSafety]: an order is sent only when plan, intent, receipt, fence,
      preflight and permission stand behind it, at most once per submission; a complete census
      covers every position and every order its pages list (of the conditional orders, the first
      eight); an unsent intent gives its capacity back only on the ledger's proof.
    - [TradeReconcile], [TradeDispatch], [TradeVenue]: the rest of trade_service/reconcile.rs and
      the entry point of mod.rs.  A status may leave an unprotected position, whose close ends
      in a status again, so [status_intent] and [trade] take a [depth]; at depth zero the run
      stops with [OutOfFuel] and nothing is sent.  The theorems of [TradeVenue] hold for every
      depth: whatever a request makes the service send has its reason in the ledger or in the
      request; a step sends at most one request and a command at most two and six for each level
      of [depth]; capacity is given back only on the proof that an order was not sent or on the
      evidence that it is over; a preview only looks; an exit that was begun once waits for ever.
    - [Schedule]: the recovery schedule of trade_service/mod.rs and the page a maintenance turn
      reads (strategies.rs): an unsettled intent is due again after at most 30.25 seconds and looked at in
      the next round of the queue, if it stays on its page of the queue in that round; the queue
      is read by offset, so what settles or arrives before it can move it to another page.
    - [Lots]: okx-execution/src/finance and risk: lots and their oldest-first reduction, the
      split of funding, profit, net asset value, coverage and the admission rules.
    - [MoneyText], [Books], [BookFlows], [Capital]: okx-execution/src/ledger/sql/finance.rs with
      sources.rs and schema.rs.  [Books] is the money half of the database: a table whose rowid
      is read is a list in the order of insertion; [ingest_page] is the transaction of a page.
      [BookFlows]: fills and their effect on lots, USD mirrors, funding, the readings and the
      opening of an account.  [Capital]: assignment of principal, valuation of strategies, net
      asset values.  [MoneyText] is what is assumed of decimals as texts.
    - [BooksSums], [BooksSafety], [BooksFills], [Holdings], [BooksDemo]: over any history of an
      account ([account_step]) the totals are the sums of the immutable entries, strategy entries
      come from recorded fills and bills, capital is moved and never made, a fill is applied
      once and moves exactly its quantity, every loss is charged; and a fee captured under
      another key blocks its fill ([captured_fee_blocks_projection]).  Statements about sums
      assume that the sums of the entries are decimals ([sums_exact]); nothing else is assumed
      of the amounts.
    - [Faults]: decimals whose operators panic, for the report crates; [AccountLedger]:
      okx-observation/src/account_ledger.rs, with [AccountLedgerFacts]: an accepted ledger
      sums its rows exactly by currency, its joined rows are unique, complete and linked,
      and its day is the UTC day of its time.
    - [Analysis]: okx-analysis, the decimals of requests and their errors, bases, returns,
      baseline strategies.  [RiskAnalysis] and [RiskGates]: okx-analysis/src/risk.rs, the exposure
      of an account, its limits, the candidate and the second reading of the exchange.
      [RiskSafety]: what an accepted portfolio has been checked for, the candidate without a proof
      of value, the durable stop of an account.  [RiskBounds]: the totals of the exposure, the
      account bounded by the second reading.  [RiskDemo]: an account at which they apply.
    - [Candidate], [Scenario]: candidate.rs, fee.rs, analyze_cost and the scenarios of okx-analysis:
      an accepted candidate is sound, and the largest its request allows where its inputs leave
      nothing to round; a break-even price breaks even.  [Microstructure],
      [HistoryFeatures]: the reports on a book, on trades, open interest and funding; a sweep
      fills the smaller of request and depth between the best and the last price.  [Tca]: the
      cost of an execution.  [Statistics], [Validation]: statistics.rs, validation.rs and the
      behaviour of a history.  [ReportsDemo]: inputs at which their theorems apply.  Their
      statements about sums and products assume of the inputs that their digits leave nothing to
      round ([candidate_clear], [cost_clear]), or of the values at hand that they are decimals.
    ** How Rust is modelled
    - Integers are [Z] with their checks written where the source checks ([checked_add],
      [saturating_sub], [try_from]); the event numbers of a connection are taken to stay
      below 2^64 - 1 and row revisions below 2^63.  [Instant] and [Duration] are integers of
      nanoseconds.
    - [String] is its UTF-8 bytes.  [BTreeMap] and [BTreeSet] iterate in key order;
      [BTreeSet<Subscription>] and other sets used only as sets are [gset].
    - [&mut self] becomes a state argument and result; a method that consumes [self]
      returns the new value.  [?] is the bind of [result].  A loop over a collection is
      structural.  Three loops have fuel: the waiting admission (one unit per refusal,
      bounded by the time left), the sizing loops (one unit per lot between the minimum
      and the initial quantity) and the wait for a price (one unit per 50 ms to the
      deadline); the termination theorems say how much is enough.
    - An [async fn] of the agent is a [prog]: at each await it performs an effect and goes on
      with the answer.  Its theorems hold for every answer; what it read is in the history of
      the run.  Other tasks act between two effects, inside the answers.
    - A lock is held for a whole operation, so operations are atomic; a loop body of a
      coordinator is one step, given what [select!] delivered.
    - Clocks, randomness, the network and the outcome of a send are arguments of the step
      that reads them.  [serde_json], [sha2], [rust_decimal], [chrono] and the JSON
      decoding are parameters with the laws the code relies on, and every theorem with
      such a hypothesis has a witness on a concrete instance.  [rate_window_bound] takes
      admissions in the order of their instants (each instant is read before the lock).
    - A table of the database is a [gmap] from its primary key to its row; unique columns,
      foreign keys and checks are enforced by the statements that insert; a transaction
      commits all or nothing; where SQL leaves an order open the model fixes one and the
      theorems do not depend on it.  A crash is a call whose answer is lost, before or
      after its commit.  In the
      theorems about orders the other writers of the database are steps that leave the order
      tables alone; in those about money the order tables may change in any way.

    ** Not modelled, and why
    Sockets, TLS, HTTP, signing and credentials (okx-api/client.rs, auth.rs, okx-ws, the
    requests of okx-github) and the process glue (okx-host-control, okx-host-launcher, okx-cli,
    okx-bridge-mcp): input and output around third-party code.  Backup, lease,
    pragmas and log maintenance of the store: calls of the database engine.  okx-kernel's operators
    and query planner, okx-research, and the bodies of the agent's queries.  The Cloudflare gateway is not part of the workspace. *)
From stdpp Require Import base option list numbers strings.
From Stdlib Require Import ZArith Lia.

(** ** Results: Rust's [Result<A, E>], a monad in its success type *)
Inductive result (E A : Type) : Type :=
| Ok (a : A)
| Err (e : E).
Arguments Ok {E A} a.
Arguments Err {E A} e.

#[export] Instance result_ret {E} : MRet (result E) := λ A a, Ok a.

#[export] Instance result_bind {E} : MBind (result E) := λ A B k r,
  match r with
  | Ok a => k a
  | Err e => Err e
  end.

#[export] Instance result_fmap {E} : FMap (result E) := λ A B f r,
  match r with
  | Ok a => Ok (f a)
  | Err e => Err e
  end.

(** [Result::map_err]; Rust's [?] converts the error with [From]. *)
Definition map_err {E F A} (f : E → F) (r : result E A) : result F A :=
  match r with
  | Ok a => Ok a
  | Err e => Err (f e)
  end.

(** [Option::ok_or]. *)
Definition ok_or {E A} (e : E) (o : option A) : result E A :=
  match o with
  | Some a => Ok a
  | None => Err e
  end.

Definition is_ok {E A} (r : result E A) : bool :=
  match r with Ok _ => true | Err _ => false end.

(** A [for] loop whose body may return early with [?]. *)
Fixpoint try_fold {E S A} (f : S → A → result E S) (s : S) (l : list A) : result E S :=
  match l with
  | [] => Ok s
  | a :: l' => s' ← f s a; try_fold f s' l'
  end.

(** A [for] loop that mutates a state in place: what the iterations before an early
    return have done stays done. *)
Fixpoint for_each {E S A} (f : S → A → S * result E unit) (s : S) (l : list A)
    : S * result E unit :=
  match l with
  | [] => (s, Ok tt)
  | a :: l' => match f s a with
               | (s', Ok _) => for_each f s' l'
               | (s', Err e) => (s', Err e)
               end
  end.

(** [Iterator::collect::<Result<Vec<_>, _>>]. *)
Fixpoint try_map {E A B} (f : A → result E B) (l : list A) : result E (list B) :=
  match l with
  | [] => Ok []
  | a :: l' => b ← f a; bs ← try_map f l'; Ok (b :: bs)
  end.

(** ** Fixed-width integers, kept as [Z] with their bounds written out *)
Declare Scope int_scope.
Delimit Scope int_scope with int.

Definition u64_max : Z := 2 ^ 64 - 1.
Definition u32_max : Z := 2 ^ 32 - 1.
Definition i64_max : Z := 2 ^ 63 - 1.
Definition i64_min : Z := - 2 ^ 63.
Definition in_u64 (x : Z) : Prop := (0 ≤ x ≤ u64_max)%Z.
Definition in_i64 (x : Z) : Prop := (i64_min ≤ x ≤ i64_max)%Z.

Definition checked_add_u64 (a b : Z) : option Z :=
  if (a + b <=? u64_max)%Z then Some (a + b)%Z else None.
Definition checked_mul_u64 (a b : Z) : option Z :=
  if (a * b <=? u64_max)%Z then Some (a * b)%Z else None.
Definition checked_sub_u64 (a b : Z) : option Z :=
  if (b <=? a)%Z then Some (a - b)%Z else None.
Definition saturating_add_u64 (a b : Z) : Z := Z.min u64_max (a + b).
Definition saturating_sub_u64 (a b : Z) : Z := Z.max 0 (a - b).
(** [Ord::clamp]. *)
Definition clamp (x lo hi : Z) : Z := if (x <? lo)%Z then lo else if (hi <? x)%Z then hi else x.

Notation "a '+?' b" := (checked_add_u64 a b) (at level 50, left associativity) : int_scope.
Notation "a '+sat' b" := (saturating_add_u64 a b) (at level 50, left associativity) : int_scope.
Notation "a '-sat' b" := (saturating_sub_u64 a b) (at level 50, left associativity) : int_scope.

(** [xs.last()] and [xs.iter().position(p)]. *)
Fixpoint position {A} (p : A → bool) (l : list A) : option nat :=
  match l with
  | [] => None
  | a :: l' => if p a then Some 0%nat else S <$> position p l'
  end.

(** [Vec::remove(i)]. *)
Definition vec_remove {A} (i : nat) (l : list A) : list A := take i l ++ drop (S i) l.

(** ** Automation *)
Create HintDb okx.
#[export] Hint Rewrite @length_app @length_map : okx.

(** Case analysis on a Boolean guard, keeping its meaning as a proposition. *)
Ltac bool_cases :=
  repeat match goal with
  | H : context [if ?b then _ else _] |- _ => destruct b eqn:?
  | |- context [if ?b then _ else _] => destruct b eqn:?
  end.

(** Turn Boolean facts into propositions. *)
Ltac reflect_bools :=
  repeat match goal with
  | H : _ && _ = true |- _ => apply andb_true_iff in H; destruct H
  | H : _ || _ = false |- _ => apply orb_false_iff in H; destruct H
  | H : negb _ = true |- _ => apply negb_true_iff in H
  | H : negb _ = false |- _ => apply negb_false_iff in H
  | H : (_ <=? _)%Z = true |- _ => apply Z.leb_le in H
  | H : (_ <=? _)%Z = false |- _ => apply Z.leb_gt in H
  | H : (_ <? _)%Z = true |- _ => apply Z.ltb_lt in H
  | H : (_ <? _)%Z = false |- _ => apply Z.ltb_ge in H
  | H : (_ =? _)%Z = true |- _ => apply Z.eqb_eq in H
  | H : (_ =? _)%Z = false |- _ => apply Z.eqb_neq in H
  | H : bool_decide _ = true |- _ => apply bool_decide_eq_true in H
  | H : bool_decide _ = false |- _ => apply bool_decide_eq_false in H
  end.

(** ** Generic lemmas *)
Lemma bind_ok {E A B} (r : result E A) (k : A → result E B) b :
  (r ≫= k) = Ok b → ∃ a, r = Ok a ∧ k a = Ok b.
Proof. destruct r; simpl; intros H; [eauto | discriminate]. Qed.

Lemma bind_ok_iff {E A B} (r : result E A) (k : A → result E B) b :
  (r ≫= k) = Ok b ↔ ∃ a, r = Ok a ∧ k a = Ok b.
Proof. split; [apply bind_ok|]. by intros (a & -> & ?). Qed.

Lemma bind_err {E A B} (r : result E A) (k : A → result E B) e :
  (r ≫= k) = Err e ↔ r = Err e ∨ ∃ a, r = Ok a ∧ k a = Err e.
Proof. destruct r; simpl; naive_solver. Qed.

Lemma bind_assoc {E A B C} (r : result E A) (k : A → result E B) (h : B → result E C) :
  ((r ≫= k) ≫= h) = (r ≫= λ a, k a ≫= h).
Proof. by destruct r. Qed.

Lemma map_err_ok {E F A} (f : E → F) (r : result E A) a :
  map_err f r = Ok a → r = Ok a.
Proof. destruct r; simpl; congruence. Qed.

Lemma ok_or_ok {E A} (e : E) (o : option A) a : ok_or e o = Ok a → o = Some a.
Proof. destruct o; simpl; congruence. Qed.

(** Peel the monadic steps of a successful computation. *)
Ltac inv_ok H :=
  repeat match type of H with
  | (_ ≫= _) = Ok _ =>
      let a := fresh "a" in let Ha := fresh "Ha" in
      apply bind_ok in H; destruct H as (a & Ha & H)
  | map_err _ _ = Ok _ => apply map_err_ok in H
  | ok_or _ _ = Ok _ => apply ok_or_ok in H
  end.

Lemma try_fold_app {E S A} (f : S → A → result E S) s l1 l2 :
  try_fold f s (l1 ++ l2) = (s' ← try_fold f s l1; try_fold f s' l2).
Proof.
  revert s. induction l1 as [|a l1 IH]; intros s; [done|].
  simpl. destruct (f s a); simpl; [apply IH | done].
Qed.

(** An invariant of every iteration is an invariant of the loop. *)
Lemma try_fold_invariant {E S A} (P : S → Prop) (f : S → A → result E S) l :
  (∀ s a s', a ∈ l → P s → f s a = Ok s' → P s') →
  ∀ s s', P s → try_fold f s l = Ok s' → P s'.
Proof.
  induction l as [|a l IH]; intros Hstep s s' HP; simpl.
  - congruence.
  - intros H. apply bind_ok in H as (s1 & H1 & H2).
    eapply IH; [|eapply Hstep; [left|exact HP|exact H1]|exact H2].
    intros ? b ? Hb. apply Hstep. by right.
Qed.

Lemma try_map_Forall2 {E A B} (f : A → result E B) l bs :
  try_map f l = Ok bs ↔ Forall2 (λ a b, f a = Ok b) l bs.
Proof.
  revert bs. induction l as [|a l IH]; intros bs; simpl.
  - split; [intros [= <-]; constructor | by inversion 1].
  - split.
    + intros H. apply bind_ok in H as (b & Hb & H). apply bind_ok in H as (bs' & Hbs & H).
      injection H as <-. constructor; [done | by apply IH].
    + inversion 1 as [|? b ? bs' Hb Hbs]; subst. rewrite Hb. simpl.
      apply IH in Hbs. by rewrite Hbs.
Qed.

Lemma position_Some {A} (p : A → bool) l i :
  position p l = Some i →
  ∃ x, l !! i = Some x ∧ p x = true ∧ (∀ j y, (j < i)%nat → l !! j = Some y → p y = false).
Proof.
  revert i. induction l as [|a l IH]; intros i; simpl; [done|].
  destruct (p a) eqn:Ha.
  - intros [= <-]. exists a. split_and!; [done|done|]. intros; lia.
  - destruct (position p l) as [k|]; [|done]. intros [= <-].
    destruct (IH k eq_refl) as (x & Hx & Hp & Hlt). exists x.
    split_and!; [done|done|]. intros [|j] y Hj Hy; simpl in Hy; [congruence|].
    apply (Hlt j); [lia|done].
Qed.

Lemma position_None {A} (p : A → bool) l :
  position p l = None ↔ Forall (λ x, p x = false) l.
Proof.
  induction l as [|a l IH]; simpl; [by split; [constructor|]|].
  rewrite Forall_cons, <- IH.
  destruct (p a) eqn:Ha; destruct (position p l); simpl; naive_solver.
Qed.

Lemma position_insert {A} (p : A → bool) l i y :
  position p l = Some i → p y = true → position p (<[i := y]> l) = Some i.
Proof.
  revert i. induction l as [|a l IH]; intros i; simpl; [done|]. destruct (p a) eqn:Ha.
  - intros [= <-] Hy. simpl. by rewrite Hy.
  - destruct (position p l) as [j|] eqn:Hj; [|done]. intros [= <-] Hy. simpl.
    by rewrite Ha, (IH j eq_refl Hy).
Qed.

Lemma position_snoc {A} (p : A → bool) l y :
  position p l = None → p y = true → position p (l ++ [y]) = Some (length l).
Proof.
  induction l as [|a l IH]; simpl; intros Hl Hy; [by rewrite Hy|].
  destruct (p a); [done|]. destruct (position p l); [done|]. by rewrite IH.
Qed.

Lemma vec_remove_split {A} (l : list A) i x :
  l !! i = Some x → l = take i l ++ x :: drop (S i) l.
Proof. intros H. symmetry. by apply take_drop_middle. Qed.

Lemma vec_remove_perm {A} (l : list A) i x :
  l !! i = Some x → l ≡ₚ x :: vec_remove i l.
Proof.
  intros H. rewrite (vec_remove_split l i x H) at 1. unfold vec_remove.
  by rewrite Permutation_middle.
Qed.

Lemma clamp_bounds x lo hi : (lo ≤ hi)%Z → (lo ≤ clamp x lo hi ≤ hi)%Z.
Proof. intros. unfold clamp. bool_cases; reflect_bools; lia. Qed.

(** An invariant that relates the state to the elements already processed. *)
Lemma try_fold_prefix {E S A} (P : list A → S → Prop) (f : S → A → result E S) s0 l s :
  P [] s0 →
  (∀ l s a s', P l s → f s a = Ok s' → P (l ++ [a]) s') →
  try_fold f s0 l = Ok s → P l s.
Proof.
  intros H0 Hstep. revert s. induction l as [|a l IH] using rev_ind; intros s; simpl.
  - by intros [= <-].
  - rewrite try_fold_app. intros H. apply bind_ok in H as (s1 & H1 & H). simpl in H.
    apply bind_ok in H as (s2 & H2 & [= <-]). eapply Hstep; eauto.
Qed.

(** [Iterator::find] over an extended sequence *)
Lemma find_snoc {A} (p : A → bool) l a :
  List.find p (l ++ [a]) =
  match List.find p l with Some x => Some x | None => if p a then Some a else None end.
Proof. induction l as [|x l IH]; simpl; [done|]. by destruct (p x). Qed.

(** Filtering, element by element *)
Lemma filter_ext_on {A} (P Q : A → Prop) `{∀ x, Decision (P x), ∀ x, Decision (Q x)} (l : list A) :
  (∀ x, x ∈ l → P x ↔ Q x) → filter P l = filter Q l.
Proof.
  induction l as [|x l IH]; intros Hl; [done|].
  rewrite !filter_cons, IH by (intros; apply Hl; by right).
  pose proof (Hl x ltac:(left)). repeat case_decide; naive_solver.
Qed.

Lemma filter_none {A} (P : A → Prop) `{∀ x, Decision (P x)} (l : list A) :
  (∀ x, x ∈ l → ¬ P x) → filter P l = [].
Proof.
  induction l as [|x l IH]; intros Hl; [done|].
  rewrite filter_cons_False by (apply Hl; left). apply IH. intros y Hy. apply Hl. by right.
Qed.
