(* ===== verification/Text.v ===== *)
(** * Text: the Rust string operations the engine uses

    A [String] is the sequence of its UTF-8 bytes.  [trim] removes Unicode
    [White_Space] from both ends, working on the byte encodings; [parse_u64] is
    [str::parse::<u64>]; [str_cmp] is the byte-wise order of [Ord for str]. *)
From stdpp Require Import base option list numbers strings pretty.
From Stdlib Require Import ZArith Lia Ascii String.
From S2P Require Import Prelude.
Local Open Scope string_scope.
Local Open Scope N_scope.

(** ** Whitespace *)
Definition ws1 (a : ascii) : bool :=
  let n := N_of_ascii a in (9 <=? n) && (n <=? 13) || (n =? 32).

(** U+0085 and U+00A0 *)
Definition ws2 (a b : ascii) : bool :=
  (N_of_ascii a =? 0xC2) && ((N_of_ascii b =? 0x85) || (N_of_ascii b =? 0xA0)).

(** U+1680, U+2000-U+200A, U+2028, U+2029, U+202F, U+205F and U+3000 *)
Definition ws3 (a b c : ascii) : bool :=
  let a := N_of_ascii a in let b := N_of_ascii b in let c := N_of_ascii c in
  (a =? 0xE1) && (b =? 0x9A) && (c =? 0x80)
  || (a =? 0xE2) && (b =? 0x80)
     && ((0x80 <=? c) && (c <=? 0x8A) || (c =? 0xA8) || (c =? 0xA9) || (c =? 0xAF))
  || (a =? 0xE2) && (b =? 0x81) && (c =? 0x9F)
  || (a =? 0xE3) && (b =? 0x80) && (c =? 0x80).

Fixpoint trim_start (s : list ascii) : list ascii :=
  match s with
  | [] => []
  | a :: s1 =>
    if ws1 a then trim_start s1 else
    match s1 with
    | [] => s
    | b :: s2 =>
      if ws2 a b then trim_start s2 else
      match s2 with
      | [] => s
      | c :: s3 => if ws3 a b c then trim_start s3 else s
      end
    end
  end.

(** The same on the reversed bytes, where an encoding reads last byte first. *)
Fixpoint trim_start_rev (s : list ascii) : list ascii :=
  match s with
  | [] => []
  | a :: s1 =>
    if ws1 a then trim_start_rev s1 else
    match s1 with
    | [] => s
    | b :: s2 =>
      if ws2 b a then trim_start_rev s2 else
      match s2 with
      | [] => s
      | c :: s3 => if ws3 c b a then trim_start_rev s3 else s
      end
    end
  end.

Definition trim_bytes (s : list ascii) : list ascii := rev (trim_start_rev (rev (trim_start s))).

(** [str::trim] *)
Definition trim (s : string) : string :=
  string_of_list_ascii (trim_bytes (list_ascii_of_string s)).

(** [value.trim().is_empty()] *)
Definition is_blank (s : string) : bool :=
  match trim_bytes (list_ascii_of_string s) with [] => true | _ => false end.

(** [(!value.trim().is_empty()).then_some(value)] *)
Definition non_blank (s : string) : option string := if is_blank s then None else Some s.

(** [str::trim_start_matches(['+', '-'])] *)
Fixpoint trim_start_signs (s : list ascii) : list ascii :=
  match s with
  | a :: s' => if (a =? "+")%char || (a =? "-")%char then trim_start_signs s' else s
  | [] => []
  end.

(** [str::to_ascii_lowercase] *)
Definition ascii_lower (a : ascii) : ascii :=
  let n := N_of_ascii a in if (65 <=? n) && (n <=? 90) then ascii_of_N (n + 32) else a.
Definition to_ascii_lowercase (s : string) : string :=
  string_of_list_ascii (map ascii_lower (list_ascii_of_string s)).

(** [str::ends_with] of a text *)
Definition str_ends (suffix s : string) : bool :=
  (String.length suffix <=? String.length s)%nat
  && (substring (String.length s - String.length suffix) (String.length suffix) s =? suffix)%string.

(** ** Numbers *)
Definition digit (a : ascii) : option Z :=
  let n := N_of_ascii a in
  if (48 <=? n) && (n <=? 57) then Some (Z.of_N (n - 48)) else None.

Fixpoint parse_digits (acc : Z) (s : string) : option Z :=
  match s with
  | EmptyString => Some acc
  | String a s' =>
    d ← digit a;
    if (acc * 10 + d <=? u64_max)%Z then parse_digits (acc * 10 + d)%Z s' else None
  end.

(** [str::parse::<u64>]: an optional leading ['+'], then at least one digit. *)
Definition parse_u64 (s : string) : option Z :=
  match s with
  | EmptyString => None
  | String a s' =>
    if (a =? "+")%char
    then match s' with EmptyString => None | _ => parse_digits 0 s' end
    else parse_digits 0 s
  end.

(** [str::parse::<i64>] *)
Definition parse_i64 (s : string) : option Z :=
  match s with
  | String "-" (String _ _ as s') => v ← parse_digits 0 s'; if (v <=? 2 ^ 63)%Z then Some (- v)%Z else None
  | _ => v ← parse_u64 s; if (v <=? 2 ^ 63 - 1)%Z then Some v else None
  end.

(** [format!("{}", n)] of an unsigned integer *)
Definition show_u64 (n : Z) : string := pretty (Z.to_N n).

(** ** Order: [Ord for str] compares bytes *)
Fixpoint str_cmp (s t : string) : comparison :=
  match s, t with
  | EmptyString, EmptyString => Eq
  | EmptyString, String _ _ => Lt
  | String _ _, EmptyString => Gt
  | String a s', String b t' =>
    match N.compare (N_of_ascii a) (N_of_ascii b) with
    | Eq => str_cmp s' t'
    | c => c
    end
  end.

(** ** Facts *)
Lemma digit_bounds a d : digit a = Some d → (0 ≤ d ≤ 9)%Z.
Proof.
  unfold digit. intros H. bool_cases; [|done]. injection H as <-.
  apply andb_true_iff in Heqb as [H1 H2]. apply N.leb_le in H1, H2. lia.
Qed.

Lemma parse_digits_bounds s acc n :
  in_u64 acc → parse_digits acc s = Some n → in_u64 n.
Proof.
  revert acc. induction s as [|a s IH]; intros acc Hacc; simpl.
  - by intros [= <-].
  - destruct (digit a) as [d|] eqn:Hd; [|done]. simpl.
    apply digit_bounds in Hd. bool_cases; [|done]. reflect_bools.
    intros H. eapply IH; [|exact H]. unfold in_u64 in *. lia.
Qed.

Lemma parse_u64_bounds s n : parse_u64 s = Some n → in_u64 n.
Proof.
  assert (in_u64 0) by (unfold in_u64, u64_max; lia).
  destruct s as [|a s]; [done|]. unfold parse_u64.
  destruct (a =? "+")%char; [destruct s as [|b s]; [done|]|]; by apply parse_digits_bounds.
Qed.

Lemma str_cmp_refl s : str_cmp s s = Eq.
Proof. induction s as [|a s IH]; simpl; [done|]. by rewrite N.compare_refl. Qed.

Lemma str_cmp_eq s t : str_cmp s t = Eq → s = t.
Proof.
  revert t. induction s as [|a s IH]; intros [|b t]; simpl; try done.
  destruct (N.compare_spec (N_of_ascii a) (N_of_ascii b)) as [H| |]; [|done|done].
  intros Hst. f_equal; [|by apply IH].
  by rewrite <- (ascii_N_embedding a), <- (ascii_N_embedding b), H.
Qed.

Lemma str_cmp_antisym s t : str_cmp t s = CompOpp (str_cmp s t).
Proof.
  revert t. induction s as [|a s IH]; intros [|b t]; simpl; try done.
  rewrite (N.compare_antisym (N_of_ascii a)).
  destruct (N.compare (N_of_ascii a) (N_of_ascii b)); simpl; [apply IH|done|done].
Qed.

Lemma str_cmp_trans s t u : str_cmp s t = Lt → str_cmp t u = Lt → str_cmp s u = Lt.
Proof.
  revert t u. induction s as [|a s IH]; intros [|b t] [|c u]; simpl; try done.
  destruct (N.compare_spec (N_of_ascii a) (N_of_ascii b));
    destruct (N.compare_spec (N_of_ascii b) (N_of_ascii c));
    destruct (N.compare_spec (N_of_ascii a) (N_of_ascii c)); try done; try lia.
  apply IH.
Qed.

Lemma non_blank_Some s t : non_blank s = Some t ↔ t = s ∧ is_blank s = false.
Proof. unfold non_blank. destruct (is_blank s); naive_solver. Qed.

(** Printing then parsing an unsigned integer gives it back. *)
Lemma digit_pretty d : (d < 10)%N → digit (pretty_N_char d) = Some (Z.of_N d).
Proof.
  intros Hd. assert (d = 0 ∨ d = 1 ∨ d = 2 ∨ d = 3 ∨ d = 4 ∨ d = 5 ∨ d = 6 ∨ d = 7 ∨ d = 8 ∨ d = 9)%N
    as Hc by lia.
  by repeat destruct Hc as [->|Hc]; [..|subst].
Qed.

Lemma pretty_N_char_plus d : pretty_N_char d ≠ "+"%char.
Proof. unfold pretty_N_char. by repeat case_match. Qed.

Lemma pretty_N_go_head n s :
  (0 < n)%N → ∃ a t, pretty_N_go n s = String a t ∧ a ≠ "+"%char.
Proof.
  revert s. induction n as [n IH] using (well_founded_induction N.lt_wf_0). intros s Hn.
  rewrite pretty_N_go_step by done.
  destruct (N.eq_dec (n `div` 10) 0) as [->|Hq].
  - rewrite pretty_N_go_0. eauto using pretty_N_char_plus.
  - apply IH; [apply N.div_lt; lia | by apply N.neq_0_lt_0].
Qed.

Lemma parse_pretty_N_go n s :
  (Z.of_N n ≤ u64_max)%Z → parse_digits 0 (pretty_N_go n s) = parse_digits (Z.of_N n) s.
Proof.
  revert s. induction n as [n IH] using (well_founded_induction N.lt_wf_0). intros s Hn.
  destruct (N.eq_dec n 0) as [->|H0]; [by rewrite pretty_N_go_0|].
  rewrite pretty_N_go_step by lia.
  pose proof (N.div_mod n 10 ltac:(done)). pose proof (N.mod_lt n 10 ltac:(done)).
  pose proof (N.div_lt n 10 ltac:(lia) ltac:(done)). rewrite IH by lia.
  simpl. rewrite digit_pretty by done. simpl.
  replace (Z.of_N (n `div` 10) * 10 + Z.of_N (n `mod` 10))%Z with (Z.of_N n) by lia.
  by rewrite (proj2 (Z.leb_le _ _) Hn).
Qed.

Lemma parse_show_u64 n : in_u64 n → parse_u64 (show_u64 n) = Some n.
Proof.
  unfold in_u64, show_u64. intros Hn. unfold pretty, pretty_N.
  destruct (decide (Z.to_N n = 0%N)) as [H0|H0].
  - replace n with 0%Z by lia. done.
  - destruct (pretty_N_go_head (Z.to_N n) "" ltac:(lia)) as (a & t & E & Ha).
    unfold parse_u64. rewrite E. apply Ascii.eqb_neq in Ha. rewrite Ha, <- E.
    rewrite parse_pretty_N_go by lia. simpl. f_equal. lia.
Qed.
