(* ===== verification/Ordered.v ===== *)
(** * Ordered: [BTreeMap] as a sorted association list, and stable sorting

    [OrdKey] is Rust's [Ord]; [OrdLaws] states that it is a total preorder whose
    [Equal] is a congruence, which is all that a [BTreeMap] relies on, and
    [OrdLeibniz] that [Equal] means equality.  The maps keep the key that is
    present when an equal key is inserted, as [BTreeMap::insert] does. *)
From stdpp Require Import base option list numbers strings sorting.
From Stdlib Require Import ZArith Lia.
From S2P Require Import Prelude Text.

Class OrdKey (K : Type) : Type := kcmp : K → K → comparison.
Arguments kcmp {K _} x y : simpl never.

Class OrdLaws (K : Type) `{OrdKey K} : Prop := {
  kcmp_refl : ∀ x : K, kcmp x x = Eq;
  kcmp_antisym : ∀ x y : K, kcmp y x = CompOpp (kcmp x y);
  kcmp_trans : ∀ x y z : K, kcmp x y = Lt → kcmp y z = Lt → kcmp x z = Lt;
  kcmp_congr : ∀ x y z : K, kcmp x y = Eq → kcmp x z = kcmp y z;
}.

Class OrdLeibniz (K : Type) `{OrdKey K} : Prop :=
  kcmp_eq : ∀ x y : K, kcmp x y = Eq → x = y.

#[export] Instance string_ord : OrdKey string := str_cmp.
#[export] Instance Z_ord : OrdKey Z := Z.compare.

(** [a.cmp(b).then_with(..)] *)
Definition then_with (c d : comparison) : comparison := match c with Eq => d | _ => c end.

Section omap.
Context {K V : Type} `{OrdKey K}.

Fixpoint oget (m : list (K * V)) (k : K) : option V :=
  match m with
  | [] => None
  | (k', v) :: m' =>
    match kcmp k k' with Eq => Some v | Lt => None | Gt => oget m' k end
  end.

Fixpoint oinsert (k : K) (v : V) (m : list (K * V)) : list (K * V) :=
  match m with
  | [] => [(k, v)]
  | (k', v') :: m' =>
    match kcmp k k' with
    | Eq => (k', v) :: m'
    | Lt => (k, v) :: m
    | Gt => (k', v') :: oinsert k v m'
    end
  end.

Fixpoint oremove (k : K) (m : list (K * V)) : list (K * V) :=
  match m with
  | [] => []
  | (k', v') :: m' =>
    match kcmp k k' with Eq => m' | Lt => m | Gt => (k', v') :: oremove k m' end
  end.

Definition ovalues (m : list (K * V)) : list V := map snd m.

Definition key_lt (p q : K * V) : Prop := kcmp p.1 q.1 = Lt.
Definition osorted (m : list (K * V)) : Prop := StronglySorted key_lt m.
End omap.

(** [slice::sort_by]: a stable sort; equal elements keep their order. *)
Section stable_sort.
Context {A : Type} (cmp : A → A → comparison).

Fixpoint sort_insert (x : A) (l : list A) : list A :=
  match l with
  | [] => [x]
  | y :: l' => match cmp x y with Gt => y :: sort_insert x l' | _ => x :: l end
  end.

Definition sort_by (l : list A) : list A := foldr sort_insert [] l.

Definition not_gt (x y : A) : Prop := cmp x y ≠ Gt.

Fixpoint dedup_by (eqb : A → A → bool) (l : list A) : list A :=
  match l with
  | x :: (y :: _) as l' => if eqb x y then dedup_by eqb l' else x :: dedup_by eqb l'
  | _ => l
  end.
End stable_sort.

(** ** Order laws of the standard keys *)
#[export] Instance string_ord_laws : OrdLaws string.
Proof.
  split.
  - apply str_cmp_refl.
  - apply str_cmp_antisym.
  - apply str_cmp_trans.
  - intros x y z Hxy. by rewrite (str_cmp_eq _ _ Hxy).
Qed.
#[export] Instance string_ord_leibniz : OrdLeibniz string.
Proof. exact str_cmp_eq. Qed.

#[export] Instance Z_ord_laws : OrdLaws Z.
Proof.
  split; unfold kcmp, Z_ord; intros.
  - apply Z.compare_refl.
  - apply Z.compare_antisym.
  - rewrite Z.compare_lt_iff in *. lia.
  - apply Z.compare_eq in H. by subst.
Qed.
#[export] Instance Z_ord_leibniz : OrdLeibniz Z.
Proof. intros x y. apply Z.compare_eq. Qed.

(** ** The map laws *)
Section order_facts.
Context {K : Type} `{OrdLaws K}.

Lemma kcmp_Gt_Lt (x y : K) : kcmp x y = Gt ↔ kcmp y x = Lt.
Proof. rewrite (kcmp_antisym x y). destruct (kcmp x y); simpl; naive_solver. Qed.

Lemma kcmp_Eq_sym (x y : K) : kcmp x y = Eq → kcmp y x = Eq.
Proof. intros Hxy. by rewrite (kcmp_antisym x y), Hxy. Qed.

Lemma kcmp_congr_r (x y z : K) : kcmp x y = Eq → kcmp z x = kcmp z y.
Proof.
  intros Hxy. rewrite (kcmp_antisym x z), (kcmp_antisym y z). by rewrite (kcmp_congr x y z).
Qed.

Lemma kcmp_trans_gt (x y z : K) : kcmp x y = Gt → kcmp y z = Gt → kcmp x z = Gt.
Proof. rewrite !kcmp_Gt_Lt. intros. by eapply kcmp_trans. Qed.
End order_facts.

Section omap_facts.
Context {K V : Type} `{OrdLaws K}.
Implicit Types (m : list (K * V)).

(** Destruct the comparison in the goal and settle the impossible cases. *)
Ltac cmp_case x y :=
  let E := fresh "E" in destruct (kcmp x y) eqn:E.

Lemma oget_oinsert_eq m k k' v : kcmp k k' = Eq → oget (oinsert k v m) k' = Some v.
Proof.
  intros Hk. apply kcmp_Eq_sym in Hk. induction m as [|[k0 v0] m IH]; simpl.
  - by rewrite Hk.
  - rewrite <- (kcmp_congr k' k k0 Hk). cmp_case k' k0; simpl.
    + by rewrite E.
    + by rewrite Hk.
    + by rewrite E.
Qed.

Lemma oget_oinsert_ne m k k' v : kcmp k k' ≠ Eq → oget (oinsert k v m) k' = oget m k'.
Proof.
  intros Hk. induction m as [|[k0 v0] m IH]; simpl.
  - rewrite (kcmp_antisym k k'). by destruct (kcmp k k').
  - cmp_case k k0; simpl.
    + rewrite <- (kcmp_congr_r k k0 k' E), (kcmp_antisym k k'). by destruct (kcmp k k').
    + rewrite (kcmp_antisym k k') in *. destruct (kcmp k k') eqn:E0; simpl; [done|done|].
      by rewrite (kcmp_trans k' k k0); [|apply kcmp_Gt_Lt|].
    + by rewrite IH.
Qed.

Lemma osorted_cons k v m :
  osorted ((k, v) :: m) ↔ osorted m ∧ ∀ p, p ∈ m → kcmp k p.1 = Lt.
Proof.
  unfold osorted. split.
  - inversion 1; subst. rewrite Forall_forall in *. done.
  - intros [? ?]. constructor; [done|]. by apply Forall_forall.
Qed.

Lemma oget_below m k : (∀ p, p ∈ m → kcmp k p.1 = Lt) → oget m k = None.
Proof.
  destruct m as [|[k0 v0] m]; simpl; [done|]. intros Hlt.
  specialize (Hlt (k0, v0) ltac:(left)). simpl in Hlt. by rewrite Hlt.
Qed.

Lemma oget_oremove_eq m k k' : osorted m → kcmp k k' = Eq → oget (oremove k m) k' = None.
Proof.
  intros Hs Hk. induction m as [|[k0 v0] m IH]; simpl; [done|].
  apply osorted_cons in Hs as [Hs Hlt]. cmp_case k k0; simpl.
  - apply oget_below. intros p Hp. rewrite <- (kcmp_congr k k' _ Hk).
    rewrite (kcmp_congr k k0 _ E). by apply Hlt.
  - by rewrite <- (kcmp_congr k k' k0 Hk), E.
  - rewrite <- (kcmp_congr k k' k0 Hk), E. by apply IH.
Qed.

Lemma oget_oremove_ne m k k' : osorted m → kcmp k k' ≠ Eq → oget (oremove k m) k' = oget m k'.
Proof.
  intros Hs Hk. induction m as [|[k0 v0] m IH]; simpl; [done|].
  apply osorted_cons in Hs as [Hs Hlt]. cmp_case k k0; simpl; [|done|].
  - rewrite <- (kcmp_congr_r k k0 k' E), (kcmp_antisym k k').
    cmp_case k k'; simpl; [done|done|].
    apply oget_below. intros p Hp. apply kcmp_trans with k0; [|by apply Hlt].
    apply kcmp_Gt_Lt in E0. by rewrite <- (kcmp_congr_r k k0 k' E).
  - by rewrite IH.
Qed.

Lemma oinsert_elem m k v p :
  p ∈ oinsert k v m → p.2 = v ∧ kcmp k p.1 = Eq ∨ p ∈ m.
Proof.
  induction m as [|[k0 v0] m IH]; simpl.
  - rewrite list_elem_of_singleton. intros ->. left. split; [done|]. apply kcmp_refl.
  - cmp_case k k0; rewrite !elem_of_cons.
    + intros [->|?]; [by left|auto].
    + intros [->|?]; [left; split; [done|apply kcmp_refl]|naive_solver].
    + naive_solver.
Qed.

Lemma oremove_elem m k p : p ∈ oremove k m → p ∈ m.
Proof.
  induction m as [|[k0 v0] m IH]; simpl; [done|].
  cmp_case k k0; rewrite ?elem_of_cons; naive_solver.
Qed.

Lemma oinsert_sorted m k v : osorted m → osorted (oinsert k v m).
Proof.
  induction m as [|[k0 v0] m IH]; simpl; [repeat constructor|].
  intros [Hs Hlt]%osorted_cons. cmp_case k k0; apply osorted_cons.
  - done.
  - split; [by apply osorted_cons|]. intros p [->|Hp]%elem_of_cons; [done|].
    by apply kcmp_trans with k0; [|apply Hlt].
  - split; [by apply IH|]. intros p [[_ Hp]|Hp]%oinsert_elem; [|by apply Hlt].
    apply kcmp_Gt_Lt in E. by rewrite <- (kcmp_congr_r k p.1 k0 Hp).
Qed.

Lemma oremove_sorted m k : osorted m → osorted (oremove k m).
Proof.
  induction m as [|[k0 v0] m IH]; simpl; [done|].
  intros [Hs Hlt]%osorted_cons. cmp_case k k0; [done|by apply osorted_cons|].
  apply osorted_cons. split; [by apply IH|]. intros p Hp%oremove_elem. by apply Hlt.
Qed.

Lemma oget_elem m k v : oget m k = Some v → ∃ k', (k', v) ∈ m ∧ kcmp k k' = Eq.
Proof.
  induction m as [|[k0 v0] m IH]; simpl; [done|]. cmp_case k k0.
  - intros [= <-]. exists k0. by split; [left|].
  - done.
  - intros (k' & ? & ?)%IH. exists k'. by split; [right|].
Qed.

Lemma elem_oget m k v : osorted m → (k, v) ∈ m → oget m k = Some v.
Proof.
  induction m as [|[k0 v0] m IH]; simpl; [intros _ Hp; by apply not_elem_of_nil in Hp|].
  intros [Hs Hlt]%osorted_cons [Hp|Hp]%elem_of_cons.
  - injection Hp as -> ->. by rewrite kcmp_refl.
  - assert (kcmp k k0 = Gt) as -> by (apply kcmp_Gt_Lt; by apply (Hlt (k, v))). by apply IH.
Qed.
End omap_facts.

#[export] Hint Resolve oinsert_sorted oremove_sorted : okx.

(** With Leibniz keys a sorted map is determined by its lookups. *)
Lemma omap_ext {K V} `{OrdLaws K} `{!OrdLeibniz K} (m1 m2 : list (K * V)) :
  osorted m1 → osorted m2 → (∀ k, oget m1 k = oget m2 k) → m1 = m2.
Proof.
  revert m2. induction m1 as [|[k1 v1] m1 IH]; intros [|[k2 v2] m2] Hs1 Hs2 Heq.
  - done.
  - specialize (Heq k2). simpl in Heq. by rewrite kcmp_refl in Heq.
  - specialize (Heq k1). simpl in Heq. by rewrite kcmp_refl in Heq.
  - apply osorted_cons in Hs1 as [Hs1 Hlt1]. apply osorted_cons in Hs2 as [Hs2 Hlt2].
    assert (k1 = k2) as ->.
    { pose proof (Heq k1) as H1. pose proof (Heq k2) as H2. simpl in H1, H2.
      rewrite kcmp_refl in H1, H2. destruct (kcmp k1 k2) eqn:E; [by apply kcmp_eq|done|].
      apply kcmp_Gt_Lt in E. by rewrite E in H2. }
    assert (v1 = v2) as ->.
    { specialize (Heq k2). simpl in Heq. rewrite kcmp_refl in Heq. congruence. }
    f_equal. apply IH; [done|done|]. intros k.
    specialize (Heq k). simpl in Heq. destruct (kcmp k k2) eqn:E; [| |done].
    + rewrite !oget_below; [done| |]; intros p Hp;
        rewrite (kcmp_congr k k2 _ E); [by apply Hlt2|by apply Hlt1].
    + rewrite !oget_below; [done| |]; intros p Hp;
        (apply kcmp_trans with k2; [done|]); [by apply Hlt2|by apply Hlt1].
Qed.

(** ** Sorting *)
Section sort_facts.
Context {A : Type} (cmp : A → A → comparison).

Lemma sort_insert_perm x l : sort_insert cmp x l ≡ₚ x :: l.
Proof.
  induction l as [|y l IH]; simpl; [done|]. destruct (cmp x y); [done|done|].
  rewrite IH. apply Permutation_swap.
Qed.

Lemma sort_by_perm l : sort_by cmp l ≡ₚ l.
Proof. induction l as [|x l IH]; simpl; [done|]. by rewrite sort_insert_perm, IH. Qed.

Lemma sort_by_elem l x : x ∈ sort_by cmp l ↔ x ∈ l.
Proof. by rewrite sort_by_perm. Qed.

Lemma sort_by_length l : length (sort_by cmp l) = length l.
Proof. by rewrite sort_by_perm. Qed.

Context (Hanti : ∀ x y, cmp y x = CompOpp (cmp x y)).
Context (Htrans : ∀ x y z, cmp x y ≠ Gt → cmp y z ≠ Gt → cmp x z ≠ Gt).

Lemma sort_insert_sorted x l :
  StronglySorted (not_gt cmp) l → StronglySorted (not_gt cmp) (sort_insert cmp x l).
Proof using Hanti Htrans.
  induction l as [|y l IH]; simpl; [repeat constructor|]. intros Hs.
  inversion Hs as [|? ? Hl Hy]; subst. rewrite Forall_forall in Hy.
  assert (cmp x y ≠ Gt → StronglySorted (not_gt cmp) (x :: y :: l)) as Hfront.
  { intros Hxy. constructor; [done|]. constructor; [done|]. apply Forall_forall.
    intros z Hz. apply (Htrans x y z); [done|by apply Hy]. }
  destruct (cmp x y) eqn:E; [by apply Hfront|by apply Hfront|].
  constructor; [by apply IH|]. apply Forall_forall.
  intros z. rewrite sort_insert_perm, elem_of_cons. intros [->|Hz]; [|by apply Hy].
  unfold not_gt. by rewrite (Hanti x y), E.
Qed.

Lemma sort_by_sorted l : StronglySorted (not_gt cmp) (sort_by cmp l).
Proof using Hanti Htrans.
  induction l as [|x l IH]; simpl; [constructor|]. by apply sort_insert_sorted.
Qed.

(** A sorted list is left as it is: stability on the sorted case. *)
Lemma sort_by_id l : StronglySorted (not_gt cmp) l → sort_by cmp l = l.
Proof.
  induction 1 as [|x l Hl IH Hx]; simpl; [done|]. rewrite IH.
  destruct l as [|y l]; simpl; [done|].
  inversion Hx as [|? ? Hxy]; subst. unfold not_gt in Hxy. by destruct (cmp x y).
Qed.
End sort_facts.

Lemma StronglySorted_weaken {A} (R S : A → A → Prop) l :
  (∀ x y, R x y → S x y) → StronglySorted R l → StronglySorted S l.
Proof.
  intros HRS. induction 1 as [|x l _ IH Hx]; constructor; [done|]. eapply Forall_impl; eauto.
Qed.

Lemma StronglySorted_filter {A} (R : A → A → Prop) (P : A → Prop) `{∀ x, Decision (P x)} l :
  StronglySorted R l → StronglySorted R (filter P l).
Proof.
  induction 1 as [|x l _ IH Hx]; [constructor|]. rewrite filter_cons. case_decide; [|done].
  constructor; [done|]. rewrite Forall_forall in *. intros y [_ Hy]%list_elem_of_filter. by apply Hx.
Qed.

(** Distinct images determine the element. *)
Lemma NoDup_map_inj {A B} (f : A → B) l x y :
  NoDup (map f l) → x ∈ l → y ∈ l → f x = f y → x = y.
Proof.
  intros Hnd (i & Hi)%list_elem_of_lookup (j & Hj)%list_elem_of_lookup Hf.
  enough (i = j) as -> by congruence.
  apply (NoDup_lookup (map f l) i j (f x)); [done| |]; rewrite list_lookup_fmap.
  - by rewrite Hi.
  - by rewrite Hj, Hf.
Qed.

Lemma StronglySorted_snoc {A} (R : A → A → Prop) l x :
  StronglySorted R l → Forall (λ y, R y x) l → StronglySorted R (l ++ [x]).
Proof.
  induction 1 as [|y l Hl IH Hy]; intros Hx; simpl; [by repeat constructor|].
  apply Forall_cons in Hx as [Hyx Hx]. constructor; [by apply IH|].
  apply Forall_app. by repeat constructor.
Qed.

Lemma StronglySorted_rev {A} (R : A → A → Prop) l :
  StronglySorted R l → StronglySorted (flip R) (rev l).
Proof.
  induction 1 as [|x l Hl IH Hx]; simpl; [constructor|].
  apply StronglySorted_snoc; [done|]. by apply Forall_rev.
Qed.

(** Sorting by a key in a lawful order, [sort_by_key] and friends. *)
Definition cmp_on {A K} `{OrdKey K} (key : A → K) (x y : A) : comparison := kcmp (key x) (key y).

Section sort_key_facts.
Context {A K : Type} `{OrdLaws K} (key : A → K).

Lemma cmp_on_antisym x y : cmp_on key y x = CompOpp (cmp_on key x y).
Proof. apply kcmp_antisym. Qed.

Lemma cmp_on_trans x y z :
  cmp_on key x y ≠ Gt → cmp_on key y z ≠ Gt → cmp_on key x z ≠ Gt.
Proof.
  unfold cmp_on. destruct (kcmp (key x) (key y)) eqn:Exy; [| |done];
    destruct (kcmp (key y) (key z)) eqn:Eyz; try done; intros _ _.
  - by rewrite (kcmp_congr _ _ _ Exy), Eyz.
  - by rewrite (kcmp_congr _ _ _ Exy), Eyz.
  - by rewrite <- (kcmp_congr_r _ _ _ Eyz), Exy.
  - by rewrite (kcmp_trans _ _ _ Exy Eyz).
Qed.

Lemma sort_by_key_sorted l :
  StronglySorted (λ x y, kcmp (key x) (key y) ≠ Gt) (sort_by (cmp_on key) l).
Proof. apply sort_by_sorted; [apply cmp_on_antisym | apply cmp_on_trans]. Qed.

(** Distinct keys make the order strict. *)
Lemma sorted_strict l :
  NoDup l → (∀ x y, x ∈ l → y ∈ l → kcmp (key x) (key y) = Eq → x = y) →
  StronglySorted (λ x y, kcmp (key x) (key y) ≠ Gt) l →
  StronglySorted (λ x y, kcmp (key x) (key y) = Lt) l.
Proof.
  intros Hnd Hinj Hs. induction Hs as [|x l Hl IH Hx]; [constructor|].
  apply NoDup_cons in Hnd as [Hnx Hnd]. constructor.
  - apply IH; [done|]. intros a b Ha Hb. by apply Hinj; right.
  - rewrite Forall_forall in *. intros y Hy. specialize (Hx y Hy).
    destruct (kcmp (key x) (key y)) eqn:E; [|done|done].
    rewrite (Hinj x y ltac:(left) ltac:(by right) E) in Hnx. done.
Qed.
End sort_key_facts.

(** ** Bulk updates: folding a sorted batch of removals or insertions *)
Section bulk.
Context {K V : Type} `{OrdLaws K} `{!OrdLeibniz K}.

Lemma oremove_fold_sorted {W} (ids : list (K * W)) (m : list (K * V)) :
  osorted m → osorted (foldl (λ m p, oremove p.1 m) m ids).
Proof. revert m. induction ids as [|p ids IH]; simpl; auto with okx. Qed.

Lemma oinsert_fold_sorted (upd m : list (K * V)) :
  osorted m → osorted (foldl (λ m p, oinsert p.1 p.2 m) m upd).
Proof. revert m. induction upd as [|p upd IH]; simpl; auto with okx. Qed.

Lemma oget_oremove_fold {W} (ids : list (K * W)) (m : list (K * V)) k :
  osorted m → osorted ids →
  oget (foldl (λ m p, oremove p.1 m) m ids) k = match oget ids k with Some _ => None | None => oget m k end.
Proof.
  revert m. induction ids as [|[k0 w] ids IH]; intros m Hm Hids; simpl; [done|].
  apply osorted_cons in Hids as [Hids Hlt]. rewrite IH by auto with okx.
  destruct (kcmp k k0) eqn:E.
  - apply kcmp_eq in E as ->. rewrite oget_below by done.
    by rewrite oget_oremove_eq by (try done; apply kcmp_refl).
  - rewrite oget_oremove_ne; [|done|by rewrite kcmp_antisym, E].
    rewrite oget_below; [done|]. intros p Hp. apply kcmp_trans with k0; [done|by apply Hlt].
  - by rewrite oget_oremove_ne; [|done|rewrite kcmp_antisym, E].
Qed.

Lemma oget_oinsert_fold (upd m : list (K * V)) k :
  osorted upd →
  oget (foldl (λ m p, oinsert p.1 p.2 m) m upd) k =
  match oget upd k with Some v => Some v | None => oget m k end.
Proof.
  revert m. induction upd as [|[k0 v] upd IH]; intros m Hupd; simpl; [done|].
  apply osorted_cons in Hupd as [Hupd Hlt]. rewrite IH by done.
  destruct (kcmp k k0) eqn:E.
  - apply kcmp_eq in E as ->. rewrite oget_below by done.
    apply oget_oinsert_eq, kcmp_refl.
  - rewrite oget_oinsert_ne by (by rewrite kcmp_antisym, E).
    rewrite oget_below; [done|]. intros p Hp. apply kcmp_trans with k0; [done|by apply Hlt].
  - by rewrite oget_oinsert_ne by (by rewrite kcmp_antisym, E).
Qed.

(** The pairs of a sorted map are its lookups. *)
Lemma elem_of_oget (m : list (K * V)) k v : osorted m → (k, v) ∈ m ↔ oget m k = Some v.
Proof.
  intros Hs. split; [by apply elem_oget|]. intros (k' & Hk & E)%oget_elem.
  by apply kcmp_eq in E as ->.
Qed.
End bulk.
#[export] Hint Resolve oremove_fold_sorted oinsert_fold_sorted : okx.

(** ** Tuples compare lexicographically, options put [None] first *)
#[export] Instance prod_ord {A B} `{OrdKey A, OrdKey B} : OrdKey (A * B) :=
  λ p q, then_with (kcmp p.1 q.1) (kcmp p.2 q.2).

#[export] Instance option_ord {A} `{OrdKey A} : OrdKey (option A) := λ x y,
  match x, y with
  | None, None => Eq
  | None, Some _ => Lt
  | Some _, None => Gt
  | Some a, Some b => kcmp a b
  end.

Lemma kcmp_pair {A B} `{OrdKey A, OrdKey B} (a c : A) (b d : B) :
  kcmp (a, b) (c, d) = then_with (kcmp a c) (kcmp b d).
Proof. done. Qed.
Lemma kcmp_Some {A} `{OrdKey A} (a b : A) : kcmp (Some a) (Some b) = kcmp a b.
Proof. done. Qed.

#[export] Instance prod_ord_laws {A B} `{OrdLaws A, OrdLaws B} : OrdLaws (A * B).
Proof.
  split.
  - intros [a b]. by rewrite kcmp_pair, !kcmp_refl.
  - intros [a b] [c d]. rewrite !kcmp_pair, (kcmp_antisym a c), (kcmp_antisym b d).
    by destruct (kcmp a c), (kcmp b d).
  - intros [a b] [c d] [e f]. rewrite !kcmp_pair.
    destruct (kcmp a c) eqn:E1; simpl; [| |done]; destruct (kcmp c e) eqn:E2; simpl; try done;
      intros Hbd Hdf.
    + rewrite (kcmp_congr _ _ _ E1), E2. simpl. by apply kcmp_trans with d.
    + by rewrite (kcmp_congr _ _ _ E1), E2.
    + by rewrite <- (kcmp_congr_r _ _ _ E2), E1.
    + by rewrite (kcmp_trans _ _ _ E1 E2).
  - intros [a b] [c d] [e f]. rewrite !kcmp_pair.
    destruct (kcmp a c) eqn:E1; simpl; [|done|done]. intros E2.
    by rewrite (kcmp_congr _ _ _ E1), (kcmp_congr _ _ _ E2).
Qed.

#[export] Instance prod_ord_leibniz {A B} `{OrdLaws A, OrdLaws B}
  `{!OrdLeibniz A, !OrdLeibniz B} : OrdLeibniz (A * B).
Proof.
  intros [a b] [c d]. rewrite kcmp_pair.
  destruct (kcmp a c) eqn:E1; simpl; [|done|done]. intros E2.
  by rewrite (kcmp_eq _ _ E1), (kcmp_eq _ _ E2).
Qed.

#[export] Instance option_ord_laws {A} `{OrdLaws A} : OrdLaws (option A).
Proof.
  split.
  - intros [a|]; [rewrite kcmp_Some; apply kcmp_refl|done].
  - intros [a|] [b|]; try done. rewrite !kcmp_Some. apply kcmp_antisym.
  - intros [a|] [b|] [c|]; try done. rewrite !kcmp_Some. apply kcmp_trans.
  - intros [a|] [b|] [c|]; try done. rewrite !kcmp_Some. apply kcmp_congr.
Qed.

#[export] Instance option_ord_leibniz {A} `{OrdLaws A} `{!OrdLeibniz A} : OrdLeibniz (option A).
Proof. intros [a|] [b|]; try done. rewrite kcmp_Some. intros E. f_equal. by apply kcmp_eq. Qed.
