(* ===== verification/Keyed.v ===== *)
(** * Keyed: lists of records with distinct keys, and merging updates into them

    Several snapshots keep a [Vec] of records with distinct identities and merge
    updates into it: find the record with the same identity, then replace it, remove
    it, or append a new one.  [MergeSpec] states what such an update does to each
    identity, and the lemmas lift it to sequences of updates and through sorting. *)
From stdpp Require Import base option list numbers strings gmap sorting.
From Stdlib Require Import ZArith Lia.
From S2P Require Import Prelude Text Ordered.
Local Open Scope list_scope.

Section keyed.
Context {A : Type} (key : A → string).

Definition klookup (l : list A) (k : string) : option A :=
  List.find (λ x, (key x =? k)%string) l.
Arguments klookup : simpl never.
Definition keys (l : list A) : list string := map key l.
Definition distinct (l : list A) : Prop := NoDup (keys l).

Lemma klookup_nil k : klookup [] k = None.
Proof. done. Qed.

Lemma klookup_cons x l k : klookup (x :: l) k = if decide (key x = k) then Some x else klookup l k.
Proof. unfold klookup. simpl. destruct (String.eqb_spec (key x) k); by case_decide. Qed.

Lemma klookup_app l1 l2 k :
  klookup (l1 ++ l2) k = match klookup l1 k with Some x => Some x | None => klookup l2 k end.
Proof.
  induction l1 as [|x l1 IH]; [done|]. rewrite <- app_comm_cons, !klookup_cons.
  by case_decide.
Qed.

Lemma klookup_Some_key l k x : klookup l k = Some x → key x = k ∧ x ∈ l.
Proof.
  induction l as [|y l IH]; [done|]. rewrite klookup_cons. case_decide.
  - intros [= <-]. split; [done|left].
  - intros [? ?]%IH. split; [done|by right].
Qed.

Lemma klookup_None l k : klookup l k = None ↔ k ∉ keys l.
Proof.
  induction l as [|x l IH]; [split; [intros _; apply not_elem_of_nil|done]|].
  rewrite klookup_cons. unfold keys in *. simpl. rewrite not_elem_of_cons, <- IH.
  case_decide; naive_solver.
Qed.

Lemma klookup_elem l x : distinct l → x ∈ l → klookup l (key x) = Some x.
Proof.
  unfold distinct, keys. induction l as [|y l IH]; [set_solver|]. simpl.
  intros [Hy Hl]%NoDup_cons. rewrite klookup_cons. intros [->|Hx]%elem_of_cons.
  - by rewrite decide_True.
  - rewrite decide_False; [by apply IH|]. intros Heq. apply Hy. rewrite Heq.
    by apply list_elem_of_fmap_2.
Qed.

Lemma klookup_perm l l' k : distinct l → l ≡ₚ l' → klookup l' k = klookup l k.
Proof.
  intros Hd Hp. assert (distinct l') as Hd' by (unfold distinct, keys in *; by rewrite <- Hp).
  destruct (klookup l k) as [x|] eqn:E.
  - apply klookup_Some_key in E as [<- Hx]. apply klookup_elem; [done|]. by rewrite <- Hp.
  - rewrite klookup_None in *. unfold keys in *. by rewrite <- Hp.
Qed.

(** ** The three ways in which a record changes *)
Lemma position_key_split l k i :
  position (λ x, (key x =? k)%string) l = Some i →
  ∃ l1 x l2, l = l1 ++ x :: l2 ∧ length l1 = i ∧ key x = k ∧ l !! i = Some x ∧ k ∉ keys l1.
Proof.
  intros Hp. destruct (position_Some _ _ _ Hp) as (x & Hx & Hk & Hlt). apply String.eqb_eq in Hk.
  exists (take i l), x, (drop (S i) l). split_and!; try done.
  - by apply vec_remove_split.
  - rewrite length_take. apply lookup_lt_Some in Hx. lia.
  - unfold keys. intros (y & Hy & Hin)%list_elem_of_fmap.
    apply list_elem_of_lookup in Hin as [j Hj]. apply lookup_take_Some in Hj as [Hj Hji].
    specialize (Hlt j y Hji Hj). simpl in Hlt. by rewrite <- Hy, String.eqb_refl in Hlt.
Qed.

Lemma position_key_None l k :
  position (λ x, (key x =? k)%string) l = None ↔ klookup l k = None.
Proof.
  rewrite position_None, klookup_None. unfold keys. rewrite list_elem_of_fmap, Forall_forall.
  split.
  - intros Hall (x & -> & Hx). specialize (Hall x Hx). simpl in Hall. by rewrite String.eqb_refl in Hall.
  - intros Hn x Hx. apply String.eqb_neq. intros <-. apply Hn. by exists x.
Qed.

Lemma distinct_app l1 l2 :
  distinct (l1 ++ l2) ↔ distinct l1 ∧ (∀ k, k ∈ keys l1 → k ∉ keys l2) ∧ distinct l2.
Proof. unfold distinct, keys. rewrite map_app. apply NoDup_app. Qed.

Lemma distinct_cons x l : distinct (x :: l) ↔ key x ∉ keys l ∧ distinct l.
Proof. unfold distinct, keys. simpl. apply NoDup_cons. Qed.

Lemma replace_keyed l k i y :
  distinct l → position (λ x, (key x =? k)%string) l = Some i → key y = k →
  distinct (<[i := y]> l) ∧
  ∀ k', klookup (<[i := y]> l) k' = if decide (k = k') then Some y else klookup l k'.
Proof.
  intros Hd (l1 & x & l2 & -> & <- & Hx & _ & Hn)%position_key_split Hy.
  rewrite insert_app_r_alt, Nat.sub_diag by done. simpl. split.
  - rewrite distinct_app, distinct_cons in *. unfold keys in *. simpl in *. by rewrite Hy, <- Hx.
  - intros k'. rewrite !klookup_app, !klookup_cons, Hx, Hy.
    destruct (decide (k = k')) as [<-|]; [|done].
    assert (klookup l1 k = None) as -> by (by apply klookup_None). done.
Qed.

Lemma remove_keyed l k i :
  distinct l → position (λ x, (key x =? k)%string) l = Some i →
  distinct (vec_remove i l) ∧
  ∀ k', klookup (vec_remove i l) k' = if decide (k = k') then None else klookup l k'.
Proof.
  intros Hd (l1 & x & l2 & -> & <- & Hx & _ & Hn)%position_key_split. unfold vec_remove.
  rewrite take_app_length, (drop_app_ge l1 _ (S (length l1))) by lia.
  replace (S (length l1) - length l1)%nat with 1%nat by lia. simpl. rewrite drop_0.
  rewrite distinct_app, distinct_cons in Hd. destruct Hd as (Hd1 & Hdis & Hx2 & Hd2). split.
  - rewrite distinct_app. split_and!; [done| |done]. intros k' Hk'. specialize (Hdis k' Hk').
    unfold keys in *. simpl in Hdis. by apply not_elem_of_cons in Hdis as [_ ?].
  - intros k'. rewrite !klookup_app, klookup_cons, Hx.
    destruct (decide (k = k')) as [<-|]; [|done].
    assert (klookup l1 k = None) as -> by (by apply klookup_None).
    apply klookup_None. by rewrite <- Hx.
Qed.

Lemma append_keyed l y :
  distinct l → klookup l (key y) = None →
  distinct (l ++ [y]) ∧
  ∀ k', klookup (l ++ [y]) k' = if decide (key y = k') then Some y else klookup l k'.
Proof.
  intros Hd Hn. split.
  - apply klookup_None in Hn. rewrite distinct_app, distinct_cons. unfold keys in *. simpl.
    split_and!; [done| |apply not_elem_of_nil|constructor].
    intros k Hk. rewrite list_elem_of_singleton. by intros ->.
  - intros k'. rewrite klookup_app, klookup_cons. case_decide as E; [subst; by rewrite Hn|].
    by destruct (klookup l k').
Qed.

(** Replace, remove or append, as most mergers do: an existing record yields only to a
    newer one, and a closed record is kept out of the list. *)
Definition upsert (supersedes closed : bool) (x : A) (l : list A) : list A :=
  match position (λ c, (key c =? key x)%string) l with
  | Some i => if supersedes then (if closed then vec_remove i l else <[i := x]> l) else l
  | None => if closed then l else l ++ [x]
  end.

Definition upsert_next (supersedes : A → bool) (closed : bool) (x : A) (current : option A)
    : option A :=
  let incoming := if closed then None else Some x in
  match current with
  | None => incoming
  | Some c => if supersedes c then incoming else Some c
  end.

Lemma position_key_lookup l k i :
  distinct l → position (λ x, (key x =? k)%string) l = Some i →
  ∃ c, l !! i = Some c ∧ klookup l k = Some c.
Proof.
  intros Hd (l1 & c & l2 & _ & _ & Hc & Hi & _)%position_key_split. exists c. split; [done|].
  rewrite <- Hc. apply klookup_elem; [done|]. by eapply list_elem_of_lookup_2.
Qed.

Lemma upsert_keyed l b (supersedes : A → bool) closed x :
  distinct l → (∀ c, klookup l (key x) = Some c → b = supersedes c) →
  distinct (upsert b closed x l) ∧
  ∀ k, klookup (upsert b closed x l) k =
       if decide (key x = k) then upsert_next supersedes closed x (klookup l k) else klookup l k.
Proof.
  intros Hd Hb. unfold upsert. destruct (position _ l) as [i|] eqn:Hp.
  - destruct (position_key_lookup _ _ _ Hd Hp) as (c & _ & Hc). rewrite (Hb c Hc).
    destruct (supersedes c) eqn:Hs; [destruct closed|].
    + destruct (remove_keyed l _ _ Hd Hp) as [Hd' Hl]. split; [done|]. intros k. rewrite Hl.
      case_decide; [subst|done]. by rewrite Hc; simpl; rewrite Hs.
    + destruct (replace_keyed l _ _ x Hd Hp eq_refl) as [Hd' Hl]. split; [done|]. intros k.
      rewrite Hl. case_decide; [subst|done]. by rewrite Hc; simpl; rewrite Hs.
    + split; [done|]. intros k. case_decide; [subst|done]. rewrite Hc. simpl. by rewrite Hs.
  - apply position_key_None in Hp. destruct closed.
    + split; [done|]. intros k. case_decide; [subst|done]. by rewrite Hp.
    + destruct (append_keyed l x Hd Hp) as [Hd' Hl]. split; [done|]. intros k. rewrite Hl.
      case_decide; [subst|done]. by rewrite Hp.
Qed.

(** What a record that took effect leaves behind *)
Lemma upsert_open_found l b x :
  b = true ∨ position (λ c, (key c =? key x)%string) l = None →
  ∃ i, position (λ c, (key c =? key x)%string) (upsert b false x l) = Some i ∧
       upsert b false x l !! i = Some x.
Proof.
  intros Hb. unfold upsert. destruct (position _ l) as [i|] eqn:Hp.
  - destruct Hb as [->|]; [|done]. exists i. split.
    + apply position_insert; [done|]. apply String.eqb_refl.
    + destruct (position_Some _ _ _ Hp) as (c & Hc & _).
      apply list_lookup_insert_eq. by eapply lookup_lt_Some.
  - exists (length l). split; [|apply list_lookup_middle; lia].
    apply position_snoc; [done|apply String.eqb_refl].
Qed.

Lemma upsert_closed_absent l b x :
  distinct l → b = true ∨ position (λ c, (key c =? key x)%string) l = None →
  position (λ c, (key c =? key x)%string) (upsert b true x l) = None.
Proof.
  intros Hd Hb. unfold upsert. destruct (position _ l) as [i|] eqn:Hp; [|done].
  destruct Hb as [->|]; [|done]. apply position_key_None.
  rewrite (proj2 (remove_keyed l _ _ Hd Hp)). by rewrite decide_True.
Qed.

(** ** Updates *)
Section merge.
Context {E U : Type} (apply : list A → U → result E (list A)) (norm : U → option A)
  (next : option A → A → option A).

(** An accepted update changes the record of its own identity only, by [next]. *)
Definition MergeSpec : Prop := ∀ l u l',
  distinct l → apply l u = Ok l' →
  ∃ x, norm u = Some x ∧ distinct l' ∧
       ∀ k, klookup l' k = if decide (key x = k) then next (klookup l k) x else klookup l k.

(** The records of one identity among the updates, in order *)
Definition updates_of (k : string) (us : list U) : list A :=
  filter (λ x, key x = k) (omap norm us).

Lemma merge_fold l us l' :
  MergeSpec → distinct l → try_fold apply l us = Ok l' →
  distinct l' ∧ ∀ k, klookup l' k = foldl next (klookup l k) (updates_of k us).
Proof.
  intros Hspec. revert l. induction us as [|u us IH]; intros l Hd Hf.
  - injection Hf as <-. done.
  - simpl in Hf. apply bind_ok in Hf as (l1 & H1 & Hf).
    destruct (Hspec _ _ _ Hd H1) as (x & Hx & Hd1 & Hl1).
    destruct (IH l1 Hd1 Hf) as [Hd' Hl']. split; [done|]. intros k.
    rewrite Hl', Hl1. unfold updates_of. simpl. rewrite Hx.
    destruct (decide (key x = k)) as [Hk|Hk].
    + by rewrite filter_cons_True.
    + by rewrite filter_cons_False.
Qed.
End merge.
End keyed.

(** Dropping the elements whose key was seen: the loops that refuse duplicates *)
Lemma sort_keyed {A} (key : A → string) cmp l k :
  distinct key l → distinct key (sort_by cmp l) ∧
                   klookup key (sort_by cmp l) k = klookup key l k.
Proof.
  intros Hd. pose proof (sort_by_perm cmp l) as Hp. split.
  - unfold distinct, keys in *. by rewrite Hp.
  - by apply klookup_perm.
Qed.

(** ** Loops that refuse a second record of the same identity *)
Section collect.
Context {A : Type} (key : A → string).

Record collected (l : list A) (seen : gset string) : Prop := {
  collected_distinct : distinct key l;
  collected_seen : ∀ k, k ∈ seen ↔ k ∈ keys key l;
}.

Lemma collected_nil : collected [] ∅.
Proof. split; [constructor|]. intros k. unfold keys. simpl. set_solver. Qed.

Lemma collected_snoc l seen x :
  collected l seen → key x ∉ seen → collected (l ++ [x]) ({[key x]} ∪ seen).
Proof.
  intros [Hd Hs] Hx. rewrite Hs in Hx. split.
  - by apply append_keyed; [|apply klookup_None].
  - intros k. unfold keys in *. rewrite map_app, elem_of_app, elem_of_union, Hs. simpl. set_solver.
Qed.

(** Distinct keys make a sorted list strictly sorted. *)
Lemma sort_by_key_strict l :
  distinct key l →
  StronglySorted (λ x y, kcmp (key x) (key y) = Lt) (sort_by (cmp_on key) l).
Proof.
  intros Hd. apply sorted_strict.
  - rewrite sort_by_perm. by apply NoDup_fmap_1 in Hd.
  - intros x y Hx Hy Hk%kcmp_eq. apply sort_by_elem in Hx, Hy.
    apply (klookup_elem key l) in Hx, Hy; [|done|done]. rewrite Hk in Hx. congruence.
  - apply sort_by_key_sorted.
Qed.
End collect.

(** A map that keeps the comparison commutes with sorting. *)
Lemma sort_by_map {A B} (f : A → B) cmpA cmpB l :
  (∀ x y, cmpB (f x) (f y) = cmpA x y) → map f (sort_by cmpA l) = sort_by cmpB (map f l).
Proof.
  intros Hf. induction l as [|x l IH]; simpl; [done|]. rewrite <- IH.
  generalize (sort_by cmpA l) as s. induction s as [|y s IHs]; simpl; [done|].
  rewrite Hf. destruct (cmpA x y); simpl; [done|done|]. by rewrite IHs.
Qed.
