(* ===== verification/External.v ===== *)
(** * External: the interfaces of the code that is not in the repository

    [serde_json::to_vec], [Sha256::digest] and [rust_decimal::Decimal] come from
    third-party crates.  They are parameters of every definition that uses them:
    [Hashing] and [Serialize] stand for the digest of a serialized value, and
    [DecimalOps] for parsing and comparing decimals.  [Fixed] is a concrete
    decimal (an integer mantissa and a scale) on which witnesses are evaluated. *)
From stdpp Require Import base option list numbers strings.
From Stdlib Require Import ZArith Lia Ascii String.
From S2P Require Import Prelude Text Ordered.

(** [sha256_hex] is [format!("{:x}", Sha256::digest(bytes))]. *)
Class Hashing : Type := {
  SerdeError : Type;
  sha256_hex : string → string;
}.

(** [serde_json::to_vec] at one type *)
Class Serialize `{Hashing} (T : Type) : Type := to_vec : T → result SerdeError string.

(** The generation identity of a value: ["sha256:" ++ hex digest] of its JSON. *)
Definition digest_json `{Hashing} {T} `{!Serialize T} (x : T) : result SerdeError string :=
  encoded ← to_vec x; Ok ("sha256:" +:+ sha256_hex encoded).

(** [serde_json::from_value] at one type; [json] is [serde_json::Value]. *)
Class Decode `{Hashing} (json T : Type) : Type := from_value : json → result SerdeError T.

(** The part of [rust_decimal::Decimal] that orders and parses numbers *)
Class DecimalOps (D : Type) : Type := {
  dec_ord :: OrdKey D;
  dec_zero : D;
  dec_from_str : string → option D;
}.
Definition dec_ltb {D} `{DecimalOps D} (x y : D) : bool :=
  match kcmp x y with Lt => true | _ => false end.
Definition dec_leb {D} `{DecimalOps D} (x y : D) : bool :=
  match kcmp x y with Gt => false | _ => true end.
Definition dec_eqb {D} `{DecimalOps D} (x y : D) : bool :=
  match kcmp x y with Eq => true | _ => false end.

(** ** A concrete decimal: [mantissa / 10 ^ scale] *)
Module Fixed.
Record t : Type := mk { mantissa : Z; scale : nat }.

Definition pow10 (n : nat) : Z := (10 ^ Z.of_nat n)%Z.

Definition compare (x y : t) : comparison :=
  Z.compare (mantissa x * pow10 (scale y)) (mantissa y * pow10 (scale x)).

Fixpoint parse_frac (acc : Z) (sc : nat) (s : string) : option t :=
  match s with
  | EmptyString => Some (mk acc sc)
  | String a s' => d ← digit a; parse_frac (acc * 10 + d) (S sc) s'
  end.

Fixpoint parse_int (acc : Z) (s : string) : option t :=
  match s with
  | EmptyString => Some (mk acc 0)
  | String a s' =>
    if (a =? ".")%char then parse_frac acc 0 s' else d ← digit a; parse_int (acc * 10 + d) s'
  end.

Definition parse (s : string) : option t :=
  match s with
  | EmptyString => None
  | String a s' =>
    if (a =? "-")%char
    then x ← parse_int 0 s'; Some (mk (- mantissa x) (scale x))
    else parse_int 0 s
  end.

Lemma pow10_pos n : (0 < pow10 n)%Z.
Proof. unfold pow10. apply Z.pow_pos_nonneg; lia. Qed.

Lemma compare_congr x y z : compare x y = Eq → compare x z = compare y z.
Proof.
  unfold compare. rewrite Z.compare_eq_iff.
  pose proof (pow10_pos (scale x)). pose proof (pow10_pos (scale y)).
  pose proof (pow10_pos (scale z)). intros Hxy.
  destruct (Z.compare_spec (mantissa x * pow10 (scale z)) (mantissa z * pow10 (scale x)));
    destruct (Z.compare_spec (mantissa y * pow10 (scale z)) (mantissa z * pow10 (scale y)));
    try done; exfalso; nia.
Qed.

Lemma compare_trans x y z : compare x y = Lt → compare y z = Lt → compare x z = Lt.
Proof.
  unfold compare. rewrite !Z.compare_lt_iff.
  pose proof (pow10_pos (scale x)). pose proof (pow10_pos (scale y)).
  pose proof (pow10_pos (scale z)). intros. nia.
Qed.
End Fixed.

#[export] Instance fixed_decimal : DecimalOps Fixed.t := {
  dec_ord := Fixed.compare;
  dec_zero := Fixed.mk 0 0;
  dec_from_str := Fixed.parse;
}.

#[export] Instance fixed_ord_laws : OrdLaws Fixed.t.
Proof.
  split; unfold kcmp; simpl.
  - intros x. apply Z.compare_refl.
  - intros x y. apply Z.compare_antisym.
  - apply Fixed.compare_trans.
  - apply Fixed.compare_congr.
Qed.

(** A digest and a serializer on which witnesses are evaluated. *)
Definition toy_hashing : Hashing := {| SerdeError := unit; sha256_hex := λ s, s |}.
Definition toy_serialize {T} : @Serialize toy_hashing T := λ _, Ok "x"%string.
