(* ===== verification/Wire.v ===== *)
(** * Wire: the records that enter the engine from the exchange

    The row types of [okx-api/src/{market_data,public_data,account}.rs], the
    channel and subscription types of [okx-ws/src/{protocol,private_protocol}.rs],
    and the two pure functions on them.  Every text field is a [string]; the JSON
    decoding that fills them is [serde]'s and is not modelled. *)
From stdpp Require Import base option list numbers strings gmap.
From Stdlib Require Import ZArith.
From S2P Require Import Prelude Text External.
Local Open Scope string_scope.

(** ** Instruments *)
Inductive InstrumentType : Type := Swap | Futures.
#[export] Instance InstrumentType_eq_dec : EqDecision InstrumentType.
Proof. solve_decision. Defined.

(** [Display for InstrumentType] *)
Definition instrument_type_text (t : InstrumentType) : string :=
  match t with Swap => "SWAP" | Futures => "FUTURES" end.

Record UpcomingParameterChange : Type := {
  upc_param : string;
  upc_new_value : string;
  upc_effective_time_ms : string;
}.

Record PublicPriceLimit : Type := {
  ppl_instrument_id : string;
  ppl_buy_limit : string;
  ppl_sell_limit : string;
  ppl_timestamp_ms : string;
}.

Record SystemStatus : Type := {
  sys_id : string;
  sys_title : string;
  sys_state : string;
  sys_begin : string;
  sys_end : string;
  sys_href : string;
  sys_service_type : string;
  sys_system : string;
  sys_schedule_description : string;
  sys_maintenance_type : string;
  sys_env : string;
}.

Record PublicInstrument : Type := {
  pi_instrument_type : string;
  pi_instrument_id : string;
  pi_instrument_family : string;
  pi_underlying : string;
  pi_state : string;
  pi_rule_type : string;
  pi_base_currency : string;
  pi_quote_currency : string;
  pi_settle_currency : string;
  pi_tick_size : string;
  pi_lot_size : string;
  pi_min_size : string;
  pi_max_limit_size : string;
  pi_max_market_size : string;
  pi_max_limit_amount : string;
  pi_max_market_amount : string;
  pi_contract_type : string;
  pi_contract_value : string;
  pi_contract_value_currency : string;
  pi_fee_group_id : string;
  pi_lever : string;
  pi_list_time : string;
  pi_expiry_time : string;
  pi_initial_price_limit_pct : string;
  pi_floating_price_limit_pct : string;
  pi_maximum_price_limit_pct : string;
  pi_upcoming_parameter_changes : list UpcomingParameterChange;
}.

(** ** Market rows *)
Record PublicTicker : Type := {
  tk_instrument_type : string;
  tk_instrument_id : string;
  tk_last : string;
  tk_last_size : string;
  tk_ask_price : string;
  tk_ask_size : string;
  tk_bid_price : string;
  tk_bid_size : string;
  tk_open_24h : string;
  tk_high_24h : string;
  tk_low_24h : string;
  tk_volume_currency_24h : string;
  tk_volume_24h : string;
  tk_sod_utc0 : string;
  tk_sod_utc8 : string;
  tk_ts : string;
}.

Record PublicMarkPrice : Type := {
  mp_instrument_type : string;
  mp_instrument_id : string;
  mp_mark_price : string;
  mp_ts : string;
}.

Record PublicIndexTicker : Type := {
  ix_instrument_id : string;
  ix_index_price : string;
  ix_open_24h : string;
  ix_high_24h : string;
  ix_low_24h : string;
  ix_sod_utc0 : string;
  ix_sod_utc8 : string;
  ix_ts : string;
}.

Record PublicFundingRate : Type := {
  fr_instrument_type : string;
  fr_instrument_id : string;
  fr_funding_rate : string;
  fr_funding_time : string;
  fr_next_funding_time : string;
  fr_impact_value : string;
  fr_interest_rate : string;
  fr_premium : string;
  fr_min_funding_rate : string;
  fr_max_funding_rate : string;
  fr_method : string;
  fr_formula_type : string;
  fr_settlement_state : string;
  fr_settled_funding_rate : string;
  fr_ts : string;
}.

Record PublicOpenInterest : Type := {
  oi_instrument_type : string;
  oi_instrument_id : string;
  oi_oi : string;
  oi_oi_currency : string;
  oi_oi_usd : string;
  oi_ts : string;
}.

Record PublicOpenInterestHistory : Type := {
  oih_oi : string;
  oih_oi_currency : string;
  oih_ts : string;
}.

Record PublicTrade : Type := {
  tr_instrument_id : string;
  tr_trade_id : string;
  tr_price : string;
  tr_size : string;
  tr_side : string;
  tr_source : string;
  tr_timestamp_ms : string;
}.

Record PublicFundingHistory : Type := {
  fh_instrument_type : string;
  fh_instrument_id : string;
  fh_funding_rate : string;
  fh_funding_time_ms : string;
  fh_realized_rate : string;
  fh_formula_type : string;
  fh_method : string;
}.

Record PublicCandle : Type := {
  cd_timestamp_ms : string;
  cd_open : string;
  cd_high : string;
  cd_low : string;
  cd_close : string;
  cd_volume : string;
  cd_volume_currency : string;
  cd_volume_quote : option string;
  cd_confirm : string;
}.

(** ** Account rows *)
Record AccountConfig : Type := {
  ac_account_level : string;
  ac_position_mode : string;
  ac_uid : string;
  ac_main_uid : string;
  ac_account_type : string;
  ac_account_stp_mode : string;
  ac_auto_loan : bool;
  ac_greeks_type : string;
  ac_fee_type : string;
  ac_label : string;
  ac_ip : string;
  ac_perm : string;
}.

Record Instrument : Type := {
  ai_instrument_type : string;
  ai_instrument_id : string;
  ai_instrument_family : string;
  ai_state : string;
  ai_lever : string;
  ai_contract_type : string;
  ai_fee_group_id : string;
  ai_max_limit_size : string;
  ai_max_market_size : string;
  ai_position_limit_amount_usd : string;
  ai_position_limit_pct : string;
  ai_platform_open_interest_limit_usd : string;
  ai_platform_open_interest_limit_coin : string;
  ai_long_position_remaining_quota_usd : string;
  ai_short_position_remaining_quota_usd : string;
}.

Record MaxOrderSize : Type := {
  mos_instrument_id : string;
  mos_ccy : string;
  mos_max_buy : string;
  mos_max_sell : string;
}.

Record BalanceDetail : Type := {
  bd_liabilities : string;
  bd_ccy : string;
  bd_equity : string;
  bd_cash_balance : string;
  bd_available_equity : string;
  bd_available_balance : string;
  bd_frozen_balance : string;
  bd_equity_usd : string;
  bd_unrealized_pnl : string;
  bd_update_time : string;
}.

Record BalanceSnapshot : Type := {
  bs_total_equity : string;
  bs_adjusted_equity : string;
  bs_isolated_equity : string;
  bs_initial_margin_requirement : string;
  bs_maintenance_margin_requirement : string;
  bs_margin_ratio : string;
  bs_notional_usd : string;
  bs_update_time : string;
  bs_details : list BalanceDetail;
}.

Record Position : Type := {
  ps_instrument_type : string;
  ps_instrument_id : string;
  ps_pos : string;
  ps_position_side : string;
  ps_margin_mode : string;
  ps_average_price : string;
  ps_mark_price : string;
  ps_liquidation_price : string;
  ps_unrealized_pnl : string;
  ps_unrealized_pnl_ratio : string;
  ps_lever : string;
  ps_margin : string;
  ps_initial_margin_requirement : string;
  ps_maintenance_margin_requirement : string;
  ps_margin_ratio : string;
  ps_notional_usd : string;
  ps_ccy : string;
  ps_creation_time : string;
  ps_update_time : string;
}.

Record PendingOrder : Type := {
  po_instrument_type : string;
  po_instrument_id : string;
  po_order_id : string;
  po_client_order_id : string;
  po_side : string;
  po_position_side : string;
  po_trade_mode : string;
  po_order_type : string;
  po_px : string;
  po_sz : string;
  po_accumulated_fill_size : string;
  po_average_fill_price : string;
  po_state : string;
  po_reduce_only : string;
  po_creation_time : string;
  po_update_time : string;
}.

(** ** Names of account modes and types *)
Definition account_mode_name (account_level : string) : string :=
  if account_level =? "1" then "spot"
  else if account_level =? "2" then "futures"
  else if account_level =? "3" then "multi_currency_margin"
  else if account_level =? "4" then "portfolio_margin"
  else "unknown".

Definition account_type_name (account_type : string) : string :=
  if account_type =? "0" then "main"
  else if account_type =? "1" then "standard_subaccount"
  else if account_type =? "2" then "managed_trading_subaccount"
  else if account_type =? "5" then "custody_copper"
  else if account_type =? "9" then "managed_trading_copper"
  else if account_type =? "12" then "custody_komainu"
  else "unknown".

Definition account_uid_fingerprint `{Hashing} (uid : string) : string := sha256_hex uid.

(** ** Public channels and subscriptions *)
Inductive PublicChannel : Type :=
| Instruments | Tickers | MarkPrice | IndexTickers | FundingRate | OpenInterest | Books.

Record WsArg : Type := {
  arg_channel : PublicChannel;
  arg_instrument_type : option string;
  arg_instrument_family : option string;
  arg_instrument_id : option string;
}.

Record Subscription : Type := {
  sub_channel : PublicChannel;
  sub_instrument_type : option string;
  sub_instrument_family : option string;
  sub_instrument_id : option string;
}.

Definition subscription_instrument (c : PublicChannel) (instrument_id : string) : Subscription :=
  {| sub_channel := c; sub_instrument_type := None; sub_instrument_family := None;
     sub_instrument_id := Some instrument_id |}.

Definition subscription_instrument_type (c : PublicChannel) (instrument_type : string)
    : Subscription :=
  {| sub_channel := c; sub_instrument_type := Some instrument_type;
     sub_instrument_family := None; sub_instrument_id := None |}.

(** ** Private channels and subscriptions *)
Inductive PrivateChannel : Type := ChAccount | ChPositions | ChOrders | ChOrdersAlgo.

Record PrivateWsArg : Type := {
  parg_channel : PrivateChannel;
  parg_ccy : option string;
  parg_instrument_type : option string;
  parg_instrument_family : option string;
  parg_instrument_id : option string;
}.

Record PrivateSubscription : Type := {
  psub_channel : PrivateChannel;
  psub_ccy : option string;
  psub_instrument_type : option string;
  psub_instrument_family : option string;
  psub_instrument_id : option string;
}.

Definition private_any (c : PrivateChannel) : PrivateSubscription :=
  {| psub_channel := c; psub_ccy := None; psub_instrument_type := Some "ANY";
     psub_instrument_family := None; psub_instrument_id := None |}.
Definition psub_account : PrivateSubscription :=
  {| psub_channel := ChAccount; psub_ccy := None; psub_instrument_type := None;
     psub_instrument_family := None; psub_instrument_id := None |}.
Definition psub_positions_any : PrivateSubscription := private_any ChPositions.
Definition psub_orders_any : PrivateSubscription := private_any ChOrders.
Definition psub_orders_algo_any : PrivateSubscription := private_any ChOrdersAlgo.

(** ** Decidable equality and countability of the subscriptions, kept in sets *)
#[export] Instance PublicChannel_eq_dec : EqDecision PublicChannel.
Proof. solve_decision. Defined.
Definition channel_tag (c : PublicChannel) : nat :=
  match c with
  | Instruments => 0 | Tickers => 1 | MarkPrice => 2 | IndexTickers => 3
  | FundingRate => 4 | OpenInterest => 5 | Books => 6
  end.
Definition tag_channel (n : nat) : PublicChannel :=
  match n with
  | 0 => Instruments | 1 => Tickers | 2 => MarkPrice | 3 => IndexTickers
  | 4 => FundingRate | 5 => OpenInterest | _ => Books
  end.
#[export] Instance PublicChannel_countable : Countable PublicChannel.
Proof. apply (inj_countable' channel_tag tag_channel). by intros []. Defined.

#[export] Instance Subscription_eq_dec : EqDecision Subscription.
Proof. solve_decision. Defined.
#[export] Instance Subscription_countable : Countable Subscription.
Proof.
  apply (inj_countable'
    (λ s, (sub_channel s, sub_instrument_type s, sub_instrument_family s, sub_instrument_id s))
    (λ '(a, b, c, d), Build_Subscription a b c d)).
  by intros [].
Defined.

#[export] Instance PrivateChannel_eq_dec : EqDecision PrivateChannel.
Proof. solve_decision. Defined.
Definition pchannel_tag (c : PrivateChannel) : nat :=
  match c with ChAccount => 0 | ChPositions => 1 | ChOrders => 2 | ChOrdersAlgo => 3 end.
Definition tag_pchannel (n : nat) : PrivateChannel :=
  match n with 0 => ChAccount | 1 => ChPositions | 2 => ChOrders | _ => ChOrdersAlgo end.
#[export] Instance PrivateChannel_countable : Countable PrivateChannel.
Proof. apply (inj_countable' pchannel_tag tag_pchannel). by intros []. Defined.

#[export] Instance PrivateSubscription_eq_dec : EqDecision PrivateSubscription.
Proof. solve_decision. Defined.
#[export] Instance PrivateSubscription_countable : Countable PrivateSubscription.
Proof.
  apply (inj_countable'
    (λ s, (psub_channel s, psub_ccy s, psub_instrument_type s, psub_instrument_family s,
           psub_instrument_id s))
    (λ '(a, b, c, d, e), Build_PrivateSubscription a b c d e)).
  by intros [].
Defined.
