(* ===== verification/Clock.v ===== *)
(** * Clock: exchange-clock evidence and request deadlines, [okx-api/src/clock.rs]

    A sample of the exchange's clock gives an estimate of the server time, used to
    stamp a mutation and to bound its life by [expTime]; the estimate is carried to
    the moment of sending by the monotonic clock alone.  [Instant]s and [Duration]s
    are integers of nanoseconds, milliseconds are [u64] and [i64] in [Z]; every
    reading of a clock is an argument.  The calendar text of a millisecond is chrono's. *)
From stdpp Require Import base option list numbers strings pretty.
From Stdlib Require Import ZArith Lia.
From S2P Require Import Prelude Text.
Local Open Scope string_scope.
Local Open Scope list_scope.
Local Open Scope Z_scope.

(** ** Data *)
Definition MAX_CLOCK_ABS_OFFSET_MS : Z := 5000.
Definition MAX_CLOCK_RTT_MS : Z := 2000.
Definition MAX_CLOCK_EVIDENCE_AGE_MS : Z := 2000.
Definition MUTATION_REQUEST_TTL_MS : Z := 5000.
Definition MAX_MUTATION_REQUEST_TTL_MS : Z := 10000.

(** The one variant of [OkxError] this file raises *)
Inductive ClockError : Type := Clock (message : string).

Record ClockEvidenceSnapshot : Type := {
  ces_server_time_ms : Z;
  ces_local_midpoint_ms : Z;
  ces_offset_ms : Z;
  ces_round_trip_ms : Z;
  ces_age_ms : Z;
  ces_max_abs_offset_ms : Z;
  ces_max_round_trip_ms : Z;
  ces_max_age_ms : Z;
  ces_accepted : bool;
}.

Record ClockEvidence : Type := {
  ce_server_time_ms : Z;
  ce_local_midpoint_ms : Z;
  ce_offset_ms : Z;
  ce_round_trip_ms : Z;
  ce_observed_at : Z;
}.

Record MutationTiming : Type := {
  mt_request_time_ms : Z;
  mt_request_timestamp : string;
  mt_exp_time_ms : Z;
  mt_issued_at : Z;
}.

(** [Utc.timestamp_millis_opt(v).single()] and its [to_rfc3339_opts(Millis, true)] *)
Class Chrono : Type := rfc3339_millis : Z → option string.

(** [Duration::as_millis], [Instant::elapsed] (which saturates at zero) and
    [u64::try_from], [i64::try_from] *)
Definition as_millis (duration : Z) : Z := duration / 1000000.
Definition elapsed (instant now : Z) : Z := Z.max 0 (now - instant).
Definition u64_try_from (x : Z) : option Z :=
  if (0 <=? x) && (x <=? u64_max) then Some x else None.
Definition i64_try_from (x : Z) : option Z :=
  if (i64_min <=? x) && (x <=? i64_max) then Some x else None.

Section clock.
Context `{Chrono}.

(** ** Evidence *)
Definition from_sample (server_time_ms local_started_ms round_trip observed_at : Z)
    : result ClockError ClockEvidence :=
  round_trip_ms ← ok_or (Clock "clock round-trip duration overflowed u64")
                        (u64_try_from (as_millis round_trip));
  local_midpoint_ms ← ok_or (Clock "clock midpoint overflowed u64")
                            (checked_add_u64 local_started_ms (round_trip_ms / 2));
  offset_ms ← ok_or (Clock "clock offset overflowed i64")
                    (i64_try_from (server_time_ms - local_midpoint_ms));
  Ok {| ce_server_time_ms := server_time_ms;
        ce_local_midpoint_ms := local_midpoint_ms;
        ce_offset_ms := offset_ms;
        ce_round_trip_ms := round_trip_ms;
        ce_observed_at := observed_at |}.

(** [fetch_clock_evidence] after the admission: the rows of the response, the wall
    clock and the instant before the request, the instant the response was decoded at
    and the one of the last line *)
Definition fetch_clock_evidence (rows : list string) (local_started_ms started decoded observed_at : Z)
    : result ClockError ClockEvidence :=
  match rows with
  | [ts] =>
    server_time_ms ← ok_or (Clock "OKX server time is not a Unix millisecond timestamp")
                           (parse_u64 ts);
    from_sample server_time_ms local_started_ms (elapsed started decoded) observed_at
  | _ => Err (Clock ("expected exactly one OKX server-time row, found "
                     +:+ pretty (length rows)))
  end.

Definition snapshot (self : ClockEvidence) (now : Z) : ClockEvidenceSnapshot :=
  let age_ms := default u64_max (u64_try_from (as_millis (elapsed (ce_observed_at self) now))) in
  let accepted := (Z.abs (ce_offset_ms self) <=? MAX_CLOCK_ABS_OFFSET_MS)
                  && (ce_round_trip_ms self <=? MAX_CLOCK_RTT_MS)
                  && (age_ms <=? MAX_CLOCK_EVIDENCE_AGE_MS) in
  {| ces_server_time_ms := ce_server_time_ms self;
     ces_local_midpoint_ms := ce_local_midpoint_ms self;
     ces_offset_ms := ce_offset_ms self;
     ces_round_trip_ms := ce_round_trip_ms self;
     ces_age_ms := age_ms;
     ces_max_abs_offset_ms := MAX_CLOCK_ABS_OFFSET_MS;
     ces_max_round_trip_ms := MAX_CLOCK_RTT_MS;
     ces_max_age_ms := MAX_CLOCK_EVIDENCE_AGE_MS;
     ces_accepted := accepted |}.

(** ** Deadlines *)
Definition timestamp_from_unix_ms (value : Z) : result ClockError string :=
  value ← ok_or (Clock "Unix millisecond timestamp exceeds i64") (i64_try_from value);
  ok_or (Clock "invalid Unix millisecond timestamp") (rfc3339_millis value).

(** [now] is the [Instant::now()] of the last line *)
Definition from_exchange_time_ms (request_time_ms ttl_ms now : Z)
    : result ClockError MutationTiming :=
  if (ttl_ms =? 0) || (MAX_MUTATION_REQUEST_TTL_MS <? ttl_ms)
  then Err (Clock ("mutation request TTL must be within 1..="
                   +:+ pretty MAX_MUTATION_REQUEST_TTL_MS +:+ " ms")) else
  request_timestamp ← timestamp_from_unix_ms request_time_ms;
  exp_time_ms ← ok_or (Clock "mutation deadline overflowed u64")
                      (checked_add_u64 request_time_ms ttl_ms);
  Ok {| mt_request_time_ms := request_time_ms;
        mt_request_timestamp := request_timestamp;
        mt_exp_time_ms := exp_time_ms;
        mt_issued_at := now |}.

Definition unsafe_evidence (s : ClockEvidenceSnapshot) : string :=
  "unsafe mutation clock evidence: offset_ms=" +:+ pretty (ces_offset_ms s)
  +:+ " round_trip_ms=" +:+ pretty (ces_round_trip_ms s)
  +:+ " age_ms=" +:+ pretty (ces_age_ms s)
  +:+ " bounds=offset<=" +:+ pretty (ces_max_abs_offset_ms s)
  +:+ " rtt<=" +:+ pretty (ces_max_round_trip_ms s)
  +:+ " age<=" +:+ pretty (ces_max_age_ms s).

(** The snapshot is taken at [now], the timing issued at [issued]. *)
Definition mutation_timing (self : ClockEvidence) (ttl_ms now issued : Z)
    : result ClockError MutationTiming :=
  let s := snapshot self now in
  if negb (ces_accepted s) then Err (Clock (unsafe_evidence s)) else
  estimated_server_now_ms ←
    ok_or (Clock "estimated server time overflowed u64")
      (value ← checked_add_u64 (ce_server_time_ms self) (ce_round_trip_ms self / 2);
       checked_add_u64 value (ces_age_ms s));
  from_exchange_time_ms estimated_server_now_ms ttl_ms issued.

Definition refreshed_after_elapsed_ms (self : MutationTiming) (elapsed_ms issued : Z)
    : result ClockError MutationTiming :=
  fresh_server_now_ms ← ok_or (Clock "mutation monotonic clock overflowed")
                              (checked_add_u64 (mt_request_time_ms self) elapsed_ms);
  let original_ttl_ms := mt_exp_time_ms self - mt_request_time_ms self in
  from_exchange_time_ms fresh_server_now_ms original_ttl_ms issued.

Definition refreshed_for_send (self : MutationTiming) (now issued : Z)
    : result ClockError MutationTiming :=
  elapsed_ms ← ok_or (Clock "mutation monotonic age overflowed u64")
                     (u64_try_from (as_millis (elapsed (mt_issued_at self) now)));
  refreshed_after_elapsed_ms self elapsed_ms issued.
End clock.

(** ** Facts *)
Lemma u64_try_from_ok x y : u64_try_from x = Some y → y = x ∧ in_u64 x.
Proof. unfold u64_try_from, in_u64. intros H. bool_cases; [|done]. reflect_bools. naive_solver. Qed.

Lemma checked_add_ok a b c : checked_add_u64 a b = Some c → c = a + b ∧ a + b ≤ u64_max.
Proof. unfold checked_add_u64. intros H. bool_cases; [|done]. reflect_bools. naive_solver. Qed.

Lemma as_millis_floor d : as_millis d * 1000000 ≤ d < as_millis d * 1000000 + 1000000.
Proof. unfold as_millis. pose proof (Z.div_mod d 1000000). pose proof (Z.mod_pos_bound d 1000000). lia. Qed.

Lemma elapsed_past i now : i ≤ now → elapsed i now = now - i.
Proof. unfold elapsed. lia. Qed.

Section facts.
Context `{Chrono}.

Lemma from_sample_ok server started rtt observed ce :
  from_sample server started rtt observed = Ok ce →
  ce_server_time_ms ce = server ∧ ce_round_trip_ms ce = as_millis rtt ∧ 0 ≤ as_millis rtt
  ∧ ce_offset_ms ce = server - (started + as_millis rtt / 2) ∧ ce_observed_at ce = observed.
Proof.
  unfold from_sample. intros E. inv_ok E. injection E as <-. simpl.
  apply ok_or_ok, u64_try_from_ok in Ha as [-> Hr]. apply ok_or_ok, checked_add_ok in Ha0 as [-> _].
  apply ok_or_ok in Ha1. unfold i64_try_from in Ha1. bool_cases; [|done]. unfold in_u64 in Hr. naive_solver lia.
Qed.

Lemma from_exchange_ok request ttl issued m :
  from_exchange_time_ms request ttl issued = Ok m →
  ttl ≠ 0 ∧ ttl ≤ MAX_MUTATION_REQUEST_TTL_MS ∧ mt_request_time_ms m = request
  ∧ mt_exp_time_ms m = request + ttl ∧ mt_issued_at m = issued.
Proof.
  unfold from_exchange_time_ms. intros E. bool_cases; [done|]. reflect_bools. inv_ok E.
  injection E as <-. simpl. apply ok_or_ok, checked_add_ok in Ha0 as [-> _]. done.
Qed.

Lemma mutation_timing_ok self ttl now issued m :
  mutation_timing self ttl now issued = Ok m →
  Z.abs (ce_offset_ms self) ≤ MAX_CLOCK_ABS_OFFSET_MS ∧ ce_round_trip_ms self ≤ MAX_CLOCK_RTT_MS
  ∧ as_millis (elapsed (ce_observed_at self) now) ≤ MAX_CLOCK_EVIDENCE_AGE_MS
  ∧ from_exchange_time_ms (ce_server_time_ms self + ce_round_trip_ms self / 2
                           + as_millis (elapsed (ce_observed_at self) now)) ttl issued = Ok m.
Proof.
  unfold mutation_timing, snapshot. simpl. intros E.
  destruct (negb _) eqn:Eg; [done|]. reflect_bools. inv_ok E. apply ok_or_ok in Ha.
  destruct (u64_try_from (as_millis (elapsed (ce_observed_at self) now))) as [age|] eqn:Eage;
    simpl in *; [|unfold MAX_CLOCK_EVIDENCE_AGE_MS, u64_max in *; lia].
  apply u64_try_from_ok in Eage as [-> _].
  destruct (checked_add_u64 (ce_server_time_ms self) _) eqn:E1; [|done]. simpl in Ha.
  apply checked_add_ok in E1 as [-> _], Ha as [-> _]. done.
Qed.
End facts.

(** ** The deadline of a mutation, against the exchange's own clock

    The exchange's clock is assumed to run at the rate of the process's [Instant]s: at
    instant [t] it shows [epoch + t] nanoseconds, that is [server_ms epoch t]. *)
Definition server_ms (epoch t : Z) : Z := as_millis (epoch + t).

(** A timing refreshed any number of times, each reading of the clock no earlier than
    the previous one *)
Inductive refreshes `{Chrono} : MutationTiming → MutationTiming → Prop :=
| refreshes_nil m : refreshes m m
| refreshes_snoc m m1 m2 now issued :
    refreshes m m1 → mt_issued_at m1 ≤ now ≤ issued →
    refreshed_for_send m1 now issued = Ok m2 → refreshes m m2.

(** What a timing promises: the estimate is at most [lead] ns ahead of the exchange *)
Definition timing_ok (epoch lead ttl : Z) (m : MutationTiming) : Prop :=
  mt_exp_time_ms m = mt_request_time_ms m + ttl
  ∧ mt_request_time_ms m * 1000000 ≤ epoch + mt_issued_at m + lead.

Section deadline.
Context `{Chrono}.

Lemma refreshed_ok m now issued m' :
  refreshed_for_send m now issued = Ok m' →
  0 ≤ as_millis (elapsed (mt_issued_at m) now) ∧
  from_exchange_time_ms (mt_request_time_ms m + as_millis (elapsed (mt_issued_at m) now))
    (mt_exp_time_ms m - mt_request_time_ms m) issued = Ok m'.
Proof.
  unfold refreshed_for_send, refreshed_after_elapsed_ms. intros E. inv_ok E.
  apply ok_or_ok, u64_try_from_ok in Ha as [-> [Hr _]].
  apply ok_or_ok, checked_add_ok in Ha0 as [-> _]. done.
Qed.

Lemma refreshes_ok epoch lead ttl m m' :
  refreshes m m' → timing_ok epoch lead ttl m →
  timing_ok epoch lead ttl m' ∧ mt_request_time_ms m ≤ mt_request_time_ms m'
  ∧ mt_issued_at m ≤ mt_issued_at m'.
Proof.
  induction 1 as [m|m m1 m2 now issued _ IH Hnow E]; [done|]. intros Hm.
  destruct (IH Hm) as ([He Hl] & Hr & Hi). apply refreshed_ok in E as [Hp E].
  apply from_exchange_ok in E as (_ & _ & Hr2 & He2 & Hi2).
  rewrite elapsed_past in * by lia. pose proof (as_millis_floor (now - mt_issued_at m1)).
  unfold timing_ok. lia.
Qed.

(** Whatever the local wall clock says, if the exchange stamped its clock while the
    request was in flight, then a timing issued from that sample and refreshed any number
    of times lets the exchange accept the mutation only until at most one second after
    its requested time to live, counted from any moment it is sent; and the estimate is
    behind the exchange's clock by at most 1004 ms and the time the response took to
    decode. *)
Theorem mutation_deadline_bounded rows local epoch started u decoded observed ce ttl now issued m m' :
  rows = [show_u64 (server_ms epoch u)] →
  in_u64 (server_ms epoch u) →
  started ≤ u ≤ decoded → decoded ≤ observed ≤ now → now ≤ issued →
  fetch_clock_evidence rows local started decoded observed = Ok ce →
  mutation_timing ce ttl now issued = Ok m → refreshes m m' →
  mt_exp_time_ms m' = mt_request_time_ms m' + ttl
  ∧ (∀ t, mt_issued_at m' ≤ t → mt_exp_time_ms m' ≤ server_ms epoch t + ttl + 1000)
  ∧ epoch + now < (mt_request_time_ms m + 1004) * 1000000 + (observed - decoded)
  ∧ mt_request_time_ms m ≤ mt_request_time_ms m'.
Proof.
  intros -> Hin Hu Hobs Hnow Hce Hm Href.
  unfold fetch_clock_evidence in Hce. rewrite (parse_show_u64 _ Hin) in Hce. simpl in Hce.
  apply from_sample_ok in Hce as (Hs & Hr & Hr0 & _ & Hat).
  apply mutation_timing_ok in Hm as (_ & Hrtt & _ & Hm).
  apply from_exchange_ok in Hm as (_ & _ & Hreq & Hexp & Hiss).
  rewrite Hs, Hr, Hat, !elapsed_past in * by lia. unfold MAX_CLOCK_RTT_MS in Hrtt.
  pose proof (as_millis_floor (epoch + u)). pose proof (as_millis_floor (now - observed)).
  pose proof (as_millis_floor (decoded - started)).
  pose proof (Z.div_mod (as_millis (decoded - started)) 2 ltac:(done)).
  pose proof (Z.mod_pos_bound (as_millis (decoded - started)) 2 ltac:(done)).
  unfold server_ms in *.
  destruct (refreshes_ok epoch (1000 * 1000000) ttl m m' Href) as ([He Hl] & Hle & _);
    [unfold timing_ok; lia|].
  split_and!; [done| |lia|done].
  intros t Ht. pose proof (as_millis_floor (epoch + t)). lia.
Qed.
End deadline.

(** ** Witness: the exchange is 3 s ahead of the local clock, the request takes 40 ms,
    the response 2 ms to decode, and the timing is refreshed after 30 s. *)
Definition toy_chrono : Chrono := λ _, Some "2020-12-08T11:48:57.715Z".
Definition ms (x : Z) : Z := x * 1000000.

Lemma mutation_deadline_bounded_witness :
  ∃ ce m m', @refreshes toy_chrono m m' ∧ mt_exp_time_ms m' = 1607428172781
  ∧ fetch_clock_evidence [show_u64 (server_ms (ms 1607428137715) (ms 10))] 1607428134725
      (ms 0) (ms 40) (ms 42) = Ok ce
  ∧ @mutation_timing toy_chrono ce 5000 (ms 50) (ms 51) = Ok m
  ∧ ∀ t, mt_issued_at m' ≤ t →
      mt_exp_time_ms m' ≤ server_ms (ms 1607428137715) t + 5000 + 1000.
Proof.
  pose (ce := {| ce_server_time_ms := 1607428137725; ce_local_midpoint_ms := 1607428134745;
                 ce_offset_ms := 2980; ce_round_trip_ms := 40; ce_observed_at := ms 42 |}).
  pose (m := {| mt_request_time_ms := 1607428137753;
                mt_request_timestamp := "2020-12-08T11:48:57.715Z";
                mt_exp_time_ms := 1607428142753; mt_issued_at := ms 51 |}).
  pose (m' := {| mt_request_time_ms := 1607428167781;
                 mt_request_timestamp := "2020-12-08T11:48:57.715Z";
                 mt_exp_time_ms := 1607428172781; mt_issued_at := ms 30080 |}).
  assert (H0 : in_u64 (server_ms (ms 1607428137715) (ms 10))) by by vm_compute.
  assert (Ht : mt_issued_at m ≤ ms 30079 ≤ ms 30080) by by vm_compute.
  assert (Hce : fetch_clock_evidence [show_u64 (server_ms (ms 1607428137715) (ms 10))]
                  1607428134725 (ms 0) (ms 40) (ms 42) = Ok ce) by by vm_compute.
  assert (Hm : @mutation_timing toy_chrono ce 5000 (ms 50) (ms 51) = Ok m) by by vm_compute.
  assert (Hr : @refreshes toy_chrono m m').
  { eapply (refreshes_snoc m m m' (ms 30079) (ms 30080)); [constructor|exact Ht|by vm_compute]. }
  exists ce, m, m'. refine (conj Hr (conj eq_refl (conj Hce (conj Hm _)))).
  assert (H1 : ms 0 ≤ ms 10 ≤ ms 40) by by vm_compute.
  assert (H2 : ms 40 ≤ ms 42 ≤ ms 50) by by vm_compute.
  assert (H3 : ms 50 ≤ ms 51) by by vm_compute.
  exact (proj1 (proj2 (@mutation_deadline_bounded toy_chrono
    [show_u64 (server_ms (ms 1607428137715) (ms 10))] 1607428134725 (ms 1607428137715) (ms 0)
    (ms 10) (ms 40) (ms 42) ce 5000 (ms 50) (ms 51) m m' eq_refl H0 H1 H2 H3 Hce Hm Hr))).
Defined.
