(* ===== verification/Decimals.v ===== *)
(** * Decimals: the arithmetic of [rust_decimal::Decimal], a parameter

    [DecimalArith] lists the operations the program uses; [checked_*] answer [None]
    where the operators [+ - * /] panic (overflow, division by zero).  [DecimalLaws]
    states what the crate documents of them: a decimal denotes a rational, comparison
    and [floor]/[ceil] are those of the rationals, rounding up does not decrease, and
    an operation is exact where its result is representable (28 digits and 96 bits);
    [DivisionLaws] that a rounded quotient does not pass a number with few digits.
    [Fixed] implements them on integers of any size, as the instance of witnesses. *)
From stdpp Require Import base option list numbers strings.
From Stdlib Require Import ZArith QArith Qround Lia Lqa Ascii String.
From S2P Require Import Prelude Text Ordered External.
Local Open Scope Z_scope.

Class DecimalArith (D : Type) `{DecimalOps D} : Type := {
  dec_one : D;
  dec_of_int : Z → D;
  dec_new : Z → nat → D;
  checked_add : D → D → option D;
  checked_sub : D → D → option D;
  checked_mul : D → D → option D;
  checked_div : D → D → option D;
  dec_floor : D → D;
  dec_ceil : D → D;
  dec_fract : D → D;
  dec_abs : D → D;
  round_up : nat → D → D;
  dec_to_string : D → string;
}.

(** [Ord::min] and [Ord::max] *)
Definition dec_min {D} `{DecimalOps D} (x y : D) : D := if dec_leb x y then x else y.
Definition dec_max {D} `{DecimalOps D} (x y : D) : D := if dec_leb x y then y else x.

(** How a computation over decimals fails: an error text, a panic of an operator, or a
    loop that has used up its fuel. *)
Inductive failure : Type := Error (code : string) | Panic | OutOfFuel.
Definition panicking {A} (o : option A) : result failure A := ok_or Panic o.
Definition overflow {A} (o : option A) : result failure A := ok_or (Error "MONEY_OVERFLOW") o.

(** [dec] of [trade_service/mod.rs]: [Decimal::from_str] *)
Definition dec {D} `{DecimalOps D} (v : string) : result failure D :=
  ok_or (Error "INVALID_EXACT_DECIMAL") (dec_from_str v).

(** Computations that are not cut short by the fuel *)
Definition finished {A} (r : result failure A) : Prop := r ≠ Err OutOfFuel.

Lemma finished_ok {A} (a : A) : finished (Ok a).
Proof. done. Qed.
Lemma finished_error {A} code : finished (@Err failure A (Error code)).
Proof. done. Qed.
Lemma finished_overflow {A} (o : option A) : finished (overflow o).
Proof. by destruct o. Qed.
Lemma finished_panicking {A} (o : option A) : finished (panicking o).
Proof. by destruct o. Qed.
Lemma finished_dec {D} `{DecimalOps D} v : finished (dec (D:=D) v).
Proof. unfold dec. by destruct (dec_from_str v). Qed.
Lemma finished_bind {A B} (r : result failure A) (k : A → result failure B) :
  finished r → (∀ a, r = Ok a → finished (k a)) → finished (r ≫= k).
Proof. unfold finished. intros Hr Hk [E|(a & E & Ek)]%bind_err; [done|by eapply Hk]. Qed.
Lemma finished_if {A} (b : bool) (x y : result failure A) :
  finished x → finished y → finished (if b then x else y).
Proof. by destruct b. Qed.

Lemma finished_err {A B} e : finished (@Err failure A e) → finished (@Err failure B e).
Proof. intros Hf [= ->]. by destruct Hf. Qed.

Create HintDb fuel discriminated.
#[export] Hint Resolve finished_ok finished_error finished_overflow finished_panicking
  finished_dec : fuel.
(** Go through a computation step by step. *)
Ltac finished_steps :=
  repeat (intros; first
    [ solve [auto with fuel]
    | apply finished_bind
    | apply finished_if
    | match goal with |- finished (match ?x with _ => _ end) => destruct x end ]).

Class DecimalLaws (D : Type) `{DecimalArith D} : Type := {
  val : D → Q;
  representable : Q → Prop;
  representable_proper : ∀ p q : Q, (p == q)%Q → representable p → representable q;
  kcmp_val : ∀ x y : D, kcmp x y = Qcompare (val x) (val y);
  val_zero : (val dec_zero == 0)%Q;
  val_one : (val dec_one == 1)%Q;
  add_exact : ∀ x y z, checked_add x y = Some z →
    representable (val x + val y) → (val z == val x + val y)%Q;
  sub_exact : ∀ x y z, checked_sub x y = Some z →
    representable (val x - val y) → (val z == val x - val y)%Q;
  mul_exact : ∀ x y z, checked_mul x y = Some z →
    representable (val x * val y) → (val z == val x * val y)%Q;
  floor_exact : ∀ x, (val (dec_floor x) == inject_Z (Qfloor (val x)))%Q;
  ceil_exact : ∀ x, (val (dec_ceil x) == inject_Z (Qceiling (val x)))%Q;
  round_up_ge : ∀ n x, (val x <= val (round_up n x))%Q;
}.

(** ** Comparisons *)
Section comparisons.
Context {D : Type} `{DecimalLaws D}.

Lemma dec_ltb_val x y : dec_ltb x y = true ↔ (val x < val y)%Q.
Proof. unfold dec_ltb. rewrite kcmp_val, Qlt_alt. by destruct (val x ?= val y)%Q. Qed.
Lemma dec_leb_val x y : dec_leb x y = true ↔ (val x <= val y)%Q.
Proof. unfold dec_leb. rewrite kcmp_val, Qle_alt. by destruct (val x ?= val y)%Q. Qed.
Lemma dec_ltb_false x y : dec_ltb x y = false ↔ (val y <= val x)%Q.
Proof. rewrite <- not_true_iff_false, dec_ltb_val. split; intros; lra. Qed.
Lemma dec_leb_false x y : dec_leb x y = false ↔ (val y < val x)%Q.
Proof. rewrite <- not_true_iff_false, dec_leb_val. split; intros; lra. Qed.
Lemma dec_eqb_val x y : dec_eqb x y = true ↔ (val x == val y)%Q.
Proof. unfold dec_eqb. rewrite kcmp_val, Qeq_alt. by destruct (val x ?= val y)%Q. Qed.

Lemma dec_min_val x y : (val (dec_min x y) <= val x ∧ val (dec_min x y) <= val y)%Q.
Proof.
  unfold dec_min. destruct (dec_leb x y) eqn:E; [apply dec_leb_val in E|apply dec_leb_false in E];
    split; lra.
Qed.
Lemma dec_max_val x y : (val x <= val (dec_max x y) ∧ val y <= val (dec_max x y))%Q.
Proof.
  unfold dec_max. destruct (dec_leb x y) eqn:E; [apply dec_leb_val in E|apply dec_leb_false in E];
    split; lra.
Qed.
End comparisons.

(** Boolean comparisons of decimals, as facts about the rationals they denote *)
Ltac reflect_decs :=
  repeat match goal with
  | H : _ && _ = true |- _ => apply andb_true_iff in H; destruct H
  | H : _ || _ = false |- _ => apply orb_false_iff in H; destruct H
  | H : negb _ = true |- _ => apply negb_true_iff in H
  | H : negb _ = false |- _ => apply negb_false_iff in H
  | H : dec_ltb _ _ = true |- _ => apply dec_ltb_val in H
  | H : dec_ltb _ _ = false |- _ => apply dec_ltb_false in H
  | H : dec_leb _ _ = true |- _ => apply dec_leb_val in H
  | H : dec_leb _ _ = false |- _ => apply dec_leb_false in H
  | H : dec_eqb _ _ = true |- _ => apply dec_eqb_val in H
  end.

(** ** The concrete decimal of witnesses *)
Module FixedArith.
Import Fixed.

Definition lift (f : Z → Z → Z) (x y : t) : t :=
  mk (f (mantissa x * pow10 (scale y)) (mantissa y * pow10 (scale x))) (scale x + scale y).

(** Drop the trailing zeros of the fraction, so that numbers stay small. *)
Fixpoint trim_zeros (m : Z) (s : nat) : t :=
  match s with
  | O => mk m 0
  | S s' => if m mod 10 =? 0 then trim_zeros (m / 10) s' else mk m s
  end.
Definition normalize (x : t) : t := trim_zeros (mantissa x) (scale x).

Definition floor (x : t) : t := mk (mantissa x / pow10 (scale x)) 0.
Definition ceil (x : t) : t := mk (- (- mantissa x / pow10 (scale x))) 0.
Definition fract (x : t) : t := mk (Z.rem (mantissa x) (pow10 (scale x))) (scale x).
Definition up (n : nat) (x : t) : t :=
  if (scale x <=? n)%nat then x
  else mk (- (- mantissa x / pow10 (scale x - n))) n.
Definition div (x y : t) : option t :=
  if mantissa y =? 0 then None
  else Some (normalize (mk (Z.quot (mantissa x * pow10 (scale y) * pow10 28)
                                   (mantissa y * pow10 (scale x))) 28)).
Fixpoint frac_digits (n : nat) (m : Z) : string :=
  match n with
  | O => ""
  | S n' => frac_digits n' (m / 10) +:+ String (ascii_of_N (48 + Z.to_N (m mod 10))) ""
  end.
Definition show (x : t) : string :=
  let m := Z.abs (mantissa x) in
  (if mantissa x <? 0 then "-" else "") +:+ show_u64 (m / pow10 (scale x))
  +:+ match scale x with O => "" | n => "." +:+ frac_digits n (m mod pow10 (scale x)) end.
Definition value (x : t) : Q := Qmake (mantissa x) (Z.to_pos (pow10 (scale x))).

Lemma pow_pos n : Z.pos (Z.to_pos (pow10 n)) = pow10 n.
Proof. pose proof (pow10_pos n). by rewrite Z2Pos.id. Qed.

Lemma pow10_add a b : pow10 (a + b) = pow10 a * pow10 b.
Proof. unfold pow10. rewrite Nat2Z.inj_add, Z.pow_add_r; lia. Qed.

Lemma normalize_value x : (value (normalize x) == value x)%Q.
Proof.
  destruct x as [m s]. unfold normalize. simpl. revert m.
  induction s as [|s IH]; intros m; [done|]. simpl. destruct (m mod 10 =? 0) eqn:E; [|done].
  apply Z.eqb_eq in E. rewrite IH. unfold value, Qeq. simpl. rewrite !pow_pos.
  replace (pow10 (S s)) with (10 * pow10 s) by (unfold pow10; rewrite Nat2Z.inj_succ, Z.pow_succ_r; lia).
  pose proof (Z.div_mod m 10 ltac:(done)). lia.
Qed.

Lemma floor_value x : (value (floor x) == inject_Z (Qfloor (value x)))%Q.
Proof. unfold value, floor, Qeq. simpl. rewrite !pow_pos. done. Qed.

Lemma ceil_value x : (value (ceil x) == inject_Z (Qceiling (value x)))%Q.
Proof. unfold value, ceil, Qceiling, Qeq. simpl. rewrite !pow_pos. done. Qed.

Lemma up_value n x : (value x <= value (up n x))%Q.
Proof.
  unfold up. destruct (Nat.leb_spec (scale x) n) as [|Hn]; [lra|].
  unfold value, Qle. simpl. rewrite !pow_pos.
  replace (pow10 (scale x)) with (pow10 (scale x - n) * pow10 n)
    by (rewrite <- pow10_add; f_equal; lia).
  pose proof (pow10_pos (scale x - n)). pose proof (pow10_pos n).
  pose proof (Z.div_mod (- mantissa x) (pow10 (scale x - n)) ltac:(lia)).
  pose proof (Z.mod_pos_bound (- mantissa x) (pow10 (scale x - n)) ltac:(lia)). nia.
Qed.

End FixedArith.

Import FixedArith.
#[export] Instance fixed_arith : DecimalArith Fixed.t := {
  dec_one := Fixed.mk 1 0;
  dec_of_int z := Fixed.mk z 0;
  dec_new m s := Fixed.mk m s;
  checked_add x y := Some (normalize (lift Z.add x y));
  checked_sub x y := Some (normalize (lift Z.sub x y));
  checked_mul x y :=
    Some (normalize (Fixed.mk (Fixed.mantissa x * Fixed.mantissa y) (Fixed.scale x + Fixed.scale y)));
  checked_div := div;
  dec_floor := floor;
  dec_ceil := ceil;
  dec_fract := fract;
  dec_abs x := Fixed.mk (Z.abs (Fixed.mantissa x)) (Fixed.scale x);
  round_up := up;
  dec_to_string x := FixedArith.show (normalize x);
}.

Lemma fixed_compare_val x y : Fixed.compare x y = Qcompare (value x) (value y).
Proof. unfold Fixed.compare, Qcompare, value. simpl. by rewrite !pow_pos. Qed.

Lemma fixed_lift_add x y : (value (lift Z.add x y) == value x + value y)%Q.
Proof.
  unfold value, lift, Qplus, Qeq. simpl. rewrite Pos2Z.inj_mul, !pow_pos, pow10_add. ring.
Qed.
Lemma fixed_lift_sub x y : (value (lift Z.sub x y) == value x - value y)%Q.
Proof.
  unfold value, lift, Qminus, Qopp, Qplus, Qeq. simpl.
  rewrite Pos2Z.inj_mul, !pow_pos, pow10_add. ring.
Qed.

#[export] Instance fixed_laws : DecimalLaws Fixed.t.
Proof.
  refine {| val := value; representable := λ _, True |}.
  - done.
  - apply fixed_compare_val.
  - done.
  - done.
  - intros x y z [= <-] _. by rewrite normalize_value, fixed_lift_add.
  - intros x y z [= <-] _. by rewrite normalize_value, fixed_lift_sub.
  - intros x y z [= <-] _. rewrite normalize_value. unfold value, Qmult, Qeq. simpl.
    by rewrite Pos2Z.inj_mul, !pow_pos, pow10_add.
  - apply floor_value.
  - apply ceil_value.
  - apply up_value.
Defined.

(** ** Division

    A quotient is rounded, so it is compared rather than computed: [DivisionLaws] says that
    a quotient and its rounded value lie on the same side of a number with few digits
    ([short]: one the decimals represent at the scale of a quotient).  Where the exact
    quotient is such a number itself, division is exact. *)
Class DivisionLaws (D : Type) `{DecimalLaws D} : Type := {
  short : Q → Prop;
  short_proper : ∀ p q : Q, (p == q)%Q → short p → short q;
  short_representable : ∀ q, short q → representable q;
  div_ge : ∀ (x y z : D) q, checked_div x y = Some z → (0 < val y)%Q → short q →
    (q * val y <= val x → q <= val z)%Q;
  div_le : ∀ (x y z : D) q, checked_div x y = Some z → (0 < val y)%Q → short q →
    (val x <= q * val y → val z <= q)%Q;
}.

(** The largest and the least multiple of [u] on either side of [X] *)
Definition units_below (u X : Q) : Q := inject_Z (Qfloor (X / u)) * u.
Definition units_above (u X : Q) : Q := inject_Z (Qceiling (X / u)) * u.

Lemma floor_unique (n : Z) x : (inject_Z n <= x → x < inject_Z n + 1 → Qfloor x = n)%Q.
Proof.
  intros H1 H2. pose proof (Qfloor_le x). pose proof (Qlt_floor x) as H4.
  rewrite inject_Z_plus in H4. change (inject_Z 1) with 1%Q in H4.
  assert (inject_Z n < inject_Z (Qfloor x + 1))%Q by (rewrite inject_Z_plus; change (inject_Z 1) with 1%Q; lra).
  assert (inject_Z (Qfloor x) < inject_Z (n + 1))%Q by (rewrite inject_Z_plus; change (inject_Z 1) with 1%Q; lra).
  rewrite <- Zlt_Qlt in *. lia.
Qed.
Lemma ceiling_unique (n : Z) x : (inject_Z n - 1 < x → x <= inject_Z n → Qceiling x = n)%Q.
Proof.
  intros H1 H2. unfold Qceiling. rewrite (floor_unique (- n)); [lia| |]; rewrite inject_Z_opp; lra.
Qed.
Lemma units_below_bounds u X : (0 < u → units_below u X <= X ∧ X < units_below u X + u)%Q.
Proof.
  intros Hu. unfold units_below. pose proof (Qfloor_le (X / u)) as H1. pose proof (Qlt_floor (X / u)) as H2.
  rewrite inject_Z_plus in H2. change (inject_Z 1) with 1%Q in H2.
  apply (Qmult_le_r _ _ u Hu) in H1. apply (Qmult_lt_r _ _ u Hu) in H2.
  assert (HX : (X / u * u == X)%Q) by (field; lra). lra.
Qed.
Lemma units_above_bounds u X : (0 < u → X <= units_above u X ∧ units_above u X - u < X)%Q.
Proof.
  intros Hu. unfold units_above. pose proof (Qle_ceiling (X / u)) as H1. pose proof (Qceiling_lt (X / u)) as H2.
  unfold Z.sub in H2. rewrite inject_Z_plus in H2. change (inject_Z (- (1))) with (- (1))%Q in H2.
  apply (Qmult_le_r _ _ u Hu) in H1. apply (Qmult_lt_r _ _ u Hu) in H2.
  assert (HX : (X / u * u == X)%Q) by (field; lra). lra.
Qed.

Section division.
Context {D : Type} `{DivisionLaws D}.
Implicit Types x y z c l u : D.
Implicit Types q X Y : Q.

(** The decimal [c], computed for [X], is on the side of [q] where [X] is. *)
Definition follows q X c : Prop := (q <= X → q <= val c)%Q ∧ (X <= q → val c <= q)%Q.

Lemma follows_exact q X c : (val c == X)%Q → follows q X c.
Proof. intros E. split; lra. Qed.
Lemma follows_proper q X Y c : (X == Y)%Q → follows q X c → follows q Y c.
Proof. intros E [F1 F2]. split; intros; [apply F1|apply F2]; lra. Qed.
(** A division of what was computed for [X] *)
Lemma follows_div q X x y z :
  checked_div x y = Some z → (0 < val y)%Q → short q → follows (q * val y) X x → follows q (X / val y) z.
Proof.
  intros E Hy Hq [F1 F2].
  assert (HX : (X / val y * val y == X)%Q) by (field; lra).
  split; intros Hle; apply (Qmult_le_r _ _ (val y) Hy) in Hle;
    [apply (div_ge _ _ _ _ E Hy Hq), F1|apply (div_le _ _ _ _ E Hy Hq), F2]; lra.
Qed.
Lemma follows_quotient q x y z :
  checked_div x y = Some z → (0 < val y)%Q → short q → follows q (val x / val y) z.
Proof. intros E Hy Hq. apply follows_div with x; [done..|]. by apply follows_exact. Qed.
(** A quotient with few digits is exact. *)
Lemma div_short x y z : checked_div x y = Some z → (0 < val y)%Q → short (val x / val y)%Q →
  (val z == val x / val y)%Q.
Proof. intros E Hy Hs. destruct (follows_quotient _ _ _ _ E Hy Hs) as [F1 F2]. apply Qle_antisym; [apply F2|apply F1]; lra. Qed.

(** No rounded quotient on the way to the number of units, each of which leaves numbers
    satisfying [P] on their side, can reach the next unit above [X] (below, for rounding
    up): there is room for a short number in between. *)
Definition clear_above (P : Q → Prop) (u X : Q) : Prop :=
  let n := inject_Z (Qfloor (X / u)) in
  short n ∧ short (n * u)%Q ∧ P (n * u)%Q ∧ ∃ s, (X <= s)%Q ∧ (s < n * u + u)%Q ∧ short (s / u)%Q ∧ P s.
Definition clear_below (P : Q → Prop) (u X : Q) : Prop :=
  let n := inject_Z (Qceiling (X / u)) in
  short n ∧ short (n * u)%Q ∧ P (n * u)%Q ∧ ∃ s, (s <= X)%Q ∧ (n * u - u < s)%Q ∧ short (s / u)%Q ∧ P s.

Lemma floor_units (P : Q → Prop) u c l r X :
  (0 < val u)%Q → (∀ q, P q → follows q X c) → clear_above P (val u) X →
  checked_div c u = Some l → checked_mul (dec_floor l) u = Some r → (val r == units_below (val u) X)%Q.
Proof.
  intros Hu HP (S1 & S2 & P1 & s & Hs1 & Hs2 & S3 & P2) El Er.
  destruct (units_below_bounds (val u) X Hu) as [B1 _]. unfold units_below in *.
  assert (Hn : Qfloor (val l) = Qfloor (X / val u)).
  { apply floor_unique.
    - apply (div_ge _ _ _ _ El Hu S1). by apply (HP _ P1).
    - apply Qle_lt_trans with (s / val u)%Q; [|apply Qlt_shift_div_r; lra].
      apply (div_le _ _ _ _ El Hu S3). apply Qle_trans with s; [by apply (HP _ P2)|].
      rewrite Qmult_comm, Qmult_div_r; lra. }
  rewrite (mul_exact _ _ _ Er), floor_exact, Hn; [done|].
  eapply representable_proper; [|exact (short_representable _ S2)]. by rewrite floor_exact, Hn.
Qed.
Lemma ceil_units (P : Q → Prop) u c l r X :
  (0 < val u)%Q → (∀ q, P q → follows q X c) → clear_below P (val u) X →
  checked_div c u = Some l → checked_mul (dec_ceil l) u = Some r → (val r == units_above (val u) X)%Q.
Proof.
  intros Hu HP (S1 & S2 & P1 & s & Hs1 & Hs2 & S3 & P2) El Er.
  destruct (units_above_bounds (val u) X Hu) as [B1 _]. unfold units_above in *.
  assert (Hn : Qceiling (val l) = Qceiling (X / val u)).
  { apply ceiling_unique.
    - apply Qlt_le_trans with (s / val u)%Q; [apply Qlt_shift_div_l; lra|].
      apply (div_ge _ _ _ _ El Hu S3). apply Qle_trans with s; [|by apply (HP _ P2)].
      rewrite Qmult_comm, Qmult_div_r; lra.
    - apply (div_le _ _ _ _ El Hu S1). by apply (HP _ P1). }
  rewrite (mul_exact _ _ _ Er), ceil_exact, Hn; [done|].
  eapply representable_proper; [|exact (short_representable _ S2)]. by rewrite ceil_exact, Hn.
Qed.
End division.

(** ** The concrete division: 28 digits after the point, cut *)
Section fixed_division.
Import Fixed FixedArith.

Lemma fixed_quot x y z : div x y = Some z → 0 < mantissa y →
  (value z == inject_Z (Z.quot (mantissa x * pow10 (scale y) * pow10 28) (mantissa y * pow10 (scale x))) / inject_Z (pow10 28))%Q.
Proof.
  unfold div. intros E Hy. replace (mantissa y =? 0) with false in E by (symmetry; by apply Z.eqb_neq; lia).
  injection E as <-. rewrite normalize_value. unfold value. cbn [mantissa scale].
  rewrite Qmake_Qdiv. rewrite pow_pos. reflexivity.
Qed.
Definition on_grid (q : Q) : Prop := ∃ n : Z, (q == inject_Z n / inject_Z (pow10 28))%Q.

Lemma fixed_div_le_iff n x y : 0 < mantissa y →
  ((inject_Z n / inject_Z (pow10 28) * value y <= value x)%Q ↔
    n * (mantissa y * pow10 (scale x)) ≤ mantissa x * pow10 (scale y) * pow10 28)
  ∧ ((value x <= inject_Z n / inject_Z (pow10 28) * value y)%Q ↔
    mantissa x * pow10 (scale y) * pow10 28 ≤ n * (mantissa y * pow10 (scale x))).
Proof.
  intros Hy. pose proof (pow10_pos (scale x)). pose proof (pow10_pos (scale y)). pose proof (pow10_pos 28).
  assert (E : (inject_Z n / inject_Z (pow10 28) * value y ==
    (n * mantissa y) # (Z.to_pos (pow10 28 * pow10 (scale y))))%Q).
  { unfold value. rewrite !Qmake_Qdiv, !pow_pos, Z2Pos.id, !inject_Z_mult by lia. field.
    split; intros Hz; change 0%Q with (inject_Z 0) in Hz; rewrite inject_Z_injective in Hz; lia. }
  rewrite E. unfold value, Qle. simpl. rewrite !pow_pos, Z2Pos.id by lia. split; nia.
Qed.
Lemma quot_between a b n : 0 < b → (n * b ≤ a → n ≤ Z.quot a b) ∧ (a ≤ n * b → Z.quot a b ≤ n).
Proof.
  intros Hb. pose proof (Z.quot_rem a b ltac:(lia)) as E. pose proof (Z.rem_bound_abs a b ltac:(lia)).
  destruct (Z.le_gt_cases 0 a).
  - pose proof (Z.rem_nonneg a b ltac:(lia) ltac:(lia)). split; intros; nia.
  - pose proof (Z.rem_nonpos a b ltac:(lia) ltac:(lia)). split; intros; nia.
Qed.
End fixed_division.

#[export] Instance fixed_division : DivisionLaws Fixed.t.
Proof.
  assert (Hp : ∀ y : Fixed.t, (0 < value y)%Q → 0 < Fixed.mantissa y).
  { intros y. unfold value, Qlt. simpl. lia. }
  assert (H28 : (0 < inject_Z (Fixed.pow10 28))%Q) by done.
  assert (Hb : ∀ x y : Fixed.t, 0 < Fixed.mantissa y → 0 < Fixed.mantissa y * Fixed.pow10 (Fixed.scale x)).
  { intros x y Hy. pose proof (Fixed.pow10_pos (Fixed.scale x)). nia. }
  refine {| short := on_grid |}.
  - intros p q E [n Hn]. exists n. by rewrite <- E.
  - done.
  - intros x y z q E Hy%Hp [n Hn]. rewrite Hn. change (val z) with (value z). rewrite (fixed_quot _ _ _ E Hy).
    change (val x) with (value x). change (val y) with (value y). rewrite (proj1 (fixed_div_le_iff n x y Hy)).
    intros Hle%(quot_between _ _ _ (Hb x y Hy)). apply Qmult_le_compat_r; [|by apply Qinv_le_0_compat, Qlt_le_weak].
    by rewrite <- Zle_Qle.
  - intros x y z q E Hy%Hp [n Hn]. rewrite Hn. change (val z) with (value z). rewrite (fixed_quot _ _ _ E Hy).
    change (val x) with (value x). change (val y) with (value y). rewrite (proj2 (fixed_div_le_iff n x y Hy)).
    intros Hle%(quot_between _ _ _ (Hb x y Hy)). apply Qmult_le_compat_r; [|by apply Qinv_le_0_compat, Qlt_le_weak].
    by rewrite <- Zle_Qle.
Defined.
