(* ===== verification/Programs.v ===== *)
(** * Programs: asynchronous code as a tree of effects

    An [async fn] of the agent is a program [prog E A]: at each [await] on the outside
    world it performs an effect [e : E X] and goes on with the answer.  [M] adds the errors
    of [Result<_, String>] and panics.  [exec] runs a program against answers the
    environment may give; [spec] is the logic of such runs: every effect is allowed by what
    happened before it ([guard]), whatever possible answers came. *)
From stdpp Require Import base option list strings.
From Stdlib Require Import Lia String.
From S2P Require Import Prelude External Decimals.
Local Open Scope list_scope.

Section programs.
Context {E : Type → Type}.

Inductive prog (A : Type) : Type :=
| Ret (a : A)
| Do {X : Type} (e : E X) (k : X → prog A).
Arguments Ret {A} a.
Arguments Do {A X} e k.

Fixpoint andthen {A B} (m : prog A) (k : A → prog B) : prog B :=
  match m with
  | Ret a => k a
  | Do e h => Do e (λ x, andthen (h x) k)
  end.

(** An effect with its answer; histories have the latest event first. *)
Inductive event : Type := | Ev {X : Type} (e : E X) (x : X).

(** [async fn … -> Result<A, String>] *)
Definition M (A : Type) : Type := prog (result failure A).
#[export] Instance M_ret : MRet M := λ A a, Ret (Ok a).
#[export] Instance M_bind : MBind M := λ A B k m,
  andthen m (λ r, match r with Ok a => k a | Err e => Ret (Err e) end).

Definition perform {X} (e : E X) : M X := Do e (λ x, Ret (Ok x)).
Definition lift {A} (r : result failure A) : M A := Ret r.
Definition fail {A} (code : string) : M A := Ret (Err (Error code)).
(** The [?] on an answer whose error is already a text *)
Definition check {A} (r : result string A) : M A := lift (map_err Error r).
(** A [match] on the outcome of a call; a panic is not caught. *)
Definition attempt {A} (m : M A) : M (result string A) :=
  andthen m (λ r, match r with
                  | Ok a => Ret (Ok (Ok a))
                  | Err (Error code) => Ret (Ok (Err code))
                  | Err f => Ret (Err f)
                  end).

Fixpoint mapM {A B} (f : A → M B) (l : list A) : M (list B) :=
  match l with
  | [] => mret []
  | a :: l' => b ← f a; bs ← mapM f l'; mret (b :: bs)
  end.
Fixpoint foldM {A S} (f : S → A → M S) (s : S) (l : list A) : M S :=
  match l with
  | [] => mret s
  | a :: l' => s' ← f s a; foldM f s' l'
  end.

(** ** Runs *)
Variable possible : ∀ {X : Type}, E X → X → Prop.

Inductive exec {A} (h : list event) : prog A → list event → prog A → Prop :=
| exec_here m : exec h m h m
| exec_do X (e : E X) k x h' m' :
    possible e x → exec (Ev e x :: h) (k x) h' m' → exec h (Do e k) h' m'.

Variable guard : list event → ∀ {X : Type}, E X → Prop.

Fixpoint spec {A} (h : list event) (m : prog A) (Q : list event → A → Prop) : Prop :=
  match m with
  | Ret a => Q h a
  | Do e k => guard h e ∧ ∀ x, possible e x → spec (Ev e x :: h) (k x) Q
  end.

Lemma spec_weaken {A} h (m : prog A) (Q R : list event → A → Prop) :
  (∀ h' a, Q h' a → R h' a) → spec h m Q → spec h m R.
Proof.
  intros HQ. revert h. induction m as [a|X e k IH]; intros h; simpl; [auto|].
  intros [Hg Hk]. split; [done|]. eauto.
Qed.

Lemma spec_andthen {A B} h (m : prog A) (k : A → prog B) Q :
  spec h m (λ h' a, spec h' (k a) Q) → spec h (andthen m k) Q.
Proof.
  revert h. induction m as [a|X e c IH]; intros h; simpl; [done|].
  intros [Hg Hk]. split; [done|]. eauto.
Qed.

Lemma spec_exec {A} h (m : prog A) Q h' m' : spec h m Q → exec h m h' m' → spec h' m' Q.
Proof. intros Hs Hx. induction Hx as [h m|h X e k x h' m' Hp Hx IH]; [done|]. apply IH. by apply Hs. Qed.

(** Every effect of a run of a specified program is allowed. *)
Lemma exec_guard {A X} h (m : prog A) Q h' (e : E X) k :
  spec h m Q → exec h m h' (Do e k) → guard h' e.
Proof. intros Hs Hx. by apply (spec_exec _ _ _ _ _ Hs) in Hx as [? _]. Qed.

Lemma exec_result {A} h (m : prog A) Q h' a : spec h m Q → exec h m h' (Ret a) → Q h' a.
Proof. intros Hs Hx. by apply (spec_exec _ _ _ _ _ Hs) in Hx. Qed.

Lemma spec_suffix {A} h (m : prog A) (Q : list event → A → Prop) :
  spec h m Q → spec h m (λ h' a, Q h' a ∧ ∃ new, h' = new ++ h).
Proof.
  revert h. induction m as [a|X e k IH]; intros h; simpl; [by split; [|exists []]|].
  intros [Hg Hk]. split; [done|]. intros x Hp.
  eapply spec_weaken; [|by apply IH, Hk]. intros h' a [HQ (new & ->)]. split; [done|].
  exists (new ++ [Ev e x]). by rewrite <- app_assoc.
Qed.

Lemma exec_suffix {A} h (m : prog A) h' m' : exec h m h' m' → ∃ new, h' = new ++ h.
Proof.
  induction 1 as [h m|h X e k x h' m' Hp Hx (new & ->)]; [by exists []|].
  exists (new ++ [Ev e x]). by rewrite <- app_assoc.
Qed.

(** ** Rules *)
Lemma spec_ret {A} h (a : A) Q : Q h (Ok a) → spec h (mret (M:=M) a) Q.
Proof. done. Qed.

Lemma spec_bind {A B} h (m : M A) (k : A → M B) Q :
  spec h m (λ h' r, match r with Ok a => spec h' (k a) Q | Err e => Q h' (Err e) end) →
  spec h (m ≫= k) Q.
Proof.
  intros Hs. apply spec_andthen. eapply spec_weaken; [|exact Hs]. by intros h' [a|e].
Qed.

Lemma spec_perform {X B} h (e : E X) (k : X → M B) Q :
  guard h e → (∀ x, possible e x → spec (Ev e x :: h) (k x) Q) → spec h (perform e ≫= k) Q.
Proof. done. Qed.

Lemma spec_perform_last {X} h (e : E X) Q :
  guard h e → (∀ x, possible e x → Q (Ev e x :: h) (Ok x)) → spec h (perform e) Q.
Proof. done. Qed.

Lemma spec_lift {A B} h (r : result failure A) (k : A → M B) Q :
  (∀ a, r = Ok a → spec h (k a) Q) → (∀ e, r = Err e → Q h (Err e)) → spec h (lift r ≫= k) Q.
Proof. intros Hok Herr. destruct r as [a|e]; [by apply Hok|by apply Herr]. Qed.

Lemma spec_check {A B} h (r : result string A) (k : A → M B) Q :
  (∀ a, r = Ok a → spec h (k a) Q) → (∀ e, r = Err e → Q h (Err (Error e))) →
  spec h (check r ≫= k) Q.
Proof. intros Hok Herr. destruct r as [a|e]; [by apply Hok|by apply Herr]. Qed.

Lemma spec_attempt {A B} h (m : M A) (k : result string A → M B) Q :
  spec h m (λ h' r, match r with
                    | Ok a => spec h' (k (Ok a)) Q
                    | Err (Error code) => spec h' (k (Err code)) Q
                    | Err f => Q h' (Err f)
                    end) →
  spec h (attempt m ≫= k) Q.
Proof.
  intros Hs. apply spec_bind, spec_andthen. eapply spec_weaken; [|exact Hs].
  by intros h' [a|[code| |]].
Qed.
End programs.
Arguments prog E A : clear implicits.
Arguments Ret {E A} a.
Arguments Do {E A X} e k.
Arguments event E : clear implicits.
Arguments Ev {E X} e x.
Arguments M E A : clear implicits.

(** The answers of a run are those of its history. *)
Lemma exec_observed {E : Type → Type} (possible : ∀ X, E X → X → Prop) {A} h (m : prog E A) h' m' :
  exec possible h m h' m' → exec (λ X (e : E X) x, In (Ev e x) h') h m h' m'.
Proof.
  intros Hx. induction Hx as [h m|h X e k x h' m' Hp Hx IH]; [constructor|].
  eapply exec_do; [|exact IH]. apply exec_suffix in Hx as (new & ->).
  apply in_or_app. right. by left.
Qed.

(** ** The run against a world that answers every effect *)
Section answers.
Context {E : Type → Type} {W : Type} (answer : ∀ X, E X → W → W * X).

Fixpoint outcome {A} (w : W) (m : prog E A) : W * A :=
  match m with
  | Ret a => (w, a)
  | Do e k => let '(w', x) := answer _ e w in outcome w' (k x)
  end.
Fixpoint history {A} (w : W) (h : list (event E)) (m : prog E A) : list (event E) :=
  match m with
  | Ret _ => h
  | Do e k => let '(w', x) := answer _ e w in history w' (Ev e x :: h) (k x)
  end.
Lemma exec_answers {A} w h (m : prog E A) :
  exec (λ X (e : E X) x, ∃ w, x = (answer X e w).2) h m (history w h m) (Ret (outcome w m).2).
Proof.
  revert w h. induction m as [a|X e k IH]; intros w h; simpl; [constructor|].
  destruct (answer X e w) as [w' x] eqn:E'. eapply exec_do; [exists w; by rewrite E'|]. apply IH.
Qed.
(** The run up to the first effect with which it should [stop] *)
Variable stop : ∀ X : Type, E X → bool.
Fixpoint before {A} (w : W) (h : list (event E)) (m : prog E A) : list (event E) * prog E A :=
  match m with
  | Ret a => (h, Ret a)
  | Do e k => if stop _ e then (h, Do e k) else let '(w', x) := answer _ e w in before w' (Ev e x :: h) (k x)
  end.
Lemma exec_before {A} w h (m : prog E A) h' m' :
  before w h m = (h', m') → exec (λ X (e : E X) x, ∃ w, x = (answer X e w).2) h m h' m'.
Proof.
  revert w h. induction m as [a|X e k IH]; intros w h; simpl; [intros [= <- <-]; constructor|].
  destruct (stop X e); [intros [= <- <-]; constructor|]. destruct (answer X e w) as [w' x] eqn:E'.
  intros Hb. eapply exec_do; [exists w; by rewrite E'|]. by apply (IH x w').
Qed.
End answers.

(** ** How often a program performs an effect that counts *)
Section counting.
Context {E : Type → Type} (counts : ∀ X : Type, E X → bool).

Fixpoint at_most (n : nat) {A} (m : prog E A) : Prop :=
  match m with
  | Ret _ => True
  | Do e k => if counts _ e then match n with O => False | S n' => ∀ x, at_most n' (k x) end
              else ∀ x, at_most n (k x)
  end.
Definition counted (h : list (event E)) : nat :=
  List.length (List.filter (λ ev, match ev with @Ev _ X e _ => counts X e end) h).

Lemma at_most_weaken n n' {A} (m : prog E A) : (n ≤ n')%nat → at_most n m → at_most n' m.
Proof.
  revert n n'. induction m as [a|X e k IH]; intros n n' Hn; simpl; [done|].
  destruct (counts X e).
  - destruct n as [|n]; [done|]. destruct n' as [|n']; [by apply Nat.nle_succ_0 in Hn|].
    intros Hk x. apply (IH x n); [by apply le_S_n|done].
  - intros Hk x. by apply (IH x n).
Qed.
Lemma at_most_andthen n {A B} (m : prog E A) (k : A → prog E B) :
  at_most 0 m → (∀ a, at_most n (k a)) → at_most n (andthen m k).
Proof. induction m as [a|X e c IH]; simpl; [auto|]. destruct (counts X e); [done|]. auto. Qed.
Lemma at_most_after n {A B} (m : prog E A) (k : A → prog E B) :
  at_most n m → (∀ a, at_most 0 (k a)) → at_most n (andthen m k).
Proof.
  revert n. induction m as [a|X e c IH]; intros n Hm Hk; simpl in *.
  { apply (at_most_weaken 0); [apply Nat.le_0_l|auto]. }
  destruct (counts X e); [destruct n; [done|]|]; intros x; by apply IH.
Qed.
Lemma at_most_both n n' {A B} (m : prog E A) (k : A → prog E B) :
  at_most n m → (∀ a, at_most n' (k a)) → at_most (n + n') (andthen m k).
Proof.
  revert n. induction m as [a|X e c IH]; intros n Hm Hk; simpl in *.
  { apply (at_most_weaken n'); [lia|auto]. }
  destruct (counts X e); [destruct n; [done|]|]; intros x; by apply IH.
Qed.
Lemma at_most_bind_both n n' {A B} (m : M E A) (k : A → M E B) :
  at_most n m → (∀ a, at_most n' (k a)) → at_most (n + n') (m ≫= k).
Proof. intros Hm Hk. apply at_most_both; [done|]. by intros [a|e]. Qed.
Lemma at_most_bind n {A B} (m : M E A) (k : A → M E B) :
  at_most 0 m → (∀ a, at_most n (k a)) → at_most n (m ≫= k).
Proof. intros Hm Hk. apply at_most_andthen; [done|]. by intros [a|e]. Qed.
Lemma at_most_bind_last n {A B} (m : M E A) (k : A → M E B) :
  at_most n m → (∀ a, at_most 0 (k a)) → at_most n (m ≫= k).
Proof. intros Hm Hk. apply at_most_after; [done|]. by intros [a|e]. Qed.
Lemma at_most_lift n {A} (r : result failure A) : at_most n (lift r).
Proof. done. Qed.
Lemma at_most_attempt n {A} (m : M E A) : at_most n m → at_most n (attempt m).
Proof. intros Hm. apply at_most_after; [done|]. by intros [a|[]]. Qed.
Lemma at_most_exec possible n {A} h (m : prog E A) h' m' :
  at_most n m → exec possible h m h' m' → (counted h' ≤ counted h + n)%nat.
Proof.
  intros Hm Hx. revert n Hm. induction Hx as [h m|h X e k x h' m' Hp Hx IH]; intros n Hm; [lia|].
  simpl in Hm. assert (Hc : counted (Ev e x :: h) = ((if counts X e then 1 else 0) + counted h)%nat).
  { unfold counted. simpl. by destruct (counts X e). }
  destruct (counts X e); [destruct n as [|n]; [done|]|]; specialize (IH _ (Hm x)); lia.
Qed.
End counting.

(** ** What a program allows itself and returns, whatever its history

    [safe m P]: every effect of [m] is [allowed], and what it returns satisfies [P]. *)
Section safe.
Context {E : Type → Type}.
Variable possible : ∀ X : Type, E X → X → Prop.
Variable allowed : ∀ X : Type, E X → Prop.

Fixpoint safe {A} (m : prog E (result failure A)) (P : A → Prop) : Prop :=
  match m with
  | Ret (Ok a) => P a
  | Ret (Err _) => True
  | Do e k => allowed _ e ∧ ∀ x, possible _ e x → safe (k x) P
  end.

Lemma safe_weaken {A} (m : M E A) (P R : A → Prop) : safe m R → (∀ a, R a → P a) → safe m P.
Proof.
  intros Hs HR. induction m as [[a|e]|X e k IH]; simpl in *; [auto|done|].
  destruct Hs as [He Hs]. split; [done|]. auto.
Qed.
Lemma safe_bind {A B} (m : M E A) (k : A → M E B) (P : B → Prop) :
  safe m (λ a, safe (k a) P) → safe (m ≫= k) P.
Proof.
  unfold mbind, M_bind. induction m as [[a|e]|X e c IH]; simpl; [done|done|].
  intros [He Hs]. split; [done|]. auto.
Qed.
Lemma safe_perform {X} (e : E X) (P : X → Prop) :
  allowed _ e → (∀ x, possible _ e x → P x) → safe (perform e) P.
Proof. done. Qed.
Lemma safe_lift {A} (r : result failure A) (P : A → Prop) :
  (∀ a, r = Ok a → P a) → safe (lift (E:=E) r) P.
Proof. destruct r; simpl; auto. Qed.
Lemma safe_check {A} (r : result string A) (P : A → Prop) :
  (∀ a, r = Ok a → P a) → safe (check (E:=E) r) P.
Proof. destruct r; simpl; auto. Qed.
Lemma safe_ret {A} (a : A) (P : A → Prop) : P a → safe (mret (M:=M E) a) P.
Proof. done. Qed.
Lemma safe_fail {A} code (P : A → Prop) : safe (fail (E:=E) code) P.
Proof. done. Qed.

Lemma safe_attempt {A} (m : M E A) (P : result string A → Prop) :
  safe m (λ a, P (Ok a)) → (∀ code, P (Err code)) → safe (attempt m) P.
Proof.
  intros Hs He. unfold attempt. induction m as [[a|[code| |]]|X e k IH]; simpl in *; auto.
  destruct Hs as [? Hs]. split; [done|]. auto.
Qed.
Lemma safe_mapM {A B} (f : A → M E B) (R : A → B → Prop) l :
  (∀ a, In a l → safe (f a) (R a)) → safe (mapM f l) (Forall2 R l).
Proof.
  induction l as [|a l IH]; intros Hf; cbn [mapM]; [by apply safe_ret|].
  apply safe_bind. eapply safe_weaken; [apply Hf; by left|]. intros b Hb.
  apply safe_bind. eapply safe_weaken; [apply IH; intros; apply Hf; by right|]. intros bs Hbs.
  apply safe_ret. by constructor.
Qed.
Lemma safe_foldM {A S B} (f : S → A → M E S) (g : S → B → S) (Q : A → B → Prop) s l :
  (∀ s a, In a l → safe (f s a) (λ s', ∃ b, Q a b ∧ s' = g s b)) →
  safe (foldM f s l) (λ s', ∃ bs, Forall2 Q l bs ∧ s' = foldl g s bs).
Proof.
  revert s. induction l as [|a l IH]; intros s Hf; cbn [foldM].
  { apply safe_ret. by exists []. }
  apply safe_bind. eapply safe_weaken; [apply Hf; by left|]. intros s' (b & Hb & ->).
  eapply safe_weaken; [apply IH; intros; apply Hf; by right|]. intros s' (bs & Hbs & ->).
  exists (b :: bs). by split; [constructor|].
Qed.

Lemma safe_spec {A} h (m : M E A) (P : A → Prop) :
  safe m P → spec possible (λ _, allowed) h m (λ _ r, ∀ a, r = Ok a → P a).
Proof.
  revert h. induction m as [[a|e]|X e k IH]; intros h; simpl; [by intros Hp a' [= <-]|done|].
  intros [He Hs]. split; [done|]. auto.
Qed.
Lemma safe_exec {A X} h (m : M E A) (P : A → Prop) h' (e : E X) k :
  safe m P → exec possible h m h' (Do e k) → allowed _ e.
Proof. intros Hs. exact (exec_guard possible (λ _, allowed) h m _ h' e k (safe_spec h m P Hs)). Qed.
Lemma safe_result {A} h (m : M E A) (P : A → Prop) h' a :
  safe m P → exec possible h m h' (Ret (Ok a)) → P a.
Proof. intros Hs Hx. 
  exact (exec_result possible (λ _, allowed) h m _ h' _ (safe_spec h m P Hs) Hx a eq_refl).
Qed.
End safe.

(** A program that may do nothing that counts *)
Lemma safe_at_most {E : Type → Type} (counts : ∀ X : Type, E X → bool) {A} (m : M E A) P :
  safe (λ _ _ _, True) (λ X e, counts X e = false) m P → at_most counts 0 m.
Proof.
  induction m as [a|X e k IH]; simpl; [done|]. intros [-> Hk] x. by apply IH, Hk.
Qed.
Lemma safe_allow {E : Type → Type} possible (allowed1 allowed2 : ∀ X : Type, E X → Prop) {A} (m : M E A) P :
  (∀ X (e : E X), allowed1 X e → allowed2 X e) → safe possible allowed1 m P → safe possible allowed2 m P.
Proof.
  intros Ha. induction m as [[a|e]|X e k IH]; simpl; auto. intros [He Hs]. split; auto.
Qed.

(** Go through a program: binds, conditions and answers.  What is left are the effects that
    have to be allowed, the calls of other programs, and the results. *)
Ltac safe_step :=
  lazymatch goal with
  | |- safe _ _ (mbind _ _) _ => apply safe_bind
  | |- safe _ _ (lift _) _ => apply safe_lift; intros ? ?
  | |- safe _ _ (check _) _ => apply safe_check; intros ? ?
  | |- safe _ _ (mret _) _ => apply safe_ret
  | |- safe _ _ (fail _) _ => apply safe_fail
  | |- safe _ _ (perform _) _ => apply safe_perform; [|intros ? ?]
  | |- safe _ _ (if ?b then _ else _) _ => destruct b eqn:?
  | |- safe _ _ (match ?x with _ => _ end) _ => destruct x eqn:?
  end.
Ltac safe_steps := repeat (cbv beta; safe_step).
