(* ===== verification/EntryBudget.v ===== *)
(** * EntryBudget: fee-inclusive order sizing, [trade_service/entry_budget.rs]

    The size of an order comes from a number of contracts, a loss or a budget; it is
    put on the venue's lots, cut to the entry ceiling and then lowered lot by lot until
    its quoted cost, fees rounded up, fits the caps.  Decimals are a parameter; the two
    [while] loops take fuel, and [size_order_terminates] says how much is enough. *)
From stdpp Require Import base option list numbers strings.
From Stdlib Require Import ZArith QArith Lia Lqa.
From S2P Require Import Prelude Text Ordered External Decimals.
Local Open Scope string_scope.
Local Open Scope list_scope.

(** [okx-protocol/src/trading.rs] *)
Inductive Sizing : Type :=
| Contracts (contracts : string)
| MaxLossUsd (max_loss_usd : string)
| EntryBudgetUsd (entry_budget_usd : string).

Section entry_budget.
Context {D : Type} `{DecimalArith D}.

Record EntryQuote : Type := {
  quantity : D;
  notional_usdt : D;
  fee_usdt : D;
  total_usdt : D;
  total_usd : D;
}.

Definition quote (qty ct price fee_rate fx : D) : result failure EntryQuote :=
  if dec_leb qty dec_zero || dec_leb ct dec_zero || dec_leb price dec_zero
     || dec_ltb fee_rate dec_zero || dec_leb fx dec_zero
  then Err (Error "ENTRY_SOURCE_INVALID") else
  notional_usdt ← overflow (v ← checked_mul qty ct; checked_mul v price);
  fee ← overflow (checked_mul notional_usdt fee_rate);
  let fee_usdt := round_up 6 fee in
  total_usdt ← overflow (checked_add notional_usdt fee_usdt);
  total ← overflow (checked_mul total_usdt fx);
  let total_usd := round_up 9 total in
  Ok {| quantity := qty; notional_usdt := notional_usdt; fee_usdt := fee_usdt;
        total_usdt := total_usdt; total_usd := total_usd |}.

Definition enforced_entry_ceiling (increase real : bool) (account_cap request_cap : option D)
    : result failure (option D) :=
  if negb increase then Ok None else
  if real && (match account_cap with None => true | _ => false end)
  then Err (Error "ACCOUNT_ENTRY_CAP_UNCONFIGURED") else
  let invalid cap := match cap with Some cap => dec_leb cap dec_zero | None => false end in
  if invalid account_cap || invalid request_cap then Err (Error "ENTRY_BUDGET_INVALID") else
  Ok (match account_cap, request_cap with
      | Some a, Some b => Some (dec_min a b)
      | Some a, None | None, Some a => Some a
      | None, None => None
      end).

(** [ct * price * (1 + fee_rate) * fx], the cost of a contract *)
Definition contract_cost (ct price fee_rate fx : D) : result failure D :=
  v ← overflow (checked_mul ct price);
  one_fee ← panicking (checked_add dec_one fee_rate);
  overflow (w ← checked_mul v one_fee; checked_mul w fx).

Definition is_contracts (sizing : Sizing) : bool :=
  match sizing with Contracts _ => true | _ => false end.
Definition is_entry_budget (sizing : Sizing) : bool :=
  match sizing with EntryBudgetUsd _ => true | _ => false end.

(** The size asked for, before lots *)
Definition requested_quantity (sizing : Sizing) (increase : bool)
    (ct price per_contract_loss fx fee_rate : D) : result failure D :=
  match sizing with
  | Contracts contracts => dec contracts
  | MaxLossUsd max_loss_usd =>
    if negb increase || dec_leb per_contract_loss dec_zero
    then Err (Error "LOSS_SIZING_REQUIRES_PROTECTED_INCREASE") else
    loss ← dec max_loss_usd;
    loss_usdt ← panicking (checked_div loss fx);
    panicking (checked_div loss_usdt per_contract_loss)
  | EntryBudgetUsd entry_budget_usd =>
    if negb increase then Err (Error "ENTRY_BUDGET_REQUIRES_INCREASE") else
    divisor ← contract_cost ct price fee_rate fx;
    budget ← dec entry_budget_usd;
    panicking (checked_div budget divisor)
  end.

(** [(x / lot).floor() * lot] *)
Definition to_lots (x lot : D) : result failure D :=
  lots ← panicking (checked_div x lot);
  panicking (checked_mul (dec_floor lots) lot).

(** [size_order] up to the first quote: the quantity on lots, below the ceiling *)
Definition initial_quantity (sizing : Sizing) (increase : bool)
    (lot minimum ct price per_contract_loss fx fee_rate : D) (entry_ceiling_usd : option D)
    : result failure D :=
  if dec_leb lot dec_zero || dec_leb minimum dec_zero || dec_leb ct dec_zero
     || dec_leb price dec_zero || dec_leb fx dec_zero || dec_ltb fee_rate dec_zero
  then Err (Error "ENTRY_SOURCE_INVALID") else
  quantity ← requested_quantity sizing increase ct price per_contract_loss fx fee_rate;
  qty ← (if is_contracts sizing then
           lots ← panicking (checked_div quantity lot);
           if negb (dec_eqb (dec_fract lots) dec_zero)
           then Err (Error "QUANTITY_NOT_ON_VENUE_LOT") else Ok quantity
         else to_lots quantity lot);
  qty ← (match (if increase then entry_ceiling_usd else None) with
         | Some cap =>
           if dec_leb cap dec_zero then Err (Error "ENTRY_BUDGET_INVALID") else
           divisor ← contract_cost ct price fee_rate fx;
           contracts ← panicking (checked_div cap divisor);
           cap_qty ← to_lots contracts lot;
           if is_contracts sizing && dec_ltb cap_qty qty
           then Err (Error "ENTRY_BUDGET_EXCEEDED") else Ok (dec_min qty cap_qty)
         | None => Ok qty
         end);
  if dec_ltb qty minimum || dec_leb qty dec_zero
  then Err (Error (if is_entry_budget sizing
                      || (match entry_ceiling_usd with Some _ => true | None => false end)
                   then "ENTRY_BUDGET_BELOW_VENUE_MINIMUM" else "MINIMUM_SIZE_EXCEEDS_BUDGET"))
  else Ok qty.

(** One [while] loop, and the check that follows it *)
Fixpoint shrink (fuel : nat) (lot minimum ct price fee_rate fx cap qty : D) (value : EntryQuote)
    : result failure (D * EntryQuote) :=
  if negb (dec_ltb cap (total_usd value)) then Ok (qty, value) else
  least ← panicking (checked_add minimum lot);
  if negb (dec_leb least qty) then Ok (qty, value) else
  match fuel with
  | O => Err OutOfFuel
  | S fuel' =>
    qty ← panicking (checked_sub qty lot);
    value ← quote qty ct price fee_rate fx;
    shrink fuel' lot minimum ct price fee_rate fx cap qty value
  end.

Definition shrink_to (fuel : nat) (lot minimum ct price fee_rate fx cap : D)
    (s : D * EntryQuote) : result failure (D * EntryQuote) :=
  s ← shrink fuel lot minimum ct price fee_rate fx cap s.1 s.2;
  if dec_ltb cap (total_usd s.2) then Err (Error "ENTRY_BUDGET_BELOW_VENUE_MINIMUM") else Ok s.

Definition size_order (fuel : nat) (sizing : Sizing) (increase : bool)
    (lot minimum ct price per_contract_loss fx fee_rate : D) (entry_ceiling_usd : option D)
    : result failure EntryQuote :=
  qty ← initial_quantity sizing increase lot minimum ct price per_contract_loss fx fee_rate
          entry_ceiling_usd;
  value ← quote qty ct price (if increase then fee_rate else dec_zero) fx;
  if negb increase then Ok value else
  s ← (match entry_ceiling_usd with
       | Some cap => shrink_to fuel lot minimum ct price fee_rate fx cap (qty, value)
       | None => Ok (qty, value)
       end);
  s ← (match sizing with
       | EntryBudgetUsd entry_budget_usd =>
         cap ← dec entry_budget_usd;
         shrink_to fuel lot minimum ct price fee_rate fx cap s
       | _ => Ok s
       end);
  Ok s.2.

Definition unproven_entry_cost_headroom (known_entry_usd : D) (entry_ceiling_usd : option D)
    : result failure (option D) :=
  match entry_ceiling_usd with
  | None => Ok None
  | Some cap =>
    if dec_leb known_entry_usd dec_zero || dec_leb cap dec_zero
    then Err (Error "ENTRY_SOURCE_INVALID") else
    remaining ← overflow (checked_sub cap known_entry_usd);
    if dec_ltb remaining dec_zero then Err (Error "ENTRY_BUDGET_EXCEEDED")
    else Ok (Some remaining)
  end.
End entry_budget.
Arguments EntryQuote D : clear implicits.

(** ** Facts *)

(** The caps an entry is held to *)
Definition caps {D} `{DecimalOps D} (sizing : Sizing) (entry_ceiling_usd : option D) : list D :=
  option_list entry_ceiling_usd ++
  match sizing with
  | EntryBudgetUsd b => match dec (D:=D) b with Ok c => [c] | Err _ => [] end
  | _ => []
  end.

(** [k] lots less *)
Fixpoint lots_down {D} `{DecimalArith D} (lot : D) (k : nat) (qty : D) : option D :=
  match k with
  | O => Some qty
  | S k' => q ← lots_down lot k' qty; checked_sub q lot
  end.

Section facts.
Context {D : Type} `{DecimalLaws D}.
Implicit Types qty lot minimum ct price fee_rate fx cap : D.

Definition fits (cs : list D) (v : EntryQuote D) : Prop :=
  Forall (λ c, dec_ltb c (total_usd v) = false) cs.

(** [v] quotes the first rung of the ladder below [qty] whose cost fits [cs]. *)
Definition first_fit (lot ct price fee_rate fx : D) (cs : list D) qty (k : nat)
    (s : D * EntryQuote D) : Prop :=
  lots_down lot k qty = Some s.1 ∧ quote s.1 ct price fee_rate fx = Ok s.2
  ∧ ∀ j, (j < k)%nat → ∃ q v, lots_down lot j qty = Some q
      ∧ quote q ct price fee_rate fx = Ok v ∧ ¬ fits cs v.

Lemma quote_quantity qty ct price fee_rate fx v :
  quote qty ct price fee_rate fx = Ok v → quantity v = qty.
Proof. unfold quote. intros E. bool_cases; [done|]. inv_ok E. by injection E as <-. Qed.

Lemma lots_down_app lot j k qty q :
  lots_down lot j qty = Some q → lots_down lot (k + j) qty = lots_down lot k q.
Proof. intros Hj. induction k as [|k IH]; simpl; [done|]. by rewrite IH. Qed.

Lemma quote_finished qty ct price fee_rate fx : finished (quote qty ct price fee_rate fx).
Proof. unfold quote. finished_steps. Qed.
Hint Resolve quote_finished : fuel.

(** The steps of one loop, from the rung it starts on *)
Lemma shrink_steps fuel lot minimum ct price fee_rate fx cap qty v s :
  shrink fuel lot minimum ct price fee_rate fx cap qty v = Ok s →
  quote qty ct price fee_rate fx = Ok v →
  ∃ k, first_fit lot ct price fee_rate fx [cap] qty k s.
Proof.
  revert qty v. induction fuel as [|fuel IH]; intros qty v E Hq; simpl in E.
  - destruct (negb _); [|inv_ok E; destruct (negb _); [|done]]; injection E as <-;
      exists 0%nat; (split_and!; [done|done|lia]).
  - destruct (negb _) eqn:Ec; [injection E as <-; exists 0%nat; split_and!; [done|done|lia]|].
    inv_ok E. destruct (negb (dec_leb a qty));
      [injection E as <-; exists 0%nat; split_and!; [done|done|lia]|].
    inv_ok E. apply ok_or_ok in Ha0. destruct (IH _ _ E Ha1) as (k & Hk & Hv & Hj).
    exists (S k). assert (Hone : lots_down lot 1 qty = Some a0) by (simpl; by rewrite Ha0).
    pose proof (lots_down_app _ 1 k _ _ Hone) as Happ. rewrite Nat.add_1_r in Happ.
    split_and!; [by rewrite Happ|done|].
    intros [|j] Hlt; [exists qty, v; split_and!; [done|done|]|].
    + intros Hf. inversion Hf as [|? ? Hc _]; subst. by rewrite Hc in Ec.
    + destruct (Hj j ltac:(lia)) as (q & w & Hqj & Hw & Hnf). exists q, w.
      pose proof (lots_down_app _ 1 j _ _ Hone) as Happ'. rewrite Nat.add_1_r in Happ'.
      by rewrite Happ'.
Qed.

(** The whole loop, checked: it stops on the first rung that fits. *)
Lemma shrink_to_fit fuel lot minimum ct price fee_rate fx cap qty v s :
  shrink_to fuel lot minimum ct price fee_rate fx cap (qty, v) = Ok s →
  quote qty ct price fee_rate fx = Ok v →
  ∃ k, first_fit lot ct price fee_rate fx [cap] qty k s ∧ fits [cap] s.2.
Proof.
  unfold shrink_to. simpl. intros E Hq. inv_ok E. destruct (dec_ltb _ _) eqn:Ec; [done|].
  injection E as <-. destruct (shrink_steps _ _ _ _ _ _ _ _ _ _ _ Ha Hq) as (k & Hk).
  exists k. split; [done|]. by constructor.
Qed.

Lemma fits_app cs ds v : fits (cs ++ ds) v ↔ fits cs v ∧ fits ds v.
Proof. unfold fits. apply Forall_app. Qed.

Lemma first_fit_weaken lot ct price fee_rate fx cs cs' qty k s :
  cs ⊆ cs' → first_fit lot ct price fee_rate fx cs qty k s →
  first_fit lot ct price fee_rate fx cs' qty k s.
Proof.
  intros Hsub (Hk & Hv & Hj). split_and!; [done|done|]. intros j Hlt.
  destruct (Hj j Hlt) as (q & w & Hq & Hw & Hn). exists q, w. split_and!; [done|done|].
  intros Hf. apply Hn. unfold fits in *. rewrite Forall_forall in *. auto.
Qed.

(** Two caps, one loop after the other: if the second loop moves at all, its cap is the
    smaller one. *)
Lemma two_loops lot ct price fee_rate fx cap1 cap2 qty k1 k2 s1 s2 :
  first_fit lot ct price fee_rate fx [cap1] qty k1 s1 → fits [cap1] s1.2 →
  first_fit lot ct price fee_rate fx [cap2] s1.1 k2 s2 → fits [cap2] s2.2 →
  ∃ k, first_fit lot ct price fee_rate fx [cap1; cap2] qty k s2 ∧ fits [cap1; cap2] s2.2.
Proof.
  intros (Hd1 & Hq1 & Hj1) Hf1 (Hd2 & Hq2 & Hj2) Hf2. exists (k2 + k1)%nat.
  unfold fits in Hf1, Hf2. rewrite Forall_singleton in Hf1, Hf2.
  assert (Hcap : k2 = 0%nat ∨ (val cap2 <= val cap1)%Q).
  { destruct k2 as [|k2]; [by left|right]. destruct (Hj2 0%nat ltac:(lia)) as (q & w & [= <-] & Hw & Hn).
    assert (w = s1.2) as -> by congruence.
    unfold fits in Hn. rewrite Forall_singleton in Hn. apply not_false_is_true in Hn. reflect_decs. lra. }
  split; [split_and!|].
  - by rewrite (lots_down_app _ _ _ _ _ Hd1).
  - done.
  - intros j Hlt. destruct (decide (j < k1)%nat) as [Hj|Hj].
    + destruct (Hj1 j Hj) as (q & w & ? & ? & Hn). exists q, w. split_and!; [done|done|].
      unfold fits in *. rewrite Forall_singleton in Hn. inversion 1. done.
    + destruct (Hj2 (j - k1)%nat ltac:(lia)) as (q & w & Hq & Hw & Hn). exists q, w.
      replace j with ((j - k1) + k1)%nat by lia. rewrite (lots_down_app _ _ _ _ _ Hd1).
      split_and!; [done|done|]. unfold fits in *. rewrite Forall_singleton in Hn.
      inversion 1 as [|? ? _ Hr]. inversion Hr. done.
  - unfold fits. rewrite !Forall_cons. split_and!; [|done|constructor].
    destruct Hcap as [->|Hle].
    + simpl in Hd2. injection Hd2 as Hd2. rewrite Hd2 in Hq1. congruence.
    + apply dec_ltb_false. apply dec_ltb_false in Hf2. lra.
Qed.
End facts.

(** ** The first quantity

    A number of contracts is taken as it is; a loss and a budget are turned into the
    largest number of whole lots they pay for, and so is the ceiling. *)
Section first_quantity.
Context {D : Type} `{DivisionLaws D}.
Variables (sizing : Sizing).
Variables (lot minimum ct price per_contract_loss fx fee_rate : D) (entry_ceiling_usd : option D).

(** The cost of a contract in USD, its fee included *)
Definition cost_rate : Q := (val ct * val price * (1 + val fee_rate) * val fx)%Q.
(** What bounds the size, as an amount in USD and what a contract takes of it *)
Definition request_bounds : list (Q * Q) :=
  match sizing with
  | Contracts _ => []
  | MaxLossUsd l => match dec (D:=D) l with Ok l => [(val per_contract_loss * val fx, val l)%Q] | Err _ => [] end
  | EntryBudgetUsd b => match dec (D:=D) b with Ok b => [(cost_rate, val b)] | Err _ => [] end
  end.
Definition ceiling_bounds : list (Q * Q) :=
  match entry_ceiling_usd with Some cap => [(cost_rate, val cap)] | None => [] end.
Definition size_bounds : list (Q * Q) := request_bounds ++ ceiling_bounds.

(** The inputs have few enough digits: the cost of a contract is not rounded, and no bound
    is within the rounding of a quotient of the next lot. *)
Definition sizes_clear : Prop :=
  Forall representable [val ct * val price; 1 + val fee_rate; val ct * val price * (1 + val fee_rate); cost_rate]%Q
  ∧ Forall (λ b, clear_above (λ q, short q ∧ ∀ l, sizing = MaxLossUsd l → short (q * val per_contract_loss)%Q)
                   (val lot) (b.2 / b.1)%Q) size_bounds.

(** [qty] is whole lots, within the bounds [bs], and one lot more is not. *)
Definition largest_lots (bs : list (Q * Q)) (qty : D) : Prop :=
  (∃ k : Z, (val qty == inject_Z k * val lot)%Q)
  ∧ Forall (λ b, (val qty * b.1 <= b.2)%Q) bs ∧ Exists (λ b, (b.2 < (val qty + val lot) * b.1)%Q) bs.
(** The quantity a request starts from *)
Definition starts_from (qty : D) : Prop :=
  match sizing with
  | Contracts contracts => dec contracts = Ok qty ∧ (sizes_clear → Forall (λ b, (val qty * b.1 <= b.2)%Q) size_bounds)
  | _ => sizes_clear → largest_lots size_bounds qty
  end.

Lemma contract_cost_val d : contract_cost ct price fee_rate fx = Ok d →
  Forall representable [val ct * val price; 1 + val fee_rate; val ct * val price * (1 + val fee_rate); cost_rate]%Q →
  (val d == cost_rate)%Q.
Proof.
  unfold contract_cost, cost_rate. rewrite !Forall_cons. intros E (R1 & R2 & R3 & R4 & _). inv_ok E.
  repeat match goal with X : overflow _ = Ok _ |- _ => apply ok_or_ok in X | X : panicking _ = Ok _ |- _ => apply ok_or_ok in X end.
  destruct (checked_mul _ _) as [w|] eqn:Ew in E; [|done]. simpl in E.
  apply (mul_exact _ _ _) in Ha; [|done].
  apply (add_exact _ _ _) in Ha0; [|eapply representable_proper; [|exact R2]; by rewrite val_one]. rewrite val_one in Ha0.
  apply (mul_exact _ _ _) in Ew; [|eapply representable_proper; [|exact R3]; by rewrite Ha, Ha0]. rewrite Ha, Ha0 in Ew.
  rewrite (mul_exact _ _ _ E); [by rewrite Ew|]. eapply representable_proper; [|exact R4]. by rewrite Ew.
Qed.

Lemma largest_of_one qty (b : Q * Q) : (0 < val lot)%Q → (0 < b.1)%Q →
  (val qty == units_below (val lot) (b.2 / b.1))%Q → largest_lots [b] qty.
Proof.
  intros Hl Hb E. destruct (units_below_bounds (val lot) (b.2 / b.1) Hl) as [B1 B2]. rewrite <- E in B1, B2.
  apply (Qmult_le_r _ _ b.1 Hb) in B1. apply (Qmult_lt_r _ _ b.1 Hb) in B2.
  assert (Hx : (b.2 / b.1 * b.1 == b.2)%Q) by (field; lra). rewrite Hx in B1, B2.
  split; [by eexists|]. split; by constructor.
Qed.
(** The smaller of two such quantities *)
Lemma largest_of_min bs cs a b : Forall (λ x, (0 < x.1)%Q) (bs ++ cs) →
  largest_lots bs a → largest_lots cs b → largest_lots (bs ++ cs) (dec_min a b).
Proof.
  rewrite Forall_app. intros [Pb Pc] (Ka & Fa & Xa) (Kb & Fb & Xb). unfold dec_min.
  assert (Hsmaller : ∀ (l : list (Q * Q)) (x y : D), Forall (λ x, (0 < x.1)%Q) l → (val x <= val y)%Q →
    Forall (λ b, (val y * b.1 <= b.2)%Q) l → Forall (λ b, (val x * b.1 <= b.2)%Q) l).
  { intros l x y Hp Hle Hl. rewrite Forall_forall in *. intros c Hc. specialize (Hp _ Hc). specialize (Hl _ Hc).
    apply Qle_trans with (val y * c.1)%Q; [|done]. apply Qmult_le_compat_r; lra. }
  destruct (dec_leb a b) eqn:E; [apply dec_leb_val in E|apply dec_leb_false in E];
    (split; [done|]; rewrite Forall_app, Exists_app; split; [split|]; auto).
  - by eapply Hsmaller.
  - eapply Hsmaller; [done| |done]. lra.
Qed.

Lemma to_lots_largest P (c q : D) (b : Q * Q) : (0 < val lot)%Q → (0 < b.1)%Q → to_lots c lot = Ok q →
  (∀ x, P x → follows x (b.2 / b.1) c) → clear_above P (val lot) (b.2 / b.1) → largest_lots [b] q.
Proof.
  unfold to_lots. intros Hl Hb E Hf Hc. inv_ok E. apply ok_or_ok in Ha, E.
  by apply largest_of_one, (floor_units P lot c a q).
Qed.

Lemma cost_rate_pos : (0 < val ct → 0 < val price → 0 <= val fee_rate → 0 < val fx → 0 < cost_rate)%Q.
Proof.
  intros ? ? ? ?. unfold cost_rate. assert (0 < val ct * val price)%Q by (apply Qmult_lt_0_compat; done).
  assert (0 < val ct * val price * (1 + val fee_rate))%Q by (apply Qmult_lt_0_compat; [done|lra]).
  by apply Qmult_lt_0_compat.
Qed.
(** Lots bought with an amount at the cost of a contract *)
Lemma cost_lots (amount d c q : D) :
  (0 < val lot)%Q → (0 < cost_rate)%Q → contract_cost ct price fee_rate fx = Ok d → checked_div amount d = Some c →
  to_lots c lot = Ok q → sizes_clear → (cost_rate, val amount) ∈ size_bounds → largest_lots [(cost_rate, val amount)] q.
Proof.
  intros Hl Hr Ed Ec Eq [Hc Hb] Hin. rewrite Forall_forall in Hb. specialize (Hb _ Hin).
  pose proof (contract_cost_val _ Ed Hc) as Vd.
  eapply to_lots_largest; [done|done|done| |exact Hb]. intros x [Hx _]. simpl.
  apply follows_proper with (val amount / val d)%Q; [by rewrite Vd|]. apply follows_quotient; [done| |done]. by rewrite Vd.
Qed.

Lemma request_lots r q :
  (0 < val lot)%Q → (0 < cost_rate)%Q → (0 < val fx)%Q → is_contracts sizing = false →
  requested_quantity sizing true ct price per_contract_loss fx fee_rate = Ok r → to_lots r lot = Ok q →
  sizes_clear → Forall (λ b, 0 < b.1)%Q request_bounds ∧ largest_lots request_bounds q.
Proof.
  intros Hl Hr Hfx Hs E Eq Hc. unfold requested_quantity in E. unfold request_bounds.
  pose proof Hc as [_ Hb]. unfold size_bounds, request_bounds in Hb.
  destruct sizing as [?|l|b] eqn:Esz; [done| |]; simpl in E.
  - destruct (dec_leb per_contract_loss dec_zero) eqn:Ep; [done|]. apply dec_leb_false in Ep. rewrite val_zero in Ep.
    apply bind_ok in E as (loss & El & E). rewrite El in *. apply bind_ok in E as (lu & Eu%ok_or_ok & E%ok_or_ok).
    assert (Hp : (0 < val per_contract_loss * val fx)%Q) by by apply Qmult_lt_0_compat.
    split; [by constructor|]. rewrite Forall_app, Forall_singleton in Hb. destruct Hb as [Hb _].
    eapply to_lots_largest; [done|done|done| |exact Hb]. intros x [Hx Hx2]. simpl.
    apply follows_proper with (val loss / val fx / val per_contract_loss)%Q; [field; split; lra|].
    apply follows_div with lu; [done|done|done|]. apply follows_quotient; [done|done|by eapply Hx2].
  - apply bind_ok in E as (d & Ed & E). apply bind_ok in E as (b' & Eb & E%ok_or_ok).
    rewrite Eb. split; [by constructor|]. eapply cost_lots; [done..|].
    unfold size_bounds, request_bounds. rewrite Esz, Eb. by left.
Qed.

(** The first quantity of an increase is what its request and the ceiling allow. *)
Lemma initial_quantity_starts qty :
  initial_quantity sizing true lot minimum ct price per_contract_loss fx fee_rate entry_ceiling_usd = Ok qty →
  starts_from qty.
Proof.
  unfold initial_quantity. intros E. destruct (_ || _) eqn:Ep in E; [done|]. reflect_decs. rewrite val_zero in *.
  apply bind_ok in E as (r & Er & E). apply bind_ok in E as (a & Ea & E). apply bind_ok in E as (q & Eq & E).
  destruct (_ || _) in E; [done|]. injection E as <-.
  assert (Hr : (0 < cost_rate)%Q) by by apply cost_rate_pos.
  assert (Hcap : ∀ cap, entry_ceiling_usd = Some cap → ∃ b, q = dec_min a b ∧
    (is_contracts sizing = true → dec_ltb b a = false) ∧ (sizes_clear → largest_lots ceiling_bounds b)).
  { intros cap Ecap. rewrite Ecap in Eq. destruct (dec_leb cap dec_zero); [done|].
    apply bind_ok in Eq as (d & Ed & Eq). apply bind_ok in Eq as (c & Ec%ok_or_ok & Eq). apply bind_ok in Eq as (b & Eb & Eq).
    exists b. destruct (is_contracts sizing && dec_ltb b a) eqn:Ex; [done|]. injection Eq as <-. split; [done|]. split.
    - intros Hs. by rewrite Hs in Ex.
    - intros Hc. unfold ceiling_bounds. rewrite Ecap. eapply cost_lots; [done..|].
      unfold size_bounds, ceiling_bounds. rewrite Ecap. apply elem_of_app. right. by left. }
  unfold starts_from. destruct (is_contracts sizing) eqn:Es.
  - destruct sizing as [c|?|?] eqn:Esz; try done. simpl in Er. inv_ok Ea. destruct (negb _); [done|]. injection Ea as <-.
    destruct entry_ceiling_usd as [cap|] eqn:Ecap.
    + destruct (Hcap cap eq_refl) as (b & -> & Hb & Hlarge). specialize (Hb eq_refl). apply dec_ltb_false in Hb.
      assert (Hm : dec_min r b = r) by (unfold dec_min; apply dec_leb_val in Hb; by rewrite Hb).
      rewrite Hm. split; [done|]. intros Hc. destruct (Hlarge Hc) as (_ & Hf & _).
      unfold size_bounds, request_bounds. rewrite Esz. cbn [app]. unfold ceiling_bounds in *. rewrite Ecap in *.
      rewrite Forall_singleton in *. simpl in *. apply Qle_trans with (val b * cost_rate)%Q; [|done]. by apply Qmult_le_compat_r; [|lra].
    + injection Eq as <-. split; [done|]. intros _. unfold size_bounds, request_bounds, ceiling_bounds. rewrite Esz, Ecap. constructor.
  - assert (Hreq : sizes_clear → Forall (λ b, 0 < b.1)%Q request_bounds ∧ largest_lots request_bounds a)
      by (intros Hc; by eapply request_lots).
    assert (sizes_clear → largest_lots size_bounds q) as Hgoal.
    { intros Hc. destruct (Hreq Hc) as [Hpos Hl]. destruct entry_ceiling_usd as [cap|] eqn:Ecap.
      - destruct (Hcap cap eq_refl) as (b & -> & _ & Hlarge). apply largest_of_min; [|done|by apply Hlarge].
        apply Forall_app. split; [done|]. unfold ceiling_bounds. rewrite Ecap. by constructor.
      - injection Eq as <-. unfold size_bounds, ceiling_bounds. rewrite Ecap, app_nil_r. done. }
    by destruct sizing.
Qed.
End first_quantity.

Section size_order.
Context {D : Type} `{DecimalLaws D}.
Variables (sizing : Sizing) (increase : bool).
Variables (lot minimum ct price per_contract_loss fx fee_rate : D) (entry_ceiling_usd : option D).

Notation start :=
  (initial_quantity sizing increase lot minimum ct price per_contract_loss fx fee_rate
     entry_ceiling_usd).

(** ** Termination: subtracting lots is exact on the ladder, as for venue sizes *)
Definition exact_ladder (qty : D) : Prop :=
  representable (val minimum + val lot) ∧
  ∀ q : D, (val q <= val qty → val minimum <= val q - val lot →
            representable (val q - val lot))%Q.

Lemma shrink_finished fuel cap qty v :
  exact_ladder qty → (0 < val lot)%Q →
  (val qty - val minimum < inject_Z (Z.of_nat fuel) * val lot)%Q →
  finished (shrink fuel lot minimum ct price fee_rate fx cap qty v).
Proof.
  intros [Hm Hl] Hpos. revert qty v Hl.
  induction fuel as [|fuel IH]; intros qty v Hl Hlt; simpl;
    (destruct (negb (dec_ltb _ _)); [done|]);
    (apply finished_bind; [apply finished_panicking|]); intros least Ea;
    apply ok_or_ok in Ea; apply (add_exact _ _ _) in Ea; [|done| |done];
    (destruct (dec_leb least qty) eqn:El; [simpl|done]); apply dec_leb_val in El.
  - change (inject_Z (Z.of_nat 0)) with 0%Q in Hlt. lra.
  - apply finished_bind; [apply finished_panicking|]. intros q Es. apply ok_or_ok in Es.
    apply (sub_exact _ _ _) in Es; [|apply Hl; lra].
    rewrite Nat2Z.inj_succ, <- Z.add_1_r, inject_Z_plus in Hlt.
    change (inject_Z 1) with 1%Q in Hlt.
    apply finished_bind; [apply quote_finished|]. intros w _. apply IH; [|lra].
    intros q' Hq' Hr. apply Hl; lra.
Qed.

Lemma shrink_fuel fuel fuel' cap qty v :
  (fuel ≤ fuel')%nat → finished (shrink fuel lot minimum ct price fee_rate fx cap qty v) →
  shrink fuel' lot minimum ct price fee_rate fx cap qty v =
  shrink fuel lot minimum ct price fee_rate fx cap qty v.
Proof.
  revert fuel' qty v. induction fuel as [|fuel IH]; intros [|fuel'] qty v Hle Hf; try done; try lia.
  all: simpl in *; destruct (negb (dec_ltb _ _)); [done|];
    destruct (checked_add minimum lot) as [least|]; [simpl in *|done];
    destruct (negb (dec_leb least qty)); [done|].
  - by destruct Hf.
  - destruct (checked_sub qty lot) as [q|]; [simpl in *|done].
    destruct (quote q _ _ _ _) as [w|e]; [simpl in *|done]. apply IH; [lia|done].
Qed.
Lemma shrink_range fuel cap qty v s :
  exact_ladder qty → (0 < val lot)%Q → (val minimum <= val qty)%Q →
  shrink fuel lot minimum ct price fee_rate fx cap qty v = Ok s →
  (val minimum <= val s.1 ∧ val s.1 <= val qty)%Q.
Proof.
  intros [Hm Hl] Hpos. revert qty v Hl.
  induction fuel as [|fuel IH]; intros qty v Hl Hge E; simpl in E;
    (destruct (negb (dec_ltb _ _)); [injection E as <-; simpl; lra|]);
    apply bind_ok in E as (least & Ea & E); apply ok_or_ok in Ea;
    apply (add_exact _ _ _) in Ea; [|done| |done];
    (destruct (dec_leb least qty) eqn:El; [simpl in E|injection E as <-; simpl; lra]);
    apply dec_leb_val in El; [done|].
  apply bind_ok in E as (q & Es & E). apply bind_ok in E as (w & _ & E).
  apply ok_or_ok in Es. apply (sub_exact _ _ _) in Es; [|apply Hl; lra].
  destruct (IH q w) as [? ?]; [|lra|done|lra]. intros q' ? ?. apply Hl; lra.
Qed.

Lemma exact_ladder_below qty qty' :
  (val qty' <= val qty)%Q → exact_ladder qty → exact_ladder qty'.
Proof. intros Hle [Hm Hl]. split; [done|]. intros q ? ?. apply Hl; lra. Qed.

Lemma initial_quantity_ok qty :
  start = Ok qty → (0 < val lot ∧ val minimum <= val qty ∧ 0 < val qty)%Q.
Proof.
  unfold initial_quantity. intros E. destruct (_ || _) eqn:Ep in E; [done|].
  apply bind_ok in E as (? & _ & E). apply bind_ok in E as (? & _ & E).
  apply bind_ok in E as (q & _ & E). destruct (_ || _) eqn:Eq in E; [done|].
  injection E as <-. reflect_decs. pose proof (val_zero (D:=D)). lra.
Qed.

Lemma to_lots_finished x y : finished (to_lots (D:=D) x y).
Proof. unfold to_lots. finished_steps. Qed.
Lemma contract_cost_finished : finished (contract_cost ct price fee_rate fx).
Proof. unfold contract_cost. finished_steps. Qed.
Hint Resolve to_lots_finished contract_cost_finished : fuel.

Lemma initial_quantity_finished : finished start.
Proof. unfold initial_quantity, requested_quantity. finished_steps. Qed.

(** A stage of the sizing: with fuel it finishes, more fuel changes nothing, and the
    quoted quantity stays between the minimum and where it was. *)
Definition stage_ok (fuel : nat) (qty : D) (run : nat → result failure (D * EntryQuote D)) : Prop :=
  finished (run fuel) ∧ (∀ fuel', (fuel ≤ fuel')%nat → run fuel' = run fuel)
  ∧ ∀ s, run fuel = Ok s → (val minimum <= val s.1 ∧ val s.1 <= val qty)%Q
      ∧ quote s.1 ct price fee_rate fx = Ok s.2.

Lemma stage_stay fuel qty v :
  (val minimum <= val qty)%Q → quote qty ct price fee_rate fx = Ok v →
  stage_ok fuel qty (λ _, Ok (qty, v)).
Proof. intros. split_and!; [done|done|]. intros s [= <-]. simpl. split; [split; [done|lra]|done]. Qed.

Lemma stage_shrink fuel cap qty v :
  exact_ladder qty → (0 < val lot)%Q → (val minimum <= val qty)%Q →
  (val qty - val minimum < inject_Z (Z.of_nat fuel) * val lot)%Q →
  quote qty ct price fee_rate fx = Ok v →
  stage_ok fuel qty (λ n, shrink_to n lot minimum ct price fee_rate fx cap (qty, v)).
Proof.
  intros Hex Hpos Hmin Hfuel Hq. pose proof (shrink_finished fuel cap qty v Hex Hpos Hfuel) as Hf.
  split_and!.
  - unfold shrink_to. apply finished_bind; [done|]. intros s _. by destruct (dec_ltb _ _).
  - intros fuel' Hle. unfold shrink_to. simpl. by rewrite (shrink_fuel _ _ _ _ _ Hle Hf).
  - intros s E. destruct (shrink_to_fit _ _ _ _ _ _ _ _ _ _ _ E Hq) as (k & (_ & Hs & _) & _).
    split; [|done]. unfold shrink_to in E. apply bind_ok in E as (s1 & E1 & E).
    destruct (dec_ltb _ _); [done|]. injection E as <-. by eapply shrink_range.
Qed.

(** The two stages in sequence *)
Lemma stages_total fuel qty v :
  exact_ladder qty → (0 < val lot)%Q → (val minimum <= val qty)%Q →
  (val qty - val minimum < inject_Z (Z.of_nat fuel) * val lot)%Q →
  quote qty ct price fee_rate fx = Ok v →
  stage_ok fuel qty (λ n,
    s ← (match entry_ceiling_usd with
         | Some cap => shrink_to n lot minimum ct price fee_rate fx cap (qty, v)
         | None => Ok (qty, v)
         end);
    match sizing with
    | EntryBudgetUsd b => cap ← dec b; shrink_to n lot minimum ct price fee_rate fx cap s
    | _ => Ok s
    end).
Proof.
  intros Hex Hpos Hmin Hfuel Hq.
  assert (Hone : stage_ok fuel qty (λ n,
    match entry_ceiling_usd with
    | Some cap => shrink_to n lot minimum ct price fee_rate fx cap (qty, v)
    | None => Ok (qty, v)
    end)).
  { destruct entry_ceiling_usd; [by apply stage_shrink|by apply stage_stay]. }
  destruct Hone as (Hf & Hmore & Hrange).
  assert (Htwo : ∀ s, (match entry_ceiling_usd with
    | Some cap => shrink_to fuel lot minimum ct price fee_rate fx cap (qty, v)
    | None => Ok (qty, v) end) = Ok s →
    stage_ok fuel s.1 (λ n, match sizing with
    | EntryBudgetUsd b => cap ← dec b; shrink_to n lot minimum ct price fee_rate fx cap s
    | _ => Ok s end)).
  { intros [q w] E. destruct (Hrange _ E) as [[Hlo Hhi] Hqw]. simpl in *.
    destruct sizing as [?|?|b]; [by apply stage_stay|by apply stage_stay|].
    pose proof (finished_dec (D:=D) b) as Hd. destruct (dec b) as [cap|e]; simpl.
    - apply stage_shrink; [by eapply exact_ladder_below|done|done|lra|done].
    - split_and!; [by eapply finished_err|done|done]. }
  split_and!.
  - apply finished_bind; [done|]. intros s E. apply (Htwo s E).
  - intros fuel' Hle. rewrite Hmore by done.
    destruct (match entry_ceiling_usd with Some _ => _ | None => _ end) as [s|e] eqn:E; [|done].
    by apply (Htwo s eq_refl).
  - intros s E. apply bind_ok in E as (s1 & E1 & E2).
    destruct (Hrange _ E1) as [[Hlo Hhi] _].
    destruct (proj2 (proj2 (Htwo s1 E1)) s E2) as [[? ?] ?]. split; [split; [done|lra]|done].
Qed.

(** Sizing ends: when subtracting a lot is exact for the quantities at hand, fuel for
    the lots between the minimum and the initial quantity finishes both loops, more fuel
    gives the same answer, and an accepted quantity is at least the venue's minimum. *)
Theorem size_order_terminates fuel :
  (∀ qty, start = Ok qty → exact_ladder qty
     ∧ (val qty - val minimum < inject_Z (Z.of_nat fuel) * val lot)%Q) →
  let run n := size_order n sizing increase lot minimum ct price per_contract_loss fx fee_rate
                 entry_ceiling_usd in
  finished (run fuel) ∧ (∀ fuel', (fuel ≤ fuel')%nat → run fuel' = run fuel)
  ∧ ∀ v, run fuel = Ok v → (val minimum <= val (quantity v))%Q.
Proof.
  intros Hstart run. unfold run, size_order. clear run.
  pose proof initial_quantity_finished as Hfin.
  destruct start as [qty|e] eqn:Es; simpl;
    [|split_and!; [by eapply finished_err|done|done]].
  destruct (Hstart qty eq_refl) as [Hex Hfuel].
  destruct (initial_quantity_ok _ Es) as (Hpos & Hmin & _).
  pose proof (quote_finished qty ct price (if increase then fee_rate else dec_zero) fx) as Hqf.
  destruct (quote qty ct price (if increase then fee_rate else dec_zero) fx) as [v0|e] eqn:Eq;
    simpl; [|split_and!; [by eapply finished_err|done|done]].
  pose proof (quote_quantity _ _ _ _ _ _ Eq) as Hqv.
  destruct increase; simpl; [|split_and!; [done|done|by intros v [= <-]; rewrite Hqv]].
  destruct (stages_total fuel qty v0 Hex Hpos Hmin Hfuel Eq) as (Hf & Hmore & Hrange).
  simpl in *. rewrite <- bind_assoc. split_and!.
  - apply finished_bind; [done|]. intros s _. apply finished_ok.
  - intros fuel' Hle. by rewrite <- bind_assoc, Hmore.
  - intros v E. apply bind_ok in E as (s & E & [= <-]).
    destruct (Hrange s E) as [[? ?] Hs]. by rewrite (quote_quantity _ _ _ _ _ _ Hs).
Qed.
End size_order.

Section largest_fit.
Context {D : Type} `{DivisionLaws D}.
Variables (sizing : Sizing) (increase : bool).
Variables (lot minimum ct price per_contract_loss fx fee_rate : D) (entry_ceiling_usd : option D).

Notation start :=
  (initial_quantity sizing increase lot minimum ct price per_contract_loss fx fee_rate
     entry_ceiling_usd).

(** C35: An accepted increase is the quote of the first quantity, going down lot by lot
    from a start, whose cost with fees rounded up exceeds neither the entry ceiling nor the
    budget.  The start of a request for contracts is the number it names; that of a request
    by loss or by budget is the largest number of whole lots that, before the fee is rounded,
    is within the loss or the budget and within the ceiling: one lot more is not, unless
    the inputs have so many digits that a quotient is rounded across a lot. *)
Theorem size_order_largest_fit fuel v :
  increase = true →
  size_order fuel sizing increase lot minimum ct price per_contract_loss fx fee_rate
    entry_ceiling_usd = Ok v →
  ∃ qty k, start = Ok qty
    ∧ starts_from sizing lot ct price per_contract_loss fx fee_rate entry_ceiling_usd qty
    ∧ first_fit lot ct price fee_rate fx (caps sizing entry_ceiling_usd) qty k (quantity v, v)
    ∧ fits (caps sizing entry_ceiling_usd) v.
Proof.
  intros Hi E. unfold size_order in E. apply bind_ok in E as (qty & Hs & E).
  apply bind_ok in E as (v0 & Hv0 & E). rewrite Hi in Hv0, E. simpl in E.
  apply bind_ok in E as (s1 & L1 & E). apply bind_ok in E as (s2 & L2 & [= <-]).
  assert (Hq : ∀ s : D * EntryQuote D, quote s.1 ct price fee_rate fx = Ok s.2 → (quantity s.2, s.2) = s).
  { intros [q w] Hw. by rewrite (quote_quantity _ _ _ _ _ _ Hw). }
  assert (Hstay : ∀ s : D * EntryQuote D, quote s.1 ct price fee_rate fx = Ok s.2 →
    first_fit lot ct price fee_rate fx [] s.1 0 s).
  { intros s Hw. split_and!; [done|done|lia]. }
  exists qty.
  assert (Hfrom : starts_from sizing lot ct price per_contract_loss fx fee_rate entry_ceiling_usd qty)
    by (eapply initial_quantity_starts; by rewrite <- Hi).
  assert (Hone : ∃ k1, first_fit lot ct price fee_rate fx (option_list entry_ceiling_usd) qty k1 s1
                     ∧ fits (option_list entry_ceiling_usd) s1.2).
  { destruct entry_ceiling_usd as [cap|]; simpl in *.
    - by apply (shrink_to_fit _ _ _ _ _ _ _ _ _ _ _ L1).
    - injection L1 as <-. exists 0%nat. split; [by apply (Hstay (qty, v0))|constructor]. }
  destruct Hone as (k1 & Hf1 & Hc1). pose proof Hf1 as (_ & Hq1 & _).
  unfold caps. destruct sizing as [c|l|b].
  1,2: injection L2 as <-; exists k1; rewrite app_nil_r, (Hq s1); done.
  apply bind_ok in L2 as (cap & -> & L2). destruct s1 as [q1 v1].
  destruct (shrink_to_fit _ _ _ _ _ _ _ _ _ _ _ L2 Hq1) as (k2 & Hf2 & Hc2).
  pose proof Hf2 as (_ & Hq2 & _). rewrite (Hq s2) by done.
  destruct entry_ceiling_usd as [cap1|]; simpl in *.
  - destruct (two_loops _ _ _ _ _ _ _ _ _ _ _ _ Hf1 Hc1 Hf2 Hc2) as (k & Hk). eauto.
  - exists k2. destruct Hf1 as (Hd1 & _ & Hj1). destruct k1 as [|k1].
    + injection Hd1 as ->. done.
    + destruct (Hj1 0%nat ltac:(lia)) as (? & ? & _ & _ & Hn). by destruct Hn; constructor.
Qed.
End largest_fit.

(** ** Concrete sizings *)
Definition num (s : string) : Fixed.t := default dec_zero (dec_from_str s).

(** A budget of 10 USD at a price where two contracts cost 10.0000004 with the fee
    rounded up: two contracts are the start, and one is bought. *)
Lemma size_order_demo_clear :
  sizes_clear (EntryBudgetUsd "10") (num "1") (num "1") (num "4.9975012") (num "10") (num "1") (num "0.0005") None.
Proof.
  split; [by repeat constructor|]. simpl. apply Forall_singleton. simpl.
  assert (Hs : ∀ q, on_grid q → short (D:=Fixed.t) q ∧ ∀ l, EntryBudgetUsd "10" = MaxLossUsd l → short (D:=Fixed.t) (q * val (num "10"))%Q)
    by (intros q Hq; by split).
  split_and!.
  - exists (2 * Fixed.pow10 28)%Z. by vm_compute.
  - exists (2 * Fixed.pow10 28)%Z. by vm_compute.
  - exists (2 * Fixed.pow10 28)%Z. by vm_compute.
  - done.
  - exists (25 # 10)%Q. split; [by vm_compute|]. split; [by vm_compute|]. split; [|apply Hs]; exists (25 * Fixed.pow10 27)%Z; by vm_compute.
Qed.
Lemma size_order_largest_fit_witness :
  ∃ (v : EntryQuote Fixed.t) (qty : Fixed.t),
    size_order 3 (EntryBudgetUsd "10") true (num "1") (num "1") (num "1") (num "4.9975012")
      (num "10") (num "1") (num "0.0005") None = Ok v
    ∧ qty = Fixed.mk 2 0 ∧ quantity v = Fixed.mk 1 0
    ∧ largest_lots (num "1")
        (size_bounds (EntryBudgetUsd "10") (num "1") (num "4.9975012") (num "10") (num "1") (num "0.0005") None) qty
    ∧ fits (caps (EntryBudgetUsd "10") None) v.
Proof.
  destruct (size_order 3 (EntryBudgetUsd "10") true (num "1") (num "1") (num "1")
    (num "4.9975012") (num "10") (num "1") (num "0.0005") None) as [v|] eqn:E;
    [|by vm_compute in E].
  destruct (size_order_largest_fit _ _ _ _ _ _ _ _ _ _ _ _ eq_refl E) as (qty & k & Hq & Hs & _ & Hf).
  exists v, qty. split; [done|]. split; [vm_compute in Hq; by injection Hq as <-|].
  split; [vm_compute in E; by injection E as <-|]. split; [|exact Hf].
  apply Hs, size_order_demo_clear.
Defined.

Lemma size_order_terminates_witness :
  ∃ v, size_order 3 (EntryBudgetUsd "10") true (num "1") (num "1") (num "1") (num "4.9975012")
         (num "10") (num "1") (num "0.0005") None = Ok v
    ∧ (val (num "1") <= val (quantity v))%Q.
Proof.
  assert (Hs : ∀ qty, initial_quantity (EntryBudgetUsd "10") true (num "1") (num "1") (num "1")
      (num "4.9975012") (num "10") (num "1") (num "0.0005") None = Ok qty →
    exact_ladder (num "1") (num "1") qty
    ∧ (val qty - val (num "1") < inject_Z (Z.of_nat 3) * val (num "1"))%Q).
  { intros qty Hq. vm_compute in Hq. injection Hq as <-. split; [done|]. by vm_compute. }
  pose proof (size_order_terminates (EntryBudgetUsd "10") true (num "1") (num "1") (num "1")
    (num "4.9975012") (num "10") (num "1") (num "0.0005") None 3 Hs) as (_ & _ & Hmin).
  destruct (size_order 3 (EntryBudgetUsd "10") true (num "1") (num "1") (num "1")
    (num "4.9975012") (num "10") (num "1") (num "0.0005") None) as [v|] eqn:E;
    [|by vm_compute in E].
  exists v. split; [done|]. by apply Hmin.
Defined.

(** An exact number of contracts may still be lowered: asked for two contracts under a
    ceiling of 10 USD, the sizing passes the exact-quantity check and then the rounding
    of the fee makes the loop take one contract off instead of refusing. *)
Theorem contracts_resized :
  ∃ v, size_order 3 (Contracts "2") true (num "1") (num "1") (num "1") (num "4.9975012")
         (num "10") (num "1") (num "0.0005") (Some (num "10")) = Ok v
    ∧ quantity v = Fixed.mk 1 0.
Proof. eexists. by vm_compute. Qed.
