(* ===== verification/Protocol.v ===== *)
(** * Protocol: requests and account policy, [okx-protocol/src]

    The types of [trading.rs], [account_governance.rs] and [accounts.rs] with their
    validation.  [units_value] says what an accepted decimal text means in integers of
    1e-9, and [governance_sound] what a valid account policy guarantees.  Lengths are in
    bytes, and the two [Environment] enumerations of the source are one type. *)
From stdpp Require Import base option list numbers strings gmap sets.
From Stdlib Require Import ZArith Lia Ascii String.
From S2P Require Import Prelude Text Ordered External EntryBudget.
Local Open Scope string_scope.
Local Open Scope list_scope.
Local Open Scope Z_scope.

(** ** Texts *)
Definition len (s : string) : Z := Z.of_nat (String.length s).
Definition within (lo hi n : Z) : bool := (lo <=? n) && (n <=? hi).
Definition byte_in (lo hi : Z) (a : ascii) : bool := within lo hi (Z.of_N (N_of_ascii a)).
Definition is_digit : ascii → bool := byte_in 48 57.
Definition is_upper : ascii → bool := byte_in 65 90.
Definition is_lower : ascii → bool := byte_in 97 122.
Definition is_alphabetic (a : ascii) : bool := is_upper a || is_lower a.
Definition is_alphanumeric (a : ascii) : bool := is_alphabetic a || is_digit a.
Definition is_hex (a : ascii) : bool := is_digit a || byte_in 97 102 a.
Definition is_dash (a : ascii) : bool := (a =? "_")%char || (a =? "-")%char.
Definition bytes_all (p : ascii → bool) (s : string) : bool := forallb p (list_ascii_of_string s).
Definition bytes_any (p : ascii → bool) (s : string) : bool := existsb p (list_ascii_of_string s).
Definition first_byte (p : ascii → bool) (s : string) : bool :=
  match s with EmptyString => false | String a _ => p a end.

Fixpoint drop_str (n : nat) (s : string) : string :=
  match n, s with S n', String _ s' => drop_str n' s' | _, _ => s end.

(** [str::split_once] at one byte *)
Fixpoint split_once (c : ascii) (s : string) : option (string * string) :=
  match s with
  | EmptyString => None
  | String a s' =>
    if (a =? c)%char then Some ("", s')
    else match split_once c s' with Some (l, r) => Some (String a l, r) | None => None end
  end.

(** [str::split] at one byte *)
Fixpoint split_on (c : ascii) (s : string) : list string :=
  match s with
  | EmptyString => [""]
  | String a s' =>
    if (a =? c)%char then "" :: split_on c s'
    else match split_on c s' with [] => [String a ""] | h :: t => String a h :: t end
  end.

Fixpoint ends_with (c : ascii) (s : string) : bool :=
  match s with
  | EmptyString => false
  | String a EmptyString => (a =? c)%char
  | String _ s' => ends_with c s'
  end.

Definition count {A} (l : list A) : Z := Z.of_nat (List.length l).

(** [str::parse::<u128>] of a text of digits *)
Definition u128_max : Z := 2 ^ 128 - 1.
Fixpoint parse_u128 (acc : Z) (s : string) : option Z :=
  match s with
  | EmptyString => Some acc
  | String a s' =>
    d ← digit a; if acc * 10 + d <=? u128_max then parse_u128 (acc * 10 + d) s' else None
  end.
Definition checked_u128 (n : Z) : option Z := if n <=? u128_max then Some n else None.

Definition is_none_or {A} (p : A → bool) (o : option A) : bool :=
  match o with None => true | Some a => p a end.
Definition is_some_and {A} (p : A → bool) (o : option A) : bool :=
  match o with None => false | Some a => p a end.
Definition is_some {A} (o : option A) : bool := is_some_and (λ _, true) o.

(** ** [trading.rs] *)
Definition id (v : string) : bool :=
  within 8 128 (len v) && bytes_all (λ a, is_alphanumeric a || is_dash a) v.
Definition name (v : string) : bool :=
  negb (v =? "")%string && (len v <=? 128)
  && bytes_all (λ a, is_alphanumeric a || is_dash a || (a =? ":")%char) v.
Definition decimal (v : string) : bool :=
  let '(a, b) := match split_once "." v with Some (a, b) => (a, Some b) | None => (v, None) end in
  negb (a =? "")%string && (len a <=? 15)
  && ((len a =? 1) || negb (first_byte (λ c, (c =? "0")%char) a)) && bytes_all is_digit a
  && is_none_or (λ b, negb (b =? "")%string && (len b <=? 9) && bytes_all is_digit b) b
  && bytes_any (byte_in 49 57) v.

Inductive TradeOperation : Type := Open | Add | Reduce | Close | Replace.
Inductive PositionSide : Type := Long | Short.
Inductive Protection : Type := Price (stop_price : string) | Distance (stop_distance_bps : Z).
Record OrderConstraints : Type := {
  oc_order_type : string;
  oc_limit_price : option string;
  oc_reference : option string;
  oc_max_entry_usd : option string;
  oc_max_slippage_bps : Z;
}.

#[export] Instance TradeOperation_eq_dec : EqDecision TradeOperation.
Proof. solve_decision. Defined.
#[export] Instance PositionSide_eq_dec : EqDecision PositionSide.
Proof. solve_decision. Defined.

Definition sizing_valid (s : Sizing) : bool :=
  match s with Contracts v | MaxLossUsd v | EntryBudgetUsd v => decimal v end.
Definition protection_valid (p : Protection) : bool :=
  match p with Price stop_price => decimal stop_price | Distance bps => within 1 10000 bps end.
Definition one_of (l : list string) (s : string) : bool := existsb (String.eqb s) l.
Definition order_valid (o : OrderConstraints) : bool :=
  one_of ["limit"; "market"; "fok"; "ioc"; "post_only"] (oc_order_type o)
  && is_none_or name (oc_reference o) && is_none_or decimal (oc_max_entry_usd o)
  && (oc_max_slippage_bps o <=? 10000) && is_none_or decimal (oc_limit_price o)
  && (negb (one_of ["limit"; "post_only"] (oc_order_type o)) || is_some (oc_limit_price o)).

(** [matches!(operation, Open | Add | Replace)] *)
Definition increases (o : TradeOperation) : bool :=
  match o with Open | Add | Replace => true | Reduce | Close => false end.

Inductive TradeRequest : Type :=
| Capabilities
| Preflight
| Preview (operation : TradeOperation) (strategy_instance instrument : string) (side : PositionSide)
    (sizing : Sizing) (order : OrderConstraints) (protection : option Protection)
| Execute (idempotency_key : string) (operation : TradeOperation)
    (strategy_instance instrument : string) (side : PositionSide) (sizing : Sizing)
    (order : OrderConstraints) (protection : option Protection) (expires_in_ms : Z)
| Status (reference : string)
| Cancel (idempotency_key reference : string)
| CloseIntent (idempotency_key reference : string) (expires_in_ms : Z).

Definition common_valid (operation : TradeOperation) (strategy_instance instrument : string)
    (sizing : Sizing) (order : OrderConstraints) (protection : option Protection) : bool :=
  name strategy_instance && name instrument && (3 <=? len instrument) && sizing_valid sizing
  && order_valid order && is_none_or protection_valid protection
  && (negb (increases operation) || is_some protection).

Definition trade_request_valid (r : TradeRequest) : bool :=
  match r with
  | Capabilities | Preflight => true
  | Preview operation strategy_instance instrument _ sizing order protection =>
    common_valid operation strategy_instance instrument sizing order protection
  | Execute key operation strategy_instance instrument _ sizing order protection expires =>
    common_valid operation strategy_instance instrument sizing order protection
    && (id key && within 1 30000 expires)
  | Status reference => name reference
  | Cancel key reference => id key && name reference
  | CloseIntent key reference expires => id key && name reference && within 1 30000 expires
  end.

Record CommandIdentity : Type := {
  ci_account : string;
  ci_idempotency_key : string;
  ci_expires_in_ms : Z;
}.
Definition command_identity_valid (c : CommandIdentity) : bool :=
  negb (ci_account c =? "")%string && (len (ci_account c) <=? 128)
  && within 8 128 (len (ci_idempotency_key c))
  && bytes_all (λ a, is_alphanumeric a || is_dash a) (ci_idempotency_key c)
  && within 1 30000 (ci_expires_in_ms c).

Record StrategyParametersV1 : Type := { sp_fast : Z; sp_slow : Z }.
Definition strategy_parameters_valid (p : StrategyParametersV1) : bool :=
  (1 <=? sp_fast p) && (sp_fast p <? sp_slow p) && (sp_slow p <=? 1000).
Record StrategyConfigurationV1 : Type := {
  sc_parameters : StrategyParametersV1;
  sc_instruments : list string;
  sc_timeframe_ms : Z;
}.
Definition strategy_configuration_valid (c : StrategyConfigurationV1) : bool :=
  strategy_parameters_valid (sc_parameters c) && negb (count (sc_instruments c) =? 0)
  && (count (sc_instruments c) <=? 32) && forallb name (sc_instruments c)
  && (1000 <=? sc_timeframe_ms c).

(** ** [accounts.rs] *)
Inductive Environment : Type := Real | Demo.
#[export] Instance Environment_eq_dec : EqDecision Environment.
Proof. solve_decision. Defined.
Definition env_text (e : Environment) : string := match e with Real => "real" | Demo => "demo" end.

Record AccountKey : Type := {
  ak_venue : string;
  ak_environment : Environment;
  ak_verified_uid : string;
}.
Definition lower_sha256 (text : string) : bool := (len text =? 64) && bytes_all is_hex text.
Definition account_key_valid (k : AccountKey) : bool :=
  (ak_venue k =? "okx")%string && lower_sha256 (ak_verified_uid k).
Definition key_text (venue : string) (e : Environment) (uid : string) : string :=
  venue +:+ ":" +:+ env_text e +:+ ":" +:+ uid.
Definition wire (k : AccountKey) : string := key_text (ak_venue k) (ak_environment k) (ak_verified_uid k).

Definition valid_reference (value : string) : bool :=
  within 2 64 (len value) && first_byte is_alphabetic value
  && bytes_all (λ a, is_alphanumeric a || is_dash a) value.
Definition valid_installation (value : string) : bool := valid_reference value && (8 <=? len value).

(** ** [account_governance.rs] *)
Definition GOVERNANCE_SCHEMA : string := "okx.governance/v3".
Definition SCALE : Z := 1000000000.

Definition units (text : string) : option Z :=
  if (text =? "")%string then None else
  let '(whole, fraction) := default (text, "") (split_once "." text) in
  if (whole =? "")%string || (15 <? len whole) || negb (bytes_all is_digit whole)
     || ((1 <? len whole) && first_byte (λ c, (c =? "0")%char) whole) || ends_with "." text
     || (9 <? len fraction) || negb (bytes_all is_digit fraction)
  then None else
  integer ← parse_u128 0 whole;
  fraction_units ← (if (fraction =? "")%string then Some 0
                    else n ← parse_u128 0 fraction; Some (n * 10 ^ (9 - len fraction)));
  m ← checked_u128 (integer * SCALE); checked_u128 (m + fraction_units).

Definition positive (text : string) : option Z :=
  n ← units text; if 0 <? n then Some n else None.
Definition optional_positive (value : option string) : bool :=
  is_none_or (λ text, is_some (positive text)) value.
Definition ratio (value : option string) : bool :=
  is_none_or (λ text, is_some_and (λ n, n <=? SCALE) (units text)) value.
Definition token (text : string) : bool := valid_reference text.

Record AccountLimits : Type := {
  al_max_modelled_loss_usdt : string;
  al_max_order_loss_usdt : string;
  al_max_notional_usdt : option string;
  al_max_entry_usd : option string;
  al_max_leverage : option string;
  al_max_daily_realized_loss_usdt : option string;
  al_max_drawdown_ratio : option string;
  al_allowed_instruments : list string;
}.
Definition instrument_text (i : string) : bool :=
  within 3 64 (len i) && bytes_all (λ a, is_upper a || is_digit a || is_dash a) i.
(** [collect::<BTreeSet<_>>().len()] *)
Definition distinct_count (l : list string) : Z := Z.of_nat (size (list_to_set l : gset string)).
Definition limits_valid (l : AccountLimits) : bool :=
  match positive (al_max_modelled_loss_usdt l), positive (al_max_order_loss_usdt l) with
  | Some account, Some order =>
    (order <=? account) && optional_positive (al_max_notional_usdt l)
    && optional_positive (al_max_entry_usd l) && optional_positive (al_max_leverage l)
    && optional_positive (al_max_daily_realized_loss_usdt l) && ratio (al_max_drawdown_ratio l)
    && (count (al_allowed_instruments l) <=? 32)
    && forallb instrument_text (al_allowed_instruments l)
    && (distinct_count (al_allowed_instruments l) =? count (al_allowed_instruments l))
  | _, _ => false
  end.

Record StrategyLimits : Type := {
  sl_id : string;
  sl_enabled : bool;
  sl_allocated_capital_usdt : string;
  sl_max_modelled_loss_usdt : string;
  sl_max_daily_realized_loss_usdt : option string;
  sl_max_drawdown_ratio : option string;
}.
Definition strategy_limits_valid (s : StrategyLimits) : bool :=
  token (sl_id s)
  && is_some_and (λ capital, is_some_and (λ risk, risk <=? capital) (positive (sl_max_modelled_loss_usdt s)))
       (positive (sl_allocated_capital_usdt s))
  && optional_positive (sl_max_daily_realized_loss_usdt s) && ratio (sl_max_drawdown_ratio s)
  && (negb (sl_enabled s)
      || (is_some (sl_max_daily_realized_loss_usdt s) && is_some (sl_max_drawdown_ratio s))).

Record AccountControl : Type := {
  act_id : string;
  act_label : string;
  act_venue : string;
  act_environment : Environment;
  act_uid_fingerprint : string;
  act_identity_verified : bool;
  act_enabled : bool;
  act_explicit_pause : bool;
  act_policy_revision : Z;
  act_account_key : string;
  act_limits : AccountLimits;
  act_strategies : list StrategyLimits;
}.
Definition access_enabled (a : AccountControl) : bool :=
  act_identity_verified a && act_enabled a && negb (act_explicit_pause a).
Definition venue_valid (v : string) : bool :=
  within 2 32 (len v) && first_byte is_lower v
  && bytes_all (λ a, is_lower a || is_digit a || is_dash a) v.

(** The loop over the strategies: each valid, no id twice, and the sum of the enabled *)
Fixpoint strategies_total (ids : gset string) (total : Z) (l : list StrategyLimits) : option Z :=
  match l with
  | [] => Some total
  | s :: l' =>
    if negb (strategy_limits_valid s) || bool_decide (sl_id s ∈ ids) then None else
    total ← (if sl_enabled s
             then value ← positive (sl_max_modelled_loss_usdt s); checked_u128 (total + value)
             else Some total);
    strategies_total ({[sl_id s]} ∪ ids) total l'
  end.

Definition limits_missing (l : AccountLimits) : bool :=
  negb (is_some (al_max_notional_usdt l)) || negb (is_some (al_max_leverage l))
  || negb (is_some (al_max_daily_realized_loss_usdt l)) || negb (is_some (al_max_drawdown_ratio l))
  || (count (al_allowed_instruments l) =? 0).

Definition account_control_valid (a : AccountControl) : bool :=
  if negb (token (act_id a)) || (80 <? len (act_label a)) || negb (venue_valid (act_venue a))
     || negb (lower_sha256 (act_uid_fingerprint a))
     || (act_enabled a && negb (act_identity_verified a)) || (act_policy_revision a =? 0)
     || negb (act_account_key a =? key_text (act_venue a) (act_environment a) (act_uid_fingerprint a))%string
     || negb (limits_valid (act_limits a)) || (32 <? count (act_strategies a))
  then false else
  if act_enabled a && bool_decide (act_environment a = Real) && limits_missing (act_limits a)
  then false else
  match strategies_total ∅ 0 (act_strategies a) with
  | None => false
  | Some total => is_some_and (λ cap, total <=? cap) (positive (al_max_modelled_loss_usdt (act_limits a)))
  end.

Record AccountGovernance : Type := {
  gov_schema : string;
  gov_revision : Z;
  gov_installation_id : string;
  gov_campaign_id : string;
  gov_campaign_loss_limit_usd : string;
  gov_max_total_modelled_loss_usdt : string;
  gov_accounts : list AccountControl;
}.
Definition account_identity (a : AccountControl) : string * bool * string :=
  (act_venue a, bool_decide (act_environment a = Demo), act_uid_fingerprint a).
Fixpoint accounts_valid (revision : Z) (ids : gset string) (identities : gset (string * bool * string))
    (l : list AccountControl) : bool :=
  match l with
  | [] => true
  | a :: l' =>
    if negb (account_control_valid a) || (revision <? act_policy_revision a)
       || bool_decide (act_id a ∈ ids) then false else
    if bool_decide (account_identity a ∈ identities) then false else
    accounts_valid revision ({[act_id a]} ∪ ids) ({[account_identity a]} ∪ identities) l'
  end.
Definition governance_valid (g : AccountGovernance) : bool :=
  if negb (gov_schema g =? GOVERNANCE_SCHEMA)%string || negb (valid_installation (gov_installation_id g))
     || negb (String.prefix "sha256:" (gov_campaign_id g))
     || negb (lower_sha256 (drop_str 7 (gov_campaign_id g)))
     || negb (is_some (positive (gov_campaign_loss_limit_usd g)))
     || negb (is_some (positive (gov_max_total_modelled_loss_usdt g)))
     || (32 <? count (gov_accounts g))
  then false else accounts_valid (gov_revision g) ∅ ∅ (gov_accounts g).
Definition has_real_access (g : AccountGovernance) : bool :=
  existsb (λ a, bool_decide (act_environment a = Real) && access_enabled a) (gov_accounts g).
Definition native_new_risk_admitted (g : AccountGovernance) : bool := false.

Record CentralGovernanceSnapshot : Type := {
  cgs_state : AccountGovernance;
  cgs_issued_at_ms : Z;
  cgs_session_generation : Z;
  cgs_delivery_challenge : option string;
}.
Definition central_snapshot_valid (s : CentralGovernanceSnapshot) : bool :=
  governance_valid (cgs_state s) && (0 <? cgs_issued_at_ms s) && (0 <? cgs_session_generation s).
Definition real_account_of (uid : string) (a : AccountControl) : bool :=
  (act_venue a =? "okx")%string && bool_decide (act_environment a = Real) && access_enabled a
  && act_identity_verified a && (act_uid_fingerprint a =? uid)%string.
Definition authorizes_challenge_bound_delivery (s : CentralGovernanceSnapshot) (uid : string)
    (generation : Z) (challenge_verified : bool) : bool :=
  challenge_verified && central_snapshot_valid s && is_some (cgs_delivery_challenge s)
  && (cgs_session_generation s =? generation) && (0 <? gov_revision (cgs_state s))
  && existsb (real_account_of uid) (gov_accounts (cgs_state s)).
Definition authorizes_delivery (s : CentralGovernanceSnapshot) (uid : string) (now_ms generation : Z) : bool :=
  central_snapshot_valid s && (cgs_session_generation s =? generation)
  && (cgs_issued_at_ms s <=? now_ms)
  && (saturating_sub_u64 now_ms (cgs_issued_at_ms s) <=? 15000)
  && (0 <? gov_revision (cgs_state s))
  && existsb (real_account_of uid) (gov_accounts (cgs_state s)).

(** ** Texts, facts *)
Lemma bytes_all_app p s t : bytes_all p (s +:+ t) = bytes_all p s && bytes_all p t.
Proof. induction s as [|a s IH]; [done|]. unfold bytes_all in *. simpl. by rewrite IH, andb_assoc. Qed.
Lemma bytes_any_app p s t : bytes_any p (s +:+ t) = bytes_any p s || bytes_any p t.
Proof. induction s as [|a s IH]; [done|]. unfold bytes_any in *. simpl. by rewrite IH, orb_assoc. Qed.
Lemma bytes_all_impl (p q : ascii → bool) s :
  (∀ a, p a = true → q a = true) → bytes_all p s = true → bytes_all q s = true.
Proof.
  intros Hpq. unfold bytes_all. rewrite !forallb_forall. intros Hp a Ha. by apply Hpq, Hp.
Qed.

Lemma len_app s t : len (s +:+ t) = len s + len t.
Proof. unfold len. rewrite <- Nat2Z.inj_add. f_equal.
  induction s as [|a s IH]; [done|]. simpl. by rewrite IH.
Qed.
Lemma len_nonneg s : 0 ≤ len s.
Proof. unfold len. lia. Qed.
Lemma len_pos s : s ≠ "" → 0 < len s.
Proof. destruct s; [done|]. intros _. unfold len. simpl. lia. Qed.

Lemma split_once_Some c s l r :
  split_once c s = Some (l, r) → s = l +:+ String c r ∧ bytes_all (λ a, negb (a =? c)%char) l = true.
Proof.
  revert l r. induction s as [|a s IH]; intros l r; [done|]. simpl.
  destruct (a =? c)%char eqn:E.
  - apply Ascii.eqb_eq in E as ->. by intros [= <- <-].
  - destruct (split_once c s) as [[l' r']|]; [|done]. intros [= <- <-].
    destruct (IH _ _ eq_refl) as [-> Hl]. split; [done|].
    unfold bytes_all in *. simpl. by rewrite E, Hl.
Qed.
Lemma split_once_None c s :
  split_once c s = None → bytes_all (λ a, negb (a =? c)%char) s = true.
Proof.
  induction s as [|a s IH]; [done|]. unfold bytes_all in *. simpl.
  destruct (a =? c)%char; [done|]. destruct (split_once c s) as [[]|]; [done|]. simpl. auto.
Qed.
Lemma split_once_here c l r :
  bytes_all (λ a, negb (a =? c)%char) l = true → split_once c (l +:+ String c r) = Some (l, r).
Proof.
  unfold bytes_all. induction l as [|a l IH]; simpl.
  - by rewrite Ascii.eqb_refl.
  - intros [Ha Hl]%andb_true_iff. apply negb_true_iff in Ha. by rewrite Ha, IH.
Qed.

Lemma ends_with_snoc c l r : ends_with c (l +:+ String c r) = true ↔ r = "" ∨ ends_with c r = true.
Proof.
  induction l as [|a l IH]; simpl.
  - rewrite Ascii.eqb_refl. destruct r; naive_solver.
  - rewrite <- IH. by destruct (l +:+ String c r) eqn:E; destruct l.
Qed.
Lemma ends_with_free c s :
  bytes_all (λ a, negb (a =? c)%char) s = true → ends_with c s = false.
Proof.
  unfold bytes_all. induction s as [|a s IH]; [done|]. simpl. intros [Ha Hs]%andb_true_iff.
  destruct s; [by apply negb_true_iff|by apply IH].
Qed.

Lemma digit_not_dot a : is_digit a = true → negb (a =? ".")%char = true.
Proof. intros Ha. apply negb_true_iff, Ascii.eqb_neq. by intros ->. Qed.

(** The value of a text of digits *)
Lemma is_digit_digit a :
  is_digit a = true → ∃ d, digit a = Some d ∧ 0 ≤ d ≤ 9 ∧ (d = 0 ↔ byte_in 49 57 a = false)
    ∧ (d = 0 ↔ (a =? "0")%char = true).
Proof.
  intros Ha. assert (Hn : (48 <= N_of_ascii a <= 57)%N).
  { unfold is_digit, byte_in, within in Ha. reflect_bools. lia. }
  unfold digit. exists (Z.of_N (N_of_ascii a - 48)).
  rewrite (proj2 (N.leb_le _ _) (proj1 Hn)), (proj2 (N.leb_le _ _) (proj2 Hn)).
  split_and!; [done|lia|lia| |].
  - unfold byte_in, within. rewrite andb_false_iff, !Z.leb_gt. lia.
  - rewrite Ascii.eqb_eq. split; [|by intros ->]. intros Hd.
    rewrite <- (ascii_N_embedding a). by replace (N_of_ascii a) with 48%N by lia.
Qed.

Lemma parse_u128_digits s :
  bytes_all is_digit s = true →
  ∃ n, (∀ acc, 0 ≤ acc → (acc + 1) * 10 ^ len s ≤ u128_max → parse_u128 acc s = Some (acc * 10 ^ len s + n))
    ∧ 0 ≤ n < 10 ^ len s ∧ (n = 0 ↔ bytes_any (byte_in 49 57) s = false)
    ∧ (n = 0 ↔ bytes_any (λ b, negb (b =? "0")%char) s = false).
Proof.
  induction s as [|a s IH]; unfold bytes_all, bytes_any; simpl.
  - intros _. exists 0. unfold len. simpl. split_and!; try done; try lia.
    intros acc _ _. by rewrite Z.mul_1_r, Z.add_0_r.
  - intros [Hd Hs]%andb_true_iff. destruct (is_digit_digit a Hd) as (d & Ed & Hd9 & Hz1 & Hz2).
    destruct (IH Hs) as (n & Hp & Hn & Hn1 & Hn2).
    assert (Hl : 10 ^ len (String a s) = 10 * 10 ^ len s).
    { unfold len. simpl. rewrite Nat2Z.inj_succ, Z.pow_succ_r; lia. }
    assert (0 < 10 ^ len s) by (apply Z.pow_pos_nonneg; [lia|apply len_nonneg]).
    exists (d * 10 ^ len s + n). rewrite Hl. split_and!; [|nia|nia| |].
    + intros acc Ha Hb. rewrite Ed. simpl. rewrite (proj2 (Z.leb_le _ _)) by nia.
      rewrite Hp by nia. f_equal. ring.
    + rewrite orb_false_iff, <- Hz1. unfold bytes_any in Hn1. rewrite <- Hn1. split; [nia|lia].
    + rewrite orb_false_iff, negb_false_iff, <- Hz2. unfold bytes_any in Hn2.
      rewrite <- Hn2. split; [nia|lia].
Qed.

(** ** Decimal texts: at most fifteen digits and nine decimals, no leading zero *)
Record numeral (v w f : string) : Prop := {
  num_text : f = "" ∧ v = w ∨ f ≠ "" ∧ v = w +:+ String "." f;
  num_whole : w ≠ "" ∧ len w ≤ 15 ∧ bytes_all is_digit w = true;
  num_lead : len w = 1 ∨ first_byte (λ c, (c =? "0")%char) w = false;
  num_frac : len f ≤ 9 ∧ bytes_all is_digit f = true;
}.
Definition nonzero (v : string) : bool := bytes_any (byte_in 49 57) v.

Lemma numeral_split v w f : numeral v w f → default (v, "") (split_once "." v) = (w, f) ∧ ends_with "." v = false.
Proof.
  intros [[[-> ->]|[Hf ->]] (_ & _ & Hw) _ [_ Hd]].
  - assert (Hn : bytes_all (λ a, negb (a =? ".")%char) w = true) by
      (eapply bytes_all_impl; [apply digit_not_dot|done]).
    split; [|by apply ends_with_free]. destruct (split_once "." w) as [[l r]|] eqn:E; [|done].
    apply split_once_Some in E as [-> _]. rewrite bytes_all_app in Hn.
    by apply andb_true_iff in Hn as [_ ?].
  - split.
    + rewrite split_once_here; [done|]. eapply bytes_all_impl; [apply digit_not_dot|done].
    + apply not_true_iff_false. rewrite ends_with_snoc. intros [?|He]; [done|].
      rewrite ends_with_free in He; [done|]. eapply bytes_all_impl; [apply digit_not_dot|done].
Qed.

(** The shared condition of [units] and of [positive] of the risk authority *)
Definition malformed (v w f : string) : bool :=
  (w =? "")%string || (15 <? len w) || negb (bytes_all is_digit w)
  || ((1 <? len w) && first_byte (λ c, (c =? "0")%char) w) || ends_with "." v
  || (9 <? len f) || negb (bytes_all is_digit f).

Lemma numeral_iff v w f :
  numeral v w f ↔ default (v, "") (split_once "." v) = (w, f) ∧ malformed v w f = false.
Proof.
  split.
  - intros Hn. pose proof (numeral_split v w f Hn) as [-> He]. split; [done|].
    destruct Hn as [_ (Hw & Hl & Hd) Hz [Hf Hfd]]. unfold malformed. rewrite He, Hd, Hfd.
    rewrite (proj2 (String.eqb_neq _ _) Hw). rewrite (proj2 (Z.ltb_ge 15 _)) by lia.
    rewrite (proj2 (Z.ltb_ge 9 _)) by lia. destruct Hz as [-> | ->]; [done|]. by rewrite andb_false_r.
  - intros [Hs Hm]. unfold malformed in Hm. rewrite !orb_false_iff in Hm.
    destruct Hm as ((((((Hw & Hl) & Hd) & Hz) & He) & Hf) & Hfd).
    apply String.eqb_neq in Hw. apply Z.ltb_ge in Hl, Hf. apply negb_false_iff in Hd, Hfd.
    pose proof (len_pos w Hw).
    split; [|done| |done].
    + destruct (split_once "." v) as [[l r]|] eqn:E; simpl in Hs; injection Hs as <- <-; [right|by left].
      apply split_once_Some in E as [-> _]. split; [|done]. intros ->.
      assert (ends_with "." (l +:+ String "." "") = true); [|congruence].
      apply ends_with_snoc. by left.
    + apply andb_false_iff in Hz as [Hz%Z.ltb_ge|Hz]; [left; lia|by right].
Qed.

Lemma numeral_values v w f :
  numeral v w f →
  ∃ W F, parse_u128 0 w = Some W ∧ parse_u128 0 f = Some F
    ∧ 0 ≤ W < 10 ^ len w ∧ 0 ≤ F < 10 ^ len f ∧ len w ≤ 15 ∧ 0 ≤ len f ≤ 9
    ∧ (0 < W ∨ 0 < F ↔ nonzero v = true) ∧ (F = 0 ↔ bytes_any (λ b, negb (b =? "0")%char) f = false).
Proof.
  intros [Ht (Hw & Hl & Hd) _ [Hf Hfd]]. pose proof (len_nonneg w). pose proof (len_nonneg f).
  assert (Hpow : ∀ n, 0 ≤ n ≤ 15 → (0 + 1) * 10 ^ n ≤ u128_max).
  { intros n Hn. transitivity (10 ^ 15); [|by vm_compute].
    rewrite Z.mul_1_l. apply Z.pow_le_mono_r; lia. }
  destruct (parse_u128_digits w Hd) as (W & EW & HW & HW0 & _).
  destruct (parse_u128_digits f Hfd) as (F & EF & HF & HF0 & HF1).
  exists W, F. rewrite EW, EF by (try apply Hpow; lia). split_and!; try done; try lia.
  assert (Hnz : nonzero v = nonzero w || nonzero f).
  { unfold nonzero. destruct Ht as [[-> ->]|[_ ->]]; [by rewrite orb_false_r|].
    rewrite bytes_any_app. done. }
  rewrite Hnz, orb_true_iff. unfold nonzero. rewrite <- !not_false_iff_true, <- HW0, <- HF0. lia.
Qed.

Lemma units_iff v n :
  units v = Some n ↔ ∃ w f W F, numeral v w f ∧ parse_u128 0 w = Some W ∧ parse_u128 0 f = Some F
    ∧ n = W * SCALE + F * 10 ^ (9 - len f).
Proof.
  unfold units. destruct (default (v, "") (split_once "." v)) as [w f] eqn:Es.
  fold (malformed v w f). split.
  - destruct (v =? "")%string; [done|]. destruct (malformed v w f) eqn:Em; [done|].
    intros (W & EW & E)%bind_Some. apply bind_Some in E as (F' & EF & E).
    apply bind_Some in E as (m & Em' & E).
    assert (Hn : numeral v w f) by (apply numeral_iff; done).
    destruct (numeral_values v w f Hn) as (W1 & F & ? & EF1 & _). exists w, f, W, F.
    assert (F' = F * 10 ^ (9 - len f)) as ->.
    { destruct (String.eqb_spec f "") as [->|]; simplify_eq/=; [done|].
      rewrite EF1 in EF. by simplify_eq/=. }
    split_and!; [done|done|done|]. unfold checked_u128 in Em', E.
    destruct (W * SCALE <=? u128_max); [|done]. injection Em' as <-.
    destruct (_ <=? u128_max) in E; [|done]. by injection E as <-.
  - intros (w' & f' & W & F & Hn & EW & EF & ->).
    pose proof (proj1 (numeral_iff _ _ _) Hn) as [Es' Em]. rewrite Es in Es'. simplify_eq. rewrite Em.
    destruct (numeral_values _ _ _ Hn) as (W1 & F1 & E1 & E2 & HW & HF & Hlw & Hlf & _). simplify_eq.
    destruct (String.eqb_spec v "") as [->|_].
    { destruct Hn as [[[_ <-]|[? Hv]] (? & _) _ _]; [done|]. by destruct w'. }
    rewrite EW. simpl. rewrite EF. simpl.
    assert (W < 10 ^ 15) by (pose proof (Z.pow_le_mono_r 10 (len w') 15); lia).
    assert (F * 10 ^ (9 - len f') < 10 ^ 9).
    { replace (10 ^ 9) with (10 ^ len f' * 10 ^ (9 - len f')) by (rewrite <- Z.pow_add_r by lia; f_equal; lia).
      apply Zmult_lt_compat_r; [apply Z.pow_pos_nonneg; lia|lia]. }
    assert (W * SCALE + 10 ^ 9 ≤ u128_max).
    { transitivity ((10 ^ 15 - 1) * SCALE + 10 ^ 9); [unfold SCALE; lia|by vm_compute]. }
    assert (0 ≤ F * 10 ^ (9 - len f')) by (apply Z.mul_nonneg_nonneg; [lia|apply Z.pow_nonneg; lia]).
    destruct (String.eqb_spec f' "") as [->|]; simpl.
    + simpl in EF. injection EF as <-. unfold checked_u128.
      rewrite (proj2 (Z.leb_le (W * SCALE) _)) by lia. simpl. rewrite (proj2 (Z.leb_le _ _)) by lia. done.
    + unfold checked_u128. rewrite (proj2 (Z.leb_le (W * SCALE) _)) by lia. simpl.
      rewrite (proj2 (Z.leb_le _ _)) by lia. done.
Qed.

(** The numerals that are not zero are what a request may contain and what is [positive]. *)
Lemma decimal_iff v : decimal v = true ↔ nonzero v = true ∧ ∃ w f, numeral v w f.
Proof.
  unfold decimal. fold (nonzero v). split.
  - intros H. destruct (split_once "." v) as [[w f]|] eqn:E; simpl in H;
      rewrite !andb_true_iff in H; destruct H as (((((Hw & Hl) & Hz) & Hd) & Hf) & Hnz).
    + split; [done|]. exists w, f. apply split_once_Some in E as [-> _].
      destruct Hf as ((Hf1 & Hf2) & Hf3).
      apply negb_true_iff, String.eqb_neq in Hw, Hf1. apply Z.leb_le in Hl, Hf2.
      split; [by right|done| |done]. apply orb_true_iff in Hz as [Hz%Z.eqb_eq|Hz]; [by left|right].
      by apply negb_true_iff.
    + split; [done|]. exists v, "". apply negb_true_iff, String.eqb_neq in Hw. apply Z.leb_le in Hl.
      split; [by left|done| |done]. apply orb_true_iff in Hz as [Hz%Z.eqb_eq|Hz]; [by left|right].
      by apply negb_true_iff.
  - intros [Hnz (w & f & Hn)]. pose proof (numeral_split v w f Hn) as [Hs _].
    destruct Hn as [Ht (Hw & Hl & Hd) Hz [Hf Hfd]].
    assert (Hz' : (len w =? 1) || negb (first_byte (λ c, (c =? "0")%char) w) = true).
    { destruct Hz as [-> | ->]; [done|]. by rewrite orb_true_r. }
    apply String.eqb_neq in Hw. apply Z.leb_le in Hl, Hf.
    destruct (split_once "." v) as [[w' f']|] eqn:E; simpl in Hs; injection Hs as <- <-.
    + simpl. rewrite Hw, Hl, Hz', Hd, Hf, Hfd, Hnz. simpl.
      destruct Ht as [[-> ->]|[Hne _]]; [|by rewrite (proj2 (String.eqb_neq _ _) Hne)].
      apply split_once_Some in E as [E _]. exfalso. apply (f_equal len) in E. rewrite len_app in E.
      pose proof (len_pos (String "." "") ltac:(done)). lia.
    + simpl. by rewrite Hw, Hl, Hz', Hd, Hnz.
Qed.

Lemma positive_iff v n : positive v = Some n ↔ units v = Some n ∧ 0 < n.
Proof.
  unfold positive. destruct (units v) as [m|]; simpl; [|naive_solver].
  destruct (Z.ltb_spec 0 m); naive_solver lia.
Qed.

Lemma positive_some_iff v : is_some (positive v) = true ↔ nonzero v = true ∧ ∃ w f, numeral v w f.
Proof.
  split.
  - destruct (positive v) as [n|] eqn:E; [|done]. intros _. apply positive_iff in E as [E Hpos].
    apply units_iff in E as (w & f & W & F & Hn & EW & EF & ->).
    destruct (numeral_values _ _ _ Hn) as (W1 & F1 & ? & ? & HW & HF & _ & Hlf & Hnz & _). simplify_eq.
    split; [|eauto]. apply Hnz. destruct (decide (0 < W)); [by left|right].
    assert (W = 0) as -> by lia. destruct (decide (0 < F)); [done|]. assert (F = 0) by lia. subst. lia.
  - intros [Hnz (w & f & Hn)].
    destruct (numeral_values _ _ _ Hn) as (W & F & EW & EF & HW & HF & _ & Hlf & Hnz' & _).
    assert (E : positive v = Some (W * SCALE + F * 10 ^ (9 - len f))); [|by rewrite E].
    apply positive_iff. split; [apply units_iff; by exists w, f, W, F|].
    apply Hnz' in Hnz. assert (0 < 10 ^ (9 - len f)) by (apply Z.pow_pos_nonneg; lia).
    unfold SCALE. destruct Hnz; nia.
Qed.

(** ** What the units of a text are *)
Lemma app_empty_r s : s +:+ "" = s.
Proof. induction s as [|a s IH]; [done|]. change (String a (s +:+ "") = String a s). by rewrite IH. Qed.

Lemma parse_int_digits s acc n rest :
  parse_u128 acc s = Some n →
  (rest = "" → Fixed.parse_int acc (s +:+ rest) = Some (Fixed.mk n 0))
  ∧ ∀ f, rest = String "." f → Fixed.parse_int acc (s +:+ rest) = Fixed.parse_frac n 0 f.
Proof.
  revert acc. induction s as [|a s IH]; intros acc; simpl.
  - intros [= ->]. split; [by intros ->|]. intros f ->. done.
  - intros (d & Ed & E)%bind_Some. destruct (_ <=? _); [|done]. rewrite Ed. simpl.
    destruct (Ascii.eqb_spec a ".") as [->|]; [done|]. by apply IH.
Qed.

Lemma parse_frac_digits s acc sc n :
  parse_u128 acc s = Some n → Fixed.parse_frac acc sc s = Some (Fixed.mk n (sc + String.length s)).
Proof.
  revert acc sc. induction s as [|a s IH]; intros acc sc; simpl.
  - intros [= ->]. by rewrite Nat.add_0_r.
  - intros (d & Ed & E)%bind_Some. destruct (_ <=? _); [|done]. rewrite Ed. simpl.
    rewrite (IH _ (S sc) E). do 2 f_equal. lia.
Qed.

(** The units of an accepted text are exactly the number it spells, in billionths:
    the [u128] arithmetic neither rounds nor overflows, and the units stay below 1e24. *)
Theorem units_value v n :
  units v = Some n →
  0 ≤ n < 10 ^ 24 ∧ ∃ x, Fixed.parse v = Some x ∧ Fixed.mantissa x * SCALE = n * Fixed.pow10 (Fixed.scale x).
Proof.
  intros (w & f & W & F & Hn & EW & EF & ->)%units_iff.
  destruct (numeral_values _ _ _ Hn) as (? & ? & ? & ? & HW & HF & Hlw & Hlf & _). simplify_eq.
  assert (W < 10 ^ 15) by (pose proof (Z.pow_le_mono_r 10 (len w) 15); lia).
  assert (Hp : 10 ^ len f * 10 ^ (9 - len f) = SCALE).
  { rewrite <- Z.pow_add_r by lia. unfold SCALE. by replace (len f + (9 - len f)) with 9 by lia. }
  assert (0 < 10 ^ (9 - len f)) by (apply Z.pow_pos_nonneg; lia).
  assert (F * 10 ^ (9 - len f) < SCALE) by (rewrite <- Hp; apply Zmult_lt_compat_r; lia).
  split; [unfold SCALE in *; change (10 ^ 24) with (10 ^ 15 * 1000000000); nia|].
  destruct Hn as [Ht (Hw & _ & Hd) _ [_ Hfd]].
  assert (Hparse : Fixed.parse v = Fixed.parse_int 0 v).
  { destruct Ht as [[_ ->]|[_ ->]]; destruct w as [|a w]; try done; simpl;
      (destruct (Ascii.eqb_spec a "-") as [->|]; [|done]);
      unfold bytes_all in Hd; simpl in Hd; done. }
  rewrite Hparse. destruct Ht as [[-> ->]|[Hf ->]].
  - destruct (parse_int_digits w 0 W "" EW) as [E _].
    rewrite app_empty_r in E.
    exists (Fixed.mk W 0). split; [by apply E|]. simpl in EF. injection EF as <-. simpl.
    change (Fixed.pow10 0) with 1. lia.
  - destruct (parse_int_digits w 0 W (String "." f) EW) as [_ E]. rewrite (E f eq_refl).
    destruct (parse_u128_digits f Hfd) as (F' & EF' & _).
    assert (10 ^ len f ≤ 10 ^ 9) by (apply Z.pow_le_mono_r; lia).
    assert (0 < 10 ^ len f) by (apply Z.pow_pos_nonneg; lia).
    assert (Hb : ∀ a, 0 ≤ a < 10 ^ 15 → (a + 1) * 10 ^ len f ≤ u128_max).
    { intros a Ha. transitivity (10 ^ 15 * 10 ^ 9); [nia|by vm_compute]. }
    rewrite EF' in EF by (try apply Hb; lia). injection EF as EF.
    rewrite Z.mul_0_l, Z.add_0_l in EF. subst F'.
    rewrite (parse_frac_digits f W 0 (W * 10 ^ len f + F)) by (apply EF'; [lia|apply Hb; lia]).
    eexists. split; [done|]. simpl. unfold Fixed.pow10. fold (len f). rewrite <- Hp. ring.
Qed.

(** ** What a valid policy guarantees *)
Definition strategy_loss (s : StrategyLimits) : Z :=
  if sl_enabled s then default 0 (positive (sl_max_modelled_loss_usdt s)) else 0.
Definition total_loss (l : list StrategyLimits) : Z := foldr (λ s n, strategy_loss s + n) 0 l.

Lemma strategies_total_spec ids total l n :
  strategies_total ids total l = Some n →
  n = total + total_loss l ∧ NoDup (map sl_id l) ∧ (∀ s, s ∈ l → sl_id s ∉ ids)
  ∧ ∀ s, s ∈ l → strategy_limits_valid s = true.
Proof.
  revert ids total. induction l as [|s l IH]; intros ids total; simpl.
  - intros [= ->]. split_and!; [lia|constructor|by intros ? ?%not_elem_of_nil|by intros ? ?%not_elem_of_nil].
  - destruct (strategy_limits_valid s) eqn:Ev; simpl; [|done].
    destruct (bool_decide (sl_id s ∈ ids)) eqn:Eb; [done|]. apply bool_decide_eq_false in Eb.
    intros (t & Et & E)%bind_Some. destruct (IH _ _ E) as (-> & Hnd & Hout & Hv).
    split_and!.
    + unfold strategy_loss. destruct (sl_enabled s); [|injection Et as <-; lia].
      apply bind_Some in Et as (v & -> & Et). unfold checked_u128 in Et.
      destruct (_ <=? _); [|done]. injection Et as <-. simpl. lia.
    + constructor; [|done]. intros (s' & Heq & Hin)%list_elem_of_fmap. apply (Hout _ Hin).
      rewrite <- Heq. set_solver.
    + intros s' [->|Hin]%elem_of_cons; [done|]. intros Hs. apply (Hout _ Hin). set_solver.
    + intros s' [->|Hin]%elem_of_cons; auto.
Qed.

Lemma key_text_inj v1 e1 u1 v2 e2 u2 :
  venue_valid v1 = true → venue_valid v2 = true →
  key_text v1 e1 u1 = key_text v2 e2 u2 → v1 = v2 ∧ e1 = e2 ∧ u1 = u2.
Proof.
  assert (Hv : ∀ v, venue_valid v = true → bytes_all (λ a, negb (a =? ":")%char) v = true).
  { intros v Hv. apply andb_true_iff in Hv as [_ Hv]. eapply bytes_all_impl, Hv.
    intros a Ha. apply negb_true_iff, Ascii.eqb_neq. by intros ->. }
  intros H1 H2 E. unfold key_text in E.
  assert (E' : Some (v1, env_text e1 +:+ ":" +:+ u1) = Some (v2, env_text e2 +:+ ":" +:+ u2)).
  { rewrite <- (split_once_here ":" v1), <- (split_once_here ":" v2) by auto. by f_equal. }
  injection E' as -> E'. split; [done|].
  assert (Hs : ∀ e u, split_once ":" (env_text e +:+ ":" +:+ u) = Some (env_text e, u)).
  { intros e u. by destruct e. }
  assert (Some (env_text e1, u1) = Some (env_text e2, u2)) as Hu by (rewrite <- !Hs; by f_equal).
  injection Hu as He ->. by destruct e1, e2.
Qed.

Lemma accounts_valid_spec revision ids idents l :
  accounts_valid revision ids idents l = true →
  NoDup (map act_id l) ∧ NoDup (map account_identity l)
  ∧ (∀ a, a ∈ l → act_id a ∉ ids ∧ account_identity a ∉ idents)
  ∧ ∀ a, a ∈ l → account_control_valid a = true ∧ act_policy_revision a ≤ revision.
Proof.
  revert ids idents. induction l as [|a l IH]; intros ids idents; simpl.
  - intros _. split_and!; [constructor|constructor|by intros ? ?%not_elem_of_nil..].
  - destruct (account_control_valid a) eqn:Ev; simpl; [|done].
    destruct (revision <? _) eqn:Er; simpl; [done|]. apply Z.ltb_ge in Er.
    destruct (bool_decide (act_id a ∈ ids)) eqn:Ei; [done|]. apply bool_decide_eq_false in Ei.
    destruct (bool_decide (account_identity a ∈ idents)) eqn:Ed; [done|]. apply bool_decide_eq_false in Ed.
    intros E. destruct (IH _ _ E) as (N1 & N2 & Hout & Hv). split_and!.
    + constructor; [|done]. intros (b & Heq & Hin)%list_elem_of_fmap.
      destruct (Hout _ Hin) as [Hb _]. apply Hb. rewrite <- Heq. set_solver.
    + constructor; [|done]. intros (b & Heq & Hin)%list_elem_of_fmap.
      destruct (Hout _ Hin) as [_ Hb]. apply Hb. rewrite <- Heq. set_solver.
    + intros b [->|Hin]%elem_of_cons; [done|]. destruct (Hout _ Hin). set_solver.
    + intros b [->|Hin]%elem_of_cons; auto.
Qed.

Lemma account_control_valid_spec a :
  account_control_valid a = true →
  venue_valid (act_venue a) = true
  ∧ act_account_key a = key_text (act_venue a) (act_environment a) (act_uid_fingerprint a)
  ∧ (act_enabled a = true → act_identity_verified a = true)
  ∧ (act_enabled a = true → act_environment a = Real → limits_missing (act_limits a) = false)
  ∧ limits_valid (act_limits a) = true
  ∧ ∃ cap, positive (al_max_modelled_loss_usdt (act_limits a)) = Some cap
      ∧ strategies_total ∅ 0 (act_strategies a) = Some (total_loss (act_strategies a))
      ∧ total_loss (act_strategies a) ≤ cap.
Proof.
  unfold account_control_valid. intros H.
  match type of H with (if ?b then _ else _) = _ => destruct b eqn:E; [done|] end.
  rewrite !orb_false_iff, !negb_false_iff in E.
  destruct E as ((((((((_ & _) & Hv) & _) & Hen) & _) & Hk) & Hl) & _). apply String.eqb_eq in Hk.
  destruct (act_enabled a && bool_decide (act_environment a = Real) && limits_missing (act_limits a))
    eqn:Em; [done|].
  destruct (strategies_total ∅ 0 (act_strategies a)) as [total|] eqn:Et; [|done].
  destruct (positive (al_max_modelled_loss_usdt (act_limits a))) as [cap|] eqn:Ec; [|done].
  simpl in H. apply Z.leb_le in H. destruct (strategies_total_spec _ _ _ _ Et) as (Heq & _).
  split_and!; [done|done| | |done|].
  - intros He. rewrite He in Hen. simpl in Hen. by apply negb_false_iff in Hen.
  - intros He Hr. by rewrite He, Hr, bool_decide_true in Em.
  - exists cap. rewrite Heq in H |- *. split_and!; [done|done|lia].
Qed.

(** In a valid policy ids and account keys are distinct, an enabled account is an
    identity-verified one with all its limits set when it trades real money, no order may
    lose more than its account, and the enabled strategies together no more than that. *)
Theorem governance_sound g :
  governance_valid g = true →
  NoDup (map act_id (gov_accounts g)) ∧ NoDup (map act_account_key (gov_accounts g))
  ∧ ∀ a, a ∈ gov_accounts g →
      act_policy_revision a ≤ gov_revision g
      ∧ (act_enabled a = true → act_identity_verified a = true
           ∧ (act_environment a = Real → limits_missing (act_limits a) = false))
      ∧ NoDup (map sl_id (act_strategies a))
      ∧ ∃ cap order, positive (al_max_modelled_loss_usdt (act_limits a)) = Some cap
          ∧ positive (al_max_order_loss_usdt (act_limits a)) = Some order
          ∧ order ≤ cap ∧ total_loss (act_strategies a) ≤ cap.
Proof.
  unfold governance_valid. intros H.
  match type of H with (if ?b then _ else _) = _ => destruct b eqn:E; [done|] end. clear E.
  destruct (accounts_valid_spec _ _ _ _ H) as (N1 & N2 & _ & Hv). split_and!; [done| |].
  - assert (Hall : ∀ a, a ∈ gov_accounts g → venue_valid (act_venue a) = true
      ∧ act_account_key a = key_text (act_venue a) (act_environment a) (act_uid_fingerprint a)).
    { intros a Ha. destruct (Hv a Ha) as [Hc _].
      destruct (account_control_valid_spec a Hc) as (? & ? & _). done. }
    clear -N2 Hall. induction (gov_accounts g) as [|a l IH]; simpl; [constructor|].
    inversion N2 as [|? ? Hn N2']; subst. constructor; [|apply IH; [done|]; intros; apply Hall; by right].
    intros (b & Heq & Hin)%list_elem_of_fmap. apply Hn. apply list_elem_of_fmap. exists b.
    split; [|done]. destruct (Hall a) as [Ha Ka]; [by left|]. destruct (Hall b) as [Hb Kb]; [by right|].
    rewrite Ka, Kb in Heq. apply key_text_inj in Heq as (Hve & He & Hu); [|done|done].
    unfold account_identity. by rewrite Hve, He, Hu.
  - intros a Ha. destruct (Hv a Ha) as [Hc Hr].
    destruct (account_control_valid_spec a Hc) as (_ & _ & Hid & Hlim & Hl & cap & Hcap & Ht & Hle).
    destruct (strategies_total_spec _ _ _ _ Ht) as (_ & Hnd & _).
    split_and!; [done|auto|done|]. unfold limits_valid in Hl. rewrite Hcap in Hl.
    destruct (positive (al_max_order_loss_usdt (act_limits a))) as [order|]; [|done].
    exists cap, order. split_and!; [done|done| |done].
    rewrite !andb_true_iff in Hl. destruct Hl as ((((((((Hle' & _) & _) & _) & _) & _) & _) & _) & _).
    by apply Z.leb_le.
Qed.

(** ** A concrete policy *)
Definition sample_limits : AccountLimits := {|
  al_max_modelled_loss_usdt := "100"; al_max_order_loss_usdt := "12.5";
  al_max_notional_usdt := Some "1000"; al_max_entry_usd := None; al_max_leverage := Some "3";
  al_max_daily_realized_loss_usdt := Some "50"; al_max_drawdown_ratio := Some "0.2";
  al_allowed_instruments := ["BTC-USDT-SWAP"; "ETH-USDT-SWAP"] |}.
Definition sample_strategy (i loss : string) : StrategyLimits := {|
  sl_id := i; sl_enabled := true; sl_allocated_capital_usdt := "500";
  sl_max_modelled_loss_usdt := loss; sl_max_daily_realized_loss_usdt := Some "10";
  sl_max_drawdown_ratio := Some "0.1" |}.
Definition sample_uid : string := "0123456789abcdef0123456789abcdef0123456789abcdef0123456789abcdef".
Definition sample_control : AccountControl := {|
  act_id := "main"; act_label := "Main"; act_venue := "okx"; act_environment := Real;
  act_uid_fingerprint := sample_uid; act_identity_verified := true; act_enabled := true;
  act_explicit_pause := false; act_policy_revision := 1;
  act_account_key := "okx:real:" +:+ sample_uid; act_limits := sample_limits;
  act_strategies := [sample_strategy "trend" "60"; sample_strategy "carry" "39.5"] |}.
Definition sample_governance : AccountGovernance := {|
  gov_schema := "okx.governance/v3"; gov_revision := 3; gov_installation_id := "install-1";
  gov_campaign_id := "sha256:" +:+ sample_uid; gov_campaign_loss_limit_usd := "200";
  gov_max_total_modelled_loss_usdt := "300"; gov_accounts := [sample_control] |}.

Lemma units_value_witness :
  units "12.5" = Some 12500000000 ∧ 0 ≤ 12500000000 < 10 ^ 24.
Proof. split; [by vm_compute|]. apply (units_value "12.5" 12500000000). by vm_compute. Defined.

Lemma governance_sound_witness :
  governance_valid sample_governance = true ∧ NoDup (map act_id (gov_accounts sample_governance)).
Proof.
  split; [by vm_compute|]. apply (governance_sound sample_governance). by vm_compute.
Defined.
