(* ===== verification/RiskAuthority.v ===== *)
(** * RiskAuthority: the messages of the central risk book, [okx-protocol/src/risk_authority.rs]

    Commands and results of the risk authority with their validation.  Decimal texts are
    validated three times in the protocol, by three functions written apart;
    [decimal_validators_agree] says they accept the same texts.  A valid causal proof has
    one read per account of the census, after the reservation. *)
From stdpp Require Import base option list numbers strings gmap sets.
From Stdlib Require Import ZArith Lia Ascii String.
From S2P Require Import Prelude Text Ordered Protocol.
Local Open Scope string_scope.
Local Open Scope list_scope.
Local Open Scope Z_scope.

(** ** Data and validation *)
Definition RISK_COMMAND_SCHEMA_V1 : string := "okx.risk-command/v1".
Definition RISK_RESULT_SCHEMA_V1 : string := "okx.risk-result/v1".

Definition hash (value : string) : bool := lower_sha256 value.
Definition token (value : string) : bool :=
  within 8 128 (len value) && bytes_all (λ a, is_alphanumeric a || is_dash a) value.
Definition positive (value : string) : bool :=
  let '(whole, frac) := default (value, "") (split_once "." value) in
  if (whole =? "")%string || (15 <? len whole) || negb (bytes_all is_digit whole)
     || ((1 <? len whole) && first_byte (λ c, (c =? "0")%char) whole) || ends_with "." value
     || (9 <? len frac) || negb (bytes_all is_digit frac)
  then false else
  match parse_u128 0 whole with
  | None => false
  | Some integer => (0 <? integer) || bytes_any (λ b, negb (b =? "0")%char) frac
  end.
Definition zero_or_positive (v : string) : bool := (v =? "0")%string || positive v.
Definition short (s : string) : bool := within 1 128 (len s).

Record TerminalRiskLedgerProof : Type := {
  tlp_account_uid : string;
  tlp_run_id : string;
  tlp_intent_id : string;
  tlp_state : string;
  tlp_record_digest : string;
  tlp_cumulative_loss_usd : string;
  tlp_remaining_exposure_usdt : string;
}.
Record UsdConversion : Type := {
  uc_usd_per_usdt : string;
  uc_source_digest : string;
  uc_observed_at_ms : Z;
}.
Definition usd_conversion_valid (u : UsdConversion) : bool :=
  positive (uc_usd_per_usdt u) && hash (uc_source_digest u) && (0 <? uc_observed_at_ms u).
Record RiskAccountOccupancy : Type := {
  rao_account_key : string;
  rao_occupied_usdt : string;
  rao_cumulative_loss_usd : string;
}.
Record NativeRiskCensus : Type := {
  nrc_account_keys : list string;
  nrc_occupied : list RiskAccountOccupancy;
  nrc_generated_at_ms : Z;
  nrc_source_digest : string;
  nrc_content_digest : string;
  nrc_source_read_floor_ms : Z;
  nrc_complete : bool;
  nrc_native_account_evidence_complete : bool;
  nrc_native_order_evidence_complete : bool;
  nrc_native_ledger_evidence_complete : bool;
}.
(** [windows(2).all(|v| v[0] < v[1])] *)
Fixpoint increasing (l : list string) : bool :=
  match l with
  | a :: (b :: _) as t => match str_cmp a b with Lt => increasing t | _ => false end
  | _ => true
  end.
Definition census_key (s : string) : bool :=
  match split_on ":" s with
  | [venue; env; uid] =>
    within 2 32 (len venue) && bytes_all (λ b, is_lower b || is_dash b) venue
    && (env =? "real")%string && hash uid
  | _ => false
  end.
Definition census_valid (c : NativeRiskCensus) : bool :=
  let observed := sort_by str_cmp (map rao_account_key (nrc_occupied c)) in
  nrc_complete c && nrc_native_account_evidence_complete c && nrc_native_order_evidence_complete c
  && nrc_native_ledger_evidence_complete c && (0 <? nrc_generated_at_ms c)
  && hash (nrc_source_digest c) && hash (nrc_content_digest c)
  && (0 <? nrc_source_read_floor_ms c) && (nrc_source_read_floor_ms c <=? nrc_generated_at_ms c)
  && negb (count (nrc_account_keys c) =? 0) && (count (nrc_account_keys c) <=? 32)
  && increasing (nrc_account_keys c) && forallb census_key (nrc_account_keys c)
  && bool_decide (observed = nrc_account_keys c)
  && forallb (λ v, zero_or_positive (rao_occupied_usdt v)
                   && zero_or_positive (rao_cumulative_loss_usd v)) (nrc_occupied c).

Record PostAccountReadProof : Type := {
  prp_account_key : string;
  prp_private_generation : Z;
  prp_source_read_id : string;
  prp_content_digest : string;
  prp_started_after_held_ms : Z;
  prp_completed_after_held_ms : Z;
}.
Record CausalPostProof : Type := {
  cpp_reserve_anchor : string;
  cpp_native_incarnation : string;
  cpp_elapsed_to_proof_ms : Z;
  cpp_account_reads : list PostAccountReadProof;
}.
Definition read_valid (elapsed : Z) (read : PostAccountReadProof) (account : string) : bool :=
  (prp_account_key read =? account)%string && (0 <? prp_private_generation read)
  && hash (prp_source_read_id read) && hash (prp_content_digest read)
  && (prp_started_after_held_ms read <=? prp_completed_after_held_ms read)
  && (prp_completed_after_held_ms read <=? elapsed).
Definition causal_valid (p : CausalPostProof) (census : NativeRiskCensus) : bool :=
  negb (cpp_reserve_anchor p =? "")%string && (len (cpp_reserve_anchor p) <=? 512)
  && (len (cpp_native_incarnation p) =? 32) && bytes_all is_hex (cpp_native_incarnation p)
  && (cpp_elapsed_to_proof_ms p <=? 5000)
  && (count (cpp_account_reads p) =? count (nrc_account_keys census))
  && forallb (λ ra, read_valid (cpp_elapsed_to_proof_ms p) ra.1 ra.2)
       (combine (cpp_account_reads p) (nrc_account_keys census)).

Record UnsentRiskReleaseProof : Type := {
  urp_reservation_key : string;
  urp_account_key : string;
  urp_intent_id : string;
  urp_plan_hash : string;
  urp_request_hash : string;
  urp_reason : string;
  urp_record_digest : string;
}.
Definition real_account_key (k : string) : bool :=
  String.prefix "okx:real:" k && (len k =? 73) && hash (drop_str 9 k).
Definition unsent_proof_valid (p : UnsentRiskReleaseProof) : bool :=
  (len (urp_reservation_key p) <=? 512) && negb (urp_reservation_key p =? "")%string
  && real_account_key (urp_account_key p) && token (urp_intent_id p) && hash (urp_plan_hash p)
  && hash (urp_request_hash p) && short (urp_reason p) && hash (urp_record_digest p).

Inductive RiskResolution : Type := ResolveUnknown | ResolveOpen | ResolveReleased.
Inductive RiskReservationState : Type := Held | Posted | Unknown | Open | Released.
#[export] Instance RiskReservationState_eq_dec : EqDecision RiskReservationState.
Proof. solve_decision. Defined.

Inductive RiskCommandAction : Type :=
| Summary
| AccountSummary (account_key : string)
| Inspect (reservation_key plan_sha256 : string)
| Reserve (venue account_uid run_id intent_id strategy_id instrument_id plan_sha256
    requested_loss_usdt requested_loss_usd : string) (usd_conversion : UsdConversion)
    (policy_revision : Z) (census : NativeRiskCensus)
| ReleaseUnsent (reservation_key plan_sha256 : string) (expected_risk_book_sequence : Z)
    (proof : UnsentRiskReleaseProof)
| BeginPost (reservation_key plan_sha256 : string) (policy_revision expected_risk_book_sequence : Z)
    (source_proof_sha256 : string) (census : NativeRiskCensus) (causal_proof : CausalPostProof)
| Resolve (reservation_key plan_sha256 : string) (expected_risk_book_sequence : Z)
    (next_state : RiskResolution) (source_proof_sha256 : string)
    (terminal_census : option NativeRiskCensus) (terminal_ledger : option TerminalRiskLedgerProof).
Record RiskCommand : Type := {
  rc_schema : string;
  rc_command_id : string;
  rc_installation_id : string;
  rc_action : RiskCommandAction;
}.

Definition reservation_key_ok (k : string) : bool := negb (k =? "")%string && (len k <=? 512).
Definition ledger_proof_valid (p : TerminalRiskLedgerProof) : bool :=
  hash (tlp_account_uid p) && token (tlp_run_id p) && token (tlp_intent_id p)
  && hash (tlp_record_digest p) && (tlp_remaining_exposure_usdt p =? "0")%string
  && zero_or_positive (tlp_cumulative_loss_usd p)
  && one_of ["FILLED"; "CANCELED"; "REJECTED"] (tlp_state p).
Definition action_valid (a : RiskCommandAction) : bool :=
  match a with
  | Summary => true
  | AccountSummary account_key => real_account_key account_key
  | Inspect key plan => reservation_key_ok key && hash plan
  | Reserve venue account_uid run_id intent_id strategy_id instrument_id plan usdt usd conversion
      revision census =>
    within 2 32 (len venue) && bytes_all (λ b, is_lower b || is_dash b) venue && hash account_uid
    && token run_id && token intent_id && within 2 64 (len strategy_id)
    && first_byte is_alphabetic strategy_id
    && bytes_all (λ c, is_alphanumeric c || is_dash c) strategy_id
    && instrument_text instrument_id && hash plan && positive usdt && positive usd
    && usd_conversion_valid conversion && (0 <? revision) && census_valid census
  | ReleaseUnsent key plan _ proof =>
    hash plan && unsent_proof_valid proof && (urp_reservation_key proof =? key)%string
    && (urp_plan_hash proof =? plan)%string
  | BeginPost key plan revision sequence source census causal_proof =>
    reservation_key_ok key && hash plan && (0 <? revision) && (0 <? sequence) && hash source
    && census_valid census && causal_valid causal_proof census
    && (cpp_reserve_anchor causal_proof =? key)%string
  | Resolve key plan sequence next_state source terminal_census terminal_ledger =>
    reservation_key_ok key && hash plan && (0 <? sequence) && hash source
    && match next_state with
       | ResolveReleased =>
         is_some_and census_valid terminal_census && is_some_and ledger_proof_valid terminal_ledger
       | _ => negb (is_some terminal_census) && negb (is_some terminal_ledger)
       end
  end.
Definition command_valid (c : RiskCommand) : bool :=
  (rc_schema c =? RISK_COMMAND_SCHEMA_V1)%string && token (rc_command_id c)
  && token (rc_installation_id c) && action_valid (rc_action c).

Inductive RiskDecisionStatus : Type := Denied | StatusHeld | PostAuthorized | Updated | Observed.
#[export] Instance RiskDecisionStatus_eq_dec : EqDecision RiskDecisionStatus.
Proof. solve_decision. Defined.
Record RiskBudgetSnapshot : Type := {
  rbs_campaign_limit_usd : string;
  rbs_consumed_loss_usd : string;
  rbs_reserved_loss_usd : string;
  rbs_remaining_loss_usd : string;
  rbs_occupied_modelled_loss_usdt : string;
  rbs_source_as_of_ms : option Z;
}.
Definition budget_valid (b : RiskBudgetSnapshot) : bool :=
  positive (rbs_campaign_limit_usd b)
  && forallb zero_or_positive [rbs_consumed_loss_usd b; rbs_reserved_loss_usd b;
                               rbs_remaining_loss_usd b; rbs_occupied_modelled_loss_usdt b].
Record RiskAccountBudget : Type := {
  rab_account_key : string;
  rab_active_reservations : Z;
  rab_occupied_usd : string;
  rab_cumulative_loss_usd : string;
  rab_latest_activity_ms : Z;
}.
Definition account_budget_valid (b : RiskAccountBudget) : bool :=
  real_account_key (rab_account_key b)
  && Bool.eqb (rab_active_reservations b =? 0) (rab_occupied_usd b =? "0")%string
  && ((rab_active_reservations b =? 0) || (0 <? rab_latest_activity_ms b))
  && forallb zero_or_positive [rab_occupied_usd b; rab_cumulative_loss_usd b].
Record RiskResult : Type := {
  rr_schema : string;
  rr_command_id : string;
  rr_status : RiskDecisionStatus;
  rr_reason : option string;
  rr_reservation_key : option string;
  rr_risk_book_sequence : option Z;
  rr_policy_revision : option Z;
  rr_existing_modelled_loss_usdt : option string;
  rr_reservation_state : option RiskReservationState;
  rr_budget : option RiskBudgetSnapshot;
  rr_account_budget : option RiskAccountBudget;
}.
Definition has_budget (r : RiskResult) : bool :=
  is_some_and budget_valid (rr_budget r) || is_some_and account_budget_valid (rr_account_budget r).
Definition risk_result_valid (r : RiskResult) : bool :=
  let observed := bool_decide (rr_status r = Observed) in
  (rr_schema r =? RISK_RESULT_SCHEMA_V1)%string && token (rr_command_id r)
  && (bool_decide (rr_status r = Denied)
      || (observed && has_budget r && negb (is_some (rr_reservation_key r))
          && is_some (rr_risk_book_sequence r) && negb (is_some (rr_reservation_state r)))
      || (is_some (rr_reservation_key r) && negb (is_some (rr_budget r))
          && is_some_and (λ s, 0 <? s) (rr_risk_book_sequence r)
          && is_some_and (λ v, 0 <? v) (rr_policy_revision r)))
  && match rr_status r with
     | PostAuthorized => is_some_and zero_or_positive (rr_existing_modelled_loss_usdt r)
     | _ => negb (is_some (rr_existing_modelled_loss_usdt r))
     end
  && ((observed && (is_some (rr_reservation_state r) || has_budget r))
      || (negb observed && negb (is_some (rr_reservation_state r))))
  && is_none_or short (rr_reason r).

(** ** Decimal texts *)
Lemma positive_nonzero v :
  positive v = true ↔ nonzero v = true ∧ ∃ w f, numeral v w f.
Proof.
  unfold positive. destruct (default (v, "") (split_once "." v)) as [w f] eqn:Es.
  fold (malformed v w f). split.
  - destruct (malformed v w f) eqn:Em; [done|]. intros H.
    assert (Hn : numeral v w f) by (by apply numeral_iff). split; [|eauto].
    destruct (numeral_values v w f Hn) as (W & F & EW & EF & HW & HF & _ & _ & Hnz & HF0).
    rewrite EW in H. apply Hnz. apply orb_true_iff in H as [H|H]; [left; lia|right].
    destruct (decide (F = 0)) as [->|]; [|lia]. rewrite (proj1 HF0 eq_refl) in H. done.
  - intros [Hnz (w' & f' & Hn)]. pose proof (proj1 (numeral_iff _ _ _) Hn) as [Es' Em].
    rewrite Es in Es'. injection Es' as <- <-. rewrite Em.
    destruct (numeral_values v w f Hn) as (W & F & EW & EF & HW & HF & _ & _ & Hnz' & HF0).
    rewrite EW. apply Hnz' in Hnz. apply orb_true_iff. destruct Hnz as [?|Hpos]; [left; lia|right].
    apply not_false_iff_true. rewrite <- HF0. lia.
Qed.

(** The three decimal validators of the protocol accept the same texts: an amount a
    trading request may contain is one the account policy and the risk book read as
    positive. *)
Theorem decimal_validators_agree v :
  decimal v = is_some (Protocol.positive v) ∧ decimal v = positive v.
Proof.
  split; apply eq_true_iff_eq; rewrite decimal_iff;
    [by rewrite positive_some_iff|by rewrite positive_nonzero].
Qed.

(** ** A valid proof covers the census *)
Lemma increasing_head a b l : increasing (a :: b :: l) = true → str_cmp a b = Lt ∧ increasing (b :: l) = true.
Proof. simpl. by destruct (str_cmp a b). Qed.

Lemma increasing_lt a l : increasing (a :: l) = true → ∀ b, b ∈ l → str_cmp a b = Lt.
Proof.
  revert a. induction l as [|c l IH]; intros a H b Hb; [by apply not_elem_of_nil in Hb|].
  apply increasing_head in H as [Hac Hl]. apply elem_of_cons in Hb as [->|Hb]; [done|].
  eapply str_cmp_trans; [done|]. by apply IH.
Qed.

Lemma increasing_NoDup l : increasing l = true → NoDup l.
Proof.
  induction l as [|a l IH]; intros H; [constructor|]. constructor.
  - intros Ha. pose proof (increasing_lt a l H a Ha) as Hlt. by rewrite str_cmp_refl in Hlt.
  - apply IH. destruct l; [done|]. by apply increasing_head in H as [_ ?].
Qed.

Lemma reads_cover elapsed reads keys :
  List.length reads = List.length keys →
  forallb (λ ra, read_valid elapsed ra.1 ra.2) (combine reads keys) = true →
  map prp_account_key reads = keys
  ∧ ∀ read, read ∈ reads → prp_started_after_held_ms read ≤ prp_completed_after_held_ms read ≤ elapsed.
Proof.
  revert keys. induction reads as [|read reads IH]; intros [|k keys]; simpl; try done.
  - intros _ _. split; [done|]. by intros ? ?%not_elem_of_nil.
  - intros [= Hl] [Hr Hrest]%andb_true_iff. destruct (IH keys Hl Hrest) as [<- Hin].
    unfold read_valid in Hr. rewrite !andb_true_iff in Hr.
    destruct Hr as (((((Hk & _) & _) & _) & Hs) & Hc). apply String.eqb_eq in Hk as ->.
    apply Z.leb_le in Hs, Hc. split; [done|].
    intros r [->|Hr]%elem_of_cons; [lia|auto].
Qed.

(** A valid census lists every account once, with one occupancy row for each, and a
    valid causal proof has one read per account of the census, in its order, completed
    within five seconds of the reservation. *)
Theorem causal_reads_every_account c p :
  census_valid c = true → causal_valid p c = true →
  NoDup (nrc_account_keys c)
  ∧ map rao_account_key (nrc_occupied c) ≡ₚ nrc_account_keys c
  ∧ map prp_account_key (cpp_account_reads p) = nrc_account_keys c
  ∧ ∀ read, read ∈ cpp_account_reads p →
      prp_started_after_held_ms read ≤ prp_completed_after_held_ms read ≤ cpp_elapsed_to_proof_ms p
      ∧ cpp_elapsed_to_proof_ms p ≤ 5000.
Proof.
  unfold census_valid, causal_valid. rewrite !andb_true_iff.
  intros ((((_ & Hinc) & _) & Hobs) & _) ((((((_ & _) & _) & _) & He) & Hl) & Hr).
  apply bool_decide_eq_true in Hobs. apply Z.leb_le in He.
  destruct (reads_cover (cpp_elapsed_to_proof_ms p) (cpp_account_reads p) (nrc_account_keys c))
    as [Hkeys Hin]; [unfold count in Hl; lia|done|].
  split_and!; [by apply increasing_NoDup| |done|auto].
  rewrite <- Hobs. symmetry. apply sort_by_perm.
Qed.

(** ** A concrete proof *)
Definition sample_key : string := "okx:real:" +:+ sample_uid.
Definition sample_census : NativeRiskCensus := {|
  nrc_account_keys := [sample_key];
  nrc_occupied := [{| rao_account_key := sample_key; rao_occupied_usdt := "0";
                      rao_cumulative_loss_usd := "1.5" |}];
  nrc_generated_at_ms := 1000; nrc_source_digest := sample_uid; nrc_content_digest := sample_uid;
  nrc_source_read_floor_ms := 900; nrc_complete := true;
  nrc_native_account_evidence_complete := true; nrc_native_order_evidence_complete := true;
  nrc_native_ledger_evidence_complete := true |}.
Definition sample_proof : CausalPostProof := {|
  cpp_reserve_anchor := "reservation"; cpp_native_incarnation := "0123456789abcdef0123456789abcdef";
  cpp_elapsed_to_proof_ms := 40;
  cpp_account_reads := [{| prp_account_key := sample_key; prp_private_generation := 7;
    prp_source_read_id := sample_uid; prp_content_digest := sample_uid;
    prp_started_after_held_ms := 3; prp_completed_after_held_ms := 31 |}] |}.

Lemma causal_reads_every_account_witness :
  census_valid sample_census = true ∧ causal_valid sample_proof sample_census = true
  ∧ NoDup (nrc_account_keys sample_census).
Proof.
  split; [by vm_compute|]. split; [by vm_compute|].
  apply (causal_reads_every_account sample_census sample_proof); by vm_compute.
Defined.
