(* ===== verification/Ledger.v ===== *)
(** * Ledger: the tables of the account store, [okx-execution/src/account_store.rs]

    The store is one SQLite database owned by one writer.  [Db] holds the tables the
    order ledger is made of, as their primary keys map to rows, and the handful of SQL
    statements the program uses on them are written out as functions: [query_row] fails
    without a row, an [INSERT] fails on a key or a unique column already present, a
    transaction commits all of its statements or none.  Exact decimals are kept as the
    text the program stores.  A [CHECK]ed state column is the [IntentState] it is
    checked to spell. *)
From stdpp Require Import base option list numbers strings gmap.
From Stdlib Require Import ZArith Lia.
From S2P Require Import Prelude Text Ordered External Decimals.
Local Open Scope string_scope.
Local Open Scope list_scope.
Local Open Scope Z_scope.

(** ** Errors: [StoreError]; the ones of SQLite are told apart only as far as needed *)
Inductive SqlError : Type := QueryReturnedNoRows | ConstraintViolation.
Inductive StoreError : Type := Sql (e : SqlError) | Invalid (code : string).
Notation StoreResult := (result StoreError).
Definition invalid {A} (code : string) : StoreResult A := Err (Invalid code).

(** ** Values *)
Inductive IntentState : Type :=
| Prepared | Reserved | Posting | Unknown | Acknowledged
| PartiallyFilled | Filled | Cancelled | Rejected.
#[export] Instance IntentState_eq_dec : EqDecision IntentState.
Proof. solve_decision. Defined.

Definition as_str (s : IntentState) : string :=
  match s with
  | Prepared => "PREPARED" | Reserved => "RESERVED" | Posting => "POSTING"
  | Unknown => "UNKNOWN" | Acknowledged => "ACKNOWLEDGED"
  | PartiallyFilled => "PARTIALLY_FILLED" | Filled => "FILLED"
  | Cancelled => "CANCELLED" | Rejected => "REJECTED"
  end.

Definition terminal (s : IntentState) : bool :=
  match s with Filled | Cancelled | Rejected => true | _ => false end.

Definition parse_state (s : string) : StoreResult IntentState :=
  if (s =? "PREPARED")%string then Ok Prepared else if (s =? "RESERVED")%string then Ok Reserved
  else if (s =? "POSTING")%string then Ok Posting else if (s =? "UNKNOWN")%string then Ok Unknown
  else if (s =? "ACKNOWLEDGED")%string then Ok Acknowledged
  else if (s =? "PARTIALLY_FILLED")%string then Ok PartiallyFilled
  else if (s =? "FILLED")%string then Ok Filled else if (s =? "CANCELLED")%string then Ok Cancelled
  else if (s =? "REJECTED")%string then Ok Rejected else invalid "CORRUPT_INTENT_STATE".

Record AccountMeta : Type := {
  meta_initialize_operation_id : string;
  meta_release_id : string;
  meta_account_key : string;
  meta_installation_id : string;
  meta_initialized_at : Z;
  meta_opening_source : string;
}.

Record Decision : Type := {
  dn_decision_id : string;
  dn_instance_id : option string;
  dn_decision_at : Z;
  dn_input_digest : string;
  dn_policy_revision : Z;
  dn_code_version : string;
}.

Record IntentPlan {D : Type} : Type := {
  ip_strategy_definition_id : string;
  ip_strategy_definition_version : string;
  ip_strategy_parameters_digest : string;
  ip_contract_value : D;
  ip_inverse : bool;
  ip_settlement_currency : string;
  ip_position_side : string;
  ip_private_source_generation : Z;
  ip_operation : string;
  ip_side : string;
  ip_quantity : D;
  ip_limit_price : D;
  ip_stop_price : option D;
  ip_strategy_instance : string;
  ip_planned_loss_usd : D;
  ip_source_generation : Z;
}.
Arguments IntentPlan D : clear implicits.

Record NewIntent {D : Type} : Type := {
  ni_plan : IntentPlan D;
  ni_intent_id : string;
  ni_idempotency_key : string;
  ni_request_hash : string;
  ni_client_order_id : string;
  ni_deadline : Z;
  ni_plan_hash : string;
  ni_policy_revision : Z;
  ni_risk_increase : bool;
  ni_instrument_id : string;
}.
Arguments NewIntent D : clear implicits.

Record StoredIntent {D : Type} : Type := {
  si_plan : IntentPlan D;
  si_intent_id : string;
  si_idempotency_key : string;
  si_request_hash : string;
  si_client_order_id : string;
  si_state : IntentState;
  si_revision : Z;
  si_deadline : Z;
  si_plan_hash : string;
  si_policy_revision : Z;
  si_risk_increase : bool;
  si_instrument_id : string;
  si_exchange_order_id : option string;
  si_incident : option string;
}.
Arguments StoredIntent D : clear implicits.

Record UnsentSqlReceipt : Type := {
  us_reservation_key : string;
  us_account_key : string;
  us_intent_id : string;
  us_plan_hash : string;
  us_request_hash : string;
  us_reason : string;
}.

Record CentralReceipt {D : Type} : Type := {
  cr_reservation_key : string;
  cr_account_key : string;
  cr_installation_id : string;
  cr_instance_id : option string;
  cr_intent_id : string;
  cr_plan_hash : string;
  cr_policy_revision : Z;
  cr_receipt_hash : string;
  cr_requested_loss_usd : D;
  cr_conversion_digest : string;
}.
Arguments CentralReceipt D : clear implicits.

Record OperationReceipt : Type := {
  or_operation_id : string;
  or_kind : string;
  or_request_hash : string;
  or_result_ref : string;
  or_committed_at : Z;
}.

Record StrategyDefinitionVersion : Type := {
  sd_definition_id : string;
  sd_version : string;
  sd_parameters : string;
  sd_parameters_digest : string;
  sd_created_at : Z;
}.

(** ** Rows: the columns that are not the primary key *)
Record IntentRow : Type := {
  i_idempotency_key : string;
  i_request_hash : string;
  i_decision_id : string;
  i_state : IntentState;
  i_revision : Z;
  i_client_order_id : string;
  i_deadline : Z;
  i_plan_hash : string;
  i_policy_revision : Z;
  i_risk_increase : bool;
  i_instrument_id : string;
  i_created_at : Z;
  i_updated_at : Z;
  i_begin_post_at : option Z;
  i_exchange_order_id : option string;
  i_incident : option string;
}.

Record PlanRow : Type := {
  p_operation : string;
  p_side : string;
  p_quantity : string;
  p_limit_price : string;
  p_stop_price : option string;
  p_strategy_instance : string;
  p_planned_loss_usd : string;
  p_source_generation : Z;
  p_position_side : string;
  p_private_source_generation : Z;
  p_contract_value : string;
  p_inverse : bool;
  p_settlement_currency : string;
  p_strategy_definition_id : string;
  p_strategy_definition_version : string;
  p_strategy_parameters_digest : string;
}.

Record ReceiptRow : Type := {
  r_intent_id : string;
  r_account_key : string;
  r_installation_id : string;
  r_instance_id : option string;
  r_plan_hash : string;
  r_policy_revision : Z;
  r_receipt_hash : string;
  r_requested_loss_usd : string;
  r_conversion_digest : string;
  r_state : string;
}.

Record OperationRow : Type := {
  o_kind : string;
  o_request_hash : string;
  o_result_ref : string;
  o_committed_at : Z;
}.

Record PolicyRow : Type := {
  pol_revision : Z;
  pol_paused : bool;
  pol_campaign_id : string;
  pol_campaign_limit : string;
  pol_campaign_loss : string;
}.

Record StopRow : Type := {
  stop_scope : string;
  stop_reason : string;
  stop_latched_at : Z;
  stop_resolution : option string;
}.

Record InstanceRow : Type := {
  in_definition_id : string;
  in_definition_version : string;
  in_parameters : string;
  in_enabled : bool;
  in_policy_revision : Z;
  in_budget : string;
  in_last_decision_key : option string;
  in_parameters_digest : string;
}.

Record RecoveryRow : Type := {
  rec_requires_reconcile : bool;
  rec_backup_at : option Z;
  rec_reconciled_evidence : option string;
}.

Record OrderRow : Type := {
  ord_exchange_order_id : option string;
  ord_intent_id : option string;
  ord_client_order_id : string;
  ord_protection_id : option string;
  ord_filled_qty : string;
  ord_state : IntentState;
}.

(** The tables; [decisions] is a list because its [rowid] is used: row [k] has rowid
    [k + 1], as nothing deletes decisions. *)
Record Db : Type := {
  meta : AccountMeta;
  intents : gmap string IntentRow;
  intent_plans : gmap string PlanRow;
  decisions : list Decision;
  risk_receipts : gmap string ReceiptRow;
  operation_receipts : gmap string OperationRow;
  account_policy : PolicyRow;
  risk_stops : gmap string StopRow;
  strategy_instances : gmap string InstanceRow;
  definition_versions : gmap (string * string) StrategyDefinitionVersion;
  storage_recovery : RecoveryRow;
  orders : gmap string OrderRow;
}.

(** ** Tables, one at a time *)
Definition with_intents (m : gmap string IntentRow) (db : Db) : Db :=
  {| meta := meta db; intents := m; intent_plans := intent_plans db; decisions := decisions db;
     risk_receipts := risk_receipts db; operation_receipts := operation_receipts db;
     account_policy := account_policy db; risk_stops := risk_stops db;
     strategy_instances := strategy_instances db; definition_versions := definition_versions db;
     storage_recovery := storage_recovery db; orders := orders db |}.
Definition with_plans (m : gmap string PlanRow) (db : Db) : Db :=
  {| meta := meta db; intents := intents db; intent_plans := m; decisions := decisions db;
     risk_receipts := risk_receipts db; operation_receipts := operation_receipts db;
     account_policy := account_policy db; risk_stops := risk_stops db;
     strategy_instances := strategy_instances db; definition_versions := definition_versions db;
     storage_recovery := storage_recovery db; orders := orders db |}.
Definition with_decisions (l : list Decision) (db : Db) : Db :=
  {| meta := meta db; intents := intents db; intent_plans := intent_plans db; decisions := l;
     risk_receipts := risk_receipts db; operation_receipts := operation_receipts db;
     account_policy := account_policy db; risk_stops := risk_stops db;
     strategy_instances := strategy_instances db; definition_versions := definition_versions db;
     storage_recovery := storage_recovery db; orders := orders db |}.
Definition with_receipts (m : gmap string ReceiptRow) (db : Db) : Db :=
  {| meta := meta db; intents := intents db; intent_plans := intent_plans db;
     decisions := decisions db; risk_receipts := m; operation_receipts := operation_receipts db;
     account_policy := account_policy db; risk_stops := risk_stops db;
     strategy_instances := strategy_instances db; definition_versions := definition_versions db;
     storage_recovery := storage_recovery db; orders := orders db |}.
Definition with_operations (m : gmap string OperationRow) (db : Db) : Db :=
  {| meta := meta db; intents := intents db; intent_plans := intent_plans db;
     decisions := decisions db; risk_receipts := risk_receipts db; operation_receipts := m;
     account_policy := account_policy db; risk_stops := risk_stops db;
     strategy_instances := strategy_instances db; definition_versions := definition_versions db;
     storage_recovery := storage_recovery db; orders := orders db |}.
Definition with_policy (r : PolicyRow) (db : Db) : Db :=
  {| meta := meta db; intents := intents db; intent_plans := intent_plans db;
     decisions := decisions db; risk_receipts := risk_receipts db;
     operation_receipts := operation_receipts db; account_policy := r;
     risk_stops := risk_stops db; strategy_instances := strategy_instances db;
     definition_versions := definition_versions db; storage_recovery := storage_recovery db;
     orders := orders db |}.
Definition with_stops (m : gmap string StopRow) (db : Db) : Db :=
  {| meta := meta db; intents := intents db; intent_plans := intent_plans db;
     decisions := decisions db; risk_receipts := risk_receipts db;
     operation_receipts := operation_receipts db; account_policy := account_policy db;
     risk_stops := m; strategy_instances := strategy_instances db;
     definition_versions := definition_versions db; storage_recovery := storage_recovery db;
     orders := orders db |}.
Definition with_instances (m : gmap string InstanceRow) (db : Db) : Db :=
  {| meta := meta db; intents := intents db; intent_plans := intent_plans db;
     decisions := decisions db; risk_receipts := risk_receipts db;
     operation_receipts := operation_receipts db; account_policy := account_policy db;
     risk_stops := risk_stops db; strategy_instances := m;
     definition_versions := definition_versions db; storage_recovery := storage_recovery db;
     orders := orders db |}.
Definition with_versions (m : gmap (string * string) StrategyDefinitionVersion) (db : Db) : Db :=
  {| meta := meta db; intents := intents db; intent_plans := intent_plans db;
     decisions := decisions db; risk_receipts := risk_receipts db;
     operation_receipts := operation_receipts db; account_policy := account_policy db;
     risk_stops := risk_stops db; strategy_instances := strategy_instances db;
     definition_versions := m; storage_recovery := storage_recovery db; orders := orders db |}.
Definition with_recovery (r : RecoveryRow) (db : Db) : Db :=
  {| meta := meta db; intents := intents db; intent_plans := intent_plans db;
     decisions := decisions db; risk_receipts := risk_receipts db;
     operation_receipts := operation_receipts db; account_policy := account_policy db;
     risk_stops := risk_stops db; strategy_instances := strategy_instances db;
     definition_versions := definition_versions db; storage_recovery := r; orders := orders db |}.
Definition with_orders (m : gmap string OrderRow) (db : Db) : Db :=
  {| meta := meta db; intents := intents db; intent_plans := intent_plans db;
     decisions := decisions db; risk_receipts := risk_receipts db;
     operation_receipts := operation_receipts db; account_policy := account_policy db;
     risk_stops := risk_stops db; strategy_instances := strategy_instances db;
     definition_versions := definition_versions db; storage_recovery := storage_recovery db;
     orders := m |}.

(** ** Statements *)
Definition query_row {A} (o : option A) : StoreResult A := ok_or (Sql QueryReturnedNoRows) o.

(** A key, [UNIQUE], [REFERENCES] or [CHECK] constraint *)
Definition constraint (holds : bool) : StoreResult unit :=
  if holds then Ok tt else Err (Sql ConstraintViolation).

Definition insert_row {R} (k : string) (row : R) (m : gmap string R) : StoreResult (gmap string R) :=
  _ ← constraint (match m !! k with None => true | Some _ => false end); Ok (<[k := row]> m).

(** [INSERT .. ON CONFLICT(key) DO NOTHING] *)
Definition insert_or_ignore {R} (k : string) (row : R) (m : gmap string R) : gmap string R :=
  match m !! k with None => <[k := row]> m | Some _ => m end.

(** [SELECT .. WHERE p]: the rows in the order of the table, which SQL leaves open *)
Definition select {R} (p : string → R → bool) (m : gmap string R) : list (string * R) :=
  List.filter (λ kr, p kr.1 kr.2) (map_to_list m).
Definition exists_row {R} (p : string → R → bool) (m : gmap string R) : bool :=
  match select p m with [] => false | _ => true end.

(** [UPDATE .. SET f WHERE p], and the number of rows it changes *)
Definition update_where {R} (p : R → bool) (f : R → R) (m : gmap string R) : gmap string R :=
  (λ r, if p r then f r else r) <$> m.

(** [transaction_with_behavior(Immediate)] .. [commit()]: on an early return the
    transaction is dropped, which rolls it back. *)
Definition transaction {A} (db : Db) (body : StoreResult (A * Db)) : Db * StoreResult A :=
  match body with Ok (a, db') => (db', Ok a) | Err e => (db, Err e) end.

Definition decimal {D} `{DecimalOps D} (value : string) : StoreResult D :=
  ok_or (Invalid "INVALID_EXACT_DECIMAL") (dec_from_str value).
(** [value.normalize().to_string()] *)
Definition exact {D} `{DecimalArith D} (value : D) : string := dec_to_string value.
