(* ===== verification/Intents.v ===== *)
(** * Intents: the order ledger, [ledger/sql/intents.rs], [orders.rs], [projections.rs]

    Every operation of the account store on intents, central receipts, operation
    receipts, stops and policy, on the tables of [Ledger].  An operation takes the
    database and returns the one it leaves behind together with its answer, so that an
    error after a committed statement keeps that statement.  The wall clock is an
    argument where the source reads it. *)
From stdpp Require Import base option list numbers strings gmap pretty.
From Stdlib Require Import ZArith Lia.
From S2P Require Import Prelude Text Ordered External Decimals Ledger.
Local Open Scope string_scope.
Local Open Scope list_scope.
Local Open Scope Z_scope.

(** ** Updates of a row *)
Definition move_intent (st : IntentState) (now : Z) (r : IntentRow) : IntentRow := {|
  i_idempotency_key := i_idempotency_key r; i_request_hash := i_request_hash r;
  i_decision_id := i_decision_id r; i_state := st; i_revision := i_revision r + 1;
  i_client_order_id := i_client_order_id r; i_deadline := i_deadline r;
  i_plan_hash := i_plan_hash r; i_policy_revision := i_policy_revision r;
  i_risk_increase := i_risk_increase r; i_instrument_id := i_instrument_id r;
  i_created_at := i_created_at r; i_updated_at := now; i_begin_post_at := i_begin_post_at r;
  i_exchange_order_id := i_exchange_order_id r; i_incident := i_incident r |}.
Definition with_begin_post (t : option Z) (r : IntentRow) : IntentRow := {|
  i_idempotency_key := i_idempotency_key r; i_request_hash := i_request_hash r;
  i_decision_id := i_decision_id r; i_state := i_state r; i_revision := i_revision r;
  i_client_order_id := i_client_order_id r; i_deadline := i_deadline r;
  i_plan_hash := i_plan_hash r; i_policy_revision := i_policy_revision r;
  i_risk_increase := i_risk_increase r; i_instrument_id := i_instrument_id r;
  i_created_at := i_created_at r; i_updated_at := i_updated_at r; i_begin_post_at := t;
  i_exchange_order_id := i_exchange_order_id r; i_incident := i_incident r |}.
Definition with_exchange (o : option string) (r : IntentRow) : IntentRow := {|
  i_idempotency_key := i_idempotency_key r; i_request_hash := i_request_hash r;
  i_decision_id := i_decision_id r; i_state := i_state r; i_revision := i_revision r;
  i_client_order_id := i_client_order_id r; i_deadline := i_deadline r;
  i_plan_hash := i_plan_hash r; i_policy_revision := i_policy_revision r;
  i_risk_increase := i_risk_increase r; i_instrument_id := i_instrument_id r;
  i_created_at := i_created_at r; i_updated_at := i_updated_at r;
  i_begin_post_at := i_begin_post_at r; i_exchange_order_id := o; i_incident := i_incident r |}.
Definition with_incident (o : option string) (r : IntentRow) : IntentRow := {|
  i_idempotency_key := i_idempotency_key r; i_request_hash := i_request_hash r;
  i_decision_id := i_decision_id r; i_state := i_state r; i_revision := i_revision r;
  i_client_order_id := i_client_order_id r; i_deadline := i_deadline r;
  i_plan_hash := i_plan_hash r; i_policy_revision := i_policy_revision r;
  i_risk_increase := i_risk_increase r; i_instrument_id := i_instrument_id r;
  i_created_at := i_created_at r; i_updated_at := i_updated_at r;
  i_begin_post_at := i_begin_post_at r; i_exchange_order_id := i_exchange_order_id r;
  i_incident := o |}.

Definition with_receipt_state (st : string) (r : ReceiptRow) : ReceiptRow := {|
  r_intent_id := r_intent_id r; r_account_key := r_account_key r;
  r_installation_id := r_installation_id r; r_instance_id := r_instance_id r;
  r_plan_hash := r_plan_hash r; r_policy_revision := r_policy_revision r;
  r_receipt_hash := r_receipt_hash r; r_requested_loss_usd := r_requested_loss_usd r;
  r_conversion_digest := r_conversion_digest r; r_state := st |}.
Definition with_kind (k : string) (r : OperationRow) : OperationRow := {|
  o_kind := k; o_request_hash := o_request_hash r; o_result_ref := o_result_ref r;
  o_committed_at := o_committed_at r |}.
Definition with_last_decision (k : option string) (r : InstanceRow) : InstanceRow := {|
  in_definition_id := in_definition_id r; in_definition_version := in_definition_version r;
  in_parameters := in_parameters r; in_enabled := in_enabled r;
  in_policy_revision := in_policy_revision r; in_budget := in_budget r;
  in_last_decision_key := k; in_parameters_digest := in_parameters_digest r |}.

Definition operation_row (kind hash result : string) (now : Z) : OperationRow :=
  {| o_kind := kind; o_request_hash := hash; o_result_ref := result; o_committed_at := now |}.

(** [UPDATE risk_receipts SET state=?2 WHERE intent_id=?1] *)
Definition set_receipt_state (id st : string) (db : Db) : Db :=
  with_receipts (update_where (λ r, (r_intent_id r =? id)%string) (with_receipt_state st)
                              (risk_receipts db)) db.
(** [UPDATE intents SET .. WHERE intent_id=?1] *)
Definition update_intent (id : string) (f : IntentRow → IntentRow) (db : Db) : Db :=
  with_intents (alter f id (intents db)) db.

Definition opt_eqb (a b : option string) : bool := bool_decide (a = b).

Section intents.
Context {D : Type} `{DecimalArith D}.

(** ** Reading an intent *)
Definition plan (db : Db) (id : string) : StoreResult (IntentPlan D) :=
  r ← query_row (intent_plans db !! id);
  contract_value ← decimal (p_contract_value r);
  quantity ← decimal (p_quantity r);
  limit_price ← decimal (p_limit_price r);
  stop_price ← (match p_stop_price r with
                | Some s => p ← decimal s; Ok (Some p)
                | None => Ok None
                end);
  planned_loss_usd ← decimal (p_planned_loss_usd r);
  Ok {| ip_strategy_definition_id := p_strategy_definition_id r;
        ip_strategy_definition_version := p_strategy_definition_version r;
        ip_strategy_parameters_digest := p_strategy_parameters_digest r;
        ip_contract_value := contract_value; ip_inverse := p_inverse r;
        ip_settlement_currency := p_settlement_currency r;
        ip_position_side := p_position_side r;
        ip_private_source_generation := p_private_source_generation r;
        ip_operation := p_operation r; ip_side := p_side r; ip_quantity := quantity;
        ip_limit_price := limit_price; ip_stop_price := stop_price;
        ip_strategy_instance := p_strategy_instance r;
        ip_planned_loss_usd := planned_loss_usd;
        ip_source_generation := p_source_generation r |}.

Definition stored (db : Db) (raw : option (string * IntentRow)) : StoreResult (option (StoredIntent D)) :=
  match raw with
  | None => Ok None
  | Some (id, r) =>
    state ← parse_state (as_str (i_state r));
    p ← plan db id;
    Ok (Some {| si_plan := p; si_intent_id := id; si_idempotency_key := i_idempotency_key r;
                si_request_hash := i_request_hash r; si_client_order_id := i_client_order_id r;
                si_state := state; si_revision := i_revision r; si_deadline := i_deadline r;
                si_plan_hash := i_plan_hash r; si_policy_revision := i_policy_revision r;
                si_risk_increase := i_risk_increase r; si_instrument_id := i_instrument_id r;
                si_exchange_order_id := i_exchange_order_id r; si_incident := i_incident r |})
  end.

(** [find_intent] at each of the columns it is called with *)
Definition intent (db : Db) (id : string) : StoreResult (option (StoredIntent D)) :=
  stored db (r ← intents db !! id; Some (id, r)).
Definition by_idempotency (db : Db) (key : string) : StoreResult (option (StoredIntent D)) :=
  stored db (head (select (λ _ r, (i_idempotency_key r =? key)%string) (intents db))).
Definition by_client_order_id (db : Db) (key : string) : StoreResult (option (StoredIntent D)) :=
  stored db (head (select (λ _ r, (i_client_order_id r =? key)%string) (intents db))).
Definition by_exchange_order_id (db : Db) (key : string) : StoreResult (option (StoredIntent D)) :=
  stored db (head (select (λ _ r, opt_eqb (i_exchange_order_id r) (Some key)) (intents db))).

Definition require_intent (db : Db) (id : string) : StoreResult (StoredIntent D) :=
  i ← intent db id; ok_or (Invalid "INTENT_MISSING") i.

(** [strategy_definition]: the version an instance is on *)
Definition strategy_definition (db : Db) (instance_id : string) : StoreResult StrategyDefinitionVersion :=
  query_row (i ← strategy_instances db !! instance_id;
             v ← definition_versions db !! (in_definition_id i, in_definition_version i);
             if (sd_parameters_digest v =? in_parameters_digest i)%string then Some v else None).

(** ** Reservation attempts *)
Definition mark_reserve_attempt (db : Db) (id key : string) (now : Z) : Db * StoreResult unit :=
  if (key =? "")%string || (512 <? String.length key)%nat
  then (db, invalid "INVALID_RESERVE_IDENTITY") else
  transaction db (
    r ← query_row (intents db !! id);
    if negb (as_str (i_state r) =? "PREPARED")%string || bool_decide (i_begin_post_at r ≠ None)
    then invalid "INVALID_RESERVE_ATTEMPT_STATE" else
    let name := "risk-reserve:" +:+ id in
    match operation_receipts db !! name with
    | Some o =>
      if negb (o_kind o =? "RISK_RESERVE_ATTEMPT")%string
         || negb (o_request_hash o =? i_request_hash r)%string
         || negb (o_result_ref o =? key)%string
      then invalid "RESERVE_ATTEMPT_IDEMPOTENCY_CONFLICT" else Ok (tt, db)
    | None =>
      ops ← insert_row name (operation_row "RISK_RESERVE_ATTEMPT" (i_request_hash r) key now)
              (operation_receipts db);
      Ok (tt, with_operations ops db)
    end).

(** ** Rejection of what was not sent *)
Definition reject_unsent_inner (db : Db) (id reason : string) (now : Z) (proven_not_reserved : bool)
    : Db * StoreResult bool :=
  if (reason =? "")%string then (db, invalid "UNSENT_REASON_REQUIRED") else
  transaction db (
    r ← query_row (intents db !! id);
    if bool_decide (i_begin_post_at r ≠ None)
    then invalid "POST_OUTCOME_REQUIRES_RECONCILIATION" else
    let first := negb (as_str (i_state r) =? "REJECTED")%string in
    db1 ← (if first then
             if negb (as_str (i_state r) =? "PREPARED")%string
                && negb (as_str (i_state r) =? "RESERVED")%string
             then invalid "INVALID_INTENT_TRANSITION" else
             let db1 := update_intent id (with_incident (Some reason) ∘ move_intent Rejected now) db in
             let db2 := set_receipt_state id "UNSENT_PENDING_CENTRAL" db1 in
             ops ← insert_row ("terminal:" +:+ id)
                     (operation_row "REJECTED_UNSENT" (i_request_hash r) reason now)
                     (operation_receipts db2);
             Ok (with_operations ops db2)
           else Ok db);
    db2 ← (if proven_not_reserved then
             let original := operation_receipts db1 !! ("terminal:" +:+ id) in
             if match original with
                | None => true
                | Some o => negb (o_kind o =? "REJECTED_UNSENT")%string
                            || negb (o_request_hash o =? i_request_hash r)%string
                end
             then invalid "UNSENT_TERMINAL_RECEIPT_MISSING" else
             let operation := "risk-reserve:" +:+ id in
             match operation_receipts db1 !! operation with
             | Some o =>
               if (o_kind o =? "RISK_RESERVE_ATTEMPT")%string
                  || (o_kind o =? "RISK_RESERVE_DENIED")%string
               then Ok (with_operations
                          (<[operation := with_kind "RISK_RESERVE_DENIED" o]> (operation_receipts db1))
                          db1)
               else invalid "RESERVE_ATTEMPT_MARKER_MISSING"
             | None => invalid "RESERVE_ATTEMPT_MARKER_MISSING"
             end
           else Ok db1);
    Ok (first, db2)).

Definition reject_unsent (db : Db) (id reason : string) (now : Z) : Db * StoreResult bool :=
  reject_unsent_inner db id reason now false.
Definition reject_denied_reserve (db : Db) (id reason : string) (now : Z) : Db * StoreResult unit :=
  let '(db', r) := reject_unsent_inner db id reason now true in (db', _ ← r; Ok tt).

(** ** Proofs that nothing was sent *)
Definition declined_reserve (db : Db) (id : string) : bool :=
  match intents db !! id, operation_receipts db !! ("risk-reserve:" +:+ id),
        operation_receipts db !! ("terminal:" +:+ id) with
  | Some i, Some o, Some t =>
    (as_str (i_state i) =? "REJECTED")%string && bool_decide (i_begin_post_at i = None)
    && (o_kind o =? "RISK_RESERVE_DENIED")%string
    && (o_request_hash o =? i_request_hash i)%string
    && (o_kind t =? "REJECTED_UNSENT")%string && (o_request_hash t =? i_request_hash i)%string
  | _, _, _ => false
  end.

Definition receipt_of (db : Db) (id : string) : option (string * ReceiptRow) :=
  head (select (λ _ r, (r_intent_id r =? id)%string) (risk_receipts db)).

Definition unsent_before_reserve (db : Db) (id : string) : bool :=
  match intents db !! id, operation_receipts db !! ("terminal:" +:+ id) with
  | Some i, Some t =>
    (as_str (i_state i) =? "REJECTED")%string && bool_decide (i_begin_post_at i = None)
    && bool_decide (i_exchange_order_id i = None)
    && (o_kind t =? "REJECTED_UNSENT")%string && (o_request_hash t =? i_request_hash i)%string
    && opt_eqb (Some (o_result_ref t)) (i_incident i)
    && match receipt_of db id with None => true | Some _ => false end
    && match operation_receipts db !! ("risk-reserve:" +:+ id) with None => true | Some _ => false end
  | _, _ => false
  end.

Definition unsent_release_receipt (db : Db) (id : string) : option UnsentSqlReceipt :=
  i ← intents db !! id;
  o ← operation_receipts db !! ("terminal:" +:+ id);
  let r := receipt_of db id in
  let a := (a ← operation_receipts db !! ("risk-reserve:" +:+ id);
            if (o_kind a =? "RISK_RESERVE_ATTEMPT")%string
               && (o_request_hash a =? i_request_hash i)%string then Some a else None) in
  let eligible := match r, a with
                  | Some (_, r), _ => (r_state r =? "UNSENT_PENDING_CENTRAL")%string
                                      || (r_state r =? "RELEASED")%string
                  | None, Some _ => true
                  | None, None => false
                  end in
  incident ← i_incident i;
  if (as_str (i_state i) =? "REJECTED")%string && bool_decide (i_begin_post_at i = None)
     && bool_decide (i_exchange_order_id i = None) && eligible
     && (o_kind o =? "REJECTED_UNSENT")%string && (o_request_hash o =? i_request_hash i)%string
     && (o_result_ref o =? incident)%string
  then
    reservation_key ← (match r, a with
                       | Some (key, _), _ => Some key
                       | None, Some a => Some (o_result_ref a)
                       | None, None => None
                       end);
    Some {| us_reservation_key := reservation_key;
            us_account_key := match r with
                              | Some (_, r) => r_account_key r
                              | None => meta_account_key (meta db)
                              end;
            us_intent_id := id; us_plan_hash := i_plan_hash i;
            us_request_hash := i_request_hash i; us_reason := incident |}
  else None.

(** ** Releases *)
Definition acknowledge_central_release (db : Db) (key evidence : string) (wall : Z) : Db * StoreResult unit :=
  if (evidence =? "")%string then (db, invalid "CENTRAL_RELEASE_EVIDENCE_REQUIRED") else
  transaction db (
    hash ← query_row (match risk_receipts db !! key with
                      | Some r => Some (r_receipt_hash r)
                      | None => o ← head (select (λ _ o, (o_kind o =? "RISK_RESERVE_ATTEMPT")%string
                                                         && (o_result_ref o =? key)%string)
                                                 (operation_receipts db));
                                Some (o_request_hash o.2)
                      end);
    let db1 := with_receipts (alter (with_receipt_state "RELEASED") key (risk_receipts db)) db in
    Ok (tt, with_operations (insert_or_ignore ("central-release:" +:+ key)
                               (operation_row "CENTRAL_RELEASE" hash evidence wall)
                               (operation_receipts db1)) db1)).

Definition central_receipt (db : Db) (id : string) : StoreResult (option (CentralReceipt D)) :=
  match receipt_of db id with
  | None => Ok None
  | Some (key, r) =>
    amount ← decimal (r_requested_loss_usd r);
    Ok (Some {| cr_reservation_key := key; cr_account_key := r_account_key r;
                cr_installation_id := r_installation_id r; cr_instance_id := r_instance_id r;
                cr_intent_id := id; cr_plan_hash := r_plan_hash r;
                cr_policy_revision := r_policy_revision r; cr_receipt_hash := r_receipt_hash r;
                cr_requested_loss_usd := amount; cr_conversion_digest := r_conversion_digest r |})
  end.

(** ** Preparing an intent *)
Definition find_decision (db : Db) (id : string) : option Decision :=
  List.find (λ d, (dn_decision_id d =? id)%string) (decisions db).

Definition insert_decision (d : Decision) (db : Db) : StoreResult Db :=
  _ ← constraint (match find_decision db (dn_decision_id d) with None => true | Some _ => false end
                  && match dn_instance_id d with
                     | None => true
                     | Some i => match strategy_instances db !! i with Some _ => true | None => false end
                     end);
  Ok (with_decisions (decisions db ++ [d]) db).

Definition insert_intent (id : string) (r : IntentRow) (db : Db) : StoreResult Db :=
  _ ← constraint (negb (exists_row (λ _ r', (i_idempotency_key r' =? i_idempotency_key r)%string
                                      || (i_client_order_id r' =? i_client_order_id r)%string)
                         (intents db))
                  && match find_decision db (i_decision_id r) with Some _ => true | None => false end);
  m ← insert_row id r (intents db); Ok (with_intents m db).

Definition insert_plan (id : string) (p : PlanRow) (db : Db) : StoreResult Db :=
  _ ← constraint (match intents db !! id with Some _ => true | None => false end
                  && match definition_versions db !!
                            (p_strategy_definition_id p, p_strategy_definition_version p) with
                     | Some v => (sd_parameters_digest v =? p_strategy_parameters_digest p)%string
                     | None => false
                     end);
  m ← insert_row id p (intent_plans db); Ok (with_plans m db).

Definition new_intent_row (dn : Decision) (ni : NewIntent D) : IntentRow := {|
  i_idempotency_key := ni_idempotency_key ni; i_request_hash := ni_request_hash ni;
  i_decision_id := dn_decision_id dn; i_state := Prepared; i_revision := 0;
  i_client_order_id := ni_client_order_id ni; i_deadline := ni_deadline ni;
  i_plan_hash := ni_plan_hash ni; i_policy_revision := ni_policy_revision ni;
  i_risk_increase := ni_risk_increase ni; i_instrument_id := ni_instrument_id ni;
  i_created_at := dn_decision_at dn; i_updated_at := dn_decision_at dn;
  i_begin_post_at := None; i_exchange_order_id := None; i_incident := None |}.

Definition plan_row (p : IntentPlan D) : PlanRow := {|
  p_operation := ip_operation p; p_side := ip_side p; p_quantity := exact (ip_quantity p);
  p_limit_price := exact (ip_limit_price p); p_stop_price := exact <$> ip_stop_price p;
  p_strategy_instance := ip_strategy_instance p;
  p_planned_loss_usd := exact (ip_planned_loss_usd p);
  p_source_generation := ip_source_generation p; p_position_side := ip_position_side p;
  p_private_source_generation := ip_private_source_generation p;
  p_contract_value := exact (ip_contract_value p); p_inverse := ip_inverse p;
  p_settlement_currency := ip_settlement_currency p;
  p_strategy_definition_id := ip_strategy_definition_id p;
  p_strategy_definition_version := ip_strategy_definition_version p;
  p_strategy_parameters_digest := ip_strategy_parameters_digest p |}.

Definition is_none {A} (o : option A) : bool := match o with None => true | Some _ => false end.

(** The decision a strategy has already claimed, or the one a manual command brings *)
Definition bind_decision (db : Db) (dn : Decision) (claimed_strategy : bool) : StoreResult Db :=
  if claimed_strategy then
    prior ← ok_or (Invalid "STRATEGY_CLAIM_MISSING") (find_decision db (dn_decision_id dn));
    if negb (opt_eqb (dn_instance_id prior) (dn_instance_id dn))
       || negb (dn_input_digest prior =? dn_input_digest dn)%string
       || negb (dn_policy_revision prior =? dn_policy_revision dn)
    then invalid "STRATEGY_CLAIM_MISMATCH" else
    if exists_row (λ _ r, (i_decision_id r =? dn_decision_id dn)%string) (intents db)
    then invalid "STRATEGY_DECISION_ALREADY_BOUND" else Ok db
  else insert_decision dn db.

Definition starts_with (p s : string) : bool := String.prefix p s.

Definition invalid_plan (p : IntentPlan D) : bool :=
  dec_leb (ip_quantity p) dec_zero || dec_leb (ip_limit_price p) dec_zero
  || dec_ltb (ip_planned_loss_usd p) dec_zero
  || negb ((ip_side p =? "buy")%string || (ip_side p =? "sell")%string)
  || match ip_stop_price p with Some s => dec_leb s dec_zero | None => false end.

Definition prepare (db : Db) (dn : Decision) (ni : NewIntent D) : Db * StoreResult (StoredIntent D) :=
  let p := ni_plan ni in
  if dec_leb (ip_contract_value p) dec_zero || (ip_settlement_currency p =? "")%string
     || negb ((ip_position_side p =? "long")%string || (ip_position_side p =? "short")%string)
  then (db, invalid "INVALID_CONTRACT_MECHANICS") else
  match by_idempotency db (ni_idempotency_key ni) with
  | Err e => (db, Err e)
  | Ok (Some existing) =>
    if negb (si_request_hash existing =? ni_request_hash ni)%string
    then (db, invalid "IDEMPOTENCY_CONFLICT") else (db, Ok existing)
  | Ok None =>
    if (ni_deadline ni <=? dn_decision_at dn) || negb (ni_policy_revision ni =? dn_policy_revision dn)
    then (db, invalid "INVALID_INTENT_DEADLINE_OR_POLICY") else
    if invalid_plan p then (db, invalid "INVALID_INTENT_PLAN") else
    match strategy_definition db (ip_strategy_instance p) with
    | Err e => (db, Err e)
    | Ok definition =>
      if negb (sd_definition_id definition =? ip_strategy_definition_id p)%string
         || negb (sd_version definition =? ip_strategy_definition_version p)%string
         || negb (sd_parameters_digest definition =? ip_strategy_parameters_digest p)%string
      then (db, invalid "STRATEGY_VERSION_CHANGED") else
      if match dn_instance_id dn with
         | Some id => negb (id =? ip_strategy_instance p)%string | None => false end
      then (db, invalid "STRATEGY_OWNER_MISMATCH") else
      let claimed_strategy := starts_with "strategy:" (dn_decision_id dn) in
      let '(db', r) := transaction db (
        db1 ← bind_decision db dn claimed_strategy;
        db2 ← insert_intent (ni_intent_id ni) (new_intent_row dn ni) db1;
        db3 ← insert_plan (ni_intent_id ni) (plan_row p) db2;
        Ok (tt, if claimed_strategy
                then with_instances (alter (with_last_decision (Some (ni_idempotency_key ni)))
                                           (ip_strategy_instance p) (strategy_instances db3)) db3
                else db3)) in
      (db', _ ← r; require_intent db' (ni_intent_id ni))
    end
  end.

(** ** Operation receipts *)
Definition operation (db : Db) (id : string) : option OperationReceipt :=
  r ← operation_receipts db !! id;
  Some {| or_operation_id := id; or_kind := o_kind r; or_request_hash := o_request_hash r;
          or_result_ref := o_result_ref r; or_committed_at := o_committed_at r |}.

Definition begin_operation (db : Db) (id hash kind : string) (now : Z) : Db * StoreResult bool :=
  match operation db id with
  | Some old =>
    if negb (or_request_hash old =? hash)%string || negb (or_kind old =? kind)%string
    then (db, invalid "IDEMPOTENCY_CONFLICT") else (db, Ok false)
  | None =>
    transaction db (
      ops ← insert_row id (operation_row kind hash "POSTING" now) (operation_receipts db);
      Ok (true, with_operations ops db))
  end.

Definition operation_receipt (db : Db) (id hash kind result : string) (now : Z)
    : Db * StoreResult OperationReceipt :=
  let conflict := match operation db id with
                  | Some old =>
                    if negb (or_request_hash old =? hash)%string || negb (or_kind old =? kind)%string
                    then Some "IDEMPOTENCY_CONFLICT"
                    else if negb (or_result_ref old =? "POSTING")%string
                            && negb (or_result_ref old =? result)%string
                    then Some "OPERATION_RESULT_CONFLICT" else None
                  | None => None
                  end in
  match conflict with
  | Some code => (db, invalid code)
  | None =>
    let row := match operation_receipts db !! id with
               | Some o => operation_row (o_kind o) (o_request_hash o) result now
               | None => operation_row kind hash result now
               end in
    let db' := with_operations (<[id := row]> (operation_receipts db)) db in
    (db', ok_or (Invalid "OPERATION_MISSING") (operation db' id))
  end.

(** ** Reserving and posting *)
Definition receipt_row (c : CentralReceipt D) : ReceiptRow := {|
  r_intent_id := cr_intent_id c; r_account_key := cr_account_key c;
  r_installation_id := cr_installation_id c; r_instance_id := cr_instance_id c;
  r_plan_hash := cr_plan_hash c; r_policy_revision := cr_policy_revision c;
  r_receipt_hash := cr_receipt_hash c; r_requested_loss_usd := exact (cr_requested_loss_usd c);
  r_conversion_digest := cr_conversion_digest c; r_state := "HELD" |}.

Definition insert_receipt (key : string) (r : ReceiptRow) (db : Db) : StoreResult Db :=
  _ ← constraint (is_none (receipt_of db (r_intent_id r))
                  && negb (is_none (intents db !! r_intent_id r)));
  m ← insert_row key r (risk_receipts db); Ok (with_receipts m db).

Definition reserve (db : Db) (c : CentralReceipt D) (now : Z) : Db * StoreResult unit :=
  match require_intent db (cr_intent_id c) with
  | Err e => (db, Err e)
  | Ok i =>
    if negb (cr_account_key c =? meta_account_key (meta db))%string
       || negb (cr_installation_id c =? meta_installation_id (meta db))%string
       || negb (cr_plan_hash c =? si_plan_hash i)%string
       || negb (cr_policy_revision c =? si_policy_revision i)
       || (cr_receipt_hash c =? "")%string || dec_ltb (cr_requested_loss_usd c) dec_zero
       || (cr_conversion_digest c =? "")%string
    then (db, invalid "CENTRAL_RECEIPT_MISMATCH") else
    if decide (si_state i = Reserved) then
      (db, saved ← query_row (r_receipt_hash <$> risk_receipts db !! cr_reservation_key c);
           if (saved =? cr_receipt_hash c)%string then Ok tt
           else invalid "CENTRAL_RECEIPT_CONFLICT")
    else if decide (si_state i ≠ Prepared) then (db, invalid "INVALID_INTENT_TRANSITION") else
    match query_row (r ← intents db !! si_intent_id i; dn_instance_id <$> find_decision db (i_decision_id r)) with
    | Err e => (db, Err e)
    | Ok owner =>
      if negb (opt_eqb owner (cr_instance_id c)) then (db, invalid "CENTRAL_INSTANCE_MISMATCH") else
      transaction db (
        db1 ← insert_receipt (cr_reservation_key c) (receipt_row c) db;
        Ok (tt, update_intent (si_intent_id i)
                  (λ r, if decide (i_state r = Prepared) then move_intent Reserved now r else r) db1))
    end
  end.

Definition unresolved_stop (s : StopRow) : bool := is_none (stop_resolution s).

(** The strategy of the plan is still the one it was planned for, and enabled. *)
Definition strategy_unchanged (db : Db) (id : string) : bool :=
  match intent_plans db !! id with
  | None => false
  | Some p =>
    match strategy_instances db !! p_strategy_instance p with
    | None => false
    | Some i => (in_definition_id i =? p_strategy_definition_id p)%string
                && (in_definition_version i =? p_strategy_definition_version p)%string
                && (in_parameters_digest i =? p_strategy_parameters_digest p)%string
                && (in_enabled i || (p_strategy_instance p =? "manual")%string)
    end
  end.

Definition outcome_unknown (s : IntentState) : bool :=
  match s with Posting | Unknown => true | _ => false end.

Definition begin_post (db : Db) (id : string) (policy_revision now : Z) : Db * StoreResult bool :=
  transaction db (
    r ← query_row (intents db !! id);
    if negb (as_str (i_state r) =? "RESERVED")%string then Ok (false, db) else
    if i_deadline r <=? now then invalid "COMMAND_EXPIRED" else
    let current := pol_revision (account_policy db) in
    let paused := pol_paused (account_policy db) in
    if negb (i_policy_revision r =? policy_revision) || negb (current =? i_policy_revision r)
    then invalid "POLICY_CHANGED" else
    let increase := i_risk_increase r in
    if increase && negb (strategy_unchanged db id) then invalid "STRATEGY_VERSION_CHANGED" else
    if increase && (paused || exists_row (λ _ s, unresolved_stop s) (risk_stops db))
    then invalid "RISK_INCREASE_STOPPED" else
    if increase && rec_requires_reconcile (storage_recovery db)
    then invalid "STORAGE_RECOVERY_INCOMPLETE" else
    if increase && exists_row (λ _ r, outcome_unknown (i_state r)) (intents db)
    then invalid "ACCOUNT_UNKNOWN_EXPOSURE" else
    let db1 := update_intent id
      (λ r, if bool_decide (i_state r = Reserved) && is_none (i_begin_post_at r)
            then with_begin_post (Some now) (move_intent Posting now r) else r) db in
    Ok (true, set_receipt_state id "POSTED" db1)).

(** ** Outcomes *)
Definition allowed_outcome (from to : IntentState) : bool :=
  match from with
  | Posting | Unknown =>
    match to with
    | Unknown | Acknowledged | PartiallyFilled | Filled | Cancelled | Rejected => true
    | _ => false end
  | Acknowledged =>
    match to with Acknowledged | PartiallyFilled | Filled | Cancelled => true | _ => false end
  | PartiallyFilled =>
    match to with PartiallyFilled | Filled | Cancelled => true | _ => false end
  | _ => bool_decide (from = to)
  end.

Definition receipt_after (increase : bool) (state : IntentState) : string :=
  if decide (state = Unknown) then "UNKNOWN"
  else if increase && (bool_decide (state = Filled) || bool_decide (state = PartiallyFilled)) then "OPEN"
  else if terminal state then "TERMINAL_PENDING_CENTRAL" else "OPEN".

Definition record_outcome (db : Db) (id : string) (state : IntentState)
    (exchange_order_id : option string) (evidence : string) (now : Z) : Db * StoreResult unit :=
  match require_intent db id with
  | Err e => (db, Err e)
  | Ok i =>
    if negb (allowed_outcome (si_state i) state) || (evidence =? "")%string
    then (db, invalid "INVALID_INTENT_TRANSITION") else
    if match si_exchange_order_id i with
       | Some old => negb (opt_eqb (Some old) exchange_order_id) | None => false end
    then (db, invalid "EXCHANGE_ID_CONFLICT") else
    transaction db (
      let coalesce r := match i_exchange_order_id r with
                        | Some e => Some e | None => exchange_order_id end in
      let db1 := update_intent id (λ r, with_exchange (coalesce r) (move_intent state now r)) db in
      let db2 := set_receipt_state id (receipt_after (si_risk_increase i) state) db1 in
      Ok (tt, if terminal state
              then with_operations (insert_or_ignore ("terminal:" +:+ id)
                     (operation_row "TERMINAL" (si_request_hash i) evidence now)
                     (operation_receipts db2)) db2
              else db2))
  end.

Definition recover_posting (db : Db) (now : Z) : Db * StoreResult nat :=
  transaction db (
    let n := length (select (λ _ r, bool_decide (i_state r = Posting)) (intents db)) in
    let db1 := with_intents (update_where (λ r, bool_decide (i_state r = Posting))
                                          (move_intent Unknown now) (intents db)) db in
    let unknown id := match intents db1 !! id with
                      | Some r => bool_decide (i_state r = Unknown) | None => false end in
    Ok (n, with_receipts (update_where (λ r, unknown (r_intent_id r))
                                       (with_receipt_state "UNKNOWN") (risk_receipts db1)) db1)).

(** ** Stops, policy and recovery *)
Definition stop_row (scope reason : string) (now : Z) : StopRow :=
  {| stop_scope := scope; stop_reason := reason; stop_latched_at := now; stop_resolution := None |}.

Definition latch_stop (db : Db) (id scope reason : string) (now : Z) : Db * StoreResult unit :=
  (with_stops (insert_or_ignore id (stop_row scope reason now) (risk_stops db)) db, Ok tt).

Definition resolve_stop (db : Db) (id evidence : string) : Db * StoreResult unit :=
  if (evidence =? "")%string then (db, invalid "STOP_RESOLUTION_EVIDENCE_REQUIRED") else
  let resolve s := if unresolved_stop s
                   then {| stop_scope := stop_scope s; stop_reason := stop_reason s;
                           stop_latched_at := stop_latched_at s; stop_resolution := Some evidence |}
                   else s in
  (with_stops (alter resolve id (risk_stops db)) db, Ok tt).

Definition protection_incident (db : Db) (id reason : string) (now : Z) : Db * StoreResult unit :=
  transaction db (
    let db1 := update_intent id
      (λ r, with_incident (Some reason) (move_intent (i_state r) now r)) db in
    Ok (tt, with_stops (insert_or_ignore ("protection:" +:+ id) (stop_row "account" reason now)
                          (risk_stops db1)) db1)).

Definition policy (db : Db) : StoreResult (Z * bool * string * D * D) :=
  let p := account_policy db in
  limit ← decimal (pol_campaign_limit p);
  loss ← decimal (pol_campaign_loss p);
  Ok (pol_revision p, pol_paused p, pol_campaign_id p, limit, loss).

Definition apply_authority_policy (db : Db) (revision : Z) (paused : bool) (campaign_id : string)
    (limit : D) : Db * StoreResult unit :=
  if (revision <? 0) || (campaign_id =? "")%string || dec_ltb limit dec_zero
  then (db, invalid "INVALID_AUTHORITY_POLICY") else
  match policy db with
  | Err e => (db, Err e)
  | Ok (old, old_paused, old_id, old_limit, _) =>
    if revision <? old then (db, invalid "POLICY_REVISION_CONFLICT") else
    if (revision =? old) && negb (old_id =? "unconfigured")%string then
      if negb (Bool.eqb old_paused paused) || negb (old_id =? campaign_id)%string
         || negb (dec_eqb old_limit limit)
      then (db, invalid "POLICY_REVISION_CONFLICT") else (db, Ok tt)
    else if negb (old_id =? "unconfigured")%string && negb (old_id =? campaign_id)%string
    then (db, invalid "CAMPAIGN_ID_IMMUTABLE") else
    (with_policy {| pol_revision := revision; pol_paused := paused; pol_campaign_id := campaign_id;
                    pol_campaign_limit := exact limit;
                    pol_campaign_loss := pol_campaign_loss (account_policy db) |} db, Ok tt)
  end.

Definition mark_storage_reconciled (db : Db) (observed_at : Z) (exchange_evidence central_evidence : string)
    : Db * StoreResult unit :=
  if (exchange_evidence =? "")%string || (central_evidence =? "")%string
  then (db, invalid "STORAGE_RECOVERY_INCOMPLETE") else
  let r := storage_recovery db in
  if match rec_backup_at r with None => true | Some t => t <=? observed_at end
  then (with_recovery {| rec_requires_reconcile := false; rec_backup_at := rec_backup_at r;
                         rec_reconciled_evidence :=
                           Some (exchange_evidence +:+ "|" +:+ central_evidence) |} db, Ok tt)
  else (db, invalid "STORAGE_RECOVERY_INCOMPLETE").

(** ** Order readback: the order row is written first, on its own *)
Definition record_order_readback (db : Db) (id order_id : string) (state : IntentState)
    (cumulative_fill : D) (now : Z) : Db * StoreResult unit :=
  match require_intent db id with
  | Err e => (db, Err e)
  | Ok i =>
    if dec_ltb cumulative_fill dec_zero || dec_ltb (ip_quantity (si_plan i)) cumulative_fill
       || (order_id =? "")%string
    then (db, invalid "ORDER_READBACK_INVALID") else
    let row old := {|
      ord_exchange_order_id := ord_exchange_order_id old; ord_intent_id := ord_intent_id old;
      ord_client_order_id := ord_client_order_id old; ord_protection_id := ord_protection_id old;
      ord_filled_qty := exact cumulative_fill; ord_state := state |} in
    let fresh := {|
      ord_exchange_order_id := Some order_id; ord_intent_id := Some id;
      ord_client_order_id := si_client_order_id i; ord_protection_id := None;
      ord_filled_qty := exact cumulative_fill; ord_state := state |} in
    let upserted :=
      match orders db !! order_id with
      | Some old => if opt_eqb (ord_intent_id old) (Some id)
                       && (ord_client_order_id old =? si_client_order_id i)%string
                    then Ok (<[order_id := row old]> (orders db)) else Ok (orders db)
      | None =>
        _ ← constraint (negb (exists_row (λ _ o, opt_eqb (ord_exchange_order_id o) (Some order_id))
                                         (orders db)));
        Ok (<[order_id := fresh]> (orders db))
      end in
    match upserted with
    | Err e => (db, Err e)
    | Ok m => record_outcome (with_orders m db) id state (Some order_id)
                "authenticated-order-readback" now
    end
  end.

(** ** Strategy claims: [projections.rs] *)
Definition claim_matches (base id : string) : bool :=
  (id =? base)%string
  || (match str_cmp (base +:+ ":retry:") id with Gt => false | _ => true end
      && match str_cmp id (base +:+ ":retry;") with Lt => true | _ => false end).

(** The row of the greatest rowid among those of the claim, with its rowid *)
Fixpoint last_claim (base : string) (rowid : Z) (l : list Decision) : option (Decision * Z) :=
  match l with
  | [] => None
  | d :: l' =>
    match last_claim base (rowid + 1) l' with
    | Some c => Some c
    | None => if claim_matches base (dn_decision_id d) then Some (d, rowid) else None
    end
  end.
Definition latest_strategy_claim (db : Db) (base : string) : option (Decision * Z) :=
  last_claim base 1 (decisions db).

Definition claim_base (instance_id version decision_key : string) : string :=
  "strategy:" +:+ instance_id +:+ ":" +:+ version +:+ ":" +:+ decision_key.

Definition strategy_decision (id instance_id digest code : string) (revision now : Z) : Decision := {|
  dn_decision_id := id; dn_instance_id := Some instance_id; dn_decision_at := now;
  dn_input_digest := digest; dn_policy_revision := revision; dn_code_version := code |}.

Definition claim_strategy_decision_with_id (db : Db) (instance_id decision_key input_digest : string)
    (policy_revision now : Z) : Db * StoreResult (option string) :=
  if policy_revision <? 1 then (db, invalid "STRATEGY_POLICY_REVISION_INVALID") else
  match strategy_definition db instance_id with
  | Err e => (db, Err e)
  | Ok definition =>
    let base := claim_base instance_id (sd_version definition) decision_key in
    transaction db (
      i ← query_row (strategy_instances db !! instance_id);
      if negb (in_enabled i) then invalid "STRATEGY_STOPPED" else
      match latest_strategy_claim db base with
      | Some (prior, prior_row) =>
        if negb (dn_input_digest prior =? input_digest)%string
        then invalid "STRATEGY_DECISION_INPUT_CONFLICT" else
        if exists_row (λ _ r, (i_idempotency_key r =? decision_key)%string) (intents db)
           || negb (is_none (operation_receipts db !! ("strategy-no-trade:" +:+ dn_decision_id prior)))
        then Ok (None, db) else
        if dn_policy_revision prior =? policy_revision then Ok (Some (dn_decision_id prior), db) else
        if policy_revision <? dn_policy_revision prior
        then invalid "STRATEGY_POLICY_REVISION_REGRESSION" else
        let successor := base +:+ ":retry:" +:+ pretty prior_row
                         +:+ ":policy:" +:+ pretty policy_revision in
        db1 ← insert_decision (strategy_decision successor instance_id input_digest
                                 "strategy-bar/policy-retry-v1" policy_revision now) db;
        ops ← insert_row ("strategy-policy-retry:" +:+ dn_decision_id prior)
                (operation_row "strategy_policy_retry" input_digest successor now)
                (operation_receipts db1);
        Ok (Some successor, with_operations ops db1)
      | None =>
        db1 ← insert_decision (strategy_decision base instance_id input_digest "strategy-bar/v1"
                                 policy_revision now) db;
        Ok (Some base, db1)
      end)
  end.

Definition claim_strategy_decision (db : Db) (instance_id decision_key input_digest : string)
    (policy_revision now : Z) : Db * StoreResult bool :=
  let '(db', r) := claim_strategy_decision_with_id db instance_id decision_key input_digest
                     policy_revision now in
  (db', o ← r; Ok (negb (is_none o))).

Definition finish_strategy_no_trade (db : Db) (instance_id decision_key : string) (now : Z)
    : Db * StoreResult unit :=
  match strategy_definition db instance_id with
  | Err e => (db, Err e)
  | Ok definition =>
    let base := claim_base instance_id (sd_version definition) decision_key in
    transaction db (
      c ← ok_or (Invalid "STRATEGY_CLAIM_MISSING") (latest_strategy_claim db base);
      if exists_row (λ _ r, (i_idempotency_key r =? decision_key)%string) (intents db)
      then invalid "STRATEGY_ALREADY_HAS_INTENT" else
      let db1 := with_operations
        (insert_or_ignore ("strategy-no-trade:" +:+ dn_decision_id c.1)
           (operation_row "strategy_no_trade" (dn_input_digest c.1) "NO_TRADE" now)
           (operation_receipts db)) db in
      Ok (tt, with_instances (alter (with_last_decision (Some decision_key)) instance_id
                                    (strategy_instances db1)) db1))
  end.

(** ** The calls of the store that write these tables *)
Inductive Call : Type :=
| Prepare (dn : Decision) (ni : NewIntent D)
| MarkReserveAttempt (id key : string) (now : Z)
| RejectUnsent (id reason : string) (now : Z)
| RejectDeniedReserve (id reason : string) (now : Z)
| AcknowledgeCentralRelease (key evidence : string) (wall : Z)
| Reserve (c : CentralReceipt D) (now : Z)
| BeginPost (id : string) (policy_revision now : Z)
| RecordOutcome (id : string) (state : IntentState) (exchange_order_id : option string)
    (evidence : string) (now : Z)
| RecordOrderReadback (id order_id : string) (state : IntentState) (cumulative_fill : D) (now : Z)
| RecoverPosting (now : Z)
| ProtectionIncident (id reason : string) (now : Z)
| BeginOperation (id hash kind : string) (now : Z)
| OperationResult (id hash kind result : string) (now : Z)
| LatchStop (id scope reason : string) (now : Z)
| ResolveStop (id evidence : string)
| ApplyAuthorityPolicy (revision : Z) (paused : bool) (campaign_id : string) (limit : D)
| MarkStorageReconciled (observed_at : Z) (exchange_evidence central_evidence : string)
| ClaimStrategyDecision (instance_id decision_key input_digest : string) (revision now : Z)
| FinishStrategyNoTrade (instance_id decision_key : string) (now : Z).

(** The database a call leaves behind *)
Definition after (c : Call) (db : Db) : Db :=
  match c with
  | Prepare dn ni => (prepare db dn ni).1
  | MarkReserveAttempt id key now => (mark_reserve_attempt db id key now).1
  | RejectUnsent id reason now => (reject_unsent db id reason now).1
  | RejectDeniedReserve id reason now => (reject_denied_reserve db id reason now).1
  | AcknowledgeCentralRelease key evidence wall => (acknowledge_central_release db key evidence wall).1
  | Reserve c now => (reserve db c now).1
  | BeginPost id revision now => (begin_post db id revision now).1
  | RecordOutcome id state exch evidence now => (record_outcome db id state exch evidence now).1
  | RecordOrderReadback id order state fill now => (record_order_readback db id order state fill now).1
  | RecoverPosting now => (recover_posting db now).1
  | ProtectionIncident id reason now => (protection_incident db id reason now).1
  | BeginOperation id hash kind now => (begin_operation db id hash kind now).1
  | OperationResult id hash kind result now => (operation_receipt db id hash kind result now).1
  | LatchStop id scope reason now => (latch_stop db id scope reason now).1
  | ResolveStop id evidence => (resolve_stop db id evidence).1
  | ApplyAuthorityPolicy revision paused campaign limit =>
    (apply_authority_policy db revision paused campaign limit).1
  | MarkStorageReconciled at_ exchange central => (mark_storage_reconciled db at_ exchange central).1
  | ClaimStrategyDecision i key digest revision now =>
    (claim_strategy_decision db i key digest revision now).1
  | FinishStrategyNoTrade i key now => (finish_strategy_no_trade db i key now).1
  end.

(** ** Listings *)
Definition active (s : IntentState) : bool :=
  match s with
  | Prepared | Reserved | Posting | Unknown | Acknowledged | PartiallyFilled => true
  | Filled | Cancelled | Rejected => false
  end.

(** [ORDER BY state, updated_at, intent_id] *)
Definition active_cmp (a b : string * IntentRow) : comparison :=
  then_with (str_cmp (as_str (i_state a.2)) (as_str (i_state b.2)))
    (then_with (Z.compare (i_updated_at a.2) (i_updated_at b.2)) (str_cmp a.1 b.1)).

Definition active_intents (db : Db) (limit : nat) : StoreResult (list (StoredIntent D)) :=
  try_map (λ kr, require_intent db kr.1)
    (take (limit `min` 1000) (sort_by active_cmp (select (λ _ r, active (i_state r)) (intents db)))).

Definition open_receipt (r : ReceiptRow) : bool :=
  existsb (λ s, (r_state r =? s)%string)
    ["HELD"; "POSTED"; "UNKNOWN"; "OPEN"; "TERMINAL_PENDING_CENTRAL"; "UNSENT_PENDING_CENTRAL"].

(** The priority of an intent in the reconciliation queue: the least of the priorities of
    the three queries that select it *)
Definition reconcile_priority (db : Db) (wall : Z) (id : string) (r : IntentRow) : option nat :=
  let receipt := snd <$> receipt_of db id in
  let attempt := operation_receipts db !! ("risk-reserve:" +:+ id) in
  let from_receipt := c ← receipt;
    if open_receipt c
    then Some (if (r_state c =? "UNSENT_PENDING_CENTRAL")%string then 0%nat else 3%nat) else None in
  let from_attempt := o ← attempt;
    if (o_kind o =? "RISK_RESERVE_ATTEMPT")%string && (o_request_hash o =? i_request_hash r)%string
       && (bool_decide (i_state r = Prepared) || bool_decide (i_state r = Rejected))
       && is_none receipt
       && match operation_receipts db !! ("central-release:" +:+ o_result_ref o) with
          | Some ack => negb (o_kind ack =? "CENTRAL_RELEASE")%string | None => true end
    then Some 1%nat else None in
  let expired := if bool_decide (i_state r = Prepared) && (i_deadline r <=? wall)
                    && is_none receipt && is_none attempt then Some 2%nat else None in
  match from_receipt, from_attempt, expired with
  | None, None, p => p
  | None, Some p, None => Some p
  | None, Some p, Some q => Some (p `min` q)%nat
  | Some p, None, None => Some p
  | Some p, Some q, None | Some p, None, Some q => Some (p `min` q)%nat
  | Some p, Some q, Some s => Some (p `min` (q `min` s))%nat
  end.

Definition queue_cmp (a b : nat * string) : comparison :=
  then_with (Nat.compare a.1 b.1) (str_cmp a.2 b.2).

Definition reconcile_queue (db : Db) (wall : Z) : list (nat * string) :=
  sort_by queue_cmp
    (omap (λ kr : string * IntentRow, p ← reconcile_priority db wall kr.1 kr.2; Some (p, kr.1))
          (map_to_list (intents db))).

Definition reconcilable_intents_page (db : Db) (limit offset : nat) (wall : Z)
    : StoreResult (list (StoredIntent D)) :=
  if (limit =? 0)%nat then Ok [] else
  try_map (λ p, require_intent db p.2)
    (take (limit `min` 100) (drop (offset `min` 100000) (reconcile_queue db wall))).
End intents.
Arguments Call D : clear implicits.
