(* ===== verification/IntentSafety.v ===== *)
(** * IntentSafety: what the order ledger guarantees over its whole life

    [step] runs the calls of the store in any order; a call may also be lost by its
    caller (a crash or an interruption), before or after its commit, and the other
    writers of the database change other tables.  [Posted id] marks a [begin_post] that
    answered true to its caller, which is the only permission to send an order. *)
From stdpp Require Import base option list numbers strings gmap sets.
From Stdlib Require Import ZArith Lia.
From S2P Require Import Prelude Text Ordered External Decimals Ledger Intents.
Local Open Scope string_scope.
Local Open Scope list_scope.
Local Open Scope Z_scope.

(** ** What can happen to a row *)

(** A central grant for this intent, with its plan and policy *)
Definition granted (db : Db) (id : string) (r : IntentRow) : Prop :=
  ∃ key c, risk_receipts db !! key = Some c ∧ r_intent_id c = id
    ∧ r_plan_hash c = i_plan_hash r ∧ r_policy_revision c = i_policy_revision r
    ∧ r_account_key c = meta_account_key (meta db)
    ∧ r_installation_id c = meta_installation_id (meta db).

Inductive move (p : option string) (db' : Db) (id : string) : IntentRow → IntentRow → Prop :=
| move_stay r : move p db' id r r
| move_reject r reason now :
    i_begin_post_at r = None → i_state r = Prepared ∨ i_state r = Reserved →
    move p db' id r (with_incident (Some reason) (move_intent Rejected now r))
| move_reserve r now :
    i_state r = Prepared → granted db' id r → move p db' id r (move_intent Reserved now r)
| move_post r now :
    p = Some id → i_state r = Reserved → i_begin_post_at r = None →
    move p db' id r (with_begin_post (Some now) (move_intent Posting now r))
| move_outcome r to exch now :
    allowed_outcome (i_state r) to = true →
    (∀ e, i_exchange_order_id r = Some e → exch = Some e) →
    move p db' id r (with_exchange exch (move_intent to now r))
| move_incident r reason now :
    move p db' id r (with_incident (Some reason) (move_intent (i_state r) now r)).

Definition fresh_row (r : IntentRow) : Prop :=
  i_state r = Prepared ∧ i_begin_post_at r = None ∧ i_exchange_order_id r = None.

(** The columns of a receipt that nothing changes *)
Definition same_grant (c c' : ReceiptRow) : Prop :=
  r_intent_id c' = r_intent_id c ∧ r_plan_hash c' = r_plan_hash c
  ∧ r_policy_revision c' = r_policy_revision c ∧ r_account_key c' = r_account_key c
  ∧ r_installation_id c' = r_installation_id c.

(** A row that appears: the only one, with keys and a decision no other intent has *)
Record appears (db db' : Db) (id : string) (r : IntentRow) : Prop := {
  new_fresh : fresh_row r;
  new_only : ∀ id', intents db !! id' = None → intents db' !! id' ≠ None → id' = id;
  new_keys : ∀ k s, intents db !! k = Some s →
    i_idempotency_key s ≠ i_idempotency_key r ∧ i_client_order_id s ≠ i_client_order_id r;
  new_decision : (∀ k s, intents db !! k = Some s → find_decision db (i_decision_id s) ≠ None) →
    ∀ k s, intents db !! k = Some s → i_decision_id s ≠ i_decision_id r;
  new_decided : find_decision db' (i_decision_id r) ≠ None;
}.

Record changes (p : option string) (db db' : Db) : Prop := {
  changes_meta : meta db' = meta db;
  changes_row : ∀ id r, intents db !! id = Some r →
    ∃ r', intents db' !! id = Some r' ∧ move p db' id r r';
  changes_new : ∀ id r', intents db !! id = None → intents db' !! id = Some r' → appears db db' id r';
  changes_receipts : ∀ key c, risk_receipts db !! key = Some c →
    ∃ c', risk_receipts db' !! key = Some c' ∧ same_grant c c';
  changes_decisions : ∀ id, find_decision db id ≠ None → find_decision db' id ≠ None;
}.

Lemma same_grant_refl c : same_grant c c.
Proof. by split_and!. Qed.
Hint Resolve same_grant_refl : okx.

(** Calls that leave the intents and receipts alone *)
Lemma changes_same p db db' :
  meta db' = meta db → intents db' = intents db → risk_receipts db' = risk_receipts db →
  (∀ id, find_decision db id ≠ None → find_decision db' id ≠ None) → changes p db db'.
Proof.
  intros Hm Hi Hr Hd. split; [done|rewrite Hi|rewrite Hi|rewrite Hr|exact Hd].
  - intros id r ->. eexists. by split; [|constructor].
  - by intros id r' ->.
  - intros key c ->. eauto with okx.
Qed.

Lemma granted_mono db db' id r :
  meta db' = meta db →
  (∀ key c, risk_receipts db !! key = Some c → ∃ c', risk_receipts db' !! key = Some c' ∧ same_grant c c') →
  granted db id r → granted db' id r.
Proof.
  intros Hm Hr (key & c & Hc & Hid & Hp & Hv & Ha & Hi).
  destruct (Hr key c Hc) as (c' & Hc' & ? & ? & ? & ? & ?). exists key, c'.
  rewrite Hm. split_and!; congruence.
Qed.

Lemma receipts_update (m : gmap string ReceiptRow) P st key c :
  m !! key = Some c →
  ∃ c', update_where P (with_receipt_state st) m !! key = Some c' ∧ same_grant c c'.
Proof.
  intros Hc. unfold update_where. rewrite lookup_fmap, Hc. simpl. eexists. split; [done|].
  destruct (P c); by split_and!.
Qed.
Hint Resolve receipts_update : okx.

Lemma receipts_alter (m : gmap string ReceiptRow) k st key c :
  m !! key = Some c →
  ∃ c', alter (with_receipt_state st) k m !! key = Some c' ∧ same_grant c c'.
Proof.
  intros Hc. destruct (decide (k = key)) as [<-|Hne].
  - rewrite lookup_alter_eq, Hc. simpl. eexists. split; [done|]. by split_and!.
  - rewrite lookup_alter_ne by done. eauto with okx.
Qed.

(** One row updated *)
Lemma changes_update p db db' id f :
  meta db' = meta db → intents db' = alter f id (intents db) →
  (∀ key c, risk_receipts db !! key = Some c → ∃ c', risk_receipts db' !! key = Some c' ∧ same_grant c c') →
  (∀ r, intents db !! id = Some r → move p db' id r (f r)) →
  (∀ id, find_decision db id ≠ None → find_decision db' id ≠ None) → changes p db db'.
Proof.
  intros Hm Hi Hr Hf Hd. split; [done| | |done|done].
  - intros id' r Hr'. rewrite Hi. destruct (decide (id = id')) as [<-|Hne].
    + rewrite lookup_alter_eq, Hr'. simpl. eauto.
    + rewrite lookup_alter_ne, Hr' by done. eexists. by split; [|constructor].
  - intros id' r' Hn. rewrite Hi. destruct (decide (id = id')) as [<-|Hne].
    + by rewrite lookup_alter_eq, Hn.
    + by rewrite lookup_alter_ne, Hn by done.
Qed.

(** ** Each call *)
Section calls.
Context {D : Type} `{DecimalArith D}.

Lemma changes_refl p db : changes p db db.
Proof. by apply changes_same. Qed.
Hint Resolve changes_refl : okx.

(** A transaction changes nothing unless its body succeeds. *)
Lemma changes_transaction {A} p db (body : StoreResult (A * Db)) :
  (∀ a db', body = Ok (a, db') → changes p db db') → changes p db (transaction db body).1.
Proof. intros Hb. unfold transaction. destruct body as [[a db']|e]; simpl; eauto with okx. Qed.

Lemma mark_changes p db id key now : changes p db (mark_reserve_attempt db id key now).1.
Proof.
  unfold mark_reserve_attempt. destruct (_ || _); [apply changes_refl|].
  apply changes_transaction. intros a db' E. inv_ok E. destruct (_ || _) in E; [done|].
  destruct (operation_receipts db !! _) as [o|].
  - destruct (_ || _) in E; [done|]. injection E as _ <-. apply changes_refl.
  - inv_ok E. injection E as _ <-. by apply changes_same.
Qed.

Lemma reject_changes p db id reason now proven :
  changes p db (reject_unsent_inner db id reason now proven).1.
Proof.
  unfold reject_unsent_inner. destruct (_ =? _)%string; [apply changes_refl|].
  apply changes_transaction. intros a db' E. apply bind_ok in E as (r & Hr & E).
  apply ok_or_ok in Hr. destruct (bool_decide (i_begin_post_at r ≠ None)) eqn:Eb; [done|].
  apply bool_decide_eq_false, dec_stable in Eb.
  apply bind_ok in E as (db1 & E1 & E). apply bind_ok in E as (db2 & E2 & E). injection E as _ <-.
  assert (H12 : intents db2 = intents db1 ∧ risk_receipts db2 = risk_receipts db1 ∧ meta db2 = meta db1
                ∧ decisions db2 = decisions db1).
  { clear E1. destruct proven; [|by injection E2 as <-].
    repeat case_match; simplify_eq; done. }
  destruct H12 as (Hi2 & Hr2 & Hm2 & Hd2).
  destruct (negb (as_str (i_state r) =? "REJECTED")%string); simpl in E1.
  - destruct (negb _ && negb _) eqn:Es in E1; [done|]. inv_ok E1. injection E1 as <-.
    eapply (changes_update p db db2 id);
      [done|by rewrite Hi2|rewrite Hr2; simpl; eauto with okx| |by unfold find_decision; rewrite Hd2].
    intros r' Hr'. assert (r' = r) as -> by congruence. constructor; [done|].
    destruct (i_state r); simpl in Es; try done; auto.
  - injection E1 as <-. apply changes_same; [done|done|done|]. unfold find_decision. by rewrite Hd2.
Qed.

Lemma release_changes p db key evidence wall :
  changes p db (acknowledge_central_release db key evidence wall).1.
Proof.
  unfold acknowledge_central_release. destruct (_ =? _)%string; [apply changes_refl|].
  apply changes_transaction. intros a db' E. inv_ok E. injection E as _ <-.
  split; simpl; [done| | |intros; by eapply receipts_alter|done].
  - intros id r ->. eexists. by split; [|constructor].
  - by intros id r' ->.
Qed.

Lemma begin_operation_changes p db id hash kind now : changes p db (begin_operation db id hash kind now).1.
Proof.
  unfold begin_operation. destruct (operation db id); [destruct (_ || _); apply changes_refl|].
  apply changes_transaction. intros a db' E. inv_ok E. injection E as _ <-. by apply changes_same.
Qed.

Lemma operation_receipt_changes p db id hash kind res now :
  changes p db (operation_receipt db id hash kind res now).1.
Proof.
  unfold operation_receipt. simpl.
  case_match; [apply changes_refl|by apply changes_same].
Qed.

Lemma incident_changes p db id reason now : changes p db (protection_incident db id reason now).1.
Proof.
  unfold protection_incident. apply changes_transaction. intros a db' E. injection E as _ <-.
  eapply (changes_update p db _ id); [done|done|simpl; eauto with okx| |done]. intros r _. constructor.
Qed.

Lemma stop_changes p db id scope reason now : changes p db (latch_stop db id scope reason now).1.
Proof. by apply changes_same. Qed.
Lemma resolve_changes p db id evidence : changes p db (resolve_stop db id evidence).1.
Proof. unfold resolve_stop. destruct (_ =? _)%string; by apply changes_same. Qed.

Lemma policy_changes p db revision paused campaign (limit : D) :
  changes p db (apply_authority_policy db revision paused campaign limit).1.
Proof.
  unfold apply_authority_policy. destruct (_ || _); [apply changes_refl|].
  destruct (policy db) as [[[[[? ?] ?] ?] ?]|]; [|apply changes_refl].
  repeat case_match; first [apply changes_refl|by apply changes_same].
Qed.

Lemma reconciled_changes p db at_ e c : changes p db (mark_storage_reconciled db at_ e c).1.
Proof. unfold mark_storage_reconciled. repeat case_match; by apply changes_same. Qed.

Lemma insert_decision_same d db db' :
  insert_decision d db = Ok db' →
  find_decision db (dn_decision_id d) = None ∧ find_decision db' (dn_decision_id d) ≠ None
  ∧ (∀ id, find_decision db id ≠ None → find_decision db' id ≠ None)
  ∧ meta db' = meta db ∧ intents db' = intents db ∧ risk_receipts db' = risk_receipts db
  ∧ intent_plans db' = intent_plans db.
Proof.
  unfold insert_decision. intros E. inv_ok E. injection E as <-.
  destruct (find_decision db (dn_decision_id d)) eqn:Ef; [done|]. unfold find_decision in *. simpl.
  split_and!; [done| | |done|done|done|done].
  - rewrite find_snoc, Ef. by rewrite String.eqb_refl.
  - intros id Hid. rewrite find_snoc.
    by destruct (List.find (λ d', (dn_decision_id d' =? id)%string) (decisions db)).
Qed.

Lemma claim_changes p db i key digest revision now :
  changes p db (claim_strategy_decision db i key digest revision now).1.
Proof.
  unfold claim_strategy_decision. destruct (claim_strategy_decision_with_id _ _ _ _ _ _) as [db1 r] eqn:E.
  simpl. apply (f_equal fst) in E. simpl in E. subst db1.
  unfold claim_strategy_decision_with_id. destruct (_ <? _); [apply changes_refl|].
  destruct (strategy_definition db i) as [definition|]; [|apply changes_refl].
  apply changes_transaction. intros o db' E. inv_ok E. destruct (negb _) in E; [done|].
  destruct (latest_strategy_claim _ _) as [[prior row]|].
  - destruct (negb _) in E; [done|]. destruct (_ || _) in E; [injection E as _ <-; apply changes_refl|].
    destruct (_ =? _) in E; [injection E as _ <-; apply changes_refl|]. destruct (_ <? _) in E; [done|].
    inv_ok E. injection E as _ <-. apply insert_decision_same in Ha0 as (_ & _ & ? & ? & ? & ? & _).
    by apply changes_same.
  - inv_ok E. injection E as _ <-. apply insert_decision_same in Ha0 as (_ & _ & ? & ? & ? & ? & _).
    by apply changes_same.
Qed.

Lemma no_trade_changes p db i key now : changes p db (finish_strategy_no_trade db i key now).1.
Proof.
  unfold finish_strategy_no_trade. destruct (strategy_definition db i); [|apply changes_refl].
  apply changes_transaction. intros o db' E. inv_ok E. destruct (exists_row _ _) in E; [done|].
  injection E as _ <-. by apply changes_same.
Qed.
Lemma exists_row_false {R} (P : string → R → bool) m :
  exists_row P m = false → ∀ k r, m !! k = Some r → P k r = false.
Proof.
  intros Hm k r Hk. apply not_true_iff_false. intros HP. unfold exists_row, select in Hm.
  destruct (List.filter _ _) as [|x l] eqn:Ef in Hm; [|done].
  assert (Hin : List.In (k, r) []); [|done]. rewrite <- Ef. apply filter_In. split; [|done].
  apply list_elem_of_In. by apply elem_of_map_to_list.
Qed.

Lemma insert_row_ok {R} k (row : R) m m' :
  insert_row k row m = Ok m' → m !! k = None ∧ m' = <[k := row]> m.
Proof. unfold insert_row. destruct (m !! k) eqn:E; simpl; [done|]. by intros [= <-]. Qed.

Lemma constraint_ok b u : constraint b = Ok u → b = true.
Proof. by destruct b. Qed.

Lemma insert_intent_ok id r db db' :
  insert_intent id r db = Ok db' →
  intents db !! id = None ∧ db' = with_intents (<[id := r]> (intents db)) db
  ∧ (∀ id' r', intents db !! id' = Some r' →
       i_idempotency_key r' ≠ i_idempotency_key r ∧ i_client_order_id r' ≠ i_client_order_id r).
Proof.
  unfold insert_intent. intros E. inv_ok E. injection E as <-. apply constraint_ok in Ha.
  apply insert_row_ok in Ha0 as [Hn ->]. split_and!; [done|done|]. intros id' r' Hr'.
  apply andb_true_iff in Ha as [Ha _]. apply negb_true_iff in Ha.
  pose proof (exists_row_false _ _ Ha id' r' Hr') as Hk. apply orb_false_iff in Hk as [E1 E2].
  by apply String.eqb_neq in E1, E2.
Qed.

Lemma insert_plan_ok id p db db' :
  insert_plan id p db = Ok db' →
  intent_plans db !! id = None ∧ db' = with_plans (<[id := p]> (intent_plans db)) db.
Proof.
  unfold insert_plan. intros E. inv_ok E. injection E as <-. by apply insert_row_ok in Ha0 as [? ->].
Qed.

(** A decision is bound to an intent: it exists now, and no intent had it before. *)
Lemma bind_decision_ok db dn claimed db' :
  bind_decision db dn claimed = Ok db' →
  meta db' = meta db ∧ intents db' = intents db ∧ risk_receipts db' = risk_receipts db
  ∧ intent_plans db' = intent_plans db
  ∧ (∀ id, find_decision db id ≠ None → find_decision db' id ≠ None)
  ∧ find_decision db' (dn_decision_id dn) ≠ None
  ∧ ((∀ k s, intents db !! k = Some s → find_decision db (i_decision_id s) ≠ None) →
     ∀ k s, intents db !! k = Some s → i_decision_id s ≠ dn_decision_id dn).
Proof.
  unfold bind_decision. destruct claimed.
  - intros E. inv_ok E. apply ok_or_ok in Ha. destruct (_ || _) in E; [done|].
    destruct (exists_row _ _) eqn:Ex in E; [done|]. injection E as <-.
    split_and!; [done|done|done|done|done|by rewrite Ha|].
    intros _ k s Hk Heq. apply String.eqb_eq in Heq.
    by rewrite (exists_row_false _ _ Ex k s Hk) in Heq.
  - intros (Hn & Hd & Hm & ? & ? & ? & ?)%insert_decision_same. split_and!; try done.
    intros Hall k s Hk Heq. specialize (Hall k s Hk). congruence.
Qed.

(** A case that has written nothing *)
Ltac unwritten :=
  simplify_eq/=; left; split; [done|];
  let Hsi := fresh in intros ? Hsi; first [discriminate Hsi | congruence].

(** What a preparation that writes has written *)
Lemma prepare_effect db dn (ni : NewIntent D) :
  let '(db', res) := prepare db dn ni in
  (db' = db ∧ ∀ si, res = Ok si → by_idempotency db (ni_idempotency_key ni) = Ok (Some si)) ∨
  (intents db !! ni_intent_id ni = None
   ∧ intents db' = <[ni_intent_id ni := new_intent_row dn ni]> (intents db)
   ∧ intent_plans db' = <[ni_intent_id ni := plan_row (ni_plan ni)]> (intent_plans db)
   ∧ risk_receipts db' = risk_receipts db ∧ meta db' = meta db
   ∧ res = require_intent db' (ni_intent_id ni)
   ∧ (∀ id' r', intents db !! id' = Some r' →
       i_idempotency_key r' ≠ ni_idempotency_key ni ∧ i_client_order_id r' ≠ ni_client_order_id ni)
   ∧ (∀ id, find_decision db id ≠ None → find_decision db' id ≠ None)
   ∧ find_decision db' (dn_decision_id dn) ≠ None
   ∧ ((∀ k s, intents db !! k = Some s → find_decision db (i_decision_id s) ≠ None) →
      ∀ k s, intents db !! k = Some s → i_decision_id s ≠ dn_decision_id dn)).
Proof.
  destruct (prepare db dn ni) as [db' res] eqn:E. unfold prepare in E.
  destruct (_ || _) in E; [unwritten|].
  destruct (by_idempotency db _) as [[existing|]|] eqn:Ek in E;
    [destruct (negb _) in E; unwritten| |unwritten].
  destruct (_ || _) in E; [unwritten|].
  destruct (invalid_plan _) in E; [unwritten|].
  destruct (strategy_definition db _) as [definition|] in E; [|unwritten].
  destruct (_ || _) in E; [unwritten|].
  destruct (match dn_instance_id dn with Some _ => _ | None => _ end) in E; [unwritten|].
  destruct (bind_decision db dn _) as [db1|] eqn:E1 in E; simpl in E; [|unwritten].
  destruct (insert_intent _ _ db1) as [db2|] eqn:E2 in E; simpl in E; [|unwritten].
  destruct (insert_plan _ _ db2) as [db3|] eqn:E3 in E; simpl in E; [|unwritten].
  right. injection E as <- <-.
  apply bind_decision_ok in E1 as (Hm & Hi & Hr & Hp & Hd1 & Hd2 & Hd3).
  apply insert_intent_ok in E2 as (Hn & -> & Hu). apply insert_plan_ok in E3 as (Hpn & ->).
  rewrite Hi in *. simpl in *. rewrite Hp in *.
  destruct (starts_with _ _); simpl; rewrite ?Hi, ?Hm, ?Hr, ?Hp; by split_and!.
Qed.

Lemma prepare_changes p db dn (ni : NewIntent D) : changes p db (prepare db dn ni).1.
Proof.
  pose proof (prepare_effect db dn ni) as He. destruct (prepare db dn ni) as [db' res]. simpl.
  destruct He as [[-> _]|(Hn & Hi & _ & Hr & Hm & _ & Hu & Hd1 & Hd2 & Hd3)]; [apply changes_refl|].
  split; [done| | |rewrite Hr; eauto with okx|done].
  - intros id r Hid. exists r. rewrite Hi, lookup_insert_ne by congruence. by split; [|constructor].
  - intros id r' Hid. rewrite Hi. destruct (decide (ni_intent_id ni = id)) as [<-|Hne].
    + rewrite lookup_insert_eq. intros [= <-]. split; [done| |done|done|done].
      intros id'. rewrite Hi. destruct (decide (id' = ni_intent_id ni)) as [|Hne]; [done|].
      by rewrite lookup_insert_ne by done; intros ->.
    + by rewrite lookup_insert_ne, Hid by done.
Qed.

Lemma parse_as_str s : parse_state (as_str s) = Ok s.
Proof. by destruct s. Qed.

Lemma intent_row db id (i : StoredIntent D) :
  require_intent db id = Ok i →
  si_intent_id i = id ∧ ∃ r, intents db !! id = Some r ∧ si_state i = i_state r
    ∧ si_plan_hash i = i_plan_hash r ∧ si_policy_revision i = i_policy_revision r
    ∧ si_exchange_order_id i = i_exchange_order_id r ∧ si_risk_increase i = i_risk_increase r
    ∧ si_request_hash i = i_request_hash r ∧ si_client_order_id i = i_client_order_id r
    ∧ si_idempotency_key i = i_idempotency_key r.
Proof.
  unfold require_intent, intent. intros E. apply bind_ok in E as (o & Eo & E).
  apply ok_or_ok in E as ->. destruct (intents db !! id) as [r|]; [|done]. simpl in Eo.
  apply bind_ok in Eo as (st & Hst & Eo). apply bind_ok in Eo as (q & _ & Eo).
  injection Eo as <-. simpl. split; [done|]. exists r. split_and!; try done.
  rewrite parse_as_str in Hst. by injection Hst.
Qed.

Lemma reserve_changes p db (c : CentralReceipt D) now : changes p db (reserve db c now).1.
Proof.
  unfold reserve. destruct (require_intent db _) as [i|] eqn:Ei; [|apply changes_refl].
  destruct (_ || _) eqn:Eg; [apply changes_refl|]. case_decide as Hs; [apply changes_refl|].
  case_decide as Hp; [apply changes_refl|]. destruct (query_row _) as [owner|]; [|apply changes_refl].
  destruct (negb (opt_eqb _ _)); [apply changes_refl|]. apply changes_transaction. intros a db' E.
  apply bind_ok in E as (db1 & E1 & E). injection E as _ <-.
  unfold insert_receipt in E1. apply bind_ok in E1 as (u & _ & E1).
  apply bind_ok in E1 as (m & Em & E1). injection E1 as <-. apply insert_row_ok in Em as [Hn ->].
  apply intent_row in Ei as (Hid & r & Hr & Hst & Hph & Hpol & _).
  assert (Hrec : ∀ key c0, risk_receipts db !! key = Some c0 →
    ∃ c', <[cr_reservation_key c := receipt_row c]> (risk_receipts db) !! key = Some c' ∧ same_grant c0 c').
  { intros key c0 Hc. rewrite lookup_insert_ne by congruence. eauto with okx. }
  eapply (changes_update p db _ (si_intent_id i)); [done|done|exact Hrec| |done].
  intros r' Hr'. rewrite Hid in Hr'. assert (r' = r) as -> by congruence.
  case_decide; [|constructor]. constructor; [done|].
  repeat (apply orb_false_iff in Eg as [Eg ?]).
  exists (cr_reservation_key c), (receipt_row c). simpl. rewrite lookup_insert_eq.
  rewrite negb_false_iff, ?String.eqb_eq, ?Z.eqb_eq in *. split_and!; congruence.
Qed.

Lemma begin_post_changes db id revision now :
  changes (Some id) db (begin_post db id revision now).1.
Proof.
  unfold begin_post. apply changes_transaction. intros a db' E. inv_ok E. apply ok_or_ok in Ha.
  destruct (negb _) in E; [injection E as _ <-; apply changes_refl|].
  repeat (case_match; [done|]). injection E as _ <-.
  eapply (changes_update _ db _ id); [done|done|simpl; eauto with okx| |done].
  intros r Hr. 
  cbv beta. destruct (bool_decide (i_state r = Reserved) && is_none (i_begin_post_at r)) eqn:Eb;
    [|constructor].
  apply andb_true_iff in Eb as [E1 E2].
  apply bool_decide_eq_true in E1. constructor; [done|done|]. by destruct (i_begin_post_at r).
Qed.

Lemma outcome_changes p db id state exch evidence now :
  changes p db (record_outcome db id state exch evidence now).1.
Proof.
  unfold record_outcome. destruct (require_intent db id) as [i|] eqn:Ei; [|apply changes_refl].
  destruct (_ || _) eqn:Eg; [apply changes_refl|]. apply orb_false_iff in Eg as [Eg _].
  apply negb_false_iff in Eg. 
  match goal with |- context [if ?b then (db, invalid "EXCHANGE_ID_CONFLICT") else _] => destruct b end;
    [apply changes_refl|]. apply changes_transaction. intros a db' E. injection E as _ <-.
  apply intent_row in Ei as (Hid & r & Hr & Hst & _ & _ & Hx & _).
  eapply (changes_update p db _ id).
  - by destruct (terminal state).
  - by destruct (terminal state).
  - intros key c Hc. destruct (terminal state); simpl; by eapply receipts_update.
  - intros r' Hr'. assert (r' = r) as -> by congruence. apply move_outcome; [congruence|].
    intros e He. by rewrite He.
  - by destruct (terminal state).
Qed.

Lemma readback_changes p db id order state (fill : D) now :
  changes p db (record_order_readback db id order state fill now).1.
Proof.
  unfold record_order_readback. destruct (require_intent db id); [|apply changes_refl].
  destruct (_ || _); [apply changes_refl|]. case_match; [|apply changes_refl].
  destruct (outcome_changes p (with_orders a0 db) id state (Some order) "authenticated-order-readback" now)
    as [Hm Hr Hn Hc Hd]. split; [done|done| |done|done].
  intros k r Hk Hk'. by destruct (Hn k r Hk Hk').
Qed.

Lemma recover_changes p db now : changes p db (recover_posting db now).1.
Proof.
  unfold recover_posting. apply changes_transaction. intros a db' E. injection E as _ <-.
  split; simpl; [done| | |eauto with okx|done].
  - intros id r Hr. unfold update_where. rewrite lookup_fmap, Hr. simpl. eexists. split; [done|].
    destruct (bool_decide _) eqn:Eb; [|constructor]. apply bool_decide_eq_true in Eb.
    replace (move_intent Unknown now r)
      with (with_exchange (i_exchange_order_id r) (move_intent Unknown now r)) by done.
    constructor; [by rewrite Eb|done].
  - intros id r' Hid. unfold update_where. by rewrite lookup_fmap, Hid.
Qed.

(** The database a call leaves is reached by moves, posting only for [begin_post]. *)
Lemma after_changes c db :
  changes (match c with BeginPost id _ _ => Some id | _ => None end) db (after c db).
Proof.
  destruct c; cbn [after]; first [apply prepare_changes | apply mark_changes | apply reject_changes
    | apply release_changes | apply reserve_changes | apply begin_post_changes
    | apply outcome_changes | apply readback_changes | apply recover_changes
    | apply incident_changes | apply begin_operation_changes | apply operation_receipt_changes
    | apply stop_changes | apply resolve_changes | apply policy_changes | apply reconciled_changes
    | apply claim_changes | apply no_trade_changes | idtac].
  unfold reject_denied_reserve. pose proof (reject_changes None db id reason now true) as Hr.
  by destruct (reject_unsent_inner _ _ _ _ _).
Qed.
End calls.

(** ** Lives of an intent *)
(** The state machine of an intent, edge by edge *)
Inductive next : IntentState → IntentState → Prop :=
| next_reserve : next Prepared Reserved
| next_decline : next Prepared Rejected
| next_post : next Reserved Posting
| next_unsent : next Reserved Rejected
| next_lost : next Posting Unknown
| next_answer s t : s = Posting ∨ s = Unknown →
    t ∈ [Acknowledged; PartiallyFilled; Filled; Cancelled; Rejected] → next s t
| next_trade t : t ∈ [PartiallyFilled; Filled; Cancelled] → next Acknowledged t
| next_complete t : t ∈ [Filled; Cancelled] → next PartiallyFilled t.
(** How far an intent is: before and after its post, on the exchange, traded, closed *)
Definition stage (s : IntentState) : nat :=
  match s with
  | Prepared => 0 | Reserved => 1 | Posting => 2 | Unknown => 3 | Acknowledged => 4
  | PartiallyFilled => 5 | Filled | Cancelled | Rejected => 6
  end.

(** What a row keeps for life: its identity, the hash of its plan and its terms; the instant of
    its post and its exchange order id once they are set; and its state only follows [next]. *)
Record lifecycle (r r' : IntentRow) : Prop := {
  life_key : i_idempotency_key r' = i_idempotency_key r;
  life_hash : i_request_hash r' = i_request_hash r;
  life_decision : i_decision_id r' = i_decision_id r;
  life_client : i_client_order_id r' = i_client_order_id r;
  life_plan : i_plan_hash r' = i_plan_hash r;
  life_policy : i_policy_revision r' = i_policy_revision r;
  life_increase : i_risk_increase r' = i_risk_increase r;
  life_deadline : i_deadline r' = i_deadline r;
  life_instrument : i_instrument_id r' = i_instrument_id r;
  life_created : i_created_at r' = i_created_at r;
  life_state : rtc next (i_state r) (i_state r');
  life_begun : ∀ t, i_begin_post_at r = Some t → i_begin_post_at r' = Some t;
  life_exchange : ∀ e, i_exchange_order_id r = Some e → i_exchange_order_id r' = Some e;
}.

Lemma lifecycle_refl r : lifecycle r r.
Proof. by split. Qed.
Lemma lifecycle_trans r1 r2 r3 : lifecycle r1 r2 → lifecycle r2 r3 → lifecycle r1 r3.
Proof. intros [] []. split; try congruence; [by etrans|auto|auto]. Qed.

Lemma outcome_next s t : allowed_outcome s t = true → rtc next s t.
Proof.
  intros Ho. destruct (decide (t = s)) as [->|Hne]; [done|]. apply rtc_once.
  destruct s, t; try done; first [by constructor; set_solver | apply bool_decide_eq_true in Ho; done].
Qed.
Lemma move_lifecycle p db' id r r' : move p db' id r r' → lifecycle r r'.
Proof.
  destruct 1 as [r|r reason now Hb Hs|r now Hs Hg|r now Hp Hs Hb|r to exch now Ho He|r reason now];
    split; simpl; try done; try congruence.
  - apply rtc_once. destruct Hs as [-> | ->]; constructor.
  - rewrite Hs. apply rtc_once. constructor.
  - rewrite Hs. apply rtc_once. constructor.
  - by apply outcome_next.
Qed.

Lemma next_stage s t : next s t → (stage s < stage t)%nat.
Proof.
  destruct 1 as [| | | | |s t [->| ->] Ht|t Ht|t Ht]; simpl; try lia;
    repeat (apply elem_of_cons in Ht as [->|Ht]; [simpl; lia|]); by apply elem_of_nil in Ht.
Qed.
Lemma nexts_stage s t : rtc next s t → t = s ∨ (stage s < stage t)%nat.
Proof.
  induction 1 as [s|s t u Hst%next_stage _ [->|IH]]; [by left|by right|right; lia].
Qed.
Lemma next_terminal s t : rtc next s t → terminal s = true → t = s.
Proof.
  intros [->|Hs]%nexts_stage; [done|]. intros Ht. by destruct s, t; simpl in *; try lia.
Qed.

(** ** Runs *)
Inductive label : Type := Posted (id : string) | Silent.
Definition posted (l : list label) : list string :=
  l ≫= λ x, match x with Posted id => [id] | Silent => [] end.

Section runs.
Context {D : Type} `{DecimalArith D}.

Inductive step (db : Db) : label → Db → Prop :=
| step_post id policy_revision now db' :
    begin_post db id policy_revision now = (db', Ok true) → step db (Posted id) db'
| step_call (c : Call D) : step db Silent (after c db)
| step_other db' :
    meta db' = meta db → intents db' = intents db → risk_receipts db' = risk_receipts db →
    decisions db' = decisions db → step db Silent db'.

Inductive run (db : Db) : list label → Db → Prop :=
| run_nil : run db [] db
| run_snoc l db1 x db2 : run db l db1 → step db1 x db2 → run db (l ++ [x]) db2.

(** The guards of a post that went through *)
Lemma begin_post_true db id revision now db' :
  begin_post db id revision now = (db', Ok true) →
  ∃ r, intents db !! id = Some r ∧ i_state r = Reserved ∧ now < i_deadline r
    ∧ i_policy_revision r = revision ∧ pol_revision (account_policy db) = revision
    ∧ (i_risk_increase r = true → strategy_unchanged db id = true
         ∧ pol_paused (account_policy db) = false
         ∧ (∀ k s, risk_stops db !! k = Some s → unresolved_stop s = false)
         ∧ rec_requires_reconcile (storage_recovery db) = false
         ∧ ∀ k s, intents db !! k = Some s → outcome_unknown (i_state s) = false)
    ∧ db' = (begin_post db id revision now).1.
Proof.
  intros E0. pose proof E0 as E. unfold begin_post, transaction in E.
  destruct (intents db !! id) as [r|] eqn:Hr; [simpl in E|done]. exists r.
  destruct (i_state r) eqn:Hs; simpl in E; try done.
  repeat match type of E with context [if ?b then invalid _ else _] =>
    destruct b eqn:? in E; [done|] end.
  repeat match goal with H : (_ || _) = false |- _ => apply orb_false_iff in H as [? ?] end.
  repeat match goal with H : negb _ = false |- _ => apply negb_false_iff in H end.
  reflect_bools. split_and!; try done; try congruence; try (by rewrite E0).
  intros Hi. rewrite Hi in *. simpl in *.
  repeat match goal with H : (_ || _) = false |- _ => apply orb_false_iff in H as [? ?] end.
  reflect_bools. split_and!; try done; intros k s Hk.
  - by eapply (exists_row_false (λ _ s, unresolved_stop s)).
  - by eapply (exists_row_false (λ _ r, outcome_unknown (i_state r))).
Qed.

Lemma step_changes db x db' :
  step db x db' →
  ∃ p, changes p db db' ∧ (∀ id, p = Some id → ∃ revision now, db' = (begin_post db id revision now).1).
Proof.
  destruct 1 as [id rev now db' E|c|db' Hm Hi Hr Hd].
  - exists (Some id). pose proof (begin_post_changes db id rev now) as Hc. rewrite E in Hc.
    split; [done|]. intros ? [= <-]. exists rev, now. by rewrite E.
  - pose proof (after_changes c db) as Hc. eexists. split; [exact Hc|].
    intros id. destruct c; try done. intros [= ->]. by eexists _, _.
  - exists None. split; [|done]. apply changes_same; [done|done|done|]. unfold find_decision. by rewrite Hd.
Qed.
End runs.

(** ** The invariant *)
Record ledger_wf (db : Db) : Prop := {
  wf_begun : ∀ id r, intents db !! id = Some r → i_begin_post_at r ≠ None →
    i_state r ≠ Prepared ∧ i_state r ≠ Reserved;
  wf_unbegun : ∀ id r, intents db !! id = Some r → i_begin_post_at r = None →
    i_state r = Prepared ∨ i_state r = Reserved ∨ i_state r = Rejected;
  wf_granted : ∀ id r, intents db !! id = Some r →
    i_state r = Reserved ∨ i_begin_post_at r ≠ None → granted db id r;
  wf_increase : ∀ id1 id2 r1 r2, intents db !! id1 = Some r1 → intents db !! id2 = Some r2 →
    i_risk_increase r1 = true → outcome_unknown (i_state r1) = true →
    i_risk_increase r2 = true → outcome_unknown (i_state r2) = true → id1 = id2;
}.

Lemma granted_row db id r r' :
  i_plan_hash r' = i_plan_hash r → i_policy_revision r' = i_policy_revision r →
  granted db id r → granted db id r'.
Proof. intros Hp Hv (key & c & ? & ? & ? & ? & ? & ?). exists key, c. split_and!; congruence. Qed.

(** A row that is, or becomes, begun or reserved *)
Lemma move_begun p db' id r r' :
  move p db' id r r' →
  (i_begin_post_at r ≠ None → i_state r ≠ Prepared ∧ i_state r ≠ Reserved) →
  (i_begin_post_at r = None → i_state r = Prepared ∨ i_state r = Reserved ∨ i_state r = Rejected) →
  (i_begin_post_at r' ≠ None → i_state r' ≠ Prepared ∧ i_state r' ≠ Reserved)
  ∧ (i_begin_post_at r' = None → i_state r' = Prepared ∨ i_state r' = Reserved ∨ i_state r' = Rejected).
Proof.
  destruct 1 as [r|r reason now Hb Hs|r now Hs Hg|r now Hp Hs Hb|r to exch now Ho He|r reason now];
    intros Hbegun Hunbegun; simpl; try (by auto); try (by split; [|auto]).
  - split; [|by auto]. intros Hb. by destruct (Hbegun Hb) as [? _].
  - split.
    + intros Hb. destruct (Hbegun Hb). destruct (i_state r); try done; destruct to; done.
    + intros Hb. destruct (Hunbegun Hb) as [Hs|[Hs|Hs]]; rewrite Hs in Ho; simpl in Ho;
        apply bool_decide_eq_true in Ho; subst; auto.
Qed.

Lemma changes_wf p db db' :
  ledger_wf db → changes p db db' →
  (∀ id r, p = Some id → intents db !! id = Some r → i_risk_increase r = true → i_state r = Reserved →
     db' ≠ db → ∀ k s, intents db !! k = Some s → outcome_unknown (i_state s) = false) →
  ledger_wf db'.
Proof.
  intros [Hb Hu Hg Hi] [Hm Hr Hn Hc _] Hp.
  assert (Hback : ∀ id r', intents db' !! id = Some r' →
    fresh_row r' ∨ ∃ r, intents db !! id = Some r ∧ move p db' id r r').
  { intros id r' Hid. destruct (intents db !! id) as [r|] eqn:E; [right|left; by destruct (Hn id r' E Hid)].
    destruct (Hr _ _ E) as (r2 & ? & ?). exists r. by simplify_eq. }
  split.
  - intros id r' Hid. destruct (Hback id r' Hid) as [(? & ? & ?)|(r & E & Hmv)];
      [intros; exfalso; congruence|].
    by apply (move_begun _ _ _ _ _ Hmv (Hb _ _ E) (Hu _ _ E)).
  - intros id r' Hid. destruct (Hback id r' Hid) as [(? & ? & ?)|(r & E & Hmv)]; [auto|].
    by apply (move_begun _ _ _ _ _ Hmv (Hb _ _ E) (Hu _ _ E)).
  - intros id r' Hid Hs. destruct (Hback id r' Hid) as [(? & ? & ?)|(r & E & Hmv)];
      [exfalso; destruct Hs; congruence|].
    pose proof (granted_mono db db' id r Hm Hc) as Hmono.
    destruct Hmv as [r|r reason now Hbn Hst|r now Hst Hgr|r now Hpid Hst Hbn|r to exch now Ho He|r reason now];
      simpl in Hs.
    + auto.
    + by destruct Hs.
    + by eapply granted_row.
    + eapply granted_row; [..|apply Hmono, (Hg _ _ E)]; auto.
    + eapply granted_row; [..|apply Hmono, (Hg _ _ E)]; [done|done|].
      destruct Hs as [->|]; [|auto]. left. destruct (i_state r); try done; by apply bool_decide_eq_true in Ho.
    + eapply granted_row; [..|apply Hmono, (Hg _ _ E)]; done.
  - assert (Hwas : ∀ id r', intents db' !! id = Some r' → i_risk_increase r' = true →
      outcome_unknown (i_state r') = true →
      ∃ r, intents db !! id = Some r ∧ i_risk_increase r = true ∧
        (outcome_unknown (i_state r) = true ∨ p = Some id ∧ i_state r = Reserved ∧ db' ≠ db)).
    { intros id r' Hid Hinc Hun. destruct (Hback id r' Hid) as [(E1 & ? & ?)|(r & E & Hmv)];
        [by rewrite E1 in Hun|]. exists r. split; [done|].
      split; [by rewrite <- (life_increase _ _ (move_lifecycle _ _ _ _ _ Hmv))|].
      destruct Hmv as [r|r reason now Hbn Hst|r now Hst Hgr|r now Hpid Hst Hbn|r to exch now Ho He|r reason now];
        simpl in *; auto; try done.
      - right. split_and!; [done|done|]. intros ->. rewrite E in Hid. injection Hid as Hid.
        apply (f_equal i_state) in Hid. simpl in Hid. congruence.
      - left. destruct (i_state r); try done; destruct to; done. }
    intros id1 id2 r1' r2' E1 E2 I1 U1 I2 U2.
    destruct (Hwas _ _ E1 I1 U1) as (r1 & F1 & J1 & [V1|(P1 & S1 & D1)]);
      destruct (Hwas _ _ E2 I2 U2) as (r2 & F2 & J2 & [V2|(P2 & S2 & D2)]).
    + by eapply Hi.
    + by rewrite (Hp _ _ P2 F2 J2 S2 D2 _ _ F1) in V1.
    + by rewrite (Hp _ _ P1 F1 J1 S1 D1 _ _ F2) in V2.
    + congruence.
Qed.

Section safety.
Context {D : Type} `{DecimalArith D}.

Lemma begin_post_writes db id revision now :
  (begin_post db id revision now).1 ≠ db → (begin_post db id revision now).2 = Ok true.
Proof.
  unfold begin_post, transaction. destruct (intents db !! id) as [r|]; [simpl|done].
  repeat (case_match; simplify_eq/=; try done).
Qed.

Lemma step_wf db x db' : step (D:=D) db x db' → ledger_wf db → ledger_wf db'.
Proof.
  intros Hs Hwf. destruct (step_changes db x db' Hs) as (p & Hc & Hp).
  apply (changes_wf p db db' Hwf Hc). intros id r Hpid Hr Hi Hst Hne k s Hk.
  destruct (Hp id Hpid) as (rev & now & ->). pose proof (begin_post_writes _ _ _ _ Hne) as Ht.
  destruct (begin_post db id rev now) as [db1 res] eqn:E. simpl in Ht. subst res.
  apply begin_post_true in E as (r0 & Hr0 & _ & _ & _ & _ & Hguard & _).
  assert (r0 = r) as -> by congruence. apply Hguard in Hi as (_ & _ & _ & _ & Hun). eauto.
Qed.

Lemma run_wf db l db' : run (D:=D) db l db' → ledger_wf db → ledger_wf db'.
Proof. induction 1; eauto using step_wf. Qed.

Lemma step_lifecycle db x db' id r :
  step (D:=D) db x db' → intents db !! id = Some r → ∃ r', intents db' !! id = Some r' ∧ lifecycle r r'.
Proof.
  intros Hs Hr. destruct (step_changes db x db' Hs) as (p & [_ Hrow _ _ _] & _).
  destruct (Hrow id r Hr) as (r' & ? & Hm). eauto using move_lifecycle.
Qed.

Lemma run_lifecycle db l db' id r :
  run (D:=D) db l db' → intents db !! id = Some r → ∃ r', intents db' !! id = Some r' ∧ lifecycle r r'.
Proof.
  induction 1 as [|l db1 x db2 _ IH Hs]; intros Hr; [eauto using lifecycle_refl|].
  destruct (IH Hr) as (r1 & Hr1 & L1). destruct (step_lifecycle _ _ _ _ _ Hs Hr1) as (r2 & ? & ?).
  eauto using lifecycle_trans.
Qed.

(** A post marks its row, and only an unmarked row is posted. *)
Lemma step_posted db id db' :
  step (D:=D) db (Posted id) db' → ledger_wf db →
  ∃ r r', intents db !! id = Some r ∧ i_state r = Reserved ∧ i_begin_post_at r = None
    ∧ intents db' !! id = Some r' ∧ i_begin_post_at r' ≠ None.
Proof.
  intros Hs Hwf. inversion Hs as [? rev now ? E| |]; subst.
  pose proof (begin_post_true _ _ _ _ _ E) as (r & Hr & Hst & _ & _ & _ & _ & _).
  assert (Hb : i_begin_post_at r = None).
  { destruct (i_begin_post_at r) eqn:Eb; [|done].
    destruct (wf_begun db Hwf id r Hr) as [_ Hn]; congruence. }
  exists r, (with_begin_post (Some now) (move_intent Posting now r)). split_and!; try done.
  unfold begin_post, transaction in E. rewrite Hr in E. simpl in E. rewrite Hst in E. simpl in E.
  repeat (case_match; simplify_eq/=; try done).
  by rewrite lookup_alter_eq, Hr; simpl; rewrite Hst, Hb.
Qed.

Lemma posted_app l1 l2 : posted (l1 ++ l2) = posted l1 ++ posted l2.
Proof. apply bind_app. Qed.

Lemma run_posted db l db' id :
  run (D:=D) db l db' → ledger_wf db → id ∈ posted l →
  ∃ r, intents db' !! id = Some r ∧ i_begin_post_at r ≠ None.
Proof.
  intros Hrun Hwf. induction Hrun as [|l db1 x db2 Hrun IH Hs]; [by intros ?%not_elem_of_nil|].
  rewrite posted_app. intros [Hin|Hin]%elem_of_app.
  - destruct (IH Hin) as (r & Hr & Hb). destruct (step_lifecycle _ _ _ _ _ Hs Hr) as (r' & Hr' & L).
    exists r'. split; [done|]. destruct (i_begin_post_at r) as [t|] eqn:Et; [|done].
    by rewrite (life_begun _ _ L t Et).
  - destruct x as [id'|]; simpl in Hin; [|by apply not_elem_of_nil in Hin].
    apply list_elem_of_singleton in Hin as ->.
    destruct (step_posted _ _ _ Hs (run_wf _ _ _ Hrun Hwf)) as (r & r' & _ & _ & _ & ? & ?). eauto.
Qed.

(** ** Keys *)
Record keys_wf (db : Db) : Prop := {
  kw_decided : ∀ id r, intents db !! id = Some r → find_decision db (i_decision_id r) ≠ None;
  kw_unique : ∀ id1 id2 r1 r2, intents db !! id1 = Some r1 → intents db !! id2 = Some r2 →
    i_decision_id r1 = i_decision_id r2 ∨ i_idempotency_key r1 = i_idempotency_key r2
    ∨ i_client_order_id r1 = i_client_order_id r2 → id1 = id2;
}.

Lemma step_keys db x db' : step (D:=D) db x db' → keys_wf db → keys_wf db'.
Proof.
  intros Hs [Hd Hu]. destruct (step_changes db x db' Hs) as (p & [_ Hrow Hnew _ Hdec] & _).
  assert (Hback : ∀ id r', intents db' !! id = Some r' →
    (∃ r, intents db !! id = Some r ∧ lifecycle r r') ∨ intents db !! id = None ∧ appears db db' id r').
  { intros id r' Hid. destruct (intents db !! id) as [r|] eqn:E; [left|right; eauto].
    destruct (Hrow id r E) as (r2 & ? & Hm). exists r. simplify_eq. eauto using move_lifecycle. }
  assert (Hfar : ∀ id id' r r' s, intents db' !! id = Some r → appears db db' id r →
    intents db !! id' = Some s → lifecycle s r' →
    i_decision_id r ≠ i_decision_id r' ∧ i_idempotency_key r ≠ i_idempotency_key r'
    ∧ i_client_order_id r ≠ i_client_order_id r').
  { intros id id' r r' s _ Ha Hs' L. destruct (new_keys _ _ _ _ Ha _ _ Hs').
    pose proof (new_decision _ _ _ _ Ha Hd _ _ Hs').
    rewrite (life_decision _ _ L), (life_key _ _ L), (life_client _ _ L). by split_and!. }
  split.
  - intros id r' Hid. destruct (Hback id r' Hid) as [(r & E & L)|[_ Ha]].
    + rewrite (life_decision _ _ L). eauto.
    + apply (new_decided _ _ _ _ Ha).
  - intros id1 id2 r1' r2' E1 E2 Heq.
    destruct (Hback _ _ E1) as [(r1 & F1 & L1)|[N1 A1]]; destruct (Hback _ _ E2) as [(r2 & F2 & L2)|[N2 A2]].
    + apply (Hu _ _ _ _ F1 F2). rewrite <- (life_decision _ _ L1), <- (life_decision _ _ L2),
        <- (life_key _ _ L1), <- (life_key _ _ L2), <- (life_client _ _ L1), <- (life_client _ _ L2). done.
    + destruct (Hfar _ _ _ _ _ E2 A2 F1 L1) as (? & ? & ?). naive_solver.
    + destruct (Hfar _ _ _ _ _ E1 A1 F2 L2) as (? & ? & ?). naive_solver.
    + apply (new_only _ _ _ _ A2 _ N1). by rewrite E1.
Qed.

(** C11: A decision, an idempotency key and a client order id each belong to at most one
    intent, over any history: a strategy bar that was claimed, whatever retries, leads to
    at most one order. *)
Theorem one_intent_per_decision db l db' id1 id2 r1 r2 :
  intents db = ∅ → run (D:=D) db l db' →
  intents db' !! id1 = Some r1 → intents db' !! id2 = Some r2 →
  i_decision_id r1 = i_decision_id r2 ∨ i_idempotency_key r1 = i_idempotency_key r2
  ∨ i_client_order_id r1 = i_client_order_id r2 → id1 = id2.
Proof.
  intros Hempty Hrun. assert (Hwf : keys_wf db') by
    (induction Hrun; [split; rewrite Hempty; intros; simplify_map_eq|eauto using step_keys]).
  apply (kw_unique _ Hwf).
Qed.

(** C1: Over any history of the store, crashes included, the permission to send an order
    is given at most once per intent, and every intent it was given for is marked as
    posted and holds a central reservation of its own plan, policy and account. *)
Theorem posted_at_most_once db l db' :
  intents db = ∅ → run (D:=D) db l db' →
  NoDup (posted l) ∧
  ∀ id, id ∈ posted l → ∃ r, intents db' !! id = Some r ∧ i_begin_post_at r ≠ None ∧ granted db' id r.
Proof.
  intros Hempty Hrun.
  assert (Hwf : ledger_wf db) by (split; rewrite Hempty; intros; simplify_map_eq).
  split.
  - induction Hrun as [|l db1 x db2 Hrun IH Hs]; [constructor|]. rewrite posted_app.
    destruct x as [id|]; simpl; [|by rewrite app_nil_r]. apply NoDup_app. split_and!; [done| |apply NoDup_singleton].
    intros id' Hin ->%list_elem_of_singleton.
    destruct (run_posted _ _ _ _ Hrun Hwf Hin) as (r & Hr & Hb).
    destruct (step_posted _ _ _ Hs (run_wf _ _ _ Hrun Hwf)) as (r0 & _ & Hr0 & _ & Hn & _). congruence.
  - intros id Hin. destruct (run_posted _ _ _ _ Hrun Hwf Hin) as (r & Hr & Hb). exists r.
    split_and!; [done|done|]. apply (wf_granted _ (run_wf _ _ _ Hrun Hwf) _ _ Hr). by right.
Qed.

(** C8: A permission to post is given only before the deadline, under the policy revision
    the intent was prepared for and the account is on, with a central reservation; and for
    an increase of risk only when the account is not paused, no stop is latched, storage
    needs no reconciliation, the strategy version is the planned one and no other intent's
    outcome is unknown. *)
Theorem post_guards db l db1 id revision now db2 :
  intents db = ∅ → run (D:=D) db l db1 → begin_post db1 id revision now = (db2, Ok true) →
  ∃ r, intents db1 !! id = Some r ∧ i_state r = Reserved ∧ granted db1 id r
    ∧ now < i_deadline r ∧ i_policy_revision r = revision
    ∧ pol_revision (account_policy db1) = revision
    ∧ (i_risk_increase r = true →
         pol_paused (account_policy db1) = false
         ∧ (∀ k s, risk_stops db1 !! k = Some s → stop_resolution s ≠ None)
         ∧ rec_requires_reconcile (storage_recovery db1) = false
         ∧ strategy_unchanged db1 id = true
         ∧ ∀ k s, intents db1 !! k = Some s → outcome_unknown (i_state s) = false).
Proof.
  intros Hempty Hrun E.
  assert (Hwf : ledger_wf db) by (split; rewrite Hempty; intros; simplify_map_eq).
  destruct (begin_post_true _ _ _ _ _ E) as (r & Hr & Hst & Hd & Hp & Hc & Hg & _). exists r.
  split_and!; try done.
  - apply (wf_granted _ (run_wf _ _ _ Hrun Hwf) _ _ Hr). by left.
  - intros Hi. destruct (Hg Hi) as (? & ? & Hs & ? & ?). split_and!; try done.
    intros k s Hk. specialize (Hs k s Hk). unfold unresolved_stop in Hs. by destruct (stop_resolution s).
Qed.

(** C10: At any time at most one risk-increasing intent is between its post and a known
    outcome: two increases are never uncertain at once. *)
Theorem one_uncertain_increase db l db' id1 id2 r1 r2 :
  intents db = ∅ → run (D:=D) db l db' →
  intents db' !! id1 = Some r1 → intents db' !! id2 = Some r2 →
  i_risk_increase r1 = true → i_risk_increase r2 = true →
  outcome_unknown (i_state r1) = true → outcome_unknown (i_state r2) = true → id1 = id2.
Proof.
  intros Hempty Hrun E1 E2 I1 I2 U1 U2.
  assert (Hwf : ledger_wf db) by (split; rewrite Hempty; intros; simplify_map_eq).
  by eapply (wf_increase _ (run_wf _ _ _ Hrun Hwf)).
Qed.
(** C12: For life an intent keeps its keys, its instrument, the hashes of its request and plan,
    its policy, deadline and direction, and its post instant and exchange order id once set.  Its
    state follows the edges of the machine, so it is as it was or further; once filled, cancelled
    or rejected it stays so. *)
Theorem intent_lifecycle db l db' id r :
  run (D:=D) db l db' → intents db !! id = Some r →
  ∃ r', intents db' !! id = Some r' ∧ lifecycle r r'
    ∧ (i_state r' = i_state r ∨ (stage (i_state r) < stage (i_state r'))%nat)
    ∧ (terminal (i_state r) = true → i_state r' = i_state r).
Proof.
  intros Hrun Hr. destruct (run_lifecycle _ _ _ _ _ Hrun Hr) as (r' & Hr' & L). exists r'.
  split_and!; [done|done|apply nexts_stage, L|]. apply next_terminal, L.
Qed.

(** The three witnesses the release of an unsent reservation rests on *)
Definition proved_unsent (db : Db) (id : string) : Prop :=
  unsent_before_reserve db id = true ∨ declined_reserve db id = true
  ∨ ∃ u, unsent_release_receipt db id = Some u.

Lemma proved_unsent_row db id :
  proved_unsent db id →
  ∃ r, intents db !! id = Some r ∧ i_state r = Rejected ∧ i_begin_post_at r = None.
Proof.
  assert (Hrow : ∀ r, (as_str (i_state r) =? "REJECTED")%string && bool_decide (i_begin_post_at r = None) = true →
    i_state r = Rejected ∧ i_begin_post_at r = None).
  { intros r [E Eb]%andb_true_iff. apply bool_decide_eq_true in Eb. split; [|done].
    by destruct (i_state r). }
  intros [Hp|[Hp|[u Hp]]].
  - unfold unsent_before_reserve in Hp. destruct (intents db !! id) as [r|]; [|done].
    destruct (operation_receipts db !! _); [|done]. exists r. split; [done|].
    repeat (apply andb_true_iff in Hp as [Hp ?]). apply Hrow. by apply andb_true_iff.
  - unfold declined_reserve in Hp. destruct (intents db !! id) as [r|]; [|done].
    repeat (case_match; [|done]). exists r. split; [done|].
    repeat (apply andb_true_iff in Hp as [Hp ?]). apply Hrow. by apply andb_true_iff.
  - unfold unsent_release_receipt in Hp. destruct (intents db !! id) as [r|]; [|done].
    destruct (operation_receipts db !! ("terminal:" +:+ id)); [simpl in Hp|done].
    destruct (i_incident r); [simpl in Hp|done]. destruct (_ && (_ =? _)%string) eqn:E in Hp; [|done].
    exists r. split; [done|]. repeat (apply andb_true_iff in E as [E ?]). apply Hrow.
    by apply andb_true_iff.
Qed.

(** C9: When the store proves an intent unsent, no permission to send it was ever given,
    none will ever be given, and it stays rejected: releasing its central reservation
    cannot leave a live order behind. *)
Theorem unsent_never_posted db l db1 id l2 db2 :
  intents db = ∅ → run (D:=D) db l db1 → proved_unsent db1 id → run (D:=D) db1 l2 db2 →
  id ∉ posted l ∧ id ∉ posted l2
  ∧ ∃ r, intents db2 !! id = Some r ∧ i_state r = Rejected ∧ i_begin_post_at r = None.
Proof.
  intros Hempty Hrun (r & Hr & Hst & Hb)%proved_unsent_row Hrun2.
  assert (Hwf : ledger_wf db) by (split; rewrite Hempty; intros; simplify_map_eq).
  pose proof (run_wf _ _ _ Hrun Hwf) as Hwf1.
  assert (Hstay : ∀ l3 db3, run (D:=D) db1 l3 db3 → ∃ r, intents db3 !! id = Some r
                   ∧ i_state r = Rejected ∧ i_begin_post_at r = None).
  { induction 1 as [|l3 db3 x db4 Hrun3 IH Hs]; [eauto|]. destruct IH as (r3 & Hr3 & Hs3 & Hb3).
    destruct (step_changes _ _ _ Hs) as (p & [_ Hrow _ _ _] & _).
    destruct (Hrow id r3 Hr3) as (r4 & Hr4 & Hm). exists r4. split; [done|].
    destruct Hm as [|r4 why now Hn [Ho|Ho]| | |r4 to exch now Ho He|]; simpl in *; try (split; congruence).
    - rewrite Hs3 in Ho. simpl in Ho. by apply bool_decide_eq_true in Ho as <-. }
  split_and!; [| |eauto].
  - intros Hin. destruct (run_posted _ _ _ _ Hrun Hwf Hin) as (r' & Hr' & Hn). congruence.
  - clear Hempty Hrun. induction Hrun2 as [|l3 db3 x db4 Hrun3 IH Hs]; [by apply not_elem_of_nil|].
    rewrite posted_app, elem_of_app. intros [Hin|Hin]; [done|].
    destruct x as [id'|]; simpl in Hin; [|by apply not_elem_of_nil in Hin].
    apply list_elem_of_singleton in Hin as ->.
    destruct (step_posted _ _ _ Hs (run_wf _ _ _ Hrun3 Hwf1)) as (r3 & _ & Hr3 & Hs3 & _).
    destruct (Hstay _ _ Hrun3) as (? & ? & ? & ?). congruence.
Qed.

(** After a restart no intent is left in flight: recovery turns exactly the posting
    intents into unknown ones with their receipts, and reports how many. *)
Theorem recover_posting_exact db now db' n :
  recover_posting db now = (db', Ok n) →
  n = length (select (λ _ r, bool_decide (i_state r = Posting)) (intents db)) ∧
  (∀ id, intents db' !! id = (λ r, if decide (i_state r = Posting) then move_intent Unknown now r else r)
                             <$> intents db !! id)
  ∧ (∀ id r, intents db' !! id = Some r → i_state r ≠ Posting)
  ∧ ∀ key c r, risk_receipts db' !! key = Some c → intents db' !! r_intent_id c = Some r →
      i_state r = Unknown → r_state c = "UNKNOWN".
Proof.
  unfold recover_posting, transaction. intros [= <- <-]. simpl.
  assert (Hrow : ∀ id, update_where (λ r, bool_decide (i_state r = Posting)) (move_intent Unknown now)
                         (intents db) !! id
    = (λ r, if decide (i_state r = Posting) then move_intent Unknown now r else r) <$> intents db !! id).
  { intros id. unfold update_where. rewrite lookup_fmap. destruct (intents db !! id); simpl; [|done].
    by case_bool_decide; case_decide. }
  split_and!; [done|exact Hrow| |].
  - intros id r. rewrite Hrow. destruct (intents db !! id) as [r0|]; simpl; [|done].
    destruct (decide _); intros [= <-]; [done|done].
  - intros key c r Hc Hr Hs. unfold update_where in Hc at 1. rewrite lookup_fmap in Hc.
    destruct (risk_receipts db !! key) as [c0|]; simpl in Hc; [|done].
    destruct (match _ !! r_intent_id c0 with Some _ => _ | None => _ end) eqn:E in Hc;
      injection Hc as <-; [done|]. exfalso. by rewrite Hr, Hs in E.
Qed.
End safety.
