(* ===== verification/IntentReadback.v ===== *)
(** * IntentReadback: what was prepared is what is read, and a retry prepares nothing

    A prepared intent is read back under each of its keys with its own plan, up to the
    textual normalization of decimals, and preparing it again answers the stored intent
    without writing.  The file ends with the concrete histories of the ledger theorems. *)
From stdpp Require Import base option list numbers strings gmap.
From Stdlib Require Import ZArith Lia.
From S2P Require Import Prelude Text Ordered External Decimals Ledger Intents IntentSafety.
Local Open Scope string_scope.
Local Open Scope list_scope.
Local Open Scope Z_scope.

(** ** Selecting by a unique column *)
Lemma elem_of_select {R} (P : string → R → bool) m k r :
  (k, r) ∈ select P m ↔ m !! k = Some r ∧ P k r = true.
Proof.
  unfold select. rewrite list_elem_of_In, filter_In, <- list_elem_of_In, elem_of_map_to_list. done.
Qed.

Lemma head_select_unique {R} (P : string → R → bool) m k r :
  m !! k = Some r → P k r = true → (∀ k' r', m !! k' = Some r' → P k' r' = true → k' = k) →
  head (select P m) = Some (k, r).
Proof.
  intros Hk HP Hu. assert (Hin : (k, r) ∈ select P m) by by apply elem_of_select.
  destruct (select P m) as [|[k' r'] l] eqn:E; [by apply not_elem_of_nil in Hin|]. simpl.
  assert (Hin' : (k', r') ∈ select P m) by (rewrite E; left).
  apply elem_of_select in Hin' as [Hk' HP']. pose proof (Hu _ _ Hk' HP') as ->. congruence.
Qed.

Section readback.
Context {D : Type} `{DecimalArith D}.

Definition plan_decimals (p : IntentPlan D) : list D :=
  [ip_contract_value p; ip_quantity p; ip_limit_price p; ip_planned_loss_usd p]
  ++ option_list (ip_stop_price p).

(** The same plan, its decimals equal as numbers *)
Record plan_equiv (p q : IntentPlan D) : Prop := {
  pe_definition : ip_strategy_definition_id q = ip_strategy_definition_id p;
  pe_version : ip_strategy_definition_version q = ip_strategy_definition_version p;
  pe_digest : ip_strategy_parameters_digest q = ip_strategy_parameters_digest p;
  pe_contract : dec_eqb (ip_contract_value p) (ip_contract_value q) = true;
  pe_inverse : ip_inverse q = ip_inverse p;
  pe_currency : ip_settlement_currency q = ip_settlement_currency p;
  pe_position : ip_position_side q = ip_position_side p;
  pe_private : ip_private_source_generation q = ip_private_source_generation p;
  pe_operation : ip_operation q = ip_operation p;
  pe_side : ip_side q = ip_side p;
  pe_quantity : dec_eqb (ip_quantity p) (ip_quantity q) = true;
  pe_limit : dec_eqb (ip_limit_price p) (ip_limit_price q) = true;
  pe_stop : match ip_stop_price p, ip_stop_price q with
            | Some a, Some b => dec_eqb a b = true | None, None => True | _, _ => False end;
  pe_instance : ip_strategy_instance q = ip_strategy_instance p;
  pe_loss : dec_eqb (ip_planned_loss_usd p) (ip_planned_loss_usd q) = true;
  pe_generation : ip_source_generation q = ip_source_generation p;
}.

(** [normalize().to_string()] parses to an equal number, as for every decimal printed in
    full *)
Definition prints_exactly (x : D) : Prop :=
  ∃ y, dec_from_str (exact x) = Some y ∧ dec_eqb x y = true.

Lemma plan_reads_back db id (p : IntentPlan D) :
  Forall prints_exactly (plan_decimals p) → intent_plans db !! id = Some (plan_row p) →
  ∃ q, plan db id = Ok q ∧ plan_equiv p q.
Proof.
  intros Hall Hrow. unfold plan. rewrite Hrow. simpl. unfold plan_decimals in Hall. simpl in Hall.
  repeat apply Forall_cons in Hall as [? Hall].
  destruct H1 as (cv & Ecv & ?), H2 as (qty & Eq & ?), H3 as (price & Ep & ?), H4 as (loss & El & ?).
  unfold decimal. rewrite Ecv, Eq, Ep. simpl.
  destruct (ip_stop_price p) as [stop|] eqn:Es; simpl in *.
  - apply Forall_cons in Hall as [(st & Est & ?) _]. rewrite Est. simpl. rewrite El. simpl.
    eexists. split; [done|]. split; simpl; rewrite ?Es; done.
  - rewrite El. simpl. eexists. split; [done|]. split; simpl; rewrite ?Es; done.
Qed.

(** The intent as it was just prepared *)
Record just_prepared (ni : NewIntent D) (si : StoredIntent D) : Prop := {
  jp_plan : plan_equiv (ni_plan ni) (si_plan si);
  jp_id : si_intent_id si = ni_intent_id ni;
  jp_key : si_idempotency_key si = ni_idempotency_key ni;
  jp_hash : si_request_hash si = ni_request_hash ni;
  jp_client : si_client_order_id si = ni_client_order_id ni;
  jp_state : si_state si = Prepared;
  jp_revision : si_revision si = 0;
  jp_deadline : si_deadline si = ni_deadline ni;
  jp_plan_hash : si_plan_hash si = ni_plan_hash ni;
  jp_policy : si_policy_revision si = ni_policy_revision ni;
  jp_increase : si_risk_increase si = ni_risk_increase ni;
  jp_instrument : si_instrument_id si = ni_instrument_id ni;
  jp_unsent : si_exchange_order_id si = None ∧ si_incident si = None;
}.

(** A newly prepared intent is read back, by its id, its idempotency key and its client
    order id, with exactly the plan and keys it was prepared with; and preparing it again,
    whatever decision it comes with, answers that same intent and writes nothing. *)
Theorem prepare_reads_back db dn (ni : NewIntent D) db' si :
  Forall prints_exactly (plan_decimals (ni_plan ni)) →
  by_idempotency (D:=D) db (ni_idempotency_key ni) = Ok None →
  prepare db dn ni = (db', Ok si) →
  just_prepared ni si ∧ intent db' (ni_intent_id ni) = Ok (Some si)
  ∧ by_idempotency db' (ni_idempotency_key ni) = Ok (Some si)
  ∧ by_client_order_id db' (ni_client_order_id ni) = Ok (Some si)
  ∧ ∀ dn', prepare db' dn' ni = (db', Ok si).
Proof.
  intros Hdec Hnew E. pose proof (prepare_effect db dn ni) as He. rewrite E in He.
  destruct He as [[_ Hold]|(Hn & Hi & Hp & _ & _ & Hres & Hu & _)];
    [by specialize (Hold si eq_refl); congruence|].
  assert (Hrow : intents db' !! ni_intent_id ni = Some (new_intent_row dn ni))
    by (rewrite Hi; apply lookup_insert_eq).
  assert (Hsi : stored db' (Some (ni_intent_id ni, new_intent_row dn ni)) = Ok (Some si)).
  { symmetry in Hres. unfold require_intent in Hres. apply bind_ok in Hres as (o & Ho & Hres).
    apply ok_or_ok in Hres as ->. unfold intent in Ho. by rewrite Hrow in Ho. }
  assert (Hothers : ∀ k r, intents db' !! k = Some r → k ≠ ni_intent_id ni →
    i_idempotency_key r ≠ ni_idempotency_key ni ∧ i_client_order_id r ≠ ni_client_order_id ni).
  { intros k r Hk Hne. rewrite Hi, lookup_insert_ne in Hk by done. eauto. }
  assert (Hkey : by_idempotency db' (ni_idempotency_key ni) = Ok (Some si)).
  { unfold by_idempotency. rewrite (head_select_unique _ _ _ _ Hrow); [done|by apply String.eqb_eq|].
    intros k r Hk HP%String.eqb_eq. destruct (decide (k = ni_intent_id ni)); [done|].
    by destruct (Hothers k r Hk). }
  split_and!.
  - destruct (plan_reads_back db' (ni_intent_id ni) (ni_plan ni) Hdec) as (q & Hq & Heq);
      [by rewrite Hp, lookup_insert_eq|].
    unfold stored in Hsi. rewrite Hq in Hsi. simpl in Hsi. injection Hsi as <-. by split.
  - unfold intent. by rewrite Hrow.
  - done.
  - unfold by_client_order_id. rewrite (head_select_unique _ _ _ _ Hrow); [done|by apply String.eqb_eq|].
    intros k r Hk HP%String.eqb_eq. destruct (decide (k = ni_intent_id ni)); [done|].
    by destruct (Hothers k r Hk).
  - intros dn'. assert (Hhash : si_request_hash si = ni_request_hash ni).
    { unfold stored in Hsi. apply bind_ok in Hsi as (st & _ & Hsi). apply bind_ok in Hsi as (q & _ & Hsi).
      by injection Hsi as <-. }
    unfold prepare in E |- *. destruct (_ || _) in E |- *; [done|]. rewrite Hkey, Hhash.
    by rewrite String.eqb_refl.
Qed.
End readback.

(** ** A concrete history *)
Definition num (s : string) : Fixed.t := default dec_zero (dec_from_str s).

Definition toy_version : StrategyDefinitionVersion := {|
  sd_definition_id := "manual"; sd_version := "1-a"; sd_parameters := "{}";
  sd_parameters_digest := "a"; sd_created_at := 0 |}.
Definition toy_instance : InstanceRow := {|
  in_definition_id := "manual"; in_definition_version := "1-a"; in_parameters := "{}";
  in_enabled := false; in_policy_revision := 1; in_budget := "0"; in_last_decision_key := None;
  in_parameters_digest := "a" |}.
Definition toy_db : Db := {|
  meta := {| meta_initialize_operation_id := "op"; meta_release_id := "r"; meta_account_key := "acc";
             meta_installation_id := "inst"; meta_initialized_at := 1; meta_opening_source := "src" |};
  intents := ∅; intent_plans := ∅; decisions := []; risk_receipts := ∅; operation_receipts := ∅;
  account_policy := {| pol_revision := 1; pol_paused := false; pol_campaign_id := "c";
                       pol_campaign_limit := "10"; pol_campaign_loss := "0" |};
  risk_stops := ∅; strategy_instances := {["manual" := toy_instance]};
  definition_versions := {[("manual", "1-a") := toy_version]};
  storage_recovery := {| rec_requires_reconcile := false; rec_backup_at := None;
                         rec_reconciled_evidence := None |};
  orders := ∅ |}.

Definition toy_decision : Decision := {|
  dn_decision_id := "d1"; dn_instance_id := None; dn_decision_at := 100; dn_input_digest := "in";
  dn_policy_revision := 1; dn_code_version := "v" |}.
Definition toy_plan : IntentPlan Fixed.t := {|
  ip_strategy_definition_id := "manual"; ip_strategy_definition_version := "1-a";
  ip_strategy_parameters_digest := "a"; ip_contract_value := num "0.010"; ip_inverse := false;
  ip_settlement_currency := "USDT"; ip_position_side := "long"; ip_private_source_generation := 1;
  ip_operation := "open"; ip_side := "buy"; ip_quantity := num "2"; ip_limit_price := num "101.5";
  ip_stop_price := Some (num "99.9"); ip_strategy_instance := "manual";
  ip_planned_loss_usd := num "0.5"; ip_source_generation := 1 |}.
Definition toy_intent : NewIntent Fixed.t := {|
  ni_plan := toy_plan; ni_intent_id := "i1"; ni_idempotency_key := "k1"; ni_request_hash := "h1";
  ni_client_order_id := "c1"; ni_deadline := 1000; ni_plan_hash := "p1"; ni_policy_revision := 1;
  ni_risk_increase := true; ni_instrument_id := "BTC-USDT-SWAP" |}.
Definition toy_receipt : CentralReceipt Fixed.t := {|
  cr_reservation_key := "res1"; cr_account_key := "acc"; cr_installation_id := "inst";
  cr_instance_id := None; cr_intent_id := "i1"; cr_plan_hash := "p1"; cr_policy_revision := 1;
  cr_receipt_hash := "rh"; cr_requested_loss_usd := num "0.5"; cr_conversion_digest := "fx" |}.

Definition prepared_db : Db := after (Prepare toy_decision toy_intent) toy_db.
Definition reserved_db : Db :=
  after (Reserve toy_receipt 300) (after (D:=Fixed.t) (MarkReserveAttempt "i1" "res1" 200) prepared_db).
Definition posted_db : Db := (begin_post reserved_db "i1" 1 400).1.
Definition recovered_db : Db := after (D:=Fixed.t) (RecoverPosting 500) posted_db.
Definition filled_db : Db :=
  after (D:=Fixed.t) (RecordOutcome "i1" Filled (Some "x1") "readback" 600) recovered_db.
Definition rejected_db : Db := after (D:=Fixed.t) (RejectUnsent "i1" "NO_CENTRAL" 300) prepared_db.

Lemma toy_reserved : run (D:=Fixed.t) toy_db [Silent; Silent; Silent] reserved_db.
Proof.
  apply (run_snoc _ [Silent; Silent] (after (D:=Fixed.t) (MarkReserveAttempt "i1" "res1" 200) prepared_db));
    [|apply step_call].
  apply (run_snoc _ [Silent] prepared_db); [|apply step_call].
  apply (run_snoc _ [] toy_db); [constructor|apply step_call].
Qed.

Lemma toy_begin_post : begin_post reserved_db "i1" 1 400 = (posted_db, Ok true).
Proof.
  assert (Hres : (begin_post reserved_db "i1" 1 400).2 = Ok true) by by vm_compute.
  unfold posted_db. destruct (begin_post reserved_db "i1" 1 400). simpl in *. by rewrite Hres.
Qed.

Lemma toy_posted : run (D:=Fixed.t) toy_db [Silent; Silent; Silent; Posted "i1"] posted_db.
Proof.
  apply (run_snoc _ [Silent; Silent; Silent] reserved_db); [apply toy_reserved|].
  eapply step_post, toy_begin_post.
Qed.

Lemma toy_filled :
  run (D:=Fixed.t) toy_db [Silent; Silent; Silent; Posted "i1"; Silent; Silent] filled_db.
Proof.
  apply (run_snoc _ [Silent; Silent; Silent; Posted "i1"; Silent] recovered_db); [|apply step_call].
  apply (run_snoc _ [Silent; Silent; Silent; Posted "i1"] posted_db); [apply toy_posted|apply step_call].
Qed.

Lemma toy_rejected : run (D:=Fixed.t) toy_db [Silent; Silent] rejected_db.
Proof.
  apply (run_snoc _ [Silent] prepared_db); [|apply step_call].
  apply (run_snoc _ [] toy_db); [constructor|apply step_call].
Qed.

Lemma posted_at_most_once_witness :
  run (D:=Fixed.t) toy_db [Silent; Silent; Silent; Posted "i1"; Silent; Silent] filled_db
  ∧ ∃ r, intents filled_db !! "i1" = Some r ∧ granted filled_db "i1" r.
Proof.
  split; [exact toy_filled|].
  destruct (posted_at_most_once toy_db _ filled_db eq_refl toy_filled) as [_ Hp].
  destruct (Hp "i1") as (r & Hr & _ & Hg); [left|]. exact (ex_intro _ r (conj Hr Hg)).
Defined.

Lemma post_guards_witness :
  begin_post reserved_db "i1" 1 400 = (posted_db, Ok true)
  ∧ ∃ r, intents reserved_db !! "i1" = Some r ∧ granted reserved_db "i1" r.
Proof.
  split; [exact toy_begin_post|].
  destruct (post_guards toy_db _ reserved_db "i1" 1 400 posted_db eq_refl toy_reserved toy_begin_post)
    as (r & Hr & _ & Hg & _).
  exact (ex_intro _ r (conj Hr Hg)).
Defined.

Lemma one_uncertain_increase_witness :
  ∃ r, intents posted_db !! "i1" = Some r ∧ i_risk_increase r = true ∧ "i1" = "i1".
Proof.
  destruct (intents posted_db !! "i1") as [r|] eqn:E; [|by vm_compute in E].
  assert (Hi : i_risk_increase r = true ∧ outcome_unknown (i_state r) = true)
    by (vm_compute in E; by injection E as <-).
  destruct Hi as [Hi Hu]. exists r. refine (conj eq_refl (conj Hi _)).
  exact (one_uncertain_increase toy_db _ posted_db "i1" "i1" r r eq_refl toy_posted E E Hi Hi Hu Hu).
Defined.

Lemma one_intent_per_decision_witness :
  ∃ r, intents posted_db !! "i1" = Some r ∧ "i1" = "i1".
Proof.
  destruct (intents posted_db !! "i1") as [r|] eqn:E; [|by vm_compute in E].
  exists r. refine (conj eq_refl _).
  exact (one_intent_per_decision toy_db _ posted_db "i1" "i1" r r eq_refl toy_posted E E
    (or_introl eq_refl)).
Defined.

Lemma intent_lifecycle_witness :
  ∃ r r', intents posted_db !! "i1" = Some r ∧ intents filled_db !! "i1" = Some r' ∧ lifecycle r r'
    ∧ i_state r = Posting ∧ i_state r' = Filled.
Proof.
  destruct (intents posted_db !! "i1") as [r|] eqn:E; [|by vm_compute in E].
  assert (Hs : i_state r = Posting) by (vm_compute in E; by injection E as <-).
  assert (Hrun : run (D:=Fixed.t) posted_db [Silent; Silent] filled_db).
  { apply (run_snoc _ [Silent] recovered_db); [|apply step_call].
    apply (run_snoc _ [] posted_db); [constructor|apply step_call]. }
  destruct (intent_lifecycle posted_db _ filled_db "i1" r Hrun E) as (r' & E' & L & _).
  assert (Hs' : i_state r' = Filled) by (vm_compute in E'; by injection E' as <-).
  exists r, r'. exact (conj eq_refl (conj E' (conj L (conj Hs Hs')))).
Defined.

Lemma unsent_never_posted_witness :
  (∃ u, unsent_release_receipt rejected_db "i1" = Some u) ∨ unsent_before_reserve rejected_db "i1" = true
  ∧ ∃ r, intents rejected_db !! "i1" = Some r ∧ i_state r = Rejected.
Proof.
  assert (Hu : unsent_before_reserve rejected_db "i1" = true) by by vm_compute.
  right. split; [exact Hu|].
  destruct (unsent_never_posted toy_db _ rejected_db "i1" [] rejected_db eq_refl toy_rejected
    (or_introl Hu) (run_nil (D:=Fixed.t) rejected_db)) as (_ & _ & r & Hr & Hs & _).
  exact (ex_intro _ r (conj Hr Hs)).
Defined.

Lemma recover_posting_exact_witness :
  ∃ db' n, recover_posting posted_db 500 = (db', Ok n) ∧ n = 1%nat
    ∧ ∀ id r, intents db' !! id = Some r → i_state r ≠ Posting.
Proof.
  destruct (recover_posting posted_db 500) as [db' [n|]] eqn:E; [|by vm_compute in E].
  exists db', n. destruct (recover_posting_exact posted_db 500 db' n E) as (Hn & _ & Hp & _).
  refine (conj eq_refl (conj _ Hp)). rewrite Hn. vm_compute. reflexivity.
Defined.

Lemma prepare_reads_back_witness :
  ∃ db' si, prepare toy_db toy_decision toy_intent = (db', Ok si) ∧ just_prepared toy_intent si
    ∧ prepare db' toy_decision toy_intent = (db', Ok si).
Proof.
  assert (Hd : Forall prints_exactly (plan_decimals (ni_plan toy_intent)))
    by (repeat constructor; eexists; by split; [vm_compute; reflexivity|vm_compute]).
  assert (Hn : by_idempotency (D:=Fixed.t) toy_db (ni_idempotency_key toy_intent) = Ok None) by by vm_compute.
  destruct (prepare toy_db toy_decision toy_intent) as [db' [si|]] eqn:E; [|by vm_compute in E].
  exists db', si. destruct (prepare_reads_back toy_db toy_decision toy_intent db' si Hd Hn E)
    as (Hj & _ & _ & _ & Hretry).
  exact (conj eq_refl (conj Hj (Hretry toy_decision))).
Defined.
