(* ===== verification/Instances.v ===== *)
(** * Instances: strategies, their definitions and the stops of the store

    [ledger/sql/definitions.rs] and the strategy and stop operations of
    [ledger/sql/projections.rs].  A mutation writes the instance, its immutable definition
    version, its budget allocation, its NAV scope and its receipt in one transaction; the
    last three live in tables of [Store] beside the order tables.  [mutate_instance_effect]
    is the contract of a mutation, [stop_latches_once] the limit of a stop. *)
From stdpp Require Import base option list numbers strings gmap sets.
From Stdlib Require Import ZArith Lia Ascii String.
From S2P Require Import Prelude Text Ordered External Decimals Protocol Ledger Intents IntentSafety IntentReadback.
Local Open Scope string_scope.
Local Open Scope list_scope.
Local Open Scope Z_scope.

(** [serde_json::from_str] followed by [to_string] *)
Class JsonText : Type := canonical_json : string → option string.

Record StrategyInstance {D : Type} : Type := {
  sti_instance_id : string;
  sti_definition_id : string;
  sti_definition_version : string;
  sti_parameters : string;
  sti_enabled : bool;
  sti_policy_revision : Z;
  sti_budget : D;
  sti_last_decision_key : option string;
}.
Arguments StrategyInstance D : clear implicits.

Record AllocationRow : Type := {
  all_instance_id : string;
  all_delta : string;
  all_currency : string;
  all_time : Z;
}.
Record Store : Type := {
  db : Db;
  allocations : gmap string AllocationRow;
  nav_scopes : gset (string * string);
}.
Definition with_db (d : Db) (s : Store) : Store :=
  {| db := d; allocations := allocations s; nav_scopes := nav_scopes s |}.
Definition on_db {A} (f : Db → Db * StoreResult A) (s : Store) : Store * StoreResult A :=
  let '(d, r) := f (db s) in (with_db d s, r).
Definition read {A} (f : Db → StoreResult A) (s : Store) : Store * StoreResult A := (s, f (db s)).
Definition commit {A} (s : Store) (body : StoreResult (A * Store)) : Store * StoreResult A :=
  match body with Ok (a, s') => (s', Ok a) | Err e => (s, Err e) end.

(** The text [{"kind":"manual"}] *)
Definition quote_mark : string := String (ascii_of_nat 34) "".
Definition manual_parameters : string :=
  "{" +:+ quote_mark +:+ "kind" +:+ quote_mark +:+ ":" +:+ quote_mark +:+ "manual" +:+ quote_mark +:+ "}".

Section instances.
Context {D : Type} `{DecimalArith D} `{Hashing} `{JsonText}.
Context `{!Serialize (StrategyInstance D)}.

Definition instance_of (id : string) (r : InstanceRow) : StoreResult (StrategyInstance D) :=
  budget ← decimal (in_budget r);
  Ok {| sti_instance_id := id; sti_definition_id := in_definition_id r;
        sti_definition_version := in_definition_version r; sti_parameters := in_parameters r;
        sti_enabled := in_enabled r; sti_policy_revision := in_policy_revision r;
        sti_budget := budget; sti_last_decision_key := in_last_decision_key r |}.
Definition instance (d : Db) (id : string) : StoreResult (option (StrategyInstance D)) :=
  match strategy_instances d !! id with
  | None => Ok None
  | Some r => Some <$> instance_of id r
  end.
(** Ordered by [instance_id] *)
Definition instances (d : Db) : StoreResult (list (StrategyInstance D)) :=
  try_map (λ p, instance_of p.1 p.2) (sort_by (cmp_on fst) (map_to_list (strategy_instances d))).
(** The unresolved stops, by time and id *)
Definition stops (d : Db) : StoreResult (list (string * string * string * Z)) :=
  Ok (map (λ p, (p.1, stop_scope p.2, stop_reason p.2, stop_latched_at p.2))
        (sort_by (cmp_on (λ p, (stop_latched_at p.2, p.1)))
           (select (λ _ r, unresolved_stop r) (risk_stops d)))).
Definition definition_version (d : Db) (id version : string) : option StrategyDefinitionVersion :=
  definition_versions d !! (id, version).

(** ** Definitions *)
Definition canonical_definition (i : StrategyInstance D) (revision now : Z)
    : StoreResult StrategyDefinitionVersion :=
  parameters ← ok_or (Invalid "STRATEGY_PARAMETERS_INVALID") (canonical_json (sti_parameters i));
  let digest := sha256_hex parameters in
  Ok {| sd_definition_id := sti_definition_id i;
        sd_version := show_u64 revision +:+ "-" +:+ digest;
        sd_parameters := parameters; sd_parameters_digest := digest; sd_created_at := now |}.
Definition persist_definition (d : StrategyDefinitionVersion) (b : Db) : StoreResult Db :=
  let key := (sd_definition_id d, sd_version d) in
  let saved := default d (definition_versions b !! key) in
  if negb (sd_parameters saved =? sd_parameters d)%string
     || negb (sd_parameters_digest saved =? sd_parameters_digest d)%string
  then invalid "IMMUTABLE_STRATEGY_DEFINITION_CONFLICT"
  else Ok (with_versions (<[key := saved]> (definition_versions b)) b).
Definition manual_instance (budget : D) : StrategyInstance D := {|
  sti_instance_id := "manual"; sti_definition_id := "manual"; sti_definition_version := "1";
  sti_parameters := manual_parameters; sti_enabled := false; sti_policy_revision := 1;
  sti_budget := budget; sti_last_decision_key := None |}.
Definition manual_definition_preview (d : Db) : StoreResult StrategyDefinitionVersion :=
  i ← instance d "manual";
  if is_some i then strategy_definition d "manual" else
  p ← policy (D:=D) d;
  canonical_definition (manual_instance p.1.2) 1 0.

(** ** Mutations *)
Definition valid_action (action : string) : bool := one_of ["create"; "update"; "start"; "stop"] action.
Definition is_create (action : string) : bool := (action =? "create")%string.
Definition is_toggle (action : string) : bool := one_of ["start"; "stop"] action.
Definition checked_add_i64 (a b : Z) : option Z := if a + b <=? i64_max then Some (a + b) else None.
Definition next_revision (prior : option (StrategyInstance D)) : StoreResult Z :=
  match prior with
  | None => Ok 1
  | Some i => ok_or (Invalid "INSTANCE_REVISION_OVERFLOW") (checked_add_i64 (sti_policy_revision i) 1)
  end.
(** [version.split('-').next()?.parse::<u64>()] *)
Definition version_number (v : string) : option Z := v0 ← head (split_on "-" v); parse_u64 v0.

(** [committed], before its definition is fixed *)
Definition committed_instance (action : string) (instance : StrategyInstance D)
    (prior : option (StrategyInstance D)) (revision : Z) : StoreResult (StrategyInstance D) :=
  base ← (if is_toggle action then ok_or (Invalid "INSTANCE_NOT_FOUND") prior else Ok instance);
  Ok {| sti_instance_id := sti_instance_id base; sti_definition_id := sti_definition_id base;
        sti_definition_version := sti_definition_version base; sti_parameters := sti_parameters base;
        sti_enabled := if (action =? "start")%string then true
                       else if (action =? "stop")%string then false else sti_enabled base;
        sti_policy_revision := revision; sti_budget := sti_budget base;
        sti_last_decision_key := p ← prior; sti_last_decision_key p |}.

Definition definition_for (instance committed : StrategyInstance D)
    (prior_definition : option StrategyDefinitionVersion) (now : Z) : StoreResult StrategyDefinitionVersion :=
  candidate ← canonical_definition committed 1 now;
  match prior_definition with
  | Some old =>
    if negb (sd_definition_id old =? sd_definition_id candidate)%string
       || negb (sd_parameters_digest old =? sd_parameters_digest candidate)%string
    then revision ← ok_or (Invalid "DEFINITION_VERSION_OVERFLOW")
                      (v ← version_number (sd_version old); checked_add_u64 v 1);
         canonical_definition committed revision now
    else Ok old
  | None =>
    revision ← ok_or (Invalid "DEFINITION_VERSION_INVALID")
                 (v ← version_number (sti_definition_version instance); if 0 <? v then Some v else None);
    canonical_definition committed revision now
  end.

Definition with_definition (i : StrategyInstance D) (d : StrategyDefinitionVersion) : StrategyInstance D := {|
  sti_instance_id := sti_instance_id i; sti_definition_id := sd_definition_id d;
  sti_definition_version := sd_version d; sti_parameters := sd_parameters d;
  sti_enabled := sti_enabled i; sti_policy_revision := sti_policy_revision i;
  sti_budget := sti_budget i; sti_last_decision_key := sti_last_decision_key i |}.
Definition instance_row (i : StrategyInstance D) (digest : string) (last : option string) : InstanceRow := {|
  in_definition_id := sti_definition_id i; in_definition_version := sti_definition_version i;
  in_parameters := sti_parameters i; in_enabled := sti_enabled i;
  in_policy_revision := sti_policy_revision i; in_budget := exact (sti_budget i);
  in_last_decision_key := last; in_parameters_digest := digest |}.

(** The foreign key and the triggers of [strategy_instances] *)
Definition definition_matches (b : Db) (r : InstanceRow) : bool :=
  match definition_versions b !! (in_definition_id r, in_definition_version r) with
  | Some v => (sd_parameters v =? in_parameters r)%string
              && (sd_parameters_digest v =? in_parameters_digest r)%string
  | None => false
  end.
Definition write_instance (action id : string) (r : InstanceRow) (expected : option Z) (b : Db)
    : StoreResult Db :=
  _ ← constraint (definition_matches b r);
  if is_create action
  then m ← insert_row id r (strategy_instances b); Ok (with_instances m b)
  else match strategy_instances b !! id with
       | Some old => if bool_decide (Some (in_policy_revision old) = expected)
                     then Ok (with_instances (<[id := r]> (strategy_instances b)) b)
                     else invalid "INSTANCE_REVISION_CONFLICT"
       | None => invalid "INSTANCE_REVISION_CONFLICT"
       end.
Definition allocate (operation_id action : string) (committed : StrategyInstance D)
    (prior : option (StrategyInstance D)) (now : Z) (m : gmap string AllocationRow)
    : StoreResult (gmap string AllocationRow) :=
  if negb (one_of ["create"; "update"] action) then Ok m else
  delta ← ok_or (Invalid "MONEY_OVERFLOW")
            (checked_sub (sti_budget committed) (match prior with Some i => sti_budget i | None => dec_zero end));
  if dec_eqb delta dec_zero then Ok m else
  insert_row ("allocation:" +:+ operation_id)
    {| all_instance_id := sti_instance_id committed; all_delta := exact delta;
       all_currency := "USD"; all_time := now |} m.
Definition register_scope (action id : string) (scopes : gset (string * string))
    : StoreResult (gset (string * string)) :=
  if negb (is_create action) then Ok scopes else
  let scope := ("strategy:" +:+ id, "USD") in
  _ ← constraint (bool_decide (scope ∉ scopes)); Ok ({[scope]} ∪ scopes).

Definition mutate_instance (s : Store) (operation_id request_hash action : string)
    (i : StrategyInstance D) (expected_revision : option Z) (now : Z) : Store * StoreResult OperationReceipt :=
  let kind := "STRATEGY_" +:+ action in
  match operation (db s) operation_id with
  | Some old =>
    if negb (or_request_hash old =? request_hash)%string || negb (or_kind old =? kind)%string
    then (s, invalid "IDEMPOTENCY_CONFLICT") else (s, Ok old)
  | None =>
    commit s (
      if negb (valid_action action) || dec_ltb (sti_budget i) dec_zero
      then invalid "INVALID_INSTANCE_MUTATION" else
      prior ← instance (db s) (sti_instance_id i);
      if is_create action && is_some prior then invalid "INSTANCE_ALREADY_EXISTS" else
      if negb (is_create action) && negb (is_some prior) then invalid "INSTANCE_NOT_FOUND" else
      if negb (bool_decide ((sti_policy_revision <$> prior) = expected_revision))
      then invalid "INSTANCE_REVISION_CONFLICT" else
      revision ← next_revision prior;
      if negb (sti_policy_revision i =? revision) then invalid "INSTANCE_REVISION_CONFLICT" else
      committed ← committed_instance action i prior revision;
      prior_definition ← match prior with
                         | Some _ => Some <$> strategy_definition (db s) (sti_instance_id i)
                         | None => Ok None
                         end;
      definition ← definition_for i committed prior_definition now;
      let committed := with_definition committed definition in
      b ← persist_definition definition (db s);
      b ← write_instance action (sti_instance_id committed)
            (instance_row committed (sd_parameters_digest definition) (sti_last_decision_key committed))
            expected_revision b;
      allocations ← allocate operation_id action committed prior now (allocations s);
      scopes ← register_scope action (sti_instance_id committed) (nav_scopes s);
      result ← map_err (λ _, Invalid "INSTANCE_SERIALIZATION_FAILED") (to_vec committed);
      ops ← insert_row operation_id (operation_row kind request_hash result now) (operation_receipts b);
      let b := with_operations ops b in
      receipt ← ok_or (Invalid "OPERATION_MISSING") (operation b operation_id);
      Ok (receipt, {| db := b; allocations := allocations; nav_scopes := scopes |}))
  end.

Definition put_instance (s : Store) (i : StrategyInstance D) (wall : Z) : Store * StoreResult unit :=
  match (prior ← instance (db s) (sti_instance_id i);
         revision ← next_revision prior;
         let target := {|
           sti_instance_id := sti_instance_id i; sti_definition_id := sti_definition_id i;
           sti_definition_version := sti_definition_version i; sti_parameters := sti_parameters i;
           sti_enabled := sti_enabled i; sti_policy_revision := revision;
           sti_budget := sti_budget i; sti_last_decision_key := sti_last_decision_key i |} in
         encoded ← map_err (λ _, Invalid "INSTANCE_SERIALIZATION_FAILED") (to_vec target);
         Ok (prior, target, sha256_hex encoded)) with
  | Err e => (s, Err e)
  | Ok (prior, target, hash) =>
    let '(s', r) := mutate_instance s ("native-put:" +:+ sti_instance_id i +:+ ":" +:+ hash) hash
                      (if is_some prior then "update" else "create") target
                      (sti_policy_revision <$> prior) wall in
    (s', _ ← r; Ok tt)
  end.

Definition ensure_manual_instance (s : Store) (now : Z) : Store * StoreResult StrategyDefinitionVersion :=
  match instance (db s) "manual" with
  | Err e => (s, Err e)
  | Ok (Some _) => (s, strategy_definition (db s) "manual")
  | Ok None =>
    match policy (D:=D) (db s) with
    | Err e => (s, Err e)
    | Ok p =>
      let '(s', r) := mutate_instance s "native-manual-instance" "native-manual-instance/v1" "create"
                        (manual_instance p.1.2) None now in
      (s', _ ← r; strategy_definition (db s') "manual")
    end
  end.
End instances.

(** ** Facts *)
Section facts.
Context {D : Type} `{DecimalArith D} `{Hashing} `{JsonText}.
Context `{!Serialize (StrategyInstance D)}.
Implicit Types i p : StrategyInstance D.

Lemma instance_of_fields id r i :
  instance_of id r = Ok i →
  sti_instance_id i = id ∧ sti_policy_revision i = in_policy_revision r ∧ sti_enabled i = in_enabled r
  ∧ sti_last_decision_key i = in_last_decision_key r.
Proof. unfold instance_of. intros E. inv_ok E. by injection E as <-. Qed.

Lemma instance_row_of d id prior :
  instance (D:=D) d id = Ok prior →
  match prior with
  | None => strategy_instances d !! id = None
  | Some p => ∃ r, strategy_instances d !! id = Some r ∧ instance_of id r = Ok p
  end.
Proof.
  unfold instance. destruct (strategy_instances d !! id) as [r|] eqn:Er; [|by intros [= <-]].
  destruct (instance_of id r) eqn:Ei; [|done]. intros [= <-]. eauto.
Qed.

Lemma persist_ok d b b' :
  persist_definition d b = Ok b' →
  ∃ saved, b' = with_versions (<[(sd_definition_id d, sd_version d) := saved]> (definition_versions b)) b
    ∧ sd_parameters saved = sd_parameters d ∧ sd_parameters_digest saved = sd_parameters_digest d
    ∧ (∀ k v, definition_versions b !! k = Some v → definition_versions b' !! k = Some v).
Proof.
  unfold persist_definition. destruct (negb _ || negb _) eqn:E; [done|]. intros [= <-].
  apply orb_false_iff in E as [E1 E2]. apply negb_false_iff, String.eqb_eq in E1, E2.
  eexists. split_and!; [done|done|done|]. intros k v Hk. simpl.
  destruct (decide (k = (sd_definition_id d, sd_version d))) as [->|Hne].
  - by rewrite lookup_insert_eq, Hk.
  - by rewrite lookup_insert_ne.
Qed.

Lemma write_ok action id r expected b b' :
  write_instance action id r expected b = Ok b' →
  definition_matches b r = true ∧ b' = with_instances (<[id := r]> (strategy_instances b)) b.
Proof.
  unfold write_instance. intros E. apply bind_ok in E as (u & Ec & E).
  apply constraint_ok in Ec. split; [done|]. destruct (is_create action).
  - apply bind_ok in E as (m & Em & [= <-]). by apply insert_row_ok in Em as [_ ->].
  - destruct (strategy_instances b !! id); [|done]. destruct (bool_decide _); [by injection E as <-|done].
Qed.

Lemma committed_ok action i prior revision c :
  committed_instance action i prior revision = Ok c → (∀ p, prior = Some p → sti_instance_id p = sti_instance_id i) →
  sti_instance_id c = sti_instance_id i ∧ sti_policy_revision c = revision
  ∧ sti_last_decision_key c = (p ← prior; sti_last_decision_key p)
  ∧ (action = "start" → sti_enabled c = true) ∧ (action = "stop" → sti_enabled c = false)
  ∧ (is_toggle action = false → sti_enabled c = sti_enabled i).
Proof.
  unfold committed_instance. intros E Hid. apply bind_ok in E as (base & Eb & [= <-]). simpl.
  destruct (is_toggle action) eqn:Et.
  - apply ok_or_ok in Eb. split_and!; [by apply Hid|done|done|by intros ->|by intros ->|done].
  - injection Eb as <-. split_and!; [done|done|done|by intros ->|by intros ->|].
    intros _. unfold is_toggle, one_of in Et. simpl in Et. rewrite orb_false_r in Et.
    apply orb_false_iff in Et as [-> ->]. done.
Qed.

(** What a mutation that is not a replay makes of the store *)
Record mutated (action : string) (i : StrategyInstance D) (expected : option Z) (s s' : Store)
    (r : InstanceRow) (v : StrategyDefinitionVersion) : Prop := {
  mut_row : strategy_instances (db s') !! sti_instance_id i = Some r;
  mut_created : action = "create" ↔ strategy_instances (db s) !! sti_instance_id i = None;
  mut_revision : in_policy_revision r = match expected with None => 1 | Some e => e + 1 end;
  mut_started : action = "start" → in_enabled r = true;
  mut_stopped : action = "stop" → in_enabled r = false;
  mut_kept : action = "create" ∨ action = "update" → in_enabled r = sti_enabled i;
  mut_claim : ∀ old, strategy_instances (db s) !! sti_instance_id i = Some old →
    in_last_decision_key r = in_last_decision_key old ∧ expected = Some (in_policy_revision old);
  mut_version : definition_versions (db s') !! (in_definition_id r, in_definition_version r) = Some v;
  mut_parameters : sd_parameters v = in_parameters r ∧ sd_parameters_digest v = in_parameters_digest r;
  mut_immutable : ∀ k w, definition_versions (db s) !! k = Some w → definition_versions (db s') !! k = Some w;
  mut_others : ∀ id, id ≠ sti_instance_id i → strategy_instances (db s') !! id = strategy_instances (db s) !! id;
}.

Lemma mutate_cases s op hash action i expected now s' receipt :
  operation (db s) op = None →
  mutate_instance s op hash action i expected now = (s', Ok receipt) →
  (∃ r v, mutated action i expected s s' r v)
  ∧ or_request_hash receipt = hash ∧ or_kind receipt = "STRATEGY_" +:+ action
  ∧ operation (db s') op = Some receipt.
Proof.
  intros Hop E. unfold mutate_instance in E. rewrite Hop in E. unfold commit in E.
  match type of E with match ?b with _ => _ end = _ => destruct b as [[rc s1]|] eqn:Eb; [|done] end.
  injection E as <- <-.
  destruct (negb _ || _) eqn:Ev in Eb; [done|]. apply bind_ok in Eb as (prior & Ep & Eb).
  apply orb_false_iff in Ev as [Ev _]. apply negb_false_iff in Ev.
  destruct (is_create action && is_some prior) eqn:Ec1 in Eb; [done|].
  destruct (negb (is_create action) && negb (is_some prior)) eqn:Ec2 in Eb; [done|].
  destruct (negb (bool_decide _)) eqn:Ex in Eb; [done|]. apply negb_false_iff, bool_decide_eq_true in Ex.
  apply bind_ok in Eb as (revision & Er & Eb).
  destruct (negb (sti_policy_revision i =? revision)) eqn:Ei in Eb; [done|].
  apply bind_ok in Eb as (c & Ecom & Eb). apply bind_ok in Eb as (pd & _ & Eb).
  apply bind_ok in Eb as (d & _ & Eb). apply bind_ok in Eb as (b1 & Epers & Eb).
  apply bind_ok in Eb as (b2 & Ew & Eb). inv_ok Eb. injection Eb as <- <-.
  apply instance_row_of in Ep.
  destruct (committed_ok _ _ _ _ _ Ecom) as (Hid & Hrev & Hlast & Hstart & Hstop & Hkeep).
  { intros p ->. destruct Ep as (r & _ & Hr). by apply instance_of_fields in Hr as [? _]. }
  apply persist_ok in Epers as (saved & -> & Hpar & Hdig & Hkept).
  apply write_ok in Ew as [Hm ->]. simpl in *. unfold definition_matches in Hm. simpl in Hm.
  rewrite lookup_insert_eq in Hm. apply andb_true_iff in Hm as [Hm1%String.eqb_eq Hm2%String.eqb_eq].
  rewrite Hid in *. split; [|].
  - eexists _, saved. constructor; simpl.
    + by rewrite lookup_insert_eq.
    + destruct prior as [p|]; simpl in Ec1, Ec2; rewrite ?andb_true_r in Ec1; rewrite ?andb_true_r in Ec2.
      * destruct Ep as (r & -> & _). split; [|done]. intros ->. done.
      * rewrite Ep. split; [done|]. intros _. apply negb_false_iff in Ec2. by apply String.eqb_eq.
    + simpl. rewrite Hrev. destruct prior as [p|]; simpl in Er, Ex; subst expected; [|by injection Er].
      unfold checked_add_i64 in Er. destruct (_ <=? _) in Er; [by injection Er|done].
    + done.
    + done.
    + intros Hact. apply Hkeep. by destruct Hact as [->| ->].
    + intros old Hold. destruct prior as [p|]; [|by rewrite Ep in Hold].
      destruct Ep as (r & Hr & Hp). rewrite Hold in Hr. injection Hr as <-.
      apply instance_of_fields in Hp as (_ & Hpr & _ & Hpl). simpl in *. subst expected.
      simpl. rewrite Hlast. simpl. by rewrite Hpl, Hpr.
    + by rewrite lookup_insert_eq.
    + done.
    + done.
    + intros id Hne. by rewrite lookup_insert_ne.
  - apply ok_or_ok in Ha3. split; [|split; [|exact Ha3]]; unfold operation in Ha3; simpl in Ha3;
      apply insert_row_ok in Ha2 as [_ ->]; rewrite lookup_insert_eq in Ha3; by injection Ha3 as <-.
Qed.

(** A mutation that succeeds writes the instance with the next revision, the flag its
    action asks for and the claim it already had, on a definition version that exists with
    the same parameters; it changes no other instance and no stored version.  Asking again
    with the same operation id answers the same receipt and changes nothing, and with
    another request it is refused. *)
Theorem mutate_instance_effect s op hash action i expected now s' receipt :
  operation (db s) op = None →
  mutate_instance s op hash action i expected now = (s', Ok receipt) →
  (∃ r v, mutated action i expected s s' r v)
  ∧ (∀ i' expected' now', mutate_instance s' op hash action i' expected' now' = (s', Ok receipt))
  ∧ (∀ hash' action' i' expected' now', hash' ≠ hash →
       mutate_instance s' op hash' action' i' expected' now' = (s', invalid "IDEMPOTENCY_CONFLICT")).
Proof.
  intros Hop E. destruct (mutate_cases _ _ _ _ _ _ _ _ _ Hop E) as (Hm & Hh & Hk & Ho).
  split; [done|]. split.
  - intros i' expected' now'. unfold mutate_instance. by rewrite Ho, Hh, Hk, !String.eqb_refl.
  - intros hash' action' i' expected' now' Hne. unfold mutate_instance. rewrite Ho, Hh.
    by rewrite (proj2 (String.eqb_neq _ _) (not_eq_sym Hne)).
Qed.
End facts.

(** ** Stops *)

(** A stop latches once: when its reason comes back after it was resolved, latching it
    again changes nothing, and the store has no unresolved stop of that id. *)
Theorem stop_latches_once d id evidence scope1 reason1 now1 scope2 reason2 now2 :
  evidence ≠ "" →
  let d1 := (latch_stop d id scope1 reason1 now1).1 in
  let d2 := (resolve_stop d1 id evidence).1 in
  latch_stop d2 id scope2 reason2 now2 = (d2, Ok tt)
  ∧ ∃ r, risk_stops d2 !! id = Some r ∧ unresolved_stop r = false.
Proof.
  intros He d1 d2.
  assert (Hr : ∃ r, risk_stops d2 !! id = Some r ∧ unresolved_stop r = false).
  { unfold d2, resolve_stop. rewrite (proj2 (String.eqb_neq _ _) He). simpl. rewrite lookup_alter_eq.
    unfold d1. simpl. unfold insert_or_ignore. destruct (risk_stops d !! id) as [r|] eqn:Er.
    - rewrite Er. simpl. eexists. split; [done|]. by destruct (unresolved_stop r) eqn:Eu.
    - rewrite lookup_insert_eq. simpl. by eexists. }
  split; [|done]. destruct Hr as (r & Hr & _). unfold latch_stop, insert_or_ignore. rewrite Hr.
  by destruct d2.
Qed.

Lemma stop_latches_once_witness :
  let d2 := (resolve_stop (latch_stop IntentReadback.toy_db "drawdown" "account" "DRAWDOWN_LIMIT" 5).1
               "drawdown" "operator").1 in
  latch_stop d2 "drawdown" "account" "DRAWDOWN_LIMIT" 9 = (d2, Ok tt)
  ∧ begin_post (latch_stop d2 "drawdown" "account" "DRAWDOWN_LIMIT" 9).1 "i1" 1 400
    = begin_post d2 "i1" 1 400.
Proof.
  intros d2.
  destruct (stop_latches_once IntentReadback.toy_db "drawdown" "operator" "account" "DRAWDOWN_LIMIT" 5
              "account" "DRAWDOWN_LIMIT" 9 ltac:(discriminate)) as [E _].
  split; [exact E|]. unfold d2. by rewrite E.
Defined.

(** ** A concrete strategy *)
#[local] Existing Instance toy_hashing.
#[local] Instance toy_json : JsonText := Some.
#[local] Instance toy_serialize_instance : Serialize (StrategyInstance Fixed.t) := toy_serialize.
Definition toy_store : Store :=
  {| db := IntentReadback.toy_db; allocations := ∅; nav_scopes := ∅ |}.
Definition ema_instance : StrategyInstance Fixed.t := {|
  sti_instance_id := "ema"; sti_definition_id := "ema_cross"; sti_definition_version := "1";
  sti_parameters := "{}"; sti_enabled := false; sti_policy_revision := 1;
  sti_budget := Fixed.mk 50 0; sti_last_decision_key := None |}.

Lemma mutate_instance_effect_witness :
  ∃ s' receipt, mutate_instance toy_store "op1" "h" "create" ema_instance None 7 = (s', Ok receipt)
    ∧ mutate_instance s' "op1" "h" "create" ema_instance None 8 = (s', Ok receipt).
Proof.
  destruct (mutate_instance toy_store "op1" "h" "create" ema_instance None 7) as [s' [receipt|]] eqn:E;
    [|by vm_compute in E].
  exists s', receipt. split; [reflexivity|].
  refine (proj1 (proj2 (mutate_instance_effect _ _ _ _ _ _ _ _ _ _ E)) _ _ _).
  by vm_compute.
Defined.
