(* ===== verification/RateBudget.v ===== *)
(** * RateBudget: the request admission of [okx-api/src/rate.rs]

    A budget keeps, per rate domain, the instants of the admitted requests and an
    optional block set by an exchange throttle.  [admit_at] refuses a plan when
    one of its domains is blocked or has its window full, and records the request
    in every domain of the plan otherwise.  Instants and durations are integers
    of nanoseconds. *)
From stdpp Require Import base option list numbers strings gmap.
From Stdlib Require Import ZArith Lia.
From S2P Require Import Prelude Text.
Local Open Scope string_scope.
Local Open Scope list_scope.
Local Open Scope Z_scope.

(** ** Data *)
Definition RATE_THROTTLE_SCHEMA_V1 : string := "okx.rate-throttle/v1".
Definition RATE_BUDGET_SNAPSHOT_SCHEMA_V1 : string := "okx.rate-budget/v1".
Definition SUBACCOUNT_RATE_LIMIT_CODE : string := "50061".
Definition DEFAULT_SUBACCOUNT_ORDER_LIMIT_PER_2S : Z := 1000.
Definition LOCAL_FALLBACK_LIMIT : Z := 1.
Definition LOCAL_FALLBACK_WINDOW_MS : Z := 1000.
Definition TRADE_INSTRUMENT_LIMIT_PER_2S : Z := 60.
Definition TRADE_WINDOW_MS : Z := 2000.
Definition WS_CONTROL_LIMIT_PER_HOUR : Z := 480.
Definition WS_CONTROL_WINDOW_MS : Z := 60 * 60 * 1000.
Definition MAX_LOCAL_DEFER_MS : Z := 10000.

Inductive RateOperationClass : Type :=
| PublicRestRead | PrivateRestRead | WsLogin | WsSubscribe | WsUnsubscribe
| PlaceOrder | AmendOrder | AmendAlgoOrder | CancelOrder
| WsPlaceOrder | WsAmendOrder | WsCancelOrder.

Inductive RateDomainKind : Type :=
| PublicRestIp | PrivateRestUser | WsConnectionControl | WsOrderUser
| TradePlaceInstrument | TradeAmendInstrument | TradeCancelInstrument
| TradePlaceFamily | TradeAmendFamily | TradeCancelFamily | SubaccountAggregate.

Inductive RateThrottleSource : Type := LocalBudget | Exchange.
Inductive RateDecision : Type := Deferred | Rejected.

Record RateDomainKey : Type := {
  key_kind : RateDomainKind;
  key_endpoint : option string;
  key_scope : option string;
}.

Record RateWindowSpec : Type := {
  spec_key : RateDomainKey;
  max_requests : Z;
  window_ms : Z;
}.

Record RateRequestPlan : Type := {
  operation : RateOperationClass;
  domains : list RateWindowSpec;
}.

Record RateDomainEvidence : Type := {
  ev_kind : RateDomainKind;
  ev_endpoint : option string;
  ev_scope : option string;
  local_max_requests : Z;
  local_window_ms : Z;
}.

Record RateThrottleEvidence : Type := {
  te_schema : string;
  source : RateThrottleSource;
  exchange_code : option string;
  te_operation : RateOperationClass;
  domain : RateDomainEvidence;
  attempt_count : Z;
  local_defer_ms : Z;
  server_retry_after_ms : option Z;
  request_sent : bool;
  retryable : bool;
  decision : RateDecision;
}.

Record RateWindowState : Type := {
  attempts : list Z;
  blocked_until : option Z;
}.

#[export] Instance RateDomainKind_eq_dec : EqDecision RateDomainKind.
Proof. solve_decision. Defined.
#[export] Instance RateDomainKey_eq_dec : EqDecision RateDomainKey.
Proof. solve_decision. Defined.

Definition kind_tag (k : RateDomainKind) : nat :=
  (match k with
  | PublicRestIp => 0 | PrivateRestUser => 1 | WsConnectionControl => 2 | WsOrderUser => 3
  | TradePlaceInstrument => 4 | TradeAmendInstrument => 5 | TradeCancelInstrument => 6
  | TradePlaceFamily => 7 | TradeAmendFamily => 8 | TradeCancelFamily => 9
  | SubaccountAggregate => 10
  end)%nat.
Definition tag_kind (n : nat) : RateDomainKind :=
  match n with
  | 0%nat => PublicRestIp | 1%nat => PrivateRestUser | 2%nat => WsConnectionControl | 3%nat => WsOrderUser
  | 4%nat => TradePlaceInstrument | 5%nat => TradeAmendInstrument | 6%nat => TradeCancelInstrument
  | 7%nat => TradePlaceFamily | 8%nat => TradeAmendFamily | 9%nat => TradeCancelFamily
  | _ => SubaccountAggregate
  end.
#[export] Instance RateDomainKind_countable : Countable RateDomainKind.
Proof. apply (inj_countable' kind_tag tag_kind). by intros []. Defined.
#[export] Instance RateDomainKey_countable : Countable RateDomainKey.
Proof.
  apply (inj_countable' (λ k, (key_kind k, key_endpoint k, key_scope k))
                        (λ '(a, b, c), Build_RateDomainKey a b c)).
  by intros [].
Defined.

Record RateBudgetState : Type := {
  windows : gmap RateDomainKey RateWindowState;
  current_subaccount_limit_per_2s : Z;
  next_subaccount_limit_per_2s : option Z;
  exchange_rate_limit_observed_at_ms : option Z;
  last_throttle : option RateThrottleEvidence;
}.

Record RateBudgetSnapshot : Type := {
  snap_schema : string;
  tracked_domains : nat;
  snap_current_limit : Z;
  snap_next_limit : option Z;
  snap_observed_at_ms : option Z;
  snap_last_throttle : option RateThrottleEvidence;
}.

(** [RateWindowState::default] and [RateBudgetState::default] *)
Definition empty_window : RateWindowState := {| attempts := []; blocked_until := None |}.
Definition initial_state : RateBudgetState := {|
  windows := ∅;
  current_subaccount_limit_per_2s := DEFAULT_SUBACCOUNT_ORDER_LIMIT_PER_2S;
  next_subaccount_limit_per_2s := None;
  exchange_rate_limit_observed_at_ms := None;
  last_throttle := None;
|}.

(** ** Time *)
Definition from_millis (ms : Z) : Z := ms * 1000000.
(** [Instant::duration_since], which saturates at zero *)
Definition duration_since (later earlier : Z) : Z := Z.max 0 (later - earlier).

Definition duration_ms_ceil (d : Z) : Z :=
  let millis := d / 1000000 in
  let subsec_nanos := d mod 1000000000 in
  saturating_add_u64 (if millis <=? u64_max then millis else u64_max)
                     (if subsec_nanos mod 1000000 =? 0 then 0 else 1).

Fixpoint prune_attempts (horizon now : Z) (l : list Z) : list Z :=
  match l with
  | attempt :: l' =>
    if horizon <=? duration_since now attempt then prune_attempts horizon now l' else l
  | [] => []
  end.

Definition prune (window : RateWindowState) (wms now : Z) : RateWindowState := {|
  attempts := prune_attempts (from_millis wms) now (attempts window);
  blocked_until := blocked_until window;
|}.

(** ** Policies and plans *)
Fixpoint param (params : list (string * string)) (key : string) : option string :=
  match params with
  | [] => None
  | (candidate, value) :: params' =>
    if (candidate =? key)%string then Some value else param params' key
  end.

Fixpoint lookup_policy (table : list (string * (Z * Z))) (path : string) : Z * Z :=
  match table with
  | [] => (LOCAL_FALLBACK_LIMIT, LOCAL_FALLBACK_WINDOW_MS)
  | (p, v) :: table' => if (p =? path)%string then v else lookup_policy table' path
  end.

Definition public_rest_limits : list (string * (Z * Z)) := [
  ("/api/v5/public/time", (5, 2000));
  ("/api/v5/public/instruments", (10, 2000));
  ("/api/v5/market/ticker", (10, 2000));
  ("/api/v5/market/tickers", (20, 2000));
  ("/api/v5/market/trades", (100, 2000));
  ("/api/v5/public/mark-price", (10, 2000));
  ("/api/v5/market/index-tickers", (10, 2000));
  ("/api/v5/public/funding-rate", (10, 2000));
  ("/api/v5/public/funding-rate-history", (10, 2000));
  ("/api/v5/public/open-interest", (10, 2000));
  ("/api/v5/rubik/stat/contracts/open-interest-history", (10, 2000));
  ("/api/v5/market/history-candles", (10, 2000));
  ("/api/v5/public/price-limit", (10, 2000));
  ("/api/v5/system/status", (1, 1000))
].

Definition public_rest_policy (path : string) (params : list (string * string))
    : Z * Z * option string :=
  let '(max, wms) := lookup_policy public_rest_limits path in
  let scope :=
    if ((path =? "/api/v5/public/funding-rate-history")
        || (path =? "/api/v5/rubik/stat/contracts/open-interest-history"))%string
    then match param params "instId" with
         | Some value => Some ("public_ip+instrument:" +:+ value)
         | None => Some "public_ip"
         end
    else Some "public_ip" in
  (max, wms, scope).

Definition private_rest_limits : list (string * (Z * Z)) := [
  ("/api/v5/account/config", (5, 2000));
  ("/api/v5/account/instruments", (20, 2000));
  ("/api/v5/account/max-size", (20, 2000));
  ("/api/v5/account/leverage-info", (20, 2000));
  ("/api/v5/account/trade-fee", (5, 2000));
  ("/api/v5/account/balance", (10, 2000));
  ("/api/v5/account/positions", (10, 2000));
  ("/api/v5/account/account-position-risk", (10, 2000));
  ("/api/v5/account/position-builder", (2, 2000));
  ("/api/v5/account/positions-history", (10, 2000));
  ("/api/v5/asset/balances", (6, 1000));
  ("/api/v5/trade/orders-pending", (60, 2000));
  ("/api/v5/trade/orders-algo-pending", (20, 2000));
  ("/api/v5/trade/cancel-algos", (20, 2000));
  ("/api/v5/trade/amend-algos", (20, 2000));
  ("/api/v5/trade/order-algo", (20, 2000));
  ("/api/v5/trade/orders-history", (40, 2000));
  ("/api/v5/trade/orders-history-archive", (20, 2000));
  ("/api/v5/trade/fills-history", (10, 2000));
  ("/api/v5/account/bills-archive", (5, 2000));
  ("/api/v5/trade/account-rate-limit", (1, 1000));
  ("/api/v5/trade/order", (60, 2000))
].

Definition private_rest_policy (path : string) (params : list (string * string))
    : Z * Z * option string :=
  let scope :=
    if (path =? "/api/v5/account/instruments")%string
    then (λ value, "authenticated_user+inst_type:" +:+ value) <$> param params "instType"
    else if ((path =? "/api/v5/trade/order") || (path =? "/api/v5/trade/cancel-algos")
             || (path =? "/api/v5/trade/amend-algos"))%string
    then (λ value, "authenticated_user+instrument:" +:+ value) <$> param params "instId"
    else Some "authenticated_user" in
  let '(max, wms) := lookup_policy private_rest_limits path in
  (max, wms, scope).

Definition public_rest_plan (path : string) (params : list (string * string))
    : RateRequestPlan :=
  let '(max, wms, scope) := public_rest_policy path params in
  {| operation := PublicRestRead;
     domains := [ {| spec_key := {| key_kind := PublicRestIp; key_endpoint := Some path;
                                    key_scope := scope |};
                     max_requests := max; window_ms := wms |} ] |}.

Definition private_rest_plan (path : string) (params : list (string * string))
    : RateRequestPlan :=
  let '(max, wms, scope) := private_rest_policy path params in
  {| operation := PrivateRestRead;
     domains := [ {| spec_key := {| key_kind := PrivateRestUser; key_endpoint := Some path;
                                    key_scope := scope |};
                     max_requests := max; window_ms := wms |} ] |}.

Definition set_operation (op : RateOperationClass) (plan : RateRequestPlan) : RateRequestPlan :=
  {| operation := op; domains := domains plan |}.

Definition amend_algo_rest_plan (instrument_id : string) : RateRequestPlan :=
  set_operation AmendAlgoOrder
    (private_rest_plan "/api/v5/trade/amend-algos" [("instId", instrument_id)]).

Definition trade_domain (op : RateOperationClass) (family : option string) : RateDomainKind :=
  match op, family with
  | PlaceOrder, Some _ => TradePlaceFamily
  | AmendOrder, Some _ => TradeAmendFamily
  | CancelOrder, Some _ => TradeCancelFamily
  | PlaceOrder, None => TradePlaceInstrument
  | AmendOrder, None => TradeAmendInstrument
  | CancelOrder, None => TradeCancelInstrument
  | _, _ => WsOrderUser
  end.

Definition trade_endpoint (op : RateOperationClass) : string :=
  match op with
  | PlaceOrder => "/api/v5/trade/order"
  | AmendOrder => "/api/v5/trade/amend-order"
  | CancelOrder => "/api/v5/trade/cancel-order"
  | _ => "trade"
  end.

Definition trade_rest_plan (st : RateBudgetState) (op : RateOperationClass)
    (instrument_id : string) (family : option string) : RateRequestPlan :=
  let trade := {|
    spec_key := {| key_kind := trade_domain op family;
                   key_endpoint := Some (trade_endpoint op);
                   key_scope := Some (default instrument_id family) |};
    max_requests := TRADE_INSTRUMENT_LIMIT_PER_2S;
    window_ms := TRADE_WINDOW_MS |} in
  let aggregate := {|
    spec_key := {| key_kind := SubaccountAggregate; key_endpoint := None;
                   key_scope := Some "authenticated_subaccount" |};
    max_requests := Z.max (current_subaccount_limit_per_2s st) 1;
    window_ms := TRADE_WINDOW_MS |} in
  {| operation := op;
     domains := match op with
                | PlaceOrder | AmendOrder => [trade; aggregate]
                | _ => [trade]
                end |}.

Definition ws_control_plan (op : RateOperationClass) (connection_scope : string)
    : RateRequestPlan :=
  {| operation := op;
     domains := [ {| spec_key := {| key_kind := WsConnectionControl; key_endpoint := None;
                                    key_scope := Some connection_scope |};
                     max_requests := WS_CONTROL_LIMIT_PER_HOUR;
                     window_ms := WS_CONTROL_WINDOW_MS |} ] |}.

Definition ws_order_plan (st : RateBudgetState) (op : RateOperationClass)
    (instrument_id : string) (family : option string) : RateRequestPlan :=
  let rest_equivalent :=
    match op with
    | WsPlaceOrder => PlaceOrder
    | WsAmendOrder => AmendOrder
    | WsCancelOrder => CancelOrder
    | _ => op
    end in
  set_operation op (trade_rest_plan st rest_equivalent instrument_id family).

(** ** Admission *)
Definition domain_evidence (spec : RateWindowSpec) : RateDomainEvidence := {|
  ev_kind := key_kind (spec_key spec);
  ev_endpoint := key_endpoint (spec_key spec);
  ev_scope := key_scope (spec_key spec);
  local_max_requests := max_requests spec;
  local_window_ms := window_ms spec;
|}.

(** The wait until the oldest of a full window's attempts is released. *)
Definition capacity_wait (now : Z) (spec : RateWindowSpec) (l : list Z) : option Z :=
  if max_requests spec <=? Z.of_nat (length l)
  then match l with
       | oldest :: _ =>
         let release_at := oldest + from_millis (window_ms spec) in
         Some (if now <? release_at
               then duration_ms_ceil (duration_since release_at now) else 1)
       | [] => None
       end
  else None.

(** The loop body of [admit_at] on one window: the window it leaves and the
    wait it imposes, if any. *)
Definition inspect_window (now : Z) (spec : RateWindowSpec) (w0 : RateWindowState)
    : RateWindowState * option Z :=
  let window := prune w0 (window_ms spec) now in
  match blocked_until window with
  | Some b =>
    if now <? b
    then (window, Some (duration_ms_ceil (duration_since b now)))
    else ({| attempts := attempts window; blocked_until := None |},
          capacity_wait now spec (attempts window))
  | None => (window, capacity_wait now spec (attempts window))
  end.

(** [constraining.is_none_or(|(_, current)| wait_ms > current)] *)
Definition tighten (constraining : option (RateWindowSpec * Z)) (spec : RateWindowSpec)
    (wait : option Z) : option (RateWindowSpec * Z) :=
  match wait, constraining with
  | None, _ => constraining
  | Some w, None => Some (spec, w)
  | Some w, Some (_, current) => if current <? w then Some (spec, w) else constraining
  end.

Fixpoint scan_domains (now : Z) (specs : list RateWindowSpec)
    (ws : gmap RateDomainKey RateWindowState) (constraining : option (RateWindowSpec * Z))
    : gmap RateDomainKey RateWindowState * option (RateWindowSpec * Z) :=
  match specs with
  | [] => (ws, constraining)
  | spec :: specs' =>
    let '(w, wait) := inspect_window now spec (default empty_window (ws !! spec_key spec)) in
    scan_domains now specs' (<[spec_key spec := w]> ws) (tighten constraining spec wait)
  end.

Definition push_attempt (now : Z) (ws : gmap RateDomainKey RateWindowState)
    (spec : RateWindowSpec) : gmap RateDomainKey RateWindowState :=
  let w := default empty_window (ws !! spec_key spec) in
  <[spec_key spec := {| attempts := attempts w ++ [now]; blocked_until := blocked_until w |}]> ws.

Definition set_windows (ws : gmap RateDomainKey RateWindowState) (st : RateBudgetState)
    : RateBudgetState := {|
  windows := ws;
  current_subaccount_limit_per_2s := current_subaccount_limit_per_2s st;
  next_subaccount_limit_per_2s := next_subaccount_limit_per_2s st;
  exchange_rate_limit_observed_at_ms := exchange_rate_limit_observed_at_ms st;
  last_throttle := last_throttle st;
|}.

Definition set_last_throttle (e : RateThrottleEvidence) (st : RateBudgetState)
    : RateBudgetState := {|
  windows := windows st;
  current_subaccount_limit_per_2s := current_subaccount_limit_per_2s st;
  next_subaccount_limit_per_2s := next_subaccount_limit_per_2s st;
  exchange_rate_limit_observed_at_ms := exchange_rate_limit_observed_at_ms st;
  last_throttle := Some e;
|}.

Definition local_evidence (plan : RateRequestPlan) (spec : RateWindowSpec) (wait_ms : Z)
    : RateThrottleEvidence := {|
  te_schema := RATE_THROTTLE_SCHEMA_V1;
  source := LocalBudget;
  exchange_code := None;
  te_operation := operation plan;
  domain := domain_evidence spec;
  attempt_count := 1;
  local_defer_ms := clamp wait_ms 1 MAX_LOCAL_DEFER_MS;
  server_retry_after_ms := None;
  request_sent := false;
  retryable := true;
  decision := Deferred;
|}.

Definition admit_at (st : RateBudgetState) (plan : RateRequestPlan) (now : Z)
    : RateBudgetState * result RateThrottleEvidence unit :=
  let '(ws, constraining) := scan_domains now (domains plan) (windows st) None in
  match constraining with
  | Some (spec, wait_ms) =>
    let evidence := local_evidence plan spec wait_ms in
    (set_last_throttle evidence (set_windows ws st), Err evidence)
  | None => (set_windows (foldl (push_attempt now) ws (domains plan)) st, Ok tt)
  end.

(** ** Exchange throttles *)
(** [None] is the [expect] panic on a plan without domains. *)
Definition select_exchange_domain (plan : RateRequestPlan) (code : string)
    : option RateWindowSpec :=
  match (if (code =? SUBACCOUNT_RATE_LIMIT_CODE)%string
         then snd <$> list_find (λ s, key_kind (spec_key s) = SubaccountAggregate) (domains plan)
         else None) with
  | Some d => Some d
  | None => head (domains plan)
  end.

Definition max_window_ms (specs : list RateWindowSpec) : Z :=
  match specs with
  | [] => LOCAL_FALLBACK_WINDOW_MS
  | s :: specs' => foldl (λ m s, Z.max m (window_ms s)) (window_ms s) specs'
  end.

Definition exchange_defer_ms (plan : RateRequestPlan) (code : string)
    (server_retry_after_ms : option Z) : Z :=
  let local :=
    if (code =? SUBACCOUNT_RATE_LIMIT_CODE)%string then TRADE_WINDOW_MS
    else clamp (max_window_ms (domains plan)) 250 TRADE_WINDOW_MS in
  clamp (match server_retry_after_ms with Some server => Z.max server local | None => local end)
        1 MAX_LOCAL_DEFER_MS.

Definition block_window (until : Z) (ws : gmap RateDomainKey RateWindowState)
    (spec : RateWindowSpec) : gmap RateDomainKey RateWindowState :=
  let w := default empty_window (ws !! spec_key spec) in
  <[spec_key spec := {|
      attempts := attempts w;
      blocked_until := Some (match blocked_until w with
                             | Some current => Z.max current until
                             | None => until
                             end) |}]> ws.

Definition record_exchange_throttle (st : RateBudgetState) (plan : RateRequestPlan)
    (code : string) (server_retry : option Z) (now : Z)
    : option (RateBudgetState * RateThrottleEvidence) :=
  let defer := exchange_defer_ms plan code server_retry in
  spec ← select_exchange_domain plan code;
  let evidence := {|
    te_schema := RATE_THROTTLE_SCHEMA_V1;
    source := Exchange;
    exchange_code := Some code;
    te_operation := operation plan;
    domain := domain_evidence spec;
    attempt_count := 1;
    local_defer_ms := defer;
    server_retry_after_ms := server_retry;
    request_sent := true;
    retryable := true;
    decision := Deferred |} in
  let until := now + from_millis defer in
  Some (set_last_throttle evidence
          (set_windows (foldl (block_window until) (windows st) (domains plan)) st),
        evidence).

Definition update_subaccount_rate_limit (st : RateBudgetState) (current_per_2s : Z)
    (next_per_2s : option Z) (observed_at_ms : Z) : RateBudgetState := {|
  windows := windows st;
  current_subaccount_limit_per_2s := Z.max current_per_2s 1;
  next_subaccount_limit_per_2s := n ← next_per_2s; if 0 <? n then Some n else None;
  exchange_rate_limit_observed_at_ms := Some observed_at_ms;
  last_throttle := last_throttle st;
|}.

Definition snapshot (st : RateBudgetState) : RateBudgetSnapshot := {|
  snap_schema := RATE_BUDGET_SNAPSHOT_SCHEMA_V1;
  tracked_domains := size (windows st);
  snap_current_limit := current_subaccount_limit_per_2s st;
  snap_next_limit := next_subaccount_limit_per_2s st;
  snap_observed_at_ms := exchange_rate_limit_observed_at_ms st;
  snap_last_throttle := last_throttle st;
|}.

(** ** Waiting for capacity

    [sleep now d] is the instant at which [tokio::time::sleep(d)] started at
    [now] resumes, and [others now st] what the other holders of the shared
    budget did to it meanwhile. *)
Fixpoint admit_wait (sleep : Z → Z → Z) (others : Z → RateBudgetState → RateBudgetState)
    (fuel : nat) (plan : RateRequestPlan) (max_wait started now : Z) (st : RateBudgetState)
    : option (RateBudgetState * result RateThrottleEvidence unit) :=
  match fuel with
  | O => None
  | S fuel' =>
    match admit_at st plan now with
    | (st', Ok _) => Some (st', Ok tt)
    | (st', Err e) =>
      if (match source e with LocalBudget => false | Exchange => true end) || request_sent e
      then Some (st', Err e)
      else
        let remaining := Z.max 0 (max_wait - duration_since now started) in
        let delay := from_millis (local_defer_ms e) in
        if (delay =? 0) || (remaining <? delay) then Some (st', Err e)
        else
          let now' := sleep now delay in
          admit_wait sleep others fuel' plan max_wait started now' (others now' st')
    end
  end.

(** ** A history of the budget, and the admissions of one domain *)
Inductive rate_event : Type :=
| EvAdmit (plan : RateRequestPlan) (now : Z)
| EvThrottle (plan : RateRequestPlan) (code : string) (retry : option Z) (now : Z)
| EvLimit (current : Z) (next : option Z) (observed_at_ms : Z).

Definition plan_keys (plan : RateRequestPlan) : list RateDomainKey := map spec_key (domains plan).
Definition window_of (st : RateBudgetState) (k : RateDomainKey) : RateWindowState :=
  default empty_window (windows st !! k).

(** One event: the new state and the log of the instants admitted in domain [k]. *)
Definition rate_step (k : RateDomainKey) (acc : RateBudgetState * list Z) (ev : rate_event)
    : RateBudgetState * list Z :=
  let '(st, log) := acc in
  match ev with
  | EvAdmit plan now =>
    match admit_at st plan now with
    | (st', Ok _) => (st', if decide (k ∈ plan_keys plan) then log ++ [now] else log)
    | (st', Err _) => (st', log)
    end
  | EvThrottle plan code retry now =>
    match record_exchange_throttle st plan code retry now with
    | Some (st', _) => (st', log)
    | None => (st, log)
    end
  | EvLimit cur next at_ms => (update_subaccount_rate_limit st cur next at_ms, log)
  end.

Definition rate_run (k : RateDomainKey) (evs : list rate_event) : RateBudgetState * list Z :=
  foldl (rate_step k) (initial_state, []) evs.

(** Every plan names a domain once and gives domain [k] the window [W] and at
    most [M] requests; admissions are processed in the order of their instants. *)
Definition plan_within (k : RateDomainKey) (W M : Z) (plan : RateRequestPlan) : Prop :=
  NoDup (plan_keys plan) ∧
  ∀ spec, spec ∈ domains plan → spec_key spec = k → window_ms spec = W ∧ max_requests spec ≤ M.

Fixpoint well_timed (k : RateDomainKey) (W M last : Z) (evs : list rate_event) : Prop :=
  match evs with
  | [] => True
  | EvAdmit plan now :: evs' => last ≤ now ∧ plan_within k W M plan ∧ well_timed k W M now evs'
  | _ :: evs' => well_timed k W M last evs'
  end.

(** Admissions with an instant in [(lo, hi]]. *)
Definition count_in (lo hi : Z) (log : list Z) : nat :=
  length (filter (λ t, lo < t ∧ t ≤ hi) log).

(** ** One window *)
Lemma prune_attempts_spec h now l :
  ∃ p, l = p ++ prune_attempts h now l ∧ Forall (λ t, h ≤ duration_since now t) p ∧
       (∀ t, head (prune_attempts h now l) = Some t → duration_since now t < h).
Proof.
  induction l as [|a l (p & Hl & Hp & Hh)]; simpl.
  - by exists [].
  - destruct (h <=? duration_since now a) eqn:E; reflect_bools.
    + exists (a :: p). split_and!; [simpl; by f_equal|by constructor|done].
    + exists []. split_and!; [done|done|]. simpl. by intros ? [= <-].
Qed.

Lemma inspect_attempts now spec w :
  attempts (inspect_window now spec w).1 = prune_attempts (from_millis (window_ms spec)) now (attempts w).
Proof.
  unfold inspect_window. simpl. destruct (blocked_until w) as [b|]; [destruct (now <? b)|]; done.
Qed.

Lemma capacity_wait_none now spec l :
  capacity_wait now spec l = None ↔ l = [] ∨ Z.of_nat (length l) < max_requests spec.
Proof.
  unfold capacity_wait. destruct (max_requests spec <=? Z.of_nat (length l)) eqn:E; reflect_bools.
  - destruct l; split; [by left|done|done|]. intros [?|?]; [done|lia].
  - split; [by right|done].
Qed.

Lemma inspect_none_iff now spec w :
  (inspect_window now spec w).2 = None ↔
  (∀ b, blocked_until w = Some b → b ≤ now) ∧
  let l := prune_attempts (from_millis (window_ms spec)) now (attempts w) in
  l = [] ∨ Z.of_nat (length l) < max_requests spec.
Proof.
  unfold inspect_window. simpl. destruct (blocked_until w) as [b|] eqn:Hb; simpl.
  - destruct (now <? b) eqn:E; reflect_bools; simpl.
    + split; [done|]. intros [Hx _]. specialize (Hx b eq_refl). lia.
    + rewrite capacity_wait_none. split; [|naive_solver].
      intros ?. split; [|done]. intros ? [= <-]. lia.
  - rewrite capacity_wait_none. naive_solver.
Qed.

(** ** The scan and the record of an admission *)
Lemma scan_other now specs ws c k :
  k ∉ map spec_key specs → (scan_domains now specs ws c).1 !! k = ws !! k.
Proof.
  revert ws c. induction specs as [|s specs IH]; intros ws c Hk; simpl; [done|].
  apply not_elem_of_cons in Hk as [Hk1 Hk2].
  destruct (inspect_window _ _ _). rewrite IH by done. by rewrite lookup_insert_ne.
Qed.

Lemma scan_get now specs ws c spec :
  NoDup (map spec_key specs) → spec ∈ specs →
  (scan_domains now specs ws c).1 !! spec_key spec =
    Some (inspect_window now spec (default empty_window (ws !! spec_key spec))).1.
Proof.
  revert ws c. induction specs as [|s specs IH]; intros ws c; simpl.
  - intros _ Hin. by apply not_elem_of_nil in Hin.
  - intros [Hs Hnd]%NoDup_cons [->|Hin]%elem_of_cons.
    + destruct (inspect_window _ _ _) as [w' wait]. rewrite scan_other by done.
      by rewrite lookup_insert_eq.
    + assert (spec_key s ≠ spec_key spec) as Hne.
      { intros Heq. apply Hs. rewrite Heq. by apply list_elem_of_fmap_2. }
      destruct (inspect_window now s _). rewrite IH by done. by rewrite lookup_insert_ne.
Qed.

Lemma tighten_none c spec wait : tighten c spec wait = None ↔ c = None ∧ wait = None.
Proof. destruct c as [[]|], wait; simpl; repeat case_match; naive_solver. Qed.

Lemma scan_none now specs ws c :
  NoDup (map spec_key specs) →
  (scan_domains now specs ws c).2 = None ↔
  c = None ∧ ∀ spec, spec ∈ specs →
    (inspect_window now spec (default empty_window (ws !! spec_key spec))).2 = None.
Proof.
  revert ws c. induction specs as [|s specs IH]; intros ws c; simpl.
  - intros _. split; [|naive_solver]. intros ->. split; [done|]. intros ? H.
    by apply not_elem_of_nil in H.
  - intros [Hs Hnd]%NoDup_cons.
    destruct (inspect_window now s _) as [w' wait] eqn:Hi. rewrite IH by done.
    rewrite tighten_none.
    assert (∀ spec, spec ∈ specs → (<[spec_key s:=w']> ws) !! spec_key spec = ws !! spec_key spec) as Hne.
    { intros spec Hin. apply lookup_insert_ne. intros Heq. apply Hs. rewrite Heq.
      by apply list_elem_of_fmap_2. }
    split.
    + intros [[-> ->] Hall]. split; [done|]. intros spec [->|Hin]%elem_of_cons.
      * by rewrite Hi.
      * rewrite <- (Hne _ Hin). by apply Hall.
    + intros [-> Hall]. split_and!; [done| |].
      * specialize (Hall s ltac:(left)). by rewrite Hi in Hall.
      * intros spec Hin. rewrite Hne by done. apply Hall. by right.
Qed.

Lemma push_other now specs ws k :
  k ∉ map spec_key specs → foldl (push_attempt now) ws specs !! k = ws !! k.
Proof.
  revert ws. induction specs as [|s specs IH]; intros ws Hk; simpl; [done|].
  apply not_elem_of_cons in Hk as [Hk1 Hk2]. rewrite IH by done.
  unfold push_attempt. by rewrite lookup_insert_ne.
Qed.

Lemma push_get now specs ws spec :
  NoDup (map spec_key specs) → spec ∈ specs →
  foldl (push_attempt now) ws specs !! spec_key spec =
    let w := default empty_window (ws !! spec_key spec) in
    Some {| attempts := attempts w ++ [now]; blocked_until := blocked_until w |}.
Proof.
  revert ws. induction specs as [|s specs IH]; intros ws; simpl.
  - intros _ Hin. by apply not_elem_of_nil in Hin.
  - intros [Hs Hnd]%NoDup_cons [->|Hin]%elem_of_cons.
    + rewrite push_other by done. unfold push_attempt. by rewrite lookup_insert_eq.
    + rewrite IH by done. unfold push_attempt. rewrite lookup_insert_ne; [done|].
      intros Heq. apply Hs. rewrite Heq. by apply list_elem_of_fmap_2.
Qed.

(** What [admit_at] does to the window of one domain. *)
Lemma admit_other st plan now st' r k :
  admit_at st plan now = (st', r) → k ∉ plan_keys plan → window_of st' k = window_of st k.
Proof.
  unfold admit_at, window_of, plan_keys. intros Ha Hk.
  pose proof (scan_other now (domains plan) (windows st) None k Hk) as Hs.
  destruct (scan_domains _ _ _ _) as [ws c]. simpl in Hs.
  destruct c as [[spec wait]|]; simplify_eq/=; [by rewrite Hs|].
  by rewrite push_other, Hs.
Qed.

Lemma admit_window st plan now st' r spec :
  NoDup (plan_keys plan) → spec ∈ domains plan → admit_at st plan now = (st', r) →
  let i := inspect_window now spec (window_of st (spec_key spec)) in
  match r with
  | Ok _ => i.2 = None ∧
      window_of st' (spec_key spec) =
        {| attempts := attempts i.1 ++ [now]; blocked_until := blocked_until i.1 |}
  | Err _ => window_of st' (spec_key spec) = i.1
  end.
Proof.
  unfold admit_at, plan_keys. intros Hnd Hin Ha. simpl.
  pose proof (scan_get now (domains plan) (windows st) None spec Hnd Hin) as Hg.
  pose proof (scan_none now (domains plan) (windows st) None Hnd) as Hn.
  destruct (scan_domains _ _ _ _) as [ws c]. simpl in Hg, Hn.
  destruct c as [[s wait]|]; simplify_eq/=.
  - unfold window_of at 1. simpl. by rewrite Hg.
  - destruct Hn as [Hn _]. destruct (Hn eq_refl) as [_ Hall]. split; [by apply Hall|].
    unfold window_of at 1. simpl. rewrite push_get by done. simpl. by rewrite Hg.
Qed.

Lemma admit_ok_iff st plan now :
  NoDup (plan_keys plan) →
  (admit_at st plan now).2 = Ok tt ↔
  ∀ spec, spec ∈ domains plan →
    (inspect_window now spec (window_of st (spec_key spec))).2 = None.
Proof.
  intros Hnd. pose proof (scan_none now (domains plan) (windows st) None Hnd) as Hn.
  unfold admit_at. destruct (scan_domains _ _ _ _) as [ws c]. simpl in Hn.
  destruct c as [[s wait]|]; simpl.
  - split; [done|]. intros Hall. destruct Hn as [_ Hn]. by specialize (Hn (conj eq_refl Hall)).
  - split; [|done]. intros _. by apply Hn.
Qed.

Lemma block_attempts until specs ws k :
  attempts (default empty_window (foldl (block_window until) ws specs !! k)) =
  attempts (default empty_window (ws !! k)).
Proof.
  revert ws. induction specs as [|s specs IH]; intros ws; simpl; [done|].
  rewrite IH. unfold block_window. rewrite lookup_insert. case_decide; by subst.
Qed.

Definition blocked_at_least (until : Z) (w : RateWindowState) : Prop :=
  ∃ b, blocked_until w = Some b ∧ until ≤ b.

Lemma block_keeps until until' specs ws k :
  blocked_at_least until' (default empty_window (ws !! k)) →
  blocked_at_least until' (default empty_window (foldl (block_window until) ws specs !! k)).
Proof.
  revert ws. induction specs as [|s specs IH]; intros ws Hb; simpl; [done|].
  apply IH. unfold block_window. rewrite lookup_insert. case_decide as Heq; [|done].
  subst. destruct Hb as (b & Hb & Hle). rewrite Hb. simpl. exists (Z.max b until). split; [done|lia].
Qed.

Lemma block_sets until specs ws k :
  k ∈ map spec_key specs →
  blocked_at_least until (default empty_window (foldl (block_window until) ws specs !! k)).
Proof.
  revert ws. induction specs as [|s specs IH]; intros ws; simpl.
  - intros Hin. by apply not_elem_of_nil in Hin.
  - intros [->|Hin]%elem_of_cons; [|by apply IH].
    apply block_keeps. unfold block_window. rewrite lookup_insert_eq. simpl.
    eexists. split; [done|]. destruct (blocked_until _); lia.
Qed.

Lemma throttle_window st plan code retry now st' ev k :
  record_exchange_throttle st plan code retry now = Some (st', ev) →
  attempts (window_of st' k) = attempts (window_of st k) ∧
  (k ∈ plan_keys plan →
   blocked_at_least (now + from_millis (local_defer_ms ev)) (window_of st' k)).
Proof.
  unfold record_exchange_throttle, window_of, plan_keys. intros H.
  destruct (select_exchange_domain plan code) as [d|]; simplify_eq/=.
  split; [apply block_attempts|apply block_sets].
Qed.

(** ** The sliding window *)
Record window_inv (k : RateDomainKey) (W M last : Z) (acc : RateBudgetState * list Z) : Prop := {
  wi_split : ∃ old, acc.2 = old ++ attempts (window_of acc.1 k) ∧
                    Forall (λ t, t ≤ last - from_millis W) old;
  wi_past : Forall (λ t, t ≤ last) acc.2;
  wi_count : ∀ s, Z.of_nat (count_in (s - from_millis W) s acc.2) ≤ M;
}.

Lemma window_inv_later k W M last last' acc :
  last ≤ last' → window_inv k W M last acc → window_inv k W M last' acc.
Proof.
  intros Hle [(old & Hs & Ho) Hp Hc]. split; [|eapply Forall_impl; [done|]; simpl; lia|done].
  exists old. split; [done|]. eapply Forall_impl; [done|]. simpl. lia.
Qed.

(** The old log, the pruned attempts and the ones kept after a prune at [now]. *)
Lemma window_inv_prune k W M now st log :
  window_inv k W M now (st, log) →
  ∃ old, log = old ++ prune_attempts (from_millis W) now (attempts (window_of st k)) ∧
         Forall (λ t, t ≤ now - from_millis W) old.
Proof.
  intros [(old & Hs & Ho) Hp _]. simpl in *.
  destruct (prune_attempts_spec (from_millis W) now (attempts (window_of st k)))
    as (p & Hl & Hp' & _).
  exists (old ++ p). rewrite <- app_assoc, <- Hl. split; [done|].
  apply Forall_app. split; [done|].
  rewrite Hs, Hl, !Forall_app in Hp. destruct Hp as (_ & Hp & _).
  rewrite Forall_forall in *. intros t Ht. specialize (Hp t Ht). specialize (Hp' t Ht).
  unfold duration_since in Hp'. simpl in *. lia.
Qed.

Lemma count_in_app lo hi l1 l2 : count_in lo hi (l1 ++ l2) = (count_in lo hi l1 + count_in lo hi l2)%nat.
Proof. unfold count_in. by rewrite filter_app, length_app. Qed.

Lemma count_in_none lo hi l : Forall (λ t, t ≤ lo ∨ hi < t) l → count_in lo hi l = 0%nat.
Proof.
  unfold count_in. induction 1 as [|t l Ht Hl IH]; [done|].
  rewrite filter_cons_False by lia. done.
Qed.

Lemma count_in_length lo hi l : (count_in lo hi l ≤ length l)%nat.
Proof. apply length_filter. Qed.

Lemma count_after_admission W M now old l :
  1 ≤ M → l = [] ∨ Z.of_nat (length l) < M →
  Forall (λ t, t ≤ now - from_millis W) old → Forall (λ t, t ≤ now) (old ++ l) →
  (∀ s, Z.of_nat (count_in (s - from_millis W) s (old ++ l)) ≤ M) →
  ∀ s, Z.of_nat (count_in (s - from_millis W) s ((old ++ l) ++ [now])) ≤ M.
Proof.
  intros HM Hroom Hold Hpast Hc s. rewrite count_in_app.
  destruct (Z_lt_le_dec s now) as [Hs|Hs].
  - rewrite (count_in_none _ _ [now]) by (repeat constructor; lia). specialize (Hc s). lia.
  - rewrite count_in_app, (count_in_none _ _ old).
    + pose proof (count_in_length (s - from_millis W) s l).
      pose proof (count_in_length (s - from_millis W) s [now]). simpl in *.
      destruct Hroom as [->|?]; simpl in *; lia.
    + eapply Forall_impl; [exact Hold|]. simpl. lia.
Qed.

Lemma window_inv_admit k W M now st log plan :
  1 ≤ M → plan_within k W M plan → window_inv k W M now (st, log) →
  window_inv k W M now (rate_step k (st, log) (EvAdmit plan now)).
Proof.
  intros HM [Hnd Hag] Hinv. simpl.
  destruct (admit_at st plan now) as [st' r] eqn:Ha.
  destruct (decide (k ∈ plan_keys plan)) as [Hk|Hk].
  - apply list_elem_of_fmap in Hk as (spec & -> & Hspec).
    destruct (Hag spec Hspec eq_refl) as [HW HMs].
    pose proof (admit_window _ _ _ _ _ _ Hnd Hspec Ha) as Hw.
    destruct (window_inv_prune _ _ _ _ _ _ Hinv) as (old & Hlog & Hold).
    destruct Hinv as [_ Hp Hc]. simpl in *. subst log.
    destruct r as [[]|e].
    + destruct Hw as [Hfree Hw]. apply inspect_none_iff in Hfree as [_ Hroom].
      rewrite HW in Hroom. split; simpl.
      * exists old. rewrite Hw. simpl. rewrite inspect_attempts, HW, app_assoc. done.
      * apply Forall_app. split; [done|]. repeat constructor. lia.
      * apply count_after_admission; [done| |done|done|done].
        destruct Hroom as [->|?]; [by left|right; lia].
    + split; simpl; [|done|done]. exists old. by rewrite Hw, inspect_attempts, HW.
  - pose proof (admit_other _ _ _ _ _ _ Ha Hk) as Hw.
    destruct r as [[]|e]; destruct Hinv as [Hs Hp Hc]; (split; simpl; [|done|done]);
      by rewrite Hw.
Qed.

Lemma window_inv_step k W M last acc ev :
  1 ≤ M → window_inv k W M last acc →
  match ev with EvAdmit _ _ => True | _ => window_inv k W M last (rate_step k acc ev) end.
Proof.
  intros HM Hinv. destruct acc as [st log], ev as [plan now|plan code retry now|cur nx at_ms]; [done| |].
  - simpl. destruct (record_exchange_throttle _ _ _ _ _) as [[st' e]|] eqn:Ht; [|done].
    destruct (throttle_window _ _ _ _ _ _ _ k Ht) as [Hw _].
    destruct Hinv as [Hs Hp Hc]. split; simpl; [|done|done]. by rewrite Hw.
  - destruct Hinv. by split.
Qed.

Lemma window_inv_run k W M last acc evs :
  1 ≤ M → window_inv k W M last acc → well_timed k W M last evs →
  ∀ s, Z.of_nat (count_in (s - from_millis W) s (foldl (rate_step k) acc evs).2) ≤ M.
Proof.
  intros HM. revert last acc. induction evs as [|ev evs IH]; intros last acc Hinv Hwt.
  - apply Hinv.
  - pose proof (window_inv_step k W M last acc ev HM Hinv) as Hstep.
    destruct ev as [plan now|plan code retry now|cur nx at_ms]; simpl in Hwt.
    + destruct Hwt as (Hle & Hag & Hwt). simpl. apply (IH now); [|done].
      destruct acc. apply window_inv_admit; [done|done|]. by eapply window_inv_later.
    + by apply (IH last).
    + by apply (IH last).
Qed.

(** ** Waits *)
Lemma tighten_wait c spec wait s w :
  tighten c spec wait = Some (s, w) →
  (∀ x, wait = Some x → x ≤ w) ∧ (∀ s0 x, c = Some (s0, x) → x ≤ w) ∧
  (c = Some (s, w) ∨ (s = spec ∧ wait = Some w)).
Proof.
  destruct c as [[s0 x]|], wait as [y|]; simpl; intros Ht; try done.
  - destruct (x <? y) eqn:E; reflect_bools; injection Ht as -> ->; split_and!; auto;
      intros; simplify_eq; lia.
  - injection Ht as -> ->. split_and!; auto; intros; simplify_eq; lia.
  - injection Ht as -> ->. split_and!; auto; intros; simplify_eq; lia.
Qed.

(** The evidence names a domain of the plan whose wait bounds every other. *)
Lemma scan_wait now specs ws c s w :
  NoDup (map spec_key specs) → (scan_domains now specs ws c).2 = Some (s, w) →
  (∀ s0 x, c = Some (s0, x) → x ≤ w) ∧
  (∀ spec x, spec ∈ specs →
     (inspect_window now spec (default empty_window (ws !! spec_key spec))).2 = Some x → x ≤ w) ∧
  (c = Some (s, w) ∨ s ∈ specs).
Proof.
  revert ws c. induction specs as [|s1 specs IH]; intros ws c; simpl.
  - intros _ ->. split_and!; [by intros ? ? [= -> ->]| |by left].
    intros ? ? Hin. by apply not_elem_of_nil in Hin.
  - intros [Hs1 Hnd]%NoDup_cons.
    destruct (inspect_window now s1 _) as [w' wait] eqn:Hi. intros Hscan.
    apply IH in Hscan as (Hc & Hall & Hs); [|done].
    split_and!.
    + intros s0 x ->. destruct (tighten (Some (s0, x)) s1 wait) as [[s2 y]|] eqn:Ht.
      * apply tighten_wait in Ht as (_ & Hx & _). specialize (Hx _ _ eq_refl).
        specialize (Hc _ _ eq_refl). lia.
      * by apply tighten_none in Ht as [? _].
    + intros spec x [->|Hin]%elem_of_cons.
      * rewrite Hi. simpl. intros ->.
        destruct (tighten c s1 (Some x)) as [[s2 y]|] eqn:Ht.
        -- apply tighten_wait in Ht as (Hx & _). specialize (Hx _ eq_refl).
           specialize (Hc _ _ eq_refl). lia.
        -- by apply tighten_none in Ht as [_ ?].
      * intros Hx. apply (Hall spec); [done|]. rewrite lookup_insert_ne; [done|].
        intros Heq. apply Hs1. rewrite Heq. by apply list_elem_of_fmap_2.
    + destruct Hs as [Ht|Hs]; [|by right; right].
      apply tighten_wait in Ht as (_ & _ & [?|[-> _]]); [by left|right; left].
Qed.

Lemma admit_denied st plan now st' e :
  NoDup (plan_keys plan) → admit_at st plan now = (st', Err e) →
  ∃ spec w, spec ∈ domains plan ∧ e = local_evidence plan spec w ∧ last_throttle st' = Some e ∧
    ∀ s x, s ∈ domains plan →
      (inspect_window now s (window_of st (spec_key s))).2 = Some x → x ≤ w.
Proof.
  unfold admit_at. intros Hnd Ha.
  destruct (scan_domains now (domains plan) (windows st) None) as [ws c] eqn:Hs.
  destruct c as [[spec w]|]; simplify_eq/=.
  pose proof (scan_wait now (domains plan) (windows st) None spec w Hnd) as Hw.
  rewrite Hs in Hw. destruct (Hw eq_refl) as (_ & Hall & [?|Hin]); [done|].
  exists spec, w. split_and!; [done|done|done|]. intros s x Hin'. by apply Hall.
Qed.

Lemma duration_ms_ceil_upper d :
  0 ≤ d → duration_ms_ceil d < u64_max → d ≤ from_millis (duration_ms_ceil d).
Proof.
  unfold duration_ms_ceil, saturating_add_u64, from_millis. intros Hd.
  assert (0 < u64_max) by (unfold u64_max; lia).
  rewrite (Z.mod_mod_divide d 1000000000 1000000) by (exists 1000; lia).
  destruct (d / 1000000 <=? u64_max) eqn:E1; reflect_bools;
    destruct (_ =? 0) eqn:E2; reflect_bools; try lia; intros Hlt.
  - pose proof (Z.div_mod d 1000000). lia.
  - pose proof (Z.div_mod d 1000000). pose proof (Z.mod_pos_bound d 1000000). lia.
Qed.

(** ** Plans *)
Definition plan_wf (plan : RateRequestPlan) : Prop :=
  domains plan ≠ [] ∧ NoDup (plan_keys plan) ∧
  Forall (λ s, 1 ≤ max_requests s ∧ 1000 ≤ window_ms s) (domains plan).

Lemma lookup_policy_in (P : Z * Z → Prop) table path :
  P (LOCAL_FALLBACK_LIMIT, LOCAL_FALLBACK_WINDOW_MS) → Forall (λ p, P p.2) table →
  P (lookup_policy table path).
Proof.
  intros Hd. induction 1 as [|[p v] table Hp _ IH]; simpl; [done|].
  by destruct (p =? path)%string.
Qed.

Lemma policy_bounds table path :
  Forall (λ p, 1 ≤ p.2.1 ∧ 1000 ≤ p.2.2) table →
  1 ≤ (lookup_policy table path).1 ∧ 1000 ≤ (lookup_policy table path).2.
Proof. apply (lookup_policy_in (λ p, 1 ≤ p.1 ∧ 1000 ≤ p.2)). by vm_compute. Qed.

Lemma single_plan_wf op s :
  1 ≤ max_requests s → 1000 ≤ window_ms s → plan_wf {| operation := op; domains := [s] |}.
Proof.
  intros. split_and!; [done|apply NoDup_singleton|by repeat constructor].
Qed.

Lemma public_rest_plan_wf path params : plan_wf (public_rest_plan path params).
Proof.
  unfold public_rest_plan, public_rest_policy.
  destruct (policy_bounds public_rest_limits path) as [H1 H2];
    [repeat constructor; simpl; lia|].
  destruct (lookup_policy public_rest_limits path). by apply single_plan_wf.
Qed.

Lemma private_rest_plan_wf path params : plan_wf (private_rest_plan path params).
Proof.
  unfold private_rest_plan, private_rest_policy.
  destruct (policy_bounds private_rest_limits path) as [H1 H2];
    [repeat constructor; simpl; lia|].
  destruct (lookup_policy private_rest_limits path). by apply single_plan_wf.
Qed.

Lemma trade_rest_plan_wf st op inst family : plan_wf (trade_rest_plan st op inst family).
Proof.
  unfold trade_rest_plan.
  assert (plan_wf {| operation := op; domains := [
    {| spec_key := {| key_kind := trade_domain op family;
                      key_endpoint := Some (trade_endpoint op);
                      key_scope := Some (default inst family) |};
       max_requests := TRADE_INSTRUMENT_LIMIT_PER_2S; window_ms := TRADE_WINDOW_MS |};
    {| spec_key := {| key_kind := SubaccountAggregate; key_endpoint := None;
                      key_scope := Some "authenticated_subaccount" |};
       max_requests := Z.max (current_subaccount_limit_per_2s st) 1;
       window_ms := TRADE_WINDOW_MS |} ] |}) as Htwo.
  { split_and!; [done| |].
    2:{ repeat (apply Forall_cons; split); [| |done]; simpl;
        unfold TRADE_WINDOW_MS, TRADE_INSTRUMENT_LIMIT_PER_2S; lia. }
    apply NoDup_cons. split; [|apply NoDup_singleton].
    simpl. intros Hin%list_elem_of_singleton. by destruct op, family. }
  destruct op; try exact Htwo; apply single_plan_wf; simpl; unfold TRADE_WINDOW_MS; try lia; done.
Qed.

Lemma admit_ok_window st plan now st' spec :
  NoDup (plan_keys plan) → spec ∈ domains plan → admit_at st plan now = (st', Ok tt) →
  ∃ p, attempts (window_of st (spec_key spec)) ++ [now] =
       p ++ attempts (window_of st' (spec_key spec)).
Proof.
  intros Hnd Hin Ha. pose proof (admit_window _ _ _ _ _ _ Hnd Hin Ha) as [_ Hw].
  rewrite Hw. simpl. rewrite inspect_attempts.
  destruct (prune_attempts_spec (from_millis (window_ms spec)) now
              (attempts (window_of st (spec_key spec)))) as (p & Hl & _).
  exists p. rewrite Hl at 1. by rewrite <- app_assoc.
Qed.

(** Once the wait imposed by a full (not overfull) window has elapsed, its oldest
    attempt has expired. *)
Lemma capacity_elapsed now now' spec l w :
  let h := from_millis (window_ms spec) in
  Forall (λ t, t ≤ now) l → (∀ o, head l = Some o → duration_since now o < h) →
  Z.of_nat (length l) ≤ max_requests spec →
  (∀ x, capacity_wait now spec l = Some x → x ≤ w) →
  clamp w 1 MAX_LOCAL_DEFER_MS < MAX_LOCAL_DEFER_MS →
  now + from_millis (clamp w 1 MAX_LOCAL_DEFER_MS) ≤ now' →
  prune_attempts h now' l = [] ∨ Z.of_nat (length (prune_attempts h now' l)) < max_requests spec.
Proof.
  intros h Hpast Hhead Hlen Hmax Hcap Hnow.
  destruct (prune_attempts_spec h now' l) as (p' & Hl' & _ & _).
  destruct (capacity_wait now spec l) as [x|] eqn:Hcw.
  2:{ apply capacity_wait_none in Hcw as [Hl0|Hlt]; [left|right].
      - by rewrite Hl0.
      - rewrite Hl', length_app in Hlt. lia. }
  specialize (Hmax x eq_refl). unfold capacity_wait in Hcw.
  destruct (max_requests spec <=? Z.of_nat (length l)); [|done].
  destruct l as [|o l0]; [done|]. injection Hcw as Hcw.
  specialize (Hhead o eq_refl). apply Forall_cons in Hpast as [Ho _].
  unfold duration_since in Hhead, Hcw. fold h in Hcw.
  right. assert (h ≤ duration_since now' o) as Hold.
  { unfold clamp, MAX_LOCAL_DEFER_MS, duration_since, from_millis in *.
    rewrite (proj2 (Z.ltb_lt _ _)) in Hcw by lia.
    pose proof (duration_ms_ceil_upper (Z.max 0 (o + h - now)) ltac:(lia)) as Hup.
    unfold from_millis, u64_max in Hup. repeat case_match; reflect_bools; lia. }
  simpl. apply Z.leb_le in Hold. rewrite Hold.
  destruct (prune_attempts_spec h now' l0) as (p2 & Hl2 & _).
  simpl in Hlen. rewrite Hl2, length_app in Hlen. lia.
Qed.

(** ** Theorems *)

(** C39: the sliding window is never exceeded.  Over any history of admissions,
    exchange throttles and limit updates from the initial budget, where the
    admissions are processed in the order of their instants and every plan gives
    domain [k] the window [W] and at most [M] requests, no interval of [W]
    milliseconds contains more than [M] requests admitted in that domain. *)
Theorem rate_window_bound (k : RateDomainKey) (W M t0 : Z) (evs : list rate_event)
    (HM : 1 ≤ M) (Hevs : well_timed k W M t0 evs) (s : Z) :
  Z.of_nat (count_in (s - from_millis W) s (rate_run k evs).2) ≤ M.
Proof.
  apply (window_inv_run k W M t0); [done| |done].
  split; simpl; [|constructor|intros; unfold count_in; simpl; lia].
  exists []. unfold window_of, initial_state. simpl. by rewrite lookup_empty.
Qed.

Definition sample_key : RateDomainKey :=
  {| key_kind := PublicRestIp; key_endpoint := Some "/api/v5/system/status";
     key_scope := Some "public_ip" |}.
Definition sample_plan : RateRequestPlan := public_rest_plan "/api/v5/system/status" [].
Definition sample_events : list rate_event :=
  [EvAdmit sample_plan 0; EvAdmit sample_plan 999999999; EvAdmit sample_plan 1000000000].

Lemma rate_window_bound_witness :
  (rate_run sample_key sample_events).2 = [0; 1000000000] ∧
  Z.of_nat (count_in (1000000000 - from_millis 1000) 1000000000
              (rate_run sample_key sample_events).2) ≤ 1.
Proof.
  split; [by vm_compute|].
  apply (rate_window_bound sample_key 1000 1 0 sample_events); [lia|].
  assert (∀ spec, spec ∈ domains sample_plan → spec_key spec = sample_key →
          window_ms spec = 1000 ∧ max_requests spec ≤ 1) as Hs.
  { intros spec Hin%list_elem_of_singleton _. subst. vm_compute. by split. }
  assert (NoDup (plan_keys sample_plan)) as Hnd by apply NoDup_singleton.
  simpl. split_and!; try lia; by split.
Defined.

(** Admission is exact.  A plan (whose domains are distinct) is admitted
    exactly when each of its domains is unblocked and, after expired attempts
    are pruned, is empty or below its limit; then every domain of the plan gains
    exactly the instant of this request after losing only expired ones, and every
    other domain is untouched. *)
Theorem admit_at_exact (st : RateBudgetState) (plan : RateRequestPlan) (now : Z)
    (Hnd : NoDup (plan_keys plan)) :
  ((admit_at st plan now).2 = Ok tt ↔
   ∀ spec, spec ∈ domains plan →
     let w := window_of st (spec_key spec) in
     let live := prune_attempts (from_millis (window_ms spec)) now (attempts w) in
     (∀ b, blocked_until w = Some b → b ≤ now) ∧
     (live = [] ∨ Z.of_nat (length live) < max_requests spec)) ∧
  ((admit_at st plan now).2 = Ok tt →
   (∀ spec, spec ∈ domains plan →
      attempts (window_of (admit_at st plan now).1 (spec_key spec)) =
      prune_attempts (from_millis (window_ms spec)) now
        (attempts (window_of st (spec_key spec))) ++ [now]) ∧
   (∀ k, k ∉ plan_keys plan → window_of (admit_at st plan now).1 k = window_of st k)).
Proof.
  split.
  - rewrite admit_ok_iff by done. split; intros Hall spec Hin.
    + by apply inspect_none_iff, Hall.
    + apply inspect_none_iff. by apply Hall.
  - destruct (admit_at st plan now) as [st' r] eqn:Ha. simpl. intros ->. split.
    + intros spec Hin. pose proof (admit_window _ _ _ _ _ _ Hnd Hin Ha) as [_ Hw].
      rewrite Hw. simpl. by rewrite inspect_attempts.
    + intros k Hk. by eapply admit_other.
Qed.

Lemma admit_at_exact_witness :
  (admit_at initial_state sample_plan 5).2 = Ok tt ∧
  attempts (window_of (admit_at initial_state sample_plan 5).1 sample_key) = [5].
Proof.
  assert (NoDup (plan_keys sample_plan)) as Hnd by apply NoDup_singleton.
  pose proof (admit_at_exact initial_state sample_plan 5 Hnd) as [_ H].
  assert ((admit_at initial_state sample_plan 5).2 = Ok tt) as Hok by (by vm_compute).
  split; [done|]. destruct (H Hok) as [Hw _].
  assert (∃ spec, spec ∈ domains sample_plan ∧ spec_key spec = sample_key) as (spec & Hin & Hk).
  { eexists. split; [left|by vm_compute]. }
  rewrite <- Hk, (Hw spec Hin), Hk. by vm_compute.
Defined.

(** a refusal sends nothing and records nothing.  When a plan is refused,
    the evidence is a local, unsent, retryable deferral between 1 ms and 10 s for
    one of the plan's domains, it is stored as the last throttle, and no domain
    gains an attempt (expired ones may be dropped from the front). *)
Theorem admit_refusal (st st' : RateBudgetState) (plan : RateRequestPlan) (now : Z)
    (e : RateThrottleEvidence) (Hnd : NoDup (plan_keys plan))
    (Ha : admit_at st plan now = (st', Err e)) :
  source e = LocalBudget ∧ request_sent e = false ∧ retryable e = true ∧
  1 ≤ local_defer_ms e ≤ MAX_LOCAL_DEFER_MS ∧
  last_throttle st' = Some e ∧
  (∃ spec, spec ∈ domains plan ∧ domain e = domain_evidence spec) ∧
  ∀ k, ∃ p, attempts (window_of st k) = p ++ attempts (window_of st' k).
Proof.
  destruct (admit_denied _ _ _ _ _ Hnd Ha) as (spec & w & Hin & -> & Hlast & _).
  split_and!; try done; simpl.
  - apply (clamp_bounds w 1 MAX_LOCAL_DEFER_MS). unfold MAX_LOCAL_DEFER_MS. lia.
  - apply (clamp_bounds w 1 MAX_LOCAL_DEFER_MS). unfold MAX_LOCAL_DEFER_MS. lia.
  - by exists spec.
  - intros k. destruct (decide (k ∈ plan_keys plan)) as [Hk|Hk].
    + apply list_elem_of_fmap in Hk as (s & -> & Hs).
      pose proof (admit_window _ _ _ _ _ _ Hnd Hs Ha) as Hw. simpl in Hw.
      rewrite Hw, inspect_attempts.
      destruct (prune_attempts_spec (from_millis (window_ms s)) now
                  (attempts (window_of st (spec_key s)))) as (p & Hl & _). by exists p.
    + exists []. by rewrite (admit_other _ _ _ _ _ _ Ha Hk).
Qed.

Definition deferred_ms (r : result RateThrottleEvidence unit) : Z :=
  match r with Err e => local_defer_ms e | Ok _ => 0 end.
Definition busy_state : RateBudgetState := (admit_at initial_state sample_plan 0).1.

Lemma admit_refusal_witness :
  match admit_at busy_state sample_plan 1 with
  | (_, Err e) => request_sent e = false ∧ 1 ≤ local_defer_ms e ≤ MAX_LOCAL_DEFER_MS
  | (_, Ok _) => False
  end.
Proof.
  assert (is_ok (admit_at busy_state sample_plan 1).2 = false) as Hno by (by vm_compute).
  destruct (admit_at busy_state sample_plan 1) as [st' [u|e]] eqn:Ha; [done|].
  destruct (admit_refusal busy_state st' sample_plan 1 e) as (_ & Hs & _ & Hd & _);
    [apply NoDup_singleton|done|]. by split.
Defined.

(** waiting out a refusal works.  If a plan is refused with a deferral below
    the 10 s cap while none of its domains is blocked by the exchange and none
    is over its limit, then, provided nothing else uses those domains, the same
    plan is admitted at any instant at least that deferral later. *)
Theorem deferral_suffices (st st' : RateBudgetState) (plan : RateRequestPlan) (now now' : Z)
    (e : RateThrottleEvidence) (Hnd : NoDup (plan_keys plan))
    (Ha : admit_at st plan now = (st', Err e))
    (Hcap : local_defer_ms e < MAX_LOCAL_DEFER_MS)
    (Hfree : ∀ spec, spec ∈ domains plan →
       (∀ b, blocked_until (window_of st (spec_key spec)) = Some b → b ≤ now) ∧
       Forall (λ t, t ≤ now) (attempts (window_of st (spec_key spec))) ∧
       Z.of_nat (length (attempts (window_of st (spec_key spec)))) ≤ max_requests spec)
    (Hnow : now + from_millis (local_defer_ms e) ≤ now') :
  (admit_at st' plan now').2 = Ok tt.
Proof.
  destruct (admit_denied _ _ _ _ _ Hnd Ha) as (s0 & w & Hin0 & -> & _ & Hmax).
  simpl in Hcap, Hnow. apply admit_ok_iff; [done|]. intros spec Hin.
  destruct (Hfree spec Hin) as (Hb & Hpast & Hlen).
  pose proof (admit_window _ _ _ _ _ _ Hnd Hin Ha) as Hw. simpl in Hw.
  apply inspect_none_iff. rewrite Hw, inspect_attempts.
  specialize (Hmax spec). revert Hmax. unfold inspect_window. simpl.
  set (w0 := window_of st (spec_key spec)) in *.
  set (h := from_millis (window_ms spec)) in *.
  destruct (prune_attempts_spec h now (attempts w0)) as (p & Hl & _ & Hhead).
  set (l := prune_attempts h now (attempts w0)) in *. intros Hmax. split.
  { intros b. destruct (blocked_until w0) as [b0|] eqn:Hb0; simpl; [|congruence].
    specialize (Hb b0 eq_refl). by rewrite (proj2 (Z.ltb_ge now b0) Hb). }
  apply (capacity_elapsed now now' spec l w); [by rewrite Hl, Forall_app in Hpast; destruct Hpast
    |fold h; intros o Ho; by apply Hhead|rewrite Hl, length_app in Hlen; lia| |done|done].
  intros x Hcw. apply (Hmax x Hin). destruct (blocked_until w0) as [b0|] eqn:Hb0; [|done].
  specialize (Hb b0 eq_refl). by rewrite (proj2 (Z.ltb_ge now b0) Hb).
Qed.

Lemma deferral_suffices_witness :
  (admit_at (admit_at busy_state sample_plan 1).1 sample_plan (1 + from_millis 1000)).2 = Ok tt.
Proof.
  assert (deferred_ms (admit_at busy_state sample_plan 1).2 = 1000) as Hd by (by vm_compute).
  assert (is_ok (admit_at busy_state sample_plan 1).2 = false) as Hno by (by vm_compute).
  destruct (admit_at busy_state sample_plan 1) as [st' [u|e]] eqn:Ha; [done|]. simpl in Hd.
  apply (deferral_suffices busy_state st' sample_plan 1 _ e); [apply NoDup_singleton|done| | |].
  - rewrite Hd. unfold MAX_LOCAL_DEFER_MS. lia.
  - intros spec Hin%list_elem_of_singleton. subst spec. vm_compute.
    split_and!; [done|by repeat constructor|done].
  - rewrite Hd. lia.
Defined.

(** an exchange throttle holds.  After it is recorded at [now], the deferral is
    between 1 ms and 10 s and honours the server's hint up to that cap, and until
    it elapses every plan that shares a domain with the throttled one is refused. *)
Theorem throttle_blocks (st st' : RateBudgetState) (plan : RateRequestPlan) (code : string)
    (retry : option Z) (now : Z) (e : RateThrottleEvidence)
    (Ht : record_exchange_throttle st plan code retry now = Some (st', e)) :
  1 ≤ local_defer_ms e ≤ MAX_LOCAL_DEFER_MS ∧
  (∀ server, retry = Some server → Z.min server MAX_LOCAL_DEFER_MS ≤ local_defer_ms e) ∧
  ∀ plan' now' k, NoDup (plan_keys plan') → k ∈ plan_keys plan → k ∈ plan_keys plan' →
    now' < now + from_millis (local_defer_ms e) →
    is_ok (admit_at st' plan' now').2 = false.
Proof.
  assert (local_defer_ms e = exchange_defer_ms plan code retry) as He.
  { unfold record_exchange_throttle in Ht.
    by destruct (select_exchange_domain plan code); simplify_eq/=. }
  split_and!.
  - rewrite He. apply clamp_bounds. unfold MAX_LOCAL_DEFER_MS. lia.
  - rewrite He. apply clamp_bounds. unfold MAX_LOCAL_DEFER_MS. lia.
  - intros server ->. rewrite He. unfold exchange_defer_ms. cbv zeta.
    set (local := if (code =? _)%string then _ else _).
    unfold clamp, MAX_LOCAL_DEFER_MS. repeat case_match; reflect_bools; lia.
  - intros plan' now' k Hnd Hk Hk' Hnow.
    destruct (throttle_window _ _ _ _ _ _ _ k Ht) as [_ Hb].
    destruct (Hb Hk) as (b & Hb1 & Hb2).
    destruct (admit_at st' plan' now') as [st2 [[]|e2]] eqn:Ha; [|done].
    assert ((admit_at st' plan' now').2 = Ok tt) as Hok by (by rewrite Ha).
    pose proof (proj1 (admit_ok_iff st' plan' now' Hnd) Hok) as Hall.
    apply list_elem_of_fmap in Hk' as (spec & -> & Hin).
    apply Hall, inspect_none_iff in Hin as [Hin _]. specialize (Hin b Hb1). lia.
Qed.

Lemma throttle_blocks_witness :
  match record_exchange_throttle initial_state sample_plan "50011" (Some 3000) 7 with
  | Some (st', e) => local_defer_ms e = 3000 ∧ is_ok (admit_at st' sample_plan 2000000000).2 = false
  | None => False
  end.
Proof.
  assert (match record_exchange_throttle initial_state sample_plan "50011" (Some 3000) 7 with
          | Some (_, e) => local_defer_ms e | None => 0 end = 3000) as Hd by (by vm_compute).
  destruct (record_exchange_throttle initial_state sample_plan "50011" (Some 3000) 7)
    as [[st' e]|] eqn:Ht; [|done].
  split; [done|].
  apply (throttle_blocks _ _ _ _ _ _ _ Ht) with (k := sample_key);
    [apply NoDup_singleton|left|left|]. rewrite Hd. unfold from_millis. lia.
Defined.

(** every plan the budget builds is well formed: it has a domain (so the
    throttle recorder never panics), no domain twice, limits of at least one
    request and windows of at least one second. *)
Theorem plans_well_formed (st : RateBudgetState) (path inst scope : string)
    (params : list (string * string)) (op : RateOperationClass) (family : option string) :
  plan_wf (public_rest_plan path params) ∧ plan_wf (private_rest_plan path params) ∧
  plan_wf (amend_algo_rest_plan inst) ∧ plan_wf (trade_rest_plan st op inst family) ∧
  plan_wf (ws_control_plan op scope) ∧ plan_wf (ws_order_plan st op inst family) ∧
  ∀ code retry now,
    record_exchange_throttle st (trade_rest_plan st op inst family) code retry now ≠ None.
Proof.
  split; [apply public_rest_plan_wf|]. split; [apply private_rest_plan_wf|].
  split; [exact (private_rest_plan_wf _ _)|]. split; [apply trade_rest_plan_wf|].
  split; [by apply single_plan_wf; vm_compute|].
  split; [exact (trade_rest_plan_wf _ _ _ _)|].
  intros code retry now. unfold record_exchange_throttle, select_exchange_domain.
  destruct (trade_rest_plan_wf st op inst family) as [Hne _].
  destruct (domains (trade_rest_plan st op inst family)) as [|d ds]; [done|].
  destruct (code =? SUBACCOUNT_RATE_LIMIT_CODE)%string; [|done].
  by destruct (snd <$> list_find _ (d :: ds)).
Qed.

(** waiting terminates.  Whatever the other holders of the budget do, if sleeping
    lasts at least as long as asked, [admit_wait] returns: [max_wait] in
    milliseconds plus one iteration suffices.  Each iteration that sleeps moves
    the clock by at least a millisecond, so the remaining wait runs out. *)
Theorem admit_wait_terminates (sleep : Z → Z → Z)
    (others : Z → RateBudgetState → RateBudgetState) (plan : RateRequestPlan)
    (max_wait started now : Z) (st : RateBudgetState) (fuel : nat)
    (Hsleep : ∀ t d, t + d ≤ sleep t d) (Hnd : NoDup (plan_keys plan)) (Hnow : started ≤ now)
    (Hfuel : max_wait - (now - started) < from_millis (Z.of_nat fuel)) (Hpos : (0 < fuel)%nat) :
  is_Some (admit_wait sleep others fuel plan max_wait started now st).
Proof.
  revert now st Hnow Hfuel. induction fuel as [|fuel IH]; [lia|]. intros now st Hnow Hfuel.
  simpl. destruct (admit_at st plan now) as [st' [u|e]] eqn:Ha; [by eexists|].
  destruct (admit_refusal _ _ _ _ _ Hnd Ha) as (Hs & Hsent & _ & Hd & _).
  rewrite Hs, Hsent. simpl.
  destruct ((from_millis (local_defer_ms e) =? 0) || _) eqn:E; [by eexists|].
  apply orb_false_iff in E as [E1 E2]. reflect_bools.
  pose proof (Hsleep now (from_millis (local_defer_ms e))) as Hsl.
  unfold duration_since, from_millis in *.
  destruct fuel as [|fuel]; [exfalso; lia|]. apply IH; lia.
Qed.

Lemma admit_wait_terminates_witness :
  let run := admit_wait Z.add (λ _ st, st) 21 sample_plan (from_millis 20)
               (from_millis 980) (from_millis 980) busy_state in
  is_Some run ∧ match run with Some (_, r) => is_ok r = true | None => False end.
Proof.
  split.
  - apply admit_wait_terminates; [intros; lia|apply NoDup_singleton|lia| |lia].
    unfold from_millis. lia.
  - by vm_compute.
Defined.
