(* ===== verification/TradeApi.v ===== *)
(** * TradeApi: orders on the wire, [okx-api/src/trade.rs]

    The rows of the trade endpoints, the validation of requests, the answers of the
    single-row lookups, and the two inventories of pending algo orders.
    [risk_inventory_exact] says what an inventory contains; [samples_show_all] that its samples,
    which the callers compare with the orders they know, can miss an order of a complete
    inventory. *)
From stdpp Require Import base option list numbers strings gmap sets.
From Stdlib Require Import ZArith Lia Ascii String Sorted.
From S2P Require Import Prelude Text Ordered External Protocol RateBudget.
Local Open Scope string_scope.
Local Open Scope list_scope.
Local Open Scope Z_scope.

Definition PROTECTIVE_ALGO_PAGE_LIMIT : Z := 100.
Definition PROTECTIVE_ALGO_SAMPLE_LIMIT : Z := 8.
Definition DERIVATIVE_ALGO_TYPES : list string :=
  ["conditional"; "oco"; "trigger"; "move_order_stop"; "chase"; "iceberg"; "twap"; "smart_iceberg"].


(** ** Requests and answers *)
Inductive ApiTradeMode : Type := Cross | Isolated.
Inductive ApiOrderSide : Type := Buy | Sell.
Inductive ApiPositionSide : Type := LongSide | ShortSide.
Inductive ApiOrderType : Type := Limit | PostOnly | Fok | Ioc.
Inductive ApiTriggerPriceType : Type := Last | Index | Mark.

Record AttachedAlgoOrderRequest : Type := {
  aar_client_order_id : string;
  aar_take_profit_trigger_price : string;
  aar_take_profit_trigger_price_type : ApiTriggerPriceType;
  aar_take_profit_order_price : string;
  aar_stop_loss_trigger_price : string;
  aar_stop_loss_trigger_price_type : ApiTriggerPriceType;
  aar_stop_loss_order_price : string;
}.
Record PlaceOrderRequest : Type := {
  por_instrument_id : string;
  por_trade_mode : ApiTradeMode;
  por_client_order_id : string;
  por_side : ApiOrderSide;
  por_position_side : ApiPositionSide;
  por_order_type : ApiOrderType;
  por_size : string;
  por_price : string;
  por_attached_algo_orders : list AttachedAlgoOrderRequest;
}.
Record CancelOrderRequest : Type := {
  cor_instrument_id : string;
  cor_client_order_id : string;
}.
Record CancelAlgoOrderRequest : Type := {
  car_instrument_id : string;
  car_algo_order_id : string;
}.
Record AmendOrderRequest : Type := {
  aor_instrument_id : string;
  aor_client_order_id : string;
  aor_request_id : string;
  aor_cancel_on_fail : bool;
  aor_new_size : option string;
  aor_new_price : option string;
}.
Record AmendAlgoOrderRequest : Type := {
  aao_instrument_id : string;
  aao_algo_order_id : string;
  aao_request_id : string;
  aao_new_size : string;
  aao_cancel_on_fail : bool;
}.
Record CancelAlgoOrderAck : Type := {
  caa_algo_order_id : string;
  caa_status_code : string;
  caa_status_message : string;
}.
Record OrderOperationAck : Type := {
  ooa_order_id : string;
  ooa_client_order_id : string;
  ooa_request_id : string;
  ooa_timestamp_ms : string;
  ooa_status_code : string;
  ooa_status_message : string;
}.
Definition accepted (a : OrderOperationAck) : bool := (ooa_status_code a =? "0")%string.

Record TradeResponse {T : Type} : Type := {
  tr_code : string;
  tr_message : string;
  tr_data : list T;
  tr_in_time_us : string;
  tr_out_time_us : string;
}.
Arguments TradeResponse : clear implicits.
Definition top_level_success {T} (r : TradeResponse T) : bool := (tr_code r =? "0")%string.

Record TradeOrderDetails : Type := {
  tod_instrument_id : string;
  tod_order_id : string;
  tod_client_order_id : string;
  tod_side : string;
  tod_position_side : string;
  tod_trade_mode : string;
  tod_order_type : string;
  tod_price : string;
  tod_size : string;
  tod_accumulated_fill_size : string;
  tod_average_fill_price : string;
  tod_state : string;
  tod_creation_time_ms : string;
  tod_update_time_ms : string;
}.
Record TradeAlgoOrderDetails : Type := {
  tad_instrument_id : string;
  tad_algo_order_id : string;
  tad_client_order_id : string;
  tad_state : string;
  tad_take_profit_trigger_price : string;
  tad_take_profit_trigger_price_type : string;
  tad_take_profit_order_price : string;
  tad_stop_loss_trigger_price : string;
  tad_stop_loss_trigger_price_type : string;
  tad_stop_loss_order_price : string;
  tad_failure_code : string;
  tad_size : string;
  tad_side : string;
  tad_position_side : string;
  tad_trade_mode : string;
  tad_order_type : string;
  tad_close_fraction : string;
}.
Record PendingAlgoOrderDetails : Type := {
  pad_instrument_type : string;
  pad_order_type : string;
  pad_instrument_id : string;
  pad_algo_order_id : string;
  pad_client_order_id : string;
  pad_state : string;
}.
Record PendingProtectiveAlgoSample : Type := {
  pas_instrument_id : string;
  pas_algo_order_id : string;
  pas_client_order_id : string;
  pas_order_type : string;
  pas_state : string;
}.
Record PendingProtectiveAlgoInventory : Type := {
  ppi_rows : Z;
  ppi_complete_within_bound : bool;
  ppi_samples : list PendingProtectiveAlgoSample;
}.
Record PendingDerivativeAlgoRiskInventory : Type := {
  pri_scopes_checked : Z;
  pri_rows : Z;
  pri_complete_within_bound : bool;
  pri_received_at_ms : Z;
  pri_samples : list PendingProtectiveAlgoSample;
}.

(** ** Validation.  The errors are the two variants of [OkxError] raised here; the message
    of [NotPositive] quotes the field and its bounded text. *)
Inductive OkxError : Type :=
| Config (message : string)
| Response (message : string)
| NotPositive (field bounded_raw : string).
Definition ensure (ok : bool) (e : OkxError) : result OkxError unit := if ok then Ok tt else Err e.

Definition is_ascii (s : string) : bool := bytes_all (byte_in 0 127) s.
Definition validate_instrument_id (value : string) : result OkxError unit :=
  ensure (negb (is_blank value || (128 <? len value) || negb (is_ascii value))) (Config "instId is invalid").
Definition validate_client_id (field value : string) : result OkxError unit :=
  ensure (negb ((value =? "")%string || (32 <? len value) || negb (bytes_all is_alphanumeric value)))
    (Config (field +:+ " must be 1..=32 ASCII alphanumeric characters")).
Definition validate_nonempty (field value : string) : result OkxError unit :=
  ensure (negb (is_blank value || (128 <? len value))) (Config (field +:+ " is invalid")).

Definition validate_attached (a : AttachedAlgoOrderRequest) : result OkxError unit :=
  _ ← validate_client_id "attachAlgoClOrdId" (aar_client_order_id a);
  _ ← (if negb (aar_take_profit_trigger_price a =? "")%string
          || negb (aar_take_profit_order_price a =? "")%string
       then _ ← validate_nonempty "tpTriggerPx" (aar_take_profit_trigger_price a);
            validate_nonempty "tpOrdPx" (aar_take_profit_order_price a)
       else Ok tt);
  _ ← validate_nonempty "slTriggerPx" (aar_stop_loss_trigger_price a);
  validate_nonempty "slOrdPx" (aar_stop_loss_order_price a).
Definition validate_place (request : PlaceOrderRequest) : result OkxError unit :=
  _ ← validate_instrument_id (por_instrument_id request);
  _ ← validate_client_id "clOrdId" (por_client_order_id request);
  _ ← validate_nonempty "sz" (por_size request);
  _ ← validate_nonempty "px" (por_price request);
  try_fold (λ _, validate_attached) tt (por_attached_algo_orders request).
Definition validate_opt (field : string) (value : option string) : result OkxError unit :=
  match value with None => Ok tt | Some v => validate_nonempty field v end.
Definition validate_amend (request : AmendOrderRequest) : result OkxError unit :=
  _ ← validate_instrument_id (aor_instrument_id request);
  _ ← validate_client_id "clOrdId" (aor_client_order_id request);
  _ ← validate_client_id "reqId" (aor_request_id request);
  _ ← ensure (is_some (aor_new_size request) || is_some (aor_new_price request))
        (Config "amend order requires newSz and/or newPx");
  _ ← validate_opt "newSz" (aor_new_size request);
  validate_opt "newPx" (aor_new_price request).

Definition exact_algo_id (value : string) : bool :=
  negb (value =? "")%string && (len value <=? 64) && bytes_all is_digit value.
Definition amend_algo_validate (r : AmendAlgoOrderRequest) : result OkxError unit :=
  _ ← validate_instrument_id (aao_instrument_id r);
  _ ← ensure (exact_algo_id (aao_algo_order_id r)) (Config "algoId must be one exact numeric exchange ID");
  _ ← validate_client_id "reqId" (aao_request_id r);
  _ ← ensure (negb (aao_cancel_on_fail r))
        (Config "amend-algos may not cancel existing protection on failure");
  let '(whole, fraction) := default (aao_new_size r, "") (split_once "." (aao_new_size r)) in
  ensure (negb (aao_new_size r =? "")%string && (len (aao_new_size r) <=? 64)
          && negb (whole =? "")%string && bytes_all is_digit whole && bytes_all is_digit fraction
          && bytes_any (byte_in 49 57) (aao_new_size r))
    (Config "newSz must be a positive decimal").

(** The validation in [admit_cancel_order] and [admit_cancel_algo_order] *)
Definition validate_cancel (request : CancelOrderRequest) : result OkxError unit :=
  _ ← validate_instrument_id (cor_instrument_id request);
  validate_client_id "clOrdId" (cor_client_order_id request).
Definition validate_cancel_algo (request : CancelAlgoOrderRequest) : result OkxError unit :=
  _ ← validate_instrument_id (car_instrument_id request);
  ensure (exact_algo_id (car_algo_order_id request)) (Config "algoId must be a numeric exchange order ID").

(** ** Lookups: what the rows of the answer give *)
Definition order_by_client_id (instrument_id client_order_id : string) (orders : list TradeOrderDetails)
    : result OkxError TradeOrderDetails :=
  match orders with
  | [order] =>
    if negb (tod_instrument_id order =? instrument_id)%string
       || negb (tod_client_order_id order =? client_order_id)%string
    then Err (Response "order detail identity does not match requested instId/clOrdId") else Ok order
  | _ => Err (Response ("expected exactly one order detail, found " +:+ show_u64 (count orders)))
  end.
Definition algo_order_by_client_id (client_order_id : string) (orders : list TradeAlgoOrderDetails)
    : result OkxError TradeAlgoOrderDetails :=
  match orders with
  | [order] =>
    if negb (tad_client_order_id order =? client_order_id)%string
    then Err (Response "algo order detail identity does not match requested algoClOrdId") else Ok order
  | _ => Err (Response ("expected exactly one algo order detail, found " +:+ show_u64 (count orders)))
  end.

(** ** Account rate limit *)
Inductive AccountRateLimitSource : Type := ExchangeLimit | DemoBaseFallback.
#[export] Instance AccountRateLimitSource_eq_dec : EqDecision AccountRateLimitSource.
Proof. solve_decision. Defined.
Record RawAccountRateLimit : Type := {
  raw_current_orders_per_2s : string;
  raw_next_orders_per_2s : string;
  raw_fill_ratio : string;
  raw_main_fill_ratio : string;
  raw_updated_at_ms : string;
}.
Record AccountRateLimitEvidence : Type := {
  rle_source : AccountRateLimitSource;
  rle_current_orders_per_2s : Z;
  rle_next_orders_per_2s : option Z;
  rle_fill_ratio : option string;
  rle_main_fill_ratio : option string;
  rle_updated_at_ms : option Z;
}.

Definition bounded_raw (raw : string) : string :=
  if (len raw <=? 64) && is_ascii raw then raw else "<non-ascii-or-oversized>".
Definition parse_positive (bound : Z) (field value : string) : result OkxError Z :=
  match parse_u64 (trim value) with
  | Some n => if (n <=? bound) && (0 <? n) then Ok n else Err (NotPositive field (bounded_raw (trim value)))
  | None => Err (NotPositive field (bounded_raw (trim value)))
  end.
Definition parse_positive_u32 : string → string → result OkxError Z := parse_positive u32_max.
Definition parse_positive_u64 : string → string → result OkxError Z := parse_positive u64_max.
Definition parse_optional_positive_u32 (field value : string) : result OkxError (option Z) :=
  if is_blank value then Ok None else Some <$> parse_positive_u32 field value.
Definition parse_current_account_rate_limit (demo : bool) (value : string)
    : result OkxError (Z * AccountRateLimitSource) :=
  if demo && one_of [""; "0"] (trim value)
  then Ok (DEFAULT_SUBACCOUNT_ORDER_LIMIT_PER_2S, DemoBaseFallback)
  else n ← parse_positive_u32 "accRateLimit" value; Ok (n, ExchangeLimit).
Definition parse_account_rate_limit_timestamp (source : AccountRateLimitSource) (value : string)
    : result OkxError (option Z) :=
  if bool_decide (source = DemoBaseFallback) && is_blank value then Ok None
  else Some <$> parse_positive_u64 "account-rate-limit ts" value.
Definition parse_optional_ratio (field value : string) : result OkxError (option string) :=
  let value := trim value in
  if (value =? "")%string then Ok None else
  if (64 <? len value) || negb (bytes_all (λ b, is_digit b || (b =? ".")%char) value)
     || (1 <? count (List.filter (λ b, (b =? ".")%char) (list_ascii_of_string value)))
  then Err (Response (field +:+ " is not a decimal ratio")) else Ok (Some value).

(** [account_rate_limit]: the evidence, and the arguments of
    [update_subaccount_rate_limit] when the exchange sets the limit *)
Definition account_rate_limit (demo : bool) (rows : list RawAccountRateLimit)
    : result OkxError (AccountRateLimitEvidence * option (Z * option Z * Z)) :=
  match rows with
  | [row] =>
    '(current, source) ← parse_current_account_rate_limit demo (raw_current_orders_per_2s row);
    next ← (if demo && bool_decide (source = DemoBaseFallback)
               && (trim (raw_next_orders_per_2s row) =? "0")%string
            then Ok None
            else parse_optional_positive_u32 "nextAccRateLimit" (raw_next_orders_per_2s row));
    updated ← parse_account_rate_limit_timestamp source (raw_updated_at_ms row);
    fill ← parse_optional_ratio "fillRatio" (raw_fill_ratio row);
    main_fill ← parse_optional_ratio "mainFillRatio" (raw_main_fill_ratio row);
    budget ← match source, updated with
             | ExchangeLimit, Some at_ => Ok (Some (current, next, at_))
             | ExchangeLimit, None =>
               Err (Response "exchange account-rate-limit timestamp is unavailable")
             | DemoBaseFallback, _ => Ok None
             end;
    Ok ({| rle_source := source; rle_current_orders_per_2s := current;
           rle_next_orders_per_2s := next; rle_fill_ratio := fill;
           rle_main_fill_ratio := main_fill; rle_updated_at_ms := updated |}, budget)
  | _ => Err (Response ("expected exactly one account-rate-limit row, found " +:+ show_u64 (count rows)))
  end.

(** ** Inventories of pending algo orders *)
Definition Batch : Type := string * string * list PendingAlgoOrderDetails.
Definition sample_of (item : PendingAlgoOrderDetails) : PendingProtectiveAlgoSample := {|
  pas_instrument_id := pad_instrument_id item;
  pas_algo_order_id := pad_algo_order_id item;
  pas_client_order_id := pad_client_order_id item;
  pas_order_type := pad_order_type item;
  pas_state := pad_state item;
|}.

(** The state of the two loops: scopes and ids seen, rows, completeness, samples *)
Record Census : Type := {
  c_ids : gset string;
  c_seen : gset (string * string);
  c_rows : Z;
  c_complete : bool;
  c_samples : list PendingProtectiveAlgoSample;
}.
Definition empty_census : Census :=
  {| c_ids := ∅; c_seen := ∅; c_rows := 0; c_complete := true; c_samples := [] |}.
Definition item_consistent (absent : string → bool) (scope : string * string)
    (ids : gset string) (item : PendingAlgoOrderDetails) : bool :=
  (pad_instrument_type item =? scope.1)%string && (pad_order_type item =? scope.2)%string
  && negb (absent (pad_algo_order_id item)) && negb (absent (pad_instrument_id item))
  && one_of ["live"; "pause"] (pad_state item) && bool_decide (pad_algo_order_id item ∉ ids).
Definition count_item (absent : string → bool) (message : string) (scope : string * string)
    (c : Census) (item : PendingAlgoOrderDetails) : result OkxError Census :=
  if negb (item_consistent absent scope (c_ids c) item) then Err (Response message) else
  Ok {| c_ids := {[pad_algo_order_id item]} ∪ c_ids c; c_seen := c_seen c; c_rows := c_rows c + 1;
        c_complete := c_complete c;
        c_samples := if count (c_samples c) <? PROTECTIVE_ALGO_SAMPLE_LIMIT
                     then c_samples c ++ [sample_of item] else c_samples c |}.
Definition enter_scope (complete : bool) (scope : string * string) (c : Census) : Census :=
  {| c_ids := c_ids c; c_seen := {[scope]} ∪ c_seen c; c_rows := c_rows c;
     c_complete := c_complete c && complete; c_samples := c_samples c |}.

Definition empty_text (s : string) : bool := (s =? "")%string.
Definition derivative_batch (c : Census) (b : Batch) : result OkxError Census :=
  let '(instrument_type, order_type, rows) := b in let scope := (instrument_type, order_type) in
  if negb (one_of ["SWAP"; "FUTURES"] instrument_type) || negb (one_of DERIVATIVE_ALGO_TYPES order_type)
     || bool_decide (scope ∈ c_seen c) || (PROTECTIVE_ALGO_PAGE_LIMIT <? count rows)
  then Err (Response "invalid or repeated derivatives risk algo query scope") else
  try_fold (count_item empty_text "inconsistent or duplicate derivatives pending algo" scope)
    (enter_scope (negb (count rows =? PROTECTIVE_ALGO_PAGE_LIMIT)) scope c) rows.
Definition normalize_derivative_algo_risk_inventory (batches : list Batch)
    : result OkxError PendingDerivativeAlgoRiskInventory :=
  c ← try_fold derivative_batch empty_census batches;
  if negb (Z.of_nat (size (c_seen c)) =? count DERIVATIVE_ALGO_TYPES * 2)
  then Err (Response "one or more derivatives pending algo categories are missing") else
  Ok {| pri_scopes_checked := Z.of_nat (size (c_seen c)); pri_rows := c_rows c;
        pri_complete_within_bound := c_complete c; pri_received_at_ms := 0;
        pri_samples := c_samples c |}.

Definition protective_batch (c : Census) (b : Batch) : result OkxError Census :=
  let '(instrument_type, order_type, rows) := b in let scope := (instrument_type, order_type) in
  if negb (one_of ["SWAP"; "FUTURES"] instrument_type) || negb (one_of ["conditional"; "oco"] order_type)
     || bool_decide (scope ∈ c_seen c)
  then Err (Response "invalid or duplicate pending protective algo query scope") else
  if PROTECTIVE_ALGO_PAGE_LIMIT <? count rows
  then Err (Response "pending protective algo page exceeded hard bound") else
  try_fold (count_item is_blank
      "pending protective algo has invalid exchange identity/type/state or duplicate algoId" scope)
    (enter_scope (count rows <? PROTECTIVE_ALGO_PAGE_LIMIT) scope c) rows.
Definition normalize_protective_algo_inventory (batches : list Batch)
    : result OkxError PendingProtectiveAlgoInventory :=
  c ← try_fold protective_batch empty_census batches;
  if negb (Z.of_nat (size (c_seen c)) =? 4)
  then Err (Response "pending protective algo inventory lacks one or more required scopes") else
  Ok {| ppi_rows := c_rows c; ppi_complete_within_bound := c_complete c; ppi_samples := c_samples c |}.

Definition scope_of (b : Batch) : string * string := b.1.
(** [min] of the receipt times, zero when there is none *)
Definition earliest (responses : list (Batch * Z)) : Z :=
  match responses with [] => 0 | (_, r) :: l => foldl (λ m x, Z.min m x.2) r l end.
Definition receipted_derivative_inventory (responses : list (Batch * Z))
    : result OkxError PendingDerivativeAlgoRiskInventory :=
  let batches := sort_by (cmp_on scope_of) (map fst responses) in
  i ← normalize_derivative_algo_risk_inventory batches;
  Ok {| pri_scopes_checked := pri_scopes_checked i; pri_rows := pri_rows i;
        pri_complete_within_bound := pri_complete_within_bound i;
        pri_received_at_ms := earliest responses; pri_samples := pri_samples i |}.

(** ** What an inventory is made of *)
Definition algo_ids (items : list PendingAlgoOrderDetails) : list string := map pad_algo_order_id items.
Definition all_rows (bs : list Batch) : list PendingAlgoOrderDetails := List.concat (map snd bs).
Definition pages_below_limit (bs : list Batch) : bool :=
  forallb (λ b : Batch, count b.2 <? PROTECTIVE_ALGO_PAGE_LIMIT) bs.
Definition census_of (scopes : list (string * string)) (items : list PendingAlgoOrderDetails)
    (complete : bool) : Census := {|
  c_ids := list_to_set (algo_ids items); c_seen := list_to_set scopes; c_rows := count items;
  c_complete := complete; c_samples := take 8 (map sample_of items) |}.

(** A row that belongs to its scope *)
Record row_of (absent : string → bool) (scope : string * string) (item : PendingAlgoOrderDetails) : Prop := {
  row_type : pad_instrument_type item = scope.1;
  row_order_type : pad_order_type item = scope.2;
  row_id : absent (pad_algo_order_id item) = false;
  row_instrument : absent (pad_instrument_id item) = false;
  row_state : pad_state item = "live" ∨ pad_state item = "pause";
}.

Lemma one_of_iff l s : one_of l s = true ↔ s ∈ l.
Proof.
  unfold one_of. rewrite existsb_exists. split.
  - intros (x & Hx & E). apply String.eqb_eq in E as ->. by apply list_elem_of_In.
  - intros Hs. exists s. split; [by apply list_elem_of_In|by apply String.eqb_eq].
Qed.

Lemma item_consistent_iff absent scope ids item :
  item_consistent absent scope ids item = true ↔ row_of absent scope item ∧ pad_algo_order_id item ∉ ids.
Proof.
  unfold item_consistent.
  rewrite !andb_true_iff, !negb_true_iff, !String.eqb_eq, bool_decide_eq_true, one_of_iff.
  split.
  - intros (((((? & ?) & ?) & ?) & Hs) & ?). split; [|done]. constructor; try done. set_solver.
  - intros [[? ? ? ? Hs] ?]. split_and!; try done. set_solver.
Qed.

Lemma take_snoc {A} n (l : list A) x :
  (if count (take n l) <? Z.of_nat n then take n l ++ [x] else take n l) = take n (l ++ [x]).
Proof.
  unfold count. rewrite length_take. destruct (Z.ltb_spec (Z.of_nat (n `min` List.length l)) (Z.of_nat n)).
  - rewrite (take_ge l) by lia. rewrite take_ge; [done|]. rewrite length_app. simpl. lia.
  - rewrite take_app_le; [done|lia].
Qed.

Lemma count_item_ok absent m scope scopes items complete item c' :
  count_item absent m scope (census_of scopes items complete) item = Ok c' ↔
  row_of absent scope item ∧ pad_algo_order_id item ∉ algo_ids items
  ∧ c' = census_of scopes (items ++ [item]) complete.
Proof.
  unfold count_item. simpl.
  destruct (item_consistent _ _ _ _) eqn:E; simpl.
  - apply item_consistent_iff in E as [Hr Hi]. rewrite elem_of_list_to_set in Hi.
    transitivity (c' = census_of scopes (items ++ [item]) complete); [|tauto].
    unfold census_of, algo_ids. rewrite !map_app. simpl. rewrite list_to_set_app_L. simpl.
    pose proof (take_snoc 8 (map sample_of items) (sample_of item)) as Et.
    change (Z.of_nat 8) with PROTECTIVE_ALGO_SAMPLE_LIMIT in Et. rewrite Et.
    replace (count items + 1) with (count (items ++ [item]))
      by (unfold count; rewrite length_app; simpl; lia).
    rewrite (union_comm_L _ (list_to_set _)), union_empty_r_L. split; [by intros [= <-]|by intros ->].
  - split; [done|]. intros (Hr & Hi & _). apply not_true_iff_false in E. destruct E.
    apply item_consistent_iff. by rewrite elem_of_list_to_set.
Qed.

Lemma count_items absent m scope scopes items complete rows c' :
  NoDup (algo_ids items) →
  try_fold (count_item absent m scope) (census_of scopes items complete) rows = Ok c' ↔
  Forall (row_of absent scope) rows ∧ NoDup (algo_ids (items ++ rows))
  ∧ c' = census_of scopes (items ++ rows) complete.
Proof.
  revert items. induction rows as [|r rows IH]; intros items Hn; simpl.
  - rewrite app_nil_r. split; [intros [= <-]; auto|by intros (_ & _ & ->)].
  - split.
    + intros (c1 & E1 & E2)%bind_ok. apply count_item_ok in E1 as (Hr & Hi & ->).
      apply IH in E2 as (Hf & Hnd & ->).
      * rewrite <- app_assoc in *. auto.
      * unfold algo_ids. rewrite map_app. apply NoDup_app. split_and!; [done|set_solver|apply NoDup_singleton].
    + intros (Hf & Hnd & ->). apply Forall_cons in Hf as [Hr Hf].
      replace (items ++ r :: rows) with ((items ++ [r]) ++ rows) in * by (by rewrite <- app_assoc).
      assert (Hn1 : NoDup (algo_ids (items ++ [r]))).
      { revert Hnd. unfold algo_ids. rewrite !map_app. by intros [? _]%NoDup_app. }
      apply (proj2 (bind_ok_iff _ _ _)). eexists. split; [apply count_item_ok; split_and!; [done| |reflexivity]|].
      * revert Hn1. unfold algo_ids. rewrite map_app. intros (_ & Hx & _)%NoDup_app.
        intros Hin. by apply (Hx _ Hin), list_elem_of_singleton.
      * by apply IH.
Qed.

Section inventory.
Variables (types : list string) (absent : string → bool) (message : string).
Variable (step : Census → Batch → result OkxError Census).
Hypothesis (step_ok : ∀ c b c', step c b = Ok c' ↔
  b.1.1 ∈ ["SWAP"; "FUTURES"] ∧ b.1.2 ∈ types ∧ scope_of b ∉ c_seen c
  ∧ count b.2 ≤ PROTECTIVE_ALGO_PAGE_LIMIT
  ∧ try_fold (count_item absent message (scope_of b))
      (enter_scope (count b.2 <? PROTECTIVE_ALGO_PAGE_LIMIT) (scope_of b) c) b.2 = Ok c').

(** The answers an inventory accepts: each scope once, pages within the limit, rows of
    their scope, no id twice *)
Record wf_batches (bs : list Batch) : Prop := {
  wf_scopes : NoDup (map scope_of bs);
  wf_scope : ∀ b, b ∈ bs → b.1.1 ∈ ["SWAP"; "FUTURES"] ∧ b.1.2 ∈ types;
  wf_page : ∀ b, b ∈ bs → count b.2 ≤ PROTECTIVE_ALGO_PAGE_LIMIT;
  wf_rows : ∀ b, b ∈ bs → Forall (row_of absent (scope_of b)) b.2;
  wf_ids : NoDup (algo_ids (all_rows bs));
}.

Lemma all_rows_snoc bs b : all_rows (bs ++ [b]) = all_rows bs ++ b.2.
Proof. unfold all_rows. rewrite map_app, List.concat_app. simpl. by rewrite app_nil_r. Qed.

Lemma enter_census scopes items complete page s :
  enter_scope page s (census_of scopes items complete)
  = census_of (scopes ++ [s]) items (complete && page).
Proof.
  unfold enter_scope, census_of. simpl. f_equal. rewrite list_to_set_app_L. simpl. set_solver.
Qed.

Lemma wf_batches_snoc bs b :
  wf_batches (bs ++ [b]) ↔ wf_batches bs ∧ b.1.1 ∈ ["SWAP"; "FUTURES"] ∧ b.1.2 ∈ types
    ∧ scope_of b ∉ map scope_of bs ∧ count b.2 ≤ PROTECTIVE_ALGO_PAGE_LIMIT
    ∧ Forall (row_of absent (scope_of b)) b.2 ∧ NoDup (algo_ids (all_rows bs ++ b.2)).
Proof.
  split.
  - intros [Hs Hk Hp Hr Hi]. rewrite all_rows_snoc in Hi. rewrite map_app in Hs.
    apply NoDup_app in Hs as (Hs & Hx & _).
    assert (Hb : b ∈ bs ++ [b]) by set_solver. split_and!; try apply (Hk b Hb); auto.
    + constructor; try (intros b' Hb'; (apply Hk || apply Hp || apply Hr); set_solver); [done|].
      unfold algo_ids in *. rewrite map_app in Hi. by apply NoDup_app in Hi as [? _].
    + intros Hin. apply (Hx _ Hin). simpl. set_solver.
  - intros ([Hs Hk Hp Hr Hi] & H1 & H2 & H3 & H4 & H5 & H6). constructor.
    + rewrite map_app. apply NoDup_app. split_and!; [done| |apply NoDup_singleton].
      intros x Hx Hy. simpl in Hy. apply list_elem_of_singleton in Hy as ->. done.
    + intros b' [Hb|Hb]%elem_of_app; [|apply list_elem_of_singleton in Hb as ->]; auto.
    + intros b' [Hb|Hb]%elem_of_app; [|apply list_elem_of_singleton in Hb as ->]; auto.
    + intros b' [Hb|Hb]%elem_of_app; [|apply list_elem_of_singleton in Hb as ->]; auto.
    + by rewrite all_rows_snoc.
Qed.

Lemma batches_fold bs c :
  try_fold step empty_census bs = Ok c ↔
  wf_batches bs ∧ c = census_of (map scope_of bs) (all_rows bs) (pages_below_limit bs).
Proof.
  revert c. induction bs as [|b bs IH] using rev_ind; intros c.
  - simpl. split; [intros [= <-]; split; [constructor; try apply NoDup_nil_2; set_solver|done]|].
    by intros [_ ->].
  - rewrite try_fold_app, bind_ok_iff. simpl. rewrite wf_batches_snoc. split.
    + intros (c1 & (Hwf & ->)%IH & (c2 & E & [= <-])%bind_ok).
      apply step_ok in E as (H1 & H2 & H3 & H4 & E). rewrite enter_census in E.
      apply count_items in E as (Hf & Hn & ->); [|apply Hwf]. simpl in H3.
      rewrite elem_of_list_to_set in H3. split; [by split_and!|].
      unfold pages_below_limit. rewrite map_app, all_rows_snoc, forallb_app. simpl. by rewrite andb_true_r.
    + intros ((Hwf & H1 & H2 & H3 & H4 & Hf & Hn) & ->). eexists.
      split; [apply IH; split; [done|reflexivity]|]. apply (proj2 (bind_ok_iff _ _ _)). eexists. split; [|reflexivity].
      apply step_ok. split_and!; try done; [simpl; by rewrite elem_of_list_to_set|].
      rewrite enter_census, count_items by apply Hwf. split_and!; [done|done|].
      unfold pages_below_limit. rewrite map_app, all_rows_snoc, forallb_app. simpl. by rewrite andb_true_r.
Qed.

(** All scopes are there exactly when there are as many as scopes exist. *)
Lemma every_scope bs n :
  wf_batches bs → NoDup types → n = count types * 2 →
  Z.of_nat (size (list_to_set (map scope_of bs) : gset (string * string))) = n ↔
  ∀ kind t, kind ∈ ["SWAP"; "FUTURES"] → t ∈ types → (kind, t) ∈ map scope_of bs.
Proof using types absent.
  clear step_ok.
  intros Hwf Hnd ->.
  set (all := list_to_set (map (pair "SWAP") types ++ map (pair "FUTURES") types) : gset (string * string)).
  assert (Hall : ∀ k t, (k, t) ∈ all ↔ k ∈ ["SWAP"; "FUTURES"] ∧ t ∈ types).
  { intros k t. unfold all. rewrite elem_of_list_to_set, elem_of_app, !list_elem_of_fmap. set_solver. }
  assert (Hsize : Z.of_nat (size all) = count types * 2).
  { unfold all, count. rewrite size_list_to_set.
    - rewrite length_app, !length_map. lia.
    - apply NoDup_app. split_and!; try (apply NoDup_fmap_2; [by intros ? ? [= ->]|done]).
      intros [k t] (? & [= -> ->] & _)%list_elem_of_fmap (? & [=] & _)%list_elem_of_fmap. }
  assert (Hsub : (list_to_set (map scope_of bs) : gset _) ⊆ all).
  { intros [k t]. rewrite elem_of_list_to_set, list_elem_of_fmap, Hall.
    intros (b & E & Hb). destruct (wf_scope _ Hwf b Hb). unfold scope_of in E. by rewrite <- E in *. }
  rewrite <- Hsize. split.
  - intros E k t Hk Ht. assert (Heq : (list_to_set (map scope_of bs) : gset _) = all).
    { apply set_eq. apply set_subseteq_size_equiv; [done|lia]. }
    rewrite <- (elem_of_list_to_set (C:=gset (string * string))), Heq. by apply Hall.
  - intros Hev. f_equal. f_equal. apply set_eq. intros [k t].
    rewrite elem_of_list_to_set. split.
    + intros Hin. apply Hsub. by rewrite elem_of_list_to_set.
    + intros [Hk Ht]%Hall. by apply Hev.
Qed.
End inventory.

Lemma derivative_batch_ok c b c' :
  derivative_batch c b = Ok c' ↔
  b.1.1 ∈ ["SWAP"; "FUTURES"] ∧ b.1.2 ∈ DERIVATIVE_ALGO_TYPES ∧ scope_of b ∉ c_seen c
  ∧ count b.2 ≤ PROTECTIVE_ALGO_PAGE_LIMIT
  ∧ try_fold (count_item empty_text "inconsistent or duplicate derivatives pending algo" (scope_of b))
      (enter_scope (count b.2 <? PROTECTIVE_ALGO_PAGE_LIMIT) (scope_of b) c) b.2 = Ok c'.
Proof.
  destruct b as [[k t] rows]. unfold derivative_batch, scope_of. simpl fst. simpl snd.
  rewrite <- !one_of_iff. destruct (one_of _ k), (one_of _ t); simpl; try naive_solver.
  destruct (bool_decide_reflect ((k, t) ∈ c_seen c)); simpl; [naive_solver|].
  destruct (Z.ltb_spec PROTECTIVE_ALGO_PAGE_LIMIT (count rows)); [naive_solver lia|].
  replace (negb (count rows =? PROTECTIVE_ALGO_PAGE_LIMIT)) with (count rows <? PROTECTIVE_ALGO_PAGE_LIMIT)
    by (apply eq_true_iff_eq; rewrite negb_true_iff; lia).
  naive_solver.
Qed.

Lemma protective_batch_ok c b c' :
  protective_batch c b = Ok c' ↔
  b.1.1 ∈ ["SWAP"; "FUTURES"] ∧ b.1.2 ∈ ["conditional"; "oco"] ∧ scope_of b ∉ c_seen c
  ∧ count b.2 ≤ PROTECTIVE_ALGO_PAGE_LIMIT
  ∧ try_fold (count_item is_blank
      "pending protective algo has invalid exchange identity/type/state or duplicate algoId" (scope_of b))
      (enter_scope (count b.2 <? PROTECTIVE_ALGO_PAGE_LIMIT) (scope_of b) c) b.2 = Ok c'.
Proof.
  destruct b as [[k t] rows]. unfold protective_batch, scope_of. simpl fst. simpl snd.
  rewrite <- !one_of_iff. destruct (one_of _ k), (one_of _ t); simpl; try naive_solver.
  destruct (bool_decide_reflect ((k, t) ∈ c_seen c)); simpl; [naive_solver|].
  destruct (Z.ltb_spec PROTECTIVE_ALGO_PAGE_LIMIT (count rows)); naive_solver lia.
Qed.

Definition full_risk_inventory (bs : list Batch) : PendingDerivativeAlgoRiskInventory := {|
  pri_scopes_checked := 16; pri_rows := count (all_rows bs);
  pri_complete_within_bound := pages_below_limit bs; pri_received_at_ms := 0;
  pri_samples := take 8 (map sample_of (all_rows bs)) |}.

Lemma risk_inventory_iff bs i :
  normalize_derivative_algo_risk_inventory bs = Ok i ↔
  wf_batches DERIVATIVE_ALGO_TYPES empty_text bs
  ∧ (∀ kind t, kind ∈ ["SWAP"; "FUTURES"] → t ∈ DERIVATIVE_ALGO_TYPES → (kind, t) ∈ map scope_of bs)
  ∧ i = full_risk_inventory bs.
Proof.
  unfold normalize_derivative_algo_risk_inventory.
  assert (Hn : NoDup DERIVATIVE_ALGO_TYPES) by (apply (bool_decide_unpack _); by vm_compute).
  assert (Hfold := batches_fold _ _ _ _ derivative_batch_ok). rewrite bind_ok_iff. split.
  - intros (c & E & Ei). apply Hfold in E as [Hwf ->].
    unfold census_of in Ei. cbn [c_seen c_rows c_complete c_samples] in Ei.
    destruct (_ =? _) eqn:Es in Ei; [|done]. apply Z.eqb_eq in Es. simpl negb in Ei.
    injection Ei as <-. split_and!; [done| |].
    + apply (every_scope _ _ _ _ Hwf Hn eq_refl). rewrite Es. done.
    + unfold full_risk_inventory. f_equal. rewrite Es. by vm_compute.
  - intros (Hwf & Hev & ->). eexists. split; [by apply Hfold|].
    unfold census_of. cbn [c_seen c_rows c_complete c_samples].
    pose proof (proj2 (every_scope _ _ _ _ Hwf Hn eq_refl) Hev) as Es. rewrite Es.
    by vm_compute.
Qed.

(** The samples of a short inventory are all the orders it was made from. *)
Lemma inventory_lists_all responses i :
  receipted_derivative_inventory responses = Ok i → pri_rows i ≤ 8 →
  map pas_algo_order_id (pri_samples i) = algo_ids (all_rows (sort_by (cmp_on scope_of) (map fst responses))).
Proof.
  unfold receipted_derivative_inventory. intros (i' & (_ & _ & ->)%risk_inventory_iff & [= <-])%bind_ok_iff. simpl.
  intros Hle. rewrite take_ge; [|rewrite length_map; unfold count in Hle; lia].
  unfold algo_ids. rewrite map_map. by apply map_ext.
Qed.

Lemma foldl_min_spec {A} (l : list (A * Z)) r :
  let m := foldl (λ m x, Z.min m x.2) r l in
  m ≤ r ∧ (∀ x, x ∈ l → m ≤ x.2) ∧ (m = r ∨ ∃ x, x ∈ l ∧ x.2 = m).
Proof.
  revert r. induction l as [|y l IH]; intros r; simpl; [split_and!; [lia|set_solver|by left]|].
  destruct (IH (Z.min r y.2)) as (Hle & Hall & Hin). split_and!; [lia| |].
  - intros x [->|Hx]%elem_of_cons; [lia|auto].
  - destruct Hin as [->|(x & Hx & E)]; [|right; exists x; split; [by right|done]].
    destruct (Z.min_spec r y.2) as [[_ ->]|[_ ->]]; [by left|right; exists y; split; [by left|done]].
Qed.

(** The inventory of pending derivative orders is built exactly from answers that have
    each of the sixteen scopes once, pages of at most a hundred rows, rows of their scope
    and no order id twice.  It counts every row, is complete exactly when no page is full,
    carries the first eight rows as samples and is dated by the earliest answer. *)
Theorem risk_inventory_exact responses i :
  let bs := sort_by (cmp_on scope_of) (map fst responses) in
  receipted_derivative_inventory responses = Ok i ↔
  wf_batches DERIVATIVE_ALGO_TYPES empty_text bs
  ∧ (∀ kind t, kind ∈ ["SWAP"; "FUTURES"] → t ∈ DERIVATIVE_ALGO_TYPES → (kind, t) ∈ map scope_of bs)
  ∧ pri_scopes_checked i = 16 ∧ pri_rows i = count (all_rows bs)
  ∧ pri_complete_within_bound i = pages_below_limit bs
  ∧ pri_samples i = take 8 (map sample_of (all_rows bs))
  ∧ (∀ b r, (b, r) ∈ responses → pri_received_at_ms i ≤ r)
  ∧ ∃ b, (b, pri_received_at_ms i) ∈ responses.
Proof.
  intros bs. unfold receipted_derivative_inventory. fold bs. rewrite bind_ok_iff.
  assert (Hmin : bs ≠ [] → (∀ b r, (b, r) ∈ responses → earliest responses ≤ r)
                          ∧ ∃ b, (b, earliest responses) ∈ responses).
  { intros Hne. destruct responses as [|[b0 r0] l]; [by destruct Hne|]. simpl.
    destruct (foldl_min_spec l r0) as (Hle & Hall & Hin). split.
    - intros b r [[= -> ->]|Hx]%elem_of_cons; [done|by apply (Hall (b, r))].
    - destruct Hin as [->|([b r] & Hx & <-)]; [exists b0; by left|exists b; by right]. }
  assert (Hne : (∀ kind t, kind ∈ ["SWAP"; "FUTURES"] → t ∈ DERIVATIVE_ALGO_TYPES →
      (kind, t) ∈ map scope_of bs) → bs ≠ []).
  { intros Hev E. rewrite E in Hev. apply (not_elem_of_nil ("SWAP", "oco")). apply Hev; set_solver. }
  split.
  - intros (i' & (Hwf & Hev & ->)%risk_inventory_iff & [= <-]). destruct (Hmin (Hne Hev)).
    simpl. by split_and!.
  - intros (Hwf & Hev & E1 & E2 & E3 & E4 & Hle & b & Hb). eexists.
    split; [by apply risk_inventory_iff|]. f_equal. destruct (Hmin (Hne Hev)) as (Hle' & b' & Hb').
    destruct i as [sc rows comp recv samples]. simpl in *. subst. f_equal.
    apply Z.le_antisymm; eauto.
Qed.

(** The samples of a complete inventory show every pending order exactly when there are
    at most eight: comparing the samples with the orders one knows says nothing about the
    ninth. *)
Theorem samples_show_all bs i :
  normalize_derivative_algo_risk_inventory bs = Ok i → pri_complete_within_bound i = true →
  (∀ item, item ∈ all_rows bs → pad_algo_order_id item ∈ map pas_algo_order_id (pri_samples i))
  ↔ pri_rows i ≤ 8.
Proof.
  intros (Hwf & _ & ->)%risk_inventory_iff _. simpl.
  set (rows := all_rows bs). assert (Hn : NoDup (algo_ids rows)) by apply Hwf.
  assert (Emap : map pas_algo_order_id (take 8 (map sample_of rows)) = take 8 (algo_ids rows)).
  { unfold algo_ids. rewrite <- firstn_map, map_map. done. }
  rewrite Emap. split.
  - intros Hall. destruct (decide (count rows ≤ 8)) as [|Hgt]; [done|]. exfalso.
    rewrite <- (take_drop 8 (algo_ids rows)) in Hn.
    destruct (drop 8 (algo_ids rows)) as [|x rest] eqn:Ed.
    + apply (f_equal List.length) in Ed. rewrite length_drop in Ed. unfold algo_ids in Ed.
      rewrite length_map in Ed. unfold count in Hgt. simpl in Ed. lia.
    + apply NoDup_app in Hn as (_ & Hx & _).
      assert (Hin : x ∈ algo_ids rows).
      { rewrite <- (take_drop 8 (algo_ids rows)), Ed. set_solver. }
      apply list_elem_of_fmap in Hin as (item & -> & Hitem). by apply (Hx _ (Hall item Hitem)); left.
  - intros Hle item Hitem. rewrite take_ge.
    + apply list_elem_of_fmap. eauto.
    + unfold algo_ids. rewrite length_map. unfold count in Hle. lia.
Qed.

(** ** A concrete inventory: nine stop orders, all on one page *)
Definition sample_algo (i : nat) : PendingAlgoOrderDetails := {|
  pad_instrument_type := "SWAP"; pad_order_type := "conditional"; pad_instrument_id := "BTC-USDT-SWAP";
  pad_algo_order_id := String (ascii_of_nat (49 + i)) ""; pad_client_order_id := ""; pad_state := "live" |}.
Definition sample_batches (n : nat) : list Batch :=
  flat_map (λ kind, map (λ t, (kind, t,
    if (kind =? "SWAP")%string && (t =? "conditional")%string then map sample_algo (seq 0 n) else []))
    DERIVATIVE_ALGO_TYPES) ["SWAP"; "FUTURES"].

Lemma samples_show_all_witness :
  let bs := sample_batches 9 in let i := full_risk_inventory bs in
  normalize_derivative_algo_risk_inventory bs = Ok i ∧ pri_complete_within_bound i = true
  ∧ pri_rows i = 9
  ∧ ¬ (∀ item, item ∈ all_rows bs → pad_algo_order_id item ∈ map pas_algo_order_id (pri_samples i)).
Proof.
  intros bs i.
  assert (E : normalize_derivative_algo_risk_inventory bs = Ok i) by (vm_compute; reflexivity).
  assert (Ec : pri_complete_within_bound i = true) by (vm_compute; reflexivity).
  assert (Er : pri_rows i = 9) by (vm_compute; reflexivity).
  split; [exact E|]. split; [exact Ec|]. split; [exact Er|].
  intros Hall. pose proof (proj1 (samples_show_all bs i E Ec) Hall) as Hle. rewrite Er in Hle. lia.
Defined.
