(* ===== verification/OrderBook.v ===== *)
(** * OrderBook: the sequence-checked book of [okx-observation/src/order_book.rs]

    A book waits for a snapshot, then follows a chain of updates in which every
    message names the sequence number of its predecessor.  A break in the chain
    or a malformed level empties the book until the next snapshot.  Prices are
    keyed by their decimal value, whose type is a parameter. *)
From stdpp Require Import base option list numbers strings sorting.
From Stdlib Require Import ZArith Lia.
From S2P Require Import Prelude Text Ordered External.
Local Open Scope string_scope.
Local Open Scope list_scope.
Local Open Scope Z_scope.

(** ** Data *)
Record BookLevelUpdate : Type := {
  upd_price : string;
  upd_size : string;
  upd_order_count : option string;
}.

Record OrderBookMessage : Type := {
  msg_asks : list BookLevelUpdate;
  msg_bids : list BookLevelUpdate;
  msg_exchange_timestamp_ms : string;
  seq_id : Z;
  prev_seq_id : Z;
}.

Record BookLevel : Type := {
  price : string;
  size : string;
  order_count : option string;
}.

Inductive OrderBookStatus : Type := WaitingSnapshot | Contiguous | Invalid.

#[export] Instance OrderBookStatus_eq_dec : EqDecision OrderBookStatus.
Proof. solve_decision. Defined.

Inductive OrderBookError : Type :=
| InvalidSnapshotPrevSeqId (prev : Z)
| NotContiguous
| GenerationMismatch (expected actual : Z)
| SequenceGap (expected actual : Z)
| InvalidDecimal (field value : string)
| NegativeSize (value : string)
| NonPositivePrice (value : string).

Record OrderBookSnapshot : Type := {
  obs_generation : Z;
  obs_status : OrderBookStatus;
  obs_seq_id : option Z;
  obs_exchange_timestamp_ms : option string;
  obs_asks : list BookLevel;
  obs_bids : list BookLevel;
}.

Section book.
Context {D : Type} `{DecimalOps D}.

Record OrderBookState : Type := {
  book_generation : Z;
  status : OrderBookStatus;
  last_seq_id : option Z;
  exchange_timestamp_ms : option string;
  asks : list (D * BookLevel);
  bids : list (D * BookLevel);
}.

(** ** Operations *)
Definition waiting (generation : Z) : OrderBookState := {|
  book_generation := generation;
  status := WaitingSnapshot;
  last_seq_id := None;
  exchange_timestamp_ms := None;
  asks := [];
  bids := [];
|}.

Definition invalidate (self : OrderBookState) : OrderBookState := {|
  book_generation := book_generation self;
  status := Invalid;
  last_seq_id := None;
  exchange_timestamp_ms := None;
  asks := [];
  bids := [];
|}.

Definition decimal (field value : string) : result OrderBookError D :=
  ok_or (InvalidDecimal field value) (dec_from_str value).

(** The body of the loop of [apply_levels] *)
Definition apply_level (side : list (D * BookLevel)) (update : BookLevelUpdate)
    : result OrderBookError (list (D * BookLevel)) :=
  p ← decimal "price" (upd_price update);
  if dec_leb p dec_zero then Err (NonPositivePrice (upd_price update)) else
  s ← decimal "size" (upd_size update);
  if dec_ltb s dec_zero then Err (NegativeSize (upd_size update)) else
  if dec_eqb s dec_zero then Ok (oremove p side)
  else Ok (oinsert p {| price := upd_price update; size := upd_size update;
                        order_count := upd_order_count update |} side).

Definition apply_levels (side : list (D * BookLevel)) (levels : list BookLevelUpdate)
    : result OrderBookError (list (D * BookLevel)) :=
  try_fold apply_level side levels.

Definition levels_from_snapshot (levels : list BookLevelUpdate)
    : result OrderBookError (list (D * BookLevel)) :=
  apply_levels [] levels.

Definition apply_snapshot (self : OrderBookState) (generation : Z) (message : OrderBookMessage)
    : OrderBookState * result OrderBookError unit :=
  if negb (prev_seq_id message =? -1)
  then (invalidate self, Err (InvalidSnapshotPrevSeqId (prev_seq_id message)))
  else
    let normalized :=
      asks ← levels_from_snapshot (msg_asks message);
      bids ← levels_from_snapshot (msg_bids message);
      Ok (asks, bids) in
    match normalized with
    | Ok (asks, bids) =>
      ({| book_generation := generation;
          status := Contiguous;
          last_seq_id := Some (seq_id message);
          exchange_timestamp_ms := Some (msg_exchange_timestamp_ms message);
          asks := asks;
          bids := bids |}, Ok tt)
    | Err error => (invalidate self, Err error)
    end.

Definition apply_update (self : OrderBookState) (generation : Z) (message : OrderBookMessage)
    : OrderBookState * result OrderBookError unit :=
  if negb (generation =? book_generation self)
  then (invalidate self, Err (GenerationMismatch (book_generation self) generation))
  else if negb (bool_decide (status self = Contiguous)) then (self, Err NotContiguous)
  else match last_seq_id self with
  | None => (self, Err NotContiguous)
  | Some expected =>
    if negb (prev_seq_id message =? expected)
    then (invalidate self, Err (SequenceGap expected (prev_seq_id message)))
    else
      let next :=
        next_asks ← apply_levels (asks self) (msg_asks message);
        next_bids ← apply_levels (bids self) (msg_bids message);
        Ok (next_asks, next_bids) in
      match next with
      | Ok (next_asks, next_bids) =>
        ({| book_generation := book_generation self;
            status := status self;
            last_seq_id := Some (seq_id message);
            exchange_timestamp_ms := Some (msg_exchange_timestamp_ms message);
            asks := next_asks;
            bids := next_bids |}, Ok tt)
      | Err error => (invalidate self, Err error)
      end
  end.

Definition snapshot (self : OrderBookState) : OrderBookSnapshot := {|
  obs_generation := book_generation self;
  obs_status := status self;
  obs_seq_id := last_seq_id self;
  obs_exchange_timestamp_ms := exchange_timestamp_ms self;
  obs_asks := ovalues (asks self);
  obs_bids := rev (ovalues (bids self));
|}.

(** ** The feed: a book and the messages it receives *)
Inductive book_event : Type :=
| BookSnapshot (generation : Z) (message : OrderBookMessage)
| BookUpdate (generation : Z) (message : OrderBookMessage)
| BookInvalidate.

Definition book_step (self : OrderBookState) (ev : book_event) : OrderBookState :=
  match ev with
  | BookSnapshot g m => (apply_snapshot self g m).1
  | BookUpdate g m => (apply_update self g m).1
  | BookInvalidate => invalidate self
  end.

Definition book_run (generation : Z) (evs : list book_event) : OrderBookState :=
  foldl book_step (waiting generation) evs.

(** ** Specification

    The price a level update addresses and what it leaves there: nothing, or a
    level.  A side holds, at each price, what the last update of that price left. *)
Definition level_of (u : BookLevelUpdate) : BookLevel :=
  {| price := upd_price u; size := upd_size u; order_count := upd_order_count u |}.

Definition addresses (k : D) (u : BookLevelUpdate) : bool :=
  match dec_from_str (upd_price u) with Some p => dec_eqb k p | None => false end.

Definition leaves (u : BookLevelUpdate) : option BookLevel :=
  match dec_from_str (upd_size u) with
  | Some s => if dec_eqb s dec_zero then None else Some (level_of u)
  | None => None
  end.

Definition side_spec (before : D → option BookLevel) (levels : list BookLevelUpdate) (k : D)
    : option BookLevel :=
  foldl (λ acc u, if addresses k u then leaves u else acc) (before k) levels.

(** A well-formed level update *)
Definition level_ok (u : BookLevelUpdate) : bool :=
  match dec_from_str (upd_price u), dec_from_str (upd_size u) with
  | Some p, Some s => dec_ltb dec_zero p && negb (dec_ltb s dec_zero)
  | _, _ => false
  end.

(** The abstract book: what is known of it, with the level at every price of each side as a
    function.  A break of the generation or of the sequence chain, a malformed level and an
    invalidation all leave the same book: invalid, without sequence number or timestamp, and
    with nothing at any price. *)
Record abs_book : Type := {
  ab_generation : Z;
  ab_status : OrderBookStatus;
  ab_seq_id : option Z;
  ab_timestamp_ms : option string;
  ab_asks : D → option BookLevel;
  ab_bids : D → option BookLevel;
}.
Definition emptied (generation : Z) (why : OrderBookStatus) : abs_book :=
  {| ab_generation := generation; ab_status := why; ab_seq_id := None; ab_timestamp_ms := None;
     ab_asks := λ _, None; ab_bids := λ _, None |}.

Definition levels_ok (m : OrderBookMessage) : bool :=
  forallb level_ok (msg_asks m) && forallb level_ok (msg_bids m).

Definition abs_step (a : abs_book) (ev : book_event) : abs_book :=
  let broken := emptied (ab_generation a) Invalid in
  match ev with
  | BookSnapshot g m =>
    if (prev_seq_id m =? -1) && levels_ok m
    then {| ab_generation := g; ab_status := Contiguous; ab_seq_id := Some (seq_id m);
            ab_timestamp_ms := Some (msg_exchange_timestamp_ms m);
            ab_asks := side_spec (λ _, None) (msg_asks m);
            ab_bids := side_spec (λ _, None) (msg_bids m) |}
    else broken
  | BookUpdate g m =>
    if negb (g =? ab_generation a) then broken else
    match ab_status a, ab_seq_id a with
    | Contiguous, Some s =>
      if (prev_seq_id m =? s) && levels_ok m
      then {| ab_generation := ab_generation a; ab_status := Contiguous; ab_seq_id := Some (seq_id m);
              ab_timestamp_ms := Some (msg_exchange_timestamp_ms m);
              ab_asks := side_spec (ab_asks a) (msg_asks m);
              ab_bids := side_spec (ab_bids a) (msg_bids m) |}
      else broken
    | _, _ => a
    end
  | BookInvalidate => broken
  end.

(** The whole state of a book, its sides as functions of the price *)
Definition abs_of (b : OrderBookState) : abs_book := {|
  ab_generation := book_generation b;
  ab_status := status b;
  ab_seq_id := last_seq_id b;
  ab_timestamp_ms := exchange_timestamp_ms b;
  ab_asks := oget (asks b);
  ab_bids := oget (bids b);
|}.

(** Abstract books are compared price by price. *)
#[export] Instance abs_book_equiv : Equiv abs_book := λ x y,
  ab_generation x = ab_generation y ∧ ab_status x = ab_status y ∧ ab_seq_id x = ab_seq_id y
  ∧ ab_timestamp_ms x = ab_timestamp_ms y
  ∧ (∀ k, ab_asks x k = ab_asks y k) ∧ (∀ k, ab_bids x k = ab_bids y k).

(** A stored level: its key is its price, positive, and its size is positive. *)
Definition stored_ok (e : D * BookLevel) : Prop :=
  kcmp dec_zero e.1 = Lt ∧
  (∃ p, dec_from_str (price e.2) = Some p ∧ kcmp p e.1 = Eq) ∧
  (∃ s, dec_from_str (size e.2) = Some s ∧ kcmp dec_zero s = Lt).

Record book_wf (b : OrderBookState) : Prop := {
  wf_asks : osorted (asks b);
  wf_bids : osorted (bids b);
  wf_asks_ok : Forall stored_ok (asks b);
  wf_bids_ok : Forall stored_ok (bids b);
  wf_contiguous : status b = Contiguous ↔ is_Some (last_seq_id b);
  wf_timestamp : is_Some (last_seq_id b) ↔ is_Some (exchange_timestamp_ms b);
  wf_empty : status b ≠ Contiguous → asks b = [] ∧ bids b = [];
}.
End book.
Arguments OrderBookState : clear implicits.
Arguments abs_book : clear implicits.
Arguments book_event : clear implicits.

(** ** Facts about level updates *)
Section facts.
Context {D : Type} `{DecimalOps D} `{!OrdLaws D}.
Implicit Types (side : list (D * BookLevel)) (b : OrderBookState D).

Lemma apply_level_ok side u side' :
  apply_level side u = Ok side' → level_ok (D:=D) u = true ∧
  ∃ p, dec_from_str (upd_price u) = Some p ∧ kcmp dec_zero p = Lt ∧
    side' = match leaves (D:=D) u with Some l => oinsert p l side | None => oremove p side end ∧
    (leaves (D:=D) u ≠ None →
       ∃ s, dec_from_str (upd_size u) = Some s ∧ kcmp dec_zero s = Lt).
Proof.
  unfold apply_level, decimal, level_ok, leaves, dec_leb, dec_ltb, dec_eqb. intros Hl.
  apply bind_ok in Hl as (a & Ha%ok_or_ok & Hl). rewrite Ha.
  destruct (kcmp a dec_zero) eqn:E1; simplify_eq/=.
  apply bind_ok in Hl as (a0 & Ha0%ok_or_ok & Hl). rewrite Ha0.
  pose proof (kcmp_antisym a dec_zero) as Hp. rewrite E1 in Hp.
  pose proof (kcmp_antisym a0 dec_zero) as Hs. rewrite Hp. simpl.
  destruct (kcmp a0 dec_zero) eqn:E2; simplify_eq/=; (split; [done|]); exists a;
    split_and!; try done; first [by intros [] | by eauto].
Qed.

Lemma apply_level_lookup side u side' k :
  osorted side → apply_level side u = Ok side' →
  oget side' k = if addresses k u then leaves (D:=D) u else oget side k.
Proof.
  intros Hs (_ & p & Hp & _ & -> & _)%apply_level_ok. unfold addresses, dec_eqb. rewrite Hp.
  destruct (kcmp k p) eqn:E.
  - apply kcmp_Eq_sym in E. destruct (leaves u); [by apply oget_oinsert_eq|by apply oget_oremove_eq].
  - assert (kcmp p k ≠ Eq) by (intros Hx; by rewrite (kcmp_Eq_sym _ _ Hx) in E).
    destruct (leaves u); [by apply oget_oinsert_ne|by apply oget_oremove_ne].
  - assert (kcmp p k ≠ Eq) by (intros Hx; by rewrite (kcmp_Eq_sym _ _ Hx) in E).
    destruct (leaves u); [by apply oget_oinsert_ne|by apply oget_oremove_ne].
Qed.

Lemma apply_level_wf side u side' :
  osorted side ∧ Forall stored_ok side → apply_level side u = Ok side' →
  osorted side' ∧ Forall stored_ok side'.
Proof.
  intros [Hs Hf] (_ & p & Hp & Hpos & -> & Hsz)%apply_level_ok.
  destruct (leaves u) as [l|] eqn:Hl.
  - split; [auto with okx|]. rewrite Forall_forall in *. intros e Hin.
    destruct e as [k l']. apply oinsert_elem in Hin as [[Hl' Hk]|Hin]; [|by apply Hf].
    simpl in Hl', Hk. subst l'.
    destruct (Hsz ltac:(done)) as (s & Hs1 & Hs2). unfold leaves in Hl. rewrite Hs1 in Hl.
    destruct (dec_eqb s dec_zero); [done|]. injection Hl as <-.
    split_and!; simpl; [by rewrite <- (kcmp_congr_r p k dec_zero Hk)| |]; eauto.
  - split; [auto with okx|]. rewrite Forall_forall in *. intros e Hin%oremove_elem. by apply Hf.
Qed.

Lemma apply_levels_wf side us side' :
  osorted side ∧ Forall stored_ok side → apply_levels side us = Ok side' →
  osorted side' ∧ Forall stored_ok side'.
Proof.
  intros Hwf. apply (try_fold_invariant (λ s, osorted s ∧ Forall stored_ok s)); [|done].
  intros s a s' _ Hs. by apply apply_level_wf.
Qed.

Lemma apply_levels_lookup side us side' k :
  osorted side → apply_levels side us = Ok side' → oget side' k = side_spec (oget side) us k.
Proof.
  unfold apply_levels, side_spec. revert side.
  induction us as [|u us IH]; intros side Hs; simpl; [by intros [= <-]|].
  intros Hf. apply bind_ok in Hf as (s1 & H1 & Hf).
  rewrite (IH s1); [|apply apply_level_ok in H1 as (_&?&_&_&->&_); case_match; auto with okx|done].
  by rewrite (apply_level_lookup _ _ _ _ Hs H1).
Qed.

(** A list of updates is accepted exactly when every one is well formed. *)
Lemma apply_level_accepts side u : is_ok (apply_level side u) = level_ok (D:=D) u.
Proof.
  unfold apply_level, decimal, level_ok, dec_leb, dec_ltb, dec_eqb.
  destruct (dec_from_str (upd_price u)) as [p|]; simpl; [|done].
  destruct (dec_from_str (upd_size u)) as [s|]; simpl.
  - rewrite (kcmp_antisym p dec_zero).
    destruct (kcmp p dec_zero); simpl; [done|done|]. by destruct (kcmp s dec_zero).
  - by destruct (kcmp p dec_zero).
Qed.

Lemma apply_levels_accepts side us : is_ok (apply_levels side us) = forallb (level_ok (D:=D)) us.
Proof.
  unfold apply_levels. revert side. induction us as [|u us IH]; intros side; simpl; [done|].
  rewrite <- (apply_level_accepts side u). destruct (apply_level side u); simpl; [apply IH|done].
Qed.

Lemma levels_pair_accepts sa sb ua ub :
  is_ok (a ← apply_levels sa ua; b ← apply_levels sb ub; Ok (E:=OrderBookError) (a, b)) =
  forallb (level_ok (D:=D)) ua && forallb (level_ok (D:=D)) ub.
Proof.
  rewrite <- (apply_levels_accepts sa ua), <- (apply_levels_accepts sb ub).
  destruct (apply_levels sa ua); simpl; [|done]. by destruct (apply_levels sb ub).
Qed.

Lemma waiting_wf g : book_wf (waiting (D:=D) g).
Proof. split; simpl; try constructor; try done; try (intros; by split); by intros [? ?]. Qed.

Lemma invalidate_wf b : book_wf (invalidate b).
Proof. split; simpl; try constructor; try done; try (intros; by split); by intros [? ?]. Qed.

Lemma apply_snapshot_wf b g m : book_wf b → book_wf (apply_snapshot b g m).1.
Proof.
  intros _. unfold apply_snapshot, levels_from_snapshot.
  destruct (negb _); [apply invalidate_wf|].
  assert (osorted ([] : list (D * BookLevel)) ∧ Forall stored_ok ([] : list (D * BookLevel))) as H0
    by (split; constructor).
  destruct (apply_levels [] (msg_asks m)) as [a|e] eqn:Ea; simpl; [|apply invalidate_wf].
  destruct (apply_levels [] (msg_bids m)) as [c|e] eqn:Eb; simpl; [|apply invalidate_wf].
  destruct (apply_levels_wf _ _ _ H0 Ea). destruct (apply_levels_wf _ _ _ H0 Eb).
  split; simpl; try done; naive_solver.
Qed.

Lemma apply_update_wf b g m : book_wf b → book_wf (apply_update b g m).1.
Proof.
  intros Hwf. unfold apply_update.
  destruct (negb _); [apply invalidate_wf|].
  destruct (bool_decide (status b = Contiguous)) eqn:Hst; simpl; [|done]. reflect_bools.
  destruct (last_seq_id b) as [x|] eqn:Hx; [|done].
  destruct (negb _); [apply invalidate_wf|].
  destruct (apply_levels (asks b) (msg_asks m)) as [a|e] eqn:Ea; simpl; [|apply invalidate_wf].
  destruct (apply_levels (bids b) (msg_bids m)) as [c|e] eqn:Eb; simpl; [|apply invalidate_wf].
  destruct (apply_levels_wf _ _ _ (conj (wf_asks _ Hwf) (wf_asks_ok _ Hwf)) Ea).
  destruct (apply_levels_wf _ _ _ (conj (wf_bids _ Hwf) (wf_bids_ok _ Hwf)) Eb).
  split; simpl; try done; naive_solver.
Qed.
End facts.

(** ** Refinement of the abstract book *)
Section refinement.
Context {D : Type} `{DecimalOps D} `{!OrdLaws D}.
Implicit Types (a : abs_book D) (b : OrderBookState D).

#[export] Instance abs_equiv_equivalence : Equivalence (≡@{abs_book D}).
Proof.
  unfold equiv, abs_book_equiv. split; [by intros x|intros x y|intros x y z]; intuition congruence.
Qed.

Lemma side_spec_ext (f g : D → option BookLevel) us k :
  f k = g k → side_spec f us k = side_spec g us k.
Proof. unfold side_spec. by intros ->. Qed.

#[export] Instance abs_step_proper : Proper ((≡) ==> eq ==> (≡)) (abs_step (D:=D)).
Proof.
  intros [g1 s1 q1 t1 a1 b1] [g2 s2 q2 t2 a2 b2] (Hg & Hs & Hq & Ht & Ha & Hb) ev ? <-.
  simpl in *. subst. destruct ev as [g m|g m|]; simpl; [by destruct (_ && _)| |done].
  destruct (negb _); [done|]. destruct s2; [done| |done]. destruct q2; [|done].
  destruct (_ && _); [|done]. split_and!; try done; intros k; by apply side_spec_ext.
Qed.

Lemma abs_apply_snapshot b g m :
  abs_of (apply_snapshot b g m).1 ≡ abs_step (abs_of b) (BookSnapshot g m).
Proof.
  unfold apply_snapshot, levels_from_snapshot. simpl. unfold levels_ok.
  rewrite <- (levels_pair_accepts (D:=D) [] [] (msg_asks m) (msg_bids m)).
  destruct (prev_seq_id m =? -1); simpl; [|done].
  destruct (apply_levels [] (msg_asks m)) as [xa|e] eqn:Ea; simpl; [|done].
  destruct (apply_levels [] (msg_bids m)) as [xb|e] eqn:Eb; simpl; [|done].
  assert (osorted ([] : list (D * BookLevel))) as H0 by constructor.
  split_and!; try done; intros k; simpl; [rewrite (apply_levels_lookup _ _ _ k H0 Ea)
    |rewrite (apply_levels_lookup _ _ _ k H0 Eb)]; by apply side_spec_ext.
Qed.

Lemma abs_apply_update b g m :
  book_wf b → abs_of (apply_update b g m).1 ≡ abs_step (abs_of b) (BookUpdate g m).
Proof.
  intros Hwf. unfold apply_update. simpl. unfold levels_ok.
  destruct (g =? book_generation b); simpl; [|done].
  destruct (status b) eqn:Hst; [done| |done]. simpl.
  destruct (last_seq_id b) as [s|] eqn:Hs; [|done].
  destruct (prev_seq_id m =? s); simpl; [|done].
  rewrite <- (levels_pair_accepts (asks b) (bids b) (msg_asks m) (msg_bids m)).
  destruct (apply_levels (asks b) (msg_asks m)) as [xa|e] eqn:Ea; simpl; [|done].
  destruct (apply_levels (bids b) (msg_bids m)) as [xb|e] eqn:Eb; simpl; [|done].
  split_and!; try done; intros k; simpl;
    [by rewrite (apply_levels_lookup _ _ _ k (wf_asks _ Hwf) Ea)
    |by rewrite (apply_levels_lookup _ _ _ k (wf_bids _ Hwf) Eb)].
Qed.

Lemma book_step_wf b ev : book_wf b → book_wf (book_step b ev).
Proof.
  intros Hwf. destruct ev; simpl;
    [by apply apply_snapshot_wf|by apply apply_update_wf|apply invalidate_wf].
Qed.

Lemma book_fold_wf b evs : book_wf b → book_wf (foldl book_step b evs).
Proof. revert b. induction evs as [|ev evs IH]; intros b Hb; [done|]. by apply IH, book_step_wf. Qed.

Lemma abs_book_step b ev : book_wf b → abs_of (book_step b ev) ≡ abs_step (abs_of b) ev.
Proof.
  intros Hwf. destruct ev as [g m|g m|]; [apply abs_apply_snapshot|by apply abs_apply_update|done].
Qed.

Lemma abs_book_fold b a evs :
  book_wf b → abs_of b ≡ a → abs_of (foldl book_step b evs) ≡ foldl abs_step a evs.
Proof.
  revert b a. induction evs as [|ev evs IH]; intros b a Hwf Ha; simpl; [done|].
  apply IH; [by apply book_step_wf|]. rewrite abs_book_step by done. by rewrite Ha.
Qed.
End refinement.

(** ** The published ladder *)
Section ladder.
Context {D : Type} `{DecimalOps D} `{!OrdLaws D}.

Definition price_lt (l1 l2 : BookLevel) : Prop :=
  ∃ p1 p2 : D, dec_from_str (price l1) = Some p1 ∧ dec_from_str (price l2) = Some p2 ∧
               kcmp p1 p2 = Lt.

Definition level_positive (l : BookLevel) : Prop :=
  ∃ p s : D, dec_from_str (price l) = Some p ∧ dec_from_str (size l) = Some s ∧
             kcmp dec_zero p = Lt ∧ kcmp dec_zero s = Lt.

Lemma ladder (m : list (D * BookLevel)) :
  osorted m → Forall stored_ok m →
  StronglySorted price_lt (ovalues m) ∧ Forall level_positive (ovalues m).
Proof.
  induction m as [|[k l] m IH]; intros Hs Hf; simpl; [split; constructor|].
  apply osorted_cons in Hs as [Hs Hlt].
  apply Forall_cons in Hf as [(Hk & (p & Hp & Hpk) & (s & Hsz & Hspos)) Hf].
  destruct (IH Hs Hf) as [IH1 IH2]. simpl in *. split.
  - constructor; [done|]. apply Forall_forall. intros l' Hin.
    apply list_elem_of_fmap in Hin as ([k2 l2] & -> & Hin).
    rewrite Forall_forall in Hf. destruct (Hf _ Hin) as (_ & (p2 & Hp2 & Hpk2) & _).
    exists p, p2. split_and!; [done|done|]. simpl in *.
    rewrite (kcmp_congr p k p2 Hpk), (kcmp_congr_r p2 k2 k Hpk2). apply (Hlt _ Hin).
  - constructor; [|done]. exists p, s. split_and!; try done.
    by rewrite (kcmp_congr_r p k dec_zero Hpk).
Qed.

Lemma apply_levels_error (side : list (D * BookLevel)) us e :
  apply_levels side us = Err e → e ≠ NotContiguous.
Proof.
  unfold apply_levels. revert side. induction us as [|u us IH]; intros side; simpl; [done|].
  destruct (apply_level side u) as [s'|e'] eqn:E; simpl; [apply IH|]. intros [= <-].
  revert E. unfold apply_level, decimal.
  destruct (dec_from_str (upd_price u)); simpl; [|by intros [= <-]].
  destruct (dec_leb _ _); [by intros [= <-]|].
  destruct (dec_from_str (upd_size u)); simpl; [|by intros [= <-]].
  repeat case_match; by intros [= <-].
Qed.
End ladder.

(** ** Theorems *)
Section theorems.
Context {D : Type} `{DecimalOps D} `{!OrdLaws D}.

(** C38: The book refines its abstract specification.  After any sequence of snapshots, updates
    and invalidations its generation, status, last sequence number, timestamp and the level at
    every price of both sides are those of the abstract book, where a side holds what the last
    update of each price left since the last snapshot.  After any break of the generation, of the
    sequence chain or of the syntax of a level the book is invalid and both its sides are empty. *)
Theorem order_book_refines (generation : Z) (evs : list (book_event)) :
  abs_of (book_run (D:=D) generation evs) ≡ foldl abs_step (emptied generation WaitingSnapshot) evs.
Proof. apply abs_book_fold; [apply waiting_wf|done]. Qed.

(** the verdict on an update.  From a well-formed book an update is accepted
    exactly when it has the book's generation, the book is contiguous, it names
    the last sequence number as its predecessor and all its levels are well
    formed; the new last sequence number is then its own.  An update that finds
    no snapshot is refused without effect; any other refused update invalidates
    and empties the book. *)
Theorem apply_update_verdict (b : OrderBookState D) (g : Z) (m : OrderBookMessage)
    (Hwf : book_wf b) :
  let '(b', r) := apply_update b g m in
  (r = Ok tt ↔ g = book_generation b ∧ status b = Contiguous ∧
               last_seq_id b = Some (prev_seq_id m) ∧ levels_ok (D:=D) m = true) ∧
  match r with
  | Ok _ => status b' = Contiguous ∧ last_seq_id b' = Some (seq_id m) ∧
            exchange_timestamp_ms b' = Some (msg_exchange_timestamp_ms m) ∧
            book_generation b' = book_generation b
  | Err NotContiguous => b' = b ∧ g = book_generation b ∧ status b ≠ Contiguous
  | Err _ => b' = invalidate b
  end.
Proof.
  unfold apply_update, levels_ok.
  destruct (Z.eqb_spec g (book_generation b)) as [->|Hg]; simpl; [|naive_solver].
  destruct (decide (status b = Contiguous)) as [Hst|Hst].
  2:{ rewrite (bool_decide_eq_false_2 _ Hst). simpl. naive_solver. }
  rewrite (bool_decide_eq_true_2 _ Hst). simpl.
  apply (wf_contiguous _ Hwf) in Hst as Hs. destruct Hs as [s Hs]. rewrite Hs.
  destruct (Z.eqb_spec (prev_seq_id m) s) as [Hp|Hp]; simpl; [|naive_solver].
  rewrite <- (levels_pair_accepts (asks b) (bids b) (msg_asks m) (msg_bids m)).
  destruct (apply_levels (asks b) (msg_asks m)) as [xa|e] eqn:Ea; simpl.
  - destruct (apply_levels (bids b) (msg_bids m)) as [xb|e] eqn:Eb; simpl; [naive_solver|].
    assert (e ≠ NotContiguous) by (by apply (apply_levels_error (bids b) (msg_bids m))).
    split; [naive_solver|by destruct e].
  - assert (e ≠ NotContiguous) by (by apply (apply_levels_error (asks b) (msg_asks m))).
    split; [naive_solver|by destruct e].
Qed.

(** an empty book stays empty until a snapshot.  Once the book is not
    contiguous, no sequence of updates and invalidations makes it contiguous or
    puts a level in it. *)
Theorem not_contiguous_until_snapshot (b : OrderBookState D) (evs : list (book_event))
    (Hwf : book_wf b) (Hst : status b ≠ Contiguous)
    (Hevs : Forall (λ ev, ∀ g m, ev ≠ BookSnapshot g m) evs) :
  let b' := foldl book_step b evs in
  status b' ≠ Contiguous ∧ last_seq_id b' = None ∧ asks b' = [] ∧ bids b' = [].
Proof.
  simpl. revert b Hwf Hst.
  induction Hevs as [|ev evs Hev _ IH]; intros b Hwf Hst; simpl.
  - destruct (wf_empty _ Hwf Hst). split_and!; try done.
    destruct (last_seq_id b) eqn:E; [|done]. exfalso. apply Hst, (wf_contiguous _ Hwf). eauto.
  - apply IH; [by apply book_step_wf|]. destruct ev as [g m|g m|]; simpl; [by destruct (Hev g m)| |done].
    unfold apply_update. destruct (negb _); simpl; [done|].
    by rewrite (bool_decide_eq_false_2 _ Hst).
Qed.

(** the published ladder.  In every reachable book the asks are published
    with strictly increasing prices, the bids with strictly decreasing prices,
    and every published level has a positive price and a positive size. *)
Theorem snapshot_ladder (generation : Z) (evs : list (book_event)) :
  let s := snapshot (book_run (D:=D) generation evs) in
  StronglySorted (price_lt (D:=D)) (obs_asks s) ∧
  StronglySorted (flip (price_lt (D:=D))) (obs_bids s) ∧
  Forall (level_positive (D:=D)) (obs_asks s) ∧ Forall (level_positive (D:=D)) (obs_bids s).
Proof.
  pose proof (book_fold_wf (waiting generation) evs (waiting_wf (D:=D) generation)) as Hwf.
  unfold book_run. set (b := foldl book_step (waiting generation) evs) in *. simpl.
  destruct (ladder (asks b) (wf_asks _ Hwf) (wf_asks_ok _ Hwf)) as [Ha Hap].
  destruct (ladder (bids b) (wf_bids _ Hwf) (wf_bids_ok _ Hwf)) as [Hb Hbp].
  split_and!; [done|by apply StronglySorted_rev|done|by apply Forall_rev].
Qed.
End theorems.

(** ** Witnesses on concrete decimals *)
Definition sample_level (p s : string) : BookLevelUpdate :=
  {| upd_price := p; upd_size := s; upd_order_count := None |}.
Definition sample_snapshot : OrderBookMessage := {|
  msg_asks := [sample_level "101" "3"; sample_level "100.5" "2"];
  msg_bids := [sample_level "99" "1"; sample_level "99.9" "4"];
  msg_exchange_timestamp_ms := "1"; seq_id := 10; prev_seq_id := -1 |}.
Definition sample_update : OrderBookMessage := {|
  msg_asks := [sample_level "100.50" "0"]; msg_bids := [];
  msg_exchange_timestamp_ms := "2"; seq_id := 15; prev_seq_id := 10 |}.
Definition sample_feed : list (book_event) := [BookSnapshot 1 sample_snapshot; BookUpdate 1 sample_update].
Definition sample_book : OrderBookState Fixed.t := book_run 1 sample_feed.

Lemma order_book_refines_witness :
  abs_of sample_book ≡ foldl abs_step (emptied 1 WaitingSnapshot) sample_feed ∧
  map price (obs_asks (snapshot sample_book)) = ["101"] ∧
  abs_of (book_step sample_book (BookUpdate 1 sample_update)) ≡ emptied 1 Invalid.
Proof.
  split; [apply (order_book_refines 1 sample_feed)|]. split; [by vm_compute|].
  exact (order_book_refines 1 (sample_feed ++ [BookUpdate 1 sample_update])).
Defined.

Lemma apply_update_verdict_witness :
  (apply_update sample_book 1 sample_update).2 = Err (SequenceGap 15 10) ∧
  (apply_update sample_book 1 sample_update).1 = invalidate sample_book.
Proof.
  assert (book_wf sample_book) as Hwf by (apply book_fold_wf, waiting_wf).
  pose proof (apply_update_verdict sample_book 1 sample_update Hwf) as Hv.
  assert ((apply_update sample_book 1 sample_update).2 = Err (SequenceGap 15 10)) as He
    by (by vm_compute).
  split; [done|]. destruct (apply_update sample_book 1 sample_update) as [b' r].
  simpl in He. subst r. apply Hv.
Defined.

Lemma not_contiguous_until_snapshot_witness :
  asks (foldl book_step (invalidate sample_book) [BookUpdate 1 sample_update]) = [].
Proof.
  apply (not_contiguous_until_snapshot (invalidate sample_book) [BookUpdate 1 sample_update]);
    [apply invalidate_wf|done|]. by repeat constructor.
Defined.

Lemma snapshot_ladder_witness :
  map price (obs_bids (snapshot sample_book)) = ["99.9"; "99"] ∧
  StronglySorted (flip (price_lt (D:=Fixed.t))) (obs_bids (snapshot sample_book)).
Proof. split; [by vm_compute|]. apply (snapshot_ladder 1 sample_feed). Defined.
