(* ===== verification/Reference.v ===== *)
(** * Reference: the instrument registry of [okx-observation/src/reference.rs]

    The registry maps instrument ids to validated specifications, ordered by id,
    and carries a digest of its contents as its generation.  It is built from a
    full listing and then follows incremental updates; an update either applies
    as a whole or leaves the registry as it was. *)
From stdpp Require Import base option list numbers strings gmap sorting.
From Stdlib Require Import ZArith Lia.
From S2P Require Import Prelude Text Ordered External Wire.
Local Open Scope string_scope.
Local Open Scope list_scope.
Local Open Scope Z_scope.

(** ** Data *)
Definition REFERENCE_REGISTRY_SCHEMA_V1 : string := "okx.reference-registry/v1".
Definition VENUE_EXECUTION_EVIDENCE_SCHEMA_V1 : string := "okx.venue-execution-evidence/v1".

Inductive FundingRequirement : Type := Required | NotApplicable | Unknown.

Record UpcomingRuleChange : Type := {
  urc_param : string;
  urc_new_value : string;
  urc_effective_time_ms : string;
}.

Record InstrumentSpec : Type := {
  is_instrument_id : string;
  is_instrument_type : InstrumentType;
  is_instrument_family : option string;
  is_underlying : option string;
  is_state : string;
  is_rule_type : option string;
  is_funding_requirement : FundingRequirement;
  is_base_currency : option string;
  is_quote_currency : option string;
  is_settle_currency : option string;
  is_tick_size : string;
  is_lot_size : string;
  is_min_size : string;
  is_max_limit_size : option string;
  is_max_market_size : option string;
  is_max_limit_amount : option string;
  is_max_market_amount : option string;
  is_contract_type : option string;
  is_contract_value : option string;
  is_contract_value_currency : option string;
  is_fee_group_id : option string;
  is_max_leverage : option string;
  is_list_time_ms : option string;
  is_expiry_time_ms : option string;
  is_initial_price_limit_pct : option string;
  is_floating_price_limit_pct : option string;
  is_maximum_price_limit_pct : option string;
  is_upcoming_rule_changes : list UpcomingRuleChange;
}.

Record AccountInstrumentExecutionLimits : Type := {
  ael_state : string;
  ael_max_limit_size : option string;
  ael_max_market_size : option string;
  ael_position_limit_amount_usd : option string;
  ael_position_limit_pct : option string;
  ael_platform_open_interest_limit_usd : option string;
  ael_platform_open_interest_limit_coin : option string;
  ael_long_position_remaining_quota_usd : option string;
  ael_short_position_remaining_quota_usd : option string;
}.

Record PriceLimitEvidence : Type := {
  ple_instrument_id : string;
  ple_buy_limit : string;
  ple_sell_limit : string;
  ple_exchange_timestamp_ms : string;
}.

Record MaxOrderSizeEvidence : Type := {
  moe_instrument_id : string;
  moe_max_buy : string;
  moe_max_sell : string;
}.

Record SystemStatusEvidence : Type := {
  sse_id : string;
  sse_state : string;
  sse_service_type : string;
  sse_system : string;
  sse_maintenance_type : string;
  sse_environment : string;
  sse_begin_ms : string;
  sse_end_ms : string;
}.

Record VenueExecutionEvidence : Type := {
  vee_schema : string;
  vee_source_received_at : string;
  vee_public_instrument : InstrumentSpec;
  vee_account_instrument : AccountInstrumentExecutionLimits;
  vee_price_limit : PriceLimitEvidence;
  vee_max_order_size : option MaxOrderSizeEvidence;
  vee_ongoing_system_statuses : list SystemStatusEvidence;
}.

Record InstrumentSearchSnapshot : Type := {
  iss_reference_generation : string;
  iss_source_received_at : string;
  iss_asset : string;
  iss_settle_currency : option string;
  iss_instrument_type : option InstrumentType;
  iss_instruments : list InstrumentSpec;
}.

Record InstrumentRulesSnapshot : Type := {
  irs_reference_generation : string;
  irs_source_received_at : string;
  irs_instrument : InstrumentSpec;
}.

Record ReferenceRegistry : Type := {
  reg_source_received_at : string;
  reg_generation : string;
  reg_instruments : list (string * InstrumentSpec);
}.

#[export] Instance FundingRequirement_eq_dec : EqDecision FundingRequirement.
Proof. solve_decision. Defined.
#[export] Instance UpcomingRuleChange_eq_dec : EqDecision UpcomingRuleChange.
Proof. solve_decision. Defined.
#[export] Instance InstrumentSpec_eq_dec : EqDecision InstrumentSpec.
Proof. solve_decision. Defined.

(** The digested part of a registry *)
Record RegistryGenerationInput : Type := {
  rgi_schema : string;
  rgi_instruments : list InstrumentSpec;
}.

Section reference.
Context `{Hashing} `{!Serialize RegistryGenerationInput}.

Inductive ReferenceError : Type :=
| EmptySourceTimestamp
| UnsupportedInstrumentType (value : string)
| MissingRequiredField (instrument_id field : string)
| DuplicateInstrument (instrument_id : string)
| UnsupportedUpcomingParameter (instrument_id param : string)
| MalformedUpcomingParameter (instrument_id param : string)
| Serialization (e : SerdeError).

(** ** Validation of one listing *)
Definition require (instrument_id value field : string) : result ReferenceError string :=
  if is_blank value then Err (MissingRequiredField instrument_id field) else Ok value.

Definition is_preopen (i : PublicInstrument) : bool := (trim (pi_state i) =? "preopen")%string.

Definition is_incomplete_preopen_future_listing (i : PublicInstrument) : bool :=
  (trim (pi_instrument_type i) =? "FUTURES")%string && is_preopen i
  && is_blank (pi_instrument_id i) && negb (is_blank (pi_instrument_family i)).

Definition funding_requirement (t : InstrumentType) (rule_type : option string)
    : FundingRequirement :=
  match t with
  | Swap => Required
  | Futures =>
    match rule_type with
    | Some r => if (r =? "xperp")%string || (r =? "pre_market")%string then Required
                else if (r =? "normal")%string then NotApplicable else Unknown
    | None => Unknown
    end
  end.

Definition upcoming_change_cmp (l r : UpcomingRuleChange) : comparison :=
  kcmp (urc_effective_time_ms l, (urc_param l, urc_new_value l))
       (urc_effective_time_ms r, (urc_param r, urc_new_value r)).

Definition normalize_upcoming_change (instrument_id : string) (c : UpcomingParameterChange)
    : result ReferenceError UpcomingRuleChange :=
  if negb ((upc_param c =? "tickSz") || (upc_param c =? "minSz")
           || (upc_param c =? "maxMktSz"))%string
  then Err (UnsupportedUpcomingParameter instrument_id (upc_param c))
  else if is_blank (upc_new_value c)
          || match parse_u64 (upc_effective_time_ms c) with
             | Some value => negb (0 <? value)
             | None => true
             end
  then Err (MalformedUpcomingParameter instrument_id (upc_param c))
  else Ok {| urc_param := upc_param c; urc_new_value := upc_new_value c;
             urc_effective_time_ms := upc_effective_time_ms c |}.

Definition normalize_upcoming_changes (instrument_id : string)
    (changes : list UpcomingParameterChange) : result ReferenceError (list UpcomingRuleChange) :=
  normalized ← try_map (normalize_upcoming_change instrument_id) changes;
  Ok (sort_by upcoming_change_cmp normalized).

(** [InstrumentSpec::try_from] *)
Definition instrument_spec_try_from (v : PublicInstrument) : result ReferenceError InstrumentSpec :=
  instrument_id ← require (pi_instrument_id v) (pi_instrument_id v) "instId";
  instrument_type ←
    (if (pi_instrument_type v =? "SWAP")%string then Ok Swap
     else if (pi_instrument_type v =? "FUTURES")%string then Ok Futures
     else Err (UnsupportedInstrumentType (pi_instrument_type v)));
  let rule_type := non_blank (pi_rule_type v) in
  changes ← normalize_upcoming_changes instrument_id (pi_upcoming_parameter_changes v);
  state ← require (pi_instrument_id v) (pi_state v) "state";
  tick_size ← require (pi_instrument_id v) (pi_tick_size v) "tickSz";
  lot_size ← require (pi_instrument_id v) (pi_lot_size v) "lotSz";
  min_size ← require (pi_instrument_id v) (pi_min_size v) "minSz";
  Ok {|
    is_instrument_id := instrument_id;
    is_instrument_type := instrument_type;
    is_instrument_family := non_blank (pi_instrument_family v);
    is_underlying := non_blank (pi_underlying v);
    is_state := state;
    is_rule_type := rule_type;
    is_funding_requirement := funding_requirement instrument_type rule_type;
    is_base_currency := non_blank (pi_base_currency v);
    is_quote_currency := non_blank (pi_quote_currency v);
    is_settle_currency := non_blank (pi_settle_currency v);
    is_tick_size := tick_size;
    is_lot_size := lot_size;
    is_min_size := min_size;
    is_max_limit_size := non_blank (pi_max_limit_size v);
    is_max_market_size := non_blank (pi_max_market_size v);
    is_max_limit_amount := non_blank (pi_max_limit_amount v);
    is_max_market_amount := non_blank (pi_max_market_amount v);
    is_contract_type := non_blank (pi_contract_type v);
    is_contract_value := non_blank (pi_contract_value v);
    is_contract_value_currency := non_blank (pi_contract_value_currency v);
    is_fee_group_id := non_blank (pi_fee_group_id v);
    is_max_leverage := non_blank (pi_lever v);
    is_list_time_ms := non_blank (pi_list_time v);
    is_expiry_time_ms := non_blank (pi_expiry_time v);
    is_initial_price_limit_pct := non_blank (pi_initial_price_limit_pct v);
    is_floating_price_limit_pct := non_blank (pi_floating_price_limit_pct v);
    is_maximum_price_limit_pct := non_blank (pi_maximum_price_limit_pct v);
    is_upcoming_rule_changes := changes;
  |}.

(** ** The registry *)
Definition generation_for (instruments : list (string * InstrumentSpec))
    : result ReferenceError string :=
  map_err Serialization
    (digest_json {| rgi_schema := REFERENCE_REGISTRY_SCHEMA_V1;
                    rgi_instruments := ovalues instruments |}).

(** The body of the loop of [from_public] *)
Definition from_public_step
    (acc : list (string * InstrumentSpec) * gset string) (i : PublicInstrument)
    : result ReferenceError (list (string * InstrumentSpec) * gset string) :=
  let '(normalized, seen) := acc in
  if is_incomplete_preopen_future_listing i then Ok acc else
  instrument_id ← require (pi_instrument_id i) (pi_instrument_id i) "instId";
  if decide (instrument_id ∈ seen) then Err (DuplicateInstrument instrument_id) else
  let seen := {[instrument_id]} ∪ seen in
  if is_preopen i then Ok (normalized, seen) else
  spec ← instrument_spec_try_from i;
  Ok (oinsert instrument_id spec normalized, seen).

Definition from_public (source_received_at : string) (instruments : list PublicInstrument)
    : result ReferenceError ReferenceRegistry :=
  if is_blank source_received_at then Err EmptySourceTimestamp else
  acc ← try_fold from_public_step ([], ∅) instruments;
  generation ← generation_for acc.1;
  Ok {| reg_source_received_at := source_received_at; reg_generation := generation;
        reg_instruments := acc.1 |}.

(** The body of the loop of [apply_public_updates]; the set of preopen ids is kept
    as an ordered map to [unit]. *)
Definition update_step
    (acc : list (string * InstrumentSpec) * list (string * unit) * gset string)
    (i : PublicInstrument)
    : result ReferenceError (list (string * InstrumentSpec) * list (string * unit) * gset string) :=
  let '(normalized, preopen, seen) := acc in
  if is_incomplete_preopen_future_listing i then Ok acc else
  instrument_id ← require (pi_instrument_id i) (pi_instrument_id i) "instId";
  if decide (instrument_id ∈ seen) then Err (DuplicateInstrument instrument_id) else
  let seen := {[instrument_id]} ∪ seen in
  if is_preopen i then Ok (normalized, oinsert instrument_id tt preopen, seen) else
  spec ← instrument_spec_try_from i;
  Ok (oinsert instrument_id spec normalized, preopen, seen).

Definition remove_all (ids : list (string * unit)) (m : list (string * InstrumentSpec))
    : list (string * InstrumentSpec) := foldl (λ m p, oremove p.1 m) m ids.
Definition insert_all (updates m : list (string * InstrumentSpec))
    : list (string * InstrumentSpec) := foldl (λ m p, oinsert p.1 p.2 m) m updates.

Definition apply_public_updates (self : ReferenceRegistry) (source_received_at : string)
    (updates : list PublicInstrument) : ReferenceRegistry * result ReferenceError bool :=
  if is_blank source_received_at then (self, Err EmptySourceTimestamp) else
  match try_fold update_step ([], [], ∅) updates with
  | Err e => (self, Err e)
  | Ok (normalized, preopen, _) =>
    let next := insert_all normalized (remove_all preopen (reg_instruments self)) in
    if decide (next = reg_instruments self)
    then ({| reg_source_received_at := source_received_at;
             reg_generation := reg_generation self;
             reg_instruments := reg_instruments self |}, Ok false)
    else match generation_for next with
         | Err e => (self, Err e)
         | Ok generation =>
           ({| reg_source_received_at := source_received_at; reg_generation := generation;
               reg_instruments := next |}, Ok true)
         end
  end.

Definition get (self : ReferenceRegistry) (instrument_id : string) : option InstrumentSpec :=
  oget (reg_instruments self) instrument_id.

Definition instrument_rules (self : ReferenceRegistry) (instrument_id : string)
    : option InstrumentRulesSnapshot :=
  instrument ← get self instrument_id;
  Some {| irs_reference_generation := reg_generation self;
          irs_source_received_at := reg_source_received_at self;
          irs_instrument := instrument |}.

Definition matches_search (asset : string) (settle : option string) (t : option InstrumentType)
    (i : InstrumentSpec) : bool :=
  (bool_decide (is_base_currency i = Some asset)
   || bool_decide (is_contract_value_currency i = Some asset))
  && match settle with None => true | Some s => bool_decide (is_settle_currency i = Some s) end
  && match t with None => true | Some e => bool_decide (is_instrument_type i = e) end.

Definition find_instruments (self : ReferenceRegistry) (asset : string) (settle : option string)
    (t : option InstrumentType) : InstrumentSearchSnapshot := {|
  iss_reference_generation := reg_generation self;
  iss_source_received_at := reg_source_received_at self;
  iss_asset := asset;
  iss_settle_currency := settle;
  iss_instrument_type := t;
  iss_instruments := List.filter (matches_search asset settle t) (ovalues (reg_instruments self));
|}.

(** [VenueExecutionEvidence::from_okx] *)
Definition venue_execution_evidence (source_received_at : string) (public : PublicInstrument)
    (account : Instrument) (limit : PublicPriceLimit) (max_size : option MaxOrderSize)
    (statuses : list SystemStatus) : result ReferenceError VenueExecutionEvidence :=
  if is_blank source_received_at then Err EmptySourceTimestamp else
  spec ← instrument_spec_try_from public;
  Ok {|
    vee_schema := VENUE_EXECUTION_EVIDENCE_SCHEMA_V1;
    vee_source_received_at := source_received_at;
    vee_public_instrument := spec;
    vee_account_instrument := {|
      ael_state := ai_state account;
      ael_max_limit_size := non_blank (ai_max_limit_size account);
      ael_max_market_size := non_blank (ai_max_market_size account);
      ael_position_limit_amount_usd := non_blank (ai_position_limit_amount_usd account);
      ael_position_limit_pct := non_blank (ai_position_limit_pct account);
      ael_platform_open_interest_limit_usd :=
        non_blank (ai_platform_open_interest_limit_usd account);
      ael_platform_open_interest_limit_coin :=
        non_blank (ai_platform_open_interest_limit_coin account);
      ael_long_position_remaining_quota_usd :=
        non_blank (ai_long_position_remaining_quota_usd account);
      ael_short_position_remaining_quota_usd :=
        non_blank (ai_short_position_remaining_quota_usd account) |};
    vee_price_limit := {|
      ple_instrument_id := ppl_instrument_id limit;
      ple_buy_limit := ppl_buy_limit limit;
      ple_sell_limit := ppl_sell_limit limit;
      ple_exchange_timestamp_ms := ppl_timestamp_ms limit |};
    vee_max_order_size :=
      (λ m, {| moe_instrument_id := mos_instrument_id m; moe_max_buy := mos_max_buy m;
               moe_max_sell := mos_max_sell m |}) <$> max_size;
    vee_ongoing_system_statuses :=
      map (λ s, {| sse_id := sys_id s; sse_state := sys_state s;
                   sse_service_type := sys_service_type s; sse_system := sys_system s;
                   sse_maintenance_type := sys_maintenance_type s;
                   sse_environment := sys_env s; sse_begin_ms := sys_begin s;
                   sse_end_ms := sys_end s |}) statuses;
  |}.
End reference.

(** ** Specification *)
Section spec.
Context `{Hashing} `{!Serialize RegistryGenerationInput}.

(** The listing of a batch that concerns an id; announcements without an id are skipped. *)
Definition listing (batch : list PublicInstrument) (id : string) : option PublicInstrument :=
  List.find (λ i, negb (is_incomplete_preopen_future_listing i)
                  && bool_decide (pi_instrument_id i = id)) batch.

(** What a batch says of an id: its specification, if it is listed and open. *)
Definition listed_spec (batch : list PublicInstrument) (id : string) : option InstrumentSpec :=
  match listing batch id with
  | Some i => if is_preopen i then None else
              match instrument_spec_try_from i with Ok s => Some s | Err _ => None end
  | None => None
  end.

Record change_wf (c : UpcomingRuleChange) : Prop := {
  change_param : urc_param c ∈ ["tickSz"; "minSz"; "maxMktSz"];
  change_value : is_blank (urc_new_value c) = false;
  change_time : ∃ t, parse_u64 (urc_effective_time_ms c) = Some t ∧ 0 < t;
}.

(** A specification that decisions may rely on *)
Record spec_wf (s : InstrumentSpec) : Prop := {
  spec_required : Forall (λ f, is_blank f = false)
    [is_instrument_id s; is_state s; is_tick_size s; is_lot_size s; is_min_size s];
  spec_optional : Forall (λ o, ∀ v, o = Some v → is_blank v = false)
    [is_instrument_family s; is_underlying s; is_rule_type s; is_base_currency s;
     is_quote_currency s; is_settle_currency s; is_max_limit_size s; is_max_market_size s;
     is_contract_value s; is_contract_value_currency s; is_fee_group_id s; is_max_leverage s;
     is_list_time_ms s; is_expiry_time_ms s];
  spec_open : (trim (is_state s) =? "preopen")%string = false;
  spec_funding :
    is_funding_requirement s = funding_requirement (is_instrument_type s) (is_rule_type s);
  spec_changes : Forall change_wf (is_upcoming_rule_changes s);
  spec_changes_sorted : StronglySorted (not_gt upcoming_change_cmp) (is_upcoming_rule_changes s);
}.

Definition keyed_wf (m : list (string * InstrumentSpec)) : Prop :=
  osorted m ∧ ∀ k s, oget m k = Some s → k = is_instrument_id s ∧ spec_wf s.

Record registry_wf (r : ReferenceRegistry) : Prop := {
  registry_entries : keyed_wf (reg_instruments r);
  registry_generation : generation_for (reg_instruments r) = Ok (reg_generation r);
  registry_timestamp : is_blank (reg_source_received_at r) = false;
}.
End spec.

(** ** Facts about one listing *)
Section facts.
Context `{Hashing} `{!Serialize RegistryGenerationInput}.

Lemma require_ok i v f w : require i v f = Ok w → w = v ∧ is_blank v = false.
Proof. unfold require. destruct (is_blank v); [done|]. by intros [= <-]. Qed.

Lemma non_blank_ok v w : non_blank v = Some w → is_blank w = false.
Proof. by intros [-> ?]%non_blank_Some. Qed.

Lemma normalize_upcoming_change_wf id c u :
  normalize_upcoming_change id c = Ok u → change_wf u.
Proof.
  unfold normalize_upcoming_change. intros H1.
  destruct (negb _) eqn:Hp in H1; [done|]. destruct (_ || _) eqn:Hv in H1; [done|].
  injection H1 as <-. reflect_bools. split; simpl.
  - rewrite !orb_true_iff, !String.eqb_eq in Hp. rewrite !elem_of_cons. tauto.
  - done.
  - destruct (parse_u64 _) as [t|]; [|done]. exists t. split; [done|]. by reflect_bools.
Qed.

Lemma normalize_upcoming_changes_ok id cs us :
  normalize_upcoming_changes id cs = Ok us →
  Forall change_wf us ∧ StronglySorted (not_gt upcoming_change_cmp) us.
Proof.
  intros H1. unfold normalize_upcoming_changes in H1. inv_ok H1. injection H1 as <-.
  apply try_map_Forall2 in Ha. split.
  - apply Forall_forall. intros u Hu. apply sort_by_elem in Hu.
    apply list_elem_of_lookup in Hu as [i Hi].
    destruct (Forall2_lookup_r _ _ _ _ _ Ha Hi) as (c & _ & Hc).
    by eapply normalize_upcoming_change_wf.
  - exact (sort_by_key_sorted
             (λ c, (urc_effective_time_ms c, (urc_param c, urc_new_value c))) _).
Qed.

Lemma instrument_spec_wf i s :
  is_preopen i = false → instrument_spec_try_from i = Ok s →
  is_instrument_id s = pi_instrument_id i ∧ spec_wf s.
Proof.
  unfold instrument_spec_try_from. intros Hpre H1. inv_ok H1. injection H1 as <-.
  repeat match goal with
  | Hr : require _ _ _ = Ok _ |- _ => apply require_ok in Hr as [-> ?]
  end.
  split; [done|].
  match goal with Hc : normalize_upcoming_changes _ _ = Ok _ |- _ =>
    apply normalize_upcoming_changes_ok in Hc as [??] end.
  split; simpl; try done.
  - by repeat constructor.
  - repeat constructor; by apply non_blank_ok.
Qed.

Lemma listing_id batch id i : listing batch id = Some i → pi_instrument_id i = id.
Proof. intros [_ Hi]%find_some. reflect_bools. done. Qed.

Lemma listing_snoc batch i id :
  listing (batch ++ [i]) id =
  match listing batch id with
  | Some j => Some j
  | None => if negb (is_incomplete_preopen_future_listing i) then
              if decide (pi_instrument_id i = id) then Some i else None
            else None
  end.
Proof.
  unfold listing. rewrite find_snoc. destruct (List.find _ batch); [done|].
  destruct (is_incomplete_preopen_future_listing i); simpl; [done|].
  by case_bool_decide; case_decide.
Qed.

(** What the loops over a batch maintain *)
Record batch_wf (batch : list PublicInstrument) (normalized : list (string * InstrumentSpec))
    (seen : gset string) : Prop := {
  batch_seen : ∀ id, id ∈ seen ↔ is_Some (listing batch id);
  batch_sorted : osorted normalized;
  batch_lookup : ∀ id,
    match listing batch id with
    | None => oget normalized id = None
    | Some i => if is_preopen i then oget normalized id = None
                else ∃ s, instrument_spec_try_from i = Ok s ∧ oget normalized id = Some s
    end;
}.

Definition preopen_wf (batch : list PublicInstrument) (preopen : list (string * unit)) : Prop :=
  osorted preopen ∧
  ∀ id, oget preopen id =
        match listing batch id with
        | Some i => if is_preopen i then Some tt else None
        | None => None
        end.

Lemma batch_wf_nil : batch_wf [] [] ∅.
Proof.
  split; simpl; [|constructor|done].
  intros id. split; [set_solver|intros [? [=]]].
Qed.

Lemma batch_wf_skip batch normalized seen i :
  is_incomplete_preopen_future_listing i = true →
  batch_wf batch normalized seen → batch_wf (batch ++ [i]) normalized seen.
Proof.
  intros Hi [Hseen Hs Hl]. split; [|done|]; intros id; specialize (Hseen id);
    specialize (Hl id); rewrite listing_snoc, Hi; simpl; by destruct (listing batch id).
Qed.

Lemma batch_wf_new batch normalized seen i :
  batch_wf batch normalized seen → pi_instrument_id i ∉ seen →
  listing batch (pi_instrument_id i) = None.
Proof.
  intros [Hseen _ _] Hi. rewrite Hseen in Hi. destruct (listing _ _); [|done]. by destruct Hi.
Qed.

Lemma batch_wf_snoc batch normalized normalized' seen i :
  is_incomplete_preopen_future_listing i = false → pi_instrument_id i ∉ seen →
  batch_wf batch normalized seen → osorted normalized' →
  (∀ id, id ≠ pi_instrument_id i → oget normalized' id = oget normalized id) →
  (if is_preopen i then oget normalized' (pi_instrument_id i) = None
   else ∃ s, instrument_spec_try_from i = Ok s ∧
             oget normalized' (pi_instrument_id i) = Some s) →
  batch_wf (batch ++ [i]) normalized' ({[pi_instrument_id i]} ∪ seen).
Proof.
  intros Hi Hnew Hwf Hs Hother Hthis. pose proof (batch_wf_new _ _ _ _ Hwf Hnew) as Hnone.
  destruct Hwf as [Hseen _ Hl]. split; [|done|]; intros id; rewrite listing_snoc, Hi; simpl.
  - rewrite elem_of_union, elem_of_singleton, Hseen.
    destruct (listing batch id) eqn:E; [naive_solver|].
    case_decide as Hid; [naive_solver|]. split; [|intros [? [=]]].
    intros [->|[? [=]]]. done.
  - destruct (decide (pi_instrument_id i = id)) as [<-|Hid]; [by rewrite Hnone|].
    rewrite Hother by done. specialize (Hl id). by destruct (listing batch id).
Qed.

Lemma update_step_wf batch normalized preopen seen i normalized' preopen' seen' :
  batch_wf batch normalized seen → preopen_wf batch preopen →
  update_step (normalized, preopen, seen) i = Ok (normalized', preopen', seen') →
  batch_wf (batch ++ [i]) normalized' seen' ∧ preopen_wf (batch ++ [i]) preopen'.
Proof.
  intros Hwf [Hps Hp] H1. unfold update_step in H1.
  destruct (is_incomplete_preopen_future_listing i) eqn:Hinc.
  { injection H1 as <- <- <-. split; [by apply batch_wf_skip|]. split; [done|].
    intros id. rewrite listing_snoc, Hinc, Hp. simpl. by destruct (listing batch id). }
  apply bind_ok in H1 as (id & [-> Hid]%require_ok & H1).
  destruct (decide (_ ∈ seen)) as [|Hnew]; [done|].
  pose proof (batch_wf_new _ _ _ _ Hwf Hnew) as Hnone.
  pose proof (batch_lookup _ _ _ Hwf (pi_instrument_id i)) as Hn. rewrite Hnone in Hn.
  destruct (is_preopen i) eqn:Hpre.
  - injection H1 as <- <- <-. split.
    { eapply batch_wf_snoc; try done; [apply Hwf|by rewrite Hpre]. }
    split; [by apply oinsert_sorted|]. intros id. rewrite listing_snoc, Hinc. simpl.
    destruct (decide (pi_instrument_id i = id)) as [<-|Hne].
    + rewrite Hnone, Hpre. apply oget_oinsert_eq, kcmp_refl.
    + rewrite oget_oinsert_ne by (intros ?%kcmp_eq; congruence). rewrite Hp.
      by destruct (listing batch id).
  - apply bind_ok in H1 as (s & Hspec & [= <- <- <-]). split.
    + eapply batch_wf_snoc; try done.
      * apply oinsert_sorted, Hwf.
      * intros id Hne. apply oget_oinsert_ne. intros ?%kcmp_eq. congruence.
      * rewrite Hpre. exists s. split; [done|]. apply oget_oinsert_eq, kcmp_refl.
    + split; [done|]. intros id. rewrite listing_snoc, Hinc, Hp. simpl.
      destruct (listing batch id); [done|]. case_decide; [by rewrite Hpre|done].
Qed.

Lemma update_loop_wf batch normalized preopen seen :
  try_fold update_step ([], [], ∅) batch = Ok (normalized, preopen, seen) →
  batch_wf batch normalized seen ∧ preopen_wf batch preopen.
Proof.
  intros H1.
  apply (try_fold_prefix (λ b acc, batch_wf b acc.1.1 acc.2 ∧ preopen_wf b acc.1.2)) in H1;
    [done| |].
  - split; [apply batch_wf_nil|]. split; [constructor|done].
  - intros b [[n p] s] i [[n' p'] s'] [Hb Hp] H2. by eapply update_step_wf.
Qed.

(** The full listing runs the same loop, without the set of closed ids. *)
Lemma from_public_step_update normalized preopen seen i :
  from_public_step (normalized, seen) i =
  (acc ← update_step (normalized, preopen, seen) i; Ok (acc.1.1, acc.2)).
Proof.
  unfold from_public_step, update_step.
  destruct (is_incomplete_preopen_future_listing i); [done|].
  destruct (require _ _ _); simpl; [|done]. case_decide; [done|].
  destruct (is_preopen i); [done|]. by destruct (instrument_spec_try_from i).
Qed.

Lemma from_public_loop batch normalized preopen seen :
  try_fold from_public_step (normalized, seen) batch =
  (acc ← try_fold update_step (normalized, preopen, seen) batch; Ok (acc.1.1, acc.2)).
Proof.
  revert normalized preopen seen. induction batch as [|i batch IH]; intros n p s; cbn [try_fold]; [done|].
  rewrite (from_public_step_update _ p). destruct (update_step _ _) as [[[n' p'] s']|]; simpl;
    [apply IH|done].
Qed.

Lemma keyed_wf_insert m batch normalized seen :
  keyed_wf m → batch_wf batch normalized seen →
  ∀ k s, match oget normalized k with Some v => Some v | None => oget m k end = Some s →
         k = is_instrument_id s ∧ spec_wf s.
Proof.
  intros [_ Hm] [_ _ Hl] k s. specialize (Hl k).
  destruct (listing batch k) as [i|] eqn:Ei; [destruct (is_preopen i) eqn:Hpre|].
  - rewrite Hl. apply Hm.
  - destruct Hl as (s' & Hs' & ->). intros [= ->].
    destruct (instrument_spec_wf i s Hpre Hs') as [Hid Hwf]. split; [|done].
    by rewrite Hid, (listing_id _ _ _ Ei).
  - rewrite Hl. apply Hm.
Qed.

(** The lookups of the map that a batch produces *)
Lemma apply_batch_lookup m batch normalized preopen seen k :
  osorted m → batch_wf batch normalized seen → preopen_wf batch preopen →
  match listing batch k with
  | None => oget (insert_all normalized (remove_all preopen m)) k = oget m k
  | Some i => if is_preopen i
              then oget (insert_all normalized (remove_all preopen m)) k = None
              else ∃ s, instrument_spec_try_from i = Ok s ∧
                        oget (insert_all normalized (remove_all preopen m)) k = Some s
  end.
Proof.
  intros Hm Hb [Hps Hp]. unfold insert_all, remove_all.
  rewrite oget_oinsert_fold by apply Hb. rewrite oget_oremove_fold by done.
  pose proof (batch_lookup _ _ _ Hb k) as Hl. specialize (Hp k).
  destruct (listing batch k) as [i|]; [destruct (is_preopen i)|].
  - by rewrite Hl, Hp.
  - destruct Hl as (s & ? & ->). by exists s.
  - by rewrite Hl, Hp.
Qed.

Lemma apply_batch_sorted m normalized preopen :
  osorted m → osorted (insert_all normalized (remove_all preopen m)).
Proof. intros. by apply oinsert_fold_sorted, oremove_fold_sorted. Qed.

Lemma apply_batch_keyed m batch normalized preopen seen :
  keyed_wf m → batch_wf batch normalized seen → preopen_wf batch preopen →
  keyed_wf (insert_all normalized (remove_all preopen m)).
Proof.
  intros Hm Hb [Hps Hp]. unfold insert_all, remove_all. split.
  { apply oinsert_fold_sorted, oremove_fold_sorted, Hm. }
  intros k s. rewrite oget_oinsert_fold by apply Hb. intros Hk.
  eapply keyed_wf_insert; [exact Hm|exact Hb|]. revert Hk.
  destruct (oget normalized k); [done|]. rewrite oget_oremove_fold by (try done; apply Hm).
  by destruct (oget preopen k).
Qed.

(** Every way in which an update can end *)
Lemma apply_public_updates_cases self ts batch self' r :
  apply_public_updates self ts batch = (self', r) →
  (self' = self ∧ ∃ e, r = Err e) ∨
  ∃ normalized preopen seen,
    is_blank ts = false ∧
    try_fold update_step ([], [], ∅) batch = Ok (normalized, preopen, seen) ∧
    reg_source_received_at self' = ts ∧
    reg_instruments self' = insert_all normalized (remove_all preopen (reg_instruments self)) ∧
    (r = Ok false ∧ reg_instruments self' = reg_instruments self ∧
       reg_generation self' = reg_generation self ∨
     r = Ok true ∧ reg_instruments self' ≠ reg_instruments self ∧
       generation_for (reg_instruments self') = Ok (reg_generation self')).
Proof.
  unfold apply_public_updates. destruct (is_blank ts) eqn:Hts; [naive_solver|].
  destruct (try_fold _ _ _) as [[[normalized preopen] seen]|] eqn:Hf; [|naive_solver].
  case_decide as Hsame.
  - intros [= <- <-]. right. exists normalized, preopen, seen. simpl. naive_solver.
  - destruct (generation_for _) as [g|] eqn:Hg; [|naive_solver].
    intros [= <- <-]. right. exists normalized, preopen, seen. simpl. naive_solver.
Qed.
End facts.

(** ** Theorems *)
Section theorems.
Context `{Hashing} `{!Serialize RegistryGenerationInput}.

(** The registries the code can hold *)
Inductive registry_reachable : ReferenceRegistry → Prop :=
| reach_listing ts batch r :
    from_public ts batch = Ok r → registry_reachable r
| reach_update r ts batch :
    registry_reachable r → registry_reachable (apply_public_updates r ts batch).1.

Lemma from_public_cases ts batch r :
  from_public ts batch = Ok r →
  ∃ seen, is_blank ts = false ∧ reg_source_received_at r = ts ∧
          batch_wf batch (reg_instruments r) seen ∧
          generation_for (reg_instruments r) = Ok (reg_generation r).
Proof.
  unfold from_public. destruct (is_blank ts) eqn:Hts; [done|]. intros H1.
  inv_ok H1. injection H1 as <-. rewrite (from_public_loop _ _ []) in Ha. inv_ok Ha.
  injection Ha as <-. destruct a1 as [[n p] s].
  apply update_loop_wf in Ha1 as [Hb _]. by exists s.
Qed.

(** the registry invariant.  Every registry that a full listing builds, and every
    registry that any sequence of update batches (accepted or refused) leads to, is
    ordered by instrument id with each entry under its own id; every entry has its
    required fields, no blank optional field, is not in preopen, carries the
    funding requirement of its type and rule, and lists only positive-time upcoming
    changes in order; the generation is the digest of exactly these entries. *)
Theorem registry_reachable_wf r : registry_reachable r → registry_wf r.
Proof.
  induction 1 as [ts batch r Hr|r ts batch _ IH].
  - apply from_public_cases in Hr as (seen & Hts & <- & Hb & Hg). split; [|done|done].
    split; [apply Hb|]. intros k s Hk.
    eapply (keyed_wf_insert []); [by split; [constructor|]|exact Hb|]. by rewrite Hk.
  - destruct (apply_public_updates r ts batch) as [r' v] eqn:E. simpl.
    apply apply_public_updates_cases in E as [[-> _]|(n & p & s & Hts & Hf & <- & Hi & Hc)];
      [done|]. apply update_loop_wf in Hf as [Hb Hp]. destruct IH as [Hk Hg _].
    split; [|by destruct Hc as [(_ & -> & ->)|(_ & _ & ?)]|done].
    rewrite Hi. by eapply apply_batch_keyed.
Qed.

(** what an accepted update does.  After it, an id that the batch does not list
    keeps its entry, an id listed in preopen has none, and an id listed open has the
    specification of its listing; the receipt timestamp is the batch's, and the
    verdict says whether any entry changed. *)
Theorem update_lookup self ts batch self' changed :
  osorted (reg_instruments self) →
  apply_public_updates self ts batch = (self', Ok changed) →
  reg_source_received_at self' = ts ∧
  (changed = true ↔ reg_instruments self' ≠ reg_instruments self) ∧
  ∀ id, match listing batch id with
        | None => get self' id = get self id
        | Some i => if is_preopen i then get self' id = None
                    else ∃ s, instrument_spec_try_from i = Ok s ∧ get self' id = Some s
        end.
Proof.
  intros Hs E.
  apply apply_public_updates_cases in E as [(_ & ? & [=])|(n & p & s & Hts & Hf & <- & Hi & Hc)].
  split; [done|]. split.
  { destruct Hc as [([= ->] & -> & _)|([= ->] & ? & _)]; naive_solver. }
  apply update_loop_wf in Hf as [Hb Hp]. unfold get. rewrite Hi.
  intros id. by eapply apply_batch_lookup.
Qed.

(** updates are atomic.  A refused batch leaves the registry untouched, and a batch
    that changes no entry leaves the generation as it was. *)
Theorem update_atomic self ts batch :
  let '(self', r) := apply_public_updates self ts batch in
  match r with
  | Err _ => self' = self
  | Ok false => self' = {| reg_source_received_at := ts; reg_generation := reg_generation self;
                           reg_instruments := reg_instruments self |}
  | Ok true => reg_instruments self' ≠ reg_instruments self ∧
               generation_for (reg_instruments self') = Ok (reg_generation self')
  end.
Proof.
  destruct (apply_public_updates self ts batch) as [self' r] eqn:E.
  apply apply_public_updates_cases in E
    as [[-> [e ->]]|(n & p & s & _ & _ & Hts & _ & [(-> & Hi & Hg)|(-> & ? & ?)])]; [done| |done].
  destruct self'; simpl in *. by subst.
Qed.

(** redelivery is harmless.  Applying an accepted batch again, at any receipt time,
    is accepted, reports no change and keeps every entry and the generation. *)
Theorem update_idempotent self ts batch self' changed ts' :
  osorted (reg_instruments self) → is_blank ts' = false →
  apply_public_updates self ts batch = (self', Ok changed) →
  apply_public_updates self' ts' batch =
  ({| reg_source_received_at := ts'; reg_generation := reg_generation self';
      reg_instruments := reg_instruments self' |}, Ok false).
Proof.
  intros Hs Hts' E.
  apply apply_public_updates_cases in E as [(_ & ? & [=])|(n & p & s & _ & Hf & _ & Hi & _)].
  unfold apply_public_updates. rewrite Hts', Hf.
  assert (osorted (reg_instruments self')) as Hs'.
  { rewrite Hi. by apply apply_batch_sorted. }
  assert (insert_all n (remove_all p (reg_instruments self')) = reg_instruments self') as ->;
    [|by rewrite decide_True].
  apply update_loop_wf in Hf as [Hb [Hps Hp]]. apply omap_ext; [|done|].
  { by apply apply_batch_sorted. }
  intros k. rewrite Hi. unfold insert_all, remove_all.
  rewrite !oget_oinsert_fold by apply Hb. destruct (oget n k) eqn:En; [done|].
  rewrite !oget_oremove_fold by (try done; by apply oinsert_fold_sorted, oremove_fold_sorted).
  destruct (oget p k) eqn:Ep; [done|].
  by rewrite oget_oinsert_fold, En, oget_oremove_fold, Ep by (try done; apply Hb).
Qed.

(** search is exact.  The result holds exactly the entries that match every given
    criterion, each once, in the order of their ids, under the registry's generation. *)
Theorem find_instruments_exact r asset settle t :
  registry_wf r →
  let found := iss_instruments (find_instruments r asset settle t) in
  iss_reference_generation (find_instruments r asset settle t) = reg_generation r ∧
  StronglySorted (λ a b, kcmp (is_instrument_id a) (is_instrument_id b) = Lt) found ∧
  ∀ s, s ∈ found ↔
    get r (is_instrument_id s) = Some s ∧
    (is_base_currency s = Some asset ∨ is_contract_value_currency s = Some asset) ∧
    (∀ c, settle = Some c → is_settle_currency s = Some c) ∧
    (∀ e, t = Some e → is_instrument_type s = e).
Proof.
  intros [[Hs Hk] _ _]. simpl. split; [done|]. split.
  - assert (∀ k s, (k, s) ∈ reg_instruments r → k = is_instrument_id s) as Hid.
    { intros k s Hin. by apply (Hk k s), elem_of_oget. }
    clear Hk. unfold ovalues. induction Hs as [|[k s] m Hm IH Hlt]; [constructor|]. simpl.
    assert (StronglySorted (λ a b, kcmp (is_instrument_id a) (is_instrument_id b) = Lt)
              (List.filter (matches_search asset settle t) (map snd m))) as Hrest.
    { apply IH. intros. apply Hid. by right. }
    destruct (matches_search _ _ _ s); [|done]. constructor; [done|].
    apply Forall_forall. intros x Hx.
    rewrite list_elem_of_In, filter_In, in_map_iff in Hx.
    destruct Hx as [([k' x'] & Hx' & Hin) _]. simpl in Hx'. subst x'.
    apply list_elem_of_In in Hin. rewrite Forall_forall in Hlt.
    specialize (Hlt _ Hin). unfold key_lt in Hlt. simpl in Hlt.
    rewrite <- (Hid k s), <- (Hid k' x); [done|by right|by left].
  - intros s. unfold ovalues. rewrite list_elem_of_In, filter_In, in_map_iff.
    assert ((∃ x, x.2 = s ∧ In x (reg_instruments r)) ↔ get r (is_instrument_id s) = Some s) as ->.
    { unfold get. split.
      - intros ([k x] & Hx & Hin%list_elem_of_In). simpl in Hx. subst x.
        apply elem_of_oget in Hin; [|done]. by destruct (Hk _ _ Hin) as [<- _].
      - intros Hg%elem_of_oget; [|done]. eexists (_, s). split; [done|].
        by apply list_elem_of_In. }
    unfold matches_search. rewrite !andb_true_iff, orb_true_iff, !bool_decide_eq_true.
    destruct settle, t; rewrite ?bool_decide_eq_true; naive_solver.
Qed.
End theorems.

(** ** Witnesses *)
Definition sample_instrument (id type state : string) : PublicInstrument := {|
  pi_instrument_type := type; pi_instrument_id := id; pi_instrument_family := "BTC-USD";
  pi_underlying := "BTC-USD"; pi_state := state; pi_rule_type := "normal";
  pi_base_currency := ""; pi_quote_currency := ""; pi_settle_currency := "BTC";
  pi_tick_size := "0.1"; pi_lot_size := "1"; pi_min_size := "1";
  pi_max_limit_size := "100"; pi_max_market_size := ""; pi_max_limit_amount := "";
  pi_max_market_amount := ""; pi_contract_type := "inverse"; pi_contract_value := "100";
  pi_contract_value_currency := "BTC"; pi_fee_group_id := ""; pi_lever := "50";
  pi_list_time := "1"; pi_expiry_time := ""; pi_initial_price_limit_pct := "";
  pi_floating_price_limit_pct := ""; pi_maximum_price_limit_pct := "";
  pi_upcoming_parameter_changes :=
    [{| upc_param := "tickSz"; upc_new_value := "0.5"; upc_effective_time_ms := "200" |};
     {| upc_param := "minSz"; upc_new_value := "2"; upc_effective_time_ms := "100" |}];
|}.

Section witnesses.
Local Existing Instance toy_hashing.
Local Existing Instance toy_serialize.

Definition sample_registry : ReferenceRegistry := {|
  reg_source_received_at := "t0"; reg_generation := "sha256:x";
  reg_instruments :=
    match from_public "t0" [sample_instrument "B" "SWAP" "live"; sample_instrument "A" "FUTURES" "live"] with
    | Ok r => reg_instruments r
    | Err _ => []
    end |}.
Definition sample_batch : list PublicInstrument :=
  [sample_instrument "A" "FUTURES" "preopen"; sample_instrument "C" "SWAP" "live"].

Lemma sample_registry_listed :
  from_public "t0" [sample_instrument "B" "SWAP" "live"; sample_instrument "A" "FUTURES" "live"]
  = Ok sample_registry.
Proof. by vm_compute. Qed.

Lemma sample_registry_reachable : registry_reachable sample_registry.
Proof. by eapply reach_listing, sample_registry_listed. Qed.

Lemma sample_registry_sorted : osorted (reg_instruments sample_registry).
Proof.
  by destruct (from_public_cases _ _ _ sample_registry_listed) as (seen & _ & _ & [_ ? _] & _).
Qed.

Lemma registry_reachable_wf_witness :
  map is_instrument_id (ovalues (reg_instruments
    (apply_public_updates sample_registry "t1" sample_batch).1)) = ["B"; "C"] ∧
  registry_wf (apply_public_updates sample_registry "t1" sample_batch).1.
Proof.
  split; [by vm_compute|].
  apply registry_reachable_wf, reach_update, sample_registry_reachable.
Defined.

Lemma update_lookup_witness :
  (apply_public_updates sample_registry "t1" sample_batch).2 = Ok true ∧
  get (apply_public_updates sample_registry "t1" sample_batch).1 "A" = None.
Proof.
  assert ((apply_public_updates sample_registry "t1" sample_batch).2 = Ok true) as Hr
    by (by vm_compute).
  split; [done|].
  destruct (apply_public_updates sample_registry "t1" sample_batch) as [r' v] eqn:E.
  simpl in Hr. subst v.
  destruct (update_lookup sample_registry "t1" sample_batch r' true sample_registry_sorted E)
    as (_ & _ & Hl). exact (Hl "A").
Defined.

Lemma update_idempotent_witness :
  let r' := (apply_public_updates sample_registry "t1" sample_batch).1 in
  (apply_public_updates sample_registry "t1" sample_batch).2 = Ok true ∧
  (apply_public_updates r' "t2" sample_batch).2 = Ok false.
Proof.
  assert ((apply_public_updates sample_registry "t1" sample_batch).2 = Ok true) as Hr
    by (by vm_compute).
  split; [done|].
  destruct (apply_public_updates sample_registry "t1" sample_batch) as [r' v] eqn:E.
  simpl in Hr. subst v. simpl.
  by rewrite (update_idempotent sample_registry "t1" sample_batch r' true "t2"
                sample_registry_sorted eq_refl E).
Defined.

Lemma find_instruments_exact_witness :
  registry_wf sample_registry ∧
  StronglySorted (λ a b, kcmp (is_instrument_id a) (is_instrument_id b) = Lt)
    (iss_instruments (find_instruments sample_registry "BTC" (Some "BTC") (Some Swap))) ∧
  map is_instrument_id
    (iss_instruments (find_instruments sample_registry "BTC" (Some "BTC") (Some Swap))) = ["B"].
Proof.
  assert (registry_wf sample_registry) as Hwf.
  { destruct (from_public_cases _ _ _ sample_registry_listed) as (seen & ? & ? & Hb & ?).
    split; [|done|done]. split; [apply Hb|]. intros k s Hk.
    eapply (keyed_wf_insert []); [by split; [constructor|]|exact Hb|]. by rewrite Hk. }
  split; [done|]. split; [|by vm_compute].
  apply (find_instruments_exact sample_registry "BTC" (Some "BTC") (Some Swap) Hwf).
Defined.
End witnesses.
