(* ===== verification/Market.v ===== *)
(** * Market: normalized market snapshots, [okx-observation/src/market.rs]

    A snapshot joins the ticker, mark price, index price, funding rate and open
    interest of one live instrument of the reference registry.  Every source must
    be about that instrument, funding data must be present exactly when the
    instrument has funding, and the snapshot's generation digests its contents
    but not the time at which they were received. *)
From stdpp Require Import base option list numbers strings.
From Stdlib Require Import ZArith Lia.
From S2P Require Import Prelude Text Ordered External Wire Reference.
Local Open Scope string_scope.
Local Open Scope list_scope.

(** ** Data *)
Definition MARKET_SNAPSHOT_SCHEMA_V1 : string := "okx.market-snapshot/v1".
Definition SNAPSHOT_QUALITY_SCHEMA_V1 : string := "okx.snapshot-quality/v1".
Definition M2_REST_BOOTSTRAP_REASON : string := "M2_REST_BOOTSTRAP_ONLY".

Record MarketBootstrap : Type := {
  mb_ticker : PublicTicker;
  mb_mark_price : PublicMarkPrice;
  mb_index_ticker : PublicIndexTicker;
  mb_funding_rate : option PublicFundingRate;
  mb_open_interest : PublicOpenInterest;
}.

Record TickerState : Type := {
  ts_last : string;
  ts_last_size : string;
  ts_best_ask : string;
  ts_best_ask_size : string;
  ts_best_bid : string;
  ts_best_bid_size : string;
  ts_open_24h : option string;
  ts_high_24h : option string;
  ts_low_24h : option string;
  ts_volume_currency_24h : option string;
  ts_volume_24h : option string;
  ts_exchange_timestamp_ms : string;
}.

Record MarketUniverseTicker : Type := {
  mut_instrument_id : string;
  mut_instrument_type : InstrumentType;
  mut_last : option string;
  mut_best_bid : option string;
  mut_best_ask : option string;
  mut_open_24h : option string;
  mut_volume_24h : option string;
  mut_volume_currency_24h : option string;
  mut_exchange_timestamp_ms : string;
}.

Record MarkPriceState : Type := {
  mps_price : string;
  mps_exchange_timestamp_ms : string;
}.

Record IndexPriceState : Type := {
  ips_index_id : string;
  ips_price : string;
  ips_exchange_timestamp_ms : string;
}.

Record FundingState : Type := {
  fs_rate : string;
  fs_funding_time_ms : string;
  fs_next_funding_time_ms : string;
  fs_premium : option string;
  fs_min_rate : option string;
  fs_max_rate : option string;
  fs_exchange_timestamp_ms : string;
}.

Record OpenInterestState : Type := {
  ois_contracts : string;
  ois_currency : option string;
  ois_usd : option string;
  ois_exchange_timestamp_ms : string;
}.

Record MarketSnapshot : Type := {
  ms_schema : string;
  ms_instrument_id : string;
  ms_instrument_type : InstrumentType;
  ms_underlying : string;
  ms_reference_generation : string;
  ms_market_generation : string;
  ms_source_received_at : string;
  ms_ticker : TickerState;
  ms_mark_price : MarkPriceState;
  ms_index_price : IndexPriceState;
  ms_funding : option FundingState;
  ms_open_interest : OpenInterestState;
}.

Record SnapshotQualityReport : Type := {
  sqr_schema : string;
  sqr_instrument_id : string;
  sqr_reference_generation : string;
  sqr_reference_source_received_at : string;
  sqr_market_mode : string;
  sqr_persistent_ws_connected : bool;
  sqr_sequence_continuity_proven : bool;
  sqr_reason : string;
}.

(** The digested part of a snapshot: everything but the receipt time *)
Record MarketGenerationInput : Type := {
  mgi_schema : string;
  mgi_instrument_id : string;
  mgi_instrument_type : InstrumentType;
  mgi_underlying : string;
  mgi_reference_generation : string;
  mgi_ticker : TickerState;
  mgi_mark_price : MarkPriceState;
  mgi_index_price : IndexPriceState;
  mgi_funding : option FundingState;
  mgi_open_interest : OpenInterestState;
}.

Section market.
Context `{Hashing} `{!Serialize MarketGenerationInput}.

Inductive MarketError : Type :=
| EmptySourceTimestamp
| InstrumentNotFound (instrument_id : string)
| InstrumentNotLive (instrument_id : string)
| UnsupportedInstrumentType (value : string)
| MissingUnderlying (instrument_id : string)
| InstrumentMismatch (origin expected actual : string)
| IndexMismatch (expected actual : string)
| MissingField (origin field : string)
| FundingRequired
| UnexpectedFunding
| UnknownFundingRequirement (instrument_id rule_type : string)
| Serialization (e : SerdeError).

Definition require_instrument (origin expected actual : string) : result MarketError unit :=
  if (actual =? expected)%string then Ok tt else Err (InstrumentMismatch origin expected actual).

Definition required (origin field value : string) : result MarketError string :=
  if is_blank value then Err (MissingField origin field) else Ok value.

(** [MarketUniverseTicker::try_from] *)
Definition universe_ticker_try_from (v : PublicTicker) : result MarketError MarketUniverseTicker :=
  instrument_id ← required "bulk ticker" "instId" (tk_instrument_id v);
  instrument_type ←
    (if (tk_instrument_type v =? "SWAP")%string then Ok Swap
     else if (tk_instrument_type v =? "FUTURES")%string then Ok Futures
     else Err (UnsupportedInstrumentType (tk_instrument_type v)));
  ts ← required "bulk ticker" "ts" (tk_ts v);
  Ok {| mut_instrument_id := instrument_id;
        mut_instrument_type := instrument_type;
        mut_last := non_blank (tk_last v);
        mut_best_bid := non_blank (tk_bid_price v);
        mut_best_ask := non_blank (tk_ask_price v);
        mut_open_24h := non_blank (tk_open_24h v);
        mut_volume_24h := non_blank (tk_volume_24h v);
        mut_volume_currency_24h := non_blank (tk_volume_currency_24h v);
        mut_exchange_timestamp_ms := ts |}.

(** [SnapshotQualityReport::m2] *)
Definition quality_m2 (reference : ReferenceRegistry) (instrument_id : string)
    : result MarketError SnapshotQualityReport :=
  instrument ← ok_or (InstrumentNotFound instrument_id) (get reference instrument_id);
  if negb (is_state instrument =? "live")%string then Err (InstrumentNotLive instrument_id) else
  Ok {| sqr_schema := SNAPSHOT_QUALITY_SCHEMA_V1;
        sqr_instrument_id := instrument_id;
        sqr_reference_generation := reg_generation reference;
        sqr_reference_source_received_at := reg_source_received_at reference;
        sqr_market_mode := "rest_bootstrap";
        sqr_persistent_ws_connected := false;
        sqr_sequence_continuity_proven := false;
        sqr_reason := M2_REST_BOOTSTRAP_REASON |}.

Definition generation_for (s : MarketSnapshot) : result MarketError string :=
  map_err Serialization (digest_json {|
    mgi_schema := MARKET_SNAPSHOT_SCHEMA_V1;
    mgi_instrument_id := ms_instrument_id s;
    mgi_instrument_type := ms_instrument_type s;
    mgi_underlying := ms_underlying s;
    mgi_reference_generation := ms_reference_generation s;
    mgi_ticker := ms_ticker s;
    mgi_mark_price := ms_mark_price s;
    mgi_index_price := ms_index_price s;
    mgi_funding := ms_funding s;
    mgi_open_interest := ms_open_interest s |}).

Definition ticker_state (t : PublicTicker) : result MarketError TickerState :=
  last ← required "ticker" "last" (tk_last t);
  last_size ← required "ticker" "lastSz" (tk_last_size t);
  best_ask ← required "ticker" "askPx" (tk_ask_price t);
  best_ask_size ← required "ticker" "askSz" (tk_ask_size t);
  best_bid ← required "ticker" "bidPx" (tk_bid_price t);
  best_bid_size ← required "ticker" "bidSz" (tk_bid_size t);
  ts ← required "ticker" "ts" (tk_ts t);
  Ok {| ts_last := last; ts_last_size := last_size;
        ts_best_ask := best_ask; ts_best_ask_size := best_ask_size;
        ts_best_bid := best_bid; ts_best_bid_size := best_bid_size;
        ts_open_24h := non_blank (tk_open_24h t);
        ts_high_24h := non_blank (tk_high_24h t);
        ts_low_24h := non_blank (tk_low_24h t);
        ts_volume_currency_24h := non_blank (tk_volume_currency_24h t);
        ts_volume_24h := non_blank (tk_volume_24h t);
        ts_exchange_timestamp_ms := ts |}.

Definition funding_state (f : PublicFundingRate) : result MarketError FundingState :=
  rate ← required "funding rate" "fundingRate" (fr_funding_rate f);
  time ← required "funding rate" "fundingTime" (fr_funding_time f);
  next ← required "funding rate" "nextFundingTime" (fr_next_funding_time f);
  ts ← required "funding rate" "ts" (fr_ts f);
  Ok {| fs_rate := rate; fs_funding_time_ms := time; fs_next_funding_time_ms := next;
        fs_premium := non_blank (fr_premium f);
        fs_min_rate := non_blank (fr_min_funding_rate f);
        fs_max_rate := non_blank (fr_max_funding_rate f);
        fs_exchange_timestamp_ms := ts |}.

(** The match on the instrument's funding requirement in [from_bootstrap] *)
Definition bootstrap_funding (instrument : InstrumentSpec) (instrument_id : string)
    (funding_rate : option PublicFundingRate) : result MarketError (option FundingState) :=
  match is_funding_requirement instrument with
  | Required =>
    funding ← ok_or FundingRequired funding_rate;
    _ ← require_instrument "funding rate" instrument_id (fr_instrument_id funding);
    state ← funding_state funding;
    Ok (Some state)
  | NotApplicable =>
    match funding_rate with Some _ => Err UnexpectedFunding | None => Ok None end
  | Unknown =>
    Err (UnknownFundingRequirement instrument_id (default "<missing>" (is_rule_type instrument)))
  end.

(** [MarketSnapshot::from_bootstrap] *)
Definition from_bootstrap (reference : ReferenceRegistry) (instrument_id source_received_at : string)
    (bootstrap : MarketBootstrap) : result MarketError MarketSnapshot :=
  if is_blank source_received_at then Err EmptySourceTimestamp else
  instrument ← ok_or (InstrumentNotFound instrument_id) (get reference instrument_id);
  if negb (is_state instrument =? "live")%string then Err (InstrumentNotLive instrument_id) else
  underlying ← ok_or (MissingUnderlying instrument_id)
                     (v ← is_underlying instrument; if is_blank v then None else Some v);
  _ ← require_instrument "ticker" instrument_id (tk_instrument_id (mb_ticker bootstrap));
  _ ← require_instrument "mark price" instrument_id (mp_instrument_id (mb_mark_price bootstrap));
  _ ← require_instrument "open interest" instrument_id
        (oi_instrument_id (mb_open_interest bootstrap));
  if negb (ix_instrument_id (mb_index_ticker bootstrap) =? underlying)%string
  then Err (IndexMismatch underlying (ix_instrument_id (mb_index_ticker bootstrap))) else
  ticker ← ticker_state (mb_ticker bootstrap);
  mark ← required "mark price" "markPx" (mp_mark_price (mb_mark_price bootstrap));
  mark_ts ← required "mark price" "ts" (mp_ts (mb_mark_price bootstrap));
  index ← required "index ticker" "idxPx" (ix_index_price (mb_index_ticker bootstrap));
  index_ts ← required "index ticker" "ts" (ix_ts (mb_index_ticker bootstrap));
  funding ← bootstrap_funding instrument instrument_id (mb_funding_rate bootstrap);
  contracts ← required "open interest" "oi" (oi_oi (mb_open_interest bootstrap));
  oi_time ← required "open interest" "ts" (oi_ts (mb_open_interest bootstrap));
  let snapshot generation := {|
    ms_schema := MARKET_SNAPSHOT_SCHEMA_V1;
    ms_instrument_id := instrument_id;
    ms_instrument_type := is_instrument_type instrument;
    ms_underlying := underlying;
    ms_reference_generation := reg_generation reference;
    ms_market_generation := generation;
    ms_source_received_at := source_received_at;
    ms_ticker := ticker;
    ms_mark_price := {| mps_price := mark; mps_exchange_timestamp_ms := mark_ts |};
    ms_index_price := {| ips_index_id := underlying; ips_price := index;
                         ips_exchange_timestamp_ms := index_ts |};
    ms_funding := funding;
    ms_open_interest := {|
      ois_contracts := contracts;
      ois_currency := non_blank (oi_oi_currency (mb_open_interest bootstrap));
      ois_usd := non_blank (oi_oi_usd (mb_open_interest bootstrap));
      ois_exchange_timestamp_ms := oi_time |} |} in
  generation ← generation_for (snapshot "");
  Ok (snapshot generation).
End market.

(** ** Specification *)
Section spec.
Context `{Hashing} `{!Serialize MarketGenerationInput}.

Definition usable (fields : list string) : Prop := Forall (λ f, is_blank f = false) fields.

Definition ticker_fields (t : PublicTicker) : list string :=
  [tk_last t; tk_last_size t; tk_ask_price t; tk_ask_size t; tk_bid_price t; tk_bid_size t; tk_ts t].
Definition funding_fields (f : PublicFundingRate) : list string :=
  [fr_funding_rate f; fr_funding_time f; fr_next_funding_time f; fr_ts f].

(** The normalized forms, every field taken verbatim *)
Definition ticker_of (t : PublicTicker) : TickerState := {|
  ts_last := tk_last t; ts_last_size := tk_last_size t;
  ts_best_ask := tk_ask_price t; ts_best_ask_size := tk_ask_size t;
  ts_best_bid := tk_bid_price t; ts_best_bid_size := tk_bid_size t;
  ts_open_24h := non_blank (tk_open_24h t); ts_high_24h := non_blank (tk_high_24h t);
  ts_low_24h := non_blank (tk_low_24h t);
  ts_volume_currency_24h := non_blank (tk_volume_currency_24h t);
  ts_volume_24h := non_blank (tk_volume_24h t);
  ts_exchange_timestamp_ms := tk_ts t |}.
Definition funding_of (f : PublicFundingRate) : FundingState := {|
  fs_rate := fr_funding_rate f; fs_funding_time_ms := fr_funding_time f;
  fs_next_funding_time_ms := fr_next_funding_time f;
  fs_premium := non_blank (fr_premium f);
  fs_min_rate := non_blank (fr_min_funding_rate f);
  fs_max_rate := non_blank (fr_max_funding_rate f);
  fs_exchange_timestamp_ms := fr_ts f |}.

(** The funding evidence that an instrument admits, and its normalized form *)
Definition funding_valid (i : InstrumentSpec) (id : string) (f : option PublicFundingRate)
    (s : option FundingState) : Prop :=
  match is_funding_requirement i with
  | Required => ∃ r, f = Some r ∧ fr_instrument_id r = id ∧ usable (funding_fields r) ∧
                     s = Some (funding_of r)
  | NotApplicable => f = None ∧ s = None
  | Unknown => False
  end.

(** The inputs a snapshot may be built from *)
Record bootstrap_valid (i : InstrumentSpec) (id ts u : string) (b : MarketBootstrap) : Prop := {
  valid_ts : is_blank ts = false;
  valid_live : is_state i = "live";
  valid_underlying : is_underlying i = Some u;
  valid_underlying_usable : is_blank u = false;
  valid_ticker : tk_instrument_id (mb_ticker b) = id;
  valid_mark : mp_instrument_id (mb_mark_price b) = id;
  valid_oi : oi_instrument_id (mb_open_interest b) = id;
  valid_index : ix_instrument_id (mb_index_ticker b) = u;
  valid_ticker_fields : usable (ticker_fields (mb_ticker b));
  valid_fields : usable [mp_mark_price (mb_mark_price b); mp_ts (mb_mark_price b);
                         ix_index_price (mb_index_ticker b); ix_ts (mb_index_ticker b);
                         oi_oi (mb_open_interest b); oi_ts (mb_open_interest b)];
}.

Definition snapshot_of (r : ReferenceRegistry) (i : InstrumentSpec) (id ts u : string)
    (b : MarketBootstrap) (f : option FundingState) (g : string) : MarketSnapshot := {|
  ms_schema := MARKET_SNAPSHOT_SCHEMA_V1;
  ms_instrument_id := id;
  ms_instrument_type := is_instrument_type i;
  ms_underlying := u;
  ms_reference_generation := reg_generation r;
  ms_market_generation := g;
  ms_source_received_at := ts;
  ms_ticker := ticker_of (mb_ticker b);
  ms_mark_price := {| mps_price := mp_mark_price (mb_mark_price b);
                      mps_exchange_timestamp_ms := mp_ts (mb_mark_price b) |};
  ms_index_price := {| ips_index_id := u; ips_price := ix_index_price (mb_index_ticker b);
                       ips_exchange_timestamp_ms := ix_ts (mb_index_ticker b) |};
  ms_funding := f;
  ms_open_interest := {|
    ois_contracts := oi_oi (mb_open_interest b);
    ois_currency := non_blank (oi_oi_currency (mb_open_interest b));
    ois_usd := non_blank (oi_oi_usd (mb_open_interest b));
    ois_exchange_timestamp_ms := oi_ts (mb_open_interest b) |} |}.

(** ** Facts *)
Lemma required_iff o f v w : required o f v = Ok w ↔ w = v ∧ is_blank v = false.
Proof. unfold required. destruct (is_blank v); naive_solver. Qed.

Lemma require_instrument_iff o e a w : require_instrument o e a = Ok w ↔ a = e.
Proof.
  unfold require_instrument. destruct (String.eqb_spec a e); destruct w; naive_solver.
Qed.

(** Replace every checked field by its own value. *)
Ltac checked :=
  repeat match goal with
  | H1 : required _ _ _ = Ok _ |- _ => apply required_iff in H1 as [-> H1]
  | H1 : require_instrument _ _ _ = Ok _ |- _ => apply require_instrument_iff in H1
  end.

Ltac use_fields H1 :=
  repeat (apply Forall_cons in H1; let H2 := fresh "Hf" in destruct H1 as [H2 H1]).

Lemma ticker_state_iff t s :
  ticker_state t = Ok s ↔ usable (ticker_fields t) ∧ s = ticker_of t.
Proof.
  unfold ticker_state. split.
  - intros H1. inv_ok H1. checked. injection H1 as <-. split; [by repeat constructor|done].
  - intros [H1 ->]. unfold usable, ticker_fields in H1. use_fields H1. unfold required.
    by rewrite Hf, Hf0, Hf1, Hf2, Hf3, Hf4, Hf5.
Qed.

Lemma funding_state_iff f s :
  funding_state f = Ok s ↔ usable (funding_fields f) ∧ s = funding_of f.
Proof.
  unfold funding_state. split.
  - intros H1. inv_ok H1. checked. injection H1 as <-. split; [by repeat constructor|done].
  - intros [H1 ->]. unfold usable, funding_fields in H1. use_fields H1. unfold required.
    by rewrite Hf, Hf0, Hf1, Hf2.
Qed.

Lemma bootstrap_funding_iff i id f s : bootstrap_funding i id f = Ok s ↔ funding_valid i id f s.
Proof.
  unfold bootstrap_funding, funding_valid. destruct (is_funding_requirement i).
  - split.
    + intros H1. inv_ok H1. checked. injection H1 as <-. subst.
      apply ok_or_ok in Ha. apply funding_state_iff in Ha1 as [? ->]. by exists a.
    + intros (r & -> & <- & Hu & ->). simpl. unfold require_instrument. rewrite String.eqb_refl.
      simpl. by rewrite (proj2 (funding_state_iff r (funding_of r))).
  - destruct f; naive_solver.
  - naive_solver.
Qed.

Lemma underlying_ok_iff {E} (e : E) i u :
  ok_or e (v ← is_underlying i; if is_blank v then None else Some v) = Ok u ↔
  is_underlying i = Some u ∧ is_blank u = false.
Proof.
  destruct (is_underlying i) as [v|]; simpl; [|naive_solver].
  destruct (is_blank v) eqn:Ev; simpl; split; try done; [|intros [= <-]|];
    [intros [[= ->] ?]; congruence|done|by intros [[= ->] ?]].
Qed.
End spec.

(** ** Theorems *)
Section theorems.
Context `{Hashing} `{!Serialize MarketGenerationInput}.

Lemma string_eqb_ok (a b : string) : negb (a =? b)%string = false ↔ a = b.
Proof. rewrite negb_false_iff. apply String.eqb_eq. Qed.

Lemma from_bootstrap_sound r id ts b s :
  from_bootstrap r id ts b = Ok s →
  ∃ i u f, get r id = Some i ∧ bootstrap_valid i id ts u b ∧
           funding_valid i id (mb_funding_rate b) f ∧
           s = snapshot_of r i id ts u b f (ms_market_generation s) ∧
           generation_for (snapshot_of r i id ts u b f "") = Ok (ms_market_generation s).
Proof.
  unfold from_bootstrap. destruct (is_blank ts) eqn:Hts; [done|]. intros H1.
  apply bind_ok in H1 as (i & Hi%ok_or_ok & H1).
  destruct (negb _) eqn:Hlive in H1; [done|]. apply string_eqb_ok in Hlive.
  apply bind_ok in H1 as (u & [Hu Hub]%underlying_ok_iff & H1).
  apply bind_ok in H1 as ([] & Ht%require_instrument_iff & H1).
  apply bind_ok in H1 as ([] & Hm%require_instrument_iff & H1).
  apply bind_ok in H1 as ([] & Ho%require_instrument_iff & H1).
  destruct (negb _) eqn:Hx in H1; [done|]. apply string_eqb_ok in Hx.
  apply bind_ok in H1 as (t & [Htu ->]%ticker_state_iff & H1).
  apply bind_ok in H1 as (m & [-> Hm1]%required_iff & H1).
  apply bind_ok in H1 as (mt & [-> Hm2]%required_iff & H1).
  apply bind_ok in H1 as (x & [-> Hx1]%required_iff & H1).
  apply bind_ok in H1 as (xt & [-> Hx2]%required_iff & H1).
  apply bind_ok in H1 as (f & Hf%bootstrap_funding_iff & H1).
  apply bind_ok in H1 as (o & [-> Ho1]%required_iff & H1).
  apply bind_ok in H1 as (ot & [-> Ho2]%required_iff & H1).
  apply bind_ok in H1 as (g & Hg & [= <-]).
  exists i, u, f. split_and!; try done. split; try done. by repeat constructor.
Qed.

Lemma from_bootstrap_complete r id ts b i u f g :
  get r id = Some i → bootstrap_valid i id ts u b →
  funding_valid i id (mb_funding_rate b) f →
  generation_for (snapshot_of r i id ts u b f "") = Ok g →
  from_bootstrap r id ts b = Ok (snapshot_of r i id ts u b f g).
Proof.
  intros Hi [Hts Hlive Hu Hub Ht Hm Ho Hx Htu Hfs] Hf Hg. unfold from_bootstrap.
  rewrite Hts, Hi. cbn [ok_or mbind result_bind].
  rewrite (proj2 (string_eqb_ok (is_state i) "live") Hlive).
  rewrite (proj2 (underlying_ok_iff _ _ _) (conj Hu Hub)). cbn [mbind result_bind].
  rewrite (proj2 (require_instrument_iff "ticker" _ _ tt) Ht),
    (proj2 (require_instrument_iff "mark price" _ _ tt) Hm),
    (proj2 (require_instrument_iff "open interest" _ _ tt) Ho).
  cbn [mbind result_bind]. rewrite (proj2 (string_eqb_ok _ _) Hx).
  rewrite (proj2 (ticker_state_iff _ _) (conj Htu eq_refl)). cbn [mbind result_bind].
  unfold usable in Hfs.
  repeat (apply Forall_cons in Hfs; let H2 := fresh "Hfield" in destruct Hfs as [H2 Hfs]).
  rewrite !(λ o f v H, proj2 (required_iff o f v v) (conj eq_refl H)) by done.
  cbn [mbind result_bind]. rewrite (proj2 (bootstrap_funding_iff _ _ _ _) Hf).
  cbn [mbind result_bind]. unfold snapshot_of in Hg |- *. by rewrite Hg.
Qed.

(** a snapshot is built exactly from consistent evidence.  [from_bootstrap] succeeds
    with [s] if and only if the receipt timestamp is given, the instrument is in the
    registry, live and has an underlying, the ticker, mark price and open interest are
    about this instrument and the index ticker about its underlying, every required
    field is present, funding evidence is present, about this instrument and complete
    when the instrument has funding and absent when it has none (and its funding
    semantics are known); and [s] then holds these fields verbatim, with the registry's
    generation and the digest of its contents. *)
Theorem from_bootstrap_iff r id ts b s :
  from_bootstrap r id ts b = Ok s ↔
  ∃ i u f g, get r id = Some i ∧ bootstrap_valid i id ts u b ∧
             funding_valid i id (mb_funding_rate b) f ∧
             generation_for (snapshot_of r i id ts u b f "") = Ok g ∧
             s = snapshot_of r i id ts u b f g.
Proof.
  split.
  - intros (i & u & f & Hi & Hv & Hf & Hs & Hg)%from_bootstrap_sound. by exists i, u, f, (ms_market_generation s).
  - intros (i & u & f & g & Hi & Hv & Hf & Hg & ->). by apply from_bootstrap_complete.
Qed.

(** the generation identifies contents, not receipts.  The same evidence received at
    another time gives the same snapshot with only its receipt time changed, hence under
    the same market generation. *)
Theorem market_generation_ignores_receipt r id ts ts' b s :
  from_bootstrap r id ts b = Ok s → is_blank ts' = false →
  ∃ s', from_bootstrap r id ts' b = Ok s' ∧
        ms_market_generation s' = ms_market_generation s ∧
        ms_source_received_at s' = ts' ∧
        ms_ticker s' = ms_ticker s ∧ ms_mark_price s' = ms_mark_price s ∧
        ms_index_price s' = ms_index_price s ∧ ms_funding s' = ms_funding s ∧
        ms_open_interest s' = ms_open_interest s.
Proof.
  intros (i & u & f & Hi & Hv & Hf & Hs & Hg)%from_bootstrap_sound Hts'.
  exists (snapshot_of r i id ts' u b f (ms_market_generation s)). split.
  - apply from_bootstrap_complete; try done. by destruct Hv.
  - by rewrite Hs.
Qed.
End theorems.

(** ** Witness *)
Section witnesses.
Local Existing Instance toy_hashing.
Local Existing Instance toy_serialize.

Definition sample_ticker : PublicTicker := {|
  tk_instrument_type := "SWAP"; tk_instrument_id := "B"; tk_last := "100"; tk_last_size := "1";
  tk_ask_price := "100.5"; tk_ask_size := "3"; tk_bid_price := "99.9"; tk_bid_size := "4";
  tk_open_24h := "90"; tk_high_24h := ""; tk_low_24h := ""; tk_volume_currency_24h := "";
  tk_volume_24h := "7"; tk_sod_utc0 := ""; tk_sod_utc8 := ""; tk_ts := "1000" |}.
Definition sample_mark : PublicMarkPrice := {|
  mp_instrument_type := "SWAP"; mp_instrument_id := "B"; mp_mark_price := "100.1"; mp_ts := "1001" |}.
Definition sample_index : PublicIndexTicker := {|
  ix_instrument_id := "BTC-USD"; ix_index_price := "100.2"; ix_open_24h := ""; ix_high_24h := "";
  ix_low_24h := ""; ix_sod_utc0 := ""; ix_sod_utc8 := ""; ix_ts := "1002" |}.
Definition sample_funding : PublicFundingRate := {|
  fr_instrument_type := "SWAP"; fr_instrument_id := "B"; fr_funding_rate := "0.0001";
  fr_funding_time := "2000"; fr_next_funding_time := "3000"; fr_impact_value := "";
  fr_interest_rate := ""; fr_premium := ""; fr_min_funding_rate := ""; fr_max_funding_rate := "";
  fr_method := ""; fr_formula_type := ""; fr_settlement_state := "";
  fr_settled_funding_rate := ""; fr_ts := "1003" |}.
Definition sample_oi : PublicOpenInterest := {|
  oi_instrument_type := "SWAP"; oi_instrument_id := "B"; oi_oi := "55"; oi_oi_currency := "";
  oi_oi_usd := ""; oi_ts := "1004" |}.
Definition sample_bootstrap : MarketBootstrap := {|
  mb_ticker := sample_ticker; mb_mark_price := sample_mark; mb_index_ticker := sample_index;
  mb_funding_rate := Some sample_funding; mb_open_interest := sample_oi |}.

Lemma market_generation_ignores_receipt_witness :
  is_ok (from_bootstrap sample_registry "B" "t1" sample_bootstrap) = true ∧
  ∃ s s', from_bootstrap sample_registry "B" "t1" sample_bootstrap = Ok s ∧
          from_bootstrap sample_registry "B" "t2" sample_bootstrap = Ok s' ∧
          ms_market_generation s' = ms_market_generation s.
Proof.
  assert (is_ok (from_bootstrap sample_registry "B" "t1" sample_bootstrap) = true) as Hok
    by (by vm_compute).
  split; [done|].
  destruct (from_bootstrap sample_registry "B" "t1" sample_bootstrap) as [s|] eqn:E; [|done].
  destruct (market_generation_ignores_receipt sample_registry "B" "t1" "t2" sample_bootstrap s
              E eq_refl) as (s' & Hs' & Hg & _).
  by exists s, s'.
Defined.
End witnesses.
