(* ===== verification/Stream.v ===== *)
(** * Stream: the live market state of [okx-observation/src/stream.rs]

    The state collects the latest message of every public source of one instrument
    under one connection generation, grades its readiness against age budgets, and
    publishes a live snapshot.  Clocks are [u64] milliseconds. *)
From stdpp Require Import base option list numbers strings.
From Stdlib Require Import ZArith Lia.
From S2P Require Import Prelude Text Ordered External Wire OrderBook Reference Market.
Local Open Scope string_scope.
Local Open Scope list_scope.
Local Open Scope Z_scope.

(** ** Data *)
Record Observed (T : Type) : Type := {
  ob_generation : Z;
  ob_received_at_ms : Z;
  ob_value : T;
}.
Arguments ob_generation {T} _.
Arguments ob_received_at_ms {T} _.
Arguments ob_value {T} _.
Arguments Build_Observed {T} _ _ _.

Inductive MarketReadiness : Type := NotReady | Degraded | Fresh | Stale.

#[export] Instance MarketReadiness_eq_dec : EqDecision MarketReadiness.
Proof. solve_decision. Defined.

Record MarketReadinessReport : Type := {
  mrr_quality : MarketReadiness;
  mrr_reason : string;
  mrr_generation : Z;
  mrr_reference_generation : string;
  mrr_sequence_continuity_proven : bool;
  mrr_oldest_required_receive_ms : option Z;
}.

Record LiveMarketSnapshot : Type := {
  lms_generation : Z;
  lms_market : MarketSnapshot;
  lms_order_book : OrderBookSnapshot;
}.

(** [xs.iter().min()] *)
Definition list_min (l : list Z) : option Z :=
  match l with
  | [] => None
  | x :: l' => Some (foldl Z.min x l')
  end.

Section stream.
Context {D : Type} `{DecimalOps D} `{Hashing} `{!Serialize MarketGenerationInput}.

Record MarketStreamState : Type := {
  st_instrument_id : string;
  st_generation : Z;
  st_reference_generation : string;
  st_ticker : option (Observed PublicTicker);
  st_mark_price : option (Observed PublicMarkPrice);
  st_index_ticker : option (Observed PublicIndexTicker);
  st_funding_rate : option (Observed PublicFundingRate);
  st_open_interest : option (Observed PublicOpenInterest);
  st_order_book : OrderBookState D;
  st_order_book_received_at_ms : option Z;
}.

Inductive MarketStreamError : Type :=
| StreamGenerationMismatch (expected actual : Z)
| StreamInstrumentNotFound (instrument_id : string)
| ReferenceGenerationMismatch (expected actual : string)
| Incomplete
| OrderBookNotContiguous
| OrderBookFailed (e : OrderBookError)
| MarketFailed (e : MarketError).

(** ** Construction and reset *)
Definition new (instrument_id : string) (generation : Z) (reference_generation : string)
    : MarketStreamState := {|
  st_instrument_id := instrument_id;
  st_generation := generation;
  st_reference_generation := reference_generation;
  st_ticker := None;
  st_mark_price := None;
  st_index_ticker := None;
  st_funding_rate := None;
  st_open_interest := None;
  st_order_book := waiting generation;
  st_order_book_received_at_ms := None;
|}.

Definition reset_generation (self : MarketStreamState) (generation : Z)
    (reference_generation : string) : MarketStreamState := {|
  st_instrument_id := st_instrument_id self;
  st_generation := generation;
  st_reference_generation := reference_generation;
  st_ticker := None;
  st_mark_price := None;
  st_index_ticker := None;
  st_funding_rate := None;
  st_open_interest := None;
  st_order_book := waiting generation;
  st_order_book_received_at_ms := None;
|}.

(** ** Messages *)
Definition require_generation (self : MarketStreamState) (generation : Z)
    : result MarketStreamError unit :=
  if generation =? st_generation self then Ok tt
  else Err (StreamGenerationMismatch (st_generation self) generation).

Definition apply_ticker (self : MarketStreamState) (generation received_at_ms : Z)
    (value : PublicTicker) : MarketStreamState * result MarketStreamError unit :=
  match require_generation self generation with
  | Err e => (self, Err e)
  | Ok _ => ({| st_instrument_id := st_instrument_id self;
                st_generation := st_generation self;
                st_reference_generation := st_reference_generation self;
                st_ticker := Some (Build_Observed generation received_at_ms value);
                st_mark_price := st_mark_price self;
                st_index_ticker := st_index_ticker self;
                st_funding_rate := st_funding_rate self;
                st_open_interest := st_open_interest self;
                st_order_book := st_order_book self;
                st_order_book_received_at_ms := st_order_book_received_at_ms self |}, Ok tt)
  end.

Definition apply_mark_price (self : MarketStreamState) (generation received_at_ms : Z)
    (value : PublicMarkPrice) : MarketStreamState * result MarketStreamError unit :=
  match require_generation self generation with
  | Err e => (self, Err e)
  | Ok _ => ({| st_instrument_id := st_instrument_id self;
                st_generation := st_generation self;
                st_reference_generation := st_reference_generation self;
                st_ticker := st_ticker self;
                st_mark_price := Some (Build_Observed generation received_at_ms value);
                st_index_ticker := st_index_ticker self;
                st_funding_rate := st_funding_rate self;
                st_open_interest := st_open_interest self;
                st_order_book := st_order_book self;
                st_order_book_received_at_ms := st_order_book_received_at_ms self |}, Ok tt)
  end.

Definition apply_index_ticker (self : MarketStreamState) (generation received_at_ms : Z)
    (value : PublicIndexTicker) : MarketStreamState * result MarketStreamError unit :=
  match require_generation self generation with
  | Err e => (self, Err e)
  | Ok _ => ({| st_instrument_id := st_instrument_id self;
                st_generation := st_generation self;
                st_reference_generation := st_reference_generation self;
                st_ticker := st_ticker self;
                st_mark_price := st_mark_price self;
                st_index_ticker := Some (Build_Observed generation received_at_ms value);
                st_funding_rate := st_funding_rate self;
                st_open_interest := st_open_interest self;
                st_order_book := st_order_book self;
                st_order_book_received_at_ms := st_order_book_received_at_ms self |}, Ok tt)
  end.

Definition apply_funding_rate (self : MarketStreamState) (generation received_at_ms : Z)
    (value : PublicFundingRate) : MarketStreamState * result MarketStreamError unit :=
  match require_generation self generation with
  | Err e => (self, Err e)
  | Ok _ => ({| st_instrument_id := st_instrument_id self;
                st_generation := st_generation self;
                st_reference_generation := st_reference_generation self;
                st_ticker := st_ticker self;
                st_mark_price := st_mark_price self;
                st_index_ticker := st_index_ticker self;
                st_funding_rate := Some (Build_Observed generation received_at_ms value);
                st_open_interest := st_open_interest self;
                st_order_book := st_order_book self;
                st_order_book_received_at_ms := st_order_book_received_at_ms self |}, Ok tt)
  end.

Definition apply_open_interest (self : MarketStreamState) (generation received_at_ms : Z)
    (value : PublicOpenInterest) : MarketStreamState * result MarketStreamError unit :=
  match require_generation self generation with
  | Err e => (self, Err e)
  | Ok _ => ({| st_instrument_id := st_instrument_id self;
                st_generation := st_generation self;
                st_reference_generation := st_reference_generation self;
                st_ticker := st_ticker self;
                st_mark_price := st_mark_price self;
                st_index_ticker := st_index_ticker self;
                st_funding_rate := st_funding_rate self;
                st_open_interest := Some (Build_Observed generation received_at_ms value);
                st_order_book := st_order_book self;
                st_order_book_received_at_ms := st_order_book_received_at_ms self |}, Ok tt)
  end.

Definition with_book (self : MarketStreamState) (book : OrderBookState D) (received : option Z)
    : MarketStreamState := {|
  st_instrument_id := st_instrument_id self;
  st_generation := st_generation self;
  st_reference_generation := st_reference_generation self;
  st_ticker := st_ticker self;
  st_mark_price := st_mark_price self;
  st_index_ticker := st_index_ticker self;
  st_funding_rate := st_funding_rate self;
  st_open_interest := st_open_interest self;
  st_order_book := book;
  st_order_book_received_at_ms := received;
|}.

Definition apply_book_snapshot (self : MarketStreamState) (generation received_at_ms : Z)
    (value : OrderBookMessage) : MarketStreamState * result MarketStreamError unit :=
  match require_generation self generation with
  | Err e => (self, Err e)
  | Ok _ =>
    match apply_snapshot (st_order_book self) generation value with
    | (book, Ok _) => (with_book self book (Some received_at_ms), Ok tt)
    | (book, Err error) => (with_book self book None, Err (OrderBookFailed error))
    end
  end.

Definition apply_book_update (self : MarketStreamState) (generation received_at_ms : Z)
    (value : OrderBookMessage) : MarketStreamState * result MarketStreamError unit :=
  match require_generation self generation with
  | Err e => (self, Err e)
  | Ok _ =>
    match apply_update (st_order_book self) generation value with
    | (book, Ok _) => (with_book self book (Some received_at_ms), Ok tt)
    | (book, Err error) => (with_book self book None, Err (OrderBookFailed error))
    end
  end.

(** ** Reading the state *)
Definition current {T} (self : MarketStreamState) (value : option (Observed T)) : option T :=
  o ← value; if ob_generation o =? st_generation self then Some (ob_value o) else None.

Definition current_received_at {T} (self : MarketStreamState) (value : option (Observed T))
    : option Z :=
  o ← value; if ob_generation o =? st_generation self then Some (ob_received_at_ms o) else None.

Definition required_receive_times (self : MarketStreamState) (f : FundingRequirement)
    : option (list (string * Z)) :=
  ticker ← current_received_at self (st_ticker self);
  mark_price ← current_received_at self (st_mark_price self);
  index_ticker ← current_received_at self (st_index_ticker self);
  open_interest ← current_received_at self (st_open_interest self);
  order_book ← st_order_book_received_at_ms self;
  let times := [("ticker", ticker); ("mark_price", mark_price); ("index_ticker", index_ticker);
                ("open_interest", open_interest); ("order_book", order_book)] in
  match f with
  | Required =>
    funding_rate ← current_received_at self (st_funding_rate self);
    Some (times ++ [("funding_rate", funding_rate)])
  | NotApplicable => Some times
  | Unknown => None
  end.

Definition bootstrap_if_complete (self : MarketStreamState) (f : FundingRequirement)
    : result MarketStreamError MarketBootstrap :=
  ticker ← ok_or Incomplete (current self (st_ticker self));
  mark_price ← ok_or Incomplete (current self (st_mark_price self));
  index_ticker ← ok_or Incomplete (current self (st_index_ticker self));
  open_interest ← ok_or Incomplete (current self (st_open_interest self));
  funding_rate ←
    match f with
    | Required => r ← ok_or Incomplete (current self (st_funding_rate self)); Ok (Some r)
    | NotApplicable => Ok None
    | Unknown => Err Incomplete
    end;
  Ok {| mb_ticker := ticker; mb_mark_price := mark_price; mb_index_ticker := index_ticker;
        mb_funding_rate := funding_rate; mb_open_interest := open_interest |}.

Definition contiguous (self : MarketStreamState) : bool :=
  bool_decide (status (st_order_book self) = Contiguous).

Definition report (self : MarketStreamState) (quality : MarketReadiness) (reason : string)
    (oldest : option Z) : MarketReadinessReport := {|
  mrr_quality := quality;
  mrr_reason := reason;
  mrr_generation := st_generation self;
  mrr_reference_generation := st_reference_generation self;
  mrr_sequence_continuity_proven := contiguous self;
  mrr_oldest_required_receive_ms := oldest;
|}.

Definition budget_for (name : string) (price_max_age_ms context_max_age_ms : Z) : Z :=
  if (name =? "funding_rate")%string || (name =? "open_interest")%string
  then context_max_age_ms else price_max_age_ms.

(** The loop over the receive times: the reason of the first stale dependency *)
Fixpoint first_stale (times : list (string * Z)) (now_ms price_max_age_ms context_max_age_ms : Z)
    (identify_source : bool) : option string :=
  match times with
  | [] => None
  | (name, received_at_ms) :: times' =>
    let budget_ms := budget_for name price_max_age_ms context_max_age_ms in
    if (now_ms <? received_at_ms) || (budget_ms <? saturating_sub_u64 now_ms received_at_ms)
    then Some (if identify_source
               then "WS_DEPENDENCY_STALE:" +:+ name +:+ ":age_ms="
                    +:+ show_u64 (saturating_sub_u64 now_ms received_at_ms)
                    +:+ ":budget_ms=" +:+ show_u64 budget_ms
               else "WS_DEPENDENCY_STALE")
    else first_stale times' now_ms price_max_age_ms context_max_age_ms identify_source
  end.

Definition readiness_with_budgets (self : MarketStreamState) (reference : ReferenceRegistry)
    (now_ms price_max_age_ms context_max_age_ms : Z)
    (connection_active subscriptions_complete rest_fallback_available identify_source : bool)
    : MarketReadinessReport :=
  let fallback_quality := if rest_fallback_available then Degraded else NotReady in
  if negb connection_active then report self fallback_quality "WS_CONNECTION_NOT_ACTIVE" None else
  if negb subscriptions_complete
  then report self fallback_quality "WS_SUBSCRIPTIONS_INCOMPLETE" None else
  if negb (reg_generation reference =? st_reference_generation self)%string
  then report self fallback_quality "REFERENCE_GENERATION_CHANGED" None else
  match get reference (st_instrument_id self) with
  | None => report self fallback_quality "REFERENCE_INSTRUMENT_MISSING" None
  | Some instrument =>
    if negb (is_state instrument =? "live")%string
    then report self fallback_quality "REFERENCE_INSTRUMENT_NOT_LIVE" None else
    if bool_decide (is_funding_requirement instrument = Unknown)
    then report self fallback_quality "FUNDING_SEMANTICS_UNKNOWN" None else
    match required_receive_times self (is_funding_requirement instrument) with
    | None => report self fallback_quality "WS_DEPENDENCIES_INCOMPLETE" None
    | Some received_times =>
      if negb (contiguous self) then report self fallback_quality "ORDER_BOOK_NOT_CONTIGUOUS" None
      else
      match list_min (map snd received_times) with
      | None => report self fallback_quality "WS_DEPENDENCIES_INCOMPLETE" None
      | Some oldest =>
        match first_stale received_times now_ms price_max_age_ms context_max_age_ms
                identify_source with
        | Some reason => report self Stale reason (Some oldest)
        | None =>
          if negb (is_ok (
               bootstrap ← bootstrap_if_complete self (is_funding_requirement instrument);
               map_err MarketFailed
                 (from_bootstrap reference (st_instrument_id self) "stream-readiness" bootstrap)))
          then report self fallback_quality "WS_DEPENDENCY_INCONSISTENT" (Some oldest)
          else report self Fresh "WS_CURRENT_GENERATION_COMPLETE" (Some oldest)
        end
      end
    end
  end.

Definition readiness (self : MarketStreamState) (reference : ReferenceRegistry)
    (now_ms max_age_ms : Z)
    (connection_active subscriptions_complete rest_fallback_available : bool) :=
  readiness_with_budgets self reference now_ms max_age_ms max_age_ms
    connection_active subscriptions_complete rest_fallback_available false.

Definition risk_readiness (self : MarketStreamState) (reference : ReferenceRegistry)
    (now_ms price_max_age_ms context_max_age_ms : Z)
    (connection_active subscriptions_complete : bool) :=
  readiness_with_budgets self reference now_ms price_max_age_ms context_max_age_ms
    connection_active subscriptions_complete false true.

Definition publish (self : MarketStreamState) (reference : ReferenceRegistry)
    (source_received_at : string) : result MarketStreamError LiveMarketSnapshot :=
  if negb (reg_generation reference =? st_reference_generation self)%string
  then Err (ReferenceGenerationMismatch (st_reference_generation self) (reg_generation reference))
  else
  instrument ← ok_or (StreamInstrumentNotFound (st_instrument_id self))
                     (get reference (st_instrument_id self));
  if negb (contiguous self) then Err OrderBookNotContiguous else
  bootstrap ← bootstrap_if_complete self (is_funding_requirement instrument);
  market ← map_err MarketFailed
             (from_bootstrap reference (st_instrument_id self) source_received_at bootstrap);
  Ok {| lms_generation := st_generation self; lms_market := market;
        lms_order_book := snapshot (st_order_book self) |}.

(** ** The feed of one instrument *)
Inductive stream_event : Type :=
| EvTicker (generation received_at_ms : Z) (value : PublicTicker)
| EvMarkPrice (generation received_at_ms : Z) (value : PublicMarkPrice)
| EvIndexTicker (generation received_at_ms : Z) (value : PublicIndexTicker)
| EvFundingRate (generation received_at_ms : Z) (value : PublicFundingRate)
| EvOpenInterest (generation received_at_ms : Z) (value : PublicOpenInterest)
| EvBookSnapshot (generation received_at_ms : Z) (value : OrderBookMessage)
| EvBookUpdate (generation received_at_ms : Z) (value : OrderBookMessage).

Definition stream_step (self : MarketStreamState) (ev : stream_event) : MarketStreamState :=
  match ev with
  | EvTicker g t v => (apply_ticker self g t v).1
  | EvMarkPrice g t v => (apply_mark_price self g t v).1
  | EvIndexTicker g t v => (apply_index_ticker self g t v).1
  | EvFundingRate g t v => (apply_funding_rate self g t v).1
  | EvOpenInterest g t v => (apply_open_interest self g t v).1
  | EvBookSnapshot g t v => (apply_book_snapshot self g t v).1
  | EvBookUpdate g t v => (apply_book_update self g t v).1
  end.

(** Everything received since a reset to a generation *)
Definition stream_run (self : MarketStreamState) (generation : Z) (reference_generation : string)
    (evs : list stream_event) : MarketStreamState :=
  foldl stream_step (reset_generation self generation reference_generation) evs.
End stream.
Arguments MarketStreamState D : clear implicits.

(** ** Specification *)
Section spec.
Context {D : Type} `{DecimalOps D} `{Hashing} `{!Serialize MarketGenerationInput}.
Implicit Types (self : MarketStreamState D).

(** A receive time that a decision at [now] may use under a budget *)
Definition within (now budget t : Z) : Prop := t ≤ now ∧ now - t ≤ budget.

Definition fresh_source {T} self (o : option (Observed T)) (now budget : Z) : Prop :=
  ∃ ob, o = Some ob ∧ ob_generation ob = st_generation self ∧
        within now budget (ob_received_at_ms ob).

(** The evidence that readiness asks for, apart from the connection itself *)
Record fresh_evidence self (reference : ReferenceRegistry) (now price context : Z)
    (i : InstrumentSpec) : Prop := {
  fe_reference : reg_generation reference = st_reference_generation self;
  fe_instrument : get reference (st_instrument_id self) = Some i;
  fe_live : is_state i = "live";
  fe_ticker : fresh_source self (st_ticker self) now price;
  fe_mark_price : fresh_source self (st_mark_price self) now price;
  fe_index_ticker : fresh_source self (st_index_ticker self) now price;
  fe_open_interest : fresh_source self (st_open_interest self) now context;
  fe_funding : match is_funding_requirement i with
               | Required => fresh_source self (st_funding_rate self) now context
               | NotApplicable => True
               | Unknown => False
               end;
  fe_book : status (st_order_book self) = Contiguous;
  fe_book_received : ∃ t, st_order_book_received_at_ms self = Some t ∧ within now price t;
  fe_consistent : ∃ b m, bootstrap_if_complete self (is_funding_requirement i) = Ok b ∧
                    from_bootstrap reference (st_instrument_id self) "stream-readiness" b = Ok m;
}.

(** ** Facts *)
Lemma current_received_at_Some {T} self (o : option (Observed T)) t :
  current_received_at self o = Some t ↔
  ∃ ob, o = Some ob ∧ ob_generation ob = st_generation self ∧ ob_received_at_ms ob = t.
Proof.
  unfold current_received_at. destruct o as [ob|]; simpl; [|naive_solver].
  destruct (Z.eqb_spec (ob_generation ob) (st_generation self)); naive_solver.
Qed.

Lemma fresh_source_iff {T} self (o : option (Observed T)) now budget :
  fresh_source self o now budget ↔
  ∃ t, current_received_at self o = Some t ∧ within now budget t.
Proof.
  unfold fresh_source. setoid_rewrite current_received_at_Some. naive_solver.
Qed.

Lemma first_stale_None times now price context b :
  first_stale times now price context b = None ↔
  Forall (λ p, within now (budget_for p.1 price context) p.2) times.
Proof.
  induction times as [|[name t] times IH]; simpl; [by split; [constructor|]|].
  rewrite Forall_cons, <- IH. simpl. unfold within, saturating_sub_u64.
  destruct (_ || _) eqn:E.
  - split; [done|]. apply orb_true_iff in E. rewrite !Z.ltb_lt in E. lia.
  - reflect_bools. split; [|naive_solver]. intros. split; [lia|done].
Qed.

Lemma foldl_min_Some x l : ∃ m, list_min (x :: l) = Some m.
Proof. by eexists. Qed.

(** The dependencies, by name, when they are complete *)
Lemma required_receive_times_Some self f times :
  required_receive_times self f = Some times ↔
  ∃ tt tm ti to tb,
    current_received_at self (st_ticker self) = Some tt ∧
    current_received_at self (st_mark_price self) = Some tm ∧
    current_received_at self (st_index_ticker self) = Some ti ∧
    current_received_at self (st_open_interest self) = Some to ∧
    st_order_book_received_at_ms self = Some tb ∧
    let base := [("ticker", tt); ("mark_price", tm); ("index_ticker", ti);
                 ("open_interest", to); ("order_book", tb)] in
    match f with
    | Required => ∃ tf, current_received_at self (st_funding_rate self) = Some tf ∧
                        times = base ++ [("funding_rate", tf)]
    | NotApplicable => times = base
    | Unknown => False
    end.
Proof.
  unfold required_receive_times.
  destruct (current_received_at self (st_ticker self)); [|naive_solver]; simpl.
  destruct (current_received_at self (st_mark_price self)); [|naive_solver]; simpl.
  destruct (current_received_at self (st_index_ticker self)); [|naive_solver]; simpl.
  destruct (current_received_at self (st_open_interest self)); [|naive_solver]; simpl.
  destruct (st_order_book_received_at_ms self); [|naive_solver]; simpl.
  destruct f; [|naive_solver|naive_solver].
  destruct (current_received_at self (st_funding_rate self)); naive_solver.
Qed.

(** Complete and in budget, dependency by dependency *)
Lemma dependencies_fresh self f now price context b :
  (∃ times, required_receive_times self f = Some times ∧
            first_stale times now price context b = None) ↔
  fresh_source self (st_ticker self) now price ∧
  fresh_source self (st_mark_price self) now price ∧
  fresh_source self (st_index_ticker self) now price ∧
  fresh_source self (st_open_interest self) now context ∧
  (∃ t, st_order_book_received_at_ms self = Some t ∧ within now price t) ∧
  match f with
  | Required => fresh_source self (st_funding_rate self) now context
  | NotApplicable => True
  | Unknown => False
  end.
Proof.
  setoid_rewrite first_stale_None. setoid_rewrite required_receive_times_Some.
  rewrite !fresh_source_iff. split.
  - intros (times & (t1 & t2 & t3 & t4 & t5 & ? & ? & ? & ? & ? & Hf) & Hall).
    simpl in Hf. destruct f; [destruct Hf as (tf & Hf & ->)|subst times|done].
    all: simpl in Hall; rewrite !Forall_cons in Hall; simpl in Hall;
      destruct Hall as (? & ? & ? & ? & ? & Hall).
    + destruct Hall as [? _]. rewrite fresh_source_iff. split_and!; eauto.
    + split_and!; eauto.
  - intros ((t1 & ? & ?) & (t2 & ? & ?) & (t3 & ? & ?) & (t4 & ? & ?) & (t5 & ? & ?) & Hf).
    destruct f; [apply fresh_source_iff in Hf as (tf & Hf & ?)| |done]; eexists.
    + split; [exists t1, t2, t3, t4, t5; split_and!; try done; by exists tf|].
      simpl. repeat (constructor; [assumption|]). constructor.
    + split; [exists t1, t2, t3, t4, t5; split_and!; done|].
      repeat (constructor; [assumption|]). constructor.
Qed.

Lemma is_ok_iff {E A} (r : result E A) : is_ok r = true ↔ ∃ a, r = Ok a.
Proof. destruct r; simpl; naive_solver. Qed.
End spec.

(** ** Theorems *)
Section theorems.
Context {D : Type} `{DecimalOps D} `{Hashing} `{!Serialize MarketGenerationInput}.
Implicit Types (self : MarketStreamState D).

Lemma required_times_nonempty self f times :
  required_receive_times self f = Some times → ∃ m, list_min (map snd times) = Some m.
Proof.
  intros (t1 & t2 & t3 & t4 & t5 & _ & _ & _ & _ & _ & Hf)%required_receive_times_Some.
  simpl in Hf. destruct f; [destruct Hf as (tf & _ & ->)|subst times|done]; apply foldl_min_Some.
Qed.

Lemma fresh_sound self reference now price context conn subs rest ident :
  mrr_quality (readiness_with_budgets self reference now price context conn subs rest ident)
    = Fresh →
  conn = true ∧ subs = true ∧ ∃ i, fresh_evidence self reference now price context i.
Proof.
  unfold readiness_with_budgets. set (fb := if rest then Degraded else NotReady).
  assert (fb = Fresh → False) as Hfb.
  { unfold fb. by destruct rest. }
  destruct conn, subs; simpl; try (by intros []%Hfb).
  destruct (negb _) eqn:Hg; [by intros []%Hfb|]. apply string_eqb_ok in Hg.
  destruct (get _ _) as [i|] eqn:Hi; [|by intros []%Hfb].
  destruct (negb (is_state i =? "live")%string) eqn:Hl; [by intros []%Hfb|].
  apply string_eqb_ok in Hl. case_bool_decide as Hu; [by intros []%Hfb|].
  destruct (required_receive_times _ _) as [times|] eqn:Ht; [|by intros []%Hfb].
  destruct (contiguous self) eqn:Hc; simpl; [|by intros []%Hfb].
  destruct (list_min _) as [oldest|]; [|by intros []%Hfb].
  destruct (first_stale _ _ _ _ _) eqn:Hs; [done|].
  destruct (is_ok _) eqn:Hok; simpl; [|by intros []%Hfb]. intros _.
  split; [done|]. split; [done|]. exists i.
  apply is_ok_iff in Hok as (m & Hok). apply bind_ok in Hok as (b & Hb & Hm%map_err_ok).
  destruct (proj1 (dependencies_fresh self (is_funding_requirement i) now price context ident))
    as (? & ? & ? & ? & ? & ?); [by exists times|].
  apply bool_decide_eq_true in Hc. split; try done. by exists b, m.
Qed.

Lemma fresh_complete self reference now price context rest ident i :
  fresh_evidence self reference now price context i →
  mrr_quality (readiness_with_budgets self reference now price context true true rest ident)
    = Fresh.
Proof.
  intros [Hg Hi Hl Ht Hm Hx Ho Hf Hc Hb (b & m & Hb1 & Hm1)]. unfold readiness_with_budgets.
  simpl. rewrite (proj2 (string_eqb_ok _ _) Hg), Hi, (proj2 (string_eqb_ok _ _) Hl).
  rewrite bool_decide_eq_false_2 by (intros E; by rewrite E in Hf).
  destruct (proj2 (dependencies_fresh self (is_funding_requirement i) now price context ident))
    as (times & Htimes & Hs); [done|].
  rewrite Htimes. unfold contiguous. rewrite bool_decide_eq_true_2 by done. simpl.
  destruct (required_times_nonempty _ _ _ Htimes) as [oldest ->]. rewrite Hs.
  rewrite Hb1. simpl. by rewrite Hm1.
Qed.

(** C37: freshness is exact.  The graded readiness is Fresh if and only if the connection
    is active, the subscriptions are complete, the registry is the one the state was
    started with and holds the instrument live, the ticker, mark price, index and book
    messages of the current generation are not future-dated and within the price
    budget, the open interest (and the funding rate, exactly when the instrument has
    funding) within the context budget, the book is contiguous, and the evidence joins
    into a consistent snapshot. *)
Theorem fresh_iff self reference now price context conn subs rest ident :
  mrr_quality (readiness_with_budgets self reference now price context conn subs rest ident)
    = Fresh ↔
  conn = true ∧ subs = true ∧ ∃ i, fresh_evidence self reference now price context i.
Proof.
  split; [apply fresh_sound|]. intros (-> & -> & i & Hi). by eapply fresh_complete.
Qed.

(** fresh states publish.  When the readiness is Fresh, publishing at any given
    receipt time succeeds, and the snapshot carries the stream's generation, the joined
    market snapshot of the current messages under the registry's generation, and the
    contiguous book. *)
Theorem fresh_publishes self reference now price context conn subs rest ident ts :
  mrr_quality (readiness_with_budgets self reference now price context conn subs rest ident)
    = Fresh →
  is_blank ts = false →
  ∃ l b i, publish self reference ts = Ok l ∧
    get reference (st_instrument_id self) = Some i ∧
    bootstrap_if_complete self (is_funding_requirement i) = Ok b ∧
    from_bootstrap reference (st_instrument_id self) ts b = Ok (lms_market l) ∧
    ms_reference_generation (lms_market l) = st_reference_generation self ∧
    ms_source_received_at (lms_market l) = ts ∧
    lms_generation l = st_generation self ∧
    lms_order_book l = snapshot (st_order_book self) ∧
    obs_status (lms_order_book l) = Contiguous.
Proof.
  intros (_ & _ & i & [Hg Hi Hl _ _ _ _ _ Hc _ (b & m & Hb & Hm)])%fresh_sound Hts.
  apply from_bootstrap_sound in Hm as (i' & u & f & Hi' & Hv & Hf & Hs & Hgen).
  assert (from_bootstrap reference (st_instrument_id self) ts b =
          Ok (snapshot_of reference i' (st_instrument_id self) ts u b f (ms_market_generation m)))
    as Hm'.
  { apply from_bootstrap_complete; try done. by destruct Hv. }
  eexists {| lms_generation := _; lms_market := _; lms_order_book := _ |}, b, i.
  split; [|by split_and!].
  unfold publish. rewrite (proj2 (string_eqb_ok _ _) Hg), Hi. simpl.
  unfold contiguous. rewrite bool_decide_eq_true_2 by done. simpl.
  rewrite Hb. simpl. by rewrite Hm'.
Qed.

(** What a message contributes under a generation *)
Definition tagged {T} (g g' t : Z) (v : T) : option (Observed T) :=
  if g' =? g then Some (Build_Observed g' t v) else None.
Definition ticker_in (g : Z) (ev : stream_event) : option (Observed PublicTicker) :=
  match ev with EvTicker g' t v => tagged g g' t v | _ => None end.
Definition mark_price_in (g : Z) (ev : stream_event) : option (Observed PublicMarkPrice) :=
  match ev with EvMarkPrice g' t v => tagged g g' t v | _ => None end.
Definition index_ticker_in (g : Z) (ev : stream_event) : option (Observed PublicIndexTicker) :=
  match ev with EvIndexTicker g' t v => tagged g g' t v | _ => None end.
Definition funding_rate_in (g : Z) (ev : stream_event) : option (Observed PublicFundingRate) :=
  match ev with EvFundingRate g' t v => tagged g g' t v | _ => None end.
Definition open_interest_in (g : Z) (ev : stream_event) : option (Observed PublicOpenInterest) :=
  match ev with EvOpenInterest g' t v => tagged g g' t v | _ => None end.
Definition book_in (g : Z) (ev : stream_event) : option book_event :=
  match ev with
  | EvBookSnapshot g' _ v => if g' =? g then Some (BookSnapshot g' v) else None
  | EvBookUpdate g' _ v => if g' =? g then Some (BookUpdate g' v) else None
  | _ => None
  end.

(** The state is the latest message of each source of the generation. *)
Record tracks (self0 : MarketStreamState D) (g : Z) (ref : string) (evs : list stream_event)
    self : Prop := {
  tr_instrument : st_instrument_id self = st_instrument_id self0;
  tr_generation : st_generation self = g;
  tr_reference : st_reference_generation self = ref;
  tr_ticker : st_ticker self = last (omap (ticker_in g) evs);
  tr_mark_price : st_mark_price self = last (omap (mark_price_in g) evs);
  tr_index_ticker : st_index_ticker self = last (omap (index_ticker_in g) evs);
  tr_funding_rate : st_funding_rate self = last (omap (funding_rate_in g) evs);
  tr_open_interest : st_open_interest self = last (omap (open_interest_in g) evs);
  tr_book : st_order_book self = book_run g (omap (book_in g) evs);
  tr_book_received :
    is_Some (st_order_book_received_at_ms self) ↔ status (st_order_book self) = Contiguous;
}.

Lemma omap_snoc {A B} (f : A → option B) l a :
  omap f (l ++ [a]) = match f a with Some b => omap f l ++ [b] | None => omap f l end.
Proof. rewrite omap_app. simpl. destruct (f a); [done|]. by rewrite app_nil_r. Qed.

Lemma apply_snapshot_status (b : OrderBookState D) g m :
  status (apply_snapshot b g m).1 = Contiguous ↔ (apply_snapshot b g m).2 = Ok tt.
Proof.
  unfold apply_snapshot. destruct (negb _); [done|].
  by destruct (asks ← _; bids ← _; Ok (asks, bids)) as [[??]|].
Qed.

Lemma stream_step_foreign self ev :
  (match ev with
   | EvTicker g _ _ | EvMarkPrice g _ _ | EvIndexTicker g _ _ | EvFundingRate g _ _
   | EvOpenInterest g _ _ | EvBookSnapshot g _ _ | EvBookUpdate g _ _ => g
   end) ≠ st_generation self → stream_step self ev = self.
Proof.
  intros E%Z.eqb_neq. destruct ev; simpl in *;
    unfold apply_ticker, apply_mark_price, apply_index_ticker, apply_funding_rate,
      apply_open_interest, apply_book_snapshot, apply_book_update, require_generation;
    by rewrite E.
Qed.
End theorems.

Section feed.
Context {D : Type} `{DecimalOps D} `{!OrdLaws D} `{Hashing} `{!Serialize MarketGenerationInput}.
Implicit Types (self : MarketStreamState D).

Lemma apply_update_status (b : OrderBookState D) g m :
  book_wf b → g = book_generation b →
  status (apply_update b g m).1 = Contiguous ↔ (apply_update b g m).2 = Ok tt.
Proof.
  intros Hwf ->. unfold apply_update. rewrite Z.eqb_refl. simpl.
  case_bool_decide as Hst; simpl; [|done].
  destruct (proj1 (wf_contiguous _ Hwf) Hst) as [x ->]. destruct (negb _); [done|].
  destruct (next_asks ← _; next_bids ← _; Ok (next_asks, next_bids)) as [[??]|]; simpl; [|done].
  by split.
Qed.

Lemma book_run_generation g evs :
  Forall (λ ev, match ev with BookSnapshot g' _ | BookUpdate g' _ => g' = g
                            | BookInvalidate => True end) evs →
  book_generation (book_run (D:=D) g evs) = g.
Proof.
  unfold book_run. induction evs as [|ev evs IH] using rev_ind; [done|].
  intros [Hevs Hev]%Forall_app. rewrite Forall_singleton in Hev.
  rewrite foldl_snoc. specialize (IH Hevs). revert IH.
  generalize (foldl (book_step (D:=D)) (waiting g) evs) as b. intros b Hb.
  destruct ev as [g' m|g' m|]; simpl; [| |done].
  - unfold apply_snapshot. destruct (negb _); [done|]. simpl in Hev. subst g'.
    by destruct (asks ← _; bids ← _; Ok (asks, bids)) as [[??]|].
  - unfold apply_update. destruct (negb _); [done|]. destruct (negb _); [done|].
    destruct (last_seq_id b); [|done]. destruct (negb _); [done|].
    by destruct (next_asks ← _; next_bids ← _; Ok (next_asks, next_bids)) as [[??]|].
Qed.

Lemma book_in_generation g evs :
  Forall (λ ev, match ev with BookSnapshot g' _ | BookUpdate g' _ => g' = g
                            | BookInvalidate => True end) (omap (book_in g) evs).
Proof.
  apply Forall_forall. intros b (ev & _ & Hb)%list_elem_of_omap.
  destruct ev; simpl in Hb; try done; bool_cases; try done;
    injection Hb as <-; by reflect_bools.
Qed.

Lemma book_run_snoc g evs ev :
  book_run (D:=D) g (evs ++ [ev]) = book_step (book_run g evs) ev.
Proof. unfold book_run. by rewrite foldl_snoc. Qed.

Lemma tracks_step self0 g ref evs self ev :
  tracks self0 g ref evs self → tracks self0 g ref (evs ++ [ev]) (stream_step self ev).
Proof.
  intros [Hi Hg Hr Ht Hm Hx Hf Ho Hb Hrec].
  assert (book_wf (st_order_book self)) as Hwf by (rewrite Hb; apply book_fold_wf, waiting_wf).
  assert (book_generation (st_order_book self) = g) as Hbg.
  { rewrite Hb. apply book_run_generation, book_in_generation. }
  destruct ev as [g' t v|g' t v|g' t v|g' t v|g' t v|g' t v|g' t v];
    (destruct (Z.eqb_spec g' g) as [->|Hne];
     [|rewrite stream_step_foreign by (simpl; by rewrite Hg);
       split; rewrite ?omap_snoc; simpl; unfold tagged; by rewrite ?(proj2 (Z.eqb_neq _ _) Hne)]).
  all: simpl; unfold apply_ticker, apply_mark_price, apply_index_ticker, apply_funding_rate,
      apply_open_interest, apply_book_snapshot, apply_book_update, require_generation;
    rewrite (proj2 (Z.eqb_eq _ _) (eq_sym Hg)); simpl.
  1-5: split; simpl; rewrite ?omap_snoc; simpl; unfold tagged; by rewrite ?Z.eqb_refl, ?last_snoc.
  - pose proof (apply_snapshot_status (st_order_book self) g v) as Hst.
    destruct (apply_snapshot (st_order_book self) g v) as [b [[]|e]] eqn:E; simpl in *;
      split; simpl; rewrite ?omap_snoc; simpl; unfold tagged;
      rewrite ?Z.eqb_refl, ?book_run_snoc, <- ?Hb; simpl; rewrite ?E; naive_solver.
  - pose proof (apply_update_status (st_order_book self) g v Hwf (eq_sym Hbg)) as Hst.
    destruct (apply_update (st_order_book self) g v) as [b [[]|e]] eqn:E; simpl in *;
      split; simpl; rewrite ?omap_snoc; simpl; unfold tagged;
      rewrite ?Z.eqb_refl, ?book_run_snoc, <- ?Hb; simpl; rewrite ?E; naive_solver.
Qed.

(** The stream state is the latest message of each source.  After a reset to a
    generation and any sequence of messages, each source holds the last message that
    carried this generation (messages of other generations have no effect, nothing
    survives the reset), the book is what the book messages of this generation build,
    and its receive time is present exactly when it is contiguous. *)
Theorem stream_tracks_latest self g ref evs :
  tracks self g ref evs (stream_run self g ref evs).
Proof.
  unfold stream_run. induction evs as [|ev evs IH] using rev_ind.
  - split; try done. simpl. split; [by intros [? [=]]|done].
  - rewrite foldl_snoc. by apply tracks_step.
Qed.
End feed.

(** ** Witness *)
Section witnesses.
Local Existing Instance toy_hashing.
Local Existing Instance toy_serialize.

Definition sample_events : list stream_event :=
  [EvTicker 7 100 sample_ticker; EvMarkPrice 7 110 sample_mark; EvIndexTicker 7 120 sample_index;
   EvFundingRate 7 90 sample_funding; EvOpenInterest 7 95 sample_oi; EvTicker 6 500 sample_ticker;
   EvBookSnapshot 7 105 sample_snapshot; EvBookUpdate 7 130 sample_update].
Definition sample_stream : MarketStreamState Fixed.t :=
  stream_run (new "B" 1 "sha256:old") 7 "sha256:x" sample_events.

Lemma stream_tracks_latest_witness :
  st_generation sample_stream = 7 ∧ status (st_order_book sample_stream) = Contiguous ∧
  st_ticker sample_stream = Some (Build_Observed 7 100 sample_ticker).
Proof.
  destruct (stream_tracks_latest (D:=Fixed.t) (new "B" 1 "sha256:old") 7 "sha256:x" sample_events)
    as [_ Hg _ Ht _ _ _ _ _ Hb].
  split; [exact Hg|]. split; [apply Hb; vm_compute; by eexists|].
  etransitivity; [exact Ht|by vm_compute].
Defined.

Lemma fresh_publishes_witness :
  mrr_quality (risk_readiness sample_stream sample_registry 150 60 70 true true) = Fresh ∧
  ∃ l, publish sample_stream sample_registry "t9" = Ok l ∧ lms_generation l = 7.
Proof.
  assert (mrr_quality (readiness_with_budgets sample_stream sample_registry 150 60 70
                         true true false true) = Fresh) as Hf by (by vm_compute).
  split; [done|].
  destruct (fresh_publishes sample_stream sample_registry 150 60 70 true true false true "t9"
              Hf eq_refl) as (l & b & i & Hl & _ & _ & _ & _ & _ & Hg & _).
  exists l. split; [done|]. by rewrite Hg.
Defined.
End witnesses.
