(* ===== verification/PublicRuntime.v ===== *)
(** * PublicRuntime: the public market runtime of [okx-runtime/src/public]

    [state.rs] keeps the registry, the market streams and the acknowledged
    subscriptions of one WebSocket connection generation, and grades and publishes
    markets; [subscriptions.rs] says which subscriptions a market needs and
    [decode.rs] turns a raw book row into a book message. *)
From stdpp Require Import base option list numbers strings gmap.
From Stdlib Require Import ZArith Lia.
From S2P Require Import Prelude Text Ordered External Wire OrderBook Reference Market Stream.
Local Open Scope string_scope.
Local Open Scope list_scope.
Local Open Scope Z_scope.

(** ** Data *)
Definition PUBLIC_SNAPSHOT_QUALITY_SCHEMA_V2 : string := "okx.snapshot-quality/v2".

Inductive PublicConnectionState : Type := Disconnected | Connecting | Connected | Reconnecting.

#[export] Instance PublicConnectionState_eq_dec : EqDecision PublicConnectionState.
Proof. solve_decision. Defined.

Record PublicQualitySnapshot : Type := {
  pqs_schema : string;
  pqs_instrument_id : string;
  pqs_quality : MarketReadiness;
  pqs_reference_generation : string;
  pqs_reference_source_received_at : string;
  pqs_market_mode : string;
  pqs_persistent_ws_connected : bool;
  pqs_connection_state : PublicConnectionState;
  pqs_connection_generation : Z;
  pqs_connection_id_fingerprint : option string;
  pqs_acknowledged_subscriptions : nat;
  pqs_sequence_continuity_proven : bool;
  pqs_order_book_seq_id : option Z;
  pqs_order_book_exchange_timestamp_ms : option string;
  pqs_oldest_required_receive_ms : option Z;
  pqs_reason : string;
  pqs_last_error : option string;
}.

(** ** Raw book rows *)
Record RawBookLevel : Type := { rbl_price : string; rbl_size : string;
                                rbl_deprecated : string; rbl_order_count : string }.
Record RawBookData : Type := {
  rbd_asks : list RawBookLevel;
  rbd_bids : list RawBookLevel;
  rbd_ts : string;
  rbd_seq_id : Z;
  rbd_prev_seq_id : Z;
}.

Definition decode_level (row : RawBookLevel) : BookLevelUpdate :=
  {| upd_price := rbl_price row; upd_size := rbl_size row;
     upd_order_count := Some (rbl_order_count row) |}.

Definition decode_book (raw : RawBookData) : OrderBookMessage := {|
  msg_asks := map decode_level (rbd_asks raw);
  msg_bids := map decode_level (rbd_bids raw);
  msg_exchange_timestamp_ms := rbd_ts raw;
  seq_id := rbd_seq_id raw;
  prev_seq_id := rbd_prev_seq_id raw;
|}.

Section runtime.
Context {D : Type} `{DecimalOps D} `{Hashing}
  `{!Serialize MarketGenerationInput} `{!Serialize RegistryGenerationInput}.

Record PublicRuntimeState : Type := {
  prs_reference : ReferenceRegistry;
  prs_markets : list (string * MarketStreamState D);
  prs_connection_state : PublicConnectionState;
  prs_generation : Z;
  prs_connection_id : option string;
  prs_acknowledged : gset Subscription;
  prs_last_error : option string;
}.

(** A transport error is kept as its text. *)
Inductive PublicRuntimeError : Type :=
| WebSocket (text : string)
| Json (e : SerdeError)
| ReferenceFailed (e : ReferenceError)
| StreamFailed (e : MarketStreamError)
| CommandChannelClosed
| CommandQueueFull
| ClockBeforeEpoch
| RuntimeInstrumentNotFound (instrument_id : string)
| RuntimeMissingUnderlying (instrument_id : string)
| UnknownFundingSemantics (instrument_id : string)
| UnsupportedBookAction (action : option string)
| MissingChannelInstrument (channel : PublicChannel)
| MarketStateNotInitialized (instrument_id : string)
| MarketNotFresh (instrument_id : string).

(** ** Subscriptions *)
Definition baseline_subscriptions : gset Subscription :=
  {[ subscription_instrument_type Instruments (instrument_type_text Swap);
     subscription_instrument_type Instruments (instrument_type_text Futures) ]}.

Definition required_subscriptions (reference : ReferenceRegistry) (instrument_id : string)
    : result PublicRuntimeError (gset Subscription) :=
  instrument ← ok_or (RuntimeInstrumentNotFound instrument_id) (get reference instrument_id);
  underlying ← ok_or (RuntimeMissingUnderlying instrument_id)
                     (v ← is_underlying instrument; if is_blank v then None else Some v);
  let subscriptions : gset Subscription :=
    {[ subscription_instrument Tickers instrument_id;
       subscription_instrument MarkPrice instrument_id;
       subscription_instrument IndexTickers underlying;
       subscription_instrument OpenInterest instrument_id;
       subscription_instrument Books instrument_id ]} in
  match is_funding_requirement instrument with
  | Required => Ok ({[ subscription_instrument FundingRate instrument_id ]} ∪ subscriptions)
  | NotApplicable => Ok subscriptions
  | Unknown => Err (UnknownFundingSemantics instrument_id)
  end.

Definition desired_subscriptions (reference : ReferenceRegistry) (demands : list (string * unit))
    : gset Subscription :=
  foldl (λ desired d, match required_subscriptions reference d.1 with
                      | Ok required => desired ∪ required
                      | Err _ => desired
                      end) baseline_subscriptions demands.

Definition subscription_from_arg (arg : WsArg) : Subscription := {|
  sub_channel := arg_channel arg;
  sub_instrument_type := arg_instrument_type arg;
  sub_instrument_family := arg_instrument_family arg;
  sub_instrument_id := arg_instrument_id arg;
|}.

Definition connection_fingerprint (connection_id : string) : string := sha256_hex connection_id.

(** ** The runtime state *)
Definition public_new (reference : ReferenceRegistry) : PublicRuntimeState := {|
  prs_reference := reference;
  prs_markets := [];
  prs_connection_state := Disconnected;
  prs_generation := 0;
  prs_connection_id := None;
  prs_acknowledged := ∅;
  prs_last_error := None;
|}.

Definition with_markets (self : PublicRuntimeState) (markets : list (string * MarketStreamState D))
    : PublicRuntimeState := {|
  prs_reference := prs_reference self;
  prs_markets := markets;
  prs_connection_state := prs_connection_state self;
  prs_generation := prs_generation self;
  prs_connection_id := prs_connection_id self;
  prs_acknowledged := prs_acknowledged self;
  prs_last_error := prs_last_error self;
|}.

Definition with_reference (self : PublicRuntimeState) (reference : ReferenceRegistry)
    : PublicRuntimeState := {|
  prs_reference := reference;
  prs_markets := prs_markets self;
  prs_connection_state := prs_connection_state self;
  prs_generation := prs_generation self;
  prs_connection_id := prs_connection_id self;
  prs_acknowledged := prs_acknowledged self;
  prs_last_error := prs_last_error self;
|}.

Definition with_last_error (self : PublicRuntimeState) (reason : string) : PublicRuntimeState := {|
  prs_reference := prs_reference self;
  prs_markets := prs_markets self;
  prs_connection_state := prs_connection_state self;
  prs_generation := prs_generation self;
  prs_connection_id := prs_connection_id self;
  prs_acknowledged := prs_acknowledged self;
  prs_last_error := Some reason;
|}.

Definition remove_market (self : PublicRuntimeState) (instrument_id : string)
    : PublicRuntimeState := with_markets self (oremove instrument_id (prs_markets self)).

(** The body of the loop of [begin_generation] *)
Definition begin_market (reference : ReferenceRegistry) (generation : Z)
    (markets : list (string * MarketStreamState D)) (instrument_id : string)
    : list (string * MarketStreamState D) :=
  match get reference instrument_id with
  | None => markets
  | Some _ =>
    match oget markets instrument_id with
    | Some state =>
      oinsert instrument_id (reset_generation state generation (reg_generation reference)) markets
    | None =>
      oinsert instrument_id (new instrument_id generation (reg_generation reference)) markets
    end
  end.

Definition begin_generation (self : PublicRuntimeState) (generation : Z)
    (demands : list (string * unit)) : PublicRuntimeState := {|
  prs_reference := prs_reference self;
  prs_markets := foldl (λ m d, begin_market (prs_reference self) generation m d.1)
                       (prs_markets self) demands;
  prs_connection_state := Connected;
  prs_generation := generation;
  prs_connection_id := None;
  prs_acknowledged := ∅;
  prs_last_error := None;
|}.

Definition set_disconnected (self : PublicRuntimeState) (reconnecting : bool) (reason : string)
    : PublicRuntimeState := {|
  prs_reference := prs_reference self;
  prs_markets := prs_markets self;
  prs_connection_state := if reconnecting then Reconnecting else Disconnected;
  prs_generation := prs_generation self;
  prs_connection_id := None;
  prs_acknowledged := ∅;
  prs_last_error := Some reason;
|}.

Definition set_connecting (self : PublicRuntimeState) : PublicRuntimeState := {|
  prs_reference := prs_reference self;
  prs_markets := prs_markets self;
  prs_connection_state := Connecting;
  prs_generation := prs_generation self;
  prs_connection_id := None;
  prs_acknowledged := ∅;
  prs_last_error := prs_last_error self;
|}.

Definition acknowledge (self : PublicRuntimeState) (arg : WsArg) (connection_id : option string)
    : PublicRuntimeState := {|
  prs_reference := prs_reference self;
  prs_markets := prs_markets self;
  prs_connection_state := prs_connection_state self;
  prs_generation := prs_generation self;
  prs_connection_id := match connection_id with
                       | Some _ => connection_id
                       | None => prs_connection_id self
                       end;
  prs_acknowledged := {[subscription_from_arg arg]} ∪ prs_acknowledged self;
  prs_last_error := prs_last_error self;
|}.

Definition unacknowledge (self : PublicRuntimeState) (arg : WsArg) : PublicRuntimeState := {|
  prs_reference := prs_reference self;
  prs_markets := prs_markets self;
  prs_connection_state := prs_connection_state self;
  prs_generation := prs_generation self;
  prs_connection_id := prs_connection_id self;
  prs_acknowledged := prs_acknowledged self ∖ {[subscription_from_arg arg]};
  prs_last_error := prs_last_error self;
|}.

(** ** Reading *)
Definition subscriptions_complete (self : PublicRuntimeState) (instrument_id : string) : bool :=
  match required_subscriptions (prs_reference self) instrument_id with
  | Err _ => false
  | Ok required => bool_decide (baseline_subscriptions ∪ required ⊆ prs_acknowledged self)
  end.

Definition connected (self : PublicRuntimeState) : bool :=
  bool_decide (prs_connection_state self = Connected).

Definition market_of (self : PublicRuntimeState) (instrument_id : string)
    : result PublicRuntimeError (MarketStreamState D) :=
  ok_or (MarketStateNotInitialized instrument_id) (oget (prs_markets self) instrument_id).

Definition public_readiness (self : PublicRuntimeState) (instrument_id : string)
    (now_ms max_age_ms : Z) (rest_fallback_available : bool)
    : result PublicRuntimeError MarketReadinessReport :=
  market ← market_of self instrument_id;
  Ok (readiness market (prs_reference self) now_ms max_age_ms (connected self)
        (subscriptions_complete self instrument_id) rest_fallback_available).

Definition quality_from_readiness (self : PublicRuntimeState) (instrument_id : string)
    (market : MarketStreamState D) (r : MarketReadinessReport) : PublicQualitySnapshot := {|
  pqs_schema := PUBLIC_SNAPSHOT_QUALITY_SCHEMA_V2;
  pqs_instrument_id := instrument_id;
  pqs_quality := mrr_quality r;
  pqs_reference_generation := reg_generation (prs_reference self);
  pqs_reference_source_received_at := reg_source_received_at (prs_reference self);
  pqs_market_mode := "websocket";
  pqs_persistent_ws_connected := connected self;
  pqs_connection_state := prs_connection_state self;
  pqs_connection_generation := prs_generation self;
  pqs_connection_id_fingerprint := connection_fingerprint <$> prs_connection_id self;
  pqs_acknowledged_subscriptions := base.size (prs_acknowledged self);
  pqs_sequence_continuity_proven := mrr_sequence_continuity_proven r;
  pqs_order_book_seq_id := last_seq_id (st_order_book market);
  pqs_order_book_exchange_timestamp_ms := exchange_timestamp_ms (st_order_book market);
  pqs_oldest_required_receive_ms := mrr_oldest_required_receive_ms r;
  pqs_reason := mrr_reason r;
  pqs_last_error := prs_last_error self;
|}.

Definition quality_snapshot (self : PublicRuntimeState) (instrument_id : string)
    (now_ms max_age_ms : Z) (rest_fallback_available : bool)
    : result PublicRuntimeError PublicQualitySnapshot :=
  market ← market_of self instrument_id;
  readiness ← public_readiness self instrument_id now_ms max_age_ms rest_fallback_available;
  Ok (quality_from_readiness self instrument_id market readiness).

Definition risk_quality_snapshot (self : PublicRuntimeState) (instrument_id : string)
    (now_ms price_max_age_ms context_max_age_ms : Z)
    : result PublicRuntimeError PublicQualitySnapshot :=
  market ← market_of self instrument_id;
  let readiness := risk_readiness market (prs_reference self) now_ms price_max_age_ms
                     context_max_age_ms (connected self)
                     (subscriptions_complete self instrument_id) in
  Ok (quality_from_readiness self instrument_id market readiness).

Definition risk_fresh_snapshot (self : PublicRuntimeState) (instrument_id : string)
    (now_ms price_max_age_ms context_max_age_ms : Z) (source_received_at : string)
    : result PublicRuntimeError LiveMarketSnapshot :=
  quality ← risk_quality_snapshot self instrument_id now_ms price_max_age_ms context_max_age_ms;
  if negb (bool_decide (pqs_quality quality = Fresh)) then Err (MarketNotFresh instrument_id) else
  market ← market_of self instrument_id;
  map_err StreamFailed (publish market (prs_reference self) source_received_at).

Definition fresh_snapshot (self : PublicRuntimeState) (instrument_id : string)
    (now_ms max_age_ms : Z) (source_received_at : string)
    : result PublicRuntimeError LiveMarketSnapshot :=
  readiness ← public_readiness self instrument_id now_ms max_age_ms false;
  if negb (bool_decide (mrr_quality readiness = Fresh)) then Err (MarketNotFresh instrument_id) else
  market ← market_of self instrument_id;
  map_err StreamFailed (publish market (prs_reference self) source_received_at).
End runtime.
Arguments PublicRuntimeState D : clear implicits.

(** ** Specification *)
Section spec.
Context {D : Type} `{DecimalOps D} `{Hashing}
  `{!Serialize MarketGenerationInput} `{!Serialize RegistryGenerationInput}.
Implicit Types (self : PublicRuntimeState D).

(** The subscriptions a market lives on: the listings of both types, its own channels, the
    index of its underlying, and the funding channel exactly when it has funding. *)
Record subscribed self (id : string) (i : InstrumentSpec) : Prop := {
  sb_listing : ∀ t, subscription_instrument_type Instruments (instrument_type_text t)
                    ∈ prs_acknowledged self;
  sb_own : ∀ c, c ∈ [Tickers; MarkPrice; OpenInterest; Books] →
           subscription_instrument c id ∈ prs_acknowledged self;
  sb_index : ∃ u, is_underlying i = Some u ∧ is_blank u = false ∧
                  subscription_instrument IndexTickers u ∈ prs_acknowledged self;
  sb_funding : match is_funding_requirement i with
               | Required => subscription_instrument FundingRate id ∈ prs_acknowledged self
               | NotApplicable => True
               | Unknown => False
               end;
}.

Lemma subscriptions_complete_iff self id :
  subscriptions_complete self id = true ↔
  ∃ i, get (prs_reference self) id = Some i ∧ subscribed self id i.
Proof.
  unfold subscriptions_complete, required_subscriptions.
  destruct (get (prs_reference self) id) as [i|]; cbn [ok_or mbind result_bind]; [|naive_solver].
  destruct (ok_or _ _) as [u|e] eqn:Hu; cbn [mbind result_bind].
  2:{ split; [done|]. intros (i' & [= <-] & [_ _ (u & Hu' & Hb & _) _]).
      rewrite (proj2 (underlying_ok_iff _ _ _) (conj Hu' Hb)) in Hu. done. }
  destruct (is_underlying i) as [u'|] eqn:Eu; simpl in Hu; [|done].
  destruct (is_blank u') eqn:Eb; simpl in Hu; [done|]. injection Hu as ->.
  split.
  - intros Hs. exists i. split; [done|].
    assert (∀ s, s ∈ baseline_subscriptions → s ∈ prs_acknowledged self) as Hbase.
    { destruct (is_funding_requirement i); [| |done]; apply bool_decide_eq_true in Hs; set_solver. }
    split.
    + intros []; apply Hbase; unfold baseline_subscriptions; set_solver.
    + intros c Hc. destruct (is_funding_requirement i); [| |done];
        apply bool_decide_eq_true in Hs; rewrite !elem_of_cons, elem_of_nil in Hc;
        destruct Hc as [->|[->|[->|[->|[]]]]]; set_solver.
    + exists u. split_and!; [done|done|]. destruct (is_funding_requirement i); [| |done];
        apply bool_decide_eq_true in Hs; set_solver.
    + destruct (is_funding_requirement i); [|done|done]. apply bool_decide_eq_true in Hs. set_solver.
  - intros (i' & [= <-] & [Hl Ho (u2 & Hu2 & _ & Hx) Hf]). rewrite Eu in Hu2. injection Hu2 as <-.
    assert (baseline_subscriptions ⊆ prs_acknowledged self) as Hbase.
    { unfold baseline_subscriptions. pose proof (Hl Swap). pose proof (Hl Futures). set_solver. }
    pose proof (Ho Tickers ltac:(set_solver)). pose proof (Ho MarkPrice ltac:(set_solver)).
    pose proof (Ho OpenInterest ltac:(set_solver)). pose proof (Ho Books ltac:(set_solver)).
    destruct (is_funding_requirement i); [| |done]; apply bool_decide_eq_true; set_solver.
Qed.
End spec.

(** ** Theorems *)
Section theorems.
Context {D : Type} `{DecimalOps D} `{Hashing}
  `{!Serialize MarketGenerationInput} `{!Serialize RegistryGenerationInput}.
Implicit Types (self : PublicRuntimeState D).

Lemma market_of_iff self id m : market_of self id = Ok m ↔ oget (prs_markets self) id = Some m.
Proof. unfold market_of. destruct (oget _ _); naive_solver. Qed.

Lemma connected_iff self : connected self = true ↔ prs_connection_state self = Connected.
Proof. unfold connected. by rewrite bool_decide_eq_true. Qed.

(** What both fresh reads have in common *)
Lemma gated_read self id ts (report : MarketStreamState D → MarketReadinessReport) l :
  (market ← market_of self id;
   if negb (bool_decide (mrr_quality (report market) = Fresh)) then Err (MarketNotFresh id) else
   market ← market_of self id;
   map_err StreamFailed (publish market (prs_reference self) ts)) = Ok l ↔
  ∃ m, oget (prs_markets self) id = Some m ∧ mrr_quality (report m) = Fresh ∧
       publish m (prs_reference self) ts = Ok l.
Proof.
  unfold market_of. destruct (oget (prs_markets self) id) as [m|]; simpl; [|naive_solver].
  case_bool_decide as Hf; simpl.
  - destruct (publish m _ ts) as [l'|e] eqn:Hp; simpl.
    + split; [intros [= ->]; by exists m|intros (m' & [= <-] & _ & Hl); congruence].
    + split; [done|intros (m' & [= <-] & _ & Hl); congruence].
  - split; [done|]. by intros (m' & [= <-] & Hl & _).
Qed.

Lemma risk_fresh_snapshot_gated self id now price context ts :
  risk_fresh_snapshot self id now price context ts =
  (market ← market_of self id;
   if negb (bool_decide (mrr_quality (risk_readiness market (prs_reference self) now price context
              (connected self) (subscriptions_complete self id)) = Fresh))
   then Err (MarketNotFresh id) else
   market ← market_of self id;
   map_err StreamFailed (publish market (prs_reference self) ts)).
Proof.
  unfold risk_fresh_snapshot, risk_quality_snapshot. by destruct (market_of self id).
Qed.

Lemma fresh_snapshot_gated self id now max_age ts :
  fresh_snapshot self id now max_age ts =
  (market ← market_of self id;
   if negb (bool_decide (mrr_quality (readiness market (prs_reference self) now max_age
              (connected self) (subscriptions_complete self id) false) = Fresh))
   then Err (MarketNotFresh id) else
   market ← market_of self id;
   map_err StreamFailed (publish market (prs_reference self) ts)).
Proof. unfold fresh_snapshot, public_readiness. by destruct (market_of self id). Qed.

(** the new-risk read is fail-closed and complete.  [risk_fresh_snapshot] returns a
    snapshot if and only if the connection is up, every subscription the market lives on
    is acknowledged in this connection generation, the market's own evidence is fresh under
    the two budgets, and the snapshot is the one its stream publishes. *)
Theorem risk_fresh_iff self id now price context ts l :
  risk_fresh_snapshot self id now price context ts = Ok l ↔
  prs_connection_state self = Connected ∧
  ∃ m i j, oget (prs_markets self) id = Some m ∧
    get (prs_reference self) id = Some i ∧ subscribed self id i ∧
    fresh_evidence m (prs_reference self) now price context j ∧
    publish m (prs_reference self) ts = Ok l.
Proof.
  rewrite risk_fresh_snapshot_gated, gated_read. unfold risk_readiness. split.
  - intros (m & Hm & (Hc%connected_iff & (i & Hi & Hs)%subscriptions_complete_iff & j & Hj)
              %fresh_sound & Hp).
    split; [done|]. by exists m, i, j.
  - intros (Hc%connected_iff & m & i & j & Hm & Hi & Hs & Hj & Hp). exists m.
    split_and!; [done| |done]. rewrite Hc, (proj2 (subscriptions_complete_iff self id)) by eauto.
    by eapply fresh_complete.
Qed.

(** no read survives the connection.  While no connection is up, and from the start of
    a connection generation until subscriptions are acknowledged, both fresh reads refuse
    every market, whatever its stream holds. *)
Theorem gate_closed self id now price context ts :
  prs_connection_state self ≠ Connected ∨ prs_acknowledged self = ∅ →
  let refused := if oget (prs_markets self) id then Err (MarketNotFresh id)
                 else Err (MarketStateNotInitialized id) in
  risk_fresh_snapshot self id now price context ts = refused ∧
  fresh_snapshot self id now price ts = refused.
Proof.
  intros Hclosed. rewrite risk_fresh_snapshot_gated, fresh_snapshot_gated. unfold market_of.
  destruct (oget (prs_markets self) id) as [m|]; simpl; [|done].
  assert (∀ p c b, mrr_quality (readiness_with_budgets m (prs_reference self) now p c
            (connected self) (subscriptions_complete self id) false b) ≠ Fresh) as Hno.
  { intros p c b (Hc%connected_iff & (i & _ & Hs)%subscriptions_complete_iff & _)%fresh_sound.
    destruct Hclosed as [|He]; [done|]. pose proof (sb_listing _ _ _ Hs Swap). set_solver. }
  unfold risk_readiness, readiness. by rewrite !bool_decide_eq_false_2 by apply Hno.
Qed.

Lemma transitions_close_gate self g demands b reason :
  prs_connection_state (set_disconnected self b reason) ≠ Connected ∧
  prs_connection_state (set_connecting self) ≠ Connected ∧
  prs_acknowledged (begin_generation self g demands) = ∅.
Proof. by destruct b. Qed.
End theorems.

(** ** Witness *)
Section witnesses.
Local Existing Instance toy_hashing.
Local Existing Instance toy_serialize.

Definition sample_runtime : PublicRuntimeState Fixed.t := {|
  prs_reference := sample_registry;
  prs_markets := [("B", sample_stream)];
  prs_connection_state := Connected;
  prs_generation := 7;
  prs_connection_id := Some "conn";
  prs_acknowledged := desired_subscriptions sample_registry [("B", tt)];
  prs_last_error := None |}.

Example sample_runtime_reads :
  is_ok (risk_fresh_snapshot sample_runtime "B" 150 60 70 "t9") = true.
Proof. by vm_compute. Qed.

Lemma gate_closed_witness :
  risk_fresh_snapshot (set_disconnected sample_runtime true "closed") "B" 150 60 70 "t9"
  = Err (MarketNotFresh "B").
Proof.
  apply (gate_closed (set_disconnected sample_runtime true "closed") "B" 150 60 70 "t9").
  by left.
Defined.
End witnesses.
