(* ===== verification/PublicCoordinator.v ===== *)
(** * PublicCoordinator: the public connection loop of [okx-runtime/src/public/coordinator.rs]

    The coordinator owns the connection: it keeps a bounded working set of demanded
    instruments, reconciles the subscriptions of the connection with it, applies the
    inbound messages to the shared runtime state, and decides when a connection
    generation ends.  The socket, the clocks and JSON decoding are parameters: the
    outcome of a send, the instants and the decoded values are given to each step. *)
From stdpp Require Import base option list numbers strings gmap.
From Stdlib Require Import ZArith Lia.
From S2P Require Import Prelude Text Ordered External Wire.
From S2P Require Import OrderBook Reference Market Stream PublicRuntime.
Local Open Scope string_scope.
Local Open Scope list_scope.
Local Open Scope Z_scope.

(** ** Constants and data *)
Definition RECONNECT_BACKOFF_SECONDS : list Z := [1; 5; 15; 30; 60].
Definition ns_per_second : Z := 1000000000.
Definition IDLE_BEFORE_PING_SECONDS : Z := 20.
Definition PONG_TIMEOUT_SECONDS : Z := 10.
Definition SERVICE_UPGRADE_NOTICE_CODE : string := "64008".
Definition COMMAND_CAPACITY : nat := 128.
Definition MAX_ACTIVE_MARKETS : nat := 12.

Record PublicMarketWakeup : Type := {
  pmw_sequence : Z;
  pmw_generation : Z;
  pmw_received_at_ms : Z;
}.

Inductive GenerationOutcome : Type :=
| OutcomeShutdown
| OutcomeReconnect (saw_data : bool) (reason : string).

(** [reconnect_delay], in seconds *)
Definition reconnect_delay (attempt : nat) : Z :=
  nth (Nat.min attempt (length RECONNECT_BACKOFF_SECONDS - 1)) RECONNECT_BACKOFF_SECONDS 0.

(** ** The working set of demanded instruments: an LRU list and the set of its members *)
Definition touch_demand (demands : list (string * unit)) (recency : list string)
    (instrument_id : string) : list (string * unit) * list string * option string :=
  let recency := match position (λ v, (v =? instrument_id)%string) recency with
                 | Some i => vec_remove i recency
                 | None => recency
                 end in
  let demands := oinsert instrument_id tt demands in
  let recency := recency ++ [instrument_id] in
  if (length recency <=? MAX_ACTIVE_MARKETS)%nat then (demands, recency, None) else
  match recency with
  | [] => (demands, recency, None)
  | evicted :: rest => (oremove evicted demands, rest, Some evicted)
  end.

Section coordinator.
Context {D : Type} `{DecimalOps D} `{Hashing}
  `{!Serialize MarketGenerationInput} `{!Serialize RegistryGenerationInput}.
Context {json : Type} `{!Decode json PublicInstrument} `{!Decode json PublicTicker}
  `{!Decode json PublicMarkPrice} `{!Decode json PublicIndexTicker}
  `{!Decode json PublicFundingRate} `{!Decode json PublicOpenInterest}
  `{!Decode json RawBookData}.
(** [to_string] of an error *)
Context (error_text : PublicRuntimeError → string).

Inductive InboundMessage : Type :=
| Pong
| Subscribed (arg : WsArg) (connection_id : option string)
| Unsubscribed (arg : WsArg) (connection_id : option string)
| WsError (code message : option string) (arg : option WsArg)
| Notice (code message : option string) (connection_id : option string)
| Data (arg : WsArg) (action : option string) (data : list json)
| Other (value : json).

(** ** Applying data to the shared state *)
Definition decoded {T} `{!Decode json T} (value : json) : result PublicRuntimeError T :=
  map_err Json (from_value value).

(** [if let Some(market) = state.markets.get_mut(id) { market.apply(..)? }] *)
Definition update_market (self : PublicRuntimeState D) (instrument_id : string)
    (f : MarketStreamState D → MarketStreamState D * result MarketStreamError unit)
    : PublicRuntimeState D * result PublicRuntimeError unit :=
  match oget (prs_markets self) instrument_id with
  | None => (self, Ok tt)
  | Some market =>
    let '(market', r) := f market in
    (with_markets self (oinsert instrument_id market' (prs_markets self)),
     map_err StreamFailed r)
  end.

(** The body of each channel's loop: decode the value, then apply it. *)
Definition with_decoded {T} `{!Decode json T} (self : PublicRuntimeState D) (value : json)
    (f : T → PublicRuntimeState D * result PublicRuntimeError unit)
    : PublicRuntimeState D * result PublicRuntimeError unit :=
  match decoded value with
  | Err e => (self, Err e)
  | Ok update => f update
  end.

Definition apply_index_update (generation received_at_ms : Z) (self : PublicRuntimeState D)
    (update : PublicIndexTicker) : PublicRuntimeState D * result PublicRuntimeError unit :=
  let targets := List.filter
    (λ id, bool_decide ((get (prs_reference self) id ≫= is_underlying)
                        = Some (ix_instrument_id update)))
    (map fst (prs_markets self)) in
  for_each (λ self id, update_market self id
              (λ m, apply_index_ticker m generation received_at_ms update)) self targets.

Definition apply_book (generation received_at_ms : Z) (action : option string)
    (instrument_id : string) (self : PublicRuntimeState D) (value : json)
    : PublicRuntimeState D * result PublicRuntimeError unit :=
  with_decoded self value (λ raw : RawBookData,
    let message := decode_book raw in
    if bool_decide (action = Some "snapshot")
    then update_market self instrument_id
           (λ m, apply_book_snapshot m generation received_at_ms message)
    else if bool_decide (action = Some "update")
    then update_market self instrument_id
           (λ m, apply_book_update m generation received_at_ms message)
    else (self, Err (UnsupportedBookAction action))).

(** The match on the channel in [apply_data], under the write lock; [Ok true] when the
    reference data changed. *)
Definition apply_channel (self : PublicRuntimeState D) (generation received_at_ms : Z)
    (received_at : string) (arg : WsArg) (action : option string) (data : list json)
    : PublicRuntimeState D * result PublicRuntimeError bool :=
  let unchanged '(self', r) := (self', r ≫= λ _ : unit, Ok false) in
  match arg_channel arg with
  | Instruments =>
    match try_map decoded data with
    | Err e => (self, Err e)
    | Ok updates =>
      let '(reference, r) := apply_public_updates (prs_reference self) received_at updates in
      (with_reference self reference, map_err ReferenceFailed r)
    end
  | Tickers =>
    unchanged (for_each (λ self value, with_decoded self value (λ u : PublicTicker,
      update_market self (tk_instrument_id u)
        (λ m, apply_ticker m generation received_at_ms u))) self data)
  | MarkPrice =>
    unchanged (for_each (λ self value, with_decoded self value (λ u : PublicMarkPrice,
      update_market self (mp_instrument_id u)
        (λ m, apply_mark_price m generation received_at_ms u))) self data)
  | IndexTickers =>
    unchanged (for_each (λ self value, with_decoded self value (λ u : PublicIndexTicker,
      apply_index_update generation received_at_ms self u)) self data)
  | FundingRate =>
    unchanged (for_each (λ self value, with_decoded self value (λ u : PublicFundingRate,
      update_market self (fr_instrument_id u)
        (λ m, apply_funding_rate m generation received_at_ms u))) self data)
  | OpenInterest =>
    unchanged (for_each (λ self value, with_decoded self value (λ u : PublicOpenInterest,
      update_market self (oi_instrument_id u)
        (λ m, apply_open_interest m generation received_at_ms u))) self data)
  | Books =>
    match arg_instrument_id arg with
    | None => (self, Err (MissingChannelInstrument Books))
    | Some instrument_id =>
      match oget (prs_markets self) instrument_id with
      | None => (self, Err (MarketStateNotInitialized instrument_id))
      | Some _ =>
        unchanged (for_each (apply_book generation received_at_ms action instrument_id) self data)
      end
    end
  end.

Record PublicWsCoordinator : Type := {
  pc_state : PublicRuntimeState D;
  pc_commands : list string;
  pc_wakeup : PublicMarketWakeup;
  pc_market_update_sequence : Z;
  pc_demands : list (string * unit);
  pc_demand_recency : list string;
  pc_generation : Z;
}.

Definition coordinator_new (reference : ReferenceRegistry) : PublicWsCoordinator := {|
  pc_state := public_new reference;
  pc_commands := [];
  pc_wakeup := {| pmw_sequence := 0; pmw_generation := 0; pmw_received_at_ms := 0 |};
  pc_market_update_sequence := 0;
  pc_demands := [];
  pc_demand_recency := [];
  pc_generation := 0;
|}.

Definition with_state (self : PublicWsCoordinator) (state : PublicRuntimeState D)
    : PublicWsCoordinator := {|
  pc_state := state;
  pc_commands := pc_commands self;
  pc_wakeup := pc_wakeup self;
  pc_market_update_sequence := pc_market_update_sequence self;
  pc_demands := pc_demands self;
  pc_demand_recency := pc_demand_recency self;
  pc_generation := pc_generation self;
|}.

(** [apply_data]; [now_ms] is the clock read, which fails before the Unix epoch. *)
Definition apply_data (self : PublicWsCoordinator) (now_ms : option Z) (received_at : string)
    (generation : Z) (arg : WsArg) (action : option string) (data : list json)
    : PublicWsCoordinator * result PublicRuntimeError bool :=
  match now_ms with
  | None => (self, Err ClockBeforeEpoch)
  | Some received_at_ms =>
    match apply_channel (pc_state self) generation received_at_ms received_at arg action data with
    | (state, Err e) => (with_state self state, Err e)
    | (state, Ok changed) =>
      if bool_decide (arg_channel arg = Instruments) then (with_state self state, Ok changed) else
      let sequence := saturating_add_u64 (pc_market_update_sequence self) 1 in
      ({| pc_state := state;
          pc_commands := pc_commands self;
          pc_wakeup := {| pmw_sequence := sequence; pmw_generation := generation;
                          pmw_received_at_ms := received_at_ms |};
          pc_market_update_sequence := sequence;
          pc_demands := pc_demands self;
          pc_demand_recency := pc_demand_recency self;
          pc_generation := pc_generation self |}, Ok changed)
    end
  end.

(** ** Demands: [PublicWsHandle::demand_instrument] enqueues, then prepares the market under
    the write lock; [apply_command] is the coordinator's side of it. *)
Definition insert_market (state : PublicRuntimeState D) (instrument_id : string)
    : PublicRuntimeState D :=
  match get (prs_reference state) instrument_id, oget (prs_markets state) instrument_id with
  | Some _, None =>
    with_markets state
      (oinsert instrument_id
         (new instrument_id (prs_generation state) (reg_generation (prs_reference state)))
         (prs_markets state))
  | _, _ => state
  end.

Definition demand_instrument (self : PublicWsCoordinator) (closed : bool) (instrument_id : string)
    : PublicWsCoordinator * result PublicRuntimeError unit :=
  if closed then (self, Err CommandChannelClosed) else
  if (COMMAND_CAPACITY <=? length (pc_commands self))%nat then (self, Err CommandQueueFull) else
  ({| pc_state := insert_market (pc_state self) instrument_id;
      pc_commands := pc_commands self ++ [instrument_id];
      pc_wakeup := pc_wakeup self;
      pc_market_update_sequence := pc_market_update_sequence self;
      pc_demands := pc_demands self;
      pc_demand_recency := pc_demand_recency self;
      pc_generation := pc_generation self |}, Ok tt).

Definition apply_command (self : PublicWsCoordinator) (instrument_id : string)
    : PublicWsCoordinator :=
  let '(demands, recency, evicted) :=
    touch_demand (pc_demands self) (pc_demand_recency self) instrument_id in
  let state := match evicted with
               | Some evicted => remove_market (pc_state self) evicted
               | None => pc_state self
               end in
  let state := match get (prs_reference state) instrument_id with
               | None => state
               | Some instrument =>
                 insert_market
                   (if bool_decide (is_funding_requirement instrument = Unknown)
                    then with_last_error state
                           ("instrument '" +:+ instrument_id +:+ "' has unknown funding semantics")
                    else state) instrument_id
               end in
  {| pc_state := state;
     pc_commands := pc_commands self;
     pc_wakeup := pc_wakeup self;
     pc_market_update_sequence := pc_market_update_sequence self;
     pc_demands := demands;
     pc_demand_recency := recency;
     pc_generation := pc_generation self |}.

(** ** Subscription reconciliation *)
Record SubscriptionTracking : Type := {
  sub_pending : gset Subscription;
  sub_failed : gset Subscription;
}.

Definition removals (acknowledged desired pending : gset Subscription) : gset Subscription :=
  (acknowledged ∖ desired) ∖ pending.
Definition additions (acknowledged desired pending failed : gset Subscription)
    : gset Subscription := ((desired ∖ acknowledged) ∖ pending) ∖ failed.

(** The requests sent: what to unsubscribe from and what to subscribe to. *)
Record SubscriptionRequests : Type := {
  req_unsubscribe : gset Subscription;
  req_subscribe : gset Subscription;
}.

(** [reconcile_subscriptions]; [unsubscribe] and [subscribe] are the outcomes of the two
    sends.  An empty request is not sent. *)
Definition reconcile_subscriptions (self : PublicWsCoordinator) (t : SubscriptionTracking)
    (unsubscribe subscribe : result PublicRuntimeError unit)
    : SubscriptionTracking * SubscriptionRequests * result PublicRuntimeError unit :=
  let desired := desired_subscriptions (prs_reference (pc_state self)) (pc_demands self) in
  let observed := prs_acknowledged (pc_state self) in
  let removals := removals observed desired (sub_pending t) in
  let sent := if bool_decide (removals = ∅) then Ok tt else unsubscribe in
  match sent with
  | Err e => (t, {| req_unsubscribe := removals; req_subscribe := ∅ |}, Err e)
  | Ok _ =>
    let pending := sub_pending t ∪ removals in
    let additions := additions observed desired pending (sub_failed t) in
    let sent := if bool_decide (additions = ∅) then Ok tt else subscribe in
    let requests := {| req_unsubscribe := removals; req_subscribe := additions |} in
    match sent with
    | Err e => ({| sub_pending := pending; sub_failed := sub_failed t |}, requests, Err e)
    | Ok _ => ({| sub_pending := pending ∪ additions; sub_failed := sub_failed t |},
               requests, Ok tt)
    end
  end.

(** ** One connection generation *)
Record GenerationState : Type := {
  gs_tracking : SubscriptionTracking;
  gs_last_inbound : Z;
  gs_awaiting_pong_since : option Z;
  gs_saw_data : bool;
  gs_commands_open : bool;
}.

(** How an iteration of the loop ends *)
Inductive LoopResult : Type :=
| Continue (g : GenerationState)
| Return (outcome : GenerationOutcome)
| Fail (e : PublicRuntimeError).

Definition with_tracking (g : GenerationState) (t : SubscriptionTracking) : GenerationState := {|
  gs_tracking := t;
  gs_last_inbound := gs_last_inbound g;
  gs_awaiting_pong_since := gs_awaiting_pong_since g;
  gs_saw_data := gs_saw_data g;
  gs_commands_open := gs_commands_open g;
|}.

Definition reconciled (self : PublicWsCoordinator) (g : GenerationState)
    (unsubscribe subscribe : result PublicRuntimeError unit) : LoopResult :=
  match reconcile_subscriptions self (gs_tracking g) unsubscribe subscribe with
  | (t, _, Ok _) => Continue (with_tracking g t)
  | (_, _, Err e) => Fail e
  end.

Definition settle (t : SubscriptionTracking) (s : Subscription) : SubscriptionTracking :=
  {| sub_pending := sub_pending t ∖ {[s]}; sub_failed := sub_failed t ∖ {[s]} |}.

(** The arm [LoopAction::Message(Ok(Some(message)))] of the loop in [run_generation] *)
Definition handle_message (self : PublicWsCoordinator) (g0 : GenerationState) (now : Z)
    (now_ms : option Z) (received_at : string)
    (unsubscribe subscribe : result PublicRuntimeError unit) (message : InboundMessage)
    : PublicWsCoordinator * LoopResult :=
  let g := {| gs_tracking := gs_tracking g0; gs_last_inbound := now;
              gs_awaiting_pong_since := gs_awaiting_pong_since g0;
              gs_saw_data := gs_saw_data g0; gs_commands_open := gs_commands_open g0 |} in
  match message with
  | Pong => (self, Continue {| gs_tracking := gs_tracking g; gs_last_inbound := now;
                               gs_awaiting_pong_since := None; gs_saw_data := gs_saw_data g;
                               gs_commands_open := gs_commands_open g |})
  | Subscribed arg connection_id =>
    (with_state self (acknowledge (pc_state self) arg connection_id),
     Continue (with_tracking g (settle (gs_tracking g) (subscription_from_arg arg))))
  | Unsubscribed arg _ =>
    let self := with_state self (unacknowledge (pc_state self) arg) in
    let t := {| sub_pending := sub_pending (gs_tracking g) ∖ {[subscription_from_arg arg]};
                sub_failed := sub_failed (gs_tracking g) |} in
    (self, reconciled self (with_tracking g t) unsubscribe subscribe)
  | WsError code message arg =>
    let t := match arg with
             | None => gs_tracking g
             | Some arg =>
               let s := subscription_from_arg arg in
               {| sub_pending := sub_pending (gs_tracking g) ∖ {[s]};
                  sub_failed := {[s]} ∪ sub_failed (gs_tracking g) |}
             end in
    (with_state self (with_last_error (pc_state self)
       ("OKX websocket error code=" +:+ default "<none>" code
        +:+ " message=" +:+ default "<none>" message)),
     Continue (with_tracking g t))
  | Notice code message _ =>
    if bool_decide (code = Some SERVICE_UPGRADE_NOTICE_CODE)
    then (self, Return (OutcomeReconnect (gs_saw_data g)
                  ("OKX service-upgrade notice: " +:+ default "<none>" message)))
    else (self, Continue g)
  | Data arg action data =>
    let g := {| gs_tracking := gs_tracking g; gs_last_inbound := now;
                gs_awaiting_pong_since := gs_awaiting_pong_since g; gs_saw_data := true;
                gs_commands_open := gs_commands_open g |} in
    match apply_data self now_ms received_at (pc_generation self) arg action data with
    | (self, Ok true) =>
      (self, Return (OutcomeReconnect true
               "reference data changed; rebuilding one coherent generation"))
    | (self, Ok false) => (self, Continue g)
    | (self, Err error) => (self, Return (OutcomeReconnect true (error_text error)))
    end
  | Other _ => (self, Continue g)
  end.

(** What the [select!] of [run_generation] can deliver, with the instant at which it does *)
Inductive LoopAction : Type :=
| ActMessage (now : Z) (now_ms : option Z) (received_at : string) (message : InboundMessage)
| ActTransportError (text : string)
| ActClosed
| ActCommand
| ActCommandsClosed
| ActHeartbeatTick (now : Z) (ping : result PublicRuntimeError unit)
| ActShutdown.

Definition take_command (self : PublicWsCoordinator) : option (string * PublicWsCoordinator) :=
  match pc_commands self with
  | [] => None
  | c :: rest => Some (c, {| pc_state := pc_state self; pc_commands := rest;
                             pc_wakeup := pc_wakeup self;
                             pc_market_update_sequence := pc_market_update_sequence self;
                             pc_demands := pc_demands self;
                             pc_demand_recency := pc_demand_recency self;
                             pc_generation := pc_generation self |})
  end.

(** One iteration of the loop *)
Definition loop_step (self : PublicWsCoordinator) (g : GenerationState)
    (unsubscribe subscribe : result PublicRuntimeError unit) (action : LoopAction)
    : PublicWsCoordinator * LoopResult :=
  match action with
  | ActShutdown => (self, Return OutcomeShutdown)
  | ActCommand =>
    if negb (gs_commands_open g) then (self, Continue g) else
    match take_command self with
    | None => (self, Continue g)
    | Some (command, self) =>
      let self := apply_command self command in
      (self, reconciled self g unsubscribe subscribe)
    end
  | ActCommandsClosed =>
    (self, Continue {| gs_tracking := gs_tracking g; gs_last_inbound := gs_last_inbound g;
                       gs_awaiting_pong_since := gs_awaiting_pong_since g;
                       gs_saw_data := gs_saw_data g; gs_commands_open := false |})
  | ActHeartbeatTick now ping =>
    match gs_awaiting_pong_since g with
    | Some sent_at =>
      if PONG_TIMEOUT_SECONDS * ns_per_second <=? now - sent_at
      then (self, Return (OutcomeReconnect (gs_saw_data g)
                            "OKX application heartbeat timed out"))
      else (self, Continue g)
    | None =>
      if IDLE_BEFORE_PING_SECONDS * ns_per_second <=? now - gs_last_inbound g
      then match ping with
           | Err e => (self, Fail e)
           | Ok _ =>
             (self, Continue {| gs_tracking := gs_tracking g;
                                gs_last_inbound := gs_last_inbound g;
                                gs_awaiting_pong_since := Some now;
                                gs_saw_data := gs_saw_data g;
                                gs_commands_open := gs_commands_open g |})
           end
      else (self, Continue g)
    end
  | ActTransportError text => (self, Return (OutcomeReconnect (gs_saw_data g) text))
  | ActClosed => (self, Return (OutcomeReconnect (gs_saw_data g) "OKX public websocket closed"))
  | ActMessage now now_ms received_at message =>
    handle_message self g now now_ms received_at unsubscribe subscribe message
  end.

(** The connection succeeded: a new generation starts. *)
Definition start_generation (self : PublicWsCoordinator) : PublicWsCoordinator :=
  let generation := saturating_add_u64 (pc_generation self) 1 in
  {| pc_state := begin_generation (pc_state self) generation (pc_demands self);
     pc_commands := pc_commands self;
     pc_wakeup := pc_wakeup self;
     pc_market_update_sequence := pc_market_update_sequence self;
     pc_demands := pc_demands self;
     pc_demand_recency := pc_demand_recency self;
     pc_generation := generation |}.

Definition fresh_generation_state (now : Z) : GenerationState := {|
  gs_tracking := {| sub_pending := ∅; sub_failed := ∅ |};
  gs_last_inbound := now;
  gs_awaiting_pong_since := None;
  gs_saw_data := false;
  gs_commands_open := true;
|}.

(** The outcome of a generation as [run] handles it: the state it leaves, and the number of
    reconnect attempts, or the end of the run.  A failed generation reconnects without data. *)
Definition finish_generation (self : PublicWsCoordinator) (attempt : nat)
    (r : GenerationOutcome + PublicRuntimeError) : PublicWsCoordinator * option nat :=
  match r with
  | inl OutcomeShutdown =>
    (with_state self (set_disconnected (pc_state self) false "runtime shutdown"), None)
  | inl (OutcomeReconnect saw_data reason) =>
    (with_state self (set_disconnected (pc_state self) true reason),
     Some (if saw_data then 0%nat else attempt))
  | inr e =>
    (with_state self (set_disconnected (pc_state self) true (error_text e)), Some attempt)
  end.
End coordinator.

(** ** The working set *)
Section working_set.

(** The demands, oldest first, from an empty working set *)
Definition touch_all (history : list string) : list (string * unit) * list string :=
  foldl (λ acc id, let '(d, r, _) := touch_demand acc.1 acc.2 id in (d, r)) ([], []) history.

Lemma remove_dups_snoc (l : list string) x :
  remove_dups (l ++ [x]) = filter (λ y, y ≠ x) (remove_dups l) ++ [x].
Proof.
  induction l as [|y l IH]; simpl; [done|].
  destruct (decide_rel elem_of y (l ++ [x])) as [Ha|Ha];
    destruct (decide_rel elem_of y l) as [Hb|Hb]; rewrite elem_of_app, list_elem_of_singleton in Ha.
  - done.
  - destruct Ha as [?| ->]; [done|]. by rewrite IH, filter_cons_False by naive_solver.
  - naive_solver.
  - by rewrite IH, filter_cons_True by naive_solver.
Qed.

Lemma filter_absent (l : list string) x : x ∉ l → filter (λ y, y ≠ x) l = l.
Proof.
  induction l as [|y l IH]; intros Hx; [done|]. apply not_elem_of_cons in Hx as [? ?].
  rewrite filter_cons_True by done. by rewrite IH.
Qed.

Lemma vec_remove_filter (l : list string) x i :
  NoDup l → position (λ v, (v =? x)%string) l = Some i →
  vec_remove i l = filter (λ y, y ≠ x) l ∧ x ∈ l.
Proof.
  intros Hnd Hp. destruct (position_Some _ _ _ Hp) as (x' & Hi & Heq & _).
  apply String.eqb_eq in Heq as ->. rewrite (vec_remove_split l i x Hi) in Hnd.
  apply NoDup_app in Hnd as (_ & Hd & Hnd). apply NoDup_cons in Hnd as [Hx _].
  rewrite (vec_remove_split l i x Hi) at 2. unfold vec_remove.
  rewrite filter_app, filter_cons_False by naive_solver.
  rewrite !filter_absent; [|done|].
  - split; [done|]. by eapply list_elem_of_lookup_2.
  - intros Hin. apply (Hd x Hin). left.
Qed.

(** A step on the recency list, without the set *)
Lemma touch_recency d r id :
  NoDup r →
  let full := filter (λ y, y ≠ id) r ++ [id] in
  touch_demand d r id =
  if (length full <=? MAX_ACTIVE_MARKETS)%nat then (oinsert id tt d, full, None)
  else match full with
       | [] => (oinsert id tt d, full, None)
       | evicted :: rest => (oremove evicted (oinsert id tt d), rest, Some evicted)
       end.
Proof.
  intros Hnd full. unfold touch_demand.
  assert (match position (λ v, (v =? id)%string) r with
          | Some i => vec_remove i r | None => r end = filter (λ y, y ≠ id) r) as ->; [|done].
  destruct (position _ r) eqn:E.
  - by apply vec_remove_filter.
  - apply position_None in E. rewrite filter_absent; [done|]. intros Hin.
    rewrite Forall_forall in E. specialize (E _ Hin). by rewrite String.eqb_refl in E.
Qed.

(** The recency list is the most recently used end of the distinct demands. *)
Definition lru_of (history : list string) (r : list string) : Prop :=
  r `suffix_of` remove_dups history ∧
  length r = Nat.min MAX_ACTIVE_MARKETS (length (remove_dups history)).

Definition members (d : list (string * unit)) (r : list string) : Prop :=
  osorted d ∧ ∀ id, oget d id = Some tt ↔ id ∈ r.

Lemma suffix_NoDup (l k : list string) : l `suffix_of` k → NoDup k → NoDup l.
Proof. intros [p ->] Hnd. by apply NoDup_app in Hnd as (_ & _ & ?). Qed.

Lemma oget_unit (d : list (string * unit)) id : oget d id = Some tt ∨ oget d id = None.
Proof. destruct (oget d id) as [[]|]; auto. Qed.

Lemma members_insert d r r' id :
  members d r → (∀ y, y ∈ r' ↔ y ∈ r ∨ y = id) → members (oinsert id tt d) r'.
Proof.
  intros [Hs Hm] Hr. split; [by apply oinsert_sorted|]. intros y.
  rewrite Hr. destruct (decide (id = y)) as [->|Hne].
  - rewrite oget_oinsert_eq by apply kcmp_refl. naive_solver.
  - rewrite oget_oinsert_ne by (intros ?%kcmp_eq; congruence). rewrite Hm. naive_solver.
Qed.

Lemma members_remove d r r' id :
  members d r → (∀ y, y ∈ r' ↔ y ∈ r ∧ y ≠ id) → members (oremove id d) r'.
Proof.
  intros [Hs Hm] Hr. split; [by apply oremove_sorted|]. intros y.
  rewrite Hr. destruct (decide (id = y)) as [->|Hne].
  - rewrite oget_oremove_eq by (try done; apply kcmp_refl). naive_solver.
  - rewrite oget_oremove_ne by (try done; intros ?%kcmp_eq; congruence). rewrite Hm. naive_solver.
Qed.

Lemma filter_ne_length (l : list string) x :
  NoDup l → x ∈ l → S (length (filter (λ y, y ≠ x) l)) = length l.
Proof.
  induction l as [|y l IH]; intros Hnd Hx; [set_solver|]. apply NoDup_cons in Hnd as [Hy Hnd].
  destruct (decide (y = x)) as [->|Hne].
  - rewrite filter_cons_False by naive_solver. by rewrite filter_absent.
  - rewrite filter_cons_True by done. simpl. rewrite IH; [done|done|set_solver].
Qed.

Lemma touch_step history d r id d' r' evicted :
  lru_of history r → members d r → touch_demand d r id = (d', r', evicted) →
  lru_of (history ++ [id]) r' ∧ members d' r' ∧
  (∀ e, evicted = Some e → e ∈ r ∧ e ∉ r' ∧ ∃ rest, r = e :: rest).
Proof.
  intros [[p Hp] Hlen] Hm E. pose proof (NoDup_remove_dups history) as HndR.
  rewrite Hp in HndR, Hlen. pose proof HndR as (HndP & Hdis & Hnd)%NoDup_app.
  rewrite touch_recency in E by done. rewrite length_app in Hlen.
  unfold lru_of. rewrite remove_dups_snoc, Hp, filter_app, <- app_assoc, length_app.
  unfold MAX_ACTIVE_MARKETS in *. destruct (decide (id ∈ r)) as [Hin|Hout].
  - assert (id ∉ p) as Hidp by (intros ?; by apply (Hdis id)).
    pose proof (filter_ne_length r id Hnd Hin) as Hfl.
    rewrite (filter_absent p) by done. rewrite length_app in E. cbn [length] in E.
    destruct (Nat.leb_spec (length (filter (λ y, y ≠ id) r) + 1) 12); [|lia].
    injection E as <- <- <-. rewrite length_app. cbn [length]. split_and!; [by exists p|lia| |done].
    apply (members_insert d r); [done|]. intros y.
    rewrite elem_of_app, list_elem_of_filter, list_elem_of_singleton.
    destruct (decide (y = id)); naive_solver.
  - rewrite (filter_absent r) in E |- * by done. rewrite length_app in E. cbn [length] in E.
    assert (members (oinsert id tt d) (r ++ [id])) as Hins.
    { apply (members_insert d r); [done|]. intros y.
      by rewrite elem_of_app, list_elem_of_singleton. }
    destruct (Nat.leb_spec (length r + 1) 12) as [Hle|Hgt].
    + injection E as <- <- <-. destruct p; [|cbn [length] in Hlen; lia]. simpl app.
      rewrite !length_app. cbn [length] in *. split_and!; [by exists []| |done|done];
        change (length (filter (λ y, y ≠ id) [])) with 0%nat; lia.
    + destruct r as [|e rest]; [cbn [length] in Hgt; lia|]. simpl app in E. injection E as <- <- <-.
      apply NoDup_cons in Hnd as [He Hnd]. split_and!.
      * exists (filter (λ y, y ≠ id) p ++ [e]). by rewrite <- app_assoc.
      * rewrite !length_app. cbn [length] in *. lia.
      * apply (members_remove _ _ _ _ Hins). intros y. split; [|set_solver].
        intros Hy. split; [set_solver|]. intros ->.
        apply elem_of_app in Hy as [?|Hy]; [done|].
        apply list_elem_of_singleton in Hy as ->. apply Hout. left.
      * intros e' [= <-]. split_and!; [left| |by eexists].
        rewrite elem_of_app, list_elem_of_singleton. intros [?| ->]; [done|]. apply Hout. left.
Qed.

(** the working set is exactly least-recently-used.  After any sequence of demands the
    recency list is the last twelve (or all, when fewer) distinct instruments in the order of
    their last demand, and the demand set holds exactly its members. *)
Theorem touch_demand_lru (history : list string) :
  let '(d, r) := touch_all history in lru_of history r ∧ members d r.
Proof.
  induction history as [|id history IH] using rev_ind.
  - split; [split; [by exists []|done]|]. split; [constructor|]. intros id. simpl.
    split; [done|set_solver].
  - unfold touch_all in *. rewrite foldl_snoc.
    destruct (foldl _ _ history) as [d r]. destruct IH as [Hl Hm]. simpl.
    destruct (touch_demand d r id) as [[d' r'] ev] eqn:E.
    destruct (touch_step _ _ _ _ _ _ _ Hl Hm E) as (? & ? & _). done.
Qed.
End working_set.

(** ** Theorems about a generation *)
Section theorems.
Context {D : Type} `{DecimalOps D} `{Hashing}
  `{!Serialize MarketGenerationInput} `{!Serialize RegistryGenerationInput}.
Context {json : Type} `{!Decode json PublicInstrument} `{!Decode json PublicTicker}
  `{!Decode json PublicMarkPrice} `{!Decode json PublicIndexTicker}
  `{!Decode json PublicFundingRate} `{!Decode json PublicOpenInterest}
  `{!Decode json RawBookData}.
Context (error_text : PublicRuntimeError → string).
Implicit Types (self : PublicWsCoordinator (D:=D)).

Lemma reconcile_sent self t : (reconcile_subscriptions self t (Ok tt) (Ok tt)).2 = Ok tt.
Proof.
  unfold reconcile_subscriptions. destruct (bool_decide _); by destruct (bool_decide _).
Qed.

(** reconciliation asks for exactly what is missing, once.  When the sends succeed, the
    requests are the acknowledged subscriptions that are no longer desired and the desired
    ones that are neither acknowledged, awaited nor refused; afterwards every desired
    subscription is acknowledged, awaited or refused, everything acknowledged beyond the
    desired is being removed, and a second reconciliation sends nothing and changes
    nothing. *)
Theorem reconcile_exact self t :
  let desired := desired_subscriptions (prs_reference (pc_state self)) (pc_demands self) in
  let acked := prs_acknowledged (pc_state self) in
  let '(t', req, r) := reconcile_subscriptions self t (Ok tt) (Ok tt) in
  r = Ok tt ∧
  (∀ s, s ∈ req_unsubscribe req ↔ s ∈ acked ∧ s ∉ desired ∧ s ∉ sub_pending t) ∧
  (∀ s, s ∈ req_subscribe req ↔
        s ∈ desired ∧ s ∉ acked ∧ s ∉ sub_pending t ∧ s ∉ sub_failed t) ∧
  (∀ s, s ∈ desired → s ∈ acked ∨ s ∈ sub_pending t' ∨ s ∈ sub_failed t') ∧
  (∀ s, s ∈ acked → s ∉ desired → s ∈ sub_pending t') ∧
  reconcile_subscriptions self t' (Ok tt) (Ok tt) =
    (t', {| req_unsubscribe := ∅; req_subscribe := ∅ |}, Ok tt).
Proof.
  intros desired acked. unfold reconcile_subscriptions. fold desired acked.
  replace (if bool_decide (removals acked desired (sub_pending t) = ∅) then Ok tt else Ok tt)
    with (Ok (E:=PublicRuntimeError) tt) by (by case_bool_decide).
  set (pending := sub_pending t ∪ removals acked desired (sub_pending t)).
  set (adds := additions acked desired pending (sub_failed t)).
  replace (if bool_decide (adds = ∅) then Ok tt else Ok tt)
    with (Ok (E:=PublicRuntimeError) tt) by (by case_bool_decide). cbn [sub_pending sub_failed].
  assert (∀ s, s ∈ desired → s ∈ acked ∨ s ∈ pending ∪ adds ∨ s ∈ sub_failed t) as Hd.
  { intros s Hs. unfold adds, additions. destruct (decide (s ∈ acked)); [by left|].
    destruct (decide (s ∈ pending)); [set_solver|].
    destruct (decide (s ∈ sub_failed t)); set_solver. }
  assert (∀ s, s ∈ acked → s ∉ desired → s ∈ pending ∪ adds) as Hr.
  { intros s Hs Hnd. unfold pending, removals.
    destruct (decide (s ∈ sub_pending t)); set_solver. }
  assert (removals acked desired (pending ∪ adds) = ∅) as ->.
  { apply set_eq. intros s. unfold removals. specialize (Hr s). set_solver. }
  rewrite union_empty_r_L.
  assert (additions acked desired (pending ∪ adds) (sub_failed t) = ∅) as ->.
  { apply set_eq. intros s. unfold additions at 1. specialize (Hd s). set_solver. }
  rewrite !bool_decide_eq_true_2, union_empty_r_L by done. cbn [req_unsubscribe req_subscribe].
  split_and!; try done.
  - intros s. unfold removals. set_solver.
  - intros s. unfold adds, additions, pending, removals. set_solver.
Qed.

(** A run of one generation: every iteration continues the loop; demands arrive at any time. *)
Definition loop_input : Type :=
  (result PublicRuntimeError unit * result PublicRuntimeError unit * LoopAction (json:=json)).

Inductive generation_run : PublicWsCoordinator (D:=D) * GenerationState → list loop_input →
    PublicWsCoordinator (D:=D) * GenerationState → Prop :=
| run_nil cg : generation_run cg [] cg
| run_snoc cg c g inputs u s a c' g' :
    generation_run cg inputs (c, g) →
    loop_step error_text c g u s a = (c', Continue g') →
    generation_run cg (inputs ++ [(u, s, a)]) (c', g')
| run_demand cg c g inputs closed id :
    generation_run cg inputs (c, g) →
    generation_run cg inputs ((demand_instrument c closed id).1, g).

(** The same run, computed *)
Fixpoint run_loop (c : PublicWsCoordinator (D:=D)) (g : GenerationState) (inputs : list loop_input)
    : option (PublicWsCoordinator (D:=D) * GenerationState) :=
  match inputs with
  | [] => Some (c, g)
  | (u, s, a) :: inputs =>
    match loop_step error_text c g u s a with
    | (c', Continue g') => run_loop c' g' inputs
    | _ => None
    end
  end.

Lemma run_loop_sound cg done c g inputs r :
  generation_run cg done (c, g) → run_loop c g inputs = Some r →
  generation_run cg (done ++ inputs) r.
Proof.
  revert done c g. induction inputs as [|[[u s] a] inputs IH]; intros done c g Hrun E.
  - injection E as <-. by rewrite app_nil_r.
  - cbn [run_loop] in E. destruct (loop_step _ _ _ _ _ _) as [c' [g'|o|e]] eqn:Estep; [|done|done].
    change ((u, s, a) :: inputs) with ([(u, s, a)] ++ inputs). rewrite app_assoc.
    eapply IH; [|exact E]. by eapply run_snoc.
Qed.

(** The subscription an input acknowledges *)
Definition acked_by (i : loop_input) : option Subscription :=
  match i with
  | (_, _, ActMessage _ _ _ (Subscribed arg _)) => Some (subscription_from_arg arg)
  | _ => None
  end.

Lemma update_market_acks (st : PublicRuntimeState D) id f :
  prs_acknowledged (update_market st id f).1 = prs_acknowledged st.
Proof. unfold update_market. destruct (oget _ _); [|done]. by destruct (f _). Qed.

Lemma for_each_acks {A} (f : PublicRuntimeState D → A → PublicRuntimeState D * result PublicRuntimeError unit)
    (st : PublicRuntimeState D) l :
  (∀ st a, prs_acknowledged (f st a).1 = prs_acknowledged st) →
  prs_acknowledged (for_each f st l).1 = prs_acknowledged st.
Proof.
  intros Hf. revert st. induction l as [|a l IH]; intros st; simpl; [done|].
  specialize (Hf st a). destruct (f st a) as [st' [|]]; simpl in *; [by rewrite IH|done].
Qed.

Lemma with_decoded_acks {T} `{!Decode json T} (st : PublicRuntimeState D) value f :
  (∀ u : T, prs_acknowledged (f u).1 = prs_acknowledged st) →
  prs_acknowledged (with_decoded st value f).1 = prs_acknowledged st.
Proof. intros Hf. unfold with_decoded. by destruct (decoded value). Qed.

Lemma apply_channel_acks (st : PublicRuntimeState D) g t ra arg action data :
  prs_acknowledged (apply_channel st g t ra arg action data).1 = prs_acknowledged st.
Proof.
  unfold apply_channel. destruct (arg_channel arg).
  1: { destruct (try_map _ data); [|done]. by destruct (apply_public_updates _ _ _). }
  6: { destruct (arg_instrument_id arg) as [id|]; [|done]. destruct (oget _ id); [|done].
       match goal with |- context [for_each ?f ?s ?l] =>
         pose proof (for_each_acks f s l) as Hacks; destruct (for_each f s l) end.
       apply Hacks. intros st' value. unfold apply_book. apply with_decoded_acks. intros raw.
       repeat case_bool_decide; [apply update_market_acks..|done]. }
  all: match goal with |- context [for_each ?f ?s ?l] =>
         pose proof (for_each_acks f s l) as Hacks; destruct (for_each f s l) end;
       apply Hacks; intros st' value; apply with_decoded_acks; intros u;
       first [apply update_market_acks
             |unfold apply_index_update; apply for_each_acks; intros; apply update_market_acks].
Qed.

Lemma apply_data_acks self now_ms ra g arg action data :
  prs_acknowledged (pc_state (apply_data self now_ms ra g arg action data).1)
  = prs_acknowledged (pc_state self).
Proof.
  unfold apply_data. destruct now_ms as [t|]; [|done].
  pose proof (apply_channel_acks (pc_state self) g t ra arg action data) as Hc.
  destruct (apply_channel _ _ _ _ _ _ _) as [st [b|e]]; [|done]. by destruct (bool_decide _).
Qed.

Lemma insert_market_acks (st : PublicRuntimeState D) id :
  prs_acknowledged (insert_market st id) = prs_acknowledged st.
Proof. unfold insert_market. by destruct (get (prs_reference st) id), (oget (prs_markets st) id). Qed.

Lemma apply_command_acks self id :
  prs_acknowledged (pc_state (apply_command self id)) = prs_acknowledged (pc_state self).
Proof.
  unfold apply_command. destruct (touch_demand _ _ _) as [[d r] ev]. simpl.
  destruct ev as [e|]; simpl; destruct (get _ _) as [i|]; try done;
    rewrite insert_market_acks; by destruct (bool_decide _).
Qed.

(** A step acknowledges nothing but the subscription its input confirms. *)
Lemma loop_step_acks self g u s a c' r x :
  loop_step error_text self g u s a = (c', r) →
  x ∈ prs_acknowledged (pc_state c') →
  x ∈ prs_acknowledged (pc_state self) ∨ acked_by (u, s, a) = Some x.
Proof.
  destruct a as [now now_ms ra m| | | | |now ping|]; simpl; intros E Hx.
  - destruct m as [|arg cid|arg cid|code msg arg|code msg cid|arg action data|v]; simpl in E.
    + injection E as <- <-. by left.
    + injection E as <- <-. simpl in Hx. set_solver.
    + injection E as <- <-. simpl in Hx. set_solver.
    + injection E as <- <-. by left.
    + destruct (bool_decide _); injection E as <- <-; by left.
    + pose proof (apply_data_acks self now_ms ra (pc_generation self) arg action data) as Ha.
      destruct (apply_data _ _ _ _ _ _ _) as [c [[]|e]]; injection E as <- <-;
        simpl in Ha; rewrite Ha in Hx; by left.
    + injection E as <- <-. by left.
  - injection E as <- <-. by left.
  - injection E as <- <-. by left.
  - destruct (negb _); [injection E as <- <-; by left|].
    unfold take_command in E. destruct (pc_commands self) as [|cmd rest];
      injection E as <- <-; [by left|]. rewrite apply_command_acks in Hx. by left.
  - injection E as <- <-. by left.
  - destruct (gs_awaiting_pong_since g), ping; bool_cases; injection E as <- <-; by left.
  - injection E as <- <-. by left.
Qed.

Lemma generation_run_acks self now inputs c g x :
  generation_run (start_generation self, fresh_generation_state now) inputs (c, g) →
  x ∈ prs_acknowledged (pc_state c) →
  ∃ i, i ∈ inputs ∧ acked_by i = Some x.
Proof.
  intros Hrun. remember (start_generation self, fresh_generation_state now) as start.
  remember (c, g) as cg. revert c g Heqcg x.
  induction Hrun as [cg|cg c0 g0 inputs u s a c' g' Hrun IH Hstep|cg c0 g0 inputs closed id Hrun IH];
    intros c g Heq x Hx.
  - subst. injection Heq as <- <-. simpl in Hx. set_solver.
  - injection Heq as <- <-. destruct (loop_step_acks _ _ _ _ _ _ _ _ Hstep Hx) as [Hx'|Hx'].
    + destruct (IH Heqstart c0 g0 eq_refl x Hx') as (i & Hi & ?). exists i. set_solver.
    + exists (u, s, a). set_solver.
  - injection Heq as <- <-. apply (IH Heqstart c0 g0 eq_refl). revert Hx. unfold demand_instrument.
    destruct closed; [done|]. destruct (_ <=? _)%nat; [done|]. simpl. by rewrite insert_market_acks.
Qed.

(** C36: a fresh read proves this generation's subscriptions.  If, at any point of a
    connection generation, the new-risk read returns a snapshot of a market, then the
    exchange has confirmed in this same generation every subscription the market lives on:
    both listings, its own channels, its underlying's index, and the funding channel when
    it has funding. *)
Theorem fresh_read_confirmed self now inputs c g id now_ms price context ts l :
  generation_run (start_generation self, fresh_generation_state now) inputs (c, g) →
  risk_fresh_snapshot (pc_state c) id now_ms price context ts = Ok l →
  ∃ i u, get (prs_reference (pc_state c)) id = Some i ∧ is_underlying i = Some u ∧
    let confirmed s := ∃ input, input ∈ inputs ∧ acked_by input = Some s in
    confirmed (subscription_instrument_type Instruments (instrument_type_text Swap)) ∧
    confirmed (subscription_instrument_type Instruments (instrument_type_text Futures)) ∧
    confirmed (subscription_instrument Tickers id) ∧
    confirmed (subscription_instrument MarkPrice id) ∧
    confirmed (subscription_instrument OpenInterest id) ∧
    confirmed (subscription_instrument Books id) ∧
    confirmed (subscription_instrument IndexTickers u) ∧
    (is_funding_requirement i = Required → confirmed (subscription_instrument FundingRate id)).
Proof.
  intros Hrun Hread. unfold risk_fresh_snapshot, risk_quality_snapshot in Hread.
  apply bind_ok in Hread as (q & Hq & Hread). apply bind_ok in Hq as (m & _ & [= <-]).
  destruct (negb _) eqn:Hf in Hread; [done|]. reflect_bools. simpl in Hf.
  apply fresh_sound in Hf as (_ & (i & Hi & [Hl Ho (u & Hu & _ & Hx) Hr])
                                   %subscriptions_complete_iff & _).
  exists i, u. split; [done|]. split; [done|]. cbv zeta.
  assert (∀ x, x ∈ prs_acknowledged (pc_state c) → ∃ i, i ∈ inputs ∧ acked_by i = Some x) as Hconf.
  { intros x. by apply (generation_run_acks self now inputs c g). }
  split; [exact (Hconf _ (Hl Swap))|]. split; [exact (Hconf _ (Hl Futures))|].
  split; [apply Hconf, Ho; left|]. split; [apply Hconf, Ho; right; left|].
  split; [apply Hconf, Ho; do 2 right; left|]. split; [apply Hconf, Ho; do 3 right; left|].
  split; [exact (Hconf _ Hx)|]. intros Hreq. rewrite Hreq in Hr. exact (Hconf _ Hr).
Qed.

Lemma insert_market_lookup (st : PublicRuntimeState D) id :
  is_Some (get (prs_reference st) id) → oget (prs_markets st) id = None →
  oget (prs_markets (insert_market st id)) id =
  Some (new id (prs_generation st) (reg_generation (prs_reference st))).
Proof.
  intros [i Hi] Hn. unfold insert_market. rewrite Hi, Hn. simpl.
  apply oget_oinsert_eq, kcmp_refl.
Qed.

Lemma insert_market_present (st : PublicRuntimeState D) id m :
  oget (prs_markets st) id = Some m → insert_market st id = st.
Proof.
  intros Hm. unfold insert_market. destruct (get (prs_reference st) id); [|done]. by rewrite Hm.
Qed.

Lemma insert_market_reference (st : PublicRuntimeState D) id :
  prs_reference (insert_market st id) = prs_reference st.
Proof.
  unfold insert_market. by destruct (get (prs_reference st) id), (oget (prs_markets st) id).
Qed.

(** Taking the only command keeps a market that exists. *)
Lemma apply_command_present self id m :
  oget (prs_markets (pc_state self)) id = Some m →
  pc_demands self = [] → pc_demand_recency self = [] →
  oget (prs_markets (pc_state (apply_command self id))) id = Some m ∧
  pc_demands (apply_command self id) = [(id, tt)] ∧
  pc_generation (apply_command self id) = pc_generation self.
Proof.
  intros Hm Hd Hr. unfold apply_command. rewrite Hd, Hr. simpl. split; [|done].
  destruct (get _ _); [|done]. destruct (bool_decide _); by rewrite (insert_market_present _ id m).
Qed.

(** A ticker of another generation than its market's ends the connection. *)
Lemma foreign_ticker self g now now_ms ra u s v arg action (t : PublicTicker) data m :
  oget (prs_markets (pc_state self)) (tk_instrument_id t) = Some m →
  st_generation m ≠ pc_generation self →
  from_value v = Ok t → arg_channel arg = Tickers →
  ∃ c, handle_message error_text self g now (Some now_ms) ra u s (Data arg action (v :: data)) =
    (c, Return (OutcomeReconnect true (error_text (StreamFailed
          (StreamGenerationMismatch (st_generation m) (pc_generation self)))))).
Proof.
  intros Hm Hg Hv Harg. simpl. unfold apply_channel. rewrite Harg. simpl.
  unfold with_decoded at 1, decoded at 1. rewrite Hv. simpl. unfold update_market at 1. rewrite Hm.
  unfold apply_ticker at 1, require_generation at 1.
  rewrite (proj2 (Z.eqb_neq (pc_generation self) (st_generation m))) by done. simpl.
  by eexists.
Qed.

(** A demand registered while no generation runs costs a connection.  When an instrument
    that is in the registry but has no market yet is demanded between the end of one
    generation and the start of the next, its market is created under the old generation,
    is not reset by the start of the new one (the command is still queued), and taking the
    command does not renew it: the first ticker of the new generation for this instrument
    is refused as a generation mismatch and ends the new connection. *)
Theorem late_demand_reconnects self id c1 now0 g now now_ms ra u s v arg action
    (t : PublicTicker) data :
  is_Some (get (prs_reference (pc_state self)) id) →
  oget (prs_markets (pc_state self)) id = None →
  pc_commands self = [] → pc_demands self = [] → pc_demand_recency self = [] →
  pc_generation self = prs_generation (pc_state self) →
  0 ≤ pc_generation self < u64_max →
  demand_instrument self false id = (c1, Ok tt) →
  from_value v = Ok t → tk_instrument_id t = id → arg_channel arg = Tickers →
  ∃ c2 g2 c3,
    loop_step error_text (start_generation c1) (fresh_generation_state now0) (Ok tt) (Ok tt)
      ActCommand = (c2, Continue g2) ∧
    pc_demands c2 = [(id, tt)] ∧
    handle_message error_text c2 g now (Some now_ms) ra u s (Data arg action (v :: data)) =
      (c3, Return (OutcomeReconnect true (error_text (StreamFailed
        (StreamGenerationMismatch (pc_generation self) (pc_generation self + 1)))))).
Proof.
  intros Hi Hn Hc Hd Hr Hg Hb Hdem Hv <- Harg. unfold demand_instrument in Hdem.
  rewrite Hc in Hdem. simpl in Hdem. injection Hdem as <-. rewrite Hd, Hr.
  unfold loop_step, start_generation. cbn [gs_commands_open fresh_generation_state negb].
  unfold take_command. cbn [pc_commands].
  match goal with |- context [apply_command ?c ?i] =>
    destruct (apply_command_present c i
      (new i (prs_generation (pc_state self)) (reg_generation (prs_reference (pc_state self)))))
      as (Hm & Hdm & Hgen); [by apply insert_market_lookup|done|done|];
    set (c2 := apply_command c i) in * end.
  unfold reconciled. pose proof (reconcile_sent c2 (gs_tracking (fresh_generation_state now0))) as Hrec.
  destruct (reconcile_subscriptions _ _ _ _) as [[t2 req] r]. simpl in Hrec. subst r.
  destruct (foreign_ticker c2 g now now_ms ra u s v arg action t data _ Hm) as (c3 & H3).
  - rewrite Hgen. simpl. unfold saturating_add_u64. lia.
  - done.
  - done.
  - exists c2, (with_tracking (fresh_generation_state now0) t2), c3. split; [done|].
    split; [done|]. rewrite H3, Hgen. simpl. rewrite Hg. unfold saturating_add_u64.
    rewrite Z.min_r by lia. done.
Qed.
End theorems.

(** ** Witnesses *)
Section witnesses.
Local Existing Instance toy_hashing.
Local Existing Instance toy_serialize.

(** Values that are already decoded *)
Inductive sample_json : Type :=
| JInstrument (x : PublicInstrument)
| JTicker (x : PublicTicker)
| JMark (x : PublicMarkPrice)
| JIndex (x : PublicIndexTicker)
| JFunding (x : PublicFundingRate)
| JInterest (x : PublicOpenInterest)
| JBook (x : RawBookData).

Local Instance decode_instrument : Decode sample_json PublicInstrument :=
  λ j, match j with JInstrument x => Ok x | _ => Err tt end.
Local Instance decode_ticker : Decode sample_json PublicTicker :=
  λ j, match j with JTicker x => Ok x | _ => Err tt end.
Local Instance decode_mark : Decode sample_json PublicMarkPrice :=
  λ j, match j with JMark x => Ok x | _ => Err tt end.
Local Instance decode_index : Decode sample_json PublicIndexTicker :=
  λ j, match j with JIndex x => Ok x | _ => Err tt end.
Local Instance decode_funding : Decode sample_json PublicFundingRate :=
  λ j, match j with JFunding x => Ok x | _ => Err tt end.
Local Instance decode_interest : Decode sample_json PublicOpenInterest :=
  λ j, match j with JInterest x => Ok x | _ => Err tt end.
Local Instance decode_raw_book : Decode sample_json RawBookData :=
  λ j, match j with JBook x => Ok x | _ => Err tt end.

Definition sample_text (e : PublicRuntimeError) : string := "error".
Definition sample_coordinator : PublicWsCoordinator (D:=Fixed.t) := {|
  pc_state := public_new sample_registry; pc_commands := [];
  pc_wakeup := {| pmw_sequence := 0; pmw_generation := 0; pmw_received_at_ms := 0 |};
  pc_market_update_sequence := 0; pc_demands := [("B", tt)]; pc_demand_recency := ["B"];
  pc_generation := 0 |}.

Definition own_arg (c : PublicChannel) (id : string) : WsArg :=
  {| arg_channel := c; arg_instrument_type := None; arg_instrument_family := None;
     arg_instrument_id := Some id |}.
Definition listing_arg (t : string) : WsArg :=
  {| arg_channel := Instruments; arg_instrument_type := Some t; arg_instrument_family := None;
     arg_instrument_id := None |}.
Definition sample_input (m : InboundMessage (json:=sample_json)) : loop_input :=
  (Ok tt, Ok tt, ActMessage 0 (Some 100) "t" m).
Definition sample_raw_book : RawBookData := {|
  rbd_asks := [{| rbl_price := "101"; rbl_size := "1"; rbl_deprecated := "0"; rbl_order_count := "2" |}];
  rbd_bids := []; rbd_ts := "1"; rbd_seq_id := 5; rbd_prev_seq_id := -1 |}.
Definition sample_inputs : list loop_input := map sample_input
  [Subscribed (listing_arg "SWAP") (Some "conn"); Subscribed (listing_arg "FUTURES") None;
   Subscribed (own_arg Tickers "B") None; Subscribed (own_arg MarkPrice "B") None;
   Subscribed (own_arg OpenInterest "B") None; Subscribed (own_arg Books "B") None;
   Subscribed (own_arg IndexTickers "BTC-USD") None; Subscribed (own_arg FundingRate "B") None;
   Data (own_arg Tickers "B") None [JTicker sample_ticker];
   Data (own_arg MarkPrice "B") None [JMark sample_mark];
   Data (own_arg IndexTickers "BTC-USD") None [JIndex sample_index];
   Data (own_arg FundingRate "B") None [JFunding sample_funding];
   Data (own_arg OpenInterest "B") None [JInterest sample_oi];
   Data (own_arg Books "B") (Some "snapshot") [JBook sample_raw_book]].

Lemma fresh_read_confirmed_witness :
  ∃ c g l, run_loop sample_text (start_generation sample_coordinator) (fresh_generation_state 0) sample_inputs
    = Some (c, g) ∧
    risk_fresh_snapshot (pc_state c) "B" 150 60 60 "t9" = Ok l ∧
    ∃ input, input ∈ sample_inputs ∧ acked_by input = Some (subscription_instrument Books "B").
Proof.
  assert (match run_loop sample_text (start_generation sample_coordinator)
            (fresh_generation_state 0) sample_inputs with
          | Some (c, _) => is_ok (risk_fresh_snapshot (pc_state c) "B" 150 60 60 "t9")
          | None => false end = true) as Hok by (by vm_compute).
  destruct (run_loop sample_text (start_generation sample_coordinator)
            (fresh_generation_state 0) sample_inputs) as [[c g]|] eqn:E; [|discriminate].
  destruct (risk_fresh_snapshot (pc_state c) "B" 150 60 60 "t9") as [l|] eqn:El; [|done].
  exists c, g, l. split; [done|]. split; [done|].
  assert (generation_run sample_text
            (start_generation sample_coordinator, fresh_generation_state 0) sample_inputs (c, g))
    as Hrun by (exact (run_loop_sound _ _ [] _ _ _ _ (run_nil _ _) E)).
  destruct (fresh_read_confirmed sample_text sample_coordinator 0 sample_inputs c g "B"
              150 60 60 "t9" l Hrun El) as (i & b & _ & _ & _ & _ & _ & _ & _ & Hb & _).
  exact Hb.
Defined.

Lemma late_demand_reconnects_witness :
  ∃ c1 c2 g2 c3,
    demand_instrument (coordinator_new (D:=Fixed.t) sample_registry) false "B" = (c1, Ok tt) ∧
    loop_step sample_text (start_generation c1) (fresh_generation_state 0) (Ok tt) (Ok tt)
      (ActCommand (json:=sample_json)) = (c2, Continue g2) ∧
    handle_message sample_text c2 g2 0 (Some 100) "t" (Ok tt) (Ok tt)
      (Data (own_arg Tickers "B") None [JTicker sample_ticker]) =
      (c3, Return (OutcomeReconnect true "error")).
Proof.
  assert (is_ok (demand_instrument (coordinator_new (D:=Fixed.t) sample_registry) false "B").2 = true)
    as Hok by (by vm_compute).
  destruct (demand_instrument (coordinator_new (D:=Fixed.t) sample_registry) false "B")
    as [c1 [[]|e]] eqn:E; [|done].
  assert (is_Some (get sample_registry "B")) as Hi.
  { destruct (get sample_registry "B") eqn:Eg; [done|]. by vm_compute in Eg. }
  assert (u64_max > 0) as Hmax by done.
  exists c1.
  set (g2 := match loop_step sample_text (start_generation c1) (fresh_generation_state 0) (Ok tt)
                     (Ok tt) (ActCommand (json:=sample_json)) with
             | (_, Continue g) => g | _ => fresh_generation_state 0 end).
  destruct (late_demand_reconnects sample_text (coordinator_new sample_registry) "B" c1 0 g2 0 100
              "t" (Ok tt) (Ok tt) (JTicker sample_ticker) (own_arg Tickers "B") None sample_ticker []
              Hi eq_refl eq_refl eq_refl eq_refl eq_refl) as (c2 & g & c3 & H1 & _ & H3);
    [simpl; lia|done|done|done|done|].
  exists c2, g2, c3. split; [done|]. split; [|done]. unfold g2. by rewrite H1.
Defined.
End witnesses.
