(* ===== verification/Account.v ===== *)
(** * Account: private account snapshots, [okx-observation/src/account.rs]

    A snapshot is built from one REST bootstrap and then converged with the private
    WebSocket events received since: balances, positions and orders are merged by
    identity, a newer or equal timestamp winning, closed positions and terminal
    orders leaving the snapshot.  The generation digests the contents without their
    timestamps. *)
From stdpp Require Import base option list numbers strings gmap sorting.
From Stdlib Require Import ZArith Lia Ascii.
From S2P Require Import Prelude Text Ordered Keyed External Wire.
Local Open Scope string_scope.
Local Open Scope list_scope.
Local Open Scope Z_scope.

(** ** Data *)
Definition ACCOUNT_SNAPSHOT_SCHEMA_V1 : string := "okx.account-snapshot/v1".
Definition ACCOUNT_SNAPSHOT_SCHEMA_V2 : string := "okx.account-snapshot/v2".
Definition ACCOUNT_REST_SOURCE_V1 : string := "okx_private_rest_bootstrap".
Definition ACCOUNT_CONVERGED_SOURCE_V2 : string := "okx_private_rest_plus_ws".
Definition M4_REST_BOOTSTRAP_REASON : string := "M4_PRIVATE_REST_BOOTSTRAP_ONLY".
Definition M4_REST_WS_CONVERGED_REASON : string := "M4_PRIVATE_REST_WS_CONVERGED".

Inductive AccountWsEvent : Type :=
| EvAccount (updates : list BalanceSnapshot)
| EvPositions (updates : list Position)
| EvOrders (updates : list PendingOrder).

Record AccountBalanceDetail : Type := {
  abd_liabilities : option string;
  abd_currency : string;
  abd_equity : string;
  abd_cash_balance : option string;
  abd_available_equity : option string;
  abd_available_balance : option string;
  abd_frozen_balance : option string;
  abd_equity_usd : option string;
  abd_unrealized_pnl : option string;
  abd_update_time_ms : option string;
}.

Record AccountBalanceState : Type := {
  abs_total_equity_usd : string;
  abs_adjusted_equity_usd : option string;
  abs_isolated_equity_usd : option string;
  abs_initial_margin_requirement_usd : option string;
  abs_maintenance_margin_requirement_usd : option string;
  abs_margin_ratio : option string;
  abs_notional_usd : option string;
  abs_update_time_ms : option string;
  abs_details : list AccountBalanceDetail;
}.

Record AccountPositionState : Type := {
  aps_instrument_type : string;
  aps_instrument_id : string;
  aps_position : string;
  aps_position_side : string;
  aps_margin_mode : string;
  aps_average_price : option string;
  aps_mark_price : option string;
  aps_liquidation_price : option string;
  aps_unrealized_pnl : option string;
  aps_unrealized_pnl_ratio : option string;
  aps_leverage : option string;
  aps_margin : option string;
  aps_initial_margin_requirement : option string;
  aps_maintenance_margin_requirement : option string;
  aps_margin_ratio : option string;
  aps_notional_usd : option string;
  aps_margin_currency : option string;
  aps_creation_time_ms : option string;
  aps_update_time_ms : option string;
}.

Record PendingOrderState : Type := {
  pos_order_id : string;
  pos_client_order_id : option string;
  pos_instrument_type : string;
  pos_instrument_id : string;
  pos_side : string;
  pos_position_side : option string;
  pos_trade_mode : string;
  pos_order_type : string;
  pos_price : option string;
  pos_size : string;
  pos_accumulated_fill_size : string;
  pos_average_fill_price : option string;
  pos_state : string;
  pos_reduce_only : option bool;
  pos_creation_time_ms : string;
  pos_update_time_ms : string;
}.

Record AccountSnapshot : Type := {
  acs_schema : string;
  acs_source : string;
  acs_source_received_at : string;
  acs_account_generation : string;
  acs_quality_reason : string;
  acs_private_ws_connected : bool;
  acs_private_ws_generation : option Z;
  acs_private_ws_connection_fingerprint : option string;
  acs_private_ws_last_inbound_ms : option Z;
  acs_private_ws_events_applied : option Z;
  acs_account_level : string;
  acs_position_mode : string;
  acs_account_type : string;
  acs_account_uid_fingerprint : string;
  acs_api_key_permissions : list string;
  acs_balance : AccountBalanceState;
  acs_positions : list AccountPositionState;
  acs_pending_orders : list PendingOrderState;
}.

#[export] Instance AccountBalanceDetail_eq_dec : EqDecision AccountBalanceDetail.
Proof. solve_decision. Defined.
#[export] Instance AccountBalanceState_eq_dec : EqDecision AccountBalanceState.
Proof. solve_decision. Defined.

(** The digested part of a snapshot *)
Record AccountGenerationInput : Type := {
  agi_schema : string;
  agi_source : string;
  agi_quality_reason : string;
  agi_private_ws_connected : bool;
  agi_private_ws_generation : option Z;
  agi_private_ws_connection_fingerprint : option string;
  agi_account_level : string;
  agi_position_mode : string;
  agi_account_type : string;
  agi_account_uid_fingerprint : string;
  agi_api_key_permissions : list string;
  agi_balance : AccountBalanceState;
  agi_positions : list AccountPositionState;
  agi_pending_orders : list PendingOrderState;
}.

(** ** Contents without timestamps *)
Definition detail_without_time (d : AccountBalanceDetail) : AccountBalanceDetail := {|
  abd_liabilities := abd_liabilities d; abd_currency := abd_currency d;
  abd_equity := abd_equity d; abd_cash_balance := abd_cash_balance d;
  abd_available_equity := abd_available_equity d;
  abd_available_balance := abd_available_balance d;
  abd_frozen_balance := abd_frozen_balance d; abd_equity_usd := abd_equity_usd d;
  abd_unrealized_pnl := abd_unrealized_pnl d; abd_update_time_ms := None |}.

Definition balance_without_time (b : AccountBalanceState) : AccountBalanceState := {|
  abs_total_equity_usd := abs_total_equity_usd b;
  abs_adjusted_equity_usd := abs_adjusted_equity_usd b;
  abs_isolated_equity_usd := abs_isolated_equity_usd b;
  abs_initial_margin_requirement_usd := abs_initial_margin_requirement_usd b;
  abs_maintenance_margin_requirement_usd := abs_maintenance_margin_requirement_usd b;
  abs_margin_ratio := abs_margin_ratio b; abs_notional_usd := abs_notional_usd b;
  abs_update_time_ms := None;
  abs_details := map detail_without_time (abs_details b) |}.

Definition position_without_time (p : AccountPositionState) : AccountPositionState := {|
  aps_instrument_type := aps_instrument_type p; aps_instrument_id := aps_instrument_id p;
  aps_position := aps_position p; aps_position_side := aps_position_side p;
  aps_margin_mode := aps_margin_mode p; aps_average_price := aps_average_price p;
  aps_mark_price := aps_mark_price p; aps_liquidation_price := aps_liquidation_price p;
  aps_unrealized_pnl := aps_unrealized_pnl p;
  aps_unrealized_pnl_ratio := aps_unrealized_pnl_ratio p; aps_leverage := aps_leverage p;
  aps_margin := aps_margin p; aps_initial_margin_requirement := aps_initial_margin_requirement p;
  aps_maintenance_margin_requirement := aps_maintenance_margin_requirement p;
  aps_margin_ratio := aps_margin_ratio p; aps_notional_usd := aps_notional_usd p;
  aps_margin_currency := aps_margin_currency p; aps_creation_time_ms := None;
  aps_update_time_ms := None |}.

Definition order_without_time (o : PendingOrderState) : PendingOrderState := {|
  pos_order_id := pos_order_id o; pos_client_order_id := pos_client_order_id o;
  pos_instrument_type := pos_instrument_type o; pos_instrument_id := pos_instrument_id o;
  pos_side := pos_side o; pos_position_side := pos_position_side o;
  pos_trade_mode := pos_trade_mode o; pos_order_type := pos_order_type o;
  pos_price := pos_price o; pos_size := pos_size o;
  pos_accumulated_fill_size := pos_accumulated_fill_size o;
  pos_average_fill_price := pos_average_fill_price o; pos_state := pos_state o;
  pos_reduce_only := pos_reduce_only o; pos_creation_time_ms := ""; pos_update_time_ms := "" |}.

Definition same_values_ignoring_update_times (left right : AccountBalanceState) : bool :=
  bool_decide (balance_without_time left = balance_without_time right).

(** ** Identities, order, terminal states *)
Definition position_identity (p : AccountPositionState) : string :=
  aps_instrument_id p +:+ "|" +:+ aps_position_side p +:+ "|" +:+ aps_margin_mode p.

Definition position_key (p : AccountPositionState) : string * (string * string) :=
  (aps_instrument_id p, (aps_position_side p, aps_margin_mode p)).

(** Tuples of references compare like tuples. *)
Definition position_sort : AccountPositionState → AccountPositionState → comparison :=
  cmp_on position_key.
Definition order_sort : PendingOrderState → PendingOrderState → comparison := cmp_on pos_order_id.
Definition detail_sort : AccountBalanceDetail → AccountBalanceDetail → comparison :=
  cmp_on abd_currency.

(** Only zeros and points, at least one zero *)
Fixpoint zero_bytes (saw_digit : bool) (s : list ascii) : bool :=
  match s with
  | [] => saw_digit
  | a :: s' =>
    if (a =? "0")%char then zero_bytes true s'
    else if (a =? ".")%char then zero_bytes saw_digit s'
    else false
  end.
Definition is_zero_decimal_text (value : string) : bool :=
  zero_bytes false (trim_start_signs (String.list_ascii_of_string (trim value))).

Definition is_terminal_order_state (state : string) : bool :=
  (state =? "filled")%string || (state =? "canceled")%string || (state =? "mmp_canceled")%string.

Section account.
Context `{Hashing} `{!Serialize AccountGenerationInput}.

Inductive AccountError : Type :=
| EmptySourceTimestamp
| MissingConfigField (field : string)
| MissingBalanceField (field : string)
| MissingBalanceDetailField (field : string)
| MissingPositionField (field : string)
| MissingOrderField (field : string)
| DuplicateBalanceCurrency (currency : string)
| DuplicatePosition (identity : string)
| DuplicateOrder (order_id : string)
| InvalidReduceOnly (value : string)
| InvalidTimestamp (field value : string)
| MissingPrivateConnectionFingerprint
| Serialization (e : SerdeError).

(** [required_config] and its four siblings differ in the error only. *)
Definition required_as (error : string → AccountError) (field value : string)
    : result AccountError string :=
  if is_blank value then Err (error field) else Ok value.
Definition required_config := required_as MissingConfigField.
Definition required_balance := required_as MissingBalanceField.
Definition required_balance_detail := required_as MissingBalanceDetailField.
Definition required_position := required_as MissingPositionField.
Definition required_order := required_as MissingOrderField.

Definition parse_optional_bool (value : string) : result AccountError (option bool) :=
  let v := trim value in
  if (v =? "")%string then Ok None
  else if (v =? "true")%string then Ok (Some true)
  else if (v =? "false")%string then Ok (Some false)
  else Err (InvalidReduceOnly v).

(** ** Normalization *)
Definition normalize_detail (currency : string) (d : BalanceDetail)
    : result AccountError AccountBalanceDetail :=
  equity ← required_balance_detail "eq" (bd_equity d);
  Ok {| abd_liabilities := non_blank (bd_liabilities d);
        abd_currency := currency;
        abd_equity := equity;
        abd_cash_balance := non_blank (bd_cash_balance d);
        abd_available_equity := non_blank (bd_available_equity d);
        abd_available_balance := non_blank (bd_available_balance d);
        abd_frozen_balance := non_blank (bd_frozen_balance d);
        abd_equity_usd := non_blank (bd_equity_usd d);
        abd_unrealized_pnl := non_blank (bd_unrealized_pnl d);
        abd_update_time_ms := non_blank (bd_update_time d) |}.

(** The body of the loop of [normalize_balance] *)
Definition balance_step (acc : list AccountBalanceDetail * gset string) (d : BalanceDetail)
    : result AccountError (list AccountBalanceDetail * gset string) :=
  let '(details, seen) := acc in
  currency ← required_balance_detail "ccy" (bd_ccy d);
  if decide (currency ∈ seen) then Err (DuplicateBalanceCurrency currency) else
  detail ← normalize_detail currency d;
  Ok (details ++ [detail], {[currency]} ∪ seen).

Definition normalize_balance (b : BalanceSnapshot) : result AccountError AccountBalanceState :=
  acc ← try_fold balance_step ([], ∅) (bs_details b);
  let details := sort_by detail_sort acc.1 in
  total ← required_balance "totalEq" (bs_total_equity b);
  Ok {| abs_total_equity_usd := total;
        abs_adjusted_equity_usd := non_blank (bs_adjusted_equity b);
        abs_isolated_equity_usd := non_blank (bs_isolated_equity b);
        abs_initial_margin_requirement_usd := non_blank (bs_initial_margin_requirement b);
        abs_maintenance_margin_requirement_usd := non_blank (bs_maintenance_margin_requirement b);
        abs_margin_ratio := non_blank (bs_margin_ratio b);
        abs_notional_usd := non_blank (bs_notional_usd b);
        abs_update_time_ms := non_blank (bs_update_time b);
        abs_details := details |}.

Definition normalize_position (p : Position) : result AccountError AccountPositionState :=
  instrument_type ← required_position "instType" (ps_instrument_type p);
  instrument_id ← required_position "instId" (ps_instrument_id p);
  position ← required_position "pos" (ps_pos p);
  position_side ← required_position "posSide" (ps_position_side p);
  margin_mode ← required_position "mgnMode" (ps_margin_mode p);
  Ok {| aps_instrument_type := instrument_type;
        aps_instrument_id := instrument_id;
        aps_position := position;
        aps_position_side := position_side;
        aps_margin_mode := margin_mode;
        aps_average_price := non_blank (ps_average_price p);
        aps_mark_price := non_blank (ps_mark_price p);
        aps_liquidation_price := non_blank (ps_liquidation_price p);
        aps_unrealized_pnl := non_blank (ps_unrealized_pnl p);
        aps_unrealized_pnl_ratio := non_blank (ps_unrealized_pnl_ratio p);
        aps_leverage := non_blank (ps_lever p);
        aps_margin := non_blank (ps_margin p);
        aps_initial_margin_requirement := non_blank (ps_initial_margin_requirement p);
        aps_maintenance_margin_requirement := non_blank (ps_maintenance_margin_requirement p);
        aps_margin_ratio := non_blank (ps_margin_ratio p);
        aps_notional_usd := non_blank (ps_notional_usd p);
        aps_margin_currency := non_blank (ps_ccy p);
        aps_creation_time_ms := non_blank (ps_creation_time p);
        aps_update_time_ms := non_blank (ps_update_time p) |}.

Definition positions_step (acc : list AccountPositionState * gset string) (p : Position)
    : result AccountError (list AccountPositionState * gset string) :=
  let '(normalized, seen) := acc in
  position ← normalize_position p;
  let identity := position_identity position in
  if decide (identity ∈ seen) then Err (DuplicatePosition identity) else
  Ok (normalized ++ [position], {[identity]} ∪ seen).

Definition normalize_positions (positions : list Position)
    : result AccountError (list AccountPositionState) :=
  acc ← try_fold positions_step ([], ∅) positions;
  Ok (sort_by position_sort acc.1).

Definition normalize_order (o : PendingOrder) : result AccountError PendingOrderState :=
  order_id ← required_order "ordId" (po_order_id o);
  instrument_type ← required_order "instType" (po_instrument_type o);
  instrument_id ← required_order "instId" (po_instrument_id o);
  side ← required_order "side" (po_side o);
  trade_mode ← required_order "tdMode" (po_trade_mode o);
  order_type ← required_order "ordType" (po_order_type o);
  size ← required_order "sz" (po_sz o);
  accumulated_fill_size ← required_order "accFillSz" (po_accumulated_fill_size o);
  state ← required_order "state" (po_state o);
  reduce_only ← parse_optional_bool (po_reduce_only o);
  creation_time_ms ← required_order "cTime" (po_creation_time o);
  update_time_ms ← required_order "uTime" (po_update_time o);
  Ok {| pos_order_id := order_id;
        pos_client_order_id := non_blank (po_client_order_id o);
        pos_instrument_type := instrument_type;
        pos_instrument_id := instrument_id;
        pos_side := side;
        pos_position_side := non_blank (po_position_side o);
        pos_trade_mode := trade_mode;
        pos_order_type := order_type;
        pos_price := non_blank (po_px o);
        pos_size := size;
        pos_accumulated_fill_size := accumulated_fill_size;
        pos_average_fill_price := non_blank (po_average_fill_price o);
        pos_state := state;
        pos_reduce_only := reduce_only;
        pos_creation_time_ms := creation_time_ms;
        pos_update_time_ms := update_time_ms |}.

Definition orders_step (acc : list PendingOrderState * gset string) (o : PendingOrder)
    : result AccountError (list PendingOrderState * gset string) :=
  let '(normalized, seen) := acc in
  order ← normalize_order o;
  if decide (pos_order_id order ∈ seen) then Err (DuplicateOrder (pos_order_id order)) else
  Ok (normalized ++ [order], {[pos_order_id order]} ∪ seen).

Definition normalize_orders (orders : list PendingOrder)
    : result AccountError (list PendingOrderState) :=
  acc ← try_fold orders_step ([], ∅) orders;
  Ok (sort_by order_sort acc.1).

(** ** The bootstrap snapshot *)
Definition account_generation_for (s : AccountSnapshot) : result AccountError string :=
  map_err Serialization (digest_json {|
    agi_schema := acs_schema s;
    agi_source := acs_source s;
    agi_quality_reason := acs_quality_reason s;
    agi_private_ws_connected := acs_private_ws_connected s;
    agi_private_ws_generation := acs_private_ws_generation s;
    agi_private_ws_connection_fingerprint := acs_private_ws_connection_fingerprint s;
    agi_account_level := acs_account_level s;
    agi_position_mode := acs_position_mode s;
    agi_account_type := acs_account_type s;
    agi_account_uid_fingerprint := acs_account_uid_fingerprint s;
    agi_api_key_permissions := acs_api_key_permissions s;
    agi_balance := balance_without_time (acs_balance s);
    agi_positions := map position_without_time (acs_positions s);
    agi_pending_orders := map order_without_time (acs_pending_orders s) |}).

Definition with_generation (s : AccountSnapshot) (g : string) : AccountSnapshot := {|
  acs_schema := acs_schema s; acs_source := acs_source s;
  acs_source_received_at := acs_source_received_at s; acs_account_generation := g;
  acs_quality_reason := acs_quality_reason s;
  acs_private_ws_connected := acs_private_ws_connected s;
  acs_private_ws_generation := acs_private_ws_generation s;
  acs_private_ws_connection_fingerprint := acs_private_ws_connection_fingerprint s;
  acs_private_ws_last_inbound_ms := acs_private_ws_last_inbound_ms s;
  acs_private_ws_events_applied := acs_private_ws_events_applied s;
  acs_account_level := acs_account_level s; acs_position_mode := acs_position_mode s;
  acs_account_type := acs_account_type s;
  acs_account_uid_fingerprint := acs_account_uid_fingerprint s;
  acs_api_key_permissions := acs_api_key_permissions s; acs_balance := acs_balance s;
  acs_positions := acs_positions s; acs_pending_orders := acs_pending_orders s |}.

Definition from_rest_bootstrap (source_received_at : string) (config : AccountConfig)
    (balance : BalanceSnapshot) (positions : list Position) (pending_orders : list PendingOrder)
    (api_key_permissions : list string) : result AccountError AccountSnapshot :=
  if is_blank source_received_at then Err EmptySourceTimestamp else
  account_level ← required_config "acctLv" (ac_account_level config);
  position_mode ← required_config "posMode" (ac_position_mode config);
  account_type ← required_config "type" (ac_account_type config);
  uid ← required_config "uid" (ac_uid config);
  balance ← normalize_balance balance;
  positions ← normalize_positions positions;
  orders ← normalize_orders pending_orders;
  let permissions := dedup_by String.eqb (sort_by kcmp api_key_permissions) in
  let snapshot := {|
    acs_schema := ACCOUNT_SNAPSHOT_SCHEMA_V1;
    acs_source := ACCOUNT_REST_SOURCE_V1;
    acs_source_received_at := source_received_at;
    acs_account_generation := "";
    acs_quality_reason := M4_REST_BOOTSTRAP_REASON;
    acs_private_ws_connected := false;
    acs_private_ws_generation := None;
    acs_private_ws_connection_fingerprint := None;
    acs_private_ws_last_inbound_ms := None;
    acs_private_ws_events_applied := None;
    acs_account_level := account_level;
    acs_position_mode := position_mode;
    acs_account_type := account_type;
    acs_account_uid_fingerprint := sha256_hex uid;
    acs_api_key_permissions := permissions;
    acs_balance := balance;
    acs_positions := positions;
    acs_pending_orders := orders |} in
  generation ← account_generation_for snapshot;
  Ok (with_generation snapshot generation).

(** ** Merging private events *)
Definition required_event_timestamp (value : option string) (field : string)
    : result AccountError Z :=
  let value := default "" value in
  ok_or (InvalidTimestamp field value) (parse_u64 value).

Definition timestamp_is_newer_or_equal (incoming current : option string) (field : string)
    : result AccountError bool :=
  incoming ← required_event_timestamp incoming field;
  match current with
  | Some current =>
    if (current =? "")%string then Ok true else
    current ← required_event_timestamp (Some current) field;
    Ok (current <=? incoming)
  | None => Ok true
  end.

(** The body of the loop over the details of [apply_balance_update] *)
Definition merge_detail (details : list AccountBalanceDetail) (detail : AccountBalanceDetail)
    : result AccountError (list AccountBalanceDetail) :=
  match position (λ c, (abd_currency c =? abd_currency detail)%string) details with
  | Some index =>
    newer ← timestamp_is_newer_or_equal (abd_update_time_ms detail)
              (details !! index ≫= abd_update_time_ms) "balance.details.uTime";
    Ok (if newer : bool then <[index := detail]> details else details)
  | None => Ok (details ++ [detail])
  end.

Definition with_details (b : AccountBalanceState) (details : list AccountBalanceDetail)
    : AccountBalanceState := {|
  abs_total_equity_usd := abs_total_equity_usd b;
  abs_adjusted_equity_usd := abs_adjusted_equity_usd b;
  abs_isolated_equity_usd := abs_isolated_equity_usd b;
  abs_initial_margin_requirement_usd := abs_initial_margin_requirement_usd b;
  abs_maintenance_margin_requirement_usd := abs_maintenance_margin_requirement_usd b;
  abs_margin_ratio := abs_margin_ratio b; abs_notional_usd := abs_notional_usd b;
  abs_update_time_ms := abs_update_time_ms b; abs_details := details |}.

Definition apply_balance_update (balance : AccountBalanceState) (update : BalanceSnapshot)
    : result AccountError AccountBalanceState :=
  incoming ← normalize_balance update;
  newer ← timestamp_is_newer_or_equal (abs_update_time_ms incoming) (abs_update_time_ms balance)
            "balance.uTime";
  let balance := if newer : bool then with_details incoming (abs_details balance) else balance in
  details ← try_fold merge_detail (abs_details balance) (abs_details incoming);
  Ok (with_details balance details).

Definition apply_position_update (positions : list AccountPositionState) (update : Position)
    : result AccountError (list AccountPositionState) :=
  incoming ← normalize_position update;
  _ ← required_event_timestamp (aps_update_time_ms incoming) "position.uTime";
  let identity := position_identity incoming in
  match position (λ c, (position_identity c =? identity)%string) positions with
  | Some index =>
    newer ← timestamp_is_newer_or_equal (aps_update_time_ms incoming)
              (positions !! index ≫= aps_update_time_ms) "position.uTime";
    if negb newer then Ok positions else
    Ok (if is_zero_decimal_text (aps_position incoming) then vec_remove index positions
        else <[index := incoming]> positions)
  | None =>
    Ok (if is_zero_decimal_text (aps_position incoming) then positions
        else positions ++ [incoming])
  end.

Definition apply_order_update (orders : list PendingOrderState) (update : PendingOrder)
    : result AccountError (list PendingOrderState) :=
  incoming ← normalize_order update;
  _ ← required_event_timestamp (Some (pos_update_time_ms incoming)) "order.uTime";
  match position (λ c, (pos_order_id c =? pos_order_id incoming)%string) orders with
  | Some index =>
    newer ← timestamp_is_newer_or_equal (Some (pos_update_time_ms incoming))
              (pos_update_time_ms <$> orders !! index) "order.uTime";
    if negb newer then Ok orders else
    Ok (if is_terminal_order_state (pos_state incoming) then vec_remove index orders
        else <[index := incoming]> orders)
  | None =>
    Ok (if is_terminal_order_state (pos_state incoming) then orders else orders ++ [incoming])
  end.

(** The part of a snapshot that events change *)
Record AccountBook : Type := {
  bk_balance : AccountBalanceState;
  bk_positions : list AccountPositionState;
  bk_orders : list PendingOrderState;
}.

Definition apply_event (b : AccountBook) (event : AccountWsEvent)
    : result AccountError AccountBook :=
  match event with
  | EvAccount updates =>
    balance ← try_fold apply_balance_update (bk_balance b) updates;
    Ok {| bk_balance := balance; bk_positions := bk_positions b; bk_orders := bk_orders b |}
  | EvPositions updates =>
    positions ← try_fold apply_position_update (bk_positions b) updates;
    Ok {| bk_balance := bk_balance b; bk_positions := positions; bk_orders := bk_orders b |}
  | EvOrders updates =>
    orders ← try_fold apply_order_update (bk_orders b) updates;
    Ok {| bk_balance := bk_balance b; bk_positions := bk_positions b; bk_orders := orders |}
  end.

Definition converge_private_ws (self : AccountSnapshot) (private_ws_generation : Z)
    (private_ws_connection_fingerprint : string) (private_ws_last_inbound_ms : Z)
    (events : list AccountWsEvent) : result AccountError AccountSnapshot :=
  book ← try_fold apply_event {| bk_balance := acs_balance self;
                                 bk_positions := acs_positions self;
                                 bk_orders := acs_pending_orders self |} events;
  if is_blank private_ws_connection_fingerprint
  then Err MissingPrivateConnectionFingerprint else
  let snapshot := {|
    acs_schema := ACCOUNT_SNAPSHOT_SCHEMA_V2;
    acs_source := ACCOUNT_CONVERGED_SOURCE_V2;
    acs_source_received_at := acs_source_received_at self;
    acs_account_generation := acs_account_generation self;
    acs_quality_reason := M4_REST_WS_CONVERGED_REASON;
    acs_private_ws_connected := true;
    acs_private_ws_generation := Some private_ws_generation;
    acs_private_ws_connection_fingerprint := Some private_ws_connection_fingerprint;
    acs_private_ws_last_inbound_ms := Some private_ws_last_inbound_ms;
    acs_private_ws_events_applied := Some (Z.of_nat (length events));
    acs_account_level := acs_account_level self;
    acs_position_mode := acs_position_mode self;
    acs_account_type := acs_account_type self;
    acs_account_uid_fingerprint := acs_account_uid_fingerprint self;
    acs_api_key_permissions := acs_api_key_permissions self;
    acs_balance := with_details (bk_balance book)
                     (sort_by detail_sort (abs_details (bk_balance book)));
    acs_positions := sort_by position_sort (bk_positions book);
    acs_pending_orders := sort_by order_sort (bk_orders book) |} in
  generation ← account_generation_for snapshot;
  Ok (with_generation snapshot generation).
End account.

(** ** Specification: what a sequence of events does to one identity *)
Section spec.
Context `{Hashing} `{!Serialize AccountGenerationInput}.

(** An update of time [incoming] supersedes a record of time [current]. *)
Definition newer (incoming current : option string) : bool :=
  match current with
  | None => true
  | Some c =>
    if (c =? "")%string then true else
    match parse_u64 (default "" incoming), parse_u64 c with
    | Some i, Some c => c <=? i
    | _, _ => false
    end
  end.

Definition order_next (current : option PendingOrderState) (o : PendingOrderState)
    : option PendingOrderState :=
  upsert_next (λ c, newer (Some (pos_update_time_ms o)) (Some (pos_update_time_ms c)))
    (is_terminal_order_state (pos_state o)) o current.

Definition position_next (current : option AccountPositionState) (p : AccountPositionState)
    : option AccountPositionState :=
  upsert_next (λ c, newer (aps_update_time_ms p) (aps_update_time_ms c))
    (is_zero_decimal_text (aps_position p)) p current.

Definition detail_next (current : option AccountBalanceDetail) (d : AccountBalanceDetail)
    : option AccountBalanceDetail :=
  upsert_next (λ c, newer (abd_update_time_ms d) (abd_update_time_ms c)) false d current.

Definition to_option {E A} (r : result E A) : option A :=
  match r with Ok a => Some a | Err _ => None end.

(** The updates of each kind that a sequence of events carries, in order *)
Definition order_updates (events : list AccountWsEvent) : list PendingOrder :=
  concat (map (λ e, match e with EvOrders us => us | _ => [] end) events).
Definition position_updates (events : list AccountWsEvent) : list Position :=
  concat (map (λ e, match e with EvPositions us => us | _ => [] end) events).
Definition balance_updates (events : list AccountWsEvent) : list BalanceSnapshot :=
  concat (map (λ e, match e with EvAccount us => us | _ => [] end) events).

(** A snapshot decisions may rely on *)
Record account_wf (s : AccountSnapshot) : Prop := {
  wf_details : distinct abd_currency (abs_details (acs_balance s));
  wf_details_sorted :
    StronglySorted (λ a b, kcmp (abd_currency a) (abd_currency b) = Lt)
      (abs_details (acs_balance s));
  wf_positions : distinct position_identity (acs_positions s);
  wf_positions_sorted : StronglySorted (not_gt position_sort) (acs_positions s);
  wf_orders : distinct pos_order_id (acs_pending_orders s);
  wf_orders_sorted :
    StronglySorted (λ a b, kcmp (pos_order_id a) (pos_order_id b) = Lt) (acs_pending_orders s);
  wf_generation : account_generation_for s = Ok (acs_account_generation s);
}.

(** ** Facts *)
Lemma timestamp_newer i c f b : timestamp_is_newer_or_equal i c f = Ok b → b = newer i c.
Proof.
  unfold timestamp_is_newer_or_equal, newer, required_event_timestamp. intros E.
  apply bind_ok in E as (t & Ht%ok_or_ok & E). destruct c as [c|]; [|congruence].
  destruct (c =? "")%string; [congruence|].
  apply bind_ok in E as (t' & Ht'%ok_or_ok & E). simpl in Ht'. rewrite Ht, Ht'. congruence.
Qed.

Lemma order_merge :
  MergeSpec pos_order_id apply_order_update (λ u, to_option (normalize_order u)) order_next.
Proof.
  intros l u l' Hd E. unfold apply_order_update in E.
  apply bind_ok in E as (o & Ho & E). apply bind_ok in E as (t & _ & E).
  exists o. rewrite Ho. split; [done|].
  destruct (position _ l) as [i|] eqn:Hp.
  - destruct (position_key_lookup pos_order_id _ _ _ Hd Hp) as (c & Hi & Hc). rewrite Hi in E.
    apply bind_ok in E as (b & Hb%timestamp_newer & E).
    assert (l' = upsert pos_order_id b (is_terminal_order_state (pos_state o)) o l) as ->.
    { unfold upsert. rewrite Hp. by destruct b; injection E. }
    apply upsert_keyed; [done|]. intros c' Hc'. rewrite Hc in Hc'. by injection Hc' as <-.
  - assert (l' = upsert pos_order_id false (is_terminal_order_state (pos_state o)) o l) as ->.
    { unfold upsert. rewrite Hp. by injection E. }
    apply position_key_None in Hp. apply upsert_keyed; [done|]. intros c' Hc'. congruence.
Qed.

Lemma position_merge :
  MergeSpec position_identity apply_position_update (λ u, to_option (normalize_position u))
    position_next.
Proof.
  intros l u l' Hd E. unfold apply_position_update in E.
  apply bind_ok in E as (o & Ho & E). apply bind_ok in E as (t & _ & E).
  exists o. rewrite Ho. split; [done|].
  destruct (position _ l) as [i|] eqn:Hp.
  - destruct (position_key_lookup position_identity _ _ _ Hd Hp) as (c & Hi & Hc). rewrite Hi in E.
    apply bind_ok in E as (b & Hb%timestamp_newer & E).
    assert (l' = upsert position_identity b (is_zero_decimal_text (aps_position o)) o l) as ->.
    { unfold upsert. rewrite Hp. by destruct b; injection E. }
    apply upsert_keyed; [done|]. intros c' Hc'. rewrite Hc in Hc'. by injection Hc' as <-.
  - assert (l' = upsert position_identity false (is_zero_decimal_text (aps_position o)) o l) as ->.
    { unfold upsert. rewrite Hp. by injection E. }
    apply position_key_None in Hp. apply upsert_keyed; [done|]. intros c' Hc'. congruence.
Qed.

Lemma detail_merge : MergeSpec abd_currency merge_detail Some detail_next.
Proof.
  intros l d l' Hd E. unfold merge_detail in E. exists d. split; [done|].
  destruct (position _ l) as [i|] eqn:Hp.
  - destruct (position_key_lookup abd_currency _ _ _ Hd Hp) as (c & Hi & Hc). rewrite Hi in E.
    apply bind_ok in E as (b & Hb%timestamp_newer & E).
    assert (l' = upsert abd_currency b false d l) as ->.
    { unfold upsert. rewrite Hp. by destruct b; injection E. }
    apply upsert_keyed; [done|]. intros c' Hc'. rewrite Hc in Hc'. by injection Hc' as <-.
  - assert (l' = upsert abd_currency false false d l) as ->.
    { unfold upsert. rewrite Hp. by injection E. }
    apply position_key_None in Hp. apply upsert_keyed; [done|]. intros c' Hc'. congruence.
Qed.
End spec.

(** ** Theorems *)
Section theorems.
Context `{Hashing} `{!Serialize AccountGenerationInput}.

(** The collecting loops keep the normalized records in order. *)
Lemma balance_loop ds acc :
  try_fold balance_step ([], ∅) ds = Ok acc →
  collected abd_currency acc.1 acc.2 ∧
  try_map (λ d, currency ← required_balance_detail "ccy" (bd_ccy d); normalize_detail currency d) ds
    = Ok acc.1.
Proof.
  intros Hf. apply (try_fold_prefix (λ ds acc, collected abd_currency acc.1 acc.2 ∧
    try_map (λ d, currency ← required_balance_detail "ccy" (bd_ccy d); normalize_detail currency d)
      ds = Ok acc.1)) in Hf; [done|split; [apply collected_nil|done]|].
  intros l [a s] d [a' s'] [Hc Hm] E. unfold balance_step in E.
  apply bind_ok in E as (c & Hcur & E). case_decide as Hn; [done|].
  apply bind_ok in E as (x & Hx & [= <- <-]). simpl in *.
  assert (abd_currency x = c) as Hk.
  { unfold normalize_detail in Hx. apply bind_ok in Hx as (e & _ & [= <-]). done. }
  split; [rewrite <- Hk; apply collected_snoc; [done|by rewrite Hk]|].
  apply try_map_Forall2. apply try_map_Forall2 in Hm. apply Forall2_app; [done|].
  constructor; [|constructor]. by rewrite Hcur.
Qed.

Lemma positions_loop ps acc :
  try_fold positions_step ([], ∅) ps = Ok acc →
  collected position_identity acc.1 acc.2 ∧ try_map normalize_position ps = Ok acc.1.
Proof.
  intros Hf. apply (try_fold_prefix (λ ps acc, collected position_identity acc.1 acc.2 ∧
    try_map normalize_position ps = Ok acc.1)) in Hf; [done|split; [apply collected_nil|done]|].
  intros l [a s] d [a' s'] [Hc Hm] E. unfold positions_step in E.
  apply bind_ok in E as (x & Hx & E). case_decide as Hn; [done|]. injection E as <- <-.
  simpl in *. split; [by apply collected_snoc|].
  apply try_map_Forall2. apply try_map_Forall2 in Hm. apply Forall2_app; [done|].
  by constructor; [|constructor].
Qed.

Lemma orders_loop os acc :
  try_fold orders_step ([], ∅) os = Ok acc →
  collected pos_order_id acc.1 acc.2 ∧ try_map normalize_order os = Ok acc.1.
Proof.
  intros Hf. apply (try_fold_prefix (λ os acc, collected pos_order_id acc.1 acc.2 ∧
    try_map normalize_order os = Ok acc.1)) in Hf; [done|split; [apply collected_nil|done]|].
  intros l [a s] d [a' s'] [Hc Hm] E. unfold orders_step in E.
  apply bind_ok in E as (x & Hx & E). case_decide as Hn; [done|]. injection E as <- <-.
  simpl in *. split; [by apply collected_snoc|].
  apply try_map_Forall2. apply try_map_Forall2 in Hm. apply Forall2_app; [done|].
  by constructor; [|constructor].
Qed.

Lemma normalize_balance_details b s :
  normalize_balance b = Ok s →
  ∃ raw, distinct abd_currency raw ∧ abs_details s = sort_by detail_sort raw ∧
    try_map (λ d, currency ← required_balance_detail "ccy" (bd_ccy d); normalize_detail currency d)
      (bs_details b) = Ok raw.
Proof.
  unfold normalize_balance. intros E. apply bind_ok in E as (acc & Hacc & E).
  apply bind_ok in E as (t & _ & [= <-]). apply balance_loop in Hacc as [[Hd _] Hm].
  by exists acc.1.
Qed.

Lemma normalize_positions_ok ps l :
  normalize_positions ps = Ok l →
  ∃ raw, distinct position_identity raw ∧ l = sort_by position_sort raw ∧
         try_map normalize_position ps = Ok raw.
Proof.
  unfold normalize_positions. intros E. apply bind_ok in E as (acc & Hacc & [= <-]).
  apply positions_loop in Hacc as [[Hd _] Hm]. by exists acc.1.
Qed.

Lemma normalize_orders_ok os l :
  normalize_orders os = Ok l →
  ∃ raw, distinct pos_order_id raw ∧ l = sort_by order_sort raw ∧
         try_map normalize_order os = Ok raw.
Proof.
  unfold normalize_orders. intros E. apply bind_ok in E as (acc & Hacc & [= <-]).
  apply orders_loop in Hacc as [[Hd _] Hm]. by exists acc.1.
Qed.

(** Sorting a list of distinct records gives a well-formed part of a snapshot. *)
Lemma sorted_parts ds ps os :
  distinct abd_currency ds → distinct position_identity ps → distinct pos_order_id os →
  (distinct abd_currency (sort_by detail_sort ds) ∧
   StronglySorted (λ a b, kcmp (abd_currency a) (abd_currency b) = Lt) (sort_by detail_sort ds)) ∧
  (distinct position_identity (sort_by position_sort ps) ∧
   StronglySorted (not_gt position_sort) (sort_by position_sort ps)) ∧
  (distinct pos_order_id (sort_by order_sort os) ∧
   StronglySorted (λ a b, kcmp (pos_order_id a) (pos_order_id b) = Lt) (sort_by order_sort os)).
Proof.
  intros Hd Hp Ho. split_and!.
  - by apply (sort_keyed _ _ _ "").
  - by apply sort_by_key_strict.
  - by apply (sort_keyed _ _ _ "").
  - exact (sort_by_key_sorted position_key ps).
  - by apply (sort_keyed _ _ _ "").
  - by apply sort_by_key_strict.
Qed.

Lemma generation_with s g : account_generation_for (with_generation s g) = account_generation_for s.
Proof. done. Qed.

Lemma normalize_balance_distinct b s :
  normalize_balance b = Ok s → distinct abd_currency (abs_details s).
Proof.
  intros (raw & Hd & -> & _)%normalize_balance_details. by apply (sort_keyed _ _ _ "").
Qed.

(** A balance message: every currency it lists is merged, the others stay. *)
Definition balance_details (u : BalanceSnapshot) : list AccountBalanceDetail :=
  match normalize_balance u with Ok b => abs_details b | Err _ => [] end.

Lemma apply_balance_merge b u b' :
  distinct abd_currency (abs_details b) → apply_balance_update b u = Ok b' →
  distinct abd_currency (abs_details b') ∧
  ∀ k, klookup abd_currency (abs_details b') k =
       foldl detail_next (klookup abd_currency (abs_details b) k)
         (updates_of abd_currency Some k (balance_details u)).
Proof.
  intros Hd E. unfold apply_balance_update in E. apply bind_ok in E as (i & Hi & E).
  apply bind_ok in E as (n & _ & E). apply bind_ok in E as (ds & Hds & [= <-]).
  unfold balance_details. rewrite Hi. simpl.
  eapply merge_fold; [apply detail_merge|done|]. by destruct n.
Qed.

Lemma balances_merge us b b' :
  distinct abd_currency (abs_details b) → try_fold apply_balance_update b us = Ok b' →
  distinct abd_currency (abs_details b') ∧
  ∀ k, klookup abd_currency (abs_details b') k =
       foldl detail_next (klookup abd_currency (abs_details b) k)
         (updates_of abd_currency Some k (concat (map balance_details us))).
Proof.
  revert b. induction us as [|u us IH]; intros b Hd E; [by injection E as <-|].
  simpl in E. apply bind_ok in E as (b1 & H1 & E).
  destruct (apply_balance_merge _ _ _ Hd H1) as [Hd1 Hl1]. destruct (IH b1 Hd1 E) as [Hd' Hl'].
  split; [done|]. intros k. rewrite Hl', Hl1. simpl. unfold updates_of.
  by rewrite omap_app, filter_app, foldl_app.
Qed.

(** The events act on the three parts of the book independently. *)
Lemma events_split events b b' :
  try_fold apply_event b events = Ok b' →
  try_fold apply_balance_update (bk_balance b) (balance_updates events) = Ok (bk_balance b') ∧
  try_fold apply_position_update (bk_positions b) (position_updates events) = Ok (bk_positions b') ∧
  try_fold apply_order_update (bk_orders b) (order_updates events) = Ok (bk_orders b').
Proof.
  revert b. induction events as [|e events IH]; intros b E; [by injection E as <-|].
  cbn [try_fold] in E. apply bind_ok in E as (b1 & H1 & E).
  destruct (IH b1 E) as (Hb & Hp & Ho).
  unfold balance_updates, position_updates, order_updates in *. cbn [map concat].
  rewrite !try_fold_app. unfold apply_event in H1.
  destruct e as [us|us|us]; apply bind_ok in H1 as (x & Hx & [= <-]); simpl in *;
    rewrite Hx; simpl; done.
Qed.

Lemma converge_cases self g fp last events s' :
  converge_private_ws self g fp last events = Ok s' →
  ∃ book, is_blank fp = false ∧
    try_fold apply_event {| bk_balance := acs_balance self; bk_positions := acs_positions self;
                            bk_orders := acs_pending_orders self |} events = Ok book ∧
    abs_details (acs_balance s') = sort_by detail_sort (abs_details (bk_balance book)) ∧
    acs_positions s' = sort_by position_sort (bk_positions book) ∧
    acs_pending_orders s' = sort_by order_sort (bk_orders book) ∧
    account_generation_for s' = Ok (acs_account_generation s').
Proof.
  unfold converge_private_ws. intros E. apply bind_ok in E as (book & Hbook & E).
  destruct (is_blank fp) eqn:Hfp; [done|]. apply bind_ok in E as (gen & Hgen & [= <-]).
  exists book. split_and!; try done.
Qed.

(** What convergence leaves in each list, before sorting *)
Lemma converge_parts self g fp last events s' :
  distinct abd_currency (abs_details (acs_balance self)) →
  distinct position_identity (acs_positions self) →
  distinct pos_order_id (acs_pending_orders self) →
  converge_private_ws self g fp last events = Ok s' →
  (∀ k, klookup abd_currency (abs_details (acs_balance s')) k =
        foldl detail_next (klookup abd_currency (abs_details (acs_balance self)) k)
          (updates_of abd_currency Some k (concat (map balance_details (balance_updates events))))) ∧
  (∀ k, klookup position_identity (acs_positions s') k =
        foldl position_next (klookup position_identity (acs_positions self) k)
          (updates_of position_identity (λ u, to_option (normalize_position u)) k
             (position_updates events))) ∧
  (∀ k, klookup pos_order_id (acs_pending_orders s') k =
        foldl order_next (klookup pos_order_id (acs_pending_orders self) k)
          (updates_of pos_order_id (λ u, to_option (normalize_order u)) k
             (order_updates events))) ∧
  account_wf s'.
Proof.
  intros Hd Hp Ho (book & _ & Hb & Ed & Ep & Eo & Eg)%converge_cases.
  apply events_split in Hb as (Hb & Hpos & Hord). simpl in Hb, Hpos, Hord.
  destruct (balances_merge _ _ _ Hd Hb) as [Hd' Ld].
  destruct (merge_fold _ _ _ _ _ _ _ position_merge Hp Hpos) as [Hp' Lp].
  destruct (merge_fold _ _ _ _ _ _ _ order_merge Ho Hord) as [Ho' Lo].
  destruct (sorted_parts _ _ _ Hd' Hp' Ho') as ([??] & [??] & [??]).
  rewrite Ed, Ep, Eo. split_and!.
  - intros k. by rewrite (proj2 (sort_keyed _ _ _ k Hd')), Ld.
  - intros k. by rewrite (proj2 (sort_keyed _ _ _ k Hp')), Lp.
  - intros k. by rewrite (proj2 (sort_keyed _ _ _ k Ho')), Lo.
  - split; rewrite ?Ed, ?Ep, ?Eo; done.
Qed.

(** The snapshots the code can hold *)
Inductive account_reachable : AccountSnapshot → Prop :=
| reach_bootstrap ts config b ps os perms s :
    from_rest_bootstrap ts config b ps os perms = Ok s → account_reachable s
| reach_converge s g fp last events s' :
    account_reachable s → converge_private_ws s g fp last events = Ok s' → account_reachable s'.

Lemma bootstrap_cases ts config b ps os perms s :
  from_rest_bootstrap ts config b ps os perms = Ok s →
  normalize_balance b = Ok (acs_balance s) ∧ normalize_positions ps = Ok (acs_positions s) ∧
  normalize_orders os = Ok (acs_pending_orders s) ∧
  account_generation_for s = Ok (acs_account_generation s) ∧
  acs_account_uid_fingerprint s = sha256_hex (ac_uid config).
Proof.
  unfold from_rest_bootstrap. destruct (is_blank ts); [done|]. intros E.
  apply bind_ok in E as (? & _ & E). apply bind_ok in E as (? & _ & E).
  apply bind_ok in E as (? & _ & E). apply bind_ok in E as (uid & Huid & E).
  apply bind_ok in E as (? & Hb & E). apply bind_ok in E as (? & Hp & E).
  apply bind_ok in E as (? & Ho & E). apply bind_ok in E as (gen & Hg & [= <-]).
  split_and!; try done. unfold required_config, required_as in Huid.
  destruct (is_blank _); [done|]. by injection Huid as <-.
Qed.

(** the account invariant.  In every snapshot that a bootstrap builds and any sequence
    of convergences leads to, currencies, position identities and order ids are distinct,
    balances and orders are strictly ordered by them, positions ordered by their key, and
    the generation is the digest of the contents. *)
Theorem account_reachable_wf s : account_reachable s → account_wf s.
Proof.
  induction 1 as [ts config b ps os perms s E|s g fp last events s' _ IH E].
  - apply bootstrap_cases in E as (Hb & Hp & Ho & Hg & _).
    apply normalize_balance_details in Hb as (rb & Hdb & Eb & _).
    apply normalize_positions_ok in Hp as (rp & Hdp & Ep & _).
    apply normalize_orders_ok in Ho as (ro & Hdo & Eo & _).
    destruct (sorted_parts _ _ _ Hdb Hdp Hdo) as ([??] & [??] & [??]).
    split; rewrite ?Eb, ?Ep, ?Eo; done.
  - by eapply converge_parts; [apply IH|apply IH|apply IH|exact E].
Qed.

(** C40: convergence is a merge by identity.  An accepted convergence leaves, for every
    currency, position identity and order id, what its record becomes under the events of
    that identity alone, taken in order: an absent record is created unless the event
    closes it (zero position, terminal order), a present one yields to an event that is
    not older, and older events change nothing. *)
Theorem converge_merges self g fp last events s' :
  account_wf self → converge_private_ws self g fp last events = Ok s' →
  (∀ k, klookup abd_currency (abs_details (acs_balance s')) k =
        foldl detail_next (klookup abd_currency (abs_details (acs_balance self)) k)
          (updates_of abd_currency Some k (concat (map balance_details (balance_updates events))))) ∧
  (∀ k, klookup position_identity (acs_positions s') k =
        foldl position_next (klookup position_identity (acs_positions self) k)
          (updates_of position_identity (λ u, to_option (normalize_position u)) k
             (position_updates events))) ∧
  (∀ k, klookup pos_order_id (acs_pending_orders s') k =
        foldl order_next (klookup pos_order_id (acs_pending_orders self) k)
          (updates_of pos_order_id (λ u, to_option (normalize_order u)) k
             (order_updates events))).
Proof.
  intros Hwf E.
  destruct (converge_parts self g fp last events s') as (? & ? & ? & _); [apply Hwf..|exact E|].
  done.
Qed.

Lemma timestamp_self v f t :
  required_event_timestamp (Some v) f = Ok t →
  timestamp_is_newer_or_equal (Some v) (Some v) f = Ok true.
Proof.
  intros E. unfold timestamp_is_newer_or_equal. rewrite E. simpl.
  destruct (v =? "")%string; [done|]. by rewrite Z.leb_refl.
Qed.

(** An accepted order update is an [upsert], and says when it took effect. *)
Lemma apply_order_upsert l u l' :
  apply_order_update l u = Ok l' →
  ∃ o t b, normalize_order u = Ok o ∧
    required_event_timestamp (Some (pos_update_time_ms o)) "order.uTime" = Ok t ∧
    l' = upsert pos_order_id b (is_terminal_order_state (pos_state o)) o l ∧
    (b = true ∨ position (λ c, (pos_order_id c =? pos_order_id o)%string) l = None ∨ l' = l).
Proof.
  unfold apply_order_update. intros E. apply bind_ok in E as (o & Ho & E).
  apply bind_ok in E as (t & Ht & E). exists o, t.
  destruct (position _ l) as [i|] eqn:Hp.
  - apply bind_ok in E as (b & _ & E). exists b. unfold upsert. rewrite Hp.
    destruct b; injection E as <-; split_and!; auto.
  - exists false. unfold upsert. rewrite Hp. injection E as <-. split_and!; auto.
Qed.

Lemma apply_position_upsert l u l' :
  apply_position_update l u = Ok l' →
  ∃ p v t b, normalize_position u = Ok p ∧ aps_update_time_ms p = Some v ∧
    required_event_timestamp (Some v) "position.uTime" = Ok t ∧
    l' = upsert position_identity b (is_zero_decimal_text (aps_position p)) p l ∧
    (b = true ∨ position (λ c, (position_identity c =? position_identity p)%string) l = None
     ∨ l' = l).
Proof.
  unfold apply_position_update. intros E. apply bind_ok in E as (o & Ho & E).
  apply bind_ok in E as (t & Ht & E). exists o.
  destruct (aps_update_time_ms o) as [v|] eqn:Hv; [|done]. exists v, t.
  destruct (position _ l) as [i|] eqn:Hp.
  - apply bind_ok in E as (b & _ & E). exists b. unfold upsert. rewrite Hp.
    destruct b; injection E as <-; split_and!; auto.
  - exists false. unfold upsert. rewrite Hp. injection E as <-. split_and!; auto.
Qed.

(** redelivery is harmless.  An order or position update that was accepted is accepted
    again and changes nothing, whether it replaced, closed, created or was ignored. *)
Theorem redelivery_idempotent orders positions (uo : PendingOrder) (up : Position) :
  distinct pos_order_id orders → distinct position_identity positions →
  (∀ l', apply_order_update orders uo = Ok l' → apply_order_update l' uo = Ok l') ∧
  (∀ l', apply_position_update positions up = Ok l' → apply_position_update l' up = Ok l').
Proof.
  intros Ho Hp. split; intros l' E.
  - destruct (apply_order_upsert _ _ _ E) as (o & t & b & Hn & Ht & Hu & Hb).
    destruct Hb as [Hb|[Hb|Hb]]; [| |by rewrite Hb at 1; rewrite E, Hb].
    all: unfold apply_order_update; rewrite Hn; simpl; rewrite Ht; simpl;
      destruct (is_terminal_order_state (pos_state o)).
    1,3: rewrite Hu at 1; rewrite upsert_closed_absent by auto; done.
    all: destruct (upsert_open_found pos_order_id orders b o) as (i & Hi & Hl); [by auto|];
      rewrite <- Hu in Hi, Hl; rewrite Hi, Hl; simpl; rewrite (timestamp_self _ _ _ Ht); simpl;
      by rewrite list_insert_id.
  - destruct (apply_position_upsert _ _ _ E) as (o & v & t & b & Hn & Hv & Ht & Hu & Hb).
    destruct Hb as [Hb|[Hb|Hb]]; [| |by rewrite Hb at 1; rewrite E, Hb].
    all: unfold apply_position_update; rewrite Hn; simpl; rewrite Hv, Ht; simpl;
      destruct (is_zero_decimal_text (aps_position o)).
    1,3: rewrite Hu at 1; rewrite upsert_closed_absent by auto; done.
    all: destruct (upsert_open_found position_identity positions b o) as (i & Hi & Hl); [by auto|];
      rewrite <- Hu in Hi, Hl; rewrite Hi, Hl; simpl; rewrite Hv, (timestamp_self _ _ _ Ht); simpl;
      by rewrite list_insert_id.
Qed.

(** ** Inputs up to their timestamps *)
Definition untimed_detail (x : BalanceDetail) : BalanceDetail := {|
  bd_liabilities := bd_liabilities x; bd_ccy := bd_ccy x; bd_equity := bd_equity x;
  bd_cash_balance := bd_cash_balance x; bd_available_equity := bd_available_equity x;
  bd_available_balance := bd_available_balance x; bd_frozen_balance := bd_frozen_balance x;
  bd_equity_usd := bd_equity_usd x; bd_unrealized_pnl := bd_unrealized_pnl x;
  bd_update_time := "" |}.

Definition untimed_balance (x : BalanceSnapshot) : BalanceSnapshot := {|
  bs_total_equity := bs_total_equity x; bs_adjusted_equity := bs_adjusted_equity x;
  bs_isolated_equity := bs_isolated_equity x;
  bs_initial_margin_requirement := bs_initial_margin_requirement x;
  bs_maintenance_margin_requirement := bs_maintenance_margin_requirement x;
  bs_margin_ratio := bs_margin_ratio x; bs_notional_usd := bs_notional_usd x;
  bs_update_time := ""; bs_details := map untimed_detail (bs_details x) |}.

Definition untimed_position (x : Position) : Position := {|
  ps_instrument_type := ps_instrument_type x; ps_instrument_id := ps_instrument_id x;
  ps_pos := ps_pos x; ps_position_side := ps_position_side x; ps_margin_mode := ps_margin_mode x;
  ps_average_price := ps_average_price x; ps_mark_price := ps_mark_price x;
  ps_liquidation_price := ps_liquidation_price x; ps_unrealized_pnl := ps_unrealized_pnl x;
  ps_unrealized_pnl_ratio := ps_unrealized_pnl_ratio x; ps_lever := ps_lever x;
  ps_margin := ps_margin x; ps_initial_margin_requirement := ps_initial_margin_requirement x;
  ps_maintenance_margin_requirement := ps_maintenance_margin_requirement x;
  ps_margin_ratio := ps_margin_ratio x; ps_notional_usd := ps_notional_usd x; ps_ccy := ps_ccy x;
  ps_creation_time := ""; ps_update_time := "" |}.

Definition untimed_order (x : PendingOrder) : PendingOrder := {|
  po_instrument_type := po_instrument_type x; po_instrument_id := po_instrument_id x;
  po_order_id := po_order_id x; po_client_order_id := po_client_order_id x; po_side := po_side x;
  po_position_side := po_position_side x; po_trade_mode := po_trade_mode x;
  po_order_type := po_order_type x; po_px := po_px x; po_sz := po_sz x;
  po_accumulated_fill_size := po_accumulated_fill_size x;
  po_average_fill_price := po_average_fill_price x; po_state := po_state x;
  po_reduce_only := po_reduce_only x; po_creation_time := ""; po_update_time := "" |}.

(** What a collecting loop keeps depends on the inputs only through [f]. *)
Lemma try_map_rel {U A B} (norm : U → result AccountError A) (g : U → U) (f : A → B) us us' l l' :
  (∀ u u' x x', g u = g u' → norm u = Ok x → norm u' = Ok x' → f x = f x') →
  map g us = map g us' → try_map norm us = Ok l → try_map norm us' = Ok l' → map f l = map f l'.
Proof.
  intros Hf. revert us' l l'. induction us as [|u us IH]; intros [|u' us'] l l'; simpl; try done.
  - by intros _ [= <-] [= <-].
  - intros [= Hu Hus] E E'. apply bind_ok in E as (x & Hx & E).
    apply bind_ok in E as (xs & Hxs & [= <-]). apply bind_ok in E' as (x' & Hx' & E').
    apply bind_ok in E' as (xs' & Hxs' & [= <-]). simpl. f_equal; [by eapply Hf|by eapply IH].
Qed.

Lemma required_value e f v x : required_as e f v = Ok x → x = v.
Proof. unfold required_as. destruct (is_blank v); [done|]. by intros [= <-]. Qed.

(** Peel a normalization that succeeded, every field being its own input. *)
Ltac peel E :=
  repeat (apply bind_ok in E as (? & ?%required_value & E); subst).

Lemma untimed_detail_ok d d' x x' :
  untimed_detail d = untimed_detail d' →
  (currency ← required_balance_detail "ccy" (bd_ccy d); normalize_detail currency d) = Ok x →
  (currency ← required_balance_detail "ccy" (bd_ccy d'); normalize_detail currency d') = Ok x' →
  detail_without_time x = detail_without_time x'.
Proof.
  destruct d, d'. intros [= ] E E'. subst. unfold normalize_detail in *. simpl in *.
  peel E. peel E'. injection E as <-. by injection E' as <-.
Qed.

Lemma untimed_position_ok p p' x x' :
  untimed_position p = untimed_position p' →
  normalize_position p = Ok x → normalize_position p' = Ok x' →
  position_without_time x = position_without_time x'.
Proof.
  destruct p, p'. intros [= ] E E'. subst. unfold normalize_position in *. simpl in *.
  peel E. peel E'. injection E as <-. by injection E' as <-.
Qed.

Lemma untimed_order_ok o o' x x' :
  untimed_order o = untimed_order o' →
  normalize_order o = Ok x → normalize_order o' = Ok x' →
  order_without_time x = order_without_time x'.
Proof.
  destruct o, o'. intros [= ] E E'. subst. unfold normalize_order in *. simpl in *.
  peel E. peel E'.
  apply bind_ok in E as (r & Hr & E). apply bind_ok in E' as (r' & Hr' & E').
  rewrite Hr in Hr'. injection Hr' as ->. peel E. peel E'. injection E as <-. by injection E' as <-.
Qed.

Lemma untimed_balance_ok b b' x x' :
  untimed_balance b = untimed_balance b' →
  normalize_balance b = Ok x → normalize_balance b' = Ok x' →
  balance_without_time x = balance_without_time x'.
Proof.
  intros Hb E E'.
  destruct (normalize_balance_details _ _ E) as (raw & _ & Hd & Hm).
  destruct (normalize_balance_details _ _ E') as (raw' & _ & Hd' & Hm').
  assert (map untimed_detail (bs_details b) = map untimed_detail (bs_details b')) as Hds
    by (by destruct b, b'; injection Hb).
  pose proof (try_map_rel _ _ detail_without_time _ _ _ _ untimed_detail_ok Hds Hm Hm') as Hraw.
  assert (map detail_without_time (abs_details x) = map detail_without_time (abs_details x')) as Hx.
  { rewrite Hd, Hd', !(sort_by_map detail_without_time detail_sort detail_sort) by done.
    by rewrite Hraw. }
  unfold normalize_balance in E, E'. apply bind_ok in E as (a & _ & E).
  apply bind_ok in E' as (a' & _ & E'). peel E. peel E'.
  injection E as <-. injection E' as <-. unfold balance_without_time. simpl in *.
  rewrite Hx. destruct b, b'. simpl in *. by injection Hb as -> -> -> -> -> -> -> _.
Qed.

Lemma untimed_lists_ok ps ps' os os' xs xs' ys ys' :
  map untimed_position ps = map untimed_position ps' → map untimed_order os = map untimed_order os' →
  normalize_positions ps = Ok xs → normalize_positions ps' = Ok xs' →
  normalize_orders os = Ok ys → normalize_orders os' = Ok ys' →
  map position_without_time xs = map position_without_time xs' ∧
  map order_without_time ys = map order_without_time ys'.
Proof.
  intros Hp Ho (r1 & _ & -> & H1)%normalize_positions_ok (r2 & _ & -> & H2)%normalize_positions_ok
    (r3 & _ & -> & H3)%normalize_orders_ok (r4 & _ & -> & H4)%normalize_orders_ok.
  rewrite !(sort_by_map position_without_time position_sort position_sort) by done.
  rewrite !(sort_by_map order_without_time order_sort order_sort) by done.
  by rewrite (try_map_rel _ _ position_without_time _ _ _ _ untimed_position_ok Hp H1 H2),
    (try_map_rel _ _ order_without_time _ _ _ _ untimed_order_ok Ho H3 H4).
Qed.

(** the account generation identifies contents, not times.  Two bootstraps of the same
    account whose inputs agree in everything but their timestamps (creation and update times
    of balances, positions and orders, and the receipt time) get the same generation. *)
Theorem account_generation_untimed ts ts' config b b' ps ps' os os' perms s s' :
  untimed_balance b = untimed_balance b' → map untimed_position ps = map untimed_position ps' →
  map untimed_order os = map untimed_order os' →
  from_rest_bootstrap ts config b ps os perms = Ok s →
  from_rest_bootstrap ts' config b' ps' os' perms = Ok s' →
  acs_account_generation s = acs_account_generation s'.
Proof.
  intros Hb Hp Ho E E'.
  destruct (bootstrap_cases _ _ _ _ _ _ _ E) as (H1 & H2 & H3 & H4 & _).
  destruct (bootstrap_cases _ _ _ _ _ _ _ E') as (H1' & H2' & H3' & H4' & _).
  pose proof (untimed_balance_ok _ _ _ _ Hb H1 H1') as Eb.
  destruct (untimed_lists_ok _ _ _ _ _ _ _ _ Hp Ho H2 H2' H3 H3') as [Ep Eo].
  assert (account_generation_for s = account_generation_for s') as Hg; [|congruence].
  unfold account_generation_for. rewrite Eb, Ep, Eo. clear - E E'.
  unfold from_rest_bootstrap in E, E'. destruct (is_blank ts), (is_blank ts'); try done.
  peel E. peel E'.
  repeat (apply bind_ok in E as (? & _ & E)). repeat (apply bind_ok in E' as (? & _ & E')).
  injection E as <-. by injection E' as <-.
Qed.
End theorems.

(** ** Witnesses *)
Section witnesses.
Local Existing Instance toy_hashing.
Local Existing Instance toy_serialize.

Definition sample_config : AccountConfig := {|
  ac_account_level := "2"; ac_position_mode := "net_mode"; ac_uid := "42"; ac_main_uid := "42";
  ac_account_type := "0"; ac_account_stp_mode := ""; ac_auto_loan := false; ac_greeks_type := "";
  ac_fee_type := ""; ac_label := ""; ac_ip := ""; ac_perm := "read_only" |}.
Definition sample_detail (ccy eq time : string) : BalanceDetail := {|
  bd_liabilities := ""; bd_ccy := ccy; bd_equity := eq; bd_cash_balance := "";
  bd_available_equity := ""; bd_available_balance := ""; bd_frozen_balance := "";
  bd_equity_usd := ""; bd_unrealized_pnl := ""; bd_update_time := time |}.
Definition sample_balance (time : string) (ds : list BalanceDetail) : BalanceSnapshot := {|
  bs_total_equity := "100"; bs_adjusted_equity := ""; bs_isolated_equity := "";
  bs_initial_margin_requirement := ""; bs_maintenance_margin_requirement := "";
  bs_margin_ratio := ""; bs_notional_usd := ""; bs_update_time := time; bs_details := ds |}.
Definition sample_position (id pos time : string) : Position := {|
  ps_instrument_type := "SWAP"; ps_instrument_id := id; ps_pos := pos; ps_position_side := "net";
  ps_margin_mode := "cross"; ps_average_price := ""; ps_mark_price := "";
  ps_liquidation_price := ""; ps_unrealized_pnl := ""; ps_unrealized_pnl_ratio := "";
  ps_lever := ""; ps_margin := ""; ps_initial_margin_requirement := "";
  ps_maintenance_margin_requirement := ""; ps_margin_ratio := ""; ps_notional_usd := "";
  ps_ccy := ""; ps_creation_time := time; ps_update_time := time |}.
Definition sample_order (id state time : string) : PendingOrder := {|
  po_instrument_type := "SWAP"; po_instrument_id := "B"; po_order_id := id;
  po_client_order_id := ""; po_side := "buy"; po_position_side := ""; po_trade_mode := "cross";
  po_order_type := "limit"; po_px := "1"; po_sz := "2"; po_accumulated_fill_size := "0";
  po_average_fill_price := ""; po_state := state; po_reduce_only := "false";
  po_creation_time := time; po_update_time := time |}.

Definition sample_bootstrap (time : string) : result AccountError AccountSnapshot :=
  from_rest_bootstrap ("received" +:+ time) sample_config
    (sample_balance time [sample_detail "USDT" "60" time; sample_detail "BTC" "1" time])
    [sample_position "B" "3" time] [sample_order "7" "live" time; sample_order "5" "live" time]
    ["trade"; "read"; "read"].
Definition sample_account_events : list AccountWsEvent :=
  [EvOrders [sample_order "7" "filled" "20"; sample_order "5" "live" "4"];
   EvPositions [sample_position "B" "0.0" "30"; sample_position "C" "1" "31"];
   EvAccount [sample_balance "15" [sample_detail "BTC" "2" "15"]]].

Lemma account_reachable_wf_witness :
  match sample_bootstrap "10" with
  | Ok s => match converge_private_ws s 3 "fp" 40 sample_account_events with
            | Ok s' => map pos_order_id (acs_pending_orders s') = ["5"] ∧
                       map aps_instrument_id (acs_positions s') = ["C"] ∧ account_wf s'
            | Err _ => False
            end
  | Err _ => False
  end.
Proof.
  assert (match sample_bootstrap "10" with
          | Ok s => match converge_private_ws s 3 "fp" 40 sample_account_events with
                    | Ok s' => bool_decide (map pos_order_id (acs_pending_orders s') = ["5"] ∧
                                            map aps_instrument_id (acs_positions s') = ["C"])
                    | Err _ => false end
          | Err _ => false end = true) as Hok by (by vm_compute).
  destruct (sample_bootstrap "10") as [s|] eqn:E; [|discriminate].
  destruct (converge_private_ws s 3 "fp" 40 sample_account_events) as [s'|] eqn:E'; [|discriminate].
  apply bool_decide_eq_true in Hok as [H1 H2]. split; [exact H1|]. split; [exact H2|].
  apply account_reachable_wf. eapply reach_converge; [|exact E']. eapply reach_bootstrap, E.
Defined.

Lemma converge_merges_witness :
  match sample_bootstrap "10" with
  | Ok s => match converge_private_ws s 3 "fp" 40 sample_account_events with
            | Ok s' => klookup pos_order_id (acs_pending_orders s') "7" = None
            | Err _ => False
            end
  | Err _ => False
  end.
Proof.
  assert (match sample_bootstrap "10" with
          | Ok s => is_ok (converge_private_ws s 3 "fp" 40 sample_account_events) &&
                    match klookup pos_order_id (acs_pending_orders s) "7" with
                    | Some o => (pos_update_time_ms o =? "10")%string | None => false end
          | Err _ => false end = true) as Hok by (by vm_compute).
  destruct (sample_bootstrap "10") as [s|] eqn:E; [|discriminate].
  apply andb_true_iff in Hok as [Hok Ho].
  destruct (converge_private_ws s 3 "fp" 40 sample_account_events) as [s'|] eqn:E'; [|discriminate].
  assert (account_wf s) as Hwf.
  { destruct (bootstrap_cases _ _ _ _ _ _ _ E) as (Hb & Hp & Hor & Hg & _).
    apply normalize_balance_details in Hb as (rb & Hdb & Eb & _).
    apply normalize_positions_ok in Hp as (rp & Hdp & Ep & _).
    apply normalize_orders_ok in Hor as (ro & Hdo & Eo & _).
    destruct (sorted_parts _ _ _ Hdb Hdp Hdo) as ([??] & [??] & [??]).
    split; rewrite ?Eb, ?Ep, ?Eo; done. }
  destruct (converge_merges s 3 "fp" 40 sample_account_events s' Hwf E') as (_ & _ & Hm).
  rewrite (Hm "7"). destruct (klookup pos_order_id (acs_pending_orders s) "7") as [o|]; [|discriminate].
  apply String.eqb_eq in Ho. clear - Ho.
  assert (updates_of pos_order_id (λ u, to_option (normalize_order u)) "7"
            (order_updates sample_account_events)
          = match normalize_order (sample_order "7" "filled" "20") with Ok x => [x] | Err _ => [] end)
    as -> by (by vm_compute).
  destruct (normalize_order (sample_order "7" "filled" "20")) as [x|] eqn:Ex; [|by vm_compute in Ex].
  assert (is_terminal_order_state (pos_state x) = true ∧ pos_update_time_ms x = "20") as [Ht Hx].
  { vm_compute in Ex. by injection Ex as <-. }
  simpl. rewrite Ht, Hx, Ho. done.
Defined.

Lemma redelivery_idempotent_witness :
  ∃ l, apply_order_update [] (sample_order "7" "live" "10") = Ok l ∧ l ≠ [] ∧
       apply_order_update l (sample_order "7" "live" "10") = Ok l.
Proof.
  destruct (redelivery_idempotent [] [] (sample_order "7" "live" "10") (sample_position "B" "1" "1"))
    as [Ho _]; [constructor|constructor|].
  destruct (apply_order_update [] (sample_order "7" "live" "10")) as [l|] eqn:E;
    [|by vm_compute in E].
  exists l. split; [done|]. split; [|by apply Ho]. intros ->. by vm_compute in E.
Defined.

Lemma account_generation_untimed_witness :
  match sample_bootstrap "10", sample_bootstrap "99" with
  | Ok s, Ok s' => acs_account_generation s = acs_account_generation s'
  | _, _ => False
  end.
Proof.
  assert (is_ok (sample_bootstrap "10") && is_ok (sample_bootstrap "99") = true) as Hok
    by (by vm_compute).
  destruct (sample_bootstrap "10") as [s|] eqn:E; [|discriminate].
  destruct (sample_bootstrap "99") as [s'|] eqn:E'; [|discriminate].
  refine (account_generation_untimed _ _ _ _ _ _ _ _ _ _ s s' _ _ _ E E'); reflexivity.
Defined.
End witnesses.
