(* ===== verification/PrivateRuntime.v ===== *)
(** * PrivateRuntime: the private account streams of [okx-runtime/src/private/state.rs]

    One connection generation owns two authenticated sockets: the private one
    (account, positions, orders), whose events are numbered and journalled, and the
    business one (algo orders), whose events are only counted.  A reader takes a
    cursor, reads REST, and asks for the window of events since; the window fails
    closed when it cannot be complete. *)
From stdpp Require Import base option list numbers strings gmap.
From Stdlib Require Import ZArith Lia.
From S2P Require Import Prelude Text Ordered Keyed External Wire Account.
Local Open Scope string_scope.
Local Open Scope list_scope.
Local Open Scope Z_scope.

(** ** Data *)
Definition PRIVATE_WS_STATUS_SCHEMA_V1 : string := "okx.private-ws-status/v1".
Definition PRIVATE_EVENT_JOURNAL_CAPACITY : nat := Z.to_nat 4096.

Inductive PrivateConnectionState : Type := Disconnected | Connecting | Connected | Reconnecting.

#[export] Instance PrivateConnectionState_eq_dec : EqDecision PrivateConnectionState.
Proof. solve_decision. Defined.

Record PrivateWsStatus : Type := {
  pws_schema : string;
  pws_connection_state : PrivateConnectionState;
  pws_connection_generation : Z;
  pws_logged_in : bool;
  pws_connection_id_fingerprint : option string;
  pws_acknowledged_subscriptions : nat;
  pws_subscriptions_complete : bool;
  pws_account_data_seen : bool;
  pws_positions_data_seen : bool;
  pws_orders_updates_seen : bool;
  pws_algo_subscription_ready : bool;
  pws_algo_events_seen : Z;
  pws_last_inbound_ms : option Z;
  pws_last_error : option string;
}.

Record PrivateConvergenceCursor : Type := { pcc_generation : Z; pcc_sequence : Z }.
Record AlgoConvergenceCursor : Type := { acc_generation : Z; acc_sequence : Z }.

Record PrivateConvergenceWindow : Type := {
  pcw_generation : Z;
  pcw_status : PrivateWsStatus;
  pcw_events : list AccountWsEvent;
}.

Inductive PrivateConvergenceError : Type := NotReady | GenerationChanged | JournalGap | AlgoChanged.

Record PrivateRuntimeState : Type := {
  pv_connection_state : PrivateConnectionState;
  pv_generation : Z;
  pv_logged_in : bool;
  pv_connection_id : option string;
  pv_acknowledged_subscriptions : gset PrivateSubscription;
  pv_account_data_seen : bool;
  pv_positions_data_seen : bool;
  pv_orders_updates_seen : bool;
  pv_business_logged_in : bool;
  pv_business_connection_id : option string;
  pv_algo_subscription_acked : bool;
  pv_algo_event_sequence : Z;
  pv_algo_sequence_exhausted : bool;
  pv_last_inbound_ms : option Z;
  pv_last_error : option string;
  pv_event_sequence : Z;
  pv_event_journal : list (Z * AccountWsEvent);
}.

Definition private_new : PrivateRuntimeState := {|
  pv_connection_state := Disconnected; pv_generation := 0; pv_logged_in := false;
  pv_connection_id := None; pv_acknowledged_subscriptions := ∅; pv_account_data_seen := false;
  pv_positions_data_seen := false; pv_orders_updates_seen := false;
  pv_business_logged_in := false; pv_business_connection_id := None;
  pv_algo_subscription_acked := false; pv_algo_event_sequence := 0;
  pv_algo_sequence_exhausted := false; pv_last_inbound_ms := None; pv_last_error := None;
  pv_event_sequence := 0; pv_event_journal := [] |}.

(** ** Subscriptions *)
Definition baseline_private_subscriptions : list PrivateSubscription :=
  [psub_account; psub_positions_any; psub_orders_any].

Definition private_subscription_from_arg (arg : PrivateWsArg) : PrivateSubscription := {|
  psub_channel := parg_channel arg; psub_ccy := parg_ccy arg;
  psub_instrument_type := parg_instrument_type arg;
  psub_instrument_family := parg_instrument_family arg;
  psub_instrument_id := parg_instrument_id arg |}.

Definition subscriptions_complete (self : PrivateRuntimeState) : bool :=
  forallb (λ s, bool_decide (s ∈ pv_acknowledged_subscriptions self))
    baseline_private_subscriptions.

Definition is_some {A} (o : option A) : bool := match o with Some _ => true | None => false end.

Definition convergence_ready (self : PrivateRuntimeState) : bool :=
  bool_decide (pv_connection_state self = Connected)
  && pv_logged_in self && is_some (pv_connection_id self) && subscriptions_complete self
  && pv_account_data_seen self && pv_positions_data_seen self.

Definition algo_ready (self : PrivateRuntimeState) : bool :=
  convergence_ready self && pv_business_logged_in self && is_some (pv_business_connection_id self)
  && pv_algo_subscription_acked self && negb (pv_algo_sequence_exhausted self).

(** ** Transitions *)
Definition set_connecting (self : PrivateRuntimeState) : PrivateRuntimeState := {|
  pv_connection_state := Connecting; pv_generation := pv_generation self; pv_logged_in := false;
  pv_connection_id := None; pv_acknowledged_subscriptions := ∅;
  pv_account_data_seen := pv_account_data_seen self;
  pv_positions_data_seen := pv_positions_data_seen self;
  pv_orders_updates_seen := pv_orders_updates_seen self; pv_business_logged_in := false;
  pv_business_connection_id := None; pv_algo_subscription_acked := false;
  pv_algo_event_sequence := pv_algo_event_sequence self;
  pv_algo_sequence_exhausted := pv_algo_sequence_exhausted self;
  pv_last_inbound_ms := pv_last_inbound_ms self; pv_last_error := pv_last_error self;
  pv_event_sequence := pv_event_sequence self; pv_event_journal := pv_event_journal self |}.

Definition begin_generation (self : PrivateRuntimeState) (generation : Z) : PrivateRuntimeState := {|
  pv_connection_state := Connected; pv_generation := generation; pv_logged_in := false;
  pv_connection_id := None; pv_acknowledged_subscriptions := ∅; pv_account_data_seen := false;
  pv_positions_data_seen := false; pv_orders_updates_seen := false;
  pv_business_logged_in := false; pv_business_connection_id := None;
  pv_algo_subscription_acked := false; pv_algo_event_sequence := 0;
  pv_algo_sequence_exhausted := false; pv_last_inbound_ms := None; pv_last_error := None;
  pv_event_sequence := 0; pv_event_journal := [] |}.

Definition set_disconnected (self : PrivateRuntimeState) (reconnecting : bool) (reason : string)
    : PrivateRuntimeState := {|
  pv_connection_state := if reconnecting then Reconnecting else Disconnected;
  pv_generation := pv_generation self; pv_logged_in := false; pv_connection_id := None;
  pv_acknowledged_subscriptions := ∅; pv_account_data_seen := pv_account_data_seen self;
  pv_positions_data_seen := pv_positions_data_seen self;
  pv_orders_updates_seen := pv_orders_updates_seen self; pv_business_logged_in := false;
  pv_business_connection_id := None; pv_algo_subscription_acked := false;
  pv_algo_event_sequence := pv_algo_event_sequence self;
  pv_algo_sequence_exhausted := pv_algo_sequence_exhausted self;
  pv_last_inbound_ms := pv_last_inbound_ms self; pv_last_error := Some reason;
  pv_event_sequence := pv_event_sequence self; pv_event_journal := pv_event_journal self |}.

(** [if connection_id.is_some() { self.connection_id = connection_id; }] *)
Definition or_keep (incoming current : option string) : option string :=
  match incoming with Some _ => incoming | None => current end.

Definition acknowledge_login (self : PrivateRuntimeState) (connection_id : option string)
    : PrivateRuntimeState := {|
  pv_connection_state := pv_connection_state self; pv_generation := pv_generation self;
  pv_logged_in := true; pv_connection_id := or_keep connection_id (pv_connection_id self);
  pv_acknowledged_subscriptions := pv_acknowledged_subscriptions self;
  pv_account_data_seen := pv_account_data_seen self;
  pv_positions_data_seen := pv_positions_data_seen self;
  pv_orders_updates_seen := pv_orders_updates_seen self;
  pv_business_logged_in := pv_business_logged_in self;
  pv_business_connection_id := pv_business_connection_id self;
  pv_algo_subscription_acked := pv_algo_subscription_acked self;
  pv_algo_event_sequence := pv_algo_event_sequence self;
  pv_algo_sequence_exhausted := pv_algo_sequence_exhausted self;
  pv_last_inbound_ms := pv_last_inbound_ms self; pv_last_error := pv_last_error self;
  pv_event_sequence := pv_event_sequence self; pv_event_journal := pv_event_journal self |}.

Definition acknowledge_subscription (self : PrivateRuntimeState) (arg : PrivateWsArg)
    (connection_id : option string) : PrivateRuntimeState := {|
  pv_connection_state := pv_connection_state self; pv_generation := pv_generation self;
  pv_logged_in := pv_logged_in self;
  pv_connection_id := or_keep connection_id (pv_connection_id self);
  pv_acknowledged_subscriptions := {[private_subscription_from_arg arg]} ∪ pv_acknowledged_subscriptions self;
  pv_account_data_seen := pv_account_data_seen self;
  pv_positions_data_seen := pv_positions_data_seen self;
  pv_orders_updates_seen := pv_orders_updates_seen self;
  pv_business_logged_in := pv_business_logged_in self;
  pv_business_connection_id := pv_business_connection_id self;
  pv_algo_subscription_acked := pv_algo_subscription_acked self;
  pv_algo_event_sequence := pv_algo_event_sequence self;
  pv_algo_sequence_exhausted := pv_algo_sequence_exhausted self;
  pv_last_inbound_ms := pv_last_inbound_ms self; pv_last_error := pv_last_error self;
  pv_event_sequence := pv_event_sequence self; pv_event_journal := pv_event_journal self |}.

Definition acknowledge_business_login (self : PrivateRuntimeState) (connection_id : option string)
    : PrivateRuntimeState := {|
  pv_connection_state := pv_connection_state self; pv_generation := pv_generation self;
  pv_logged_in := pv_logged_in self; pv_connection_id := pv_connection_id self;
  pv_acknowledged_subscriptions := pv_acknowledged_subscriptions self;
  pv_account_data_seen := pv_account_data_seen self;
  pv_positions_data_seen := pv_positions_data_seen self;
  pv_orders_updates_seen := pv_orders_updates_seen self; pv_business_logged_in := true;
  pv_business_connection_id := connection_id;
  pv_algo_subscription_acked := pv_algo_subscription_acked self;
  pv_algo_event_sequence := pv_algo_event_sequence self;
  pv_algo_sequence_exhausted := pv_algo_sequence_exhausted self;
  pv_last_inbound_ms := pv_last_inbound_ms self; pv_last_error := pv_last_error self;
  pv_event_sequence := pv_event_sequence self; pv_event_journal := pv_event_journal self |}.

Definition acknowledge_algo_subscription (self : PrivateRuntimeState) (arg : PrivateWsArg)
    (connection_id : option string) : PrivateRuntimeState * bool :=
  let accepted := pv_business_logged_in self && is_some connection_id
                  && bool_decide (pv_business_connection_id self = connection_id)
                  && bool_decide (private_subscription_from_arg arg = psub_orders_algo_any) in
  (if accepted then {|
    pv_connection_state := pv_connection_state self; pv_generation := pv_generation self;
    pv_logged_in := pv_logged_in self; pv_connection_id := pv_connection_id self;
    pv_acknowledged_subscriptions := pv_acknowledged_subscriptions self;
    pv_account_data_seen := pv_account_data_seen self;
    pv_positions_data_seen := pv_positions_data_seen self;
    pv_orders_updates_seen := pv_orders_updates_seen self;
    pv_business_logged_in := pv_business_logged_in self;
    pv_business_connection_id := pv_business_connection_id self;
    pv_algo_subscription_acked := true; pv_algo_event_sequence := pv_algo_event_sequence self;
    pv_algo_sequence_exhausted := pv_algo_sequence_exhausted self;
    pv_last_inbound_ms := pv_last_inbound_ms self; pv_last_error := pv_last_error self;
    pv_event_sequence := pv_event_sequence self; pv_event_journal := pv_event_journal self |}
   else self, accepted).

Definition observe_algo_event (self : PrivateRuntimeState) : PrivateRuntimeState :=
  match checked_add_u64 (pv_algo_event_sequence self) 1 with
  | Some next => {|
    pv_connection_state := pv_connection_state self; pv_generation := pv_generation self;
    pv_logged_in := pv_logged_in self; pv_connection_id := pv_connection_id self;
    pv_acknowledged_subscriptions := pv_acknowledged_subscriptions self;
    pv_account_data_seen := pv_account_data_seen self;
    pv_positions_data_seen := pv_positions_data_seen self;
    pv_orders_updates_seen := pv_orders_updates_seen self;
    pv_business_logged_in := pv_business_logged_in self;
    pv_business_connection_id := pv_business_connection_id self;
    pv_algo_subscription_acked := pv_algo_subscription_acked self;
    pv_algo_event_sequence := next;
    pv_algo_sequence_exhausted := pv_algo_sequence_exhausted self;
    pv_last_inbound_ms := pv_last_inbound_ms self; pv_last_error := pv_last_error self;
    pv_event_sequence := pv_event_sequence self; pv_event_journal := pv_event_journal self |}
  | None => {|
    pv_connection_state := pv_connection_state self; pv_generation := pv_generation self;
    pv_logged_in := pv_logged_in self; pv_connection_id := pv_connection_id self;
    pv_acknowledged_subscriptions := pv_acknowledged_subscriptions self;
    pv_account_data_seen := pv_account_data_seen self;
    pv_positions_data_seen := pv_positions_data_seen self;
    pv_orders_updates_seen := pv_orders_updates_seen self;
    pv_business_logged_in := pv_business_logged_in self;
    pv_business_connection_id := pv_business_connection_id self;
    pv_algo_subscription_acked := pv_algo_subscription_acked self;
    pv_algo_event_sequence := pv_algo_event_sequence self; pv_algo_sequence_exhausted := true;
    pv_last_inbound_ms := pv_last_inbound_ms self; pv_last_error := pv_last_error self;
    pv_event_sequence := pv_event_sequence self; pv_event_journal := pv_event_journal self |}
  end.

(** [while journal.len() > CAPACITY { journal.pop_front(); }] *)
Fixpoint pop_excess {A} (journal : list A) : list A :=
  match journal with
  | [] => []
  | _ :: journal' =>
    if (PRIVATE_EVENT_JOURNAL_CAPACITY <? length journal)%nat then pop_excess journal' else journal
  end.

Definition observe_event (self : PrivateRuntimeState) (event : AccountWsEvent)
    (received_at_ms : Z) : PrivateRuntimeState :=
  let sequence := saturating_add_u64 (pv_event_sequence self) 1 in {|
  pv_connection_state := pv_connection_state self; pv_generation := pv_generation self;
  pv_logged_in := pv_logged_in self; pv_connection_id := pv_connection_id self;
  pv_acknowledged_subscriptions := pv_acknowledged_subscriptions self;
  pv_account_data_seen := match event with EvAccount _ => true | _ => pv_account_data_seen self end;
  pv_positions_data_seen := match event with EvPositions _ => true | _ => pv_positions_data_seen self end;
  pv_orders_updates_seen := match event with EvOrders _ => true | _ => pv_orders_updates_seen self end;
  pv_business_logged_in := pv_business_logged_in self;
  pv_business_connection_id := pv_business_connection_id self;
  pv_algo_subscription_acked := pv_algo_subscription_acked self;
  pv_algo_event_sequence := pv_algo_event_sequence self;
  pv_algo_sequence_exhausted := pv_algo_sequence_exhausted self;
  pv_last_inbound_ms := Some received_at_ms; pv_last_error := pv_last_error self;
  pv_event_sequence := sequence;
  pv_event_journal := pop_excess (pv_event_journal self ++ [(sequence, event)]) |}.

(** ** Reading *)
Definition private_connection_fingerprint `{Hashing} (connection_id : string) : string :=
  sha256_hex connection_id.

Definition private_status `{Hashing} (self : PrivateRuntimeState) : PrivateWsStatus := {|
  pws_schema := PRIVATE_WS_STATUS_SCHEMA_V1;
  pws_connection_state := pv_connection_state self;
  pws_connection_generation := pv_generation self;
  pws_logged_in := pv_logged_in self;
  pws_connection_id_fingerprint := private_connection_fingerprint <$> pv_connection_id self;
  pws_acknowledged_subscriptions := base.size (pv_acknowledged_subscriptions self);
  pws_subscriptions_complete := subscriptions_complete self;
  pws_account_data_seen := pv_account_data_seen self;
  pws_positions_data_seen := pv_positions_data_seen self;
  pws_orders_updates_seen := pv_orders_updates_seen self;
  pws_algo_subscription_ready := algo_ready self;
  pws_algo_events_seen := pv_algo_event_sequence self;
  pws_last_inbound_ms := pv_last_inbound_ms self;
  pws_last_error := pv_last_error self;
|}.

Definition convergence_cursor (self : PrivateRuntimeState)
    : result PrivateConvergenceError PrivateConvergenceCursor :=
  if negb (convergence_ready self) then Err NotReady else
  Ok {| pcc_generation := pv_generation self; pcc_sequence := pv_event_sequence self |}.

Definition convergence_window `{Hashing} (self : PrivateRuntimeState)
    (cursor : PrivateConvergenceCursor) : result PrivateConvergenceError PrivateConvergenceWindow :=
  if negb (pcc_generation cursor =? pv_generation self) then Err GenerationChanged else
  if negb (convergence_ready self) then Err NotReady else
  let gap := match pv_event_journal self with
             | (oldest_sequence, _) :: _ =>
               saturating_add_u64 (pcc_sequence cursor) 1 <? oldest_sequence
             | [] => false
             end in
  if gap then Err JournalGap else
  Ok {| pcw_generation := pv_generation self;
        pcw_status := private_status self;
        pcw_events := map snd (List.filter (λ e, pcc_sequence cursor <? e.1)
                                 (pv_event_journal self)) |}.

Definition algo_convergence_cursor (self : PrivateRuntimeState)
    : result PrivateConvergenceError AlgoConvergenceCursor :=
  if negb (algo_ready self) then Err NotReady else
  Ok {| acc_generation := pv_generation self; acc_sequence := pv_algo_event_sequence self |}.

Definition algo_convergence_unchanged (self : PrivateRuntimeState) (cursor : AlgoConvergenceCursor)
    : result PrivateConvergenceError unit :=
  if negb (acc_generation cursor =? pv_generation self) then Err GenerationChanged else
  if negb (algo_ready self) then Err NotReady else
  if negb (acc_sequence cursor =? pv_algo_event_sequence self) then Err AlgoChanged else
  Ok tt.

Definition protected_oco_window_unchanged `{Hashing} (self : PrivateRuntimeState)
    (private : PrivateConvergenceCursor) (algo : AlgoConvergenceCursor) : bool :=
  match convergence_window self private with
  | Ok window => match pcw_events window with [] => true | _ :: _ => false end
  | Err _ => false
  end && is_ok (algo_convergence_unchanged self algo).

(** ** Histories: the transitions of a runtime, in order *)
Inductive PrivateOp : Type :=
| OpConnecting
| OpBegin (generation : Z)
| OpDisconnected (reconnecting : bool) (reason : string)
| OpLogin (connection_id : option string)
| OpSubscribed (arg : PrivateWsArg) (connection_id : option string)
| OpBusinessLogin (connection_id : option string)
| OpAlgoSubscribed (arg : PrivateWsArg) (connection_id : option string)
| OpEvent (event : AccountWsEvent) (received_at_ms : Z)
| OpAlgoEvent.

Definition private_step (self : PrivateRuntimeState) (op : PrivateOp) : PrivateRuntimeState :=
  match op with
  | OpConnecting => set_connecting self
  | OpBegin g => begin_generation self g
  | OpDisconnected b r => set_disconnected self b r
  | OpLogin cid => acknowledge_login self cid
  | OpSubscribed arg cid => acknowledge_subscription self arg cid
  | OpBusinessLogin cid => acknowledge_business_login self cid
  | OpAlgoSubscribed arg cid => (acknowledge_algo_subscription self arg cid).1
  | OpEvent e t => observe_event self e t
  | OpAlgoEvent => observe_algo_event self
  end.

Definition private_run : PrivateRuntimeState → list PrivateOp → PrivateRuntimeState :=
  foldl private_step.

(** The events a history delivers *)
Definition op_event (op : PrivateOp) : option AccountWsEvent :=
  match op with OpEvent e _ => Some e | _ => None end.
Definition is_begin (op : PrivateOp) : bool := match op with OpBegin _ => true | _ => false end.
Definition is_event (op : PrivateOp) : bool :=
  match op with OpEvent _ _ | OpAlgoEvent => true | _ => false end.

(** The events of the current generation *)
Definition since_begin (acc : list AccountWsEvent) (op : PrivateOp) : list AccountWsEvent :=
  match op with OpBegin _ => [] | OpEvent e _ => acc ++ [e] | _ => acc end.
Definition generation_events (ops : list PrivateOp) : list AccountWsEvent :=
  foldl since_begin [] ops.

(** ** The journal *)
Fixpoint number {A} (k : Z) (l : list A) : list (Z * A) :=
  match l with
  | [] => []
  | a :: l' => (k, a) :: number (k + 1) l'
  end.

Lemma pop_excess_drop {A} (j : list A) :
  pop_excess j = drop (length j - PRIVATE_EVENT_JOURNAL_CAPACITY) j.
Proof.
  induction j as [|a j IH]; [done|]. cbn [pop_excess].
  destruct (Nat.ltb_spec PRIVATE_EVENT_JOURNAL_CAPACITY (length (a :: j))) as [Hlt|Hge].
  - rewrite IH. replace (length (a :: j) - PRIVATE_EVENT_JOURNAL_CAPACITY)%nat
      with (S (length j - PRIVATE_EVENT_JOURNAL_CAPACITY)) by (cbn [length] in *; lia). done.
  - replace (length (a :: j) - PRIVATE_EVENT_JOURNAL_CAPACITY)%nat with 0%nat by lia. done.
Qed.

Section journal.
Context {A : Type}.
Implicit Types (l : list A) (k : Z).

Lemma number_length k l : length (number k l) = length l.
Proof. revert k. induction l as [|a l IH]; intros k; simpl; [done|]. by rewrite IH. Qed.

Lemma number_app k l1 l2 :
  number k (l1 ++ l2) = number k l1 ++ number (k + Z.of_nat (length l1)) l2.
Proof.
  revert k. induction l1 as [|a l1 IH]; intros k; cbn [app number length].
  - f_equal. lia.
  - rewrite IH. do 3 f_equal. lia.
Qed.

Lemma number_drop n k l : drop n (number k l) = number (k + Z.of_nat n) (drop n l).
Proof.
  revert k l. induction n as [|n IH]; intros k l.
  - rewrite !drop_0. f_equal. lia.
  - destruct l as [|a l]; [done|]. cbn [number drop]. rewrite IH. f_equal. lia.
Qed.

Lemma number_bounds k l p : p ∈ number k l → k ≤ p.1 < k + Z.of_nat (length l).
Proof.
  revert k. induction l as [|a l IH]; intros k; cbn [number length].
  - intros []%not_elem_of_nil.
  - intros [->|Hp%IH]%elem_of_cons; simpl; lia.
Qed.

Lemma number_snd k l : map snd (number k l) = l.
Proof. revert k. induction l as [|a l IH]; intros k; simpl; [done|]. by rewrite IH. Qed.

Lemma number_filter_all k l n : n < k → List.filter (λ p, n <? p.1) (number k l) = number k l.
Proof.
  revert k. induction l as [|a l IH]; intros k Hk; simpl; [done|].
  destruct (Z.ltb_spec n k); [|lia]. rewrite IH; [done|lia].
Qed.

Lemma number_filter_none k l n :
  k + Z.of_nat (length l) ≤ n + 1 → List.filter (λ p, n <? p.1) (number k l) = [].
Proof.
  revert k. induction l as [|a l IH]; intros k Hk; cbn [number length List.filter] in *; [done|].
  simpl. destruct (Z.ltb_spec n k); [lia|]. apply IH. lia.
Qed.

Lemma pop_excess_number l :
  pop_excess (drop (length l - PRIVATE_EVENT_JOURNAL_CAPACITY) (number 1 l)) =
  drop (length l - PRIVATE_EVENT_JOURNAL_CAPACITY) (number 1 l).
Proof.
  rewrite pop_excess_drop, length_drop, number_length.
  replace (length l - (length l - PRIVATE_EVENT_JOURNAL_CAPACITY)
           - PRIVATE_EVENT_JOURNAL_CAPACITY)%nat with 0%nat by lia. by rewrite drop_0.
Qed.
End journal.

(** ** Invariants of a history *)
Definition journal_wf (s : PrivateRuntimeState) (evs : list AccountWsEvent) : Prop :=
  pv_event_sequence s = Z.min u64_max (Z.of_nat (length evs)) ∧
  (Z.of_nat (length evs) ≤ u64_max →
   pv_event_journal s =
   drop (length evs - PRIVATE_EVENT_JOURNAL_CAPACITY) (number 1 evs)).

Lemma pop_excess_snoc {A} (l : list A) x :
  pop_excess (drop (length l - PRIVATE_EVENT_JOURNAL_CAPACITY) l ++ [x]) =
  drop (length (l ++ [x]) - PRIVATE_EVENT_JOURNAL_CAPACITY) (l ++ [x]).
Proof.
  rewrite <- (drop_app_le l [x]) by lia. rewrite pop_excess_drop, drop_drop, length_drop, length_app.
  f_equal. cbn [length]. lia.
Qed.

Lemma private_run_wf ops :
  journal_wf (private_run private_new ops) (generation_events ops).
Proof.
  induction ops as [|op ops IH] using rev_ind.
  { split; [by vm_compute|done]. }
  unfold private_run, generation_events in *. rewrite !foldl_snoc.
  destruct IH as [Hseq Hj]. destruct op as [|g|b r|cid|arg cid|cid|arg cid|e t|]; simpl;
    try (split; [exact Hseq|exact Hj]).
  - split; [by vm_compute|done].
  - unfold acknowledge_algo_subscription. destruct (_ && _); split; done.
  - unfold journal_wf. simpl. rewrite Hseq, length_app. cbn [length].
    unfold saturating_add_u64. split; [lia|]. intros Hle. rewrite Hj by lia.
    rewrite number_app. cbn [number].
    rewrite <- (number_length 1 (foldl since_begin [] ops)) at 1.
    replace (Z.min u64_max (Z.min u64_max (Z.of_nat (length (foldl since_begin [] ops))) + 1))
      with (1 + Z.of_nat (length (foldl since_begin [] ops))) by lia.
    rewrite pop_excess_snoc, length_app, number_length. done.
  - unfold observe_algo_event. destruct (checked_add_u64 _ _); split; done.
Qed.

Definition same_generation (ops : list PrivateOp) : Prop := Forall (λ op, is_begin op = false) ops.

Lemma events_since ops0 ops :
  same_generation ops →
  generation_events (ops0 ++ ops) = generation_events ops0 ++ omap op_event ops.
Proof.
  unfold generation_events. rewrite foldl_app. generalize (foldl since_begin [] ops0) as h.
  induction ops as [|op ops IH]; intros h Hs; simpl; [by rewrite app_nil_r|].
  apply Forall_cons in Hs as [Hop Hs]. rewrite IH by done.
  destruct op; try done. simpl. by rewrite <- app_assoc.
Qed.

Lemma private_run_app s ops1 ops2 : private_run s (ops1 ++ ops2) = private_run (private_run s ops1) ops2.
Proof. apply foldl_app. Qed.

Lemma step_generation s op : is_begin op = false → pv_generation (private_step s op) = pv_generation s.
Proof.
  destruct op; try done; intros _; simpl.
  - unfold acknowledge_algo_subscription. by destruct (_ && _).
  - unfold observe_algo_event. by destruct (checked_add_u64 _ _).
Qed.

Lemma run_generation s ops : same_generation ops → pv_generation (private_run s ops) = pv_generation s.
Proof.
  revert s. induction ops as [|op ops IH]; intros s Hs; [done|].
  apply Forall_cons in Hs as [Hop Hs]. unfold private_run in *. simpl. rewrite IH by done.
  by apply step_generation.
Qed.

(** The window over a journal that holds the numbered tail of a history *)
Lemma window_filter (h0 evs : list AccountWsEvent) :
  let d := (length (h0 ++ evs) - PRIVATE_EVENT_JOURNAL_CAPACITY)%nat in
  (d ≤ length h0)%nat →
  map snd (List.filter (λ e, Z.of_nat (length h0) <? e.1) (drop d (number 1 (h0 ++ evs)))) = evs.
Proof.
  intros d Hd. rewrite number_app, drop_app_le by (by rewrite number_length).
  rewrite List.filter_app, number_drop, number_filter_none, number_filter_all by
    (rewrite ?length_drop; lia).
  simpl. apply number_snd.
Qed.

(** The front of the journal tells whether the tail reaches back to the cursor. *)
Lemma window_gap (h0 evs : list AccountWsEvent) n :
  n = Z.of_nat (length h0) → Z.of_nat (length (h0 ++ evs)) < u64_max →
  match drop (length (h0 ++ evs) - PRIVATE_EVENT_JOURNAL_CAPACITY) (number 1 (h0 ++ evs)) with
  | (oldest, _) :: _ => saturating_add_u64 n 1 <? oldest
  | [] => false
  end = (PRIVATE_EVENT_JOURNAL_CAPACITY <? length evs)%nat.
Proof.
  intros -> Hmax. rewrite number_drop.
  assert (0 < PRIVATE_EVENT_JOURNAL_CAPACITY)%nat as Hcap by (unfold PRIVATE_EVENT_JOURNAL_CAPACITY; lia).
  set (c := PRIVATE_EVENT_JOURNAL_CAPACITY) in *. rewrite length_app in *.
  destruct (drop _ (h0 ++ evs)) as [|e rest] eqn:E.
  - apply (f_equal length) in E. rewrite length_drop, length_app in E. simpl in E.
    symmetry. apply Nat.ltb_ge. lia.
  - cbn [number]. unfold saturating_add_u64.
    destruct (Nat.ltb_spec c (length evs)); [apply Z.ltb_lt|apply Z.ltb_ge]; lia.
Qed.

Section theorems.
Context `{Hashing}.

Lemma window_since ops0 ops cursor :
  convergence_cursor (private_run private_new ops0) = Ok cursor →
  same_generation ops →
  pv_event_sequence (private_run private_new (ops0 ++ ops)) < u64_max →
  let s := private_run private_new (ops0 ++ ops) in
  let since := omap op_event ops in
  convergence_window s cursor =
    if negb (convergence_ready s) then Err NotReady
    else if (PRIVATE_EVENT_JOURNAL_CAPACITY <? length since)%nat then Err JournalGap
    else Ok {| pcw_generation := pv_generation s; pcw_status := private_status s;
               pcw_events := since |}.
Proof.
  intros Hc Hs Hmax s since. unfold convergence_cursor in Hc.
  destruct (negb _); [done|]. injection Hc as <-.
  destruct (private_run_wf ops0) as [Hseq0 _].
  destruct (private_run_wf (ops0 ++ ops)) as [Hseq Hj]. fold s in Hseq, Hj.
  rewrite (events_since _ _ Hs) in Hseq, Hj. fold since in Hseq, Hj.
  assert (Z.of_nat (length (generation_events ops0 ++ since)) < u64_max) as Hlen
    by (unfold s in Hseq; lia).
  rewrite Hseq0. unfold convergence_window. cbn [pcc_generation pcc_sequence].
  assert (pv_generation s = pv_generation (private_run private_new ops0)) as Hgen
    by (unfold s; by rewrite private_run_app, run_generation).
  rewrite Hgen, Z.eqb_refl. cbn [negb].
  destruct (convergence_ready s); cbn [negb]; [|done].
  rewrite Z.min_r by (rewrite length_app in Hlen; lia).
  rewrite Hj by lia. rewrite (window_gap (generation_events ops0) since) by done.
  destruct (_ <? _)%nat eqn:Hgap; [done|]. apply Nat.ltb_ge in Hgap.
  rewrite window_filter by (rewrite length_app; lia). done.
Qed.

(** the convergence window is exact.  Take a cursor at any point of any history; then,
    as long as no new generation begins, the window at any later point is refused while the
    streams are not ready, reports a journal gap exactly when more than 4096 private events
    arrived since the cursor, and otherwise contains precisely those events, in order. *)
Theorem convergence_window_exact ops0 ops cursor :
  convergence_cursor (private_run private_new ops0) = Ok cursor →
  same_generation ops →
  pv_event_sequence (private_run private_new (ops0 ++ ops)) < u64_max →
  let s := private_run private_new (ops0 ++ ops) in
  let since := omap op_event ops in
  convergence_window s cursor =
    if negb (convergence_ready s) then Err NotReady
    else if (PRIVATE_EVENT_JOURNAL_CAPACITY <? length since)%nat then Err JournalGap
    else Ok {| pcw_generation := pv_generation s; pcw_status := private_status s;
               pcw_events := since |}.
Proof. apply window_since. Qed.

(** Every new generation carries a larger number. *)
Fixpoint renewing (g : Z) (ops : list PrivateOp) : Prop :=
  match ops with
  | [] => True
  | OpBegin g' :: ops => g < g' ∧ renewing g' ops
  | _ :: ops => renewing g ops
  end.

Lemma renewing_generation s ops :
  renewing (pv_generation s) ops →
  pv_generation s ≤ pv_generation (private_run s ops) ∧
  (pv_generation (private_run s ops) = pv_generation s → same_generation ops).
Proof.
  revert s. induction ops as [|op ops IH]; intros s Hr; [split; [done|constructor]|].
  change (private_run s (op :: ops)) with (private_run (private_step s op) ops).
  destruct (is_begin op) eqn:Hop.
  - destruct op; try done. destruct Hr as [Hlt Hr].
    destruct (IH (begin_generation s generation) Hr) as [Hle _]. simpl in *. lia.
  - assert (renewing (pv_generation (private_step s op)) ops) as Hr'
      by (rewrite step_generation by done; by destruct op).
    destruct (IH _ Hr') as [Hle Heq]. rewrite step_generation in Hle, Heq by done.
    split; [done|]. intros E. constructor; [done|by apply Heq].
Qed.

Definition algo_count (ops : list PrivateOp) : Z :=
  Z.of_nat (length (List.filter (λ op, match op with OpAlgoEvent => true | _ => false end) ops)).

Lemma algo_step s op :
  is_begin op = false → pv_algo_sequence_exhausted (private_step s op) = false →
  pv_algo_sequence_exhausted s = false ∧
  pv_algo_event_sequence (private_step s op) = pv_algo_event_sequence s + algo_count [op].
Proof.
  destruct op; try done; simpl; intros _ Hx; try (split; [done|]; unfold algo_count; simpl; lia).
  - revert Hx. unfold acknowledge_algo_subscription, algo_count.
    destruct (_ && _); simpl; intros; (split; [done|lia]).
  - revert Hx. unfold observe_algo_event, checked_add_u64, algo_count.
    destruct (_ <=? _); simpl; [intros; (split; [done|lia])|done].
Qed.

Lemma algo_run s ops :
  same_generation ops → pv_algo_sequence_exhausted (private_run s ops) = false →
  pv_algo_event_sequence (private_run s ops) = pv_algo_event_sequence s + algo_count ops.
Proof.
  revert s. induction ops as [|op ops IH] using rev_ind; intros s Hs Hx.
  - unfold algo_count. simpl. lia.
  - apply Forall_app in Hs as [Hs Hop]. rewrite Forall_singleton in Hop.
    rewrite private_run_app in *. cbn [private_run foldl] in *.
    destruct (algo_step _ _ Hop Hx) as [Hx' ->]. rewrite IH by done.
    unfold algo_count. rewrite List.filter_app, length_app. lia.
Qed.

Lemma quiet_ops ops :
  omap op_event ops = [] → algo_count ops = 0 → Forall (λ op, is_event op = false) ops.
Proof.
  unfold algo_count. induction ops as [|op ops IH]; simpl; intros Ho Ha; [constructor|].
  destruct op; simpl in *; try done; constructor; try done; apply IH; done.
Qed.

Lemma guard_quiet ops0 ops private algo :
  let s0 := private_run private_new ops0 in
  let s := private_run private_new (ops0 ++ ops) in
  convergence_cursor s0 = Ok private → algo_convergence_cursor s0 = Ok algo →
  renewing (pv_generation s0) ops → pv_event_sequence s < u64_max →
  protected_oco_window_unchanged s private algo = true →
  Forall (λ op, is_begin op = false ∧ is_event op = false) ops ∧
  convergence_ready s = true ∧ algo_ready s = true.
Proof.
  intros s0 s Hc Ha Hr Hmax Hguard.
  assert (s = private_run s0 ops) as Hs by apply private_run_app. apply andb_true_iff in Hguard as [Hw Hg].
  assert (pv_generation s = pv_generation s0 ∧ algo_ready s = true ∧
          acc_sequence algo = pv_algo_event_sequence s) as (Hgen & Hready & Hseq).
  { unfold algo_convergence_cursor in Ha. destruct (negb _); [done|]. injection Ha as <-.
    unfold algo_convergence_unchanged in Hg. simpl in Hg.
    destruct (Z.eqb_spec (pv_generation s0) (pv_generation s)); [|done].
    destruct (algo_ready s); [|done]. simpl in Hg.
    destruct (Z.eqb_spec (pv_algo_event_sequence s0) (pv_algo_event_sequence s)); done. }
  assert (same_generation ops) as Hsame.
  { apply (renewing_generation s0 ops Hr). by rewrite <- Hs. }
  pose proof (window_since ops0 ops private Hc Hsame Hmax) as Hwin. fold s in Hwin.
  rewrite Hwin in Hw. destruct (convergence_ready s); [|done]. cbn [negb] in Hw.
  destruct (_ <? _)%nat; [done|]. cbn [pcw_events] in Hw.
  destruct (omap op_event ops) as [|e es] eqn:Hevs; [|done].
  assert (pv_algo_sequence_exhausted s = false) as Hx.
  { unfold algo_ready in Hready. reflect_bools. done. }
  pose proof (algo_run s0 ops Hsame) as Hcount. rewrite <- Hs in Hcount. specialize (Hcount Hx).
  unfold algo_convergence_cursor in Ha. destruct (negb _); [done|]. injection Ha as <-.
  simpl in Hseq. split; [|done]. apply Forall_and. split; [exact Hsame|].
  apply quiet_ops; [done|lia].
Qed.

(** The protected-OCO guard.  Take both cursors at one point of any history.  If the
    guard answers that the window is unchanged at a later point, then between the two
    points no generation began and not a single event arrived on either socket, and both
    streams are ready now.  (New generations carry larger numbers; fewer than [2^64 - 1]
    private events arrived in the generation.) *)
Theorem protected_oco_guard ops0 ops private algo :
  let s0 := private_run private_new ops0 in
  let s := private_run private_new (ops0 ++ ops) in
  convergence_cursor s0 = Ok private → algo_convergence_cursor s0 = Ok algo →
  renewing (pv_generation s0) ops → pv_event_sequence s < u64_max →
  protected_oco_window_unchanged s private algo = true →
  Forall (λ op, is_begin op = false ∧ is_event op = false) ops ∧
  convergence_ready s = true ∧ algo_ready s = true.
Proof. apply guard_quiet. Qed.
End theorems.

(** ** Witnesses *)
Section witnesses.
Local Existing Instance toy_hashing.

Definition private_arg (s : PrivateSubscription) : PrivateWsArg := {|
  parg_channel := psub_channel s; parg_ccy := psub_ccy s;
  parg_instrument_type := psub_instrument_type s;
  parg_instrument_family := psub_instrument_family s;
  parg_instrument_id := psub_instrument_id s |}.
Definition sample_history : list PrivateOp :=
  [OpConnecting; OpBegin 1; OpLogin (Some "c"); OpSubscribed (private_arg psub_account) None;
   OpSubscribed (private_arg psub_positions_any) None;
   OpSubscribed (private_arg psub_orders_any) None; OpBusinessLogin (Some "b");
   OpAlgoSubscribed (private_arg psub_orders_algo_any) (Some "b");
   OpEvent (EvAccount []) 1; OpEvent (EvPositions []) 2].
Definition sample_cursor : PrivateConvergenceCursor := {| pcc_generation := 1; pcc_sequence := 2 |}.
Definition sample_algo_cursor : AlgoConvergenceCursor := {| acc_generation := 1; acc_sequence := 0 |}.

Lemma convergence_window_exact_witness :
  pcw_events <$> convergence_window
    (private_run private_new (sample_history ++ [OpEvent (EvOrders []) 3; OpAlgoEvent])) sample_cursor
  = Ok [EvOrders []].
Proof.
  rewrite (convergence_window_exact sample_history [OpEvent (EvOrders []) 3; OpAlgoEvent] sample_cursor);
    [by vm_compute|by vm_compute|by repeat constructor|by vm_compute].
Defined.

Lemma protected_oco_guard_witness :
  protected_oco_window_unchanged
    (private_run private_new (sample_history ++ [OpLogin None])) sample_cursor sample_algo_cursor = true ∧
  algo_ready (private_run private_new (sample_history ++ [OpLogin None])) = true.
Proof.
  assert (protected_oco_window_unchanged
    (private_run private_new (sample_history ++ [OpLogin None])) sample_cursor sample_algo_cursor = true)
    as Hg by (by vm_compute).
  split; [done|].
  destruct (protected_oco_guard sample_history [OpLogin None] sample_cursor sample_algo_cursor)
    as (_ & _ & Hr); [by vm_compute|by vm_compute|done|by vm_compute|done|exact Hr].
Defined.
End witnesses.
