(* ===== verification/PrivateCoordinator.v ===== *)
(** * PrivateCoordinator: the private connection loop of
    [okx-runtime/src/private/coordinator.rs]

    One generation logs in on the private and on the business socket, subscribes,
    applies their messages to the shared state and ends on anything unexpected.  The
    sockets, the clocks, JSON decoding and the outcome of a send are given to each
    step. *)
From stdpp Require Import base option list numbers strings gmap.
From Stdlib Require Import ZArith Lia.
From S2P Require Import Prelude Text Ordered Keyed External Wire Account PrivateRuntime.
Local Open Scope string_scope.
Local Open Scope list_scope.
Local Open Scope Z_scope.

(** ** Constants and data *)
Definition PRIVATE_RECONNECT_BACKOFF_SECONDS : list Z := [1; 5; 15; 30; 60].
Definition IDLE_BEFORE_PING_SECONDS : Z := 20.
Definition PONG_TIMEOUT_SECONDS : Z := 10.
Definition SERVICE_UPGRADE_NOTICE_CODE : string := "64008".
Definition ns_per_second : Z := 1000000000.

Definition private_reconnect_delay (attempt : nat) : Z :=
  nth (Nat.min attempt (length PRIVATE_RECONNECT_BACKOFF_SECONDS - 1))
    PRIVATE_RECONNECT_BACKOFF_SECONDS 0.

Definition signals_financial_source_capture (event : AccountWsEvent) : bool :=
  match event with
  | EvAccount [] | EvPositions [] | EvOrders [] => false
  | _ => true
  end.

Inductive GenerationOutcome : Type :=
| OutcomeShutdown
| OutcomeReconnect (saw_data : bool) (reason : string).

Section coordinator.
Context `{Hashing} {json : Type} `{!Decode json BalanceSnapshot} `{!Decode json Position}
  `{!Decode json PendingOrder}.

(** Transport and credential errors are kept as their text. *)
Inductive PrivateRuntimeError : Type :=
| PrivateWebSocket (text : string)
| PrivateApi (text : string)
| PrivateJson (e : SerdeError).

Inductive PrivateInboundMessage : Type :=
| Pong
| Login (code message : string) (connection_id : option string)
| Subscribed (arg : PrivateWsArg) (connection_id : option string)
| Unsubscribed (arg : PrivateWsArg) (connection_id : option string)
| WsError (code message : option string) (arg : option PrivateWsArg)
    (connection_id : option string)
| Notice (code message connection_id : option string)
| Data (arg : PrivateWsArg) (data : list json)
| Other (value : json).

(** What [connection.next()] resolves to *)
Inductive Received : Type :=
| RecvError (text : string)
| RecvClosed
| RecvMessage (message : PrivateInboundMessage).

Record PrivateWsCoordinator : Type := {
  co_state : PrivateRuntimeState;
  co_generation : Z;
  co_financial_source_signal : Z;
}.

Definition with_state (self : PrivateWsCoordinator) (state : PrivateRuntimeState)
    : PrivateWsCoordinator := {|
  co_state := state;
  co_generation := co_generation self;
  co_financial_source_signal := co_financial_source_signal self;
|}.

Definition coordinator_new (generation_seed : Z) : PrivateWsCoordinator := {|
  co_state := private_new; co_generation := generation_seed; co_financial_source_signal := 0 |}.

(** The connection succeeded: a new generation starts. *)
Definition start_generation (self : PrivateWsCoordinator) : PrivateWsCoordinator :=
  let generation := saturating_add_u64 (co_generation self) 1 in
  {| co_state := begin_generation (co_state self) generation;
     co_generation := generation;
     co_financial_source_signal := co_financial_source_signal self |}.

(** The local variables of [run_generation] *)
Record GenerationState : Type := {
  pg_last_inbound : Z;
  pg_last_business_inbound : Z;
  pg_awaiting_pong_since : option Z;
  pg_awaiting_business_pong_since : option Z;
  pg_subscriptions_sent : bool;
  pg_business_subscriptions_sent : bool;
  pg_saw_data : bool;
}.

Definition fresh_generation_state (now : Z) : GenerationState := {|
  pg_last_inbound := now; pg_last_business_inbound := now;
  pg_awaiting_pong_since := None; pg_awaiting_business_pong_since := None;
  pg_subscriptions_sent := false; pg_business_subscriptions_sent := false;
  pg_saw_data := false |}.

Inductive LoopResult : Type :=
| Continue (g : GenerationState)
| Return (outcome : GenerationOutcome)
| Fail (e : PrivateRuntimeError).

Definition reconnect (g : GenerationState) (reason : string) : LoopResult :=
  Return (OutcomeReconnect (pg_saw_data g) reason).

Definition decoded_rows {T} `{!Decode json T} (data : list json)
    : result PrivateRuntimeError (list T) :=
  try_map (λ v, map_err PrivateJson (from_value v)) data.

(** The event of a private data message; [None] is the algo channel. *)
Definition private_event (channel : PrivateChannel) (data : list json)
    : option (result PrivateRuntimeError AccountWsEvent) :=
  match channel with
  | ChAccount => Some (updates ← decoded_rows data; Ok (EvAccount updates))
  | ChPositions => Some (updates ← decoded_rows data; Ok (EvPositions updates))
  | ChOrders => Some (updates ← decoded_rows data; Ok (EvOrders updates))
  | ChOrdersAlgo => None
  end.

(** [state.observe_event(event, now_ms())], then the financial signal *)
Definition observe_private (self : PrivateWsCoordinator) (event : AccountWsEvent) (now_ms : Z)
    : PrivateWsCoordinator := {|
  co_state := observe_event (co_state self) event now_ms;
  co_generation := co_generation self;
  co_financial_source_signal :=
    if signals_financial_source_capture event
    then saturating_add_u64 (co_financial_source_signal self) 1
    else co_financial_source_signal self |}.

(** The arm of the private socket; [sent] is the outcome of the subscription request. *)
Definition handle_private (self : PrivateWsCoordinator) (g0 : GenerationState) (now now_ms : Z)
    (sent : result PrivateRuntimeError unit) (received : Received)
    : PrivateWsCoordinator * LoopResult :=
  let g := {| pg_last_inbound := now;
              pg_last_business_inbound := pg_last_business_inbound g0;
              pg_awaiting_pong_since := pg_awaiting_pong_since g0;
              pg_awaiting_business_pong_since := pg_awaiting_business_pong_since g0;
              pg_subscriptions_sent := pg_subscriptions_sent g0;
              pg_business_subscriptions_sent := pg_business_subscriptions_sent g0;
              pg_saw_data := pg_saw_data g0 |} in
  match received with
  | RecvError text => (self, reconnect g text)
  | RecvClosed => (self, reconnect g "OKX private websocket closed")
  | RecvMessage Pong =>
    (self, Continue {| pg_last_inbound := now;
              pg_last_business_inbound := pg_last_business_inbound g;
              pg_awaiting_pong_since := None;
              pg_awaiting_business_pong_since := pg_awaiting_business_pong_since g;
              pg_subscriptions_sent := pg_subscriptions_sent g;
              pg_business_subscriptions_sent := pg_business_subscriptions_sent g;
              pg_saw_data := pg_saw_data g |})
  | RecvMessage (Login code message connection_id) =>
    if negb (code =? "0")%string
    then (self, reconnect g ("OKX private websocket login failed code=" +:+ code
                             +:+ " message=" +:+ message))
    else
      let self := with_state self (acknowledge_login (co_state self) connection_id) in
      if pg_subscriptions_sent g then (self, Continue g) else
      match sent with
      | Err e => (self, Fail e)
      | Ok _ => (self, Continue {| pg_last_inbound := now;
                  pg_last_business_inbound := pg_last_business_inbound g;
                  pg_awaiting_pong_since := pg_awaiting_pong_since g;
                  pg_awaiting_business_pong_since := pg_awaiting_business_pong_since g;
                  pg_subscriptions_sent := true;
                  pg_business_subscriptions_sent := pg_business_subscriptions_sent g;
                  pg_saw_data := pg_saw_data g |})
      end
  | RecvMessage (Subscribed arg connection_id) =>
    if negb (pv_logged_in (co_state self))
    then (self, reconnect g "private subscription acknowledged before login")
    else (with_state self (acknowledge_subscription (co_state self) arg connection_id), Continue g)
  | RecvMessage (Unsubscribed _ _) => (self, reconnect g "required private subscription was removed")
  | RecvMessage (WsError code message _ _) =>
    (self, reconnect g ("OKX private websocket error code=" +:+ default "<none>" code
                        +:+ " message=" +:+ default "<none>" message))
  | RecvMessage (Notice code message _) =>
    if bool_decide (code = Some SERVICE_UPGRADE_NOTICE_CODE)
    then (self, reconnect g ("OKX service-upgrade notice: " +:+ default "<none>" message))
    else (self, Continue g)
  | RecvMessage (Data arg data) =>
    if negb (pv_logged_in (co_state self))
    then (self, reconnect g "private data arrived before login") else
    match private_event (parg_channel arg) data with
    | None => (self, reconnect g "algo events on wrong authenticated socket")
    | Some (Err e) => (self, Fail e)
    | Some (Ok event) =>
      (observe_private self event now_ms,
       Continue {| pg_last_inbound := now;
                   pg_last_business_inbound := pg_last_business_inbound g;
                   pg_awaiting_pong_since := pg_awaiting_pong_since g;
                   pg_awaiting_business_pong_since := pg_awaiting_business_pong_since g;
                   pg_subscriptions_sent := pg_subscriptions_sent g;
                   pg_business_subscriptions_sent := pg_business_subscriptions_sent g;
                   pg_saw_data := true |})
    end
  | RecvMessage (Other _) => (self, Continue g)
  end.

(** [for _ in 0..n { state.observe_algo_event(now_ms()) }] *)
Definition observe_algo_events (state : PrivateRuntimeState) (n : nat) : PrivateRuntimeState :=
  Nat.iter n observe_algo_event state.

(** The arm of the business socket *)
Definition handle_business (self : PrivateWsCoordinator) (g0 : GenerationState) (now : Z)
    (sent : result PrivateRuntimeError unit) (received : Received)
    : PrivateWsCoordinator * LoopResult :=
  let g := {| pg_last_inbound := pg_last_inbound g0;
              pg_last_business_inbound := now;
              pg_awaiting_pong_since := pg_awaiting_pong_since g0;
              pg_awaiting_business_pong_since := pg_awaiting_business_pong_since g0;
              pg_subscriptions_sent := pg_subscriptions_sent g0;
              pg_business_subscriptions_sent := pg_business_subscriptions_sent g0;
              pg_saw_data := pg_saw_data g0 |} in
  match received with
  | RecvError text => (self, reconnect g ("business algo socket: " +:+ text))
  | RecvClosed => (self, reconnect g "business algo socket closed")
  | RecvMessage Pong =>
    (self, Continue {| pg_last_inbound := pg_last_inbound g; pg_last_business_inbound := now;
              pg_awaiting_pong_since := pg_awaiting_pong_since g;
              pg_awaiting_business_pong_since := None;
              pg_subscriptions_sent := pg_subscriptions_sent g;
              pg_business_subscriptions_sent := pg_business_subscriptions_sent g;
              pg_saw_data := pg_saw_data g |})
  | RecvMessage (Login code message connection_id) =>
    if negb (code =? "0")%string
    then (self, reconnect g ("business login denied " +:+ code +:+ ": " +:+ message))
    else
      let self := with_state self (acknowledge_business_login (co_state self) connection_id) in
      if pg_business_subscriptions_sent g then (self, Continue g) else
      match sent with
      | Err e => (self, Fail e)
      | Ok _ => (self, Continue {| pg_last_inbound := pg_last_inbound g;
                  pg_last_business_inbound := now;
                  pg_awaiting_pong_since := pg_awaiting_pong_since g;
                  pg_awaiting_business_pong_since := pg_awaiting_business_pong_since g;
                  pg_subscriptions_sent := pg_subscriptions_sent g;
                  pg_business_subscriptions_sent := true;
                  pg_saw_data := pg_saw_data g |})
      end
  | RecvMessage (Subscribed arg connection_id) =>
    let '(state, accepted) := acknowledge_algo_subscription (co_state self) arg connection_id in
    let self := with_state self state in
    if accepted : bool then (self, Continue g) else
    (self, reconnect g
       "business algo subscription ACK does not match authenticated connection")
  | RecvMessage (Data arg data) =>
    if negb (bool_decide (parg_channel arg = ChOrdersAlgo))
       || negb (pv_algo_subscription_acked (co_state self))
    then (self, reconnect g "business algo event unauthenticated or malformed")
    else (with_state self (observe_algo_events (co_state self) (Nat.max (length data) 1)),
          Continue {| pg_last_inbound := pg_last_inbound g; pg_last_business_inbound := now;
                      pg_awaiting_pong_since := pg_awaiting_pong_since g;
                      pg_awaiting_business_pong_since := pg_awaiting_business_pong_since g;
                      pg_subscriptions_sent := pg_subscriptions_sent g;
                      pg_business_subscriptions_sent := pg_business_subscriptions_sent g;
                      pg_saw_data := true |})
  | RecvMessage (WsError code message _ _) =>
    (self, reconnect g ("business algo error " +:+ default "<none>" code
                        +:+ ": " +:+ default "<none>" message))
  | RecvMessage (Notice _ _ _) | RecvMessage (Unsubscribed _ _) | RecvMessage (Other _) =>
    (self, reconnect g "business algo stream was invalidated")
  end.

(** One socket's share of a heartbeat tick: [None] ends the generation with a timeout,
    otherwise the new [awaiting_pong_since] or the error of the ping. *)
Definition heartbeat (now last_inbound : Z) (awaiting : option Z)
    (ping : result PrivateRuntimeError unit) : option (result PrivateRuntimeError (option Z)) :=
  match awaiting with
  | Some sent_at =>
    if PONG_TIMEOUT_SECONDS * ns_per_second <=? now - sent_at then None else Some (Ok awaiting)
  | None =>
    if IDLE_BEFORE_PING_SECONDS * ns_per_second <=? now - last_inbound
    then Some (_ ← ping; Ok (Some now)) else Some (Ok awaiting)
  end.

Definition handle_tick (self : PrivateWsCoordinator) (g : GenerationState) (now : Z)
    (ping business_ping : result PrivateRuntimeError unit) : PrivateWsCoordinator * LoopResult :=
  match heartbeat now (pg_last_inbound g) (pg_awaiting_pong_since g) ping with
  | None => (self, reconnect g "OKX private application heartbeat timed out")
  | Some (Err e) => (self, Fail e)
  | Some (Ok awaiting) =>
    match heartbeat now (pg_last_business_inbound g) (pg_awaiting_business_pong_since g)
            business_ping with
    | None => (self, reconnect g "business algo heartbeat timed out")
    | Some (Err e) => (self, Fail e)
    | Some (Ok business_awaiting) =>
      (self, Continue {| pg_last_inbound := pg_last_inbound g;
                pg_last_business_inbound := pg_last_business_inbound g;
                pg_awaiting_pong_since := awaiting;
                pg_awaiting_business_pong_since := business_awaiting;
                pg_subscriptions_sent := pg_subscriptions_sent g;
                pg_business_subscriptions_sent := pg_business_subscriptions_sent g;
                pg_saw_data := pg_saw_data g |})
    end
  end.

(** What the [select!] of [run_generation] can deliver *)
Inductive LoopAction : Type :=
| ActPrivate (now now_ms : Z) (sent : result PrivateRuntimeError unit) (received : Received)
| ActBusiness (now : Z) (sent : result PrivateRuntimeError unit) (received : Received)
| ActTick (now : Z) (ping business_ping : result PrivateRuntimeError unit)
| ActShutdown.

Definition loop_step (self : PrivateWsCoordinator) (g : GenerationState) (action : LoopAction)
    : PrivateWsCoordinator * LoopResult :=
  match action with
  | ActPrivate now now_ms sent received => handle_private self g now now_ms sent received
  | ActBusiness now sent received => handle_business self g now sent received
  | ActTick now ping business_ping => handle_tick self g now ping business_ping
  | ActShutdown => (self, Return OutcomeShutdown)
  end.

(** Running a generation over what it receives, while the loop continues *)
Fixpoint run_loop (self : PrivateWsCoordinator) (g : GenerationState) (actions : list LoopAction)
    : option (PrivateWsCoordinator * GenerationState) :=
  match actions with
  | [] => Some (self, g)
  | action :: actions =>
    match loop_step self g action with
    | (self, Continue g) => run_loop self g actions
    | _ => None
    end
  end.

(** ** Specification: the loop as a history of transitions *)
Definition delivers_data (action : LoopAction) : bool :=
  match action with
  | ActPrivate _ _ _ (RecvMessage (Data _ _)) | ActBusiness _ _ (RecvMessage (Data _ _)) => true
  | _ => false
  end.

Lemma observe_algo_events_run s n :
  observe_algo_events s n = private_run s (repeat OpAlgoEvent n).
Proof.
  unfold observe_algo_events. revert s. induction n as [|n IH]; intros s; [done|].
  rewrite Nat.iter_succ_r. simpl. by rewrite IH.
Qed.

Ltac no_ops := exists []; split; [done|split; [constructor|done]].
Ltac one_op op := exists [op]; split; [done|split; [by repeat constructor|done]].

(** Each continuing step is a sequence of transitions of the same generation, and a data
    message contributes at least one event. *)
Lemma loop_step_ops self g action self' g' :
  loop_step self g action = (self', Continue g') →
  ∃ ops, co_state self' = private_run (co_state self) ops ∧ same_generation ops ∧
         (delivers_data action = true → ∃ op, op ∈ ops ∧ is_event op = true).
Proof.
  destruct action as [now now_ms sent r|now sent r|now p1 p2|]; simpl; intros E.
  - destruct r as [t| |m]; [done|done|]. destruct m; simpl in E; try done.
    + injection E as <- <-. no_ops.
    + destruct (negb _); [done|]. 
      destruct (pg_subscriptions_sent g), sent; try done; injection E as <- <-;
        one_op (OpLogin connection_id).
    + destruct (negb _); [done|]. injection E as <- <-. one_op (OpSubscribed arg connection_id).
    + destruct (bool_decide _); [done|]. injection E as <- <-. no_ops.
    + destruct (negb _); [done|]. destruct (private_event _ _) as [[ev|e]|]; try done.
      injection E as <- <-. exists [OpEvent ev now_ms]. split; [done|].
      split; [by repeat constructor|]. intros _. exists (OpEvent ev now_ms). split; [left|done].
    + injection E as <- <-. no_ops.
  - destruct r as [t| |m]; [done|done|]. destruct m; simpl in E; try done.
    + injection E as <- <-. no_ops.
    + destruct (negb _); [done|].
      destruct (pg_business_subscriptions_sent g), sent; try done; injection E as <- <-;
        one_op (OpBusinessLogin connection_id).
    + destruct (_ && bool_decide (private_subscription_from_arg arg = _)) eqn:Ea in E; [|done].
      injection E as <- <-. exists [OpAlgoSubscribed arg connection_id].
      split; [|split; [by repeat constructor|done]]. simpl. by rewrite Ea.
    + destruct (_ || _); [done|]. injection E as <- <-.
      exists (repeat OpAlgoEvent (Nat.max (length data) 1)). split; [apply observe_algo_events_run|].
      split; [apply Forall_forall; by intros op ->%list_elem_of_In%repeat_spec|].
      intros _. exists OpAlgoEvent. split; [|done].
      destruct (Nat.max (length data) 1) eqn:En; [lia|left].
  - unfold handle_tick in E. destruct (heartbeat _ _ _ p1) as [[a|]|]; try done.
    destruct (heartbeat _ _ _ p2) as [[b|]|]; try done. injection E as <- <-. no_ops.
  - done.
Qed.

Lemma run_loop_ops self g actions self' g' :
  run_loop self g actions = Some (self', g') →
  ∃ ops, co_state self' = private_run (co_state self) ops ∧ same_generation ops ∧
         (Exists (λ a, delivers_data a = true) actions → ∃ op, op ∈ ops ∧ is_event op = true).
Proof.
  revert self g. induction actions as [|a actions IH]; intros self g E; cbn [run_loop] in E.
  - injection E as <- <-. exists []. split; [done|]. split; [constructor|]. by inversion 1.
  - destruct (loop_step self g a) as [c [g1|o|e]] eqn:Es; try done.
    destruct (loop_step_ops _ _ _ _ _ Es) as (ops1 & H1 & Hs1 & Hd1).
    destruct (IH _ _ E) as (ops2 & H2 & Hs2 & Hd2).
    exists (ops1 ++ ops2). split; [by rewrite private_run_app, <- H1|].
    split; [by apply Forall_app|]. rewrite Exists_cons.
    intros [(op & ? & ?)%Hd1|(op & ? & ?)%Hd2]; exists op; set_solver.
Qed.
End coordinator.

(** ** Theorems *)
Section theorems.
Context `{Hashing} {json : Type} `{!Decode json BalanceSnapshot} `{!Decode json Position}
  `{!Decode json PendingOrder}.

(** A complete REST read.  Let a reader take both cursors from the running coordinator
    (whose state any history led to), read REST, and find the protected window unchanged
    after the loop has run on: then the loop received no data message on either socket in
    between, so the REST read saw a single state of the account's streams. *)
Theorem oco_read_undisturbed (self self' : PrivateWsCoordinator) (g g' : GenerationState)
    (actions : list (LoopAction (json:=json))) ops0 private algo :
  co_state self = private_run private_new ops0 →
  convergence_cursor (co_state self) = Ok private →
  algo_convergence_cursor (co_state self) = Ok algo →
  run_loop self g actions = Some (self', g') →
  pv_event_sequence (co_state self') < u64_max →
  protected_oco_window_unchanged (co_state self') private algo = true →
  Forall (λ a, delivers_data a = false) actions.
Proof.
  intros H0 Hc Ha Hrun Hmax Hguard.
  destruct (run_loop_ops _ _ _ _ _ Hrun) as (ops & Hops & Hsame & Hdata).
  rewrite H0 in Hops, Hc, Ha. rewrite <- private_run_app in Hops. rewrite Hops in Hmax, Hguard.
  destruct (guard_quiet ops0 ops private algo Hc Ha) as [Hq _]; [|done|done|].
  { clear -Hsame. generalize (pv_generation (private_run private_new ops0)).
    induction Hsame as [|op ops Hop _ IH]; intros z; [done|]. destruct op; try done; apply IH. }
  apply Forall_forall. intros a Hin. destruct (delivers_data a) eqn:Ed; [|done].
  destruct Hdata as (op & Hop & Hev); [by apply Exists_exists; exists a|].
  rewrite Forall_forall in Hq. destruct (Hq op Hop) as [_ Hq']. congruence.
Qed.
End theorems.

(** ** Witness *)
Section witnesses.
Local Existing Instance toy_hashing.
Local Instance decode_balance : Decode unit BalanceSnapshot := λ _, Err tt.
Local Instance decode_position : Decode unit Position := λ _, Err tt.
Local Instance decode_order : Decode unit PendingOrder := λ _, Err tt.

Definition sample_private : PrivateWsCoordinator :=
  {| co_state := private_run private_new sample_history; co_generation := 1;
     co_financial_source_signal := 0 |}.
Definition sample_actions : list (LoopAction (json:=unit)) :=
  [ActTick 25000000000 (Ok tt) (Ok tt); ActPrivate 26000000000 7 (Ok tt) (RecvMessage Pong)].

Lemma oco_read_undisturbed_witness :
  match run_loop sample_private (fresh_generation_state 0) sample_actions with
  | Some (c, _) => protected_oco_window_unchanged (co_state c) sample_cursor sample_algo_cursor = true
  | None => False
  end ∧ Forall (λ a, delivers_data a = false) sample_actions.
Proof.
  assert (match run_loop sample_private (fresh_generation_state 0) sample_actions with
          | Some (c, _) => protected_oco_window_unchanged (co_state c) sample_cursor sample_algo_cursor
                           && (pv_event_sequence (co_state c) <? u64_max)
          | None => false end = true) as Hok by (by vm_compute).
  destruct (run_loop sample_private (fresh_generation_state 0) sample_actions) as [[c g]|] eqn:E;
    [|discriminate].
  apply andb_true_iff in Hok as [Hok Hmax]. split; [exact Hok|].
  apply (oco_read_undisturbed sample_private c (fresh_generation_state 0) g sample_actions
           sample_history sample_cursor sample_algo_cursor);
    [reflexivity|by vm_compute|by vm_compute|exact E|by apply Z.ltb_lt|exact Hok].
Defined.
End witnesses.
