(* ===== verification/History.v ===== *)
(** * History: bounded market history, [okx-observation/src/history.rs]

    Candles, trades, funding events and open-interest points arrive as pages of rows in
    any order.  Each page is checked row by row (timestamp, identity, required fields),
    refused when an identity repeats, ordered by time, and published under a generation
    that digests its contents.  The theorems say exactly which pages are accepted and
    with what result, and that neither the order of the rows nor the time of receipt
    changes the generation. *)
From stdpp Require Import base option list numbers strings gmap sorting.
From Stdlib Require Import ZArith Lia.
From S2P Require Import Prelude Text Ordered External Wire Reference.
Local Open Scope string_scope.
Local Open Scope list_scope.

(** ** Data *)
Definition MARKET_HISTORY_SCHEMA_V1 : string := "okx.market-history/v1".
Definition MARKET_HISTORY_SOURCE_V1 : string := "okx_public_rest_history".
Definition MARKET_TRADES_SCHEMA_V1 : string := "okx.market-trades/v1".
Definition MARKET_TRADES_SOURCE_V1 : string := "okx_public_rest_trades".
Definition FUNDING_HISTORY_SCHEMA_V1 : string := "okx.funding-history/v1".
Definition FUNDING_HISTORY_SOURCE_V1 : string := "okx_public_rest_funding_history".
Definition OPEN_INTEREST_HISTORY_SCHEMA_V1 : string := "okx.open-interest-history/v1".
Definition OPEN_INTEREST_HISTORY_SOURCE_V1 : string := "okx_public_rest_contract_oi_history".
Definition MARKET_RESEARCH_SOURCE_GENERATION_SCHEMA_V1 : string :=
  "okx.market-research-source-generation/v1".

Record HistoryCandle : Type := {
  hc_open_time_ms : string;
  hc_open : string;
  hc_high : string;
  hc_low : string;
  hc_close : string;
  hc_volume : string;
  hc_volume_currency : string;
  hc_volume_quote : option string;
  hc_confirmed : bool;
}.

Record MarketHistorySnapshot : Type := {
  mhs_schema : string;
  mhs_instrument_id : string;
  mhs_bar : string;
  mhs_requested_limit : Z;
  mhs_reference_generation : string;
  mhs_source : string;
  mhs_source_received_at : string;
  mhs_history_generation : string;
  mhs_all_confirmed : bool;
  mhs_oldest_open_time_ms : string;
  mhs_newest_open_time_ms : string;
  mhs_candles : list HistoryCandle;
}.

Inductive MarketTradeSide : Type := Buy | Sell.

Record MarketTrade : Type := {
  mt_trade_id : string;
  mt_price : string;
  mt_size_contracts : string;
  mt_side : MarketTradeSide;
  mt_source : option string;
  mt_exchange_timestamp_ms : string;
}.

Record MarketTradesSnapshot : Type := {
  mts_schema : string;
  mts_instrument_id : string;
  mts_requested_limit : Z;
  mts_reference_generation : string;
  mts_source : string;
  mts_source_received_at : string;
  mts_trades_generation : string;
  mts_oldest_exchange_timestamp_ms : option string;
  mts_newest_exchange_timestamp_ms : option string;
  mts_trades : list MarketTrade;
}.

Record FundingHistoryEvent : Type := {
  fe_funding_time_ms : string;
  fe_funding_rate : string;
  fe_realized_rate : option string;
  fe_formula_type : option string;
  fe_method : option string;
}.

Record FundingHistorySnapshot : Type := {
  fhs_schema : string;
  fhs_instrument_id : string;
  fhs_requested_limit : Z;
  fhs_reference_generation : string;
  fhs_source : string;
  fhs_source_received_at : string;
  fhs_funding_generation : string;
  fhs_oldest_funding_time_ms : option string;
  fhs_newest_funding_time_ms : option string;
  fhs_events : list FundingHistoryEvent;
}.

Record OpenInterestHistoryPoint : Type := {
  oip_timestamp_ms : string;
  oip_open_interest_contracts : string;
  oip_open_interest_currency : string;
}.

Record OpenInterestHistorySnapshot : Type := {
  ohs_schema : string;
  ohs_instrument_id : string;
  ohs_period : string;
  ohs_requested_limit : Z;
  ohs_reference_generation : string;
  ohs_source : string;
  ohs_source_received_at : string;
  ohs_open_interest_generation : string;
  ohs_oldest_timestamp_ms : option string;
  ohs_newest_timestamp_ms : option string;
  ohs_points : list OpenInterestHistoryPoint;
}.

(** What the generations digest: a struct for candles, tuples for the others *)
Record HistoryGenerationInput : Type := {
  hgi_schema : string;
  hgi_instrument_id : string;
  hgi_bar : string;
  hgi_requested_limit : Z;
  hgi_reference_generation : string;
  hgi_source : string;
  hgi_candles : list HistoryCandle;
}.
Definition OpenInterestGenerationInput : Type :=
  string * string * string * Z * string * string * list OpenInterestHistoryPoint.
Definition TradesGenerationInput : Type :=
  string * string * Z * string * string * list MarketTrade.
Definition FundingGenerationInput : Type :=
  string * string * Z * string * string * list FundingHistoryEvent.
Definition ResearchGenerationInput : Type :=
  string * string * string * string * string * option string * option string.

Section history.
Context `{Hashing} `{!Serialize HistoryGenerationInput}
  `{!Serialize OpenInterestGenerationInput} `{!Serialize TradesGenerationInput}
  `{!Serialize FundingGenerationInput} `{!Serialize ResearchGenerationInput}.

Inductive MarketHistoryError : Type :=
| EmptySourceTimestamp
| InvalidLimit
| InstrumentNotFound (id : string)
| InstrumentNotLive (id : string)
| EmptyHistory
| TooManyRows
| InvalidTimestamp (value : string)
| DuplicateTimestamp (value : string)
| MissingField (field : string)
| InvalidConfirm (value : string)
| InstrumentMismatch (expected actual : string)
| DuplicateTradeId (value : string)
| InvalidTradeSide (value : string)
| DuplicateFundingTimestamp (value : string)
| DuplicateOpenInterestTimestamp (value : string)
| FundingNotApplicable (id : string)
| Serialization (e : SerdeError).

(** ** Fields *)
Definition required (field value : string) : result MarketHistoryError string :=
  if is_blank value then Err (MissingField field) else Ok value.
Definition optional (value : option string) : option string := v ← value; non_blank v.
Definition parse_timestamp (value : string) : result MarketHistoryError Z :=
  ok_or (InvalidTimestamp value) (parse_u64 value).

(** ** Rows: the loop bodies of the four normalizations; the state is what was collected,
    with the parsed timestamps, and the identities seen *)
Definition candle_step (acc : list (Z * HistoryCandle) * gset Z) (row : PublicCandle)
    : result MarketHistoryError (list (Z * HistoryCandle) * gset Z) :=
  let '(normalized, timestamps) := acc in
  timestamp ← parse_timestamp (cd_timestamp_ms row);
  if decide (timestamp ∈ timestamps) then Err (DuplicateTimestamp (cd_timestamp_ms row)) else
  confirmed ← (if cd_confirm row =? "0" then Ok false
               else if cd_confirm row =? "1" then Ok true
               else Err (InvalidConfirm (cd_confirm row)))%string;
  open_time_ms ← required "ts" (cd_timestamp_ms row);
  open ← required "o" (cd_open row);
  high ← required "h" (cd_high row);
  low ← required "l" (cd_low row);
  close ← required "c" (cd_close row);
  volume ← required "vol" (cd_volume row);
  volume_currency ← required "volCcy" (cd_volume_currency row);
  Ok (normalized ++ [(timestamp, {|
        hc_open_time_ms := open_time_ms;
        hc_open := open;
        hc_high := high;
        hc_low := low;
        hc_close := close;
        hc_volume := volume;
        hc_volume_currency := volume_currency;
        hc_volume_quote := optional (cd_volume_quote row);
        hc_confirmed := confirmed |})], {[timestamp]} ∪ timestamps).

Definition trade_step (instrument_id : string) (acc : list (Z * MarketTrade) * gset string)
    (row : PublicTrade) : result MarketHistoryError (list (Z * MarketTrade) * gset string) :=
  let '(normalized, trade_ids) := acc in
  if negb (tr_instrument_id row =? instrument_id)%string
  then Err (InstrumentMismatch instrument_id (tr_instrument_id row)) else
  if decide (tr_trade_id row ∈ trade_ids) then Err (DuplicateTradeId (tr_trade_id row)) else
  timestamp ← parse_timestamp (tr_timestamp_ms row);
  side ← (if tr_side row =? "buy" then Ok Buy
          else if tr_side row =? "sell" then Ok Sell
          else Err (InvalidTradeSide (tr_side row)))%string;
  trade_id ← required "tradeId" (tr_trade_id row);
  price ← required "px" (tr_price row);
  size ← required "sz" (tr_size row);
  exchange_timestamp_ms ← required "ts" (tr_timestamp_ms row);
  Ok (normalized ++ [(timestamp, {|
        mt_trade_id := trade_id;
        mt_price := price;
        mt_size_contracts := size;
        mt_side := side;
        mt_source := non_blank (tr_source row);
        mt_exchange_timestamp_ms := exchange_timestamp_ms |})], {[tr_trade_id row]} ∪ trade_ids).

Definition funding_step (instrument_id : string)
    (acc : list (Z * FundingHistoryEvent) * gset Z) (row : PublicFundingHistory)
    : result MarketHistoryError (list (Z * FundingHistoryEvent) * gset Z) :=
  let '(normalized, timestamps) := acc in
  if negb (fh_instrument_id row =? instrument_id)%string
  then Err (InstrumentMismatch instrument_id (fh_instrument_id row)) else
  timestamp ← parse_timestamp (fh_funding_time_ms row);
  if decide (timestamp ∈ timestamps)
  then Err (DuplicateFundingTimestamp (fh_funding_time_ms row)) else
  funding_time_ms ← required "fundingTime" (fh_funding_time_ms row);
  funding_rate ← required "fundingRate" (fh_funding_rate row);
  Ok (normalized ++ [(timestamp, {|
        fe_funding_time_ms := funding_time_ms;
        fe_funding_rate := funding_rate;
        fe_realized_rate := non_blank (fh_realized_rate row);
        fe_formula_type := non_blank (fh_formula_type row);
        fe_method := non_blank (fh_method row) |})], {[timestamp]} ∪ timestamps).

Definition open_interest_step (acc : list (Z * OpenInterestHistoryPoint) * gset Z)
    (row : PublicOpenInterestHistory)
    : result MarketHistoryError (list (Z * OpenInterestHistoryPoint) * gset Z) :=
  let '(normalized, timestamps) := acc in
  timestamp ← parse_timestamp (oih_ts row);
  if decide (timestamp ∈ timestamps)
  then Err (DuplicateOpenInterestTimestamp (oih_ts row)) else
  timestamp_ms ← required "ts" (oih_ts row);
  contracts ← required "oi" (oih_oi row);
  currency ← required "oiCcy" (oih_oi_currency row);
  Ok (normalized ++ [(timestamp, {|
        oip_timestamp_ms := timestamp_ms;
        oip_open_interest_contracts := contracts;
        oip_open_interest_currency := currency |})], {[timestamp]} ∪ timestamps).

(** ** Pages *)
Definition normalize_research_candles (rows : list PublicCandle) (max_rows : Z)
    : result MarketHistoryError (list HistoryCandle) :=
  if (max_rows <? Z.of_nat (length rows))%Z then Err TooManyRows else
  acc ← try_fold candle_step ([], ∅) rows;
  Ok (map snd (sort_by (cmp_on fst) acc.1)).

(** By timestamp, then by trade id *)
Definition trade_key (p : Z * MarketTrade) : Z * string := (p.1, mt_trade_id p.2).

Definition normalize_research_trades (instrument_id : string) (rows : list PublicTrade)
    (max_rows : Z) : result MarketHistoryError (list MarketTrade) :=
  if (max_rows <? Z.of_nat (length rows))%Z then Err TooManyRows else
  acc ← try_fold (trade_step instrument_id) ([], ∅) rows;
  Ok (map snd (sort_by (cmp_on trade_key) acc.1)).

Definition normalize_research_funding (instrument_id : string)
    (rows : list PublicFundingHistory) (max_rows : Z)
    : result MarketHistoryError (list FundingHistoryEvent) :=
  if (max_rows <? Z.of_nat (length rows))%Z then Err TooManyRows else
  acc ← try_fold (funding_step instrument_id) ([], ∅) rows;
  Ok (map snd (sort_by (cmp_on fst) acc.1)).

(** The loop inside [OpenInterestHistorySnapshot::from_public] *)
Definition normalize_open_interest (rows : list PublicOpenInterestHistory)
    : result MarketHistoryError (list OpenInterestHistoryPoint) :=
  acc ← try_fold open_interest_step ([], ∅) rows;
  Ok (map snd (sort_by (cmp_on fst) acc.1)).

(** ** Generations *)
Definition history_generation_for (s : MarketHistorySnapshot) : result MarketHistoryError string :=
  map_err Serialization (digest_json {|
    hgi_schema := MARKET_HISTORY_SCHEMA_V1;
    hgi_instrument_id := mhs_instrument_id s;
    hgi_bar := mhs_bar s;
    hgi_requested_limit := mhs_requested_limit s;
    hgi_reference_generation := mhs_reference_generation s;
    hgi_source := MARKET_HISTORY_SOURCE_V1;
    hgi_candles := mhs_candles s |}).

Definition open_interest_generation_for (s : OpenInterestHistorySnapshot)
    : result MarketHistoryError string :=
  map_err Serialization (digest_json (T:=OpenInterestGenerationInput)
    (OPEN_INTEREST_HISTORY_SCHEMA_V1, ohs_instrument_id s, ohs_period s, ohs_requested_limit s,
     ohs_reference_generation s, OPEN_INTEREST_HISTORY_SOURCE_V1, ohs_points s)).

Definition trades_generation_for (s : MarketTradesSnapshot) : result MarketHistoryError string :=
  map_err Serialization (digest_json (T:=TradesGenerationInput)
    (MARKET_TRADES_SCHEMA_V1, mts_instrument_id s, mts_requested_limit s,
     mts_reference_generation s, MARKET_TRADES_SOURCE_V1, mts_trades s)).

Definition funding_generation_for (s : FundingHistorySnapshot)
    : result MarketHistoryError string :=
  map_err Serialization (digest_json (T:=FundingGenerationInput)
    (FUNDING_HISTORY_SCHEMA_V1, fhs_instrument_id s, fhs_requested_limit s,
     fhs_reference_generation s, FUNDING_HISTORY_SOURCE_V1, fhs_events s)).

Definition market_research_source_generation (reference_generation market_generation
    history_generation trades_generation : string)
    (funding_generation open_interest_generation : option string)
    : result MarketHistoryError string :=
  map_err Serialization (digest_json (T:=ResearchGenerationInput)
    (MARKET_RESEARCH_SOURCE_GENERATION_SCHEMA_V1, reference_generation, market_generation,
     history_generation, trades_generation, funding_generation, open_interest_generation)).

(** ** Snapshots *)
Definition validate_history_request (reference : ReferenceRegistry) (instrument_id : string)
    (requested_limit : Z) : result MarketHistoryError unit :=
  if negb ((1 <=? requested_limit) && (requested_limit <=? 100))%Z then Err InvalidLimit else
  instrument ← ok_or (InstrumentNotFound instrument_id) (get reference instrument_id);
  if negb (is_state instrument =? "live")%string then Err (InstrumentNotLive instrument_id)
  else Ok tt.

Definition validate_source_timestamp (value : string) : result MarketHistoryError string :=
  if is_blank value then Err EmptySourceTimestamp else Ok value.

(** [MarketHistorySnapshot::from_public] *)
Definition market_history_from_public (reference : ReferenceRegistry)
    (instrument_id bar : string) (requested_limit : Z) (source_received_at : string)
    (rows : list PublicCandle) : result MarketHistoryError MarketHistorySnapshot :=
  if negb ((1 <=? requested_limit) && (requested_limit <=? 100))%Z then Err InvalidLimit else
  if is_blank source_received_at then Err EmptySourceTimestamp else
  instrument ← ok_or (InstrumentNotFound instrument_id) (get reference instrument_id);
  if negb (is_state instrument =? "live")%string then Err (InstrumentNotLive instrument_id) else
  match rows with
  | [] => Err EmptyHistory
  | _ :: _ =>
    if (requested_limit <? Z.of_nat (length rows))%Z then Err TooManyRows else
    candles ← normalize_research_candles rows requested_limit;
    match head candles, last candles with
    | Some oldest, Some newest =>
      let snapshot generation := {|
        mhs_schema := MARKET_HISTORY_SCHEMA_V1;
        mhs_instrument_id := instrument_id;
        mhs_bar := bar;
        mhs_requested_limit := requested_limit;
        mhs_reference_generation := reg_generation reference;
        mhs_source := MARKET_HISTORY_SOURCE_V1;
        mhs_source_received_at := source_received_at;
        mhs_history_generation := generation;
        mhs_all_confirmed := forallb hc_confirmed candles;
        mhs_oldest_open_time_ms := hc_open_time_ms oldest;
        mhs_newest_open_time_ms := hc_open_time_ms newest;
        mhs_candles := candles |} in
      generation ← history_generation_for (snapshot "");
      Ok (snapshot generation)
    | _, _ => Err EmptyHistory
    end
  end.

(** [OpenInterestHistorySnapshot::from_public] *)
Definition open_interest_history_from_public (reference : ReferenceRegistry)
    (instrument_id period : string) (requested_limit : Z) (source_received_at : string)
    (rows : list PublicOpenInterestHistory)
    : result MarketHistoryError OpenInterestHistorySnapshot :=
  _ ← validate_history_request reference instrument_id requested_limit;
  source_received_at ← validate_source_timestamp source_received_at;
  if (requested_limit <? Z.of_nat (length rows))%Z then Err TooManyRows else
  points ← normalize_open_interest rows;
  let snapshot generation := {|
    ohs_schema := OPEN_INTEREST_HISTORY_SCHEMA_V1;
    ohs_instrument_id := instrument_id;
    ohs_period := period;
    ohs_requested_limit := requested_limit;
    ohs_reference_generation := reg_generation reference;
    ohs_source := OPEN_INTEREST_HISTORY_SOURCE_V1;
    ohs_source_received_at := source_received_at;
    ohs_open_interest_generation := generation;
    ohs_oldest_timestamp_ms := oip_timestamp_ms <$> head points;
    ohs_newest_timestamp_ms := oip_timestamp_ms <$> last points;
    ohs_points := points |} in
  generation ← open_interest_generation_for (snapshot "");
  Ok (snapshot generation).

(** [MarketTradesSnapshot::from_public] *)
Definition market_trades_from_public (reference : ReferenceRegistry) (instrument_id : string)
    (requested_limit : Z) (source_received_at : string) (rows : list PublicTrade)
    : result MarketHistoryError MarketTradesSnapshot :=
  _ ← validate_history_request reference instrument_id requested_limit;
  source_received_at ← validate_source_timestamp source_received_at;
  if (requested_limit <? Z.of_nat (length rows))%Z then Err TooManyRows else
  trades ← normalize_research_trades instrument_id rows requested_limit;
  let snapshot generation := {|
    mts_schema := MARKET_TRADES_SCHEMA_V1;
    mts_instrument_id := instrument_id;
    mts_requested_limit := requested_limit;
    mts_reference_generation := reg_generation reference;
    mts_source := MARKET_TRADES_SOURCE_V1;
    mts_source_received_at := source_received_at;
    mts_trades_generation := generation;
    mts_oldest_exchange_timestamp_ms := mt_exchange_timestamp_ms <$> head trades;
    mts_newest_exchange_timestamp_ms := mt_exchange_timestamp_ms <$> last trades;
    mts_trades := trades |} in
  generation ← trades_generation_for (snapshot "");
  Ok (snapshot generation).

(** [FundingHistorySnapshot::from_public] *)
Definition funding_history_from_public (reference : ReferenceRegistry) (instrument_id : string)
    (requested_limit : Z) (source_received_at : string) (rows : list PublicFundingHistory)
    : result MarketHistoryError FundingHistorySnapshot :=
  _ ← validate_history_request reference instrument_id requested_limit;
  instrument ← ok_or (InstrumentNotFound instrument_id) (get reference instrument_id);
  if negb (bool_decide (is_funding_requirement instrument = Required))
  then Err (FundingNotApplicable instrument_id) else
  source_received_at ← validate_source_timestamp source_received_at;
  if (requested_limit <? Z.of_nat (length rows))%Z then Err TooManyRows else
  events ← normalize_research_funding instrument_id rows requested_limit;
  let snapshot generation := {|
    fhs_schema := FUNDING_HISTORY_SCHEMA_V1;
    fhs_instrument_id := instrument_id;
    fhs_requested_limit := requested_limit;
    fhs_reference_generation := reg_generation reference;
    fhs_source := FUNDING_HISTORY_SOURCE_V1;
    fhs_source_received_at := source_received_at;
    fhs_funding_generation := generation;
    fhs_oldest_funding_time_ms := fe_funding_time_ms <$> head events;
    fhs_newest_funding_time_ms := fe_funding_time_ms <$> last events;
    fhs_events := events |} in
  generation ← funding_generation_for (snapshot "");
  Ok (snapshot generation).
End history.

(** ** Specification: what a row must be, and what a page of rows becomes *)
Section spec.
Context `{Hashing}.

Definition given (fields : list string) : Prop := Forall (λ f, is_blank f = false) fields.

(** [candle_row r (t, c)]: the row [r] is acceptable, has time [t] and is the candle [c]. *)
Definition candle_row (r : PublicCandle) (p : Z * HistoryCandle) : Prop :=
  parse_u64 (cd_timestamp_ms r) = Some p.1 ∧
  given [cd_timestamp_ms r; cd_open r; cd_high r; cd_low r; cd_close r; cd_volume r;
         cd_volume_currency r] ∧
  cd_confirm r = (if hc_confirmed p.2 then "1" else "0") ∧
  p.2 = {| hc_open_time_ms := cd_timestamp_ms r; hc_open := cd_open r; hc_high := cd_high r;
           hc_low := cd_low r; hc_close := cd_close r; hc_volume := cd_volume r;
           hc_volume_currency := cd_volume_currency r;
           hc_volume_quote := optional (cd_volume_quote r); hc_confirmed := hc_confirmed p.2 |}.

Definition trade_row (instrument_id : string) (r : PublicTrade) (p : Z * MarketTrade) : Prop :=
  tr_instrument_id r = instrument_id ∧ parse_u64 (tr_timestamp_ms r) = Some p.1 ∧
  given [tr_trade_id r; tr_price r; tr_size r; tr_timestamp_ms r] ∧
  tr_side r = (match mt_side p.2 with Buy => "buy" | Sell => "sell" end) ∧
  p.2 = {| mt_trade_id := tr_trade_id r; mt_price := tr_price r; mt_size_contracts := tr_size r;
           mt_side := mt_side p.2; mt_source := non_blank (tr_source r);
           mt_exchange_timestamp_ms := tr_timestamp_ms r |}.

Definition funding_row (instrument_id : string) (r : PublicFundingHistory)
    (p : Z * FundingHistoryEvent) : Prop :=
  fh_instrument_id r = instrument_id ∧ parse_u64 (fh_funding_time_ms r) = Some p.1 ∧
  given [fh_funding_time_ms r; fh_funding_rate r] ∧
  p.2 = {| fe_funding_time_ms := fh_funding_time_ms r; fe_funding_rate := fh_funding_rate r;
           fe_realized_rate := non_blank (fh_realized_rate r);
           fe_formula_type := non_blank (fh_formula_type r);
           fe_method := non_blank (fh_method r) |}.

Definition open_interest_row (r : PublicOpenInterestHistory) (p : Z * OpenInterestHistoryPoint)
    : Prop :=
  parse_u64 (oih_ts r) = Some p.1 ∧ given [oih_ts r; oih_oi r; oih_oi_currency r] ∧
  p.2 = {| oip_timestamp_ms := oih_ts r; oip_open_interest_contracts := oih_oi r;
           oip_open_interest_currency := oih_oi_currency r |}.

(** The rows, rearranged, are acceptable one by one, no identity repeats, and they are in
    strictly increasing order of their sort key. *)
Definition ordered_page {R X K S} `{OrdKey S} (row : R → Z * X → Prop) (key : Z * X → K)
    (sort_key : Z * X → S) (rows : list R) (out : list X) : Prop :=
  ∃ rows' ps, rows' ≡ₚ rows ∧ Forall2 row rows' ps ∧ NoDup (map key ps) ∧
    StronglySorted (λ p q, kcmp (sort_key p) (sort_key q) = Lt) ps ∧ out = map snd ps.

Definition trade_identity (p : Z * MarketTrade) : string := mt_trade_id p.2.

(** ** Lemmas *)
Lemma required_field_iff field value v :
  required field value = Ok v ↔ v = value ∧ is_blank value = false.
Proof. unfold required. destruct (is_blank value); naive_solver. Qed.

Lemma parse_timestamp_iff value t : parse_timestamp value = Ok t ↔ parse_u64 value = Some t.
Proof. unfold parse_timestamp. destruct (parse_u64 value); simpl; naive_solver. Qed.

(** A loop body that appends the row's record unless its identity was seen *)
Definition RowSpec {E R P K} `{Countable K}
    (step : list P * gset K → R → result E (list P * gset K)) (row : R → P → Prop)
    (key : P → K) : Prop :=
  ∀ acc seen r s, step (acc, seen) r = Ok s ↔
    ∃ p, row r p ∧ key p ∉ seen ∧ s = (acc ++ [p], {[key p]} ∪ seen).

Lemma rows_loop {E R P K} `{Countable K}
    (step : list P * gset K → R → result E (list P * gset K)) row key rows s :
  RowSpec step row key →
  try_fold step ([], ∅) rows = Ok s ↔
  Forall2 row rows s.1 ∧ NoDup (map key s.1) ∧ s.2 = list_to_set (map key s.1).
Proof.
  intros Hspec. revert s. induction rows as [|r rows IH] using rev_ind; intros [acc seen].
  - simpl. split.
    + intros [= <- <-]. by repeat constructor.
    + intros (Hf & _ & ->). apply Forall2_nil_inv_l in Hf as ->. done.
  - rewrite try_fold_app. simpl. split.
    + intros E1. apply bind_ok in E1 as ([acc1 seen1] & E1 & E2). simpl in E2.
      apply bind_ok in E2 as (s2 & E2 & [= ->]). apply IH in E1 as (Hf & Hnd & Hseen).
      apply Hspec in E2 as (p & Hp & Hn & [= -> ->]). simpl in *. subst seen1.
      rewrite map_app. split_and!.
      * by apply Forall2_app; [|repeat constructor].
      * apply NoDup_app. split_and!; [done| |by apply NoDup_singleton].
        intros k Hk ->%list_elem_of_singleton. apply Hn. by apply elem_of_list_to_set.
      * simpl. apply set_eq. intros k. rewrite list_to_set_app. set_solver.
    + intros (Hf & Hnd & Hseen). simpl in Hf, Hnd, Hseen.
      apply Forall2_app_inv_l in Hf as (acc1 & l2 & Hf & Hl2 & ->).
      apply Forall2_cons_inv_l in Hl2 as (p & l3 & Hp & Hl3 & ->).
      apply Forall2_nil_inv_l in Hl3 as ->. rewrite map_app in Hnd, Hseen.
      apply NoDup_app in Hnd as (Hnd & Hdis & _).
      rewrite (proj2 (IH (acc1, list_to_set (map key acc1)))) by done. simpl.
      rewrite (proj2 (Hspec acc1 (list_to_set (map key acc1)) r
        (acc1 ++ [p], {[key p]} ∪ list_to_set (map key acc1)))).
      * simpl. do 2 f_equal. subst seen. simpl. apply set_eq. intros k.
        rewrite list_to_set_app. set_solver.
      * exists p. split_and!; [done| |done]. rewrite elem_of_list_to_set.
        intros Hk. apply (Hdis _ Hk). simpl. by apply list_elem_of_singleton.
Qed.

(** Rows rearranged alongside their records *)
Lemma Forall2_perm_r {A B} (R : A → B → Prop) l k k' :
  Forall2 R l k → k ≡ₚ k' → ∃ l', l ≡ₚ l' ∧ Forall2 R l' k'.
Proof.
  intros Hf Hp. revert l Hf. induction Hp as [|b k k' _ IH|b c k|k k' k'' _ IH1 _ IH2]; intros l Hf.
  - apply Forall2_nil_inv_r in Hf as ->. by exists [].
  - apply Forall2_cons_inv_r in Hf as (a & l1 & Ha & Hf & ->).
    destruct (IH l1 Hf) as (l2 & Hl & Hf2). exists (a :: l2). by split; [rewrite Hl|constructor].
  - apply Forall2_cons_inv_r in Hf as (a & l1 & Ha & Hf & ->).
    apply Forall2_cons_inv_r in Hf as (a2 & l2 & Ha2 & Hf & ->).
    exists (a2 :: a :: l2). split; [apply Permutation_swap|by repeat constructor].
  - destruct (IH1 l Hf) as (l1 & Hl1 & Hf1). destruct (IH2 l1 Hf1) as (l2 & Hl2 & Hf2).
    exists l2. by rewrite Hl1.
Qed.

Lemma Forall2_perm_l {A B} (R : A → B → Prop) l l' k :
  Forall2 R l k → l ≡ₚ l' → ∃ k', k ≡ₚ k' ∧ Forall2 R l' k'.
Proof.
  intros Hf%Forall2_flip Hp. destruct (Forall2_perm_r _ _ _ _ Hf Hp) as (k' & ? & ?%Forall2_flip).
  by exists k'.
Qed.

(** The loop followed by the sort is [ordered_page], when equal sort keys mean equal
    identities. *)
Lemma page_iff {E R X K S} `{Countable K} `{OrdLaws S}
    (step : list (Z * X) * gset K → R → result E (list (Z * X) * gset K)) row key
    (sort_key : Z * X → S) rows out :
  RowSpec step row key →
  (∀ p q, kcmp (sort_key p) (sort_key q) = Eq → key p = key q) →
  (acc ← try_fold step ([], ∅) rows; Ok (map snd (sort_by (cmp_on sort_key) acc.1))) = Ok out ↔
  ordered_page row key sort_key rows out.
Proof.
  intros Hspec Hkey. split.
  - intros E1. apply bind_ok in E1 as ([ps seen] & E1 & [= <-]).
    apply (rows_loop _ _ _ _ _ Hspec) in E1 as (Hf & Hnd & _). simpl in *.
    pose proof (sort_by_perm (cmp_on sort_key) ps) as Hp.
    destruct (Forall2_perm_r _ _ _ _ Hf (symmetry Hp)) as (rows' & Hr & Hf').
    exists rows', (sort_by (cmp_on sort_key) ps). split_and!; [done|done|by rewrite Hp| |done].
    apply sorted_strict; [rewrite Hp; by eapply NoDup_fmap_1| |apply sort_by_key_sorted].
    intros p q Hpi Hqi Heq%Hkey. rewrite Hp in Hpi, Hqi. by eapply NoDup_map_inj.
  - intros (rows' & ps & Hr & Hf & Hnd & Hs & ->).
    destruct (Forall2_perm_l _ _ _ _ Hf Hr) as (ps0 & Hp & Hf0).
    rewrite (proj2 (rows_loop _ _ _ rows (ps0, list_to_set (map key ps0)) Hspec)); simpl.
    2: { split_and!; [done| |done]. by rewrite <- Hp. }
    do 2 f_equal.
    apply (StronglySorted_unique_strong (λ x y, kcmp (sort_key x) (sort_key y) ≠ Gt)).
    + intros x y Hx Hy Hxy Hyx. rewrite sort_by_perm, <- Hp in Hx.
      assert (kcmp (sort_key x) (sort_key y) = Eq) as Heq.
      { rewrite kcmp_antisym in Hyx. by destruct (kcmp (sort_key x) (sort_key y)). }
      apply Hkey in Heq. by eapply NoDup_map_inj.
    + apply sort_by_key_sorted.
    + eapply StronglySorted_weaken; [|exact Hs]. intros x y Hlt. by rewrite Hlt.
    + by rewrite sort_by_perm, Hp.
Qed.

(** Peel the steps of an accepted row, and build one from its fields. *)
Ltac row_fields E :=
  repeat match type of E with
  | (parse_timestamp _ ≫= _) = Ok _ =>
      let t := fresh "t" in let Ht := fresh "Ht" in
      apply bind_ok in E as (t & Ht & E); apply parse_timestamp_iff in Ht
  | (required _ _ ≫= _) = Ok _ =>
      let v := fresh "v" in let Hv := fresh "Hv" in
      apply bind_ok in E as (v & Hv & E); apply required_field_iff in Hv as [-> Hv]
  end.
Ltac row_build :=
  repeat match goal with
  | Ht : parse_u64 ?v = Some _ |- context [parse_timestamp ?v] =>
      rewrite (proj2 (parse_timestamp_iff v _) Ht)
  | Hv : is_blank ?v = false |- context [required ?f ?v] =>
      rewrite (proj2 (required_field_iff f v v) (conj eq_refl Hv))
  end; simpl.

Lemma candle_step_spec : RowSpec candle_step candle_row fst.
Proof.
  intros acc seen r s. unfold candle_step, candle_row, given. split.
  - intros E. row_fields E. destruct (decide _) as [|Hn]; [done|].
    apply bind_ok in E as (confirmed & Hc & E). row_fields E. injection E as <-.
    eexists (t, _). split; [|split; [|reflexivity]]; [|exact Hn]. unfold given. rewrite !Forall_cons. simpl.
    split_and!; try done.
    destruct (String.eqb_spec (cd_confirm r) "0") as [->|]; [by injection Hc as <-|].
    destruct (String.eqb_spec (cd_confirm r) "1") as [->|]; [by injection Hc as <-|done].
  - intros ([t c] & (Ht & Hg & Hc & Hp) & Hn & ->). simpl in *. rewrite Hp. clear Hp.
    rewrite !Forall_cons in Hg. destruct Hg as (? & ? & ? & ? & ? & ? & ? & _).
    row_build. rewrite decide_False by done. by destruct (hc_confirmed c); rewrite Hc; row_build.
Qed.

Lemma trade_step_spec instrument_id :
  RowSpec (trade_step instrument_id) (trade_row instrument_id) trade_identity.
Proof.
  intros acc seen r s. unfold trade_step, trade_row, given. split.
  - intros E. destruct (String.eqb_spec (tr_instrument_id r) instrument_id); [|done]. simpl in E.
    destruct (decide _) as [|Hn]; [done|]. row_fields E.
    apply bind_ok in E as (side & Hs & E). row_fields E. injection E as <-.
    exists (t, {| mt_trade_id := tr_trade_id r; mt_price := tr_price r;
      mt_size_contracts := tr_size r; mt_side := side; mt_source := non_blank (tr_source r);
      mt_exchange_timestamp_ms := tr_timestamp_ms r |}).
    split; [|split; [|reflexivity]]; [|exact Hn]. unfold given. rewrite !Forall_cons. simpl.
    split_and!; try done.
    destruct (String.eqb_spec (tr_side r) "buy") as [->|]; [by injection Hs as <-|].
    destruct (String.eqb_spec (tr_side r) "sell") as [->|]; [by injection Hs as <-|done].
  - intros ([t c] & (Hi & Ht & Hg & Hc & Hp) & Hn & ->). simpl in *. rewrite Hp in Hn |- *. clear Hp.
    rewrite !Forall_cons in Hg. destruct Hg as (? & ? & ? & ? & _).
    rewrite Hi, String.eqb_refl. simpl. rewrite decide_False by done.
    row_build. by destruct (mt_side c); rewrite Hc; row_build.
Qed.

Lemma funding_step_spec instrument_id :
  RowSpec (funding_step instrument_id) (funding_row instrument_id) fst.
Proof.
  intros acc seen r s. unfold funding_step, funding_row, given. split.
  - intros E. destruct (String.eqb_spec (fh_instrument_id r) instrument_id); [|done]. simpl in E.
    row_fields E. destruct (decide _) as [|Hn]; [done|]. row_fields E. injection E as <-.
    eexists (t, _). split; [|split; [|reflexivity]]; [|exact Hn]. unfold given. rewrite !Forall_cons. simpl.
    by split_and!.
  - intros ([t c] & (Hi & Ht & Hg & Hp) & Hn & ->). simpl in *. rewrite Hp. clear Hp.
    rewrite !Forall_cons in Hg. destruct Hg as (? & ? & _).
    rewrite Hi, String.eqb_refl. simpl. row_build. by rewrite decide_False; row_build.
Qed.

Lemma open_interest_step_spec : RowSpec open_interest_step open_interest_row fst.
Proof.
  intros acc seen r s. unfold open_interest_step, open_interest_row, given. split.
  - intros E. row_fields E. destruct (decide _) as [|Hn]; [done|]. row_fields E. injection E as <-.
    eexists (t, _). split; [|split; [|reflexivity]]; [|exact Hn]. unfold given. rewrite !Forall_cons. simpl.
    by split_and!.
  - intros ([t c] & (Ht & Hg & Hp) & Hn & ->). simpl in *. rewrite Hp. clear Hp.
    rewrite !Forall_cons in Hg. destruct Hg as (? & ? & ? & _).
    row_build. by rewrite decide_False; row_build.
Qed.
End spec.

(** ** Theorems *)
Section theorems.
Context `{Hashing} `{!Serialize HistoryGenerationInput}
  `{!Serialize OpenInterestGenerationInput} `{!Serialize TradesGenerationInput}
  `{!Serialize FundingGenerationInput}.

Lemma Z_keys {X} (p q : Z * X) : kcmp p.1 q.1 = Eq → p.1 = q.1.
Proof. apply kcmp_eq. Qed.

Lemma trade_keys p q : kcmp (trade_key p) (trade_key q) = Eq → trade_identity p = trade_identity q.
Proof. intros Hk%kcmp_eq. unfold trade_key, trade_identity in *. congruence. Qed.

Lemma limited_iff {E A} (limit n : Z) (e : E) (r : result E A) out :
  (if (limit <? n)%Z then Err e else r) = Ok out ↔ (n ≤ limit)%Z ∧ r = Ok out.
Proof. destruct (Z.ltb_spec limit n); naive_solver lia. Qed.

Lemma candles_iff rows max out :
  normalize_research_candles rows max = Ok out ↔
  (Z.of_nat (length rows) ≤ max)%Z ∧ ordered_page candle_row fst fst rows out.
Proof.
  unfold normalize_research_candles. rewrite limited_iff.
  by rewrite (page_iff _ _ _ _ _ _ candle_step_spec Z_keys).
Qed.

Lemma trades_iff id rows max out :
  normalize_research_trades id rows max = Ok out ↔
  (Z.of_nat (length rows) ≤ max)%Z ∧
  ordered_page (trade_row id) trade_identity trade_key rows out.
Proof.
  unfold normalize_research_trades. rewrite limited_iff.
  by rewrite (page_iff _ _ _ _ _ _ (trade_step_spec id) trade_keys).
Qed.

Lemma funding_iff id rows max out :
  normalize_research_funding id rows max = Ok out ↔
  (Z.of_nat (length rows) ≤ max)%Z ∧ ordered_page (funding_row id) fst fst rows out.
Proof.
  unfold normalize_research_funding. rewrite limited_iff.
  by rewrite (page_iff _ _ _ _ _ _ (funding_step_spec id) Z_keys).
Qed.

Lemma open_interest_iff rows out :
  normalize_open_interest rows = Ok out ↔ ordered_page open_interest_row fst fst rows out.
Proof. apply (page_iff _ _ _ _ _ _ open_interest_step_spec Z_keys). Qed.

(** normalization is exact.  A page is accepted if and only if it is within its limit,
    every row is well formed and about the instrument, and no identity (candle or funding
    time, trade id) repeats; the result then holds every row verbatim, in strictly
    increasing order of time (and of trade id among trades of one millisecond). *)
Theorem research_pages_exact id max :
  (∀ rows out, normalize_research_candles rows max = Ok out ↔
     (Z.of_nat (length rows) ≤ max)%Z ∧ ordered_page candle_row fst fst rows out) ∧
  (∀ rows out, normalize_research_trades id rows max = Ok out ↔
     (Z.of_nat (length rows) ≤ max)%Z ∧
     ordered_page (trade_row id) trade_identity trade_key rows out) ∧
  (∀ rows out, normalize_research_funding id rows max = Ok out ↔
     (Z.of_nat (length rows) ≤ max)%Z ∧ ordered_page (funding_row id) fst fst rows out).
Proof. split_and!; intros; [apply candles_iff|apply trades_iff|apply funding_iff]. Qed.

(** The order in which the rows arrive does not matter. *)
#[export] Instance ordered_page_proper {R X K S} `{OrdKey S} (row : R → Z * X → Prop)
    (key : Z * X → K) (sort_key : Z * X → S) :
  Proper ((≡ₚ) ==> (=) ==> iff) (ordered_page row key sort_key).
Proof.
  intros rows rows' Hp out ? <-. unfold ordered_page. by setoid_rewrite Hp.
Qed.

(** Normalizing a rearranged page *)
Lemma candles_perm rows rows' max out :
  rows ≡ₚ rows' → normalize_research_candles rows max = Ok out →
  normalize_research_candles rows' max = Ok out.
Proof. intros Hp. by rewrite !candles_iff, Hp. Qed.
Lemma trades_perm id rows rows' max out :
  rows ≡ₚ rows' → normalize_research_trades id rows max = Ok out →
  normalize_research_trades id rows' max = Ok out.
Proof. intros Hp. by rewrite !trades_iff, Hp. Qed.
Lemma funding_perm id rows rows' max out :
  rows ≡ₚ rows' → normalize_research_funding id rows max = Ok out →
  normalize_research_funding id rows' max = Ok out.
Proof. intros Hp. by rewrite !funding_iff, Hp. Qed.
Lemma open_interest_perm rows rows' out :
  rows ≡ₚ rows' → normalize_open_interest rows = Ok out → normalize_open_interest rows' = Ok out.
Proof. intros Hp. by rewrite !open_interest_iff, Hp. Qed.

(** The common part of the four constructors: the length check and the normalization give
    the same on a rearranged page, and the generation does not see the receipt time. *)
Ltac rearranged Hp Hts page perm :=
  rewrite Hts; rewrite <- (Permutation_length Hp); destruct (_ <? _)%Z; [done|];
  let E := fresh "E" in let a := fresh "a" in destruct page as [a|] eqn:E; simpl; [|done];
  rewrite (perm _ _ _ _ Hp E) || rewrite (perm _ _ _ Hp E) || rewrite (perm _ _ _ _ _ Hp E); simpl.
Ltac same_generation :=
  simpl; destruct (map_err _ _); simpl; [|done]; intros [= <-]; by eexists.

(** the order of the rows and the time of receipt do not matter.  For each of the four
    histories, the same rows in any order, received at any given time, are accepted too and
    give the same contents under the same generation. *)
Theorem history_order_irrelevant reference id bar limit ts ts' :
  is_blank ts' = false →
  (∀ rows rows' s, rows ≡ₚ rows' →
     market_history_from_public reference id bar limit ts rows = Ok s →
     ∃ s', market_history_from_public reference id bar limit ts' rows' = Ok s' ∧
       mhs_source_received_at s' = ts' ∧ mhs_history_generation s' = mhs_history_generation s ∧
       mhs_candles s' = mhs_candles s) ∧
  (∀ rows rows' s, rows ≡ₚ rows' →
     open_interest_history_from_public reference id bar limit ts rows = Ok s →
     ∃ s', open_interest_history_from_public reference id bar limit ts' rows' = Ok s' ∧
       ohs_source_received_at s' = ts' ∧
       ohs_open_interest_generation s' = ohs_open_interest_generation s ∧
       ohs_points s' = ohs_points s) ∧
  (∀ rows rows' s, rows ≡ₚ rows' →
     market_trades_from_public reference id limit ts rows = Ok s →
     ∃ s', market_trades_from_public reference id limit ts' rows' = Ok s' ∧
       mts_source_received_at s' = ts' ∧ mts_trades_generation s' = mts_trades_generation s ∧
       mts_trades s' = mts_trades s) ∧
  (∀ rows rows' s, rows ≡ₚ rows' →
     funding_history_from_public reference id limit ts rows = Ok s →
     ∃ s', funding_history_from_public reference id limit ts' rows' = Ok s' ∧
       fhs_source_received_at s' = ts' ∧ fhs_funding_generation s' = fhs_funding_generation s ∧
       fhs_events s' = fhs_events s).
Proof.
  intros Hts. split_and!.
  - intros rows rows' s Hp. unfold market_history_from_public.
    destruct (negb _); [done|]. destruct (is_blank ts); [done|].
    destruct (ok_or _ _) as [i|]; simpl; [|by rewrite Hts]. destruct (negb _); [by rewrite Hts|].
    destruct rows as [|r rows]; [by rewrite Hts|]. destruct rows' as [|r' rows'].
    { by apply Permutation_nil_r in Hp. }
    rearranged Hp Hts (normalize_research_candles (r :: rows) limit) candles_perm.
    destruct (head a), (last a); try done. unfold history_generation_for; same_generation.
  - intros rows rows' s Hp. unfold open_interest_history_from_public, validate_source_timestamp.
    destruct (validate_history_request _ _ _); simpl; [|done]. destruct (is_blank ts); [done|].
    rearranged Hp Hts (normalize_open_interest rows) open_interest_perm.
    unfold open_interest_generation_for; same_generation.
  - intros rows rows' s Hp. unfold market_trades_from_public, validate_source_timestamp.
    destruct (validate_history_request _ _ _); simpl; [|done]. destruct (is_blank ts); [done|].
    rearranged Hp Hts (normalize_research_trades id rows limit) trades_perm.
    unfold trades_generation_for; same_generation.
  - intros rows rows' s Hp. unfold funding_history_from_public, validate_source_timestamp.
    destruct (validate_history_request _ _ _); simpl; [|done].
    destruct (ok_or _ _) as [i|]; simpl; [|done]. destruct (negb _); [done|].
    destruct (is_blank ts); [done|].
    rearranged Hp Hts (normalize_research_funding id rows limit) funding_perm.
    unfold funding_generation_for; same_generation.
Qed.
End theorems.

(** ** Witness *)
Section witnesses.
Local Existing Instance toy_hashing.
Local Existing Instance toy_serialize.

Definition sample_candle (ts confirm : string) : PublicCandle := {|
  cd_timestamp_ms := ts; cd_open := "1"; cd_high := "3"; cd_low := "1"; cd_close := "2";
  cd_volume := "9"; cd_volume_currency := "9"; cd_volume_quote := Some " ";
  cd_confirm := confirm |}.

Definition sample_page : list PublicCandle :=
  [sample_candle "300" "0"; sample_candle "100" "1"; sample_candle "200" "1"].

Lemma history_order_irrelevant_witness :
  (∃ s, market_history_from_public sample_registry "B" "1m" 3 "t1" sample_page = Ok s ∧
        map hc_open_time_ms (mhs_candles s) = ["100"; "200"; "300"]) ∧
  ∃ s', market_history_from_public sample_registry "B" "1m" 3 "t2" (rev sample_page) = Ok s' ∧
        map hc_open_time_ms (mhs_candles s') = ["100"; "200"; "300"].
Proof.
  destruct (market_history_from_public sample_registry "B" "1m" 3 "t1" sample_page)
    as [s|e] eqn:E; [|by vm_compute in E].
  assert (map hc_open_time_ms (mhs_candles s) = ["100"; "200"; "300"]) as Hs.
  { vm_compute in E. by injection E as <-. }
  split; [by exists s|].
  destruct (history_order_irrelevant sample_registry "B" "1m" 3 "t1" "t2" eq_refl) as [Hh _].
  destruct (Hh sample_page (rev sample_page) s (Permutation_rev _) E)
    as (s' & Hs' & _ & _ & Hc).
  exists s'. split; [exact Hs'|]. by rewrite Hc.
Defined.
End witnesses.
