(* ===== verification/TimeSeries.v ===== *)
(** * TimeSeries: closed reporting ranges, [okx-kernel/src/time_series.rs]

    A range is half open, aligned to its timeframe and not empty.  Requested ranges are
    rounded inward to whole bars, relative ranges end at the last closed bar, and the
    coverage of a set of bar timestamps says which bars of the range are missing.  The
    timestamps are [u64]; the sums of [coverage] stay below the end of the range. *)
From stdpp Require Import base option list list_numbers numbers strings gmap.
From Stdlib Require Import ZArith Lia.
From S2P Require Import Prelude.
Local Open Scope string_scope.
Local Open Scope list_scope.
Local Open Scope Z_scope.

(** ** Data *)
Record ClosedRange : Type := {
  start_ms : Z;
  end_ms : Z;
  timeframe_ms : Z;
  expected_bars : Z;
}.

Record BarCoverage : Type := {
  bc_expected_bars : Z;
  bc_observed_unique_bars : Z;
  bc_missing_bars : Z;
  bc_first_missing_ms : option Z;
  bc_missing_sample_ms : list Z;
  bc_duplicate_bars : Z;
  bc_unexpected_bars : Z;
  bc_complete : bool;
}.

(** [u64::is_multiple_of]: of zero only zero is a multiple, as with [Z.modulo]. *)
Definition is_multiple_of (x n : Z) : bool := x mod n =? 0.

(** ** Ranges *)
Definition strict (start_ms end_ms timeframe_ms : Z) : result string ClosedRange :=
  if timeframe_ms =? 0 then Err "INVALID_TIMEFRAME" else
  if negb (is_multiple_of start_ms timeframe_ms) || negb (is_multiple_of end_ms timeframe_ms)
  then Err "RANGE_NOT_ALIGNED" else
  if end_ms <=? start_ms then Err "EMPTY_RANGE" else
  Ok {| start_ms := start_ms; end_ms := end_ms; timeframe_ms := timeframe_ms;
        expected_bars := (end_ms - start_ms) / timeframe_ms |}.

Definition normalize (requested_start_ms requested_end_ms timeframe_ms : Z)
    : result string ClosedRange :=
  if timeframe_ms =? 0 then Err "INVALID_TIMEFRAME" else
  let rem := requested_start_ms mod timeframe_ms in
  start ← (if rem =? 0 then Ok requested_start_ms
           else ok_or "RANGE_OVERFLOW" (checked_add_u64 requested_start_ms (timeframe_ms - rem)));
  let end_ := requested_end_ms / timeframe_ms * timeframe_ms in
  strict start end_ timeframe_ms.

Definition relative_closed (now_ms timeframe_ms bars : Z) : result string ClosedRange :=
  if timeframe_ms =? 0 then Err "INVALID_TIMEFRAME" else
  let end_ms := now_ms / timeframe_ms * timeframe_ms in
  duration ← ok_or "RANGE_OVERFLOW" (checked_mul_u64 bars timeframe_ms);
  start_ms ← ok_or "RANGE_UNAVAILABLE" (checked_sub_u64 end_ms duration);
  strict start_ms end_ms timeframe_ms.

(** ** Coverage: first the timestamps one by one, then the bars of the range *)
Definition observe (self : ClosedRange) (acc : gset Z * Z * Z) (time : Z) : gset Z * Z * Z :=
  let '(observed, duplicates, unexpected) := acc in
  if (time <? start_ms self) || (end_ms self <=? time)
     || negb (is_multiple_of (time - start_ms self) (timeframe_ms self))
  then (observed, duplicates, unexpected + 1)
  else if decide (time ∈ observed) then (observed, duplicates + 1, unexpected)
  else ({[time]} ∪ observed, duplicates, unexpected).

Definition bar_time (self : ClosedRange) (index : Z) : Z :=
  start_ms self + index * timeframe_ms self.

Definition check_bar (observed : gset Z) (acc : Z * option Z * list Z) (time : Z)
    : Z * option Z * list Z :=
  let '(missing, first_missing_ms, missing_sample_ms) := acc in
  if decide (time ∈ observed) then acc else
  (missing + 1,
   match first_missing_ms with None => Some time | Some first => Some first end,
   if (length missing_sample_ms <? 16)%nat then missing_sample_ms ++ [time]
   else missing_sample_ms).

Definition coverage (self : ClosedRange) (times : list Z) : BarCoverage :=
  let '(observed, duplicates, unexpected) := foldl (observe self) (∅, 0, 0) times in
  let '(missing, first_missing_ms, missing_sample_ms) :=
    foldl (check_bar observed) (0, None, [])
      (map (bar_time self) (seqZ 0 (expected_bars self))) in
  {| bc_expected_bars := expected_bars self;
     bc_observed_unique_bars := Z.of_nat (base.size observed);
     bc_missing_bars := missing;
     bc_first_missing_ms := first_missing_ms;
     bc_missing_sample_ms := missing_sample_ms;
     bc_duplicate_bars := duplicates;
     bc_unexpected_bars := unexpected;
     bc_complete := (missing =? 0) && (duplicates =? 0) && (unexpected =? 0) |}.

(** ** Specification *)
(** The timestamps of the bars of a range, in order *)
Definition bars (self : ClosedRange) : list Z :=
  map (bar_time self) (seqZ 0 (expected_bars self)).

Record range_wf (self : ClosedRange) : Prop := {
  wf_timeframe : 0 < timeframe_ms self;
  wf_start : 0 ≤ start_ms self ∧ start_ms self mod timeframe_ms self = 0;
  wf_end : end_ms self = start_ms self + expected_bars self * timeframe_ms self;
  wf_bars : 0 < expected_bars self;
}.

(** The bar timestamps that the given ones do not contain *)
Definition absent (self : ClosedRange) (times : list Z) : list Z :=
  filter (λ t, t ∉ times) (bars self).

(** ** Lemmas *)
Lemma strict_iff s e tf r :
  0 ≤ s → 0 ≤ tf →
  strict s e tf = Ok r ↔
  range_wf r ∧ start_ms r = s ∧ end_ms r = e ∧ timeframe_ms r = tf.
Proof.
  intros Hs Htf. unfold strict, is_multiple_of. split.
  - intros E. bool_cases; try done. apply orb_false_iff in Heqb0 as [H1 H2].
    rewrite negb_false_iff in H1, H2. reflect_bools. injection E as <-. simpl.
    split_and!; try done. assert (e - s = (e - s) / tf * tf) as Hd.
    { rewrite Z.mul_comm. apply Z_div_exact_full_2; [done|].
      rewrite Zminus_mod, H1, H2. by rewrite Z.sub_diag, Z.mod_0_l. }
    split; simpl; [lia|done|lia|]. assert (0 < tf) by lia. nia.
  - intros ([Htf' [_ Hal] He Hb] & <- & <- & <-).
    assert (end_ms r mod timeframe_ms r = 0) as Hem.
    { rewrite He, Z_mod_plus_full. done. }
    rewrite Hal, Hem. simpl.
    destruct (Z.eqb_spec (timeframe_ms r) 0); [lia|].
    destruct (Z.leb_spec (end_ms r) (start_ms r)); [nia|].
    assert ((end_ms r - start_ms r) / timeframe_ms r = expected_bars r) as ->.
    { rewrite He. replace (_ + _ - _) with (expected_bars r * timeframe_ms r) by lia.
      apply Z.div_mul. lia. }
    by destruct r.
Qed.

Lemma elem_of_bars self t :
  range_wf self →
  t ∈ bars self ↔
  start_ms self ≤ t < end_ms self ∧ (t - start_ms self) mod timeframe_ms self = 0.
Proof.
  intros [Htf _ He Hb]. unfold bars, bar_time. rewrite list_elem_of_fmap. split.
  - intros (i & -> & Hi%elem_of_seqZ). split; [nia|].
    replace (_ + _ - _) with (i * timeframe_ms self) by lia. apply Z_mod_mult.
  - intros [Ht Hm]. apply Z_div_exact_full_2 in Hm; [|lia].
    set (i := (t - start_ms self) / timeframe_ms self) in *.
    exists i. rewrite elem_of_seqZ. nia.
Qed.

Lemma NoDup_bars self : range_wf self → NoDup (bars self).
Proof.
  intros [Htf _ _ _]. unfold bars. apply NoDup_fmap_2_strong; [|apply NoDup_seqZ].
  intros i j _ _. unfold bar_time. nia.
Qed.

(** The first loop: what was observed, and where every timestamp was counted *)
Lemma in_bars self t :
  range_wf self →
  t ∈ bars self ↔ (t <? start_ms self) || (end_ms self <=? t)
    || negb (is_multiple_of (t - start_ms self) (timeframe_ms self)) = false.
Proof.
  intros Hwf. rewrite elem_of_bars by done. unfold is_multiple_of.
  destruct (Z.ltb_spec t (start_ms self)), (Z.leb_spec (end_ms self) t),
    (Z.eqb_spec ((t - start_ms self) mod timeframe_ms self) 0); simpl;
    (split; [intros [? ?]; (reflexivity || lia)
            |intros ?; (discriminate || (split; [lia|assumption]))]).
Qed.

Lemma observe_all self times :
  range_wf self →
  let '(o, d, u) := foldl (observe self) (∅, 0, 0) times in
  (∀ t, t ∈ o ↔ t ∈ times ∧ t ∈ bars self) ∧
  Z.of_nat (base.size o) + d + u = Z.of_nat (length times) ∧ 0 ≤ d ∧ 0 ≤ u ∧
  (d = 0 ∧ u = 0 ↔ NoDup times ∧ ∀ t, t ∈ times → t ∈ bars self).
Proof.
  intros Hwf. pose proof (λ t, in_bars self t Hwf) as Hin.
  generalize dependent (bars self). intros bs Hin.
  induction times as [|t times IH] using rev_ind.
  - cbn [foldl length]. rewrite size_empty. split_and!; try done; [set_solver|].
    split; [intros _|done]. split; [constructor|set_solver].
  - rewrite foldl_snoc. destruct (foldl _ _ times) as [[o d] u].
    destruct IH as (Ho & Hn & Hd & Hu & Hc). specialize (Hin t). rewrite length_app. simpl.
    destruct (_ || _ || _) eqn:E.
    + assert (t ∉ bs) as Hnot by (by rewrite Hin). clear Hin E Hwf. split_and!; [set_solver|lia|lia|lia|].
      split; [lia|]. intros [_ Hall]. destruct Hnot. apply Hall. set_solver.
    + assert (t ∈ bs) as Hin' by (by rewrite Hin). clear Hin E Hwf. case_decide as Hdup.
      * apply Ho in Hdup as [Hdup _]. split_and!; [set_solver|lia|lia|lia|].
        split; [lia|]. intros [Hnd _]. apply NoDup_app in Hnd as (_ & Hnd & _).
        destruct (Hnd t Hdup). set_solver.
      * rewrite size_union by set_solver. rewrite size_singleton.
        assert (t ∉ times) by (rewrite Ho in Hdup; set_solver).
        split_and!; [set_solver|lia|lia|lia|]. rewrite Hc, NoDup_app.
        split; [intros [Hnd Hall]|intros [[Hnd _] Hall]; split; [done|set_solver]].
        split; [split_and!; [done| |apply NoDup_singleton]|]; set_solver.
Qed.

(** The second loop: the bars that are missing *)
Lemma check_all (o : gset Z) l :
  let missing := filter (λ t, t ∉ o) l in
  foldl (check_bar o) (0, None, []) l =
  (Z.of_nat (length missing), head missing, take 16 missing).
Proof.
  induction l as [|t l IH] using rev_ind; [done|]. simpl in *. rewrite foldl_snoc, IH. simpl.
  rewrite filter_app. simpl. set (m := filter _ l) in *. case_decide as Ht.
  - rewrite filter_cons_False, filter_nil, app_nil_r by (by intros []). done.
  - rewrite filter_cons_True, filter_nil by done. f_equal; [f_equal|].
    + rewrite length_app. simpl. lia.
    + by destruct m.
    + rewrite length_take. destruct (Nat.ltb_spec (16 `min` length m) 16).
      * rewrite take_app_ge by lia. rewrite (take_ge m) by lia.
        destruct (16 - length m)%nat eqn:E16; [lia|]. simpl.
        by rewrite take_nil.
      * by rewrite take_app_le by lia.
Qed.

(** ** Theorems *)
(** What a timestamp set covers, in terms of the bars it lacks *)
Lemma observed_absent self (o : gset Z) times :
  range_wf self → (∀ t, t ∈ o ↔ t ∈ times ∧ t ∈ bars self) →
  filter (λ t, t ∉ o) (bars self) = absent self times ∧
  Z.of_nat (base.size o) + Z.of_nat (length (absent self times)) = expected_bars self.
Proof.
  intros Hwf Ho. pose proof (NoDup_bars self Hwf) as Hnd. split.
  - unfold absent. apply filter_ext_on. intros t Ht. rewrite Ho. naive_solver.
  - assert (elements o ≡ₚ filter (λ t, t ∈ times) (bars self)) as Hp.
    { apply NoDup_Permutation; [apply NoDup_elements|by apply NoDup_filter|]. intros t.
      rewrite elem_of_elements, Ho, list_elem_of_filter. done. }
    unfold base.size, set_size. simpl. rewrite Hp. unfold absent.
    rewrite <- Nat2Z.inj_add, <- length_app, filter_app_complement.
    unfold bars. rewrite length_map, length_seqZ. destruct Hwf. lia.
Qed.

Lemma coverage_counts self times :
  range_wf self →
  let c := coverage self times in
  bc_missing_bars c = Z.of_nat (length (absent self times)) ∧
  bc_first_missing_ms c = head (absent self times) ∧
  bc_missing_sample_ms c = take 16 (absent self times) ∧
  bc_observed_unique_bars c + bc_missing_bars c = expected_bars self ∧
  bc_observed_unique_bars c + bc_duplicate_bars c + bc_unexpected_bars c
    = Z.of_nat (length times) ∧
  (bc_complete c = true ↔
   absent self times = [] ∧ NoDup times ∧ ∀ t, t ∈ times → t ∈ bars self).
Proof.
  intros Hwf. unfold coverage. fold (bars self).
  pose proof (observe_all self times Hwf) as Hobs.
  destruct (foldl (observe self) _ times) as [[o d] u].
  destruct Hobs as (Ho & Hn & Hd & Hu & Hc). rewrite check_all. simpl.
  destruct (observed_absent self o times Hwf Ho) as [-> Hexp].
  split_and!; try done. rewrite <- Hc, !andb_true_iff, !Z.eqb_eq, <- length_zero_iff_nil. lia.
Qed.

(** coverage is exact.  For every range that [strict] accepts and every list of
    timestamps, the bars reported missing are exactly the bars of the range that do not
    occur (their number, the first one and the first sixteen), every timestamp is counted
    once as observed, duplicate or unexpected, and the coverage is complete if and only if
    the timestamps are the bars of the range, each exactly once, in some order. *)
Theorem coverage_exact s e tf self times :
  in_u64 s → in_u64 e → in_u64 tf → strict s e tf = Ok self →
  let c := coverage self times in
  bc_missing_bars c = Z.of_nat (length (absent self times)) ∧
  bc_first_missing_ms c = head (absent self times) ∧
  bc_missing_sample_ms c = take 16 (absent self times) ∧
  bc_observed_unique_bars c + bc_missing_bars c = expected_bars self ∧
  bc_observed_unique_bars c + bc_duplicate_bars c + bc_unexpected_bars c
    = Z.of_nat (length times) ∧
  (bc_complete c = true ↔ times ≡ₚ bars self) ∧
  Forall in_u64 (bars self).
Proof.
  intros Hs He Htf (Hwf & <- & <- & _)%strict_iff; [|apply Hs|apply Htf].
  destruct (coverage_counts self times Hwf) as (H1 & H2 & H3 & H4 & H5 & Hc).
  split_and!; try done.
  - rewrite Hc. split.
    + intros (Ha & Hnd & Hall). apply NoDup_Permutation; [done|by apply NoDup_bars|].
      intros t. split; [apply Hall|]. intros Ht. destruct (decide (t ∈ times)) as [|Hn]; [done|].
      assert (t ∈ absent self times) as Habs by (by apply list_elem_of_filter).
      rewrite Ha in Habs. by apply not_elem_of_nil in Habs.
    + intros Hp. split_and!.
      * unfold absent. apply filter_none. intros t Ht []. by rewrite Hp.
      * rewrite Hp. by apply NoDup_bars.
      * intros t. by rewrite Hp.
  - apply Forall_forall. intros t Ht%elem_of_bars; [|done]. unfold in_u64 in *. lia.
Qed.

(** Rounding to a timeframe *)
Lemma align_down x tf : 0 < tf → x / tf * tf ≤ x < x / tf * tf + tf ∧ (x / tf * tf) mod tf = 0.
Proof.
  intros Htf. pose proof (Z_div_mod_eq_full x tf). pose proof (Z.mod_pos_bound x tf Htf).
  split; [nia|]. apply Z_mod_mult.
Qed.

Lemma align_next a tf : (a + (tf - a mod tf)) mod tf = 0.
Proof.
  replace (a + (tf - a mod tf)) with ((a - a mod tf) + 1 * tf) by lia.
  rewrite Z_mod_plus_full, Zminus_mod, Zmod_mod, Z.sub_diag. apply Zmod_0_l.
Qed.

(** The start that [normalize] uses, when there is one *)
Lemma align_up a tf s :
  0 ≤ a → 0 < tf →
  (if a mod tf =? 0 then Ok a
   else ok_or "RANGE_OVERFLOW" (checked_add_u64 a (tf - a mod tf))) = Ok s →
  a ≤ s < a + tf ∧ s mod tf = 0.
Proof.
  intros Ha Htf. pose proof (Z.mod_pos_bound a tf Htf).
  destruct (Z.eqb_spec (a mod tf) 0) as [Hm|Hm]; [intros [= <-]; split; [lia|done]|].
  unfold checked_add_u64. destruct (_ <=? _); [|done]. intros [= <-]. split; [lia|].
  apply align_next.
Qed.

(** Between two aligned instants lies at least one timeframe. *)
Lemma aligned_gap x y tf : 0 < tf → x mod tf = 0 → y mod tf = 0 → x < y + tf → x ≤ y.
Proof.
  intros Htf Hx Hy Hlt. apply Z_div_exact_full_2 in Hx; [|lia].
  apply Z_div_exact_full_2 in Hy; [|lia].
  assert (x / tf < y / tf + 1) by (apply (Z.mul_lt_mono_pos_l tf); lia).
  rewrite Hx, Hy. apply Z.mul_le_mono_nonneg_l; lia.
Qed.

(** A range of whole bars inside the requested one *)
Definition whole_bars (a b tf x y : Z) : Prop :=
  a ≤ x ∧ x < y ∧ y ≤ b ∧ x mod tf = 0 ∧ y mod tf = 0.

Lemma normalize_cases a b tf :
  in_u64 a → in_u64 b → in_u64 tf →
  match normalize a b tf with
  | Ok r => range_wf r ∧ timeframe_ms r = tf ∧ whole_bars a b tf (start_ms r) (end_ms r) ∧
            ∀ x y, whole_bars a b tf x y → start_ms r ≤ x ∧ y ≤ end_ms r
  | Err _ => tf = 0 ∨ ∀ x y, ¬ whole_bars a b tf x y
  end.
Proof.
  intros Ha Hb Htf. unfold normalize. destruct (Z.eqb_spec tf 0); [by left|].
  assert (0 < tf) as Hpos by (unfold in_u64 in *; lia).
  destruct (align_down b tf Hpos) as [Hdown Hmod]. set (e := b / tf * tf) in *.
  destruct (if a mod tf =? 0 then _ else _) as [s|err] eqn:Es; simpl.
  - apply align_up in Es as [Hs Hsm]; [|apply Ha|done].
    destruct (strict s e tf) as [r|err] eqn:Er.
    + apply strict_iff in Er as (Hwf & <- & He & <-); [|unfold in_u64 in *; lia|lia].
      rewrite He. destruct Hwf as [? ? Hend Hbars]. split_and!; try done.
      * split_and!; [lia|nia|lia|done|done].
      * intros x y (? & ? & ? & ? & ?). split; [|by apply (aligned_gap _ _ (timeframe_ms r)); try lia].
        by apply (aligned_gap _ _ (timeframe_ms r)); try lia.
    + right. intros x y (? & ? & ? & Hx & Hy).
      assert (s ≤ x) by (by apply (aligned_gap _ _ tf); try lia).
      assert (y ≤ e) by (by apply (aligned_gap _ _ tf); try lia).
      unfold strict, is_multiple_of in Er. rewrite Hsm, Hmod in Er. simpl in Er.
      destruct (Z.eqb_spec tf 0); [done|]. destruct (Z.leb_spec e s); [lia|done].
  - right. intros x y (? & ? & ? & Hx & Hy). destruct (Z.eqb_spec (a mod tf) 0) as [|Hm]; [done|].
    unfold checked_add_u64 in Es. destruct (Z.leb_spec (a + (tf - a mod tf)) u64_max); [done|].
    assert (a + (tf - a mod tf) ≤ x); [|unfold in_u64 in *; lia].
    pose proof (Z.mod_pos_bound a tf Hpos).
    apply (aligned_gap _ _ tf); [done|apply align_next|done|lia].
Qed.

(** ranges are rounded inward, exactly.  For a positive timeframe, [normalize] succeeds
    if and only if some non-empty range of whole bars lies inside the requested one, and
    then returns the widest; [relative_closed] succeeds if and only if at least one bar is
    asked for and the bars fit between zero and the last closed boundary, and then returns
    exactly that many bars ending at that boundary.  Both satisfy the range invariant. *)
Theorem ranges_exact a b tf bars_asked r :
  in_u64 a → in_u64 b → 0 < tf ≤ u64_max → in_u64 bars_asked →
  (is_ok (normalize a b tf) = true ↔ ∃ x y, whole_bars a b tf x y) ∧
  (normalize a b tf = Ok r →
   range_wf r ∧ timeframe_ms r = tf ∧ whole_bars a b tf (start_ms r) (end_ms r) ∧
   ∀ x y, whole_bars a b tf x y → start_ms r ≤ x ∧ y ≤ end_ms r) ∧
  (relative_closed b tf bars_asked = Ok r ↔
   range_wf r ∧ timeframe_ms r = tf ∧ expected_bars r = bars_asked ∧
   end_ms r = b / tf * tf).
Proof.
  intros Ha Hb [Hpos Hmax] Hn. split_and!.
  - pose proof (normalize_cases a b tf Ha Hb ltac:(unfold in_u64; lia)) as Hc.
    destruct (normalize a b tf) as [r'|e]; simpl.
    + split; [intros _|done]. exists (start_ms r'), (end_ms r'). apply Hc.
    + split; [done|]. intros (x & y & Hxy). destruct Hc as [->|Hc]; [lia|]. by destruct (Hc x y).
  - intros E. pose proof (normalize_cases a b tf Ha Hb ltac:(unfold in_u64; lia)) as Hc.
    by rewrite E in Hc.
  - destruct (align_down b tf Hpos) as [Hdown Hmod].
    unfold relative_closed, checked_mul_u64, checked_sub_u64. destruct (Z.eqb_spec tf 0); [lia|].
    unfold in_u64 in *. split.
    + intros E. bool_cases; try done. simpl in E. bool_cases; try done. simpl in E. reflect_bools.
      apply strict_iff in E as (Hwf & Hs & He & <-); [|lia|lia]. split_and!; try done.
      destruct Hwf. nia.
    + intros (Hwf & <- & <- & He). pose proof Hwf as [_ [Hs _] Hend Hbars].
      assert (expected_bars r * timeframe_ms r <=? u64_max = true) as -> by (apply Z.leb_le; lia).
      simpl. rewrite <- He.
      assert (expected_bars r * timeframe_ms r <=? end_ms r = true) as -> by (apply Z.leb_le; lia).
      simpl. apply strict_iff; [lia|lia|]. split_and!; try done. lia.
Qed.

(** ** Witnesses *)
Definition sample_range : ClosedRange :=
  {| start_ms := 120; end_ms := 300; timeframe_ms := 60; expected_bars := 3 |}.

Lemma coverage_exact_witness :
  strict 120 300 60 = Ok sample_range ∧
  bc_complete (coverage sample_range [240; 120; 180]) = true ∧
  bc_first_missing_ms (coverage sample_range [240; 120; 120; 300]) = Some 180.
Proof.
  assert (strict 120 300 60 = Ok sample_range) as E by (by vm_compute).
  destruct (coverage_exact 120 300 60 sample_range [240; 120; 180]) as (_ & _ & _ & _ & _ & Hc & _);
    [by vm_compute|by vm_compute|by vm_compute|exact E|].
  destruct (coverage_exact 120 300 60 sample_range [240; 120; 120; 300]) as (_ & Hf & _);
    [by vm_compute|by vm_compute|by vm_compute|exact E|].
  split; [exact E|]. split.
  - apply Hc. change (bars sample_range) with [120; 180; 240]. apply (Permutation_app_comm [240]).
  - rewrite Hf. by vm_compute.
Defined.

Lemma ranges_exact_witness :
  normalize 61 310 60 = Ok sample_range ∧
  (∀ x y, whole_bars 61 310 60 x y → 120 ≤ x ∧ y ≤ 300) ∧
  relative_closed 310 60 3 = Ok sample_range.
Proof.
  assert (normalize 61 310 60 = Ok sample_range) as E by (by vm_compute).
  destruct (ranges_exact 61 310 60 3 sample_range) as (_ & Hn & Hr);
    [by vm_compute|by vm_compute|by vm_compute|by vm_compute|].
  destruct (Hn E) as (Hwf & _ & _ & Hmax). split; [exact E|]. split; [exact Hmax|].
  apply Hr. split; [exact Hwf|]. by vm_compute.
Defined.
