(* ===== verification/FinanceWindow.v ===== *)
(** * FinanceWindow: the ten-minute observation window, [okx-agent/src/finance_window.rs]

    The agent records one attempt per capture tick and reports whether the last ten
    minutes were observed cleanly.  The samples are bounded and forgotten when time goes
    backwards; the report grades coverage, failures, source age, tick gaps and changes of
    source generation.  Times are [i64] milliseconds and durations [u64]. *)
From stdpp Require Import base option list numbers strings sets sorting.
From Stdlib Require Import ZArith Lia.
From S2P Require Import Prelude Text Ordered.
Local Open Scope string_scope.
Local Open Scope list_scope.
Local Open Scope Z_scope.

(** ** Data *)
Definition WINDOW_MS : Z := 10 * 60 * 1000.
Definition CAPACITY : nat := 2048.
Definition MAX_TICK_GAP_MS : Z := 5000.
Definition MAX_SOURCE_AGE_MS : Z := 5000.

Record FinanceAttempt : Type := {
  at_ms : Z;
  source_generation : Z;
  elapsed_ms : Z;
  nav_sql_owner_ms : option Z;
  nav_sql_queue_ms : option Z;
  snapshot_age_ms : option Z;
  failure_code : option string;
}.

Record LatencySummary : Type := {
  ls_count : nat;
  ls_p50_ms : option Z;
  ls_p95_ms : option Z;
  ls_max_ms : option Z;
}.

Record FinanceWindowSummary : Type := {
  fws_schema : string;
  fws_start_ms : Z;
  fws_end_ms : Z;
  fws_window_duration_ms : Z;
  fws_state : string;
  fws_window_covered_by_samples : bool;
  fws_samples : nat;
  fws_successes : nat;
  fws_failures : nat;
  fws_source_age_violations : nat;
  fws_tick_gaps : nat;
  fws_source_generation_changes : nat;
  fws_failure_reasons : list (string * nat);
  fws_capture_attempt_latency : LatencySummary;
  fws_successful_nav_sql_owner_latency : LatencySummary;
  fws_successful_nav_sql_queue_latency : LatencySummary;
  fws_wss_evidence_scope : string;
  fws_backup_evidence : string;
}.

(** [usize::div_ceil] *)
Definition div_ceil (n d : nat) : nat := Nat.div (n + d - 1) d.

Definition latency_summary (values : list Z) : LatencySummary :=
  let values := sort_by kcmp values in
  let n := length values in
  let nearest_rank percentile :=
    if (n =? 0)%nat then None else values !! (div_ceil (n * percentile) 100 - 1)%nat in
  {| ls_count := n; ls_p50_ms := nearest_rank 50%nat; ls_p95_ms := nearest_rank 95%nat;
     ls_max_ms := last values |}.

(** ** Recording: the samples, oldest first *)
Definition record (samples : list FinanceAttempt) (sample : FinanceAttempt)
    : list FinanceAttempt :=
  let samples := match last samples with
                 | Some l => if at_ms sample <? at_ms l then [] else samples
                 | None => samples
                 end in
  let samples := samples ++ [sample] in
  if (CAPACITY <? length samples)%nat then tail samples else samples.

(** ** The summary *)
Definition saturating_sub_i64 (a b : Z) : Z := Z.max i64_min (Z.min i64_max (a - b)).

(** The first loop: the previous sample, the gaps and the generation changes *)
Definition link_step (acc : option FinanceAttempt * nat * nat) (sample : FinanceAttempt)
    : option FinanceAttempt * nat * nat :=
  let '(previous, gaps, generation_changes) := acc in
  match previous with
  | None => (Some sample, gaps, generation_changes)
  | Some prev =>
    (Some sample,
     if MAX_TICK_GAP_MS <? at_ms sample - at_ms prev then S gaps else gaps,
     if source_generation sample =? source_generation prev then generation_changes
     else S generation_changes)
  end.

(** [snapshot_age_ms.is_some_and(|age| (0..=MAX_SOURCE_AGE_MS).contains(&age))] *)
Definition source_current (sample : FinanceAttempt) : bool :=
  match snapshot_age_ms sample with
  | Some age => (0 <=? age) && (age <=? MAX_SOURCE_AGE_MS)
  | None => false
  end.

Record Tally : Type := {
  ta_failures : nat;
  ta_stale : nat;
  ta_reasons : list (string * nat);
  ta_durations : list Z;
  ta_nav_owner : list Z;
  ta_nav_queue : list Z;
}.

(** The second loop *)
Definition tally_step (t : Tally) (sample : FinanceAttempt) : Tally :=
  let durations := ta_durations t ++ [elapsed_ms sample] in
  match failure_code sample with
  | Some code =>
    {| ta_failures := S (ta_failures t); ta_stale := ta_stale t;
       ta_reasons := oinsert code (S (default 0%nat (oget (ta_reasons t) code))) (ta_reasons t);
       ta_durations := durations; ta_nav_owner := ta_nav_owner t; ta_nav_queue := ta_nav_queue t |}
  | None =>
    {| ta_failures := ta_failures t;
       ta_stale := if source_current sample then ta_stale t else S (ta_stale t);
       ta_reasons := ta_reasons t; ta_durations := durations;
       ta_nav_owner := ta_nav_owner t ++ option_list (nav_sql_owner_ms sample);
       ta_nav_queue := ta_nav_queue t ++ option_list (nav_sql_queue_ms sample) |}
  end.

Definition empty_tally : Tally := {|
  ta_failures := 0; ta_stale := 0; ta_reasons := []; ta_durations := []; ta_nav_owner := [];
  ta_nav_queue := [] |}.

(** The last sample at or before [start_ms], and those after it up to [now_ms] *)
Definition anchor_of (samples : list FinanceAttempt) (start_ms : Z) : option FinanceAttempt :=
  List.find (λ s, at_ms s <=? start_ms) (rev samples).
Definition selected_of (samples : list FinanceAttempt) (start_ms now_ms : Z)
    : list FinanceAttempt :=
  filter (λ s, start_ms < at_ms s ∧ at_ms s ≤ now_ms) samples.

Definition summary (samples : list FinanceAttempt) (now_ms : Z) : FinanceWindowSummary :=
  let start_ms := saturating_sub_i64 now_ms WINDOW_MS in
  let anchor := anchor_of samples start_ms in
  let selected := selected_of samples start_ms now_ms in
  let '(previous, gaps, generation_changes) := foldl link_step (anchor, 0%nat, 0%nat) selected in
  let last_is_fresh := match previous with
                       | Some l => (at_ms l <=? now_ms) && (now_ms - at_ms l <=? MAX_TICK_GAP_MS)
                       | None => false
                       end in
  let window_covered_by_samples :=
    match anchor with Some _ => true | None => false end && last_is_fresh
    && negb (length selected =? 0)%nat in
  let tally := foldl tally_step empty_tally selected in
  let state :=
    if negb window_covered_by_samples then "NOT_PROVEN"
    else if (0 <? ta_failures tally)%nat || (0 <? ta_stale tally)%nat || (0 <? gaps)%nat
            || (0 <? generation_changes)%nat then "FAILED"
    else "OBSERVED_CLEAN" in
  {| fws_schema := "okx.finance-window/v1";
     fws_start_ms := start_ms;
     fws_end_ms := now_ms;
     fws_window_duration_ms := WINDOW_MS;
     fws_state := state;
     fws_window_covered_by_samples := window_covered_by_samples;
     fws_samples := length selected;
     fws_successes := length selected - ta_failures tally;
     fws_failures := ta_failures tally;
     fws_source_age_violations := ta_stale tally;
     fws_tick_gaps := gaps;
     fws_source_generation_changes := generation_changes;
     fws_failure_reasons := ta_reasons tally;
     fws_capture_attempt_latency := latency_summary (ta_durations tally);
     fws_successful_nav_sql_owner_latency := latency_summary (ta_nav_owner tally);
     fws_successful_nav_sql_queue_latency := latency_summary (ta_nav_queue tally);
     fws_wss_evidence_scope := "SAMPLED_AT_CAPTURE_TICKS";
     fws_backup_evidence := "REQUIRES_WINDOWS_CONTROL_RECEIPT" |}.

(** ** Specification *)
(** The attempts recorded since the clock last went backwards *)
Definition timeline (history : list FinanceAttempt) : list FinanceAttempt :=
  foldl (λ tl s, match last tl with
                 | Some l => if at_ms s <? at_ms l then [s] else tl ++ [s]
                 | None => [s]
                 end) [] history.

Definition window_of (history : list FinanceAttempt) : list FinanceAttempt :=
  foldl record [] history.

Definition healthy (s : FinanceAttempt) : Prop :=
  failure_code s = None ∧ ∃ age, snapshot_age_ms s = Some age ∧ 0 ≤ age ≤ MAX_SOURCE_AGE_MS.

(** Ten minutes of clean observation: an attempt [a] precedes the window; every instant of
    the window follows an attempt by at most five seconds; and every attempt in the window
    succeeded on a current source of the generation of [a]. *)
Definition clean (tl : list FinanceAttempt) (now : Z) : Prop :=
  let start := now - WINDOW_MS in
  ∃ a, last (filter (λ s, at_ms s ≤ start) tl) = Some a ∧
    (∀ t, start < t ≤ now → ∃ s, s ∈ tl ∧ at_ms s < t ≤ at_ms s + MAX_TICK_GAP_MS) ∧
    (∀ s, s ∈ tl → start < at_ms s ≤ now →
       healthy s ∧ source_generation s = source_generation a).

(** ** Lemmas *)
Definition ordered (l : list FinanceAttempt) : Prop :=
  StronglySorted (λ x y, at_ms x ≤ at_ms y) l.

Lemma ordered_app l1 l2 :
  ordered (l1 ++ l2) ↔
  (∀ x y, x ∈ l1 → y ∈ l2 → at_ms x ≤ at_ms y) ∧ ordered l1 ∧ ordered l2.
Proof. apply StronglySorted_app. Qed.

Lemma ordered_snoc l x :
  ordered l → (∀ y, last l = Some y → at_ms y ≤ at_ms x) → ordered (l ++ [x]).
Proof.
  intros Hl Hx. apply StronglySorted_snoc; [done|]. apply Forall_forall. intros y Hy.
  destruct (last l) as [z|] eqn:E; [|apply last_None in E as ->; by apply not_elem_of_nil in Hy].
  apply last_Some in E as [l' ->]. specialize (Hx z eq_refl).
  apply ordered_app in Hl as (Hl & _). apply elem_of_app in Hy as [Hy|Hy].
  - specialize (Hl y z Hy ltac:(by left)). lia.
  - apply list_elem_of_singleton in Hy as ->. done.
Qed.

(** A bounded queue keeps the last elements. *)
Lemma last_keep {A} (l : list A) n : (0 < n)%nat → last (drop (length l - n) l) = last l.
Proof.
  intros Hn. destruct l as [|x l _] using rev_ind; [done|].
  rewrite length_app. simpl. rewrite drop_app_le by lia. by rewrite !last_snoc.
Qed.

Lemma push_keep {A} (l : list A) x n :
  (0 < n)%nat →
  let pushed := drop (length l - n) l ++ [x] in
  (if (n <? length pushed)%nat then tail pushed else pushed)
    = drop (length (l ++ [x]) - n) (l ++ [x]).
Proof.
  intros Hn. simpl. rewrite <- drop_app_le by lia. rewrite length_drop, length_app. simpl.
  destruct (Nat.ltb_spec n (length l + 1 - (length l - n))).
  - change (tail ?l) with (drop 1 l). rewrite drop_drop. f_equal. lia.
  - f_equal. lia.
Qed.

(** The window keeps the end of the timeline. *)
Lemma window_suffix history :
  ordered (timeline history) ∧
  window_of history = drop (length (timeline history) - CAPACITY) (timeline history).
Proof.
  assert (0 < CAPACITY)%nat as Hn by (unfold CAPACITY; lia).
  induction history as [|s history [IHo IH]] using rev_ind; [by split; [constructor|]|].
  unfold timeline, window_of in *. rewrite !foldl_snoc. set (tl := foldl _ [] history) in *.
  rewrite IH. clear IH. unfold record. rewrite last_keep by done.
  generalize dependent CAPACITY. intros n Hn.
  destruct (last tl) as [l|] eqn:El; [destruct (Z.ltb_spec (at_ms s) (at_ms l))|].
  - split; [by repeat constructor|]. simpl. destruct n as [|[|n]]; done.
  - split; [|by apply push_keep]. apply ordered_snoc; [done|]. intros y. rewrite El. by intros [= <-].
  - apply last_None in El as ->. simpl. split; [by repeat constructor|].
    by destruct n as [|[|n]].
Qed.

(** Consecutive attempts within the gap and of one generation *)
Fixpoint linked (p : FinanceAttempt) (l : list FinanceAttempt) : Prop :=
  match l with
  | [] => True
  | s :: l' => at_ms s - at_ms p ≤ MAX_TICK_GAP_MS ∧ source_generation s = source_generation p
               ∧ linked s l'
  end.
Fixpoint final (p : FinanceAttempt) (l : list FinanceAttempt) : FinanceAttempt :=
  match l with [] => p | s :: l' => final s l' end.

Lemma link_fold p g c l :
  let '(prev, gaps, changes) := foldl link_step (Some p, g, c) l in
  prev = Some (final p l) ∧ (gaps = 0%nat ∧ changes = 0%nat ↔ g = 0%nat ∧ c = 0%nat ∧ linked p l).
Proof.
  revert p g c. induction l as [|s l IH]; intros p g c; [by simpl; tauto|]. simpl.
  specialize (IH s (if MAX_TICK_GAP_MS <? at_ms s - at_ms p then S g else g)
    (if source_generation s =? source_generation p then c else S c)).
  destruct (foldl _ _ l) as [[prev gaps] changes]. destruct IH as [-> IH]. split; [done|].
  rewrite IH. destruct (Z.ltb_spec MAX_TICK_GAP_MS (at_ms s - at_ms p)),
    (Z.eqb_spec (source_generation s) (source_generation p)); naive_solver lia.
Qed.

Lemma source_current_iff s :
  source_current s = true ↔ ∃ age, snapshot_age_ms s = Some age ∧ 0 ≤ age ≤ MAX_SOURCE_AGE_MS.
Proof.
  unfold source_current. destruct (snapshot_age_ms s) as [age|]; [|naive_solver].
  rewrite andb_true_iff, !Z.leb_le. naive_solver.
Qed.

Lemma tally_fold t l :
  let t' := foldl tally_step t l in
  ta_failures t' = 0%nat ∧ ta_stale t' = 0%nat ↔
  (ta_failures t = 0%nat ∧ ta_stale t = 0%nat) ∧ Forall healthy l.
Proof.
  simpl. revert t. induction l as [|s l IH]; intros t; simpl; [by intuition|].
  rewrite IH, Forall_cons. unfold healthy at 2. unfold tally_step.
  destruct (failure_code s); simpl; [naive_solver|]. rewrite <- source_current_iff.
  destruct (source_current s); naive_solver.
Qed.

Lemma anchor_last samples start :
  anchor_of samples start = last (filter (λ s, at_ms s ≤ start) samples).
Proof.
  unfold anchor_of. induction samples as [|s samples IH] using rev_ind; [done|].
  rewrite rev_app_distr, filter_app. simpl. destruct (Z.leb_spec (at_ms s) start).
  - by rewrite filter_cons_True, filter_nil, last_snoc by done.
  - by rewrite filter_cons_False, filter_nil, app_nil_r by lia.
Qed.

(** Links cover the time between the first and the last attempt, *)
Lemma linked_cover p l t :
  linked p l → at_ms p < t ≤ at_ms (final p l) + MAX_TICK_GAP_MS →
  ∃ s, s ∈ p :: l ∧ at_ms s < t ≤ at_ms s + MAX_TICK_GAP_MS.
Proof.
  revert p. induction l as [|s l IH]; intros p; simpl.
  - intros _ Ht. exists p. split; [by left|lia].
  - intros (Hgap & _ & Hl) Ht. destruct (Z.le_gt_cases t (at_ms p + MAX_TICK_GAP_MS)).
    + exists p. split; [by left|lia].
    + destruct (IH s Hl) as (x & Hx & Hc); [lia|]. exists x. by split; [right|].
Qed.

(** and only links cover it. *)
Lemma cover_linked start now p l :
  start < now → ordered (p :: l) → Forall (λ s, start < at_ms s ≤ now) l →
  Forall (λ s, source_generation s = source_generation p) l →
  (∀ t, Z.max start (at_ms p) < t ≤ now →
     ∃ s, s ∈ p :: l ∧ at_ms s < t ≤ at_ms s + MAX_TICK_GAP_MS) →
  linked p l ∧ now - at_ms (final p l) ≤ MAX_TICK_GAP_MS.
Proof.
  intros Hnow. revert p. induction l as [|s l IH]; intros p Hord Hin Hgen Hcov; simpl.
  - split; [done|]. destruct (Z.le_gt_cases (now - at_ms p) MAX_TICK_GAP_MS) as [|Hgap]; [done|].
    assert (0 < MAX_TICK_GAP_MS) by done.
    destruct (Hcov now ltac:(lia)) as (x & ->%list_elem_of_singleton & Hx). lia.
  - apply Forall_cons in Hin as [Hs Hin]. apply Forall_cons in Hgen as [Hg Hgen].
    inversion Hord as [|? ? Hord' Hp]; subst. apply Forall_cons in Hp as [Hps _].
    inversion Hord' as [|? ? _ Hsl]; subst. rewrite Forall_forall in Hsl.
    assert (at_ms s - at_ms p ≤ MAX_TICK_GAP_MS) as Hgap.
    { destruct (Z.le_gt_cases (at_ms s - at_ms p) MAX_TICK_GAP_MS) as [|Hgap]; [done|].
      assert (0 < MAX_TICK_GAP_MS) by done.
      destruct (Hcov (Z.max start (at_ms p + MAX_TICK_GAP_MS) + 1) ltac:(lia)) as (x & Hx & Hc).
      apply elem_of_cons in Hx as [->|[->|Hx]%elem_of_cons]; [lia|lia|].
      specialize (Hsl x Hx). simpl in Hsl. lia. }
    destruct (IH s Hord' Hin) as [Hlink Hfin]; [by rewrite Hg| |done].
    intros t Ht. destruct (Hcov t ltac:(lia)) as (x & [->|Hx]%elem_of_cons & Hc); [|by exists x].
    exists s. split; [by left|lia].
Qed.

(** The verdict on the samples *)
Lemma summary_clean samples now :
  let start := saturating_sub_i64 now WINDOW_MS in
  let selected := selected_of samples start now in
  start < now →
  fws_state (summary samples now) = "OBSERVED_CLEAN" ↔
  ∃ a, last (filter (λ s, at_ms s ≤ start) samples) = Some a ∧ linked a selected ∧
       now - at_ms (final a selected) ≤ MAX_TICK_GAP_MS ∧ at_ms (final a selected) ≤ now ∧
       selected ≠ [] ∧ Forall healthy selected.
Proof.
  intros start sel Hnow. unfold summary. rewrite anchor_last. fold start. fold sel.
  pose proof (tally_fold empty_tally sel) as Ht. cbn zeta in Ht.
  destruct (last _) as [a|].
  - pose proof (link_fold a 0 0 sel) as Hl.
    destruct (foldl link_step _ sel) as [[prev gaps] changes]. destruct Hl as [-> Hl]. simpl in *.
    set (t := foldl tally_step empty_tally sel) in *. clearbody t.
    assert (linked a sel ↔ gaps = 0%nat ∧ changes = 0%nat) as Hl' by naive_solver. clear Hl.
    assert (Forall healthy sel ↔ ta_failures t = 0%nat ∧ ta_stale t = 0%nat) as Ht' by naive_solver.
    clear Ht. setoid_rewrite Ht'. destruct (Z.leb_spec (at_ms (final a sel)) now); simpl;
      [|split; [done|intros (a' & [= <-] & _ & _ & ? & _); lia]].
    destruct (Z.leb_spec (now - at_ms (final a sel)) MAX_TICK_GAP_MS); simpl;
      [|split; [done|intros (a' & [= <-] & _ & ? & _); lia]].
    destruct (Nat.eqb_spec (length sel) 0) as [Hz|Hz]; simpl.
    { apply length_zero_iff_nil in Hz. naive_solver. }
    assert (sel ≠ []) as Hne by (by intros E; rewrite E in Hz).
    destruct (Nat.ltb_spec 0 (ta_failures t)), (Nat.ltb_spec 0 (ta_stale t)),
      (Nat.ltb_spec 0 gaps), (Nat.ltb_spec 0 changes); simpl;
      (split; [try discriminate; intros _; exists a; rewrite Hl'; repeat split; (done || lia)
              |intros (a' & [= <-] & Hlk & _ & _ & _ & Hh1 & Hh2); rewrite Hl' in Hlk; try done; lia]).
  - destruct (foldl link_step _ _) as [[? ?] ?]. simpl. naive_solver.
Qed.

(** ** Theorems *)
Section timeline_window.
Context (samples tl : list FinanceAttempt) (now start : Z).
Context (Hord : ordered tl) (Hsuffix : ∃ n, samples = drop n tl).

Lemma samples_in s : s ∈ samples → s ∈ tl.
Proof using Hsuffix.
  destruct Hsuffix as [n ->]. intros Hs. rewrite <- (take_drop n tl).
  apply elem_of_app. by right.
Qed.

Lemma samples_ordered : ordered samples.
Proof using Hsuffix Hord.
  destruct Hsuffix as [n ->]. rewrite <- (take_drop n tl) in Hord. by apply ordered_app in Hord as (_ & _ & ?).
Qed.

(** While a sample at or before the start is kept, so is every later attempt. *)
Lemma kept_after a s : a ∈ samples → at_ms a ≤ start → s ∈ tl → start < at_ms s → s ∈ samples.
Proof using Hsuffix Hord.
  destruct Hsuffix as [n ->]. intros Ha Hat Hs Hlt. rewrite <- (take_drop n tl) in Hs, Hord.
  apply elem_of_app in Hs as [Hs|Hs]; [|done]. apply ordered_app in Hord as (Hle & _).
  specialize (Hle s a Hs Ha). lia.
Qed.

Lemma last_filter_suffix a :
  last (filter (λ s, at_ms s ≤ start) samples) = Some a →
  last (filter (λ s, at_ms s ≤ start) tl) = Some a.
Proof using Hsuffix.
  destruct Hsuffix as [n ->]. intros Ha. rewrite <- (take_drop n tl), filter_app.
  by rewrite last_app, Ha.
Qed.
End timeline_window.

Lemma elem_of_selected samples start now s :
  s ∈ selected_of samples start now ↔ (start < at_ms s ≤ now) ∧ s ∈ samples.
Proof. unfold selected_of. rewrite list_elem_of_filter. naive_solver lia. Qed.

Lemma selected_ordered samples start now a :
  ordered samples → at_ms a ≤ start → ordered (a :: selected_of samples start now).
Proof.
  intros Ho Ha. constructor.
  - by apply StronglySorted_filter.
  - apply Forall_forall. intros s [Hs _]%elem_of_selected. lia.
Qed.

Lemma linked_generation p l s : linked p l → s ∈ l → source_generation s = source_generation p.
Proof.
  revert p. induction l as [|x l IH]; intros p; simpl; [intros _ Hs; by apply not_elem_of_nil in Hs|].
  intros (_ & Hg & Hl) [->|Hs]%elem_of_cons; [done|]. by rewrite (IH x Hl Hs).
Qed.

Lemma final_in p l : final p l ∈ p :: l.
Proof.
  revert p. induction l as [|x l IH]; intros p; simpl; [by left|]. right. apply IH.
Qed.

Lemma last_anchor l start a :
  ordered l → last (filter (λ s, at_ms s ≤ start) l) = Some a →
  a ∈ l ∧ at_ms a ≤ start ∧ ∀ s, s ∈ l → at_ms s ≤ start → at_ms s ≤ at_ms a.
Proof.
  intros Hl [l' E]%last_Some.
  assert (∀ s, s ∈ l ∧ at_ms s ≤ start ↔ s ∈ l' ++ [a]) as Hin.
  { intros s. rewrite <- E, list_elem_of_filter. naive_solver. }
  assert (ordered (l' ++ [a])) as Ho by (rewrite <- E; by apply StronglySorted_filter).
  apply ordered_app in Ho as (Ho & _). destruct (proj2 (Hin a) ltac:(set_solver)) as [? ?].
  split_and!; [done|done|]. intros s Hs Hst.
  assert (s ∈ l' ++ [a]) as [Hs'|Hs']%elem_of_app by (by apply Hin); [apply Ho; set_solver|].
  apply list_elem_of_singleton in Hs' as ->. lia.
Qed.

Lemma start_exact now : 0 ≤ now ≤ i64_max → saturating_sub_i64 now WINDOW_MS = now - WINDOW_MS.
Proof. unfold saturating_sub_i64, i64_min, i64_max, WINDOW_MS. lia. Qed.

Lemma clean_of_summary samples tl now :
  0 ≤ now ≤ i64_max → ordered tl → (∃ n, samples = drop n tl) →
  fws_state (summary samples now) = "OBSERVED_CLEAN" → clean tl now.
Proof.
  intros Hnow Hord Hsuf Hs. apply summary_clean in Hs as (a & Ha & Hlink & Hfresh & _ & _ & Hh);
    [|rewrite start_exact by done; unfold WINDOW_MS; lia].
  rewrite start_exact in * by done. set (start := now - WINDOW_MS) in *.
  pose proof (samples_ordered _ _ Hord Hsuf) as Hso.
  destruct (last_anchor _ _ _ Hso Ha) as (Hin & Hat & _).
  exists a. split_and!.
  - by eapply last_filter_suffix.
  - intros t Ht. destruct (linked_cover a _ t Hlink) as (s & Hs & Hc); [lia|]. exists s.
    split; [|done]. apply (samples_in samples); [done|].
    apply elem_of_cons in Hs as [->|Hs]; [done|]. by apply elem_of_selected in Hs as [_ ?].
  - intros s Hs Hw. assert (s ∈ selected_of samples start now) as Hsel.
    { apply elem_of_selected. split; [done|]. 
      apply (kept_after samples tl start Hord Hsuf a s Hin Hat Hs). lia. }
    rewrite Forall_forall in Hh. split; [by apply Hh|]. by eapply linked_generation.
Qed.

Lemma summary_of_clean tl now :
  0 ≤ now ≤ i64_max → ordered tl → clean tl now →
  fws_state (summary tl now) = "OBSERVED_CLEAN".
Proof.
  intros Hnow Hord (a & Ha & Hcov & Hh). assert (0 < MAX_TICK_GAP_MS < WINDOW_MS) as Hgap by done.
  apply summary_clean; rewrite start_exact by done; [lia|].
  set (start := now - WINDOW_MS) in *. destruct (last_anchor _ _ _ Hord Ha) as (Hin & Hat & Hmax).
  destruct (cover_linked start now a (selected_of tl start now)) as [Hlink Hfresh].
  - lia.
  - by apply selected_ordered.
  - apply Forall_forall. intros s [? _]%elem_of_selected. done.
  - apply Forall_forall. intros s [? ?]%elem_of_selected. by apply Hh.
  - intros t Ht. destruct (Hcov t ltac:(lia)) as (s & Hs & Hc).
    destruct (Z.le_gt_cases (at_ms s) start).
    + exists a. split; [by left|]. specialize (Hmax s Hs). lia.
    + exists s. split; [right|done]. apply elem_of_selected. split; [lia|done].
  - exists a. split_and!; [done|done|done| | |].
    + pose proof (final_in a (selected_of tl start now)) as [->|Hf]%elem_of_cons; [lia|].
      apply elem_of_selected in Hf. lia.
    + destruct (Hcov now ltac:(lia)) as (s & Hs & Hc).
      assert (s ∈ selected_of tl start now) as Hsel by (apply elem_of_selected; split; [lia|done]).
      intros E. rewrite E in Hsel. by apply not_elem_of_nil in Hsel.
    + apply Forall_forall. intros s [? ?]%elem_of_selected. by apply Hh.
Qed.

(** a clean report is a proof of ten clean minutes.  Whatever was recorded, in whatever
    order of times, the window reports OBSERVED_CLEAN at [now] only if, since the clock last
    went backwards, every instant of the last ten minutes follows an attempt by at most five
    seconds and every attempt of these minutes succeeded, on a source at most five seconds
    old, of the one generation in force when the window began.  Conversely these facts give
    the report, as long as no more attempts than the capacity were recorded since. *)
Theorem observed_clean_iff history now :
  0 ≤ now ≤ i64_max →
  let clean_report := fws_state (summary (window_of history) now) = "OBSERVED_CLEAN" in
  (clean_report → clean (timeline history) now) ∧
  (clean (timeline history) now → (length (timeline history) ≤ CAPACITY)%nat → clean_report).
Proof.
  intros Hnow. destruct (window_suffix history) as [Hord Hw]. cbn zeta. rewrite Hw. split.
  - apply clean_of_summary; [done|done|by eexists].
  - intros Hc Hcap. replace (length _ - CAPACITY)%nat with 0%nat by lia. rewrite drop_0.
    by apply summary_of_clean.
Qed.

(** ** Witness: an attempt every four seconds for six hundred and eight seconds *)
Definition sample_attempt (t : Z) : FinanceAttempt := {|
  at_ms := t; source_generation := 3; elapsed_ms := 40; nav_sql_owner_ms := Some 7;
  nav_sql_queue_ms := None; snapshot_age_ms := Some 900; failure_code := None |}.
Definition sample_history : list FinanceAttempt :=
  map (λ i, sample_attempt (Z.of_nat i * 4000)) (seq 1 152).

Lemma observed_clean_iff_witness :
  fws_state (summary (window_of sample_history) 608000) = "OBSERVED_CLEAN" ∧
  clean (timeline sample_history) 608000.
Proof.
  assert (0 ≤ 608000 ≤ i64_max) as Hnow by (by vm_compute).
  assert (fws_state (summary (window_of sample_history) 608000) = "OBSERVED_CLEAN") as E
    by (by vm_compute).
  split; [exact E|]. exact (proj1 (observed_clean_iff sample_history 608000 Hnow) E).
Defined.
