(* ===== verification/TradeService.v ===== *)
(** * TradeService: the trade service and what it talks to, [trade_service/mod.rs]

    [Eff] lists everything the service awaits: its clocks, the account database, the
    exchange, the central risk authority and the state of the other parts of the engine.
    A [job] is a closure sent to the database worker ([account_worker.rs]): its operations
    run in a row on the one connection, and it can be cut off between two of them.  The
    finance tables, which are not modelled, enter a job as a [View]. *)
From stdpp Require Import base option list numbers strings gmap.
From Stdlib Require Import ZArith Lia Ascii String.
From S2P Require Import Prelude Text Ordered External Clock Decimals EntryBudget Protocol RiskAuthority Ledger Intents Instances Programs RateBudget Wire Reference Market Stream Account TradeApi.
Local Open Scope string_scope.
Local Open Scope list_scope.
Local Open Scope Z_scope.

(** ** [config.rs] *)
Definition QUOTE_MAX_AGE_MS : Z := 2000.
Definition DERIVATIVE_CONTEXT_MAX_AGE_MS : Z := 180000.
Definition ACCOUNT_MAX_AGE_MS : Z := 5000.
Definition evidence_fresh (received now max_age_ms : Z) : bool :=
  (0 <? received) && (received <=? now) && (now - received <=? max_age_ms).

(** Nanoseconds, as [Instant] and [Duration] count them *)
Definition from_millis (ms : Z) : Z := ms * 1000000.

(** ** The account database *)
Record FinancialRisk {D : Type} : Type := {
  fr_daily_loss_usd : D;
  fr_drawdown_ratio : D;
  fr_nav_complete : bool;
  fr_source_as_of : Z;
}.
Arguments FinancialRisk D : clear implicits.
Record StoredLot {D : Type} : Type := {
  lot_id : string;
  lot_instance_id : option string;
  lot_intent_id : option string;
  lot_fill_id : option string;
  lot_instrument_id : string;
  lot_side : string;
  lot_remaining_qty : D;
  lot_cost : D;
  lot_opened_at : Z;
}.
Arguments StoredLot D : clear implicits.
Record ProtectionReceipt {D : Type} : Type := {
  pr_intent_id : string;
  pr_algo_id : string;
  pr_side : string;
  pr_quantity : D;
  pr_trigger_price : D;
  pr_trigger_basis : string;
  pr_verified_at : Z;
  pr_source_digest : string;
}.
Arguments ProtectionReceipt D : clear implicits.
Record SourceCursor : Type := {
  cur_source : string;
  cur_stream_partition : string;
  cur_cursor : string;
  cur_watermark : Z;
  cur_generation : Z;
  cur_coverage_gaps : string;
}.

(** What the finance half of the store answers at an instant *)
Record View {D : Type} : Type := {
  financial_risk : Z → option string → StoreResult (FinancialRisk D);
  active_lots : string → StoreResult (list (StoredLot D));
  protection : string → StoreResult (option (ProtectionReceipt D));
  verify_protection : ProtectionReceipt D → StoreResult unit;
  cursor : string → string → StoreResult (option SourceCursor);
}.
Arguments View D : clear implicits.

(** A closure [|s| …] over the store: operations with the [now()] they read, and what the
    closure makes of their answers *)
Inductive job (D X : Type) : Type :=
| Done (r : StoreResult X)
| Op {Y : Type} (op : Z → View D → Store → Store * StoreResult Y) (k : StoreResult Y → job D X).
Arguments Done {D X} r.
Arguments Op {D X Y} op k.

(** The worker runs a job; [env n] is the clock and the finance tables at its [n]-th operation. *)
Fixpoint run_job {D X} (env : nat → Z * View D) (j : job D X) (s : Store) : Store * StoreResult X :=
  match j with
  | Done r => (s, r)
  | Op op k => let '(s', y) := op (env O).1 (env O).2 s in run_job (λ n, env (S n)) (k y) s'
  end.
(** The store after the first [n] operations, when the deadline interrupts the rest *)
Fixpoint cut_job {D X} (n : nat) (env : nat → Z * View D) (j : job D X) (s : Store) : Store :=
  match n, j with
  | S n', Op op k => let '(s', y) := op (env O).1 (env O).2 s in cut_job n' (λ n, env (S n)) (k y) s'
  | _, _ => s
  end.

Section jobs.
Context {D : Type}.
#[export] Instance job_ret : MRet (job D) := λ A a, Done (Ok a).
Fixpoint job_andthen {A B} (k : A → job D B) (j : job D A) : job D B :=
  match j with
  | Done (Ok a) => k a
  | Done (Err e) => Done (Err e)
  | Op op h => Op op (λ y, job_andthen k (h y))
  end.
#[export] Instance job_bind : MBind (job D) := λ A B k j, job_andthen k j.

(** One operation, its answer passed on with [?] *)
Definition op {Y} (f : Z → View D → Store → Store * StoreResult Y) : job D Y := Op f Done.
Definition write {Y} (f : Z → Db → Db * StoreResult Y) : job D Y := op (λ now _ s, on_db (f now) s).
Definition query {Y} (f : Db → StoreResult Y) : job D Y := op (λ _ _ s, (s, f (db s))).
Definition finance {Y} (f : Z → View D → StoreResult Y) : job D Y := op (λ now v s, (s, f now v)).
Definition job_now : job D Z := op (λ now _ s, (s, Ok now)).
Definition job_fail {Y} (code : string) : job D Y := Done (invalid code).
End jobs.

(** ** Who the service works for *)
Record AccountResources : Type := {
  account_key : AccountKey;
  execution_uid : string;
}.
Record PrivateStatus : Type := {
  ps_connection_generation : Z;
  ps_logged_in : bool;
}.

Record FeeScheduleSnapshot : Type := {
  fs_schema : string;
  fs_instrument_id : string;
  fs_reference_generation : string;
  fs_source_received_at : string;
  fs_exchange_timestamp_ms : string;
  fs_level : string;
  fs_maker_rate : string;
  fs_taker_rate : string;
  fs_exact_for_instrument : bool;
  fs_fee_generation : string;
}.

(** ** Effects *)
Inductive Eff (D : Type) : Type → Type :=
| Now : Eff D Z
| Tick : Eff D Z
| UtcText : Eff D string
| UtcDay : Eff D string
| Sleep (ms : Z) : Eff D unit
(** the store of an account: any job, and the one call that gives the permission to post *)
| Call {X : Type} (account : string) (until : Z) (j : job D X) : Eff D (StoreResult X)
| CallBeginPost (account : string) (until : Z) (intent : string) (revision : Z) : Eff D (StoreResult bool)
(** the governance lock *)
| ReadGovernance : Eff D (option CentralGovernanceSnapshot)
| LockGovernance : Eff D (option CentralGovernanceSnapshot)
| SetGovernance (s : CentralGovernanceSnapshot) : Eff D unit
(** the registry of accounts and an account's own resources *)
| Resolve (account : string) : Eff D (option AccountResources)
| InstallationId : Eff D string
| Failures : Eff D bool
| TryAcquire (account : string) : Eff D bool
| Release (account : string) : Eff D unit
| PrivateWsStatus (account : string) : Eff D PrivateStatus
| VerifiedSourceGeneration (account : string) : Eff D Z
| VerifiedUidMatches (account uid : string) : Eff D (result string bool)
(** reads of the market and of the account *)
| DemandInstrument (instrument : string) : Eff D (result string unit)
| RiskFreshSnapshot (instrument : string) (now price_max_age context_max_age : Z) (received_at : string)
    : Eff D (result string LiveMarketSnapshot)
| FreshSnapshot (instrument : string) (now max_age : Z) (received_at : string)
    : Eff D (result string LiveMarketSnapshot)
| InstrumentRules (instrument : string) : Eff D (option InstrumentRulesSnapshot)
| ObserverSnapshot (account : string) : Eff D (result string AccountSnapshot)
| SnapshotAfterHeld (account : string) : Eff D (result string AccountSnapshot)
| FeeSchedule (account : string) (rules : InstrumentRulesSnapshot) : Eff D (result string FeeScheduleSnapshot)
| ConfiguredLeverage (account instrument position_side : string) : Eff D (result string string)
| PendingRiskAlgos (account : string) : Eff D (result string PendingDerivativeAlgoRiskInventory)
| LatestSnapshot (account : string) : Eff D (option AccountSnapshot)
| ExecutorConfig (account : string) : Eff D (result string AccountConfig)
| CaptureSources (account : string) : Eff D (result string AccountSnapshot)
| CompletionOrder (n : nat) : Eff D (list nat)
(** the risk authority *)
| Transport (c : RiskCommand) : Eff D (result string RiskResult)
| ProcessIncarnation : Eff D (result string string)
(** the exchange *)
| ClockSample (account : string) : Eff D (result string ClockEvidence)
| AdmitRequest (account : string) (operation : RateOperationClass) (instrument : string) : Eff D (result string unit)
| PlaceOrder (account : string) (order : PlaceOrderRequest) (timing : MutationTiming)
    : Eff D (result string (TradeResponse OrderOperationAck))
| CancelOrder (account : string) (order : CancelOrderRequest) (timing : MutationTiming)
    : Eff D (result string (TradeResponse OrderOperationAck))
| CancelAlgo (account : string) (order : CancelAlgoOrderRequest) (timing : MutationTiming)
    : Eff D (result string (TradeResponse CancelAlgoOrderAck))
| OrderRows (account instrument client_order_id : string) : Eff D (result string (list TradeOrderDetails))
| AlgoRows (account client_order_id : string) : Eff D (result string (list TradeAlgoOrderDetails)).
Arguments Now {D}. Arguments Tick {D}. Arguments UtcText {D}. Arguments UtcDay {D}.
Arguments Sleep {D}. Arguments Call {D X}. Arguments CallBeginPost {D}.
Arguments ReadGovernance {D}. Arguments LockGovernance {D}. Arguments SetGovernance {D}.
Arguments Resolve {D}. Arguments InstallationId {D}. Arguments Failures {D}.
Arguments TryAcquire {D}. Arguments Release {D}. Arguments PrivateWsStatus {D}.
Arguments VerifiedSourceGeneration {D}. Arguments VerifiedUidMatches {D}.
Arguments DemandInstrument {D}. Arguments RiskFreshSnapshot {D}. Arguments FreshSnapshot {D}.
Arguments InstrumentRules {D}. Arguments ObserverSnapshot {D}. Arguments SnapshotAfterHeld {D}.
Arguments FeeSchedule {D}. Arguments ConfiguredLeverage {D}. Arguments PendingRiskAlgos {D}.
Arguments CaptureSources {D}. Arguments LatestSnapshot {D}. Arguments ExecutorConfig {D}. Arguments CompletionOrder {D}. Arguments Transport {D}.
Arguments ProcessIncarnation {D}. Arguments ClockSample {D}. Arguments AdmitRequest {D}.
Arguments PlaceOrder {D}. Arguments CancelOrder {D}. Arguments CancelAlgo {D}.
Arguments OrderRows {D}. Arguments AlgoRows {D}.

(** Texts of errors ([Display]), and chrono's [parse_from_rfc3339] in milliseconds *)
Class AgentText `{Hashing} : Type := {
  serde_text : SerdeError → string;
  sql_text : SqlError → string;
  rfc3339_timestamp : string → result string Z;
  okx_text : OkxError → string;
  clock_text : ClockError → string;
}.

(** What [digest] is applied to *)
Class TradeSerialize (D : Type) `{Hashing} : Type := {
  ser_request :: Serialize (string * TradeRequest);
  ser_bound_plan :: Serialize (string * IntentPlan D);
  ser_plan :: Serialize (IntentPlan D);
  ser_intent :: Serialize (StoredIntent D);
  ser_instance :: Serialize (StrategyInstance D);
  ser_risk_result :: Serialize RiskResult;
  ser_conversion :: Serialize UsdConversion;
  ser_census :: Serialize NativeRiskCensus;
  ser_usdt :: Serialize (string * string * AccountBalanceDetail);
  ser_page :: Serialize (AccountSnapshot * PendingDerivativeAlgoRiskInventory);
  ser_texts :: Serialize (list string);
  ser_source :: Serialize (string * Z * Z);
  ser_read :: Serialize (string * Z * string * Z * Z);
  ser_unsent :: Serialize UnsentSqlReceipt;
  ser_algo :: Serialize TradeAlgoOrderDetails;
  ser_pair :: Serialize (string * string);
  ser_triple :: Serialize (string * string * string);
  ser_ledger :: Serialize TerminalRiskLedgerProof;
  ser_terminal :: Serialize (StoredIntent D * option TradeOrderDetails * D * SourceCursor);
}.

#[export] Instance AccountLimits_eq_dec : EqDecision AccountLimits.
Proof. solve_decision. Defined.
#[export] Instance StrategyLimits_eq_dec : EqDecision StrategyLimits.
Proof. solve_decision. Defined.
#[export] Instance AccountControl_eq_dec : EqDecision AccountControl.
Proof. solve_decision. Defined.
#[export] Instance AccountGovernance_eq_dec : EqDecision AccountGovernance.
Proof. solve_decision. Defined.

(** [x as i64] of a [u64] *)
Definition as_i64 (x : Z) : Z := if x <=? i64_max then x else x - 2 ^ 64.

(** JSON answers; the structs in them are kept as they are. *)
Inductive Json {D : Type} : Type :=
| JNull
| JBool (b : bool)
| JNum (n : Z)
| JText (s : string)
| JList (l : list Json)
| JObj (fields : list (string * Json))
| JIntent (i : StoredIntent D)
| JProtection (p : ProtectionReceipt D)
| JRisk (r : RiskResult)
| JPlan (p : IntentPlan D)
| JLimits (l : AccountLimits)
| JFinancial (f : FinancialRisk D)
| JBudget (b : RiskBudgetSnapshot).
Arguments Json D : clear implicits.

Section service.
Context {D : Type} `{DecimalArith D} `{Hashing} `{!AgentText} `{!TradeSerialize D} `{JsonText}.
Notation T := (M (Eff D)).

Definition store_text (e : StoreError) : string :=
  match e with
  | Invalid code => code
  | Sql e => "ACCOUNT_STORAGE_UNAVAILABLE: " +:+ sql_text e
  end.
Definition digest {A} `{!Serialize A} (v : A) : result failure string :=
  match to_vec v with Ok b => Ok (sha256_hex b) | Err e => Err (Error (serde_text e)) end.
Definition require {A} (code : string) (o : option A) : result failure A := ok_or (Error code) o.
Definition dec_opt (o : option string) : result failure (option D) :=
  match o with None => Ok None | Some v => Some <$> dec v end.

Definition now : T Z := perform Now.
Definition tick : T Z := perform Tick.
Definition deadline : T Z := t ← tick; mret (t + from_millis 10000).
(** [store.call(until, …).await.map_err(err)?] *)
Definition call {X} (account : string) (until : Z) (j : job D X) : T X :=
  r ← perform (Call account until j); lift (map_err (λ e, Error (store_text e)) r).
Definition call_soon {X} (account : string) (j : job D X) : T X := until ← deadline; call account until j.
Definition ask {A} (e : Eff D (result string A)) : T A := r ← perform e; check r.

Definition completed (data : Json D) : T (Json D) :=
  t ← now;
  mret (JObj [("status", JText "completed"); ("as_of_ms", JNum t); ("data", data);
              ("quality", JObj [("state", JText "not_evaluated")]); ("warnings", JList [])]).
Definition uncertain (intent reason : string) : T (Json D) :=
  t ← now;
  mret (JObj [("status", JText "unknown"); ("intent_id", JText intent); ("reason_code", JText reason);
              ("scope", JText "intent"); ("retryable", JBool false); ("next_action", JText "trade.status");
              ("as_of_ms", JNum t)]).

(** ** Governance *)
Definition rev_of (s : CentralGovernanceSnapshot) : Z := gov_revision (cgs_state s).
Definition apply_policy (s : CentralGovernanceSnapshot) (account : AccountControl) (limit : D) : T unit :=
  call_soon (act_account_key account)
    (write (λ _ d, apply_authority_policy d (as_i64 (rev_of s)) (negb (access_enabled account))
                     (gov_campaign_id (cgs_state s)) limit)).
Definition update_governance (snapshot : CentralGovernanceSnapshot) : T unit :=
  installation ← perform InstallationId;
  if negb (central_snapshot_valid snapshot)
     || negb (gov_installation_id (cgs_state snapshot) =? installation)%string
  then fail "INSTALLATION_POLICY_MISMATCH" else
  latest ← perform LockGovernance;
  if is_some_and (λ v, rev_of snapshot <? rev_of v) latest then fail "POLICY_REVISION_CONFLICT" else
  if is_some_and (λ v, (rev_of v =? rev_of snapshot)
                       && negb (bool_decide (cgs_state v = cgs_state snapshot))) latest
  then fail "POLICY_REVISION_CONFLICT" else
  limit ← lift (dec (gov_campaign_loss_limit_usd (cgs_state snapshot)));
  _ ← mapM (λ account,
        r ← perform (Resolve (act_account_key account));
        match r with
        | None => mret tt
        | Some _ => apply_policy snapshot account limit
        end) (gov_accounts (cgs_state snapshot));
  perform (SetGovernance snapshot).

Definition wire_of (r : AccountResources) : string := wire (account_key r).
Definition control_of (s : CentralGovernanceSnapshot) (r : AccountResources) : option AccountControl :=
  List.find (λ a, (act_account_key a =? wire_of r)%string) (gov_accounts (cgs_state s)).
Definition authority (r : AccountResources) (supplied : option CentralGovernanceSnapshot)
    : T (CentralGovernanceSnapshot * AccountControl) :=
  _ ← match supplied with Some s => update_governance s | None => mret tt end;
  governance ← perform ReadGovernance;
  state ← lift (require "AUTHORITY_UNAVAILABLE" governance);
  account ← lift (require "ACCOUNT_ACCESS_MISSING" (control_of state r));
  limit ← lift (dec (gov_campaign_loss_limit_usd (cgs_state state)));
  _ ← apply_policy state account limit;
  mret (state, account).

(** [sql_policy_receipt(..)["matches_governance"]] *)
Definition policy_matches (p : Z * bool * string * D * D) (governance : option CentralGovernanceSnapshot)
    (r : AccountResources) : bool :=
  let '(revision, paused, campaign, limit, _) := p in
  is_some_and (λ s,
    is_some_and (λ account,
      central_snapshot_valid s && (rev_of s <=? i64_max) && (rev_of s =? revision)
      && negb (Bool.eqb paused (access_enabled account))
      && (campaign =? gov_campaign_id (cgs_state s))%string
      && match dec (gov_campaign_loss_limit_usd (cgs_state s)) with
         | Ok value => dec_eqb limit value | Err _ => false end) (control_of s r)) governance.
Definition preview_authority (r : AccountResources) (supplied : option CentralGovernanceSnapshot)
    : T (CentralGovernanceSnapshot * AccountControl) :=
  governance ← perform ReadGovernance;
  state ← lift (require "AUTHORITY_UNAVAILABLE" governance);
  if is_some_and (λ proof, negb (central_snapshot_valid proof)
                           || negb (bool_decide (cgs_state proof = cgs_state state))) supplied
  then fail "PREVIEW_AUTHORITY_NOT_APPLIED" else
  account ← lift (require "ACCOUNT_ACCESS_MISSING" (control_of state r));
  p ← call_soon (wire_of r) (query (policy (D:=D)));
  if negb (policy_matches p (Some state) r) then fail "NATIVE_SQL_POLICY_NOT_APPLIED" else
  mret (state, account).

(** ** The risk authority: [NativeRiskClient::request] of [risk_bridge.rs] *)
Definition request (command : RiskCommand) : T RiskResult :=
  if negb (command_valid command) then fail "INVALID_RISK_COMMAND" else
  response ← ask (Transport command);
  if negb (risk_result_valid response)
     || negb (rr_command_id response =? rc_command_id command)%string
  then fail "RISK_RESPONSE_IDENTITY_MISMATCH" else mret response.
Definition risk_command (s : CentralGovernanceSnapshot) (id : string) (action : RiskCommandAction) : RiskCommand := {|
  rc_schema := RISK_COMMAND_SCHEMA_V1; rc_command_id := id;
  rc_installation_id := gov_installation_id (cgs_state s); rc_action := action |}.
Definition risk_summary : T RiskBudgetSnapshot :=
  governance ← perform ReadGovernance;
  snapshot ← lift (require "AUTHORITY_UNAVAILABLE" governance);
  t ← now;
  response ← request (risk_command snapshot ("summary_" +:+ show_u64 t) Summary);
  if negb (bool_decide (rr_status response = RiskAuthority.Observed))
  then fail (default "CENTRAL_BUDGET_UNAVAILABLE" (rr_reason response)) else
  lift (require "CENTRAL_BUDGET_MISSING" (rr_budget response)).

(** ** An account's connection *)
Definition source_identity_ready (r : AccountResources) : T bool :=
  status ← perform (PrivateWsStatus (wire_of r));
  verified ← perform (VerifiedSourceGeneration (wire_of r));
  mret ((0 <? ps_connection_generation status) && ps_logged_in status
        && (verified =? ps_connection_generation status)).
Definition connection_generation (r : AccountResources) : T Z :=
  status ← perform (PrivateWsStatus (wire_of r)); mret (ps_connection_generation status).
End service.
