(* ===== verification/TradeDemo.v ===== *)
(** * TradeDemo: a small world in which the trade service runs

    One demo account with a USDT balance and a long position, one swap, a database, clocks
    that stand still and a risk authority that answers nothing.  [demo_answer] answers every
    effect, and keeps the store the jobs write; it is where the theorems on programs are
    evaluated. *)
From stdpp Require Import base option list numbers strings gmap.
From Stdlib Require Import ZArith Lia Ascii String.
From S2P Require Import Prelude Text Ordered External Clock Decimals EntryBudget Protocol RiskAuthority Ledger Intents IntentReadback Instances Programs RateBudget Wire Reference Market OrderBook Stream Account TradeApi TradeService.
Local Open Scope string_scope.
Local Open Scope list_scope.
Local Open Scope Z_scope.

#[local] Existing Instance toy_hashing.
#[local] Existing Instance toy_serialize.
Definition demo_json : JsonText := Some.
Definition demo_text : AgentText :=
  {| serde_text _ := "serde"; sql_text _ := "sql"; rfc3339_timestamp _ := Ok 1000;
     okx_text _ := "okx"; clock_text _ := "clock" |}.
Definition demo_serialize : TradeSerialize Fixed.t := ltac:(split; exact toy_serialize).
Definition num (s : string) : Fixed.t := default dec_zero (dec_from_str s).

Definition demo_resources : AccountResources := {|
  account_key := {| ak_venue := "okx"; ak_environment := Demo; ak_verified_uid := "u" |};
  execution_uid := "u" |}.
Definition demo_limits : AccountLimits := {|
  al_max_modelled_loss_usdt := "100"; al_max_order_loss_usdt := "12.5";
  al_max_notional_usdt := Some "1000"; al_max_entry_usd := None; al_max_leverage := Some "3";
  al_max_daily_realized_loss_usdt := Some "50"; al_max_drawdown_ratio := Some "0.2";
  al_allowed_instruments := ["BTC-USDT-SWAP"] |}.
Definition demo_control : AccountControl := {|
  act_id := "main"; act_label := "Main"; act_venue := "okx"; act_environment := Demo;
  act_uid_fingerprint := "u"; act_identity_verified := true; act_enabled := true;
  act_explicit_pause := false; act_policy_revision := 1; act_account_key := "okx:demo:u";
  act_limits := demo_limits; act_strategies := [] |}.
Definition demo_governance : CentralGovernanceSnapshot := {|
  cgs_state := {|
    gov_schema := "okx.governance/v3"; gov_revision := 1; gov_installation_id := "inst";
    gov_campaign_id := "c"; gov_campaign_loss_limit_usd := "10";
    gov_max_total_modelled_loss_usdt := "300"; gov_accounts := [demo_control] |};
  cgs_issued_at_ms := 1; cgs_session_generation := 1; cgs_delivery_challenge := None |}.

Definition demo_spec : InstrumentSpec := {|
  is_instrument_id := "BTC-USDT-SWAP"; is_instrument_type := Swap; is_instrument_family := None;
  is_underlying := None; is_state := "live"; is_rule_type := None; is_funding_requirement := Required;
  is_base_currency := None; is_quote_currency := None; is_settle_currency := Some "USDT";
  is_tick_size := "0.1"; is_lot_size := "1"; is_min_size := "1"; is_max_limit_size := Some "100";
  is_max_market_size := None; is_max_limit_amount := None; is_max_market_amount := None;
  is_contract_type := Some "linear"; is_contract_value := Some "0.01";
  is_contract_value_currency := None; is_fee_group_id := None; is_max_leverage := None;
  is_list_time_ms := None; is_expiry_time_ms := None; is_initial_price_limit_pct := None;
  is_floating_price_limit_pct := None; is_maximum_price_limit_pct := None;
  is_upcoming_rule_changes := [] |}.
Definition demo_rules : InstrumentRulesSnapshot := {|
  irs_reference_generation := "ref"; irs_source_received_at := "t"; irs_instrument := demo_spec |}.
Definition demo_market : LiveMarketSnapshot := {|
  lms_generation := 1;
  lms_market := {|
    ms_schema := "m"; ms_instrument_id := "BTC-USDT-SWAP"; ms_instrument_type := Swap;
    ms_underlying := "BTC-USDT"; ms_reference_generation := "ref"; ms_market_generation := "g";
    ms_source_received_at := "t";
    ms_ticker := {|
      ts_last := "100.5"; ts_last_size := "1"; ts_best_ask := "100.5"; ts_best_ask_size := "9";
      ts_best_bid := "100.4"; ts_best_bid_size := "9"; ts_open_24h := None; ts_high_24h := None;
      ts_low_24h := None; ts_volume_currency_24h := None; ts_volume_24h := None;
      ts_exchange_timestamp_ms := "1000" |};
    ms_mark_price := {| mps_price := "100.5"; mps_exchange_timestamp_ms := "1000" |};
    ms_index_price := {| ips_index_id := "BTC-USDT"; ips_price := "100.5";
                         ips_exchange_timestamp_ms := "1000" |};
    ms_funding := None;
    ms_open_interest := {| ois_contracts := "5"; ois_currency := None; ois_usd := None;
                           ois_exchange_timestamp_ms := "1000" |} |};
  lms_order_book := {|
    obs_generation := 1; obs_status := Contiguous; obs_seq_id := None;
    obs_exchange_timestamp_ms := None; obs_asks := []; obs_bids := [] |} |}.
Definition demo_position : AccountPositionState := {|
  aps_instrument_type := "SWAP"; aps_instrument_id := "BTC-USDT-SWAP"; aps_position := "3";
  aps_position_side := "long"; aps_margin_mode := "cross"; aps_average_price := None;
  aps_mark_price := None; aps_liquidation_price := None; aps_unrealized_pnl := None;
  aps_unrealized_pnl_ratio := None; aps_leverage := None; aps_margin := None;
  aps_initial_margin_requirement := None; aps_maintenance_margin_requirement := None;
  aps_margin_ratio := None; aps_notional_usd := None; aps_margin_currency := None;
  aps_creation_time_ms := None; aps_update_time_ms := None |}.
Definition demo_snapshot : AccountSnapshot := {|
  acs_schema := "a"; acs_source := "rest"; acs_source_received_at := "t"; acs_account_generation := "g";
  acs_quality_reason := "ok"; acs_private_ws_connected := true; acs_private_ws_generation := Some 1;
  acs_private_ws_connection_fingerprint := None; acs_private_ws_last_inbound_ms := None;
  acs_private_ws_events_applied := None; acs_account_level := "2";
  acs_position_mode := "long_short_mode"; acs_account_type := "0"; acs_account_uid_fingerprint := "u";
  acs_api_key_permissions := ["read"; "trade"];
  acs_balance := {|
    abs_total_equity_usd := "500"; abs_adjusted_equity_usd := None; abs_isolated_equity_usd := None;
    abs_initial_margin_requirement_usd := None; abs_maintenance_margin_requirement_usd := None;
    abs_margin_ratio := None; abs_notional_usd := None; abs_update_time_ms := None;
    abs_details := [{|
      abd_liabilities := None; abd_currency := "USDT"; abd_equity := "500"; abd_cash_balance := None;
      abd_available_equity := Some "400"; abd_available_balance := None; abd_frozen_balance := None;
      abd_equity_usd := Some "499.5"; abd_unrealized_pnl := None; abd_update_time_ms := None |}] |};
  acs_positions := [demo_position]; acs_pending_orders := [] |}.
Definition demo_fees : FeeScheduleSnapshot := {|
  fs_schema := "f"; fs_instrument_id := "BTC-USDT-SWAP"; fs_reference_generation := "ref";
  fs_source_received_at := "t"; fs_exchange_timestamp_ms := "1000"; fs_level := "Lv1";
  fs_maker_rate := "-0.0002"; fs_taker_rate := "-0.0005"; fs_exact_for_instrument := true;
  fs_fee_generation := "fg" |}.
Definition demo_lot : StoredLot Fixed.t := {|
  lot_id := "l1"; lot_instance_id := Some "manual"; lot_intent_id := Some "i0"; lot_fill_id := None;
  lot_instrument_id := "BTC-USDT-SWAP"; lot_side := "long"; lot_remaining_qty := num "2";
  lot_cost := num "200"; lot_opened_at := 10 |}.
Definition demo_view : View Fixed.t := {|
  financial_risk _ _ := Ok {| fr_daily_loss_usd := num "1"; fr_drawdown_ratio := num "0.05";
                              fr_nav_complete := true; fr_source_as_of := 1000 |};
  active_lots _ := Ok [demo_lot];
  protection _ := Ok None;
  verify_protection _ := Ok tt;
  cursor _ _ := Ok None |}.

(** ** The store *)
Definition demo_db : Db := {|
  meta := {| meta_initialize_operation_id := "op"; meta_release_id := "r"; meta_account_key := "okx:demo:u";
             meta_installation_id := "inst"; meta_initialized_at := 1; meta_opening_source := "src" |};
  intents := ∅; intent_plans := ∅; decisions := []; risk_receipts := ∅; operation_receipts := ∅;
  account_policy := {| pol_revision := 1; pol_paused := false; pol_campaign_id := "c";
                       pol_campaign_limit := "10"; pol_campaign_loss := "0" |};
  risk_stops := ∅; strategy_instances := {["manual" := toy_instance]};
  definition_versions := {[("manual", "1-a") := toy_version]};
  storage_recovery := {| rec_requires_reconcile := false; rec_backup_at := None;
                         rec_reconciled_evidence := None |};
  orders := ∅ |}.
Definition demo_store : Store := {| db := demo_db; allocations := ∅; nav_scopes := ∅ |}.

(** ** The answers; the exchange acknowledges an order under its own client id. *)
Definition demo_ack (order : PlaceOrderRequest) : TradeResponse OrderOperationAck := {|
  tr_code := "0"; tr_message := "";
  tr_data := [{| ooa_order_id := "77"; ooa_client_order_id := por_client_order_id order;
                 ooa_request_id := ""; ooa_timestamp_ms := "1000"; ooa_status_code := "0";
                 ooa_status_message := "" |}];
  tr_in_time_us := ""; tr_out_time_us := "" |}.
Definition demo_answer (X : Type) (e : Eff Fixed.t X) : Store → Store * X :=
  match e in Eff _ X return Store → Store * X with
  | Now => λ s, (s, 1000)
  | Tick => λ s, (s, 0)
  | UtcText => λ s, (s, "t")
  | UtcDay => λ s, (s, "2026-01-01")
  | Sleep _ | Release _ => λ s, (s, tt)
  | SetGovernance _ => λ s, (s, tt)
  | Call _ _ j => λ s, run_job (λ _, (1000, demo_view)) j s
  | CallBeginPost _ _ intent revision => λ s, on_db (λ d, begin_post d intent revision 1000) s
  | ReadGovernance | LockGovernance => λ s, (s, Some demo_governance)
  | Resolve _ => λ s, (s, Some demo_resources)
  | InstallationId => λ s, (s, "inst")
  | Failures => λ s, (s, true)
  | TryAcquire _ => λ s, (s, true)
  | PrivateWsStatus _ => λ s, (s, {| ps_connection_generation := 1; ps_logged_in := true |})
  | VerifiedSourceGeneration _ => λ s, (s, 1)
  | VerifiedUidMatches _ _ => λ s, (s, Ok true)
  | DemandInstrument _ => λ s, (s, Ok tt)
  | RiskFreshSnapshot _ _ _ _ _ | FreshSnapshot _ _ _ _ => λ s, (s, Ok demo_market)
  | InstrumentRules _ => λ s, (s, Some demo_rules)
  | ObserverSnapshot _ | SnapshotAfterHeld _ | CaptureSources _ => λ s, (s, Ok demo_snapshot)
  | LatestSnapshot _ => λ s, (s, Some demo_snapshot)
  | ExecutorConfig _ => λ s, (s, Err "unavailable")
  | FeeSchedule _ _ => λ s, (s, Ok demo_fees)
  | ConfiguredLeverage _ _ _ => λ s, (s, Ok "2")
  | CompletionOrder n => λ s, (s, seq 0 n)
  | ClockSample _ => λ s, (s, Ok {| ce_server_time_ms := 1000; ce_local_midpoint_ms := 1000;
                                    ce_offset_ms := 0; ce_round_trip_ms := 1; ce_observed_at := 0 |})
  | AdmitRequest _ _ _ => λ s, (s, Ok tt)
  | PlaceOrder _ order _ => λ s, (s, Ok (demo_ack order))
  | OrderRows _ _ _ => λ s, (s, Ok [])
  | AlgoRows _ _ => λ s, (s, Ok [])
  | PendingRiskAlgos _ => λ s, (s, Err "unavailable")
  | Transport _ => λ s, (s, Err "unavailable")
  | ProcessIncarnation => λ s, (s, Err "unavailable")
  | CancelOrder _ _ _ => λ s, (s, Err "unavailable")
  | CancelAlgo _ _ _ => λ s, (s, Err "unavailable")
  end.
