(* ===== verification/TradePlan.v ===== *)
(** * TradePlan: from a request to a priced and sized order, [trade_service/plan.rs]

    [quantize_executable_price] puts the price on the venue's ticks inside the slippage
    bound; [plan] reads the market, the account and the ledger, and checks every limit of
    the account's policy on the way; [financial_admission] is the job that compares the
    account's losses with the policy and latches the stops.  [plan_safe] goes through the
    program once; [quantize_within], [increase_within_limits], [reduce_within_position] and
    [preview_reads_only] are what it means for an order. *)
From stdpp Require Import base option list numbers strings gmap.
From Stdlib Require Import ZArith QArith Qround Lia Lqa Ascii String.
From S2P Require Import Prelude Text Ordered External Clock Decimals EntryBudget Protocol RiskAuthority Ledger Intents Instances Programs RateBudget Reference Market Stream Account TradeApi TradeService TradeDemo.
Local Open Scope string_scope.
Local Open Scope list_scope.
Local Open Scope Z_scope.

(** [str::ends_with] and [str::contains] *)
Fixpoint str_ends_with (suffix s : string) : bool :=
  (s =? suffix)%string || match s with EmptyString => false | String _ s' => str_ends_with suffix s' end.
Fixpoint str_contains (part s : string) : bool :=
  String.prefix part s || match s with EmptyString => false | String _ s' => str_contains part s' end.

(** ** Arithmetic whose overflow panics *)
Section arithmetic.
Context {D : Type} `{DecimalArith D}.
Definition add (x y : D) : result failure D := panicking (checked_add x y).
Definition sub (x y : D) : result failure D := panicking (checked_sub x y).
Definition mul (x y : D) : result failure D := panicking (checked_mul x y).
Definition div (x y : D) : result failure D := panicking (checked_div x y).
Definition sum (l : list D) : result failure D := try_fold add dec_zero l.
(** [Decimal::from(bps) / Decimal::from(10000)] *)
Definition basis_points (bps : Z) : result failure D := div (dec_of_int bps) (dec_of_int 10000).

(** [(v / tick).floor() * tick], or with [ceil] *)
Definition on_tick (down : bool) (v tick : D) : result failure D :=
  ticks ← div v tick;
  mul (if down then dec_floor ticks else dec_ceil ticks) tick.
Definition market_bound (quote : D) (max_slippage_bps : Z) (buy : bool) : result failure D :=
  slip ← basis_points max_slippage_bps;
  factor ← (if buy then add dec_one slip else sub dec_one slip);
  mul quote factor.
Definition price_bound (buy : bool) (explicit_limit : option D) (market : D) : D :=
  match explicit_limit with
  | Some limit => if buy then dec_min limit market else dec_max limit market
  | None => market
  end.
Definition quantize_executable_price (quote : D) (explicit_limit : option D) (max_slippage_bps : Z)
    (tick : D) (buy : bool) (order_type : string) : result failure D :=
  if dec_leb quote dec_zero || dec_leb tick dec_zero then Err (Error "INVALID_INSTRUMENT_RULES") else
  market ← market_bound quote max_slippage_bps buy;
  if is_some_and (λ limit, if buy then dec_ltb market limit else dec_ltb limit market) explicit_limit
  then Err (Error "ORDER_SLIPPAGE_LIMIT") else
  let bound := price_bound buy explicit_limit market in
  if (order_type =? "post_only")%string then
    limit ← ok_or (Error "POST_ONLY_LIMIT_REQUIRED") explicit_limit;
    price ← on_tick buy limit tick;
    if (buy && dec_leb quote price) || (negb buy && dec_leb price quote)
    then Err (Error "POST_ONLY_WOULD_CROSS") else Ok price
  else
  price ← on_tick buy bound tick;
  if dec_leb price dec_zero
     || (buy && (dec_ltb bound price || dec_ltb price quote))
     || (negb buy && (dec_ltb price bound || dec_ltb quote price))
  then Err (Error "NO_EXECUTABLE_PRICE_WITHIN_SLIPPAGE") else Ok price.

Definition requires_independent_strategy_nav (instance : string) : bool := negb (instance =? "manual")%string.
Definition instance_nav_gate (nav_complete record_risk_state : bool) : result string bool :=
  if nav_complete then Ok true else
  if record_risk_state then Err "INSTANCE_NAV_INCOMPLETE" else Ok false.
Definition visible_nonzero_position_count (positions : list string) : result failure Z :=
  try_fold (λ count quantity,
    value ← dec (D:=D) quantity;
    Ok (count + (if dec_eqb value dec_zero then 0 else 1))) 0 positions.
End arithmetic.

Definition is_long (s : PositionSide) : bool := match s with Long => true | Short => false end.
Definition side_name (s : PositionSide) : string := if is_long s then "long" else "short".
Definition operation_text (o : TradeOperation) : string :=
  match o with
  | Protocol.Open => "open" | Add => "add" | Reduce => "reduce" | Close => "close" | Replace => "replace"
  end.
Definition is_real (e : Environment) : bool := match e with Real => true | Demo => false end.

(** The price, the stop and the venue's numbers of an order *)
Record Terms {D : Type} : Type := {
  t_tick : D;
  t_lot : D;
  t_minimum : D;
  t_contract_value : D;
  t_price : D;
  t_slip : D;
  t_stop : option D;
}.
Arguments Terms D : clear implicits.

Section plan.
Context {D : Type} `{DecimalArith D} `{Hashing} `{!AgentText} `{!TradeSerialize D} `{JsonText}.
Context (rounds fuel : nat).
Notation T := (M (Eff D)).

(** ** The market: wait until the deadline for a fresh snapshot *)
Definition risk_fresh (instrument : string) : T (result string LiveMarketSnapshot) :=
  t ← now;
  received_at ← perform UtcText;
  perform (RiskFreshSnapshot instrument t QUOTE_MAX_AGE_MS DERIVATIVE_CONTEXT_MAX_AGE_MS received_at).
Fixpoint wait_market (n : nat) (instrument : string) (until : Z) : T LiveMarketSnapshot :=
  match n with
  | O => lift (Err OutOfFuel)
  | S n' =>
    r ← risk_fresh instrument;
    match r with
    | Ok m => mret m
    | Err _ =>
      t ← tick;
      if t <? until then _ ← perform (Sleep 50); wait_market n' instrument until
      else fail "PRICE_FRESHNESS_DEADLINE"
    end
  end.
Definition text_is (o : option string) (s : string) : bool := is_some_and (λ v, (v =? s)%string) o.
Definition rules_supported (rules : InstrumentRulesSnapshot) (market : LiveMarketSnapshot) : bool :=
  (irs_reference_generation rules =? ms_reference_generation (lms_market market))%string
  && (is_state (irs_instrument rules) =? "live")%string
  && text_is (is_settle_currency (irs_instrument rules)) "USDT"
  && text_is (is_contract_type (irs_instrument rules)) "linear".

(** ** The account *)
Definition as_u64 (x : Z) : Z := x mod 2 ^ 64.
Definition received_ms (s : AccountSnapshot) : result failure Z :=
  map_err Error (rfc3339_timestamp (acs_source_received_at s)).
Definition usd_conversion (s : AccountSnapshot) : result failure UsdConversion :=
  usdt ← require "USD_CONVERSION_SOURCE_UNAVAILABLE"
           (List.find (λ d, (abd_currency d =? "USDT")%string) (abs_details (acs_balance s)));
  equity ← dec (D:=D) (abd_equity usdt);
  usd_text ← require "USD_CONVERSION_SOURCE_UNAVAILABLE" (abd_equity_usd usdt);
  usd ← dec (D:=D) usd_text;
  if dec_leb equity dec_zero || dec_leb usd dec_zero then Err (Error "USD_CONVERSION_SOURCE_INVALID") else
  ratio ← div usd equity;
  source ← digest (acs_account_uid_fingerprint s, acs_account_generation s, usdt);
  observed ← received_ms s;
  Ok {| uc_usd_per_usdt := exact (round_up 9 ratio); uc_source_digest := source;
        uc_observed_at_ms := as_u64 observed |}.
(** The generation of the connection and the snapshot, with the time of its reading *)
Definition account_evidence (r : AccountResources) (increase : bool)
    : T (Z * AccountSnapshot * Z) :=
  ready ← (if increase then source_identity_ready r else mret true);
  if negb ready then fail "ACCOUNT_SOURCE_GENERATION_UNVERIFIED" else
  generation ← connection_generation r;
  snap ← ask (ObserverSnapshot (wire_of r));
  received ← lift (received_ms snap);
  t ← now;
  t' ← now;
  if negb (evidence_fresh received t ACCOUNT_MAX_AGE_MS) || (t' <? received)
     || negb (acs_account_uid_fingerprint snap =? ak_verified_uid (account_key r))%string
     || negb (acs_position_mode snap =? "long_short_mode")%string
  then fail "ACCOUNT_EVIDENCE_STALE_OR_MISMATCHED" else
  mret (generation, snap, received).

(** ** Price and stop *)
Definition buys (increase : bool) (side : PositionSide) : bool :=
  if increase then is_long side else negb (is_long side).
Definition protective_stop (side : PositionSide) (price tick : D) (protection : option Protection)
    : result failure (option D) :=
  stop ← match protection with
         | Some (Price stop_price) => Some <$> dec stop_price
         | Some (Distance bps) =>
           d ← basis_points bps;
           factor ← (if is_long side then sub dec_one d else add dec_one d);
           Some <$> mul price factor
         | None => Ok None
         end;
  match stop with
  | Some v => Some <$> on_tick (is_long side) v tick
  | None => Ok None
  end.
(** The stop of an increase is on the losing side of its price. *)
Definition stop_protects (side : PositionSide) (price stop : D) : bool :=
  dec_ltb dec_zero stop && (if is_long side then dec_ltb stop price else dec_ltb price stop).
Definition order_terms (increase : bool) (side : PositionSide) (order : OrderConstraints)
    (protection : option Protection) (spec : InstrumentSpec) (ticker : TickerState)
    : result failure (Terms D) :=
  let buy := buys increase side in
  quote ← dec (D:=D) (if buy then ts_best_ask ticker else ts_best_bid ticker);
  tick ← dec (is_tick_size spec);
  lot ← dec (is_lot_size spec);
  minimum ← dec (is_min_size spec);
  ct_text ← require "CONTRACT_VALUE_UNAVAILABLE" (is_contract_value spec);
  ct ← dec ct_text;
  if existsb (λ v, dec_leb v dec_zero) [tick; lot; minimum; ct; quote]
  then Err (Error "INVALID_INSTRUMENT_RULES") else
  explicit_limit ← dec_opt (oc_limit_price order);
  price ← quantize_executable_price quote explicit_limit (oc_max_slippage_bps order) tick buy
            (oc_order_type order);
  slip ← basis_points (oc_max_slippage_bps order);
  stop ← protective_stop side price tick protection;
  if increase && negb (is_some_and (stop_protects side price) stop)
  then Err (Error "PROTECTION_INVALID") else
  Ok {| t_tick := tick; t_lot := lot; t_minimum := minimum; t_contract_value := ct;
        t_price := price; t_slip := slip; t_stop := stop |}.

(** ** Fees, the modelled loss of a contract, and the size *)
Definition fee_rate_of (r : AccountResources) (increase : bool) (rules : InstrumentRulesSnapshot) : T D :=
  if increase then
    fee ← ask (FeeSchedule (wire_of r) rules);
    if negb (fs_exact_for_instrument fee)
       || negb (fs_reference_generation fee =? irs_reference_generation rules)%string
    then fail "FEE_SOURCE_GENERATION_MISMATCH" else
    taker ← lift (dec (fs_taker_rate fee));
    maker ← lift (dec (fs_maker_rate fee));
    mret (dec_max (dec_abs taker) (dec_abs maker))
  else mret dec_zero.
Definition contract_loss (t : Terms D) (fee_rate : D) : result failure D :=
  gap ← sub (t_price t) (default (t_price t) (t_stop t));
  fees ← mul fee_rate (dec_of_int 2);
  costs ← add fees (t_slip t);
  costs ← add costs (dec_new 1 3);
  reserve ← mul (t_price t) costs;
  loss ← add (dec_abs gap) reserve;
  mul (t_contract_value t) loss.
Definition conversion_rate (increase : bool) (snap : AccountSnapshot) : result failure D :=
  if increase then conversion ← usd_conversion snap; dec (uc_usd_per_usdt conversion) else Ok dec_one.
Definition order_size (c : AccountControl) (increase : bool) (sizing : Sizing) (order : OrderConstraints)
    (t : Terms D) (per_contract fx fee_rate : D) (max_limit_size : option string)
    : result failure (EntryQuote D) :=
  account_cap ← dec_opt (al_max_entry_usd (act_limits c));
  request_cap ← dec_opt (oc_max_entry_usd order);
  entry_ceiling ← enforced_entry_ceiling increase (is_real (act_environment c)) account_cap request_cap;
  budgeted ← size_order fuel sizing increase (t_lot t) (t_minimum t) (t_contract_value t) (t_price t)
               per_contract fx fee_rate entry_ceiling;
  venue ← dec_opt max_limit_size;
  if is_some_and (λ v, dec_ltb v (quantity budgeted)) venue then Err (Error "ORDER_SIZE_VENUE_LIMIT")
  else Ok budgeted.

(** ** The limits of an increase and of a reduction *)
Definition usdt_available (snap : AccountSnapshot) : option string :=
  b ← List.find (λ d, (abd_currency d =? "USDT")%string) (abs_details (acs_balance snap));
  match abd_available_equity b with Some v => Some v | None => abd_available_balance b end.
Definition increase_limits (r : AccountResources) (c : AccountControl) (instrument : string)
    (side : PositionSide) (snap : AccountSnapshot) (budgeted : EntryQuote D) (per_contract : D) : T unit :=
  cap ← lift (dec_opt (al_max_notional_usdt (act_limits c)));
  if is_some_and (λ v, dec_ltb v (notional_usdt budgeted)) cap then fail "ORDER_NOTIONAL_LIMIT" else
  text ← ask (ConfiguredLeverage (wire_of r) instrument (side_name side));
  leverage ← lift (dec text);
  if dec_leb leverage dec_zero then fail "LEVERAGE_LIMIT" else
  cap ← lift (dec_opt (al_max_leverage (act_limits c)));
  if is_some_and (λ v, dec_ltb v leverage) cap then fail "LEVERAGE_LIMIT" else
  text ← lift (require "AVAILABLE_MARGIN_UNAVAILABLE" (usdt_available snap));
  available ← lift (dec text);
  margin ← lift (div (notional_usdt budgeted) leverage);
  loss ← lift (mul (quantity budgeted) per_contract);
  needed ← lift (add margin loss);
  if dec_ltb available needed then fail "INSUFFICIENT_MARGIN" else mret tt.
Definition position_size (snap : AccountSnapshot) (instrument : string) (side : PositionSide) : result failure D :=
  try_fold (λ total p, q ← dec (aps_position p); add total (dec_abs q)) dec_zero
    (List.filter (λ p, (aps_instrument_id p =? instrument)%string
                       && (aps_position_side p =? side_name side)%string) (acs_positions snap)).
Definition lots_of (instance : string) (side : PositionSide) (lots : list (StoredLot D)) : list (StoredLot D) :=
  List.filter (λ l, text_is (lot_instance_id l) instance && (lot_side l =? side_name side)%string) lots.
Definition reduce_limits (r : AccountResources) (instance instrument : string) (side : PositionSide)
    (snap : AccountSnapshot) (qty : D) : T unit :=
  position ← lift (position_size snap instrument side);
  if dec_ltb position qty then fail "REDUCE_WOULD_INCREASE_OR_REVERSE" else
  lots ← call_soon (wire_of r) (finance (λ _ v, active_lots v instrument));
  owned ← lift (sum (map lot_remaining_qty (lots_of instance side lots)));
  if dec_ltb owned qty then fail "REDUCE_EXCEEDS_INSTANCE_OWNED_LOTS" else mret tt.
Definition exposure_limits (r : AccountResources) (c : AccountControl) (increase : bool)
    (instance instrument : string) (side : PositionSide) (snap : AccountSnapshot)
    (budgeted : EntryQuote D) (per_contract : D) : T unit :=
  if increase then increase_limits r c instrument side snap budgeted per_contract
  else reduce_limits r instance instrument side snap (quantity budgeted).

(** ** The account's losses *)
Fixpoint job_each {A} (f : A → job D unit) (l : list A) : job D unit :=
  match l with [] => mret tt | a :: l' => _ ← f a; job_each f l' end.
Definition risk_at (instance : option string) : job D (FinancialRisk D) :=
  finance (λ now v, financial_risk v now instance).
Definition latch (id scope reason : string) : job D unit := write (λ now d, latch_stop d id scope reason now).
(** A preview reads: [when_recording record] does nothing unless [record]. *)
Definition when_recording (record : bool) (j : job D unit) : job D unit := if record then j else mret tt.
Definition roll_daily_stops (utc_day : string) : job D unit :=
  held ← query stops;
  job_each (λ '(id, _, reason, _),
    if (reason =? "DAILY_LOSS_LIMIT")%string && negb (str_ends_with utc_day id)
    then write (λ _ d, resolve_stop d id "fresh_UTC_window_rollover") else mret tt) held.
Definition instance_admission (instance : string) (daily drawdown : D) (record : bool)
    : job D (result failure (option string)) :=
  own_instances ← (if requires_independent_strategy_nav instance then query instances else mret []);
  if existsb (λ i, (sti_instance_id i =? instance)%string) own_instances then
    own ← risk_at (Some instance);
    nav_valid ← match instance_nav_gate (fr_nav_complete own) record with
                | Ok b => mret b | Err code => job_fail code end;
    if nav_valid && (dec_leb daily (fr_daily_loss_usd own) || dec_leb drawdown (fr_drawdown_ratio own)) then
      _ ← when_recording record
            (latch ("instance:" +:+ instance +:+ ":risk") instance "INSTANCE_LOSS_LIMIT");
      mret (Ok (Some "INSTANCE_LOSS_LIMIT"))
    else mret (Ok None)
  else mret (Ok None).
(** The closure of [financial_admission]; a decimal overflow in it is a panic. *)
Definition admission (instance utc_day : string) (daily drawdown candidate : D) (record : bool)
    : job D (result failure (option string)) :=
  risk ← risk_at None;
  t ← (if fr_nav_complete risk then job_now else mret 0);
  if negb (fr_nav_complete risk) || negb (evidence_fresh (fr_source_as_of risk) t ACCOUNT_MAX_AGE_MS)
  then job_fail "FINANCIAL_SOURCE_INCOMPLETE_OR_STALE" else
  _ ← when_recording record (roll_daily_stops utc_day);
  if dec_leb daily (fr_daily_loss_usd risk) then
    _ ← when_recording record (latch ("daily:" +:+ utc_day) "account" "DAILY_LOSS_LIMIT");
    mret (Ok (Some "DAILY_LOSS_LIMIT"))
  else
  match checked_add (fr_daily_loss_usd risk) candidate with
  | None => mret (Err Panic)
  | Some total =>
    if dec_ltb daily total then mret (Ok (Some "DAILY_LOSS_HEADROOM_INSUFFICIENT")) else
    if dec_leb drawdown (fr_drawdown_ratio risk) then
      _ ← when_recording record (latch "drawdown" "account" "DRAWDOWN_LIMIT");
      mret (Ok (Some "DRAWDOWN_LIMIT"))
    else instance_admission instance daily drawdown record
  end.
Definition financial_admission (r : AccountResources) (control : AccountControl) (instance : string)
    (snap : AccountSnapshot) (candidate : D) (record : bool) : T unit :=
  conversion ← lift (usd_conversion snap);
  rate ← lift (dec (uc_usd_per_usdt conversion));
  text ← lift (require "DAILY_LOSS_LIMIT_UNCONFIGURED" (al_max_daily_realized_loss_usdt (act_limits control)));
  usdt ← lift (dec text);
  daily ← lift (mul usdt rate);
  text ← lift (require "DRAWDOWN_LIMIT_UNCONFIGURED" (al_max_drawdown_ratio (act_limits control)));
  drawdown ← lift (dec text);
  utc_day ← perform UtcDay;
  decision ← call_soon (wire_of r) (admission instance utc_day daily drawdown candidate record);
  decision ← lift decision;
  match decision with Some reason => fail reason | None => mret tt end.
Definition loss_admission (r : AccountResources) (c : AccountControl) (increase : bool)
    (instance : string) (snap : AccountSnapshot) (loss : D) (record : bool) : T unit :=
  if increase then financial_admission r c instance snap loss record else mret tt.

(** ** The whole plan *)
Definition definition_job (instance : string) (record : bool) : job D StrategyDefinitionVersion :=
  if (instance =? "manual")%string then
    if record then t ← job_now; op (λ _ _ s, ensure_manual_instance s t)
    else query manual_definition_preview
  else query (λ d, strategy_definition d instance).
Definition strategy_budget (instance : string) (increase : bool) (loss : D) (known : list (StrategyInstance D))
    : result failure unit :=
  if (instance =? "manual")%string then Ok tt else
  i ← require "STRATEGY_INSTANCE_NOT_FOUND"
        (List.find (λ i, (sti_instance_id i =? instance)%string) known);
  if increase && dec_ltb (sti_budget i) loss then Err (Error "STRATEGY_BUDGET_EXCEEDED") else Ok tt.
(** The evidence is still current when the plan is complete. *)
Definition still_current (r : AccountResources) (increase : bool) (instrument : string)
    (rules : InstrumentRulesSnapshot) (market : LiveMarketSnapshot) (private_generation received until : Z)
    : T unit :=
  generation ← (if increase then connection_generation r else mret private_generation);
  if negb (generation =? private_generation) then fail "PRIVATE_SOURCE_GENERATION_CHANGED" else
  fresh ← risk_fresh instrument;
  fresh ← check fresh;
  if negb (lms_generation fresh =? lms_generation market)
     || negb (ms_reference_generation (lms_market fresh) =? irs_reference_generation rules)%string
  then fail "PUBLIC_SOURCE_GENERATION_CHANGED" else
  t ← now;
  if negb (evidence_fresh received t ACCOUNT_MAX_AGE_MS) then fail "ACCOUNT_EVIDENCE_EXPIRED_DURING_PLAN" else
  t ← tick;
  if until <=? t then fail "COMMAND_EXPIRED" else mret tt.
Definition planned_loss (increase : bool) (qty per_contract fx : D) : result failure D :=
  if increase then
    usdt ← mul qty per_contract;
    usd ← mul usdt fx;
    Ok (round_up 9 usd)
  else Ok dec_zero.
Definition order_loss_limit (c : AccountControl) (increase : bool) (qty per_contract : D) : result failure unit :=
  if increase then
    usdt ← mul qty per_contract;
    cap ← dec (al_max_order_loss_usdt (act_limits c));
    if dec_ltb cap usdt then Err (Error "MAX_ORDER_LOSS_EXCEEDED") else Ok tt
  else Ok tt.
Definition plan (r : AccountResources) (c : AccountControl) (operation : TradeOperation)
    (instance instrument : string) (side : PositionSide) (sizing : Sizing) (order : OrderConstraints)
    (protection : option Protection) (until : Z) (record : bool) : T (IntentPlan D) :=
  let increase := increases operation in
  if increase && negb (access_enabled c) then fail "ACCOUNT_NEW_RISK_PAUSED" else
  if negb (one_of (al_allowed_instruments (act_limits c)) instrument) && increase
  then fail "INSTRUMENT_NOT_ALLOWED" else
  _ ← ask (DemandInstrument instrument);
  market ← wait_market rounds instrument until;
  rules ← perform (InstrumentRules instrument);
  rules ← lift (require "INSTRUMENT_RULES_UNAVAILABLE" rules);
  if negb (rules_supported rules market) then fail "INSTRUMENT_RULES_OR_GENERATION_UNSUPPORTED" else
  '(private_generation, snap, received) ← account_evidence r increase;
  t ← lift (order_terms increase side order protection (irs_instrument rules)
              (ms_ticker (lms_market market)));
  fee_rate ← fee_rate_of r increase rules;
  per_contract ← lift (contract_loss t fee_rate);
  fx ← lift (conversion_rate increase snap);
  budgeted ← lift (order_size c increase sizing order t per_contract fx fee_rate
                     (is_max_limit_size (irs_instrument rules)));
  let qty := quantity budgeted in
  _ ← exposure_limits r c increase instance instrument side snap budgeted per_contract;
  loss ← lift (planned_loss increase qty per_contract fx);
  _ ← loss_admission r c increase instance snap loss record;
  _ ← lift (order_loss_limit c increase qty per_contract);
  known ← call_soon (wire_of r) (query instances);
  _ ← lift (strategy_budget instance increase loss known);
  _ ← still_current r increase instrument rules market private_generation received until;
  definition ← call (wire_of r) until (definition_job instance record);
  mret {|
    ip_strategy_definition_id := sd_definition_id definition;
    ip_strategy_definition_version := sd_version definition;
    ip_strategy_parameters_digest := sd_parameters_digest definition;
    ip_contract_value := t_contract_value t;
    ip_inverse := false;
    ip_settlement_currency := "USDT";
    ip_position_side := side_name side;
    ip_private_source_generation := as_i64 private_generation;
    ip_operation := operation_text operation;
    ip_side := if buys increase side then "buy" else "sell";
    ip_quantity := qty;
    ip_limit_price := t_price t;
    ip_stop_price := t_stop t;
    ip_strategy_instance := instance;
    ip_planned_loss_usd := loss;
    ip_source_generation := as_i64 (lms_generation market) |}.
End plan.

(** ** The price *)
Section price.
Context {D : Type} `{DecimalLaws D}.
Implicit Types quote tick price v market : D.

(** Dividing [v] by the tick and multiplying back lose nothing. *)
Definition exact_ticks v tick : Prop :=
  ∀ ticks, checked_div v tick = Some ticks →
    (val ticks * val tick == val v)%Q
    ∧ representable (val (dec_floor ticks) * val tick) ∧ representable (val (dec_ceil ticks) * val tick).
(** A whole number of ticks *)
Definition multiple tick (q : Q) : Prop := ∃ k : Z, (q == inject_Z k * val tick)%Q.
(** [q] is the best of the multiples on the safe side of [bound]. *)
Definition best_multiple (down : bool) tick (bound q : Q) : Prop :=
  multiple tick q ∧ (if down then q <= bound else bound <= q)%Q
  ∧ ∀ q', multiple tick q' → (if down then q' <= bound else bound <= q')%Q →
    (if down then q' <= q else q <= q')%Q.

Lemma on_tick_best down v tick price :
  (0 < val tick)%Q → exact_ticks v tick → on_tick down v tick = Ok price →
  best_multiple down tick (val v) (val price).
Proof.
  unfold on_tick, div, mul, panicking, ok_or. intros Ht Hx E.
  destruct (checked_div v tick) as [ticks|] eqn:Ed; [|done]. simpl in E.
  destruct (Hx ticks Ed) as (Hv & Hf & Hc).
  destruct (checked_mul (if down then dec_floor ticks else dec_ceil ticks) tick) as [p|] eqn:Em; [|done].
  assert (p = price) as -> by congruence.
  assert (∀ a b : Q, (a <= b ↔ a * val tick <= b * val tick)%Q) as Hmono.
  { intros a b. by rewrite Qmult_le_r. }
  destruct down.
  - apply mul_exact in Em; [|done]. rewrite floor_exact in Em. unfold best_multiple.
    split; [by eexists|]. split.
    + rewrite Em, <- Hv, <- Hmono. apply Qfloor_le.
    + intros q' (k & Hk) Hq'. rewrite Hk, <- Hv, <- Hmono in Hq'.
      rewrite Em, Hk, <- Hmono, <- Zle_Qle.
      rewrite <- (Qfloor_Z k). by apply Qfloor_resp_le.
  - apply mul_exact in Em; [|done]. rewrite ceil_exact in Em. unfold best_multiple.
    split; [by eexists|]. split.
    + rewrite Em, <- Hv, <- Hmono. apply Qle_ceiling.
    + intros q' (k & Hk) Hq'. rewrite Hk, <- Hv, <- Hmono in Hq'.
      rewrite Em, Hk, <- Hmono, <- Zle_Qle.
      rewrite <- (Qceiling_Z k). by apply Qceiling_resp_le.
Qed.

(** The bound is the limit where there is one, and the limit is inside the market's. *)
Lemma bound_of_limit (buy : bool) limit market :
  is_some_and (λ l, if buy then dec_ltb market l else dec_ltb l market) limit = false →
  (val (price_bound buy limit market) == val (default market limit))%Q
  ∧ (∀ l, limit = Some l → if buy then val l <= val market else val market <= val l)%Q.
Proof.
  intros E. destruct limit as [l|]; simpl in *; [|done]. unfold dec_min, dec_max.
  destruct buy, (dec_leb l market) eqn:E'; reflect_decs; (split; [lra|by intros ? [= <-]; lra]).
Qed.

(** The price of an order.  An explicit limit is inside the slippage bound, and the
    price is the multiple of the tick closest to the limit (without one, to the bound) on
    its safe side: the limit is not exceeded and no better tick is left out.  A post-only
    price does not reach the quote; every other one is positive and crosses it. *)
Theorem quantize_within quote limit bps tick buy order_type price :
  quantize_executable_price quote limit bps tick buy order_type = Ok price →
  ∃ market, market_bound quote bps buy = Ok market
  ∧ (0 < val quote)%Q ∧ (0 < val tick)%Q
  ∧ (∀ l, limit = Some l → if buy then val l <= val market else val market <= val l)%Q
  ∧ (let bound := price_bound buy limit market in
     exact_ticks bound tick → (order_type =? "post_only")%string = false →
     best_multiple buy tick (val bound) (val price))
  ∧ (if (order_type =? "post_only")%string
     then ∃ l, limit = Some l ∧ (exact_ticks l tick → best_multiple buy tick (val l) (val price))
       ∧ if buy then (val price < val quote)%Q else (val quote < val price)%Q
     else (0 < val price)%Q ∧ let bound := val (default market limit) in
          if buy then (val quote <= val price <= bound)%Q else (bound <= val price <= val quote)%Q).
Proof.
  unfold quantize_executable_price. intros E.
  destruct (_ || _) eqn:Epos in E; [done|]. reflect_decs. rewrite val_zero in *.
  apply bind_ok in E as (market & Em & E). exists market. split; [done|].
  destruct (is_some_and _ limit) eqn:El in E; [done|]. do 2 (split; [assumption|]).
  apply bound_of_limit in El as [Eb Hl]. split; [exact Hl|].
  destruct (order_type =? "post_only")%string.
  - apply bind_ok in E as (l & El & E). destruct limit as [l'|]; [|done]. injection El as ->.
    apply bind_ok in E as (p & Ep & E). destruct (_ || _) eqn:Ec in E; [done|]. injection E as ->.
    split; [done|]. exists l. split; [done|]. split; [intros Hx; by apply on_tick_best|].
    destruct buy; simpl in Ec; reflect_decs; lra.
  - apply bind_ok in E as (p & Ep & E). destruct (_ || _) eqn:Ec in E; [done|]. injection E as ->.
    split; [intros Hx _; by apply on_tick_best|].
    destruct buy; simpl in Ec; reflect_decs; rewrite val_zero in *; repeat split; try done; lra.
Qed.

End price.

(** A buy of at most 100.065 when the ask is 100.01: the price is 100.06. *)
Lemma quantize_within_witness :
  quantize_executable_price (num "100.01") (Some (num "100.065")) 10 (num "0.01") true "fok"
  = Ok (num "100.06")
  ∧ best_multiple true (num "0.01") (val (num "100.065")) (val (num "100.06")).
Proof.
  assert (quantize_executable_price (num "100.01") (Some (num "100.065")) 10 (num "0.01") true "fok"
          = Ok (num "100.06")) as E by (vm_compute; reflexivity).
  assert (exact_ticks (num "100.065") (num "0.01")) as Hx.
  { intros ticks Et. vm_compute in Et. injection Et as <-. split; [vm_compute; reflexivity|split; exact I]. }
  assert (∀ market, market_bound (num "100.01") 10 true = Ok market →
            price_bound true (Some (num "100.065")) market = num "100.065") as Hb.
  { intros market Em. vm_compute in Em. injection Em as <-. vm_compute. reflexivity. }
  split; [exact E|].
  destruct (quantize_within _ _ _ _ _ _ _ E) as (market & Em & _ & _ & _ & Hbest & _).
  cbv zeta in Hbest. rewrite (Hb market Em) in Hbest. exact (Hbest Hx eq_refl).
Defined.

(** ** What a plan touches *)
Section effects.
Context {D : Type}.

(** A job that only reads *)
Fixpoint quiet {X} (j : job D X) : Prop :=
  match j with
  | Done _ => True
  | Op op k => (∀ now v s, (op now v s).1 = s) ∧ ∀ y, quiet (k y)
  end.
Definition unchanging {X} (j : job D X) : Prop :=
  ∀ env s, (run_job env j s).1 = s ∧ ∀ n, cut_job n env j s = s.
Lemma quiet_unchanging {X} (j : job D X) : quiet j → unchanging j.
Proof.
  induction j as [r|Y op k IH]; intros Hj env s; simpl; [by split; [|intros []]|].
  destruct Hj as [Hop Hk]. specialize (Hop (env O).1 (env O).2 s).
  destruct (op (env O).1 (env O).2 s) as [s' y] eqn:E. simpl in Hop. subst s'.
  destruct (IH y (Hk y) (λ n, env (S n)) s) as [Hr Hc]. split; [exact Hr|].
  intros [|n]; simpl; [done|]. rewrite E. apply Hc.
Qed.
Lemma quiet_bind {A B} (j : job D A) (k : A → job D B) : quiet j → (∀ a, quiet (k a)) → quiet (j ≫= k).
Proof.
  intros Hj Hk. unfold mbind, job_bind. induction j as [[a|e]|Y op h IH]; simpl in *; [auto|done|].
  destruct Hj as [Hop Hh]. split; [done|]. auto.
Qed.

(** Effects that neither send anything nor change the ledger or the authority; a job
    only when it [may_write], or reads. *)
Definition harmless (may_write : Prop) {X} (e : Eff D X) : Prop :=
  match e with
  | Call _ _ j => may_write ∨ unchanging j
  | CallBeginPost _ _ _ _ | LockGovernance | SetGovernance _ | TryAcquire _ | Release _
  | Transport _ | PlaceOrder _ _ _ | CancelOrder _ _ _ | CancelAlgo _ _ _ => False
  | _ => True
  end.
End effects.

Ltac quiet_step :=
  lazymatch goal with
  | |- quiet (mbind _ _) => apply quiet_bind; [|intros ?]
  | |- quiet (if ?b then _ else _) => destruct b
  | |- quiet (match ?x with _ => _ end) => destruct x
  end.
Ltac quiet_steps := repeat (cbv beta; quiet_step); try (simpl; by repeat split).

Section admission.
Context {D : Type} `{DecimalArith D} `{Hashing} `{!TradeSerialize D} `{JsonText}.
Lemma admission_quiet instance utc_day (daily drawdown candidate : D) :
  quiet (admission instance utc_day daily drawdown candidate false).
Proof. unfold admission, instance_admission, when_recording. quiet_steps. Qed.
Lemma definition_quiet instance : quiet (definition_job (D:=D) instance false).
Proof. unfold definition_job. quiet_steps. Qed.
End admission.

Section checks.
Context {D : Type} `{DecimalLaws D} `{Hashing} `{!AgentText} `{!TradeSerialize D} `{JsonText}.
Variable possible : ∀ X : Type, Eff D X → X → Prop.
Variable may_write : Prop.
Notation safe m P := (safe possible (@harmless D may_write) m P).
Implicit Types snap : AccountSnapshot.

Definition answered (instrument : string) (m : LiveMarketSnapshot) : Prop :=
  ∃ t received_at, possible _ (RiskFreshSnapshot instrument t QUOTE_MAX_AGE_MS
                                 DERIVATIVE_CONTEXT_MAX_AGE_MS received_at) (Ok m).
Lemma risk_fresh_safe instrument (P : result string LiveMarketSnapshot → Prop) :
  (∀ m, answered instrument m → P (Ok m)) → (∀ e, P (Err e)) → safe (risk_fresh instrument) P.
Proof.
  intros HP He. unfold risk_fresh, now. safe_steps; try exact I.
  match goal with |- P ?x => destruct x as [m|e]; [apply HP; by do 2 eexists|apply He] end.
Qed.
Lemma wait_market_safe n instrument until : safe (wait_market n instrument until) (answered instrument).
Proof.
  induction n as [|n IH]; cbn [wait_market]; [done|]. unfold tick.
  safe_steps. apply risk_fresh_safe; [done|]. intros e. safe_steps; try exact I. exact IH.
Qed.
Lemma call_safe {X} account until (j : job D X) (P : X → Prop) :
  may_write ∨ unchanging j → (∀ x, possible _ (Call account until j) (Ok x) → P x) →
  safe (call account until j) P.
Proof.
  intros Hj HP. unfold call. safe_steps; [exact Hj|]. apply HP.
  match goal with E : map_err _ _ = Ok _ |- _ => by apply map_err_ok in E as -> end.
Qed.
Lemma call_soon_safe {X} account (j : job D X) (P : X → Prop) :
  may_write ∨ unchanging j → (∀ until x, possible _ (Call account until j) (Ok x) → P x) →
  safe (call_soon account j) P.
Proof.
  intros Hj HP. unfold call_soon, deadline, tick. safe_steps; [exact I|].
  apply call_safe; [exact Hj|apply HP].
Qed.
Lemma ask_safe {A} (e : Eff D (result string A)) (P : A → Prop) :
  harmless may_write e → (∀ a, possible _ e (Ok a) → P a) → safe (ask e) P.
Proof.
  intros He HP. unfold ask. safe_steps; [exact He|]. apply HP.
  match goal with E : map_err _ _ = Ok _ |- _ => by apply map_err_ok in E as -> | E : ?x = Ok _ |- _ => by rewrite <- E end.
Qed.
Lemma query_unchanging {Y} (f : Db → StoreResult Y) : unchanging (query (D:=D) f).
Proof. by apply quiet_unchanging. Qed.
Lemma finance_unchanging {Y} (f : Z → View D → StoreResult Y) : unchanging (finance f).
Proof. by apply quiet_unchanging. Qed.
Hint Resolve query_unchanging finance_unchanging : core.

Lemma account_evidence_safe r increase :
  safe (account_evidence r increase) (λ '(_, snap, received),
    possible _ (ObserverSnapshot (wire_of r)) (Ok snap) ∧ received_ms snap = Ok received
    ∧ acs_account_uid_fingerprint snap = ak_verified_uid (account_key r)).
Proof.
  unfold account_evidence, source_identity_ready, connection_generation, now.
  safe_steps; try exact I; apply ask_safe; try exact I; intros snap Hsnap; safe_steps; try exact I;
    repeat split; try done;
    match goal with E : _ || _ = false |- _ => apply orb_false_iff in E as [E _];
      apply orb_false_iff in E as [_ E]; by apply negb_false_iff, String.eqb_eq in E end.
Qed.

(** ** Limits *)
Definition fits_cap (cap : option string) (x : D) : Prop :=
  ∀ text, cap = Some text → ∃ v, dec text = Ok v ∧ (val x <= val v)%Q.
Lemma dec_opt_cap cap (o : option D) x :
  dec_opt cap = Ok o → is_some_and (λ v, dec_ltb v x) o = false → fits_cap cap x.
Proof.
  intros E Hc text ->. unfold dec_opt in E. destruct (dec text) as [v|] eqn:Ev; [|done].
  injection E as <-. exists v. split; [done|]. simpl in Hc. by reflect_decs.
Qed.

(** The account can pay for an increase: its notional, the leverage the exchange answers,
    and the free margin against the margin plus the modelled loss. *)
Record affordable (r : AccountResources) (c : AccountControl) (instrument : string) (side : PositionSide)
    snap (size : EntryQuote D) (per_contract : D) : Prop := {
  af_notional : fits_cap (al_max_notional_usdt (act_limits c)) (notional_usdt size);
  af_leverage : ∃ text leverage available text' margin loss needed,
    possible _ (ConfiguredLeverage (wire_of r) instrument (side_name side)) (Ok text)
    ∧ dec text = Ok leverage ∧ (0 < val leverage)%Q
    ∧ fits_cap (al_max_leverage (act_limits c)) leverage
    ∧ usdt_available snap = Some text' ∧ dec text' = Ok available
    ∧ div (notional_usdt size) leverage = Ok margin ∧ mul (quantity size) per_contract = Ok loss
    ∧ add margin loss = Ok needed ∧ (val needed <= val available)%Q;
}.
Lemma increase_limits_safe r c instrument side snap size per_contract :
  safe (increase_limits r c instrument side snap size per_contract)
       (λ _, affordable r c instrument side snap size per_contract).
Proof.
  unfold increase_limits. safe_steps. apply ask_safe; [exact I|]. intros text Htext. safe_steps.
  reflect_decs. rewrite val_zero in *.
  match goal with E : require _ _ = Ok _ |- _ => apply ok_or_ok in E end.
  split; [by eapply dec_opt_cap|]. do 7 eexists. repeat split; try eassumption. by eapply dec_opt_cap.
Qed.

(** A reduction takes no more than the position of the snapshot, and no more than the lots
    the strategy owns. *)
Definition owned_lots (r : AccountResources) (instance instrument : string) (side : PositionSide) (qty : D) : Prop :=
  ∃ until lots owned,
    possible _ (Call (wire_of r) until (finance (λ _ v, active_lots v instrument))) (Ok lots)
    ∧ sum (map lot_remaining_qty (lots_of instance side lots)) = Ok owned ∧ (val qty <= val owned)%Q.
Lemma reduce_limits_safe r instance instrument side snap qty :
  safe (reduce_limits r instance instrument side snap qty) (λ _,
    (∃ position, position_size snap instrument side = Ok position ∧ (val qty <= val position)%Q)
    ∧ owned_lots r instance instrument side qty).
Proof.
  unfold reduce_limits. safe_steps. apply call_soon_safe; [auto|]. intros limit lots Hlots.
  safe_steps. reflect_decs. split; [by eexists|]. exists limit, lots. by eexists.
Qed.

(** ** The plan *)
Section plan_safe.
Context (rounds fuel : nat) (r : AccountResources) (c : AccountControl) (operation : TradeOperation).
Context (instance instrument : string) (side : PositionSide) (sizing : Sizing) (order : OrderConstraints).
Context (protection : option Protection).
Notation increase := (increases operation).

(** The order a plan describes, and the readings it is made from *)
Record basis (p : IntentPlan D) snap (t : Terms D) (per_contract : D) (size : EntryQuote D) : Prop := {
  ba_snapshot : possible _ (ObserverSnapshot (wire_of r)) (Ok snap)
    ∧ acs_account_uid_fingerprint snap = ak_verified_uid (account_key r);
  ba_source : ∃ rules market fee_rate fx,
    possible _ (InstrumentRules instrument) (Some rules) ∧ answered instrument market
    ∧ rules_supported rules market = true
    ∧ order_terms increase side order protection (irs_instrument rules)
        (ms_ticker (lms_market market)) = Ok t
    ∧ contract_loss t fee_rate = Ok per_contract ∧ conversion_rate increase snap = Ok fx
    ∧ order_size fuel c increase sizing order t per_contract fx fee_rate
        (is_max_limit_size (irs_instrument rules)) = Ok size
    ∧ planned_loss increase (quantity size) per_contract fx = Ok (ip_planned_loss_usd p);
  ba_order : ip_quantity p = quantity size ∧ ip_limit_price p = t_price t ∧ ip_stop_price p = t_stop t
    ∧ ip_contract_value p = t_contract_value t
    ∧ ip_side p = (if buys increase side then "buy" else "sell") ∧ ip_position_side p = side_name side
    ∧ ip_operation p = operation_text operation ∧ ip_strategy_instance p = instance;
}.
(** What was checked before the plan was returned *)
Definition within_exposure snap (per_contract : D) (size : EntryQuote D) : Prop :=
  if increase then affordable r c instrument side snap size per_contract
  else (∃ position, position_size snap instrument side = Ok position ∧ (val (quantity size) <= val position)%Q)
    ∧ owned_lots r instance instrument side (quantity size).
Definition authorised : Prop :=
  increase = true → access_enabled c = true ∧ one_of (al_allowed_instruments (act_limits c)) instrument = true.
Definition plan_post (p : IntentPlan D) : Prop :=
  ∃ snap t per_contract size, authorised ∧ basis p snap t per_contract size ∧ within_exposure snap per_contract size
  ∧ order_loss_limit c increase (quantity size) per_contract = Ok tt
  ∧ ∃ until known, possible _ (Call (wire_of r) until (query instances)) (Ok known)
    ∧ strategy_budget instance increase (ip_planned_loss_usd p) known = Ok tt.

Lemma fee_rate_safe increase rules : safe (fee_rate_of r increase rules) (λ _, True).
Proof. unfold fee_rate_of. safe_steps; try done. apply ask_safe; [done|]. intros. by safe_steps. Qed.
Lemma still_current_safe increase rules market g received until :
  safe (still_current r increase instrument rules market g received until) (λ _, True).
Proof.
  unfold still_current, connection_generation, now, tick. safe_steps; try exact I;
    (apply risk_fresh_safe; intros; safe_steps; done).
Qed.
Lemma exposure_safe snap size per_contract :
  safe (exposure_limits r c increase instance instrument side snap size per_contract)
       (λ _, within_exposure snap per_contract size).
Proof.
  unfold exposure_limits, within_exposure. destruct increase; [apply increase_limits_safe|apply reduce_limits_safe].
Qed.
Lemma admission_safe snap (loss : D) record :
  (record = true → may_write) → safe (loss_admission r c increase instance snap loss record) (λ _, True).
Proof.
  intros Hw. unfold loss_admission, financial_admission. safe_steps; try exact I. apply call_soon_safe.
  - destruct record; [left; auto|right]. apply quiet_unchanging, admission_quiet.
  - intros. by safe_steps.
Qed.

Lemma plan_safe until record :
  (record = true → may_write) →
  safe (plan rounds fuel r c operation instance instrument side sizing order protection until record) plan_post.
Proof.
  intros Hw. unfold plan. safe_steps. apply ask_safe; [exact I|]. intros _ _.
  safe_steps. eapply safe_weaken; [apply wait_market_safe|]. intros market Hmarket. safe_steps; [exact I|].
  match goal with E : require _ _ = Ok _ |- _ => apply ok_or_ok in E; subst end.
  eapply safe_weaken; [apply account_evidence_safe|]. intros [[generation snap] received] (Hsnap & _ & Huid).
  safe_steps. eapply safe_weaken; [apply fee_rate_safe|]. intros fee_rate _. safe_steps.
  eapply safe_weaken; [apply exposure_safe|]. intros [] Hexposure. safe_steps.
  eapply safe_weaken; [by apply admission_safe|]. intros _ _; cbv beta. safe_steps.
  apply call_soon_safe; [auto|]. intros limit known Hknown. safe_steps.
  eapply safe_weaken; [apply still_current_safe|]. intros _ _. safe_steps.
  apply call_safe.
  { destruct record; [left; auto|right]. apply quiet_unchanging, definition_quiet. }
  intros definition _. safe_steps.
  match goal with
  | Hs : order_size _ _ _ _ _ ?t ?per ?fx ?fee _ = Ok ?size, Hr : possible _ _ (Some ?rules) |- _ =>
    exists snap, t, per, size; split; [|split; [|split; [done|split; [|exists limit, known]]]]
  end.
  - unfold authorised. intros Hi. rewrite Hi, ?andb_true_r in *.
    match goal with E : true && _ = false |- _ => simpl in E end.
    split; by apply negb_false_iff.
  - split; [done| |done]. apply negb_false_iff in Heqb1. do 4 eexists. by repeat (split; [eassumption|]).
  - match goal with E : order_loss_limit _ _ _ _ = Ok ?u |- _ => by destruct u end.
  - split; [done|]. match goal with E : strategy_budget _ _ _ _ = Ok ?u |- _ => by destruct u end.
Qed.
End plan_safe.
End checks.

Section theorems.
Context {D : Type} `{DecimalLaws D} `{Hashing} `{!AgentText} `{!TradeSerialize D} `{JsonText}.
Implicit Types h : list (event (Eff D)).
(** The answers of a run *)
Definition seen h : ∀ X : Type, Eff D X → X → Prop := λ X e x, In (Ev e x) h.

Lemma order_terms_stop side order protection spec ticker (t : Terms D) :
  order_terms true side order protection spec ticker = Ok t →
  ∃ stop, t_stop t = Some stop ∧ stop_protects side (t_price t) stop = true.
Proof.
  unfold order_terms. intros E. repeat (apply bind_ok in E as (? & _ & E)).
  destruct (existsb _ _) in E; [done|]. repeat (apply bind_ok in E as (? & _ & E)).
  destruct (true && _) eqn:Es in E; [done|]. injection E as <-. simpl in *.
  apply negb_false_iff in Es. match goal with |- ∃ stop, ?o = _ ∧ _ => destruct o as [stop|] end; [|done].
  by exists stop.
Qed.

(** C7: A plan that adds risk is inside the account's policy, whatever the market, the
    exchange and the database answered during it: the account has access and the instrument
    is allowed, the stop exists and is on the losing side of the price, the notional and the
    leverage are capped and the free margin pays for both the margin and the loss, the
    modelled loss of the order is at most the cap on an order, and a strategy's planned loss
    is at most its budget.  The readings all belong to this run and to this account. *)
Theorem increase_within_limits possible rounds fuel r c operation instance instrument side sizing order
    protection until record h h' (p : IntentPlan D) :
  increases operation = true →
  exec possible h (plan rounds fuel r c operation instance instrument side sizing order protection until record)
    h' (Ret (Ok p)) →
  access_enabled c = true ∧ one_of (al_allowed_instruments (act_limits c)) instrument = true
  ∧ ∃ snap t per_contract size,
    basis (seen h') fuel r c operation instance instrument side sizing order protection p snap t per_contract size
    ∧ affordable (seen h') r c instrument side snap size per_contract
    ∧ (∃ stop, ip_stop_price p = Some stop ∧ stop_protects side (ip_limit_price p) stop = true)
    ∧ (∃ loss cap, mul (ip_quantity p) per_contract = Ok loss
       ∧ dec (al_max_order_loss_usdt (act_limits c)) = Ok cap ∧ (val loss <= val cap)%Q)
    ∧ (instance ≠ "manual" → ∃ until' known i,
       seen h' _ (Call (wire_of r) until' (query instances)) (Ok known) ∧ In i known
       ∧ sti_instance_id i = instance ∧ (val (ip_planned_loss_usd p) <= val (sti_budget i))%Q).
Proof.
  intros Hi Hx. apply exec_observed in Hx.
  eapply safe_result in Hx; [|apply (plan_safe _ True); done].
  destruct Hx as (snap & t & per & size & Hauth & Hb & He & Hl & limit & known & Hknown & Hbudget).
  unfold authorised, within_exposure, order_loss_limit in *. rewrite Hi in *.
  destruct (Hauth eq_refl) as [Ha Ho]. split; [done|]. split; [done|]. exists snap, t, per, size.
  destruct (ba_order _ _ _ _ _ _ _ _ _ _ _ _ _ _ _ _ Hb) as (-> & -> & -> & _).
  split; [done|]. split; [done|]. split.
  { destruct (ba_source _ _ _ _ _ _ _ _ _ _ _ _ _ _ _ _ Hb) as (? & ? & ? & ? & _ & _ & _ & Ht & _).
    rewrite Hi in Ht. by apply order_terms_stop in Ht. }
  split.
  { apply bind_ok in Hl as (loss & El & Hl). apply bind_ok in Hl as (cap & Ec & Hl).
    destruct (dec_ltb cap loss) eqn:E; [done|]. reflect_decs. by exists loss, cap. }
  intros Hm. unfold strategy_budget in Hbudget. apply String.eqb_neq in Hm. rewrite Hm in Hbudget.
  apply bind_ok in Hbudget as (i & Ei & Hbudget). apply ok_or_ok, find_some in Ei as [Hin Hid].
  destruct (_ && _) eqn:E in Hbudget; [done|]. simpl in E. reflect_decs.
  apply String.eqb_eq in Hid. by exists limit, known, i.
Qed.

(** C26: A plan that closes risk never asks for more than there is: its quantity is at most
    the position of the account snapshot it read, and at most the sum of the lots that the
    ledger says its own strategy holds. *)
Theorem reduce_within_position possible rounds fuel r c operation instance instrument side sizing order
    protection until record h h' (p : IntentPlan D) :
  increases operation = false →
  exec possible h (plan rounds fuel r c operation instance instrument side sizing order protection until record)
    h' (Ret (Ok p)) →
  (∃ snap position, seen h' _ (ObserverSnapshot (wire_of r)) (Ok snap)
     ∧ acs_account_uid_fingerprint snap = ak_verified_uid (account_key r)
     ∧ position_size snap instrument side = Ok position ∧ (val (ip_quantity p) <= val position)%Q)
  ∧ owned_lots (seen h') r instance instrument side (ip_quantity p)
  ∧ ip_side p = (if is_long side then "sell" else "buy").
Proof.
  intros Hi Hx. apply exec_observed in Hx.
  eapply safe_result in Hx; [|apply (plan_safe _ True); done].
  destruct Hx as (snap & t & per & size & _ & Hb & He & _).
  unfold within_exposure in He. rewrite Hi in He. destruct He as [(position & Ep & Hp) Hl].
  destruct (ba_order _ _ _ _ _ _ _ _ _ _ _ _ _ _ _ _ Hb) as (-> & _ & _ & _ & -> & _).
  destruct (ba_snapshot _ _ _ _ _ _ _ _ _ _ _ _ _ _ _ _ Hb) as [Hs Hu].
  split; [by exists snap, position|]. split; [done|]. rewrite Hi. by destruct side.
Qed.

(** The clock of a history, latest first: it does not go back, and a sleep takes its time. *)
Definition steady h : Prop :=
  ∀ h1 h2 h3 t t', h = h1 ++ Ev Tick t :: h2 ++ Ev Tick t' :: h3 →
    t' ≤ t ∧ ∀ ms u, In (Ev (Sleep ms) u) h2 → t' + from_millis ms ≤ t.
(** Every later tick is at least [b]. *)
Definition no_earlier h (b : Z) : Prop := ∀ h1 h2 t, steady (h1 ++ Ev Tick t :: h2 ++ h) → b ≤ t.
Lemma no_earlier_more h new b : no_earlier h b → no_earlier (new ++ h) b.
Proof. intros Hb h1 h2 t Hs. apply (Hb h1 (h2 ++ new)). by rewrite <- app_assoc. Qed.
Lemma no_earlier_tick h t : In (Ev Tick t) h → no_earlier h t.
Proof.
  intros (l & l' & ->)%in_split h1 h2 t' Hs. apply (Hs h1 (h2 ++ l) l'). by rewrite <- app_assoc.
Qed.
Lemma no_earlier_sleep h t ms u : In (Ev Tick t) h → no_earlier (Ev (Sleep ms) u :: h) (t + from_millis ms).
Proof.
  intros (l & l' & ->)%in_split h1 h2 t' Hs.
  destruct (Hs h1 (h2 ++ Ev (Sleep ms) u :: l) l' t' t) as [_ Hm]; [by rewrite <- app_assoc|].
  apply (Hm ms u). apply in_or_app. right. by left.
Qed.

Lemma wait_market_rounds possible n instrument until h b :
  no_earlier h b →
  spec possible (λ _ _ _, True) h (wait_market n instrument until) (λ h' r,
    match r with
    | Ok _ => True
    | Err e => e = Error "PRICE_FRESHNESS_DEADLINE"
               ∨ (steady h' → n = O ∨ b + from_millis 50 * (Z.of_nat n - 1) < until)
    end).
Proof.
  revert h b. induction n as [|n IH]; intros h b Hb; cbn [wait_market]; [by right; left|].
  unfold risk_fresh, now, tick. simpl. do 3 (split; [done|]; intros ? _).
  match goal with |- spec _ _ _ (match ?x with _ => _ end) _ => destruct x as [m|e] end; [done|].
  simpl. split; [done|]. intros t _. destruct (t <? until) eqn:Et; simpl; [|by left].
  apply Z.ltb_lt in Et. split; [done|]. intros [] _.
  eapply spec_weaken; [|apply spec_suffix, (IH _ (b + from_millis 50))].
  - intros h' [m|e'] [HQ (new & Eh)]; [done|]. destruct HQ as [HQ|HQ]; [by left|]. right.
    intros Hs. right. subst h'.
    assert (b ≤ t).
    { eapply (Hb (new ++ [Ev (Sleep 50) tt]) [_; _; _] t). rewrite <- app_assoc. exact Hs. }
    destruct (HQ Hs) as [->|]; lia.
  - intros h1 h2 t' Hs. assert (t + from_millis 50 ≤ t').
    { eapply (no_earlier_sleep (Ev Tick t :: _) t 50 tt); [by left|exact Hs]. }
    assert (b ≤ t); [|lia].
    eapply (Hb (h1 ++ Ev Tick t' :: h2 ++ [Ev (Sleep 50) tt]) [_; _; _] t).
    rewrite <- app_assoc. simpl. rewrite <- app_assoc. exact Hs.
Qed.

(** C32: Waiting for a price ends.  On a clock that does not go back and on which a sleep
    takes its 50 ms, a number of rounds that covers the time to the deadline is never used
    up, whatever is answered: the wait returns a snapshot or PRICE_FRESHNESS_DEADLINE. *)
Theorem waiting_ends possible n instrument until h h' started (r : result failure LiveMarketSnapshot) :
  In (Ev Tick started) h →
  until ≤ started + from_millis 50 * (Z.of_nat n - 1) → (0 < n)%nat →
  exec possible h (wait_market n instrument until) h' (Ret r) → steady h' →
  match r with Ok _ => True | Err e => e = Error "PRICE_FRESHNESS_DEADLINE" end.
Proof.
  intros Hin Hn Hpos Hx Hs. apply no_earlier_tick in Hin.
  eapply exec_result in Hx; [|apply (wait_market_rounds possible n instrument until h started Hin)].
  destruct r as [m|e]; [done|]. destruct Hx as [E|Hf]; [done|]. destruct (Hf Hs); lia.
Qed.

(** A preview only reads.  Whatever the environment answers, a plan made with
    [record = false] never locks or changes the authority, never speaks to the risk authority
    and sends nothing to the exchange; and every closure it gives to the database leaves the
    store as it was, also when it is interrupted. *)
Theorem preview_reads_only possible rounds fuel r c operation instance instrument side sizing order
    protection until h h' X (e : Eff D X) k :
  exec possible h (plan rounds fuel r c operation instance instrument side sizing order protection until false)
    h' (Do e k) →
  harmless False e.
Proof. apply safe_exec with (P := λ _, True). eapply safe_weaken; [by apply plan_safe|done]. Qed.
End theorems.

(** ** Concrete plans *)
Section witnesses.
#[local] Existing Instance toy_hashing.
#[local] Existing Instance demo_json.
#[local] Existing Instance demo_text.
#[local] Existing Instance demo_serialize.

Definition demo_plan (operation : TradeOperation) (record : bool) : M (Eff Fixed.t) (IntentPlan Fixed.t) :=
  plan 3 10 demo_resources demo_control operation "manual" "BTC-USDT-SWAP" Long (Contracts "2")
    {| oc_order_type := "fok"; oc_limit_price := None; oc_reference := None; oc_max_entry_usd := None;
       oc_max_slippage_bps := 10 |} (Some (Price "98.05")) 5 record.
Definition planned (operation : TradeOperation) (record : bool) : Store * result failure (IntentPlan Fixed.t) :=
  outcome demo_answer demo_store (demo_plan operation record).

(** Buying two contracts at 100.6 with a stop at 98 risks 0.058 dollars. *)
Example demo_open : fmap ip_limit_price (planned Protocol.Open true).2 = Ok (num "100.6").
Proof. vm_compute. reflexivity. Qed.

Definition demo_run (operation : TradeOperation) (record : bool) (h : list (event (Eff Fixed.t)))
    (p : IntentPlan Fixed.t) : Prop :=
  exec (λ X e x, ∃ w, x = (demo_answer X e w).2) [] (demo_plan operation record) h (Ret (Ok p)).
Lemma demo_run_ok operation record :
  is_ok (planned operation record).2 = true →
  ∃ h p, (planned operation record).2 = Ok p ∧ demo_run operation record h p.
Proof.
  intros Hok. pose proof (exec_answers demo_answer demo_store [] (demo_plan operation record)) as Hx.
  fold (planned operation record) in Hx. destruct (planned operation record).2 as [p|]; [|done].
  eexists _, p. split; [done|exact Hx].
Qed.

Lemma increase_within_limits_witness :
  ∃ h p, demo_run Protocol.Open true h p
    ∧ ∃ snap t per_contract size, affordable (seen h) demo_resources demo_control "BTC-USDT-SWAP" Long snap size per_contract
      ∧ ip_limit_price p = t_price (D:=Fixed.t) t.
Proof.
  destruct (demo_run_ok Protocol.Open true) as (h & p & _ & Hx); [vm_compute; reflexivity|].
  exists h, p. split; [exact Hx|].
  destruct (increase_within_limits _ _ _ _ _ Protocol.Open _ _ _ _ _ _ _ _ _ _ _ eq_refl Hx)
    as (_ & _ & snap & t & per & size & Hb & Ha & _).
  exists snap, t, per, size. split; [exact Ha|]. exact (proj1 (proj2 (ba_order _ _ _ _ _ _ _ _ _ _ _ _ _ _ _ _ Hb))).
Defined.

Lemma reduce_within_position_witness :
  ∃ h p, demo_run Reduce true h p
    ∧ owned_lots (seen h) demo_resources "manual" "BTC-USDT-SWAP" Long (ip_quantity p).
Proof.
  destruct (demo_run_ok Reduce true) as (h & p & _ & Hx); [vm_compute; reflexivity|].
  exists h, p. split; [exact Hx|].
  exact (proj1 (proj2 (reduce_within_position _ _ _ _ _ Reduce _ _ _ _ _ _ _ _ _ _ _ eq_refl Hx))).
Defined.

(** The preview above makes forty effects; here is its first one. *)
Lemma preview_reads_only_witness :
  ∃ k, exec (λ X e x, ∃ w, x = (demo_answer X e w).2) [] (demo_plan Protocol.Open false) []
         (Do (DemandInstrument "BTC-USDT-SWAP") k)
    ∧ harmless False (DemandInstrument (D:=Fixed.t) "BTC-USDT-SWAP").
Proof.
  eexists. assert (exec (λ X e x, ∃ w, x = (demo_answer X e w).2) [] (demo_plan Protocol.Open false) []
         (demo_plan Protocol.Open false)) as Hx by constructor.
  split; [exact Hx|]. exact (preview_reads_only _ _ _ _ _ _ _ _ _ _ _ _ _ _ _ _ _ _ Hx).
Defined.

(** A check of [steady], read from the newest event back: a tick is not before an older one, nor
    less than any sleep between the two after it. *)
Fixpoint since (t gap : Z) (h : list (event (Eff Fixed.t))) : bool :=
  match h with
  | [] => true
  | @Ev _ X e x :: h =>
    match e in Eff _ X return X → bool with
    | Tick => λ t', (t' + from_millis gap <=? t) && since t gap h
    | Sleep ms => λ _, since t (Z.max gap ms) h
    | _ => λ _, since t gap h
    end x
  end.
Fixpoint steadyb (h : list (event (Eff Fixed.t))) : bool :=
  match h with
  | [] => true
  | @Ev _ X e x :: h =>
    match e in Eff _ X return X → bool with Tick => λ t, since t 0 h | _ => λ _, true end x && steadyb h
  end.
Definition sleep_of (e : event (Eff Fixed.t)) : option Z :=
  match e with @Ev _ X e _ => match e with Sleep ms => Some ms | _ => None end end.
Lemma since_ok t t' h3 h2 : ∀ gap, since t gap (h2 ++ Ev Tick t' :: h3) = true →
  t' + from_millis gap ≤ t ∧ ∀ ms u, In (Ev (Sleep ms) u) h2 → t' + from_millis ms ≤ t.
Proof.
  induction h2 as [|[X e x] h2 IH]; intros gap; [simpl; intros [? _]%andb_true_iff; split; [lia|done]|].
  rewrite <- app_comm_cons. intros Hs.
  assert (Hrest : ∃ gap', gap ≤ gap' ∧ since t gap' (h2 ++ Ev Tick t' :: h3) = true
    ∧ ∀ ms, sleep_of (Ev e x) = Some ms → ms ≤ gap').
  { destruct e; simpl in Hs; try (exists gap; repeat split; [lia|exact Hs|done]).
    - apply andb_true_iff in Hs as [_ Hs]. exists gap. repeat split; [lia|exact Hs|done].
    - exists (Z.max gap ms). repeat split; [lia|exact Hs|]. intros ms' [= <-]. lia. }
  destruct Hrest as (gap' & Hle & Hr & Hms). destruct (IH gap' Hr) as [Ht Hin]. unfold from_millis in *.
  split; [lia|]. intros ms u [E|Hu]; [|by eapply Hin].
  apply (f_equal sleep_of) in E. specialize (Hms ms E). lia.
Qed.
Lemma steadyb_ok h : steadyb h = true → steady h.
Proof.
  intros Hs h1 h2 h3 t t' ->. induction h1 as [|[X e x] h1 IH]; [|by apply andb_true_iff in Hs as [_ Hs]; apply IH].
  simpl in Hs. apply andb_true_iff in Hs as [Hs _]. apply since_ok in Hs as [Ht Hin].
  unfold from_millis in Ht. split; [lia|done].
Qed.

(** A clock that goes on while the service sleeps, and a price that is fresh from some instant on *)
Definition waiting_answer (fresh_at : Z) (X : Type) (e : Eff Fixed.t X) : Z → Z * X :=
  match e in Eff _ X return Z → Z * X with
  | Tick => λ t, (t, t)
  | Sleep ms => λ t, (t + from_millis ms, tt)
  | RiskFreshSnapshot _ _ _ _ _ => λ t, (t, if t <? fresh_at then Err "MARKET_NOT_FRESH" else Ok demo_market)
  | e => λ t, (t, (demo_answer _ e demo_store).2)
  end.
Definition sleeps (h : list (event (Eff Fixed.t))) : list Z := omap sleep_of h.
(** Five rounds cover two hundred milliseconds.  A price that comes after 120 ms is found after
    three sleeps; one that never comes in time ends the wait after four. *)
Lemma waiting_ends_witness :
  let start := [Ev (E:=Eff Fixed.t) Tick 0] in
  let m := wait_market 5 "BTC-USDT-SWAP" (from_millis 200) in
  let found := waiting_answer (from_millis 120) in
  let missing := waiting_answer (from_millis 1000) in
  (sleeps (history found 0 start m) = [50; 50; 50] ∧ (outcome found 0 m).2 = Ok demo_market)
  ∧ sleeps (history missing 0 start m) = [50; 50; 50; 50]
  ∧ match (outcome missing 0 m).2 with Ok _ => False | Err e => e = Error "PRICE_FRESHNESS_DEADLINE" end.
Proof.
  intros start m found missing. split; [split; vm_compute; reflexivity|]. split; [vm_compute; reflexivity|].
  pose proof (exec_answers missing 0 start m) as Hx.
  assert (He : match (outcome missing 0 m).2 with Ok _ => True | Err e => e = Error "PRICE_FRESHNESS_DEADLINE" end).
  { refine (waiting_ends _ _ _ _ _ _ 0 _ _ _ _ Hx _); [by left|vm_compute; discriminate|lia|].
    apply steadyb_ok. vm_compute. reflexivity. }
  destruct (outcome missing 0 m).2 as [x|e] eqn:E; [|exact He]. vm_compute in E. discriminate E.
Defined.
End witnesses.
