(* ===== verification/TradeCensus.v ===== *)
(** * TradeCensus: the evidence of every real account, [trade_service/execute.rs]

    [census_with_reads] reads each real account of the installation: its connection, its
    snapshot, the lots behind its positions with their protection and reservation, its
    pending orders and its algo orders; [census_after_held] adds the proof that every read
    was started after the reservation was held.  The reads of the accounts run concurrently
    and are modelled one after the other, their pages delivered in an order the
    environment chooses ([CompletionOrder]). *)
From stdpp Require Import base option list numbers strings gmap sets.
From Stdlib Require Import ZArith QArith Lia Lqa Ascii String.
From S2P Require Import Prelude Text Ordered External Clock Decimals EntryBudget Protocol RiskAuthority Ledger Intents Instances Programs RateBudget Reference Market Stream Account TradeApi TradeService TradePlan.
Local Open Scope string_scope.
Local Open Scope list_scope.
Local Open Scope Z_scope.

Section census.
Context {D : Type} `{DecimalArith D} `{Hashing} `{!AgentText} `{!TradeSerialize D} `{JsonText}.
Notation T := (M (Eff D)).

Definition verify_post_held_fx (reserved observed : string) : result failure unit :=
  before ← dec (D:=D) reserved;
  after ← dec (D:=D) observed;
  if dec_leb before dec_zero || dec_leb after dec_zero then Err (Error "POST_FX_SOURCE_INVALID") else
  if negb (dec_eqb before after) then Err (Error "POST_FX_SOURCE_CHANGED_REQUIRES_NEW_RESERVE")
  else Ok tt.
(** [Instant::elapsed] in milliseconds *)
Definition elapsed_ms (since : Z) : T Z := t ← tick; mret (as_u64 (Z.max 0 (t - since) / 1000000)).
Definition quantity_of (lots : list (StoredLot D)) : result failure D := sum (map lot_remaining_qty lots).

(** ** One account *)
Definition owned_by (intent : string) (l : StoredLot D) : bool := text_is (lot_intent_id l) intent.
Definition on_side (side : string) (l : StoredLot D) : bool := (lot_side l =? side)%string.
Definition lot_job (id : string) : job D (option (ProtectionReceipt D) * option (CentralReceipt D)) :=
  p ← finance (λ _ v, protection v id);
  c ← query (λ d, central_receipt d id);
  mret (p, c).
(** A lot of a position is protected and reserved; the answer is its algo order. *)
Definition lot_evidence (account : string) (lots : list (StoredLot D)) (lot : StoredLot D) : T string :=
  id ← lift (require "UNATTRIBUTED_POSITION_LOT" (lot_intent_id lot));
  '(protection, receipt) ← call_soon account (lot_job id);
  protection ← lift (require "PROTECTION_UNVERIFIED" protection);
  receipt ← lift (require "CENTRAL_RESERVATION_UNVERIFIED" receipt);
  owned_qty ← lift (quantity_of (List.filter (owned_by id) lots));
  if dec_ltb (pr_quantity protection) owned_qty || (cr_plan_hash receipt =? "")%string
     || String.prefix "local:" (cr_reservation_key receipt)
  then fail "PROTECTION_OR_RESERVATION_COVERAGE_INCOMPLETE" else
  mret (pr_algo_id protection).
(** A position is covered by lots of its side, each with its evidence. *)
Definition position_evidence (account : string) (managed : gset string) (p : AccountPositionState)
    : T (gset string) :=
  actual_qty ← lift (dec (aps_position p));
  if dec_eqb actual_qty dec_zero then mret managed else
  lots ← call_soon account (finance (λ _ v, active_lots v (aps_instrument_id p)));
  let mine := List.filter (on_side (aps_position_side p)) lots in
  covered ← lift (quantity_of mine);
  if negb (dec_eqb covered (dec_abs actual_qty)) then fail "UNATTRIBUTED_EXCHANGE_POSITION" else
  algos ← mapM (lot_evidence account lots) mine;
  mret (managed ∪ list_to_set algos).
Definition order_evidence (account : string) (order : PendingOrderState) : T unit :=
  client ← lift (require "UNATTRIBUTED_PENDING_ORDER" (pos_client_order_id order));
  known ← call_soon account (query (λ d, by_client_order_id (D:=D) d client));
  match known with None => fail "UNATTRIBUTED_PENDING_ORDER" | Some _ => mret tt end.

Definition account_snapshot (account : string) (after_held : bool) : T AccountSnapshot :=
  ask (if after_held then SnapshotAfterHeld account else ObserverSnapshot account).
Definition fx_unchanged (account : string) (fx_rate_check : option (string * string))
    (snapshot : AccountSnapshot) : result failure unit :=
  match fx_rate_check with
  | Some (selected, original_rate) =>
    if (account =? selected)%string then
      conversion ← usd_conversion snapshot;
      verify_post_held_fx original_rate (uc_usd_per_usdt conversion)
    else Ok tt
  | None => Ok tt
  end.

Definition Page : Type := string * RiskAccountOccupancy * string * option PostAccountReadProof.
(** The proof of a read that was started after the reservation was held *)
Definition read_proof (account data : string) (generation : Z) (clock : option (Z * Z))
    : T (option PostAccountReadProof) :=
  match clock with
  | None => mret None
  | Some (held, started) =>
    completed ← elapsed_ms held;
    id ← lift (digest (account, generation, data, started, completed));
    mret (Some {| prp_account_key := account; prp_private_generation := generation;
                  prp_source_read_id := id; prp_content_digest := data;
                  prp_started_after_held_ms := started; prp_completed_after_held_ms := completed |})
  end.
Definition account_page (held_received : option Z) (fx_rate_check : option (string * string))
    (c : AccountControl) : T Page :=
  clock ← match held_received with
          | Some held => started ← elapsed_ms held; mret (Some (held, started))
          | None => mret None
          end;
  r ← perform (Resolve (act_account_key c));
  r ← lift (require "ACCOUNT_NOT_CONNECTED" r);
  let account := wire_of r in
  ready ← source_identity_ready r;
  if negb ready then fail "COHORT_SOURCE_GENERATION_UNVERIFIED" else
  generation ← connection_generation r;
  snapshot ← account_snapshot account (is_some held_received);
  _ ← lift (fx_unchanged (act_account_key c) fx_rate_check snapshot);
  algos ← ask (PendingRiskAlgos account);
  if negb (pri_complete_within_bound algos)
     || negb (acs_account_uid_fingerprint snapshot =? act_uid_fingerprint c)%string
  then fail "COHORT_EVIDENCE_INCOMPLETE" else
  managed_algos ← foldM (position_evidence account) ∅ (acs_positions snapshot);
  _ ← mapM (order_evidence account) (acs_pending_orders snapshot);
  if negb (bool_decide (list_to_set (map pas_algo_order_id (pri_samples algos)) = managed_algos))
  then fail "UNATTRIBUTED_CONDITIONAL_ORDER" else
  generation' ← connection_generation r;
  if negb (generation' =? generation) then fail "COHORT_SOURCE_GENERATION_CHANGED" else
  ready ← source_identity_ready r;
  if negb ready then fail "COHORT_SOURCE_GENERATION_CHANGED" else
  same_uid ← ask (VerifiedUidMatches account (act_uid_fingerprint c));
  if negb same_uid then fail "COHORT_SOURCE_GENERATION_CHANGED" else
  data ← lift (digest (snapshot, algos));
  '(risk, campaign_loss) ← call_soon account (
     risk ← risk_at None;
     p ← query (policy (D:=D));
     mret (risk, p.2));
  if negb (fr_nav_complete risk) then fail "COHORT_FINANCIAL_SOURCE_INCOMPLETE" else
  read ← read_proof (act_account_key c) data generation clock;
  mret (act_account_key c,
        {| rao_account_key := act_account_key c; rao_occupied_usdt := "0";
           rao_cumulative_loss_usd := exact campaign_loss |}, data, read).

(** ** The census *)
Definition real_cohort (s : CentralGovernanceSnapshot) : list AccountControl :=
  List.filter (λ a, is_real (act_environment a)) (gov_accounts (cgs_state s)).
Definition deliver (order : list nat) (pages : list Page) : list Page := omap (λ i, nth_error pages i) order.
Definition page_read (p : Page) : option PostAccountReadProof := p.2.
Definition census_of (pages : list Page) (content source : string) (floor generated : Z) : NativeRiskCensus := {|
  nrc_account_keys := sort_by (cmp_on (λ k, k)) (map (λ '(key, _, _, _), key) pages);
  nrc_occupied := sort_by (cmp_on rao_account_key) (map (λ '(_, row, _, _), row) pages);
  nrc_generated_at_ms := as_u64 generated; nrc_source_digest := source; nrc_content_digest := content;
  nrc_source_read_floor_ms := as_u64 floor; nrc_complete := true;
  nrc_native_account_evidence_complete := true; nrc_native_order_evidence_complete := true;
  nrc_native_ledger_evidence_complete := true |}.
Definition census_with_reads (s : CentralGovernanceSnapshot) (held_received : option Z)
    (fx_rate_check : option (string * string)) : T (NativeRiskCensus * list PostAccountReadProof) :=
  no_failures ← perform Failures;
  if negb no_failures then fail "ACCOUNT_COHORT_UNAVAILABLE" else
  floor ← now;
  pages ← mapM (account_page held_received fx_rate_check) (real_cohort s);
  order ← perform (CompletionOrder (List.length pages));
  let pages := deliver order pages in
  let post_reads := sort_by (cmp_on prp_account_key) (omap page_read pages) in
  generated ← now;
  if negb (evidence_fresh floor generated ACCOUNT_MAX_AGE_MS) then fail "COHORT_EVIDENCE_STALE" else
  content ← lift (digest (map (λ '(_, _, proof, _), proof) pages));
  source ← lift (digest (content, floor, generated));
  mret (census_of pages content source floor generated, post_reads).
Definition census (s : CentralGovernanceSnapshot) : T NativeRiskCensus :=
  v ← census_with_reads s None None; mret v.1.
Definition census_after_held (s : CentralGovernanceSnapshot) (held_received : Z)
    (reservation selected_account reserved_usd_per_usdt : string) : T (NativeRiskCensus * CausalPostProof) :=
  '(c, account_reads) ← census_with_reads s (Some held_received)
                          (Some (selected_account, reserved_usd_per_usdt));
  incarnation ← ask ProcessIncarnation;
  elapsed ← elapsed_ms held_received;
  let proof := {| cpp_reserve_anchor := reservation; cpp_native_incarnation := incarnation;
                  cpp_elapsed_to_proof_ms := elapsed; cpp_account_reads := account_reads |} in
  if negb (causal_valid proof c) then fail "POST_CAUSAL_READ_PROOF_INVALID" else mret (c, proof).
End census.
