(* ===== verification/TradeExecute.v ===== *)
(** * TradeExecute: one order, from its request to the exchange, [trade_service/execute.rs]

    [submit] is [execute_inner] up to the answer of the exchange: the plan, the intent in the
    ledger, the reservation at the risk authority, the fence, the permission to post and the
    one call that places the order.  [execute_inner] records the answer and reads the order
    back with [status_intent], which is a parameter here.  [release_unsent] is the one of
    [reconcile.rs]. *)
From stdpp Require Import base option list numbers strings gmap sets.
From Stdlib Require Import ZArith QArith Lia Lqa Ascii String.
From S2P Require Import Prelude Text Ordered External Clock Decimals EntryBudget Protocol RiskAuthority Ledger Intents Instances Programs RateBudget Reference Market Stream Account TradeApi TradeService TradePlan TradeCensus.
Local Open Scope string_scope.
Local Open Scope list_scope.
Local Open Scope Z_scope.

(** [&s[..n]], which panics when the text is shorter *)
Definition first_bytes (n : nat) (s : string) : result failure string :=
  if (n <=? String.length s)%nat then Ok (substring 0 n s) else Err Panic.
Definition validate_generation (expected observed : Z) : result failure unit :=
  if (expected <=? 0) || negb (expected =? observed) then Err (Error "SOURCE_GENERATION_CHANGED") else Ok tt.
(** [account.rsplit(':').next()] *)
Definition last_part (account : string) : option string := List.last (map Some (split_on ":" account)) None.

(** [result["data"][key] = value] *)
Fixpoint set_field {D} (key : string) (v : Json D) (fields : list (string * Json D)) : list (string * Json D) :=
  match fields with
  | [] => [(key, v)]
  | (k, w) :: fields' => if (k =? key)%string then (k, v) :: fields' else (k, w) :: set_field key v fields'
  end.
Definition set_data {D} (key : string) (v : Json D) (result : Json D) : Json D :=
  match result with
  | JObj fields =>
    JObj (map (λ '(k, w), if (k =? "data")%string
                          then (k, match w with JObj data => JObj (set_field key v data) | _ => w end)
                          else (k, w)) fields)
  | _ => result
  end.

(** The command of an execution *)
Record Order : Type := {
  o_idempotency_key : string;
  o_operation : TradeOperation;
  o_strategy_instance : string;
  o_instrument : string;
  o_side : PositionSide;
  o_sizing : Sizing;
  o_order : OrderConstraints;
  o_protection : option Protection;
  o_expires_in_ms : Z;
}.
Definition order_of (request : TradeRequest) : option Order :=
  match request with
  | Execute idempotency_key operation strategy_instance instrument side sizing order protection expires =>
    Some {| o_idempotency_key := idempotency_key; o_operation := operation;
            o_strategy_instance := strategy_instance; o_instrument := instrument; o_side := side;
            o_sizing := sizing; o_order := order; o_protection := protection;
            o_expires_in_ms := expires |}
  | _ => None
  end.

Section execute.
Context {D : Type} `{DecimalArith D} `{Hashing} `{!AgentText} `{!TradeSerialize D} `{JsonText} `{!Chrono}.
Context (rounds fuel tries : nat) (build_release : string).
Notation T := (M (Eff D)).

(** [body], then the permit of the account goes back, whatever happened *)
Definition finally {A} (body : T A) (account : string) : T A :=
  andthen body (λ r, Do (Release account) (λ _, Ret r)).
Definition expired (until : Z) : T bool := t ← tick; mret (until <=? t).
Definition remaining_ms (until : Z) : T Z := t ← tick; mret (Z.max 0 (until - t) / 1000000).

(** ** The plan, retried while its sources move *)
Definition transient_plan_errors : list string :=
  ["ACCOUNT_SOURCE_GENERATION_UNVERIFIED"; "ACCOUNT_EVIDENCE_EXPIRED_DURING_PLAN";
   "FINANCIAL_SOURCE_INCOMPLETE_OR_STALE"; "PRIVATE_SOURCE_GENERATION_CHANGED";
   "PUBLIC_SOURCE_GENERATION_CHANGED"].
Definition plan_for (r : AccountResources) (control : AccountControl) (o : Order) (until : Z)
    : T (IntentPlan D) :=
  plan rounds fuel r control (o_operation o) (o_strategy_instance o) (o_instrument o) (o_side o)
    (o_sizing o) (o_order o) (o_protection o) until true.
Fixpoint plan_retried (n : nat) (r : AccountResources) (control : AccountControl) (o : Order) (until : Z)
    : T (IntentPlan D) :=
  match n with
  | O => lift (Err OutOfFuel)
  | S n' =>
    p ← attempt (plan_for r control o until);
    match p with
    | Ok p => mret p
    | Err reason =>
      t ← tick;
      if (t + from_millis 100 <? until) && existsb (λ code, str_contains code reason) transient_plan_errors
      then
        _ ← remaining_ms until;
        _ ← perform (CaptureSources (wire_of r));
        plan_retried n' r control o until
      else fail reason
    end
  end.

(** ** The intent *)
Definition decision_of (o : Order) (claimed : option (string * string)) (body_hash short : string)
    (p : IntentPlan D) (policy_revision : Z) : T Decision :=
  at_ ← now;
  input ← match claimed with
          | Some (digest, _) => mret digest
          | None => lift (digest (body_hash, p))
          end;
  mret {| dn_decision_id := match claimed with Some (_, id) => id | None => "decision_" +:+ short end;
          dn_instance_id := Some (o_strategy_instance o); dn_decision_at := at_;
          dn_input_digest := input; dn_policy_revision := policy_revision;
          dn_code_version := build_release |}.
Definition intent_of (o : Order) (body_hash short : string) (p : IntentPlan D) (policy_revision until : Z)
    : T (NewIntent D) :=
  t ← now;
  left_ ← remaining_ms until;
  plan_hash ← lift (digest p);
  mret {| ni_plan := p; ni_intent_id := "intent_" +:+ short; ni_idempotency_key := o_idempotency_key o;
          ni_request_hash := body_hash; ni_client_order_id := short; ni_deadline := t + left_;
          ni_plan_hash := plan_hash; ni_policy_revision := policy_revision;
          ni_risk_increase := increases (o_operation o); ni_instrument_id := o_instrument o |}.
Definition prepare_on_owner {X} (account verified_uid : string) (prepare : job D X) : job D X :=
  _ ← query (λ d,
        if negb (meta_account_key (meta d) =? account)%string
           || negb (bool_decide (last_part account = Some verified_uid))
        then invalid "VERIFIED_UID_OWNER_MISMATCH" else Ok tt);
  prepare.
Definition created_manual (budget : D) : StrategyInstance D := {|
  sti_instance_id := "manual"; sti_definition_id := "manual"; sti_definition_version := "1";
  sti_parameters := "{}"; sti_enabled := false; sti_policy_revision := 1; sti_budget := budget;
  sti_last_decision_key := None |}.
Definition create_manual (budget : D) : job D unit :=
  t ← job_now;
  _ ← op (λ _ _ s,
        mutate_instance s "internal_create_manual"
          (sha256_hex (meta_account_key (meta (db s)) +:+ ":manual")) "create" (created_manual budget) None t);
  mret tt.
Definition prepare_job (decision : Decision) (intent : NewIntent D) (manual_budget : D)
    : job D (StoredIntent D) :=
  _ ← (if (ip_strategy_instance (ni_plan intent) =? "manual")%string then
         known ← query instances;
         if existsb (λ i : StrategyInstance D, (sti_instance_id i =? "manual")%string) known then mret tt
         else create_manual manual_budget
       else mret tt);
  write (λ _ d, prepare d decision intent).

(** ** Reserve: one command, then an inspection *)
Definition risk_reservation_key (r : AccountResources) (intent : StoredIntent D) : string :=
  String.concat "" (map (λ x, show_u64 (len x) +:+ ":" +:+ x)
    ["okx"; "real"; ak_verified_uid (account_key r); "continuous_engine"; si_intent_id intent]).
Definition held_state (v : RiskResult) : bool := bool_decide (rr_reservation_state v = Some Held).
Definition status_is (v : RiskResult) (s : RiskDecisionStatus) : bool := bool_decide (rr_status v = s).
Definition reason_is (v : RiskResult) (code : string) : bool := text_is (rr_reason v) code.
(** The reservation, or the reason with whether the authority denied it for good *)
Definition reserve_inspect_retry (s : CentralGovernanceSnapshot) (command : RiskCommand)
    (intent : StoredIntent D) (r : AccountResources) : T (result (string * bool) RiskResult) :=
  first ← attempt (request command);
  match (match first with Ok held => if status_is held StatusHeld then Some held else None | Err _ => None end) with
  | Some held => mret (Ok held)
  | None =>
    prefix ← lift (first_bytes 32 (si_plan_hash intent));
    observed ← attempt (request (risk_command s ("inspect_" +:+ prefix)
                                   (Inspect (risk_reservation_key r intent) (si_plan_hash intent))));
    let central_denied := match first with Ok v => status_is v Denied | Err _ => false end in
    let reason := match first with
                  | Ok v => default "RESERVE_DENIED" (rr_reason v)
                  | Err _ => "RESERVE_OUTCOME_UNKNOWN_NO_POST"
                  end in
    mret (match observed with
          | Ok reply =>
            if status_is reply RiskAuthority.Observed && held_state reply && negb central_denied
            then Ok reply
            else if central_denied && status_is reply Denied && reason_is reply "RISK_RESERVATION_NOT_FOUND"
            then Err (reason, true) else Err (reason, false)
          | Err _ => Err (reason, false)
          end)
  end.

(** ** Fence: the permission of the authority to post *)
Record PostFxFence : Type := {
  fx_owner : AccountResources;
  fx_conversion : UsdConversion;
}.
Fixpoint fence_rounds (n : nat) (s : CentralGovernanceSnapshot) (key : string) (sequence : Z)
    (intent : StoredIntent D) (until held_received : Z) (fx : PostFxFence) : T RiskResult :=
  match n with
  | O => fail "CENTRAL_RISK_CAS_BUSY_NO_POST"
  | S n' =>
    late ← expired until;
    if (late : bool) then fail "COMMAND_EXPIRED" else
    '(census, causal_proof) ← census_after_held s held_received key (wire_of (fx_owner fx))
                                (uc_usd_per_usdt (fx_conversion fx));
    source ← lift (digest census);
    let command := risk_command s ("fence_" +:+ si_client_order_id intent)
      (RiskAuthority.BeginPost key (si_plan_hash intent) (rev_of s) sequence source census causal_proof) in
    answer ← attempt (request command);
    let inspect :=
      inspected ← request (risk_command s ("inspect_fence_" +:+ si_client_order_id intent)
                             (Inspect key (si_plan_hash intent)));
      if negb (held_state inspected) then fail "POST_FENCE_OUTCOME_UNKNOWN_NO_POST" else
      sequence ← lift (require "RESERVATION_SEQUENCE_MISSING" (rr_risk_book_sequence inspected));
      fence_rounds n' s key sequence intent until held_received fx in
    match answer with
    | Ok v =>
      if status_is v PostAuthorized then mret v else
      if negb (reason_is v "STALE_RISK_BOOK_SEQUENCE")
      then fail (default "CENTRAL_POST_FENCE_DENIED" (rr_reason v)) else inspect
    | Err _ => inspect
    end
  end.
Definition fence_inspect_retry (s : CentralGovernanceSnapshot) (held : RiskResult) (intent : StoredIntent D)
    (until held_received : Z) (fx : PostFxFence) : T RiskResult :=
  key ← lift (require "RESERVATION_KEY_MISSING" (rr_reservation_key held));
  sequence ← lift (require "RESERVATION_SEQUENCE_MISSING" (rr_risk_book_sequence held));
  fence_rounds 4 s key sequence intent until held_received fx.

(** ** Receipts *)
Definition local_receipt (r : AccountResources) (intent : StoredIntent D) (result : RiskResult) (usd : D)
    (conversion : UsdConversion) : T (CentralReceipt D) :=
  key ← lift (require "RESERVATION_KEY_MISSING" (rr_reservation_key result));
  installation ← perform InstallationId;
  receipt ← lift (digest result);
  converted ← lift (digest conversion);
  mret {| cr_reservation_key := key; cr_account_key := wire_of r; cr_installation_id := installation;
          cr_instance_id := Some (ip_strategy_instance (si_plan intent)); cr_intent_id := si_intent_id intent;
          cr_plan_hash := si_plan_hash intent; cr_policy_revision := si_policy_revision intent;
          cr_receipt_hash := receipt; cr_requested_loss_usd := usd; cr_conversion_digest := converted |}.
(** The receipt of a demo account or a reduction *)
Definition unreserved_receipt (r : AccountResources) (o : Order) (id : string) (prepared : StoredIntent D)
    (p : IntentPlan D) (policy_revision : Z) : T (CentralReceipt D) :=
  installation ← perform InstallationId;
  receipt ← lift (digest prepared);
  converted ← lift (digest p);
  mret {| cr_reservation_key := "local:" +:+ id; cr_account_key := wire_of r;
          cr_installation_id := installation; cr_instance_id := Some (o_strategy_instance o);
          cr_intent_id := id; cr_plan_hash := si_plan_hash prepared;
          cr_policy_revision := policy_revision; cr_receipt_hash := receipt;
          cr_requested_loss_usd := ip_planned_loss_usd p; cr_conversion_digest := converted |}.
Definition reserve_job (c : CentralReceipt D) : job D unit := write (λ now d, reserve d c now).

Definition rejected (origin reason release : string) (id : string) (next : option string) : list (string * Json D) :=
  [("intent_id", JText id); ("state", JText "REJECTED"); ("rejection_origin", JText origin);
   ("send_state", JText "NOT_STARTED"); ("primary_reason", JText reason);
   ("risk_release_state", JText release)]
  ++ match next with Some n => [("next_action", JText n)] | None => [] end.
Definition reject_prepost_denial (r : AccountResources) (intent : StoredIntent D) (reason : string) : T (Json D) :=
  _ ← call_soon (wire_of r) (write (λ now d, reject_unsent d (si_intent_id intent) reason now));
  saved ← call_soon (wire_of r) (query (λ d, Intents.intent (D:=D) d (si_intent_id intent)));
  saved ← lift (require "PREPOST_INTENT_READBACK_MISSING" saved);
  if negb (bool_decide (si_state saved = Ledger.Rejected)) then fail "PREPOST_INTENT_REJECTION_UNCONFIRMED" else
  completed (JObj (rejected "LOCAL" (default reason (si_incident saved)) "PENDING" (si_intent_id saved)
                     (Some "trade.status"))).

(** ** The one send *)
Definition record (r : AccountResources) (id : string) (state : IntentState) (order_id : option string)
    (evidence : string) : T unit :=
  call_soon (wire_of r) (write (λ now d, record_outcome (D:=D) d id state order_id evidence now)).
Definition begin_post_call (r : AccountResources) (until : Z) (intent : StoredIntent D) : T bool :=
  b ← perform (CallBeginPost (wire_of r) until (si_intent_id intent) (si_policy_revision intent));
  lift (map_err (λ e, Error (store_text e)) b).
Definition post_once {X} (r : AccountResources) (intent : StoredIntent D) (until : Z) (send : T X) : T (option X) :=
  late ← expired until;
  if (late : bool) then fail "COMMAND_EXPIRED" else
  permitted ← begin_post_call r until intent;
  if negb permitted then mret None else
  late ← expired until;
  if (late : bool) then
    _ ← record r (si_intent_id intent) Ledger.Rejected None "monotonic-deadline-expired-owner-confirmed-unsent";
    fail "COMMAND_EXPIRED"
  else
  answer ← attempt send;
  match answer with
  | Ok v => mret (Some v)
  | Err reason =>
    if one_of ["COMMAND_EXPIRED_BEFORE_SEND"; "POLICY_CHANGED_BEFORE_SEND"] reason then
      _ ← record r (si_intent_id intent) Ledger.Rejected None ("owner-confirmed-unsent:" +:+ reason);
      fail reason
    else
      _ ← record r (si_intent_id intent) Ledger.Unknown None "exchange-post-outcome-unknown";
      mret None
  end.
(** The closure of [execute_inner] that is sent at most once *)
Definition send_order (r : AccountResources) (prepared : StoredIntent D) (until : Z)
    (venue : PlaceOrderRequest) (timing : MutationTiming) : T (TradeResponse OrderOperationAck) :=
  governance ← perform ReadGovernance;
  if match governance with
     | None => true
     | Some v => negb (rev_of v =? as_u64 (si_policy_revision prepared)) end
  then fail "POLICY_CHANGED_BEFORE_SEND" else
  late ← expired until;
  if (late : bool) then fail "COMMAND_EXPIRED_BEFORE_SEND" else
  ask (PlaceOrder (wire_of r) venue timing).

(** The order on the wire *)
Definition api_type (order_type : string) : ApiOrderType :=
  if (order_type =? "limit")%string then Limit else
  if (order_type =? "post_only")%string then PostOnly else
  if one_of ["ioc"; "market"] order_type then Ioc else Fok.
Definition attached (short : string) (stop : option D) : result failure (list AttachedAlgoOrderRequest) :=
  match stop with
  | None => Ok []
  | Some stop =>
    id ← first_bytes 31 short;
    Ok [{| aar_client_order_id := "s" +:+ id; aar_take_profit_trigger_price := "";
           aar_take_profit_trigger_price_type := Mark; aar_take_profit_order_price := "";
           aar_stop_loss_trigger_price := exact stop; aar_stop_loss_trigger_price_type := Mark;
           aar_stop_loss_order_price := "-1" |}]
  end.
Definition venue_order (o : Order) (short : string) (p : IntentPlan D)
    (stops : list AttachedAlgoOrderRequest) : PlaceOrderRequest := {|
  por_instrument_id := o_instrument o; por_trade_mode := Cross; por_client_order_id := short;
  por_side := if (ip_side p =? "buy")%string then Buy else Sell;
  por_position_side := if is_long (o_side o) then LongSide else ShortSide;
  por_order_type := api_type (oc_order_type (o_order o)); por_size := exact (ip_quantity p);
  por_price := exact (ip_limit_price p);
  por_attached_algo_orders := if increases (o_operation o) then stops else [] |}.
Definition admit_place_order (r : AccountResources) (venue : PlaceOrderRequest) : T unit :=
  _ ← lift (map_err (λ e, Error (okx_text e)) (validate_place venue));
  ask (AdmitRequest (wire_of r) RateBudget.PlaceOrder (por_instrument_id venue)).

(** ** The release of a reservation whose order was never sent: [release_unsent] of [reconcile.rs] *)
Definition release_proof (u : UnsentSqlReceipt) (record_digest : string) : UnsentRiskReleaseProof := {|
  urp_reservation_key := us_reservation_key u; urp_account_key := us_account_key u;
  urp_intent_id := us_intent_id u; urp_plan_hash := us_plan_hash u;
  urp_request_hash := us_request_hash u; urp_reason := us_reason u; urp_record_digest := record_digest |}.
Definition acknowledge_release (r : AccountResources) (reservation : string) (v : RiskResult) : T unit :=
  evidence ← lift (digest v);
  call_soon (wire_of r) (write (λ now d, acknowledge_central_release d reservation evidence now)).
Fixpoint release_rounds (n : nat) (r : AccountResources) (s : CentralGovernanceSnapshot)
    (u : UnsentSqlReceipt) (client_order_id : string) : T unit :=
  match n with
  | O => fail "CENTRAL_UNSENT_RELEASE_CAS_BUSY"
  | S n' =>
    let reservation := us_reservation_key u in
    observed ← request (risk_command s ("inspect_" +:+ client_order_id) (Inspect reservation (us_plan_hash u)));
    let absent := status_is observed Denied && reason_is observed "RISK_RESERVATION_NOT_FOUND" in
    if negb (status_is observed RiskAuthority.Observed) && negb absent
    then fail (default "CENTRAL_INSPECTION_FAILED" (rr_reason observed)) else
    if bool_decide (rr_reservation_state observed = Some Released)
    then acknowledge_release r reservation observed else
    if negb absent && negb (held_state observed || bool_decide (rr_reservation_state observed = Some Posted))
    then fail "UNSENT_CENTRAL_STATE_UNRESOLVED" else
    record_digest ← lift (digest u);
    sequence ← lift (require "RISK_SEQUENCE_MISSING" (rr_risk_book_sequence observed));
    result ← request (risk_command s ("release_" +:+ client_order_id)
      (ReleaseUnsent reservation (us_plan_hash u) sequence (release_proof u record_digest)));
    if status_is result Updated then acknowledge_release r reservation result else
    if negb (reason_is result "STALE_SESSION_OR_BOOK_SEQUENCE")
    then fail (default "CENTRAL_UNSENT_RELEASE_DENIED" (rr_reason result)) else
    release_rounds n' r s u client_order_id
  end.
Definition release_unsent (r : AccountResources) (i : StoredIntent D) : T unit :=
  if negb (is_real (ak_environment (account_key r))) then mret tt else
  proof ← call_soon (wire_of r) (query (λ d, Ok (unsent_release_receipt d (si_intent_id i))));
  u ← lift (require "DURABLE_UNSENT_SQL_PROOF_MISSING" proof);
  governance ← perform ReadGovernance;
  s ← lift (require "AUTHORITY_UNAVAILABLE" governance);
  if String.prefix "local:" (us_reservation_key u) then mret tt else
  release_rounds 4 r s u (si_client_order_id i).

(** ** The whole command *)
Section command.
Variable status_intent : AccountResources → string → T (Json D).
(** Nothing was sent: the ledger keeps the reason, the authority gets its capacity back. *)
Definition denied_before_post (r : AccountResources) (prepared : StoredIntent D) (id reason unconfirmed : string)
    : T (Json D) :=
  denied ← attempt (reject_prepost_denial r prepared reason);
  match denied with
  | Ok result =>
    released ← attempt (release_unsent r prepared);
    mret (match released with
          | Ok _ => set_data "risk_release_state" (JText "RELEASED") result
          | Err e => set_data "risk_release_error" (JText e) result
          end)
  | Err _ => uncertain id unconfirmed
  end.
(** [(planned / rate).round_up(9)] and its value in dollars *)
Definition requested_loss (p : IntentPlan D) (conversion : UsdConversion) : result failure (D * D) :=
  rate ← dec (uc_usd_per_usdt conversion);
  ratio ← div (ip_planned_loss_usd p) rate;
  let usdt := round_up 9 ratio in
  rate ← dec (uc_usd_per_usdt conversion);
  value ← mul usdt rate;
  Ok (usdt, round_up 9 value).
Definition reserve_command (r : AccountResources) (o : Order) (s : CentralGovernanceSnapshot)
    (id short plan_hash : string) (usdt usd : D) (conversion : UsdConversion) (c : NativeRiskCensus)
    : RiskCommand :=
  risk_command s ("reserve_" +:+ short)
    (RiskAuthority.Reserve "okx" (ak_verified_uid (account_key r)) "continuous_engine" id
       (o_strategy_instance o) (o_instrument o) plan_hash (exact usdt) (exact usd) conversion (rev_of s) c).
(** Reservation and fence of a real increase; an early answer ends the command. *)
Definition reserve_and_fence (r : AccountResources) (o : Order) (s : CentralGovernanceSnapshot)
    (p : IntentPlan D) (prepared : StoredIntent D) (id short : string) (until : Z)
    : T (result (Json D) RiskResult) :=
  c ← census s;
  snapshot ← ask (ObserverSnapshot (wire_of r));
  conversion ← lift (usd_conversion snapshot);
  '(usdt, usd) ← lift (requested_loss p conversion);
  let reserve := reserve_command r o s id short (si_plan_hash prepared) usdt usd conversion c in
  let key := risk_reservation_key r prepared in
  _ ← call (wire_of r) until (write (λ now d, mark_reserve_attempt d (si_intent_id prepared) key now));
  held ← reserve_inspect_retry s reserve prepared r;
  match held with
  | Err (reason, true) =>
    _ ← call_soon (wire_of r) (write (λ now d, reject_denied_reserve d (si_intent_id prepared) reason now));
    v ← completed (JObj (rejected "CENTRAL" reason "NOT_RESERVED" (si_intent_id prepared) None));
    mret (Err v)
  | Err (reason, false) =>
    v ← denied_before_post r prepared (si_intent_id prepared) reason
          "RESERVE_LOCAL_COMMIT_UNCONFIRMED_NO_RESUBMIT";
    mret (Err v)
  | Ok held =>
    held_received ← tick;
    receipt ← local_receipt r prepared held usd conversion;
    _ ← call (wire_of r) until (reserve_job receipt);
    late ← expired until;
    if (late : bool) then fail "COMMAND_EXPIRED" else
    fenced ← attempt (fence_inspect_retry s held prepared until held_received
                        {| fx_owner := r; fx_conversion := conversion |});
    match fenced with
    | Ok v => mret (Ok v)
    | Err reason =>
      v ← denied_before_post r prepared id reason "PREPOST_LOCAL_COMMIT_UNCONFIRMED_NO_RESUBMIT";
      mret (Err v)
    end
  end.

(** The last looks before the permission to post *)
Definition preflight (r : AccountResources) (o : Order) (s : CentralGovernanceSnapshot) (p : IntentPlan D)
    (until : Z) : T MutationTiming :=
  governance ← perform ReadGovernance;
  current ← lift (require "AUTHORITY_UNAVAILABLE" governance);
  if negb (rev_of current =? rev_of s) then fail "POLICY_CHANGED" else
  t ← now;
  received_at ← perform UtcText;
  market ← ask (FreshSnapshot (o_instrument o) t QUOTE_MAX_AGE_MS received_at);
  _ ← lift (validate_generation (ip_source_generation p) (as_i64 (lms_generation market)));
  ready ← (if increases (o_operation o) then source_identity_ready r else mret true);
  if negb ready then fail "ACCOUNT_SOURCE_GENERATION_UNVERIFIED" else
  generation ← (if increases (o_operation o) then g ← connection_generation r; mret (as_i64 g)
                else mret (ip_private_source_generation p));
  if negb (generation =? ip_private_source_generation p)
  then fail "ACCOUNT_SOURCE_GENERATION_UNVERIFIED" else
  late ← expired until;
  if (late : bool) then fail "COMMAND_EXPIRED" else
  clock ← ask (ClockSample (wire_of r));
  left_ ← remaining_ms until;
  at_ ← tick;
  issued ← tick;
  lift (map_err (λ e, Error (clock_text e)) (mutation_timing clock (Z.min left_ ACCOUNT_MAX_AGE_MS) at_ issued)).

Inductive Outcome : Type :=
| Known (intent_id : string)
| Answered (v : Json D)
| Sent (id : string) (venue : PlaceOrderRequest) (central : option RiskResult)
    (response : option (TradeResponse OrderOperationAck)).

(** From the prepared intent to the answer of the exchange *)
Definition post_prepared (r : AccountResources) (o : Order) (s : CentralGovernanceSnapshot) (p : IntentPlan D)
    (prepared : StoredIntent D) (id short : string) (central : option RiskResult) (until : Z) : T Outcome :=
  timing ← preflight r o s p until;
  stops ← lift (attached short (ip_stop_price p));
  let venue := venue_order o short p stops in
  _ ← admit_place_order r venue;
  response ← post_once r prepared until (send_order r prepared until venue timing);
  mret (Sent id venue central response).
Definition submit_held (r : AccountResources) (request : TradeRequest) (o : Order)
    (supplied : option CentralGovernanceSnapshot) (bound_hash expected_definition : option string)
    (claimed : option (string * string)) (until : Z) : T Outcome :=
  own_hash ← lift (digest (wire_of r, request));
  let body_hash := default own_hash bound_hash in
  prior ← call (wire_of r) until (query (λ d, by_idempotency (D:=D) d (o_idempotency_key o)));
  match prior with
  | Some i =>
    if negb (si_request_hash i =? body_hash)%string then fail "IDEMPOTENCY_CONFLICT"
    else mret (Known (si_intent_id i))
  | None =>
    '(s, control) ← authority r supplied;
    p ← plan_retried tries r control o until;
    short ← lift (first_bytes 32 body_hash);
    let id := "intent_" +:+ short in
    decision ← decision_of o claimed body_hash short p (as_i64 (rev_of s));
    intent ← intent_of o body_hash short p (as_i64 (rev_of s)) until;
    if is_some_and (λ version, negb (version =? ip_strategy_definition_version p)%string) expected_definition
    then fail "STRATEGY_VERSION_CHANGED" else
    manual_budget ← lift (dec (gov_campaign_loss_limit_usd (cgs_state s)));
    prepared ← call (wire_of r) until
      (prepare_on_owner (wire_of r) (execution_uid r) (prepare_job decision intent manual_budget));
    late ← expired until;
    if (late : bool) then fail "COMMAND_EXPIRED" else
    if increases (o_operation o) && is_real (ak_environment (account_key r)) then
      reserved ← reserve_and_fence r o s p prepared id short until;
      match reserved with
      | Ok v => post_prepared r o s p prepared id short (Some v) until
      | Err v => mret (Answered v)
      end
    else
      receipt ← unreserved_receipt r o id prepared p (as_i64 (rev_of s));
      _ ← call (wire_of r) until (reserve_job receipt);
      post_prepared r o s p prepared id short None until
  end.
Definition submit (r : AccountResources) (request : TradeRequest)
    (supplied : option CentralGovernanceSnapshot) (bound_hash expected_definition : option string)
    (claimed : option (string * string)) : T Outcome :=
  o ← lift (require "EXECUTE_REQUIRED" (order_of request));
  started ← tick;
  let until := started + from_millis (o_expires_in_ms o) in
  acquired ← perform (TryAcquire (wire_of r));
  if negb acquired then fail "ACCOUNT_MUTATION_BUSY" else
  finally (submit_held r request o supplied bound_hash expected_definition claimed until) (wire_of r).

(** What the exchange answered *)
Definition acknowledged (venue : PlaceOrderRequest) (response : TradeResponse OrderOperationAck) : option string :=
  match tr_data response with
  | [ack] =>
    if top_level_success response && accepted ack
       && (ooa_client_order_id ack =? por_client_order_id venue)%string
    then Some (ooa_order_id ack) else None
  | _ => None
  end.
Definition conclude (r : AccountResources) (out : Outcome) : T (Json D) :=
  match out with
  | Known id => status_intent r id
  | Answered v => mret v
  | Sent id venue central (Some response) =>
    match acknowledged venue response with
    | Some order_id =>
      _ ← record r id Ledger.Acknowledged (Some order_id) "exchange-ack";
      status_intent r id
    | None =>
      _ ← record r id Ledger.Rejected None "exchange-explicit-rejection";
      completed (JObj [("intent_id", JText id); ("state", JText "REJECTED");
                       ("exchange_code", JText (tr_code response));
                       ("central_reservation", match central with Some v => JRisk v | None => JNull end)])
    end
  | Sent id _ _ None => uncertain id "EXCHANGE_POST_OUTCOME_UNKNOWN"
  end.
Definition execute_inner (r : AccountResources) (request : TradeRequest)
    (supplied : option CentralGovernanceSnapshot) (bound_hash expected_definition : option string)
    (claimed : option (string * string)) : T (Json D) :=
  out ← submit r request supplied bound_hash expected_definition claimed;
  conclude r out.
Definition execute_bound r request supplied bound_hash : T (Json D) :=
  execute_inner r request supplied bound_hash None None.
Definition execute r request supplied : T (Json D) := execute_bound r request supplied None.
Definition execute_for_definition r request supplied version decision_digest claimed_decision_id : T (Json D) :=
  execute_inner r request supplied None (Some version) (Some (decision_digest, claimed_decision_id)).
End command.
End execute.
