(* ===== verification/TradeSafety.v ===== *)
(** * TradeSafety: what has happened when an order reaches the exchange

    [submit_safe] goes through [submit] once: it sends nothing but its own order, and only
    after everything listed in [cleared].  [placed_order_cleared] is that for a run,
    [submit_once] that a submission sends at most one request, [census_covers_exposure] what
    a census proves, and [release_unsent_backed] that the release of an order that was never
    sent carries the proof of the ledger; a real account runs through them at the end. *)
From stdpp Require Import base option list numbers strings gmap sets.
From Stdlib Require Import ZArith QArith Lia Lqa Ascii String.
From S2P Require Import Prelude Text Ordered External Clock Decimals EntryBudget Protocol RiskAuthority Ledger Intents Instances Programs RateBudget Reference Market Stream Account TradeApi TradeService TradeDemo TradePlan TradeCensus TradeExecute.
Local Open Scope string_scope.
Local Open Scope list_scope.
Local Open Scope Z_scope.

(** ** Effects that neither touch the exchange nor give capacity back *)
Definition frees (action : RiskCommandAction) : bool :=
  match action with ReleaseUnsent _ _ _ _ | RiskAuthority.Resolve _ _ _ _ _ _ _ => true | _ => false end.
Definition off_venue {D X} (e : Eff D X) : Prop :=
  match e with
  | PlaceOrder _ _ _ | CancelOrder _ _ _ | CancelAlgo _ _ _ => False
  | Transport c => frees (rc_action c) = false
  | _ => True
  end.

Section stages.
Context {D : Type} `{DecimalLaws D} `{Hashing} `{!AgentText} `{!TradeSerialize D} `{JsonText} `{!Chrono}.
Variable possible : ∀ X : Type, Eff D X → X → Prop.
Variable allowed : ∀ X : Type, Eff D X → Prop.
Hypothesis Hallowed : ∀ X (e : Eff D X), off_venue e → allowed X e.
Notation safe m P := (safe possible allowed m P).

Lemma ask_reads {A} (e : Eff D (result string A)) (P : A → Prop) :
  off_venue e → (∀ a, possible _ e (Ok a) → P a) → safe (ask e) P.
Proof.
  intros He HP. unfold ask. safe_steps; [by apply Hallowed|]. apply HP.
  match goal with E : ?x = Ok _ |- _ => by rewrite <- E end.
Qed.
Lemma call_reads {X} account until (j : job D X) (P : X → Prop) :
  (∀ x, possible _ (Call account until j) (Ok x) → P x) → safe (call account until j) P.
Proof.
  intros HP. unfold call. safe_steps; [by apply Hallowed|]. apply HP.
  match goal with E : map_err _ _ = Ok _ |- _ => by apply map_err_ok in E as -> end.
Qed.
Lemma call_soon_reads {X} account (j : job D X) (P : X → Prop) :
  (∀ until x, possible _ (Call account until j) (Ok x) → P x) → safe (call_soon account j) P.
Proof.
  intros HP. unfold call_soon, deadline, tick. safe_steps; [by apply Hallowed|]. apply call_reads. intros ?; apply HP.
Qed.
Lemma expired_reads until (P : bool → Prop) : (∀ b, P b) → safe (expired until) P.
Proof. intros HP. unfold expired, tick. safe_steps; [by apply Hallowed|]. apply HP. Qed.
Lemma remaining_reads until (P : Z → Prop) : (∀ z, P z) → safe (remaining_ms until) P.
Proof. intros HP. unfold remaining_ms, tick. safe_steps; [by apply Hallowed|]. apply HP. Qed.
Lemma elapsed_reads since (P : Z → Prop) : (∀ z, P z) → safe (elapsed_ms since) P.
Proof. intros HP. unfold elapsed_ms, tick. safe_steps; [by apply Hallowed|]. apply HP. Qed.
Lemma completed_reads data (P : Json D → Prop) : (∀ v, P v) → safe (completed data) P.
Proof. intros HP. unfold completed, now. safe_steps; [by apply Hallowed|]. apply HP. Qed.
Lemma uncertain_reads i reason (P : Json D → Prop) : (∀ v, P v) → safe (uncertain i reason) P.
Proof. intros HP. unfold uncertain, now. safe_steps; [by apply Hallowed|]. apply HP. Qed.
Lemma ready_reads r (P : bool → Prop) : (∀ b, P b) → safe (source_identity_ready r) P.
Proof. intros HP. unfold source_identity_ready. safe_steps; try by apply Hallowed. apply HP. Qed.
Lemma generation_reads r (P : Z → Prop) : (∀ g, P g) → safe (connection_generation r) P.
Proof. intros HP. unfold connection_generation. safe_steps; [by apply Hallowed|]. apply HP. Qed.

(** A valid command was sent, and its answer is the one of this command. *)
Definition commanded (c : RiskCommand) (v : RiskResult) : Prop :=
  command_valid c = true ∧ possible _ (Transport c) (Ok v) ∧ risk_result_valid v = true
  ∧ rr_command_id v = rc_command_id c.
Lemma request_sends c (P : RiskResult → Prop) :
  (command_valid c = true → allowed _ (Transport c)) → (∀ v, commanded c v → P v) → safe (request c) P.
Proof.
  intros Hc HP. unfold request, ask. safe_steps; [by apply Hc, negb_false_iff|]. apply HP.
  repeat match goal with E : _ || _ = false |- _ => apply orb_false_iff in E as [? ?]
                             | E : negb _ = false |- _ => apply negb_false_iff in E end.
  match goal with E : ?x = Ok _ |- _ => rewrite E in * end. split_and!; try done. by apply String.eqb_eq.
Qed.
Lemma request_reads c (P : RiskResult → Prop) :
  frees (rc_action c) = false → (∀ v, commanded c v → P v) → safe (request c) P.
Proof. intros Hf. apply request_sends. intros _. by apply Hallowed. Qed.
End stages.

(** Steps of the programs whose effects are all [off_venue] *)
Ltac read_step :=
  lazymatch goal with
  | |- safe _ _ (ask _) _ => apply ask_reads; [assumption|exact I|intros ? ?]
  | |- safe _ _ (call _ _ _) _ => apply call_reads; [assumption|intros ? ?]
  | |- safe _ _ (call_soon _ _) _ => apply call_soon_reads; [assumption|intros ? ? ?]
  | |- safe _ _ (expired _) _ => apply expired_reads; [assumption|intros ?]
  | |- safe _ _ (remaining_ms _) _ => apply remaining_reads; [assumption|intros ?]
  | |- safe _ _ (elapsed_ms _) _ => apply elapsed_reads; [assumption|intros ?]
  | |- safe _ _ (completed _) _ => apply completed_reads; [assumption|intros ?]
  | |- safe _ _ (uncertain _ _) _ => apply uncertain_reads; [assumption|intros ?]
  | |- safe _ _ (source_identity_ready _) _ => apply ready_reads; [assumption|intros ?]
  | |- safe _ _ (connection_generation _) _ => apply generation_reads; [assumption|intros ?]
  | |- safe _ _ (request _) _ => apply request_reads; [assumption|first [reflexivity|assumption]|intros ? ?]
  | |- safe _ _ (attempt _) _ => apply safe_attempt; [|intros ?]
  | |- safe _ _ now _ => unfold now
  | |- safe _ _ tick _ => unfold tick
  | |- safe _ _ (perform _) _ => apply safe_perform; [match goal with Ha : _ |- _ => apply Ha; exact I end|intros ? ?]
  | _ => safe_step
  end.
Ltac read_steps := repeat (cbv beta zeta; read_step).

(** ** The release of an order that was never sent *)
Definition releases (action : RiskCommandAction) : option (string * string * UnsentRiskReleaseProof) :=
  match action with ReleaseUnsent key plan _ proof => Some (key, plan, proof) | _ => None end.
Section released.
Context {D : Type} `{DecimalLaws D} `{Hashing} `{!AgentText} `{!TradeSerialize D} `{JsonText} `{!Chrono}.
Variable possible : ∀ X : Type, Eff D X → X → Prop.
(** What the ledger answers to the question for a proof *)
Definition unsent_in_ledger (account id : string) (u : UnsentSqlReceipt) : Prop :=
  ∃ until, possible _ (Call account until (query (λ d, Ok (unsent_release_receipt d id)))) (Ok (Some u)).
(** The commands of a release: the inspection of a reservation, and a release that carries
    the proof of the ledger, with a reason the authority takes. *)
Definition release_backed (account id : string) (X : Type) (e : Eff D X) : Prop :=
  match e with
  | Transport c =>
    match releases (rc_action c) with
    | Some (key, plan, proof) =>
      command_valid c = true ∧ ∃ u record_digest, unsent_in_ledger account id u
      ∧ digest u = Ok record_digest ∧ proof = release_proof u record_digest
      ∧ key = us_reservation_key u ∧ plan = us_plan_hash u ∧ (len (us_reason u) <= 128)%Z
    | None => ∃ key plan, rc_action c = Inspect key plan
    end
  | _ => off_venue e
  end.
(** How a release can end well *)
Definition release_done (r : AccountResources) (i : StoredIntent D) : Prop :=
  is_real (ak_environment (account_key r)) = false
  ∨ ∃ u, unsent_in_ledger (wire_of r) (si_intent_id i) u
    ∧ (String.prefix "local:" (us_reservation_key u) = true
       ∨ (∃ c v, commanded possible c v ∧ rc_action c = Inspect (us_reservation_key u) (us_plan_hash u)
                ∧ rr_reservation_state v = Some Released)
       ∨ (∃ c v proof, commanded possible c v ∧ rr_status v = Updated
                ∧ releases (rc_action c) = Some (us_reservation_key u, us_plan_hash u, proof))).

Lemma release_rounds_backed n r s u i :
  unsent_in_ledger (wire_of r) (si_intent_id i) u →
  safe possible (release_backed (wire_of r) (si_intent_id i)) (release_rounds n r s u (si_client_order_id i))
       (λ _, release_done r i).
Proof.
  intros Hu. induction n as [|n IH]; cbn [release_rounds]; [done|].
  unfold acknowledge_release, call_soon, deadline, tick, call. apply safe_bind, request_sends; [by intros _; do 2 eexists|]. intros v Hv.
  safe_steps; try exact I; try (right; exists u; split; [done|]; right; left; by do 2 eexists; reflect_bools; reflect_decs).
  apply request_sends.
  - intros Hc. simpl. split; [done|]. exists u, a. split_and!; try done.
    unfold command_valid in Hc. simpl in Hc. unfold unsent_proof_valid, short, Protocol.within in Hc. reflect_bools. simpl in *. lia.
  - intros w Hw. safe_steps; try exact I.
    + right. exists u. split; [done|]. right. right. unfold status_is in *. reflect_bools. reflect_decs. by do 3 eexists.
    + exact IH.
Qed.
Lemma release_unsent_backed r i :
  safe possible (release_backed (wire_of r) (si_intent_id i)) (release_unsent r i) (λ _, release_done r i).
Proof.
  unfold release_unsent, call_soon, deadline, tick, call. safe_steps; try exact I.
  - left. by apply negb_true_iff.
  - right. repeat match goal with E : require _ _ = Ok _ |- _ => apply ok_or_ok in E; subst
                              | E : map_err _ _ = Ok _ |- _ => apply map_err_ok in E; subst end.
    eexists. split; [by eexists|by left].
  - repeat match goal with E : require _ _ = Ok _ |- _ => apply ok_or_ok in E; subst
                      | E : map_err _ _ = Ok _ |- _ => apply map_err_ok in E; subst end.
    apply release_rounds_backed. by eexists.
Qed.
End released.

Section reads.
Context {D : Type} `{DecimalLaws D} `{Hashing} `{!AgentText} `{!TradeSerialize D} `{JsonText} `{!Chrono}.
Variable possible : ∀ X : Type, Eff D X → X → Prop.
Variable allowed : ∀ X : Type, Eff D X → Prop.
Hypothesis Hallowed : ∀ X (e : Eff D X), off_venue e → allowed X e.
Notation safe m P := (safe possible allowed m P).
Notation quietly m := (safe m (λ _, True)).

Definition may_release (account : string) : Prop :=
  ∀ id X (e : Eff D X), release_backed possible account id X e → allowed X e.
Lemma release_unsent_reads r i : may_release (wire_of r) → quietly (release_unsent r i).
Proof.
  intros Hr. eapply safe_allow; [apply (Hr (si_intent_id i))|]. by eapply safe_weaken; [apply release_unsent_backed|].
Qed.
Lemma reject_prepost_reads r i reason : quietly (reject_prepost_denial r i reason).
Proof. unfold reject_prepost_denial. read_steps; exact I. Qed.
Lemma denied_reads r i id reason code : may_release (wire_of r) → quietly (denied_before_post r i id reason code).
Proof.
  intros Hr. unfold denied_before_post. read_steps; try exact I.
  eapply safe_weaken; [apply reject_prepost_reads|]. intros v _. read_steps; try exact I.
  eapply safe_weaken; [by apply release_unsent_reads|]. intros [] _. read_steps; exact I.
Qed.

(** ** The census: what stands behind a page *)
Definition lot_ok (account : string) (lots : list (StoredLot D)) (lot : StoredLot D) (algo : string) : Prop :=
  ∃ id until p c owned, lot_intent_id lot = Some id
  ∧ possible _ (Call account until (lot_job id)) (Ok (Some p, Some c))
  ∧ quantity_of (List.filter (owned_by id) lots) = Ok owned ∧ (val owned <= val (pr_quantity p))%Q
  ∧ cr_plan_hash c ≠ "" ∧ String.prefix "local:" (cr_reservation_key c) = false ∧ algo = pr_algo_id p.
Definition position_ok (account : string) (p : AccountPositionState) (algos : list string) : Prop :=
  ∃ q, dec (aps_position p) = Ok q
  ∧ ((val q == 0)%Q ∧ algos = []
     ∨ ∃ until lots covered,
         possible _ (Call account until (finance (λ _ v, active_lots v (aps_instrument_id p)))) (Ok lots)
         ∧ let mine := List.filter (on_side (aps_position_side p)) lots in
           quantity_of mine = Ok covered ∧ (val covered == val (dec_abs q))%Q
           ∧ Forall2 (lot_ok account lots) mine algos).
Definition order_ok (account : string) (o : PendingOrderState) : Prop :=
  ∃ client until i, pos_client_order_id o = Some client
  ∧ possible _ (Call account until (query (λ d, by_client_order_id (D:=D) d client))) (Ok (Some i)).
(** Where the inventory was made from these answers of the exchange and has at most eight
    rows, the conditional orders pending in the answers are exactly the protections. *)
Definition pending_are (algos : PendingDerivativeAlgoRiskInventory) (protections : list string) : Prop :=
  ∀ responses, receipted_derivative_inventory responses = Ok algos → pri_rows algos <= 8 →
  ∀ id, In id (algo_ids (all_rows (sort_by (cmp_on scope_of) (map fst responses)))) ↔ In id protections.
(** Every position of the snapshot is covered by lots of the ledger that are protected and
    reserved, every pending order is one of the ledger, and the algo orders the inventory
    lists, which are the first eight, are exactly the protections. *)
Record page_ok (held : bool) (c : AccountControl) (page : Page) : Prop := {
  po_key : (let '(key, _, _, _) := page in key) = act_account_key c;
  po_evidence : ∃ r snapshot algos managed,
    possible _ (Resolve (act_account_key c)) (Some r)
    ∧ possible _ (if held then SnapshotAfterHeld (wire_of r) else ObserverSnapshot (wire_of r)) (Ok snapshot)
    ∧ acs_account_uid_fingerprint snapshot = act_uid_fingerprint c
    ∧ possible _ (PendingRiskAlgos (wire_of r)) (Ok algos) ∧ pri_complete_within_bound algos = true
    ∧ Forall2 (position_ok (wire_of r)) (acs_positions snapshot) managed
    ∧ Forall (order_ok (wire_of r)) (acs_pending_orders snapshot)
    ∧ (∀ id, In id (map pas_algo_order_id (pri_samples algos)) ↔ In id (List.concat managed))
    ∧ pending_are algos (List.concat managed);
}.
Lemma listed_pending algos protections :
  (∀ id, In id (map pas_algo_order_id (pri_samples algos)) ↔ In id protections) → pending_are algos protections.
Proof. intros Hl responses Hr Hle id. rewrite <- Hl. by rewrite (inventory_lists_all _ _ Hr Hle). Qed.

Lemma lot_reads account lots lot : safe (lot_evidence account lots lot) (lot_ok account lots lot).
Proof.
  unfold lot_evidence. read_steps.
  repeat match goal with E : require _ _ = Ok _ |- _ => apply ok_or_ok in E; subst end.
  reflect_bools. reflect_decs.
  do 5 eexists. split_and!; try eassumption; try done. by apply String.eqb_neq.
Qed.
Lemma position_reads account managed p :
  safe (position_evidence account managed p)
       (λ managed', ∃ algos, position_ok account p algos ∧ managed' = managed ∪ list_to_set algos).
Proof.
  unfold position_evidence. read_steps.
  - exists []. split; [|by rewrite list_to_set_nil, union_empty_r_L].
    eexists. split; [eassumption|]. left. split; [|done]. reflect_decs. by rewrite val_zero in *.
  - eapply safe_weaken; [apply safe_mapM; intros lot _; apply lot_reads|]. intros algos Halgos.
    apply safe_ret. exists algos. split; [|done]. reflect_bools. reflect_decs.
    eexists. split; [eassumption|]. right. by do 3 eexists.
Qed.
Lemma order_reads account o : safe (order_evidence account o) (λ _, order_ok account o).
Proof.
  unfold order_evidence. read_steps.
  match goal with E : require _ _ = Ok _ |- _ => apply ok_or_ok in E end. by do 3 eexists.
Qed.

Lemma orders_reads account l :
  safe (mapM (order_evidence account) l) (λ _, Forall (order_ok account) l).
Proof.
  eapply safe_weaken.
  - apply (safe_mapM _ _ _ (λ o _, order_ok account o)). intros o _. apply order_reads.
  - intros us Hus. induction Hus; by constructor.
Qed.

Lemma union_algos (base : gset string) bs :
  foldl (λ s b, s ∪ list_to_set b) base bs = base ∪ list_to_set (List.concat bs).
Proof.
  revert base. induction bs as [|b bs IH]; intros base; simpl; [set_solver|].
  rewrite IH, list_to_set_app_L. set_solver.
Qed.

Lemma snapshot_reads account (held : bool) :
  safe (account_snapshot account held) (λ snapshot,
    possible _ (if held then SnapshotAfterHeld account else ObserverSnapshot account) (Ok snapshot)).
Proof. unfold account_snapshot. destruct held; by read_steps. Qed.
Lemma account_page_reads held fx c : safe (account_page held fx c) (page_ok (is_some held) c).
Proof.
  unfold account_page, read_proof.
  apply safe_bind. eapply safe_weaken with (R := λ _, True). { read_steps; exact I. }
  intros clock _. read_steps.
  eapply safe_weaken; [apply snapshot_reads|]. intros snapshot Hsnapshot. read_steps.
  eapply safe_weaken; [apply safe_foldM; intros; apply position_reads|]. intros managed (ms & Hms & ->).
  rewrite union_algos. read_steps.
  eapply safe_weaken; [apply orders_reads|]. intros us Hus. read_steps.
  all: cbv beta in *; reflect_bools; repeat match goal with E : require _ _ = Ok _ |- _ => apply ok_or_ok in E; subst end.
  all: split; [done|]; do 4 eexists; split_and!; try eassumption; try (by apply String.eqb_eq); try apply listed_pending.
  all: intros id; rewrite <- !list_elem_of_In, <- !(elem_of_list_to_set (C:=gset string));
    match goal with E : list_to_set _ = _ |- _ => rewrite E end; set_solver.
Qed.

(** ** The census *)
Definition census_ok (held : bool) (s : CentralGovernanceSnapshot) (c : NativeRiskCensus) : Prop :=
  ∃ pages order content source floor generated,
    Forall2 (page_ok held) (real_cohort s) pages ∧ possible _ (CompletionOrder (List.length pages)) order
    ∧ c = census_of (deliver order pages) content source floor generated
    ∧ digest (map (λ '(_, _, proof, _), proof) (deliver order pages)) = Ok content
    ∧ evidence_fresh floor generated ACCOUNT_MAX_AGE_MS = true.
Lemma census_with_reads_reads s held fx :
  safe (census_with_reads s held fx) (λ c, census_ok (is_some held) s c.1).
Proof.
  unfold census_with_reads. read_steps.
  eapply safe_weaken; [apply safe_mapM; intros c _; apply account_page_reads|]. intros pages Hpages.
  read_steps. reflect_bools. by do 6 eexists.
Qed.
Lemma census_reads s : safe (census s) (census_ok false s).
Proof. unfold census. read_steps. eapply safe_weaken; [apply census_with_reads_reads|]. intros c Hc. by read_steps. Qed.
Lemma census_after_reads s held key account rate :
  safe (census_after_held s held key account rate) (λ v, census_ok true s v.1 ∧ causal_valid v.2 v.1 = true).
Proof.
  unfold census_after_held. read_steps. eapply safe_weaken; [apply census_with_reads_reads|].
  intros [c reads] Hc. read_steps. by reflect_bools.
Qed.

(** ** The fence: the authority allowed the post of this plan on a fresh census. *)
Definition fenced (s : CentralGovernanceSnapshot) (plan_hash : string) (v : RiskResult) : Prop :=
  ∃ command key sequence source c proof,
    commanded possible command v ∧ rr_status v = PostAuthorized
    ∧ rc_action command = RiskAuthority.BeginPost key plan_hash (rev_of s) sequence source c proof
    ∧ census_ok true s c ∧ causal_valid proof c = true.
Lemma fence_rounds_reads n s key sequence i until held fx :
  safe (fence_rounds n s key sequence i until held fx) (fenced s (si_plan_hash i)).
Proof.
  revert sequence. induction n as [|n IH]; intros sequence; cbn [fence_rounds]; [done|].
  read_steps. eapply safe_weaken; [apply census_after_reads|]. intros [c proof] [Hc Hp]. read_steps.
  - unfold status_is in *. reflect_bools. by do 6 eexists.
  - apply IH.
  - apply IH.
Qed.
Lemma fence_reads s held i until at_ fx :
  safe (fence_inspect_retry s held i until at_ fx) (fenced s (si_plan_hash i)).
Proof. unfold fence_inspect_retry. read_steps. apply fence_rounds_reads. Qed.

(** ** The other stages *)
Lemma harmless_off {X} (e : Eff D X) : harmless True e → allowed X e.
Proof. intros He. apply Hallowed. by destruct e. Qed.
Lemma reserve_inspect_reads s c i r : frees (rc_action c) = false → quietly (reserve_inspect_retry s c i r).
Proof. intros Hf. unfold reserve_inspect_retry. read_steps; exact I. Qed.
Lemma authority_reads r supplied :
  safe (authority r supplied) (λ v, control_of v.1 r = Some v.2 ∧ possible _ ReadGovernance (Some v.1)).
Proof.
  unfold authority. apply safe_bind. eapply safe_weaken with (R := λ _, True).
  - destruct supplied as [s|]; [|done]. unfold update_governance, apply_policy. read_steps; try exact I.
    eapply safe_weaken; [apply (safe_mapM _ _ _ (λ _ _, True)); intros; read_steps; exact I|].
    intros ? _. read_steps. exact I.
  - intros _ _. unfold apply_policy. read_steps.
    repeat match goal with E : require _ _ = Ok _ |- _ => apply ok_or_ok in E; subst end. done.
Qed.
Lemma plan_retried_reads rounds fuel n r c o until :
  safe (plan_retried rounds fuel n r c o until)
       (plan_post possible fuel r c (o_operation o) (o_strategy_instance o) (o_instrument o) (o_side o)
          (o_sizing o) (o_order o) (o_protection o)).
Proof.
  induction n as [|n IH]; cbn [plan_retried]; [done|]. read_steps.
  - eapply safe_allow; [intros X e; apply (harmless_off e)|].
    eapply safe_weaken; [by apply plan_safe|]. intros p Hp. apply safe_ret. exact Hp.
  - exact IH.
Qed.

(** The ledger has a receipt for the plan of the intent. *)
Definition receipted (r : AccountResources) (i : StoredIntent D) : Prop :=
  ∃ (receipt : CentralReceipt D) until,
    cr_account_key receipt = wire_of r ∧ cr_plan_hash receipt = si_plan_hash i
    ∧ possible _ (Call (wire_of r) until (reserve_job receipt)) (Ok tt).
Lemma receipt_kept r i (c : CentralReceipt D) until :
  cr_account_key c = wire_of r ∧ cr_plan_hash c = si_plan_hash i →
  safe (call (wire_of r) until (reserve_job c)) (λ _, receipted r i).
Proof. intros [Ha Hp]. read_steps. match goal with u : unit |- _ => destruct u end. by exists c, until. Qed.
Lemma local_receipt_reads r i v usd conversion :
  safe (local_receipt r i v usd conversion) (λ c, cr_account_key c = wire_of r ∧ cr_plan_hash c = si_plan_hash i).
Proof. unfold local_receipt. by read_steps. Qed.
Lemma unreserved_receipt_reads r o id i p revision :
  safe (unreserved_receipt r o id i p revision) (λ c, cr_account_key c = wire_of r ∧ cr_plan_hash c = si_plan_hash i).
Proof. unfold unreserved_receipt. by read_steps. Qed.
Lemma reserve_and_fence_reads r o s p prepared id short until :
  may_release (wire_of r) →
  safe (reserve_and_fence r o s p prepared id short until)
       (λ v, match v with
             | Ok v => fenced s (si_plan_hash prepared) v ∧ receipted r prepared
             | Err _ => True end).
Proof.
  intros Hrel. unfold reserve_and_fence. read_steps. eapply safe_weaken; [apply census_reads|]. intros c _. read_steps.
  eapply safe_weaken; [by apply reserve_inspect_reads|]. intros held _.
  destruct held as [held|[reason []]]; read_steps; try done.
  - eapply safe_weaken; [apply local_receipt_reads|]. intros receipt Hr. cbv beta. apply safe_bind.
    eapply safe_weaken; [by apply (receipt_kept r prepared)|]. intros ? Hk. read_steps; try done.
    + eapply safe_weaken; [apply fence_reads|]. intros v Hv. by apply safe_ret.
    + eapply safe_weaken; [by apply denied_reads|]. intros v _. by apply safe_ret.
  - eapply safe_weaken; [by apply denied_reads|]. intros v _. by apply safe_ret.
Qed.

(** ** The send *)
Definition permitted (r : AccountResources) (i : StoredIntent D) : Prop :=
  (∃ until, possible _ (CallBeginPost (wire_of r) until (si_intent_id i) (si_policy_revision i)) (Ok true))
  ∧ ∃ g, possible _ ReadGovernance (Some g) ∧ rev_of g = as_u64 (si_policy_revision i).
Lemma post_once_reads {X} r i until (send : M (Eff D) X) :
  ((∃ until, possible _ (CallBeginPost (wire_of r) until (si_intent_id i) (si_policy_revision i)) (Ok true)) →
   quietly send) →
  quietly (post_once r i until send).
Proof.
  intros Hsend. unfold post_once, begin_post_call, record. read_steps; try exact I.
  eapply safe_weaken; [apply Hsend|intros ? _; exact I].
  repeat match goal with E : map_err _ _ = Ok _ |- _ => apply map_err_ok in E; subst
                     | E : negb _ = false |- _ => apply negb_false_iff in E; subst end.
  by eexists.
Qed.
Lemma send_order_reads r i until venue timing :
  (∀ g, possible _ ReadGovernance (Some g) → rev_of g = as_u64 (si_policy_revision i) →
        allowed _ (PlaceOrder (wire_of r) venue timing)) →
  quietly (send_order r i until venue timing).
Proof.
  intros Hp. unfold send_order, ask. read_steps; try exact I.
  apply safe_perform; [|intros; by read_steps].
  match goal with E : match ?g with _ => _ end = false |- _ => destruct g as [g|]; [|done] end.
  reflect_bools. by eapply Hp.
Qed.
(** The market is still the one of the plan, and the request will expire at the exchange. *)
Definition flown (o : Order) (p : IntentPlan D) (timing : MutationTiming) : Prop :=
  (∃ t at_ market, possible _ (FreshSnapshot (o_instrument o) t QUOTE_MAX_AGE_MS at_) (Ok market)
    ∧ validate_generation (ip_source_generation p) (as_i64 (lms_generation market)) = Ok tt)
  ∧ ∃ clock left_ at_ issued, mutation_timing clock (Z.min left_ ACCOUNT_MAX_AGE_MS) at_ issued = Ok timing.
Lemma preflight_reads r o s p until : safe (preflight r o s p until) (flown o p).
Proof.
  unfold preflight. read_steps; try exact I.
  all: match goal with u : unit |- _ => destruct u end.
  all: match goal with E : map_err _ _ = Ok _ |- _ => apply map_err_ok in E end.
  all: split; [by do 3 eexists|by do 4 eexists].
Qed.

Lemma finally_safe {A} (body : M (Eff D) A) account (P : A → Prop) : safe body P → safe (finally body account) P.
Proof.
  unfold finally. induction body as [a|X e k IH]; simpl; [intros Ha; split; [by apply Hallowed|done]|].
  intros [He Hk]. split; [done|]. intros x Hx. by apply IH, Hk.
Qed.

(** ** The clearance of an order *)
Definition real_increase (r : AccountResources) (o : Order) : bool :=
  increases (o_operation o) && is_real (ak_environment (account_key r)).
(** Everything that has happened when [submit] sends [venue] *)
Record cleared (fuel : nat) (r : AccountResources) (o : Order) (body_hash account : string)
    (venue : PlaceOrderRequest) (timing : MutationTiming) : Prop := {
  cl_account : account = wire_of r;
  cl_order : ∃ s control (p : IntentPlan D) decision intent manual_budget (prepared : StoredIntent D) short stops until,
    possible _ ReadGovernance (Some s) ∧ control_of s r = Some control
    ∧ plan_post possible fuel r control (o_operation o) (o_strategy_instance o) (o_instrument o) (o_side o)
        (o_sizing o) (o_order o) (o_protection o) p
    ∧ first_bytes 32 body_hash = Ok short
    ∧ (ni_plan intent = p ∧ ni_request_hash intent = body_hash ∧ ni_client_order_id intent = short
       ∧ ni_idempotency_key intent = o_idempotency_key o ∧ ni_policy_revision intent = as_i64 (rev_of s)
       ∧ digest p = Ok (ni_plan_hash intent))
    ∧ possible _ (Call (wire_of r) until
                    (prepare_on_owner (wire_of r) (execution_uid r) (prepare_job decision intent manual_budget)))
                 (Ok prepared)
    ∧ receipted r prepared
    ∧ (real_increase r o = true → ∃ v, fenced s (si_plan_hash prepared) v)
    ∧ flown o p timing ∧ permitted r prepared
    ∧ attached short (ip_stop_price p) = Ok stops ∧ venue = venue_order o short p stops
    ∧ validate_place venue = Ok tt;
}.
Definition submit_allows (fuel : nat) (r : AccountResources) (o : Order) (body_hash : string) (X : Type)
    (e : Eff D X) : Prop :=
  match e with
  | PlaceOrder account venue timing => cleared fuel r o body_hash account venue timing
  | CancelOrder _ _ _ | CancelAlgo _ _ _ => False
  | Transport c => frees (rc_action c) = true → ∃ id, release_backed possible (wire_of r) id _ (Transport c)
  | _ => True
  end.
End reads.

Section submit.
Context {D : Type} `{DecimalLaws D} `{Hashing} `{!AgentText} `{!TradeSerialize D} `{JsonText} `{!Chrono}.
Variable possible : ∀ X : Type, Eff D X → X → Prop.
Context (fuel : nat) (r : AccountResources) (o : Order) (body_hash : string).
Notation allowed := (submit_allows possible fuel r o body_hash).
Notation quietly m := (safe possible allowed m (λ _, True)).

Lemma off_venue_allowed X (e : Eff D X) : off_venue e → allowed X e.
Proof. destruct e; simpl; try done; congruence. Qed.
Let Hallowed := off_venue_allowed.
Lemma releases_allowed : may_release possible allowed (wire_of r).
Proof. intros id X e He. destruct e; try (by destruct He); try exact I. intros _. by exists id. Qed.

Lemma post_prepared_safe s control (p : IntentPlan D) decision intent manual_budget prepared id short central until until' :
  possible _ ReadGovernance (Some s) → control_of s r = Some control →
  plan_post possible fuel r control (o_operation o) (o_strategy_instance o) (o_instrument o) (o_side o)
    (o_sizing o) (o_order o) (o_protection o) p →
  first_bytes 32 body_hash = Ok short →
  (ni_plan intent = p ∧ ni_request_hash intent = body_hash ∧ ni_client_order_id intent = short
   ∧ ni_idempotency_key intent = o_idempotency_key o ∧ ni_policy_revision intent = as_i64 (rev_of s)
   ∧ digest p = Ok (ni_plan_hash intent)) →
  possible _ (Call (wire_of r) until'
                (prepare_on_owner (wire_of r) (execution_uid r) (prepare_job decision intent manual_budget)))
             (Ok prepared) →
  receipted possible r prepared →
  (real_increase r o = true → ∃ v, fenced possible s (si_plan_hash prepared) v) →
  quietly (post_prepared r o s p prepared id short central until).
Proof.
  intros Hs Hcontrol Hp Hshort Hintent Hprepared Hreceipt Hfence. unfold post_prepared.
  apply safe_bind. eapply safe_weaken; [by apply preflight_reads|]. intros timing Htiming.
  unfold admit_place_order. read_steps.
  eapply safe_weaken; [apply post_once_reads; [done|]|intros ? _; by read_steps].
  intros Hpost. apply send_order_reads; [done|]. intros g Hg Hrev.
  match goal with E : map_err _ (validate_place _) = Ok ?u |- _ => apply map_err_ok in E; destruct u end.
  destruct Hintent as (? & ? & ? & ? & ? & ?).
  split; [done|]. exists s, control, p, decision, intent, manual_budget, prepared, short.
  do 2 eexists. split_and!; try done; try eassumption. split; [done|by exists g].
Qed.

Lemma intent_reads short (p : IntentPlan D) revision until :
  safe possible allowed (intent_of o body_hash short p revision until) (λ intent,
    ni_plan intent = p ∧ ni_request_hash intent = body_hash ∧ ni_client_order_id intent = short
    ∧ ni_idempotency_key intent = o_idempotency_key o ∧ ni_policy_revision intent = revision
    ∧ digest p = Ok (ni_plan_hash intent)).
Proof. unfold intent_of. by read_steps. Qed.
Lemma decision_reads build claimed short (p : IntentPlan D) revision :
  quietly (decision_of build o claimed body_hash short p revision).
Proof. unfold decision_of. read_steps; exact I. Qed.

Lemma submit_held_safe rounds tries build request supplied bound expected claimed until :
  (∀ own, digest (wire_of r, request) = Ok own → default own bound = body_hash) →
  quietly (submit_held rounds fuel tries build r request o supplied bound expected claimed until).
Proof.
  intros Hbody. unfold submit_held. read_steps; try exact I.
  rewrite (Hbody _ ltac:(eassumption)) in *.
  eapply safe_weaken; [by apply authority_reads|]. intros [s control] [Hcontrol Hs]; simpl in Hcontrol, Hs.
  read_steps. eapply safe_weaken; [by apply plan_retried_reads|]. intros p Hp. read_steps.
  eapply safe_weaken; [apply decision_reads|]. intros decision _. read_steps.
  eapply safe_weaken; [apply intent_reads|]. intros intent Hintent. read_steps.
  - eapply safe_weaken; [apply reserve_and_fence_reads; [exact Hallowed|apply releases_allowed]|]. intros [v|v] Hv; [|by apply safe_ret].
    destruct Hv as [Hfence Hreceipt]. eapply post_prepared_safe; try eassumption; [exact Hintent|by exists v].
  - eapply safe_weaken; [by apply unreserved_receipt_reads|]. intros receipt Hr. cbv beta. apply safe_bind.
    eapply safe_weaken; [eapply receipt_kept; [exact Hallowed|exact Hr]|]. intros ? Hreceipt.
    eapply post_prepared_safe; try eassumption; [exact Hintent|]. unfold real_increase. by rewrite Heqb1.
Qed.
Lemma submit_safe rounds tries build request supplied bound expected claimed :
  order_of request = Some o →
  (∀ own, digest (wire_of r, request) = Ok own → default own bound = body_hash) →
  quietly (submit rounds fuel tries build r request supplied bound expected claimed).
Proof.
  intros Ho Hbody. unfold submit. apply safe_bind, safe_lift. intros o' Ho'.
  apply ok_or_ok in Ho'. assert (o' = o) as -> by congruence. read_steps.
  apply finally_safe; [exact Hallowed|]. apply submit_held_safe; exact Hbody.
Qed.
End submit.

(** ** How often it is sent *)
Definition sends {D} (X : Type) (e : Eff D X) : bool :=
  match e with PlaceOrder _ _ _ | CancelOrder _ _ _ | CancelAlgo _ _ _ => true | _ => false end.
Section once.
Context {D : Type} `{DecimalLaws D} `{Hashing} `{!AgentText} `{!TradeSerialize D} `{JsonText} `{!Chrono}.
Notation any := (λ _ _ _, True).
Notation unsent := (λ X e, sends X e = false).
Lemma off_venue_unsent X (e : Eff D X) : off_venue e → unsent X e.
Proof. by destruct e. Qed.
Lemma release_unsent_free account : may_release (D:=D) any unsent account.
Proof. intros id X e. by destruct e. Qed.
Let Hallowed := off_venue_unsent.
Lemma unsent_bind n {A B} (m : M (Eff D) A) (k : A → M (Eff D) B) :
  safe any unsent m (λ _, True) → (∀ a, at_most sends n (k a)) → at_most sends n (m ≫= k).
Proof. intros Hm. apply at_most_bind. by eapply safe_at_most. Qed.
Lemma unsent_last n {A} (m : M (Eff D) A) : safe any unsent m (λ _, True) → at_most sends n m.
Proof. intros Hm. apply (at_most_weaken _ 0); [apply Nat.le_0_l|]. by eapply safe_at_most. Qed.
End once.
Ltac unsent_step :=
  lazymatch goal with
  | |- at_most _ _ (mbind _ _) => eapply unsent_bind; [solve [read_steps; exact I]|intros ?]
  | |- at_most _ _ (if ?b then _ else _) => destruct b
  | |- at_most _ _ (match ?x with _ => _ end) => destruct x
  | |- at_most _ _ (mret _) => exact I
  | |- at_most _ _ (fail _) => exact I
  | |- at_most _ _ (lift _) => exact I
  end.
Ltac unsent_steps := repeat (cbv beta zeta; unsent_step).
Local Ltac quietly reads := eapply safe_weaken; [eapply reads; first [eassumption|apply off_venue_unsent|apply release_unsent_free]|done].
Section posting.
Context {D : Type} `{DecimalLaws D} `{Hashing} `{!AgentText} `{!TradeSerialize D} `{JsonText} `{!Chrono}.
Context (rounds fuel tries : nat) (build : string).
Let Hallowed := @off_venue_unsent D.

Lemma send_order_once r (i : StoredIntent D) until venue timing : at_most sends 1 (send_order r i until venue timing).
Proof.
  unfold send_order. unsent_steps. by simpl. Qed.
Lemma post_once_once {X} r (i : StoredIntent D) until (send : M (Eff D) X) :
  at_most sends 1 send → at_most sends 1 (post_once r i until send).
Proof.
  intros Hs. unfold post_once, begin_post_call, record. unsent_steps.
  apply at_most_bind_last; [by apply at_most_attempt|]. intros [v|e]; unsent_steps.
Qed.
Lemma post_prepared_once r o s p prepared id short central until :
  at_most sends 1 (post_prepared r o s p prepared id short central until).
Proof.
  unfold post_prepared, admit_place_order.
  eapply unsent_bind; [eapply safe_weaken; [by apply preflight_reads|done]|]. intros timing. unsent_steps.
  apply at_most_bind_last; [apply post_once_once, send_order_once|done].
Qed.
Lemma submit_held_once r request o supplied bound expected claimed until :
  at_most sends 1 (submit_held rounds fuel tries build r request o supplied bound expected claimed until).
Proof.
  unfold submit_held. unsent_steps.
  eapply unsent_bind; [quietly authority_reads|intros [s c]].
  eapply unsent_bind; [quietly plan_retried_reads|intros p]. unsent_steps.
  eapply unsent_bind; [unfold decision_of; read_steps; exact I|intros d].
  eapply unsent_bind; [unfold intent_of; read_steps; exact I|intros n]. unsent_steps.
  - eapply unsent_bind; [quietly reserve_and_fence_reads|]. intros [v|v]; [apply post_prepared_once|done].
  - eapply unsent_bind; [quietly unreserved_receipt_reads|]. intros receipt. unsent_steps. apply post_prepared_once.
Qed.
Lemma finally_once {A} n (body : M (Eff D) A) account : at_most sends n body → at_most sends n (finally body account).
Proof. intros Hb. by apply at_most_after. Qed.
Lemma submit_once r request supplied bound expected claimed :
  at_most sends 1 (submit rounds fuel tries build r request supplied bound expected claimed).
Proof. unfold submit. unsent_steps. apply finally_once, submit_held_once. Qed.
End posting.

(** ** Theorems *)
Section theorems.
Context {D : Type} `{DecimalLaws D} `{Hashing} `{!AgentText} `{!TradeSerialize D} `{JsonText} `{!Chrono}.
Implicit Types h : list (event (Eff D)).
(** The hash an intent is identified by *)
Definition body_hash_of (r : AccountResources) (request : TradeRequest) (bound_hash : option string) : string :=
  default (match digest (wire_of r, request) with Ok own => own | Err _ => "" end) bound_hash.

(** C2: An order reaches the exchange only after everything that makes it safe, whatever the
    exchange, the database, the clocks and the authority answered before.  The order is the
    one of a plan that passed the account's policy; the ledger prepared its intent under the
    same request hash and holds a receipt for its plan; when it adds risk on a real account
    the authority allowed the post of this very plan on a complete census taken after the
    reservation; the market is still the plan's, the ledger gave the permission to post and
    the policy revision is the intent's; and it is valid.  Nothing else is ever sent. *)
Theorem placed_order_cleared possible rounds fuel tries build r request o supplied bound expected claimed
    h X (e : Eff D X) k :
  order_of request = Some o →
  exec possible [] (submit rounds fuel tries build r request supplied bound expected claimed) h (Do e k) →
  submit_allows (seen h) fuel r o (body_hash_of r request bound) X e.
Proof.
  intros Ho Hx. apply exec_observed in Hx.
  apply (safe_exec _ (submit_allows (seen h) fuel r o (body_hash_of r request bound)) _ _ (λ _, True) _ _ _
           (submit_safe (seen h) fuel r o (body_hash_of r request bound) rounds tries build request supplied
              bound expected claimed Ho
              ltac:(intros own Ed; unfold body_hash_of; by rewrite Ed))) in Hx.
  exact Hx.
Qed.

(** C5: A census that comes back complete covers what it counts.  For every real account of
    the policy there is a page: the account resolves, its snapshot is the one of its verified
    user, every open position equals the lots of the ledger on its side, each lot is protected
    for at least its quantity and holds a central reservation, every pending order is one of
    the ledger, and the conditional orders the inventory lists are exactly those protections.
    It lists the first eight: when the answers of the exchange had no more than eight, these
    are all the conditional orders pending in them; a ninth is not looked at. *)
Theorem census_covers_exposure possible s h c :
  exec possible [] (census (D:=D) s) h (Ret (Ok c)) → census_ok (seen h) false s c.
Proof.
  intros Hx. apply exec_observed in Hx. eapply safe_result in Hx; [exact Hx|].
  apply (census_reads (seen h) (λ _ _, True)). done.
Qed.
End theorems.

Section witnesses.
(** ** Concrete runs: a real account that opens a position *)
Definition sixty_four : string := "abcdefabcdefabcdefabcdefabcdefababcdefabcdefabcdefabcdefabcdefab".
Definition real_hashing : Hashing := {| SerdeError := unit; sha256_hex := λ _, sixty_four |}.
Definition real_serialize {T} : @Serialize real_hashing T := λ _, Ok "x".
#[local] Existing Instance real_hashing.
#[local] Existing Instance real_serialize.
#[local] Existing Instance demo_json.
Definition real_text : AgentText :=
  {| serde_text _ := "serde"; sql_text _ := "sql"; rfc3339_timestamp _ := Ok 1000;
     okx_text _ := "okx"; clock_text _ := "clock" |}.
#[local] Existing Instance real_text.
Definition real_trade : TradeSerialize Fixed.t := ltac:(split; exact real_serialize).
#[local] Existing Instance real_trade.
Definition real_key : string := "okx:real:" +:+ sixty_four.
Definition real_resources : AccountResources := {|
  account_key := {| ak_venue := "okx"; ak_environment := Real; ak_verified_uid := sixty_four |};
  execution_uid := sixty_four |}.
Definition real_control : AccountControl := {|
  act_id := "main"; act_label := "Main"; act_venue := "okx"; act_environment := Real;
  act_uid_fingerprint := sixty_four; act_identity_verified := true; act_enabled := true;
  act_explicit_pause := false; act_policy_revision := 1; act_account_key := real_key;
  act_limits := {|
    al_max_modelled_loss_usdt := "100"; al_max_order_loss_usdt := "12.5";
    al_max_notional_usdt := Some "1000"; al_max_entry_usd := Some "1000"; al_max_leverage := Some "3";
    al_max_daily_realized_loss_usdt := Some "50"; al_max_drawdown_ratio := Some "0.2";
    al_allowed_instruments := ["BTC-USDT-SWAP"] |};
  act_strategies := [] |}.
Definition real_governance : CentralGovernanceSnapshot := {|
  cgs_state := {|
    gov_schema := "okx.governance/v3"; gov_revision := 1; gov_installation_id := "installation";
    gov_campaign_id := "c"; gov_campaign_loss_limit_usd := "10";
    gov_max_total_modelled_loss_usdt := "300"; gov_accounts := [real_control] |};
  cgs_issued_at_ms := 1; cgs_session_generation := 1; cgs_delivery_challenge := None |}.
Definition real_account_snapshot : AccountSnapshot := {|
  acs_schema := "a"; acs_source := "rest"; acs_source_received_at := "t"; acs_account_generation := "g";
  acs_quality_reason := "ok"; acs_private_ws_connected := true; acs_private_ws_generation := Some 1;
  acs_private_ws_connection_fingerprint := None; acs_private_ws_last_inbound_ms := None;
  acs_private_ws_events_applied := None; acs_account_level := "2";
  acs_position_mode := "long_short_mode"; acs_account_type := "0"; acs_account_uid_fingerprint := sixty_four;
  acs_api_key_permissions := ["read"; "trade"];
  acs_balance := acs_balance demo_snapshot;
  acs_positions := [demo_position]; acs_pending_orders := [] |}.
Definition real_lot : StoredLot Fixed.t := {|
  lot_id := "l1"; lot_instance_id := Some "manual"; lot_intent_id := Some "i0"; lot_fill_id := None;
  lot_instrument_id := "BTC-USDT-SWAP"; lot_side := "long"; lot_remaining_qty := num "3";
  lot_cost := num "200"; lot_opened_at := 10 |}.
Definition real_view : View Fixed.t := {|
  financial_risk := financial_risk demo_view;
  active_lots _ := Ok [real_lot];
  protection _ := Ok (Some {| pr_intent_id := "i0"; pr_algo_id := "a1"; pr_side := "long";
                              pr_quantity := num "3"; pr_trigger_price := num "90"; pr_trigger_basis := "mark";
                              pr_verified_at := 10; pr_source_digest := "d" |});
  verify_protection _ := Ok tt;
  cursor _ _ := Ok None |}.
Definition real_store : Store := {|
  db := {|
    meta := {| meta_initialize_operation_id := "op"; meta_release_id := "r"; meta_account_key := real_key;
               meta_installation_id := "installation"; meta_initialized_at := 1; meta_opening_source := "src" |};
    intents := ∅; intent_plans := ∅; decisions := [];
    risk_receipts := {["r0" := {|
      r_intent_id := "i0"; r_account_key := real_key; r_installation_id := "installation";
      r_instance_id := Some "manual"; r_plan_hash := sixty_four; r_policy_revision := 1;
      r_receipt_hash := sixty_four; r_requested_loss_usd := "1"; r_conversion_digest := sixty_four;
      r_state := "OPEN" |}]};
    operation_receipts := ∅; account_policy := account_policy demo_db; risk_stops := ∅;
    strategy_instances := strategy_instances demo_db; definition_versions := definition_versions demo_db;
    storage_recovery := storage_recovery demo_db; orders := ∅ |};
  allocations := ∅; nav_scopes := ∅ |}.
Definition real_result (c : RiskCommand) (status : RiskDecisionStatus) (key : string)
    (state : option RiskReservationState) : RiskResult := {|
  rr_schema := RISK_RESULT_SCHEMA_V1; rr_command_id := rc_command_id c; rr_status := status; rr_reason := None;
  rr_reservation_key := Some key; rr_risk_book_sequence := Some 1; rr_policy_revision := Some 1;
  rr_existing_modelled_loss_usdt := match status with PostAuthorized => Some "0" | _ => None end;
  rr_reservation_state := state; rr_budget := None; rr_account_budget := None |}.
(** The authority holds every reservation and allows every post. *)
Definition real_authority (c : RiskCommand) : result string RiskResult :=
  match rc_action c with
  | RiskAuthority.Reserve _ _ _ _ _ _ _ _ _ _ _ _ => Ok (real_result c StatusHeld "r1" None)
  | RiskAuthority.BeginPost key _ _ _ _ _ _ => Ok (real_result c PostAuthorized key None)
  | Inspect key _ => Ok (real_result c RiskAuthority.Observed key (Some Held))
  | _ => Err "unavailable"
  end.
Definition real_answer (X : Type) (e : Eff Fixed.t X) : Store → Store * X :=
  match e in Eff _ X return Store → Store * X with
  | Call _ _ j => λ s, run_job (λ _, (1000, real_view)) j s
  | ReadGovernance | LockGovernance => λ s, (s, Some real_governance)
  | Resolve _ => λ s, (s, Some real_resources)
  | ObserverSnapshot _ | SnapshotAfterHeld _ | CaptureSources _ => λ s, (s, Ok real_account_snapshot)
  | PendingRiskAlgos _ => λ s, (s, Ok {|
      pri_scopes_checked := 4; pri_rows := 1; pri_complete_within_bound := true; pri_received_at_ms := 1000;
      pri_samples := [{| pas_instrument_id := "BTC-USDT-SWAP"; pas_algo_order_id := "a1"; pas_client_order_id := "";
                         pas_order_type := "conditional"; pas_state := "live" |}] |})
  | InstallationId => λ s, (s, "installation")
  | ProcessIncarnation => λ s, (s, Ok "abcdefabcdefabcdefabcdefabcdefab")
  | Transport c => λ s, (s, real_authority c)
  | e => demo_answer _ e
  end.
Definition open_request : TradeRequest :=
  Execute "open-order-1" Protocol.Open "manual" "BTC-USDT-SWAP" Long (Contracts "2")
    {| oc_order_type := "fok"; oc_limit_price := None; oc_reference := None; oc_max_entry_usd := Some "500";
       oc_max_slippage_bps := 10 |} (Some (Price "98.05")) 5000.
#[local] Instance demo_chrono : Chrono := λ _, Some "t".
Definition real_submit : M (Eff Fixed.t) (Outcome (D:=Fixed.t)) :=
  submit 3 10 3 "build" real_resources open_request None None None None.

Definition answers (f : ∀ X, Eff Fixed.t X → Store → Store * X) : ∀ X, Eff Fixed.t X → X → Prop :=
  λ X e x, ∃ w, x = (f X e w).2.
Definition at_order (X : Type) (e : Eff Fixed.t X) : bool := sends X e.
Definition at_release (X : Type) (e : Eff Fixed.t X) : bool :=
  match e with Transport c => is_some (releases (rc_action c)) | _ => false end.
Definition stopped {A} (stop : ∀ X, Eff Fixed.t X → bool) (m : prog (Eff Fixed.t) A) : bool :=
  match m with Ret _ => false | @Do _ _ X e _ => stop X e end.

(** The account opens a position: the run stands before its order, and it was fenced. *)
Lemma placed_order_cleared_witness :
  ∃ h X (e : Eff Fixed.t X) k o, order_of open_request = Some o
    ∧ exec (answers real_answer) [] real_submit h (Do e k) ∧ sends X e = true
    ∧ submit_allows (seen h) 10 real_resources o sixty_four X e ∧ real_increase real_resources o = true.
Proof.
  destruct (before real_answer at_order real_store [] real_submit) as [h m] eqn:Eb.
  assert (Hs : stopped at_order (before real_answer at_order real_store [] real_submit).2 = true)
    by (vm_compute; reflexivity).
  rewrite Eb in Hs. apply exec_before in Eb. destruct m as [|X e k]; [discriminate Hs|].
  destruct (order_of open_request) as [o|] eqn:Eo; [|discriminate].
  exists h, X, e, k, o. split; [reflexivity|]. split; [exact Eb|]. split; [exact Hs|]. split.
  - exact (placed_order_cleared _ _ _ _ _ _ _ _ _ _ _ _ h X e k Eo Eb).
  - injection Eo as <-. reflexivity.
Defined.

Definition real_census : M (Eff Fixed.t) NativeRiskCensus := census real_governance.
Lemma census_covers_exposure_witness :
  ∃ h c, exec (answers real_answer) [] real_census h (Ret (Ok c)) ∧ real_cohort real_governance = [real_control]
    ∧ census_ok (D:=Fixed.t) (seen h) false real_governance c.
Proof.
  pose proof (exec_answers real_answer real_store [] real_census) as Hx.
  destruct (outcome real_answer real_store real_census).2 as [c|] eqn:Ec.
  - eexists _, c. split; [exact Hx|]. split; [reflexivity|]. exact (census_covers_exposure _ _ _ _ Hx).
  - assert (Hok : is_ok (outcome real_answer real_store real_census).2 = true) by (vm_compute; reflexivity).
    rewrite Ec in Hok. discriminate.
Defined.

(** The authority denies the post: the intent is rejected unsent and its capacity released. *)
Definition denying_answer (X : Type) (e : Eff Fixed.t X) : Store → Store * X :=
  match e in Eff _ X return Store → Store * X with
  | Transport c => λ s, (s,
      match rc_action c with
      | RiskAuthority.BeginPost _ _ _ _ _ _ _ => Ok (real_result c Denied "r1" None)
      | ReleaseUnsent key _ _ _ => Ok (real_result c Updated key None)
      | _ => real_authority c
      end)
  | e => real_answer _ e
  end.
Definition denied_store : Store := (outcome denying_answer real_store real_submit).1.
Definition denied_intent : StoreResult (option (StoredIntent Fixed.t)) :=
  Intents.intent (db denied_store) ("intent_" +:+ substring 0 32 sixty_four).

(** A reason of more than 128 bytes, here the text of a failed read: the intent is rejected
    unsent, but the command that would give its capacity back is not one the authority takes. *)
Definition long_reason : string := sixty_four +:+ sixty_four +:+ "!".
Definition failing_answer (X : Type) (e : Eff Fixed.t X) : Store → Store * X :=
  match e in Eff _ X return Store → Store * X with
  | SnapshotAfterHeld _ => λ s, (s, Err long_reason)
  | e => real_answer _ e
  end.
(** An order that fails between its reservation and its post with a text of more than 128
    bytes keeps its capacity at the authority: the command of the release is not valid. *)
Example long_reason_kept :
  ∃ fields, (outcome failing_answer real_store real_submit).2 = Ok (Answered (JObj fields))
    ∧ In ("data", JObj (rejected "LOCAL" long_reason "PENDING" ("intent_" +:+ substring 0 32 sixty_four)
                          (Some "trade.status")
                        ++ [("risk_release_error", JText "INVALID_RISK_COMMAND")])) fields.
Proof. eexists. split; [vm_compute; reflexivity|]. right. right. left. reflexivity. Qed.
End witnesses.
