(* ===== verification/TradeReconcile.v ===== *)
(** * TradeReconcile: an order after it was sent, [trade_service/reconcile.rs]

    [status_intent] reads an order back from the exchange, records what it finds, checks the
    protection of what was filled, captures the account's money and gives capacity back.
    When the protection is missing it leaves the position by [emergency_exit], which sends a
    [close], which is an execution, which ends in a status: the knot is tied by a depth.
    [cancel] and [replace] are the other two commands on an order. *)
From stdpp Require Import base option list numbers strings gmap.
From Stdlib Require Import ZArith Lia Ascii String.
From S2P Require Import Prelude Text Ordered External Clock Decimals EntryBudget Protocol RiskAuthority Ledger Intents Instances Programs RateBudget Reference Market Stream Account TradeApi TradeService TradePlan TradeCensus TradeExecute.
Local Open Scope string_scope.
Local Open Scope list_scope.
Local Open Scope Z_scope.

Section reconcile.
Context {D : Type} `{DecimalArith D} `{Hashing} `{!AgentText} `{!TradeSerialize D} `{JsonText} `{!Chrono}.
Context (rounds fuel tries : nat) (build_release : string).
Notation T := (M (Eff D)).

(** ** Pieces *)
Definition or_else {A} (a b : option A) : option A := match a with Some _ => a | None => b end.
Definition find_job (reference : string) : job D (option (StoredIntent D)) :=
  a ← query (λ d, intent (D:=D) d reference);
  b ← query (λ d, by_client_order_id (D:=D) d reference);
  c ← query (λ d, by_exchange_order_id (D:=D) d reference);
  e ← query (λ d, by_idempotency (D:=D) d reference);
  mret (or_else (or_else (or_else a b) c) e).
Definition find_intent (r : AccountResources) (reference : string) : T (StoredIntent D) :=
  i ← call_soon (wire_of r) (find_job reference); lift (require "INTENT_NOT_FOUND" i).
Definition opt_text (o : option string) : Json D := match o with Some t => JText t | None => JNull end.
Definition is_ok_and {E A} (f : A → bool) (v : result E A) : bool := match v with Ok a => f a | Err _ => false end.
Definition ok_of {E A} (v : result E A) : option A := match v with Ok a => Some a | Err _ => None end.
(** [Option<Decimal> == Option<Decimal>] *)
Definition opt_dec_eqb (a b : option D) : bool :=
  match a, b with Some a, Some b => dec_eqb a b | None, None => true | _, _ => false end.
Definition set_top (key : string) (v result : Json D) : Json D :=
  match result with JObj fields => JObj (set_field key v fields) | _ => result end.
(** The permit of the account for the time of [body] *)
Definition with_permit {A} (r : AccountResources) (body : T A) : T A :=
  acquired ← perform (TryAcquire (wire_of r));
  if negb acquired then fail "ACCOUNT_MUTATION_BUSY" else finally body (wire_of r).
Definition send_timing (r : AccountResources) : T MutationTiming :=
  clock ← ask (ClockSample (wire_of r));
  at_ ← tick;
  issued ← tick;
  lift (map_err (λ e, Error (clock_text e)) (mutation_timing clock ACCOUNT_MAX_AGE_MS at_ issued)).
Definition begin_op (r : AccountResources) (key hash kind : string) : T bool :=
  call_soon (wire_of r) (write (λ now d, begin_operation d key hash kind now)).
Definition end_op (r : AccountResources) (key hash kind outcome : string) : T unit :=
  _ ← call_soon (wire_of r) (write (λ now d, operation_receipt d key hash kind outcome now)); mret tt.

(** The order as the exchange has it; every failure to read it is one. *)
Definition order_readback (r : AccountResources) (i : StoredIntent D) : T TradeOrderDetails :=
  rows ← ask (OrderRows (wire_of r) (si_instrument_id i) (si_client_order_id i));
  lift (map_err (λ e, Error (okx_text e)) (order_by_client_id (si_instrument_id i) (si_client_order_id i) rows)).
Definition algo_readback (r : AccountResources) (client : string) : T TradeAlgoOrderDetails :=
  rows ← ask (AlgoRows (wire_of r) client);
  lift (map_err (λ e, Error (okx_text e)) (algo_order_by_client_id client rows)).
Definition has_position (i : StoredIntent D) (snapshot : AccountSnapshot) : bool :=
  existsb (λ p, (aps_instrument_id p =? si_instrument_id i)%string
                && (aps_position_side p =? ip_position_side (si_plan i))%string
                && is_ok_and (λ q, negb (dec_eqb q (dec_zero (D:=D)))) (dec (aps_position p)))
          (acs_positions snapshot).
Definition lists_algo (inventory : PendingDerivativeAlgoRiskInventory) (algo_id : string) : bool :=
  existsb (λ a, (pas_algo_order_id a =? algo_id)%string) (pri_samples inventory).

(** ** Cancels *)
Definition cancel_of (i : StoredIntent D) : CancelOrderRequest :=
  {| cor_instrument_id := si_instrument_id i; cor_client_order_id := si_client_order_id i |}.
Definition admit_cancel_order (r : AccountResources) (c : CancelOrderRequest) : T unit :=
  _ ← lift (map_err (λ e, Error (okx_text e)) (validate_cancel c));
  ask (AdmitRequest (wire_of r) RateBudget.CancelOrder (cor_instrument_id c)).
Definition admit_cancel_algo_order (r : AccountResources) (c : CancelAlgoOrderRequest) : T unit :=
  _ ← lift (map_err (λ e, Error (okx_text e)) (validate_cancel_algo c));
  _ ← lift (if 64 <? len (car_algo_order_id c) then Err (Error "algoId must be a numeric exchange order ID") else Ok tt);
  ask (AdmitRequest (wire_of r) PrivateRestRead (car_instrument_id c)).
Definition cancel_accepted (v : TradeResponse OrderOperationAck) : bool :=
  match tr_data v with [ack] => top_level_success v && accepted ack | _ => false end.

(** ** [cleanup_flat_protection]: the stop of a position that is gone *)
Definition cleanup_held (r : AccountResources) (i : StoredIntent D) : T unit :=
  saved ← call_soon (wire_of r) (finance (λ _ v, protection v (si_intent_id i)));
  match saved with
  | None => mret tt
  | Some saved =>
    inventory ← ask (PendingRiskAlgos (wire_of r));
    if negb (pri_complete_within_bound inventory) then fail "ALGO_INVENTORY_INCOMPLETE" else
    if negb (lists_algo inventory (pr_algo_id saved)) then mret tt else
    snapshot ← ask (ObserverSnapshot (wire_of r));
    if has_position i snapshot then fail "PROTECTION_STILL_REQUIRED" else
    let key := "cleanup_" +:+ si_client_order_id i in
    hash ← lift (digest (si_intent_id i, pr_algo_id saved, "flat_protection_cleanup"));
    fresh ← begin_op r key hash "protection_cleanup";
    if negb fresh then fail "PROTECTION_CANCEL_OUTCOME_UNKNOWN_INSPECT" else
    let request := {| car_instrument_id := si_instrument_id i; car_algo_order_id := pr_algo_id saved |} in
    timing ← send_timing r;
    _ ← admit_cancel_algo_order r request;
    response ← attempt (ask (CancelAlgo (wire_of r) request timing));
    response ← lift (match response with Ok v => Ok v | Err _ => Err (Error "PROTECTION_CANCEL_OUTCOME_UNKNOWN") end);
    if negb (match tr_data response with
             | [ack] => top_level_success response && (caa_status_code ack =? "0")%string
                        && (caa_algo_order_id ack =? pr_algo_id saved)%string
             | _ => false end)
    then fail "PROTECTION_CANCEL_NOT_CONFIRMED" else
    verified ← ask (PendingRiskAlgos (wire_of r));
    if negb (pri_complete_within_bound verified) || lists_algo verified (pr_algo_id saved)
    then fail "PROTECTION_CANCEL_READBACK_PENDING" else
    end_op r key hash "protection_cleanup" "VERIFIED_CANCELED"
  end.
Definition cleanup_flat_protection (r : AccountResources) (i : StoredIntent D) : T unit :=
  with_permit r (cleanup_held r i).

(** ** [release_terminal]: capacity of an order that is over *)
Definition remaining_lots (i : StoredIntent D) (lots : list (StoredLot D)) : list (StoredLot D) :=
  List.filter (owned_by (si_intent_id i)) lots.
(** The pages of a source reach past the last change of the order. *)
Definition covers (c : SourceCursor) (order : option TradeOrderDetails) : bool :=
  (cur_coverage_gaps c =? "")%string
  && negb (is_some_and (λ o, is_some_and (λ t, cur_watermark c <? t) (parse_i64 (tod_update_time_ms o))) order).
Definition bills_job : job D (SourceCursor * D) :=
  through ← finance (λ _ v, c ← cursor v "bills" "account"; ok_or (Invalid "BILLS_COVERAGE_MISSING") c);
  p ← query (policy (D:=D));
  mret (through, p.2).
Definition terminal_text (s : IntentState) : string :=
  match s with Ledger.Rejected => "REJECTED" | Cancelled => "CANCELED" | _ => "FILLED" end.
Definition terminal_proof (r : AccountResources) (i : StoredIntent D) (loss : D) (record_digest : string)
    : TerminalRiskLedgerProof := {|
  tlp_account_uid := ak_verified_uid (account_key r); tlp_run_id := "continuous_engine";
  tlp_intent_id := si_intent_id i; tlp_state := terminal_text (si_state i);
  tlp_record_digest := record_digest; tlp_cumulative_loss_usd := exact loss;
  tlp_remaining_exposure_usdt := "0" |}.
Definition release_terminal (r : AccountResources) (i : StoredIntent D) (order : option TradeOrderDetails) : T unit :=
  if negb (is_real (ak_environment (account_key r))) then mret tt else
  governance ← perform ReadGovernance;
  s ← lift (require "AUTHORITY_UNAVAILABLE" governance);
  receipt ← call_soon (wire_of r) (query (λ d, central_receipt (D:=D) d (si_intent_id i)));
  match receipt with
  | None => mret tt
  | Some receipt =>
    if String.prefix "local:" (cr_reservation_key receipt) then mret tt else
    lots ← call_soon (wire_of r) (finance (λ _ v, active_lots v (si_instrument_id i)));
    if existsb (λ l, dec_ltb dec_zero (lot_remaining_qty l)) (remaining_lots i lots)
    then fail "INTENT_EXPOSURE_REMAINS" else
    let partition := if str_ends "-SWAP" (si_instrument_id i) then "SWAP" else "FUTURES" in
    fills ← call_soon (wire_of r) (finance (λ _ v, cursor v "fills" partition));
    fills ← lift (require "FILL_COVERAGE_MISSING" fills);
    if negb (covers fills order) then fail "FILL_COVERAGE_INCOMPLETE" else
    let key := cr_reservation_key receipt in
    observed ← request (risk_command s ("inspect_" +:+ si_client_order_id i) (Inspect key (si_plan_hash i)));
    if bool_decide (rr_reservation_state observed = Some Released) then acknowledge_release r key observed else
    c ← census s;
    '(through, loss) ← call_soon (wire_of r) bills_job;
    if negb (covers through order) then fail "FINANCIAL_COVERAGE_INCOMPLETE" else
    record_digest ← lift (digest (i, order, loss, through));
    let proof := terminal_proof r i loss record_digest in
    sequence ← lift (require "RISK_SEQUENCE_MISSING" (rr_risk_book_sequence observed));
    source ← lift (digest proof);
    result ← request (risk_command s ("release_" +:+ si_client_order_id i)
               (RiskAuthority.Resolve key (si_plan_hash i) sequence ResolveReleased source (Some c) (Some proof)));
    if negb (status_is result Updated) then fail (default "CENTRAL_RELEASE_DENIED" (rr_reason result)) else
    acknowledge_release r key result
  end.

(** ** [status_intent], up to the exit of an unprotected position *)
Definition central_release (state : string) (more : list (string * Json D)) : Json D :=
  JObj (("state", JText state) :: more).
(** [Ok(())] as verified, an error as pending *)
Definition release_answer (verified : list (string * Json D)) (v : result string unit) : Json D :=
  match v with
  | Ok _ => central_release "verified" verified
  | Err reason => central_release "pending"
      [("reason_code", JText reason); ("scope", JText "intent"); ("next_action", JText "trade.status")]
  end.
(** An order of which the ledger proves that it was not sent is answered without the exchange. *)
Definition unsent_answer (r : AccountResources) (i : StoredIntent D) : T (option (Json D)) :=
  let id := si_intent_id i in
  declined ← call_soon (wire_of r) (query (λ d, Ok (declined_reserve d id)));
  if (declined : bool) then
    v ← completed (JObj [("intent", JIntent i); ("send_state", JText "NOT_STARTED");
                         ("rejection_origin", JText "CENTRAL"); ("primary_reason", opt_text (si_incident i));
                         ("central_release", central_release "not_required" [("proof", JText "RESERVE_DENIED")])]);
    mret (Some v)
  else
  unsent ← call_soon (wire_of r) (query (λ d, Ok (unsent_before_reserve d id)));
  let local := λ release,
    completed (JObj [("intent", JIntent i); ("send_state", JText "NOT_STARTED");
                     ("rejection_origin", JText "LOCAL"); ("primary_reason", opt_text (si_incident i));
                     ("finance_state", JText "NOT_APPLICABLE"); ("central_release", release)]) in
  if (unsent : bool) then
    v ← local (central_release "not_required" [("proof", JText "PRE_RESERVE_SQL")]); mret (Some v)
  else
  receipt ← call_soon (wire_of r) (query (λ d, Ok (unsent_release_receipt d id)));
  match receipt with
  | Some _ =>
    released ← attempt (release_unsent r i);
    v ← local (release_answer [("proof", JText "SQL_NO_SEND")] released);
    mret (Some v)
  | None => mret None
  end.

Definition readback_state (state : string) : option IntentState :=
  if (state =? "live")%string then Some Ledger.Acknowledged
  else if (state =? "partially_filled")%string then Some PartiallyFilled
  else if (state =? "filled")%string then Some Filled
  else if one_of ["canceled"; "mmp_canceled"] state then Some Cancelled else None.
(** The attached stop as the exchange has it is the one of the plan, for what was filled. *)
Definition stop_stands (i : StoredIntent D) (algo_client : string) (filled : D) (p : TradeAlgoOrderDetails) : bool :=
  (tad_instrument_id p =? si_instrument_id i)%string && (tad_client_order_id p =? algo_client)%string
  && (tad_state p =? "live")%string && (tad_failure_code p =? "")%string
  && (tad_stop_loss_trigger_price_type p =? "mark")%string
  && opt_dec_eqb (ok_of (dec (tad_stop_loss_trigger_price p))) (ip_stop_price (si_plan i))
  && opt_dec_eqb (ok_of (dec (tad_size p))) (Some filled)
  && negb (tad_side p =? ip_side (si_plan i))%string.
(** Whether the protection of a filled and open entry failed *)
Definition check_protection (r : AccountResources) (i : StoredIntent D) (filled : D) : T bool :=
  short ← lift (first_bytes 31 (si_client_order_id i));
  let algo_client := "s" +:+ short in
  p ← attempt (algo_readback r algo_client);
  match p with
  | Ok p =>
    if stop_stands i algo_client filled p then
      source_digest ← lift (digest p);
      stop_price ← lift (require "STOP_PRICE_MISSING" (ip_stop_price (si_plan i)));
      t ← now;
      let protection := {|
        pr_intent_id := si_intent_id i; pr_algo_id := tad_algo_order_id p; pr_side := tad_side p;
        pr_quantity := filled; pr_trigger_price := stop_price; pr_trigger_basis := "mark";
        pr_verified_at := t; pr_source_digest := source_digest |} in
      _ ← call_soon (wire_of r) (finance (λ _ v, verify_protection v protection));
      mret false
    else
      _ ← call_soon (wire_of r) (write (λ now d,
            protection_incident d (si_intent_id i) "PROTECTION_PENDING_OR_FAILED" now));
      mret true
  | Err _ =>
    _ ← call_soon (wire_of r) (write (λ now d,
          protection_incident d (si_intent_id i) "PROTECTION_PENDING_OR_FAILED" now));
    mret true
  end.
Definition matches_plan (i : StoredIntent D) (o : TradeOrderDetails) (size : D) : bool :=
  dec_eqb size (ip_quantity (si_plan i)) && (tod_side o =? ip_side (si_plan i))%string
  && (tod_instrument_id o =? si_instrument_id i)%string.
(** What the order of the exchange means: the intent as it is now and whether its protection
    failed, or an early answer *)
Definition apply_order (r : AccountResources) (i : StoredIntent D) (o : TradeOrderDetails)
    : T (result (Json D) (StoredIntent D * bool)) :=
  match readback_state (tod_state o) with
  | None => v ← uncertain (si_intent_id i) "EXCHANGE_ORDER_STATE_UNKNOWN"; mret (Err v)
  | Some state =>
    size ← lift (dec (tod_size o));
    if negb (matches_plan i o size) then fail "ORDER_READBACK_PLAN_MISMATCH" else
    filled ← lift (dec (tod_accumulated_fill_size o));
    _ ← (if negb (terminal (si_state i)) then
           call_soon (wire_of r) (write (λ now d,
             record_order_readback d (si_intent_id i) (tod_order_id o) state filled now))
         else mret tt);
    i ← find_intent r (si_intent_id i);
    snapshot ← ask (ObserverSnapshot (wire_of r));
    let exposed := has_position i snapshot in
    _ ← (if negb exposed && si_risk_increase i then cleanup_flat_protection r i else mret tt);
    failed ← (if dec_ltb dec_zero filled && si_risk_increase i && exposed
              then check_protection r i filled else mret false);
    mret (Ok (i, failed))
  end.
Definition read_order (r : AccountResources) (i : StoredIntent D) : T (result (Json D) (option TradeOrderDetails)) :=
  if bool_decide (si_state i = Ledger.Rejected) && negb (is_some (si_exchange_order_id i)) then mret (Ok None) else
  o ← attempt (order_readback r i);
  match o with
  | Ok o => mret (Ok (Some o))
  | Err _ => v ← uncertain (si_intent_id i) "ORDER_READBACK_INCOMPLETE_NO_RESUBMIT"; mret (Err v)
  end.

(** ** [close] and [emergency_exit], given the status of an order *)
Section knot.
Variable status : AccountResources → string → T (Json D).
Definition close_side (lots : list (StoredLot D)) : result failure PositionSide :=
  match lots with
  | l :: _ => if (lot_side l =? "long")%string then Ok Long
              else if (lot_side l =? "short")%string then Ok Short else Err (Error "POSITION_SIDE_UNATTESTED")
  | [] => Err (Error "POSITION_SIDE_UNATTESTED")
  end.
Definition close_command (key : string) (original : StoredIntent D) (side : PositionSide) (quantity : D)
    (expires : Z) : TradeRequest :=
  Execute key Protocol.Close (ip_strategy_instance (si_plan original)) (si_instrument_id original) side
    (Contracts (exact quantity))
    {| oc_order_type := "ioc"; oc_limit_price := None; oc_reference := None; oc_max_entry_usd := None;
       oc_max_slippage_bps := 10 |} None expires.
Definition close (r : AccountResources) (key reference : string) (expires : Z)
    (governance : option CentralGovernanceSnapshot) : T (Json D) :=
  bound_hash ← lift (digest (wire_of r, CloseIntent key reference expires));
  prior ← call_soon (wire_of r) (query (λ d, by_idempotency (D:=D) d key));
  match prior with
  | Some prior =>
    if negb (si_request_hash prior =? bound_hash)%string then fail "IDEMPOTENCY_CONFLICT"
    else status r (si_intent_id prior)
  | None =>
    original ← find_intent r reference;
    lots ← call_soon (wire_of r) (finance (λ _ v, active_lots v (si_instrument_id original)));
    let mine := remaining_lots original lots in
    quantity ← lift (quantity_of mine);
    if dec_leb quantity dec_zero then fail "NO_ATTRIBUTED_POSITION_TO_CLOSE" else
    side ← lift (close_side mine);
    execute_bound rounds fuel tries build_release status r (close_command key original side quantity expires)
      governance (Some bound_hash)
  end.

Definition order_over (o : TradeOrderDetails) : bool := one_of ["filled"; "canceled"; "mmp_canceled"] (tod_state o).
Definition safety_key (i : StoredIntent D) : string := "safety_cancel_" +:+ si_client_order_id i.
(** The cancel of an entry that stays unprotected; an answer ends the exit. *)
Definition safety_cancel (r : AccountResources) (i : StoredIntent D) (hash : string) : T (option (Json D)) :=
  fresh ← begin_op r (safety_key i) hash "safety_cancel";
  if negb fresh then v ← uncertain (si_intent_id i) "SAFETY_CANCEL_OUTCOME_UNKNOWN"; mret (Some v) else
  timing ← send_timing r;
  _ ← admit_cancel_order r (cancel_of i);
  response ← attempt (ask (CancelOrder (wire_of r) (cancel_of i) timing));
  response ← lift (match response with Ok v => Ok v | Err _ => Err (Error "SAFETY_CANCEL_OUTCOME_UNKNOWN") end);
  if negb (cancel_accepted response)
  then v ← uncertain (si_intent_id i) "SAFETY_CANCEL_NOT_CONFIRMED"; mret (Some v) else
  read ← order_readback r i;
  if negb (order_over read)
  then v ← uncertain (si_intent_id i) "SAFETY_CANCEL_READBACK_PENDING"; mret (Some v) else
  _ ← end_op r (safety_key i) hash "safety_cancel" "CANCELED_VERIFIED";
  mret None.
Definition emergency_exit (r : AccountResources) (i : StoredIntent D) : T (Json D) :=
  current ← order_readback r i;
  early ← (if order_over current then mret None else
           hash ← lift (digest (si_intent_id i, "unprotected_entry_cancel"));
           with_permit r (safety_cancel r i hash));
  match early with
  | Some v => mret v
  | None =>
    _ ← ask (CaptureSources (wire_of r));
    close r ("safety_close_" +:+ si_client_order_id i) (si_intent_id i) 10000 None
  end.

(** The rest of a status: money, exit, release and the answer *)
Definition finish_status (r : AccountResources) (i : StoredIntent D) (order : option TradeOrderDetails)
    (protection_failed : bool) : T (Json D) :=
  capture ← attempt (ask (CaptureSources (wire_of r)));
  let financial := is_ok capture in
  compensation ← (if protection_failed && financial
                  then v ← emergency_exit r i; mret (Some v) else mret None);
  release ← (if terminal (si_state i) && financial
             then v ← attempt (release_terminal r i order); mret (release_answer [] v)
             else mret (central_release "not_evaluated" []));
  lots ← call_soon (wire_of r) (finance (λ _ v, active_lots v (si_instrument_id i)));
  exposure ← lift (quantity_of (remaining_lots i lots));
  kept ← call_soon (wire_of r) (finance (λ _ v, protection v (si_intent_id i)));
  answer ← completed (JObj [
    ("intent", JIntent i);
    ("remaining_exposure", if financial then JText (exact exposure) else JNull);
    ("protection", match kept with Some p => JProtection p | None => JNull end);
    ("central_release", release);
    ("financial_error", match capture with Err e => JText e | Ok _ => JNull end);
    ("financial_complete", JBool financial); ("protection_incident", JBool protection_failed);
    ("compensation", match compensation with Some v => v | None => JNull end)]);
  let answer := set_top "quality" (JObj [
    ("execution", JText "authenticated_readback");
    ("financial", JText (if financial then "complete" else "incomplete"));
    ("protection", JText (if protection_failed then "incident" else "evaluated"))]) answer in
  mret (if financial then answer
        else set_top "warnings" (JList [JText "FINANCIAL_BACKFILL_PENDING"])
               (set_top "status" (JText "partial") answer)).
(** An order that was not sent yet: waiting, or expired and rejected *)
Definition settle_waiting (r : AccountResources) (i : StoredIntent D) : T (result (Json D) (StoredIntent D)) :=
  if bool_decide (si_state i = Ledger.Prepared) || bool_decide (si_state i = Ledger.Reserved) then
    t ← now;
    if si_deadline i <=? t then
      _ ← call_soon (wire_of r) (write (λ now d, reject_unsent d (si_intent_id i) "COMMAND_EXPIRED" now));
      i ← find_intent r (si_intent_id i);
      mret (Ok i)
    else
      v ← completed (JObj [("intent", JIntent i); ("remaining_exposure", JText "not_evaluated")]);
      mret (Err v)
  else mret (Ok i).
Definition status_step (r : AccountResources) (reference : string) : T (Json D) :=
  i ← find_intent r reference;
  waiting ← settle_waiting r i;
  match waiting with
  | Err v => mret v
  | Ok i =>
    unsent ← unsent_answer r i;
    match unsent with
    | Some v => mret v
    | None =>
      order ← read_order r i;
      match order with
      | Err v => mret v
      | Ok None => finish_status r i None false
      | Ok (Some o) =>
        applied ← apply_order r i o;
        match applied with
        | Err v => mret v
        | Ok (i, failed) => finish_status r i (Some o) failed
        end
      end
    end
  end.
End knot.
(** A status may leave a position, whose close ends in a status: [depth] bounds how often. *)
Fixpoint status_intent (depth : nat) (r : AccountResources) (reference : string) : T (Json D) :=
  match depth with
  | O => lift (Err OutOfFuel)
  | S depth => status_step (status_intent depth) r reference
  end.

(** ** The commands on an order *)
Section commands.
Variable status : AccountResources → string → T (Json D).
(** The cancel itself: [Some] is the answer of a cancel whose outcome is not known. *)
Definition send_cancel (r : AccountResources) (i : StoredIntent D) : T (option (Json D)) :=
  if bool_decide (si_state i = Ledger.Prepared) || bool_decide (si_state i = Ledger.Reserved) then
    _ ← call_soon (wire_of r) (write (λ now d, reject_unsent d (si_intent_id i) "USER_CANCELLED_UNSENT" now));
    mret None
  else if negb (terminal (si_state i)) then
    timing ← send_timing r;
    _ ← admit_cancel_order r (cancel_of i);
    response ← attempt (ask (CancelOrder (wire_of r) (cancel_of i) timing));
    match response with
    | Ok v => if cancel_accepted v then mret None
              else u ← uncertain (si_intent_id i) "CANCEL_OUTCOME_UNKNOWN"; mret (Some u)
    | Err _ => u ← uncertain (si_intent_id i) "CANCEL_OUTCOME_UNKNOWN"; mret (Some u)
    end
  else mret None.
Definition cancel_held (r : AccountResources) (key reference : string) (request : TradeRequest) : T (Json D) :=
  i ← find_intent r reference;
  hash ← lift (digest (wire_of r, request));
  fresh ← begin_op r key hash "cancel";
  if negb fresh then status r (si_intent_id i) else
  early ← send_cancel r i;
  match early with
  | Some v => mret v
  | None =>
    _ ← end_op r key hash "cancel" (si_intent_id i);
    status r (si_intent_id i)
  end.
Definition cancel (r : AccountResources) (key reference : string) (request : TradeRequest) : T (Json D) :=
  with_permit r (cancel_held r key reference request).

(** [expires_in_ms.saturating_sub(begun.elapsed())] *)
Definition expires_left (expires begun t : Z) : Z := saturating_sub_u64 expires (as_u64 (Z.max 0 (t - begun) / 1000000)).
Definition replacement_of (request : TradeRequest) (remaining : Z) : TradeRequest :=
  match request with
  | Execute key operation instance instrument side sizing order protection _ =>
    Execute key Protocol.Open instance instrument side sizing
      {| oc_order_type := oc_order_type order; oc_limit_price := oc_limit_price order; oc_reference := None;
         oc_max_entry_usd := oc_max_entry_usd order; oc_max_slippage_bps := oc_max_slippage_bps order |}
      protection remaining
  | _ => request
  end.
Definition same_scope (o : Order) (target : StoredIntent D) : bool :=
  (si_instrument_id target =? o_instrument o)%string
  && (ip_strategy_instance (si_plan target) =? o_strategy_instance o)%string
  && (ip_position_side (si_plan target) =? (if is_long (o_side o) then "long" else "short"))%string.
Definition replace (r : AccountResources) (request : TradeRequest) (governance : option CentralGovernanceSnapshot)
    : T (Json D) :=
  o ← lift (require "EXECUTE_REQUIRED" (order_of request));
  begun ← tick;
  hash ← lift (digest (wire_of r, request));
  old ← call_soon (wire_of r) (query (λ d, by_idempotency (D:=D) d (o_idempotency_key o)));
  match old with
  | Some old =>
    if negb (si_request_hash old =? hash)%string then fail "IDEMPOTENCY_CONFLICT"
    else status r (si_intent_id old)
  | None =>
    reference ← lift (require "REPLACE_REFERENCE_REQUIRED" (oc_reference (o_order o)));
    target ← find_intent r reference;
    if negb (same_scope o target) then fail "REPLACE_SCOPE_MISMATCH" else
    short ← lift (first_bytes 40 hash);
    let cancel_key := "replace_cancel_" +:+ short in
    _ ← cancel r cancel_key reference (Cancel cancel_key reference);
    after ← find_intent r (si_intent_id target);
    if negb (bool_decide (si_state after = Cancelled) || bool_decide (si_state after = Ledger.Rejected))
    then uncertain (si_intent_id after) "REPLACE_CANCEL_NOT_TERMINAL" else
    order ← attempt (order_readback r target);
    filled ← match order with
             | Ok order => filled ← lift (dec (tod_accumulated_fill_size order)); mret (dec_ltb dec_zero filled)
             | Err _ => mret false
             end;
    if (filled : bool) then fail "REPLACE_PARTIAL_FILL_REQUIRES_EXPLICIT_CLOSE" else
    t ← tick;
    let remaining := expires_left (o_expires_in_ms o) begun t in
    if remaining =? 0 then fail "COMMAND_EXPIRED" else
    execute_bound rounds fuel tries build_release status r (replacement_of request remaining) governance (Some hash)
  end.
End commands.
End reconcile.
