(* ===== verification/TradeDispatch.v ===== *)
(** * TradeDispatch: the entry of the trade service, [TradeService::trade] of [mod.rs]

    A request is validated and goes to the command it names.  The three requests that only
    look (capabilities, preflight and preview) are answered here. *)
From stdpp Require Import base option list numbers strings gmap.
From Stdlib Require Import ZArith Lia Ascii String.
From S2P Require Import Prelude Text Ordered External Clock Decimals EntryBudget Protocol RiskAuthority Ledger Intents Instances Programs RateBudget Wire Reference Market Stream Account TradeApi TradeService TradePlan TradeCensus TradeExecute TradeReconcile.
Local Open Scope string_scope.
Local Open Scope list_scope.
Local Open Scope Z_scope.

Section dispatch.
Context {D : Type} `{DecimalArith D} `{Hashing} `{!AgentText} `{!TradeSerialize D} `{JsonText} `{!Chrono}.
Context (rounds fuel tries depth : nat) (build_release : string).
Notation T := (M (Eff D)).

Definition resources (account : string) : T AccountResources :=
  r ← perform (Resolve account); lift (require "ACCOUNT_NOT_CONNECTED" r).
Definition evidence_of (snapshot : option AccountSnapshot) (t : Z) : bool :=
  is_some_and (λ s, is_ok_and (λ received, evidence_fresh received t ACCOUNT_MAX_AGE_MS)
                              (rfc3339_timestamp (acs_source_received_at s))) snapshot.

(** ** What the authority says about an account *)
Record Access : Type := {
  acc_configured : bool;
  acc_enabled : bool;
  acc_paused : bool;
  acc_json : Json D;
}.
Definition unevaluated (reason : string) : Access := {|
  acc_configured := false; acc_enabled := false; acc_paused := false;
  acc_json := JObj [("state", JText "not_evaluated"); ("reason_code", JText reason)] |}.
Definition access_json (s : CentralGovernanceSnapshot) (a : AccountControl) : Json D :=
  JObj [("state", JText "configured"); ("enabled", JBool (act_enabled a));
        ("explicit_pause", JBool (act_explicit_pause a)); ("policy_revision", JNum (act_policy_revision a));
        ("revision", JNum (rev_of s)); ("limits", JLimits (act_limits a));
        ("issued_at_ms", JNum (cgs_issued_at_ms s)); ("session_generation", JNum (cgs_session_generation s))].
Definition diagnostic_access (key : string) : T Access :=
  latest ← perform ReadGovernance;
  mret (match latest with
        | None => unevaluated "AUTHORITY_UNAVAILABLE"
        | Some s =>
          match List.find (λ a, (act_account_key a =? key)%string || (act_id a =? key)%string)
                  (gov_accounts (cgs_state s)) with
          | Some a => {| acc_configured := true; acc_enabled := act_enabled a; acc_paused := act_explicit_pause a;
                         acc_json := access_json s a |}
          | None => unevaluated "ACCOUNT_ACCESS_MISSING"
          end
        end).

(** ** Capabilities *)
Definition sql_policy_receipt (p : Z * bool * string * D * D) (governance : option CentralGovernanceSnapshot)
    (r : AccountResources) : Json D :=
  let matched := policy_matches p governance r in
  let '(revision, paused, campaign, limit, _) := p in
  JObj [("schema", JText "okx.native-policy-sql-receipt/v1"); ("source", JText "account_sql");
        ("revision", JNum revision); ("paused", JBool paused); ("campaign_id", JText campaign);
        ("campaign_limit_usd", JText (exact limit)); ("matches_governance", JBool matched);
        ("state", JText (if matched then "applied" else "mismatch"))].
(** The key of the executor may read and trade and nothing else, and belongs to the user. *)
Definition permissions_of (perm : string) : list string :=
  List.filter (λ p, negb (p =? "")%string) (map trim (split_on "," perm)).
Definition executor_verified (r : AccountResources) (config : AccountConfig) : bool :=
  let permissions := permissions_of (ac_perm config) in
  let has := λ p, one_of permissions p in
  (count permissions =? 2) && has "read_only" && has "trade" && negb (has "withdraw")
  && (sha256_hex (ac_uid config) =? ak_verified_uid (account_key r))%string.
Definition executor_json (r : AccountResources) (config : AccountConfig) (t : Z) : Json D :=
  let has := λ p, one_of (permissions_of (ac_perm config)) p in
  JObj [("state", JText (if executor_verified r config then "verified" else "blocked"));
        ("source", JText "executor_okx_account_config"); ("as_of_ms", JNum t);
        ("read", JBool (has "read_only")); ("trade", JBool (has "trade")); ("withdraw", JBool (has "withdraw"));
        ("uid_match", JBool (sha256_hex (ac_uid config) =? ak_verified_uid (account_key r))%string)].
Definition of_snapshot (f : AccountSnapshot → Json D) (s : option AccountSnapshot) : Json D :=
  match s with Some s => f s | None => JNull end.
Definition texts (l : list string) : Json D := JList (map JText l).
Definition capabilities (r : AccountResources) : T (Json D) :=
  access ← diagnostic_access (wire_of r);
  snapshot ← perform (LatestSnapshot (wire_of r));
  t ← now;
  let fresh := evidence_of snapshot t in
  sql ← attempt (call_soon (wire_of r) (query (policy (D:=D))));
  governance ← perform ReadGovernance;
  let '(policy_applied, sql_receipt) :=
    match sql with
    | Ok p => (policy_matches p governance r, sql_policy_receipt p governance r)
    | Err _ => (false, JObj [("schema", JText "okx.native-policy-sql-receipt/v1"); ("source", JText "account_sql");
                             ("state", JText "unavailable"); ("reason_code", JText "NATIVE_SQL_POLICY_UNAVAILABLE");
                             ("matches_governance", JBool false)])
    end in
  config ← perform (ExecutorConfig (wire_of r));
  '(verified, executor) ← match config with
    | Ok config => t ← now; mret (executor_verified r config, executor_json r config t)
    | Err _ => mret (false, JObj [("state", JText "unavailable"); ("source", JText "executor_okx_account_config");
                                  ("reason_code", JText "EXECUTOR_CONFIG_UNAVAILABLE")])
    end;
  mret (JObj [
    ("schema", JText "okx.trade.capabilities/v1"); ("account", JText (wire_of r));
    ("order_types", texts ["limit"; "market"; "post_only"; "ioc"; "fok"]);
    ("operations", texts ["open"; "add"; "reduce"; "close"; "replace"]);
    ("protection", texts ["stop_price"; "stop_distance_bps"]);
    ("account_level", of_snapshot (λ s, JText (acs_account_level s)) snapshot);
    ("position_mode", of_snapshot (λ s, JText (acs_position_mode s)) snapshot);
    ("api_key_permissions", of_snapshot (λ s, texts (acs_api_key_permissions s)) snapshot);
    ("observer", JObj [("source", JText "observer_account_snapshot");
                       ("permissions", of_snapshot (λ s, texts (acs_api_key_permissions s)) snapshot);
                       ("source_received_at", of_snapshot (λ s, JText (acs_source_received_at s)) snapshot)]);
    ("executor", executor);
    ("account_source_received_at", of_snapshot (λ s, JText (acs_source_received_at s)) snapshot);
    ("account_source_fresh", JBool fresh); ("governance", acc_json access); ("native_sql_policy", sql_receipt);
    ("quality", JText (if fresh && policy_applied && verified then "complete" else "partial"));
    ("admission_state", JText "not_evaluated"); ("ready_for_post", JBool false);
    ("reason_code", JText (if negb policy_applied then "NATIVE_SQL_POLICY_NOT_APPLIED"
                           else if negb verified then "EXECUTOR_PERMISSION_NOT_VERIFIED"
                           else "VENUE_PER_INSTRUMENT_ADMISSION_REQUIRES_TRADE_PLAN"))]).

(** ** Preflight *)
Definition blockers_of (access : Access) (identity fresh nav_complete : bool) (stops : Z) (budget : bool) : list string :=
  (if negb (acc_configured access) || negb (acc_enabled access) || acc_paused access
   then ["ACCOUNT_ACCESS_UNAVAILABLE"] else [])
  ++ (if negb identity || negb fresh then ["WAITING_ACCOUNT_EVIDENCE"] else [])
  ++ (if negb nav_complete then ["NAV_SOURCE_INCOMPLETE"] else [])
  ++ (if 0 <? stops then ["ACCOUNT_STOP"] else [])
  ++ (if negb budget then ["CENTRAL_BUDGET_UNAVAILABLE"] else []).
Definition preflight_job : job D (FinancialRisk D * Z) :=
  financial ← risk_at None;
  open_stops ← query stops;
  mret (financial, count open_stops).
Definition preflight_answer (r : AccountResources) : T (Json D) :=
  access ← diagnostic_access (wire_of r);
  identity ← source_identity_ready r;
  snapshot ← perform (LatestSnapshot (wire_of r));
  t ← now;
  let fresh := evidence_of snapshot t in
  '(financial, open_stops) ← call_soon (wire_of r) preflight_job;
  budget ← attempt risk_summary;
  let blockers := blockers_of access identity fresh (fr_nav_complete financial) open_stops (is_ok budget) in
  let blocked := match blockers with [] => false | _ => true end in
  mret (JObj [
    ("schema", JText "okx.trade.preflight/v1"); ("account", JText (wire_of r));
    ("state", JText (if blocked then "blocked" else "not_evaluated")); ("ready_for_new_risk", JBool false);
    ("reason_code", JText (if blocked then "READINESS_BLOCKERS" else "FULL_ADMISSION_REQUIRES_EXACT_TRADE_PLAN"));
    ("blockers", texts blockers); ("account_source_fresh", JBool fresh); ("identity_verified", JBool identity);
    ("financial_risk", JFinancial financial); ("stops", JNum open_stops);
    ("central_budget", match budget with Ok b => JBudget b | Err _ => JNull end);
    ("side_effects", JText "none"); ("quality", JText "partial")]).

(** ** Preview *)
Definition nav_job (instance : string) : job D (option bool) :=
  known ← query instances;
  if existsb (λ i : StrategyInstance D, (sti_instance_id i =? instance)%string) known
  then risk ← risk_at (Some instance); mret (Some (fr_nav_complete risk)) else mret None.
(** [c.limits.max_entry_usd.as_deref().map(dec).transpose()] *)
Definition entry_ceiling (c : AccountControl) (order : OrderConstraints) : result failure (option D) :=
  account ← dec_opt (al_max_entry_usd (act_limits c));
  requested ← dec_opt (oc_max_entry_usd order);
  enforced_entry_ceiling true (is_real (act_environment c)) account requested.
Definition opt_amount (v : option D) : Json D := match v with Some v => JText (exact v) | None => JNull end.
Definition entry_costs (r : AccountResources) (c : AccountControl) (instrument : string) (order : OrderConstraints)
    (p : IntentPlan D) : T (Json D) :=
  rules ← perform (InstrumentRules instrument);
  rules ← lift (require "INSTRUMENT_RULES_UNAVAILABLE" rules);
  fees ← ask (FeeSchedule (wire_of r) rules);
  if negb (fs_exact_for_instrument fees)
     || negb (fs_reference_generation fees =? irs_reference_generation rules)%string
  then fail "FEE_SOURCE_GENERATION_MISMATCH" else
  taker ← lift (dec (fs_taker_rate fees));
  maker ← lift (dec (fs_maker_rate fees));
  let fee_rate := dec_max (dec_abs taker) (dec_abs maker) in
  source ← ask (ObserverSnapshot (wire_of r));
  conversion ← lift (usd_conversion source);
  fx ← lift (dec (uc_usd_per_usdt conversion));
  entry ← lift (quote (ip_quantity p) (ip_contract_value p) (ip_limit_price p) fee_rate fx);
  ceiling ← lift (entry_ceiling c order);
  headroom ← lift (unproven_entry_cost_headroom (total_usd entry) ceiling);
  mret (JObj [
    ("price_bound_usdt", JText (exact (ip_limit_price p))); ("notional_usdt", JText (exact (notional_usdt entry)));
    ("entry_fee_usdt", JText (exact (fee_usdt entry))); ("entry_total_usdt", JText (exact (total_usdt entry)));
    ("entry_total_usd", JText (exact (total_usd entry))); ("usd_per_usdt", JText (exact fx));
    ("fee_rate", JText (exact fee_rate)); ("fee_currency", JText "USDT"); ("fee_rounding", JText "CEIL_0.000001");
    ("entry_cap_usd", opt_amount ceiling);
    ("account_entry_cap_usd", opt_text (al_max_entry_usd (act_limits c)));
    ("price_enforcement", JText "VENUE_LIMIT_OR_IOC_FOK");
    ("remaining_cap_for_unproven_costs_usd", opt_amount headroom); ("all_in_entry_cost_proven", JBool false);
    ("other_costs", JText "UNAVAILABLE_NOT_INCLUDED")]).
Definition preview_census (r : AccountResources) (s : CentralGovernanceSnapshot) : T (Json D) :=
  if negb (is_real (ak_environment (account_key r))) then mret (JObj [("state", JText "not_evaluated")]) else
  c ← attempt (census s);
  mret (match c with
        | Ok proof => JObj [("state", JText "verified"); ("source", JText "native_risk_census");
                            ("generated_at_ms", JNum (nrc_generated_at_ms proof)); ("complete", JBool (nrc_complete proof))]
        | Err reason => JObj [("state", JText "blocked"); ("reason_code", JText reason)]
        end).
Definition account_exposure (r : AccountResources) : T (Json D) :=
  exposure ← ask (ObserverSnapshot (wire_of r));
  t ← now;
  let fresh := evidence_of (Some exposure) t
               && (acs_account_uid_fingerprint exposure =? ak_verified_uid (account_key r))%string in
  visible ← lift (visible_nonzero_position_count (D:=D) (map aps_position (acs_positions exposure)));
  mret (JObj [
    ("source", JText "observer_account_snapshot"); ("state", JText (if fresh then "partial" else "stale"));
    ("source_received_at", JText (acs_source_received_at exposure)); ("nonzero_positions", JNum visible);
    ("pending_ordinary_orders", JNum (count (acs_pending_orders exposure))); ("pending_algo_orders", JNull);
    ("unknown_intents", JNull); ("flat_verified", JBool false);
    ("reason_code", JText "ALGO_INTENTS_AND_RESERVATIONS_REQUIRE_INDEPENDENT_READBACK")]).
Definition preview (r : AccountResources) (operation : TradeOperation) (instance instrument : string)
    (side : PositionSide) (sizing : Sizing) (order : OrderConstraints) (protection : option Protection)
    (governance : option CentralGovernanceSnapshot) : T (Json D) :=
  '(s, c) ← preview_authority r governance;
  t ← tick;
  p ← plan rounds fuel r c operation instance instrument side sizing order protection (t + from_millis 10000) false;
  let independent := requires_independent_strategy_nav instance in
  nav ← (if independent then call_soon (wire_of r) (nav_job instance) else mret None);
  let blocked := match nav with Some false => true | _ => false end in
  costs ← (if increases operation then entry_costs r c instrument order p else mret JNull);
  census ← preview_census r s;
  exposure ← account_exposure r;
  completed (JObj [
    ("plan", JPlan p); ("entry_costs", costs); ("access", JBool (access_enabled c));
    ("policy_revision", JNum (rev_of s)); ("admission", JText "preview_only"); ("side_effects", JText "none");
    ("census", census); ("account_exposure", exposure);
    ("financial_admission", JObj [
       ("state", JText (if blocked then "blocked" else "not_evaluated"));
       ("reason_code", if blocked then JText "INSTANCE_NAV_INCOMPLETE" else JNull); ("ready_for_post", JBool false);
       ("instance_nav_complete", match nav with Some b => JBool b | None => JNull end);
       ("capital_scope", JText (if independent then "strategy" else "account"))])]).

(** ** The entry *)
Definition trade (account : string) (request : TradeRequest) (governance : option CentralGovernanceSnapshot)
    : T (Json D) :=
  if negb (trade_request_valid request) then fail "INVALID_TRADE_REQUEST" else
  r ← resources account;
  let status := status_intent rounds fuel tries build_release depth in
  match request with
  | Capabilities => capabilities r
  | Preflight => preflight_answer r
  | Status reference => status r reference
  | Cancel key reference => cancel status r key reference request
  | CloseIntent key reference expires => close rounds fuel tries build_release status r key reference expires governance
  | Preview operation instance instrument side sizing order protection =>
    preview r operation instance instrument side sizing order protection governance
  | Execute _ operation _ _ _ _ _ _ _ =>
    if bool_decide (operation = Protocol.Replace) then replace rounds fuel tries build_release status r request governance
    else execute rounds fuel tries build_release status r request governance
  end.
End dispatch.
