(* ===== verification/TradeVenue.v ===== *)
(** * TradeVenue: what the commands on an order send to the exchange

    [trade_sends] goes through every command of [TradeReconcile] and [TradeExecute] and through
    the knot of status, exit and close: what is sent is an order with its clearance, a cancel
    of an order of the ledger, or a cancel of a protection whose position is gone, each of
    the cancels journalled before it; and a command to the authority that frees the capacity
    of an intent has its proof ([backed]).  [submit_once] to [trade_few] count the requests:
    one for a step, two and six for each level of the knot for a command. *)
From stdpp Require Import base option list numbers strings gmap sets.
From Stdlib Require Import ZArith QArith Lia Lqa Ascii String.
From S2P Require Import Prelude Text Ordered External Clock Decimals EntryBudget Protocol RiskAuthority Ledger Intents Instances Programs RateBudget Reference Market Stream Account TradeApi TradeService TradeDemo TradePlan TradeCensus TradeExecute TradeSafety TradeReconcile TradeDispatch.
Local Open Scope string_scope.
Local Open Scope list_scope.
Local Open Scope Z_scope.

Section venue.
Context {D : Type} `{DecimalLaws D} `{Hashing} `{!AgentText} `{!TradeSerialize D} `{JsonText} `{!Chrono}.
Variable possible : ∀ X : Type, Eff D X → X → Prop.
Context (rounds fuel tries : nat) (build : string) (r : AccountResources).

(** ** What may be sent *)
(** The intent is one the ledger answered. *)
Definition in_ledger (i : StoredIntent D) : Prop :=
  ∃ until reference, possible _ (Call (wire_of r) until (find_job reference)) (Ok (Some i)).
(** The operation was entered in the journal, by this call and no other. *)
Definition journalled (kind : string) : Prop :=
  ∃ until key hash, possible _ (Call (wire_of r) until (write (λ now d, begin_operation d key hash kind now))) (Ok true).
(** A close asks for exactly what the ledger still holds of its entry. *)
Definition closes (o : Order) : Prop :=
  ∃ original until lots key side quantity expires,
    in_ledger original
    ∧ possible _ (Call (wire_of r) until (finance (λ _ v, active_lots v (si_instrument_id original)))) (Ok lots)
    ∧ quantity_of (D:=D) (remaining_lots original lots) = Ok quantity ∧ (0 < val quantity)%Q
    ∧ order_of (close_command key original side quantity expires) = Some o.
Definition cleanable (i : StoredIntent D) (algo_id : string) : Prop :=
  ∃ until saved inventory snapshot,
    possible _ (Call (wire_of r) until (finance (λ _ v, protection v (si_intent_id i)))) (Ok (Some saved))
    ∧ algo_id = pr_algo_id saved
    ∧ possible _ (PendingRiskAlgos (wire_of r)) (Ok inventory) ∧ pri_complete_within_bound inventory = true
    ∧ possible _ (ObserverSnapshot (wire_of r)) (Ok snapshot) ∧ has_position (D:=D) i snapshot = false.
(** ** What gives capacity back of an order that was sent *)
(** The ledger answered the intent for this id. *)
Definition answered (reference : string) (i : StoredIntent D) : Prop :=
  ∃ until, possible _ (Call (wire_of r) until (find_job reference)) (Ok (Some i)).
(** The order is the one the exchange has for the client id of the intent, as the ledger had
    it before; a rejected intent without an exchange id has none. *)
Definition order_read (i0 : StoredIntent D) (order : option TradeOrderDetails) : Prop :=
  match order with
  | Some o => ∃ rows, possible _ (OrderRows (wire_of r) (si_instrument_id i0) (si_client_order_id i0)) (Ok rows)
      ∧ order_by_client_id (si_instrument_id i0) (si_client_order_id i0) rows = Ok o
  | None => si_state i0 = Ledger.Rejected ∧ si_exchange_order_id i0 = None
  end.
Definition read_back (i : StoredIntent D) (order : option TradeOrderDetails) : Prop :=
  ∃ i0, in_ledger i0 ∧ (i = i0 ∨ answered (si_intent_id i0) i) ∧ order_read i0 order.
(** The evidence of a terminal release: a receipt of the authority for the intent, no lot of
    it left, the fills and the bills read past the last change of the order, the reservation
    not released yet, a complete census, and a proof of all this *)
Record terminal_evidence (i : StoredIntent D) (order : option TradeOrderDetails) (action : RiskCommandAction) : Prop := {
  te_intent : in_ledger i ∧ terminal (si_state i) = true ∧ read_back i order;
  te_action : ∃ s until1 receipt until2 lots until3 partition fills inspect observed census until4 through loss
      record_digest sequence source,
    let key := cr_reservation_key receipt in
    let proof := terminal_proof r i loss record_digest in
    possible _ ReadGovernance (Some s)
    ∧ possible _ (Call (wire_of r) until1 (query (λ d, central_receipt (D:=D) d (si_intent_id i)))) (Ok (Some receipt))
    ∧ String.prefix "local:" key = false
    ∧ possible _ (Call (wire_of r) until2 (finance (λ _ v, active_lots v (si_instrument_id i)))) (Ok lots)
    ∧ existsb (λ l, dec_ltb dec_zero (lot_remaining_qty l)) (remaining_lots i lots) = false
    ∧ possible _ (Call (wire_of r) until3 (finance (λ _ v, cursor v "fills" partition))) (Ok (Some fills))
    ∧ covers fills order = true
    ∧ commanded possible inspect observed ∧ rc_action inspect = Inspect key (si_plan_hash i)
    ∧ rr_reservation_state observed ≠ Some Released ∧ rr_risk_book_sequence observed = Some sequence
    ∧ census_ok possible false s census
    ∧ possible _ (Call (wire_of r) until4 bills_job) (Ok (through, loss)) ∧ covers through order = true
    ∧ digest (i, order, loss, through) = Ok record_digest ∧ digest proof = Ok source
    ∧ action = RiskAuthority.Resolve key (si_plan_hash i) sequence ResolveReleased source (Some census) (Some proof);
}.
(** A command that gives capacity back has the ledger's proof that the intent was never
    sent, or the evidence of a terminal release. *)
Definition backed (c : RiskCommand) : Prop :=
  (∃ id, is_some (releases (rc_action c)) = true ∧ release_backed possible (wire_of r) id _ (Transport c))
  ∨ ∃ i order, terminal_evidence i order (rc_action c).

(** [wanted]: the orders the command itself is for *)
Variable wanted : Order → Prop.
Definition venue_allows (X : Type) (e : Eff D X) : Prop :=
  match e with
  | PlaceOrder account venue timing =>
    ∃ o body_hash, (wanted o ∨ closes o) ∧ cleared possible fuel r o body_hash account venue timing
  | CancelOrder account c _ =>
    account = wire_of r ∧ ∃ i, in_ledger i ∧ c = cancel_of i ∧ (journalled "cancel" ∨ journalled "safety_cancel")
  | CancelAlgo account c _ =>
    account = wire_of r ∧ ∃ i, in_ledger i ∧ cleanable i (car_algo_order_id c) ∧ journalled "protection_cleanup"
  | Transport c => frees (rc_action c) = true → backed c
  | _ => True
  end.
Notation quietly m := (safe possible venue_allows m (λ _, True)).
Notation safe m P := (safe possible venue_allows m P).
Lemma off_venue_allowed' X (e : Eff D X) : off_venue e → venue_allows X e.
Proof. destruct e; simpl; try done; congruence. Qed.
Let Hallowed := off_venue_allowed'.
Lemma venue_releases : may_release possible venue_allows (wire_of r).
Proof.
  intros id X e He. destruct e; try (by destruct He); try exact I. intros Hf. left. exists id. split; [|done].
  simpl in He. destruct (releases _) eqn:Er; [done|]. destruct He as (key & plan & E). by rewrite E in Hf.
Qed.

(** ** Reads *)
Lemma find_reads reference : safe (find_intent r reference) in_ledger.
Proof.
  unfold find_intent. read_steps. match goal with E : require _ _ = Ok _ |- _ => apply ok_or_ok in E; subst end.
  by do 2 eexists.
Qed.
Lemma find_answers reference : safe (find_intent r reference) (answered reference).
Proof. unfold find_intent. read_steps. match goal with E : require _ _ = Ok _ |- _ => apply ok_or_ok in E; subst end. by eexists. Qed.
Lemma answered_in_ledger reference i : answered reference i → in_ledger i.
Proof. intros [until Hp]. by exists until, reference. Qed.
Lemma timing_reads : quietly (send_timing r).
Proof. unfold send_timing. by read_steps. Qed.
Lemma begin_reads key hash kind : safe (begin_op r key hash kind) (λ b, b = true → journalled kind).
Proof. unfold begin_op. read_steps. intros ->. by do 3 eexists. Qed.
Lemma end_reads key hash kind outcome : quietly (end_op r key hash kind outcome).
Proof. unfold end_op. by read_steps. Qed.
Lemma order_read_reads i : safe (order_readback r i) (λ o, order_read i (Some o)).
Proof. unfold order_readback. read_steps. match goal with E : map_err _ _ = Ok _ |- _ => apply map_err_ok in E end. by eexists. Qed.
Lemma order_readback_reads i : quietly (order_readback r i).
Proof. by eapply safe_weaken; [apply order_read_reads|]. Qed.
Lemma admit_cancel_reads c : quietly (admit_cancel_order r c).
Proof. unfold admit_cancel_order. by read_steps. Qed.
Lemma admit_algo_reads c : quietly (admit_cancel_algo_order r c).
Proof. unfold admit_cancel_algo_order. by read_steps. Qed.
Lemma permit_safe {A} (body : M (Eff D) A) P : safe body P → safe (with_permit r body) P.
Proof. intros Hb. unfold with_permit. read_steps. by apply finally_safe. Qed.

Lemma ask_sends {A} (e : Eff D (result string A)) (P : A → Prop) :
  venue_allows _ e → (∀ a, P a) → safe (ask e) P.
Proof. intros He HP. unfold ask. safe_steps; [exact He|]. apply HP. Qed.

(** ** Cancels *)
Lemma cleanup_held_safe i : in_ledger i → quietly (cleanup_held r i).
Proof.
  intros Hi. unfold cleanup_held. read_steps; try exact I.
  eapply safe_weaken; [apply begin_reads|]. intros b Hb. read_steps; try exact I.
  eapply safe_weaken; [apply timing_reads|]. intros timing _. cbv beta. apply safe_bind.
  eapply safe_weaken; [apply admit_algo_reads|]. intros ? _. read_steps; try exact I; [|by apply end_reads].
  apply ask_sends; [|intros; read_steps; try exact I; apply end_reads].
  cbv beta in Hb. reflect_bools. simpl. split; [done|]. exists i. split; [done|]. split; [|by apply Hb].
  by do 4 eexists.
Qed.
Lemma cleanup_safe i : in_ledger i → quietly (cleanup_flat_protection r i).
Proof. intros Hi. by apply permit_safe, cleanup_held_safe. Qed.
Lemma cancel_sends i timing :
  in_ledger i → journalled "cancel" ∨ journalled "safety_cancel" →
  quietly (ask (CancelOrder (wire_of r) (cancel_of i) timing)).
Proof. intros Hi Hj. apply ask_sends; [|done]. split; [done|]. by exists i. Qed.
Lemma safety_cancel_safe i hash : in_ledger i → quietly (safety_cancel r i hash).
Proof.
  intros Hi. unfold safety_cancel. apply safe_bind. eapply safe_weaken; [apply begin_reads|]. intros b Hb.
  read_steps; try exact I. eapply safe_weaken; [apply timing_reads|]. intros timing _. cbv beta. apply safe_bind.
  eapply safe_weaken; [apply admit_cancel_reads|]. intros ? _. cbv beta. apply safe_bind, safe_attempt.
  - eapply safe_weaken; [apply cancel_sends; [done|right; apply Hb; by apply negb_false_iff]|].
    intros response _. cbv beta. read_steps; try exact I.
    eapply safe_weaken; [apply order_readback_reads|]. intros read _. read_steps; try exact I.
    eapply safe_weaken; [apply end_reads|]. intros ? _. by apply safe_ret.
  - intros code. by read_steps.
Qed.
Lemma send_cancel_safe i : in_ledger i → journalled "cancel" → quietly (send_cancel r i).
Proof.
  intros Hi Hj. unfold send_cancel. read_steps; try exact I.
  eapply safe_weaken; [apply timing_reads|]. intros timing _. cbv beta. apply safe_bind.
  eapply safe_weaken; [apply admit_cancel_reads|]. intros ? _. cbv beta. apply safe_bind, safe_attempt.
  - eapply safe_weaken; [apply cancel_sends; [done|by left]|]. intros response _. by read_steps.
  - intros code. by read_steps.
Qed.

(** ** Reading an order back *)
Lemma release_terminal_reads i order :
  in_ledger i → terminal (si_state i) = true → read_back i order → quietly (release_terminal r i order).
Proof.
  intros Hi Ht Hread. unfold release_terminal, acknowledge_release. read_steps; try exact I.
  eapply safe_weaken; [by apply census_reads|]. intros proof Hproof. read_steps; try exact I.
  apply request_sends; [|intros ? _; read_steps; try exact I]. intros _ _. right. exists i, order.
  split; [done|]. repeat match goal with E : require _ _ = Ok _ |- _ => apply ok_or_ok in E; subst end. reflect_bools.
  do 17 eexists. cbv zeta. split_and!; try eassumption; try reflexivity.
Qed.
Lemma unsent_answer_reads i : quietly (unsent_answer r i).
Proof.
  unfold unsent_answer. read_steps; try exact I.
  eapply safe_weaken; [by apply release_unsent_reads, venue_releases|]. intros ? _. read_steps; exact I.
Qed.
Lemma check_protection_reads i filled : quietly (check_protection r i filled).
Proof. unfold check_protection, algo_readback. read_steps; exact I. Qed.
Lemma read_order_reads i :
  safe (read_order r i) (λ v, match v with Ok order => order_read i order | Err _ => True end).
Proof.
  unfold read_order. read_steps; try exact I.
  - reflect_bools. split; [done|]. by destruct (si_exchange_order_id i).
  - eapply safe_weaken; [apply order_read_reads|]. intros o Ho. by read_steps.
Qed.
Lemma settle_reads i :
  in_ledger i → safe (settle_waiting r i) (λ v, match v with Ok i => in_ledger i | Err _ => True end).
Proof.
  intros Hi. unfold settle_waiting. read_steps; try done.
  eapply safe_weaken; [apply find_reads|]. intros i' Hi'. by apply safe_ret.
Qed.
Lemma apply_order_safe i o :
  safe (apply_order r i o) (λ v, match v with Ok (i', _) => answered (si_intent_id i) i' | Err _ => True end).
Proof.
  unfold apply_order. read_steps; try done.
  all: eapply safe_weaken; [apply find_answers|]; intros i' Hi'; read_steps; try done;
    try (eapply safe_weaken; [by apply cleanup_safe, (answered_in_ledger _ _ Hi')|]; intros ? _; read_steps; try done);
    (eapply safe_weaken; [apply check_protection_reads|]; intros ? _; by apply safe_ret).
Qed.
(** ** The knot *)
Section knot.
Variable status : AccountResources → string → M (Eff D) (Json D).
Hypothesis status_safe : ∀ reference, quietly (status r reference).

Lemma conclude_safe out : quietly (conclude status r out).
Proof. unfold conclude, record. read_steps; try exact I; apply status_safe. Qed.
Lemma execute_inner_safe request supplied bound expected claimed :
  (∀ o, order_of request = Some o → wanted o ∨ closes o) →
  quietly (execute_inner rounds fuel tries build status r request supplied bound expected claimed).
Proof.
  intros Hw. unfold execute_inner. apply safe_bind.
  eapply safe_weaken with (R := λ _, True); [|intros; apply conclude_safe].
  destruct (order_of request) as [o|] eqn:Eo; [|unfold submit; rewrite Eo; exact I].
  eapply safe_allow; [|apply (submit_safe possible fuel r o (body_hash_of r request bound)); [exact Eo|]].
  - intros X e He. destruct e; try exact He; try (by destruct He).
    + intros Hf. destruct (He Hf) as [id Hid]. by apply (venue_releases id _ (Transport c)).
    + exists o, (body_hash_of r request bound). auto.
  - intros own Ed. unfold body_hash_of. by rewrite Ed.
Qed.
Lemma execute_bound_safe request supplied bound :
  (∀ o, order_of request = Some o → wanted o ∨ closes o) →
  quietly (execute_bound rounds fuel tries build status r request supplied bound).
Proof. intros Hw. by apply execute_inner_safe. Qed.

Lemma close_safe key reference expires governance :
  quietly (close rounds fuel tries build status r key reference expires governance).
Proof.
  unfold close. read_steps; [apply status_safe|].
  eapply safe_weaken; [apply find_reads|]. intros original Horiginal. read_steps.
  apply execute_bound_safe. intros o Ho. right. reflect_decs. rewrite val_zero in *.
  by do 7 eexists.
Qed.
Lemma emergency_exit_safe i : in_ledger i → quietly (emergency_exit rounds fuel tries build status r i).
Proof.
  intros Hi. unfold emergency_exit. apply safe_bind.
  eapply safe_weaken; [apply order_readback_reads|]. intros current _. cbv beta. apply safe_bind.
  eapply safe_weaken with (R := λ _, True).
  - read_steps; try exact I. by apply permit_safe, safety_cancel_safe.
  - intros [v|] _; read_steps; [exact I|]. apply close_safe.
Qed.
Lemma finish_status_safe i order failed :
  in_ledger i → read_back i order → quietly (finish_status rounds fuel tries build status r i order failed).
Proof.
  intros Hi Hread. unfold finish_status. apply safe_bind.
  eapply safe_weaken with (R := λ _, True); [read_steps; exact I|]. intros capture _. apply safe_bind.
  eapply safe_weaken with (R := λ _, True).
  { read_steps; try exact I. eapply safe_weaken; [by apply emergency_exit_safe|]. intros ? _. by apply safe_ret. }
  intros compensation _. apply safe_bind. eapply safe_weaken with (R := λ _, True).
  { read_steps; try exact I. reflect_bools. eapply safe_weaken; [by apply release_terminal_reads|]. intros ? _. by apply safe_ret. }
  intros release _. read_steps; exact I.
Qed.
Lemma status_step_safe reference : quietly (status_step rounds fuel tries build status r reference).
Proof.
  unfold status_step. apply safe_bind. eapply safe_weaken; [apply find_reads|]. intros i0 Hi0. cbv beta.
  apply safe_bind. eapply safe_weaken; [by apply settle_reads|]. intros [i|v] Hi; [|done]. apply safe_bind.
  eapply safe_weaken; [apply unsent_answer_reads|]. intros [v|] _; [done|]. apply safe_bind.
  eapply safe_weaken; [apply read_order_reads|].
  intros [[o|]|v] Ho; [|apply finish_status_safe; [done|exists i; auto]|done].
  apply safe_bind. eapply safe_weaken; [apply apply_order_safe|]. intros [[i' failed]|v] Hi'; [|done].
  apply finish_status_safe; [by eapply answered_in_ledger|exists i; auto].
Qed.

(** ** The commands *)
Lemma cancel_safe key reference request : quietly (cancel status r key reference request).
Proof.
  apply permit_safe. unfold cancel_held. apply safe_bind. eapply safe_weaken; [apply find_reads|].
  intros i Hi. read_steps. eapply safe_weaken; [apply begin_reads|]. intros b Hb. read_steps; [apply status_safe|].
  eapply safe_weaken; [apply send_cancel_safe; [done|apply Hb; by apply negb_false_iff]|].
  intros [v|] _; [done|]. apply safe_bind. eapply safe_weaken; [apply end_reads|]. intros ? _. apply status_safe.
Qed.
(** A replacement is sent after the ledger answered that its target is over. *)
Definition replaced (o' : Order) (request : TradeRequest) : Prop :=
  ∃ remaining target after, order_of (replacement_of request remaining) = Some o'
    ∧ in_ledger target ∧ in_ledger after
    ∧ (si_state after = Cancelled ∨ si_state after = Ledger.Rejected).
Lemma replaced_intro o' request remaining target after :
  order_of (replacement_of request remaining) = Some o' → in_ledger target → in_ledger after →
  negb (bool_decide (si_state after = Cancelled) || bool_decide (si_state after = Ledger.Rejected)) = false →
  replaced o' request.
Proof.
  intros Ho Ht Ha Hs. apply negb_false_iff, orb_true_iff in Hs. exists remaining, target, after.
  split_and!; try done. destruct Hs as [Hs|Hs]; apply bool_decide_eq_true in Hs; auto.
Qed.
Lemma replace_safe request governance :
  (∀ o', replaced o' request → wanted o') →
  quietly (replace rounds fuel tries build status r request governance).
Proof.
  intros Hw. unfold replace. read_steps; [apply status_safe|].
  eapply safe_weaken; [apply find_reads|]. intros target Htarget. read_steps.
  eapply safe_weaken; [apply cancel_safe|]. intros ? _. cbv beta. apply safe_bind.
  eapply safe_weaken; [apply find_reads|]. intros after Hafter. read_steps; try exact I.
  - eapply safe_weaken; [apply order_readback_reads|]. intros order _. read_steps; try exact I.
    apply execute_bound_safe. intros o' Ho'. left. apply Hw. eapply (replaced_intro o' request _ target after); eassumption.
  - apply execute_bound_safe. intros o' Ho'. left. apply Hw. eapply (replaced_intro o' request _ target after); eassumption.
Qed.
End knot.

Lemma status_intent_safe depth reference : quietly (status_intent rounds fuel tries build depth r reference).
Proof. revert reference. induction depth as [|depth IH]; intros reference; [exact I|]. by apply status_step_safe. Qed.
End venue.

(** ** The requests that only look *)
Section looking.
Context {D : Type} `{DecimalLaws D} `{Hashing} `{!AgentText} `{!TradeSerialize D} `{JsonText} `{!Chrono}.
Variable possible : ∀ X : Type, Eff D X → X → Prop.
Variable allowed : ∀ X : Type, Eff D X → Prop.
Hypothesis Hallowed : ∀ X (e : Eff D X), off_venue e → allowed X e.
Context (rounds fuel : nat).
Notation quietly m := (safe possible allowed m (λ _, True)).

Lemma access_reads key : quietly (diagnostic_access (D:=D) key).
Proof. unfold diagnostic_access. by read_steps. Qed.
Lemma capabilities_reads r : quietly (capabilities (D:=D) r).
Proof.
  unfold capabilities. apply safe_bind. eapply safe_weaken; [apply access_reads|]. intros ? _. read_steps; exact I.
Qed.
Lemma preflight_answer_reads r : quietly (preflight_answer (D:=D) r).
Proof.
  unfold preflight_answer, risk_summary. apply safe_bind. eapply safe_weaken; [apply access_reads|]. intros ? _.
  read_steps; exact I.
Qed.
Lemma entry_costs_reads r c instrument order (p : IntentPlan D) : quietly (entry_costs r c instrument order p).
Proof. unfold entry_costs. read_steps; exact I. Qed.
Lemma preview_reads r operation instance instrument side sizing order protection governance :
  quietly (preview (D:=D) rounds fuel r operation instance instrument side sizing order protection governance).
Proof.
  unfold preview, preview_authority. read_steps.
  eapply safe_allow; [intros X e; apply harmless_off; exact Hallowed|].
  eapply safe_weaken; [by apply plan_safe|]. intros p _. apply safe_bind.
  eapply safe_weaken with (R := λ _, True); [read_steps; exact I|]. intros nav _. apply safe_bind.
  eapply safe_weaken with (R := λ _, True); [read_steps; [apply entry_costs_reads|exact I]|]. intros costs _.
  unfold preview_census, account_exposure. read_steps; try exact I.
  eapply safe_weaken; [by apply census_reads|]. intros ? _. read_steps; exact I.
Qed.
End looking.

Section sent.
Context {D : Type} `{DecimalLaws D} `{Hashing} `{!AgentText} `{!TradeSerialize D} `{JsonText} `{!Chrono}.
Context (possible : ∀ X : Type, Eff D X → X → Prop) (rounds fuel tries depth : nat) (build account : string)
  (request : TradeRequest) (governance : option CentralGovernanceSnapshot).
(** The orders a request is for *)
Definition asked_for (r : AccountResources) (o : Order) : Prop :=
  match request with
  | Execute _ operation _ _ _ _ _ _ _ =>
    if bool_decide (operation = Protocol.Replace) then replaced possible r o request else order_of request = Some o
  | _ => False
  end.
(** What the request may send, on behalf of the account it names *)
Definition sent_for (X : Type) (e : Eff D X) : Prop :=
  off_venue e ∨ ∃ r, possible _ (Resolve account) (Some r) ∧ venue_allows possible fuel r (asked_for r) X e.
Lemma trade_sends : safe possible sent_for (trade rounds fuel tries depth build account request governance) (λ _, True).
Proof.
  unfold trade. destruct (trade_request_valid request); [|done]. unfold resources, require. simpl.
  split; [by left|]. intros r Hr. destruct r as [r|]; [|done]. simpl.
  assert (Hoff : ∀ X (e : Eff D X), off_venue e → sent_for X e) by (by left).
  assert (Hvenue : ∀ X (e : Eff D X), venue_allows possible fuel r (asked_for r) X e → sent_for X e)
    by (intros X e He; right; by exists r).
  pose proof (status_intent_safe possible rounds fuel tries build r (asked_for r) depth) as Hs.
  unfold asked_for in *.
  destruct request as [| |operation ? ? ? ? ? ?|key operation ? ? ? ? ? ? ?| | |] eqn:Er.
  - by apply capabilities_reads.
  - by apply preflight_answer_reads.
  - by apply preview_reads.
  - destruct (bool_decide (operation = Protocol.Replace)) eqn:Eo.
    + eapply safe_allow; [exact Hvenue|]. apply replace_safe; [exact Hs|]. done.
    + eapply safe_allow; [exact Hvenue|]. apply execute_bound_safe; [exact Hs|]. intros o Ho. by left.
  - eapply safe_allow; [exact Hvenue|]. apply Hs.
  - eapply safe_allow; [exact Hvenue|]. apply cancel_safe. exact Hs.
  - eapply safe_allow; [exact Hvenue|]. apply close_safe. exact Hs.
Qed.
End sent.

(** ** How many requests a command sends *)
Section counted.
Context {D : Type} `{DecimalLaws D} `{Hashing} `{!AgentText} `{!TradeSerialize D} `{JsonText} `{!Chrono}.
Context (rounds fuel tries : nat) (build : string).
Let Hallowed := @off_venue_unsent D.
Notation few n m := (at_most sends n m).
Local Ltac plain := unfold find_intent, order_readback, algo_readback, begin_op, end_op, send_timing,
  admit_cancel_order, admit_cancel_algo_order; unsent_steps.
Local Ltac steps := repeat first [progress plain | solve [apply unsent_last; read_steps; exact I]].
Local Ltac sending n := apply (at_most_bind_both sends n).

Lemma permit_few n r {A} (body : M (Eff D) A) : few n body → few n (with_permit r body).
Proof. intros Hb. unfold with_permit. unsent_steps. by apply finally_once. Qed.
Lemma ask_once {A} (e : Eff D (result string A)) : few 1 (ask e).
Proof. unfold ask. simpl. by destruct (sends _ e). Qed.
Lemma send_cancel_once r i : few 1 (send_cancel (D:=D) r i).
Proof.
  unfold send_cancel. steps. apply at_most_bind_last; [apply at_most_attempt, ask_once|]. intros [v|e]; unsent_steps.
Qed.
Lemma safety_cancel_once r i hash : few 1 (safety_cancel (D:=D) r i hash).
Proof.
  unfold safety_cancel. steps. apply at_most_bind_last; [apply at_most_attempt, ask_once|]. intros [v|e]; steps.
Qed.
Lemma cleanup_once r i : few 1 (cleanup_flat_protection (D:=D) r i).
Proof.
  apply permit_few. unfold cleanup_held. steps.
  apply at_most_bind_last; [apply at_most_attempt, ask_once|]. intros [v|e]; steps.
Qed.

Variable n : nat.
Variable status : AccountResources → string → M (Eff D) (Json D).
Hypothesis Hstatus : ∀ r reference, few n (status r reference).

Lemma conclude_few r out : few n (conclude status r out).
Proof. unfold conclude, record. destruct out as [?|?|? ? ? [?|]]; steps; apply Hstatus. Qed.
Lemma execute_few r request supplied bound :
  few (1 + n) (execute_bound rounds fuel tries build status r request supplied bound).
Proof. unfold execute_bound, execute_inner. sending 1%nat; [apply submit_once|intros; apply conclude_few]. Qed.
Lemma close_few r key reference expires governance :
  few (1 + n) (close rounds fuel tries build status r key reference expires governance).
Proof.
  unfold close. steps; [|apply execute_few]. apply (at_most_weaken sends n); [lia|apply Hstatus].
Qed.
Lemma exit_few r i : few (2 + n) (emergency_exit rounds fuel tries build status r i).
Proof.
  unfold emergency_exit. steps. change (2 + n)%nat with (1 + (1 + n))%nat. sending 1%nat.
  - steps. apply permit_few, safety_cancel_once.
  - intros [v|]; steps. apply close_few.
Qed.
Lemma release_quiet r i order : safe (λ _ _ _, True) (λ X e, sends X e = false) (release_terminal (D:=D) r i order) (λ _, True).
Proof.
  unfold release_terminal, acknowledge_release. read_steps; try exact I.
  eapply safe_weaken; [by apply census_reads|]. intros ? _. read_steps; try exact I.
  apply request_sends; [done|]. intros ? _. read_steps; try exact I.
Qed.
Lemma finish_few r i order failed : few (2 + n) (finish_status rounds fuel tries build status r i order failed).
Proof.
  unfold finish_status. steps. replace (2 + n)%nat with ((2 + n) + 0)%nat by lia. sending (2 + n)%nat.
  { destruct (_ && _); [|done]. apply at_most_bind_last; [apply exit_few|done]. }
  intros compensation. eapply unsent_bind.
  { read_steps; try exact I. eapply safe_weaken; [apply release_quiet|]. intros ? _. read_steps; exact I. }
  intros release. steps.
Qed.
Lemma apply_order_few r i o : few 1 (apply_order (D:=D) r i o).
Proof.
  unfold apply_order. steps. apply at_most_bind_last; [steps; apply cleanup_once|]. intros ?.
  eapply unsent_bind; [unfold check_protection, algo_readback; read_steps; exact I|]. intros ?. steps.
Qed.
Lemma status_step_few r reference : few (3 + n) (status_step rounds fuel tries build status r reference).
Proof.
  unfold status_step. steps. eapply unsent_bind; [unfold settle_waiting, find_intent; read_steps; exact I|].
  intros [i|v]; steps. eapply unsent_bind.
  { unfold unsent_answer. read_steps; try exact I. eapply safe_weaken; [apply release_unsent_reads, release_unsent_free|].
    intros ? _. read_steps; exact I. }
  intros [v|]; steps. eapply unsent_bind; [unfold read_order, order_readback; read_steps; exact I|].
  intros [[o|]|v]; steps.
  - change (3 + n)%nat with (1 + (2 + n))%nat. sending 1%nat; [apply apply_order_few|].
    intros [[i' failed]|v]; steps. apply finish_few.
  - apply (at_most_weaken sends (2 + n)); [lia|apply finish_few].
Qed.
Lemma cancel_few r key reference request : few (1 + n) (cancel status r key reference request).
Proof.
  apply permit_few. unfold cancel_held. steps.
  - apply (at_most_weaken sends n); [lia|apply Hstatus].
  - sending 1%nat; [apply send_cancel_once|]. intros [v|]; steps. apply Hstatus.
Qed.
Lemma replace_few r request governance :
  few (2 + 2 * n) (replace rounds fuel tries build status r request governance).
Proof.
  unfold replace. steps.
  - apply (at_most_weaken sends n); [lia|apply Hstatus].
  - replace (2 + 2 * n)%nat with ((1 + n) + (1 + n))%nat by lia. sending (1 + n)%nat; [apply cancel_few|].
    intros ?. steps; apply execute_few.
Qed.
End counted.

Section counted_trade.
Context {D : Type} `{DecimalLaws D} `{Hashing} `{!AgentText} `{!TradeSerialize D} `{JsonText} `{!Chrono}.
Context (rounds fuel tries : nat) (build : string).
Let Hallowed := @off_venue_unsent D.
Lemma status_few depth r reference :
  at_most sends (3 * depth) (status_intent (D:=D) rounds fuel tries build depth r reference).
Proof.
  revert r reference. induction depth as [|depth IH]; intros r reference; [exact I|].
  replace (3 * S depth)%nat with (3 + 3 * depth)%nat by lia. by apply status_step_few.
Qed.
Lemma trade_few depth account request governance :
  at_most sends (2 + 6 * depth) (trade (D:=D) rounds fuel tries depth build account request governance).
Proof.
  pose proof (status_few depth) as Hs. unfold trade, resources. unsent_steps.
  - apply unsent_last. apply capabilities_reads. exact Hallowed.
  - apply unsent_last. apply preflight_answer_reads. exact Hallowed.
  - apply unsent_last. apply preview_reads. exact Hallowed.
  - apply (at_most_weaken sends (2 + 2 * (3 * depth))); [lia|apply replace_few; exact Hs].
  - apply (at_most_weaken sends (1 + 3 * depth)); [lia|apply execute_few; exact Hs].
  - apply (at_most_weaken sends (3 * depth)); [lia|apply Hs].
  - apply (at_most_weaken sends (1 + 3 * depth)); [lia|apply cancel_few; exact Hs].
  - apply (at_most_weaken sends (1 + 3 * depth)); [lia|apply close_few; exact Hs].
Qed.
End counted_trade.

(** ** An exit that was begun once *)
Section latched.
Context {D : Type} `{DecimalLaws D} `{Hashing} `{!AgentText} `{!TradeSerialize D} `{JsonText} `{!Chrono}.
Variable possible : ∀ X : Type, Eff D X → X → Prop.
Context (rounds fuel tries : nat) (build : string) (status : AccountResources → string → M (Eff D) (Json D))
  (r : AccountResources) (i : StoredIntent D).
(** The journal has the cancel of this entry, in every store the jobs run on. *)
Definition cancel_begun : Prop := ∀ X account until (j : job D X) x,
  possible _ (Call account until j) x →
  ∃ env st, is_some (Intents.operation (db st) (safety_key i)) ∧ x = (run_job env j st).2.
(** The exchange has the entry, still working. *)
Definition entry_works : Prop := ∀ rows o,
  possible _ (OrderRows (wire_of r) (si_instrument_id i) (si_client_order_id i)) (Ok rows) →
  order_by_client_id (si_instrument_id i) (si_client_order_id i) rows = Ok o → order_over o = false.
Hypothesis Hbegun : cancel_begun.
Hypothesis Hworks : entry_works.
Notation quiet_exit m P := (safe possible (λ X, off_venue (X:=X)) m P).
Let Hallowed X (e : Eff D X) : off_venue e → off_venue e := λ He, He.

Lemma begun_not_fresh hash : quiet_exit (begin_op r (safety_key i) hash "safety_cancel") (λ b, b = false).
Proof.
  unfold begin_op. read_steps.
  match goal with Hp : possible _ _ _ |- _ => apply Hbegun in Hp as (env & st & Hop & Hx) end.
  simpl in Hx. unfold on_db, begin_operation in Hx.
  destruct (Intents.operation (db st) (safety_key i)) as [old|]; [|done].
  destruct (_ || _) in Hx; simpl in Hx; [discriminate Hx|congruence].
Qed.
Lemma exit_waits : quiet_exit (emergency_exit rounds fuel tries build status r i)
  (λ v, ∃ t, v = JObj [("status", JText "unknown"); ("intent_id", JText (si_intent_id i));
              ("reason_code", JText "SAFETY_CANCEL_OUTCOME_UNKNOWN"); ("scope", JText "intent");
              ("retryable", JBool false); ("next_action", JText "trade.status"); ("as_of_ms", JNum t)]).
Proof.
  unfold emergency_exit, order_readback. read_steps.
  - match goal with E : map_err _ _ = Ok _ |- _ => apply map_err_ok in E; apply Hworks in E; [congruence|done] end.
  - unfold with_permit. read_steps. apply finally_safe; [exact Hallowed|]. unfold safety_cancel. apply safe_bind.
    eapply safe_weaken; [apply begun_not_fresh|]. intros ? ->. simpl. split; [done|]. intros t _. by exists t.
Qed.
End latched.

(** ** A preview only looks *)
Ltac look_step :=
  lazymatch goal with
  | |- safe _ _ (ask _) _ => apply ask_safe; [exact I|intros ? ?]
  | |- safe _ _ (call_soon _ _) _ => apply call_soon_safe; [right; apply quiet_unchanging; quiet_steps|intros ? ? ?]
  | |- safe _ _ (attempt _) _ => apply safe_attempt; [|intros ?]
  | |- safe _ _ now _ => unfold now
  | |- safe _ _ tick _ => unfold tick
  | |- safe _ _ (completed _) _ => unfold completed
  | |- safe _ _ (elapsed_ms _) _ => unfold elapsed_ms
  | |- safe _ _ (source_identity_ready _) _ => unfold source_identity_ready
  | |- safe _ _ (connection_generation _) _ => unfold connection_generation
  | |- safe _ _ (perform _) _ => apply safe_perform; [exact I|intros ? ?]
  | _ => safe_step
  end.
Ltac look_steps := repeat (cbv beta zeta; look_step); try exact I.
Section previews.
Context {D : Type} `{DecimalLaws D} `{Hashing} `{!AgentText} `{!TradeSerialize D} `{JsonText} `{!Chrono}.
Variable possible : ∀ X : Type, Eff D X → X → Prop.
Notation looks m := (safe possible (@harmless D False) m (λ _, True)).

Lemma mapM_looks {A B} (f : A → M (Eff D) B) l : (∀ a, looks (f a)) → looks (mapM f l).
Proof.
  intros Hf. eapply safe_weaken; [apply (safe_mapM _ _ f (λ _ _, True)); intros; apply Hf|done].
Qed.
Lemma foldM_looks {A S} (f : S → A → M (Eff D) S) s l : (∀ s a, looks (f s a)) → looks (foldM f s l).
Proof.
  intros Hf. revert s. induction l as [|a l IH]; intros s; [exact I|]. cbn [foldM]. apply safe_bind.
  eapply safe_weaken; [apply Hf|]. intros s' _. apply IH.
Qed.
Lemma lot_looks account lots lot : looks (lot_evidence account lots lot).
Proof. unfold lot_evidence, lot_job. look_steps. Qed.
Lemma position_looks account managed p : looks (position_evidence account managed p).
Proof.
  unfold position_evidence. look_steps. eapply safe_weaken; [apply mapM_looks; intros; apply lot_looks|].
  intros ? _. look_steps.
Qed.
Lemma page_looks fx c : looks (account_page None fx c).
Proof.
  unfold account_page, read_proof, account_snapshot. look_steps.
  eapply safe_weaken; [apply foldM_looks; intros; apply position_looks|]. intros managed _. look_steps.
  eapply safe_weaken; [apply mapM_looks; intros; unfold order_evidence; look_steps|]. intros ? _. look_steps.
Qed.
Lemma census_looks s : looks (census s).
Proof.
  unfold census, census_with_reads. look_steps.
  eapply safe_weaken; [apply mapM_looks; intros; apply page_looks|]. intros pages _. look_steps.
Qed.
Lemma entry_costs_looks r c instrument order (p : IntentPlan D) : looks (entry_costs r c instrument order p).
Proof. unfold entry_costs. look_steps. Qed.
Lemma access_looks key : looks (diagnostic_access (D:=D) key).
Proof. unfold diagnostic_access. look_steps. Qed.
Lemma capabilities_looks r : looks (capabilities (D:=D) r).
Proof.
  unfold capabilities. apply safe_bind. eapply safe_weaken; [apply access_looks|]. intros ? _. look_steps.
Qed.
Lemma preview_looks rounds fuel r operation instance instrument side sizing order protection governance :
  looks (preview rounds fuel r operation instance instrument side sizing order protection governance).
Proof.
  unfold preview, preview_authority. look_steps.
  eapply safe_weaken; [by apply plan_safe|]. intros p _. apply safe_bind.
  eapply safe_weaken with (R := λ _, True); [unfold nav_job; look_steps|]. intros nav _. apply safe_bind.
  eapply safe_weaken with (R := λ _, True); [look_steps; apply entry_costs_looks|]. intros costs _.
  unfold preview_census, account_exposure. look_steps.
  eapply safe_weaken; [by apply census_looks|]. intros ? _. look_steps.
Qed.
Definition only_looks (request : TradeRequest) : bool :=
  match request with Capabilities | Preview _ _ _ _ _ _ _ => true | _ => false end.
Lemma trade_looks rounds fuel tries depth build account request governance :
  only_looks request = true → looks (trade rounds fuel tries depth build account request governance).
Proof.
  intros Hl. unfold trade, resources. destruct (trade_request_valid request); [|exact I].
  unfold require. simpl. split; [exact I|]. intros r Hr. destruct r as [r|]; [|done]. simpl.
  destruct request; try discriminate Hl; [apply capabilities_looks|apply preview_looks].
Qed.
End previews.

(** ** Theorems *)
Section theorems.
Context {D : Type} `{DecimalLaws D} `{Hashing} `{!AgentText} `{!TradeSerialize D} `{JsonText} `{!Chrono}.
Implicit Types h : list (event (Eff D)).

(** C3: Whatever request the service gets and whatever is answered on the way, everything it
    sends to the exchange is its own and has its reason.  An order is the requested one, a
    replacement whose target the ledger answered to be cancelled or rejected, or the exit of
    a position: a close of exactly what the ledger still attributes to its entry; and each
    has the clearance of an order.  A cancel names an order of the ledger, and a cancelled
    protection is the recorded one of an entry that has no position in a snapshot of this
    run; the journal took each of these cancels first.  A request that only looks sends
    nothing, a status or a cancel never opens a position. *)
Theorem sent_has_reason possible rounds fuel tries depth build account request governance h X (e : Eff D X) k :
  exec possible [] (trade rounds fuel tries depth build account request governance) h (Do e k) →
  sent_for (seen h) fuel account request X e.
Proof.
  intros Hx. apply exec_observed in Hx. eapply safe_exec in Hx; [exact Hx|apply trade_sends].
Qed.

(** C4: Nothing is sent twice on the way to an answer.  The submission of an order, however
    often its plan, its reservation and its fence are repeated, the cancel of an order, the
    safety cancel of an unprotected entry and the cleanup of a protection each send at most
    one request, whatever is answered; and a whole command, which may cancel, exit and close
    on its way to the status of its order, sends at most two and six more for each level of
    the statuses it goes through. *)
Theorem steps_send_once possible rounds fuel tries depth build r request supplied bound expected claimed
    account governance h :
  (∀ m, exec possible [] (submit (D:=D) rounds fuel tries build r request supplied bound expected claimed) h m →
     (counted sends h <= 1)%nat)
  ∧ (∀ (i : StoredIntent D) m, exec possible [] (send_cancel r i) h m → (counted sends h <= 1)%nat)
  ∧ (∀ (i : StoredIntent D) hash m, exec possible [] (safety_cancel r i hash) h m → (counted sends h <= 1)%nat)
  ∧ (∀ (i : StoredIntent D) m, exec possible [] (cleanup_flat_protection r i) h m → (counted sends h <= 1)%nat)
  ∧ (∀ m, exec possible [] (trade (D:=D) rounds fuel tries depth build account request governance) h m →
     (counted sends h <= 2 + 6 * depth)%nat).
Proof.
  split_and!; [intros m Hx|intros i m Hx|intros i hash m Hx|intros i m Hx|intros m Hx].
  - eapply at_most_exec in Hx; [exact Hx|apply submit_once].
  - eapply at_most_exec in Hx; [exact Hx|apply send_cancel_once].
  - eapply at_most_exec in Hx; [exact Hx|apply safety_cancel_once].
  - eapply at_most_exec in Hx; [exact Hx|apply cleanup_once].
  - eapply at_most_exec in Hx; [exact Hx|apply trade_few].
Qed.

(** C6: Capacity is given back only on proof.  Whatever the service is asked for and whatever
    is answered on the way, a command to the authority that gives the capacity of an intent
    back carries the ledger's own record that the intent was rejected unsent, under its key,
    plan and digest, or the evidence that its order is over: the receipt of the intent, no
    lot of it left, its fills and bills read past the last change of the order, a complete
    census and the proof made of them.  And the release of an unsent intent succeeds only
    when the account is a demo account, the receipt is local, the authority reports the
    reservation released, or the authority took that command. *)
Theorem capacity_freed_on_proof possible rounds fuel tries depth build account request governance h :
  (∀ c k, exec possible [] (trade (D:=D) rounds fuel tries depth build account request governance) h (Do (Transport c) k) →
     frees (rc_action c) = true →
     ∃ r, seen h _ (Resolve account) (Some r) ∧ backed (seen h) r c)
  ∧ (∀ r (i : StoredIntent D) u, exec possible [] (release_unsent r i) h (Ret (Ok u)) → release_done (seen h) r i).
Proof.
  split.
  - intros c k Hx Hf. apply exec_observed in Hx. eapply safe_exec in Hx; [|apply trade_sends].
    destruct Hx as [Hoff|(r & Hr & Hb)]; [simpl in Hoff; congruence|]. exists r. split; [done|]. by apply Hb.
  - intros r i u Hx. apply exec_observed in Hx. eapply safe_result in Hx; [exact Hx|apply release_unsent_backed].
Qed.

(** C27: An exit that was begun once does nothing again.  When the journal has the cancel of
    an unprotected entry and the exchange still has the entry working, every further exit
    sends nothing and answers that the outcome of the cancel is unknown; this is also so
    when the first exit stopped before it sent anything, and the position stays open and
    unprotected. *)
Theorem begun_exit_waits possible rounds fuel tries build status r (i : StoredIntent D) h :
  cancel_begun possible i → entry_works possible r i →
  (∀ X (e : Eff D X) k, exec possible [] (emergency_exit rounds fuel tries build status r i) h (Do e k) → off_venue e)
  ∧ (∀ v, exec possible [] (emergency_exit rounds fuel tries build status r i) h (Ret (Ok v)) →
     ∃ fields, v = JObj fields ∧ In ("reason_code", JText "SAFETY_CANCEL_OUTCOME_UNKNOWN") fields).
Proof.
  intros Hb Hw. pose proof (exit_waits possible rounds fuel tries build status r i Hb Hw) as Hs. split.
  - intros X e k Hx. exact (safe_exec _ _ _ _ _ _ _ _ Hs Hx).
  - intros v Hx. apply (safe_result _ _ _ _ _ _ _ Hs) in Hx as [t ->]. eexists. split; [done|]. simpl. auto.
Qed.

(** A preview has no side effects, as it says: asking for the capabilities or a preview
    of any order, with whatever answers, never locks or changes the authority, never asks the
    risk authority for anything, takes no permit and sends nothing; and every closure it
    gives to the database leaves the store as it was, also when it is interrupted. *)
Theorem preview_only_looks possible rounds fuel tries depth build account request governance h X (e : Eff D X) k :
  only_looks request = true →
  exec possible [] (trade rounds fuel tries depth build account request governance) h (Do e k) →
  harmless False e.
Proof. intros Hl. apply safe_exec with (P := λ _, True). by apply trade_looks. Qed.
End theorems.

Section witnesses.
#[local] Existing Instance real_hashing.
#[local] Existing Instance real_serialize.
#[local] Existing Instance demo_json.
#[local] Existing Instance real_text.
#[local] Existing Instance real_trade.
#[local] Existing Instance demo_chrono.

Definition real_request : M (Eff Fixed.t) (Json Fixed.t) :=
  trade 3 10 3 2 "build" real_key open_request None.
Lemma sent_has_reason_witness :
  ∃ h X (e : Eff Fixed.t X) k, exec (answers real_answer) [] real_request h (Do e k) ∧ sends X e = true
    ∧ sent_for (seen h) 10 real_key open_request X e.
Proof.
  destruct (before real_answer at_order real_store [] real_request) as [h m] eqn:Eb.
  assert (Hs : stopped at_order (before real_answer at_order real_store [] real_request).2 = true)
    by (vm_compute; reflexivity).
  rewrite Eb in Hs. apply exec_before in Eb. destruct m as [|X e k]; [discriminate Hs|].
  exists h, X, e, k. split; [exact Eb|]. split; [exact Hs|].
  exact (sent_has_reason _ _ _ _ _ _ _ _ _ h X e k Eb).
Defined.

(** The authority denies the post: the intent is rejected unsent and its capacity released. *)
Lemma capacity_freed_on_proof_witness :
  ∃ h c k, exec (answers denying_answer) [] real_request h (Do (Transport c) k)
    ∧ is_some (releases (rc_action c)) = true ∧ ∃ r, backed (D:=Fixed.t) (seen h) r c.
Proof.
  destruct (before denying_answer at_release real_store [] real_request) as [h m] eqn:Eb.
  assert (Hs : stopped at_release (before denying_answer at_release real_store [] real_request).2 = true)
    by (vm_compute; reflexivity).
  rewrite Eb in Hs. apply exec_before in Eb. destruct m as [|X e k]; [discriminate Hs|].
  destruct e; try discriminate Hs. simpl in Hs. eexists h, _, k. split; [exact Eb|]. split; [exact Hs|].
  destruct (proj1 (capacity_freed_on_proof _ _ _ _ _ _ _ _ _ h) _ k Eb) as (r & _ & Hb).
  - match type of Hs with is_some (releases (rc_action ?c)) = _ => destruct (rc_action c); try discriminate Hs end. reflexivity.
  - exists r. exact Hb.
Defined.
(** The account opens a position: one request. *)
Lemma steps_send_once_witness :
  (counted sends (history real_answer real_store [] real_submit) <= 1)%nat
  ∧ (counted sends (history real_answer real_store [] real_request) <= 14)%nat
  ∧ counted sends (history real_answer real_store [] real_request) = 1%nat.
Proof.
  split; [|split; [|vm_compute; reflexivity]].
  - refine (proj1 (steps_send_once _ _ _ _ 0 _ _ _ _ _ _ _ "" None _) _ (exec_answers real_answer real_store [] real_submit)).
  - refine (proj2 (proj2 (proj2 (proj2 (steps_send_once _ _ _ _ 2 _ real_resources open_request None None None None _ _ _)))) _ (exec_answers real_answer real_store [] real_request)).
Defined.

Definition preview_request : TradeRequest :=
  Preview Protocol.Open "manual" "BTC-USDT-SWAP" Long (Contracts "2")
    {| oc_order_type := "fok"; oc_limit_price := None; oc_reference := None; oc_max_entry_usd := Some "500";
       oc_max_slippage_bps := 10 |} (Some (Price "98.05")).
Definition real_preview : M (Eff Fixed.t) (Json Fixed.t) :=
  trade 3 10 3 2 "build" real_key preview_request None.
(** An authority whose policy the ledger has applied *)
Definition applied_governance : CentralGovernanceSnapshot := {|
  cgs_state := {|
    gov_schema := GOVERNANCE_SCHEMA; gov_revision := 1; gov_installation_id := "installation";
    gov_campaign_id := "sha256:" +:+ sixty_four; gov_campaign_loss_limit_usd := "10";
    gov_max_total_modelled_loss_usdt := "300"; gov_accounts := [real_control] |};
  cgs_issued_at_ms := 1; cgs_session_generation := 1; cgs_delivery_challenge := None |}.
Definition applied_answer (X : Type) (e : Eff Fixed.t X) : Store → Store * X :=
  match e in Eff _ X return Store → Store * X with
  | ReadGovernance => λ s, (s, Some applied_governance)
  | e => real_answer _ e
  end.
Definition applied_store : Store :=
  {| db := with_policy {| pol_revision := 1; pol_paused := false; pol_campaign_id := "sha256:" +:+ sixty_four;
                          pol_campaign_limit := "10"; pol_campaign_loss := "0" |} (db real_store);
     allocations := allocations real_store; nav_scopes := nav_scopes real_store |}.
(** A preview of the same order, up to its reading of the fees *)
Definition at_fees (X : Type) (e : Eff Fixed.t X) : bool := match e with FeeSchedule _ _ => true | _ => false end.
Lemma preview_only_looks_witness :
  ∃ h X (e : Eff Fixed.t X) k, exec (answers applied_answer) [] real_preview h (Do e k) ∧ at_fees X e = true
    ∧ harmless False e.
Proof.
  destruct (before applied_answer at_fees applied_store [] real_preview) as [h m] eqn:Eb.
  assert (Hs : stopped at_fees (before applied_answer at_fees applied_store [] real_preview).2 = true)
    by (vm_compute; reflexivity).
  rewrite Eb in Hs. apply exec_before in Eb. destruct m as [|X e k]; [discriminate Hs|].
  exists h, X, e, k. split; [exact Eb|]. split; [exact Hs|].
  assert (Hl : only_looks preview_request = true) by reflexivity.
  exact (preview_only_looks _ _ _ _ _ _ _ _ _ _ _ _ _ Hl Eb).
Defined.

(** The position was opened, and its entry still works; the clock of the exchange fails once. *)
Definition posted_store : Store := (outcome real_answer real_store real_submit).1.
Definition clockless_answer (X : Type) (e : Eff Fixed.t X) : Store → Store * X :=
  match e in Eff _ X return Store → Store * X with
  | ClockSample _ => λ s, (s, Err "unavailable")
  | OrderRows _ instrument client => λ s, (s, Ok [{|
      tod_instrument_id := instrument; tod_order_id := "77"; tod_client_order_id := client;
      tod_side := "buy"; tod_position_side := "long"; tod_trade_mode := "cross"; tod_order_type := "fok";
      tod_price := "100.6"; tod_size := "2"; tod_accumulated_fill_size := "1";
      tod_average_fill_price := ""; tod_state := "partially_filled"; tod_creation_time_ms := "1000";
      tod_update_time_ms := "1000" |}])
  | e => real_answer _ e
  end.
Definition real_exit (i : StoredIntent Fixed.t) : M (Eff Fixed.t) (Json Fixed.t) :=
  emergency_exit 3 10 3 "build" (status_intent 3 10 3 "build" 1) real_resources i.
Definition posted_intent : StoreResult (option (StoredIntent Fixed.t)) :=
  Intents.intent (db posted_store) ("intent_" +:+ substring 0 32 sixty_four).
Definition begun_store : Store :=
  match posted_intent with
  | Ok (Some i) => (outcome clockless_answer posted_store (real_exit i)).1
  | _ => posted_store
  end.
(** The exit that failed before it sent anything left its entry in the journal. *)
Example first_exit_sends_nothing :
  match posted_intent with
  | Ok (Some i) =>
    is_ok (outcome clockless_answer posted_store (real_exit i)).2 = false
    ∧ counted sends (history clockless_answer posted_store [] (real_exit i)) = 0%nat
    ∧ is_some (Intents.operation (db begun_store) (safety_key i)) = true
  | _ => False
  end.
Proof. vm_compute. auto. Qed.
(** Now the clock works again. *)
Definition begun_answer (X : Type) (e : Eff Fixed.t X) : Store → Store * X :=
  match e in Eff _ X return Store → Store * X with
  | Call _ _ j => λ s, (s, (run_job (λ _, (1000, real_view)) j begun_store).2)
  | OrderRows a b c => clockless_answer _ (OrderRows a b c)
  | e => real_answer _ e
  end.
Lemma begun_exit_waits_witness :
  ∃ i h v, posted_intent = Ok (Some i) ∧ exec (answers begun_answer) [] (real_exit i) h (Ret (Ok v))
    ∧ ∃ fields, v = JObj fields ∧ In ("reason_code", JText "SAFETY_CANCEL_OUTCOME_UNKNOWN") fields.
Proof.
  assert (Hi : match posted_intent with
               | Ok (Some i) => is_ok (outcome begun_answer begun_store (real_exit i)).2
                                && is_some (Intents.operation (db begun_store) (safety_key i))
               | _ => false end = true) by (vm_compute; reflexivity).
  destruct posted_intent as [[i|]|] eqn:Ei; [|discriminate Hi|discriminate Hi].
  apply andb_true_iff in Hi as [Hok Hop]. exists i.
  pose proof (exec_answers begun_answer begun_store [] (real_exit i)) as Hx.
  destruct (outcome begun_answer begun_store (real_exit i)).2 as [v|]; [|discriminate Hok].
  eexists _, v. split; [reflexivity|]. split; [exact Hx|].
  refine (proj2 (begun_exit_waits _ _ _ _ _ _ _ i _ _ _) v Hx).
  - intros X account until j x [w ->]. exists (λ _, (1000, real_view)), begun_store. by split; [rewrite Hop|].
  - intros rows o [w E]. simpl in E. injection E as ->. simpl. intros E. destruct (_ || _) in E; [done|]. by injection E as <-.
Defined.
End witnesses.
