(* ===== verification/Schedule.v ===== *)
(** * Schedule: when an unsettled intent is looked at again, [trade_service/mod.rs]

    [RecoverySchedule] is the polling schedule of the maintenance loop: a page of the
    reconciliation queue per account, and for each intent the time of its next look with an
    exponential backoff.  [chosen] is the page a maintenance turn works on
    ([strategies.rs], [maintenance_turn]).  [every_intent_retried]: no intent waits for
    ever that stays on its page for a round of the queue, whatever the other intents of the
    page and the other accounts do in between. *)
From stdpp Require Import base option list numbers strings gmap.
From Stdlib Require Import ZArith Lia String.
From S2P Require Import Prelude Text Ordered External Decimals Protocol Ledger Intents TradeService.
Local Open Scope string_scope.
Local Open Scope list_scope.
Local Open Scope Z_scope.

(** The first byte of a SHA-256 *)
Class FirstByte : Type := first_byte : string → Z.

Record RecoveryAttempt : Type := {
  ra_count : Z;
  ra_due : Z;
  ra_incident_emitted : bool;
}.
Record RecoverySchedule : Type := {
  rs_pages : gmap string Z;
  rs_attempts : gmap (string * string) RecoveryAttempt;
}.
Definition empty_schedule : RecoverySchedule := {| rs_pages := ∅; rs_attempts := ∅ |}.
Definition with_attempts (m : gmap (string * string) RecoveryAttempt) (s : RecoverySchedule) : RecoverySchedule :=
  {| rs_pages := rs_pages s; rs_attempts := m |}.
Definition RECOVERY_DELAYS_SECONDS : list Z := [1; 2; 4; 8; 16; 30].
Definition RECOVERY_BATCH : Z := 16.

Section schedule.
Context `{FirstByte}.

Definition page (s : RecoverySchedule) (account : string) : Z := default 0 (rs_pages s !! account).
Definition advance_page (s : RecoverySchedule) (account : string) (offset length : Z) : RecoverySchedule := {|
  rs_pages := <[account := if (length =? RECOVERY_BATCH) && (offset <? 100000 - RECOVERY_BATCH)
                           then offset + RECOVERY_BATCH else 0]> (rs_pages s);
  rs_attempts := rs_attempts s |}.

(** The map never holds more than 16384 entries. *)
Definition pruned (clock : Z) (key : string * string) (m : gmap (string * string) RecoveryAttempt)
    : gmap (string * string) RecoveryAttempt :=
  if (16384 <=? Z.of_nat (size m)) && negb (bool_decide (is_Some (m !! key))) then
    let kept := filter (λ kv, clock < ra_due kv.2) m in
    if (16384 <=? Z.of_nat (size kept)) then ∅ else kept
  else m.
Definition delay_ms (account intent : string) (count : Z) : Z :=
  nth (Z.to_nat (Z.min count 5)) RECOVERY_DELAYS_SECONDS 0 * 1000 + first_byte (account +:+ ":" +:+ intent) mod 251.
Definition due (s : RecoverySchedule) (account intent : string) (clock : Z) : bool * RecoverySchedule :=
  let key := (account, intent) in
  let m := pruned clock key (rs_attempts s) in
  let attempt := default {| ra_count := 0; ra_due := clock; ra_incident_emitted := false |} (m !! key) in
  if clock <? ra_due attempt then (false, with_attempts (<[key := attempt]> m) s) else
  (true, with_attempts (<[key := {| ra_count := Z.min 255 (ra_count attempt + 1);
                                    ra_due := clock + from_millis (delay_ms account intent (ra_count attempt));
                                    ra_incident_emitted := ra_incident_emitted attempt |}]> m) s).
Definition finish (s : RecoverySchedule) (account intent : string) : RecoverySchedule :=
  with_attempts (delete (account, intent) (rs_attempts s)) s.
Definition overdue_incident (s : RecoverySchedule) (account intent : string) (deadline_ms now_ms : Z)
    : bool * RecoverySchedule :=
  if clamp (now_ms - deadline_ms) i64_min i64_max <? 30000 then (false, s) else
  match rs_attempts s !! (account, intent) with
  | None => (false, s)
  | Some attempt =>
    if ra_incident_emitted attempt then (false, s) else
    (true, with_attempts (<[(account, intent) := {| ra_count := ra_count attempt; ra_due := ra_due attempt;
                                                    ra_incident_emitted := true |}]> (rs_attempts s)) s)
  end.

(** ** What a turn of [maintenance_turn] reads of the queue of an account *)
Section reading.
Context {I : Type}.
Variable read : Z → option (list I).
(** The page that is worked on, [None] when it cannot be read *)
Definition chosen (offset : Z) : option (Z * list I) :=
  match read offset with
  | Some [] => if offset =? 0 then Some (0, []) else (λ l, (0, l)) <$> read 0
  | Some l => Some (offset, l)
  | None => None
  end.
End reading.

(** ** Histories of a schedule *)
Inductive sched_op : Type :=
| Advance (account : string) (offset length : Z)
| Due (account intent : string) (clock : Z)
| Finish (account intent : string)
| Overdue (account intent : string) (deadline_ms now_ms : Z).
Definition op_step (s : RecoverySchedule) (o : sched_op) : bool * RecoverySchedule :=
  match o with
  | Advance a offset n => (false, advance_page s a offset n)
  | Due a i clock => due s a i clock
  | Finish a i => (false, finish s a i)
  | Overdue a i d n => overdue_incident s a i d n
  end.
(** Each operation with its answer, and the state after them *)
Fixpoint run_ops (s : RecoverySchedule) (l : list sched_op) : list (sched_op * bool) * RecoverySchedule :=
  match l with
  | [] => ([], s)
  | o :: l => let '(b, s1) := op_step s o in let '(bs, s2) := run_ops s1 l in ((o, b) :: bs, s2)
  end.
Definition op_clock (o : sched_op) : option Z := match o with Due _ _ t => Some t | _ => None end.
Definition advances (account : string) (l : list sched_op) : list (Z * Z) :=
  omap (λ o, match o with Advance a offset n => if (a =? account)%string then Some (offset, n) else None
             | _ => None end) l.

(** A turn as an account sees it: what its queue answers, and everything that all accounts
    do to the schedule until the next turn *)
Record Turn : Type := {
  t_start : Z;
  t_read : Z → option (list string);
  t_ops : list sched_op;
}.
(** The turn works on the page of the account: it advances it once and asks for each intent. *)
Definition worked (account : string) (s : RecoverySchedule) (t : Turn) : Prop :=
  match chosen (t_read t) (page s account) with
  | Some (offset, l) =>
    advances account (t_ops t) = [(offset, count l)]
    ∧ ∀ i, i ∈ l → ∃ clock, Due account i clock ∈ t_ops t
  | None => advances account (t_ops t) = []
  end.
(** Turn after turn, each beginning after every instant of the one before it *)
Fixpoint turns (account : string) (s : RecoverySchedule) (l : list Turn) : Prop :=
  match l with
  | [] => True
  | t :: l =>
    worked account s t
    ∧ (∀ o c, o ∈ t_ops t → op_clock o = Some c → t_start t ≤ c ∧ match l with t' :: _ => c ≤ t_start t' | [] => True end)
    ∧ (match l with t' :: _ => t_start t ≤ t_start t' | [] => True end)
    ∧ turns account (run_ops s (t_ops t)).2 l
  end.
Fixpoint run_turns (s : RecoverySchedule) (l : list Turn) : list (sched_op * bool) * RecoverySchedule :=
  match l with
  | [] => ([], s)
  | t :: l => let '(b1, s1) := run_ops s (t_ops t) in let '(b2, s2) := run_turns s1 l in (b1 ++ b2, s2)
  end.
(** Whenever the turn reads, the queue has [i] on its page of number [q] (it is read sixteen at a
    time) and at most [most] intents.  What the others are, and where, may differ from read to read. *)
Definition queue_holds (most q : Z) (i : string) (t : Turn) : Prop :=
  ∀ offset, ∃ ids k,
    t_read t offset = Some (take 16 (drop (Z.to_nat (Z.min offset 100000)) ids))
    ∧ count ids ≤ most ∧ ids !! k = Some i ∧ Z.of_nat k / 16 = q.
End schedule.

(** ** The times of the next looks *)
Section looks.
Context `{FirstByte}.
Definition longest : Z := from_millis 30250.
Lemma delay_bounds a i count : 0 ≤ from_millis (delay_ms a i count) ≤ longest.
Proof.
  unfold longest, from_millis, delay_ms.
  pose proof (Z.mod_pos_bound (first_byte (a +:+ ":" +:+ i)) 251 ltac:(lia)) as Hm.
  assert (0 ≤ nth (Z.to_nat (Z.min count 5)) RECOVERY_DELAYS_SECONDS 0 ≤ 30); [|lia].
  destruct (Z.to_nat (Z.min count 5)) as [|[|[|[|[|[|n]]]]]]; simpl; try lia. destruct n; simpl; lia.
Qed.

(** Pruning and the operations on other keys only remove entries. *)
Lemma pruned_sub clock key m k attempt : pruned clock key m !! k = Some attempt → m !! k = Some attempt.
Proof.
  unfold pruned. destruct (_ && _); [|done]. destruct (_ <=? _); [by rewrite lookup_empty|].
  rewrite map_lookup_filter_Some. by intros [].
Qed.
Lemma pruned_own clock key m attempt : m !! key = Some attempt → pruned clock key m !! key = Some attempt.
Proof. intros E. unfold pruned. rewrite bool_decide_eq_true_2 by eauto. by rewrite andb_false_r. Qed.

(** Nobody waits longer than the longest delay after the instant [t]. *)
Definition waits (t : Z) (s : RecoverySchedule) : Prop :=
  ∀ k attempt, rs_attempts s !! k = Some attempt → ra_due attempt ≤ t + longest.
Lemma waits_step s o t : waits t s → (∀ c, op_clock o = Some c → c ≤ t) → waits t (op_step s o).2.
Proof.
  intros Hw Ho k attempt. destruct o as [a offset n|a i clock|a i|a i d n]; simpl.
  - apply Hw.
  - specialize (Ho _ eq_refl). unfold due.
    assert (Hp : ∀ k attempt, pruned clock (a, i) (rs_attempts s) !! k = Some attempt → ra_due attempt ≤ t + longest)
      by (intros ?? E%pruned_sub; by eapply Hw).
    destruct (pruned _ _ _ !! (a, i)) as [old|] eqn:E; simpl;
      (destruct (clock <? _); simpl; [rewrite lookup_insert_Some; intros [[_ <-]|[_ E']];
        [|by eapply Hp]|rewrite lookup_insert_Some; intros [[_ <-]|[_ E']]; [|by eapply Hp]]); simpl.
    + by eapply Hp.
    + pose proof (delay_bounds a i (ra_count old)). lia.
    + pose proof (delay_bounds a i 0). lia.
    + pose proof (delay_bounds a i 0). lia.
  - rewrite lookup_delete_Some. intros [_ E]. by eapply Hw.
  - unfold overdue_incident. destruct (_ <? _); [apply Hw|].
    destruct (rs_attempts s !! (a, i)) as [old|] eqn:E; [|apply Hw].
    destruct (ra_incident_emitted old); [apply Hw|]. simpl. rewrite lookup_insert_Some.
    intros [[_ <-]|[_ E']]; [|by eapply Hw]. simpl. by eapply (Hw _ old).
Qed.

(** The look at [i] that is next is due at [t], unless one has been made in the meantime. *)
Definition idle (key : string * string) (t : Z) (s : RecoverySchedule) : Prop :=
  ∀ attempt, rs_attempts s !! key = Some attempt → ra_due attempt ≤ t.
Lemma idle_step a i t s o :
  idle (a, i) t s →
  (∃ c, o = Due a i c ∧ (op_step s o).1 = true)
  ∨ idle (a, i) t (op_step s o).2 ∧ ∀ c, o = Due a i c → c < t.
Proof.
  intros Hi. destruct o as [b offset n|b j clock|b j|b j d n]; simpl.
  - by right.
  - destruct (decide ((b, j) = (a, i))) as [[= -> ->]|Hne].
    + unfold due. set (m := pruned _ _ _). destruct (m !! (a, i)) as [old|] eqn:E; simpl.
      * apply pruned_sub in E. specialize (Hi _ E).
        destruct (Z.ltb_spec clock (ra_due old)) as [Hlt|Hge]; [|left; eauto].
        right. split; [|intros ? [= <-]; lia]. intros attempt. simpl. rewrite lookup_insert_eq. by intros [= <-].
      * rewrite Z.ltb_irrefl. left. eauto.
    + right. split; [|congruence]. intros attempt E. apply Hi. revert E. unfold due.
      destruct (_ <? _); simpl; rewrite lookup_insert_ne by done; apply pruned_sub.
  - right. split; [|done]. intros attempt. simpl. rewrite lookup_delete_Some. intros [_ E]. by apply Hi.
  - right. split; [|done]. unfold overdue_incident. destruct (_ <? _); [done|].
    destruct (rs_attempts s !! (b, j)) as [old|] eqn:E; [|done]. destruct (ra_incident_emitted old); [done|].
    intros attempt. simpl. rewrite lookup_insert_Some. intros [[[= -> ->] <-]|[_ E']]; [|by apply Hi].
    simpl. by apply (Hi old).
Qed.
Lemma idle_fires a i t l : ∀ s,
  idle (a, i) t s → (∃ c, Due a i c ∈ l ∧ t ≤ c) → ∃ c, (Due a i c, true) ∈ (run_ops s l).1.
Proof.
  induction l as [|o l IH]; intros s Hi (c & Hin & Hc); [by apply elem_of_nil in Hin|]. simpl.
  destruct (op_step s o) as [b s1] eqn:Eo. destruct (run_ops s1 l) as [bs s2] eqn:El. simpl.
  destruct (idle_step a i t s o Hi) as [(c' & -> & Hb)|[Hi' Hlate]].
  { rewrite Eo in Hb. simpl in Hb. subst b. exists c'. by left. }
  rewrite Eo in Hi'. apply elem_of_cons in Hin as [<-|Hin]; [by specialize (Hlate _ eq_refl); lia|].
  destruct (IH s1 Hi' ltac:(eauto)) as [c' Hc']. rewrite El in Hc'. exists c'. by right.
Qed.
End looks.

(** ** The pages of an account, turn after turn *)
Section rounds.
Context `{FirstByte}.
Definition next_page (offset n : Z) : Z :=
  if (n =? RECOVERY_BATCH) && (offset <? 100000 - RECOVERY_BATCH) then offset + RECOVERY_BATCH else 0.
Lemma page_step s o a :
  page (op_step s o).2 a = match advances a [o] with (offset, n) :: _ => next_page offset n | [] => page s a end.
Proof.
  destruct o as [b offset n|b i clock|b i|b i d n]; simpl.
  - unfold page. simpl. destruct (String.eqb_spec b a) as [->|Hne].
    + by rewrite lookup_insert_eq.
    + by rewrite lookup_insert_ne.
  - unfold due. by destruct (_ <? _).
  - done.
  - unfold overdue_incident. destruct (_ <? _); [done|]. destruct (_ !! _) as [old|]; [|done].
    by destruct (ra_incident_emitted old).
Qed.
Lemma page_run a l : ∀ s,
  page (run_ops s l).2 a = match last (advances a l) with Some (offset, n) => next_page offset n | None => page s a end.
Proof.
  induction l as [|o l IH]; intros s; [done|]. simpl. specialize (IH (op_step s o).2).
  pose proof (page_step s o a) as Ho. destruct (op_step s o) as [b s1]. simpl in Ho, IH.
  destruct (run_ops s1 l) as [bs s2]. simpl in *. rewrite IH. rewrite Ho.
  destruct (match o with Advance _ _ _ => _ | _ => _ end) as [[x n]|]; simpl; [|done].
  destruct (advances a l) as [|y r]; [done|]. simpl.
  destruct (last (y :: r)) as [[]|] eqn:E; [done|]. by apply last_None in E.
Qed.
Lemma run_ops_app l1 l2 : ∀ s,
  run_ops s (l1 ++ l2) = ((run_ops s l1).1 ++ (run_ops (run_ops s l1).2 l2).1, (run_ops (run_ops s l1).2 l2).2).
Proof.
  induction l1 as [|o l1 IH]; intros s; simpl; [by destruct (run_ops s l2)|].
  destruct (op_step s o) as [b s1]. rewrite IH. by destruct (run_ops s1 l1).
Qed.
Lemma run_turns_ops l : ∀ s, run_turns s l = run_ops s (List.concat (t_ops <$> l)).
Proof.
  induction l as [|t l IH]; intros s; [done|]. simpl. rewrite run_ops_app, <- IH.
  destruct (run_ops s (t_ops t)) as [b1 s1]. simpl. by destruct (run_turns s1 l).
Qed.
Lemma run_turns_app l1 l2 s : (run_turns s (l1 ++ l2)).2 = (run_turns (run_turns s l1).2 l2).2.
Proof. rewrite !run_turns_ops, fmap_app, List.concat_app, run_ops_app. done. Qed.

(** The pages begin at multiples of the batch. *)
Definition page_ok (p : Z) : Prop := ∃ c, p = 16 * c ∧ 0 ≤ c ≤ 6249.
Lemma next_page_ok offset n : page_ok offset → page_ok (next_page offset n).
Proof.
  intros (c & -> & Hc). unfold next_page, RECOVERY_BATCH. destruct (_ && _) eqn:E; [|by exists 0].
  apply andb_true_iff in E as [_ E%Z.ltb_lt]. exists (c + 1). lia.
Qed.
Lemma chosen_offset {I} (read : Z → option (list I)) p offset l :
  chosen read p = Some (offset, l) → offset = p ∨ offset = 0.
Proof.
  unfold chosen. destruct (read p) as [[|x r]|]; [|intros [= <- <-]; by left|done].
  destruct (_ =? _); [intros [= <- <-]; by right|]. destruct (read 0); [|done]. intros [= <- <-]. by right.
Qed.
Lemma worked_page a s t :
  worked a s t →
  page (run_ops s (t_ops t)).2 a
  = match chosen (t_read t) (page s a) with Some (offset, l) => next_page offset (count l) | None => page s a end.
Proof.
  unfold worked. rewrite page_run. destruct (chosen (t_read t) (page s a)) as [[offset l]|].
  - by intros [-> _].
  - by intros ->.
Qed.
Lemma turns_page_ok a l2 : ∀ l1 s,
  page_ok (page s a) → turns a s (l1 ++ l2) → page_ok (page (run_turns s l1).2 a) ∧ turns a (run_turns s l1).2 l2.
Proof.
  induction l1 as [|t l1 IH]; intros s Hp Ht; [done|]. destruct Ht as (Hw & _ & _ & Ht). simpl.
  pose proof (worked_page a s t Hw) as Hn.
  specialize (IH (run_ops s (t_ops t)).2). destruct (run_ops s (t_ops t)) as [b1 s1]. simpl in *.
  destruct (run_turns s1 l1) as [b2 s2]. simpl in *. apply IH; [|done]. rewrite Hn.
  destruct (chosen _ _) as [[offset l]|] eqn:E; [|done]. apply next_page_ok.
  apply chosen_offset in E as [->| ->]; [done|by exists 0].
Qed.

(** How many turns it takes from page [p] to the page of number [q], of [n] intents *)
Definition rank (n q p : Z) : Z :=
  if n <=? p then q + 1 else if p <=? 16 * q then q - p / 16 + 1 else n / 16 - p / 16 + q + 2.
Lemma page_number c : 16 * c / 16 = c.
Proof. by rewrite Z.mul_comm, Z.div_mul. Qed.
Lemma rank_bound n q p : 0 ≤ q → 16 * q < n → page_ok p → 0 < rank n q p ≤ n / 16 + 1.
Proof.
  intros Hq Hn (c & -> & Hc). unfold rank. rewrite page_number.
  assert (q ≤ n / 16) by (apply Z.div_le_lower_bound; lia).
  destruct (Z.leb_spec n (16 * c)); [lia|].
  assert (c ≤ n / 16) by (apply Z.div_le_lower_bound; lia).
  destruct (Z.leb_spec (16 * c) (16 * q)); lia.
Qed.
Lemma rank_first n q p : page_ok p → 0 < q → 16 * q < p → 16 * q < n → rank n q 16 < rank n q p.
Proof.
  intros (c & -> & _) Hq Hp Hn. unfold rank. rewrite page_number. change (16 / 16) with 1.
  pose proof (Z.div_mod n 16 ltac:(lia)). pose proof (Z.mod_pos_bound n 16 ltac:(lia)).
  repeat match goal with |- context [?x <=? ?y] => destruct (Z.leb_spec x y) end; lia.
Qed.
(** The page after one that is not that of number [q] is closer to it. *)
Lemma rank_closer n m q p :
  page_ok p → 0 ≤ q → p ≠ 16 * q → 16 * q < m → p < m → m ≤ n → n ≤ 100000 →
  rank n q (next_page p (Z.min 16 (m - p))) < rank n q p.
Proof.
  intros (c & -> & Hc) Hq Hne Hqm Hcm Hmn Hn. unfold rank at 2. rewrite page_number.
  pose proof (Z.div_mod n 16 ltac:(lia)). pose proof (Z.mod_pos_bound n 16 ltac:(lia)).
  unfold next_page, RECOVERY_BATCH.
  destruct (Z.eqb_spec (Z.min 16 (m - 16 * c)) 16); [destruct (Z.ltb_spec (16 * c) (100000 - 16))|]; simpl;
    [replace (16 * c + 16) with (16 * (c + 1)) by lia; unfold rank; rewrite page_number
    |unfold rank; change (0 / 16) with 0..];
    repeat match goal with |- context [?x <=? ?y] => destruct (Z.leb_spec x y) end; lia.
Qed.
End rounds.

Section liveness.
Context `{FirstByte}.
Lemma page_elem ids k i q :
  (ids : list string) !! k = Some i → Z.of_nat k / 16 = q →
  16 * q < count ids ∧ i ∈ take 16 (drop (Z.to_nat (16 * q)) ids).
Proof.
  intros Hk <-. pose proof (lookup_lt_Some _ _ _ Hk). unfold count.
  pose proof (Z.div_mod (Z.of_nat k) 16 ltac:(lia)). pose proof (Z.mod_pos_bound (Z.of_nat k) 16 ltac:(lia)).
  split; [lia|]. apply list_elem_of_lookup. exists (k - Z.to_nat (16 * (Z.of_nat k / 16)))%nat.
  rewrite lookup_take_lt by lia. rewrite lookup_drop. rewrite <- Hk. f_equal. lia.
Qed.
Lemma page_count {A} (ids : list A) p :
  0 ≤ p ≤ count ids → count (take 16 (drop (Z.to_nat p) ids)) = Z.min 16 (count ids - p).
Proof. unfold count. intros Hp. rewrite length_take, length_drop. lia. Qed.
(** A turn works on the page of the intent, or comes closer to it. *)
Lemma chosen_holds most q i t p :
  queue_holds most q i t → page_ok p → most ≤ 100000 →
  ∃ offset l, chosen (t_read t) p = Some (offset, l) ∧ page_ok offset
    ∧ (i ∈ l ∨ rank most q (next_page offset (count l)) < rank most q p).
Proof.
  intros Hq Hp Hm. destruct (Hq p) as (ids & k & Hr & Hn & Hk & Hkq).
  destruct (page_elem _ _ _ _ Hk Hkq) as [Hqn Hin].
  assert (Hq0 : 0 ≤ q) by (subst q; apply Z.div_pos; lia).
  assert (Hp0 : 0 ≤ p ≤ 100000) by (destruct Hp as (c & -> & ?); lia). rewrite Z.min_l in Hr by lia.
  unfold chosen. rewrite Hr. destruct (Z.le_gt_cases (count ids) p) as [Hpast|Hbefore].
  - rewrite (drop_ge ids) by (unfold count in Hpast; lia). simpl. destruct (Z.eqb_spec p 0) as [->|_]; [lia|].
    destruct (Hq 0) as (ids0 & k0 & Hr0 & Hn0 & Hk0 & Hkq0). rewrite Hr0. simpl.
    destruct (page_elem _ _ _ _ Hk0 Hkq0) as [Hqn0 Hin0].
    eexists 0, _. split; [reflexivity|]. split; [by exists 0|].
    destruct (decide (q = 0)) as [->|Hne]; [left; exact Hin0|right].
    change (take 16 ids0) with (take 16 (drop (Z.to_nat 0) ids0)). rewrite page_count by lia.
    rewrite Z.min_l by lia. apply rank_first; [done|lia..].
  - assert (Hc : count (take 16 (drop (Z.to_nat p) ids)) = Z.min 16 (count ids - p)) by (apply page_count; lia).
    destruct (take 16 (drop (Z.to_nat p) ids)) as [|x r] eqn:E; [unfold count in *; simpl in Hc; lia|].
    rewrite <- E in *. eexists p, _. split; [reflexivity|]. split; [done|].
    destruct (decide (p = 16 * q)) as [->|Hne]; [left; exact Hin|right].
    rewrite Hc. apply rank_closer; (done || lia).
Qed.
(** Within a round of the queue the intent is asked for. *)
Lemma asked_within_round a most q i l : ∀ s,
  most ≤ 100000 → page_ok (page s a) → turns a s l → Forall (queue_holds most q i) l →
  0 ≤ q → 16 * q < most → rank most q (page s a) ≤ count l →
  ∃ t c, t ∈ l ∧ Due a i c ∈ t_ops t.
Proof.
  induction l as [|t l IH]; intros s Hn Hp Ht Hq Hq0 Hqn Hr.
  { destruct (rank_bound most q (page s a)) as [Hpos _]; [done..|]. unfold count in *. simpl in Hr. lia. }
  destruct Ht as (Hw & _ & _ & Ht). apply Forall_cons in Hq as [Hqt Hql].
  destruct (chosen_holds most q i t (page s a) Hqt Hp Hn) as (offset & r & Hc & Ho & Hcase).
  pose proof (worked_page a s t Hw) as Hpage. unfold worked in Hw. rewrite Hc in Hw, Hpage.
  destruct Hcase as [Hin|Hlt].
  { destruct Hw as [_ Hw]. destruct (Hw i Hin) as [c Hd]. exists t, c. split; [by left|done]. }
  destruct (IH (run_ops s (t_ops t)).2) as (t' & c & Ht' & Hc'); try done.
  - rewrite Hpage. by apply next_page_ok.
  - rewrite Hpage. unfold count in *. simpl in Hr. lia.
  - exists t', c. split; [by right|done].
Qed.

Lemma waits_run l : ∀ s t,
  waits t s → (∀ o c, o ∈ l → op_clock o = Some c → c ≤ t) → waits t (run_ops s l).2.
Proof.
  induction l as [|o l IH]; intros s t Hw Ho; [done|]. simpl.
  assert (Hw' : waits t (op_step s o).2) by (apply waits_step; [done|]; intros c; apply Ho; by left).
  destruct (op_step s o) as [b s1]. specialize (IH s1 t Hw' ltac:(intros; eapply Ho; [by right|done])).
  by destruct (run_ops s1 l).
Qed.
Lemma waits_turns a t rest : ∀ past s,
  (∀ t', head (past ++ t :: rest) = Some t' → waits (t_start t') s) →
  turns a s (past ++ t :: rest) → waits (t_start t) (run_turns s past).2.
Proof.
  induction past as [|t1 past IH]; intros s Hw Ht; [by apply Hw|]. destruct Ht as (_ & Hc & Hs & Ht). simpl in *.
  specialize (IH (run_ops s (t_ops t1)).2). destruct (run_ops s (t_ops t1)) as [b1 s1] eqn:E1. simpl in *.
  destruct (run_turns s1 past) as [b2 s2]. simpl in *. apply IH; [|done]. intros t' Ht'.
  specialize (Hw t1 eq_refl). replace s1 with (run_ops s (t_ops t1)).2 by (by rewrite E1).
  destruct (past ++ t :: rest) as [|t2 more]; [done|]. injection Ht' as ->. apply waits_run.
  - intros x attempt Hx. specialize (Hw x attempt Hx). lia.
  - intros o c Ho Hoc. by destruct (Hc o c Ho Hoc).
Qed.
Lemma turns_later a l : ∀ s t0,
  turns a s (t0 :: l) → ∀ t o c, t ∈ t0 :: l → o ∈ t_ops t → op_clock o = Some c → t_start t0 ≤ c.
Proof.
  induction l as [|t1 l IH]; intros s t0 (_ & Hc & Hs & Ht) t o c Hin Ho Hoc.
  - apply list_elem_of_singleton in Hin as ->. by destruct (Hc o c Ho Hoc).
  - apply elem_of_cons in Hin as [->|Hin]; [by destruct (Hc o c Ho Hoc)|].
    specialize (IH _ _ Ht t o c Hin Ho Hoc). lia.
Qed.

(** The schedule stays bounded, whatever is asked of it. *)
Lemma pruned_size clock key m : (Z.of_nat (size m) ≤ 16384 → pruned clock key m !! key = None → Z.of_nat (size (pruned clock key m)) < 16384).
Proof.
  intros Hm. unfold pruned. destruct (16384 <=? Z.of_nat (size m)) eqn:E; simpl.
  - case_bool_decide as Hk; simpl; [intros Hn; destruct Hk as [? Hk]; congruence|].
    destruct (Z.leb_spec 16384 (Z.of_nat (size (filter (λ kv, clock < ra_due kv.2) m)))); [|done].
    intros _. rewrite map_size_empty. done.
  - intros _. by apply Z.leb_gt in E.
Qed.
Lemma pruned_le clock key m : Z.of_nat (size m) ≤ 16384 → Z.of_nat (size (pruned clock key m)) ≤ 16384.
Proof.
  intros Hm. unfold pruned. destruct (_ && _); [|done]. destruct (_ <=? _) eqn:E; [rewrite map_size_empty; done|].
  apply Z.leb_gt in E. lia.
Qed.
Lemma insert_le (key : string * string) (attempt : RecoveryAttempt) (m : gmap (string * string) RecoveryAttempt) n :
  Z.of_nat (size m) ≤ n → (m !! key = None → Z.of_nat (size m) < n) → Z.of_nat (size (<[key := attempt]> m)) ≤ n.
Proof. intros Hm Hn. rewrite map_size_insert. destruct (m !! key); [done|]. specialize (Hn eq_refl). lia. Qed.
Lemma schedule_bounded s l :
  Z.of_nat (size (rs_attempts s)) ≤ 16384 → Z.of_nat (size (rs_attempts (run_ops s l).2)) ≤ 16384.
Proof.
  revert s. induction l as [|o l IH]; intros s Hs; [done|]. simpl.
  assert (Ho : Z.of_nat (size (rs_attempts (op_step s o).2)) ≤ 16384).
  { destruct o as [a offset n|a i clock|a i|a i d n]; simpl; [done| | |].
    - unfold due. destruct (_ <? _); simpl; apply insert_le;
        first [by apply pruned_le|by apply pruned_size].
    - rewrite map_size_delete. destruct (rs_attempts s !! (a, i)); [|done]. simpl. lia.
    - unfold overdue_incident. destruct (_ <? _); [done|]. destruct (_ !! _) as [old|] eqn:E; [|done].
      destruct (ra_incident_emitted old); [done|]. simpl. apply insert_le; [done|]. by rewrite E. }
  destruct (op_step s o) as [b s1]. specialize (IH s1 Ho). by destruct (run_ops s1 l).
Qed.

(** C33: No unsettled intent waits for ever.  Take any history of the maintenance loop of an
    account, with everything that the other accounts do to the shared schedule in between, and
    any turn of it.  Thirty and a quarter seconds later every intent is due, whatever its backoff
    was, and one round of the queue (as many turns as its pages) suffices for it to be looked at
    again, if it stays on its page of the queue during that round: the other intents of the queue,
    of which there are at most [most], may come, go and change places.  An intent that moves to
    another page in the round may have to wait for the next one. *)
Theorem every_intent_retried a i past t0 recent t1 late most q :
  turns a empty_schedule (past ++ t0 :: recent ++ t1 :: late) →
  t_start t0 + from_millis 30250 ≤ t_start t1 →
  Forall (queue_holds most q i) (t1 :: late) → most ≤ 100000 →
  most / 16 + 1 ≤ count (t1 :: late) →
  ∃ c, (Due a i c, true) ∈ (run_turns (run_turns empty_schedule past).2 (t0 :: recent ++ t1 :: late)).1.
Proof.
  intros Ht Hlong Hq Hn Hround.
  assert (Hempty : page_ok (page empty_schedule a)) by (by exists 0).
  assert (Hwaits : waits (t_start t0) (run_turns empty_schedule past).2).
  { eapply waits_turns; [|exact Ht]. intros t' _ x attempt Hx. simpl in Hx. by rewrite lookup_empty in Hx. }
  destruct (turns_page_ok a _ _ _ Hempty Ht) as [Hp0 Ht0].
  set (s0 := (run_turns empty_schedule past).2) in *.
  destruct (turns_page_ok a (t1 :: late) (t0 :: recent) s0 Hp0 Ht0) as [Hp1 Ht1].
  assert (Hq0 : 0 ≤ q ∧ 16 * q < most).
  { apply Forall_cons in Hq as [H1 _]. destruct (H1 0) as (ids & k & _ & Hm & Hk & Hkq).
    destruct (page_elem _ _ _ _ Hk Hkq) as [? _]. split; [subst q; apply Z.div_pos; lia|lia]. }
  destruct (asked_within_round a most q i (t1 :: late) _ Hn Hp1 Ht1 Hq) as (t & c & Hin & Hc); try apply Hq0.
  { destruct Hq0. etransitivity; [by apply rank_bound|exact Hround]. }
  rewrite run_turns_ops. apply (idle_fires a i (t_start t0 + longest)).
  - intros attempt Ha. by eapply Hwaits.
  - exists c. split.
    + apply list_elem_of_In, in_concat. exists (t_ops t). split; [|by apply list_elem_of_In].
      apply list_elem_of_In, list_elem_of_fmap. exists t. split; [done|].
      right. apply elem_of_app. by right.
    + pose proof (turns_later a late _ t1 Ht1 t (Due a i c) c Hin Hc eq_refl). unfold longest. lia.
Qed.
End liveness.

Section witnesses.
#[local] Instance no_jitter : FirstByte := λ _, 0.
Definition demo_turn (ids : list string) (at_ : Z) : Turn := {|
  t_start := from_millis at_; t_read := λ offset, Some (take 16 (drop (Z.to_nat (Z.min offset 100000)) ids));
  t_ops := Advance "a" 0 (count ids) :: map (λ i, Due "a" i (from_millis at_)) ids |}.
(** Another intent comes before ["i1"] in the last turn. *)
Definition demo_turns : list Turn :=
  [demo_turn ["i1"] 0; demo_turn ["i1"] 500; demo_turn ["i1"] 1000; demo_turn ["i0"; "i1"] 30250].
(** Asked after half a second the schedule says no; after one second it says yes. *)
Example demo_looks :
  omap (λ o, match o with (Due _ i c, b) => Some (i, c, b) | _ => None end) (run_turns empty_schedule demo_turns).1
  = [("i1", 0, true); ("i1", from_millis 500, false); ("i1", from_millis 1000, true);
     ("i0", from_millis 30250, true); ("i1", from_millis 30250, true)].
Proof. vm_compute. reflexivity. Qed.
Lemma demo_worked s ids at_ : page s "a" = 0 → ids = ["i1"] ∨ ids = ["i0"; "i1"] → worked "a" s (demo_turn ids at_).
Proof.
  intros E Hids. unfold worked. rewrite E.
  assert (Hc : chosen (t_read (demo_turn ids at_)) 0 = Some (0, ids)) by (by destruct Hids as [->| ->]).
  rewrite Hc. split; [by destruct Hids as [->| ->]|]. intros i Hi. exists (from_millis at_). right.
  apply list_elem_of_fmap. by exists i.
Qed.
Lemma demo_times ids at_ o c : o ∈ t_ops (demo_turn ids at_) → op_clock o = Some c → c = from_millis at_.
Proof.
  intros [->|(i & -> & _)%list_elem_of_fmap]%elem_of_cons; [done|]. by intros [= <-].
Qed.
Lemma demo_turns_ok : turns "a" empty_schedule demo_turns.
Proof.
  unfold demo_turns. cbn [turns].
  repeat (split; [apply demo_worked; [vm_compute; reflexivity|by auto]|]; split;
    [intros o c Ho Hc; rewrite (demo_times _ _ _ _ Ho Hc); split; vm_compute; first [discriminate|exact I]|];
    split; [vm_compute; first [discriminate|exact I]|]). exact I.
Qed.
Lemma every_intent_retried_witness :
  ∃ c, (Due "a" "i1" c, true) ∈ (run_turns empty_schedule demo_turns).1.
Proof.
  refine (every_intent_retried "a" "i1" [] (demo_turn ["i1"] 0) [demo_turn ["i1"] 500; demo_turn ["i1"] 1000]
            (demo_turn ["i0"; "i1"] 30250) [] 2 0 demo_turns_ok _ _ _ _).
  - vm_compute. discriminate.
  - constructor; [|constructor]. intros offset. exists ["i0"; "i1"], 1%nat. repeat split; vm_compute; done.
  - vm_compute. discriminate.
  - vm_compute. discriminate.
Defined.
End witnesses.
