(* ===== verification/Lots.v ===== *)
(** * Lots: position lots and their arithmetic, [okx-execution/src/finance] and [risk]

    [reduce_fifo] takes a quantity from the lots of one instance, oldest first;
    [allocate_funding] splits an amount by exposure; [position_pnl] prices a reduction.
    [reduce_fifo_oldest_first] says which lot gives how much, [allocate_funding_conserves]
    that no part of the amount is lost.  Operators that panic are [Panic]. *)
From stdpp Require Import base option list numbers strings.
From Stdlib Require Import ZArith QArith Qround Qminmax Qabs Sorted Lia Lqa String.
From S2P Require Import Prelude Text Ordered External Decimals.
Local Open Scope string_scope.
Local Open Scope list_scope.
Local Open Scope Z_scope.

(** The rest of [rust_decimal::Decimal] that the ledger uses: [-x], and
    [round_dp_with_strategy] with [ToZero] and [AwayFromZero]; [to_i64] truncates. *)
Class DecimalMoney (D : Type) `{DecimalArith D} : Type := {
  dec_neg : D → D;
  round_to_zero : nat → D → D;
  round_away : nat → D → D;
  dec_to_i64 : D → option Z;
}.
Class MoneyLaws (D : Type) `{DecimalMoney D, !DecimalLaws D} : Prop := {
  representable_val : ∀ x : D, representable (val x);
  representable_opp : ∀ q : Q, representable q → representable (- q)%Q;
  neg_exact : ∀ x : D, (val (dec_neg x) == - val x)%Q;
  abs_exact : ∀ x : D, (val (dec_abs x) == Qabs (val x))%Q;
  to_i64_exact : ∀ (x : D) z, dec_to_i64 x = Some z → (val x == inject_Z (Qfloor (val x)))%Q → (val x == inject_Z z)%Q;
  away_grows : ∀ n (x : D), (0 <= val x)%Q → (val x <= val (round_away n x))%Q;
  mul_one : ∀ x y z : D, checked_mul x y = Some z → (val y == 1)%Q → (val z == val x)%Q;
}.

Section lots.
Context {D : Type} `{DecimalMoney D}.

Record PositionLot : Type := {
  pl_contract_value : D;
  pl_inverse : bool;
  pl_lot_id : string;
  pl_instance_id : option string;
  pl_instrument_id : string;
  pl_signed_qty : D;
  pl_unit_cost : D;
  pl_opened_at : Z;
}.
Definition with_qty (q : D) (l : PositionLot) : PositionLot := {|
  pl_contract_value := pl_contract_value l; pl_inverse := pl_inverse l; pl_lot_id := pl_lot_id l;
  pl_instance_id := pl_instance_id l; pl_instrument_id := pl_instrument_id l; pl_signed_qty := q;
  pl_unit_cost := pl_unit_cost l; pl_opened_at := pl_opened_at l |}.
Definition position_pnl (quantity entry exit contract_value : D) (inverse : bool) (direction : D) : result failure D :=
  if dec_leb entry dec_zero || dec_leb exit dec_zero || dec_leb contract_value dec_zero
  then Err (Error "INVALID_CONTRACT_MECHANICS") else
  delta ← overflow (if inverse
                    then e ← checked_div dec_one entry; x ← checked_div dec_one exit; checked_sub e x
                    else checked_sub exit entry);
  overflow (q ← checked_mul quantity contract_value; v ← checked_mul q delta; checked_mul v direction).

Record LotReduction : Type := {
  lr_lot_id : string;
  lr_quantity : D;
  lr_realized_pnl : D;
}.
(** The lots of the instance, with their indices *)
Definition reducible (instance instrument : string) (l : PositionLot) : bool :=
  match pl_instance_id l with Some i => (i =? instance)%string | None => false end
  && (pl_instrument_id l =? instrument)%string && negb (dec_eqb (pl_signed_qty l) dec_zero).
Definition lot_key (l : PositionLot) : Z * string := (pl_opened_at l, pl_lot_id l).
Definition selection (instance instrument : string) (lots : list PositionLot) : list (nat * PositionLot) :=
  sort_by (cmp_on (λ il, lot_key il.2))
    (List.filter (λ il, reducible instance instrument il.2) (imap pair lots)).
Fixpoint consume (exit : D) (sel : list (nat * PositionLot)) (remaining : D)
    : result failure (list (nat * D) * list LotReduction) :=
  match sel with
  | [] => Ok ([], [])
  | (i, l) :: rest =>
    if dec_eqb remaining dec_zero then Ok ([], []) else
    let qty := dec_min remaining (dec_abs (pl_signed_qty l)) in
    let direction := if dec_ltb dec_zero (pl_signed_qty l) then dec_one else dec_neg dec_one in
    pnl ← position_pnl qty (pl_unit_cost l) exit (pl_contract_value l) (pl_inverse l) direction;
    signed ← panicking (checked_mul qty direction);
    left ← overflow (checked_sub (pl_signed_qty l) signed);
    remaining' ← panicking (checked_sub remaining qty);
    '(updates, reductions) ← consume exit rest remaining';
    Ok ((i, left) :: updates,
        {| lr_lot_id := pl_lot_id l; lr_quantity := qty; lr_realized_pnl := pnl |} :: reductions)
  end.
Definition apply_update (lots : list PositionLot) (u : nat * D) : list PositionLot := alter (with_qty u.2) u.1 lots.
Definition reduce_fifo (lots : list PositionLot) (instance instrument : string) (quantity exit_price : D)
    : result failure (list PositionLot * list LotReduction) :=
  if dec_leb quantity dec_zero || dec_leb exit_price dec_zero then Err (Error "INVALID_REDUCTION") else
  let sel := selection instance instrument lots in
  available ← try_fold (λ a il, overflow (checked_add a (dec_abs (pl_signed_qty il.2)))) dec_zero sel;
  if dec_ltb available quantity then Err (Error "INSTANCE_POSITION_INSUFFICIENT") else
  '(updates, reductions) ← consume exit_price sel quantity;
  Ok (foldl apply_update lots updates, reductions).

(** ** [allocate_funding] *)
Definition shares (amount total : D) (scale : nat) (exposures : list (string * D)) (allocated : D)
    : result failure (list (string * D) * D) :=
  try_fold (λ '(out, allocated) '(id, q),
    v ← overflow (v ← checked_mul amount q; checked_div v total);
    let a := round_to_zero scale v in
    allocated ← overflow (checked_add allocated a);
    Ok (out ++ [(id, a)], allocated)) ([], allocated) exposures.
Definition allocate_funding (amount : D) (exposures : list (string * D)) (scale : nat) : result failure (list (string * D)) :=
  if (28 <? scale)%nat then Err (Error "UNSUPPORTED_PRECISION") else
  total ← try_fold (λ a iq, overflow (checked_add a iq.2)) dec_zero exposures;
  if dec_eqb total dec_zero then Ok [("unattributed", amount)] else
  '(out, allocated) ← shares amount total scale exposures dec_zero;
  residual ← overflow (checked_sub amount allocated);
  Ok (out ++ [("rounding_residual", residual)]).

(** ** [nav.rs] and [coverage.rs] *)
Record NavComponents : Type := {
  nc_opening_equity : D;
  nc_trading_pnl : D;
  nc_fees : D;
  nc_funding : D;
  nc_external_flows : D;
  nc_valuation_effects : D;
}.
Definition equity (n : NavComponents) : result failure D :=
  try_fold (λ a b, overflow (checked_add a b)) (nc_opening_equity n)
    [nc_trading_pnl n; nc_fees n; nc_funding n; nc_external_flows n; nc_valuation_effects n].
Definition profit (n : NavComponents) : result failure D :=
  try_fold (λ a b, overflow (checked_add a b)) (nc_trading_pnl n) [nc_fees n; nc_funding n; nc_valuation_effects n].

(** ** [risk/admission.rs] *)
Record AdmissionEvidence : Type := {
  ae_now : Z;
  ae_deadline : Z;
  ae_quote_at : Z;
  ae_account_at : Z;
  ae_public_generation : Z;
  ae_private_generation : Z;
  ae_quote_generation : Z;
  ae_account_generation : Z;
  ae_rules_generation : Z;
  ae_policy_revision : Z;
  ae_planned_policy_revision : Z;
  ae_risk_increase : bool;
  ae_paused : bool;
  ae_stopped : bool;
  ae_complete : bool;
  ae_confirmed_reduce_qty : D;
  ae_requested_qty : D;
}.
Record FreshnessLimits : Type := { fl_quote_ms : Z; fl_account_ms : Z }.
Definition default_limits : FreshnessLimits := {| fl_quote_ms := 2000; fl_account_ms := 5000 |}.
(** Times are milliseconds of the present era: their differences do not overflow. *)
Definition evaluate_admission (e : AdmissionEvidence) (ttl : FreshnessLimits) : result failure unit :=
  if ae_deadline e <=? ae_now e then Err (Error "COMMAND_EXPIRED") else
  if negb (ae_policy_revision e =? ae_planned_policy_revision e) then Err (Error "POLICY_CHANGED") else
  if negb (ae_quote_generation e =? ae_public_generation e)
     || negb (ae_rules_generation e =? ae_public_generation e)
     || negb (ae_account_generation e =? ae_private_generation e)
  then Err (Error "SOURCE_GENERATION_MISMATCH") else
  if (ae_now e <? ae_quote_at e) || (fl_quote_ms ttl <? ae_now e - ae_quote_at e)
  then Err (Error "WAITING_FRESH_QUOTE") else
  if (ae_now e <? ae_account_at e) || (fl_account_ms ttl <? ae_now e - ae_account_at e) || negb (ae_complete e)
  then Err (Error "WAITING_ACCOUNT_EVIDENCE") else
  if dec_leb (ae_requested_qty e) dec_zero then Err (Error "INVALID_SIZE") else
  if ae_risk_increase e then
    if ae_paused e || ae_stopped e then Err (Error "RISK_INCREASE_STOPPED") else Ok tt
  else if dec_ltb (ae_confirmed_reduce_qty e) (ae_requested_qty e)
  then Err (Error "CONFIRMED_REDUCTION_EXCEEDED") else Ok tt.
Definition reserve_units (amount : D) : result failure Z :=
  if dec_ltb amount dec_zero then Err (Error "NEGATIVE_RESERVE") else
  scaled ← overflow (checked_mul amount (dec_of_int 1000000000));
  overflow (dec_to_i64 (dec_ceil scaled)).
Definition utc_day (timestamp_ms : Z) : Z := timestamp_ms / 86400000.
End lots.
Arguments PositionLot D : clear implicits.
Arguments LotReduction D : clear implicits.
Arguments NavComponents D : clear implicits.
Arguments AdmissionEvidence D : clear implicits.

Inductive Coverage : Type := Complete | Partial (reason : string) | UnavailableBeforeT0.
Definition coverage_at (time t0 : Z) (gaps : list (Z * Z)) : Coverage :=
  if time <? t0 then UnavailableBeforeT0
  else if existsb (λ ab, (ab.1 <=? time) && (time <=? ab.2)) gaps then Partial "SOURCE_COVERAGE_GAP" else Complete.

(** ** The concrete decimal *)
Import FixedArith.
Definition trunc_to (n : nat) (x : Fixed.t) : Fixed.t :=
  if (Fixed.scale x <=? n)%nat then x
  else Fixed.mk (Z.quot (Fixed.mantissa x) (Fixed.pow10 (Fixed.scale x - n))) n.
Definition away_to (n : nat) (x : Fixed.t) : Fixed.t :=
  if Fixed.mantissa x <? 0
  then Fixed.mk (- Fixed.mantissa (up n (Fixed.mk (- Fixed.mantissa x) (Fixed.scale x))))
         (Fixed.scale (up n (Fixed.mk (- Fixed.mantissa x) (Fixed.scale x))))
  else up n x.
#[export] Instance fixed_money : DecimalMoney Fixed.t := {
  dec_neg x := Fixed.mk (- Fixed.mantissa x) (Fixed.scale x);
  round_to_zero := trunc_to;
  round_away := away_to;
  dec_to_i64 x := let z := Z.quot (Fixed.mantissa x) (Fixed.pow10 (Fixed.scale x)) in
                  if (i64_min <=? z) && (z <=? i64_max) then Some z else None;
}.
#[export] Instance fixed_money_laws : MoneyLaws Fixed.t.
Proof.
  split.
  - done.
  - done.
  - intros x. unfold val, fixed_laws, value, dec_neg, fixed_money, Qopp. done.
  - intros x. unfold val, fixed_laws, value, dec_abs, fixed_arith, Qabs. done.
  - intros x z. unfold dec_to_i64, fixed_money. destruct (_ && _); [|done]. intros [= <-].
    unfold val, fixed_laws, value, Qfloor, inject_Z, Qeq. simpl. rewrite !pow_pos, !Z.mul_1_r. intros E.
    pose proof (Fixed.pow10_pos (Fixed.scale x)) as Hp. set (p := Fixed.pow10 (Fixed.scale x)) in *.
    set (m := Fixed.mantissa x) in *. set (k := m / p) in *. clearbody k m p. subst m. by rewrite Z.quot_mul by lia.
  - intros n x Hx. unfold round_away, fixed_money, away_to. destruct (Z.ltb_spec (Fixed.mantissa x) 0) as [Hn|_]; [|apply up_value].
    unfold val, fixed_laws, value, Qle in Hx. simpl in Hx. lia.
  - intros x y z [= <-] Hy. rewrite normalize_value.
    unfold val, fixed_laws, value, Qeq in *. simpl in *. rewrite !pow_pos, pow10_add in *. nia.
Qed.

(** ** Sums *)
Definition qsum (l : list Q) : Q := foldr Qplus 0%Q l.
Lemma qsum_app l1 l2 : (qsum (l1 ++ l2) == qsum l1 + qsum l2)%Q.
Proof. induction l1 as [|x l1 IH]; simpl; [lra|]. rewrite IH. lra. Qed.
Lemma qsum_perm l1 l2 : l1 ≡ₚ l2 → (qsum l1 == qsum l2)%Q.
Proof. induction 1; simpl; lra. Qed.
Lemma qsum_nonneg l : (∀ x, x ∈ l → 0 <= x)%Q → (0 <= qsum l)%Q.
Proof.
  induction l as [|x l IH]; intros Hl; simpl; [lra|]. pose proof (Hl x ltac:(left)).
  specialize (IH ltac:(intros; apply Hl; by right)). lra.
Qed.
Lemma qsum_take_le l k : (∀ x, x ∈ l → 0 <= x)%Q → (qsum (take k l) <= qsum l)%Q.
Proof.
  intros Hl. rewrite <- (take_drop k l) at 2. rewrite qsum_app.
  assert (0 <= qsum (drop k l))%Q; [|lra]. apply qsum_nonneg. intros x Hx. apply Hl.
  rewrite <- (take_drop k l). apply elem_of_app. by right.
Qed.
(** The part of [s] that is taken when [r] is left to take *)
Definition clamped (r s : Q) : Q := Qmax 0 (Qmin s r).
Lemma clamped_spec r s : (0 <= s → 0 <= clamped r s /\ clamped r s <= s /\
  (s <= r -> clamped r s == s) /\ (0 <= r -> r <= s -> clamped r s == r) /\ (r <= 0 -> clamped r s == 0))%Q.
Proof.
  intros Hs. unfold clamped.
  destruct (Q.max_spec 0 (Qmin s r)) as [[? ->]|[? ->]], (Q.min_spec s r) as [[? Em]|[? Em]];
    rewrite Em in *; repeat split; intros; lra.
Qed.
#[export] Instance clamped_proper : Proper (Qeq ==> Qeq ==> Qeq) clamped.
Proof. intros r r' Hr s s' Hs. unfold clamped. by rewrite Hr, Hs. Qed.

Section fifo.
Context {D : Type} `{MoneyLaws D}.
(** Quantities of lots: exact under the subtraction of a smaller one *)
Variable grid : Q → Prop.
Hypothesis grid_proper : ∀ p q, (p == q)%Q → grid p → grid q.
Hypothesis grid_sub : ∀ p q, grid p → grid q → (q <= p)%Q → grid (p - q)%Q.
Hypothesis grid_exact : ∀ q, grid q → representable q.

Definition size_of (l : PositionLot D) : Q := Qabs (val (pl_signed_qty l)).
Definition sizes (sel : list (nat * PositionLot D)) : list Q := map (λ il, size_of il.2) sel.
Lemma size_nonneg l : (0 <= size_of l)%Q.
Proof. apply Qabs_nonneg. Qed.
Lemma sizes_nonneg sel x : x ∈ sizes sel → (0 <= x)%Q.
Proof. unfold sizes. intros (il & -> & _)%list_elem_of_fmap. apply size_nonneg. Qed.
(** What is left of a lot, when [t] is taken from it *)
Definition lessened (l : PositionLot D) (d : D) (t : Q) : Prop :=
  (Qabs (val d) == size_of l - t)%Q ∧ (0 < val (pl_signed_qty l) → 0 <= val d)%Q
  ∧ (val (pl_signed_qty l) < 0 → val d <= 0)%Q.

Lemma sub_grid (x y z : D) :
  checked_sub x y = Some z → grid (val x) → grid (val y) → (val y <= val x)%Q → (val z == val x - val y)%Q.
Proof. intros E Hx Hy Hle. apply (sub_exact _ _ _ E). apply grid_exact. by apply grid_sub. Qed.
Lemma min_exact (x y : D) : (val (dec_min x y) == Qmin (val x) (val y))%Q.
Proof.
  unfold dec_min. destruct (dec_leb x y) eqn:E; [apply dec_leb_val in E|apply dec_leb_false in E];
    destruct (Q.min_spec (val x) (val y)) as [[? ->]|[? ->]]; lra.
Qed.
Lemma consume_one l (qty direction signed left_ : D) :
  grid (size_of l) → grid (val qty) → (0 <= val qty)%Q → (val qty <= size_of l)%Q →
  direction = (if dec_ltb dec_zero (pl_signed_qty l) then dec_one else dec_neg dec_one) →
  checked_mul qty direction = Some signed → checked_sub (pl_signed_qty l) signed = Some left_ →
  lessened l left_ (val qty).
Proof.
  intros Hg Hq Hpos Hle -> Em Es. unfold lessened, size_of in *.
  pose proof (grid_exact _ (grid_sub _ _ Hg Hq Hle)) as Hrep.
  destruct (dec_ltb dec_zero (pl_signed_qty l)) eqn:Es0.
  - apply dec_ltb_val in Es0. rewrite val_zero in Es0.
    assert (Ha : (Qabs (val (pl_signed_qty l)) == val (pl_signed_qty l))%Q) by (apply Qabs_pos; lra).
    assert (Ev : (val signed == val qty)%Q) by (apply (mul_one _ _ _ Em), val_one).
    assert (El : (val left_ == val (pl_signed_qty l) - val signed)%Q).
    { apply (sub_exact _ _ _ Es). eapply representable_proper; [|exact Hrep]. rewrite Ev, Ha. reflexivity. }
    rewrite Ha in *. split; [rewrite Qabs_pos by lra; lra|split; intros; lra].
  - apply dec_ltb_false in Es0. rewrite val_zero in Es0.
    assert (Ha : (Qabs (val (pl_signed_qty l)) == - val (pl_signed_qty l))%Q) by (apply Qabs_neg; lra).
    assert (Eo : (val (dec_neg (dec_one (D:=D))) == - (1))%Q) by (by rewrite neg_exact, val_one).
    assert (Ev : (val signed == - val qty)%Q).
    { assert ((val signed == val qty * val (dec_neg (dec_one (D:=D))))%Q) as ->; [|rewrite Eo; ring].
      apply (mul_exact _ _ _ Em). eapply representable_proper; [|apply representable_opp, (representable_val qty)].
      rewrite Eo. ring. }
    assert (El : (val left_ == val (pl_signed_qty l) - val signed)%Q).
    { apply (sub_exact _ _ _ Es). eapply representable_proper; [|apply representable_opp, Hrep].
      rewrite Ev, Ha. ring. }
    rewrite Ha in *. split; [rewrite Qabs_neg by lra; lra|split; intros; lra].
Qed.

(** [consume] takes from each lot what the ones before it left to take. *)
Lemma consume_spec exit_ sel : ∀ (r : D) us rs,
  grid (val r) → (0 <= val r)%Q → (∀ il, il ∈ sel → grid (size_of il.2)) →
  consume exit_ sel r = Ok (us, rs) →
  (List.length us ≤ List.length sel ∧ List.length rs ≤ List.length sel)%nat
  ∧ (∀ k i l, sel !! k = Some (i, l) →
      let t := clamped (val r - qsum (take k (sizes sel))) (size_of l) in
      (∃ d rd, us !! k = Some (i, d) ∧ rs !! k = Some rd ∧ lessened l d t
               ∧ lr_lot_id rd = pl_lot_id l ∧ (val (lr_quantity rd) == t)%Q)
      ∨ us !! k = None ∧ rs !! k = None ∧ (t == 0)%Q)
  ∧ (qsum (map (λ rd, val (lr_quantity rd)) rs) == Qmin (val r) (qsum (sizes sel)))%Q.
Proof.
  induction sel as [|[i l] sel IH]; intros r us rs Hg Hr Hsel; simpl.
  { intros [= <- <-]. split; [done|]. split; [done|]. simpl. symmetry. by apply Q.min_r. }
  pose proof (Hsel (i, l) ltac:(left)) as Hgl. simpl in Hgl. pose proof (size_nonneg l) as Hs.
  assert (Hnn : ∀ k, (0 <= qsum (take k (sizes ((i, l) :: sel))))%Q).
  { intros k. apply qsum_nonneg. intros x Hx. eapply sizes_nonneg. rewrite <- (take_drop k).
    apply elem_of_app. left. exact Hx. }
  assert (Hnn' : ∀ k, (0 <= qsum (take k (sizes sel)))%Q).
  { intros k. apply qsum_nonneg. intros x Hx. apply (sizes_nonneg sel). rewrite <- (take_drop k (sizes sel)).
    apply elem_of_app. by left. }
  destruct (dec_eqb r dec_zero) eqn:E0.
  { apply dec_eqb_val in E0. rewrite val_zero in E0. intros [= <- <-]. split; [simpl; lia|]. split.
    - intros k j l' Hk. right. split; [done|]. split; [done|].
      apply clamped_spec; [apply size_nonneg|]. specialize (Hnn k). simpl in *. lra.
    - simpl. rewrite Q.min_l; [lra|]. specialize (Hnn' (List.length (sizes sel))).
      rewrite firstn_all in Hnn'. lra. }
  intros Hc. apply bind_ok in Hc as (pnl & _ & Hc). apply bind_ok in Hc as (signed & Em & Hc).
  apply bind_ok in Hc as (left_ & Es & Hc). apply bind_ok in Hc as (r' & Er & Hc).
  apply bind_ok in Hc as ([us' rs'] & Hc & [= <- <-]).
  apply ok_or_ok in Em, Es, Er. set (qty := dec_min r (dec_abs (pl_signed_qty l))) in *.
  assert (Hqty : (val qty == Qmin (val r) (size_of l))%Q) by (unfold qty, size_of; by rewrite min_exact, abs_exact).
  assert (Hclamp : (val qty == clamped (val r) (size_of l))%Q).
  { rewrite Hqty. unfold clamped. rewrite Q.min_comm. symmetry. apply Q.max_r. apply Q.min_glb; lra. }
  pose proof (clamped_spec (val r) (size_of l) Hs) as (Hc0 & Hc1 & Hc2 & Hc3 & _).
  assert (Hgq : grid (val qty)).
  { destruct (Q.min_spec (val r) (size_of l)) as [[_ Em']|[_ Em']]; rewrite Em' in Hqty;
      (eapply grid_proper; [symmetry; exact Hqty|]); done. }
  pose proof (consume_one l qty _ signed left_ Hgl Hgq ltac:(lra) ltac:(lra) eq_refl Em Es) as Hl.
  assert (Hqr : (val qty <= val r)%Q) by (rewrite Hqty; apply Q.le_min_l).
  assert (Er' : (val r' == val r - val qty)%Q) by (apply (sub_grid _ _ _ Er); done).
  destruct (IH r' us' rs') as (Hlen & Hk & Hsum); [|lra| |exact Hc|].
  { eapply grid_proper; [symmetry; exact Er'|]. by apply grid_sub. }
  { intros il Hil. apply Hsel. by right. }
  split; [simpl; lia|]. split.
  - intros [|k] j l'; simpl.
    + intros [= <- <-]. left. exists left_. eexists. do 2 (split; [reflexivity|]). simpl.
      assert (Et : (clamped (val r - 0) (size_of l) == val qty)%Q).
      { rewrite Hclamp. apply clamped_proper; [ring|reflexivity]. }
      split; [|split; [done|by symmetry]]. destruct Hl as (Hl1 & Hl2 & Hl3). split; [by rewrite Et|done].
    + intros Hsk. specialize (Hk k j l' Hsk). simpl in Hk.
      assert (Et : (clamped (val r - (size_of l + qsum (take k (sizes sel)))) (size_of l')
                    == clamped (val r' - qsum (take k (sizes sel))) (size_of l'))%Q).
      { destruct (Qlt_le_dec (val r) (size_of l)) as [Hlt|Hge].
        - assert (val r' == 0)%Q by (rewrite Er', Hclamp, Hc3; lra). specialize (Hnn' k).
          pose proof (clamped_spec (val r - (size_of l + qsum (take k (sizes sel)))) (size_of l') (size_nonneg l')) as (_ & _ & _ & _ & Z1).
          pose proof (clamped_spec (val r' - qsum (take k (sizes sel))) (size_of l') (size_nonneg l')) as (_ & _ & _ & _ & Z2).
          rewrite Z1, Z2 by lra. reflexivity.
        - apply clamped_proper; [|reflexivity]. rewrite Er', Hclamp, Hc2 by lra. ring. }
      destruct Hk as [(d & rd & Hu & Hd & (L1 & L2 & L3) & Hid & Hq)|(Hu & Hd & Hz)].
      * left. exists d, rd. do 2 (split; [done|]). split; [|split; [done|by rewrite Et]]. split; [by rewrite Et|done].
      * right. do 2 (split; [done|]). by rewrite Et.
  - simpl. rewrite Hsum, Er'. destruct (Q.min_spec (val r) (size_of l)) as [[Hlt Em']|[Hle Em']]; rewrite Em' in Hqty.
    + specialize (Hnn' (List.length (sizes sel))). rewrite firstn_all in Hnn'.
      rewrite !Q.min_l by lra. lra.
    + rewrite Hqty. destruct (Q.min_spec (val r - size_of l) (qsum (sizes sel))) as [[? ->]|[? ->]],
        (Q.min_spec (val r) (size_of l + qsum (sizes sel))) as [[? ->]|[? ->]]; lra.
Qed.

(** ** The lots of an instance, oldest first *)
Definition before_lot (instance instrument : string) (l m : PositionLot D) : bool :=
  reducible instance instrument m
  && ((pl_opened_at m <? pl_opened_at l)
      || (pl_opened_at m =? pl_opened_at l) && match kcmp (pl_lot_id m) (pl_lot_id l) with Lt => true | _ => false end).
Lemma before_key (l m : PositionLot D) :
  match kcmp (lot_key m) (lot_key l) with Lt => true | _ => false end
  = (pl_opened_at m <? pl_opened_at l)
    || (pl_opened_at m =? pl_opened_at l) && match kcmp (pl_lot_id m) (pl_lot_id l) with Lt => true | _ => false end.
Proof.
  unfold lot_key. rewrite kcmp_pair. change (kcmp (pl_opened_at m) (pl_opened_at l)) with (pl_opened_at m ?= pl_opened_at l).
  destruct (Z.compare_spec (pl_opened_at m) (pl_opened_at l)) as [->|Hl|Hl].
  - by rewrite Z.ltb_irrefl, Z.eqb_refl.
  - apply Z.ltb_lt in Hl. by rewrite Hl.
  - rewrite (proj2 (Z.ltb_ge _ _)), (proj2 (Z.eqb_neq _ _)) by lia. done.
Qed.
Definition earlier (instance instrument : string) (lots : list (PositionLot D)) (l : PositionLot D) : Q :=
  qsum (map size_of (List.filter (before_lot instance instrument l) lots)).
Definition share_of (instance instrument : string) (lots : list (PositionLot D)) (quantity : D) (l : PositionLot D) : Q :=
  clamped (val quantity - earlier instance instrument lots l) (size_of l).

Lemma selection_elem instance instrument lots i l :
  (i, l) ∈ selection instance instrument lots ↔ lots !! i = Some l ∧ reducible instance instrument l = true.
Proof.
  unfold selection. rewrite sort_by_elem, list_elem_of_In, filter_In, <- list_elem_of_In, elem_of_lookup_imap.
  split.
  - intros [(j & y & [= <- <-] & Hj) Hr]. done.
  - intros [Hl Hr]. split; [|done]. by exists i, l.
Qed.
Lemma imap_pair_NoDup {A} (l : list A) : NoDup (imap pair l).*1.
Proof.
  assert ((imap pair l).*1 = seq 0 (List.length l)) as ->; [|apply NoDup_seq].
  rewrite fmap_imap, (imap_ext _ (λ i _, i) l) by done. by rewrite imap_seq_0, list_fmap_id.
Qed.
Lemma selection_NoDup instance instrument lots : NoDup (selection instance instrument lots).*1.
Proof.
  unfold selection. rewrite (fmap_Permutation fst _ _ (sort_by_perm _ _)).
  pose proof (imap_pair_NoDup lots) as Hnd. revert Hnd. generalize (imap pair lots). intros m.
  induction m as [|x m IH]; [done|]. simpl. intros [Hx Hnd]%NoDup_cons. destruct (reducible _ _ _); [|by apply IH].
  simpl. apply NoDup_cons. split; [|by apply IH]. intros Hin. apply Hx.
  apply list_elem_of_fmap in Hin as (y & -> & Hy). apply list_elem_of_fmap. exists y. split; [done|].
  apply list_elem_of_In, filter_In in Hy as [Hy _]. by apply list_elem_of_In.
Qed.
Lemma selection_strict instance instrument (lots : list (PositionLot D)) :
  NoDup (map pl_lot_id lots) →
  StronglySorted (λ x y, kcmp (lot_key x.2) (lot_key y.2) = Lt) (selection instance instrument lots).
Proof.
  intros Hnd. apply (sorted_strict (λ il : nat * PositionLot D, lot_key il.2)).
  - eapply NoDup_fmap_1. apply selection_NoDup.
  - intros [i l] [j m] Hi Hj E. apply selection_elem in Hi as [Hi _], Hj as [Hj _].
    apply kcmp_eq in E. unfold lot_key in E. injection E as _ E. simpl in *.
    assert (i = j) as ->; [|by rewrite Hi in Hj; injection Hj as ->].
    eapply NoDup_lookup; [exact Hnd| |]; rewrite list_lookup_fmap; [by rewrite Hi|by rewrite Hj, E].
  - apply (sort_by_key_sorted (λ il : nat * PositionLot D, lot_key il.2)).
Qed.
(** In a list without repeated keys that is sorted, the elements before one are those with a lesser key. *)
Lemma filter_before {A K} `{OrdLaws K} (key : A → K) (l : list A) k x :
  StronglySorted (λ x y, kcmp (key x) (key y) = Lt) l → l !! k = Some x →
  List.filter (λ y, match kcmp (key y) (key x) with Lt => true | _ => false end) l = take k l.
Proof.
  revert k. induction l as [|y l IH]; intros k Hs Hk; [done|]. apply StronglySorted_inv in Hs as [Hsl Hy].
  rewrite Forall_forall in Hy. destruct k as [|k]; simpl in *.
  - injection Hk as ->. rewrite kcmp_refl. clear IH Hsl.
    induction l as [|z l IH]; [done|]. simpl. rewrite kcmp_antisym, (Hy z) by left. simpl.
    apply IH. intros. apply Hy. by right.
  - rewrite (Hy x) by (by eapply list_elem_of_lookup_2). f_equal. by apply IH.
Qed.
Lemma filter_imap_pair {A} (p q : A → bool) (l : list A) :
  List.filter (λ il : nat * A, q il.2) (List.filter (λ il : nat * A, p il.2) (imap pair l))
  = List.filter (λ il : nat * A, p il.2 && q il.2) (imap pair l).
Proof.
  generalize (imap pair l). intros m. induction m as [|x m IH]; [done|]. simpl.
  destruct (p x.2); simpl; [|done]. by destruct (q x.2); rewrite IH.
Qed.
Lemma map_filter_imap {A B} (f : A → B) (p : A → bool) (l : list A) :
  map (λ il : nat * A, f il.2) (List.filter (λ il, p il.2) (imap pair l)) = map f (List.filter p l).
Proof.
  assert (∀ g : nat → nat, map (λ il : nat * A, f il.2) (List.filter (λ il, p il.2) (imap (λ i x, (g i, x)) l))
          = map f (List.filter p l)) as Hg; [|apply (Hg (λ i, i))].
  induction l as [|x l IH]; intros g; [done|]. simpl.
  specialize (IH (λ i, g (S i))). unfold compose in *.
  destruct (p x); simpl; [f_equal|]; exact IH.
Qed.
Lemma filter_perm {A} (p : A → bool) (l1 l2 : list A) : l1 ≡ₚ l2 → List.filter p l1 ≡ₚ List.filter p l2.
Proof.
  induction 1 as [|x l1 l2 _ IH|x y l|l1 l2 l3 _ IH1 _ IH2]; simpl; [done| | |by etransitivity].
  - destruct (p x); by rewrite IH.
  - destruct (p x), (p y); try done. constructor.
Qed.
(** The sizes before a lot of the selection are those of the lots before it. *)
Lemma earlier_take instance instrument lots k i l :
  NoDup (map pl_lot_id lots) → selection instance instrument lots !! k = Some (i, l) →
  (qsum (take k (sizes (selection instance instrument lots))) == earlier instance instrument lots l)%Q.
Proof.
  intros Hnd Hk. unfold earlier, sizes.
  pose proof (filter_before (λ il : nat * PositionLot D, lot_key il.2) _ _ _ (selection_strict _ _ _ Hnd) Hk) as Hf.
  simpl in Hf. change (take k (map (λ il, size_of il.2) (selection instance instrument lots)))
    with (take k ((λ il, size_of il.2) <$> selection instance instrument lots)).
  rewrite <- fmap_take, <- Hf. apply qsum_perm.
  etransitivity; [apply fmap_Permutation, filter_perm; unfold selection; apply sort_by_perm|].
  rewrite (filter_imap_pair (reducible instance instrument)
             (λ m, match kcmp (lot_key m) (lot_key l) with Lt => true | _ => false end)).
  rewrite <- (map_filter_imap size_of (before_lot instance instrument l)).
  f_equiv. apply filter_ext. intros il. unfold before_lot. by rewrite before_key.
Qed.

Lemma updates_other us : ∀ (lots : list (PositionLot D)) i, i ∉ us.*1 → foldl apply_update lots us !! i = lots !! i.
Proof.
  induction us as [|[j d] us IH]; intros lots i Hi; [done|]. simpl in *. apply not_elem_of_cons in Hi as [Hne Hi].
  rewrite IH by done. unfold apply_update. simpl. apply list_lookup_alter_ne. congruence.
Qed.
Lemma updates_own us : ∀ (lots : list (PositionLot D)) i d,
  NoDup us.*1 → (i, d) ∈ us → foldl apply_update lots us !! i = with_qty d <$> lots !! i.
Proof.
  induction us as [|[j e] us IH]; intros lots i d Hnd Hi; [by apply elem_of_nil in Hi|]. simpl in *.
  apply NoDup_cons in Hnd as [Hj Hnd]. apply elem_of_cons in Hi as [[= -> ->]|Hi].
  - rewrite updates_other by done. unfold apply_update. simpl. apply list_lookup_alter_eq.
  - rewrite (IH _ i d) by done. unfold apply_update. simpl. rewrite list_lookup_alter_ne; [done|].
    intros <-. apply Hj. apply list_elem_of_fmap. by exists (j, d).
Qed.
Lemma sum_available (sel : list (nat * PositionLot D)) : ∀ a v,
  try_fold (λ a il, overflow (checked_add a (dec_abs (pl_signed_qty il.2)))) a sel = Ok v →
  (∀ k, representable (val a + qsum (take k (sizes sel)))%Q) → (val v == val a + qsum (sizes sel))%Q.
Proof.
  induction sel as [|il sel IH]; intros a v Hv Hrep; simpl in *; [injection Hv as ->; lra|].
  apply bind_ok in Hv as (b & Hb & Hv). apply ok_or_ok in Hb.
  assert (Eb : (val b == val a + size_of il.2)%Q).
  { rewrite (add_exact _ _ _ Hb), abs_exact; [done|]. eapply representable_proper; [|apply (Hrep 1%nat)].
    simpl. rewrite abs_exact. unfold size_of. ring. }
  rewrite (IH b v Hv), Eb; [lra|]. intros k. eapply representable_proper; [|apply (Hrep (S k))].
  simpl. rewrite Eb. ring.
Qed.

(** What a reduction takes from each lot of its selection *)
Lemma reduce_fifo_takes instance instrument (lots lots' : list (PositionLot D)) (quantity exit_ : D) rs :
  reduce_fifo lots instance instrument quantity exit_ = Ok (lots', rs) →
  grid (val quantity) → (∀ l, l ∈ lots → grid (size_of l)) →
  (∀ k, representable (qsum (take k (sizes (selection instance instrument lots))))) →
  let sel := selection instance instrument lots in
  ∃ us, lots' = foldl apply_update lots us ∧ NoDup us.*1
  ∧ (List.length us ≤ List.length sel ∧ List.length rs ≤ List.length sel)%nat
  ∧ (∀ k i d, us !! k = Some (i, d) → ∃ l, sel !! k = Some (i, l))
  ∧ (∀ k i l, sel !! k = Some (i, l) →
      let t := clamped (val quantity - qsum (take k (sizes sel))) (size_of l) in
      (∃ d rd, us !! k = Some (i, d) ∧ rs !! k = Some rd ∧ lessened l d t
               ∧ lr_lot_id rd = pl_lot_id l ∧ (val (lr_quantity rd) == t)%Q)
      ∨ us !! k = None ∧ rs !! k = None ∧ (t == 0)%Q)
  ∧ (qsum (map (λ rd, val (lr_quantity rd)) rs) == val quantity)%Q.
Proof.
  unfold reduce_fifo. intros Hr Hg Hgl Hrep. destruct (_ || _) eqn:Ep; [done|]. reflect_decs.
  rewrite val_zero in *. apply bind_ok in Hr as (available & Ha & Hr).
  destruct (dec_ltb available quantity) eqn:Eq; [done|]. reflect_decs.
  apply bind_ok in Hr as ([us rs'] & Hc & [= <- <-]).
  set (sel := selection instance instrument lots) in *.
  assert (Hin : ∀ il, il ∈ sel → grid (size_of il.2)).
  { intros [i l] Hil. apply selection_elem in Hil as [Hil _]. apply Hgl. by eapply list_elem_of_lookup_2. }
  assert (Hsum : (val available == qsum (sizes sel))%Q).
  { rewrite (sum_available sel _ _ Ha), val_zero; [lra|]. intros k. eapply representable_proper; [|apply (Hrep k)].
    rewrite val_zero. ring. }
  destruct (consume_spec exit_ sel quantity us rs' Hg ltac:(lra) Hin Hc) as ([Hlen Hlen'] & Hk & Hq).
  assert (Hfst : ∀ k i d, us !! k = Some (i, d) → ∃ l, sel !! k = Some (i, l)).
  { intros k i d Hu. destruct (sel !! k) as [[j l]|] eqn:E.
    - destruct (Hk k j l E) as [(d' & rd & Hu' & _)|(Hu' & _)]; rewrite Hu in Hu'; [injection Hu' as -> ->|done]. by exists l.
    - apply lookup_lt_Some in Hu. apply lookup_ge_None in E. lia. }
  exists us. split; [done|]. split; [|split_and!; try done; rewrite Hq; apply Q.min_l; lra].
  pose proof (selection_NoDup instance instrument lots) as Hns. fold sel in Hns.
  apply NoDup_alt. intros a b x. rewrite !list_lookup_fmap.
  intros ([i d] & Ea & ->)%fmap_Some ([j e] & Eb & Ej)%fmap_Some. simpl in Ej. subst j.
  destruct (Hfst _ _ _ Ea) as [l Hl], (Hfst _ _ _ Eb) as [m Hm].
  eapply NoDup_lookup; [exact Hns| |]; rewrite list_lookup_fmap; [by rewrite Hl|by rewrite Hm].
Qed.

(** C34: A reduction takes exactly its quantity from the lots of its own instance, oldest
    first: a lot gives what the lots before it left to take, at most what it has, and keeps
    its sign; the lots of other instances and instruments are as they were, and the
    reductions that are reported are these amounts.  Quantities lie on a grid on which the
    decimals subtract exactly. *)
Theorem reduce_fifo_oldest_first instance instrument (lots lots' : list (PositionLot D)) (quantity exit_ : D) rs :
  reduce_fifo lots instance instrument quantity exit_ = Ok (lots', rs) →
  NoDup (map pl_lot_id lots) → grid (val quantity) → (∀ l, l ∈ lots → grid (size_of l)) →
  (∀ k, representable (qsum (take k (sizes (selection instance instrument lots))))) →
  (∀ i l, lots !! i = Some l → ∃ d, lots' !! i = Some (with_qty d l)
     ∧ if reducible instance instrument l then lessened l d (share_of instance instrument lots quantity l)
       else d = pl_signed_qty l)
  ∧ List.length lots' = List.length lots
  ∧ (∀ rd, rd ∈ rs → ∃ l, l ∈ lots ∧ reducible instance instrument l = true ∧ pl_lot_id l = lr_lot_id rd
       ∧ val (lr_quantity rd) == share_of instance instrument lots quantity l)%Q
  ∧ (qsum (map (λ rd, val (lr_quantity rd)) rs) == val quantity)%Q.
Proof.
  intros Hr Hnd Hg Hgl Hrep. destruct (reduce_fifo_takes _ _ _ _ _ _ _ Hr Hg Hgl Hrep) as (us & -> & Hndu & [Hlen Hlen'] & Hfst & Hk & Hq).
  set (sel := selection instance instrument lots) in *. clear Hr.
  split; [|split; [|split]].
  - intros i l Hl. destruct (reducible instance instrument l) eqn:Er.
    + assert (Hil : (i, l) ∈ sel) by (by apply selection_elem). apply list_elem_of_lookup in Hil as [k Hik].
      assert (Et : (clamped (val quantity - qsum (take k (sizes sel))) (size_of l)
                    == share_of instance instrument lots quantity l)%Q).
      { unfold share_of. pose proof (earlier_take _ _ _ _ _ _ Hnd Hik) as He. fold sel in He. by rewrite He. }
      destruct (Hk k i l Hik) as [(d & rd & Hu & _ & (L1 & L2 & L3) & _)|(Hu & _ & Hz)].
      * exists d. rewrite (updates_own us lots i d Hndu) by (by eapply list_elem_of_lookup_2).
        rewrite Hl. split; [done|]. split; [by rewrite <- Et|done].
      * exists (pl_signed_qty l). rewrite updates_other, Hl.
        -- split; [by destruct l|]. split; [rewrite <- Et, Hz; unfold size_of; ring|]. split; intros; lra.
        -- intros ([j d] & -> & Hj)%list_elem_of_fmap. apply list_elem_of_lookup in Hj as [k' Hk'].
           destruct (Hfst _ _ _ Hk') as [m Hm]. simpl in *.
           assert (k' = k) as ->; [|congruence]. pose proof (selection_NoDup instance instrument lots) as Hns.
           fold sel in Hns. eapply NoDup_lookup; [exact Hns| |]; rewrite list_lookup_fmap; [by rewrite Hm|by rewrite Hik].
    + exists (pl_signed_qty l). rewrite updates_other, Hl; [split; [by destruct l|done]|].
      intros ([j d] & -> & Hj)%list_elem_of_fmap. apply list_elem_of_lookup in Hj as [k' Hk'].
      destruct (Hfst _ _ _ Hk') as [m Hm]. apply list_elem_of_lookup_2 in Hm. apply selection_elem in Hm as [Hm Hr].
      simpl in *. congruence.
  - clear. revert lots. induction us as [|u us IH]; intros lots; [done|]. simpl. rewrite IH. apply length_alter.
  - intros rd Hrd. apply list_elem_of_lookup in Hrd as [k Hrd].
    destruct (sel !! k) as [[i l]|] eqn:E.
    + pose proof (selection_elem instance instrument lots i l) as [Hs _].
      destruct (Hs ltac:(by eapply list_elem_of_lookup_2)) as [Hl Hred]. exists l.
      split; [by eapply list_elem_of_lookup_2|]. split; [done|].
      destruct (Hk k i l E) as [(d & rd' & _ & Hrd' & _ & Hid & Hqt)|(_ & Hn & _)]; [|congruence].
      rewrite Hrd in Hrd'. injection Hrd' as <-. split; [done|]. rewrite Hqt. unfold share_of.
      pose proof (earlier_take _ _ _ _ _ _ Hnd E) as He. fold sel in He. by rewrite He.
    + apply lookup_lt_Some in Hrd. apply lookup_ge_None in E. lia.
  - exact Hq.
Qed.
(** The lots lose the quantity, and nothing but their quantities changes. *)
Lemma updates_total us : ∀ (lots : list (PositionLot D)) ts,
  NoDup us.*1 → Forall2 (λ u t, ∃ l, lots !! u.1 = Some l ∧ (Qabs (val u.2) == size_of l - t)%Q) us ts →
  (qsum (map size_of (foldl apply_update lots us)) == qsum (map size_of lots) - qsum ts)%Q.
Proof.
  induction us as [|[i d] us IH]; intros lots ts Hnd Hf; apply Forall2_cons_inv_l in Hf || apply Forall2_nil_inv_l in Hf.
  { subst ts. simpl. ring. }
  destruct Hf as (t & ts' & (l & Hl & Ed) & Hf & ->). simpl in *. apply NoDup_cons in Hnd as [Hi Hnd].
  rewrite (IH _ ts' Hnd).
  - unfold apply_update. simpl. rewrite <- (take_drop_middle _ _ _ Hl) at 1.
    rewrite alter_app_r_alt by (rewrite length_take; lia).
    assert (i - List.length (take i lots) = 0)%nat as -> by (apply lookup_lt_Some in Hl; rewrite length_take; lia).
    rewrite <- (take_drop_middle _ _ _ Hl) at 3. rewrite !map_app, !qsum_app. simpl. unfold size_of at 2. simpl. rewrite Ed. ring.
  - clear IH. induction Hf as [|[j e] t' us ts' (m & Hm & Ee) Hf IH]; [constructor|]. simpl in *.
    apply not_elem_of_cons in Hi as [Hne Hi]. apply NoDup_cons in Hnd as [_ Hnd]. constructor; [|by apply IH].
    exists m. split; [|done]. unfold apply_update. simpl. by rewrite list_lookup_alter_ne.
Qed.
Lemma updates_shape us : ∀ lots : list (PositionLot D), Forall2 (λ l l', ∃ d, l' = with_qty d l) lots (foldl apply_update lots us).
Proof.
  induction us as [|[i d] us IH]; intros lots; simpl.
  { induction lots as [|l lots IH]; constructor; [|done]. exists (pl_signed_qty l). by destruct l. }
  assert (Forall2 (λ l l', ∃ d, l' = with_qty d l) lots (apply_update lots (i, d))) as Hone.
  { unfold apply_update. simpl. clear. revert i. induction lots as [|l lots IH]; intros i; [constructor|].
    destruct i as [|i]; simpl; constructor; try (by eexists); [|exists (pl_signed_qty l); by destruct l|by apply IH].
    clear. induction lots as [|m lots IH]; constructor; [|done]. exists (pl_signed_qty m). by destruct m. }
  specialize (IH (apply_update lots (i, d))). revert IH Hone. generalize (apply_update lots (i, d)). intros mid H2' H1'.
  revert H2'. generalize (foldl apply_update mid us). clear -H1'. induction H1' as [|l m lots mid [d ->] _ IH]; intros out Hf.
  - apply Forall2_nil_inv_l in Hf as ->. constructor.
  - apply Forall2_cons_inv_l in Hf as (o & out' & [e ->] & Hf & ->). constructor; [by exists e|by apply IH].
Qed.
Lemma reduce_fifo_total instance instrument (lots lots' : list (PositionLot D)) (quantity exit_ : D) rs :
  reduce_fifo lots instance instrument quantity exit_ = Ok (lots', rs) →
  grid (val quantity) → (∀ l, l ∈ lots → grid (size_of l)) →
  (∀ k, representable (qsum (take k (sizes (selection instance instrument lots))))) →
  (qsum (map size_of lots') == qsum (map size_of lots) - val quantity)%Q
  ∧ Forall2 (λ l l', ∃ d, l' = with_qty d l) lots lots'.
Proof.
  intros Hr Hg Hgl Hrep. destruct (reduce_fifo_takes _ _ _ _ _ _ _ Hr Hg Hgl Hrep) as (us & -> & Hnd & [Hlen Hlen'] & Hfst & Hk & Hq).
  split; [|apply updates_shape]. rewrite <- Hq. apply updates_total; [done|]. apply Forall2_fmap_r.
  apply Forall2_same_length_lookup_2.
  - destruct (Nat.lt_trichotomy (List.length us) (List.length rs)) as [Hlt|[->|Hlt]]; [|done|]; exfalso.
    + destruct (lookup_lt_is_Some_2 (selection instance instrument lots) (List.length us) ltac:(lia)) as [[i l] Hs].
      destruct (Hk _ _ _ Hs) as [(d & rd & Hu & _)|(_ & Hn & _)]; [apply lookup_lt_Some in Hu|apply lookup_ge_None in Hn]; lia.
    + destruct (lookup_lt_is_Some_2 (selection instance instrument lots) (List.length rs) ltac:(lia)) as [[i l] Hs].
      destruct (Hk _ _ _ Hs) as [(d & rd & _ & Hu & _)|(Hn & _ & _)]; [apply lookup_lt_Some in Hu|apply lookup_ge_None in Hn]; lia.
  - intros k [i d] rd Hu Hrd. destruct (Hfst _ _ _ Hu) as [l Hs].
    destruct (Hk _ _ _ Hs) as [(d' & rd' & Hu' & Hrd' & (L1 & _ & _) & _ & Eq)|(Hn & _)]; [|congruence].
    rewrite Hu in Hu'. rewrite Hrd in Hrd'. injection Hu' as <-. injection Hrd' as <-. exists l. simpl.
    split; [|by rewrite Eq]. apply list_elem_of_lookup_2, selection_elem in Hs. apply Hs.
Qed.
End fifo.

(** ** Splitting an amount, and rounding it up *)
Section amounts.
Context {D : Type} `{MoneyLaws D}.
Lemma shares_sum (amount total : D) scale exposures : ∀ out0 a0 out a,
  try_fold (λ '(out, allocated) '(id, q),
    v ← overflow (v ← checked_mul amount q; checked_div v total);
    let a := round_to_zero scale v in
    allocated ← overflow (checked_add allocated a);
    Ok (out ++ [(id, a)], allocated)) (out0, a0) exposures = Ok (out, a) →
  ∃ new, out = out0 ++ new ∧ new.*1 = exposures.*1
    ∧ ((∀ k, representable (val a0 + qsum (take k (map (λ s : string * D, val s.2) new)))%Q) →
       (val a == val a0 + qsum (map (λ s : string * D, val s.2) new))%Q).
Proof.
  induction exposures as [|[id q] exposures IH]; intros out0 a0 out a; simpl.
  { intros [= <- <-]. exists []. rewrite app_nil_r. split; [done|]. split; [done|]. intros _. simpl. ring. }
  intros Hf. apply bind_ok in Hf as ([out1 a1] & Hs & Hf). apply bind_ok in Hs as (v & _ & Hs).
  apply bind_ok in Hs as (a2 & Ha & [= <- <-]). apply ok_or_ok in Ha.
  apply IH in Hf as (new & -> & Hid & Hsum). exists ((id, round_to_zero scale v) :: new).
  split; [by rewrite <- app_assoc|]. split; [simpl; f_equal; exact Hid|]. intros Hrep. simpl.
  assert (Ea : (val a2 == val a0 + val (round_to_zero scale v))%Q).
  { apply (add_exact _ _ _ Ha). eapply representable_proper; [|apply (Hrep 1%nat)]. simpl. ring. }
  rewrite Hsum, Ea; [ring|]. intros k. eapply representable_proper; [|apply (Hrep (S k))]. simpl. rewrite Ea. ring.
Qed.

(** A funding payment is split without loss: the shares of the owners and the rounding
    residual add up to exactly the amount, and without any exposure the whole amount stays
    unattributed. *)
Theorem allocate_funding_conserves (amount : D) exposures scale out :
  allocate_funding amount exposures scale = Ok out →
  (∀ k, representable (qsum (take k (map (λ s : string * D, val s.2) out)))) →
  (∀ k, representable (val amount - qsum (take k (map (λ s : string * D, val s.2) out)))%Q) →
  (qsum (map (λ s : string * D, val s.2) out) == val amount)%Q
  ∧ (out = [("unattributed", amount)] ∨ out.*1 = exposures.*1 ++ ["rounding_residual"]).
Proof.
  unfold allocate_funding. destruct (_ <? _)%nat; [done|]. intros Ha Hsum Hrest.
  apply bind_ok in Ha as (total & _ & Ha). destruct (dec_eqb total dec_zero).
  { injection Ha as <-. split; [simpl; ring|by left]. }
  apply bind_ok in Ha as ([shares_ allocated] & Hs & Ha). apply bind_ok in Ha as (residual & Hr & [= <-]).
  apply ok_or_ok in Hr. apply shares_sum in Hs as (new & -> & Hid & Hs). simpl in *.
  assert (Ht : ∀ k, (k ≤ List.length new)%nat →
    take k (map (λ s : string * D, val s.2) (new ++ [("rounding_residual", residual)])) = take k (map (λ s : string * D, val s.2) new)).
  { intros k Hk. rewrite map_app, take_app_le; [done|]. by rewrite length_map. }
  assert (Ea : (val allocated == qsum (map (λ s : string * D, val s.2) new))%Q).
  { rewrite Hs, val_zero; [ring|]. intros k. eapply representable_proper; [|apply (Hsum (k `min` List.length new)%nat)].
    rewrite Ht by lia. rewrite val_zero. destruct (Nat.le_ge_cases k (List.length new)).
    - rewrite Nat.min_l by done. ring.
    - rewrite Nat.min_r by done. rewrite !take_ge by (rewrite length_map; lia). ring. }
  split; [|right; by rewrite fmap_app, Hid].
  rewrite map_app, qsum_app. simpl. rewrite (sub_exact _ _ _ Hr).
  - rewrite Ea. ring.
  - eapply representable_proper; [|apply (Hrest (List.length new))]. rewrite Ht by lia.
    rewrite take_ge by (rewrite length_map; lia). by rewrite Ea.
Qed.

(** A reservation in central units never covers less than its amount, nor a unit more. *)
Lemma reserve_units_round_up (amount : D) n :
  reserve_units amount = Ok n → (val (dec_of_int (D:=D) 1000000000) == 1000000000)%Q →
  representable (val amount * 1000000000)%Q →
  (val amount * 1000000000 <= inject_Z n)%Q ∧ (inject_Z n < val amount * 1000000000 + 1)%Q.
Proof.
  unfold reserve_units. destruct (dec_ltb amount dec_zero) eqn:En; [done|]. intros Hn Hi Hrep.
  apply bind_ok in Hn as (scaled & Hs & Hn). apply ok_or_ok in Hs, Hn.
  assert (Es : (val scaled == val amount * 1000000000)%Q).
  { rewrite (mul_exact _ _ _ Hs), Hi; [done|]. eapply representable_proper; [|exact Hrep]. by rewrite Hi. }
  apply to_i64_exact in Hn.
  - rewrite ceil_exact in Hn. pose proof (Qle_ceiling (val scaled)). pose proof (Qceiling_lt (val scaled)).
    rewrite <- Hn, <- Es. split; [done|].
    assert (inject_Z (Qceiling (val scaled)) == inject_Z (Qceiling (val scaled) - 1) + 1)%Q; [|lra].
    unfold Z.sub. rewrite inject_Z_plus, inject_Z_opp. simpl. ring.
  - rewrite ceil_exact. apply inject_Z_injective. f_equal. symmetry. apply Qfloor_Z.
Qed.
End amounts.

Section witnesses.
Definition demo_lot (id : string) (owner : option string) (qty at_ : Z) : PositionLot Fixed.t := {|
  pl_contract_value := Fixed.mk 1 0; pl_inverse := false; pl_lot_id := id; pl_instance_id := owner;
  pl_instrument_id := "BTC"; pl_signed_qty := Fixed.mk qty 0; pl_unit_cost := Fixed.mk 10 0; pl_opened_at := at_ |}.
Definition demo_lots : list (PositionLot Fixed.t) :=
  [demo_lot "c" (Some "a") (-2) 3; demo_lot "b" (Some "b") 5 1; demo_lot "a" (Some "a") (-2) 1].
(** Three contracts of [a], bought back at 9: the older lot first, whole *)
Example demo_reduction :
  match reduce_fifo demo_lots "a" "BTC" (Fixed.mk 3 0) (Fixed.mk 9 0) with
  | Ok (lots, rs) => (map (λ l, FixedArith.show (pl_signed_qty l)) lots,
                      map (λ r, (lr_lot_id r, FixedArith.show (lr_quantity r), FixedArith.show (lr_realized_pnl r))) rs)
  | Err _ => ([], [])
  end = (["-1"; "5"; "0"], [("a", "2", "2"); ("c", "1", "1")]).
Proof. vm_compute. reflexivity. Qed.
Lemma reduce_fifo_oldest_first_witness :
  ∃ lots' rs, reduce_fifo demo_lots "a" "BTC" (Fixed.mk 3 0) (Fixed.mk 9 0) = Ok (lots', rs)
    ∧ (qsum (map (λ rd, val (lr_quantity rd)) rs) == 3)%Q.
Proof.
  eexists _, _. split; [vm_compute; reflexivity|].
  refine (proj2 (proj2 (proj2 (reduce_fifo_oldest_first (λ _, True) _ _ _ "a" "BTC" demo_lots _ (Fixed.mk 3 0) (Fixed.mk 9 0) _
            _ _ I _ _)))); try done.
  apply (bool_decide_unpack _). vm_compute. exact I.
Defined.
Lemma allocate_funding_conserves_witness :
  ∃ out, allocate_funding (Fixed.mk 1 0) [("a", Fixed.mk 1 0); ("b", Fixed.mk 2 0)] 2 = Ok out
    ∧ (qsum (map (λ s : string * Fixed.t, val s.2) out) == val (Fixed.mk 1 0))%Q.
Proof.
  eexists. split; [vm_compute; reflexivity|].
  refine (proj1 (allocate_funding_conserves (Fixed.mk 1 0) [("a", Fixed.mk 1 0); ("b", Fixed.mk 2 0)] 2 _ _ _ _)); try done.
Defined.
End witnesses.
