(* ===== verification/MoneyText.v ===== *)
(** * MoneyText: decimals as the texts of the database

    [MoneyText] is what [rust_decimal] documents of [normalize().to_string()] and
    [from_str]: a number is read back with its value, and zero is written ["0"].  The
    instance for the concrete decimal is proved here. *)
From stdpp Require Import base option list numbers strings pretty.
From Stdlib Require Import ZArith QArith Qabs Lia Lqa Ascii String.
From S2P Require Import Prelude Text Ordered External Decimals Lots.
Local Open Scope string_scope.
Local Open Scope Z_scope.

Class MoneyText (D : Type) `{MoneyLaws D} : Prop := {
  reads_back : ∀ x : D, ∃ y, dec_from_str (dec_to_string x) = Some y ∧ (val y == val x)%Q;
  zero_text : ∀ x : D, dec_to_string x = "0" ↔ (val x == 0)%Q;
}.

Section fixed.
Import Fixed FixedArith.

Lemma text_assoc (a b c : string) : a +:+ (b +:+ c) = (a +:+ b) +:+ c.
Proof.
  induction a as [|x a IH]; [done|]. change (String x (a +:+ (b +:+ c)) = String x ((a +:+ b) +:+ c)). by rewrite IH.
Qed.
Lemma text_nil (a : string) : a +:+ "" = a.
Proof. induction a as [|x a IH]; [done|]. change (String x (a +:+ "") = String x a). by rewrite IH. Qed.
Lemma digit_plain d : (d < 10)%N → (pretty_N_char d =? ".")%char = false ∧ (pretty_N_char d =? "-")%char = false.
Proof.
  intros Hd. assert (d = 0 ∨ d = 1 ∨ d = 2 ∨ d = 3 ∨ d = 4 ∨ d = 5 ∨ d = 6 ∨ d = 7 ∨ d = 8 ∨ d = 9)%N as Hc by lia.
  by repeat destruct Hc as [->|Hc]; [..|subst].
Qed.
Lemma parse_int_go n s : parse_int 0 (pretty_N_go n s) = parse_int (Z.of_N n) s.
Proof.
  revert s. induction n as [n IH] using (well_founded_induction N.lt_wf_0). intros s.
  destruct (N.eq_dec n 0) as [->|H0]; [by rewrite pretty_N_go_0|].
  rewrite pretty_N_go_step by lia. pose proof (N.mod_lt n 10 ltac:(done)) as Hm.
  rewrite IH by (apply N.div_lt; lia). simpl. destruct (digit_plain _ Hm) as [-> _].
  rewrite digit_pretty by done. simpl. f_equal. pose proof (N.div_mod n 10 ltac:(done)). lia.
Qed.
(** The integer part is read and the rest goes on from there. *)
Lemma parse_int_show n s :
  0 ≤ n → s = "" ∨ (∃ s', s = String "." s') →
  parse_int 0 (show_u64 n +:+ s) = parse_int n s.
Proof.
  intros Hn Hs. unfold show_u64, pretty, pretty_N. destruct (decide (Z.to_N n = 0%N)) as [H0|H0].
  - replace n with 0 by lia. simpl. by destruct Hs as [->|[s' ->]].
  - assert (∀ m a b, pretty_N_go m (a +:+ b) = pretty_N_go m a +:+ b) as Happ.
    { intros m. induction m as [m IH] using (well_founded_induction N.lt_wf_0). intros a b.
      destruct (N.eq_dec m 0) as [->|Hm]; [by rewrite !pretty_N_go_0|].
      rewrite !(pretty_N_go_step m) by lia. rewrite <- IH by (apply N.div_lt; lia). done. }
    rewrite <- Happ. simpl. rewrite parse_int_go. f_equal. lia.
Qed.
Lemma digit_ascii d : 0 ≤ d < 10 → digit (ascii_of_N (48 + Z.to_N d)) = Some d.
Proof.
  intros Hd. assert (d = 0 ∨ d = 1 ∨ d = 2 ∨ d = 3 ∨ d = 4 ∨ d = 5 ∨ d = 6 ∨ d = 7 ∨ d = 8 ∨ d = 9) as Hc by lia.
  by repeat destruct Hc as [->|Hc]; [..|subst].
Qed.
Lemma parse_frac_app n : ∀ m acc sc s,
  0 ≤ m < pow10 n → parse_frac acc sc (frac_digits n m +:+ s) = parse_frac (acc * pow10 n + m) (sc + n) s.
Proof.
  induction n as [|n IH]; intros m acc sc s Hm; simpl.
  { unfold pow10 in *. simpl in *. f_equal; lia. }
  assert (Hp : pow10 (S n) = 10 * pow10 n) by (unfold pow10; rewrite Nat2Z.inj_succ, Z.pow_succ_r; lia).
  pose proof (Z.div_mod m 10 ltac:(done)). pose proof (Z.mod_pos_bound m 10 ltac:(done)).
  rewrite <- text_assoc, IH by (split; [apply Z.div_pos; lia|apply Z.div_lt_upper_bound; lia]).
  simpl. rewrite digit_ascii by done. simpl. f_equal; [|lia]. rewrite Hp. lia.
Qed.
Lemma parse_unsigned m sc : 0 ≤ m →
  parse_int 0 (show_u64 (m / pow10 sc) +:+ match sc with O => "" | S n => "." +:+ frac_digits (S n) (m mod pow10 sc) end)
  = Some (mk m sc).
Proof.
  intros Hm. pose proof (pow10_pos sc) as Hp. rewrite parse_int_show.
  - destruct sc as [|sc]; simpl.
    + f_equal. f_equal. unfold pow10. simpl. by rewrite Z.div_1_r.
    + pose proof (parse_frac_app (S sc) (m mod pow10 (S sc)) (m / pow10 (S sc)) 0 "" (Z.mod_pos_bound _ _ Hp)) as E.
      rewrite text_nil in E.
      change (parse_frac (m / pow10 (S sc)) 0 (frac_digits (S sc) (m mod pow10 (S sc))) = Some (mk m (S sc))).
      rewrite E. cbn [parse_frac]. f_equal. f_equal.
      pose proof (Z.div_mod m (pow10 (S sc))). lia.
  - by apply Z.div_pos.
  - destruct sc; [by left|right; by eexists].
Qed.
Lemma show_u64_head n : 0 ≤ n → ∃ a t, show_u64 n = String a t ∧ (a =? "-")%char = false.
Proof.
  intros Hn. unfold show_u64, pretty, pretty_N. destruct (decide (Z.to_N n = 0%N)); [by eexists _, _|].
  assert (∀ m s, (0 < m)%N → ∃ a t, pretty_N_go m s = String a t ∧ (a =? "-")%char = false) as Hgo.
  { intros m. induction m as [m IH] using (well_founded_induction N.lt_wf_0). intros s Hm.
    rewrite pretty_N_go_step by done. destruct (N.eq_dec (m `div` 10) 0) as [->|Hq].
    - rewrite pretty_N_go_0. eexists _, _. split; [done|]. apply digit_plain, N.mod_lt. done.
    - apply IH; [apply N.div_lt; lia|by apply N.neq_0_lt_0]. }
  apply Hgo. lia.
Qed.
Lemma parse_show x : parse (show x) = Some x.
Proof.
  destruct x as [m sc]. unfold show. cbn [mantissa scale].
  set (tail := match sc with O => "" | S n => "." +:+ frac_digits (S n) (Z.abs m mod pow10 sc) end).
  pose proof (parse_unsigned (Z.abs m) sc ltac:(lia)) as E. fold tail in E.
  destruct (Z.ltb_spec m 0).
  - change ((x ← parse_int 0 (show_u64 (Z.abs m / pow10 sc) +:+ tail); Some (mk (- mantissa x) (scale x))) = Some (mk m sc)).
    rewrite E. cbn. f_equal. f_equal. lia.
  - change (parse (show_u64 (Z.abs m / pow10 sc) +:+ tail) = Some (mk m sc)).
    destruct (show_u64_head (Z.abs m / pow10 sc)) as (a & t & Es & Ha).
    { apply Z.div_pos; [lia|apply pow10_pos]. }
    rewrite Es in E |- *.
    change ((if (a =? "-")%char then x ← parse_int 0 (t +:+ tail); Some (mk (- mantissa x) (scale x))
             else parse_int 0 (String a t +:+ tail)) = Some (mk m sc)).
    rewrite Ha, E. f_equal. f_equal. lia.
Qed.
Lemma value_zero x : (value x == 0)%Q ↔ mantissa x = 0.
Proof. unfold value, Qeq. simpl. lia. Qed.
Lemma normalize_zero m sc : (value (mk m sc) == 0)%Q → normalize (mk m sc) = mk 0 0.
Proof.
  intros E%value_zero. simpl in E. subst m. unfold normalize. cbn [mantissa scale].
  induction sc as [|sc IH]; [done|]. exact IH.
Qed.
End fixed.
#[export] Instance fixed_money_text : MoneyText Fixed.t.
Proof.
  split.
  - intros x. exists (FixedArith.normalize x). split; [apply parse_show|apply FixedArith.normalize_value].
  - intros [m sc]. unfold dec_to_string, fixed_arith. split.
    + intros E. pose proof (parse_show (FixedArith.normalize (Fixed.mk m sc))) as P. rewrite E in P.
      change (Fixed.parse "0") with (Some (Fixed.mk 0 0)) in P. injection P as P.
      pose proof (FixedArith.normalize_value (Fixed.mk m sc)) as V. rewrite <- P in V.
      change (val (Fixed.mk m sc)) with (FixedArith.value (Fixed.mk m sc)). rewrite <- V. done.
    + intros Hz. by rewrite (normalize_zero m sc Hz).
Qed.
