(* ===== verification/Faults.v ===== *)
(** * Faults: decimal formulas that may refuse their input or panic

    The reports of okx-analysis and of [account_ledger.rs] compute with the operators
    [+ - * / %] of [Decimal], which panic on overflow and on a zero divisor, and return a
    typed error for bad input.  A computation is a [result (fault E)]: [Raised] is the
    error, [Panics] the panic.  [x +! y] and its siblings are the operators;
    [ksum] is [Iterator::sum]; [dtext] is [normalize().to_string()]. *)
From stdpp Require Import base option list numbers strings.
From Stdlib Require Import ZArith QArith Qabs Qround Lia Lqa Ascii String.
From S2P Require Import Prelude Text Ordered External Decimals Lots MoneyText.
Local Open Scope string_scope.
Local Open Scope Z_scope.

Inductive fault (E : Type) : Type := Raised (e : E) | Panics.
Arguments Raised {E} e.
Arguments Panics {E}.
Definition raise {E A} (e : E) : result (fault E) A := Err (Raised e).
Definition or_panic {E A} (o : option A) : result (fault E) A := ok_or Panics o.

(** The rest of [rust_decimal::Decimal]: the remainder and [normalize] *)
Class DecimalAnalysis (D : Type) `{DecimalMoney D} : Type := {
  checked_rem : D → D → option D;
  dec_normalize : D → D;
}.

Declare Scope fault_scope.
Delimit Scope fault_scope with fault.
Notation "x +! y" := (or_panic (checked_add x y)) (at level 50, left associativity) : fault_scope.
Notation "x -! y" := (or_panic (checked_sub x y)) (at level 50, left associativity) : fault_scope.
Notation "x *! y" := (or_panic (checked_mul x y)) (at level 40, left associativity) : fault_scope.
Notation "x /! y" := (or_panic (checked_div x y)) (at level 40, left associativity) : fault_scope.
Notation "x %! y" := (or_panic (checked_rem x y)) (at level 40, left associativity) : fault_scope.
Local Open Scope fault_scope.

(** [Iterator::sum::<Decimal>] *)
Definition ksum {E D} `{DecimalMoney D} (l : list D) : result (fault E) D :=
  try_fold (λ a x, a +! x) dec_zero l.
(** [value.normalize().to_string()] *)
Definition dtext {D} `{DecimalMoney D} (x : D) : string := dec_to_string x.
Definition is_zero {D} `{DecimalMoney D} (x : D) : bool := dec_eqb x dec_zero.

(** What the report crates rely on beyond [MoneyText]: [normalize] keeps the value, the
    remainder is zero exactly on multiples, and a quotient of non-negatives is not negative. *)
Class AnalysisLaws (D : Type) `{MoneyText D, !DecimalAnalysis D} : Prop := {
  normalize_exact : ∀ x : D, (val (dec_normalize x) == val x)%Q;
  rem_zero : ∀ x y z : D, checked_rem x y = Some z → (0 < val y)%Q →
    ((val z == 0)%Q ↔ ∃ k : Z, (val x == inject_Z k * val y)%Q);
  div_nonneg : ∀ x y z : D, checked_div x y = Some z → (0 <= val x)%Q → (0 < val y)%Q → (0 <= val z)%Q;
}.

(** ** Inversion *)
Lemma or_panic_ok {E A} (o : option A) (a : A) : or_panic (E:=E) o = Ok a → o = Some a.
Proof. apply ok_or_ok. Qed.
Lemma raise_not_ok {E A} (e : E) (a : A) : raise e = Ok a → False.
Proof. done. Qed.

Lemma bind_eq {E A B} (r : result E A) (k : A → result E B) a x : r = Ok a → k a = x → (r ≫= k) = x.
Proof. by intros ->. Qed.
(** Go through a computation whose steps are known. *)
Ltac run_fault := repeat (eapply bind_eq; [eassumption|]).

(** Take a successful computation apart, conditions included. *)
Ltac inv_fault H :=
  repeat match type of H with
  | (_ ≫= _) = Ok _ =>
      let a := fresh "a" in let Ha := fresh "Ha" in
      apply bind_ok in H; destruct H as (a & Ha & H); try inv_fault Ha
  | or_panic _ = Ok _ => apply or_panic_ok in H
  | ok_or _ _ = Ok _ => apply ok_or_ok in H
  | map_err _ _ = Ok _ => apply map_err_ok in H
  | raise _ = Ok _ => discriminate H
  | Err _ = Ok _ => discriminate H
  | (if ?c then _ else _) = Ok _ => let Hc := fresh "Hc" in destruct c eqn:Hc
  | match ?o with Some _ => _ | None => _ end = Ok _ => let Ho := fresh "Ho" in destruct o eqn:Ho
  | (let '(_, _) := ?p in _) = Ok _ => destruct p
  | Ok _ = Ok _ => injection H as H
  end.

(** An invariant that speaks of the elements already consumed *)
Lemma try_fold_track {E S A} (P : list A → S → Prop) (f : S → A → result E S) :
  (∀ pre s a s', P pre s → f s a = Ok s' → P (pre ++ [a])%list s') →
  ∀ l pre s s', P pre s → try_fold f s l = Ok s' → P (pre ++ l)%list s'.
Proof.
  intros Hstep. induction l as [|a l IH]; intros pre s s' HP E1; simpl in E1.
  - injection E1 as <-. by rewrite app_nil_r.
  - apply bind_ok in E1 as (s1 & E1 & E2). replace (pre ++ a :: l)%list with ((pre ++ [a]) ++ l)%list by (by rewrite <- app_assoc).
    apply (IH _ s1); [by eapply Hstep|done].
Qed.

(** ** Values *)
Section values.
Context {D : Type} `{MoneyText D}.

(** An operation on decimals whose values are known *)
Lemma add_eq (x y z : D) (a b : Q) : checked_add x y = Some z → (val x == a)%Q → (val y == b)%Q →
  representable (a + b)%Q → (val z == a + b)%Q.
Proof. intros E Ha Hb Hr. rewrite (add_exact _ _ _ E), Ha, Hb; [done|]. eapply representable_proper; [|exact Hr]. by rewrite Ha, Hb. Qed.
Lemma sub_eq (x y z : D) (a b : Q) : checked_sub x y = Some z → (val x == a)%Q → (val y == b)%Q →
  representable (a - b)%Q → (val z == a - b)%Q.
Proof. intros E Ha Hb Hr. rewrite (sub_exact _ _ _ E), Ha, Hb; [done|]. eapply representable_proper; [|exact Hr]. by rewrite Ha, Hb. Qed.
Lemma mul_eq (x y z : D) (a b : Q) : checked_mul x y = Some z → (val x == a)%Q → (val y == b)%Q →
  representable (a * b)%Q → (val z == a * b)%Q.
Proof. intros E Ha Hb Hr. rewrite (mul_exact _ _ _ E), Ha, Hb; [done|]. eapply representable_proper; [|exact Hr]. by rewrite Ha, Hb. Qed.

Definition qsum_of (l : list D) : Q := foldr (λ x q, val x + q)%Q 0%Q l.

(** A quotient that is not rounded, and one that is not rounded up *)
Definition exact_quotient (x y : D) : Prop := ∀ z, checked_div x y = Some z → (val z * val y == val x)%Q.
Definition rounds_down (x y : D) : Prop := ∀ z, checked_div x y = Some z → (val z * val y <= val x)%Q.

(** [representable] for every partial sum: no addition of the loop rounds. *)
Definition sums_ok (a : D) (l : list D) : Prop :=
  ∀ k, representable (val a + qsum_of (take k l))%Q.

Lemma try_sum_val {E} l : ∀ a b : D,
  try_fold (λ a x, or_panic (E:=E) (checked_add a x)) a l = Ok b →
  sums_ok a l → (val b == val a + qsum_of l)%Q.
Proof.
  induction l as [|x l IH]; intros a b E1 Hs; simpl in *.
  { injection E1 as ->. lra. }
  apply bind_ok in E1 as (c & Ec & E1). apply or_panic_ok in Ec.
  assert (val c == val a + val x)%Q as Ev.
  { apply (add_exact _ _ _ Ec). eapply representable_proper; [|apply (Hs 1%nat)]. simpl. lra. }
  rewrite (IH c b E1); [lra|]. intros k. eapply representable_proper; [|apply (Hs (S k))]. simpl. lra.
Qed.
Lemma ksum_val {E} (l : list D) b :
  ksum (E:=E) l = Ok b → sums_ok dec_zero l → (val b == qsum_of l)%Q.
Proof. intros E1 Hs. rewrite (try_sum_val l _ _ E1 Hs), val_zero. lra. Qed.

Lemma ksum_last {E} (l : list D) x s t :
  ksum (E:=E) l = Ok s → checked_add s x = Some t → ksum (E:=E) (l ++ [x]) = Ok t.
Proof. intros Es Et. unfold ksum in *. rewrite try_fold_app, Es. simpl. by rewrite Et. Qed.
Lemma qsum_of_app l1 l2 : (qsum_of (l1 ++ l2) == qsum_of l1 + qsum_of l2)%Q.
Proof. induction l1 as [|x l IH]; simpl; [lra|]. rewrite IH. lra. Qed.
Lemma qsum_of_nonneg l : (∀ x, x ∈ l → 0 <= val x)%Q → (0 <= qsum_of l)%Q.
Proof.
  induction l as [|x l IH]; intros Hl; simpl; [lra|].
  pose proof (Hl x ltac:(left)). assert (0 <= qsum_of l)%Q by (apply IH; intros; apply Hl; by right). lra.
Qed.

(** A text written by [dtext] is read back with its value. *)
Lemma from_text (x y : D) : dec_from_str (dtext x) = Some y → (val y == val x)%Q.
Proof. intros E. destruct (reads_back x) as (z & Ez & V). unfold dtext in E. congruence. Qed.
Lemma is_zero_val (x : D) : is_zero x = true ↔ (val x == 0)%Q.
Proof. unfold is_zero. rewrite dec_eqb_val, val_zero. done. Qed.
End values.

(** ** The concrete decimal *)
Section fixed.
Import Fixed FixedArith.
Definition frem (x y : t) : option t :=
  if mantissa y =? 0 then None
  else Some (normalize (mk (Z.rem (mantissa x * pow10 (scale y)) (mantissa y * pow10 (scale x))) (scale x + scale y))).
End fixed.
#[export] Instance fixed_analysis : DecimalAnalysis Fixed.t := {
  checked_rem := frem;
  dec_normalize := FixedArith.normalize;
}.

Section fixed_laws.
Import Fixed FixedArith.
Local Open Scope Z_scope.

Lemma frem_multiple x y z : frem x y = Some z → 0 < mantissa y →
  ((value z == 0)%Q ↔ ∃ k : Z, (value x == inject_Z k * value y)%Q).
Proof.
  unfold frem. intros E Hy. replace (mantissa y =? 0) with false in E by (symmetry; by apply Z.eqb_neq; lia).
  injection E as <-. rewrite normalize_value, value_zero. cbn [mantissa].
  pose proof (pow10_pos (scale x)) as Px. pose proof (pow10_pos (scale y)) as Py.
  rewrite Z.rem_divide by nia. unfold Z.divide, value, Qeq, Qmult, inject_Z. simpl. rewrite !pow_pos.
  split; intros [k Hk]; exists k; rewrite ?Pos2Z.inj_mul, ?pow_pos in *; nia.
Qed.
End fixed_laws.

#[export] Instance fixed_analysis_laws : AnalysisLaws Fixed.t.
Proof.
  assert (Hp : ∀ y : Fixed.t, (0 < FixedArith.value y)%Q → 0 < Fixed.mantissa y).
  { intros y. unfold FixedArith.value, Qlt. simpl. lia. }
  assert (H28 : (0 < inject_Z (Fixed.pow10 28))%Q) by done.
  split.
  - apply FixedArith.normalize_value.
  - intros x y z E Hy. apply frem_multiple; [done|by apply Hp].
  - intros x y z E Hx Hy. change (val z) with (FixedArith.value z). rewrite (fixed_quot _ _ _ E) by by apply Hp.
    apply Hp in Hy. apply Qle_shift_div_l; [done|]. rewrite Qmult_0_l. change 0%Q with (inject_Z 0).
    rewrite <- Zle_Qle. apply Z.quot_pos.
    + assert (0 <= Fixed.mantissa x) by (change (val x) with (FixedArith.value x) in Hx; unfold FixedArith.value, Qle in Hx; simpl in Hx; lia).
      pose proof (Fixed.pow10_pos (Fixed.scale y)). pose proof (Fixed.pow10_pos 28). nia.
    + pose proof (Fixed.pow10_pos (Fixed.scale x)). nia.
Qed.
