(* ===== verification/AccountLedger.v ===== *)
(** * AccountLedger: the financial history of an account,
    [okx-observation/src/account_ledger.rs]

    The agent downloads bounded histories of positions, orders, fills and bills and joins
    them with one account snapshot.  [from_okx] checks every row (identities are unique,
    the profit of a position is the sum of its components, a fill of a complete order
    history names an order of it) and aggregates profit, fees and funding by currency.
    Decimals panic on overflow as in [Faults]; the addition of one day to a [u64] time
    panics where the build checks overflow. *)
From stdpp Require Import base option list numbers strings gmap sets.
From Stdlib Require Import ZArith Lia Ascii.
From S2P Require Import Prelude Text Ordered External Decimals Lots MoneyText Faults Wire Account.
Local Open Scope string_scope.
Local Open Scope list_scope.
Local Open Scope Z_scope.
Local Open Scope fault_scope.

(** ** Rows of [okx-api/src/ledger.rs] and [asset.rs] *)
Record BoundedHistory (T : Type) : Type := {
  bh_rows : list T;
  bh_pages : nat;
  bh_complete : bool;
}.
Arguments bh_rows {T} _.
Arguments bh_pages {T} _.
Arguments bh_complete {T} _.

Record PositionHistory : Type := {
  ph_instrument_type : string;
  ph_instrument_id : string;
  ph_margin_mode : string;
  ph_position_id : string;
  ph_position_side : string;
  ph_direction : string;
  ph_open_average_price : string;
  ph_close_average_price : string;
  ph_max_open_position : string;
  ph_total_closed_position : string;
  ph_realized_pnl : string;
  ph_settled_pnl : string;
  ph_pnl : string;
  ph_fee : string;
  ph_funding_fee : string;
  ph_liquidation_penalty : string;
  ph_pnl_ratio : string;
  ph_lever : string;
  ph_ccy : string;
  ph_close_type : string;
  ph_creation_time_ms : string;
  ph_update_time_ms : string;
}.

Record HistoricalOrder : Type := {
  ho_instrument_type : string;
  ho_instrument_id : string;
  ho_order_id : string;
  ho_client_order_id : string;
  ho_tag : string;
  ho_side : string;
  ho_position_side : string;
  ho_trade_mode : string;
  ho_order_type : string;
  ho_px : string;
  ho_sz : string;
  ho_accumulated_fill_size : string;
  ho_average_fill_price : string;
  ho_state : string;
  ho_category : string;
  ho_source : string;
  ho_pnl : string;
  ho_fee : string;
  ho_fee_currency : string;
  ho_trade_id : string;
  ho_creation_time_ms : string;
  ho_update_time_ms : string;
}.

Record FillHistory : Type := {
  fh_instrument_type : string;
  fh_instrument_id : string;
  fh_trade_id : string;
  fh_order_id : string;
  fh_client_order_id : string;
  fh_bill_id : string;
  fh_sub_type : string;
  fh_side : string;
  fh_position_side : string;
  fh_fill_price : string;
  fh_fill_size : string;
  fh_fill_pnl : string;
  fh_fee : string;
  fh_fee_currency : string;
  fh_execution_type : string;
  fh_timestamp_ms : string;
  fh_fill_time_ms : string;
}.

Record AccountBill : Type := {
  bl_bill_id : string;
  bl_instrument_type : string;
  bl_instrument_id : string;
  bl_order_id : string;
  bl_trade_id : string;
  bl_ccy : string;
  bl_bill_type : string;
  bl_bill_sub_type : string;
  bl_balance_change : string;
  bl_position_balance_change : string;
  bl_bal : string;
  bl_position_balance : string;
  bl_sz : string;
  bl_px : string;
  bl_pnl : string;
  bl_fee : string;
  bl_margin_mode : string;
  bl_execution_type : string;
  bl_client_order_id : string;
  bl_fill_time_ms : string;
  bl_timestamp_ms : string;
}.

Record FundingBalance : Type := {
  fnb_ccy : string;
  fnb_bal : string;
  fnb_frozen_balance : string;
  fnb_available_balance : string;
}.

(** ** Evidence *)
Definition ACCOUNT_LEDGER_SUMMARY_SCHEMA_V1 : string := "okx.account-ledger-summary/v1".
Definition ACCOUNT_LEDGER_HISTORY_WINDOW : string := "last_3_months".
Definition FUNDING_EXPENSE_SUBTYPE : string := "173".
Definition FUNDING_INCOME_SUBTYPE : string := "174".
Definition MAX_HISTORY_INSTRUMENT_SAMPLES : nat := 8.
Definition UTC_DAY_MS : Z := 86400000.

Record AccountAuthorityEvidence : Type := {
  aae_scope : string;
  aae_account_type : string;
  aae_is_subaccount : bool;
  aae_account_uid_fingerprint : string;
  aae_main_account_uid_fingerprint : option string;
  aae_api_key_permissions : list string;
  aae_multi_account_inventory_complete : bool;
}.

Record AccountHistoryCoverage : Type := {
  ahc_resource : string;
  ahc_documented_window : string;
  ahc_instrument_count : nat;
  ahc_sample_instruments : list string;
  ahc_rows : nat;
  ahc_pages : nat;
  ahc_complete_within_bound : bool;
  ahc_newest_event_time_ms : option string;
  ahc_oldest_event_time_ms : option string;
}.

Record FundingBalanceEvidence : Type := {
  fbe_currency : string;
  fbe_balance : string;
  fbe_available_balance : string;
  fbe_frozen_balance : string;
}.

Record CurrencyAggregate : Type := {
  cag_currency : string;
  cag_amount : string;
  cag_events : nat;
}.

Record AccountLedgerSummary : Type := {
  als_schema : string;
  als_source_received_at : string;
  als_current_account_as_of_ms : option string;
  als_account_generation : string;
  als_authority : AccountAuthorityEvidence;
  als_total_equity_usd : string;
  als_trading_equity_detail_usd_sum : string;
  als_trading_equity_residual_usd : string;
  als_funding_balances : list FundingBalanceEvidence;
  als_open_positions : nat;
  als_pending_orders : nat;
  als_current_unrealized_pnl : list CurrencyAggregate;
  als_history_coverage : list AccountHistoryCoverage;
  als_realized_pnl_basis : string;
  als_realized_pnl : list CurrencyAggregate;
  als_daily_realized_pnl_utc_basis : string;
  als_daily_realized_pnl_utc_day_start_ms : option string;
  als_daily_realized_pnl_utc_day_end_ms : option string;
  als_daily_realized_pnl_utc : list CurrencyAggregate;
  als_trade_fee_basis : string;
  als_trade_fees : list CurrencyAggregate;
  als_funding_basis : string;
  als_funding : list CurrencyAggregate;
  als_position_pnl_identity_rows_checked : nat;
  als_fill_order_links_checked : nat;
  als_fill_order_links_unresolved_due_to_truncation : nat;
}.

Record ExchangeOrderIdentity : Type := {
  eoi_instrument_type : string;
  eoi_instrument_id : string;
  eoi_order_id : string;
  eoi_client_order_id : string;
  eoi_state : string;
  eoi_size : string;
  eoi_accumulated_fill_size : string;
  eoi_update_time_ms : string;
}.

Record ExchangeFillIdentity : Type := {
  efi_instrument_type : string;
  efi_instrument_id : string;
  efi_order_id : option string;
  efi_client_order_id : string;
  efi_trade_id : string;
  efi_bill_id : option string;
  efi_fill_pnl : option string;
  efi_side : string;
  efi_position_side : string;
  efi_fill_price : string;
  efi_fill_size : string;
  efi_fee : option string;
  efi_fee_currency : option string;
  efi_execution_type : option string;
  efi_fill_time_ms : Z;
}.

Record ExecutionFillEvidence : Type := {
  efe_fills : list ExchangeFillIdentity;
  efe_pages : nat;
  efe_complete_within_bound : bool;
}.

Record ExchangeBillIdentity : Type := {
  ebi_bill_id : string;
  ebi_bill_type : string;
  ebi_balance_change : option string;
  ebi_instrument_id : string;
  ebi_order_id : option string;
  ebi_trade_id : option string;
  ebi_client_order_id : option string;
  ebi_currency : string;
  ebi_sub_type : string;
  ebi_pnl : option string;
  ebi_fee : option string;
  ebi_timestamp_ms : Z;
}.

Record AccountLedgerFacts : Type := {
  alf_summary : AccountLedgerSummary;
  alf_authoritative_positions : list AccountPositionState;
  alf_exchange_orders : list ExchangeOrderIdentity;
  alf_exchange_fills : list ExchangeFillIdentity;
  alf_exchange_bills : list ExchangeBillIdentity;
  alf_bills_history_complete : bool;
  alf_exchange_orders_history_complete : bool;
  alf_exchange_fills_history_complete : bool;
  alf_trading_usdt_equity : option string;
  alf_nonzero_other_trading_currency_equity : bool;
  alf_futures_single_currency_margin : bool;
  alf_order_history_complete : list (string * bool);
}.

Inductive AccountLedgerError : Type :=
| LedgerEmptySourceTimestamp
| AuthorityMismatch
| LedgerMissingField (field : string)
| LedgerInvalidTimestamp (field value : string)
| LedgerInvalidDecimal (field value : string)
| InstrumentTypeMismatch (expected actual : string)
| DuplicateIdentity (identity : string)
| ExecutionFillIdentityMismatch (field expected actual : string)
| PositionPnlIdentityMismatch (position_id realized components : string)
| FillOrderMissing (instrument_type order_id trade_id : string).

(** [Result<_, AccountLedgerError>] of code that adds decimals *)
Notation checked A := (result (fault AccountLedgerError) A).

(** [optional] of the file: the trimmed text unless it is empty *)
Definition trimmed (value : string) : option string :=
  let v := trim value in if (v =? "")%string then None else Some v.

(** [usdt_margin_excludes_other_currencies] and [order_history_complete] *)
Definition usdt_margin_excludes_other_currencies (f : AccountLedgerFacts) : bool :=
  negb (alf_nonzero_other_trading_currency_equity f) || alf_futures_single_currency_margin f.
Definition order_history_complete (f : AccountLedgerFacts) (instrument_type : string) : bool :=
  default false (oget (alf_order_history_complete f) instrument_type).

Section ledger.
Context `{Hashing} {D : Type} `{DecimalMoney D}.

(** ** Fields *)
Definition required (field value : string) : checked string :=
  let v := trim value in
  if (v =? "")%string then raise (LedgerMissingField field) else Ok v.

Definition timestamp_required (field value : string) : checked Z :=
  match parse_u64 (trim value) with
  | Some t => if 0 <? t then Ok t else raise (LedgerInvalidTimestamp field value)
  | None => raise (LedgerInvalidTimestamp field value)
  end.

Definition decimal_required (field value : string) : checked D :=
  let v := trim value in
  if (v =? "")%string || (64 <? String.length v)%nat then raise (LedgerInvalidDecimal field v) else
  match dec_from_str v with
  | Some d => Ok d
  | None => raise (LedgerInvalidDecimal field v)
  end.

Definition decimal_or_zero (field value : string) : checked D :=
  if is_blank value then Ok dec_zero else decimal_required field value.

Definition require_expected_type (expected actual : string) : checked unit :=
  if (actual =? expected)%string then Ok tt else raise (InstrumentTypeMismatch expected actual).

(** ** Aggregates by currency: a [BTreeMap] *)
Record Aggregate : Type := { agg_amount : D; agg_events : nat }.
Definition Aggregates : Type := list (string * Aggregate).
Definition agg_at (values : Aggregates) (currency : string) : Aggregate :=
  default {| agg_amount := dec_zero; agg_events := 0 |} (oget values currency).

Definition add_aggregate (values : Aggregates) (currency : string) (amount : D) : checked Aggregates :=
  let entry := agg_at values currency in
  total ← agg_amount entry +! amount;
  Ok (oinsert currency {| agg_amount := total; agg_events := S (agg_events entry) |} values).

Definition finish_aggregates (values : Aggregates) : list CurrencyAggregate :=
  map (λ p, {| cag_currency := p.1; cag_amount := dtext (agg_amount p.2); cag_events := agg_events p.2 |}) values.

(** ** Coverage of one history *)
Record CoverageScan : Type := {
  cs_newest : option Z;
  cs_oldest : option Z;
  cs_instruments : list (string * unit);
}.
Definition coverage_step {T} (event_time instrument_id : T → string) (s : CoverageScan) (row : T)
    : checked CoverageScan :=
  timestamp ← timestamp_required "history.event_time" (event_time row);
  let instrument := trim (instrument_id row) in
  Ok {| cs_newest := Some (match cs_newest s with Some c => Z.max c timestamp | None => timestamp end);
        cs_oldest := Some (match cs_oldest s with Some c => Z.min c timestamp | None => timestamp end);
        cs_instruments := if (instrument =? "")%string then cs_instruments s
                          else oinsert instrument tt (cs_instruments s) |}.

Definition coverage_for {T} (resource : string) (history : BoundedHistory T)
    (event_time instrument_id : T → string) : checked AccountHistoryCoverage :=
  s ← try_fold (coverage_step event_time instrument_id)
        {| cs_newest := None; cs_oldest := None; cs_instruments := [] |} (bh_rows history);
  Ok {| ahc_resource := resource;
        ahc_documented_window :=
          if String.prefix "orders_history:" resource
          then "recent_7_days_plus_archive_3_months;unfilled_canceled_2_hours"
          else ACCOUNT_LEDGER_HISTORY_WINDOW;
        ahc_instrument_count := length (cs_instruments s);
        ahc_sample_instruments := take MAX_HISTORY_INSTRUMENT_SAMPLES (map fst (cs_instruments s));
        ahc_rows := length (bh_rows history);
        ahc_pages := bh_pages history;
        ahc_complete_within_bound := bh_complete history;
        ahc_newest_event_time_ms := option_map show_u64 (cs_newest s);
        ahc_oldest_event_time_ms := option_map show_u64 (cs_oldest s) |}.

(** ** The snapshot's own figures *)
(** The closure [admit] of [current_account_as_of] *)
Definition admit_time (latest : option Z) (p : string * option string) : checked (option Z) :=
  match p.2 with
  | Some value =>
    if is_blank value then Ok latest else
    timestamp ← timestamp_required p.1 value;
    Ok (Some (match latest with Some c => Z.max c timestamp | None => timestamp end))
  | None => Ok latest
  end.
Definition account_times (snapshot : AccountSnapshot) : list (string * option string) :=
  [("balance.uTime", abs_update_time_ms (acs_balance snapshot))]
  ++ map (λ d, ("balance.details.uTime", abd_update_time_ms d)) (abs_details (acs_balance snapshot))
  ++ map (λ p, ("position.uTime", aps_update_time_ms p)) (acs_positions snapshot)
  ++ map (λ o, ("order.uTime", Some (pos_update_time_ms o))) (acs_pending_orders snapshot).
Definition current_account_as_of (snapshot : AccountSnapshot) : checked (option string) :=
  latest ← try_fold admit_time None (account_times snapshot);
  Ok (option_map show_u64 latest).

Definition funding_balance_step (acc : list FundingBalanceEvidence * gset string) (row : FundingBalance)
    : checked (list FundingBalanceEvidence * gset string) :=
  let '(normalized, seen) := acc in
  currency ← required "funding_balance.ccy" (fnb_ccy row);
  if decide (currency ∈ seen) then raise (DuplicateIdentity ("funding_balance:" +:+ currency)) else
  balance ← decimal_required "funding_balance.bal" (fnb_bal row);
  available ← decimal_required "funding_balance.availBal" (fnb_available_balance row);
  frozen ← decimal_required "funding_balance.frozenBal" (fnb_frozen_balance row);
  if dec_ltb balance dec_zero || dec_ltb available dec_zero || dec_ltb frozen dec_zero
  then raise (LedgerInvalidDecimal "funding_balance"
                ("bal=" +:+ fnb_bal row +:+ ",availBal=" +:+ fnb_available_balance row
                 +:+ ",frozenBal=" +:+ fnb_frozen_balance row)) else
  Ok (normalized ++ [{| fbe_currency := currency; fbe_balance := dtext balance;
                        fbe_available_balance := dtext available; fbe_frozen_balance := dtext frozen |}],
      {[currency]} ∪ seen).
Definition normalize_funding_balances (rows : list FundingBalance) : checked (list FundingBalanceEvidence) :=
  acc ← try_fold funding_balance_step ([], ∅) rows;
  Ok (sort_by (cmp_on fbe_currency) acc.1).

Definition unrealized_step (values : Aggregates) (detail : AccountBalanceDetail) : checked Aggregates :=
  match abd_unrealized_pnl detail with
  | None => Ok values
  | Some text =>
    if is_blank text then Ok values else
    amount ← decimal_required "balance.details.upl" text;
    if is_zero amount then Ok values else add_aggregate values (abd_currency detail) amount
  end.
Definition aggregate_current_unrealized (snapshot : AccountSnapshot) : checked (list CurrencyAggregate) :=
  values ← try_fold unrealized_step [] (abs_details (acs_balance snapshot));
  Ok (finish_aggregates values).

(** ** Fills *)
Definition normalize_fill_identity (expected_type : string) (row : FillHistory) : checked ExchangeFillIdentity :=
  _ ← require_expected_type expected_type (fh_instrument_type row);
  instrument_id ← required "fills_history.instId" (fh_instrument_id row);
  fill_time ← timestamp_required "fills_history.fillTime" (fh_fill_time_ms row);
  trade_id ← required "fills_history.tradeId" (fh_trade_id row);
  fees ← (if is_blank (fh_fee row) then Ok (None, None) else
          fee ← decimal_required "fills_history.fee" (fh_fee row);
          currency ← required "fills_history.feeCcy" (fh_fee_currency row);
          Ok (Some (dtext fee), Some currency));
  fill_price ← decimal_required "fills_history.fillPx" (fh_fill_price row);
  if dec_leb fill_price dec_zero
  then raise (LedgerInvalidDecimal "fills_history.fillPx" (fh_fill_price row)) else
  fill_size ← decimal_required "fills_history.fillSz" (fh_fill_size row);
  if dec_leb fill_size dec_zero
  then raise (LedgerInvalidDecimal "fills_history.fillSz" (fh_fill_size row)) else
  fill_pnl ← match trimmed (fh_fill_pnl row) with
             | Some value => v ← decimal_required "fills_history.fillPnl" value; Ok (Some (dtext v))
             | None => Ok None
             end;
  side ← required "fills_history.side" (fh_side row);
  position_side ← required "fills_history.posSide" (fh_position_side row);
  Ok {| efi_instrument_type := fh_instrument_type row;
        efi_instrument_id := instrument_id;
        efi_order_id := trimmed (fh_order_id row);
        efi_client_order_id := fh_client_order_id row;
        efi_trade_id := trade_id;
        efi_bill_id := trimmed (fh_bill_id row);
        efi_fill_pnl := fill_pnl;
        efi_side := side;
        efi_position_side := position_side;
        efi_fill_price := dtext fill_price;
        efi_fill_size := dtext fill_size;
        efi_fee := fees.1;
        efi_fee_currency := fees.2;
        efi_execution_type := trimmed (fh_execution_type row);
        efi_fill_time_ms := fill_time |}.

Definition fill_identity (fill : ExchangeFillIdentity) : string :=
  efi_instrument_id fill +:+ ":" +:+ efi_trade_id fill.

Definition require_execution_fill_identity (field expected actual : string) : checked unit :=
  if negb (is_blank expected) && (expected =? actual)%string then Ok tt
  else raise (ExecutionFillIdentityMismatch field expected actual).

Definition execution_fill_step (expected_type expected_instrument_id expected_order_id expected_client_order_id : string)
    (acc : gset string * list ExchangeFillIdentity) (row : FillHistory)
    : checked (gset string * list ExchangeFillIdentity) :=
  let '(seen, fills) := acc in
  fill ← normalize_fill_identity expected_type row;
  _ ← require_execution_fill_identity "instId" expected_instrument_id (efi_instrument_id fill);
  _ ← require_execution_fill_identity "ordId" expected_order_id (default "" (efi_order_id fill));
  _ ← require_execution_fill_identity "clOrdId" expected_client_order_id (efi_client_order_id fill);
  if decide (fill_identity fill ∈ seen)
  then raise (DuplicateIdentity ("fill:" +:+ fill_identity fill)) else
  Ok ({[fill_identity fill]} ∪ seen, fills ++ [fill]).

Definition normalize_execution_fill_history
    (expected_type expected_instrument_id expected_order_id expected_client_order_id : string)
    (history : BoundedHistory FillHistory) : checked ExecutionFillEvidence :=
  acc ← try_fold (execution_fill_step expected_type expected_instrument_id expected_order_id expected_client_order_id)
          (∅, []) (bh_rows history);
  Ok {| efe_fills := acc.2; efe_pages := bh_pages history; efe_complete_within_bound := bh_complete history |}.

(** ** The stages of [from_okx] *)
(** Own USDT equity, and whether another currency has some *)
Definition equity_step (acc : option string * bool) (detail : AccountBalanceDetail) : checked (option string * bool) :=
  let '(usdt, other) := acc in
  equity ← decimal_required "balance.details.eq" (abd_equity detail);
  if (abd_currency detail =? "USDT")%string then
    match usdt with
    | Some _ => raise (DuplicateIdentity "balance.details.USDT")
    | None => Ok (Some (dtext equity), other)
    end
  else Ok (usdt, if is_zero equity then other else true).

Definition detail_usd_step (total : D) (detail : AccountBalanceDetail) : checked D :=
  match abd_equity_usd detail with
  | None => Ok total
  | Some eq_usd =>
    if is_blank eq_usd then Ok total else
    v ← decimal_required "balance.details.eqUsd" eq_usd; total +! v
  end.

Definition utc_day_bounds (as_of : option string) : checked (option (Z * Z)) :=
  match as_of with
  | None => Ok None
  | Some value =>
    as_of ← timestamp_required "account.current_as_of" value;
    let start := as_of / UTC_DAY_MS * UTC_DAY_MS in
    finish ← or_panic (checked_add_u64 start UTC_DAY_MS);
    Ok (Some (start, finish))
  end.

Record PositionScan : Type := {
  psc_realized : Aggregates;
  psc_daily : Aggregates;
  psc_checked : nat;
  psc_seen : gset string;
}.
Definition in_day (day : option (Z * Z)) (t : Z) : bool :=
  match day with Some (start, finish) => (start <=? t) && (t <? finish) | None => false end.

Definition position_row (day : option (Z * Z)) (expected_type : string) (s : PositionScan) (row : PositionHistory)
    : checked PositionScan :=
  _ ← require_expected_type expected_type (ph_instrument_type row);
  position_id ← required "positions_history.posId" (ph_position_id row);
  event_time ← timestamp_required "positions_history.uTime" (ph_update_time_ms row);
  let identity := ph_instrument_type row +:+ ":" +:+ position_id +:+ ":" +:+ show_u64 event_time in
  if decide (identity ∈ psc_seen s) then raise (DuplicateIdentity identity) else
  realized_value ← decimal_required "positions_history.realizedPnl" (ph_realized_pnl row);
  pnl ← decimal_or_zero "positions_history.pnl" (ph_pnl row);
  fee ← decimal_or_zero "positions_history.fee" (ph_fee row);
  funding ← decimal_or_zero "positions_history.fundingFee" (ph_funding_fee row);
  liquidation ← decimal_or_zero "positions_history.liqPenalty" (ph_liquidation_penalty row);
  settled ← decimal_or_zero "positions_history.settledPnl" (ph_settled_pnl row);
  c1 ← pnl +! fee; c2 ← c1 +! funding; c3 ← c2 +! liquidation; components ← c3 +! settled;
  if negb (dec_eqb realized_value components)
  then raise (PositionPnlIdentityMismatch position_id (dtext realized_value) (dtext components)) else
  if is_zero realized_value
  then Ok {| psc_realized := psc_realized s; psc_daily := psc_daily s;
             psc_checked := S (psc_checked s); psc_seen := {[identity]} ∪ psc_seen s |}
  else
  currency ← required "positions_history.ccy" (ph_ccy row);
  realized ← add_aggregate (psc_realized s) currency realized_value;
  daily ← (if in_day day event_time then add_aggregate (psc_daily s) currency realized_value
           else Ok (psc_daily s));
  Ok {| psc_realized := realized; psc_daily := daily;
        psc_checked := S (psc_checked s); psc_seen := {[identity]} ∪ psc_seen s |}.

Definition position_history_step (day : option (Z * Z)) (acc : list AccountHistoryCoverage * PositionScan)
    (h : string * BoundedHistory PositionHistory) : checked (list AccountHistoryCoverage * PositionScan) :=
  c ← coverage_for ("positions_history:" +:+ h.1) h.2 ph_update_time_ms ph_instrument_id;
  s ← try_fold (position_row day h.1) acc.2 (bh_rows h.2);
  Ok (acc.1 ++ [c], s).

Definition pending_identity (pending : PendingOrderState) : ExchangeOrderIdentity := {|
  eoi_instrument_type := pos_instrument_type pending;
  eoi_instrument_id := pos_instrument_id pending;
  eoi_order_id := pos_order_id pending;
  eoi_client_order_id := default "" (pos_client_order_id pending);
  eoi_state := pos_state pending;
  eoi_size := pos_size pending;
  eoi_accumulated_fill_size := pos_accumulated_fill_size pending;
  eoi_update_time_ms := pos_update_time_ms pending |}.

Definition OrderScan : Type := list ExchangeOrderIdentity * gset string.
Definition pending_step (s : OrderScan) (pending : PendingOrderState) : checked OrderScan :=
  if decide (pos_order_id pending ∈ s.2)
  then raise (DuplicateIdentity ("order:" +:+ pos_order_id pending)) else
  Ok (s.1 ++ [pending_identity pending], {[pos_order_id pending]} ∪ s.2).

Definition order_row (expected_type : string) (s : OrderScan) (row : HistoricalOrder) : checked OrderScan :=
  _ ← require_expected_type expected_type (ho_instrument_type row);
  order_id ← required "orders_history.ordId" (ho_order_id row);
  _ ← timestamp_required "orders_history.uTime" (ho_update_time_ms row);
  if decide (order_id ∈ s.2) then raise (DuplicateIdentity ("order:" +:+ order_id)) else
  instrument_id ← required "orders_history.instId" (ho_instrument_id row);
  state ← required "orders_history.state" (ho_state row);
  Ok (s.1 ++ [{| eoi_instrument_type := ho_instrument_type row;
                 eoi_instrument_id := instrument_id;
                 eoi_order_id := order_id;
                 eoi_client_order_id := ho_client_order_id row;
                 eoi_state := state;
                 eoi_size := ho_sz row;
                 eoi_accumulated_fill_size := ho_accumulated_fill_size row;
                 eoi_update_time_ms := ho_update_time_ms row |}], {[order_id]} ∪ s.2).

Record OrderStage : Type := {
  ost_coverage : list AccountHistoryCoverage;
  ost_orders : OrderScan;
  ost_complete : list (string * bool);
}.
Definition order_history_step (s : OrderStage) (h : string * BoundedHistory HistoricalOrder) : checked OrderStage :=
  c ← coverage_for ("orders_history:" +:+ h.1) h.2 ho_update_time_ms ho_instrument_id;
  orders ← try_fold (order_row h.1) (ost_orders s) (bh_rows h.2);
  Ok {| ost_coverage := ost_coverage s ++ [c]; ost_orders := orders;
        ost_complete := oinsert h.1 (bh_complete h.2) (ost_complete s) |}.

Record FillScan : Type := {
  fsc_fees : Aggregates;
  fsc_fills : list ExchangeFillIdentity;
  fsc_ids : gset string;
  fsc_links : nat;
  fsc_unresolved : nat;
}.
(** The fee of a fill is read back from its text. *)
Definition add_fee (fees : Aggregates) (fill : ExchangeFillIdentity) : checked Aggregates :=
  match efi_fee fill, efi_fee_currency fill with
  | Some fee, Some currency =>
    amount ← decimal_required "fills_history.fee" fee; add_aggregate fees currency amount
  | _, _ => Ok fees
  end.
(** Links checked, links that truncation leaves open *)
Definition check_link (order_ids : gset string) (complete : list (string * bool)) (expected_type : string)
    (fill : ExchangeFillIdentity) (links unresolved : nat) : checked (nat * nat) :=
  match efi_order_id fill with
  | None => Ok (links, unresolved)
  | Some order_id =>
    if decide (order_id ∈ order_ids) then Ok (S links, unresolved)
    else if default false (oget complete expected_type)
    then raise (FillOrderMissing expected_type order_id (efi_trade_id fill))
    else Ok (S links, S unresolved)
  end.
Definition fill_row (order_ids : gset string) (complete : list (string * bool)) (expected_type : string)
    (s : FillScan) (row : FillHistory) : checked FillScan :=
  fill ← normalize_fill_identity expected_type row;
  if decide (fill_identity fill ∈ fsc_ids s)
  then raise (DuplicateIdentity ("fill:" +:+ fill_identity fill)) else
  fees ← add_fee (fsc_fees s) fill;
  counts ← check_link order_ids complete expected_type fill (fsc_links s) (fsc_unresolved s);
  Ok {| fsc_fees := fees; fsc_fills := fsc_fills s ++ [fill]; fsc_ids := {[fill_identity fill]} ∪ fsc_ids s;
        fsc_links := counts.1; fsc_unresolved := counts.2 |}.
Definition fill_history_step (order_ids : gset string) (complete : list (string * bool))
    (acc : list AccountHistoryCoverage * FillScan) (h : string * BoundedHistory FillHistory)
    : checked (list AccountHistoryCoverage * FillScan) :=
  c ← coverage_for ("fills_history:" +:+ h.1) h.2 fh_fill_time_ms fh_instrument_id;
  s ← try_fold (fill_row order_ids complete h.1) acc.2 (bh_rows h.2);
  Ok (acc.1 ++ [c], s).

Record BillScan : Type := {
  bsc_funding : Aggregates;
  bsc_bills : list ExchangeBillIdentity;
  bsc_ids : gset string;
}.
Definition is_funding_bill (bill : AccountBill) : bool :=
  (bl_bill_sub_type bill =? FUNDING_EXPENSE_SUBTYPE)%string || (bl_bill_sub_type bill =? FUNDING_INCOME_SUBTYPE)%string.
Definition bill_row (s : BillScan) (bill : AccountBill) : checked BillScan :=
  bill_id ← required "bills_history.billId" (bl_bill_id bill);
  timestamp ← timestamp_required "bills_history.ts" (bl_timestamp_ms bill);
  if decide (bill_id ∈ bsc_ids s) then raise (DuplicateIdentity ("bill:" +:+ bill_id)) else
  let identity := {| ebi_bill_id := bill_id;
    ebi_bill_type := bl_bill_type bill;
    ebi_balance_change := trimmed (bl_balance_change bill);
    ebi_instrument_id := bl_instrument_id bill;
    ebi_order_id := trimmed (bl_order_id bill);
    ebi_trade_id := trimmed (bl_trade_id bill);
    ebi_client_order_id := trimmed (bl_client_order_id bill);
    ebi_currency := bl_ccy bill;
    ebi_sub_type := bl_bill_sub_type bill;
    ebi_pnl := trimmed (bl_pnl bill);
    ebi_fee := trimmed (bl_fee bill);
    ebi_timestamp_ms := timestamp |} in
  funding ← (if is_funding_bill bill then
               amount ← decimal_required "bills_history.pnl" (bl_pnl bill);
               currency ← required "bills_history.ccy" (bl_ccy bill);
               add_aggregate (bsc_funding s) currency amount
             else Ok (bsc_funding s));
  Ok {| bsc_funding := funding; bsc_bills := bsc_bills s ++ [identity]; bsc_ids := {[bill_id]} ∪ bsc_ids s |}.

Definition REALIZED_BASIS : string := "positions-history.realizedPnl; exact OKX identity checked per row".
Definition DAILY_BASIS : string :=
  "positions-history.realizedPnl filtered by uTime into [UTC day start, next UTC day); rebuilt from exchange history after restart".

Definition all_complete {T} (histories : list (string * BoundedHistory T)) : bool :=
  match histories with [] => false | _ => forallb (λ h, bh_complete h.2) histories end.

Definition from_okx (source_received_at : string) (snapshot : AccountSnapshot) (config : AccountConfig)
    (funding_balances : list FundingBalance)
    (position_histories : list (string * BoundedHistory PositionHistory))
    (order_histories : list (string * BoundedHistory HistoricalOrder))
    (fill_histories : list (string * BoundedHistory FillHistory))
    (bills : BoundedHistory AccountBill) : checked AccountLedgerFacts :=
  if is_blank source_received_at then raise LedgerEmptySourceTimestamp else
  uid ← required "config.uid" (ac_uid config);
  if negb (account_uid_fingerprint uid =? acs_account_uid_fingerprint snapshot)%string then raise AuthorityMismatch else
  let main_uid := trimmed (ac_main_uid config) in
  let authority := {|
    aae_scope := "authenticated_account_only";
    aae_account_type := acs_account_type snapshot;
    aae_is_subaccount := match main_uid with Some main => negb (main =? uid)%string | None => false end;
    aae_account_uid_fingerprint := acs_account_uid_fingerprint snapshot;
    aae_main_account_uid_fingerprint := option_map account_uid_fingerprint main_uid;
    aae_api_key_permissions := acs_api_key_permissions snapshot;
    aae_multi_account_inventory_complete := false |} in
  let single := (ac_account_level config =? "2")%string && (acs_account_level snapshot =? "2")%string in
  equities ← try_fold equity_step (None, false) (abs_details (acs_balance snapshot));
  total_equity ← decimal_required "balance.totalEq" (abs_total_equity_usd (acs_balance snapshot));
  detail_sum ← try_fold detail_usd_step dec_zero (abs_details (acs_balance snapshot));
  residual ← total_equity -! detail_sum;
  balances ← normalize_funding_balances funding_balances;
  as_of ← current_account_as_of snapshot;
  unrealized ← aggregate_current_unrealized snapshot;
  day ← utc_day_bounds as_of;
  positions ← try_fold (position_history_step day)
    ([], {| psc_realized := []; psc_daily := []; psc_checked := 0; psc_seen := ∅ |}) position_histories;
  pending ← try_fold pending_step ([], ∅) (acs_pending_orders snapshot);
  orders ← try_fold order_history_step
    {| ost_coverage := positions.1; ost_orders := pending; ost_complete := [] |} order_histories;
  fills ← try_fold (fill_history_step (ost_orders orders).2 (ost_complete orders))
    (ost_coverage orders, {| fsc_fees := []; fsc_fills := []; fsc_ids := ∅; fsc_links := 0; fsc_unresolved := 0 |})
    fill_histories;
  bills_coverage ← coverage_for "bills_history" bills bl_timestamp_ms bl_instrument_id;
  scanned ← try_fold bill_row {| bsc_funding := []; bsc_bills := []; bsc_ids := ∅ |} (bh_rows bills);
  Ok {|
    alf_summary := {|
      als_schema := ACCOUNT_LEDGER_SUMMARY_SCHEMA_V1;
      als_source_received_at := source_received_at;
      als_current_account_as_of_ms := as_of;
      als_account_generation := acs_account_generation snapshot;
      als_authority := authority;
      als_total_equity_usd := dtext total_equity;
      als_trading_equity_detail_usd_sum := dtext detail_sum;
      als_trading_equity_residual_usd := dtext residual;
      als_funding_balances := balances;
      als_open_positions := length (acs_positions snapshot);
      als_pending_orders := length (acs_pending_orders snapshot);
      als_current_unrealized_pnl := unrealized;
      als_history_coverage := fills.1 ++ [bills_coverage];
      als_realized_pnl_basis := REALIZED_BASIS;
      als_realized_pnl := finish_aggregates (psc_realized positions.2);
      als_daily_realized_pnl_utc_basis := DAILY_BASIS;
      als_daily_realized_pnl_utc_day_start_ms := option_map (λ d, show_u64 d.1) day;
      als_daily_realized_pnl_utc_day_end_ms := option_map (λ d, show_u64 d.2) day;
      als_daily_realized_pnl_utc := finish_aggregates (psc_daily positions.2);
      als_trade_fee_basis := "fills-history.fee; deduplicated by instId+tradeId";
      als_trade_fees := finish_aggregates (fsc_fees fills.2);
      als_funding_basis := "bills-archive subType=173/174 pnl; deduplicated by billId";
      als_funding := finish_aggregates (bsc_funding scanned);
      als_position_pnl_identity_rows_checked := psc_checked positions.2;
      als_fill_order_links_checked := fsc_links fills.2;
      als_fill_order_links_unresolved_due_to_truncation := fsc_unresolved fills.2 |};
    alf_authoritative_positions := acs_positions snapshot;
    alf_exchange_orders := (ost_orders orders).1;
    alf_exchange_fills := fsc_fills fills.2;
    alf_exchange_bills := bsc_bills scanned;
    alf_bills_history_complete := bh_complete bills;
    alf_exchange_orders_history_complete := all_complete order_histories;
    alf_exchange_fills_history_complete := all_complete fill_histories;
    alf_trading_usdt_equity := equities.1;
    alf_nonzero_other_trading_currency_equity := equities.2;
    alf_futures_single_currency_margin := single;
    alf_order_history_complete := ost_complete orders |}.
End ledger.
Arguments Aggregates D : clear implicits.
Arguments Aggregate D : clear implicits.
Arguments PositionScan D : clear implicits.
Arguments FillScan D : clear implicits.
Arguments BillScan D : clear implicits.
