(* ===== verification/AccountLedgerFacts.v ===== *)
(** * AccountLedgerFacts: what an accepted account ledger says

    The aggregates are the sums, by currency and in the order of the rows, of what the
    rows report ([ledger_sums]); the joined orders, fills and bills have unique identities
    and resolved links ([ledger_joined]); the day and the time of the snapshot are exact
    ([ledger_day]). *)
From stdpp Require Import base option list numbers strings gmap sets sorting pretty.
From Stdlib Require Import ZArith QArith Lia Ascii.
From S2P Require Import Prelude Text Ordered External Decimals Lots MoneyText Faults Wire Account AccountLedger.
Local Open Scope string_scope.
Local Open Scope list_scope.
Local Open Scope Z_scope.

Section sums.
Context {D : Type} `{DecimalMoney D}.

(** ** Sums by currency *)
Definition amounts (c : string) (entries : list (string * D)) : list D :=
  map snd (List.filter (λ p, (p.1 =? c)%string) entries).

(** The reference: one row per currency that has an entry, in the order of the
    currencies, with the sum of its amounts and their number. *)
Definition sums_by_currency (entries : list (string * D)) (out : list CurrencyAggregate) : Prop :=
  StronglySorted (λ a b, kcmp (cag_currency a) (cag_currency b) = Lt) out ∧
  ∀ c, (amounts c entries = [] → c ∉ map cag_currency out) ∧
       (amounts c entries ≠ [] → ∃ s, ksum (E:=AccountLedgerError) (amounts c entries) = Ok s ∧
          {| cag_currency := c; cag_amount := dtext s; cag_events := length (amounts c entries) |} ∈ out).

Definition tracks (entries : list (string * D)) (m : Aggregates D) : Prop :=
  osorted m ∧
  ∀ c, match oget m c with
       | None => amounts c entries = []
       | Some a => amounts c entries ≠ [] ∧ ksum (E:=AccountLedgerError) (amounts c entries) = Ok (agg_amount a)
                   ∧ agg_events a = length (amounts c entries)
       end.

Lemma amounts_app c l1 l2 : amounts c (l1 ++ l2) = amounts c l1 ++ amounts c l2.
Proof. unfold amounts. by rewrite List.filter_app, map_app. Qed.
Lemma amounts_one c c' x : amounts c [(c', x)] = if (c' =? c)%string then [x] else [].
Proof. unfold amounts. simpl. by destruct (c' =? c)%string. Qed.
Lemma ksum_snoc (l : list D) x s t :
  ksum (E:=AccountLedgerError) l = Ok s → checked_add s x = Some t → ksum (E:=AccountLedgerError) (l ++ [x]) = Ok t.
Proof. intros Es Et. unfold ksum in *. rewrite try_fold_app, Es. simpl. by rewrite Et. Qed.

Lemma tracks_nil : tracks [] [].
Proof. split; [constructor|]. done. Qed.
Lemma tracks_add entries m c x m' :
  tracks entries m → add_aggregate m c x = Ok m' → tracks (entries ++ [(c, x)]) m'.
Proof.
  intros [Hs Ht] E. unfold add_aggregate in E. inv_fault E. subst m'.
  split; [by apply oinsert_sorted|]. intros c'. rewrite amounts_app, amounts_one.
  destruct (String.eqb_spec c c') as [<-|Hne].
  - rewrite oget_oinsert_eq by apply kcmp_refl. simpl. rewrite length_app. simpl.
    split; [by destruct (amounts c entries)|]. unfold agg_at in *. specialize (Ht c). destruct (oget m c) as [g|]; simpl in *.
    + destruct Ht as (_ & Hk & Hl). split; [by eapply ksum_snoc|lia].
    + rewrite Ht. simpl. split; [|done]. unfold ksum. simpl. by rewrite Ha.
  - rewrite app_nil_r, oget_oinsert_ne; [apply Ht|]. by intros E0%kcmp_eq.
Qed.
Lemma tracks_finish entries m : tracks entries m → sums_by_currency entries (finish_aggregates m).
Proof.
  intros [Hs Ht]. unfold finish_aggregates. split.
  - clear Ht. induction Hs as [|[k a] m Hs IH Hall]; simpl; [constructor|]. constructor; [done|].
    apply Forall_map. eapply Forall_impl; [exact Hall|]. by intros [k' a'].
  - intros c. specialize (Ht c). split; intros Hc.
    + rewrite map_map. simpl. intros (p & -> & Hp)%list_elem_of_fmap. destruct p as [k a]. simpl in *.
      rewrite (elem_oget _ _ _ Hs Hp) in Ht. by destruct Ht.
    + destruct (oget m c) as [a|] eqn:Eo; [|done]. destruct Ht as (_ & Hk & Hl).
      exists (agg_amount a). split; [done|]. apply list_elem_of_fmap.
      apply (elem_of_oget m c a Hs) in Eo. exists (c, a). split; [simpl; by rewrite Hl|done].
Qed.
End sums.

Section rows.
Context `{Hashing} {D : Type} `{DecimalMoney D}.

(** ** What a row says *)
Definition ok_value {E A} (r : result E A) : option A := match r with Ok a => Some a | Err _ => None end.
(** The closing time, the currency and the non-zero profit of a closed position *)
Definition realized_entry (row : PositionHistory) : option (Z * (string * D)) :=
  t ← ok_value (timestamp_required "positions_history.uTime" (ph_update_time_ms row));
  v ← ok_value (decimal_required "positions_history.realizedPnl" (ph_realized_pnl row));
  if is_zero v then None else Some (t, (trim (ph_ccy row), v)).
Definition fee_entry (fill : ExchangeFillIdentity) : option (string * D) :=
  fee ← efi_fee fill; currency ← efi_fee_currency fill;
  v ← ok_value (decimal_required "fills_history.fee" fee); Some (currency, v).
Definition funding_entry (bill : AccountBill) : option (string * D) :=
  if is_funding_bill bill
  then v ← ok_value (decimal_required "bills_history.pnl" (bl_pnl bill)); Some (trim (bl_ccy bill), v)
  else None.

(** The row was closed on the day [start, finish). *)
Definition closed_on (day : option (Z * Z)) (e : Z * (string * D)) : bool :=
  match day with Some (start, finish) => (start <=? e.1) && (e.1 <? finish) | None => false end.

(** The five components of a profit, added in the order of the code *)
Definition components_of (row : PositionHistory) : checked D :=
  pnl ← decimal_or_zero "positions_history.pnl" (ph_pnl row);
  fee ← decimal_or_zero "positions_history.fee" (ph_fee row);
  funding ← decimal_or_zero "positions_history.fundingFee" (ph_funding_fee row);
  liquidation ← decimal_or_zero "positions_history.liqPenalty" (ph_liquidation_penalty row);
  settled ← decimal_or_zero "positions_history.settledPnl" (ph_settled_pnl row);
  c1 ← or_panic (checked_add pnl fee); c2 ← or_panic (checked_add c1 funding);
  c3 ← or_panic (checked_add c2 liquidation); or_panic (checked_add c3 settled).
Definition reconciled (row : PositionHistory) : Prop :=
  ∃ r c : D, decimal_required "positions_history.realizedPnl" (ph_realized_pnl row) = Ok r
             ∧ components_of row = Ok c ∧ dec_eqb r c = true.

(** ** Loops that collect distinct identities *)
(** [seen] is the set of the identities taken so far, and none was taken twice. *)
Definition distinct_ids (ids : list string) (seen : gset string) : Prop := NoDup ids ∧ seen = list_to_set ids.
Lemma distinct_nil : distinct_ids [] ∅.
Proof. split; [constructor|done]. Qed.
Lemma distinct_snoc ids seen i : distinct_ids ids seen → i ∉ seen → distinct_ids (ids ++ [i]) ({[i]} ∪ seen).
Proof.
  intros [Hn ->] Hi. split.
  - apply NoDup_app. split; [done|split; [|apply NoDup_singleton]].
    intros x Hx ->%list_elem_of_singleton. apply Hi. by apply elem_of_list_to_set.
  - set_solver.
Qed.

(** ** The scan of the positions *)
Definition row_identity (row : PositionHistory) : string :=
  ph_instrument_type row +:+ ":" +:+ trim (ph_position_id row) +:+ ":"
  +:+ show_u64 (default 0 (ok_value (timestamp_required "positions_history.uTime" (ph_update_time_ms row)))).
Definition positions_read (day : option (Z * Z)) (rows : list PositionHistory) (s : PositionScan D) : Prop :=
  distinct_ids (map row_identity rows) (psc_seen s) ∧
  tracks (map snd (omap realized_entry rows)) (psc_realized s)
  ∧ tracks (map snd (List.filter (closed_on day) (omap realized_entry rows))) (psc_daily s)
  ∧ psc_checked s = length rows ∧ Forall reconciled rows.

Lemma omap_last {A B} (f : A → option B) l a : omap f (l ++ [a]) = omap f l ++ match f a with Some b => [b] | None => [] end.
Proof. rewrite omap_app. simpl. by destruct (f a). Qed.

Lemma required_ok f v x : required f v = Ok x → x = trim v ∧ x ≠ "".
Proof. unfold required. destruct (String.eqb_spec (trim v) ""); [done|]. by intros [= <-]. Qed.

Lemma position_row_read day t rows s row s' :
  positions_read day rows s → position_row day t s row = Ok s' → positions_read day (rows ++ [row]) s'.
Proof.
  intros (Hi & Hr & Hd & Hc & Hf) E. unfold position_row in E.
  apply bind_ok in E as (u & _ & E). apply bind_ok in E as (pid & Ep & E). apply bind_ok in E as (t0 & Et & E).
  apply required_ok in Ep as [-> _]. cbv zeta in E. case_decide as Hnew; [done|].
  assert (Hid : row_identity row = ph_instrument_type row +:+ ":" +:+ trim (ph_position_id row) +:+ ":" +:+ show_u64 t0).
  { unfold row_identity. by rewrite Et. }
  rewrite <- Hid in Hnew, E.
  apply bind_ok in E as (r & Er & E). do 5 (apply bind_ok in E as (? & ? & E)).
  do 3 (apply bind_ok in E as (? & ? & E)). apply bind_ok in E as (c & Ec & E).
  destruct (dec_eqb r c) eqn:Eq; [|done]. simpl in E.
  assert (Hrec : reconciled row).
  { exists r, c. split; [done|split; [|done]]. unfold components_of. run_fault. done. }
  assert (He : realized_entry row = if is_zero r then None else Some (t0, (trim (ph_ccy row), r))).
  { unfold realized_entry. rewrite Et. simpl. by rewrite Er. }
  unfold positions_read. rewrite omap_last, He.
  destruct (is_zero r).
  - injection E as <-. simpl. rewrite !app_nil_r, length_app, map_app. simpl.
    split; [by apply distinct_snoc|]. split; [done|]. split; [done|].
    split; [lia|by apply Forall_app_2; [|constructor]].
  - apply bind_ok in E as (ccy & Ey & E). apply required_ok in Ey as [-> _].
    apply bind_ok in E as (m1 & E1 & E). apply bind_ok in E as (m2 & E2 & E). injection E as <-. simpl.
    rewrite List.filter_app, !map_app, length_app. simpl.
    split; [by apply distinct_snoc|]. split; [by eapply tracks_add|]. split; [|split; [lia|by apply Forall_app_2; [|constructor]]].
    change (closed_on day (t0, (trim (ph_ccy row), r))) with (in_day day t0).
    destruct (in_day day t0); simpl; [by eapply tracks_add|]. injection E2 as <-. by rewrite app_nil_r.
Qed.

Lemma positions_stage day hs : ∀ cov s acc,
  positions_read day [] s → try_fold (position_history_step day) (cov, s) hs = Ok acc →
  positions_read day (concat (map (λ h, bh_rows h.2) hs)) acc.2.
Proof.
  intros cov s acc Hs E.
  apply (try_fold_track (λ pre a, positions_read day (concat (map (λ h, bh_rows h.2) pre)) a.2)
           (position_history_step day)) with (pre := []) in E; [exact E| |exact Hs].
  intros pre a h a' Ha E1. unfold position_history_step in E1. inv_ok E1. injection E1 as <-.
  rewrite map_app, concat_app. simpl. rewrite app_nil_r.
  eapply (try_fold_track (positions_read day)); [|exact Ha|eassumption].
  intros ? ? ? ?. apply position_row_read.
Qed.

(** ** Orders *)
Definition orders_read (s : OrderScan) : Prop := distinct_ids (map eoi_order_id s.1) s.2.
Lemma pending_read s pending s' : orders_read s → pending_step s pending = Ok s' → orders_read s'.
Proof.
  unfold pending_step. intros Hs E. case_decide as Hn; [done|]. injection E as <-. unfold orders_read. simpl.
  rewrite map_app. by apply distinct_snoc.
Qed.
Lemma order_row_read t s row s' :
  orders_read s → order_row t s row = Ok s' → orders_read s' ∧ length s'.1 = S (length s.1).
Proof.
  unfold order_row. intros Hs E. apply bind_ok in E as (? & _ & E). apply bind_ok in E as (id & _ & E).
  apply bind_ok in E as (? & _ & E). case_decide as Hn; [done|]. inv_ok E. injection E as <-. unfold orders_read. simpl.
  rewrite map_app, length_app. simpl. split; [by apply distinct_snoc|lia].
Qed.
Lemma pending_stage l : ∀ s s', orders_read s → try_fold pending_step s l = Ok s' →
  orders_read s' ∧ length s'.1 = (length s.1 + length l)%nat.
Proof.
  intros s s' Hs E.
  apply (try_fold_track (λ pre a, orders_read a ∧ length a.1 = (length s.1 + length pre)%nat)) with (pre := []) in E;
    [done| |by rewrite Nat.add_0_r].
  intros pre a p a' [Ha Hl] E1. split; [by eapply pending_read|]. unfold pending_step in E1.
  case_decide; [done|]. injection E1 as <-. simpl. rewrite !length_app. simpl. lia.
Qed.
Lemma orders_stage hs : ∀ s s', orders_read (ost_orders s) → try_fold order_history_step s hs = Ok s' →
  orders_read (ost_orders s')
  ∧ length (ost_orders s').1 = (length (ost_orders s).1 + length (concat (map (λ h, bh_rows h.2) hs)))%nat.
Proof.
  intros s s' Hs E.
  apply (try_fold_track (λ pre a, orders_read (ost_orders a) ∧ length (ost_orders a).1
           = (length (ost_orders s).1 + length (concat (map (λ h : string * BoundedHistory HistoricalOrder, bh_rows h.2) pre)))%nat))
    with (pre := []) in E; [done| |simpl; by rewrite Nat.add_0_r].
  intros pre a h a' [Ha Hl] E1. unfold order_history_step in E1. inv_ok E1. injection E1 as <-. simpl.
  rewrite map_app, concat_app. simpl. rewrite app_nil_r, length_app.
  match goal with E2 : try_fold (order_row h.1) _ _ = Ok _ |- _ =>
    apply (try_fold_track (λ pre1 b, orders_read b ∧ length b.1 = (length (ost_orders a).1 + length pre1)%nat))
      with (pre := []) in E2; [destruct E2; split; [done|simpl in *; lia]| |split; [done|simpl; lia]] end.
  intros pre1 b r b' [Hb Hlb] E3. apply order_row_read in E3 as [? ?]; [|done]. split; [done|].
  rewrite length_app. simpl. lia.
Qed.

(** ** Fills *)
Definition linked (order_ids : gset string) (complete : list (string * bool)) (fill : ExchangeFillIdentity) : Prop :=
  ∀ id, efi_order_id fill = Some id →
    id ∈ order_ids ∨ default false (oget complete (efi_instrument_type fill)) = false.
Definition fills_read (order_ids : gset string) (complete : list (string * bool)) (s : FillScan D) : Prop :=
  tracks (omap fee_entry (fsc_fills s)) (fsc_fees s) ∧ distinct_ids (map fill_identity (fsc_fills s)) (fsc_ids s)
  ∧ Forall (linked order_ids complete) (fsc_fills s).

Lemma normalize_fill_type t row fill : normalize_fill_identity (D:=D) t row = Ok fill → efi_instrument_type fill = t.
Proof.
  unfold normalize_fill_identity. intros E. apply bind_ok in E as (u & Eu & E).
  unfold require_expected_type in Eu. destruct (String.eqb_spec (fh_instrument_type row) t) as [<-|]; [|done].
  do 4 (apply bind_ok in E as (? & ? & E)). apply bind_ok in E as (? & ? & E). destruct (dec_leb _ _); [done|].
  apply bind_ok in E as (? & ? & E). destruct (dec_leb _ _); [done|]. inv_ok E. by injection E as <-.
Qed.
Lemma fill_row_read ids complete t s row s' :
  fills_read ids complete s → fill_row ids complete t s row = Ok s' →
  fills_read ids complete s' ∧ length (fsc_fills s') = S (length (fsc_fills s)).
Proof.
  intros (Hf & Hi & Hl) E. unfold fill_row in E. apply bind_ok in E as (fill & En & E).
  case_decide as Hnew; [done|]. apply bind_ok in E as (fees & Ef & E). apply bind_ok in E as (counts & Ec & E).
  injection E as <-. unfold fills_read. simpl. rewrite omap_last, map_app, length_app. simpl.
  apply normalize_fill_type in En.
  split; [|lia]. split; [|split; [by apply distinct_snoc|]].
  - unfold add_fee in Ef. unfold fee_entry.
    destruct (efi_fee fill) as [fee|]; simpl; [|by injection Ef as <-; rewrite app_nil_r].
    destruct (efi_fee_currency fill) as [ccy|]; simpl; [|by injection Ef as <-; rewrite app_nil_r].
    apply bind_ok in Ef as (v & Ev & Ef). rewrite Ev. simpl. by eapply tracks_add.
  - apply Forall_app_2; [done|]. constructor; [|done]. intros id Eid. rewrite En.
    unfold check_link in Ec. rewrite Eid in Ec. case_decide; [by left|right].
    by destruct (default false (oget complete t)).
Qed.
Lemma fills_stage ids complete hs : ∀ cov s acc,
  fills_read ids complete s → try_fold (fill_history_step ids complete) (cov, s) hs = Ok acc →
  fills_read ids complete acc.2
  ∧ length (fsc_fills acc.2) = (length (fsc_fills s) + length (concat (map (λ h, bh_rows h.2) hs)))%nat.
Proof.
  intros cov s acc Hs E.
  apply (try_fold_track (λ pre a, fills_read ids complete a.2 ∧ length (fsc_fills a.2)
           = (length (fsc_fills s) + length (concat (map (λ h : string * BoundedHistory FillHistory, bh_rows h.2) pre)))%nat))
    with (pre := []) in E; [done| |simpl; by rewrite Nat.add_0_r].
  intros pre a h a' [Ha Hl] E1. unfold fill_history_step in E1. inv_ok E1. injection E1 as <-. simpl.
  rewrite map_app, concat_app. simpl. rewrite app_nil_r, length_app.
  match goal with E2 : try_fold (fill_row _ _ h.1) _ _ = Ok _ |- _ =>
    apply (try_fold_track (λ pre1 b, fills_read ids complete b ∧ length (fsc_fills b) = (length (fsc_fills a.2) + length pre1)%nat))
      with (pre := []) in E2; [destruct E2; split; [done|simpl in *; lia]| |split; [done|simpl; lia]] end.
  intros pre1 b r b' [Hb Hlb] E3. apply fill_row_read in E3 as [? ?]; [|done]. split; [done|].
  rewrite length_app. simpl. lia.
Qed.

(** ** Bills and unrealized profit *)
Definition bills_read (rows : list AccountBill) (s : BillScan D) : Prop :=
  tracks (omap funding_entry rows) (bsc_funding s) ∧ distinct_ids (map ebi_bill_id (bsc_bills s)) (bsc_ids s)
  ∧ length (bsc_bills s) = length rows.
Lemma bill_row_read rows s bill s' :
  bills_read rows s → bill_row s bill = Ok s' → bills_read (rows ++ [bill]) s'.
Proof.
  intros (Hf & Hi & Hl) E. unfold bill_row in E. apply bind_ok in E as (id & Eid & E).
  apply bind_ok in E as (t & Et & E). case_decide as Hnew; [done|]. cbv zeta in E.
  apply bind_ok in E as (m & Em & E). injection E as <-. unfold bills_read. simpl.
  rewrite omap_last, map_app, !length_app. simpl. split; [|split; [by apply distinct_snoc|lia]].
  unfold funding_entry. destruct (is_funding_bill bill); [|by injection Em as <-; rewrite app_nil_r].
  apply bind_ok in Em as (v & Ev & Em). apply bind_ok in Em as (c & Ec & Em). apply required_ok in Ec as [-> _].
  rewrite Ev. simpl. by eapply tracks_add.
Qed.
Definition unrealized_entry (detail : AccountBalanceDetail) : option (string * D) :=
  text ← abd_unrealized_pnl detail;
  if is_blank text then None else
  v ← ok_value (decimal_required "balance.details.upl" text);
  if is_zero v then None else Some (abd_currency detail, v).
Lemma unrealized_read rows m detail m' :
  tracks (omap unrealized_entry rows) m → unrealized_step m detail = Ok m' →
  tracks (omap unrealized_entry (rows ++ [detail])) m'.
Proof.
  intros Hm E. rewrite omap_last. unfold unrealized_step in E. unfold unrealized_entry at 2.
  destruct (abd_unrealized_pnl detail) as [text|]; simpl; [|by injection E as <-; rewrite app_nil_r].
  destruct (is_blank text); [by injection E as <-; rewrite app_nil_r|].
  apply bind_ok in E as (v & Ev & E). rewrite Ev. simpl.
  destruct (is_zero v); [by injection E as <-; rewrite app_nil_r|by eapply tracks_add].
Qed.
End rows.

(** ** Times *)
Section times.
Definition plain (a : ascii) : Prop := (33 <= N_of_ascii a < 128)%N.
Lemma ws1_plain a : plain a → Text.ws1 a = false.
Proof. unfold plain, Text.ws1. intros [? ?]. apply orb_false_iff. split; [apply andb_false_iff; right; apply N.leb_gt; lia|apply N.eqb_neq; lia]. Qed.
Lemma ws2_plain a b : plain a → Text.ws2 a b = false.
Proof. unfold plain, Text.ws2. intros [? ?]. replace (N_of_ascii a =? 0xC2)%N with false; [done|]. symmetry. apply N.eqb_neq. lia. Qed.
Lemma ws3_plain a b c : plain a → Text.ws3 a b c = false.
Proof.
  unfold plain, Text.ws3. intros [? ?]. cbv zeta.
  replace (N_of_ascii a =? 0xE1)%N with false by (symmetry; apply N.eqb_neq; lia).
  replace (N_of_ascii a =? 0xE2)%N with false by (symmetry; apply N.eqb_neq; lia).
  by replace (N_of_ascii a =? 0xE3)%N with false by (symmetry; apply N.eqb_neq; lia).
Qed.
Lemma trim_start_plain l : Forall plain l → trim_start l = l.
Proof.
  intros Hl. destruct Hl as [|a l Ha Hl]; [done|]. simpl. rewrite ws1_plain by done.
  destruct l as [|b l]; [done|]. rewrite ws2_plain by done. destruct l; [done|]. by rewrite ws3_plain.
Qed.
Lemma trim_start_rev_plain l : Forall plain l → trim_start_rev l = l.
Proof.
  intros Hl. destruct Hl as [|a l Ha Hl]; [done|]. simpl. rewrite ws1_plain by done.
  destruct Hl as [|b l Hb Hl]; [done|]. rewrite ws2_plain by done. destruct Hl as [|c l Hc Hl]; [done|]. by rewrite ws3_plain.
Qed.
Lemma trim_plain s : Forall plain (String.list_ascii_of_string s) → trim s = s.
Proof.
  intros Hs. unfold trim, trim_bytes. rewrite trim_start_plain by done.
  rewrite trim_start_rev_plain by by apply Forall_rev. rewrite rev_involutive. apply String.string_of_list_ascii_of_string.
Qed.
Lemma digit_char_plain d : (d < 10)%N → plain (pretty_N_char d).
Proof.
  intros Hd. assert (d = 0 ∨ d = 1 ∨ d = 2 ∨ d = 3 ∨ d = 4 ∨ d = 5 ∨ d = 6 ∨ d = 7 ∨ d = 8 ∨ d = 9)%N as Hc by lia.
  by repeat destruct Hc as [->|Hc]; [..|subst].
Qed.
Lemma pretty_plain n : ∀ s, Forall plain (String.list_ascii_of_string s) → Forall plain (String.list_ascii_of_string (pretty_N_go n s)).
Proof.
  induction n as [n IH] using (well_founded_induction N.lt_wf_0). intros s Hs.
  destruct (N.eq_dec n 0) as [->|H0]; [by rewrite pretty_N_go_0|]. rewrite pretty_N_go_step by lia.
  apply IH; [apply N.div_lt; lia|]. simpl. constructor; [|done]. apply digit_char_plain, N.mod_lt. done.
Qed.
Lemma show_u64_plain n : Forall plain (String.list_ascii_of_string (show_u64 n)).
Proof.
  unfold show_u64, pretty, pretty_N. destruct (decide (Z.to_N n = 0%N)); [by repeat constructor|]. by apply pretty_plain; constructor.
Qed.
(** A time written by the program is read back. *)
Lemma timestamp_text f t : 0 < t ≤ u64_max → timestamp_required f (show_u64 t) = Ok t.
Proof.
  intros Ht. unfold timestamp_required. rewrite trim_plain by apply show_u64_plain.
  rewrite parse_show_u64 by (unfold in_u64; lia). by destruct (Z.ltb_spec 0 t); [|lia].
Qed.
Lemma parse_u64_bound s t : parse_u64 s = Some t → t ≤ u64_max.
Proof.
  unfold parse_u64. destruct s as [|a s']; [done|].
  assert (0 ≤ u64_max) by done. assert (Hd : ∀ acc s, acc ≤ u64_max → parse_digits acc s = Some t → t ≤ u64_max).
  { intros acc s. revert acc. induction s as [|b s IH]; intros acc Hacc E; simpl in E; [congruence|].
    destruct (digit b); [|done]. simpl in E. destruct (Z.leb_spec (acc * 10 + z) u64_max); [|done]. by eapply IH. }
  destruct (a =? "+")%char; [destruct s'; [done|]|]; by apply Hd.
Qed.
Lemma timestamp_positive f v t : timestamp_required f v = Ok t → 0 < t ≤ u64_max.
Proof.
  unfold timestamp_required. destruct (parse_u64 (trim v)) as [u|] eqn:E; [|done]. apply parse_u64_bound in E.
  destruct (Z.ltb_spec 0 u); [|done]. intros [= <-]. lia.
Qed.

(** [latest] is the greatest of the times that are present. *)
Definition present (p : string * option string) (t : Z) : Prop :=
  ∃ v, p.2 = Some v ∧ is_blank v = false ∧ timestamp_required p.1 v = Ok t.
Definition absent (p : string * option string) : Prop :=
  match p.2 with Some v => is_blank v = true | None => True end.
Definition latest_of (l : list (string * option string)) (latest : option Z) : Prop :=
  (∀ p, p ∈ l → absent p ∨ ∃ t, present p t ∧ ∃ m, latest = Some m ∧ t ≤ m)
  ∧ (∀ m, latest = Some m → 0 < m ≤ u64_max ∧ ∃ p, p ∈ l ∧ present p m).
Lemma admit_latest l latest p latest' :
  latest_of l latest → admit_time latest p = Ok latest' → latest_of (l ++ [p]) latest'.
Proof.
  intros [Ha Hb] E. unfold admit_time in E.
  assert (Hskip : absent p → latest' = latest → latest_of (l ++ [p]) latest').
  { intros Hp ->. split.
    - intros q [Hq| ->%list_elem_of_singleton]%elem_of_app; [by apply Ha|by left].
    - intros m Hm. destruct (Hb m Hm) as (? & q & ? & ?). split; [done|]. exists q. split; [by apply elem_of_app; left|done]. }
  destruct p.2 as [v|] eqn:E2; [destruct (is_blank v) eqn:Eb|].
  - apply Hskip; [unfold absent; by rewrite E2|congruence].
  - apply bind_ok in E as (t & Et & E). injection E as <-. pose proof (timestamp_positive _ _ _ Et) as Ht.
    assert (Hp : present p t) by (by exists v). split.
    + intros q [Hq| ->%list_elem_of_singleton]%elem_of_app.
      * destruct (Ha q Hq) as [|(t' & Hq' & m & -> & Hm)]; [by left|right]. exists t'. split; [done|].
        eexists. split; [done|lia].
      * right. exists t. split; [done|]. eexists. split; [done|]. destruct latest; lia.
    + intros m [= <-]. destruct latest as [c|].
      * destruct (Hb c eq_refl) as (Hc & q & Hq & Hpq). split; [lia|].
        destruct (Z.max_spec c t) as [[? ->]|[? ->]]; [exists p|exists q]; (split; [apply elem_of_app|done]); [right; left|by left].
      * split; [done|]. exists p. split; [apply elem_of_app; right; left|done].
  - apply Hskip; [unfold absent; by rewrite E2|congruence].
Qed.
Lemma as_of_latest snapshot as_of : current_account_as_of snapshot = Ok as_of →
  ∃ latest, as_of = option_map show_u64 latest ∧ latest_of (account_times snapshot) latest.
Proof.
  unfold current_account_as_of. intros E. apply bind_ok in E as (latest & E & [= <-]). exists latest. split; [done|].
  apply (try_fold_track latest_of) with (pre := []) in E; [done| |].
  - intros. by eapply admit_latest.
  - split; [intros ? []%elem_of_nil|done].
Qed.
Lemma day_bounds latest day :
  (∀ m, latest = Some m → 0 < m ≤ u64_max) → utc_day_bounds (option_map show_u64 latest) = Ok day →
  match latest with
  | None => day = None
  | Some t => ∃ start, day = Some (start, start + UTC_DAY_MS) ∧ (UTC_DAY_MS | start) ∧ start ≤ t < start + UTC_DAY_MS
  end.
Proof.
  intros Hl E. unfold utc_day_bounds in E. destruct latest as [t|]; simpl in E; [|congruence].
  rewrite timestamp_text in E by by apply Hl. simpl in E. apply bind_ok in E as (finish & Ef & [= <-]).
  apply or_panic_ok in Ef. unfold checked_add_u64 in Ef. destruct (_ <=? _); [|done]. injection Ef as <-.
  eexists. split; [done|]. split; [by apply Z.divide_factor_r|].
  pose proof (Z.div_mod t UTC_DAY_MS ltac:(done)). pose proof (Z.mod_pos_bound t UTC_DAY_MS ltac:(done)). lia.
Qed.
End times.

Section accepted.
Context `{Hashing} {D : Type} `{DecimalMoney D}.
Variables (received : string) (snapshot : AccountSnapshot) (config : AccountConfig)
  (balances : list FundingBalance)
  (position_histories : list (string * BoundedHistory PositionHistory))
  (order_histories : list (string * BoundedHistory HistoricalOrder))
  (fill_histories : list (string * BoundedHistory FillHistory))
  (bills : BoundedHistory AccountBill).
Definition history_rows {T} (histories : list (string * BoundedHistory T)) : list T :=
  concat (map (λ h, bh_rows h.2) histories).
Let run := from_okx (D:=D) received snapshot config balances position_histories order_histories fill_histories bills.

(** What the loops of an accepted ledger have computed *)
Lemma from_okx_stages f : run = Ok f →
  ∃ (as_of : option string) (day : option (Z * Z)) (positions : PositionScan D) (orders : OrderScan)
    (fills : FillScan D) (scanned : BillScan D) (unrealized : Aggregates D) (complete : list (string * bool)),
    current_account_as_of snapshot = Ok as_of ∧ utc_day_bounds as_of = Ok day
    ∧ positions_read day (history_rows position_histories) positions
    ∧ (orders_read orders ∧ length orders.1 = (length (acs_pending_orders snapshot) + length (history_rows order_histories))%nat)
    ∧ (fills_read orders.2 complete fills ∧ length (fsc_fills fills) = length (history_rows fill_histories))
    ∧ bills_read (bh_rows bills) scanned
    ∧ tracks (omap unrealized_entry (abs_details (acs_balance snapshot))) unrealized
    ∧ als_current_account_as_of_ms (alf_summary f) = as_of
    ∧ als_daily_realized_pnl_utc_day_start_ms (alf_summary f) = option_map (λ d, show_u64 d.1) day
    ∧ als_daily_realized_pnl_utc_day_end_ms (alf_summary f) = option_map (λ d, show_u64 d.2) day
    ∧ als_realized_pnl (alf_summary f) = finish_aggregates (psc_realized positions)
    ∧ als_daily_realized_pnl_utc (alf_summary f) = finish_aggregates (psc_daily positions)
    ∧ als_trade_fees (alf_summary f) = finish_aggregates (fsc_fees fills)
    ∧ als_funding (alf_summary f) = finish_aggregates (bsc_funding scanned)
    ∧ als_current_unrealized_pnl (alf_summary f) = finish_aggregates unrealized
    ∧ als_position_pnl_identity_rows_checked (alf_summary f) = psc_checked positions
    ∧ alf_exchange_orders f = orders.1 ∧ alf_exchange_fills f = fsc_fills fills
    ∧ alf_exchange_bills f = bsc_bills scanned ∧ alf_order_history_complete f = complete.
Proof.
  unfold run, from_okx. intros E. destruct (is_blank received); [done|].
  apply bind_ok in E as (uid & _ & E). destruct (negb _); [done|]. cbv zeta in E.
  apply bind_ok in E as (eqs & _ & E). apply bind_ok in E as (total & _ & E). apply bind_ok in E as (sum & _ & E).
  apply bind_ok in E as (residual & _ & E). apply bind_ok in E as (bals & _ & E). apply bind_ok in E as (as_of & Ea & E).
  apply bind_ok in E as (unreal & Eu & E). apply bind_ok in E as (day & Ed & E). apply bind_ok in E as (positions & Ep & E).
  apply bind_ok in E as (pending & Epe & E). apply bind_ok in E as (orders & Eo & E). apply bind_ok in E as (fills & Ef & E).
  apply bind_ok in E as (cov & _ & E). apply bind_ok in E as (scanned & Eb & E). injection E as <-.
  unfold aggregate_current_unrealized in Eu. apply bind_ok in Eu as (um & Eu & [= <-]).
  exists as_of, day, positions.2, (ost_orders orders), fills.2, scanned, um, (ost_complete orders).
  apply pending_stage in Epe as [Hp Hpl]; [|apply distinct_nil].
  apply orders_stage in Eo as [Ho Hol]; [|done]. simpl in Hol, Hpl.
  apply positions_stage in Ep; [|split; [apply distinct_nil|split; [apply tracks_nil|split; [apply tracks_nil|split; [done|constructor]]]]].
  apply fills_stage in Ef; [|split; [apply tracks_nil|split; [apply distinct_nil|constructor]]].
  apply (try_fold_track bills_read) with (pre := []) in Eb;
    [|intros ? ? ? ?; apply bill_row_read|split; [apply tracks_nil|split; [apply distinct_nil|done]]].
  apply (try_fold_track (λ pre m, tracks (omap unrealized_entry pre) m)) with (pre := []) in Eu;
    [|intros ? ? ? ?; apply unrealized_read|apply tracks_nil].
  repeat (split; [first [done|split; [done|unfold history_rows; lia]]|]). done.
Qed.

(** C29: The figures of an accepted ledger are sums of what its rows say: the realized
    profit, the part of it closed on the current day, the fees of the exported fills, the
    funding bills and the unrealized profit each have one line per currency with an entry,
    holding the sum in row order and the number of entries, and no other line. *)
Theorem ledger_sums f : run = Ok f →
  let profits := omap realized_entry (history_rows position_histories) in
  sums_by_currency (map snd profits) (als_realized_pnl (alf_summary f))
  ∧ (∃ day, utc_day_bounds (als_current_account_as_of_ms (alf_summary f)) = Ok day
       ∧ sums_by_currency (map snd (List.filter (closed_on day) profits)) (als_daily_realized_pnl_utc (alf_summary f)))
  ∧ sums_by_currency (D:=D) (omap fee_entry (alf_exchange_fills f)) (als_trade_fees (alf_summary f))
  ∧ sums_by_currency (D:=D) (omap funding_entry (bh_rows bills)) (als_funding (alf_summary f))
  ∧ sums_by_currency (D:=D) (omap unrealized_entry (abs_details (acs_balance snapshot))) (als_current_unrealized_pnl (alf_summary f)).
Proof.
  intros (as_of & day & ps & os & fs & bs & us & co & _ & Hd & (_ & Hr & Hdy & _) & _ & [(Hf & _) _] & (Hb & _) & Hu
          & Ea & _ & _ & Er & Edy & Efe & Efu & Eu & _ & _ & Efi & _)%from_okx_stages profits.
  rewrite Er, Edy, Efe, Efu, Eu, Efi, Ea. split; [by apply tracks_finish|].
  split; [exists day; split; [done|by apply tracks_finish]|]. split; [by apply tracks_finish|].
  split; by apply tracks_finish.
Qed.

(** The joined histories of an accepted ledger are consistent.  Every position row is
    counted and its profit equals the sum of its components; positions, orders, fills and
    bills have unique identities and none of their rows is lost; a fill names an order of
    the ledger unless the order history of its type was cut. *)
Theorem ledger_joined f : run = Ok f →
  Forall (reconciled (D:=D)) (history_rows position_histories)
  ∧ als_position_pnl_identity_rows_checked (alf_summary f) = length (history_rows position_histories)
  ∧ NoDup (map row_identity (history_rows position_histories))
  ∧ NoDup (map eoi_order_id (alf_exchange_orders f))
  ∧ length (alf_exchange_orders f) = (length (acs_pending_orders snapshot) + length (history_rows order_histories))%nat
  ∧ NoDup (map fill_identity (alf_exchange_fills f))
  ∧ length (alf_exchange_fills f) = length (history_rows fill_histories)
  ∧ NoDup (map ebi_bill_id (alf_exchange_bills f)) ∧ length (alf_exchange_bills f) = length (bh_rows bills)
  ∧ ∀ fill id, fill ∈ alf_exchange_fills f → efi_order_id fill = Some id →
      id ∈ map eoi_order_id (alf_exchange_orders f) ∨ order_history_complete f (efi_instrument_type fill) = false.
Proof.
  intros (as_of & day & ps & os & fs & bs & us & co & _ & _ & ([Hn _] & _ & _ & Hc & Hrec) & [[Ho Hoi] Hol]
          & [(_ & [Hfn _] & Hl) Hfl] & (_ & [Hbn _] & Hbl) & _ & _ & _ & _ & _ & _ & _ & _ & _ & Ec & Eo & Ef & Eb & Eco)%from_okx_stages.
  rewrite Ec, Eo, Ef, Eb. repeat (split; [done|]). intros fill id Hin Hid. rewrite Forall_forall in Hl.
  destruct (Hl fill Hin id Hid) as [Hx|Hx]; [left|right].
  - rewrite Hoi in Hx. by apply elem_of_list_to_set in Hx.
  - unfold order_history_complete. by rewrite Eco.
Qed.

(** The time of an accepted ledger is the greatest of the update times of the balance,
    its details, the positions and the orders that carry one, and its day is the UTC day
    [start, start + 24h) that contains this time; without any time there is no day. *)
Theorem ledger_day f : run = Ok f →
  ∃ latest, als_current_account_as_of_ms (alf_summary f) = option_map show_u64 latest
    ∧ latest_of (account_times snapshot) latest
    ∧ match latest with
      | None => als_daily_realized_pnl_utc_day_start_ms (alf_summary f) = None
                ∧ als_daily_realized_pnl_utc_day_end_ms (alf_summary f) = None
      | Some t => ∃ start, (UTC_DAY_MS | start) ∧ start ≤ t < start + UTC_DAY_MS
          ∧ als_daily_realized_pnl_utc_day_start_ms (alf_summary f) = Some (show_u64 start)
          ∧ als_daily_realized_pnl_utc_day_end_ms (alf_summary f) = Some (show_u64 (start + UTC_DAY_MS))
      end.
Proof.
  intros (as_of & day & ps & os & fs & bs & us & co & Ea & Hd & _ & _ & _ & _ & _ & Eas & Es & Ee & _)%from_okx_stages.
  destruct (as_of_latest _ _ Ea) as (latest & -> & Hl). exists latest. rewrite Eas, Es, Ee.
  split; [done|split; [done|]]. apply day_bounds in Hd; [|intros m Hm; by apply Hl].
  destruct latest as [t|]; [|by rewrite Hd].
  destruct Hd as (start & -> & ? & ?). exists start. by split; [|split].
Qed.
End accepted.

(** ** A small ledger *)
Module Demo.
Definition position : PositionHistory := {|
  ph_instrument_type := "SWAP"; ph_instrument_id := "BTC-USDT-SWAP"; ph_margin_mode := "cross"; ph_position_id := "7";
  ph_position_side := "long"; ph_direction := "long"; ph_open_average_price := "100"; ph_close_average_price := "110";
  ph_max_open_position := "1"; ph_total_closed_position := "1"; ph_realized_pnl := "9.5"; ph_settled_pnl := "";
  ph_pnl := "10"; ph_fee := "-0.5"; ph_funding_fee := ""; ph_liquidation_penalty := ""; ph_pnl_ratio := "";
  ph_lever := "2"; ph_ccy := "USDT"; ph_close_type := "2"; ph_creation_time_ms := "86400001"; ph_update_time_ms := "86400005" |}.
Definition fill : FillHistory := {|
  fh_instrument_type := "SWAP"; fh_instrument_id := "BTC-USDT-SWAP"; fh_trade_id := "t1"; fh_order_id := "o1";
  fh_client_order_id := "c1"; fh_bill_id := "b1"; fh_sub_type := ""; fh_side := "sell"; fh_position_side := "long";
  fh_fill_price := "110"; fh_fill_size := "1"; fh_fill_pnl := "10"; fh_fee := "-0.5"; fh_fee_currency := "USDT";
  fh_execution_type := "T"; fh_timestamp_ms := "86400005"; fh_fill_time_ms := "86400005" |}.
Definition order : HistoricalOrder := {|
  ho_instrument_type := "SWAP"; ho_instrument_id := "BTC-USDT-SWAP"; ho_order_id := "o1"; ho_client_order_id := "c1";
  ho_tag := ""; ho_side := "sell"; ho_position_side := "long"; ho_trade_mode := "cross"; ho_order_type := "market";
  ho_px := ""; ho_sz := "1"; ho_accumulated_fill_size := "1"; ho_average_fill_price := "110"; ho_state := "filled";
  ho_category := ""; ho_source := ""; ho_pnl := "10"; ho_fee := "-0.5"; ho_fee_currency := "USDT"; ho_trade_id := "t1";
  ho_creation_time_ms := "86400004"; ho_update_time_ms := "86400005" |}.
Definition bill : AccountBill := {|
  bl_bill_id := "b2"; bl_instrument_type := "SWAP"; bl_instrument_id := "BTC-USDT-SWAP"; bl_order_id := "";
  bl_trade_id := ""; bl_ccy := "USDT"; bl_bill_type := "8"; bl_bill_sub_type := "173"; bl_balance_change := "-0.1";
  bl_position_balance_change := ""; bl_bal := ""; bl_position_balance := ""; bl_sz := ""; bl_px := ""; bl_pnl := "-0.1";
  bl_fee := ""; bl_margin_mode := ""; bl_execution_type := ""; bl_client_order_id := ""; bl_fill_time_ms := "";
  bl_timestamp_ms := "86400009" |}.
Definition history {T} (rows : list T) : BoundedHistory T := {| bh_rows := rows; bh_pages := 1; bh_complete := true |}.
Definition config : AccountConfig := {|
  ac_account_level := "2"; ac_position_mode := "net_mode"; ac_uid := "u"; ac_main_uid := "m"; ac_account_type := "1";
  ac_account_stp_mode := ""; ac_auto_loan := false; ac_greeks_type := ""; ac_fee_type := ""; ac_label := "";
  ac_ip := ""; ac_perm := "" |}.
Definition account : AccountSnapshot := {|
  acs_schema := "a"; acs_source := "rest"; acs_source_received_at := "t"; acs_account_generation := "g";
  acs_quality_reason := "ok"; acs_private_ws_connected := true; acs_private_ws_generation := Some 1;
  acs_private_ws_connection_fingerprint := None; acs_private_ws_last_inbound_ms := None;
  acs_private_ws_events_applied := None; acs_account_level := "2"; acs_position_mode := "net_mode";
  acs_account_type := "1"; acs_account_uid_fingerprint := "u"; acs_api_key_permissions := ["read"; "trade"];
  acs_balance := {|
    abs_total_equity_usd := "500"; abs_adjusted_equity_usd := None; abs_isolated_equity_usd := None;
    abs_initial_margin_requirement_usd := None; abs_maintenance_margin_requirement_usd := None;
    abs_margin_ratio := None; abs_notional_usd := None; abs_update_time_ms := Some "86400010";
    abs_details := [{|
      abd_liabilities := None; abd_currency := "USDT"; abd_equity := "500"; abd_cash_balance := None;
      abd_available_equity := Some "400"; abd_available_balance := None; abd_frozen_balance := None;
      abd_equity_usd := Some "499.5"; abd_unrealized_pnl := Some "1.5"; abd_update_time_ms := None |}] |};
  acs_positions := []; acs_pending_orders := [] |}.
Definition ledger : result (fault AccountLedgerError) AccountLedgerFacts :=
  from_okx (H:=toy_hashing) (D:=Fixed.t) "now" account config []
    [("SWAP", history [position])] [("SWAP", history [order])] [("SWAP", history [fill])] (history [bill]).
Definition facts : AccountLedgerFacts.
Proof. let r := eval vm_compute in ledger in match r with Ok ?f => exact f end. Defined.
Lemma ledger_ok : ledger = Ok facts.
Proof. vm_compute. reflexivity. Qed.
End Demo.

(** The profit of 9.5 is today's, the fee is -0.5 and the funding -0.1. *)
Example demo_ledger_figures :
  als_daily_realized_pnl_utc (alf_summary Demo.facts) = [{| cag_currency := "USDT"; cag_amount := "9.5"; cag_events := 1 |}]
  ∧ als_trade_fees (alf_summary Demo.facts) = [{| cag_currency := "USDT"; cag_amount := "-0.5"; cag_events := 1 |}]
  ∧ als_funding (alf_summary Demo.facts) = [{| cag_currency := "USDT"; cag_amount := "-0.1"; cag_events := 1 |}].
Proof. done. Qed.

Lemma ledger_sums_witness :
  sums_by_currency (D:=Fixed.t) [("USDT", Fixed.mk 95 1)] (als_realized_pnl (alf_summary Demo.facts)).
Proof.
  pose proof (ledger_sums _ _ _ _ _ _ _ _ _ Demo.ledger_ok) as [Hs _]. exact Hs.
Defined.
Lemma ledger_joined_witness :
  Forall (reconciled (D:=Fixed.t)) [Demo.position] ∧ NoDup ["o1"]
  ∧ length (alf_exchange_fills Demo.facts) = 1%nat ∧ NoDup (map ebi_bill_id (alf_exchange_bills Demo.facts)).
Proof.
  destruct (ledger_joined _ _ _ _ _ _ _ _ _ Demo.ledger_ok) as (Hr & _ & _ & Ho & _ & _ & Hf & Hb & _).
  split; [exact Hr|]. split; [exact Ho|]. split; [exact Hf|exact Hb].
Defined.
Lemma ledger_day_witness :
  ∃ latest, Some "86400010" = option_map show_u64 latest ∧ latest_of (account_times Demo.account) latest.
Proof.
  destruct (ledger_day _ _ _ _ _ _ _ _ _ Demo.ledger_ok) as (latest & E & Hl & _). by exists latest.
Defined.
