(* ===== verification/Analysis.v ===== *)
(** * Analysis: the numbers of okx-analysis, [okx-analysis/src/lib.rs] and its small reports

    Every report of the crate reads its inputs as plain decimal texts ([decimal],
    [positive_decimal]), computes with the operators of [Decimal] and writes the results
    with [dtext].  The basis of a dated future ([derivatives.rs]), the return of a day
    ([market_query.rs]) and the baseline strategies ([strategy.rs]) are here. *)
From stdpp Require Import base option list numbers strings.
From Stdlib Require Import ZArith QArith Lia Lqa Ascii.
From S2P Require Import Prelude Text Ordered External Decimals Lots MoneyText Faults.
Local Open Scope string_scope.
Local Open Scope list_scope.
Local Open Scope Z_scope.
Local Open Scope fault_scope.

Inductive LiquidityRole : Type := Maker | Taker.
Inductive PositionDirection : Type := DirLong | DirShort.
#[export] Instance PositionDirection_eq_dec : EqDecision PositionDirection.
Proof. solve_decision. Defined.

Inductive AnalysisError : Type :=
| AeInstrumentMismatch
| AeInvalidStrategyInput (field : string)
| AeReferenceGenerationMismatch
| AeFeeScheduleNotExact
| AeUnsupportedContractMechanics (value : string)
| AeMissingFunding
| AeUnknownFundingSemantics
| AeInvalidDecimal (field value : string)
| AeNonPositive (field : string)
| AeNegative (field : string)
| AeUnsupportedAccountMode (mode : string)
| AeUnsupportedPositionMode (mode : string)
| AeUnsupportedPositionType (instrument_id instrument_type : string)
| AeUnsupportedPositionSide (instrument_id position_side : string)
| AeInconsistentPositionDirection (instrument_id position_side position : string)
| AeMissingPositionNotional (instrument_id : string)
| AeMissingInitialMarginRequirement
| AeInconsistentLiquidationPrice (instrument_id : string)
| AeMissingSettlementCurrency
| AeMissingContractValueCurrency
| AePriceNotTickAligned (field value tick_size : string)
| AeInvalidStopDirection (instrument_id : string)
| AeInvalidTargetDirection (instrument_id : string)
| AeStopDoesNotLose (instrument_id : string)
| AeTargetDoesNotProfit (instrument_id : string)
| AeCandidateBelowMinimumSize (instrument_id contracts min_size : string)
| AeInvalidTargetPrice (what : string)
| AeInvalidFeeRate (field : string)
| AeScenarioMoveAtOrBelowNegativeOne
| AeInsufficientConfirmedHistory (confirmed : nat)
| AeInvalidHistoryTimestamp (value : string)
| AeInvalidExpiryTimestamp (value : string)
| AeExpiryNotFuture (expiry_ms as_of_ms : Z)
| AeHistoryNotChronological
| AeInvalidHistoryCandle (value : string)
| AeOrderBookNotContiguous
| AeOrderBookMissingSequence
| AeOrderBookMissingTimestamp
| AeInvalidOrderBookDepth (depth : Z)
| AeOrderBookEmptyAsk
| AeOrderBookEmptyBid
| AeOrderBookNotStrictlySorted
| AeInsufficientStatisticalSamples (found : nat)
| AeStatisticalSeriesLengthMismatch
| AeStatisticalUniverseTooLarge (size : nat)
| AeStatisticalHistoryMismatch
| AeStatisticalBarMismatch
| AeStatisticalHistoryNotAligned
| AeStatisticalHistoryGap (instrument : string)
| AeStatisticalReferenceMismatch
| AeUnsupportedStatisticalBar (bar : string)
| AeStatisticalVolatilityReconciliationExceeded (residual tolerance : string)
| AeInsufficientConfirmedStatisticalHistory (instrument : string) (confirmed : nat)
| AeCrossedOrderBook (best_bid best_ask : string)
| AeEmptyTcaFills
| AeTcaInstrumentMismatch
| AeTcaSideMismatch
| AeDuplicateTcaFill (trade_id : string)
| AeUnsupportedTcaExecutionType (value : string)
| AeTcaFillBeforeReference (fill_time_ms reference_time_ms : Z)
| AeInvalidTcaReferenceTimestamp
| AeInvalidTcaReferencePolicy
| AeMissingTcaFeeCurrency
| AeTcaFilledExceedsRequested (filled requested : string).

Notation analyzed A := (result (fault AnalysisError) A).

(** The loop over the bytes: digits, one point, a sign in front; [None] is refused,
    [Some] says whether there was a digit. *)
Fixpoint scan_decimal (first dot digits : bool) (s : string) : option bool :=
  match s with
  | EmptyString => Some digits
  | String a s' =>
    if (match digit a with Some _ => true | None => false end) then scan_decimal false dot true s'
    else if (a =? ".")%char && negb dot then scan_decimal false true digits s'
    else if ((a =? "+")%char || (a =? "-")%char) && first then scan_decimal false dot digits s'
    else None
  end.

Section numbers.
Context {D : Type} `{DecimalMoney D}.

Definition decimal (field value : string) : analyzed D :=
  if (value =? "")%string || (64 <? String.length value)%nat then raise (AeInvalidDecimal field value) else
  match scan_decimal true false false value with
  | Some true =>
    match dec_from_str value with
    | Some d => Ok d
    | None => raise (AeInvalidDecimal field value)
    end
  | _ => raise (AeInvalidDecimal field value)
  end.

Definition positive_decimal (field value : string) : analyzed D :=
  v ← decimal field value;
  if dec_leb v dec_zero then raise (AeNonPositive field) else Ok v.

End numbers.

(** ** The basis of a dated future: [derivatives.rs] *)
Definition DATED_FUTURE_BASIS_SCHEMA_V1 : string := "okx.dated-future-basis/v1".
Definition BASIS_POINTS : Z := 10000.
Definition MILLIS_PER_YEAR : Z := 31557600000.

Record DatedFutureBasisAnalysis : Type := {
  dfb_schema : string;
  dfb_mark_price : string;
  dfb_index_price : string;
  dfb_as_of_ms : Z;
  dfb_expiry_time_ms : Z;
  dfb_time_to_expiry_ms : Z;
  dfb_basis_bps : string;
  dfb_annualized_basis_bps : string;
}.

Section reports.
Context {D : Type} `{DecimalMoney D}.

(** [((x - y) / y) * Decimal::from(scale)] *)
Definition relative (x y : D) (scale : Z) : analyzed D :=
  difference ← x -! y; ratio ← difference /! y; ratio *! dec_of_int scale.

Definition analyze_mark_index_basis_bps (mark_price index_price : string) : analyzed string :=
  mark ← positive_decimal (D:=D) "mark_price" mark_price;
  index ← positive_decimal "index_price" index_price;
  basis ← relative mark index BASIS_POINTS;
  Ok (dtext basis).

Definition analyze_basis_difference_bps (left_basis_bps right_basis_bps : string) : analyzed string :=
  left ← decimal (D:=D) "left_basis_bps" left_basis_bps;
  right ← decimal "right_basis_bps" right_basis_bps;
  difference ← left -! right;
  Ok (dtext difference).

Definition analyze_dated_future_basis (mark_price index_price : string) (as_of_ms : Z) (expiry_time_ms : string)
    : analyzed DatedFutureBasisAnalysis :=
  mark ← positive_decimal (D:=D) "mark_price" mark_price;
  index ← positive_decimal "index_price" index_price;
  expiry ← match parse_u64 expiry_time_ms with
           | Some t => Ok t
           | None => raise (AeInvalidExpiryTimestamp expiry_time_ms)
           end;
  if expiry <=? as_of_ms then raise (AeExpiryNotFuture expiry as_of_ms) else
  let time_to_expiry := expiry - as_of_ms in
  basis ← relative mark index BASIS_POINTS;
  yearly ← basis *! dec_of_int MILLIS_PER_YEAR;
  annualized ← yearly /! dec_of_int time_to_expiry;
  Ok {| dfb_schema := DATED_FUTURE_BASIS_SCHEMA_V1;
        dfb_mark_price := dtext mark;
        dfb_index_price := dtext index;
        dfb_as_of_ms := as_of_ms;
        dfb_expiry_time_ms := expiry;
        dfb_time_to_expiry_ms := time_to_expiry;
        dfb_basis_bps := dtext basis;
        dfb_annualized_basis_bps := dtext annualized |}.

(** ** The return of a day: [market_query.rs], whose own [positive_decimal] is the same *)
Definition RETURN_24H_PCT_METRIC_ID : string := "return_24h_pct".
Definition RETURN_24H_PCT_METRIC_VERSION_V1 : string := "return_24h_pct/v1".
Definition RETURN_24H_PCT_UNIT : string := "percent".
Record Return24hPct : Type := { r24_value : D }.
Definition r24_value_text (r : Return24hPct) : string := dtext (r24_value r).
Definition r24_cmp (x y : Return24hPct) : comparison := kcmp (r24_value x) (r24_value y).
Definition analyze_return_24h_pct (last open_24h : string) : analyzed Return24hPct :=
  last ← positive_decimal "last" last;
  open ← positive_decimal "open_24h" open_24h;
  value ← relative last open 100;
  Ok {| r24_value := value |}.
End reports.
Arguments Return24hPct D : clear implicits.

(** ** Baseline strategies: [strategy.rs] *)
Definition BASELINE_STRATEGY_VERSION_V1 : string := "okx.strategy.baseline/2026-10-04.1".
Definition TWO_BAR_MOMENTUM_STRATEGY_VERSION_V1 : string := "okx.strategy.two-bar-momentum/2026-10-05.1".
Definition STRATEGY_RESEARCH_METADATA_VERSION_V1 : string := "okx.strategy.research-metadata/2026-10-04.1".

Inductive BaselineStrategyKind : Type := NoTrade | CloseMomentum | TwoBarMomentum.
Inductive StrategyParameterSurface : Type := NoParameters.
Record StrategyResearchMetadata : Type := {
  srm_version : string;
  srm_signal_lookback_bars : Z;
  srm_forward_outcome_bars : Z;
  srm_parameter_surface : StrategyParameterSurface;
}.
Definition baseline_strategy_research_metadata (strategy : BaselineStrategyKind) : StrategyResearchMetadata :=
  let '(lookback, forward) := match strategy with
    | NoTrade => (0, 0) | CloseMomentum => (1, 2) | TwoBarMomentum => (2, 2) end in
  {| srm_version := STRATEGY_RESEARCH_METADATA_VERSION_V1; srm_signal_lookback_bars := lookback;
     srm_forward_outcome_bars := forward; srm_parameter_surface := NoParameters |}.
Definition baseline_strategy_version (strategy : BaselineStrategyKind) : string :=
  match strategy with
  | NoTrade | CloseMomentum => BASELINE_STRATEGY_VERSION_V1
  | TwoBarMomentum => TWO_BAR_MOMENTUM_STRATEGY_VERSION_V1
  end.

Inductive StrategyDecision : Type := Hold | EnterLong | EnterShort.
Record BarDecisionInput : Type := {
  bdi_antecedent_close : option string;
  bdi_previous_close : string;
  bdi_signal_close : string;
}.

Section strategy.
Context {D : Type} `{DecimalMoney D}.

Definition require_positive (field : string) (v : D) : analyzed unit :=
  if dec_leb v dec_zero then raise (AeNonPositive field) else Ok tt.

Definition evaluate_baseline_strategy (strategy : BaselineStrategyKind) (input : BarDecisionInput)
    : analyzed StrategyDecision :=
  match strategy with
  | NoTrade => Ok Hold
  | CloseMomentum =>
    previous ← decimal (D:=D) "strategy_previous_close" (bdi_previous_close input);
    signal ← decimal "strategy_signal_close" (bdi_signal_close input);
    _ ← require_positive "strategy_previous_close" previous;
    _ ← require_positive "strategy_signal_close" signal;
    Ok (if dec_ltb previous signal then EnterLong
        else if dec_ltb signal previous then EnterShort else Hold)
  | TwoBarMomentum =>
    antecedent ← match bdi_antecedent_close input with
                 | Some a => Ok a
                 | None => raise (AeInvalidStrategyInput "strategy_antecedent_close")
                 end;
    antecedent ← decimal (D:=D) "strategy_antecedent_close" antecedent;
    previous ← decimal "strategy_previous_close" (bdi_previous_close input);
    signal ← decimal "strategy_signal_close" (bdi_signal_close input);
    _ ← require_positive "strategy_antecedent_close" antecedent;
    _ ← require_positive "strategy_previous_close" previous;
    _ ← require_positive "strategy_signal_close" signal;
    Ok (if dec_ltb antecedent previous && dec_ltb previous signal then EnterLong
        else if dec_ltb previous antecedent && dec_ltb signal previous then EnterShort else Hold)
  end.
End strategy.

(** ** Reading numbers *)
Section facts.
Context {D : Type} `{MoneyText D}.

Lemma decimal_ok f v (x : D) : decimal f v = Ok x → dec_from_str v = Some x.
Proof.
  unfold decimal. destruct (_ || _); [done|]. destruct (scan_decimal _ _ _ v) as [[]|]; try done.
  destruct (dec_from_str v); [|done]. by intros [= ->].
Qed.
Lemma positive_ok f v (x : D) : positive_decimal f v = Ok x → dec_from_str v = Some x ∧ (0 < val x)%Q.
Proof.
  unfold positive_decimal. intros E. apply bind_ok in E as (y & Ey & E). apply decimal_ok in Ey.
  destruct (dec_leb y dec_zero) eqn:El; [done|]. injection E as <-. split; [done|].
  apply dec_leb_false in El. by rewrite val_zero in El.
Qed.
Lemma decimal_text_val f (x y : D) : decimal f (dtext x) = Ok y → (val y == val x)%Q.
Proof. intros E%decimal_ok. by apply from_text. Qed.
(** The reading of a text depends on the text only. *)
Lemma decimal_again f g v (x y : D) : decimal f v = Ok x → decimal g v = Ok y → x = y.
Proof. intros E1%decimal_ok E2%decimal_ok. congruence. Qed.
End facts.
