(* ===== verification/RiskAnalysis.v ===== *)
(** * RiskAnalysis: the risk of an account and of a candidate, [okx-analysis/src/risk.rs]

    [analyze_account_risk] measures the exposure of an account snapshot;
    [analyze_portfolio_risk_with_strategy_nav] compares it, and the candidate order when
    there is one, with a mandate and a hard policy, and lists what is violated; the
    decision is [Accepted] when nothing is.  [conservative_account_with_position_oracle]
    bounds the account by a second reading of the exchange before that. *)
From stdpp Require Import base option list numbers strings.
From Stdlib Require Import ZArith QArith Lia Lqa Ascii.
From S2P Require Import Prelude Text Ordered External Decimals Lots MoneyText Faults Wire Account AccountLedger Analysis.
Local Open Scope string_scope.
Local Open Scope list_scope.
Local Open Scope Z_scope.
Local Open Scope fault_scope.

(** ** Data *)
Definition ACCOUNT_RISK_ANALYSIS_SCHEMA_V1 : string := "okx.account-risk-analysis/v1".
Definition PORTFOLIO_RISK_ANALYSIS_SCHEMA_V3 : string := "okx.portfolio-risk-analysis/v3".
Definition RISK_ORACLE_COMPARISON_SCHEMA_V2 : string := "okx.risk-oracle-comparison/v2".
Definition RISK_ORACLE_CONSISTENCY_POLICY_V1 : string := "okx.risk-oracle-consistency/exact-usd-v1".
Definition VIRTUAL_NOTIONAL_ORACLE_COMPARISON_SCHEMA_V1 : string := "okx.virtual-notional-oracle-comparison/v1".
Definition VIRTUAL_NOTIONAL_ORACLE_CONSISTENCY_POLICY_V1 : string :=
  "okx.virtual-notional-oracle-consistency/exact-usd-v1".
Definition VIRTUAL_POSITION_CONSTRAINT_SCHEMA_V1 : string := "okx.virtual-position-constraint/v1".

Record VirtualPositionConstraintInput : Type := {
  vpi_instrument_id : string;
  vpi_contracts : string;
  vpi_contract_value : string;
  vpi_mark_price : string;
  vpi_lot_size : string;
  vpi_min_size : string;
  vpi_max_size : string;
  vpi_leverage : string;
  vpi_max_leverage : string;
}.

Record VirtualPositionConstraintEvidence : Type := {
  vpe_schema : string;
  vpe_instrument_id : string;
  vpe_signed_contracts : string;
  vpe_absolute_contracts : string;
  vpe_contract_value : string;
  vpe_mark_price : string;
  vpe_local_notional_usd : string;
  vpe_initial_margin_usd : string;
  vpe_lot_size : string;
  vpe_min_size : string;
  vpe_max_size : string;
  vpe_requested_leverage : string;
  vpe_max_leverage : string;
  vpe_lot_aligned : bool;
  vpe_minimum_size_satisfied : bool;
  vpe_maximum_size_satisfied : bool;
  vpe_leverage_satisfied : bool;
  vpe_constraints_satisfied : bool;
}.

Record VirtualNotionalOracleInput : Type := {
  vni_instrument_id : string;
  vni_contracts : string;
  vni_contract_value : string;
  vni_mark_price : string;
  vni_oracle_notional_usd : string;
}.

Record VirtualNotionalOraclePositionComparison : Type := {
  vnp_instrument_id : string;
  vnp_contracts : string;
  vnp_contract_value : string;
  vnp_mark_price : string;
  vnp_local_notional_usd : string;
  vnp_oracle_notional_usd : string;
  vnp_residual_usd : string;
}.

Record VirtualNotionalOracleComparison : Type := {
  vnc_schema : string;
  vnc_consistency_policy : string;
  vnc_local_gross_notional_usd : string;
  vnc_oracle_gross_notional_usd : string;
  vnc_gross_notional_residual_usd : string;
  vnc_positions : list VirtualNotionalOraclePositionComparison;
  vnc_consistent : bool;
}.

Record PositionRiskAnalysis : Type := {
  pra_instrument_type : string;
  pra_instrument_id : string;
  pra_direction : PositionDirection;
  pra_margin_mode : string;
  pra_position_contracts : string;
  pra_position_notional_usd : string;
  pra_signed_notional_usd : string;
  pra_gross_concentration_ratio : string;
  pra_configured_leverage : option string;
  pra_initial_margin_requirement_usd : option string;
  pra_maintenance_margin_requirement_usd : option string;
  pra_exchange_margin_ratio : option string;
  pra_mark_price : option string;
  pra_estimated_liquidation_price : option string;
  pra_estimated_liquidation_distance_ratio : option string;
}.

Record AccountRiskAnalysis : Type := {
  ara_schema : string;
  ara_account_generation : string;
  ara_account_source : string;
  ara_account_quality_reason : string;
  ara_account_level : string;
  ara_position_mode : string;
  ara_total_equity_usd : string;
  ara_adjusted_equity_usd : option string;
  ara_exchange_gross_notional_usd : option string;
  ara_gross_position_notional_usd : string;
  ara_directional_net_position_notional_usd : string;
  ara_gross_exposure_to_equity_ratio : option string;
  ara_directional_net_exposure_to_equity_ratio : option string;
  ara_initial_margin_requirement_usd : option string;
  ara_maintenance_margin_requirement_usd : option string;
  ara_exchange_margin_ratio : option string;
  ara_source_position_record_count : nat;
  ara_open_position_count : nat;
  ara_pending_order_count : nat;
  ara_positions : list PositionRiskAnalysis;
}.

Record TradingMandate : Type := {
  tm_schema : string;
  tm_version : string;
  tm_capital_base_usd : string;
  tm_decision_horizon_hours : Z;
  tm_benchmark : option string;
  tm_allowed_instruments : list string;
  tm_max_drawdown_ratio : string;
  tm_leverage_ceiling : string;
  tm_minimum_liquidity_notional_usd : string;
  tm_max_turnover_ratio : string;
}.

Record CorrelatedClusterLimit : Type := {
  ccl_id : string;
  ccl_instruments : list string;
  ccl_max_gross_notional_usd : string;
}.

Inductive RiskMinimumQuality : Type := QualityFresh | QualityDegraded.
Inductive RiskDegradedMode : Type := RejectDegraded | AllowReadOnly.

Record HardRiskPolicy : Type := {
  hrp_schema : string;
  hrp_version : string;
  hrp_max_account_gross_notional_usd : string;
  hrp_max_instrument_gross_notional_usd : string;
  hrp_max_margin_utilization_ratio : string;
  hrp_max_loss_per_trade_usd : string;
  hrp_max_daily_realized_loss_usd : string;
  hrp_max_drawdown_ratio : string;
  hrp_max_leverage : string;
  hrp_allowed_instruments : list string;
  hrp_minimum_quality : RiskMinimumQuality;
  hrp_degraded_mode : RiskDegradedMode;
  hrp_correlated_clusters : list CorrelatedClusterLimit;
}.

Record PortfolioCandidate : Type := {
  pc_instrument : string;
  pc_direction : PositionDirection;
  pc_notional_usd : string;
  pc_worst_case_loss_usd : string;
  pc_leverage : string;
}.

Record ExposureAggregate : Type := {
  ex_key : string;
  ex_gross_notional_usd : string;
  ex_signed_net_notional_usd : string;
}.

Record ClusterExposure : Type := {
  ce_cluster_id : string;
  ce_gross_notional_usd : string;
  ce_max_gross_notional_usd : string;
}.

Record CandidateProjection : Type := {
  cp_instrument : string;
  cp_direction : PositionDirection;
  cp_additive_new_risk : bool;
  cp_notional_usd : string;
  cp_worst_case_loss_usd : string;
  cp_leverage : string;
  cp_projected_account_gross_notional_usd : string;
  cp_projected_instrument_gross_notional_usd : string;
  cp_projected_margin_utilization_ratio : option string;
}.

Record RiskPolicyViolation : Type := Violation {
  vi_code : string;
  vi_scope : string;
  vi_observed : string;
  vi_limit : string;
}.

Record PositionOracleEvidence : Type := {
  poe_instrument_type : string;
  poe_instrument_id : string;
  poe_position_side : string;
  poe_margin_mode : string;
  poe_contracts : string;
  poe_notional_usd : string;
}.

Record RiskOracleComparison : Type := {
  roc_schema : string;
  roc_oracle_source : string;
  roc_oracle_timestamp_ms : string;
  roc_consistency_policy : string;
  roc_gross_notional_tolerance_usd : string;
  roc_adjusted_equity_tolerance_usd : string;
  roc_semantic_exceptions : list string;
  roc_local_gross_notional_usd : string;
  roc_oracle_gross_notional_usd : string;
  roc_gross_notional_residual_usd : string;
  roc_local_adjusted_equity_usd : option string;
  roc_oracle_adjusted_equity_usd : option string;
  roc_adjusted_equity_residual_usd : option string;
  roc_consistent : bool;
}.

Record CandidateRiskContext : Type := {
  crc_total_equity_usd : string;
  crc_account_gross_notional_usd : string;
  crc_instrument_gross_notional_usd : string;
  crc_account_initial_margin_usd : string;
  crc_capital_base_drawdown_ratio : string;
  crc_daily_realized_loss_usd : string;
  crc_account_is_fresh : bool;
}.

Record CandidateRiskContextEvidence : Type := {
  cre_context : CandidateRiskContext;
  cre_unsupported_daily_loss_currencies : list string;
}.

Record StrategyNavRiskEvidence : Type := {
  sne_run_id : string;
  sne_mandate_version : string;
  sne_allocation_usdt : string;
  sne_nav_usdt : string;
  sne_high_water_usdt : string;
  sne_daily_realized_loss_usdt : string;
}.

Inductive RiskPolicyDecision : Type := RiskAccepted | RiskRejected.

Record CandidateRiskGate : Type := {
  crg_decision : RiskPolicyDecision;
  crg_projected_account_gross_notional_usd : string;
  crg_projected_instrument_gross_notional_usd : string;
  crg_projected_margin_utilization_ratio : option string;
  crg_violations : list RiskPolicyViolation;
}.

Record PortfolioRiskAnalysis : Type := {
  pfa_schema : string;
  pfa_valuation_basis : string;
  pfa_account : AccountRiskAnalysis;
  pfa_instrument_exposure : list ExposureAggregate;
  pfa_settlement_exposure : list ExposureAggregate;
  pfa_correlated_cluster_exposure : list ClusterExposure;
  pfa_margin_utilization_ratio : option string;
  pfa_capital_base_drawdown_ratio : string;
  pfa_daily_realized_pnl_utc_basis : string;
  pfa_daily_realized_pnl_utc_day_start_ms : option string;
  pfa_daily_realized_pnl_utc_day_end_ms : option string;
  pfa_daily_realized_pnl_utc : list CurrencyAggregate;
  pfa_daily_realized_loss_usd_equivalent : option string;
  pfa_mandate : TradingMandate;
  pfa_mandate_enforced_fields : list string;
  pfa_mandate_context_only_fields : list string;
  pfa_policy : HardRiskPolicy;
  pfa_candidate : option CandidateProjection;
  pfa_policy_decision : RiskPolicyDecision;
  pfa_violations : list RiskPolicyViolation;
}.

Definition contains (l : list string) (x : string) : bool := existsb (λ y, (y =? x)%string) l.
(** [allowed.is_empty() || allowed.contains(x)] *)
Definition allows (allowed : list string) (x : string) : bool :=
  match allowed with [] => true | _ => contains allowed x end.
Definition decision_of (violations : list RiskPolicyViolation) : RiskPolicyDecision :=
  match violations with [] => RiskAccepted | _ => RiskRejected end.

(** [durable_account_stop_reason] *)
Definition durable_account_stop (daily_history_complete : bool) (v : RiskPolicyViolation) : bool :=
  (vi_code v =? "MAX_DAILY_REALIZED_LOSS")%string && (vi_scope v =? "utc_day")%string && daily_history_complete
  || ((vi_code v =? "MAX_DRAWDOWN")%string || (vi_code v =? "MANDATE_MAX_DRAWDOWN")%string)
     && (vi_scope v =? "capital_base")%string
  || ((vi_code v =? "MAX_ACCOUNT_GROSS_NOTIONAL")%string || (vi_code v =? "MAX_MARGIN_UTILIZATION")%string)
     && (vi_scope v =? "account")%string.
Definition durable_account_stop_reason (violations : list RiskPolicyViolation) (daily_history_complete : bool)
    : option string :=
  option_map vi_code (List.find (durable_account_stop daily_history_complete) violations).

Section risk.
Context {D : Type} `{DecimalAnalysis D}.

(** ** Inputs *)
Definition optional_decimal (field : string) (value : option string) : analyzed (option D) :=
  match value with None => Ok None | Some v => x ← decimal field v; Ok (Some x) end.
Definition optional_positive_decimal (field : string) (value : option string) : analyzed (option D) :=
  match value with None => Ok None | Some v => x ← positive_decimal field v; Ok (Some x) end.
Definition non_negative_decimal (field value : string) : analyzed D :=
  v ← decimal field value;
  if dec_ltb v dec_zero then raise (AeNegative field) else Ok v.
Definition optional_non_negative_decimal (field : string) (value : option string) : analyzed (option D) :=
  match value with None => Ok None | Some v => x ← non_negative_decimal field v; Ok (Some x) end.
Definition normalized (value : option D) : option string := option_map dtext value.

(** [linear_contract_notional_usd] of [candidate.rs] *)
Definition linear_contract_notional_usd (contracts contract_value price : string) : analyzed string :=
  contracts ← decimal (D:=D) "contracts" contracts;
  contract_value ← positive_decimal "contract_value" contract_value;
  price ← positive_decimal "price" price;
  let absolute := if dec_ltb contracts dec_zero then dec_neg contracts else contracts in
  if dec_eqb absolute dec_zero then raise (AeInvalidDecimal "contracts" "0") else
  base ← absolute *! contract_value; notional ← base *! price;
  Ok (dtext notional).

(** ** Virtual positions *)
Definition validate_virtual_linear_position (input : VirtualPositionConstraintInput)
    : analyzed VirtualPositionConstraintEvidence :=
  signed ← decimal (D:=D) "virtual_position_contracts" (vpi_contracts input);
  let absolute := dec_abs signed in
  if dec_eqb absolute dec_zero then raise (AeNonPositive "virtual_position_contracts") else
  lot_size ← positive_decimal "virtual_lot_size" (vpi_lot_size input);
  min_size ← positive_decimal "virtual_min_size" (vpi_min_size input);
  max_size ← positive_decimal "virtual_max_size" (vpi_max_size input);
  leverage ← positive_decimal "virtual_leverage" (vpi_leverage input);
  max_leverage ← positive_decimal "virtual_max_leverage" (vpi_max_leverage input);
  remainder ← absolute %! lot_size;
  let lot_aligned := dec_eqb remainder dec_zero in
  let minimum_size_satisfied := dec_leb min_size absolute in
  let maximum_size_satisfied := dec_leb absolute max_size in
  let leverage_satisfied := dec_leb leverage max_leverage in
  local_notional_usd ← linear_contract_notional_usd (dtext absolute) (vpi_contract_value input) (vpi_mark_price input);
  notional ← positive_decimal "virtual_notional_usd" local_notional_usd;
  margin ← notional /! leverage;
  Ok {| vpe_schema := VIRTUAL_POSITION_CONSTRAINT_SCHEMA_V1;
        vpe_instrument_id := vpi_instrument_id input;
        vpe_signed_contracts := dtext signed;
        vpe_absolute_contracts := dtext absolute;
        vpe_contract_value := vpi_contract_value input;
        vpe_mark_price := vpi_mark_price input;
        vpe_local_notional_usd := local_notional_usd;
        vpe_initial_margin_usd := dtext margin;
        vpe_lot_size := dtext lot_size;
        vpe_min_size := dtext min_size;
        vpe_max_size := dtext max_size;
        vpe_requested_leverage := dtext leverage;
        vpe_max_leverage := dtext max_leverage;
        vpe_lot_aligned := lot_aligned;
        vpe_minimum_size_satisfied := minimum_size_satisfied;
        vpe_maximum_size_satisfied := maximum_size_satisfied;
        vpe_leverage_satisfied := leverage_satisfied;
        vpe_constraints_satisfied :=
          lot_aligned && minimum_size_satisfied && maximum_size_satisfied && leverage_satisfied |}.

Definition virtual_portfolio_initial_margin_usd (positions : list VirtualPositionConstraintEvidence) : analyzed string :=
  sum ← try_fold (λ (sum : D) position,
          margin ← positive_decimal "virtual_initial_margin_usd" (vpe_initial_margin_usd position); sum +! margin)
        dec_zero positions;
  Ok (dtext sum).

Record VirtualComparison : Type := {
  vc_local : D;
  vc_oracle : D;
  vc_positions : list VirtualNotionalOraclePositionComparison;
  vc_consistent : bool;
}.
Definition compare_virtual_step (s : VirtualComparison) (input : VirtualNotionalOracleInput) : analyzed VirtualComparison :=
  local_text ← linear_contract_notional_usd (vni_contracts input) (vni_contract_value input) (vni_mark_price input);
  local ← positive_decimal "local_virtual_notional_usd" local_text;
  oracle ← positive_decimal "oracle_virtual_notional_usd" (vni_oracle_notional_usd input);
  residual ← local -! oracle;
  local_gross ← vc_local s +! local;
  oracle_gross ← vc_oracle s +! oracle;
  Ok {| vc_local := local_gross; vc_oracle := oracle_gross;
        vc_positions := vc_positions s ++ [{|
          vnp_instrument_id := vni_instrument_id input;
          vnp_contracts := vni_contracts input;
          vnp_contract_value := vni_contract_value input;
          vnp_mark_price := vni_mark_price input;
          vnp_local_notional_usd := dtext local;
          vnp_oracle_notional_usd := dtext oracle;
          vnp_residual_usd := dtext residual |}];
        vc_consistent := if dec_eqb residual dec_zero then vc_consistent s else false |}.
Definition compare_virtual_position_builder_notional (inputs : list VirtualNotionalOracleInput)
    : analyzed VirtualNotionalOracleComparison :=
  s ← try_fold compare_virtual_step
        {| vc_local := dec_zero; vc_oracle := dec_zero; vc_positions := []; vc_consistent := true |} inputs;
  gross_residual ← vc_local s -! vc_oracle s;
  Ok {| vnc_schema := VIRTUAL_NOTIONAL_ORACLE_COMPARISON_SCHEMA_V1;
        vnc_consistency_policy := VIRTUAL_NOTIONAL_ORACLE_CONSISTENCY_POLICY_V1;
        vnc_local_gross_notional_usd := dtext (vc_local s);
        vnc_oracle_gross_notional_usd := dtext (vc_oracle s);
        vnc_gross_notional_residual_usd := dtext gross_residual;
        vnc_positions := vc_positions s;
        vnc_consistent := if dec_eqb gross_residual dec_zero then vc_consistent s else false |}.

(** ** The exposure of an account *)
Definition direction_for (position : AccountPositionState) (account_position_mode : string) (size : D)
    : analyzed PositionDirection :=
  let side := aps_position_side position in
  if (account_position_mode =? "net_mode")%string && (side =? "net")%string then
    Ok (if dec_ltb dec_zero size then DirLong else DirShort)
  else if (account_position_mode =? "long_short_mode")%string && ((side =? "long")%string || (side =? "short")%string) then
    if dec_ltb dec_zero size then Ok (if (side =? "long")%string then DirLong else DirShort)
    else raise (AeInconsistentPositionDirection (aps_instrument_id position) side (aps_position position))
  else raise (AeUnsupportedPositionSide (aps_instrument_id position) side).

Definition estimated_liquidation_distance (instrument_id : string) (direction : PositionDirection)
    (mark_price liquidation_price : option D) : analyzed (option D) :=
  match mark_price, liquidation_price with
  | Some mark, Some liquidation =>
    adverse ← match direction with
              | DirLong => mark -! liquidation
              | DirShort => liquidation -! mark
              end;
    if dec_ltb adverse dec_zero then raise (AeInconsistentLiquidationPrice instrument_id) else
    ratio ← adverse /! mark;
    Ok (Some ratio)
  | _, _ => Ok None
  end.

Record PositionWork : Type := { pw_output : PositionRiskAnalysis; pw_notional : D }.
Record ExposureScan : Type := { es_gross : D; es_net : D; es_work : list PositionWork }.

Definition exposure_step (position_mode : string) (s : ExposureScan) (position : AccountPositionState)
    : analyzed ExposureScan :=
  size ← decimal "position_contracts" (aps_position position);
  if dec_eqb size dec_zero then Ok s else
  let type := aps_instrument_type position in
  if negb ((type =? "SWAP")%string || (type =? "FUTURES")%string)
  then raise (AeUnsupportedPositionType (aps_instrument_id position) type) else
  direction ← direction_for position position_mode size;
  notional_text ← match aps_notional_usd position with
                  | Some t => Ok t
                  | None => raise (AeMissingPositionNotional (aps_instrument_id position))
                  end;
  notional ← positive_decimal "position_notional_usd" notional_text;
  let signed := match direction with DirLong => notional | DirShort => dec_neg notional end in
  gross ← es_gross s +! notional;
  net ← es_net s +! signed;
  leverage ← optional_positive_decimal "configured_leverage" (aps_leverage position);
  imr ← optional_non_negative_decimal "position_initial_margin_requirement_usd" (aps_initial_margin_requirement position);
  mmr ← optional_non_negative_decimal "position_maintenance_margin_requirement_usd" (aps_maintenance_margin_requirement position);
  margin_ratio ← optional_non_negative_decimal "position_exchange_margin_ratio" (aps_margin_ratio position);
  mark_price ← optional_positive_decimal "position_mark_price" (aps_mark_price position);
  liquidation_price ← optional_positive_decimal "estimated_liquidation_price" (aps_liquidation_price position);
  distance ← estimated_liquidation_distance (aps_instrument_id position) direction mark_price liquidation_price;
  Ok {| es_gross := gross; es_net := net; es_work := es_work s ++ [{|
          pw_output := {|
            pra_instrument_type := type;
            pra_instrument_id := aps_instrument_id position;
            pra_direction := direction;
            pra_margin_mode := aps_margin_mode position;
            pra_position_contracts := dtext size;
            pra_position_notional_usd := dtext notional;
            pra_signed_notional_usd := dtext signed;
            pra_gross_concentration_ratio := "";
            pra_configured_leverage := normalized leverage;
            pra_initial_margin_requirement_usd := normalized imr;
            pra_maintenance_margin_requirement_usd := normalized mmr;
            pra_exchange_margin_ratio := normalized margin_ratio;
            pra_mark_price := normalized mark_price;
            pra_estimated_liquidation_price := normalized liquidation_price;
            pra_estimated_liquidation_distance_ratio := normalized distance |};
          pw_notional := notional |}] |}.

Definition with_concentration (ratio : string) (p : PositionRiskAnalysis) : PositionRiskAnalysis := {|
  pra_instrument_type := pra_instrument_type p; pra_instrument_id := pra_instrument_id p;
  pra_direction := pra_direction p; pra_margin_mode := pra_margin_mode p;
  pra_position_contracts := pra_position_contracts p; pra_position_notional_usd := pra_position_notional_usd p;
  pra_signed_notional_usd := pra_signed_notional_usd p; pra_gross_concentration_ratio := ratio;
  pra_configured_leverage := pra_configured_leverage p;
  pra_initial_margin_requirement_usd := pra_initial_margin_requirement_usd p;
  pra_maintenance_margin_requirement_usd := pra_maintenance_margin_requirement_usd p;
  pra_exchange_margin_ratio := pra_exchange_margin_ratio p; pra_mark_price := pra_mark_price p;
  pra_estimated_liquidation_price := pra_estimated_liquidation_price p;
  pra_estimated_liquidation_distance_ratio := pra_estimated_liquidation_distance_ratio p |}.
Definition concentration (gross : D) (item : PositionWork) : analyzed PositionRiskAnalysis :=
  if dec_ltb dec_zero gross
  then ratio ← pw_notional item /! gross; Ok (with_concentration (dtext ratio) (pw_output item))
  else Ok (with_concentration "0" (pw_output item)).

(** [(total_equity > Decimal::ZERO).then(|| ..)] *)
Definition to_equity (x total_equity : D) : analyzed (option string) :=
  if dec_ltb dec_zero total_equity then ratio ← x /! total_equity; Ok (Some (dtext ratio)) else Ok None.

Definition analyze_account_risk (account : AccountSnapshot) : analyzed AccountRiskAnalysis :=
  let level := acs_account_level account in
  if negb ((level =? "2")%string || (level =? "3")%string || (level =? "4")%string)
  then raise (AeUnsupportedAccountMode level) else
  let mode := acs_position_mode account in
  if negb ((mode =? "net_mode")%string || (mode =? "long_short_mode")%string)
  then raise (AeUnsupportedPositionMode mode) else
  let balance := acs_balance account in
  total_equity ← decimal "total_equity_usd" (abs_total_equity_usd balance);
  adjusted_equity ← optional_decimal "adjusted_equity_usd" (abs_adjusted_equity_usd balance);
  exchange_gross ← optional_non_negative_decimal "exchange_gross_notional_usd" (abs_notional_usd balance);
  account_imr ← optional_non_negative_decimal "initial_margin_requirement_usd" (abs_initial_margin_requirement_usd balance);
  account_mmr ← optional_non_negative_decimal "maintenance_margin_requirement_usd"
                  (abs_maintenance_margin_requirement_usd balance);
  account_margin_ratio ← optional_non_negative_decimal "exchange_margin_ratio" (abs_margin_ratio balance);
  s ← try_fold (exposure_step mode) {| es_gross := dec_zero; es_net := dec_zero; es_work := [] |} (acs_positions account);
  positions ← try_map (concentration (es_gross s)) (es_work s);
  gross_to_equity ← to_equity (es_gross s) total_equity;
  net_to_equity ← to_equity (es_net s) total_equity;
  Ok {| ara_schema := ACCOUNT_RISK_ANALYSIS_SCHEMA_V1;
        ara_account_generation := acs_account_generation account;
        ara_account_source := acs_source account;
        ara_account_quality_reason := acs_quality_reason account;
        ara_account_level := level;
        ara_position_mode := mode;
        ara_total_equity_usd := dtext total_equity;
        ara_adjusted_equity_usd := normalized adjusted_equity;
        ara_exchange_gross_notional_usd := normalized exchange_gross;
        ara_gross_position_notional_usd := dtext (es_gross s);
        ara_directional_net_position_notional_usd := dtext (es_net s);
        ara_gross_exposure_to_equity_ratio := gross_to_equity;
        ara_directional_net_exposure_to_equity_ratio := net_to_equity;
        ara_initial_margin_requirement_usd := normalized account_imr;
        ara_maintenance_margin_requirement_usd := normalized account_mmr;
        ara_exchange_margin_ratio := normalized account_margin_ratio;
        ara_source_position_record_count := length (acs_positions account);
        ara_open_position_count := length positions;
        ara_pending_order_count := length (acs_pending_orders account);
        ara_positions := positions |}.
End risk.
Arguments PositionWork D : clear implicits.
Arguments ExposureScan D : clear implicits.
Arguments VirtualComparison D : clear implicits.
