(* ===== verification/RiskGates.v ===== *)
(** * RiskGates: limits, decisions and the second reading of [okx-analysis/src/risk.rs]

    The rest of the file modelled by [RiskAnalysis]: limits and their violations, the
    screening of a candidate, the analysis of a portfolio and the comparisons with the
    readings of the exchange. *)
From stdpp Require Import base option list numbers strings.
From Stdlib Require Import ZArith QArith Lia Lqa Ascii.
From S2P Require Import Prelude Text Ordered External Decimals Lots MoneyText Faults Wire Account AccountLedger Analysis RiskAnalysis.
Local Open Scope string_scope.
Local Open Scope list_scope.
Local Open Scope Z_scope.
Local Open Scope fault_scope.

Definition VALUATION_BASIS : string :=
  "exchange position notionalUsd / mark-price semantics; candidate notional is explicit USD input".
Definition DAILY_LOSS_CURRENCIES : list string := ["USD"; "USDT"; "USDC"; "USDG"].

Section gates.
Context {D : Type} `{DecimalAnalysis D}.

(** ** Limits *)
Definition compare_limit (violations : list RiskPolicyViolation) (code scope : string) (observed : D) (limit : string)
    : analyzed (list RiskPolicyViolation) :=
  limit_value ← non_negative_decimal "risk_limit" limit;
  if dec_ltb limit_value observed
  then Ok (violations ++ [Violation code scope (dtext observed) (dtext limit_value)])
  else Ok violations.

(** The profit of the day in dollars, unless a currency cannot be counted as dollars *)
Definition daily_loss_step (acc : D * list (string * unit)) (row : CurrencyAggregate) : analyzed (D * list (string * unit)) :=
  if negb (contains DAILY_LOSS_CURRENCIES (cag_currency row))
  then Ok (acc.1, oinsert (cag_currency row) tt acc.2)
  else v ← decimal "daily_realized_pnl" (cag_amount row); net ← acc.1 +! v; Ok (net, acc.2).
Definition usd_equivalent_daily_loss (values : list CurrencyAggregate) : analyzed (option D * list string) :=
  acc ← try_fold daily_loss_step (dec_zero, []) values;
  match acc.2 with
  | [] => Ok (Some (if dec_ltb acc.1 dec_zero then dec_neg acc.1 else dec_zero), [])
  | _ => Ok (None, map fst acc.2)
  end.

(** A currency that cannot be counted as dollars leaves the loss of the day unknown. *)
Definition currency_violations (unsupported : list string) (violations : list RiskPolicyViolation) : list RiskPolicyViolation :=
  match unsupported with
  | [] => violations
  | _ => violations ++ [Violation "DAILY_REALIZED_LOSS_USD_EQUIVALENT_UNAVAILABLE" "utc_day"
                          (String.concat "," unsupported) "USD|USDT|USDC|USDG"]
  end.

(** ** A candidate *)
Definition margin_projection (mandate : TradingMandate) (violations : list RiskPolicyViolation)
    (total_equity current_imr notional leverage : D) : analyzed (option D * list RiskPolicyViolation) :=
  assigned ← positive_decimal "capital_base_usd" (tm_capital_base_usd mandate);
  let effective := dec_min total_equity assigned in
  if dec_ltb dec_zero effective then
    used ← notional /! leverage; margin ← current_imr +! used; ratio ← margin /! effective;
    Ok (Some (dec_normalize ratio), violations)
  else Ok (None, violations ++ [Violation "MARGIN_CAPITAL_UNAVAILABLE" "capital_base" "0" (tm_capital_base_usd mandate)]).

Definition evaluate_candidate_limits (mandate : TradingMandate) (policy : HardRiskPolicy) (candidate : PortfolioCandidate)
    (total_equity account_gross instrument_gross current_imr : D)
    : analyzed (CandidateProjection * list RiskPolicyViolation) :=
  notional ← positive_decimal "candidate_notional_usd" (pc_notional_usd candidate);
  loss ← decimal "candidate_worst_case_loss_usd" (pc_worst_case_loss_usd candidate);
  let candidate_loss := dec_abs loss in
  leverage ← positive_decimal "candidate_leverage" (pc_leverage candidate);
  let instrument := pc_instrument candidate in
  let v0 := if allows (tm_allowed_instruments mandate) instrument then []
            else [Violation "MANDATE_INSTRUMENT_NOT_ALLOWED" instrument "candidate" "mandate.allowed_instruments"] in
  let v1 := if allows (hrp_allowed_instruments policy) instrument then v0
            else v0 ++ [Violation "INSTRUMENT_NOT_ALLOWED" instrument "candidate" "policy.allowed_instruments"] in
  v2 ← compare_limit v1 "MAX_LOSS_PER_TRADE" instrument candidate_loss (hrp_max_loss_per_trade_usd policy);
  v3 ← compare_limit v2 "MAX_LEVERAGE" instrument leverage (hrp_max_leverage policy);
  v4 ← compare_limit v3 "MANDATE_LEVERAGE_CEILING" instrument leverage (tm_leverage_ceiling mandate);
  projected_account ← account_gross +! notional;
  projected_instrument ← instrument_gross +! notional;
  v5 ← compare_limit v4 "MAX_ACCOUNT_GROSS_NOTIONAL_PROJECTED" "account" projected_account
         (hrp_max_account_gross_notional_usd policy);
  v6 ← compare_limit v5 "MAX_INSTRUMENT_GROSS_NOTIONAL_PROJECTED" instrument projected_instrument
         (hrp_max_instrument_gross_notional_usd policy);
  m ← margin_projection mandate v6 total_equity current_imr notional leverage;
  v8 ← match m.1 with
       | Some value => compare_limit m.2 "MAX_MARGIN_UTILIZATION_PROJECTED" "account" value
                         (hrp_max_margin_utilization_ratio policy)
       | None => Ok m.2
       end;
  Ok ({| cp_instrument := instrument;
         cp_direction := pc_direction candidate;
         cp_additive_new_risk := true;
         cp_notional_usd := dtext notional;
         cp_worst_case_loss_usd := dtext candidate_loss;
         cp_leverage := dtext leverage;
         cp_projected_account_gross_notional_usd := dtext projected_account;
         cp_projected_instrument_gross_notional_usd := dtext projected_instrument;
         cp_projected_margin_utilization_ratio := normalized m.1 |}, v8).

(** The violations of stale data, alike in both analyses *)
Definition quality_violations (policy : HardRiskPolicy) (fresh : bool) (violations : list RiskPolicyViolation)
    : list RiskPolicyViolation :=
  let v1 := match hrp_minimum_quality policy with
            | QualityFresh => if fresh then violations
                              else violations ++ [Violation "MINIMUM_DATA_QUALITY" "account" "degraded" "fresh"]
            | QualityDegraded => violations
            end in
  match hrp_degraded_mode policy with
  | RejectDegraded => if fresh then v1 else v1 ++ [Violation "DEGRADED_MODE_REJECT" "account" "degraded" "reject"]
  | AllowReadOnly => v1
  end.

Definition evaluate_candidate_risk (mandate : TradingMandate) (policy : HardRiskPolicy) (candidate : PortfolioCandidate)
    (context : CandidateRiskContext) : analyzed CandidateRiskGate :=
  total_equity ← non_negative_decimal (D:=D) "risk_total_equity_usd" (crc_total_equity_usd context);
  account_gross ← non_negative_decimal "risk_account_gross_notional_usd" (crc_account_gross_notional_usd context);
  instrument_gross ← non_negative_decimal "risk_instrument_gross_notional_usd" (crc_instrument_gross_notional_usd context);
  current_imr ← non_negative_decimal "risk_account_initial_margin_usd" (crc_account_initial_margin_usd context);
  drawdown ← non_negative_decimal (D:=D) "risk_capital_base_drawdown_ratio" (crc_capital_base_drawdown_ratio context);
  daily_loss ← non_negative_decimal (D:=D) "risk_daily_realized_loss_usd" (crc_daily_realized_loss_usd context);
  let v0 := quality_violations policy (crc_account_is_fresh context) [] in
  v1 ← compare_limit v0 "MAX_DRAWDOWN" "capital_base" drawdown (hrp_max_drawdown_ratio policy);
  v2 ← compare_limit v1 "MANDATE_MAX_DRAWDOWN" "capital_base" drawdown (tm_max_drawdown_ratio mandate);
  v3 ← compare_limit v2 "MAX_DAILY_REALIZED_LOSS" "utc_day" daily_loss (hrp_max_daily_realized_loss_usd policy);
  limits ← evaluate_candidate_limits mandate policy candidate total_equity account_gross instrument_gross current_imr;
  let violations := v3 ++ limits.2 in
  Ok {| crg_decision := decision_of violations;
        crg_projected_account_gross_notional_usd := cp_projected_account_gross_notional_usd limits.1;
        crg_projected_instrument_gross_notional_usd := cp_projected_instrument_gross_notional_usd limits.1;
        crg_projected_margin_utilization_ratio := cp_projected_margin_utilization_ratio limits.1;
        crg_violations := violations |}.

(** ** The context of a candidate *)
Definition drawdown_of (capital_base total_equity : D) : analyzed D :=
  if dec_ltb total_equity capital_base
  then lost ← capital_base -! total_equity; lost /! capital_base
  else Ok dec_zero.

Definition candidate_risk_context_from_analysis (account_risk : AccountRiskAnalysis) (ledger : AccountLedgerSummary)
    (mandate : TradingMandate) (instrument_id : string) (account_is_fresh : bool) : analyzed CandidateRiskContextEvidence :=
  total_equity ← non_negative_decimal "risk_total_equity_usd" (ara_total_equity_usd account_risk);
  capital_base ← positive_decimal "capital_base_usd" (tm_capital_base_usd mandate);
  account_gross ← non_negative_decimal (D:=D) "risk_account_gross_notional_usd" (ara_gross_position_notional_usd account_risk);
  instrument_gross ← try_fold (λ (sum : D) position,
      v ← non_negative_decimal "risk_instrument_gross_notional_usd" (pra_position_notional_usd position); sum +! v)
    dec_zero (List.filter (λ p, (pra_instrument_id p =? instrument_id)%string) (ara_positions account_risk));
  account_initial_margin ← match ara_initial_margin_requirement_usd account_risk with
    | Some value => non_negative_decimal (D:=D) "risk_account_initial_margin_usd" value
    | None => if dec_eqb account_gross dec_zero && (ara_pending_order_count account_risk =? 0)%nat
              then Ok dec_zero else raise AeMissingInitialMarginRequirement
    end;
  drawdown ← drawdown_of capital_base total_equity;
  daily ← usd_equivalent_daily_loss (als_daily_realized_pnl_utc ledger);
  Ok {| cre_context := {|
          crc_total_equity_usd := dtext total_equity;
          crc_account_gross_notional_usd := dtext account_gross;
          crc_instrument_gross_notional_usd := dtext instrument_gross;
          crc_account_initial_margin_usd := dtext account_initial_margin;
          crc_capital_base_drawdown_ratio := dtext drawdown;
          crc_daily_realized_loss_usd := dtext (default dec_zero daily.1);
          crc_account_is_fresh := account_is_fresh |};
        cre_unsupported_daily_loss_currencies := daily.2 |}.
Definition candidate_risk_context_from_account (account : AccountSnapshot) (ledger : AccountLedgerSummary)
    (mandate : TradingMandate) (instrument_id : string) (account_is_fresh : bool) : analyzed CandidateRiskContextEvidence :=
  account_risk ← analyze_account_risk (D:=D) account;
  candidate_risk_context_from_analysis account_risk ledger mandate instrument_id account_is_fresh.

(** ** Exposures of a portfolio *)
Definition Exposures : Type := list (string * (D * D)).
Definition add_exposure (values : Exposures) (key : string) (gross signed : D) : analyzed Exposures :=
  let entry := default (dec_zero, dec_zero) (oget values key) in
  g ← entry.1 +! gross; n ← entry.2 +! signed; Ok (oinsert key (g, n) values).
Definition finish_exposure (values : Exposures) : list ExposureAggregate :=
  map (λ p, {| ex_key := p.1; ex_gross_notional_usd := dtext p.2.1; ex_signed_net_notional_usd := dtext p.2.2 |}) values.

(** The row of the snapshot that a position came from *)
Definition is_source (position : PositionRiskAnalysis) (row : AccountPositionState) : bool :=
  (aps_instrument_id row =? pra_instrument_id position)%string
  && match pra_direction position with
     | DirLong => (aps_position_side row =? "long")%string
                  || (aps_position_side row =? "net")%string && negb (String.prefix "-" (aps_position row))
     | DirShort => (aps_position_side row =? "short")%string
                   || (aps_position_side row =? "net")%string && String.prefix "-" (aps_position row)
     end.
Definition settlement_of (account : AccountSnapshot) (position : PositionRiskAnalysis) : string :=
  match List.find (is_source position) (acs_positions account) with
  | Some row => default "UNKNOWN" (aps_margin_currency row)
  | None => "UNKNOWN"
  end.
Definition portfolio_step (account : AccountSnapshot) (acc : Exposures * Exposures) (position : PositionRiskAnalysis)
    : analyzed (Exposures * Exposures) :=
  gross ← positive_decimal "position_notional_usd" (pra_position_notional_usd position);
  signed ← decimal "signed_notional_usd" (pra_signed_notional_usd position);
  instrument ← add_exposure acc.1 (pra_instrument_id position) gross signed;
  settlement ← add_exposure acc.2 (settlement_of account position) gross signed;
  Ok (instrument, settlement).

Definition cluster_exposure (instruments : list ExposureAggregate) (cluster : CorrelatedClusterLimit) : analyzed ClusterExposure :=
  gross ← try_fold (λ (acc : D) row, v ← decimal "cluster_gross" (ex_gross_notional_usd row); acc +! v) dec_zero
            (List.filter (λ row, contains (ccl_instruments cluster) (ex_key row)) instruments);
  Ok {| ce_cluster_id := ccl_id cluster; ce_gross_notional_usd := dtext gross;
        ce_max_gross_notional_usd := ccl_max_gross_notional_usd cluster |}.

(** ** The proof of the strategy's own value *)
(** [None] when the attestation is absent or incoherent, else its drawdown and daily loss *)
Definition nav_proof (mandate : TradingMandate) (capital_base : D) (strategy_nav : option StrategyNavRiskEvidence)
    : analyzed (option (D * D)) :=
  match strategy_nav with
  | None => Ok None
  | Some proof =>
    if (sne_run_id proof =? "")%string || negb (sne_mandate_version proof =? tm_version mandate)%string then Ok None else
    match dec_from_str (sne_allocation_usdt proof), dec_from_str (sne_nav_usdt proof),
          dec_from_str (sne_high_water_usdt proof), dec_from_str (sne_daily_realized_loss_usdt proof) with
    | Some allocated, Some nav, Some peak, Some loss =>
      if negb (dec_eqb allocated capital_base) || dec_leb nav dec_zero || dec_ltb peak allocated || dec_ltb peak nav
         || dec_ltb loss dec_zero
      then Ok None
      else lost ← peak -! nav; drawdown ← lost /! peak; Ok (Some (drawdown, loss))
    | _, _, _, _ => Ok None
    end
  end.
Definition require_strategy_nav_attribution (violations : list RiskPolicyViolation) : list RiskPolicyViolation :=
  violations ++ [Violation "STRATEGY_NAV_UNATTESTED" "capital_base" "source_attested_strategy_nav_missing"
                   "independent_strategy_nav_and_drawdown_evidence"].
Definition nav_violations (mandate : TradingMandate) (policy : HardRiskPolicy) (proof : option (D * D))
    : analyzed (list RiskPolicyViolation) :=
  match proof with
  | Some (drawdown, loss) =>
    v1 ← compare_limit [] "MAX_DRAWDOWN" "strategy_run" drawdown (hrp_max_drawdown_ratio policy);
    v2 ← compare_limit v1 "MANDATE_MAX_DRAWDOWN" "strategy_run" drawdown (tm_max_drawdown_ratio mandate);
    compare_limit v2 "MAX_DAILY_REALIZED_LOSS" "strategy_run_utc_day" loss (hrp_max_daily_realized_loss_usd policy)
  | None => Ok (require_strategy_nav_attribution [])
  end.

(** ** The limits of what the account holds *)
Definition instrument_limits (mandate : TradingMandate) (policy : HardRiskPolicy) (violations : list RiskPolicyViolation)
    (row : ExposureAggregate) : analyzed (list RiskPolicyViolation) :=
  gross ← decimal (D:=D) "instrument_gross" (ex_gross_notional_usd row);
  v1 ← compare_limit violations "MAX_INSTRUMENT_GROSS_NOTIONAL" (ex_key row) gross
         (hrp_max_instrument_gross_notional_usd policy);
  let v2 := if allows (hrp_allowed_instruments policy) (ex_key row) then v1
            else v1 ++ [Violation "INSTRUMENT_NOT_ALLOWED" (ex_key row) "present" "allowed_instruments"] in
  Ok (if allows (tm_allowed_instruments mandate) (ex_key row) then v2
      else v2 ++ [Violation "MANDATE_INSTRUMENT_NOT_ALLOWED" (ex_key row) "present" "mandate.allowed_instruments"]).
Definition cluster_limits (violations : list RiskPolicyViolation) (row : ClusterExposure) : analyzed (list RiskPolicyViolation) :=
  gross ← decimal (D:=D) "cluster_gross" (ce_gross_notional_usd row);
  compare_limit violations "MAX_CORRELATED_CLUSTER_GROSS_NOTIONAL" (ce_cluster_id row) gross (ce_max_gross_notional_usd row).
Definition leverage_limits (mandate : TradingMandate) (policy : HardRiskPolicy) (violations : list RiskPolicyViolation)
    (position : PositionRiskAnalysis) : analyzed (list RiskPolicyViolation) :=
  match pra_configured_leverage position with
  | None => Ok violations
  | Some leverage =>
    configured ← decimal (D:=D) "configured_leverage" leverage;
    v1 ← compare_limit violations "MAX_LEVERAGE" (pra_instrument_id position) configured (hrp_max_leverage policy);
    compare_limit v1 "MANDATE_LEVERAGE_CEILING" (pra_instrument_id position) configured (tm_leverage_ceiling mandate)
  end.

(** Initial margin in use; missing evidence counts as none only for a flat account. *)
Definition current_margin (account : AccountSnapshot) (account_risk : AccountRiskAnalysis) (gross : D)
    (violations : list RiskPolicyViolation) : analyzed (D * list RiskPolicyViolation) :=
  match ara_initial_margin_requirement_usd account_risk with
  | Some value => v ← non_negative_decimal "initial_margin_requirement_usd" value; Ok (v, violations)
  | None =>
    if dec_eqb gross dec_zero && (length (acs_pending_orders account) =? 0)%nat then Ok (dec_zero, violations)
    else Ok (dec_zero, violations ++ [Violation "MARGIN_EVIDENCE_UNAVAILABLE" "account" "missing_with_existing_exposure"
                                        "complete_initial_margin_requirement"])
  end.
Definition candidate_limits (account : AccountSnapshot) (account_risk : AccountRiskAnalysis) (mandate : TradingMandate)
    (policy : HardRiskPolicy) (exposures : list ExposureAggregate) (total_equity gross : D)
    (violations : list RiskPolicyViolation) (candidate : PortfolioCandidate)
    : analyzed (CandidateProjection * list RiskPolicyViolation) :=
  current_instrument ← match List.find (λ row, (ex_key row =? pc_instrument candidate)%string) exposures with
                       | Some row => decimal (D:=D) "instrument_gross" (ex_gross_notional_usd row)
                       | None => Ok dec_zero
                       end;
  margin ← current_margin account account_risk gross violations;
  limits ← evaluate_candidate_limits mandate policy candidate total_equity gross current_instrument margin.1;
  Ok (limits.1, margin.2 ++ limits.2).

Definition analyze_portfolio_risk_with_strategy_nav (account : AccountSnapshot) (ledger : AccountLedgerSummary)
    (mandate : TradingMandate) (policy : HardRiskPolicy) (candidate : option PortfolioCandidate)
    (account_is_fresh : bool) (strategy_nav : option StrategyNavRiskEvidence) : analyzed PortfolioRiskAnalysis :=
  account_risk ← analyze_account_risk (D:=D) account;
  total_equity ← decimal "total_equity_usd" (ara_total_equity_usd account_risk);
  capital_base ← positive_decimal "capital_base_usd" (tm_capital_base_usd mandate);
  margin_utilization ← match ara_initial_margin_requirement_usd account_risk with
    | Some imr => if dec_ltb dec_zero total_equity
                  then v ← decimal "initial_margin_requirement_usd" imr; ratio ← v /! total_equity; Ok (Some (dtext ratio))
                  else Ok None
    | None => Ok None
    end;
  lost ← drawdown_of capital_base total_equity;
  let drawdown := if dec_ltb total_equity capital_base then dec_normalize lost else dec_zero in
  exposures ← try_fold (portfolio_step account) ([], []) (ara_positions account_risk);
  let instrument_exposure := finish_exposure exposures.1 in
  clusters ← try_map (cluster_exposure instrument_exposure) (hrp_correlated_clusters policy);
  daily ← usd_equivalent_daily_loss (als_daily_realized_pnl_utc ledger);
  v1 ← match candidate with
       | Some _ => proof ← nav_proof mandate capital_base strategy_nav; nav_violations mandate policy proof
       | None => Ok []
       end;
  let v2 := currency_violations daily.2 v1 in
  let v3 := quality_violations policy account_is_fresh v2 in
  gross ← decimal "gross_position_notional_usd" (ara_gross_position_notional_usd account_risk);
  v4 ← compare_limit v3 "MAX_ACCOUNT_GROSS_NOTIONAL" "account" gross (hrp_max_account_gross_notional_usd policy);
  v5 ← match margin_utilization with
       | Some utilization => u ← decimal (D:=D) "margin_utilization_ratio" utilization;
                             compare_limit v4 "MAX_MARGIN_UTILIZATION" "account" u (hrp_max_margin_utilization_ratio policy)
       | None => Ok v4
       end;
  v6 ← compare_limit v5 "MAX_DRAWDOWN" "capital_base" drawdown (hrp_max_drawdown_ratio policy);
  v7 ← compare_limit v6 "MANDATE_MAX_DRAWDOWN" "capital_base" drawdown (tm_max_drawdown_ratio mandate);
  v8 ← match daily.1 with
       | Some loss => compare_limit v7 "MAX_DAILY_REALIZED_LOSS" "utc_day" loss (hrp_max_daily_realized_loss_usd policy)
       | None => Ok v7
       end;
  v9 ← try_fold (instrument_limits mandate policy) v8 instrument_exposure;
  v10 ← try_fold cluster_limits v9 clusters;
  v11 ← try_fold (leverage_limits mandate policy) v10 (ara_positions account_risk);
  projected ← match candidate with
    | Some c => p ← candidate_limits account account_risk mandate policy instrument_exposure total_equity gross v11 c;
                Ok (Some p.1, p.2)
    | None => Ok (None, v11)
    end;
  Ok {| pfa_schema := PORTFOLIO_RISK_ANALYSIS_SCHEMA_V3;
        pfa_valuation_basis := VALUATION_BASIS;
        pfa_account := account_risk;
        pfa_instrument_exposure := instrument_exposure;
        pfa_settlement_exposure := finish_exposure exposures.2;
        pfa_correlated_cluster_exposure := clusters;
        pfa_margin_utilization_ratio := margin_utilization;
        pfa_capital_base_drawdown_ratio := dtext drawdown;
        pfa_daily_realized_pnl_utc_basis := als_daily_realized_pnl_utc_basis ledger;
        pfa_daily_realized_pnl_utc_day_start_ms := als_daily_realized_pnl_utc_day_start_ms ledger;
        pfa_daily_realized_pnl_utc_day_end_ms := als_daily_realized_pnl_utc_day_end_ms ledger;
        pfa_daily_realized_pnl_utc := als_daily_realized_pnl_utc ledger;
        pfa_daily_realized_loss_usd_equivalent := normalized daily.1;
        pfa_mandate := mandate;
        pfa_mandate_enforced_fields := ["capital_base_usd"; "allowed_instruments"; "max_drawdown_ratio"; "leverage_ceiling"];
        pfa_mandate_context_only_fields :=
          ["decision_horizon_hours"; "benchmark"; "minimum_liquidity_notional_usd"; "max_turnover_ratio"];
        pfa_policy := policy;
        pfa_candidate := projected.1;
        pfa_policy_decision := decision_of projected.2;
        pfa_violations := projected.2 |}.
Definition analyze_portfolio_risk (account : AccountSnapshot) (ledger : AccountLedgerSummary) (mandate : TradingMandate)
    (policy : HardRiskPolicy) (candidate : option PortfolioCandidate) (account_is_fresh : bool) : analyzed PortfolioRiskAnalysis :=
  analyze_portfolio_risk_with_strategy_nav account ledger mandate policy candidate account_is_fresh None.

(** ** Second readings *)
Definition LotKey : Type := string * (string * (string * string)).
Definition oracle_key (row : PositionOracleEvidence) : LotKey :=
  (poe_instrument_type row, (poe_instrument_id row, (poe_position_side row, poe_margin_mode row))).
Definition lot_key (p : AccountPositionState) : LotKey :=
  (aps_instrument_type p, (aps_instrument_id p, (aps_position_side p, aps_margin_mode p))).
Definition Observed : Type := list (LotKey * (D * string)).

Definition observe_oracle (observed : Observed) (row : PositionOracleEvidence) : result string Observed :=
  contracts ← ok_or ("invalid oracle contracts for " +:+ poe_instrument_id row) (dec_from_str (poe_contracts row));
  if dec_eqb contracts dec_zero then Ok observed else
  if negb (contains ["SWAP"; "FUTURES"] (poe_instrument_type row))
     || negb (contains ["long"; "short"; "net"] (poe_position_side row))
  then Err ("unsupported oracle position " +:+ poe_instrument_id row) else
  match oget observed (oracle_key row) with
  | Some _ => Err ("duplicate oracle position " +:+ poe_instrument_id row)
  | None => Ok (oinsert (oracle_key row) (contracts, poe_notional_usd row) observed)
  end.

Definition with_notional (usd : string) (p : AccountPositionState) : AccountPositionState := {|
  aps_instrument_type := aps_instrument_type p; aps_instrument_id := aps_instrument_id p;
  aps_position := aps_position p; aps_position_side := aps_position_side p;
  aps_margin_mode := aps_margin_mode p; aps_average_price := aps_average_price p;
  aps_mark_price := aps_mark_price p; aps_liquidation_price := aps_liquidation_price p;
  aps_unrealized_pnl := aps_unrealized_pnl p; aps_unrealized_pnl_ratio := aps_unrealized_pnl_ratio p;
  aps_leverage := aps_leverage p; aps_margin := aps_margin p;
  aps_initial_margin_requirement := aps_initial_margin_requirement p;
  aps_maintenance_margin_requirement := aps_maintenance_margin_requirement p;
  aps_margin_ratio := aps_margin_ratio p; aps_notional_usd := Some usd;
  aps_margin_currency := aps_margin_currency p; aps_creation_time_ms := aps_creation_time_ms p;
  aps_update_time_ms := aps_update_time_ms p |}.

Definition bound_position (acc : Observed * list AccountPositionState) (p : AccountPositionState)
    : result string (Observed * list AccountPositionState) :=
  let '(observed, done) := acc in
  contracts ← ok_or ("invalid account contracts for " +:+ aps_instrument_id p) (dec_from_str (aps_position p));
  if dec_eqb contracts dec_zero then Ok (observed, done ++ [p]) else
  match oget observed (lot_key p) with
  | None => Err ("missing oracle lot for " +:+ aps_instrument_id p)
  | Some (other_contracts, oracle_usd) =>
    if negb (dec_eqb contracts other_contracts) then Err ("oracle contracts differ for " +:+ aps_instrument_id p) else
    local_text ← ok_or ("missing local USD notional for " +:+ aps_instrument_id p) (aps_notional_usd p);
    local_usd ← ok_or ("invalid local USD notional for " +:+ aps_instrument_id p) (dec_from_str local_text);
    oracle_usd ← ok_or ("invalid oracle USD notional for " +:+ aps_instrument_id p) (dec_from_str oracle_usd);
    if dec_ltb local_usd dec_zero || dec_ltb oracle_usd dec_zero
    then Err ("negative unsigned USD notional for " +:+ aps_instrument_id p) else
    Ok (oremove (lot_key p) observed, done ++ [with_notional (dtext (dec_max local_usd oracle_usd)) p])
  end.

Definition with_equity_bound (total adjusted : string) (b : AccountBalanceState) : AccountBalanceState := {|
  abs_total_equity_usd := total; abs_adjusted_equity_usd := Some adjusted;
  abs_isolated_equity_usd := abs_isolated_equity_usd b;
  abs_initial_margin_requirement_usd := abs_initial_margin_requirement_usd b;
  abs_maintenance_margin_requirement_usd := abs_maintenance_margin_requirement_usd b;
  abs_margin_ratio := abs_margin_ratio b; abs_notional_usd := abs_notional_usd b;
  abs_update_time_ms := abs_update_time_ms b; abs_details := abs_details b |}.
Definition bound_equity (oracle : option string) (b : AccountBalanceState) : result string AccountBalanceState :=
  match oracle with
  | None => Ok b
  | Some value =>
    if is_blank value then Ok b else
    oracle_equity ← ok_or "invalid oracle adjusted equity" (dec_from_str (D:=D) value);
    if dec_ltb oracle_equity dec_zero then Err "negative oracle adjusted equity" else
    total ← ok_or "invalid local total equity" (dec_from_str (abs_total_equity_usd b));
    adjusted ← match abs_adjusted_equity_usd b with
               | Some local => l ← ok_or "invalid local adjusted equity" (dec_from_str local);
                               Ok (dec_min l oracle_equity)
               | None => Ok oracle_equity
               end;
    Ok (with_equity_bound (dtext (dec_min total oracle_equity)) (dtext adjusted) b)
  end.

Definition with_bounds (positions : list AccountPositionState) (balance : AccountBalanceState) (s : AccountSnapshot)
    : AccountSnapshot := {|
  acs_schema := acs_schema s; acs_source := acs_source s; acs_source_received_at := acs_source_received_at s;
  acs_account_generation := acs_account_generation s; acs_quality_reason := acs_quality_reason s;
  acs_private_ws_connected := acs_private_ws_connected s; acs_private_ws_generation := acs_private_ws_generation s;
  acs_private_ws_connection_fingerprint := acs_private_ws_connection_fingerprint s;
  acs_private_ws_last_inbound_ms := acs_private_ws_last_inbound_ms s;
  acs_private_ws_events_applied := acs_private_ws_events_applied s; acs_account_level := acs_account_level s;
  acs_position_mode := acs_position_mode s; acs_account_type := acs_account_type s;
  acs_account_uid_fingerprint := acs_account_uid_fingerprint s; acs_api_key_permissions := acs_api_key_permissions s;
  acs_balance := balance; acs_positions := positions; acs_pending_orders := acs_pending_orders s |}.

Definition conservative_account_with_position_oracle (account : AccountSnapshot) (oracle_positions : list PositionOracleEvidence)
    (oracle_adjusted_equity_usd : option string) : result string AccountSnapshot :=
  observed ← try_fold observe_oracle [] oracle_positions;
  bounded ← try_fold bound_position (observed, []) (acs_positions account);
  match bounded.1 with
  | [] => balance ← bound_equity oracle_adjusted_equity_usd (acs_balance account);
          Ok (with_bounds bounded.2 balance account)
  | _ => Err "oracle reports extra non-zero positions"
  end.

Definition oracle_gross_step (acc : D) (value : string) : analyzed D :=
  if is_blank value then Ok acc else v ← decimal "oracle_position_notional_usd" value; acc +! dec_abs v.
(** Residual, consistency and exceptions of the two adjusted equities *)
Definition compare_adjusted (local oracle : option D) : analyzed (option D * bool * list string) :=
  match local, oracle with
  | Some l, Some o => residual ← l -! o; Ok (Some residual, dec_leb (dec_abs residual) dec_zero, [])
  | None, None => Ok (None, true, ["adjusted_equity_unavailable_both_sides"])
  | Some _, None => Ok (None, false, ["oracle_adjusted_equity_unavailable"])
  | None, Some _ => Ok (None, false, ["local_adjusted_equity_unavailable"])
  end.
Definition compare_account_position_risk_oracle (local : PortfolioRiskAnalysis) (oracle_timestamp_ms : string)
    (oracle_adjusted_equity_usd : option string) (oracle_position_notionals_usd : list string)
    : analyzed RiskOracleComparison :=
  local_gross ← decimal (D:=D) "local_gross_notional_usd" (ara_gross_position_notional_usd (pfa_account local));
  oracle_gross ← try_fold oracle_gross_step dec_zero oracle_position_notionals_usd;
  gross_residual ← local_gross -! oracle_gross;
  local_adjusted ← optional_decimal "local_adjusted_equity_usd" (ara_adjusted_equity_usd (pfa_account local));
  oracle_adjusted ← optional_decimal "oracle_adjusted_equity_usd"
    (match oracle_adjusted_equity_usd with Some v => if is_blank v then None else Some v | None => None end);
  adjusted ← compare_adjusted local_adjusted oracle_adjusted;
  Ok {| roc_schema := RISK_ORACLE_COMPARISON_SCHEMA_V2;
        roc_oracle_source := "GET /api/v5/account/account-position-risk";
        roc_oracle_timestamp_ms := oracle_timestamp_ms;
        roc_consistency_policy := RISK_ORACLE_CONSISTENCY_POLICY_V1;
        roc_gross_notional_tolerance_usd := "0";
        roc_adjusted_equity_tolerance_usd := "0";
        roc_semantic_exceptions := adjusted.2;
        roc_local_gross_notional_usd := dtext local_gross;
        roc_oracle_gross_notional_usd := dtext oracle_gross;
        roc_gross_notional_residual_usd := dtext gross_residual;
        roc_local_adjusted_equity_usd := normalized local_adjusted;
        roc_oracle_adjusted_equity_usd := normalized oracle_adjusted;
        roc_adjusted_equity_residual_usd := normalized adjusted.1.1;
        roc_consistent := dec_leb (dec_abs gross_residual) dec_zero && adjusted.1.2 |}.
End gates.
Arguments Exposures D : clear implicits.
Arguments Observed D : clear implicits.
