(* ===== verification/RiskSafety.v ===== *)
(** * RiskSafety: what the decisions of [RiskGates] mean

    An accepted portfolio is inside every limit of its mandate and policy
    ([accepted_within_limits]); a candidate without the proof of its strategy's value is
    never accepted ([unproven_candidate_rejected]); the reason to stop an account for good
    does not depend on the candidate ([durable_stop_of_account]). *)
From stdpp Require Import base option list numbers strings.
From Stdlib Require Import ZArith QArith Qabs Lia Lqa Ascii.
From S2P Require Import Prelude Text Ordered External Decimals Lots MoneyText Faults Wire Account AccountLedger Analysis RiskAnalysis RiskGates.
Local Open Scope string_scope.
Local Open Scope list_scope.
Local Open Scope Z_scope.

(** ** Lists of violations only grow *)
(** The step appended something, and nothing only if [P] holds. *)
Definition grows (P : Prop) (vs vs' : list RiskPolicyViolation) : Prop :=
  ∃ extra, vs' = vs ++ extra ∧ (extra = [] → P).
Lemma grown_trans P Q vs1 vs2 vs3 : grows P vs1 vs2 → grows Q vs2 vs3 → grows (P ∧ Q) vs1 vs3.
Proof.
  intros (e1 & -> & H1) (e2 & -> & H2). exists (e1 ++ e2). split; [by rewrite app_assoc|].
  intros [-> ->]%app_nil. auto.
Qed.
Lemma grows_weaken (P Q : Prop) vs vs' : grows P vs vs' → (P → Q) → grows Q vs vs'.
Proof. intros (e & -> & He) HPQ. exists e. split; [done|auto]. Qed.
Lemma grows_refl (P : Prop) vs : P → grows P vs vs.
Proof. intros HP. exists []. split; [by rewrite app_nil_r|done]. Qed.
Lemma grows_one (P : Prop) vs v : grows P vs (vs ++ [v]).
Proof. by exists [v]. Qed.
Lemma grows_if (b : bool) (P : Prop) vs v : (b = true → P) → grows P vs (if b then vs else vs ++ [v]).
Proof. intros HP. destruct b; [by apply grows_refl; apply HP|apply grows_one]. Qed.
Lemma grows_nil P vs : grows P vs [] → vs = [] ∧ P.
Proof. intros (e & E & HP). symmetry in E. apply app_nil in E as [-> ->]. auto. Qed.
Lemma try_fold_grows {E A} (P : A → Prop) (f : list RiskPolicyViolation → A → result E (list RiskPolicyViolation)) l :
  (∀ vs a vs', f vs a = Ok vs' → grows (P a) vs vs') →
  ∀ vs vs', try_fold f vs l = Ok vs' → grows (∀ a, a ∈ l → P a) vs vs'.
Proof.
  intros Hf. induction l as [|a l IH]; intros vs vs' E1; simpl in E1.
  - injection E1 as <-. apply grows_refl. by intros a ?%elem_of_nil.
  - apply bind_ok in E1 as (vs1 & Ea & E1). eapply grows_weaken; [eapply grown_trans; [by eapply Hf|by eapply IH]|].
    intros [Ha Hl] b [->|Hb]%elem_of_cons; auto.
Qed.

Section safety.
Context {D : Type} `{AnalysisLaws D}.

(** [x] is at most the limit that the text says. *)
Definition within (limit : string) (x : D) : Prop :=
  ∃ l : D, dec_from_str limit = Some l ∧ (0 <= val l)%Q ∧ (val x <= val l)%Q.
(** The text is a number with the property. *)
Definition reads (text : string) (P : D → Prop) : Prop := ∃ x : D, dec_from_str text = Some x ∧ P x.

Lemma non_negative_ok f v (x : D) : non_negative_decimal f v = Ok x → dec_from_str v = Some x ∧ (0 <= val x)%Q.
Proof.
  unfold non_negative_decimal. intros E. apply bind_ok in E as (y & Ey & E). apply decimal_ok in Ey.
  destruct (dec_ltb y dec_zero) eqn:El; [done|]. injection E as <-. split; [done|].
  apply dec_ltb_false in El. by rewrite val_zero in El.
Qed.
Lemma compare_limit_grows vs code scope (x : D) limit vs' :
  compare_limit vs code scope x limit = Ok vs' → grows (within limit x) vs vs'.
Proof.
  unfold compare_limit. intros E. apply bind_ok in E as (l & El & E). apply non_negative_ok in El as [El Hl].
  destruct (dec_ltb l x) eqn:Ec; injection E as <-; [apply grows_one|].
  apply grows_refl. exists l. apply dec_ltb_false in Ec. auto.
Qed.

Definition quality_tolerated (policy : HardRiskPolicy) (fresh : bool) : Prop :=
  fresh = true ∨ (hrp_minimum_quality policy = QualityDegraded ∧ hrp_degraded_mode policy = AllowReadOnly).
Lemma quality_grows policy fresh vs : grows (quality_tolerated policy fresh) vs (quality_violations policy fresh vs).
Proof.
  unfold quality_violations, quality_tolerated.
  destruct fresh, (hrp_minimum_quality policy), (hrp_degraded_mode policy);
    try (apply grows_refl; by auto); try apply grows_one.
  rewrite <- app_assoc. by eexists.
Qed.

(** ** Candidates *)
(** A candidate inside the limits: what it costs, what the account and the instrument hold
    with it, and the margin in use on the smaller of both capitals *)
Record candidate_within (mandate : TradingMandate) (policy : HardRiskPolicy) (c : PortfolioCandidate)
    (total_equity account_gross instrument_gross current_imr : D) : Prop := {
  cw_allowed : allows (tm_allowed_instruments mandate) (pc_instrument c) = true
               ∧ allows (hrp_allowed_instruments policy) (pc_instrument c) = true;
  cw_loss : reads (pc_worst_case_loss_usd c) (λ loss, within (hrp_max_loss_per_trade_usd policy) (dec_abs loss));
  cw_leverage : reads (pc_leverage c) (λ x, (0 < val x)%Q ∧ within (hrp_max_leverage policy) x
                                            ∧ within (tm_leverage_ceiling mandate) x);
  cw_exposure : reads (pc_notional_usd c) (λ n, (0 < val n)%Q
    ∧ (∃ p, checked_add account_gross n = Some p ∧ within (hrp_max_account_gross_notional_usd policy) p)
    ∧ (∃ p, checked_add instrument_gross n = Some p ∧ within (hrp_max_instrument_gross_notional_usd policy) p)
    ∧ reads (pc_leverage c) (λ x, reads (tm_capital_base_usd mandate) (λ assigned,
        ∃ used margin ratio, checked_div n x = Some used ∧ checked_add current_imr used = Some margin
          ∧ (0 < val (dec_min total_equity assigned))%Q
          ∧ checked_div margin (dec_min total_equity assigned) = Some ratio
          ∧ within (hrp_max_margin_utilization_ratio policy) (dec_normalize ratio))));
}.

Lemma candidate_limits_within mandate policy c (te ag ig imr : D) p :
  evaluate_candidate_limits mandate policy c te ag ig imr = Ok (p, []) →
  candidate_within mandate policy c te ag ig imr.
Proof.
  unfold evaluate_candidate_limits. intros E.
  apply bind_ok in E as (n & En & E). apply positive_ok in En as [En Hn].
  apply bind_ok in E as (lo & Elo & E). apply decimal_ok in Elo.
  apply bind_ok in E as (lev & Elev & E). apply positive_ok in Elev as [Elev Hlev]. cbv zeta in E.
  apply bind_ok in E as (v2 & E2%compare_limit_grows & E). apply bind_ok in E as (v3 & E3%compare_limit_grows & E).
  apply bind_ok in E as (v4 & E4%compare_limit_grows & E).
  apply bind_ok in E as (pa & Epa%or_panic_ok & E). apply bind_ok in E as (pi & Epi%or_panic_ok & E).
  apply bind_ok in E as (v5 & E5%compare_limit_grows & E). apply bind_ok in E as (v6 & E6%compare_limit_grows & E).
  apply bind_ok in E as ([m v7] & Em & E). simpl in E. apply bind_ok in E as (v8 & E8 & E).
  injection E as _ ->. unfold margin_projection in Em.
  apply bind_ok in Em as (cap & Ecap & Em). apply positive_ok in Ecap as [Ecap Hcap]. cbv zeta in Em.
  destruct (dec_ltb dec_zero (dec_min te cap)) eqn:Eeff.
  2:{ injection Em as <- <-. simpl in E8. injection E8 as E8. by destruct v6. }
  apply bind_ok in Em as (used & Eused%or_panic_ok & Em). apply bind_ok in Em as (margin & Emg%or_panic_ok & Em).
  apply bind_ok in Em as (ratio & Eratio%or_panic_ok & Em). injection Em as <- <-. simpl in E8.
  apply compare_limit_grows, grows_nil in E8 as [-> W8]. apply grows_nil in E6 as [-> W6].
  apply grows_nil in E5 as [-> W5]. apply grows_nil in E4 as [-> W4]. apply grows_nil in E3 as [-> W3].
  apply grows_nil in E2 as [Ev W2]. apply dec_ltb_val in Eeff. rewrite val_zero in Eeff.
  split.
  - destruct (allows (tm_allowed_instruments mandate) _), (allows (hrp_allowed_instruments policy) _); try done.
  - by exists lo.
  - by exists lev.
  - exists n. split; [done|]. split; [done|]. split; [by exists pa|]. split; [by exists pi|].
    exists lev. split; [done|]. exists cap. split; [done|]. by exists used, margin, ratio.
Qed.

(** ** The proof of the strategy's value *)
Definition proven (mandate : TradingMandate) (capital_base : D) (nav : option StrategyNavRiskEvidence) (drawdown loss : D) : Prop :=
  ∃ proof allocated value peak lost,
    nav = Some proof ∧ sne_run_id proof ≠ "" ∧ sne_mandate_version proof = tm_version mandate
    ∧ dec_from_str (sne_allocation_usdt proof) = Some allocated ∧ dec_from_str (sne_nav_usdt proof) = Some value
    ∧ dec_from_str (sne_high_water_usdt proof) = Some peak ∧ dec_from_str (sne_daily_realized_loss_usdt proof) = Some loss
    ∧ (val allocated == val capital_base)%Q ∧ (0 < val value <= val peak)%Q ∧ (val allocated <= val peak)%Q
    ∧ (0 <= val loss)%Q ∧ checked_sub peak value = Some lost ∧ checked_div lost peak = Some drawdown.
Lemma nav_proof_ok mandate (cap : D) nav d l :
  nav_proof mandate cap nav = Ok (Some (d, l)) → proven mandate cap nav d l.
Proof.
  unfold nav_proof. destruct nav as [proof|]; [|done]. destruct (_ || _) eqn:Eid; [done|].
  apply orb_false_iff in Eid as [Er Ev]. apply String.eqb_neq in Er. apply negb_false_iff, String.eqb_eq in Ev.
  destruct (dec_from_str (sne_allocation_usdt proof)) as [al|] eqn:Eal; [|done].
  destruct (dec_from_str (sne_nav_usdt proof)) as [va|] eqn:Eva; [|done].
  destruct (dec_from_str (sne_high_water_usdt proof)) as [pe|] eqn:Epe; [|done].
  destruct (dec_from_str (sne_daily_realized_loss_usdt proof)) as [lo|] eqn:Elo; [|done].
  destruct (_ || _) eqn:Ec; [done|]. intros E. apply bind_ok in E as (lost & El%or_panic_ok & E).
  apply bind_ok in E as (dd & Ed%or_panic_ok & E). injection E as <- <-.
  reflect_decs. rewrite val_zero in *. exists proof, al, va, pe, lost. repeat (split; [done|]). done.
Qed.
Lemma nav_violations_grows mandate policy (proof : option (D * D)) vs' :
  nav_violations mandate policy proof = Ok vs' →
  grows (∃ d l, proof = Some (d, l) ∧ within (hrp_max_drawdown_ratio policy) d ∧ within (tm_max_drawdown_ratio mandate) d
                ∧ within (hrp_max_daily_realized_loss_usd policy) l) [] vs'.
Proof.
  unfold nav_violations. destruct proof as [[d l]|].
  - intros E. apply bind_ok in E as (v1 & E1%compare_limit_grows & E).
    apply bind_ok in E as (v2 & E2%compare_limit_grows & E). apply compare_limit_grows in E.
    eapply grows_weaken; [eapply grown_trans; [exact E1|eapply grown_trans; [exact E2|exact E]]|].
    intros (? & ? & ?). by exists d, l.
  - intros [= <-]. apply grows_one.
Qed.

(** ** The limits of what the account holds *)
Lemma instrument_limits_grows mandate policy vs row vs' :
  instrument_limits mandate policy vs row = Ok vs' →
  grows (reads (ex_gross_notional_usd row) (within (hrp_max_instrument_gross_notional_usd policy))
         ∧ allows (hrp_allowed_instruments policy) (ex_key row) = true
         ∧ allows (tm_allowed_instruments mandate) (ex_key row) = true) vs vs'.
Proof.
  unfold instrument_limits. intros E. apply bind_ok in E as (g & Eg%decimal_ok & E).
  apply bind_ok in E as (v1 & E1%compare_limit_grows & E). cbv zeta in E. injection E as <-.
  eapply grows_weaken; [eapply grown_trans; [exact E1|eapply grown_trans; apply grows_if; intros Ha; exact Ha]|].
  intros (Hw & H1' & H2'). split; [by exists g|done].
Qed.
Lemma cluster_limits_grows vs row vs' :
  cluster_limits (D:=D) vs row = Ok vs' →
  grows (reads (ce_gross_notional_usd row) (within (ce_max_gross_notional_usd row))) vs vs'.
Proof.
  unfold cluster_limits. intros E. apply bind_ok in E as (g & Eg%decimal_ok & E). apply compare_limit_grows in E.
  eapply grows_weaken; [exact E|]. intros Hw. by exists g.
Qed.
Lemma leverage_limits_grows mandate policy vs position vs' :
  leverage_limits mandate policy vs position = Ok vs' →
  grows (∀ t, pra_configured_leverage position = Some t →
           reads t (λ x, within (hrp_max_leverage policy) x ∧ within (tm_leverage_ceiling mandate) x)) vs vs'.
Proof.
  unfold leverage_limits. destruct (pra_configured_leverage position) as [t|]; [|intros [= <-]; by apply grows_refl].
  intros E. apply bind_ok in E as (x & Ex%decimal_ok & E). apply bind_ok in E as (v1 & E1%compare_limit_grows & E).
  apply compare_limit_grows in E. eapply grows_weaken; [eapply grown_trans; [exact E1|exact E]|].
  intros Hw t' [= <-]. by exists x.
Qed.
Lemma current_margin_grows account a (gross : D) vs m vs' :
  current_margin account a gross vs = Ok (m, vs') →
  grows (match ara_initial_margin_requirement_usd a with
         | Some t => dec_from_str t = Some m ∧ (0 <= val m)%Q
         | None => (val gross == 0)%Q ∧ acs_pending_orders account = [] ∧ m = dec_zero
         end) vs vs'.
Proof.
  unfold current_margin. destruct (ara_initial_margin_requirement_usd a) as [t|].
  - intros E. apply bind_ok in E as (v & Ev%non_negative_ok & E). injection E as <- <-. by apply grows_refl.
  - destruct (dec_eqb gross dec_zero) eqn:Eg; simpl; [|intros [= <- <-]; apply grows_one].
    destruct (acs_pending_orders account); simpl; intros [= <- <-]; [|apply grows_one].
    apply grows_refl. apply dec_eqb_val in Eg. by rewrite val_zero in Eg.
Qed.

(** A candidate of an accepted portfolio: its strategy's value is proven, its own losses
    are within the limits, and the candidate is inside the limits beside what the account
    holds, with known margin. *)
Definition candidate_accepted (account : AccountSnapshot) (mandate : TradingMandate) (policy : HardRiskPolicy)
    (nav : option StrategyNavRiskEvidence) (r : PortfolioRiskAnalysis) (c : PortfolioCandidate) : Prop :=
  ∃ capital_base drawdown loss total_equity gross held margin : D,
    dec_from_str (tm_capital_base_usd mandate) = Some capital_base
    ∧ proven mandate capital_base nav drawdown loss
    ∧ within (hrp_max_drawdown_ratio policy) drawdown ∧ within (tm_max_drawdown_ratio mandate) drawdown
    ∧ within (hrp_max_daily_realized_loss_usd policy) loss
    ∧ dec_from_str (ara_total_equity_usd (pfa_account r)) = Some total_equity
    ∧ dec_from_str (ara_gross_position_notional_usd (pfa_account r)) = Some gross
    ∧ match List.find (λ row, (ex_key row =? pc_instrument c)%string) (pfa_instrument_exposure r) with
      | Some row => dec_from_str (ex_gross_notional_usd row) = Some held
      | None => held = dec_zero
      end
    ∧ match ara_initial_margin_requirement_usd (pfa_account r) with
      | Some t => dec_from_str t = Some margin ∧ (0 <= val margin)%Q
      | None => (val gross == 0)%Q ∧ acs_pending_orders account = [] ∧ margin = dec_zero
      end
    ∧ candidate_within mandate policy c total_equity gross held margin.

(** Everything an accepted portfolio is inside of *)
Record portfolio_within (account : AccountSnapshot) (mandate : TradingMandate) (policy : HardRiskPolicy)
    (candidate : option PortfolioCandidate) (fresh : bool) (nav : option StrategyNavRiskEvidence)
    (r : PortfolioRiskAnalysis) : Prop := {
  pw_quality : quality_tolerated policy fresh;
  pw_gross : reads (ara_gross_position_notional_usd (pfa_account r)) (within (hrp_max_account_gross_notional_usd policy));
  pw_margin : ∀ t, pfa_margin_utilization_ratio r = Some t → reads t (within (hrp_max_margin_utilization_ratio policy));
  pw_drawdown : ∃ d, pfa_capital_base_drawdown_ratio r = dtext d
                ∧ within (hrp_max_drawdown_ratio policy) d ∧ within (tm_max_drawdown_ratio mandate) d;
  pw_daily_loss : ∃ loss, pfa_daily_realized_loss_usd_equivalent r = Some (dtext loss)
                  ∧ within (hrp_max_daily_realized_loss_usd policy) loss;
  pw_instruments : ∀ row, row ∈ pfa_instrument_exposure r →
    reads (ex_gross_notional_usd row) (within (hrp_max_instrument_gross_notional_usd policy))
    ∧ allows (hrp_allowed_instruments policy) (ex_key row) = true
    ∧ allows (tm_allowed_instruments mandate) (ex_key row) = true;
  pw_clusters : ∀ row, row ∈ pfa_correlated_cluster_exposure r →
    reads (ce_gross_notional_usd row) (within (ce_max_gross_notional_usd row));
  pw_leverage : ∀ p t, p ∈ ara_positions (pfa_account r) → pra_configured_leverage p = Some t →
    reads t (λ x, within (hrp_max_leverage policy) x ∧ within (tm_leverage_ceiling mandate) x);
  pw_candidate : ∀ c, candidate = Some c → candidate_accepted account mandate policy nav r c;
}.

Lemma daily_loss_whole values loss l :
  usd_equivalent_daily_loss (D:=D) values = Ok (loss, l) → l = [] → ∃ x, loss = Some x.
Proof.
  unfold usd_equivalent_daily_loss. intros E ->. apply bind_ok in E as (acc & _ & E).
  destruct acc.2 as [|[k u] m]; [injection E as <-; eauto|]. by injection E.
Qed.
Lemma decision_accepted vs : decision_of vs = RiskAccepted → vs = [].
Proof. by destruct vs. Qed.

Lemma portfolio_decision account ledger mandate policy candidate fresh nav r :
  analyze_portfolio_risk_with_strategy_nav (D:=D) account ledger mandate policy candidate fresh nav = Ok r →
  pfa_policy_decision r = decision_of (pfa_violations r).
Proof.
  unfold analyze_portfolio_risk_with_strategy_nav. intros E. do 5 (apply bind_ok in E as (? & _ & E)).
  cbv zeta in E. inv_ok E. by injection E as <-.
Qed.
Lemma portfolio_accepted account ledger mandate policy candidate fresh nav r :
  analyze_portfolio_risk_with_strategy_nav (D:=D) account ledger mandate policy candidate fresh nav = Ok r →
  pfa_violations r = [] → portfolio_within account mandate policy candidate fresh nav r.
Proof.
  unfold analyze_portfolio_risk_with_strategy_nav. intros E Hnil.
  apply bind_ok in E as (ar & Ear & E). apply bind_ok in E as (te & Ete%decimal_ok & E).
  apply bind_ok in E as (cap & Ecap%positive_ok & E). destruct Ecap as [Ecap _].
  apply bind_ok in E as (mu & Emu & E). apply bind_ok in E as (lost & _ & E). cbv zeta in E.
  apply bind_ok in E as (ex & _ & E). apply bind_ok in E as (clusters & _ & E). apply bind_ok in E as ([dl un] & Edl & E).
  apply bind_ok in E as (v1 & E1 & E). simpl in E. apply bind_ok in E as (gross & Eg%decimal_ok & E).
  apply bind_ok in E as (v4 & E4%compare_limit_grows & E). apply bind_ok in E as (v5 & E5 & E).
  apply bind_ok in E as (v6 & E6%compare_limit_grows & E). apply bind_ok in E as (v7 & E7%compare_limit_grows & E).
  apply bind_ok in E as (v8 & E8 & E).
  apply bind_ok in E as (v9 & E9%(try_fold_grows _ _ _ (instrument_limits_grows mandate policy)) & E).
  apply bind_ok in E as (v10 & E10%(try_fold_grows _ _ _ cluster_limits_grows) & E).
  apply bind_ok in E as (v11 & E11%(try_fold_grows _ _ _ (leverage_limits_grows mandate policy)) & E).
  apply bind_ok in E as ([proj v12] & E12 & E). injection E as <-. simpl in Hnil. subst v12.
  assert (Hc : grows (∀ c, candidate = Some c → ∃ held margin : D,
      match List.find (λ row, (ex_key row =? pc_instrument c)%string) (finish_exposure ex.1) with
      | Some row => dec_from_str (ex_gross_notional_usd row) = Some held | None => held = dec_zero end
      ∧ match ara_initial_margin_requirement_usd ar with
        | Some t => dec_from_str t = Some margin ∧ (0 <= val margin)%Q
        | None => (val gross == 0)%Q ∧ acs_pending_orders account = [] ∧ margin = dec_zero end
      ∧ candidate_within mandate policy c te gross held margin) v11 []).
  { destruct candidate as [c|]; [|injection E12 as _ <-; by apply grows_refl].
    apply bind_ok in E12 as ([p w] & E12 & Ew). injection Ew as _ ->. unfold candidate_limits in E12.
    apply bind_ok in E12 as (held & Eh & E12). apply bind_ok in E12 as ([m vm] & Em%current_margin_grows & E12).
    apply bind_ok in E12 as ([p' w'] & Ew & E12). simpl in E12, Ew. injection E12 as _ E12.
    apply app_nil in E12 as [-> ->]. apply candidate_limits_within in Ew. eapply grows_weaken; [exact Em|].
    intros Hm c' [= <-]. exists held, m. split; [|done]. destruct (List.find _ _); [by apply decimal_ok in Eh|by injection Eh]. }
  apply grows_nil in Hc as [-> Hc]. apply grows_nil in E11 as [-> E11]. apply grows_nil in E10 as [-> E10].
  apply grows_nil in E9 as [-> E9].
  assert (H8 : v7 = [] ∧ (∀ x, dl = Some x → within (hrp_max_daily_realized_loss_usd policy) x)).
  { destruct dl as [x|]; [|injection E8 as <-; done]. apply compare_limit_grows, grows_nil in E8 as [-> ?].
    split; [done|]. by intros ? [= <-]. }
  destruct H8 as [-> H8]. apply grows_nil in E7 as [-> E7]. apply grows_nil in E6 as [-> E6].
  assert (H5 : v4 = [] ∧ (∀ t, mu = Some t → reads t (within (hrp_max_margin_utilization_ratio policy)))).
  { destruct mu as [t|]; [|injection E5 as <-; done]. apply bind_ok in E5 as (u & Eu%decimal_ok & E5).
    apply compare_limit_grows, grows_nil in E5 as [-> ?]. split; [done|]. intros ? [= <-]. by exists u. }
  destruct H5 as [-> H5]. apply grows_nil in E4 as [E4q E4].
  match type of E4q with quality_violations _ _ ?vs = [] => pose proof (quality_grows policy fresh vs) as Hq end.
  rewrite E4q in Hq. apply grows_nil in Hq as [Hun Hq].
  assert (un = [] ∧ v1 = []) as [-> ->] by (unfold currency_violations in Hun; destruct un; [done|by destruct v1]).
  destruct (daily_loss_whole _ _ _ Edl eq_refl) as [loss ->].
  split; simpl; try done.
  - by exists gross.
  - eexists. by split.
  - exists loss. split; [done|by apply H8].
  - intros p t Hp Ht. by apply (E11 p).
  - intros c ->. destruct (Hc c eq_refl) as (held & margin & Hh & Hm & Hw).
    apply bind_ok in E1 as (proof & Epf & E1%nav_violations_grows). apply grows_nil in E1 as [_ (d & l & -> & W1 & W2 & W3)].
    apply nav_proof_ok in Epf. by exists cap, d, l, te, gross, held, margin.
Qed.

(** C16: An accepted portfolio is inside every limit of its mandate and policy: exposure of
    the account, of each instrument and cluster, margin, drawdown, the loss of the day in
    dollars, leverage, instruments allowed, data of the demanded quality; and a candidate is
    accepted only with the proven value of its strategy, with its losses, leverage, exposure
    and margin beside what the account holds inside the limits. *)
Theorem accepted_within_limits account ledger mandate policy candidate fresh nav r :
  analyze_portfolio_risk_with_strategy_nav (D:=D) account ledger mandate policy candidate fresh nav = Ok r →
  pfa_policy_decision r = RiskAccepted → portfolio_within account mandate policy candidate fresh nav r.
Proof.
  intros E Hd. eapply portfolio_accepted; [exact E|]. apply decision_accepted. rewrite <- Hd. symmetry.
  by eapply portfolio_decision.
Qed.

(** Without a coherent proof of the value of its strategy, whatever the account looks
    like, a candidate is rejected; an ordinary query of the portfolio has no proof and never
    accepts one. *)
Theorem unproven_candidate_rejected account ledger mandate policy c fresh nav r :
  analyze_portfolio_risk_with_strategy_nav (D:=D) account ledger mandate policy (Some c) fresh nav = Ok r →
  (∀ capital_base drawdown loss, ¬ proven mandate capital_base nav drawdown loss) →
  pfa_policy_decision r = RiskRejected ∧ pfa_violations r ≠ [].
Proof.
  intros E Hno. assert (Hv : pfa_violations r ≠ []).
  { intros Hnil. apply portfolio_accepted in E; [|done]. destruct (pw_candidate _ _ _ _ _ _ _ E c eq_refl) as (cap & d & l & Hc).
    destruct Hc as (? & ? & ? & ? & ? & Hp & _). by apply (Hno cap d l). }
  split; [|done]. rewrite (portfolio_decision _ _ _ _ _ _ _ _ E). by destruct (pfa_violations r).
Qed.

(** ** Reasons to stop an account for good *)
(** What a step appends does not depend on what was there, and has the property. *)
Definition appends {E} (P : RiskPolicyViolation → Prop) (f : list RiskPolicyViolation → result E (list RiskPolicyViolation)) : Prop :=
  ∀ vs vs', f vs = Ok vs' → ∃ e, Forall P e ∧ vs' = vs ++ e ∧ ∀ ws, f ws = Ok (ws ++ e).
Definition any (v : RiskPolicyViolation) : Prop := True.
Definition passing (v : RiskPolicyViolation) : Prop := ∀ complete, durable_account_stop complete v = false.

Lemma appends_weaken {E} (P Q : RiskPolicyViolation → Prop) (f : _ → result E _) :
  (∀ v, P v → Q v) → appends P f → appends Q f.
Proof.
  intros HPQ Hf vs vs' E1. destruct (Hf vs vs' E1) as (e & He & ? & ?). exists e.
  split; [by eapply Forall_impl|done].
Qed.
Lemma appends_ret {E} (P : RiskPolicyViolation → Prop) e : Forall P e → appends (E:=E) P (λ vs, Ok (vs ++ e)).
Proof. intros He vs vs' [= <-]. by exists e. Qed.
Lemma appends_bind {E} P (f g : _ → result E _) : appends P f → appends P g → appends P (λ vs, f vs ≫= g).
Proof.
  intros Hf Hg vs vs' E1. apply bind_ok in E1 as (v1 & E1 & E2). destruct (Hf _ _ E1) as (e1 & P1 & -> & R1).
  destruct (Hg _ _ E2) as (e2 & P2 & -> & R2). exists (e1 ++ e2). split; [by apply Forall_app_2|].
  split; [by rewrite app_assoc|]. intros ws. rewrite R1. simpl. by rewrite R2, app_assoc.
Qed.
Lemma appends_const {E A} P (x : result E A) (f : A → _ → result E _) :
  (∀ a, appends P (f a)) → appends P (λ vs, x ≫= λ a, f a vs).
Proof. intros Hf vs vs' E1. destruct x as [a|]; [|done]. by apply (Hf a). Qed.
Lemma appends_fold {E A} P (f : _ → A → result E _) l : (∀ a, appends P (λ vs, f vs a)) → appends P (λ vs, try_fold f vs l).
Proof.
  intros Hf. induction l as [|a l IH]; simpl.
  - intros vs vs' [= <-]. exists []. rewrite app_nil_r. split; [done|split; [done|]]. intros ws. by rewrite app_nil_r.
  - by apply (appends_bind P (λ vs, f vs a)).
Qed.
Lemma appends_id {E} P : appends (E:=E) P (λ vs, Ok vs).
Proof. intros vs vs' [= <-]. exists []. rewrite app_nil_r. split; [done|split; [done|]]. intros ws. by rewrite app_nil_r. Qed.

Lemma compare_limit_appends code scope (x : D) limit :
  appends (λ v, vi_code v = code ∧ vi_scope v = scope) (λ vs, compare_limit vs code scope x limit).
Proof.
  unfold compare_limit. apply appends_const. intros l. destruct (dec_ltb l x); [|apply appends_id].
  by apply appends_ret; constructor.
Qed.
Lemma compare_limit_any code scope (x : D) limit : appends any (λ vs, compare_limit vs code scope x limit).
Proof. by eapply appends_weaken; [|apply compare_limit_appends]. Qed.
Lemma passing_code code scope :
  (∀ complete o l, durable_account_stop complete (Violation code scope o l) = false) →
  ∀ v, vi_code v = code ∧ vi_scope v = scope → passing v.
Proof. intros Hp [c s o l] [Hc Hs] complete. simpl in *. subst. apply Hp. Qed.
(** Codes of violations that never stop an account *)
Definition passing_codes : list string :=
  ["MANDATE_INSTRUMENT_NOT_ALLOWED"; "INSTRUMENT_NOT_ALLOWED"; "MAX_LOSS_PER_TRADE"; "MAX_LEVERAGE";
   "MANDATE_LEVERAGE_CEILING"; "MAX_ACCOUNT_GROSS_NOTIONAL_PROJECTED"; "MAX_INSTRUMENT_GROSS_NOTIONAL_PROJECTED";
   "MARGIN_CAPITAL_UNAVAILABLE"; "MAX_MARGIN_UTILIZATION_PROJECTED"; "MARGIN_EVIDENCE_UNAVAILABLE";
   "STRATEGY_NAV_UNATTESTED"; "MINIMUM_DATA_QUALITY"; "DEGRADED_MODE_REJECT"].
Lemma code_passes code : code ∈ passing_codes → ∀ scope complete o l, durable_account_stop complete (Violation code scope o l) = false.
Proof.
  intros Hc scope complete o l. unfold passing_codes in Hc.
  repeat (apply elem_of_cons in Hc as [->|Hc]; [reflexivity|]). by apply elem_of_nil in Hc.
Qed.
Lemma compare_limit_passing code scope (x : D) limit :
  code ∈ passing_codes → appends passing (λ vs, compare_limit vs code scope x limit).
Proof.
  intros Hc. eapply appends_weaken; [|apply compare_limit_appends]. apply passing_code. intros. by apply code_passes.
Qed.

Lemma compare_passes vs code scope (x : D) limit vs' :
  compare_limit vs code scope x limit = Ok vs' → code ∈ passing_codes → Forall passing vs → Forall passing vs'.
Proof.
  intros E Hc Hvs. destruct (compare_limit_passing code scope x limit Hc _ _ E) as (e & He & -> & _).
  by apply Forall_app_2.
Qed.
Lemma violation_passes vs code scope o l :
  code ∈ passing_codes → Forall passing vs → Forall passing (vs ++ [Violation code scope o l]).
Proof. intros Hc Hvs. apply Forall_app_2; [done|]. constructor; [|done]. intros complete. by apply code_passes. Qed.
Ltac listed := unfold passing_codes; repeat (apply elem_of_cons; first [by left|right]).
Lemma evaluate_limits_pass mandate policy c (te ag ig imr : D) p vs :
  evaluate_candidate_limits mandate policy c te ag ig imr = Ok (p, vs) → Forall passing vs.
Proof.
  unfold evaluate_candidate_limits. intros E. do 3 (apply bind_ok in E as (? & _ & E)). cbv zeta in E.
  apply bind_ok in E as (v2 & E2 & E). apply bind_ok in E as (v3 & E3 & E). apply bind_ok in E as (v4 & E4 & E).
  do 2 (apply bind_ok in E as (? & _ & E)). apply bind_ok in E as (v5 & E5 & E). apply bind_ok in E as (v6 & E6 & E).
  apply bind_ok in E as ([m v7] & E7 & E). simpl in E. apply bind_ok in E as (v8 & E8 & E). injection E as _ <-.
  assert (H7' : Forall passing v7).
  { assert (H6 : Forall passing v6).
    { eapply compare_passes; [exact E6|listed|]. eapply compare_passes; [exact E5|listed|].
      eapply compare_passes; [exact E4|listed|]. eapply compare_passes; [exact E3|listed|].
      eapply compare_passes; [exact E2|listed|].
      assert (H0' : Forall passing (if allows (tm_allowed_instruments mandate) (pc_instrument c) then []
        else [Violation "MANDATE_INSTRUMENT_NOT_ALLOWED" (pc_instrument c) "candidate" "mandate.allowed_instruments"])).
      { destruct (allows (tm_allowed_instruments mandate) _); [constructor|]. apply (violation_passes []); [listed|constructor]. }
      destruct (allows (hrp_allowed_instruments policy) _); [done|]. apply violation_passes; [listed|done]. }
    unfold margin_projection in E7. apply bind_ok in E7 as (? & _ & E7). cbv zeta in E7. destruct (dec_ltb _ _).
    - inv_ok E7. by injection E7 as _ <-.
    - injection E7 as _ <-. apply violation_passes; [listed|done]. }
  destruct m; [eapply compare_passes; [exact E8|listed|done]|by injection E8 as <-].
Qed.
Lemma nav_violations_pass mandate policy (proof : option (D * D)) vs :
  nav_violations mandate policy proof = Ok vs → Forall passing vs.
Proof.
  unfold nav_violations. destruct proof as [[d l]|]; [|intros [= <-]; apply (violation_passes []); [listed|constructor]].
  assert (Hp : ∀ code scope (x : D) limit, scope = "strategy_run" ∨ scope = "strategy_run_utc_day" →
      appends passing (λ vs, compare_limit vs code scope x limit)).
  { intros code scope x limit Hs. eapply appends_weaken; [|apply compare_limit_appends]. apply passing_code.
    intros complete o l'. unfold durable_account_stop. simpl. destruct Hs as [-> | ->]; by rewrite !andb_false_r. }
  intros E. apply bind_ok in E as (v1 & E1 & E). apply bind_ok in E as (v2 & E2 & E).
  destruct (Hp _ _ _ _ (or_introl eq_refl) _ _ E1) as (e1 & P1 & -> & _).
  destruct (Hp _ _ _ _ (or_introl eq_refl) _ _ E2) as (e2 & P2 & -> & _).
  destruct (Hp _ _ _ _ (or_intror eq_refl) _ _ E) as (e3 & P3 & -> & _). by repeat apply Forall_app_2.
Qed.
Lemma quality_passes policy fresh vs : ∃ q, Forall passing q ∧ quality_violations policy fresh vs = vs ++ q.
Proof.
  assert (H0' : Forall passing []) by constructor.
  unfold quality_violations. destruct fresh, (hrp_minimum_quality policy), (hrp_degraded_mode policy);
    first [ by exists []; rewrite app_nil_r
          | by eexists; split; [|done]; apply (violation_passes []); [listed|done]
          | eexists; split; [|by rewrite <- app_assoc]; apply (violation_passes [_]); [listed|];
            apply (violation_passes []); [listed|done] ].
Qed.
Lemma quality_fresh policy vs : quality_violations policy true vs = vs.
Proof. unfold quality_violations. by destruct (hrp_minimum_quality policy), (hrp_degraded_mode policy). Qed.
Lemma currency_appends un vs : currency_violations un vs = vs ++ currency_violations un [].
Proof. unfold currency_violations. destruct un; [by rewrite app_nil_r|done]. Qed.
Lemma current_margin_passes account a (gross : D) vs m vs' :
  current_margin account a gross vs = Ok (m, vs') → ∃ q, Forall passing q ∧ vs' = vs ++ q.
Proof.
  unfold current_margin. destruct (ara_initial_margin_requirement_usd a).
  - intros E. apply bind_ok in E as (? & _ & E). injection E as _ <-. exists []. split; [constructor|by rewrite app_nil_r].
  - destruct (_ && _); intros [= _ <-]; [exists []; split; [constructor|by rewrite app_nil_r]|].
    eexists. split; [|done]. apply (violation_passes []); [listed|constructor].
Qed.

Lemma instrument_fold_appends mandate policy l :
  appends any (λ vs, try_fold (instrument_limits (D:=D) mandate policy) vs l).
Proof.
  apply appends_fold. intros row. unfold instrument_limits. apply appends_const. intros g.
  apply appends_bind; [apply compare_limit_any|]. cbv zeta. intros vs vs' [= <-].
  destruct (allows (hrp_allowed_instruments policy) _), (allows (tm_allowed_instruments mandate) _).
  - exists []. split; [constructor|split; [by rewrite app_nil_r|intros ws; by rewrite app_nil_r]].
  - eexists. split; [|by split]. by repeat constructor.
  - eexists. split; [|by split]. by repeat constructor.
  - eexists. split; [|split; [by rewrite <- app_assoc|intros ws; by rewrite <- app_assoc]]. by repeat constructor.
Qed.
Lemma cluster_fold_appends l : appends any (λ vs, try_fold (cluster_limits (D:=D)) vs l).
Proof. apply appends_fold. intros row. unfold cluster_limits. apply appends_const. intros g. apply compare_limit_any. Qed.
Lemma leverage_fold_appends mandate policy l :
  appends any (λ vs, try_fold (leverage_limits (D:=D) mandate policy) vs l).
Proof.
  apply appends_fold. intros p. unfold leverage_limits. destruct (pra_configured_leverage p); [|apply appends_id].
  apply appends_const. intros x. apply appends_bind; apply compare_limit_any.
Qed.

(** Violations that pass change no reason to stop. *)
Lemma find_app {A} (f : A → bool) l1 l2 :
  List.find f (l1 ++ l2) = match List.find f l1 with Some x => Some x | None => List.find f l2 end.
Proof. induction l1 as [|a l IH]; [done|]. simpl. by destruct (f a). Qed.
Lemma find_passing complete vs : Forall passing vs → List.find (durable_account_stop complete) vs = None.
Proof. induction 1 as [|v vs Hv _ IH]; [done|]. simpl. by rewrite (Hv complete). Qed.

(** The reason to stop an account for good depends on the account only: neither the
    candidate, nor the proof of its strategy, nor the freshness of the data can cause,
    prevent or change it.  The same reason comes from the analysis of the account without a
    candidate. *)
Theorem durable_stop_of_account account ledger mandate policy candidate fresh nav r :
  analyze_portfolio_risk_with_strategy_nav (D:=D) account ledger mandate policy candidate fresh nav = Ok r →
  ∃ r0, analyze_portfolio_risk (D:=D) account ledger mandate policy None true = Ok r0
    ∧ ∀ complete, durable_account_stop_reason (pfa_violations r) complete = durable_account_stop_reason (pfa_violations r0) complete.
Proof.
  unfold analyze_portfolio_risk, analyze_portfolio_risk_with_strategy_nav. intros E.
  apply bind_ok in E as (ar & Ear & E). apply bind_ok in E as (te & Ete & E). apply bind_ok in E as (cap & Ecap & E).
  apply bind_ok in E as (mu & Emu & E). apply bind_ok in E as (lost & Elost & E). cbv zeta in E.
  apply bind_ok in E as (ex & Eex & E). apply bind_ok in E as (clusters & Ecl & E). apply bind_ok in E as ([dl un] & Edl & E).
  apply bind_ok in E as (v1 & E1 & E). cbn [fst snd] in E.
  assert (H1' : Forall passing v1).
  { destruct candidate; [|injection E1 as <-; constructor]. apply bind_ok in E1 as (? & _ & E1). by apply nav_violations_pass in E1. }
  rewrite currency_appends in E. set (unsupported := currency_violations un []) in E.
  destruct (quality_passes policy fresh (v1 ++ unsupported)) as (q & Hq & Eq). rewrite Eq in E.
  apply bind_ok in E as (gross & Eg & E). apply bind_ok in E as (v4 & E4 & E).
  apply compare_limit_any in E4 as (e4 & _ & -> & R4).
  apply bind_ok in E as (v5 & E5 & E).
  assert (H5' : appends any (λ vs, match mu with Some u => x ← decimal "margin_utilization_ratio" u;
      compare_limit vs "MAX_MARGIN_UTILIZATION" "account" x (hrp_max_margin_utilization_ratio policy) | None => Ok vs end)).
  { destruct mu; [|apply appends_id]. apply appends_const. intros. apply compare_limit_any. }
  apply H5' in E5 as (e5 & _ & -> & R5).
  apply bind_ok in E as (v6 & E6 & E). apply compare_limit_any in E6 as (e6 & _ & -> & R6).
  apply bind_ok in E as (v7 & E7 & E). apply compare_limit_any in E7 as (e7 & _ & -> & R7).
  apply bind_ok in E as (v8 & E8 & E).
  assert (H8' : appends any (λ vs, match dl with Some loss =>
      compare_limit vs "MAX_DAILY_REALIZED_LOSS" "utc_day" loss (hrp_max_daily_realized_loss_usd policy) | None => Ok vs end)).
  { destruct dl; [apply compare_limit_any|apply appends_id]. }
  apply H8' in E8 as (e8 & _ & -> & R8).
  apply bind_ok in E as (v9 & E9 & E). apply (instrument_fold_appends mandate policy) in E9 as (e9 & _ & -> & R9).
  apply bind_ok in E as (v10 & E10 & E). apply cluster_fold_appends in E10 as (e10 & _ & -> & R10).
  apply bind_ok in E as (v11 & E11 & E). apply (leverage_fold_appends mandate policy) in E11 as (e11 & _ & -> & R11).
  apply bind_ok in E as ([proj v12] & E12 & E). injection E as <-. simpl.
  eexists. split.
  - run_fault. cbn [fst snd]. rewrite quality_fresh.
    eapply bind_eq; [apply R4|]. eapply bind_eq; [apply R5|]. eapply bind_eq; [apply R6|]. eapply bind_eq; [apply R7|].
    eapply bind_eq; [apply R8|]. eapply bind_eq; [apply R9|]. eapply bind_eq; [apply R10|]. eapply bind_eq; [apply R11|].
    reflexivity.
  - intros complete. simpl.
    assert (∃ j, Forall passing j ∧ v12 = ((((((((((v1 ++ unsupported) ++ q) ++ e4) ++ e5) ++ e6) ++ e7) ++ e8) ++ e9) ++ e10) ++ e11) ++ j)
      as (j & Hj & ->).
    { destruct candidate as [c|]; [|injection E12 as _ <-; exists []; split; [constructor|by rewrite app_nil_r]].
      apply bind_ok in E12 as ([p w] & E12 & Ew). injection Ew as _ <-. unfold candidate_limits in E12.
      apply bind_ok in E12 as (held & _ & E12). apply bind_ok in E12 as ([m vm] & Em & E12).
      apply current_margin_passes in Em as (j1 & Hj1 & ->). apply bind_ok in E12 as ([p' w'] & Ew & E12). simpl in *.
      apply evaluate_limits_pass in Ew. injection E12 as _ <-. exists (j1 ++ w'). split; [by apply Forall_app_2|].
      by rewrite !app_assoc. }
    change (currency_violations un []) with unsupported. clearbody unsupported.
    unfold durable_account_stop_reason. f_equal. rewrite <- !app_assoc, !find_app.
    rewrite (find_passing _ v1), (find_passing _ q), (find_passing _ j) by done.
    repeat (match goal with |- context [List.find ?f ?l] => destruct (List.find f l); [done|] end). done.
Qed.
End safety.
