(* ===== verification/RiskBounds.v ===== *)
(** * RiskBounds: the numbers behind the decisions of [RiskGates]

    The exposure of an account is the sum of its open positions, and its net exposure is
    no larger ([exposure_totals]); the account bounded by the second reading of the
    exchange is never better than either reading ([conservative_bounds]). *)
From stdpp Require Import base option list numbers strings.
From Stdlib Require Import ZArith QArith Qabs Lia Lqa Ascii.
From S2P Require Import Prelude Text Ordered External Decimals Lots MoneyText Faults Wire Account AccountLedger Analysis RiskAnalysis RiskGates RiskSafety.
Local Open Scope string_scope.
Local Open Scope list_scope.
Local Open Scope Z_scope.

Section exposure.
Context {D : Type} `{AnalysisLaws D}.

(** ** Exposure *)
(** An open position of the report: its notional [r.1], positive, with its sign [r.2] *)
Definition open_row (p : PositionRiskAnalysis) (r : D * D) : Prop :=
  pra_position_notional_usd p = dtext r.1 ∧ pra_signed_notional_usd p = dtext r.2 ∧ (0 < val r.1)%Q
  ∧ r.2 = match pra_direction p with DirLong => r.1 | DirShort => dec_neg r.1 end.
(** The share of a position in the gross exposure *)
Definition share (p : PositionRiskAnalysis) : Prop :=
  ∃ q : D, pra_gross_concentration_ratio p = dtext q ∧ (0 <= val q)%Q.

Record scanned (s : ExposureScan D) (rows : list (D * D)) : Prop := {
  sc_rows : Forall2 open_row (map pw_output (es_work s)) rows;
  sc_notionals : map pw_notional (es_work s) = map fst rows;
  sc_gross : ksum (E:=AnalysisError) (map fst rows) = Ok (es_gross s);
  sc_net : ksum (E:=AnalysisError) (map snd rows) = Ok (es_net s);
}.
(** A position counts unless it is empty. *)
Definition is_open (p : AccountPositionState) : bool :=
  match dec_from_str (D:=D) (aps_position p) with Some x => negb (dec_eqb x dec_zero) | None => true end.
Lemma exposure_step_scanned mode s rows p s' :
  scanned s rows → exposure_step mode s p = Ok s' →
  ∃ rows', scanned s' rows' ∧ map (λ w, pra_instrument_id (pw_output w)) (es_work s')
    = map (λ w, pra_instrument_id (pw_output w)) (es_work s) ++ map aps_instrument_id (List.filter is_open [p]).
Proof.
  intros [Hr Hn Hg Hs] E. unfold exposure_step in E. apply bind_ok in E as (size & Esz%decimal_ok & E).
  assert (Hopen : is_open p = negb (dec_eqb size dec_zero)) by (unfold is_open; by rewrite Esz).
  simpl. rewrite Hopen. destruct (dec_eqb size dec_zero); simpl.
  { injection E as <-. exists rows. split; [by split|by rewrite app_nil_r]. }
  cbv zeta in E. destruct (negb _); [done|]. apply bind_ok in E as (dir & _ & E). apply bind_ok in E as (nt & _ & E).
  apply bind_ok in E as (n & En%positive_ok & E). destruct En as [_ Hpos].
  apply bind_ok in E as (g & Eg%or_panic_ok & E). apply bind_ok in E as (net & Enet%or_panic_ok & E).
  do 7 (apply bind_ok in E as (? & _ & E)). injection E as <-. simpl.
  set (signed := match dir with DirLong => n | DirShort => dec_neg n end) in *.
  exists (rows ++ [(n, signed)]). split; [split; simpl|].
  - rewrite map_app. apply Forall2_app; [done|]. constructor; [|constructor]. by repeat split.
  - by rewrite !map_app, Hn.
  - rewrite map_app. simpl. by eapply ksum_last.
  - rewrite map_app. simpl. by eapply ksum_last.
  - by rewrite map_app.
Qed.

Lemma net_at_most_gross rows :
  (∀ r, r ∈ rows → ∃ p, open_row p r) → (Qabs (qsum_of (map snd rows)) <= qsum_of (map fst rows))%Q.
Proof.
  induction rows as [|r rows IH]; intros Hr; simpl; [done|].
  eapply Qle_trans; [apply Qabs_triangle|]. apply Qplus_le_compat; [|apply IH; intros; apply Hr; by right].
  destruct (Hr r ltac:(left)) as (p & _ & _ & Hpos & ->).
  destruct (pra_direction p); [rewrite Qabs_pos; lra|]. rewrite neg_exact, Qabs_opp, Qabs_pos; lra.
Qed.
Lemma concentrated gross (w : PositionWork D) p :
  (0 < val (pw_notional w))%Q → concentration gross w = Ok p →
  share p ∧ p = with_concentration (pra_gross_concentration_ratio p) (pw_output w).
Proof.
  unfold concentration. intros Hw E. destruct (dec_ltb dec_zero gross) eqn:Eg.
  - apply bind_ok in E as (q & Eq%or_panic_ok & E). injection E as <-. split; [|done]. exists q. split; [done|].
    apply dec_ltb_val in Eg. rewrite val_zero in Eg. eapply div_nonneg; [exact Eq|lra|done].
  - injection E as <-. split; [|done]. exists dec_zero. simpl. split; [|rewrite val_zero; lra].
    symmetry. apply zero_text. apply val_zero.
Qed.

(** The report of an account counts exactly its open positions, in order, each with a
    positive notional and the sign of its direction.  The gross exposure is the sum of the
    notionals and the net exposure the sum of the signed ones; when no sum is rounded, the
    net exposure is at most the gross one on either side.  Shares are not negative. *)
Theorem exposure_totals account a :
  analyze_account_risk (D:=D) account = Ok a →
  ∃ rows (gross net : D),
    Forall2 open_row (ara_positions a) rows
    ∧ map pra_instrument_id (ara_positions a) = map aps_instrument_id (List.filter is_open (acs_positions account))
    ∧ ara_open_position_count a = length rows
    ∧ ara_gross_position_notional_usd a = dtext gross ∧ ksum (E:=AnalysisError) (map fst rows) = Ok gross
    ∧ ara_directional_net_position_notional_usd a = dtext net ∧ ksum (E:=AnalysisError) (map snd rows) = Ok net
    ∧ (sums_ok dec_zero (map fst rows) → sums_ok dec_zero (map snd rows) →
       (val gross == qsum_of (map fst rows))%Q ∧ (Qabs (val net) <= val gross)%Q)
    ∧ Forall share (ara_positions a).
Proof.
  unfold analyze_account_risk. intros E. destruct (negb _); [done|]. cbv zeta in E. destruct (negb _); [done|].
  do 6 (apply bind_ok in E as (? & _ & E)). apply bind_ok in E as (s & Es & E). apply bind_ok in E as (ps & Eps & E).
  do 2 (apply bind_ok in E as (? & _ & E)). injection E as <-. simpl.
  apply (try_fold_track (λ pre s, ∃ rows, scanned s rows ∧ map (λ w, pra_instrument_id (pw_output w)) (es_work s)
           = map aps_instrument_id (List.filter is_open pre))) with (pre := []) in Es.
  2:{ intros pre s0 p s' (rows & Hs & Hm) E1. destruct (exposure_step_scanned _ _ _ _ _ Hs E1) as (rows' & Hs' & Hm').
      exists rows'. split; [done|]. by rewrite List.filter_app, map_app, Hm', Hm. }
  2:{ exists []. split; [|done]. split; [constructor|done|done|done]. }
  destruct Es as (rows & [Hr Hn Hg Hnet] & Hm). exists rows, (es_gross s), (es_net s).
  assert (Hps : Forall2 (λ w p, share p ∧ p = with_concentration (pra_gross_concentration_ratio p) (pw_output w)) (es_work s) ps).
  { apply try_map_Forall2 in Eps. clear -Eps Hr Hn H4.
    revert rows Hr Hn. induction Eps as [|w p ws ps Hw Hps IH]; intros rows Hr Hn; [constructor|].
    destruct rows as [|r rows]; [done|]. simpl in Hn. injection Hn as Hn1 Hn2. inversion Hr as [|? ? ? ? Hx Hxs]; subst.
    constructor; [|by eapply IH]. eapply concentrated; [|exact Hw]. rewrite Hn1. by destruct Hx as (_ & _ & ? & _). }
  assert (Hrows : Forall2 open_row ps rows).
  { clear -Hps Hr. revert rows Hr. induction Hps as [|w p ws ps [_ Hp] Hps IH]; intros rows Hr; simpl in Hr.
    - inversion Hr; subst. constructor.
    - inversion Hr as [|? r ? rows' Hx Hxs]; subst. constructor; [|by apply IH]. rewrite Hp. exact Hx. }
  split; [done|]. split.
  { rewrite app_nil_l in Hm. rewrite <- Hm. clear -Hps. induction Hps as [|w p ws ps [_ Hp] Hps IH]; simpl; [done|]. rewrite IH. f_equal. by rewrite Hp. }
  split; [by eapply Forall2_length|]. do 4 (split; [done|]). split.
  - intros S1 S2. pose proof (ksum_val _ _ Hg S1) as Vg. split; [done|]. rewrite (ksum_val _ _ Hnet S2), Vg.
    apply net_at_most_gross. intros r Hin. apply list_elem_of_lookup in Hin as [i Hi].
    destruct (Forall2_lookup_r _ _ _ _ _ Hrows Hi) as (p & _ & Hp). by exists p.
  - clear -Hps. induction Hps as [|w p ws ps [Hs _] Hps IH]; constructor; auto.
Qed.
End exposure.

Section conservative.
Context {D : Type} `{AnalysisLaws D}.

(** ** The second reading *)
(** A position after the comparison: empty and untouched, or matched by a reading of the
    same lot with the same contracts, with the larger of both notionals *)
Definition bounded_by (oracle : list PositionOracleEvidence) (p q : AccountPositionState) : Prop :=
  ∃ contracts : D, dec_from_str (aps_position p) = Some contracts ∧
  ((val contracts == 0)%Q ∧ q = p
   ∨ ∃ row other local_text local reading larger : _,
       ¬ (val contracts == 0)%Q ∧ row ∈ oracle ∧ oracle_key row = lot_key p
       ∧ dec_from_str (poe_contracts row) = Some (other : D) ∧ (val contracts == val other)%Q
       ∧ aps_notional_usd p = Some local_text ∧ dec_from_str local_text = Some (local : D)
       ∧ dec_from_str (poe_notional_usd row) = Some (reading : D) ∧ (0 <= val local)%Q ∧ (0 <= val reading)%Q
       ∧ (larger = local ∨ larger = reading) ∧ (val local <= val larger)%Q ∧ (val reading <= val larger)%Q
       ∧ q = with_notional (dtext larger) p).

Definition observed_from (rows : list PositionOracleEvidence) (m : Observed D) : Prop :=
  osorted m
  ∧ (∀ k c usd, oget m k = Some (c, usd) → ∃ row, row ∈ rows ∧ oracle_key row = k
       ∧ dec_from_str (poe_contracts row) = Some c ∧ ¬ (val c == 0)%Q ∧ poe_notional_usd row = usd)
  ∧ (∀ row c, row ∈ rows → dec_from_str (poe_contracts row) = Some (c : D) → ¬ (val c == 0)%Q →
       oget m (oracle_key row) = Some (c, poe_notional_usd row)).
Lemma observe_from rows m row m' :
  observed_from rows m → observe_oracle m row = Ok m' → observed_from (rows ++ [row]) m'.
Proof.
  intros (Hs & Hm & Hr) E. unfold observe_oracle in E. apply bind_ok in E as (c & Ec%ok_or_ok & E).
  destruct (dec_eqb c dec_zero) eqn:Ez.
  - injection E as <-. apply dec_eqb_val in Ez. rewrite val_zero in Ez. split; [done|]. split.
    + intros k c' usd Ek. destruct (Hm k c' usd Ek) as (r & ? & ?). exists r. split; [by apply elem_of_app; left|done].
    + intros r c' [Hin| ->%list_elem_of_singleton]%elem_of_app Ec' Hnz; [by apply Hr|]. congruence.
  - destruct (_ || _); [done|]. destruct (oget m (oracle_key row)) eqn:Eo; [done|]. injection E as <-.
    assert (Hz : ¬ (val c == 0)%Q).
    { intros Hz. assert (dec_eqb c dec_zero = true) by (apply dec_eqb_val; by rewrite val_zero). congruence. }
    split; [by apply oinsert_sorted|]. split.
    + intros k c' usd Ek. destruct (decide (k = oracle_key row)) as [->|Hne].
      * rewrite oget_oinsert_eq in Ek by apply kcmp_refl. injection Ek as <- <-.
        exists row. split; [apply elem_of_app; right; left|done].
      * rewrite oget_oinsert_ne in Ek by (intros E%kcmp_eq; congruence).
        destruct (Hm k c' usd Ek) as (r & ? & ?). exists r. split; [by apply elem_of_app; left|done].
    + intros r c' [Hin| ->%list_elem_of_singleton]%elem_of_app Ec' Hnz.
      * rewrite oget_oinsert_ne; [by apply Hr|]. intros E%kcmp_eq. specialize (Hr r c' Hin Ec' Hnz). congruence.
      * rewrite oget_oinsert_eq by apply kcmp_refl. congruence.
Qed.

(** The readings not used up yet *)
Definition bounding (oracle : list PositionOracleEvidence) (all : Observed D) (pre : list AccountPositionState)
    (acc : Observed D * list AccountPositionState) : Prop :=
  Forall2 (bounded_by oracle) pre acc.2 ∧ osorted acc.1
  ∧ (∀ k x, oget acc.1 k = Some x → oget all k = Some x)
  ∧ (∀ k x, oget all k = Some x → oget acc.1 k = Some x ∨ k ∈ map lot_key pre).
Lemma bound_position_bounding oracle all pre acc p acc' :
  observed_from oracle all → bounding oracle all pre acc → bound_position acc p = Ok acc' →
  bounding oracle all (pre ++ [p]) acc'.
Proof.
  intros (_ & Hall & _) (Hf & Hs & Hsub & Hcov) E. unfold bound_position in E. destruct acc as [m qs]. simpl in *.
  apply bind_ok in E as (c & Ec%ok_or_ok & E). destruct (dec_eqb c dec_zero) eqn:Ez.
  - injection E as <-. simpl. split; [|split; [done|split; [done|]]].
    + apply Forall2_app; [done|]. constructor; [|constructor]. exists c. split; [done|left].
      apply dec_eqb_val in Ez. by rewrite val_zero in Ez.
    + intros k x Ek. destruct (Hcov k x Ek); [by left|right]. rewrite map_app. apply elem_of_app. by left.
  - destruct (oget m (lot_key p)) as [[c' usd]|] eqn:Eo; [|done]. destruct (dec_eqb c c') eqn:Ecc; [|done]. simpl in E.
    apply bind_ok in E as (lt & Elt%ok_or_ok & E). apply bind_ok in E as (l & El%ok_or_ok & E).
    apply bind_ok in E as (o & Eor%ok_or_ok & E). destruct (_ || _) eqn:Eneg; [done|]. injection E as <-. simpl.
    split; [|split; [by apply oremove_sorted|split]].
    + apply Forall2_app; [done|]. constructor; [|constructor]. exists c. split; [done|right].
      destruct (Hall (lot_key p) c' usd (Hsub _ _ Eo)) as (row & Hrow & Hk & Ec' & _ & <-).
      exists row, c', lt, l, o, (dec_max l o). apply dec_eqb_val in Ecc. reflect_decs. rewrite val_zero in *.
      destruct (dec_max_val l o) as [M1 M2]. repeat (split; [done|]).
      split; [|repeat (split; [done|]); split; [unfold dec_max; destruct (dec_leb l o); auto|done]].
      intros Hz. assert (dec_eqb c dec_zero = true) by (apply dec_eqb_val; by rewrite val_zero). congruence.
    + cbn [fst snd]. intros k x Ek. destruct (decide (k = lot_key p)) as [->|Hne].
      * by rewrite oget_oremove_eq in Ek by (try done; apply kcmp_refl).
      * rewrite oget_oremove_ne in Ek; [by apply Hsub|done|intros E%kcmp_eq; congruence].
    + cbn [fst snd]. intros k x Ek. rewrite map_app. destruct (decide (k = lot_key p)) as [->|Hne].
      * right. apply elem_of_app. right. by left.
      * destruct (Hcov k x Ek); [left|right; apply elem_of_app; by left].
        rewrite oget_oremove_ne; [done|done|intros E%kcmp_eq; congruence].
Qed.

(** The equity after the comparison *)
Definition equity_bounded (oracle : option string) (b b' : AccountBalanceState) : Prop :=
  match oracle with
  | None => b' = b
  | Some v => if is_blank v then b' = b else
      ∃ (reading total bounded adjusted : D),
        dec_from_str v = Some reading ∧ (0 <= val reading)%Q ∧ dec_from_str (abs_total_equity_usd b) = Some total
        ∧ b' = with_equity_bound (dtext bounded) (dtext adjusted) b
        ∧ (val bounded <= val total)%Q ∧ (val bounded <= val reading)%Q ∧ (val adjusted <= val reading)%Q
        ∧ (∀ t, abs_adjusted_equity_usd b = Some t → ∃ local : D, dec_from_str t = Some local ∧ (val adjusted <= val local)%Q)
  end.
Lemma bound_equity_bounded oracle b b' : bound_equity (D:=D) oracle b = Ok b' → equity_bounded oracle b b'.
Proof.
  unfold bound_equity, equity_bounded. destruct oracle as [v|]; [|congruence]. destruct (is_blank v); [congruence|].
  intros E. apply bind_ok in E as (o & Eo%ok_or_ok & E). destruct (dec_ltb o dec_zero) eqn:Eneg; [done|].
  apply bind_ok in E as (t & Et%ok_or_ok & E). apply bind_ok in E as (a & Ea & E). injection E as <-.
  apply dec_ltb_false in Eneg. rewrite val_zero in Eneg. destruct (dec_min_val t o) as [M1 M2].
  exists o, t, (dec_min t o), a. repeat (split; [done|]).
  destruct (abs_adjusted_equity_usd b) as [local|].
  - apply bind_ok in Ea as (l & El%ok_or_ok & [= <-]). destruct (dec_min_val l o) as [A1 A2].
    split; [done|]. intros ? [= <-]. by exists l.
  - injection Ea as <-. split; [lra|done].
Qed.

(** C17: The account bounded by the second reading of the exchange is never better than
    either reading.  Every open position is matched by a reading of the same lot with the
    same contracts and takes the larger notional, no open lot of the reading is left over,
    the equities are at most both readings, and nothing else of the account changes. *)
Theorem conservative_bounds account oracle equity b :
  conservative_account_with_position_oracle (D:=D) account oracle equity = Ok b →
  Forall2 (bounded_by oracle) (acs_positions account) (acs_positions b)
  ∧ (∀ row c, row ∈ oracle → dec_from_str (poe_contracts row) = Some (c : D) → ¬ (val c == 0)%Q →
       oracle_key row ∈ map lot_key (acs_positions account))
  ∧ equity_bounded equity (acs_balance account) (acs_balance b)
  ∧ b = with_bounds (acs_positions b) (acs_balance b) account.
Proof.
  unfold conservative_account_with_position_oracle. intros E. apply bind_ok in E as (all & Eall & E).
  apply (try_fold_track observed_from) with (pre := []) in Eall;
    [|intros ? ? ? ?; apply observe_from|split; [constructor|split; [done|by intros ? ? ?%elem_of_nil]]].
  apply bind_ok in E as (acc & Eacc & E).
  apply (try_fold_track (bounding oracle all)) with (pre := []) in Eacc;
    [|intros ? ? ? ?; by apply bound_position_bounding
     |split; [constructor|split; [by destruct Eall|split; [done|by intros; left]]]].
  destruct Eacc as (Hf & _ & _ & Hcov). destruct acc as [m ps]. simpl in *. destruct m as [|x m]; [|done].
  apply bind_ok in E as (bal & Ebal%bound_equity_bounded & E). injection E as <-. simpl.
  split; [done|]. split; [|done]. intros row c Hin Ec Hnz. destruct Eall as (_ & _ & Hr).
  destruct (Hcov _ _ (Hr row c Hin Ec Hnz)); done.
Qed.
End conservative.
