(* ===== verification/RiskDemo.v ===== *)
(** * RiskDemo: a small account under a mandate and a policy

    An account of 500 dollars with one long swap of 100 dollars, a mandate, a hard policy,
    the proof of a strategy and a candidate order, at which the theorems on risk apply. *)
From stdpp Require Import base option list numbers strings.
From Stdlib Require Import ZArith QArith Qabs Lia Lqa Ascii.
From S2P Require Import Prelude Text Ordered External Decimals Lots MoneyText Faults Wire Account AccountLedger Analysis RiskAnalysis RiskGates RiskSafety RiskBounds AccountLedgerFacts.
Local Open Scope string_scope.
Local Open Scope list_scope.
Local Open Scope Z_scope.

Module RiskDemo.
Definition position : AccountPositionState := {|
  aps_instrument_type := "SWAP"; aps_instrument_id := "BTC-USDT-SWAP"; aps_position := "2"; aps_position_side := "net";
  aps_margin_mode := "cross"; aps_average_price := Some "50"; aps_mark_price := Some "50";
  aps_liquidation_price := Some "20"; aps_unrealized_pnl := Some "0"; aps_unrealized_pnl_ratio := None;
  aps_leverage := Some "2"; aps_margin := None; aps_initial_margin_requirement := Some "50";
  aps_maintenance_margin_requirement := Some "5"; aps_margin_ratio := None; aps_notional_usd := Some "100";
  aps_margin_currency := Some "USDT"; aps_creation_time_ms := None; aps_update_time_ms := None |}.
Definition balance : AccountBalanceState := {|
  abs_total_equity_usd := "500"; abs_adjusted_equity_usd := Some "490"; abs_isolated_equity_usd := None;
  abs_initial_margin_requirement_usd := Some "50"; abs_maintenance_margin_requirement_usd := Some "5";
  abs_margin_ratio := Some "10"; abs_notional_usd := Some "100"; abs_update_time_ms := None; abs_details := [] |}.
Definition account : AccountSnapshot := with_bounds [position] balance Demo.account.
Definition mandate : TradingMandate := {|
  tm_schema := "m"; tm_version := "m1"; tm_capital_base_usd := "500"; tm_decision_horizon_hours := 24;
  tm_benchmark := None; tm_allowed_instruments := []; tm_max_drawdown_ratio := "0.2"; tm_leverage_ceiling := "3";
  tm_minimum_liquidity_notional_usd := "0"; tm_max_turnover_ratio := "10" |}.
Definition policy : HardRiskPolicy := {|
  hrp_schema := "p"; hrp_version := "p1"; hrp_max_account_gross_notional_usd := "400";
  hrp_max_instrument_gross_notional_usd := "300"; hrp_max_margin_utilization_ratio := "0.5";
  hrp_max_loss_per_trade_usd := "10"; hrp_max_daily_realized_loss_usd := "20"; hrp_max_drawdown_ratio := "0.1";
  hrp_max_leverage := "3"; hrp_allowed_instruments := ["BTC-USDT-SWAP"]; hrp_minimum_quality := QualityFresh;
  hrp_degraded_mode := RejectDegraded;
  hrp_correlated_clusters := [{| ccl_id := "majors"; ccl_instruments := ["BTC-USDT-SWAP"; "ETH-USDT-SWAP"];
                                 ccl_max_gross_notional_usd := "350" |}] |}.
Definition candidate : PortfolioCandidate := {|
  pc_instrument := "BTC-USDT-SWAP"; pc_direction := DirLong; pc_notional_usd := "100"; pc_worst_case_loss_usd := "5";
  pc_leverage := "2" |}.
Definition nav : StrategyNavRiskEvidence := {|
  sne_run_id := "run"; sne_mandate_version := "m1"; sne_allocation_usdt := "500"; sne_nav_usdt := "500";
  sne_high_water_usdt := "500"; sne_daily_realized_loss_usdt := "0" |}.
Definition analysis (nav : option StrategyNavRiskEvidence) : analyzed PortfolioRiskAnalysis :=
  analyze_portfolio_risk_with_strategy_nav (D:=Fixed.t) account (alf_summary Demo.facts) mandate policy (Some candidate) true nav.
Definition accepted : PortfolioRiskAnalysis.
Proof. let r := eval vm_compute in (analysis (Some nav)) in match r with Ok ?a => exact a end. Defined.
Lemma accepted_ok : analysis (Some nav) = Ok accepted.
Proof. vm_compute. reflexivity. Qed.
Definition unproven : PortfolioRiskAnalysis.
Proof. let r := eval vm_compute in (analysis None) in match r with Ok ?a => exact a end. Defined.
Lemma unproven_ok : analysis None = Ok unproven.
Proof. vm_compute. reflexivity. Qed.

Definition figures : AccountRiskAnalysis := pfa_account accepted.
Lemma figures_ok : analyze_account_risk (D:=Fixed.t) account = Ok figures.
Proof. vm_compute. reflexivity. Qed.

Definition reading : PositionOracleEvidence := {|
  poe_instrument_type := "SWAP"; poe_instrument_id := "BTC-USDT-SWAP"; poe_position_side := "net";
  poe_margin_mode := "cross"; poe_contracts := "2"; poe_notional_usd := "101" |}.
Definition bounded : AccountSnapshot.
Proof.
  let r := eval vm_compute in (conservative_account_with_position_oracle (D:=Fixed.t) account [reading] (Some "480")) in
  match r with Ok ?a => exact a end.
Defined.
Lemma bounded_ok : conservative_account_with_position_oracle (D:=Fixed.t) account [reading] (Some "480") = Ok bounded.
Proof. vm_compute. reflexivity. Qed.
End RiskDemo.

(** The demo's drawdown is none, its margin a tenth and its exposure a fifth of the equity;
    the loss of the day is the fee and nothing else. *)
Example demo_risk_figures :
  pfa_margin_utilization_ratio RiskDemo.accepted = Some "0.1"
  ∧ ara_gross_exposure_to_equity_ratio (pfa_account RiskDemo.accepted) = Some "0.2"
  ∧ pfa_violations RiskDemo.accepted = []
  ∧ map vi_code (pfa_violations RiskDemo.unproven) = ["STRATEGY_NAV_UNATTESTED"]
  ∧ map aps_notional_usd (acs_positions RiskDemo.bounded) = [Some "101"]
  ∧ abs_total_equity_usd (acs_balance RiskDemo.bounded) = "480".
Proof. done. Qed.

Lemma accepted_within_limits_witness :
  portfolio_within (D:=Fixed.t) RiskDemo.account RiskDemo.mandate RiskDemo.policy (Some RiskDemo.candidate) true
    (Some RiskDemo.nav) RiskDemo.accepted.
Proof.
  pose proof RiskDemo.accepted_ok as E. unfold RiskDemo.analysis in E.
  exact (accepted_within_limits _ _ _ _ _ _ _ _ E eq_refl).
Defined.

Lemma unproven_candidate_rejected_witness :
  pfa_policy_decision RiskDemo.unproven = RiskRejected ∧ pfa_violations RiskDemo.unproven ≠ [].
Proof.
  pose proof RiskDemo.unproven_ok as E. unfold RiskDemo.analysis in E.
  refine (unproven_candidate_rejected _ _ _ _ _ _ _ _ E _).
  intros cap d l (proof & ? & ? & ? & ? & E1 & _). discriminate E1.
Defined.

Lemma durable_stop_of_account_witness :
  ∃ r0, analyze_portfolio_risk (D:=Fixed.t) RiskDemo.account (alf_summary Demo.facts) RiskDemo.mandate RiskDemo.policy None true = Ok r0
    ∧ durable_account_stop_reason (pfa_violations r0) true = None.
Proof.
  pose proof RiskDemo.accepted_ok as E0. unfold RiskDemo.analysis in E0.
  destruct (durable_stop_of_account _ _ _ _ _ _ _ _ E0) as (r0 & E & Hr).
  exists r0. split; [exact E|]. rewrite <- (Hr true). reflexivity.
Defined.

Lemma exposure_totals_witness :
  ∃ rows (gross net : Fixed.t),
    Forall2 open_row (ara_positions RiskDemo.figures) rows ∧ "100" = dtext gross
    ∧ ksum (E:=AnalysisError) (map fst rows) = Ok gross ∧ length rows = 1%nat.
Proof.
  destruct (exposure_totals (D:=Fixed.t) _ _ RiskDemo.figures_ok) as (rows & g & n & Hr & _ & Hl & Hg & Hs & _).
  exists rows, g, n. split; [exact Hr|]. split; [exact Hg|]. split; [exact Hs|]. symmetry. exact Hl.
Defined.

Lemma conservative_bounds_witness :
  Forall2 (bounded_by (D:=Fixed.t) [RiskDemo.reading]) (acs_positions RiskDemo.account) (acs_positions RiskDemo.bounded)
  ∧ equity_bounded (D:=Fixed.t) (Some "480") (acs_balance RiskDemo.account) (acs_balance RiskDemo.bounded).
Proof.
  destruct (conservative_bounds (D:=Fixed.t) _ _ _ _ RiskDemo.bounded_ok) as (Hp & _ & He & _). split; assumption.
Defined.
