(* ===== verification/Candidate.v ===== *)
(** * Candidate: the size, stop and target of a candidate order, [okx-analysis/src/candidate.rs]

    [analyze_candidate_order] takes the rules of a linear instrument, the exact fee schedule
    of the account and a request, sizes the order by the smaller of two caps, the notional
    and the loss at the stop, and derives the price at which the requested multiple of that
    loss is won.  The comparisons of [debug_assert!] are not in a release build and are not
    in the model. *)
From stdpp Require Import base option list numbers strings.
From Stdlib Require Import ZArith QArith Qround Qminmax Lia Lqa Ascii.
From S2P Require Import Prelude Text Ordered External Decimals Lots MoneyText Faults Reference TradeService Analysis.
Local Open Scope string_scope.
Local Open Scope list_scope.
Local Open Scope Z_scope.
Local Open Scope fault_scope.

Definition CANDIDATE_ORDER_ANALYSIS_SCHEMA_V1 : string := "okx.candidate-order-analysis/v1".

Record CandidateOrderAssumptions : Type := {
  coa_direction : PositionDirection;
  coa_entry_price : string;
  coa_stop_price : string;
  coa_max_settle_notional : string;
  coa_max_loss_settle : string;
  coa_target_rr : string;
  coa_entry_liquidity_role : LiquidityRole;
  coa_exit_liquidity_role : LiquidityRole;
}.

Inductive SizingConstraint : Type := SizedByNotional | SizedByRisk | SizedByBoth.

Record CandidateOrderAnalysis : Type := {
  cor_schema : string;
  cor_instrument_id : string;
  cor_reference_generation : string;
  cor_fee_generation : string;
  cor_settle_currency : string;
  cor_contract_value_currency : string;
  cor_direction : PositionDirection;
  cor_entry_liquidity_role : LiquidityRole;
  cor_exit_liquidity_role : LiquidityRole;
  cor_sizing_constraint : SizingConstraint;
  cor_requested_max_settle_notional : string;
  cor_requested_max_loss_settle : string;
  cor_requested_target_rr : string;
  cor_contracts : string;
  cor_lot_size : string;
  cor_min_size : string;
  cor_contract_value : string;
  cor_base_quantity : string;
  cor_entry_price : string;
  cor_stop_price : string;
  cor_target_price : string;
  cor_entry_settle_notional : string;
  cor_entry_trading_cost_settle : string;
  cor_stop_exit_settle_notional : string;
  cor_stop_exit_trading_cost_settle : string;
  cor_stop_gross_pnl_settle : string;
  cor_stop_net_pnl_settle : string;
  cor_stop_loss_settle : string;
  cor_target_exit_settle_notional : string;
  cor_target_exit_trading_cost_settle : string;
  cor_target_gross_pnl_settle : string;
  cor_target_net_pnl_settle : string;
  cor_actual_target_rr : string;
  cor_funding_included : bool;
}.

Section candidate.
Context {D : Type} `{DecimalAnalysis D}.

(** ** Formulas *)
Definition fee_rate (fees : FeeScheduleSnapshot) (role : LiquidityRole) : analyzed D :=
  decimal "fee_rate" (match role with Maker => fs_maker_rate fees | Taker => fs_taker_rate fees end).
Definition user_trading_cost (notional exchange_rate : D) : analyzed D :=
  cost ← notional *! exchange_rate; Ok (dec_neg cost).
Definition gross_pnl (direction : PositionDirection) (base_quantity entry_price exit_price : D) : analyzed D :=
  move ← match direction with
         | DirLong => exit_price -! entry_price
         | DirShort => entry_price -! exit_price
         end;
  base_quantity *! move.
Definition net_pnl_per_contract (direction : PositionDirection)
    (contract_value entry_price exit_price entry_rate exit_rate : D) : analyzed D :=
  gross ← gross_pnl direction contract_value entry_price exit_price;
  entry_notional ← contract_value *! entry_price;
  entry_cost ← user_trading_cost entry_notional entry_rate;
  exit_notional ← contract_value *! exit_price;
  exit_cost ← user_trading_cost exit_notional exit_rate;
  after_entry ← gross -! entry_cost;
  after_entry -! exit_cost.
Definition target_price_for_net_pnl (direction : PositionDirection)
    (contract_value entry_price entry_rate exit_rate target_net_per_contract : D) : analyzed D :=
  target_per_base ← target_net_per_contract /! contract_value;
  target ← match direction with
    | DirLong =>
      denominator ← dec_one +! exit_rate;
      if dec_leb denominator dec_zero then raise (AeInvalidFeeRate "exit_fee_rate") else
      kept ← dec_one -! entry_rate; entry ← entry_price *! kept; numerator ← target_per_base +! entry;
      numerator /! denominator
    | DirShort =>
      denominator ← dec_one -! exit_rate;
      if dec_leb denominator dec_zero then raise (AeInvalidFeeRate "exit_fee_rate") else
      kept ← dec_one +! entry_rate; entry ← entry_price *! kept; numerator ← entry -! target_per_base;
      numerator /! denominator
    end;
  if dec_leb target dec_zero then raise (AeInvalidTargetPrice "derived target") else Ok target.

Definition require_tick_aligned (field : string) (value tick_size : D) : analyzed unit :=
  rest ← value %! tick_size;
  if dec_eqb rest dec_zero then Ok tt else raise (AePriceNotTickAligned field (dtext value) (dtext tick_size)).
Definition require_stop_direction (instrument_id : string) (direction : PositionDirection) (entry stop : D) : analyzed unit :=
  if match direction with DirLong => dec_ltb stop entry | DirShort => dec_ltb entry stop end
  then Ok tt else raise (AeInvalidStopDirection instrument_id).
Definition require_target_direction (instrument_id : string) (direction : PositionDirection) (entry target : D) : analyzed unit :=
  if match direction with DirLong => dec_ltb entry target | DirShort => dec_ltb target entry end
  then Ok tt else raise (AeInvalidTargetDirection instrument_id).
Definition floor_to_increment (value increment : D) : analyzed D :=
  n ← value /! increment; dec_floor n *! increment.
Definition ceil_to_increment (value increment : D) : analyzed D :=
  n ← value /! increment; dec_ceil n *! increment.

(** ** The analysis *)
(** The smaller of the two caps, in contracts *)
Definition size_caps (max_settle_notional max_loss_settle entry_notional_per_contract stop_loss_per_contract : D)
    : analyzed (D * SizingConstraint) :=
  notional_cap ← max_settle_notional /! entry_notional_per_contract;
  risk_cap ← max_loss_settle /! stop_loss_per_contract;
  Ok (if dec_ltb notional_cap risk_cap then (notional_cap, SizedByNotional)
      else if dec_ltb risk_cap notional_cap then (risk_cap, SizedByRisk)
      else (notional_cap, SizedByBoth)).
(** The target on the tick grid, on the far side of the derived price *)
Definition target_on_tick (instrument_id : string) (direction : PositionDirection) (raw_target tick_size entry_price : D)
    : analyzed D :=
  target_price ← match direction with
                 | DirLong => ceil_to_increment raw_target tick_size
                 | DirShort => floor_to_increment raw_target tick_size
                 end;
  if dec_leb target_price dec_zero then raise (AeInvalidTargetPrice instrument_id) else
  _ ← require_target_direction instrument_id direction entry_price target_price;
  Ok target_price.

Definition analyze_candidate_values
    (instrument_id reference_generation fee_generation settle_currency contract_value_currency : string)
    (contract_value lot_size min_size tick_size entry_rate exit_rate : D) (assumptions : CandidateOrderAssumptions)
    : analyzed CandidateOrderAnalysis :=
  let direction := coa_direction assumptions in
  entry_price ← positive_decimal "entry_price" (coa_entry_price assumptions);
  stop_price ← positive_decimal "stop_price" (coa_stop_price assumptions);
  _ ← require_tick_aligned "entry_price" entry_price tick_size;
  _ ← require_tick_aligned "stop_price" stop_price tick_size;
  _ ← require_stop_direction instrument_id direction entry_price stop_price;
  max_settle_notional ← positive_decimal "max_settle_notional" (coa_max_settle_notional assumptions);
  max_loss_settle ← positive_decimal "max_loss_settle" (coa_max_loss_settle assumptions);
  requested_rr ← positive_decimal "target_rr" (coa_target_rr assumptions);
  entry_notional_per_contract ← contract_value *! entry_price;
  stop_net_per_contract ← net_pnl_per_contract direction contract_value entry_price stop_price entry_rate exit_rate;
  if dec_leb dec_zero stop_net_per_contract then raise (AeStopDoesNotLose instrument_id) else
  let stop_loss_per_contract := dec_neg stop_net_per_contract in
  sized ← size_caps max_settle_notional max_loss_settle entry_notional_per_contract stop_loss_per_contract;
  contracts ← floor_to_increment sized.1 lot_size;
  if dec_ltb contracts min_size
  then raise (AeCandidateBelowMinimumSize instrument_id (dtext contracts) (dtext min_size)) else
  target_net_per_contract ← stop_loss_per_contract *! requested_rr;
  raw_target ← target_price_for_net_pnl direction contract_value entry_price entry_rate exit_rate target_net_per_contract;
  target_price ← target_on_tick instrument_id direction raw_target tick_size entry_price;
  base_quantity ← contracts *! contract_value;
  entry_settle_notional ← base_quantity *! entry_price;
  stop_exit_settle_notional ← base_quantity *! stop_price;
  target_exit_settle_notional ← base_quantity *! target_price;
  entry_cost ← user_trading_cost entry_settle_notional entry_rate;
  stop_exit_cost ← user_trading_cost stop_exit_settle_notional exit_rate;
  target_exit_cost ← user_trading_cost target_exit_settle_notional exit_rate;
  stop_gross_pnl ← gross_pnl direction base_quantity entry_price stop_price;
  stop_after_entry ← stop_gross_pnl -! entry_cost;
  stop_net_pnl ← stop_after_entry -! stop_exit_cost;
  if dec_leb dec_zero stop_net_pnl then raise (AeStopDoesNotLose instrument_id) else
  let stop_loss := dec_neg stop_net_pnl in
  target_gross_pnl ← gross_pnl direction base_quantity entry_price target_price;
  target_after_entry ← target_gross_pnl -! entry_cost;
  target_net_pnl ← target_after_entry -! target_exit_cost;
  if dec_leb target_net_pnl dec_zero then raise (AeTargetDoesNotProfit instrument_id) else
  actual_rr ← target_net_pnl /! stop_loss;
  Ok {| cor_schema := CANDIDATE_ORDER_ANALYSIS_SCHEMA_V1;
        cor_instrument_id := instrument_id;
        cor_reference_generation := reference_generation;
        cor_fee_generation := fee_generation;
        cor_settle_currency := settle_currency;
        cor_contract_value_currency := contract_value_currency;
        cor_direction := direction;
        cor_entry_liquidity_role := coa_entry_liquidity_role assumptions;
        cor_exit_liquidity_role := coa_exit_liquidity_role assumptions;
        cor_sizing_constraint := sized.2;
        cor_requested_max_settle_notional := dtext max_settle_notional;
        cor_requested_max_loss_settle := dtext max_loss_settle;
        cor_requested_target_rr := dtext requested_rr;
        cor_contracts := dtext contracts;
        cor_lot_size := dtext lot_size;
        cor_min_size := dtext min_size;
        cor_contract_value := dtext contract_value;
        cor_base_quantity := dtext base_quantity;
        cor_entry_price := dtext entry_price;
        cor_stop_price := dtext stop_price;
        cor_target_price := dtext target_price;
        cor_entry_settle_notional := dtext entry_settle_notional;
        cor_entry_trading_cost_settle := dtext entry_cost;
        cor_stop_exit_settle_notional := dtext stop_exit_settle_notional;
        cor_stop_exit_trading_cost_settle := dtext stop_exit_cost;
        cor_stop_gross_pnl_settle := dtext stop_gross_pnl;
        cor_stop_net_pnl_settle := dtext stop_net_pnl;
        cor_stop_loss_settle := dtext stop_loss;
        cor_target_exit_settle_notional := dtext target_exit_settle_notional;
        cor_target_exit_trading_cost_settle := dtext target_exit_cost;
        cor_target_gross_pnl_settle := dtext target_gross_pnl;
        cor_target_net_pnl_settle := dtext target_net_pnl;
        cor_actual_target_rr := dtext actual_rr;
        cor_funding_included := false |}.

(** The checks a candidate and a scenario make of the rules and the fees: the currencies
    of settlement and of the contract, and the value of a contract *)
Definition linear_terms (rules : InstrumentRulesSnapshot) (fees : FeeScheduleSnapshot) : analyzed (string * string * D) :=
  let instrument := irs_instrument rules in
  if negb (is_instrument_id instrument =? fs_instrument_id fees)%string then raise AeInstrumentMismatch else
  if negb (irs_reference_generation rules =? fs_reference_generation fees)%string
  then raise AeReferenceGenerationMismatch else
  if negb (fs_exact_for_instrument fees) then raise AeFeeScheduleNotExact else
  if negb (bool_decide (is_contract_type instrument = Some "linear"))
  then raise (AeUnsupportedContractMechanics (default "<missing>" (is_contract_type instrument))) else
  settle ← ok_or (Raised AeMissingSettlementCurrency) (is_settle_currency instrument ≫= non_blank);
  contract_currency ← ok_or (Raised AeMissingContractValueCurrency) (is_contract_value_currency instrument ≫= non_blank);
  value_text ← ok_or (Raised (AeUnsupportedContractMechanics "missing ctVal")) (is_contract_value instrument);
  contract_value ← positive_decimal "contract_value" value_text;
  Ok (settle, contract_currency, contract_value).

Definition analyze_candidate_order (rules : InstrumentRulesSnapshot) (fees : FeeScheduleSnapshot)
    (assumptions : CandidateOrderAssumptions) : analyzed CandidateOrderAnalysis :=
  let instrument := irs_instrument rules in
  terms ← linear_terms rules fees;
  let '(settle, contract_currency, contract_value) := terms in
  lot_size ← positive_decimal "lot_size" (is_lot_size instrument);
  min_size ← positive_decimal "min_size" (is_min_size instrument);
  tick_size ← positive_decimal "tick_size" (is_tick_size instrument);
  entry_rate ← fee_rate fees (coa_entry_liquidity_role assumptions);
  exit_rate ← fee_rate fees (coa_exit_liquidity_role assumptions);
  analyze_candidate_values (is_instrument_id instrument) (irs_reference_generation rules) (fs_fee_generation fees)
    settle contract_currency contract_value lot_size min_size tick_size entry_rate exit_rate assumptions.
End candidate.

(** ** What an accepted candidate is *)
Section laws.
Context {D : Type} `{AnalysisLaws D, !DivisionLaws D}.

(** The profit of a quantity [b] from [entry] to [exit], fees of both ends included (the
    exchange counts a fee that is paid as a negative rate) *)
Definition move_at (direction : PositionDirection) (entry exit : Q) : Q :=
  match direction with DirLong => exit - entry | DirShort => entry - exit end.
Definition net_at (direction : PositionDirection) (b entry exit re rx : Q) : Q :=
  b * move_at direction entry exit + b * entry * re + b * exit * rx.
(** The intermediate values of the formula: when they are decimals nothing is rounded. *)
Definition terms_at (direction : PositionDirection) (b entry exit re rx : Q) : list Q :=
  let move := move_at direction entry exit in
  [move; b * move; b * entry; b * exit; b * entry * re; b * exit * rx;
   b * move + b * entry * re; net_at direction b entry exit re rx]%Q.
Definition move_of (direction : PositionDirection) (entry exit : D) : Q :=
  match direction with DirLong => val exit - val entry | DirShort => val entry - val exit end.
Definition net_value (direction : PositionDirection) (b entry exit re rx : D) : Q :=
  val b * move_of direction entry exit + val b * val entry * val re + val b * val exit * val rx.
Definition net_terms (direction : PositionDirection) (b entry exit re rx : D) : list Q :=
  terms_at direction (val b) (val entry) (val exit) (val re) (val rx).
Definition multiple_of (unit x : D) : Prop := ∃ k : Z, (val x == inject_Z k * val unit)%Q.

Lemma gross_pnl_val direction b entry exit g :
  gross_pnl direction b entry exit = Ok g →
  representable (move_of direction entry exit) → representable (val b * move_of direction entry exit)%Q →
  (val g == val b * move_of direction entry exit)%Q.
Proof.
  unfold gross_pnl. intros E Hm Hg. apply bind_ok in E as (m & Em & E%or_panic_ok).
  assert (Hv : (val m == move_of direction entry exit)%Q).
  { destruct direction; apply or_panic_ok in Em; by apply (sub_exact _ _ _ Em). }
  rewrite (mul_exact _ _ _ E); [by rewrite Hv|]. eapply representable_proper; [|exact Hg]. by rewrite Hv.
Qed.
Lemma cost_val n r c (a : Q) : user_trading_cost n r = Ok c → (val n == a)%Q → representable (a * val r)%Q →
  (val c == - (a * val r))%Q.
Proof.
  unfold user_trading_cost. intros E Hn Hr. apply bind_ok in E as (x & Ex%or_panic_ok & [= <-]).
  by rewrite neg_exact, (mul_eq _ _ _ _ _ Ex Hn (Qeq_refl _) Hr).
Qed.
Lemma net_val direction b entry exit re rx g n1 c1 n2 c2 a n :
  gross_pnl direction b entry exit = Ok g → checked_mul b entry = Some n1 → user_trading_cost n1 re = Ok c1 →
  checked_mul b exit = Some n2 → user_trading_cost n2 rx = Ok c2 → checked_sub g c1 = Some a → checked_sub a c2 = Some n →
  Forall representable (net_terms direction b entry exit re rx) → (val n == net_value direction b entry exit re rx)%Q.
Proof.
  intros Eg E1 C1 E2 C2 Ea En Hr. unfold net_terms, terms_at, net_at in Hr. cbv zeta in Hr.
  change (move_at direction (val entry) (val exit)) with (move_of direction entry exit) in Hr. rewrite !Forall_cons in Hr. destruct Hr as (R1 & R2 & R3 & R4 & R5 & R6 & R7 & R8 & _).
  pose proof (gross_pnl_val _ _ _ _ _ Eg R1 R2) as Vg. pose proof (mul_exact _ _ _ E1 R3) as V1.
  pose proof (mul_exact _ _ _ E2 R4) as V2. pose proof (cost_val _ _ _ _ C1 V1 R5) as W1. pose proof (cost_val _ _ _ _ C2 V2 R6) as W2.
  assert (Va : (val a == val b * move_of direction entry exit + val b * val entry * val re)%Q).
  { rewrite (sub_eq _ _ _ _ _ Ea Vg W1); [ring|]. eapply representable_proper; [|exact R7]. ring. }
  rewrite (sub_eq _ _ _ _ _ En Va W2); [unfold net_value; ring|].
  eapply representable_proper; [|exact R8]. ring.
Qed.

Lemma tick_aligned field v tick u : require_tick_aligned field v tick = Ok u → (0 < val tick)%Q → multiple_of tick v.
Proof.
  unfold require_tick_aligned. intros E Ht. apply bind_ok in E as (r & Er%or_panic_ok & E).
  destruct (dec_eqb r dec_zero) eqn:Ez; [|done]. apply dec_eqb_val in Ez. rewrite val_zero in Ez.
  by apply (rem_zero _ _ _ Er Ht).
Qed.
Lemma floor_increment (P : Q → Prop) v inc x X : floor_to_increment v inc = Ok x →
  (0 < val inc)%Q → (∀ q, P q → follows q X v) → clear_above P (val inc) X → (val x == units_below (val inc) X)%Q.
Proof.
  unfold floor_to_increment. intros E Hi HP Hc. apply bind_ok in E as (q & Eq%or_panic_ok & E%or_panic_ok).
  by apply (floor_units P inc v q).
Qed.
Lemma ceil_increment (P : Q → Prop) v inc x X : ceil_to_increment v inc = Ok x →
  (0 < val inc)%Q → (∀ q, P q → follows q X v) → clear_below P (val inc) X → (val x == units_above (val inc) X)%Q.
Proof.
  unfold ceil_to_increment. intros E Hi HP Hc. apply bind_ok in E as (q & Eq%or_panic_ok & E%or_panic_ok).
  by apply (ceil_units P inc v q).
Qed.

(** The cap is on the side of a number where the smaller exact cap is. *)
Lemma size_caps_follow q mn ml pn pl cap c : size_caps mn ml pn pl = Ok (cap, c) →
  (0 < val pn)%Q → (0 < val pl)%Q → short q → follows q (Qmin (val mn / val pn) (val ml / val pl)) cap.
Proof.
  unfold size_caps. intros E Hp Hl Hq. apply bind_ok in E as (qn & En%or_panic_ok & E).
  apply bind_ok in E as (qr & Er%or_panic_ok & E). injection E as E.
  destruct (follows_quotient _ _ _ _ En Hp Hq) as [F1 F2]. destruct (follows_quotient _ _ _ _ Er Hl Hq) as [G1 G2].
  assert (Hc : (val cap <= val qn)%Q ∧ (val cap <= val qr)%Q ∧ (cap = qn ∨ cap = qr)).
  { destruct (dec_ltb qn qr) eqn:E1; [|destruct (dec_ltb qr qn) eqn:E2]; injection E as <- <-;
      rewrite ?dec_ltb_val, ?dec_ltb_false in *; (split; [lra|]; split; [lra|]); auto. }
  destruct Hc as (C1 & C2 & Hc). pose proof (Q.min_spec (val mn / val pn) (val ml / val pl)) as Hm.
  split; intros Hle.
  - assert (q <= val qn)%Q by (apply F1; lra). assert (q <= val qr)%Q by (apply G1; lra). by destruct Hc as [->| ->].
  - destruct Hm as [[_ Hm]|[_ Hm]]; rewrite Hm in Hle; [specialize (F2 Hle)|specialize (G2 Hle)]; lra.
Qed.
(** The order of the prices of a sound candidate *)
Definition ordered_prices (direction : PositionDirection) (entry stop target : D) : Prop :=
  match direction with
  | DirLong => (val stop < val entry < val target)%Q
  | DirShort => (val target < val entry < val stop)%Q
  end.
Lemma target_on_tick_ok id direction raw tick entry t : target_on_tick id direction raw tick entry = Ok t →
  (0 < val t)%Q ∧ match direction with DirLong => (val entry < val t)%Q | DirShort => (val t < val entry)%Q end
  ∧ match direction with DirLong => ceil_to_increment raw tick | DirShort => floor_to_increment raw tick end = Ok t.
Proof.
  unfold target_on_tick, require_target_direction. intros E. apply bind_ok in E as (x & Ex & E).
  destruct (dec_leb x dec_zero) eqn:Ez; [done|]. apply dec_leb_false in Ez. rewrite val_zero in Ez.
  apply bind_ok in E as (? & Ed & [= <-]). split; [done|].
  by destruct direction; [destruct (dec_ltb entry x) eqn:Eo|destruct (dec_ltb x entry) eqn:Eo]; try done;
    apply dec_ltb_val in Eo.
Qed.

(** The decimals behind a report: those read from the rules, the fees and the request, and
    those reported *)
Record CandidateFigures : Type := {
  cf_value : D; cf_lot : D; cf_minimum : D; cf_tick : D; cf_entry_rate : D; cf_exit_rate : D;
  cf_entry : D; cf_stop : D; cf_max_notional : D; cf_max_loss : D; cf_rr : D;
  cf_target : D; cf_contracts : D; cf_notional : D; cf_loss : D; cf_profit : D;
}.

(** ** What the inputs determine *)
Section exact.
Variables (direction : PositionDirection) (f : CandidateFigures).
Definition net_of (b exit : Q) : Q :=
  net_at direction b (val (cf_entry f)) exit (val (cf_entry_rate f)) (val (cf_exit_rate f)).
Definition terms_of (b exit : Q) : list Q :=
  terms_at direction b (val (cf_entry f)) exit (val (cf_entry_rate f)) (val (cf_exit_rate f)).
(** The notional and the loss at the stop of one contract *)
Definition notional_rate : Q := val (cf_value f) * val (cf_entry f).
Definition loss_rate : Q := - net_of (val (cf_value f)) (val (cf_stop f)).
(** The contracts that both caps pay for, and the whole lots below *)
Definition room : Q := Qmin (val (cf_max_notional f) / notional_rate) (val (cf_max_loss f) / loss_rate).
Definition lots_below : Q := units_below (val (cf_lot f)) room.
(** What is left of a move at the exit, of the entry price at the entry; the price at which
    one contract wins the multiple of its loss; the tick on its far side *)
Definition exit_part : Q := match direction with DirLong => 1 + val (cf_exit_rate f) | DirShort => 1 - val (cf_exit_rate f) end.
Definition entry_part : Q := match direction with DirLong => 1 - val (cf_entry_rate f) | DirShort => 1 + val (cf_entry_rate f) end.
Definition win_per_base : Q := loss_rate * val (cf_rr f) / val (cf_value f).
Definition goal_numerator : Q :=
  match direction with
  | DirLong => win_per_base + val (cf_entry f) * entry_part
  | DirShort => val (cf_entry f) * entry_part - win_per_base
  end.
Definition goal_price : Q := goal_numerator / exit_part.
Definition goal_tick : Q :=
  match direction with
  | DirLong => units_above (val (cf_tick f)) goal_price
  | DirShort => units_below (val (cf_tick f)) goal_price
  end.
(** The inputs have few enough digits: no product or sum of the formulas is rounded, and no
    quotient is within its rounding of the next lot or tick. *)
Definition candidate_clear : Prop :=
  Forall representable (terms_of (val (cf_value f)) (val (cf_stop f)))
  ∧ Forall representable (terms_of (lots_below * val (cf_value f)) (val (cf_stop f)))
  ∧ Forall representable (terms_of (lots_below * val (cf_value f)) goal_tick)
  ∧ Forall representable [lots_below * val (cf_value f); loss_rate * val (cf_rr f); exit_part; entry_part;
                          val (cf_entry f) * entry_part; goal_numerator]%Q
  ∧ short win_per_base
  ∧ clear_above short (val (cf_lot f)) room
  ∧ match direction with
    | DirLong => clear_below short (val (cf_tick f)) goal_price
    | DirShort => clear_above short (val (cf_tick f)) goal_price
    end.
(** The price one tick nearer to the entry *)
Definition nearer (target : Q) : Q :=
  match direction with DirLong => target - val (cf_tick f) | DirShort => target + val (cf_tick f) end.

(** The size is the largest within the caps, the target the nearest that wins enough. *)
Record candidate_exact : Prop := {
  ce_lots : ∃ k : Z, (val (cf_contracts f) == inject_Z k * val (cf_lot f))%Q;
  ce_notional : (val (cf_notional f) == val (cf_contracts f) * notional_rate)%Q;
  ce_loss : (val (cf_loss f) == val (cf_contracts f) * loss_rate)%Q;
  ce_caps : (val (cf_notional f) <= val (cf_max_notional f))%Q ∧ (val (cf_loss f) <= val (cf_max_loss f))%Q;
  ce_largest : let more := (val (cf_contracts f) + val (cf_lot f))%Q in
    (val (cf_max_notional f) < more * notional_rate)%Q ∨ (val (cf_max_loss f) < more * loss_rate)%Q;
  ce_tick : ∃ k : Z, (val (cf_target f) == inject_Z k * val (cf_tick f))%Q;
  ce_profit : (val (cf_profit f) == net_of (val (cf_contracts f) * val (cf_value f)) (val (cf_target f)))%Q;
  ce_wins : (val (cf_rr f) * val (cf_loss f) <= val (cf_profit f))%Q;
  ce_nearest : (net_of (val (cf_contracts f) * val (cf_value f)) (nearer (val (cf_target f)))
                < val (cf_rr f) * val (cf_loss f))%Q;
}.
End exact.

Lemma net_per_contract_val direction cv entry exit re rx n :
  net_pnl_per_contract direction cv entry exit re rx = Ok n →
  Forall representable (net_terms direction cv entry exit re rx) → (val n == net_value direction cv entry exit re rx)%Q.
Proof.
  unfold net_pnl_per_contract. intros E. apply bind_ok in E as (g & Eg & E).
  apply bind_ok in E as (n1 & E1%or_panic_ok & E). apply bind_ok in E as (c1 & C1 & E).
  apply bind_ok in E as (n2 & E2%or_panic_ok & E). apply bind_ok in E as (c2 & C2 & E).
  apply bind_ok in E as (x & Ea%or_panic_ok & En%or_panic_ok). by eapply net_val.
Qed.
Lemma sides direction (entry stop target : D) id u :
  require_stop_direction id direction entry stop = Ok u →
  match direction with DirLong => (val entry < val target)%Q | DirShort => (val target < val entry)%Q end →
  ordered_prices direction entry stop target.
Proof.
  unfold require_stop_direction. destruct direction; [destruct (dec_ltb stop entry) eqn:E|destruct (dec_ltb entry stop) eqn:E];
    try done; apply dec_ltb_val in E; intros _ Ht; simpl; lra.
Qed.

(** The steps of a net result, [b] bought or sold at [entry] and closed at [exit] *)
Definition net_run (direction : PositionDirection) (b entry exit re rx n : D) : Prop :=
  ∃ g e ec x xc after, gross_pnl direction b entry exit = Ok g ∧ checked_mul b entry = Some e ∧ user_trading_cost e re = Ok ec
    ∧ checked_mul b exit = Some x ∧ user_trading_cost x rx = Ok xc ∧ checked_sub g ec = Some after ∧ checked_sub after xc = Some n.
Lemma terms_at_proper direction (b b' e x x' re rx : Q) : (b == b')%Q → (x == x')%Q →
  Forall representable (terms_at direction b e x re rx) → Forall representable (terms_at direction b' e x' re rx).
Proof.
  intros Hb Hx. unfold terms_at, net_at. cbv zeta. rewrite !Forall_cons.
  assert (Hm : (move_at direction e x == move_at direction e x')%Q) by (destruct direction; simpl; lra).
  intros (R1 & R2 & R3 & R4 & R5 & R6 & R7 & R8 & R9).
  split_and!; [apply (representable_proper _ _ Hm R1)|eapply representable_proper, R2|eapply representable_proper, R3
    |eapply representable_proper, R4|eapply representable_proper, R5|eapply representable_proper, R6
    |eapply representable_proper, R7|eapply representable_proper, R8|done]; rewrite ?Hm, ?Hb, ?Hx; reflexivity.
Qed.
Lemma net_run_val direction b entry exit re rx n (qb qx : Q) :
  net_run direction b entry exit re rx n → (qb == val b)%Q → (qx == val exit)%Q →
  Forall representable (terms_at direction qb (val entry) qx (val re) (val rx)) →
  (val n == net_at direction qb (val entry) qx (val re) (val rx))%Q.
Proof.
  intros (g & e & ec & x & xc & after & H1' & H2' & H3' & H4' & H5' & H6' & H7') Hb Hx R.
  pose proof (net_val direction b entry exit re rx g e ec x xc after n H1' H2' H3' H4' H5' H6' H7'
    (terms_at_proper _ _ _ _ _ _ _ _ Hb Hx R)) as V.
  unfold net_value, net_at in *. rewrite V, Hb. destruct direction; simpl; rewrite Hx; reflexivity.
Qed.

(** The steps of an accepted candidate *)
Definition candidate_run (id : string) (direction : PositionDirection) (f : CandidateFigures) : Prop :=
  ∃ n1 n2 pn cap sc tn raw b,
    checked_mul (cf_value f) (cf_entry f) = Some pn
    ∧ net_pnl_per_contract direction (cf_value f) (cf_entry f) (cf_stop f) (cf_entry_rate f) (cf_exit_rate f) = Ok n1
    ∧ (val n1 < 0)%Q
    ∧ size_caps (cf_max_notional f) (cf_max_loss f) pn (dec_neg n1) = Ok (cap, sc)
    ∧ floor_to_increment cap (cf_lot f) = Ok (cf_contracts f)
    ∧ checked_mul (dec_neg n1) (cf_rr f) = Some tn
    ∧ target_price_for_net_pnl direction (cf_value f) (cf_entry f) (cf_entry_rate f) (cf_exit_rate f) tn = Ok raw
    ∧ target_on_tick id direction raw (cf_tick f) (cf_entry f) = Ok (cf_target f)
    ∧ checked_mul (cf_contracts f) (cf_value f) = Some b
    ∧ checked_mul b (cf_entry f) = Some (cf_notional f)
    ∧ net_run direction b (cf_entry f) (cf_stop f) (cf_entry_rate f) (cf_exit_rate f) n2
    ∧ cf_loss f = dec_neg n2
    ∧ net_run direction b (cf_entry f) (cf_target f) (cf_entry_rate f) (cf_exit_rate f) (cf_profit f).
Definition inputs_positive (f : CandidateFigures) : Prop :=
  (0 < val (cf_value f) ∧ 0 < val (cf_lot f) ∧ 0 < val (cf_minimum f) ∧ 0 < val (cf_tick f) ∧ 0 < val (cf_entry f))%Q.

(** The net of whole contracts, from the net at the stop and at the goal *)
Lemma stop_scaled direction f n :
  (net_of direction f (n * val (cf_value f)) (val (cf_stop f)) == - (n * loss_rate direction f))%Q.
Proof. unfold loss_rate, net_of, net_at. ring. Qed.
Lemma goal_scaled direction f n x : (0 < val (cf_value f))%Q → (0 < exit_part direction f)%Q →
  (net_of direction f (n * val (cf_value f)) x ==
   val (cf_rr f) * (n * loss_rate direction f)
   + n * val (cf_value f) * exit_part direction f * move_at direction (goal_price direction f) x)%Q.
Proof.
  intros Hc He. unfold net_of, net_at, goal_price, goal_numerator, win_per_base, entry_part, exit_part in *.
  by destruct direction; simpl; field; split; lra.
Qed.

Lemma raw_target_follows direction f q tn raw :
  target_price_for_net_pnl direction (cf_value f) (cf_entry f) (cf_entry_rate f) (cf_exit_rate f) tn = Ok raw →
  (val tn == loss_rate direction f * val (cf_rr f))%Q → (0 < val (cf_value f))%Q →
  Forall representable [exit_part direction f; entry_part direction f;
                        val (cf_entry f) * entry_part direction f; goal_numerator direction f]%Q →
  short (win_per_base direction f) → (0 < exit_part direction f)%Q ∧ (short q → follows q (goal_price direction f) raw).
Proof.
  unfold target_price_for_net_pnl, goal_price, goal_numerator, exit_part, entry_part.
  intros E Ht Hc. rewrite !Forall_cons. intros (R1 & R2 & R3 & R4 & _) Hs.
  apply bind_ok in E as (per & Eper%or_panic_ok & E). apply bind_ok in E as (t & E & Et).
  assert (Vper : (val per == win_per_base direction f)%Q).
  { unfold win_per_base. rewrite <- Ht. apply (div_short _ _ _ Eper Hc). eapply short_proper; [|exact Hs].
    unfold win_per_base. by rewrite Ht. }
  destruct (dec_leb t dec_zero); [done|]. injection Et as ->.
  destruct direction;
    (apply bind_ok in E as (den & Eden%or_panic_ok & E); destruct (dec_leb den dec_zero) eqn:Ed; [done|];
     apply dec_leb_false in Ed; rewrite val_zero in Ed;
     apply bind_ok in E as (kept & Ek%or_panic_ok & E); apply bind_ok in E as (en & Een%or_panic_ok & E);
     apply bind_ok in E as (num & Enum%or_panic_ok & E%or_panic_ok)).
  - pose proof (add_eq _ _ _ _ _ Eden val_one (Qeq_refl _) R1) as Vd. pose proof (sub_eq _ _ _ _ _ Ek val_one (Qeq_refl _) R2) as Vk.
    pose proof (mul_eq _ _ _ _ _ Een (Qeq_refl _) Vk R3) as Ve. pose proof (add_eq _ _ _ _ _ Enum Vper Ve R4) as Vn.
    split; [lra|]. intros Hq. apply follows_proper with (val num / val den)%Q; [by rewrite Vn, Vd|]. by apply follows_quotient.
  - pose proof (sub_eq _ _ _ _ _ Eden val_one (Qeq_refl _) R1) as Vd. pose proof (add_eq _ _ _ _ _ Ek val_one (Qeq_refl _) R2) as Vk.
    pose proof (mul_eq _ _ _ _ _ Een (Qeq_refl _) Vk R3) as Ve. pose proof (sub_eq _ _ _ _ _ Enum Ve Vper R4) as Vn.
    split; [lra|]. intros Hq. apply follows_proper with (val num / val den)%Q; [by rewrite Vn, Vd|]. by apply follows_quotient.
Qed.

(** The caps, in contracts and in money *)
Lemma lots_within direction f (n lot : Q) : (0 < lot)%Q → (0 < notional_rate f)%Q → (0 < loss_rate direction f)%Q →
  (n == units_below lot (room direction f))%Q →
  (n * notional_rate f <= val (cf_max_notional f) ∧ n * loss_rate direction f <= val (cf_max_loss f)
   ∧ (val (cf_max_notional f) < (n + lot) * notional_rate f ∨ val (cf_max_loss f) < (n + lot) * loss_rate direction f))%Q.
Proof.
  intros Hlot Hp Hl Hn. destruct (units_below_bounds lot (room direction f) Hlot) as [B1 B2]. rewrite <- Hn in B1, B2.
  unfold room in B1, B2. set (X := (val (cf_max_notional f) / notional_rate f)%Q) in *.
  set (Y := (val (cf_max_loss f) / loss_rate direction f)%Q) in *.
  assert (HX : (X * notional_rate f == val (cf_max_notional f))%Q) by (unfold X; field; lra).
  assert (HY : (Y * loss_rate direction f == val (cf_max_loss f))%Q) by (unfold Y; field; lra).
  pose proof (Q.le_min_l X Y). pose proof (Q.le_min_r X Y). split_and!.
  - rewrite <- HX. apply Qmult_le_compat_r; lra.
  - rewrite <- HY. apply Qmult_le_compat_r; lra.
  - destruct (Q.min_spec X Y) as [[_ Hm]|[_ Hm]]; rewrite Hm in B2; [left; rewrite <- HX|right; rewrite <- HY];
      by apply Qmult_lt_compat_r.
Qed.
(** The target: enough at the tick, not enough one tick nearer *)
Lemma goal_reached direction f n t : (0 < val (cf_value f))%Q → (0 < exit_part direction f)%Q → (0 < n)%Q → (0 < val (cf_tick f))%Q →
  (t == goal_tick direction f)%Q →
  (val (cf_rr f) * (n * loss_rate direction f) <= net_of direction f (n * val (cf_value f)) t
   ∧ net_of direction f (n * val (cf_value f)) (nearer direction f t) < val (cf_rr f) * (n * loss_rate direction f))%Q.
Proof.
  intros Hc He Hn Ht Et. rewrite !goal_scaled by done.
  assert (Hk : (0 < n * val (cf_value f) * exit_part direction f)%Q) by (repeat apply Qmult_lt_0_compat; done).
  generalize dependent (n * val (cf_value f) * exit_part direction f)%Q. intros k Hk.
  assert (Hm : (0 <= move_at direction (goal_price direction f) t ∧ move_at direction (goal_price direction f) (nearer direction f t) < 0)%Q).
  { unfold goal_tick, nearer in *. destruct direction; simpl.
    - destruct (units_above_bounds _ (goal_price DirLong f) Ht). lra.
    - destruct (units_below_bounds _ (goal_price DirShort f) Ht). lra. }
  destruct Hm as [M1 M2]. split; nra.
Qed.

(** The reported size and target of clear inputs *)
Lemma run_size id direction f :
  candidate_run id direction f → inputs_positive f → candidate_clear direction f →
  (0 < notional_rate f ∧ 0 < loss_rate direction f ∧ val (cf_contracts f) == lots_below direction f)%Q.
Proof.
  intros (n1 & n2 & pn & cap & sc & tn & raw & b & Epn & En1 & Z1 & Ecap & Ect & _)
    (Pc & Plot & _ & _ & Pe) (C1 & _ & _ & _ & _ & L1 & _).
  assert (V1 : (- val n1 == loss_rate direction f)%Q).
  { rewrite (net_per_contract_val _ _ _ _ _ _ _ En1 C1). unfold loss_rate, net_of, net_value, net_at. by destruct direction. }
  assert (Vp : (val pn == notional_rate f)%Q).
  { apply (mul_exact _ _ _ Epn). unfold terms_of, terms_at in C1. cbv zeta in C1. rewrite !Forall_cons in C1. apply C1. }
  assert (Pp : (0 < notional_rate f)%Q) by by apply Qmult_lt_0_compat.
  assert (Vl : (val (dec_neg n1) == loss_rate direction f)%Q) by by rewrite neg_exact.
  split; [done|]. split; [lra|].
  apply (floor_increment short _ _ _ _ Ect Plot); [|exact L1]. intros q Hq.
  eapply follows_proper; [|apply (size_caps_follow q _ _ _ _ _ _ Ecap); [lra|lra|done]]. unfold room. by rewrite Vp, Vl.
Qed.
Lemma run_target id direction f :
  candidate_run id direction f → inputs_positive f → candidate_clear direction f →
  (0 < exit_part direction f ∧ val (cf_target f) == goal_tick direction f)%Q.
Proof.
  intros (n1 & n2 & pn & cap & sc & tn & raw & b & _ & En1 & _ & _ & _ & Etn & Eraw & Etp & _)
    (Pc & _ & _ & Ptick & _) (C1 & _ & _ & C4 & S1 & _ & L2).
  rewrite !Forall_cons in C4. destruct C4 as (_ & R2 & R3 & R4 & R5 & R6 & _).
  assert (Vl : (val (dec_neg n1) == loss_rate direction f)%Q).
  { rewrite neg_exact, (net_per_contract_val _ _ _ _ _ _ _ En1 C1). unfold loss_rate, net_of, net_value, net_at. by destruct direction. }
  assert (Vtn : (val tn == loss_rate direction f * val (cf_rr f))%Q) by (apply (mul_eq _ _ _ _ _ Etn Vl (Qeq_refl _) R2)).
  assert (Hraw : ∀ q, (0 < exit_part direction f)%Q ∧ (short q → follows q (goal_price direction f) raw)).
  { intros q. apply (raw_target_follows _ _ _ _ _ Eraw Vtn Pc); [|done]. by repeat constructor. }
  pose proof (proj1 (Hraw 0%Q)) as He. apply target_on_tick_ok in Etp as (_ & _ & Et).
  split; [done|]. unfold goal_tick.
  destruct direction; [apply (ceil_increment short _ _ _ _ Et Ptick)|apply (floor_increment short _ _ _ _ Et Ptick)];
    try done; intros q; apply (proj2 (Hraw q)).
Qed.
Lemma run_exact id direction f :
  candidate_run id direction f → inputs_positive f → (0 < val (cf_contracts f))%Q → candidate_clear direction f →
  candidate_exact direction f.
Proof.
  intros Hrun Hin Pn Hc. destruct (run_size _ _ _ Hrun Hin Hc) as (Pp & Pl & Vct).
  destruct (run_target _ _ _ Hrun Hin Hc) as (He & Vt).
  destruct Hrun as (n1 & n2 & pn & cap & sc & tn & raw & b & _ & _ & _ & _ & _ & _ & _ & _ & Eb & Ene & Rs & El & Rt).
  destruct Hin as (Pc & Plot & _ & Ptick & Pe). destruct Hc as (C1 & C2 & C3 & C4 & _).
  unfold terms_of in *. rewrite !Forall_cons in C4. destruct C4 as (R1 & _).
  assert (Vb : (val b == lots_below direction f * val (cf_value f))%Q) by (apply (mul_eq _ _ _ _ _ Eb Vct (Qeq_refl _) R1)).
  assert (Vn2 := net_run_val _ _ _ _ _ _ _ _ _ Rs (Qeq_sym _ _ Vb) (Qeq_refl _) C2).
  assert (Vpr := net_run_val _ _ _ _ _ _ _ _ _ Rt (Qeq_sym _ _ Vb) (Qeq_sym _ _ Vt) C3).
  change (val n2 == net_of direction f (lots_below direction f * val (cf_value f)) (val (cf_stop f)))%Q in Vn2.
  change (val (cf_profit f) == net_of direction f (lots_below direction f * val (cf_value f)) (goal_tick direction f))%Q in Vpr.
  assert (Vne : (val (cf_notional f) == val (cf_contracts f) * notional_rate f)%Q).
  { unfold terms_at in C2. cbv zeta in C2. rewrite !Forall_cons in C2. destruct C2 as (_ & _ & C2 & _).
    rewrite (mul_eq _ _ _ _ _ Ene Vb (Qeq_refl _) C2), Vct. unfold notional_rate. ring. }
  assert (Vlo : (val (cf_loss f) == val (cf_contracts f) * loss_rate direction f)%Q)
    by (rewrite El, neg_exact, Vn2, stop_scaled, Vct; ring).
  assert (Vpr' : (val (cf_profit f) == net_of direction f (val (cf_contracts f) * val (cf_value f)) (val (cf_target f)))%Q)
    by (rewrite Vpr; unfold net_of, net_at; destruct direction; simpl; rewrite Vct, Vt; reflexivity).
  destruct (lots_within direction f _ _ Plot Pp Pl Vct) as (W1 & W2 & W3).
  destruct (goal_reached direction f _ _ Pc He Pn Ptick Vt) as [G1 G2].
  split; try done; rewrite ?Vne, ?Vlo, ?Vpr'; try done.
  - exists (Qfloor (room direction f / val (cf_lot f))). rewrite Vct. reflexivity.
  - unfold goal_tick, units_above, units_below in Vt. by destruct direction; eexists.
Qed.

(** What an accepted candidate is: [f] holds the decimals read and reported. *)
Record candidate_sound (rules : InstrumentRulesSnapshot) (fees : FeeScheduleSnapshot) (a : CandidateOrderAssumptions)
    (r : CandidateOrderAnalysis) (f : CandidateFigures) : Prop := {
  cs_rules : is_contract_value (irs_instrument rules) ≫= dec_from_str = Some (cf_value f)
    ∧ dec_from_str (is_lot_size (irs_instrument rules)) = Some (cf_lot f)
    ∧ dec_from_str (is_min_size (irs_instrument rules)) = Some (cf_minimum f)
    ∧ dec_from_str (is_tick_size (irs_instrument rules)) = Some (cf_tick f);
  cs_fees : fee_rate fees (coa_entry_liquidity_role a) = Ok (cf_entry_rate f)
    ∧ fee_rate fees (coa_exit_liquidity_role a) = Ok (cf_exit_rate f);
  cs_requested : dec_from_str (coa_entry_price a) = Some (cf_entry f) ∧ dec_from_str (coa_stop_price a) = Some (cf_stop f)
    ∧ dec_from_str (coa_max_settle_notional a) = Some (cf_max_notional f)
    ∧ dec_from_str (coa_max_loss_settle a) = Some (cf_max_loss f) ∧ dec_from_str (coa_target_rr a) = Some (cf_rr f);
  cs_reported : cor_contracts r = dtext (cf_contracts f) ∧ cor_target_price r = dtext (cf_target f)
    ∧ cor_entry_settle_notional r = dtext (cf_notional f) ∧ cor_stop_loss_settle r = dtext (cf_loss f)
    ∧ cor_target_net_pnl_settle r = dtext (cf_profit f);
  cs_inputs : inputs_positive f;
  cs_prices : ordered_prices (coa_direction a) (cf_entry f) (cf_stop f) (cf_target f);
  cs_ticks : multiple_of (cf_tick f) (cf_entry f) ∧ multiple_of (cf_tick f) (cf_stop f);
  cs_minimum : (val (cf_minimum f) <= val (cf_contracts f))%Q;
  cs_outcome : (0 < val (cf_loss f))%Q ∧ (0 < val (cf_profit f))%Q;
  cs_exact : candidate_clear (coa_direction a) f → candidate_exact (coa_direction a) f;
}.

Lemma candidate_values_sound id rg fg settle ccy cv lot minimum tick re rx rules fees a r :
  analyze_candidate_values (D:=D) id rg fg settle ccy cv lot minimum tick re rx a = Ok r →
  (0 < val cv ∧ 0 < val lot ∧ 0 < val minimum ∧ 0 < val tick)%Q →
  is_contract_value (irs_instrument rules) ≫= dec_from_str = Some cv →
  dec_from_str (is_lot_size (irs_instrument rules)) = Some lot →
  dec_from_str (is_min_size (irs_instrument rules)) = Some minimum →
  dec_from_str (is_tick_size (irs_instrument rules)) = Some tick →
  fee_rate fees (coa_entry_liquidity_role a) = Ok re → fee_rate fees (coa_exit_liquidity_role a) = Ok rx →
  ∃ f, candidate_sound rules fees a r f.
Proof.
  unfold analyze_candidate_values. cbv zeta. intros E (Hcv & Hlot & Hmin & Htick) Q1 Q2 Q3 Q4 Q5 Q6.
  apply bind_ok in E as (en & [Een Hen]%positive_ok & E). apply bind_ok in E as (st & [Est _]%positive_ok & E).
  apply bind_ok in E as (? & T1 & E). apply bind_ok in E as (? & T2 & E). apply bind_ok in E as (? & Hside & E).
  apply bind_ok in E as (mn & [Emn _]%positive_ok & E). apply bind_ok in E as (ml & [Eml _]%positive_ok & E).
  apply bind_ok in E as (rr & [Err _]%positive_ok & E).
  apply bind_ok in E as (pn & Epn%or_panic_ok & E). apply bind_ok in E as (n1 & En1 & E).
  destruct (dec_leb dec_zero n1) eqn:Z1; [done|]. apply bind_ok in E as ([cap sc] & Ecap & E). cbn [fst snd] in E.
  apply bind_ok in E as (ct & Ect & E). destruct (dec_ltb ct minimum) eqn:Zm; [done|].
  apply bind_ok in E as (tn & Etn%or_panic_ok & E). apply bind_ok in E as (raw & Eraw & E). apply bind_ok in E as (tp & Etp & E).
  apply bind_ok in E as (b & Eb%or_panic_ok & E). apply bind_ok in E as (ne & Ene%or_panic_ok & E).
  apply bind_ok in E as (ns & Ens%or_panic_ok & E). apply bind_ok in E as (nt & Ent%or_panic_ok & E).
  apply bind_ok in E as (ce & Ece & E). apply bind_ok in E as (cs & Ecs & E). apply bind_ok in E as (ctg & Ectg & E).
  apply bind_ok in E as (gs & Egs & E). apply bind_ok in E as (as_ & Eas%or_panic_ok & E).
  apply bind_ok in E as (n2 & En2%or_panic_ok & E). destruct (dec_leb dec_zero n2) eqn:Z2; [done|].
  apply bind_ok in E as (gt & Egt & E). apply bind_ok in E as (at_ & Eat%or_panic_ok & E).
  apply bind_ok in E as (pt & Ept%or_panic_ok & E). destruct (dec_leb pt dec_zero) eqn:Z3; [done|].
  apply bind_ok in E as (act & _ & E). injection E as <-.
  apply dec_leb_false in Z1, Z2, Z3. apply dec_ltb_false in Zm. rewrite val_zero in Z1, Z2, Z3.
  set (f := {| cf_value := cv; cf_lot := lot; cf_minimum := minimum; cf_tick := tick; cf_entry_rate := re; cf_exit_rate := rx;
     cf_entry := en; cf_stop := st; cf_max_notional := mn; cf_max_loss := ml; cf_rr := rr; cf_target := tp;
     cf_contracts := ct; cf_notional := ne; cf_loss := dec_neg n2; cf_profit := pt |}).
  assert (Hrun : candidate_run id (coa_direction a) f).
  { exists n1, n2, pn, cap, sc, tn, raw, b. do 11 (split; [done || by exists gs, ne, ce, ns, cs, as_|]).
    split; [done|]. by exists gt, ne, ce, nt, ctg, at_. }
  exists f. split; simpl; try done.
  - eapply sides; [done|]. by apply target_on_tick_ok in Etp as (_ & ? & _).
  - split; by eapply tick_aligned.
  - rewrite neg_exact. lra.
  - apply (run_exact id); [done|done|simpl; lra].
Qed.

(** C30: A candidate order that is accepted is sound: its prices are on the tick grid, the
    stop on the losing and the target on the winning side of the entry; its contracts are
    at least the minimum; it loses at its stop and wins at its target.  For inputs whose
    digits leave nothing to round ([candidate_clear]) its contracts are whole lots, its
    notional and its loss at the stop, fees included, are within what was requested while
    one lot more would exceed one of the two, and its target is the tick nearest to the
    entry at which it wins, fees included, the requested multiple of that loss. *)
Theorem candidate_order_sound rules fees a r :
  analyze_candidate_order (D:=D) rules fees a = Ok r → ∃ f, candidate_sound rules fees a r f.
Proof.
  unfold analyze_candidate_order, linear_terms. intros E. apply bind_ok in E as ([[settle ccy] cv] & Et & E).
  destruct (negb _); [done|]. destruct (negb _); [done|]. destruct (negb _); [done|]. destruct (negb _); [done|].
  apply bind_ok in Et as (? & _ & Et). apply bind_ok in Et as (? & _ & Et). apply bind_ok in Et as (vt & Evt%ok_or_ok & Et).
  apply bind_ok in Et as (v & Ev%positive_ok & Et). injection Et as -> -> ->. destruct Ev as [Ev Hv].
  apply bind_ok in E as (lot & [El Hl]%positive_ok & E). apply bind_ok in E as (mi & [Em Hm]%positive_ok & E).
  apply bind_ok in E as (ti & [Eti Hti]%positive_ok & E). apply bind_ok in E as (re & Ere & E). apply bind_ok in E as (rx & Erx & E).
  apply (candidate_values_sound _ _ _ _ _ _ _ _ _ _ _ rules fees) in E; [done|done| |done..]. by rewrite Evt.
Qed.
End laws.
