(* ===== verification/Scenario.v ===== *)
(** * Scenario: fee schedules, costs and the scenario of a position

    [FeeScheduleSnapshot::from_input] of [okx-observation/src/fee.rs], [analyze_cost] of
    [okx-analysis/src/lib.rs], and the scenario of a position from an entry to an exit of
    [okx-analysis/src/scenario.rs]: what the account pays for a trade, what funding costs,
    and the price at which a position breaks even. *)
From stdpp Require Import base option list numbers strings.
From Stdlib Require Import ZArith QArith Qround Lia Lqa Ascii.
From S2P Require Import Prelude Text Ordered External Decimals Lots MoneyText Faults Reference Market TradeService Analysis Candidate.
Local Open Scope string_scope.
Local Open Scope list_scope.
Local Open Scope Z_scope.
Local Open Scope fault_scope.

(** ** Fee schedules: [fee.rs] *)
Definition FEE_SCHEDULE_SCHEMA_V1 : string := "okx.fee-schedule/v1".
Record FeeScheduleInput : Type := {
  fsi_instrument_id : string;
  fsi_reference_generation : string;
  fsi_source_received_at : string;
  fsi_exchange_timestamp_ms : string;
  fsi_level : string;
  fsi_maker_rate : string;
  fsi_taker_rate : string;
  fsi_exact_for_instrument : bool;
}.
(** The digested part of a schedule *)
Definition FeeDigest : Type := (string * string * string * string * string * bool)%type.

Section fees.
Context `{Hashing} `{!Serialize FeeDigest}.
Inductive FeeScheduleError : Type := FeeMissing (field : string) | FeeSerialization (e : SerdeError).

Definition fee_digest (input : FeeScheduleInput) : FeeDigest :=
  (fsi_instrument_id input, fsi_reference_generation input, fsi_level input, fsi_maker_rate input,
   fsi_taker_rate input, fsi_exact_for_instrument input).
Definition require_field (u : unit) (named : string * string) : result FeeScheduleError unit :=
  if is_blank named.2 then Err (FeeMissing named.1) else Ok tt.
Definition fee_schedule_from_input (input : FeeScheduleInput) : result FeeScheduleError FeeScheduleSnapshot :=
  _ ← try_fold require_field tt
        [("instrument_id", fsi_instrument_id input); ("reference_generation", fsi_reference_generation input);
         ("source_received_at", fsi_source_received_at input); ("exchange_timestamp_ms", fsi_exchange_timestamp_ms input);
         ("maker_rate", fsi_maker_rate input); ("taker_rate", fsi_taker_rate input)];
  generation ← map_err FeeSerialization (digest_json (fee_digest input));
  Ok {| fs_schema := FEE_SCHEDULE_SCHEMA_V1;
        fs_instrument_id := fsi_instrument_id input;
        fs_reference_generation := fsi_reference_generation input;
        fs_source_received_at := fsi_source_received_at input;
        fs_exchange_timestamp_ms := fsi_exchange_timestamp_ms input;
        fs_level := fsi_level input;
        fs_maker_rate := fsi_maker_rate input;
        fs_taker_rate := fsi_taker_rate input;
        fs_exact_for_instrument := fsi_exact_for_instrument input;
        fs_fee_generation := generation |}.
End fees.

(** ** Costs: [analyze_cost] *)
Definition COST_ANALYSIS_SCHEMA_V1 : string := "okx.cost-analysis/v1".
Record FundingProjection : Type := {
  fp_exchange_rate : string;
  fp_user_cost_quote : string;
  fp_funding_time_ms : string;
  fp_next_funding_time_ms : string;
}.
Record CostAnalysis : Type := {
  ca_schema : string;
  ca_instrument_id : string;
  ca_reference_generation : string;
  ca_market_generation : string;
  ca_fee_generation : string;
  ca_contracts : string;
  ca_contract_value : string;
  ca_mark_price : string;
  ca_base_quantity : string;
  ca_quote_notional : string;
  ca_liquidity_role : LiquidityRole;
  ca_exchange_fee_rate : string;
  ca_user_trading_cost_quote : string;
  ca_funding : option FundingProjection;
}.

(** ** Scenarios: [scenario.rs] *)
Definition POSITION_SCENARIO_SCHEMA_V1 : string := "okx.position-scenario/v1".
Inductive ScenarioExitAssumption : Type := ExitPrice (price : string) | ExitEntryMoveRatio (ratio : string).
Record PositionScenarioAssumptions : Type := {
  psa_direction : PositionDirection;
  psa_contracts : string;
  psa_entry_price : string;
  psa_exit : ScenarioExitAssumption;
  psa_entry_liquidity_role : LiquidityRole;
  psa_exit_liquidity_role : LiquidityRole;
}.
Inductive ScenarioPriceSource : Type := SourceExplicitPrice | SourceEntryMoveRatio.
Record PositionScenarioAnalysis : Type := {
  psc_schema : string;
  psc_instrument_id : string;
  psc_reference_generation : string;
  psc_fee_generation : string;
  psc_settle_currency : string;
  psc_contract_value_currency : string;
  psc_direction : PositionDirection;
  psc_contracts : string;
  psc_contract_value : string;
  psc_base_quantity : string;
  psc_entry_price : string;
  psc_scenario_price_source : ScenarioPriceSource;
  psc_requested_move_ratio : option string;
  psc_exit_price : string;
  psc_exit_price_tick_aligned : bool;
  psc_price_move_ratio : string;
  psc_entry_liquidity_role : LiquidityRole;
  psc_exit_liquidity_role : LiquidityRole;
  psc_entry_exchange_fee_rate : string;
  psc_exit_exchange_fee_rate : string;
  psc_entry_settle_notional : string;
  psc_exit_settle_notional : string;
  psc_entry_trading_cost_settle : string;
  psc_exit_trading_cost_settle : string;
  psc_gross_pnl_settle : string;
  psc_net_pnl_settle : string;
  psc_net_pnl_ratio_on_entry_notional : string;
  psc_raw_break_even_price : string;
  psc_tick_break_even_price : string;
  psc_funding_included : bool;
}.
Record PositionScenarioMechanics : Type := {
  psm_settle_currency : string;
  psm_contract_value_currency : string;
  psm_contract_value : string;
  psm_tick_size : string;
  psm_entry_fee_rate : string;
  psm_exit_fee_rate : string;
}.

Section scenario.
Context {D : Type} `{DecimalAnalysis D}.

Definition funding_user_cost_quote (notional_quote funding_rate : string) (direction : PositionDirection) : analyzed string :=
  notional ← positive_decimal (D:=D) "funding_notional_quote" notional_quote;
  rate ← decimal "funding_rate" funding_rate;
  cost ← notional *! rate;
  Ok (dtext (match direction with DirLong => cost | DirShort => dec_neg cost end)).

(** What funding will cost, where the instrument has funding *)
Definition cost_funding (requirement : FundingRequirement) (funding : option FundingState) (quote_notional : D)
    (direction : PositionDirection) : analyzed (option FundingProjection) :=
  match requirement with
  | Required =>
    f ← ok_or (Raised AeMissingFunding) funding;
    cost ← funding_user_cost_quote (dtext quote_notional) (fs_rate f) direction;
    Ok (Some {| fp_exchange_rate := fs_rate f; fp_user_cost_quote := cost;
                fp_funding_time_ms := fs_funding_time_ms f; fp_next_funding_time_ms := fs_next_funding_time_ms f |})
  | NotApplicable => Ok None
  | Unknown => raise AeUnknownFundingSemantics
  end.

Definition analyze_cost (rules : InstrumentRulesSnapshot) (market : MarketSnapshot) (fees : FeeScheduleSnapshot)
    (contracts : string) (liquidity_role : LiquidityRole) (direction : PositionDirection) : analyzed CostAnalysis :=
  let instrument := irs_instrument rules in
  if negb (is_instrument_id instrument =? ms_instrument_id market)%string
     || negb (is_instrument_id instrument =? fs_instrument_id fees)%string
  then raise AeInstrumentMismatch else
  if negb (irs_reference_generation rules =? ms_reference_generation market)%string
     || negb (irs_reference_generation rules =? fs_reference_generation fees)%string
  then raise AeReferenceGenerationMismatch else
  if negb (fs_exact_for_instrument fees) then raise AeFeeScheduleNotExact else
  if negb (bool_decide (is_contract_type instrument = Some "linear"))
  then raise (AeUnsupportedContractMechanics (default "<missing>" (is_contract_type instrument))) else
  contracts ← positive_decimal "contracts" contracts;
  contract_value_text ← ok_or (Raised (AeUnsupportedContractMechanics "missing ctVal")) (is_contract_value instrument);
  contract_value ← positive_decimal (D:=D) "contract_value" contract_value_text;
  mark_price ← positive_decimal "mark_price" (mps_price (ms_mark_price market));
  base_quantity ← contracts *! contract_value;
  quote_notional ← base_quantity *! mark_price;
  rate ← fee_rate fees liquidity_role;
  trading_cost ← user_trading_cost quote_notional rate;
  funding ← cost_funding (is_funding_requirement instrument) (ms_funding market) quote_notional direction;
  Ok {| ca_schema := COST_ANALYSIS_SCHEMA_V1;
        ca_instrument_id := is_instrument_id instrument;
        ca_reference_generation := irs_reference_generation rules;
        ca_market_generation := ms_market_generation market;
        ca_fee_generation := fs_fee_generation fees;
        ca_contracts := dtext contracts;
        ca_contract_value := dtext contract_value;
        ca_mark_price := dtext mark_price;
        ca_base_quantity := dtext base_quantity;
        ca_quote_notional := dtext quote_notional;
        ca_liquidity_role := liquidity_role;
        ca_exchange_fee_rate := dtext rate;
        ca_user_trading_cost_quote := dtext trading_cost;
        ca_funding := funding |}.

(** The exit price of a scenario *)
Definition scenario_exit (exit : ScenarioExitAssumption) (entry_price : D)
    : analyzed (ScenarioPriceSource * option string * D) :=
  match exit with
  | ExitPrice price => p ← positive_decimal "exit_price" price; Ok (SourceExplicitPrice, None, p)
  | ExitEntryMoveRatio ratio =>
    r ← decimal "entry_move_ratio" ratio;
    if dec_leb r (dec_neg dec_one) then raise AeScenarioMoveAtOrBelowNegativeOne else
    factor ← dec_one +! r;
    exit_price ← entry_price *! factor;
    if dec_leb exit_price dec_zero then raise (AeNonPositive "exit_price")
    else Ok (SourceEntryMoveRatio, Some (dtext r), exit_price)
  end.

Definition analyze_position_scenario_values (instrument_id reference_generation fee_generation : string)
    (mechanics : PositionScenarioMechanics) (assumptions : PositionScenarioAssumptions) : analyzed PositionScenarioAnalysis :=
  let direction := psa_direction assumptions in
  if is_blank (psm_settle_currency mechanics) then raise AeMissingSettlementCurrency else
  if is_blank (psm_contract_value_currency mechanics) then raise AeMissingContractValueCurrency else
  contract_value ← positive_decimal (D:=D) "contract_value" (psm_contract_value mechanics);
  tick_size ← positive_decimal "tick_size" (psm_tick_size mechanics);
  entry_fee_rate ← decimal "entry_fee_rate" (psm_entry_fee_rate mechanics);
  exit_fee_rate ← decimal "exit_fee_rate" (psm_exit_fee_rate mechanics);
  contracts ← positive_decimal "contracts" (psa_contracts assumptions);
  entry_price ← positive_decimal "entry_price" (psa_entry_price assumptions);
  exit ← scenario_exit (psa_exit assumptions) entry_price;
  let '(source, requested, exit_price) := exit in
  base_quantity ← contracts *! contract_value;
  entry_notional ← base_quantity *! entry_price;
  exit_notional ← base_quantity *! exit_price;
  entry_cost ← user_trading_cost entry_notional entry_fee_rate;
  exit_cost ← user_trading_cost exit_notional exit_fee_rate;
  gross ← gross_pnl direction base_quantity entry_price exit_price;
  after_entry ← gross -! entry_cost;
  net ← after_entry -! exit_cost;
  net_ratio ← net /! entry_notional;
  exit_over_entry ← exit_price /! entry_price;
  move_ratio ← exit_over_entry -! dec_one;
  raw_break_even ← target_price_for_net_pnl direction contract_value entry_price entry_fee_rate exit_fee_rate dec_zero;
  tick_break_even ← match direction with
                    | DirLong => ceil_to_increment raw_break_even tick_size
                    | DirShort => floor_to_increment raw_break_even tick_size
                    end;
  if dec_leb tick_break_even dec_zero then raise (AeInvalidTargetPrice instrument_id) else
  rest ← exit_price %! tick_size;
  Ok {| psc_schema := POSITION_SCENARIO_SCHEMA_V1;
        psc_instrument_id := instrument_id;
        psc_reference_generation := reference_generation;
        psc_fee_generation := fee_generation;
        psc_settle_currency := psm_settle_currency mechanics;
        psc_contract_value_currency := psm_contract_value_currency mechanics;
        psc_direction := direction;
        psc_contracts := dtext contracts;
        psc_contract_value := dtext contract_value;
        psc_base_quantity := dtext base_quantity;
        psc_entry_price := dtext entry_price;
        psc_scenario_price_source := source;
        psc_requested_move_ratio := requested;
        psc_exit_price := dtext exit_price;
        psc_exit_price_tick_aligned := dec_eqb rest dec_zero;
        psc_price_move_ratio := dtext move_ratio;
        psc_entry_liquidity_role := psa_entry_liquidity_role assumptions;
        psc_exit_liquidity_role := psa_exit_liquidity_role assumptions;
        psc_entry_exchange_fee_rate := dtext entry_fee_rate;
        psc_exit_exchange_fee_rate := dtext exit_fee_rate;
        psc_entry_settle_notional := dtext entry_notional;
        psc_exit_settle_notional := dtext exit_notional;
        psc_entry_trading_cost_settle := dtext entry_cost;
        psc_exit_trading_cost_settle := dtext exit_cost;
        psc_gross_pnl_settle := dtext gross;
        psc_net_pnl_settle := dtext net;
        psc_net_pnl_ratio_on_entry_notional := dtext net_ratio;
        psc_raw_break_even_price := dtext raw_break_even;
        psc_tick_break_even_price := dtext tick_break_even;
        psc_funding_included := false |}.

Definition analyze_position_scenario (rules : InstrumentRulesSnapshot) (fees : FeeScheduleSnapshot)
    (assumptions : PositionScenarioAssumptions) : analyzed PositionScenarioAnalysis :=
  let instrument := irs_instrument rules in
  terms ← linear_terms (D:=D) rules fees;
  let '(settle, contract_currency, contract_value) := terms in
  tick_size ← positive_decimal (D:=D) "tick_size" (is_tick_size instrument);
  entry_fee_rate ← fee_rate (D:=D) fees (psa_entry_liquidity_role assumptions);
  exit_fee_rate ← fee_rate (D:=D) fees (psa_exit_liquidity_role assumptions);
  analyze_position_scenario_values (is_instrument_id instrument) (irs_reference_generation rules) (fs_fee_generation fees)
    {| psm_settle_currency := settle; psm_contract_value_currency := contract_currency;
       psm_contract_value := dtext contract_value; psm_tick_size := dtext tick_size;
       psm_entry_fee_rate := dtext entry_fee_rate; psm_exit_fee_rate := dtext exit_fee_rate |}
    assumptions.
End scenario.

(** ** The price at which a position breaks even *)
Section laws.
Context {D : Type} `{AnalysisLaws D}.

(** The share of the entry that has to come back, and of the exit that does *)
Definition entry_share (direction : PositionDirection) (re : D) : Q :=
  match direction with DirLong => 1 - val re | DirShort => 1 + val re end.
Definition exit_share (direction : PositionDirection) (rx : D) : Q :=
  match direction with DirLong => 1 + val rx | DirShort => 1 - val rx end.
Definition signed_net (direction : PositionDirection) (q : Q) : Q :=
  match direction with DirLong => q | DirShort => - q end.
(** No step of [target_price_for_net_pnl] rounds. *)
Definition target_exact (direction : PositionDirection) (cv entry re rx tn : D) : Prop :=
  representable (exit_share direction rx) ∧ representable (entry_share direction re)
  ∧ representable (val entry * entry_share direction re)%Q
  ∧ (∀ t, checked_div tn cv = Some t →
      (val t * val cv == val tn)%Q
      ∧ representable (match direction with DirLong => val t + val entry * entry_share direction re
                                          | DirShort => val entry * entry_share direction re - val t end)%Q)
  ∧ ∀ n d, (val d == exit_share direction rx)%Q → exact_quotient n d.

Lemma net_by_shares direction (cv entry exit re rx : D) :
  (net_value direction cv entry exit re rx ==
   val cv * signed_net direction (val exit * exit_share direction rx - val entry * entry_share direction re))%Q.
Proof. unfold net_value. destruct direction; simpl; ring. Qed.

Lemma target_price_val direction cv entry re rx tn p :
  target_price_for_net_pnl direction cv entry re rx tn = Ok p → target_exact direction cv entry re rx tn →
  (net_value direction cv entry p re rx == val tn)%Q ∧ (0 < exit_share direction rx)%Q ∧ (0 < val p)%Q.
Proof.
  unfold target_price_for_net_pnl. intros E (R1 & R2 & R3 & R4 & R5). apply bind_ok in E as (t & Et%or_panic_ok & E).
  apply bind_ok in E as (p' & Ep & E). destruct (dec_leb p' dec_zero) eqn:Zp; [done|]. injection E as ->.
  apply dec_leb_false in Zp. rewrite val_zero in Zp. destruct (R4 t Et) as [Vt R6].
  destruct direction; simpl in *; apply bind_ok in Ep as (d & Ed%or_panic_ok & Ep);
    destruct (dec_leb d dec_zero) eqn:Zd; try done; apply dec_leb_false in Zd; rewrite val_zero in Zd;
    apply bind_ok in Ep as (k & Ek%or_panic_ok & Ep); apply bind_ok in Ep as (e & Ee%or_panic_ok & Ep);
    apply bind_ok in Ep as (n & En%or_panic_ok & Ep%or_panic_ok).
  - pose proof (add_eq _ _ _ _ _ Ed val_one (Qeq_refl _) R1) as Vd.
    pose proof (sub_eq _ _ _ _ _ Ek val_one (Qeq_refl _) R2) as Vk.
    pose proof (mul_eq _ _ _ _ _ Ee (Qeq_refl _) Vk R3) as Ve. pose proof (add_eq _ _ _ _ _ En (Qeq_refl _) Ve R6) as Vn.
    pose proof (R5 n d Vd p Ep) as Vp. rewrite net_by_shares. simpl. rewrite <- Vd, Vp, Vn, <- Vt. split; [ring|done].
  - pose proof (sub_eq _ _ _ _ _ Ed val_one (Qeq_refl _) R1) as Vd.
    pose proof (add_eq _ _ _ _ _ Ek val_one (Qeq_refl _) R2) as Vk.
    pose proof (mul_eq _ _ _ _ _ Ee (Qeq_refl _) Vk R3) as Ve. pose proof (sub_eq _ _ _ _ _ En Ve (Qeq_refl _) R6) as Vn.
    pose proof (R5 n d Vd p Ep) as Vp. rewrite net_by_shares. simpl. rewrite <- Vd, Vp, Vn, <- Vt. split; [ring|done].
Qed.

(** [p] is not better for the position than [q]: it is reached later. *)
Definition beyond (direction : PositionDirection) (p q : Q) : Prop :=
  match direction with DirLong => (q <= p)%Q | DirShort => (p <= q)%Q end.
Lemma net_beyond direction (cv entry p q re rx : D) :
  (0 < val cv)%Q → (0 < exit_share direction rx)%Q → beyond direction (val p) (val q) →
  (net_value direction cv entry q re rx <= net_value direction cv entry p re rx)%Q.
Proof.
  intros Hc Hx Hb. rewrite !net_by_shares. destruct direction; simpl in *; rewrite !(Qmult_comm (val cv));
    apply Qmult_le_compat_r; try lra; nra.
Qed.
(** A price moved to the grid, away from the entry *)
Lemma on_grid direction (raw tick be : D) :
  match direction with DirLong => ceil_to_increment raw tick | DirShort => floor_to_increment raw tick end = Ok be →
  (0 < val tick)%Q →
  ∃ k : Z, representable (inject_Z k * val tick)%Q →
    (val be == inject_Z k * val tick)%Q ∧ (exact_quotient raw tick → beyond direction (val be) (val raw)).
Proof.
  intros E Ht. destruct direction.
  - unfold ceil_to_increment in E. apply bind_ok in E as (q & Eq%or_panic_ok & E%or_panic_ok).
    exists (Qceiling (val q)). intros Hr. pose proof (mul_eq _ _ _ _ _ E (ceil_exact q) (Qeq_refl _) Hr) as Vb. split; [done|].
    intros Hx. simpl. rewrite Vb, <- (Hx q Eq). apply Qmult_le_compat_r; [apply Qle_ceiling|lra].
  - unfold floor_to_increment in E. apply bind_ok in E as (q & Eq%or_panic_ok & E%or_panic_ok).
    exists (Qfloor (val q)). intros Hr. pose proof (mul_eq _ _ _ _ _ E (floor_exact q) (Qeq_refl _) Hr) as Vb. split; [done|].
    intros Hx. simpl. rewrite Vb, <- (Hx q Eq). apply Qmult_le_compat_r; [apply Qfloor_le|lra].
Qed.

(** The scenario of a position.  Its net profit is the profit of the move less the fees
    of both ends; at the raw break-even price the net is nothing, and at the break-even price
    on the tick grid, which is not nearer to the entry, the position does not lose (all when
    no operation on the way rounds). *)
Theorem scenario_break_even id rg fg mechanics a r :
  analyze_position_scenario_values (D:=D) id rg fg mechanics a = Ok r →
  ∃ cv tick re rx entry exit base net raw be : D, ∃ k : Z,
    dec_from_str (psm_contract_value mechanics) = Some cv ∧ dec_from_str (psm_tick_size mechanics) = Some tick
    ∧ dec_from_str (psm_entry_fee_rate mechanics) = Some re ∧ dec_from_str (psm_exit_fee_rate mechanics) = Some rx
    ∧ dec_from_str (psa_entry_price a) = Some entry
    ∧ psc_exit_price r = dtext exit ∧ psc_base_quantity r = dtext base ∧ psc_net_pnl_settle r = dtext net
    ∧ psc_raw_break_even_price r = dtext raw ∧ psc_tick_break_even_price r = dtext be
    ∧ (Forall representable (net_terms (psa_direction a) base entry exit re rx) →
       (val net == net_value (psa_direction a) base entry exit re rx)%Q)
    ∧ (0 < val raw)%Q ∧ (0 < val be)%Q
    ∧ (target_exact (psa_direction a) cv entry re rx dec_zero →
       (net_value (psa_direction a) cv entry raw re rx == 0)%Q
       ∧ (exact_quotient raw tick → representable (inject_Z k * val tick)%Q →
          (val be == inject_Z k * val tick)%Q ∧ (0 <= net_value (psa_direction a) cv entry be re rx)%Q)).
Proof.
  unfold analyze_position_scenario_values. cbv zeta. intros E. destruct (is_blank _); [done|]. destruct (is_blank _); [done|].
  apply bind_ok in E as (cv & [Ecv Hcv]%positive_ok & E). apply bind_ok in E as (tick & [Etk Htk]%positive_ok & E).
  apply bind_ok in E as (re & Ere%decimal_ok & E). apply bind_ok in E as (rx & Erx%decimal_ok & E).
  apply bind_ok in E as (ct & _ & E). apply bind_ok in E as (en & [Een Hen]%positive_ok & E).
  apply bind_ok in E as ([[src req] ex] & _ & E). apply bind_ok in E as (b & Eb%or_panic_ok & E).
  apply bind_ok in E as (n1 & E1%or_panic_ok & E). apply bind_ok in E as (n2 & E2%or_panic_ok & E).
  apply bind_ok in E as (c1 & C1 & E). apply bind_ok in E as (c2 & C2 & E). apply bind_ok in E as (g & Eg & E).
  apply bind_ok in E as (ae & Eae%or_panic_ok & E). apply bind_ok in E as (net & Enet%or_panic_ok & E).
  do 3 (apply bind_ok in E as (? & _ & E)). apply bind_ok in E as (raw & Eraw & E). apply bind_ok in E as (be & Ebe & E).
  destruct (dec_leb be dec_zero) eqn:Zb; [done|]. apply dec_leb_false in Zb. rewrite val_zero in Zb.
  apply bind_ok in E as (rest & _ & E). injection E as <-.
  destruct (on_grid _ _ _ _ Ebe Htk) as (k & Hk).
  exists cv, tick, re, rx, en, ex, b, net, raw, be, k. do 10 (split; [done|]).
  split; [by apply (net_val _ _ _ _ _ _ _ _ _ _ _ _ _ Eg E1 C1 E2 C2 Eae Enet)|].
  split; [|split; [done|]].
  - unfold target_price_for_net_pnl in Eraw. apply bind_ok in Eraw as (? & _ & Er). apply bind_ok in Er as (p & _ & Er).
    destruct (dec_leb p dec_zero) eqn:Zp; [done|]. injection Er as <-. apply dec_leb_false in Zp. by rewrite val_zero in Zp.
  - intros Hx. destruct (target_price_val _ _ _ _ _ _ _ Eraw Hx) as (V & Hs & _). rewrite val_zero in V.
    split; [done|]. intros Hq Hr. destruct (Hk Hr) as [Vb Hb]. split; [done|].
    rewrite <- V. by apply net_beyond; auto.
Qed.
End laws.
