(* ===== verification/Microstructure.v ===== *)
(** * Microstructure: the book as a market order meets it, [okx-analysis/src/microstructure.rs]

    [analyze_market_intelligence] reads a contiguous order book and the market snapshot of
    the same instrument: spread, mid and microprice, the depth of both sides, and what a
    market order of a given size would pay ([sweep_book]). *)
From stdpp Require Import base option list numbers strings.
From Stdlib Require Import ZArith QArith Qround Qminmax Lia Lqa Ascii.
From S2P Require Import Prelude Text Ordered External Decimals Lots MoneyText Faults Reference OrderBook Market Analysis.
Local Open Scope string_scope.
Local Open Scope list_scope.
Local Open Scope Z_scope.
Local Open Scope fault_scope.

Definition MARKET_INTELLIGENCE_ANALYSIS_SCHEMA_V1 : string := "okx.market-intelligence-analysis/v1".
Definition SPREAD_BPS_METRIC_ID : string := "spread_bps".
Definition SPREAD_BPS_METRIC_VERSION_V1 : string := "spread_bps/v1".
Definition SPREAD_BPS_UNIT : string := "basis_points".

Record BookSweepAnalysis : Type := {
  bsa_requested_contracts : string;
  bsa_available_contracts : string;
  bsa_filled_contracts : string;
  bsa_complete : bool;
  bsa_vwap : option string;
  bsa_worst_price : option string;
  bsa_impact_bps_from_mid : option string;
}.

Record MarketIntelligenceAnalysis : Type := {
  mia_schema : string;
  mia_instrument_id : string;
  mia_reference_generation : string;
  mia_market_generation : string;
  mia_order_book_generation : Z;
  mia_order_book_seq_id : Z;
  mia_order_book_exchange_timestamp_ms : string;
  mia_depth_levels : Z;
  mia_best_bid : string;
  mia_best_ask : string;
  mia_mid_price : string;
  mia_spread_price : string;
  mia_spread_bps : string;
  mia_microprice : string;
  mia_depth_imbalance_ratio : string;
  mia_bid_depth_contracts : string;
  mia_ask_depth_contracts : string;
  mia_buy_sweep : BookSweepAnalysis;
  mia_sell_sweep : BookSweepAnalysis;
  mia_last_price : string;
  mia_mark_price : string;
  mia_index_price : string;
  mia_mark_index_basis_bps : string;
  mia_last_mark_deviation_bps : string;
  mia_funding_rate : option string;
  mia_next_funding_time_ms : option string;
  mia_open_interest_contracts : string;
  mia_open_interest_usd : option string;
}.

Section microstructure.
Context {D : Type} `{DecimalAnalysis D}.

Record SpreadBps : Type := { sp_value : D }.
Definition sp_value_text (s : SpreadBps) : string := dtext (sp_value s).
Definition sp_cmp (x y : SpreadBps) : comparison := kcmp (sp_value x) (sp_value y).

Definition analyze_spread_bps (best_bid best_ask : string) : analyzed SpreadBps :=
  bid ← positive_decimal "best_bid" best_bid;
  ask ← positive_decimal "best_ask" best_ask;
  if dec_leb ask bid then raise (AeCrossedOrderBook best_bid best_ask) else
  sum ← bid +! ask;
  mid ← sum /! dec_of_int 2;
  spread ← ask -! bid;
  ratio ← spread /! mid;
  value ← ratio *! dec_of_int 10000;
  Ok {| sp_value := value |}.

(** A level of the book, [(price, size)], appended to those already read *)
Definition side_step (ascending : bool) (result : list (D * D)) (level : BookLevel) : analyzed (list (D * D)) :=
  p ← positive_decimal "order_book_price" (price level);
  s ← positive_decimal "order_book_size" (size level);
  match last result with
  | Some (previous, _) =>
    if negb (if ascending then dec_ltb previous p else dec_ltb p previous) then raise AeOrderBookNotStrictlySorted
    else Ok (result ++ [(p, s)])
  | None => Ok (result ++ [(p, s)])
  end.
Definition normalized_side (levels : list BookLevel) (depth_levels : Z) (ascending : bool) : analyzed (list (D * D)) :=
  try_fold (side_step ascending) [] (take (Z.to_nat depth_levels) levels).

(** What is left to fill, what is filled, the weighted prices, and the last price taken *)
Record Sweep : Type := { sw_remaining : D; sw_filled : D; sw_weighted : D; sw_worst : option D }.
Definition sweep_step (s : Sweep) (level : D * D) : analyzed Sweep :=
  if dec_leb (sw_remaining s) dec_zero then Ok s else
  let taken := dec_min (sw_remaining s) level.2 in
  if dec_leb taken dec_zero then Ok s else
  filled ← sw_filled s +! taken;
  amount ← level.1 *! taken;
  weighted ← sw_weighted s +! amount;
  remaining ← sw_remaining s -! taken;
  Ok {| sw_remaining := remaining; sw_filled := filled; sw_weighted := weighted; sw_worst := Some level.1 |}.
Definition impact_bps (buy : bool) (vwap mid : D) : analyzed D :=
  distance ← (if buy then vwap -! mid else mid -! vwap);
  ratio ← distance /! mid;
  ratio *! dec_of_int 10000.
Definition sweep_book (levels : list (D * D)) (requested mid : D) (buy : bool) : analyzed BookSweepAnalysis :=
  available ← ksum (map snd levels);
  s ← try_fold sweep_step {| sw_remaining := requested; sw_filled := dec_zero; sw_weighted := dec_zero; sw_worst := None |} levels;
  vwap ← (if dec_ltb dec_zero (sw_filled s) then v ← sw_weighted s /! sw_filled s; Ok (Some v) else Ok None);
  impact ← match vwap with Some v => i ← impact_bps buy v mid; Ok (Some i) | None => Ok None end;
  Ok {| bsa_requested_contracts := dtext requested;
        bsa_available_contracts := dtext available;
        bsa_filled_contracts := dtext (sw_filled s);
        bsa_complete := dec_leb requested (sw_filled s);
        bsa_vwap := option_map dtext vwap;
        bsa_worst_price := option_map dtext (sw_worst s);
        bsa_impact_bps_from_mid := option_map dtext impact |}.

(** [((x - y) / y) * Decimal::from(10_000)] *)
Definition bps_of (x y : D) : analyzed D := d ← x -! y; ratio ← d /! y; ratio *! dec_of_int 10000.

Definition analyze_market_intelligence (instrument_id reference_generation : string) (market : MarketSnapshot)
    (order_book : OrderBookSnapshot) (impact_contracts : string) (depth_levels : Z) : analyzed MarketIntelligenceAnalysis :=
  if negb (instrument_id =? ms_instrument_id market)%string then raise AeInstrumentMismatch else
  if negb (reference_generation =? ms_reference_generation market)%string then raise AeReferenceGenerationMismatch else
  if negb (bool_decide (obs_status order_book = Contiguous)) then raise AeOrderBookNotContiguous else
  seq_id ← ok_or (Raised AeOrderBookMissingSequence) (obs_seq_id order_book);
  timestamp ← match obs_exchange_timestamp_ms order_book with
              | Some t => if (t =? "")%string then raise AeOrderBookMissingTimestamp else Ok t
              | None => raise AeOrderBookMissingTimestamp
              end;
  if negb ((1 <=? depth_levels) && (depth_levels <=? 50)) then raise (AeInvalidOrderBookDepth depth_levels) else
  requested ← positive_decimal "impact_contracts" impact_contracts;
  asks ← normalized_side (obs_asks order_book) depth_levels true;
  bids ← normalized_side (obs_bids order_book) depth_levels false;
  best_asks ← ok_or (Raised AeOrderBookEmptyAsk) (head asks);
  best_bids ← ok_or (Raised AeOrderBookEmptyBid) (head bids);
  let '(best_ask, best_ask_size) := best_asks in
  let '(best_bid, best_bid_size) := best_bids in
  if dec_leb best_ask best_bid then raise (AeCrossedOrderBook (dtext best_bid) (dtext best_ask)) else
  sum ← best_bid +! best_ask;
  mid ← sum /! dec_of_int 2;
  spread_price ← best_ask -! best_bid;
  spread ← analyze_spread_bps (dtext best_bid) (dtext best_ask);
  bid_depth ← ksum (map snd bids);
  ask_depth ← ksum (map snd asks);
  total_depth ← bid_depth +! ask_depth;
  depth_difference ← bid_depth -! ask_depth;
  imbalance ← depth_difference /! total_depth;
  top_size ← best_bid_size +! best_ask_size;
  ask_weight ← best_ask *! best_bid_size;
  bid_weight ← best_bid *! best_ask_size;
  weight ← ask_weight +! bid_weight;
  microprice ← weight /! top_size;
  buy_sweep ← sweep_book asks requested mid true;
  sell_sweep ← sweep_book bids requested mid false;
  last ← positive_decimal "last_price" (ts_last (ms_ticker market));
  mark ← positive_decimal "mark_price" (mps_price (ms_mark_price market));
  index ← positive_decimal "index_price" (ips_price (ms_index_price market));
  basis ← bps_of mark index;
  last_mark ← bps_of last mark;
  Ok {| mia_schema := MARKET_INTELLIGENCE_ANALYSIS_SCHEMA_V1;
        mia_instrument_id := ms_instrument_id market;
        mia_reference_generation := ms_reference_generation market;
        mia_market_generation := ms_market_generation market;
        mia_order_book_generation := obs_generation order_book;
        mia_order_book_seq_id := seq_id;
        mia_order_book_exchange_timestamp_ms := timestamp;
        mia_depth_levels := depth_levels;
        mia_best_bid := dtext best_bid;
        mia_best_ask := dtext best_ask;
        mia_mid_price := dtext mid;
        mia_spread_price := dtext spread_price;
        mia_spread_bps := sp_value_text spread;
        mia_microprice := dtext microprice;
        mia_depth_imbalance_ratio := dtext imbalance;
        mia_bid_depth_contracts := dtext bid_depth;
        mia_ask_depth_contracts := dtext ask_depth;
        mia_buy_sweep := buy_sweep;
        mia_sell_sweep := sell_sweep;
        mia_last_price := dtext last;
        mia_mark_price := dtext mark;
        mia_index_price := dtext index;
        mia_mark_index_basis_bps := dtext basis;
        mia_last_mark_deviation_bps := dtext last_mark;
        mia_funding_rate := option_map fs_rate (ms_funding market);
        mia_next_funding_time_ms := option_map fs_next_funding_time_ms (ms_funding market);
        mia_open_interest_contracts := ois_contracts (ms_open_interest market);
        mia_open_interest_usd := ois_usd (ms_open_interest market) |}.
End microstructure.
Arguments SpreadBps D : clear implicits.
Arguments Sweep D : clear implicits.

(** ** What a sweep of the book is *)
Section laws.
Context {D : Type} `{AnalysisLaws D}.
Implicit Types (levels : list (D * D)) (s : Sweep D).

(** [better ascending p q]: the price [p] comes before [q] on the side. *)
Definition better (ascending : bool) (p q : D) : Prop := if ascending then (val p < val q)%Q else (val q < val p)%Q.
Definition no_worse (ascending : bool) (p q : Q) : Prop := if ascending then (p <= q)%Q else (q <= p)%Q.
(** The levels of a side: positive, and strictly ordered from the best *)
Record side_ok (ascending : bool) (levels : list (D * D)) : Prop := {
  side_positive : Forall (λ l : D * D, 0 < val l.1 ∧ 0 < val l.2)%Q levels;
  side_sorted : ∀ i j a b, (i < j)%nat → levels !! i = Some a → levels !! j = Some b → better ascending a.1 b.1;
}.

Lemma better_trans ascending p q r : better ascending p q → better ascending q r → better ascending p r.
Proof. unfold better. destruct ascending; intros; lra. Qed.
Lemma side_step_ok ascending levels level levels' :
  side_ok ascending levels → side_step ascending levels level = Ok levels' → side_ok ascending levels'.
Proof.
  intros [Hp Hs] E. unfold side_step in E. apply bind_ok in E as (p & [_ Pp]%positive_ok & E).
  apply bind_ok in E as (z & [_ Pz]%positive_ok & E).
  assert (levels' = levels ++ [(p, z)] ∧ ∀ a, last levels = Some a → better ascending a.1 p) as [-> Hl].
  { destruct (last levels) as [[q z']|] eqn:El; [|injection E as <-; done].
    destruct (if ascending then dec_ltb q p else dec_ltb p q) eqn:Eb; [|done]. injection E as <-. split; [done|].
    intros a [= <-]. destruct ascending; by apply dec_ltb_val in Eb. }
  split; [apply Forall_app; split; [done|]; by constructor|].
  assert (Hlast : ∀ i a, levels !! i = Some a → better ascending a.1 p).
  { intros i a Hi. destruct (last levels) as [b|] eqn:El; [|by apply last_None in El; subst].
    specialize (Hl b eq_refl). rewrite last_lookup in El. destruct (decide (i = pred (length levels))) as [->|Hne].
    - rewrite El in Hi. by injection Hi as <-.
    - pose proof (lookup_lt_Some _ _ _ Hi). eapply better_trans; [|exact Hl]. apply (Hs i (pred (length levels))); [lia|done|done]. }
  intros i j a b Hij Hi Hj. pose proof (lookup_lt_Some _ _ _ Hj) as Hlen. rewrite length_app in Hlen. simpl in Hlen.
  rewrite lookup_app_l in Hi by lia. destruct (decide (j < length levels)%nat) as [Hlt|Hge].
  - rewrite lookup_app_l in Hj by done. by apply (Hs i j).
  - rewrite lookup_app_r in Hj by lia. replace (j - length levels)%nat with 0%nat in Hj by lia. injection Hj as <-.
    by apply (Hlast i).
Qed.
Lemma normalized_side_ok ls depth ascending levels :
  normalized_side ls depth ascending = Ok levels → side_ok ascending levels.
Proof.
  unfold normalized_side. intros E. apply (try_fold_track (λ _, side_ok ascending)) with (pre := []) in E; [done| |].
  - intros. by eapply side_step_ok.
  - split; [constructor|]. intros i j a b _ Hi. done.
Qed.

(** No step of a sweep rounds. *)
Fixpoint sweep_exact (levels : list (D * D)) (s : Sweep D) : Prop :=
  match levels with
  | [] => True
  | l :: ls =>
    (dec_leb (sw_remaining s) dec_zero = false →
     let taken := dec_min (sw_remaining s) l.2 in
     representable (val (sw_filled s) + val taken) ∧ representable (val l.1 * val taken)
     ∧ representable (val (sw_weighted s) + val l.1 * val taken) ∧ representable (val (sw_remaining s) - val taken))%Q
    ∧ ∀ s', sweep_step s l = Ok s' → sweep_exact ls s'
  end.

(** The state of a sweep of [requested] after the sizes [pre]: what is filled is the smaller
    of the request and the sizes, and what it costs is between the best price and the last. *)
Record swept (ascending : bool) (best : D) (requested : Q) (pre : Q) (s : Sweep D) : Prop := {
  st_filled : (val (sw_filled s) == Qmin requested pre)%Q;
  st_remaining : (val (sw_remaining s) == requested - val (sw_filled s))%Q;
  st_none : sw_worst s = None → (val (sw_filled s) == 0 ∧ val (sw_weighted s) == 0)%Q;
  st_cost : ∀ w, sw_worst s = Some w →
    no_worse ascending (val best) (val w)
    ∧ no_worse ascending (val best * val (sw_filled s)) (val (sw_weighted s))
    ∧ no_worse ascending (val (sw_weighted s)) (val w * val (sw_filled s));
}.
Lemma dec_min_Qmin (x y : D) : (val (dec_min x y) == Qmin (val x) (val y))%Q.
Proof.
  unfold dec_min. destruct (dec_leb x y) eqn:E; reflect_decs; symmetry; [by apply Q.min_l|apply Q.min_r; lra].
Qed.
(** Case analysis of the minima of a goal *)
Ltac case_min := repeat match goal with |- context [Qmin ?a ?b] => destruct (Q.min_spec a b) as [[? ->]|[? ->]] end.
Lemma sweep_step_swept ascending best requested pre s l s' :
  (0 <= pre)%Q → (0 < requested)%Q → (0 < val l.2)%Q → (0 < val l.1)%Q →
  (no_worse ascending (val best) (val l.1)) → (∀ w, sw_worst s = Some w → no_worse ascending (val w) (val l.1)) →
  sweep_exact [l] s → swept ascending best requested pre s → sweep_step s l = Ok s' →
  swept ascending best requested (pre + val l.2) s' ∧ (sw_worst s' = sw_worst s ∨ sw_worst s' = Some l.1).
Proof.
  intros Hpre Hreq Hsz Hpr Hbest Hworst [Hex _] [Hf Hr Hn Hc] E. unfold sweep_step in E.
  destruct (dec_leb (sw_remaining s) dec_zero) eqn:Ez.
  { injection E as <-. apply dec_leb_val in Ez. rewrite val_zero in Ez. split; [|by left].
    split; try done. rewrite Hf in *. destruct (Q.min_spec requested pre) as [[? M]|[? M]];
      destruct (Q.min_spec requested (pre + val l.2)%Q) as [[? M']|[? M']]; rewrite M in *; rewrite M'; lra. }
  destruct (Hex eq_refl) as (R1 & R2 & R3 & R4). cbv zeta in *.
  apply dec_leb_false in Ez. rewrite val_zero in Ez. destruct (dec_min_val (sw_remaining s) l.2) as [M1 M2].
  set (t := dec_min (sw_remaining s) l.2) in *.
  assert (Ht := dec_min_Qmin (sw_remaining s) l.2). fold t in Ht.
  assert (Hpos : (0 < val t)%Q) by (rewrite Ht; destruct (Q.min_spec (val (sw_remaining s)) (val l.2)) as [[? M]|[? M]]; rewrite M; lra).
  destruct (dec_leb t dec_zero) eqn:Et; [apply dec_leb_val in Et; rewrite val_zero in Et; lra|].
  apply bind_ok in E as (f & Ef%or_panic_ok & E). apply bind_ok in E as (m & Em%or_panic_ok & E).
  apply bind_ok in E as (w & Ew%or_panic_ok & E). apply bind_ok in E as (r & Er%or_panic_ok & E). injection E as <-.
  assert (Vf := add_exact _ _ _ Ef R1). assert (Vm := mul_exact _ _ _ Em R2).
  assert (Vw := add_eq _ _ _ _ _ Ew (Qeq_refl _) Vm R3). assert (Vr := sub_exact _ _ _ Er R4).
  split; [|by right]. split; simpl.
  - rewrite Vf, Ht, Hr, Hf. destruct (Q.min_spec requested pre) as [[? M]|[? M]]; rewrite M in *;
      destruct (Q.min_spec requested (pre + val l.2)%Q) as [[? M']|[? M']]; rewrite M' in *;
      match goal with |- context [Qmin ?a ?b] => destruct (Q.min_spec a b) as [[? M2']|[? M2']]; rewrite M2' end; lra.
  - rewrite Vr, Vf, Hr. lra.
  - done.
  - intros ? [= <-]. split; [done|]. destruct (sw_worst s) as [w0|].
    + destruct (Hc w0 eq_refl) as (C1 & C2 & C3). specialize (Hworst w0 eq_refl).
      assert (0 <= val (sw_filled s))%Q by (rewrite Hf; case_min; lra).
      unfold no_worse in *. destruct ascending; rewrite Vf, Vw; split; nra.
    + destruct (Hn eq_refl) as [N1 N2]. unfold no_worse in *. destruct ascending; rewrite Vf, Vw, N1, N2; split; nra.
Qed.

Lemma side_ok_tail ascending l levels : side_ok ascending (l :: levels) →
  side_ok ascending levels ∧ (0 < val l.1 ∧ 0 < val l.2)%Q ∧ ∀ l', l' ∈ levels → better ascending l.1 l'.1.
Proof.
  intros [Hp Hs]. inversion Hp as [|? ? Hl Hls]; subst. split; [|split; [done|]].
  - split; [done|]. intros i j a b Hij Hi Hj. apply (Hs (S i) (S j)); [lia|done|done].
  - intros l' Hin. apply list_elem_of_lookup in Hin as [i Hi]. apply (Hs 0%nat (S i)); [lia|done|done].
Qed.
Lemma better_no_worse ascending p q : better ascending p q → no_worse ascending (val p) (val q).
Proof. unfold better, no_worse. destruct ascending; lra. Qed.
Lemma no_worse_trans ascending p q r : no_worse ascending p q → no_worse ascending q r → no_worse ascending p r.
Proof. unfold no_worse. destruct ascending; lra. Qed.

Lemma sweep_swept ascending best requested levels : ∀ pre s s',
  side_ok ascending levels → (0 <= pre)%Q → (0 < requested)%Q →
  (∀ l, l ∈ levels → no_worse ascending (val best) (val l.1)) →
  (∀ w l, sw_worst s = Some w → l ∈ levels → no_worse ascending (val w) (val l.1)) →
  sweep_exact levels s → swept ascending best requested pre s → try_fold sweep_step s levels = Ok s' →
  swept ascending best requested (pre + qsum_of (map snd levels)) s'.
Proof.
  induction levels as [|l levels IH]; intros pre s s' Hside Hpre Hreq Hbest Hworst Hex Hs E; simpl in E.
  { injection E as <-. destruct Hs as [F R N C]. split; try done. rewrite F. simpl. case_min; case_min; lra. }
  apply bind_ok in E as (s1 & E1 & E). apply side_ok_tail in Hside as (Hside & [Hp Hz] & Hnext). destruct Hex as [Hex Hrest].
  destruct (sweep_step_swept ascending best requested pre s l s1) as [Hs1 Hw1]; try done.
  { apply Hbest. by left. }
  { intros w Hw. apply (Hworst w l Hw). by left. }
  assert (Hs2 : swept ascending best requested (pre + val l.2 + qsum_of (map snd levels)) s').
  { apply (IH _ s1); try done.
    - lra.
    - intros l' Hin. apply Hbest. by right.
    - intros w l' Hw Hin. destruct Hw1 as [Hw1|Hw1]; rewrite Hw1 in Hw.
      + apply (Hworst w l' Hw). by right.
      + injection Hw as <-. by apply better_no_worse, Hnext.
    - by apply Hrest. }
  destruct Hs2 as [F R N C]. split; try done. rewrite F. simpl. case_min; case_min; lra.
Qed.

(** What a sweep says of a market order of [requested] contracts against [levels] *)
Definition start_sweep (requested : D) : Sweep D :=
  {| sw_remaining := requested; sw_filled := dec_zero; sw_weighted := dec_zero; sw_worst := None |}.
Definition sweep_sound (ascending : bool) (levels : list (D * D)) (requested : D) (b : BookSweepAnalysis) : Prop :=
  ∃ (available filled weighted : D) (vwap worst : option D),
    bsa_requested_contracts b = dtext requested ∧ bsa_available_contracts b = dtext available
    ∧ bsa_filled_contracts b = dtext filled ∧ bsa_vwap b = option_map dtext vwap ∧ bsa_worst_price b = option_map dtext worst
    ∧ (sums_ok dec_zero (map snd levels) → sweep_exact levels (start_sweep requested) →
       (val available == qsum_of (map snd levels))%Q
       ∧ (val filled == Qmin (val requested) (val available))%Q
       ∧ (bsa_complete b = true ↔ (val requested <= val available)%Q)
       ∧ ∀ best, head levels = Some best → ∃ v w, vwap = Some v ∧ worst = Some w
           ∧ (exact_quotient weighted filled →
              no_worse ascending (val best.1) (val v) ∧ no_worse ascending (val v) (val w))).
Lemma quotient_between ascending (best v w filled weighted : Q) :
  (0 < filled)%Q → (v * filled == weighted)%Q → no_worse ascending (best * filled) weighted →
  no_worse ascending weighted (w * filled) → no_worse ascending best v ∧ no_worse ascending v w.
Proof.
  unfold no_worse. intros Hf Hv H1' H2'. destruct ascending; rewrite <- Hv in H1', H2';
    split; by apply (Qmult_le_r _ _ filled).
Qed.
Lemma sizes_positive ascending levels best :
  side_ok ascending levels → head levels = Some best → (0 < qsum_of (map snd levels))%Q.
Proof.
  intros [Hp _] E. destruct levels as [|l ls]; [done|]. inversion Hp as [|? ? [_ Hl] Hls]; subst. simpl.
  assert (0 <= qsum_of (map snd ls))%Q; [|lra]. apply qsum_of_nonneg. intros x Hx.
  apply list_elem_of_fmap in Hx as (l' & -> & Hin). rewrite Forall_forall in Hls. destruct (Hls l' Hin). lra.
Qed.
Lemma sweep_book_sound ascending levels requested mid buy b :
  side_ok ascending levels → (0 < val requested)%Q → sweep_book levels requested mid buy = Ok b →
  sweep_sound ascending levels requested b.
Proof.
  intros Hside Hreq E. unfold sweep_book in E. apply bind_ok in E as (av & Eav & E). apply bind_ok in E as (s & Es & E).
  apply bind_ok in E as (vw & Evw & E). apply bind_ok in E as (im & _ & E). injection E as <-.
  exists av, (sw_filled s), (sw_weighted s), vw, (sw_worst s). simpl. do 5 (split; [done|]). intros Hsum Hex.
  assert (Vav := ksum_val _ _ Eav Hsum). split; [done|].
  assert (Hsw : ∀ best, (∀ l, l ∈ levels → no_worse ascending (val best) (val l.1)) →
    swept ascending best (val requested) (0 + qsum_of (map snd levels)) s).
  { intros best Hb. apply (sweep_swept ascending best (val requested) levels 0 (start_sweep requested)); try done.
    split; simpl; rewrite ?val_zero; [case_min; lra|lra|done|done]. }
  destruct levels as [|best ls].
  - destruct (Hsw requested) as [F _ _ _]; [by intros l ?%elem_of_nil|]. simpl in *.
    assert (Vf : (val (sw_filled s) == Qmin (val requested) (val av))%Q) by (rewrite F, Vav; case_min; case_min; lra).
    split; [done|]. split; [|done]. rewrite dec_leb_val, Vf. case_min; split; intros; lra.
  - destruct (Hsw best.1) as [F R N C].
    { intros l [->|Hin]%elem_of_cons; [unfold no_worse; destruct ascending; lra|].
      apply side_ok_tail in Hside as (_ & _ & Hn). by apply better_no_worse, Hn. }
    assert (Vf : (val (sw_filled s) == Qmin (val requested) (val av))%Q) by (rewrite F, Vav; case_min; case_min; lra).
    split; [done|]. split; [rewrite dec_leb_val, Vf; case_min; split; intros; lra|].
    intros ? [= <-]. pose proof (sizes_positive _ _ best Hside eq_refl) as Hpos.
    assert (Hfil : (0 < val (sw_filled s))%Q) by (rewrite Vf, Vav; case_min; lra).
    assert (Ef : dec_ltb dec_zero (sw_filled s) = true) by (apply dec_ltb_val; by rewrite val_zero). rewrite Ef in Evw.
    apply bind_ok in Evw as (v & Ev%or_panic_ok & [= <-]). destruct (sw_worst s) as [w|]; [|destruct (N eq_refl); lra].
    exists v, w. split; [done|]. split; [done|]. intros Hq. destruct (C w eq_refl) as (_ & C2 & C3).
    by apply (quotient_between _ _ _ _ (val (sw_filled s)) (val (sw_weighted s))); try done; apply Hq.
Qed.

(** The reading of a book.  Both sides are read in strict order from the best, with
    positive prices and sizes, and are not crossed.  A market order of the requested size
    is filled with the smaller of the request and the depth, completely exactly when the
    depth suffices, at an average price between the best and the last price it takes. *)
Theorem intelligence_sound id reference market book impact depth m :
  analyze_market_intelligence (D:=D) id reference market book impact depth = Ok m →
  ∃ (asks bids : list (D * D)) (requested : D) best_ask best_bid,
    obs_status book = Contiguous ∧ dec_from_str impact = Some requested ∧ (0 < val requested)%Q
    ∧ normalized_side (obs_asks book) depth true = Ok asks ∧ normalized_side (obs_bids book) depth false = Ok bids
    ∧ side_ok true asks ∧ side_ok false bids ∧ head asks = Some best_ask ∧ head bids = Some best_bid
    ∧ mia_best_ask m = dtext best_ask.1 ∧ mia_best_bid m = dtext best_bid.1 ∧ (val best_bid.1 < val best_ask.1)%Q
    ∧ sweep_sound true asks requested (mia_buy_sweep m) ∧ sweep_sound false bids requested (mia_sell_sweep m).
Proof.
  unfold analyze_market_intelligence. intros E. destruct (negb _); [done|]. destruct (negb _); [done|].
  destruct (negb (bool_decide _)) eqn:Ec; [done|]. apply negb_false_iff, bool_decide_eq_true in Ec.
  do 2 (apply bind_ok in E as (? & _ & E)). destruct (negb _); [done|]. apply bind_ok in E as (rq & [Erq Hrq]%positive_ok & E).
  apply bind_ok in E as (asks & Ea & E). apply bind_ok in E as (bids & Eb & E).
  apply bind_ok in E as ([ba bas] & Eba%ok_or_ok & E). apply bind_ok in E as ([bb bbs] & Ebb%ok_or_ok & E).
  destruct (dec_leb ba bb) eqn:Ex; [done|]. apply dec_leb_false in Ex.
  do 14 (apply bind_ok in E as (? & _ & E)). apply bind_ok in E as (buy & Ebuy & E). apply bind_ok in E as (sell & Esell & E).
  do 5 (apply bind_ok in E as (? & _ & E)). injection E as <-.
  pose proof (normalized_side_ok _ _ _ _ Ea) as Ha. pose proof (normalized_side_ok _ _ _ _ Eb) as Hb.
  exists asks, bids, rq, (ba, bas), (bb, bbs). do 12 (split; [done|]).
  split; [by eapply sweep_book_sound|by eapply sweep_book_sound].
Qed.
End laws.
