(* ===== verification/HistoryFeatures.v ===== *)
(** * HistoryFeatures: trades, open interest and funding, [okx-analysis/src/history_features.rs]

    The flow of a window of public trades, the change of the open interest over its
    history, and the regime of a history of funding rates. *)
From stdpp Require Import base option list numbers strings.
From Stdlib Require Import ZArith QArith Qround Qminmax Lia Lqa Ascii.
From S2P Require Import Prelude Text Ordered External Decimals Lots MoneyText Faults Reference History Analysis.
Local Open Scope string_scope.
Local Open Scope list_scope.
Local Open Scope Z_scope.
Local Open Scope fault_scope.

Definition TRADE_FLOW_ANALYSIS_SCHEMA_V1 : string := "okx.trade-flow-analysis/v1".
Definition FUNDING_REGIME_ANALYSIS_SCHEMA_V1 : string := "okx.funding-regime-analysis/v1".
Definition OPEN_INTEREST_CHANGE_ANALYSIS_SCHEMA_V1 : string := "okx.open-interest-change-analysis/v1".

Record TradeFlowAnalysis : Type := {
  tfa_schema : string;
  tfa_instrument_id : string;
  tfa_trades_generation : string;
  tfa_trade_count : nat;
  tfa_oldest_exchange_timestamp_ms : option string;
  tfa_newest_exchange_timestamp_ms : option string;
  tfa_buy_contracts : string;
  tfa_sell_contracts : string;
  tfa_signed_taker_imbalance_ratio : option string;
  tfa_vwap : option string;
  tfa_buy_vwap : option string;
  tfa_sell_vwap : option string;
}.

Record OpenInterestChangeAnalysis : Type := {
  oia_schema : string;
  oia_instrument_id : string;
  oia_open_interest_generation : string;
  oia_period : string;
  oia_point_count : nat;
  oia_oldest_timestamp_ms : option string;
  oia_newest_timestamp_ms : option string;
  oia_first_open_interest_contracts : option string;
  oia_last_open_interest_contracts : option string;
  oia_change_contracts : option string;
  oia_change_ratio : option string;
}.

Inductive FundingRegime : Type := NoEvents | Positive | Negative | Flat | Mixed.
#[export] Instance FundingRegime_eq_dec : EqDecision FundingRegime.
Proof. solve_decision. Defined.

Record FundingRegimeAnalysis : Type := {
  fra_schema : string;
  fra_instrument_id : string;
  fra_funding_generation : string;
  fra_event_count : nat;
  fra_realized_rate_coverage_count : nat;
  fra_regime_rate_basis : string;
  fra_oldest_funding_time_ms : option string;
  fra_newest_funding_time_ms : option string;
  fra_latest_rate : option string;
  fra_cumulative_rate_sum : option string;
  fra_mean_rate : option string;
  fra_min_rate : option string;
  fra_max_rate : option string;
  fra_positive_event_count : nat;
  fra_negative_event_count : nat;
  fra_zero_event_count : nat;
  fra_regime : FundingRegime;
  fra_formula_types : list string;
  fra_methods : list string;
}.

Section features.
Context {D : Type} `{DecimalAnalysis D}.

(** ** Trades *)
Record TradeFlow : Type := { tf_buy_size : D; tf_sell_size : D; tf_buy_notional : D; tf_sell_notional : D }.
Definition trade_flow_step (s : TradeFlow) (trade : MarketTrade) : analyzed TradeFlow :=
  price ← positive_decimal "trade_price" (mt_price trade);
  size ← positive_decimal "trade_size" (mt_size_contracts trade);
  match mt_side trade with
  | Buy =>
    sizes ← tf_buy_size s +! size; amount ← price *! size; notionals ← tf_buy_notional s +! amount;
    Ok {| tf_buy_size := sizes; tf_sell_size := tf_sell_size s; tf_buy_notional := notionals; tf_sell_notional := tf_sell_notional s |}
  | Sell =>
    sizes ← tf_sell_size s +! size; amount ← price *! size; notionals ← tf_sell_notional s +! amount;
    Ok {| tf_buy_size := tf_buy_size s; tf_sell_size := sizes; tf_buy_notional := tf_buy_notional s; tf_sell_notional := notionals |}
  end.
(** [(size > ZERO).then(|| amount / size)] *)
Definition over (size amount : D) : analyzed (option string) :=
  if dec_ltb dec_zero size then q ← amount /! size; Ok (Some (dtext q)) else Ok None.
Definition analyze_trade_flow (trades : MarketTradesSnapshot) : analyzed TradeFlowAnalysis :=
  s ← try_fold trade_flow_step
        {| tf_buy_size := dec_zero; tf_sell_size := dec_zero; tf_buy_notional := dec_zero; tf_sell_notional := dec_zero |}
        (mts_trades trades);
  total_size ← tf_buy_size s +! tf_sell_size s;
  total_notional ← tf_buy_notional s +! tf_sell_notional s;
  imbalance ← (if dec_ltb dec_zero total_size
               then d ← tf_buy_size s -! tf_sell_size s; q ← d /! total_size; Ok (Some (dtext q)) else Ok None);
  vwap ← over total_size total_notional;
  buy_vwap ← over (tf_buy_size s) (tf_buy_notional s);
  sell_vwap ← over (tf_sell_size s) (tf_sell_notional s);
  Ok {| tfa_schema := TRADE_FLOW_ANALYSIS_SCHEMA_V1;
        tfa_instrument_id := mts_instrument_id trades;
        tfa_trades_generation := mts_trades_generation trades;
        tfa_trade_count := length (mts_trades trades);
        tfa_oldest_exchange_timestamp_ms := mts_oldest_exchange_timestamp_ms trades;
        tfa_newest_exchange_timestamp_ms := mts_newest_exchange_timestamp_ms trades;
        tfa_buy_contracts := dtext (tf_buy_size s);
        tfa_sell_contracts := dtext (tf_sell_size s);
        tfa_signed_taker_imbalance_ratio := imbalance;
        tfa_vwap := vwap;
        tfa_buy_vwap := buy_vwap;
        tfa_sell_vwap := sell_vwap |}.

(** ** Open interest *)
Definition analyze_open_interest_change (history : OpenInterestHistorySnapshot) : analyzed OpenInterestChangeAnalysis :=
  match head (ohs_points history), last (ohs_points history) with
  | Some first, Some final =>
    first_oi ← decimal (D:=D) "open_interest_history_oi" (oip_open_interest_contracts first);
    last_oi ← decimal "open_interest_history_oi" (oip_open_interest_contracts final);
    if dec_ltb first_oi dec_zero || dec_ltb last_oi dec_zero then raise (AeNegative "open_interest_history_oi") else
    change ← last_oi -! first_oi;
    change_ratio ← over first_oi change;
    Ok {| oia_schema := OPEN_INTEREST_CHANGE_ANALYSIS_SCHEMA_V1;
          oia_instrument_id := ohs_instrument_id history;
          oia_open_interest_generation := ohs_open_interest_generation history;
          oia_period := ohs_period history;
          oia_point_count := length (ohs_points history);
          oia_oldest_timestamp_ms := ohs_oldest_timestamp_ms history;
          oia_newest_timestamp_ms := ohs_newest_timestamp_ms history;
          oia_first_open_interest_contracts := Some (dtext first_oi);
          oia_last_open_interest_contracts := Some (dtext last_oi);
          oia_change_contracts := Some (dtext change);
          oia_change_ratio := change_ratio |}
  | _, _ =>
    Ok {| oia_schema := OPEN_INTEREST_CHANGE_ANALYSIS_SCHEMA_V1;
          oia_instrument_id := ohs_instrument_id history;
          oia_open_interest_generation := ohs_open_interest_generation history;
          oia_period := ohs_period history;
          oia_point_count := 0;
          oia_oldest_timestamp_ms := None;
          oia_newest_timestamp_ms := None;
          oia_first_open_interest_contracts := None;
          oia_last_open_interest_contracts := None;
          oia_change_contracts := None;
          oia_change_ratio := None |}
  end.

(** ** Funding *)
Definition realized (event : FundingHistoryEvent) : bool :=
  match fe_realized_rate event with Some _ => true | None => false end.
(** The rate an event counts with; [expect] of a missing realized rate cannot happen where
    [use_realized] is set, and would panic. *)
Definition event_rate (use_realized : bool) (event : FundingHistoryEvent) : analyzed D :=
  text ← (if use_realized then or_panic (fe_realized_rate event) else Ok (fe_funding_rate event));
  decimal "funding_history_rate" text.
(** A sorted set of texts *)
Definition insert_text (set : list (string * unit)) (text : option string) : list (string * unit) :=
  match text with Some t => oinsert t tt set | None => set end.
Definition texts_of (get : FundingHistoryEvent → option string) (events : list FundingHistoryEvent) : list string :=
  map fst (foldl (λ set event, insert_text set (get event)) [] events).

Record RateScan : Type := { rs_sum : D; rs_min : D; rs_max : D; rs_positive : nat; rs_negative : nat; rs_zero : nat }.
Definition rate_step (s : RateScan) (rate : D) : analyzed RateScan :=
  sum ← rs_sum s +! rate;
  let '(p, n, z) := match kcmp rate dec_zero with Gt => (1, 0, 0) | Lt => (0, 1, 0) | Eq => (0, 0, 1) end%nat in
  Ok {| rs_sum := sum; rs_min := dec_min (rs_min s) rate; rs_max := dec_max (rs_max s) rate;
        rs_positive := rs_positive s + p; rs_negative := rs_negative s + n; rs_zero := rs_zero s + z |}.
Definition regime_of (positive negative zero : nat) : FundingRegime :=
  match (0 <? positive)%nat, (0 <? negative)%nat, (0 <? zero)%nat with
  | true, false, false => Positive
  | false, true, false => Negative
  | false, false, true => Flat
  | _, _, _ => Mixed
  end.

Definition analyze_funding_regime (funding : FundingHistorySnapshot) : analyzed FundingRegimeAnalysis :=
  let events := fhs_events funding in
  let event_count := length events in
  let coverage := length (List.filter realized events) in
  let use_realized := (0 <? event_count)%nat && (coverage =? event_count)%nat in
  rates ← try_map (event_rate use_realized) events;
  let report basis latest sum mean least greatest positive negative zero regime := {|
      fra_schema := FUNDING_REGIME_ANALYSIS_SCHEMA_V1;
      fra_instrument_id := fhs_instrument_id funding;
      fra_funding_generation := fhs_funding_generation funding;
      fra_event_count := event_count;
      fra_realized_rate_coverage_count := coverage;
      fra_regime_rate_basis := basis;
      fra_oldest_funding_time_ms := fhs_oldest_funding_time_ms funding;
      fra_newest_funding_time_ms := fhs_newest_funding_time_ms funding;
      fra_latest_rate := latest;
      fra_cumulative_rate_sum := sum;
      fra_mean_rate := mean;
      fra_min_rate := least;
      fra_max_rate := greatest;
      fra_positive_event_count := positive;
      fra_negative_event_count := negative;
      fra_zero_event_count := zero;
      fra_regime := regime;
      fra_formula_types := texts_of fe_formula_type events;
      fra_methods := texts_of fe_method events |} in
  match rates with
  | [] => Ok (report "none" None None None None None 0%nat 0%nat 0%nat NoEvents)
  | first :: _ =>
    s ← try_fold rate_step {| rs_sum := dec_zero; rs_min := first; rs_max := first; rs_positive := 0;
                              rs_negative := 0; rs_zero := 0 |} rates;
    mean ← rs_sum s /! dec_of_int (Z.of_nat (length rates));
    Ok (report (if use_realized then "realized_rate" else "funding_rate") (option_map dtext (last rates))
          (Some (dtext (rs_sum s))) (Some (dtext mean)) (Some (dtext (rs_min s))) (Some (dtext (rs_max s)))
          (rs_positive s) (rs_negative s) (rs_zero s) (regime_of (rs_positive s) (rs_negative s) (rs_zero s)))
  end.
End features.
Arguments TradeFlow D : clear implicits.
Arguments RateScan D : clear implicits.
