(* ===== verification/Tca.v ===== *)
(** * Tca: what the execution of an order cost, [okx-analysis/src/tca.rs]

    [analyze_execution_tca] compares the fills of one order with a reference price taken
    before them; [analyze_execution_tca_report] sets them against what was requested, and
    reports a shortfall exactly where it is observed ([tca_report_sound]). *)
From stdpp Require Import base option list numbers strings.
From Stdlib Require Import ZArith QArith Qround Qminmax Lia Lqa Ascii.
From S2P Require Import Prelude Text Ordered External Decimals Lots MoneyText Faults AccountLedger Analysis.
Local Open Scope string_scope.
Local Open Scope list_scope.
Local Open Scope Z_scope.
Local Open Scope fault_scope.

Definition EXECUTION_TCA_SCHEMA_V1 : string := "okx.execution-tca/v1".
Definition EXECUTION_TCA_REPORT_SCHEMA_V2 : string := "okx.execution-tca/v2".

Inductive TcaSide : Type := TcaBuy | TcaSell.
Definition tca_side_as_str (s : TcaSide) : string := match s with TcaBuy => "buy" | TcaSell => "sell" end.
Inductive TcaReferencePriceBasis : Type := DecisionPrice | ArrivalMid | BasisMark | BasisIndex | BasisLast | LimitPrice.
#[export] Instance TcaReferencePriceBasis_eq_dec : EqDecision TcaReferencePriceBasis.
Proof. solve_decision. Defined.

Record TcaReference : Type := {
  tr_price : string;
  tr_reference_time_ms : Z;
  tr_price_basis : TcaReferencePriceBasis;
  tr_price_policy_version : string;
}.
Record TcaFeeTotal : Type := { tft_currency : string; tft_exchange_fee_amount : string }.
Record ExecutionTcaAnalysis : Type := {
  eta_schema : string;
  eta_instrument_id : string;
  eta_side : TcaSide;
  eta_reference_price : string;
  eta_reference_price_basis : TcaReferencePriceBasis;
  eta_reference_price_policy_version : string;
  eta_reference_time_ms : Z;
  eta_first_fill_time_ms : Z;
  eta_last_fill_time_ms : Z;
  eta_reference_to_first_fill_ms : Z;
  eta_reference_to_last_fill_ms : Z;
  eta_filled_contracts : string;
  eta_maker_contracts : string;
  eta_taker_contracts : string;
  eta_fill_vwap : string;
  eta_slippage_bps : string;
  eta_gross_slippage_settle : string;
  eta_fee_totals : list TcaFeeTotal;
  eta_settle_fee_cost : option string;
  eta_net_execution_cost_settle : option string;
}.
Inductive TcaFillOutcome : Type := Missed | Partial | Complete.
Record ExecutionTcaReport : Type := {
  etr_schema : string;
  etr_requested_contracts : string;
  etr_filled_contracts : string;
  etr_unfilled_contracts : string;
  etr_fill_ratio : string;
  etr_fill_outcome : TcaFillOutcome;
  etr_observed_execution : option ExecutionTcaAnalysis;
  etr_implementation_shortfall_settle : option string;
  etr_implementation_shortfall_unavailable_reason : option string;
}.

Section tca.
Context {D : Type} `{DecimalAnalysis D}.

Definition validate_tca_context (contract_value : string) (reference : TcaReference) : analyzed (D * D) :=
  if (tr_reference_time_ms reference =? 0)%Z then raise AeInvalidTcaReferenceTimestamp else
  if is_blank (tr_price_policy_version reference) || (128 <? String.length (tr_price_policy_version reference))%nat
  then raise AeInvalidTcaReferencePolicy else
  reference_price ← positive_decimal "tca.reference_price" (tr_price reference);
  contract_value ← positive_decimal "tca.contract_value" contract_value;
  Ok (reference_price, contract_value).

(** ** The fills *)
Record TcaScan : Type := {
  ts_trade_ids : list (string * unit);
  ts_filled : D;
  ts_weighted : D;
  ts_maker : D;
  ts_taker : D;
  ts_fees : list (string * D);
  ts_all_fees_in_settle : bool;
  ts_first_ms : Z;
  ts_last_ms : Z;
}.
Definition scan_start : TcaScan := {|
  ts_trade_ids := []; ts_filled := dec_zero; ts_weighted := dec_zero; ts_maker := dec_zero; ts_taker := dec_zero;
  ts_fees := []; ts_all_fees_in_settle := true; ts_first_ms := u64_max; ts_last_ms := 0 |}.
(** The maker and taker contracts after a fill *)
Definition role_split (s : TcaScan) (execution_type : option string) (size : D) : analyzed (D * D) :=
  match execution_type with
  | Some t =>
    if (t =? "M")%string then m ← ts_maker s +! size; Ok (m, ts_taker s)
    else if (t =? "T")%string then k ← ts_taker s +! size; Ok (ts_maker s, k)
    else raise (AeUnsupportedTcaExecutionType t)
  | None => raise (AeUnsupportedTcaExecutionType "<missing>")
  end.
(** The fee totals after a fill, and whether all fees are in the settlement currency *)
Definition fee_step (settle_currency : string) (s : TcaScan) (fill : ExchangeFillIdentity)
    : analyzed (list (string * D) * bool) :=
  match efi_fee fill with
  | None => Ok (ts_fees s, false)
  | Some fee_text =>
    fee ← decimal "tca.fee" fee_text;
    currency ← ok_or (Raised AeMissingTcaFeeCurrency) (efi_fee_currency fill ≫= non_blank);
    total ← default dec_zero (oget (ts_fees s) currency) +! fee;
    Ok (oinsert currency total (ts_fees s), ts_all_fees_in_settle s && (currency =? settle_currency)%string)
  end.
Definition tca_step (instrument_id : string) (side : TcaSide) (settle_currency : string) (reference : TcaReference)
    (s : TcaScan) (fill : ExchangeFillIdentity) : analyzed TcaScan :=
  if negb (efi_instrument_id fill =? instrument_id)%string then raise AeTcaInstrumentMismatch else
  if negb (efi_side fill =? tca_side_as_str side)%string then raise AeTcaSideMismatch else
  match oget (ts_trade_ids s) (efi_trade_id fill) with
  | Some _ => raise (AeDuplicateTcaFill (efi_trade_id fill))
  | None =>
    if (efi_fill_time_ms fill <? tr_reference_time_ms reference)%Z
    then raise (AeTcaFillBeforeReference (efi_fill_time_ms fill) (tr_reference_time_ms reference)) else
    size ← positive_decimal "tca.fill_size" (efi_fill_size fill);
    price ← positive_decimal "tca.fill_price" (efi_fill_price fill);
    filled ← ts_filled s +! size;
    amount ← size *! price;
    weighted ← ts_weighted s +! amount;
    roles ← role_split s (efi_execution_type fill) size;
    fees ← fee_step settle_currency s fill;
    Ok {| ts_trade_ids := oinsert (efi_trade_id fill) tt (ts_trade_ids s);
          ts_filled := filled; ts_weighted := weighted; ts_maker := roles.1; ts_taker := roles.2;
          ts_fees := fees.1; ts_all_fees_in_settle := fees.2;
          ts_first_ms := Z.min (ts_first_ms s) (efi_fill_time_ms fill);
          ts_last_ms := Z.max (ts_last_ms s) (efi_fill_time_ms fill) |}
  end.

(** [settle_fee_cost]: what the fees cost, known when all of them are in one currency *)
Definition settle_cost (settle_currency : string) (all_in_settle : bool) (totals : list TcaFeeTotal) : analyzed (option string) :=
  if all_in_settle then
    raw ← match List.find (λ t, (tft_currency t =? settle_currency)%string) totals with
          | Some t => decimal (D:=D) "tca.settle_fee" (tft_exchange_fee_amount t)
          | None => Ok dec_zero
          end;
    Ok (Some (dtext (dec_neg raw)))
  else Ok None.

Definition analyze_execution_tca (instrument_id : string) (side : TcaSide) (contract_value settle_currency : string)
    (reference : TcaReference) (fills : list ExchangeFillIdentity) : analyzed ExecutionTcaAnalysis :=
  match fills with
  | [] => raise AeEmptyTcaFills
  | _ =>
    context ← validate_tca_context contract_value reference;
    let '(reference_price, contract_value) := context in
    s ← try_fold (tca_step instrument_id side settle_currency reference) scan_start fills;
    fill_vwap ← ts_weighted s /! ts_filled s;
    adverse ← match side with TcaBuy => fill_vwap -! reference_price | TcaSell => reference_price -! fill_vwap end;
    slippage ← adverse /! reference_price;
    slippage_bps ← slippage *! dec_of_int 10000;
    slipped ← adverse *! ts_filled s;
    gross_slippage ← slipped *! contract_value;
    let fee_totals := map (λ e, {| tft_currency := e.1; tft_exchange_fee_amount := dtext e.2 |}) (ts_fees s) in
    settle_fee_cost ← settle_cost settle_currency (ts_all_fees_in_settle s) fee_totals;
    net ← match settle_fee_cost with
          | Some fee => f ← decimal "tca.settle_fee_cost" fee; n ← gross_slippage +! f; Ok (Some (dtext n))
          | None => Ok None
          end;
    Ok {| eta_schema := EXECUTION_TCA_SCHEMA_V1;
          eta_instrument_id := instrument_id;
          eta_side := side;
          eta_reference_price := dtext reference_price;
          eta_reference_price_basis := tr_price_basis reference;
          eta_reference_price_policy_version := tr_price_policy_version reference;
          eta_reference_time_ms := tr_reference_time_ms reference;
          eta_first_fill_time_ms := ts_first_ms s;
          eta_last_fill_time_ms := ts_last_ms s;
          eta_reference_to_first_fill_ms := ts_first_ms s - tr_reference_time_ms reference;
          eta_reference_to_last_fill_ms := ts_last_ms s - tr_reference_time_ms reference;
          eta_filled_contracts := dtext (ts_filled s);
          eta_maker_contracts := dtext (ts_maker s);
          eta_taker_contracts := dtext (ts_taker s);
          eta_fill_vwap := dtext fill_vwap;
          eta_slippage_bps := dtext slippage_bps;
          eta_gross_slippage_settle := dtext gross_slippage;
          eta_fee_totals := fee_totals;
          eta_settle_fee_cost := settle_fee_cost;
          eta_net_execution_cost_settle := net |}
  end.

(** ** The report *)
(** The shortfall, or the reason why it is not known *)
Definition shortfall (basis : TcaReferencePriceBasis) (outcome : TcaFillOutcome) (observed : option ExecutionTcaAnalysis)
    : analyzed (option string * option string) :=
  match outcome, observed with
  | Complete, Some o =>
    if bool_decide (basis = DecisionPrice) then
      match eta_net_execution_cost_settle o with
      | Some cost => Ok (Some cost, None)
      | None => Ok (None, Some "settle_fee_cost_unavailable")
      end
    else Ok (None, Some "decision_price_reference_required")
  | Partial, _ => Ok (None, Some "unfilled_opportunity_cost_not_observed")
  | Missed, _ => Ok (None, Some "missed_fill_opportunity_cost_not_observed")
  | Complete, None => raise AeEmptyTcaFills
  end.
Definition analyze_execution_tca_report (instrument_id : string) (side : TcaSide)
    (contract_value settle_currency requested_contracts : string) (reference : TcaReference)
    (fills : list ExchangeFillIdentity) : analyzed ExecutionTcaReport :=
  requested ← positive_decimal "tca.requested_contracts" requested_contracts;
  _ ← validate_tca_context contract_value reference;
  observed ← match fills with
             | [] => Ok None
             | _ => a ← analyze_execution_tca instrument_id side contract_value settle_currency reference fills; Ok (Some a)
             end;
  filled ← match observed with
           | Some a => decimal "tca.filled_contracts" (eta_filled_contracts a)
           | None => Ok dec_zero
           end;
  if dec_ltb requested filled then raise (AeTcaFilledExceedsRequested (dtext filled) (dtext requested)) else
  unfilled ← requested -! filled;
  fill_ratio ← filled /! requested;
  let outcome := if is_zero filled then Missed else if dec_eqb filled requested then Complete else Partial in
  short ← shortfall (tr_price_basis reference) outcome observed;
  Ok {| etr_schema := EXECUTION_TCA_REPORT_SCHEMA_V2;
        etr_requested_contracts := dtext requested;
        etr_filled_contracts := dtext filled;
        etr_unfilled_contracts := dtext unfilled;
        etr_fill_ratio := dtext fill_ratio;
        etr_fill_outcome := outcome;
        etr_observed_execution := observed;
        etr_implementation_shortfall_settle := short.1;
        etr_implementation_shortfall_unavailable_reason := short.2 |}.
End tca.
Arguments TcaScan D : clear implicits.

(** ** What an accepted report says of the fills *)
Section laws.
Context {D : Type} `{AnalysisLaws D, !DivisionLaws D}.

(** A fill with its size, its price and their product *)
Definition Row : Type := (ExchangeFillIdentity * (D * D * D))%type.
Definition row_size (r : Row) : D := r.2.1.1.
Definition row_price (r : Row) : D := r.2.1.2.
Definition row_amount (r : Row) : D := r.2.2.
Definition is_maker (r : Row) : bool := bool_decide (efi_execution_type r.1 = Some "M").
Record row_ok (instrument_id : string) (side : TcaSide) (reference : TcaReference) (r : Row) : Prop := {
  ro_instrument : efi_instrument_id r.1 = instrument_id;
  ro_side : efi_side r.1 = tca_side_as_str side;
  ro_time : tr_reference_time_ms reference <= efi_fill_time_ms r.1;
  ro_size : dec_from_str (efi_fill_size r.1) = Some (row_size r) ∧ (0 < val (row_size r))%Q;
  ro_price : dec_from_str (efi_fill_price r.1) = Some (row_price r) ∧ (0 < val (row_price r))%Q;
  ro_amount : checked_mul (row_size r) (row_price r) = Some (row_amount r);
  ro_role : efi_execution_type r.1 = Some "M" ∨ efi_execution_type r.1 = Some "T";
}.
Definition makers (rows : list Row) : list Row := List.filter is_maker rows.
Definition takers (rows : list Row) : list Row := List.filter (λ r, negb (is_maker r)) rows.

(** The fee of a fill, and whether it is known in the currency of settlement *)
Definition row_fee (r : Row) : D := default dec_zero (efi_fee r.1 ≫= dec_from_str).
Definition fee_settled (settle : string) (fill : ExchangeFillIdentity) : bool :=
  bool_decide (efi_fee fill ≠ None) && bool_decide (efi_fee_currency fill = Some settle).

(** The scan after the rows [rows] *)
Record tca_scanned (instrument_id : string) (side : TcaSide) (settle : string) (reference : TcaReference)
    (rows : list Row) (s : TcaScan D) : Prop := {
  tc_rows : Forall (row_ok instrument_id side reference) rows;
  tc_unique : NoDup (map (λ r, efi_trade_id r.1) rows);
  tc_sorted : osorted (ts_trade_ids s);
  tc_ids : ∀ id, oget (ts_trade_ids s) id = Some tt ↔ id ∈ map (λ r, efi_trade_id r.1) rows;
  tc_filled : ksum (E:=AnalysisError) (map row_size rows) = Ok (ts_filled s);
  tc_weighted : ksum (E:=AnalysisError) (map row_amount rows) = Ok (ts_weighted s);
  tc_maker : ksum (E:=AnalysisError) (map row_size (makers rows)) = Ok (ts_maker s);
  tc_taker : ksum (E:=AnalysisError) (map row_size (takers rows)) = Ok (ts_taker s);
  tc_times : ∀ r, r ∈ rows → ts_first_ms s <= efi_fill_time_ms r.1 <= ts_last_ms s;
  tc_settle : ts_all_fees_in_settle s = forallb (λ r, fee_settled settle r.1) rows;
  tc_fees_sorted : osorted (ts_fees s);
  tc_fees : ts_all_fees_in_settle s = true →
    ksum (E:=AnalysisError) (map row_fee rows) = Ok (default dec_zero (oget (ts_fees s) settle));
}.

Lemma role_split_ok s t size m k :
  role_split s t size = Ok (m, k) →
  (t = Some "M" ∧ checked_add (ts_maker s) size = Some m ∧ k = ts_taker s)
  ∨ (t = Some "T" ∧ checked_add (ts_taker s) size = Some k ∧ m = ts_maker s).
Proof.
  unfold role_split. destruct t as [t|]; [|done]. destruct (String.eqb_spec t "M") as [->|_].
  - intros E. apply bind_ok in E as (x & Ex%or_panic_ok & [= -> ->]). by left.
  - destruct (String.eqb_spec t "T") as [->|_]; [|done]. intros E. apply bind_ok in E as (x & Ex%or_panic_ok & [= -> ->]). by right.
Qed.
Lemma fee_step_ok settle s (r : Row) fees all :
  fee_step settle s r.1 = Ok (fees, all) → osorted (ts_fees s) →
  all = ts_all_fees_in_settle s && fee_settled settle r.1 ∧ osorted fees
  ∧ (all = true → checked_add (default dec_zero (oget (ts_fees s) settle)) (row_fee r) = Some (default dec_zero (oget fees settle))).
Proof.
  unfold fee_step, row_fee, fee_settled. intros E Hs. destruct (efi_fee r.1) as [t|].
  2:{ injection E as <- <-. by rewrite andb_false_r. }
  apply bind_ok in E as (f & Ef%decimal_ok & E). apply bind_ok in E as (c & Ec%ok_or_ok & E).
  apply bind_ok in E as (x & Ex%or_panic_ok & E). injection E as <- <-. simpl. rewrite Ef. simpl.
  destruct (efi_fee_currency r.1) as [c'|]; [|done]. simpl in Ec. apply non_blank_Some in Ec as [<- _].
  assert (Hb : bool_decide (Some c = Some settle) = (c =? settle)%string).
  { destruct (String.eqb_spec c settle) as [->|]; [by apply bool_decide_eq_true|]. apply bool_decide_eq_false. congruence. }
  rewrite Hb. split; [done|]. split; [by apply oinsert_sorted|].
  intros [_ ->%String.eqb_eq]%andb_true_iff. by rewrite oget_oinsert_eq by apply kcmp_refl.
Qed.
Lemma filter_last {A} (p : A → bool) l x : List.filter p (l ++ [x]) = List.filter p l ++ (if p x then [x] else []).
Proof. rewrite List.filter_app. simpl. by destruct (p x). Qed.

Lemma tca_step_scanned instrument side settle reference rows s fill s' :
  tca_scanned instrument side settle reference rows s → tca_step instrument side settle reference s fill = Ok s' →
  ∃ r, r.1 = fill ∧ tca_scanned instrument side settle reference (rows ++ [r]) s'.
Proof.
  intros [Rr Ru Rs Ri Rf Rw Rm Rk Rt Rfee Rfs Rft] E. unfold tca_step in E.
  destruct (efi_instrument_id fill =? instrument)%string eqn:Ei; [|done]. apply String.eqb_eq in Ei.
  destruct (efi_side fill =? tca_side_as_str side)%string eqn:Esd; [|done]. apply String.eqb_eq in Esd. simpl in E.
  destruct (oget (ts_trade_ids s) (efi_trade_id fill)) as [[]|] eqn:Eid; [done|].
  destruct (efi_fill_time_ms fill <? tr_reference_time_ms reference) eqn:Etm; [done|]. apply Z.ltb_ge in Etm.
  apply bind_ok in E as (sz & [Esz Psz]%positive_ok & E). apply bind_ok in E as (pr & [Epr Ppr]%positive_ok & E).
  apply bind_ok in E as (f & Ef%or_panic_ok & E). apply bind_ok in E as (am & Eam%or_panic_ok & E).
  apply bind_ok in E as (w & Ew%or_panic_ok & E). apply bind_ok in E as ([m k] & Emk & E).
  apply bind_ok in E as ([fees all] & Efee & E). injection E as <-. apply role_split_ok in Emk.
  destruct (fee_step_ok settle s (fill, (sz, pr, am)) _ _ Efee Rfs) as (Fall & Fs & Ft).
  exists (fill, (sz, pr, am)). split; [done|]. split; cbn [ts_trade_ids ts_filled ts_weighted ts_maker ts_taker ts_fees ts_all_fees_in_settle ts_first_ms ts_last_ms fst snd].
  - apply Forall_app. split; [done|]. constructor; [|constructor]. split; try done. naive_solver.
  - rewrite map_app. apply NoDup_app. split; [done|]. split; [|apply NoDup_singleton].
    intros id Hin ->%list_elem_of_singleton. apply Ri in Hin. simpl in Hin. congruence.
  - by apply oinsert_sorted.
  - intros id. rewrite map_app, elem_of_app. destruct (decide (id = efi_trade_id fill)) as [->|Hne].
    + rewrite oget_oinsert_eq by apply kcmp_refl. simpl. split; [by right; left|done].
    + rewrite oget_oinsert_ne by (intros X%kcmp_eq; congruence). rewrite Ri. simpl. rewrite list_elem_of_singleton. naive_solver.
  - rewrite map_app. by eapply ksum_last.
  - rewrite map_app. by eapply ksum_last.
  - unfold makers. rewrite filter_last, map_app. destruct Emk as [(E1 & E2 & ->)|(E1 & E2 & ->)]; unfold is_maker at 2; simpl; rewrite E1; simpl.
    + by eapply ksum_last.
    + by rewrite app_nil_r.
  - unfold takers. rewrite filter_last, map_app. destruct Emk as [(E1 & E2 & ->)|(E1 & E2 & ->)]; unfold is_maker at 2; simpl; rewrite E1; simpl.
    + by rewrite app_nil_r.
    + by eapply ksum_last.
  - intros r [Hin| ->%list_elem_of_singleton]%elem_of_app; [specialize (Rt r Hin); lia|simpl; lia].
  - rewrite forallb_app. simpl. by rewrite andb_true_r, Fall, Rfee.
  - done.
  - intros Ha. rewrite map_app. eapply ksum_last; [|by apply Ft].
    apply Rft. rewrite Fall in Ha. by apply andb_true_iff in Ha as [? _].
Qed.

Lemma tca_scan_start instrument side settle reference : tca_scanned instrument side settle reference [] (scan_start (D:=D)).
Proof.
  split; [apply List.Forall_nil|apply NoDup_nil_2|constructor|intros id|done|done|done|done|by intros r ?%elem_of_nil|done|constructor|done].
  by split; [|intros ?%elem_of_nil].
Qed.
Lemma settle_cost_ok settle all (fees : list (string * D)) cost : osorted fees →
  settle_cost (D:=D) settle all (map (λ e, {| tft_currency := e.1; tft_exchange_fee_amount := dtext e.2 |}) fees) = Ok cost →
  if all then ∃ raw, cost = Some (dtext (dec_neg raw)) ∧ (val raw == val (default dec_zero (oget fees settle)))%Q
  else cost = None.
Proof.
  unfold settle_cost. intros Hs E. destruct all; [|by injection E as <-].
  apply bind_ok in E as (raw & Eraw & [= <-]). exists raw. split; [done|].
  destruct (List.find _ _) as [t|] eqn:Ef.
  - apply List.find_some in Ef as [Hin Hc%String.eqb_eq]. apply List.in_map_iff in Hin as ([c v] & <- & Hin). simpl in *. subst c.
    rewrite (elem_oget fees settle v Hs) by by apply list_elem_of_In. apply decimal_ok in Eraw. simpl. by apply from_text.
  - destruct (oget fees settle) as [v|] eqn:Eg; [|by injection Eraw as <-].
    apply oget_elem in Eg as (k & Hin & ->%kcmp_eq).
    apply list_elem_of_In, (List.in_map (λ e, {| tft_currency := e.1; tft_exchange_fee_amount := dtext e.2 |})),
      (List.find_none _ _ Ef) in Hin. simpl in Hin. by rewrite String.eqb_refl in Hin.
Qed.

(** What the report keeps of the scan *)
Record tca_reported (a : ExecutionTcaAnalysis) (s : TcaScan D) : Prop := {
  tp_filled : eta_filled_contracts a = dtext (ts_filled s);
  tp_maker : eta_maker_contracts a = dtext (ts_maker s);
  tp_taker : eta_taker_contracts a = dtext (ts_taker s);
  tp_times : eta_first_fill_time_ms a = ts_first_ms s ∧ eta_last_fill_time_ms a = ts_last_ms s;
  tp_vwap : ∃ v, eta_fill_vwap a = dtext v ∧ checked_div (ts_weighted s) (ts_filled s) = Some v;
}.
(** The cost of the fills [s], in [settle]: the adverse move of the price over the contracts
    and their value, and the fees that are paid *)
Definition cost_run (side : TcaSide) (rp v : D) (settle : string) (s : TcaScan D) (net : D) : Prop :=
  ∃ vwap adverse slipped gross fee,
    checked_div (ts_weighted s) (ts_filled s) = Some vwap
    ∧ match side with TcaBuy => checked_sub vwap rp | TcaSell => checked_sub rp vwap end = Some adverse
    ∧ checked_mul adverse (ts_filled s) = Some slipped ∧ checked_mul slipped v = Some gross
    ∧ (val fee == - val (default dec_zero (oget (ts_fees s) settle)))%Q ∧ checked_add gross fee = Some net.
Definition cost_reported (side : TcaSide) (cv : string) (settle : string) (reference : TcaReference)
    (a : ExecutionTcaAnalysis) (s : TcaScan D) : Prop :=
  if ts_all_fees_in_settle s then
    ∃ rp v net, dec_from_str (tr_price reference) = Some rp ∧ dec_from_str cv = Some v
      ∧ eta_net_execution_cost_settle a = Some (dtext net) ∧ cost_run side rp v settle s net
  else eta_net_execution_cost_settle a = None.
Lemma analyze_execution_tca_ok instrument side cv settle reference fills a :
  analyze_execution_tca (D:=D) instrument side cv settle reference fills = Ok a →
  fills ≠ [] ∧ ∃ rows s, map fst rows = fills ∧ tca_scanned instrument side settle reference rows s ∧ tca_reported a s
    ∧ cost_reported side cv settle reference a s.
Proof.
  unfold analyze_execution_tca. intros E. destruct fills as [|fill others] eqn:Ef; [done|]. rewrite <- Ef in *. split; [by rewrite Ef|].
  apply bind_ok in E as ([rp v] & Ectx & E). apply bind_ok in E as (s & Es & E).
  apply (try_fold_track (λ pre s, ∃ rows : list Row, map fst rows = pre ∧ tca_scanned instrument side settle reference rows s))
    with (pre := []) in Es.
  2:{ intros pre s0 x s1 (rows & <- & Hs) E1. destruct (tca_step_scanned _ _ _ _ _ _ _ _ Hs E1) as (r & <- & Hr).
      exists (rows ++ [r]). by rewrite map_app. }
  2:{ exists []. split; [done|apply tca_scan_start]. }
  destruct Es as (rows & Hrows & Hs). exists rows, s. split; [done|]. split; [done|].
  apply bind_ok in E as (vw & Evw%or_panic_ok & E). apply bind_ok in E as (adv & Eadv & E).
  do 2 (apply bind_ok in E as (? & _ & E)). apply bind_ok in E as (sl & Esl%or_panic_ok & E). apply bind_ok in E as (gr & Egr%or_panic_ok & E).
  apply bind_ok in E as (fc & Efc & E). apply bind_ok in E as (net & Enet & E). injection E as <-.
  split; [by split; simpl; try done; exists vw|]. apply (settle_cost_ok _ _ _ _ (tc_fees_sorted _ _ _ _ _ _ Hs)) in Efc.
  unfold cost_reported. destruct (ts_all_fees_in_settle s); [|subst fc; by injection Enet as <-].
  destruct Efc as (raw & -> & Vraw). apply bind_ok in Enet as (f & Ef'%decimal_ok%from_text & Enet).
  apply bind_ok in Enet as (n & En%or_panic_ok & [= <-]).
  unfold validate_tca_context in Ectx. destruct (_ =? 0); [done|]. destruct (_ || _); [done|].
  apply bind_ok in Ectx as (rp' & [Erp _]%positive_ok & Ectx). apply bind_ok in Ectx as (v' & [Ev _]%positive_ok & [= -> ->]).
  exists rp, v, n. do 3 (split; [done|]). exists vw, adv, sl, gr, f. split; [done|].
  split; [by destruct side; apply or_panic_ok in Eadv|]. do 2 (split; [done|]). split; [by rewrite Ef', neg_exact, Vraw|done].
Qed.

Lemma sizes_split (rows : list Row) :
  (qsum_of (map row_size (makers rows)) + qsum_of (map row_size (takers rows)) == qsum_of (map row_size rows))%Q.
Proof.
  unfold makers, takers. induction rows as [|r rows IH]; simpl; [lra|]. destruct (is_maker r); simpl; lra.
Qed.
(** Nothing is rounded when the sizes are summed, together and by role. *)
Definition sizes_exact (rows : list Row) : Prop :=
  sums_ok dec_zero (map row_size rows) ∧ sums_ok dec_zero (map row_size (makers rows)) ∧ sums_ok dec_zero (map row_size (takers rows)).

(** What the rows say: the contracts, the money paid or received for them at their prices,
    and the fees, as the exchange counts them (paid ones are negative) *)
Definition contracts_of (rows : list Row) : Q := qsum_of (map row_size rows).
Definition turnover_of (rows : list Row) : Q := foldr (λ r q, val (row_size r) * val (row_price r) + q)%Q 0%Q rows.
Definition fees_of (rows : list Row) : Q := qsum_of (map row_fee rows).
Definition adverse (side : TcaSide) (vwap reference : Q) : Q :=
  match side with TcaBuy => vwap - reference | TcaSell => reference - vwap end.
(** The cost against a reference price: what the contracts cost more (or brought in less)
    than at the reference, and the fees *)
Definition cost_of (side : TcaSide) (reference cv : Q) (rows : list Row) : Q :=
  match side with
  | TcaBuy => (turnover_of rows - reference * contracts_of rows) * cv - fees_of rows
  | TcaSell => (reference * contracts_of rows - turnover_of rows) * cv - fees_of rows
  end.
(** The digits of the fills and of the reference leave nothing to round on the way. *)
Definition cost_clear (side : TcaSide) (reference cv : Q) (rows : list Row) : Prop :=
  let move := adverse side (turnover_of rows / contracts_of rows) reference in
  sizes_exact rows ∧ sums_ok dec_zero (map row_amount rows) ∧ sums_ok dec_zero (map row_fee rows)
  ∧ Forall (λ r, representable (val (row_size r) * val (row_price r))%Q) rows
  ∧ short (turnover_of rows / contracts_of rows)%Q
  ∧ Forall representable [move; move * contracts_of rows; move * contracts_of rows * cv;
                          move * contracts_of rows * cv - fees_of rows]%Q.

Lemma turnover_sum instrument side reference rows :
  Forall (row_ok instrument side reference) rows →
  Forall (λ r, representable (val (row_size r) * val (row_price r))%Q) rows →
  (qsum_of (map row_amount rows) == turnover_of rows)%Q.
Proof.
  intros Hok Hr. induction Hok as [|r rows Ho Hok IH]; simpl; [done|]. apply Forall_cons in Hr as [Hr Hrs].
  by rewrite (IH Hrs), (mul_exact _ _ _ (ro_amount _ _ _ _ Ho) Hr).
Qed.
Lemma cost_value instrument side cv settle reference rows s rp v net :
  tca_scanned instrument side settle reference rows s → cost_run side rp v settle s net →
  ts_all_fees_in_settle s = true → (0 < contracts_of rows)%Q → cost_clear side (val rp) cv rows → (val v == cv)%Q →
  (val net == cost_of side (val rp) cv rows)%Q.
Proof.
  intros Hs (vw & adv & sl & gr & fee & Evw & Eadv & Esl & Egr & Vfee & Enet) Hall Hpos
    ((S1 & _ & _) & Sa & Sf & Hp & Hsh & Hr) Vv.
  rewrite !Forall_cons in Hr. destruct Hr as (R1 & R2 & R3 & R4 & _).
  pose proof (ksum_val _ _ (tc_filled _ _ _ _ _ _ Hs) S1) as VF. change (qsum_of (map row_size rows)) with (contracts_of rows) in VF.
  pose proof (ksum_val _ _ (tc_weighted _ _ _ _ _ _ Hs) Sa) as VW.
  rewrite (turnover_sum _ _ _ _ (tc_rows _ _ _ _ _ _ Hs) Hp) in VW.
  pose proof (ksum_val _ _ (tc_fees _ _ _ _ _ _ Hs Hall) Sf) as VE. change (qsum_of (map row_fee rows)) with (fees_of rows) in VE.
  assert (Vvw : (val vw == turnover_of rows / contracts_of rows)%Q).
  { rewrite (div_short _ _ _ Evw); [by rewrite VF, VW|by rewrite VF|]. eapply short_proper; [|exact Hsh]. by rewrite VF, VW. }
  assert (Vadv : (val adv == adverse side (turnover_of rows / contracts_of rows) (val rp))%Q).
  { destruct side; simpl in *; [apply (sub_eq _ _ _ _ _ Eadv Vvw (Qeq_refl _) R1)|apply (sub_eq _ _ _ _ _ Eadv (Qeq_refl _) Vvw R1)]. }
  pose proof (mul_eq _ _ _ _ _ Esl Vadv VF R2) as Vsl. pose proof (mul_eq _ _ _ _ _ Egr Vsl Vv R3) as Vgr.
  rewrite VE in Vfee. rewrite (add_eq _ _ _ _ _ Enet Vgr Vfee R4). unfold cost_of, adverse.
  destruct side; field; lra.
Qed.

(** Why the shortfall of a report is not known *)
Definition why_unavailable (basis : TcaReferencePriceBasis) (outcome : TcaFillOutcome) (settled : bool) : option string :=
  match outcome with
  | Missed => Some "missed_fill_opportunity_cost_not_observed"
  | Partial => Some "unfilled_opportunity_cost_not_observed"
  | Complete =>
    if negb (bool_decide (basis = DecisionPrice)) then Some "decision_price_reference_required"
    else if settled then None else Some "settle_fee_cost_unavailable"
  end.
(** The shortfall of a report: known exactly when nothing is in its way, and then the cost
    of the fills against the decision price *)
Definition shortfall_sound (side : TcaSide) (cv settle : string) (reference : TcaReference) (fills : list ExchangeFillIdentity)
    (rows : list Row) (r : ExecutionTcaReport) : Prop :=
  etr_implementation_shortfall_unavailable_reason r
    = why_unavailable (tr_price_basis reference) (etr_fill_outcome r) (forallb (fee_settled settle) fills)
  ∧ (etr_implementation_shortfall_settle r ≠ None ↔ etr_implementation_shortfall_unavailable_reason r = None)
  ∧ ∀ cost, etr_implementation_shortfall_settle r = Some cost → ∃ rp v net : D,
      dec_from_str (tr_price reference) = Some rp ∧ dec_from_str cv = Some v ∧ cost = dtext net
      ∧ (cost_clear side (val rp) (val v) rows → (val net == cost_of side (val rp) (val v) rows)%Q).

Lemma shortfall_ok side cv settle reference fills rows a s outcome cost reason (r : ExecutionTcaReport) instrument :
  shortfall (tr_price_basis reference) outcome (Some a) = Ok (cost, reason) →
  tca_scanned instrument side settle reference rows s → cost_reported side cv settle reference a s →
  map fst rows = fills → fills ≠ [] →
  etr_fill_outcome r = outcome → etr_implementation_shortfall_settle r = cost →
  etr_implementation_shortfall_unavailable_reason r = reason →
  shortfall_sound side cv settle reference fills rows r.
Proof.
  unfold shortfall_sound, shortfall, cost_reported. intros E Hs Hc <- Hne -> -> ->.
  assert (Hset : forallb (fee_settled settle) (map fst rows) = ts_all_fees_in_settle s).
  { rewrite (tc_settle _ _ _ _ _ _ Hs). clear. induction rows as [|x l IH]; [done|]. simpl in *. by rewrite IH. }
  rewrite Hset.
  destruct outcome; [injection E as <- <-; by split_and!..|]. simpl.
  case_bool_decide; simpl; [|injection E as <- <-; by split_and!].
  destruct (ts_all_fees_in_settle s) eqn:Eall; [|rewrite Hc in E; injection E as <- <-; by split_and!].
  destruct Hc as (rp & v & net & Erp & Ev & En & Hrun). rewrite En in E. injection E as <- <-.
  split; [done|]. split; [done|]. intros cost [= <-]. exists rp, v, net. do 3 (split; [done|]). intros Hclear.
  eapply cost_value; [done..| |done|done].
  destruct rows as [|x l]; [done|]. unfold contracts_of. simpl.
  pose proof (tc_rows _ _ _ _ _ _ Hs) as Hrows. apply Forall_cons in Hrows as [Hx Hl].
  pose proof (proj2 (ro_size _ _ _ _ Hx)). enough (0 <= qsum_of (map row_size l))%Q by lra.
  apply qsum_of_nonneg. intros y (r' & -> & Hin)%list_elem_of_fmap. rewrite Forall_forall in Hl.
  apply Qlt_le_weak, (ro_size _ _ _ _ (Hl _ Hin)).
Qed.

(** C31: The report of an execution.  Its fills are distinct, of the instrument and side
    that were asked for, none before the reference; the filled contracts are their sum,
    makers and takers together, and never more than requested; the outcome says exactly
    whether they are none, some or all of it.  A shortfall is reported exactly when the
    execution is complete, the reference is the decision price and every fill has a fee in
    the currency of settlement; it is then what the fills cost against that price, fees
    included, where the digits of the inputs leave nothing to round; otherwise the first
    of these that fails is reported as the reason. *)
Theorem tca_report_sound instrument side cv settle requested reference fills r :
  analyze_execution_tca_report (D:=D) instrument side cv settle requested reference fills = Ok r →
  ∃ (rows : list Row) (rq filled : D),
    map fst rows = fills ∧ Forall (row_ok instrument side reference) rows ∧ NoDup (map efi_trade_id fills)
    ∧ dec_from_str requested = Some rq ∧ etr_filled_contracts r = dtext filled ∧ (val filled <= val rq)%Q
    ∧ (sizes_exact rows → (val filled == contracts_of rows)%Q
       ∧ ∀ o, etr_observed_execution r = Some o → ∃ m k : D,
           eta_maker_contracts o = dtext m ∧ eta_taker_contracts o = dtext k ∧ (val m + val k == val filled)%Q)
    ∧ (etr_fill_outcome r = Missed ↔ (val filled == 0)%Q) ∧ (etr_fill_outcome r = Complete ↔ (val filled == val rq)%Q)
    ∧ shortfall_sound side cv settle reference fills rows r.
Proof.
  unfold analyze_execution_tca_report. intros E. apply bind_ok in E as (rq & [Erq Hrq]%positive_ok & E).
  apply bind_ok in E as (? & _ & E). apply bind_ok in E as (ob & Eob & E). apply bind_ok in E as (fl & Efl & E).
  destruct (dec_ltb rq fl) eqn:Elt; [done|]. apply dec_ltb_false in Elt. do 2 (apply bind_ok in E as (? & _ & E)). cbv zeta in E.
  apply bind_ok in E as ([cost reason] & Hshort & E). injection E as <-.
  assert (Hout : let o := if is_zero fl then Missed else if dec_eqb fl rq then Complete else Partial in
    (o = Missed ↔ (val fl == 0)%Q) ∧ (o = Complete ↔ (val fl == val rq)%Q)).
  { destruct (is_zero fl) eqn:Ez; [apply is_zero_val in Ez|].
    - cbv zeta. split; [done|]. split; [done|]. intros. lra.
    - assert (¬ (val fl == 0)%Q) by (intros X; apply is_zero_val in X; congruence).
      destruct (dec_eqb fl rq) eqn:Eq; [apply dec_eqb_val in Eq; done|]. split; [done|]. split; [done|].
      intros X. apply dec_eqb_val in X. congruence. }
  destruct Hout as [Ho1 Ho2].
  destruct fills as [|fill others] eqn:Ef.
  - injection Eob as <-. injection Efl as <-. exists [], rq, dec_zero. simpl.
    assert (Hz : is_zero (dec_zero (D:=D)) = true) by (apply is_zero_val, val_zero).
    rewrite Hz in *. injection Hshort as <- <-.
    split; [done|]. split; [apply List.Forall_nil|]. split; [apply NoDup_nil_2|]. do 3 (split; [done|]).
    split; [intros _; split; [apply val_zero|done]|]. do 2 (split; [done|]). unfold shortfall_sound. simpl. by split_and!.
  - rewrite <- Ef in *. apply bind_ok in Eob as (a & Ea & [= <-]).
    apply analyze_execution_tca_ok in Ea as (Hne & rows & s & Hrows & Hs & Ha & Hcost). apply decimal_ok in Efl.
    rewrite (tp_filled _ _ Ha) in Efl. apply from_text in Efl as Vfl.
    exists rows, rq, fl. simpl. split; [done|]. split; [by apply (tc_rows _ _ _ _ _ _ Hs)|].
    split; [rewrite <- Hrows, map_map; by apply (tc_unique _ _ _ _ _ _ Hs)|]. do 3 (split; [done|]). split.
    { intros (S1 & S2 & S3). pose proof (ksum_val _ _ (tc_filled _ _ _ _ _ _ Hs) S1) as V1.
      pose proof (ksum_val _ _ (tc_maker _ _ _ _ _ _ Hs) S2) as V2. pose proof (ksum_val _ _ (tc_taker _ _ _ _ _ _ Hs) S3) as V3.
      split; [by rewrite Vfl, V1|]. intros o [= <-]. exists (ts_maker s), (ts_taker s).
      split; [apply (tp_maker _ _ Ha)|]. split; [apply (tp_taker _ _ Ha)|]. rewrite V2, V3, Vfl, V1. apply sizes_split. }
    do 2 (split; [done|]). by eapply shortfall_ok.
Qed.
End laws.
