(* ===== verification/Statistics.v ===== *)
(** * Statistics: volatility of histories and portfolios

    The behaviour of a history of candles ([analyze_history_behavior] of
    [okx-analysis/src/scenario.rs]) and the statistics of a portfolio over aligned histories
    ([okx-analysis/src/statistics.rs]): covariance, volatility and its contributions, the
    worst of the past and a parallel move.  The square root is Newton's iteration of at
    most 64 steps, as in the code. *)
From stdpp Require Import base option list numbers strings.
From Stdlib Require Import ZArith QArith Qround Qminmax Lia Lqa Ascii.
From S2P Require Import Prelude Text Ordered External Decimals Lots MoneyText Faults Reference History Analysis.
Local Open Scope string_scope.
Local Open Scope list_scope.
Local Open Scope Z_scope.
Local Open Scope fault_scope.

Definition HISTORY_BEHAVIOR_SCHEMA_V1 : string := "okx.history-behavior/v1".
Definition SAMPLE_COVARIANCE_FORMULA_V1 : string := "sample-covariance/v1".
Definition PORTFOLIO_STATISTICS_SCHEMA_V1 : string := "okx.portfolio-statistics/v1".
Definition PORTFOLIO_VOLATILITY_FORMULA_V1 : string := "signed-notional-covariance-volatility/v1".
Definition HISTORICAL_STRESS_FORMULA_V1 : string := "aligned-one-bar-return-replay/v1".
Definition PARALLEL_SCENARIO_FORMULA_V1 : string := "parallel-price-move-signed-notional/v1".
Definition VOLATILITY_CONTRIBUTION_RECONCILIATION_TOLERANCE_USD : string := "0.000000000000000000000001".
Definition STATISTICS_VALUATION_BASIS : string :=
  "current signed position notionalUsd multiplied by simple confirmed close-to-close returns".
Definition EXPECTED_SHORTFALL_STATUS : string := "not_computed_without_declared_tail_sample_contract".

Record HistoryBehaviorAnalysis : Type := {
  hba_schema : string;
  hba_instrument_id : string;
  hba_bar : string;
  hba_reference_generation : string;
  hba_history_generation : string;
  hba_confirmed_candle_count : nat;
  hba_excluded_unconfirmed_count : nat;
  hba_oldest_confirmed_open_time_ms : string;
  hba_newest_confirmed_open_time_ms : string;
  hba_first_close : string;
  hba_last_close : string;
  hba_total_close_return_ratio : string;
  hba_mean_close_return_ratio : string;
  hba_mean_absolute_close_return_ratio : string;
  hba_max_absolute_close_return_ratio : string;
  hba_max_close_drawdown_ratio : string;
  hba_realized_volatility_ratio : string;
  hba_first_confirmed_volume : string;
  hba_last_confirmed_volume : string;
  hba_volume_change_ratio : option string;
  hba_highest_high : string;
  hba_lowest_low : string;
  hba_confirmed_high_low_range_ratio : string;
}.
Record StatisticalExposure : Type := { se_instrument_id : string; se_signed_notional_usd : string }.
Inductive PortfolioStatisticsStatus : Type := NotApplicableStatus | ReadyStatus.
Record CovarianceCell : Type := {
  cc_left_instrument : string;
  cc_right_instrument : string;
  cc_covariance : string;
  cc_correlation : option string;
}.
Record VolatilityContribution : Type := {
  vc_instrument_id : string;
  vc_signed_notional_usd : string;
  vc_return_volatility_ratio : string;
  vc_component_volatility_usd : string;
}.
Record HistoricalStressResult : Type := {
  hsr_formula_version : string;
  hsr_worst_return_endpoint_ms : string;
  hsr_worst_portfolio_pnl_usd : string;
  hsr_worst_portfolio_loss_usd : string;
}.
Record ParallelScenarioResult : Type := {
  psr_formula_version : string;
  psr_price_move_ratio : string;
  psr_portfolio_pnl_usd : string;
  psr_portfolio_loss_usd : string;
}.
Record StatisticalHistoryEvidence : Type := {
  she_instrument_id : string;
  she_reference_generation : string;
  she_history_generation : string;
  she_source : string;
  she_source_received_at : string;
  she_requested_limit : Z;
  she_confirmed_close_count : nat;
  she_excluded_unconfirmed_count : nat;
  she_oldest_confirmed_open_time_ms : string;
  she_newest_confirmed_open_time_ms : string;
}.
Record PortfolioStatisticsAnalysis : Type := {
  pst_schema : string;
  pst_status : PortfolioStatisticsStatus;
  pst_valuation_basis : string;
  pst_covariance_formula_version : string;
  pst_volatility_formula_version : string;
  pst_bar : option string;
  pst_reference_generation : option string;
  pst_history_evidence : list StatisticalHistoryEvidence;
  pst_confirmed_aligned_close_count : nat;
  pst_return_sample_count : nat;
  pst_oldest_aligned_close_time_ms : option string;
  pst_newest_aligned_close_time_ms : option string;
  pst_instruments : list string;
  pst_covariance : list CovarianceCell;
  pst_portfolio_volatility_usd : option string;
  pst_volatility_contribution : list VolatilityContribution;
  pst_reconciliation_residual_usd : option string;
  pst_reconciliation_tolerance_usd : string;
  pst_historical_stress : option HistoricalStressResult;
  pst_parallel_scenario : option ParallelScenarioResult;
  pst_expected_shortfall : option string;
  pst_expected_shortfall_status : string;
}.

Definition fixed_bar_interval_ms (bar : string) : analyzed Z :=
  let minutes (m : Z) : analyzed Z := Ok (m * 60 * 1000) in
  match bar with
  | "1m" => minutes 1
  | "3m" => minutes 3
  | "5m" => minutes 5
  | "15m" => minutes 15
  | "30m" => minutes 30
  | "1H" => minutes 60
  | "2H" => minutes 120
  | "4H" => minutes 240
  | "6H" | "6Hutc" => minutes 360
  | "12H" | "12Hutc" => minutes 720
  | "1D" | "1Dutc" => minutes 1440
  | "2D" | "2Dutc" => minutes 2880
  | "3D" | "3Dutc" => minutes 4320
  | "1W" | "1Wutc" => minutes 10080
  | other => raise (AeUnsupportedStatisticalBar other)
  end.

(** [slice.windows(2)] *)
Definition windows2 {A} (l : list A) : list (A * A) := combine l (tail l).

Section statistics.
Context {D : Type} `{DecimalAnalysis D}.

(** ** The square root *)
(** The loop: [n] iterations are left. *)
Fixpoint newton (n : nat) (value estimate : D) : analyzed D :=
  match n with
  | O => Ok estimate
  | S n' =>
    quotient ← value /! estimate;
    sum ← estimate +! quotient;
    next ← sum /! dec_of_int 2;
    if dec_eqb next estimate then Ok estimate else newton n' value next
  end.
Definition decimal_sqrt (value : D) : analyzed D :=
  if dec_leb value dec_zero then Ok dec_zero else
  estimate ← (if dec_ltb dec_one value then value /! dec_of_int 2 else Ok dec_one);
  root ← newton 64 value estimate;
  Ok (dec_normalize root).

(** ** The behaviour of a history *)
Record CandleScan : Type := {
  cs_previous : option Z; cs_closes : list D; cs_volumes : list D; cs_highest : option D; cs_lowest : option D }.
Definition candle_step (s : CandleScan) (candle : HistoryCandle) : analyzed CandleScan :=
  timestamp ← ok_or (Raised (AeInvalidHistoryTimestamp (hc_open_time_ms candle))) (parse_u64 (hc_open_time_ms candle));
  if match cs_previous s with Some previous => timestamp <=? previous | None => false end
  then raise AeHistoryNotChronological else
  open ← positive_decimal "history_open" (hc_open candle);
  high ← positive_decimal "history_high" (hc_high candle);
  low ← positive_decimal "history_low" (hc_low candle);
  close ← positive_decimal "history_close" (hc_close candle);
  volume ← decimal "history_volume" (hc_volume candle);
  if dec_ltb volume dec_zero then raise (AeNegative "history_volume") else
  if dec_ltb high open || dec_ltb high close || dec_ltb high low || dec_ltb open low || dec_ltb close low
  then raise (AeInvalidHistoryCandle (hc_open_time_ms candle)) else
  Ok {| cs_previous := Some timestamp;
        cs_closes := cs_closes s ++ [close];
        cs_volumes := cs_volumes s ++ [volume];
        cs_highest := Some (match cs_highest s with Some current => dec_max current high | None => high end);
        cs_lowest := Some (match cs_lowest s with Some current => dec_min current low | None => low end) |}.

Record ReturnScan : Type := {
  rt_sum : D; rt_absolute : D; rt_max_absolute : D; rt_squared : D; rt_peak : D; rt_max_drawdown : D }.
Definition close_return (pair : D * D) : analyzed D := ratio ← pair.2 /! pair.1; ratio -! dec_one.
Definition return_step (s : ReturnScan) (pair : D * D) : analyzed ReturnScan :=
  value ← close_return pair;
  let absolute := if dec_ltb value dec_zero then dec_neg value else value in
  sum ← rt_sum s +! value;
  absolute_sum ← rt_absolute s +! absolute;
  square ← value *! value;
  squared ← rt_squared s +! square;
  let peak := dec_max (rt_peak s) pair.2 in
  max_drawdown ← (if dec_ltb pair.2 peak
                  then lost ← peak -! pair.2; drawdown ← lost /! peak; Ok (dec_max (rt_max_drawdown s) drawdown)
                  else Ok (rt_max_drawdown s));
  Ok {| rt_sum := sum; rt_absolute := absolute_sum; rt_max_absolute := dec_max (rt_max_absolute s) absolute;
        rt_squared := squared; rt_peak := peak; rt_max_drawdown := max_drawdown |}.

Definition analyze_history_behavior (history : MarketHistorySnapshot) : analyzed HistoryBehaviorAnalysis :=
  let excluded := length (List.filter (λ c, negb (hc_confirmed c)) (mhs_candles history)) in
  let confirmed := List.filter hc_confirmed (mhs_candles history) in
  if (length confirmed <? 2)%nat then raise (AeInsufficientConfirmedHistory (length confirmed)) else
  s ← try_fold candle_step
        {| cs_previous := None; cs_closes := []; cs_volumes := []; cs_highest := None; cs_lowest := None |} confirmed;
  first_close ← or_panic (head (cs_closes s));
  last_close ← or_panic (last (cs_closes s));
  r ← try_fold return_step
        {| rt_sum := dec_zero; rt_absolute := dec_zero; rt_max_absolute := dec_zero; rt_squared := dec_zero;
           rt_peak := first_close; rt_max_drawdown := dec_zero |} (windows2 (cs_closes s));
  let return_count := dec_of_int (Z.of_nat (length (cs_closes s) - 1)) in
  realized_volatility ← decimal_sqrt (rt_squared r);
  first_volume ← or_panic (head (cs_volumes s));
  last_volume ← or_panic (last (cs_volumes s));
  volume_change ← (if dec_ltb dec_zero first_volume
                   then change ← close_return (first_volume, last_volume); Ok (Some (dtext change)) else Ok None);
  highest ← or_panic (cs_highest s);
  lowest ← or_panic (cs_lowest s);
  oldest ← or_panic (head confirmed);
  newest ← or_panic (last confirmed);
  total_return ← close_return (first_close, last_close);
  mean_return ← rt_sum r /! return_count;
  mean_absolute ← rt_absolute r /! return_count;
  range ← close_return (lowest, highest);
  Ok {| hba_schema := HISTORY_BEHAVIOR_SCHEMA_V1;
        hba_instrument_id := mhs_instrument_id history;
        hba_bar := mhs_bar history;
        hba_reference_generation := mhs_reference_generation history;
        hba_history_generation := mhs_history_generation history;
        hba_confirmed_candle_count := length confirmed;
        hba_excluded_unconfirmed_count := excluded;
        hba_oldest_confirmed_open_time_ms := hc_open_time_ms oldest;
        hba_newest_confirmed_open_time_ms := hc_open_time_ms newest;
        hba_first_close := dtext first_close;
        hba_last_close := dtext last_close;
        hba_total_close_return_ratio := dtext total_return;
        hba_mean_close_return_ratio := dtext mean_return;
        hba_mean_absolute_close_return_ratio := dtext mean_absolute;
        hba_max_absolute_close_return_ratio := dtext (rt_max_absolute r);
        hba_max_close_drawdown_ratio := dtext (rt_max_drawdown r);
        hba_realized_volatility_ratio := dtext realized_volatility;
        hba_first_confirmed_volume := dtext first_volume;
        hba_last_confirmed_volume := dtext last_volume;
        hba_volume_change_ratio := volume_change;
        hba_highest_high := dtext highest;
        hba_lowest_low := dtext lowest;
        hba_confirmed_high_low_range_ratio := dtext range |}.

(** ** Covariance *)
(** [sum((x - mean x) * (y - mean y)) / (n - 1)] of two series with their means *)
Definition covariance_of (denominator : D) (left right : list D * D) : analyzed D :=
  sum ← try_fold (λ (acc : D) (p : D * D),
          l ← p.1 -! left.2; r ← p.2 -! right.2; product ← l *! r; acc +! product)
        dec_zero (combine left.1 right.1);
  sum /! denominator.
Definition sample_covariance_matrix (series : list (list D)) : analyzed (list (list D)) :=
  match series with
  | [] => Ok []
  | first :: _ =>
    let samples := length first in
    if (samples <? 2)%nat then raise (AeInsufficientStatisticalSamples samples) else
    if existsb (λ values, negb (length values =? samples)%nat) series then raise AeStatisticalSeriesLengthMismatch else
    means ← try_map (λ values, total ← ksum values; total /! dec_of_int (Z.of_nat samples)) series;
    let rows := combine series means in
    try_map (λ left, try_map (covariance_of (dec_of_int (Z.of_nat (samples - 1))) left) rows) rows
  end.
Definition covariance_correlation (covariance left_variance right_variance : D) : analyzed (option D) :=
  left ← decimal_sqrt (dec_max left_variance dec_zero);
  right ← decimal_sqrt (dec_max right_variance dec_zero);
  denominator ← left *! right;
  if dec_ltb dec_zero denominator then q ← covariance /! denominator; Ok (Some q) else Ok None.

(** ** A portfolio *)
(** One exposure with its history *)
Record Holding : Type := { ho_instrument : string; ho_notional : D; ho_returns : list D }.
Record PortfolioScan : Type := {
  po_timestamps : option (list string); po_holdings : list Holding; po_evidence : list StatisticalHistoryEvidence }.
Definition is_gap (interval_ms : Z) (pair : Z * Z) : bool := negb (saturating_sub_u64 pair.2 pair.1 =? interval_ms).
Definition holding_step (histories : list MarketHistorySnapshot) (interval_ms : Z) (s : PortfolioScan)
    (exposure : StatisticalExposure) : analyzed PortfolioScan :=
  let instrument := se_instrument_id exposure in
  history ← ok_or (Raised AeStatisticalHistoryMismatch)
              (List.find (λ h, (mhs_instrument_id h =? instrument)%string) histories);
  let confirmed := List.filter hc_confirmed (mhs_candles history) in
  if (length confirmed <? 3)%nat then raise (AeInsufficientConfirmedStatisticalHistory instrument (length confirmed)) else
  let timestamps := map hc_open_time_ms confirmed in
  parsed ← try_map (λ value, ok_or (Raised (AeInvalidHistoryTimestamp value)) (parse_u64 value)) timestamps;
  if existsb (is_gap interval_ms) (windows2 parsed) then raise (AeStatisticalHistoryGap instrument) else
  if match po_timestamps s with Some expected => negb (bool_decide (expected = timestamps)) | None => false end
  then raise AeStatisticalHistoryNotAligned else
  closes ← try_map (λ c, positive_decimal "statistical_history_close" (hc_close c)) confirmed;
  returns ← try_map close_return (windows2 closes);
  oldest ← or_panic (head timestamps);
  newest ← or_panic (last timestamps);
  notional ← decimal "statistical_signed_notional_usd" (se_signed_notional_usd exposure);
  Ok {| po_timestamps := match po_timestamps s with Some expected => Some expected | None => Some timestamps end;
        po_holdings := po_holdings s ++ [{| ho_instrument := instrument; ho_notional := notional; ho_returns := returns |}];
        po_evidence := po_evidence s ++ [{|
          she_instrument_id := instrument;
          she_reference_generation := mhs_reference_generation history;
          she_history_generation := mhs_history_generation history;
          she_source := mhs_source history;
          she_source_received_at := mhs_source_received_at history;
          she_requested_limit := mhs_requested_limit history;
          she_confirmed_close_count := length confirmed;
          she_excluded_unconfirmed_count := length (List.filter (λ c, negb (hc_confirmed c)) (mhs_candles history));
          she_oldest_confirmed_open_time_ms := oldest;
          she_newest_confirmed_open_time_ms := newest |}] |}.

(** A cell of the matrix, with the variances of its row and column *)
Definition covariance_cell (left right : Holding * (list D * D)) (covariance : D) : analyzed CovarianceCell :=
  correlation ← covariance_correlation covariance left.2.2 right.2.2;
  Ok {| cc_left_instrument := ho_instrument left.1; cc_right_instrument := ho_instrument right.1;
        cc_covariance := dtext covariance; cc_correlation := option_map dtext correlation |}.
(** [sum of matrix[row][k] * notional[k]] *)
Definition weighted_row (notionals row : list D) : analyzed D :=
  try_fold (λ (acc : D) (p : D * D), x ← p.1 *! p.2; acc +! x) dec_zero (combine row notionals).
Definition contribution (volatility : D) (h : Holding) (root weight : D) : analyzed VolatilityContribution :=
  component ← (if dec_ltb dec_zero volatility then x ← ho_notional h *! weight; x /! volatility else Ok dec_zero);
  Ok {| vc_instrument_id := ho_instrument h; vc_signed_notional_usd := dtext (ho_notional h);
        vc_return_volatility_ratio := dtext root; vc_component_volatility_usd := dtext component |}.
Definition tolerance : D := dec_new 1 24.
(** The profit of the portfolio in each past bar *)
Definition add_returns (pnl : list D) (h : Holding) : analyzed (list D) :=
  try_map (λ p : D * D, x ← ho_notional h *! p.2; p.1 +! x) (combine pnl (ho_returns h)).
(** The first of the least: [min_by] of the indexed profits *)
Fixpoint worst_from (index : nat) (best : nat * D) (pnl : list D) : nat * D :=
  match pnl with
  | [] => best
  | x :: l => worst_from (S index) (if dec_ltb x best.2 then (index, x) else best) l
  end.
Definition worst_of (pnl : list D) : option (nat * D) :=
  match pnl with [] => None | x :: l => Some (worst_from 1 (0%nat, x) l) end.
Definition parallel_result (notionals : list D) (value : string) : analyzed ParallelScenarioResult :=
  move_ratio ← decimal "parallel_scenario_move_ratio" value;
  if dec_leb move_ratio (dec_neg dec_one) then raise AeScenarioMoveAtOrBelowNegativeOne else
  total ← ksum notionals;
  pnl ← total *! move_ratio;
  Ok {| psr_formula_version := PARALLEL_SCENARIO_FORMULA_V1; psr_price_move_ratio := dtext move_ratio;
        psr_portfolio_pnl_usd := dtext pnl; psr_portfolio_loss_usd := dtext (dec_max (dec_neg pnl) dec_zero) |}.

(** A report without exposures, and what the two reports share *)
Definition statistics_report (status : PortfolioStatisticsStatus) (bar reference : option string) : PortfolioStatisticsAnalysis := {|
  pst_schema := PORTFOLIO_STATISTICS_SCHEMA_V1; pst_status := status;
  pst_valuation_basis := STATISTICS_VALUATION_BASIS;
  pst_covariance_formula_version := SAMPLE_COVARIANCE_FORMULA_V1;
  pst_volatility_formula_version := PORTFOLIO_VOLATILITY_FORMULA_V1;
  pst_bar := bar; pst_reference_generation := reference; pst_history_evidence := [];
  pst_confirmed_aligned_close_count := 0; pst_return_sample_count := 0;
  pst_oldest_aligned_close_time_ms := None; pst_newest_aligned_close_time_ms := None; pst_instruments := [];
  pst_covariance := []; pst_portfolio_volatility_usd := None; pst_volatility_contribution := [];
  pst_reconciliation_residual_usd := None;
  pst_reconciliation_tolerance_usd := VOLATILITY_CONTRIBUTION_RECONCILIATION_TOLERANCE_USD;
  pst_historical_stress := None; pst_parallel_scenario := None; pst_expected_shortfall := None;
  pst_expected_shortfall_status := EXPECTED_SHORTFALL_STATUS |}.

(** The volatility of the portfolio and the contributions to it, which must add up *)
Definition volatility_split (holdings : list Holding) (roots weights : list D) : analyzed (D * list VolatilityContribution * D) :=
  variance ← try_fold (λ (acc : D) (p : Holding * D), x ← ho_notional p.1 *! p.2; acc +! x) dec_zero (combine holdings weights);
  volatility ← decimal_sqrt (dec_max variance dec_zero);
  rows ← try_map (λ p : Holding * D * D, contribution volatility p.1.1 p.1.2 p.2) (combine (combine holdings roots) weights);
  parts ← try_map (λ row, decimal "component_volatility_usd" (vc_component_volatility_usd row)) rows;
  total ← ksum parts;
  residual ← volatility -! total;
  if dec_ltb tolerance (dec_abs residual)
  then raise (AeStatisticalVolatilityReconciliationExceeded (dtext residual) VOLATILITY_CONTRIBUTION_RECONCILIATION_TOLERANCE_USD)
  else Ok (volatility, rows, residual).

Definition historical_stress (timestamps : list string) (holdings : list Holding) (samples : nat) : analyzed HistoricalStressResult :=
  pnl ← try_fold add_returns (replicate samples dec_zero) holdings;
  worst ← or_panic (worst_of pnl);
  endpoint ← or_panic (timestamps !! S worst.1);
  Ok {| hsr_formula_version := HISTORICAL_STRESS_FORMULA_V1; hsr_worst_return_endpoint_ms := endpoint;
        hsr_worst_portfolio_pnl_usd := dtext worst.2;
        hsr_worst_portfolio_loss_usd := dtext (dec_max (dec_neg worst.2) dec_zero) |}.

Definition analyze_portfolio_statistics (exposures : list StatisticalExposure) (histories : list MarketHistorySnapshot)
    (parallel_scenario_move_ratio : option string) : analyzed PortfolioStatisticsAnalysis :=
  match exposures with
  | [] => Ok (statistics_report NotApplicableStatus (option_map mhs_bar (head histories))
                (option_map mhs_reference_generation (head histories)))
  | _ =>
    if (8 <? length exposures)%nat then raise (AeStatisticalUniverseTooLarge (length exposures)) else
    if negb (length histories =? length exposures)%nat then raise AeStatisticalHistoryMismatch else
    first ← ok_or (Raised AeStatisticalHistoryMismatch) (head histories);
    let bar := mhs_bar first in
    if existsb (λ h, negb (mhs_bar h =? bar)%string) histories then raise AeStatisticalBarMismatch else
    interval_ms ← fixed_bar_interval_ms bar;
    let reference := mhs_reference_generation first in
    if existsb (λ h, negb (mhs_reference_generation h =? reference)%string) histories
    then raise AeStatisticalReferenceMismatch else
    s ← try_fold (holding_step histories interval_ms) {| po_timestamps := None; po_holdings := []; po_evidence := [] |} exposures;
    timestamps ← or_panic (po_timestamps s);
    let holdings := po_holdings s in
    matrix ← sample_covariance_matrix (map ho_returns holdings);
    samples ← or_panic (option_map (λ h, length (ho_returns h)) (head holdings));
    let variances := imap (λ k row, default dec_zero (row !! k)) matrix in
    roots ← try_map (λ v, decimal_sqrt (dec_max v dec_zero)) variances;
    let rows := combine holdings (combine matrix variances) in
    cells ← try_map (λ left, try_map (λ p : (Holding * (list D * D)) * D, covariance_cell left p.1 p.2)
                                     (combine rows left.2.1)) rows;
    weights ← try_map (weighted_row (map ho_notional holdings)) matrix;
    split ← volatility_split holdings roots weights;
    let '(volatility, contributions, residual) := split in
    stress ← historical_stress timestamps holdings samples;
    parallel ← match parallel_scenario_move_ratio with
               | Some value => r ← parallel_result (map ho_notional holdings) value; Ok (Some r)
               | None => Ok None
               end;
    let base := statistics_report ReadyStatus (Some bar) (Some reference) in
    Ok {| pst_schema := pst_schema base; pst_status := pst_status base; pst_valuation_basis := pst_valuation_basis base;
          pst_covariance_formula_version := pst_covariance_formula_version base;
          pst_volatility_formula_version := pst_volatility_formula_version base;
          pst_bar := pst_bar base; pst_reference_generation := pst_reference_generation base;
          pst_history_evidence := po_evidence s;
          pst_confirmed_aligned_close_count := length timestamps;
          pst_return_sample_count := samples;
          pst_oldest_aligned_close_time_ms := head timestamps;
          pst_newest_aligned_close_time_ms := last timestamps;
          pst_instruments := map ho_instrument holdings;
          pst_covariance := concat cells;
          pst_portfolio_volatility_usd := Some (dtext volatility);
          pst_volatility_contribution := contributions;
          pst_reconciliation_residual_usd := Some (dtext residual);
          pst_reconciliation_tolerance_usd := pst_reconciliation_tolerance_usd base;
          pst_historical_stress := Some stress;
          pst_parallel_scenario := parallel;
          pst_expected_shortfall := None;
          pst_expected_shortfall_status := pst_expected_shortfall_status base |}
  end.
End statistics.
Arguments CandleScan D : clear implicits.
Arguments ReturnScan D : clear implicits.
Arguments Holding D : clear implicits.
Arguments PortfolioScan D : clear implicits.
