(* ===== verification/Validation.v ===== *)
(** * Validation: statistics of a validation run, [okx-analysis/src/validation.rs]

    Profits of the trades of a run: their totals, deviation and drawdown, the same by
    regime of volatility, and the stress of the trading costs. *)
From stdpp Require Import base option list numbers strings sorting.
From Stdlib Require Import ZArith QArith Qround Qminmax Lia Lqa Ascii.
From S2P Require Import Prelude Text Ordered External Decimals Lots MoneyText Faults Reference History Analysis Statistics.
Local Open Scope string_scope.
Local Open Scope list_scope.
Local Open Scope Z_scope.
Local Open Scope fault_scope.

Definition VALIDATION_SAMPLE_STATISTICS_SCHEMA_V1 : string := "okx.analysis.validation-sample-statistics/v1".
Definition VALIDATION_STATISTICS_ALGORITHM_V1 : string := "okx.analysis.validation-statistics/2026-10-05.1".
Definition VALIDATION_COST_STRESS_SCHEMA_V1 : string := "okx.analysis.validation-cost-stress/v1".
Definition VALIDATION_COST_STRESS_ALGORITHM_V1 : string := "okx.analysis.validation-cost-stress/2026-10-05.1".

Record ValidationSampleStatistics : Type := {
  vss_schema : string;
  vss_algorithm_version : string;
  vss_sample_count : nat;
  vss_total_net_pnl_quote : string;
  vss_mean_net_pnl_quote : string;
  vss_sample_stddev_net_pnl_quote : string;
  vss_mean_to_sample_stddev_ratio : option string;
  vss_win_count : nat;
  vss_loss_count : nat;
  vss_zero_count : nat;
  vss_gross_profit_quote : string;
  vss_gross_loss_abs_quote : string;
  vss_profit_factor : option string;
  vss_max_drawdown_quote : string;
}.
Record ValidationCostStressPoint : Type := { vcp_trading_cost_multiplier : string; vcp_stressed_net_pnl_quote : string }.
Record ValidationCostStress : Type := {
  vcs_schema : string;
  vcs_algorithm_version : string;
  vcs_points : list ValidationCostStressPoint;
  vcs_monotonic_nonincreasing : bool;
}.
Inductive ValidationVolatilityRegime : Type := RegimeLow | RegimeHigh.
#[export] Instance ValidationVolatilityRegime_eq_dec : EqDecision ValidationVolatilityRegime.
Proof. solve_decision. Defined.
Record ValidationRegimeStatistics : Type := {
  vrs_regime : ValidationVolatilityRegime;
  vrs_trade_count : nat;
  vrs_net_pnl_quote : string;
  vrs_statistics : option ValidationSampleStatistics;
}.

Section validation.
Context {D : Type} `{DecimalAnalysis D}.

(** [Decimal::from_str] without the scan of [decimal] *)
Definition validation_decimal (field value : string) : analyzed D :=
  ok_or (Raised (AeInvalidDecimal field value)) (dec_from_str value).

(** ** Regimes *)
Definition validation_absolute_return (open close : string) : analyzed D :=
  o ← validation_decimal "validation_regime_open" open;
  c ← validation_decimal "validation_regime_close" close;
  if dec_leb o dec_zero then raise (AeNonPositive "validation_regime_open") else
  move ← c -! o; ratio ← move /! o; Ok (dec_abs ratio).
Definition dec_le (x y : D) : Prop := dec_leb x y = true.
#[export] Instance dec_le_dec : RelDecision dec_le.
Proof. intros x y. apply bool_eq_dec. Defined.
Definition validation_median_absolute_return (prices : list (string * string)) : analyzed string :=
  match prices with
  | [] => raise (AeInsufficientStatisticalSamples 0)
  | _ =>
    unsorted ← try_map (λ p, validation_absolute_return p.1 p.2) prices;
    let values := merge_sort dec_le unsorted in
    let middle := (length values / 2)%nat in
    median ← (if Nat.even (length values) then
                a ← or_panic (values !! (middle - 1)%nat); b ← or_panic (values !! middle);
                sum ← a +! b; sum /! dec_of_int 2
              else or_panic (values !! middle));
    Ok (dtext median)
  end.
Definition classify_validation_volatility_regime (open close threshold_abs_return : string) : analyzed ValidationVolatilityRegime :=
  threshold ← validation_decimal "validation_regime_threshold_abs_return" threshold_abs_return;
  if dec_ltb threshold dec_zero then raise (AeNegative "validation_regime_threshold_abs_return") else
  value ← validation_absolute_return open close;
  Ok (if dec_leb value threshold then RegimeLow else RegimeHigh).

(** ** The samples of a run *)
Record SampleScan : Type := {
  sm_wins : nat; sm_losses : nat; sm_zeros : nat; sm_profit : D; sm_loss : D;
  sm_cumulative : D; sm_peak : D; sm_max_drawdown : D }.
Definition sample_start : SampleScan := {|
  sm_wins := 0; sm_losses := 0; sm_zeros := 0; sm_profit := dec_zero; sm_loss := dec_zero;
  sm_cumulative := dec_zero; sm_peak := dec_zero; sm_max_drawdown := dec_zero |}.
(** The counts and sums of wins and losses after a sample *)
Definition count_sample (s : SampleScan) (value : D) : analyzed (nat * nat * nat * D * D) :=
  if dec_ltb dec_zero value then
    profit ← sm_profit s +! value; Ok (S (sm_wins s), sm_losses s, sm_zeros s, profit, sm_loss s)
  else if dec_ltb value dec_zero then
    loss ← sm_loss s +! dec_neg value; Ok (sm_wins s, S (sm_losses s), sm_zeros s, sm_profit s, loss)
  else Ok (sm_wins s, sm_losses s, S (sm_zeros s), sm_profit s, sm_loss s).
Definition sample_step (s : SampleScan) (value : D) : analyzed SampleScan :=
  counts ← count_sample s value;
  let '(wins, losses, zeros, profit, loss) := counts in
  cumulative ← sm_cumulative s +! value;
  let peak := if dec_ltb (sm_peak s) cumulative then cumulative else sm_peak s in
  drawdown ← peak -! cumulative;
  Ok {| sm_wins := wins; sm_losses := losses; sm_zeros := zeros; sm_profit := profit; sm_loss := loss;
        sm_cumulative := cumulative; sm_peak := peak;
        sm_max_drawdown := if dec_ltb (sm_max_drawdown s) drawdown then drawdown else sm_max_drawdown s |}.
Definition analyze_validation_pnl_samples (samples : list string) : analyzed ValidationSampleStatistics :=
  if (length samples <? 2)%nat then raise (AeInsufficientStatisticalSamples (length samples)) else
  values ← try_map (validation_decimal "validation_net_pnl_quote") samples;
  total ← ksum values;
  mean ← total /! dec_of_int (Z.of_nat (length values));
  squares ← try_map (λ v, delta ← v -! mean; delta *! delta) values;
  square_sum ← ksum squares;
  variance ← square_sum /! dec_of_int (Z.of_nat (length values - 1));
  stddev ← decimal_sqrt variance;
  mean_ratio ← (if dec_ltb dec_zero stddev then q ← mean /! stddev; Ok (Some (dtext q)) else Ok None);
  s ← try_fold sample_step sample_start values;
  factor ← (if dec_ltb dec_zero (sm_loss s) then q ← sm_profit s /! sm_loss s; Ok (Some (dtext q)) else Ok None);
  Ok {| vss_schema := VALIDATION_SAMPLE_STATISTICS_SCHEMA_V1;
        vss_algorithm_version := VALIDATION_STATISTICS_ALGORITHM_V1;
        vss_sample_count := length samples;
        vss_total_net_pnl_quote := dtext total;
        vss_mean_net_pnl_quote := dtext mean;
        vss_sample_stddev_net_pnl_quote := dtext stddev;
        vss_mean_to_sample_stddev_ratio := mean_ratio;
        vss_win_count := sm_wins s;
        vss_loss_count := sm_losses s;
        vss_zero_count := sm_zeros s;
        vss_gross_profit_quote := dtext (sm_profit s);
        vss_gross_loss_abs_quote := dtext (sm_loss s);
        vss_profit_factor := factor;
        vss_max_drawdown_quote := dtext (sm_max_drawdown s) |}.

Definition regime_statistics (samples : list (ValidationVolatilityRegime * string)) (regime : ValidationVolatilityRegime)
    : analyzed ValidationRegimeStatistics :=
  let values := map snd (List.filter (λ s, bool_decide (s.1 = regime)) samples) in
  pnl ← try_map (validation_decimal "validation_regime_net_pnl_quote") values;
  net ← ksum pnl;
  statistics ← (if (2 <=? length values)%nat
                then s ← analyze_validation_pnl_samples values; Ok (Some s) else Ok None);
  Ok {| vrs_regime := regime; vrs_trade_count := length values; vrs_net_pnl_quote := dtext net; vrs_statistics := statistics |}.
Definition analyze_validation_regime_pnl (samples : list (ValidationVolatilityRegime * string))
    : analyzed (list ValidationRegimeStatistics) :=
  try_map (regime_statistics samples) [RegimeLow; RegimeHigh].

(** ** The stress of the costs *)
Definition multipliers : list D := [dec_one; dec_new 15 1; dec_of_int 2].
Definition stress_step (gross trading_cost funding_cost : D) (acc : option D * bool * list ValidationCostStressPoint) (multiplier : D)
    : analyzed (option D * bool * list ValidationCostStressPoint) :=
  let '(previous, monotonic, points) := acc in
  cost ← trading_cost *! multiplier;
  after_cost ← gross -! cost;
  stressed ← after_cost -! funding_cost;
  Ok (Some stressed,
      monotonic && negb (match previous with Some value => dec_ltb value stressed | None => false end),
      points ++ [{| vcp_trading_cost_multiplier := dtext multiplier; vcp_stressed_net_pnl_quote := dtext stressed |}]).
Definition analyze_validation_cost_stress (gross_pnl_quote trading_cost_quote funding_cost_quote : string)
    : analyzed ValidationCostStress :=
  gross ← validation_decimal "validation_gross_pnl_quote" gross_pnl_quote;
  trading_cost ← validation_decimal "validation_trading_cost_quote" trading_cost_quote;
  funding_cost ← validation_decimal "validation_funding_cost_quote" funding_cost_quote;
  if dec_ltb trading_cost dec_zero then raise (AeNegative "validation_trading_cost_quote") else
  acc ← try_fold (stress_step gross trading_cost funding_cost) (None, true, []) multipliers;
  Ok {| vcs_schema := VALIDATION_COST_STRESS_SCHEMA_V1; vcs_algorithm_version := VALIDATION_COST_STRESS_ALGORITHM_V1;
        vcs_points := acc.2; vcs_monotonic_nonincreasing := acc.1.2 |}.
End validation.
Arguments SampleScan D : clear implicits.

(** ** The samples of a run: wins, losses and the drawdown *)
Section laws.
Context {D : Type} `{AnalysisLaws D}.

(** The cumulative profits after the first [k] samples *)
Definition cumulative_to (values : list D) (k : nat) : Q := qsum_of (take k values).
(** No sum of the run rounds. *)
Definition run_exact (values : list D) : Prop :=
  sums_ok dec_zero values ∧ sums_ok dec_zero (List.filter (λ v, dec_ltb dec_zero v) values)
  ∧ sums_ok dec_zero (map dec_neg (List.filter (λ v, dec_ltb v dec_zero) values))
  ∧ ∀ i k, representable (cumulative_to values i - cumulative_to values k)%Q.

Record sampled (pre : list D) (s : SampleScan D) : Prop := {
  sp_counts : (sm_wins s + sm_losses s + sm_zeros s = length pre)%nat;
  sp_profit : ksum (E:=AnalysisError) (List.filter (λ v, dec_ltb dec_zero v) pre) = Ok (sm_profit s);
  sp_loss : ksum (E:=AnalysisError) (map dec_neg (List.filter (λ v, dec_ltb v dec_zero) pre)) = Ok (sm_loss s);
  sp_cumulative : ksum (E:=AnalysisError) pre = Ok (sm_cumulative s);
}.
Lemma filter_one {A} (p : A → bool) l x : List.filter p (l ++ [x]) = List.filter p l ++ (if p x then [x] else []).
Proof. rewrite List.filter_app. simpl. by destruct (p x). Qed.
Lemma sample_step_sampled pre s v s' : sampled pre s → sample_step s v = Ok s' → sampled (pre ++ [v]) s'.
Proof.
  intros [Hc Hp Hl Hs] E. unfold sample_step in E. apply bind_ok in E as ([[[[w l] z] p] o] & Ec & E).
  apply bind_ok in E as (c & Ecu%or_panic_ok & E). cbv zeta in E. apply bind_ok in E as (d & _ & E). injection E as <-.
  unfold count_sample in Ec. destruct (dec_ltb dec_zero v) eqn:E1; [|destruct (dec_ltb v dec_zero) eqn:E2].
  - apply bind_ok in Ec as (x & Ex%or_panic_ok & Ec). injection Ec as <- <- <- <- <-.
    assert (E2 : dec_ltb v dec_zero = false) by (apply dec_ltb_val in E1; apply dec_ltb_false; lra).
    split; simpl; [rewrite length_app; simpl; lia|rewrite filter_one, E1; by eapply ksum_last| |by eapply ksum_last].
    by rewrite filter_one, E2, app_nil_r.
  - apply bind_ok in Ec as (x & Ex%or_panic_ok & Ec). injection Ec as <- <- <- <- <-.
    split; simpl; [rewrite length_app; simpl; lia|by rewrite filter_one, E1, app_nil_r| |by eapply ksum_last].
    rewrite filter_one, E2, map_app. by eapply ksum_last.
  - injection Ec as <- <- <- <- <-.
    split; simpl; [rewrite length_app; simpl; lia|by rewrite filter_one, E1, app_nil_r
                  |by rewrite filter_one, E2, app_nil_r|by eapply ksum_last].
Qed.

(** The drawdown of a run: the deepest fall of the cumulative profit from an earlier peak *)
Record drawn (pre : list D) (s : SampleScan D) : Prop := {
  dr_cumulative : (val (sm_cumulative s) == cumulative_to pre (length pre))%Q;
  dr_above : ∀ i, (i <= length pre)%nat → (cumulative_to pre i <= val (sm_peak s))%Q;
  dr_peak : ∃ i, (i <= length pre)%nat ∧ (val (sm_peak s) == cumulative_to pre i)%Q;
  dr_deepest : ∀ i k, (i <= k)%nat → (k <= length pre)%nat →
    (cumulative_to pre i - cumulative_to pre k <= val (sm_max_drawdown s))%Q;
  dr_reached : ∃ i k, (i <= k)%nat ∧ (k <= length pre)%nat
    ∧ (val (sm_max_drawdown s) == cumulative_to pre i - cumulative_to pre k)%Q;
}.
Lemma cumulative_prefix pre values i :
  pre `prefix_of` values → (i <= length pre)%nat → cumulative_to values i = cumulative_to pre i.
Proof. intros [l ->] Hi. unfold cumulative_to. by rewrite take_app_le. Qed.
Lemma cumulative_last pre v : (cumulative_to (pre ++ [v]) (S (length pre)) == cumulative_to pre (length pre) + val v)%Q.
Proof.
  unfold cumulative_to. rewrite take_ge by (rewrite length_app; simpl; lia). rewrite qsum_of_app, take_ge by lia. simpl. lra.
Qed.
(** The larger of two decimals, as the code takes it *)
Lemma larger_val (x y : D) : (val (if dec_ltb x y then y else x) == Qmax (val x) (val y))%Q.
Proof. destruct (dec_ltb x y) eqn:E; reflect_decs; symmetry; [apply Q.max_r; lra|by apply Q.max_l]. Qed.

Lemma sample_step_drawn values pre s v s' :
  (∀ i k, representable (cumulative_to values i - cumulative_to values k)%Q) → sums_ok dec_zero values →
  (pre ++ [v]) `prefix_of` values → drawn pre s → sample_step s v = Ok s' → drawn (pre ++ [v]) s'.
Proof.
  intros Hex Hsum Hpre [Dc Da (ip & Hip & Dp) Dd (i0 & k0 & Hik & Hk & Dr)] E. unfold sample_step in E.
  apply bind_ok in E as ([[[[w l] z] p] o] & _ & E). apply bind_ok in E as (c & Ec%or_panic_ok & E). cbv zeta in E.
  apply bind_ok in E as (d & Ed%or_panic_ok & E). injection E as <-.
  set (n := length pre). set (q := pre ++ [v]) in *. assert (Hn : length q = S n) by (unfold q; rewrite length_app; simpl; lia).
  assert (Hold : ∀ i, (i <= n)%nat → cumulative_to q i = cumulative_to pre i).
  { intros i Hi. apply cumulative_prefix; [by exists [v]|done]. }
  assert (Vc : (val c == cumulative_to q (S n))%Q).
  { unfold q, n. rewrite cumulative_last, <- Dc. apply (add_exact _ _ _ Ec).
    eapply representable_proper; [|apply (Hsum (S n))]. change (qsum_of (take (S n) values)) with (cumulative_to values (S n)).
    rewrite (cumulative_prefix q values (S n)) by (done || lia). unfold q, n. rewrite cumulative_last, Dc, val_zero. lra. }
  set (peak := if dec_ltb (sm_peak s) c then c else sm_peak s) in *.
  assert (Vp : (val peak == Qmax (val (sm_peak s)) (val c))%Q) by apply larger_val.
  assert (Hpeak : ∃ i, (i <= S n)%nat ∧ (val peak == cumulative_to q i)%Q).
  { destruct (Q.max_spec (val (sm_peak s)) (val c)) as [[_ M]|[_ M]]; rewrite M in Vp.
    - exists (S n). by rewrite Vp.
    - exists ip. rewrite Vp, Dp, Hold by done. split; [lia|done]. }
  destruct Hpeak as (j & Hj & Vj).
  assert (Vd : (val d == cumulative_to q j - cumulative_to q (S n))%Q).
  { apply (sub_eq _ _ _ _ _ Ed Vj Vc). rewrite <- !(cumulative_prefix q values) by (done || lia). apply Hex. }
  pose proof (larger_val (sm_max_drawdown s) d) as Vm.
  destruct (Q.max_spec (val (sm_peak s)) (val c)) as [[Hc M]|[Hc M]]; rewrite M in Vp;
  destruct (Q.max_spec (val (sm_max_drawdown s)) (val d)) as [[Hd M2]|[Hd M2]]; rewrite M2 in Vm;
  (split; rewrite Hn; cbn [sm_cumulative sm_peak sm_max_drawdown];
    [exact Vc
    |intros i Hi; destruct (decide (i = S n)) as [->|]; [lra|rewrite Hold by lia; specialize (Da i ltac:(lia)); lra]
    |by exists j
    |intros i k Hi Hk'; destruct (decide (k = S n)) as [->|]; [|rewrite !Hold by lia; specialize (Dd i k ltac:(lia) ltac:(lia)); lra];
      destruct (decide (i = S n)) as [->|]; [specialize (Dd 0%nat 0%nat ltac:(lia) ltac:(lia)); lra|];
      rewrite (Hold i) by lia; specialize (Da i ltac:(lia)); lra
    |first [exists j, (S n); split; [done|]; split; [lia|]; lra
           |exists i0, k0; split; [done|]; split; [lia|]; rewrite !Hold by lia; lra]]).
Qed.

Lemma wins_and_losses (values : list D) :
  (qsum_of (List.filter (λ v, dec_ltb dec_zero v) values)
   - qsum_of (map dec_neg (List.filter (λ v, dec_ltb v dec_zero) values)) == qsum_of values)%Q.
Proof.
  induction values as [|v l IH]; simpl; [lra|]. destruct (dec_ltb dec_zero v) eqn:E1; destruct (dec_ltb v dec_zero) eqn:E2;
    simpl; rewrite ?neg_exact; reflect_decs; rewrite val_zero in *; lra.
Qed.
Lemma sample_start_ok : sampled [] (sample_start (D:=D)) ∧ drawn [] (sample_start (D:=D)).
Proof.
  split; [by split|]. split; unfold cumulative_to; simpl.
  - apply val_zero.
  - intros i Hi. rewrite take_nil, val_zero. simpl. lra.
  - exists 0%nat. split; [done|apply val_zero].
  - intros i k _ _. rewrite !take_nil, val_zero. simpl. lra.
  - exists 0%nat, 0%nat. split; [done|]. split; [done|]. rewrite val_zero. simpl. lra.
Qed.

(** The statistics of a run.  Wins, losses and even trades are all the samples, the
    gross profit is the sum of the wins, the gross loss of the losses, their difference is
    the total, and the maximum drawdown is the deepest fall of the cumulative profit from
    a peak before it (when no sum is rounded). *)
Theorem run_statistics samples r :
  analyze_validation_pnl_samples (D:=D) samples = Ok r →
  ∃ values (total profit loss drawdown : D),
    Forall2 (λ t v, dec_from_str t = Some v) samples values
    ∧ (vss_win_count r + vss_loss_count r + vss_zero_count r)%nat = length samples
    ∧ vss_total_net_pnl_quote r = dtext total ∧ vss_gross_profit_quote r = dtext profit
    ∧ vss_gross_loss_abs_quote r = dtext loss ∧ vss_max_drawdown_quote r = dtext drawdown
    ∧ (run_exact values →
       (val total == qsum_of values)%Q ∧ (val total == val profit - val loss)%Q
       ∧ (val profit == qsum_of (List.filter (λ v, dec_ltb dec_zero v) values))%Q
       ∧ (∀ i k, (i <= k <= length values)%nat → (cumulative_to values i - cumulative_to values k <= val drawdown)%Q)
       ∧ ∃ i k, (i <= k <= length values)%nat ∧ (val drawdown == cumulative_to values i - cumulative_to values k)%Q).
Proof.
  unfold analyze_validation_pnl_samples. intros E. destruct (length samples <? 2)%nat; [done|].
  apply bind_ok in E as (values & Ev & E). apply bind_ok in E as (total & Et & E). do 6 (apply bind_ok in E as (? & _ & E)).
  apply bind_ok in E as (s & Es & E). apply bind_ok in E as (f & _ & E). injection E as <-.
  apply try_map_Forall2 in Ev as Hv. destruct sample_start_ok as [H0' H0''].
  assert (Hs : sampled values s).
  { apply (try_fold_track sampled) with (pre := []) in Es; [done| |done]. intros ? ? ? ?. apply sample_step_sampled. }
  exists values, total, (sm_profit s), (sm_loss s), (sm_max_drawdown s). simpl.
  split; [eapply Forall2_impl; [exact Hv|]; intros ? ? X; by apply ok_or_ok in X|].
  split; [by rewrite (sp_counts _ _ Hs), (Forall2_length _ _ _ Hv)|]. do 4 (split; [done|]).
  intros (S1 & S2 & S3 & S4). pose proof (ksum_val _ _ Et S1) as Vt. pose proof (ksum_val _ _ (sp_profit _ _ Hs) S2) as Vp.
  pose proof (ksum_val _ _ (sp_loss _ _ Hs) S3) as Vl.
  assert (Hd : drawn values s).
  { refine (try_fold_track (λ pre s, pre `prefix_of` values → drawn pre s) sample_step _ values [] _ s _ Es _).
    - intros pre s0 v s1 Hd0 E1 Hpre. apply (sample_step_drawn values pre s0 v s1); try done. apply Hd0.
      by apply prefix_app_l in Hpre.
    - done.
    - done. }
  split; [done|]. split; [by rewrite Vt, Vp, Vl, wins_and_losses|]. split; [done|]. destruct Hd as [_ _ _ Dd (i & k & ? & ? & ?)].
  split; [intros i' k' [? ?]; by apply Dd|]. by exists i, k.
Qed.
End laws.
