(* ===== verification/ReportsDemo.v ===== *)
(** * ReportsDemo: a swap, its fees, its book and its fills

    Small inputs at which the theorems on candidates, scenarios, books, executions and
    validation runs apply. *)
From stdpp Require Import base option list numbers strings.
From Stdlib Require Import ZArith QArith Qround Qminmax Lia Lqa Ascii.
From S2P Require Import Prelude Text Ordered External Decimals Lots MoneyText Faults Wire Reference OrderBook Market Stream TradeService TradeDemo AccountLedger Analysis Candidate Scenario Microstructure Tca Statistics Validation.
Local Open Scope string_scope.
Local Open Scope list_scope.
Local Open Scope Z_scope.

Module ReportsDemo.
Definition spec : InstrumentSpec := {|
  is_instrument_id := "BTC-USDT-SWAP"; is_instrument_type := Swap; is_instrument_family := None;
  is_underlying := None; is_state := "live"; is_rule_type := None; is_funding_requirement := Required;
  is_base_currency := None; is_quote_currency := None; is_settle_currency := Some "USDT";
  is_tick_size := "0.1"; is_lot_size := "1"; is_min_size := "1"; is_max_limit_size := Some "100";
  is_max_market_size := None; is_max_limit_amount := None; is_max_market_amount := None;
  is_contract_type := Some "linear"; is_contract_value := Some "0.1";
  is_contract_value_currency := Some "BTC"; is_fee_group_id := None; is_max_leverage := None;
  is_list_time_ms := None; is_expiry_time_ms := None; is_initial_price_limit_pct := None;
  is_floating_price_limit_pct := None; is_maximum_price_limit_pct := None; is_upcoming_rule_changes := [] |}.
Definition rules : InstrumentRulesSnapshot := {|
  irs_reference_generation := "ref"; irs_source_received_at := "t"; irs_instrument := spec |}.
Definition request : CandidateOrderAssumptions := {|
  coa_direction := DirLong; coa_entry_price := "100"; coa_stop_price := "95"; coa_max_settle_notional := "100";
  coa_max_loss_settle := "2"; coa_target_rr := "2"; coa_entry_liquidity_role := Maker; coa_exit_liquidity_role := Taker |}.
Definition candidate : CandidateOrderAnalysis.
Proof. let r := eval vm_compute in (analyze_candidate_order (D:=Fixed.t) rules demo_fees request) in match r with Ok ?a => exact a end. Defined.
Lemma candidate_ok : analyze_candidate_order (D:=Fixed.t) rules demo_fees request = Ok candidate.
Proof. vm_compute. reflexivity. Qed.

Definition mechanics : PositionScenarioMechanics := {|
  psm_settle_currency := "USDT"; psm_contract_value_currency := "BTC"; psm_contract_value := "0.1"; psm_tick_size := "0.1";
  psm_entry_fee_rate := "-0.0002"; psm_exit_fee_rate := "-0.0005" |}.
Definition position : PositionScenarioAssumptions := {|
  psa_direction := DirShort; psa_contracts := "3"; psa_entry_price := "100"; psa_exit := ExitEntryMoveRatio "-0.05";
  psa_entry_liquidity_role := Maker; psa_exit_liquidity_role := Taker |}.
Definition scenario : PositionScenarioAnalysis.
Proof.
  let r := eval vm_compute in (analyze_position_scenario_values (D:=Fixed.t) "BTC-USDT-SWAP" "ref" "fg" mechanics position) in
  match r with Ok ?a => exact a end.
Defined.
Lemma scenario_ok : analyze_position_scenario_values (D:=Fixed.t) "BTC-USDT-SWAP" "ref" "fg" mechanics position = Ok scenario.
Proof. vm_compute. reflexivity. Qed.

Definition level (p s : string) : BookLevel := {| price := p; size := s; order_count := None |}.
Definition book : OrderBookSnapshot := {|
  obs_generation := 1; obs_status := Contiguous; obs_seq_id := Some 7; obs_exchange_timestamp_ms := Some "1000";
  obs_asks := [level "100.5" "2"; level "100.7" "4"; level "101" "9"]; obs_bids := [level "100.4" "1"; level "100" "1"] |}.
Definition market : MarketSnapshot := lms_market demo_market.
Definition intelligence : MarketIntelligenceAnalysis.
Proof.
  let r := eval vm_compute in (analyze_market_intelligence (D:=Fixed.t) "BTC-USDT-SWAP" "ref" market book "5" 2) in
  match r with Ok ?a => exact a end.
Defined.
Lemma intelligence_ok : analyze_market_intelligence (D:=Fixed.t) "BTC-USDT-SWAP" "ref" market book "5" 2 = Ok intelligence.
Proof. vm_compute. reflexivity. Qed.

Definition fill (id price size role : string) (time : Z) : ExchangeFillIdentity := {|
  efi_instrument_type := "SWAP"; efi_instrument_id := "BTC-USDT-SWAP"; efi_order_id := Some "o"; efi_client_order_id := "c";
  efi_trade_id := id; efi_bill_id := None; efi_fill_pnl := None; efi_side := "buy"; efi_position_side := "net";
  efi_fill_price := price; efi_fill_size := size; efi_fee := Some "-0.01"; efi_fee_currency := Some "USDT";
  efi_execution_type := Some role; efi_fill_time_ms := time |}.
Definition reference : TcaReference := {|
  tr_price := "100"; tr_reference_time_ms := 10; tr_price_basis := DecisionPrice; tr_price_policy_version := "v1" |}.
Definition fills : list ExchangeFillIdentity := [fill "1" "100.1" "1" "M" 12; fill "2" "100.3" "3" "T" 11].
Definition report : ExecutionTcaReport.
Proof.
  let r := eval vm_compute in (analyze_execution_tca_report (D:=Fixed.t) "BTC-USDT-SWAP" TcaBuy "0.1" "USDT" "4" reference fills) in
  match r with Ok ?a => exact a end.
Defined.
Lemma report_ok : analyze_execution_tca_report (D:=Fixed.t) "BTC-USDT-SWAP" TcaBuy "0.1" "USDT" "4" reference fills = Ok report.
Proof. vm_compute. reflexivity. Qed.

Definition samples : list string := ["3"; "-5"; "0"; "4"].
Definition run : ValidationSampleStatistics.
Proof. let r := eval vm_compute in (analyze_validation_pnl_samples (D:=Fixed.t) samples) in match r with Ok ?a => exact a end. Defined.
Lemma run_ok : analyze_validation_pnl_samples (D:=Fixed.t) samples = Ok run.
Proof. vm_compute. reflexivity. Qed.
End ReportsDemo.

Example demo_report_figures :
  cor_contracts ReportsDemo.candidate = "3" ∧ cor_stop_loss_settle ReportsDemo.candidate = "1.52025"
  ∧ psc_tick_break_even_price ReportsDemo.scenario = "99.9"
  ∧ bsa_vwap (mia_buy_sweep ReportsDemo.intelligence) = Some "100.62" ∧ bsa_complete (mia_sell_sweep ReportsDemo.intelligence) = false
  ∧ etr_fill_outcome ReportsDemo.report = Complete ∧ etr_implementation_shortfall_settle ReportsDemo.report = Some "0.12"
  ∧ vss_max_drawdown_quote ReportsDemo.run = "5".
Proof. vm_compute. done. Qed.

(** The digits of the request leave nothing to round: 3.94 contracts are paid for, and the
    price that wins twice the loss is between two ticks. *)
Lemma demo_candidate_clear (f : CandidateFigures (D:=Fixed.t)) :
  candidate_sound ReportsDemo.rules demo_fees ReportsDemo.request ReportsDemo.candidate f → candidate_clear DirLong f.
Proof.
  intros Hs. destruct (cs_rules _ _ _ _ _ Hs) as (E1 & E2 & E3 & E4). destruct (cs_fees _ _ _ _ _ Hs) as (E5 & E6).
  destruct (cs_requested _ _ _ _ _ Hs) as (E7 & E8 & E9 & E10 & E11). clear Hs. destruct f. simpl in *.
  vm_compute in E1, E2, E3, E4, E5, E6, E7, E8, E9, E10, E11. simplify_eq.
  do 4 (split; [by repeat constructor|]).
  split; [exists (10135 * Fixed.pow10 25)%Z; by vm_compute|]. split.
  - split_and!; [exists (3 * Fixed.pow10 28)%Z; by vm_compute..|].
    exists (395 # 100)%Q. split_and!; [by vm_compute..| |]; exists (395 * Fixed.pow10 26)%Z; by vm_compute.
  - split_and!; [exists (1103 * Fixed.pow10 28)%Z; by vm_compute|exists (1103 * Fixed.pow10 27)%Z; by vm_compute..|].
    exists (110205 # 1000)%Q. split_and!; [by vm_compute..| |];
      [exists (110205 * Fixed.pow10 26)%Z|exists (110205 * Fixed.pow10 25)%Z]; by vm_compute.
Qed.
Lemma candidate_order_sound_witness :
  ∃ f : CandidateFigures (D:=Fixed.t),
    candidate_sound ReportsDemo.rules demo_fees ReportsDemo.request ReportsDemo.candidate f ∧ candidate_exact DirLong f.
Proof.
  destruct (candidate_order_sound _ _ _ _ ReportsDemo.candidate_ok) as (f & Hf).
  exists f. split; [exact Hf|]. exact (cs_exact _ _ _ _ _ Hf (demo_candidate_clear f Hf)).
Defined.

Lemma scenario_break_even_witness :
  ∃ raw be : Fixed.t, psc_raw_break_even_price ReportsDemo.scenario = dtext raw
    ∧ psc_tick_break_even_price ReportsDemo.scenario = dtext be ∧ (0 < val raw)%Q ∧ (0 < val be)%Q.
Proof.
  destruct (scenario_break_even _ _ _ _ _ _ ReportsDemo.scenario_ok)
    as (? & ? & ? & ? & ? & ? & ? & ? & raw & be & ? & _ & _ & _ & _ & _ & _ & _ & _ & H1 & H2 & _ & H3 & H4 & _).
  exists raw, be. split; [exact H1|]. split; [exact H2|]. split; [exact H3|exact H4].
Defined.

Lemma intelligence_sound_witness :
  ∃ (asks : list (Fixed.t * Fixed.t)) requested,
    side_ok true asks ∧ sweep_sound true asks requested (mia_buy_sweep ReportsDemo.intelligence).
Proof.
  destruct (intelligence_sound _ _ _ _ _ _ _ ReportsDemo.intelligence_ok)
    as (asks & ? & rq & ? & ? & _ & _ & _ & _ & _ & Ha & _ & _ & _ & _ & _ & _ & Hs & _).
  exists asks, rq. split; [exact Ha|exact Hs].
Defined.

(** The two fills, read: 401 paid for four contracts, where the reference is 400 *)
Lemma demo_rows (rows : list (Row (D:=Fixed.t))) :
  map fst rows = ReportsDemo.fills → Forall (row_ok "BTC-USDT-SWAP" TcaBuy ReportsDemo.reference) rows →
  rows = [(ReportsDemo.fill "1" "100.1" "1" "M" 12, (Fixed.mk 1 0, Fixed.mk 1001 1, Fixed.mk 1001 1));
          (ReportsDemo.fill "2" "100.3" "3" "T" 11, (Fixed.mk 3 0, Fixed.mk 1003 1, Fixed.mk 3009 1))].
Proof.
  assert (Hrow : ∀ (id price size role : string) t (r : Row (D:=Fixed.t)) sz pr am,
    r.1 = ReportsDemo.fill id price size role t → row_ok "BTC-USDT-SWAP" TcaBuy ReportsDemo.reference r →
    dec_from_str size = Some sz → dec_from_str price = Some pr → checked_mul sz pr = Some am →
    r = (ReportsDemo.fill id price size role t, (sz, pr, am))).
  { intros id price size role t [f [[x y] z]] sz pr am E [_ _ _ [E1 _] [E2 _] E3 _] Q1 Q2 Q3. simpl in E. subst f.
    unfold row_size, row_price, row_amount in *. cbn [fst snd efi_fill_size efi_fill_price ReportsDemo.fill] in *. congruence. }
  intros E Hok. destruct rows as [|r1 [|r2 [|]]]; try done. injection E as E1 E2.
  apply Forall_cons in Hok as [H1 [H2 _]%Forall_cons].
  f_equal; [|f_equal]; by apply Hrow.
Qed.
Lemma tca_report_sound_witness :
  ∃ net : Fixed.t, etr_implementation_shortfall_settle ReportsDemo.report = Some (dtext net) ∧ (val net == 12 # 100)%Q.
Proof.
  destruct (tca_report_sound _ _ _ _ _ _ _ _ ReportsDemo.report_ok)
    as (rows & rq & fl & Hrows & Hok & _ & _ & _ & _ & _ & _ & _ & _ & _ & Hcost).
  rewrite (demo_rows rows Hrows Hok) in Hcost. destruct (Hcost "0.12" eq_refl) as (rp & v & net & Erp & Ev & Enet & Hval).
  exists net. split; [exact (f_equal Some Enet)|]. vm_compute in Erp, Ev. injection Erp as <-. injection Ev as <-.
  rewrite Hval; [by vm_compute|].
  split; [by split_and!|]. do 2 (split; [done|]). split; [by repeat constructor|].
  split; [exists (10025 * Fixed.pow10 26)%Z; by vm_compute|by repeat constructor].
Defined.

Lemma run_statistics_witness :
  (vss_win_count ReportsDemo.run + vss_loss_count ReportsDemo.run + vss_zero_count ReportsDemo.run)%nat = 4%nat.
Proof.
  destruct (run_statistics _ _ ReportsDemo.run_ok) as (? & ? & ? & ? & ? & _ & Hn & _). exact Hn.
Defined.
