(* ===== verification/Books.v ===== *)
(** * Books: the money tables of the account store, [ledger/sql/finance.rs]

    [Books] is the part of the database that the order ledger ([Ledger]) does not hold: the
    immutable sources (fills, bills, cash flows), the immutable finance entries, and what is
    derived from them: totals, daily losses, lots, net asset values.  A table whose [rowid]
    is read is a list in the order of insertion (row [k] has rowid [k + 1]: nothing is
    deleted from it).  A row has the same record as its value, with texts for decimals.
    [ingest_page] is the transaction by which everything but capital gets in. *)
From stdpp Require Import base option list numbers strings gmap sets pretty.
From Stdlib Require Import ZArith Lia String.
From S2P Require Import Prelude Text Ordered External Decimals Protocol Ledger Intents Instances TradeService Lots.
Local Open Scope string_scope.
Local Open Scope list_scope.
Local Open Scope Z_scope.

(** ** Data: [N] is the decimal, or [string] in a row *)
Record Fill {N : Type} : Type := {
  fi_side : string;
  fi_fill_id : string;
  fi_instrument_id : string;
  fi_trade_id : string;
  fi_exchange_order_id : string;
  fi_intent_id : option string;
  fi_time : Z;
  fi_qty : N;
  fi_price : N;
  fi_fee : N;
  fi_currency : string;
}.
Arguments Fill N : clear implicits.
Record Bill {N : Type} : Type := {
  bl_bill_id : string;
  bl_kind : string;
  bl_time : Z;
  bl_amount : N;
  bl_currency : string;
  bl_economic_event_key : string;
}.
Arguments Bill N : clear implicits.
Record FundingEvent {N : Type} : Type := {
  fu_event_id : string;
  fu_instrument_id : string;
  fu_time : Z;
  fu_amount : N;
  fu_currency : string;
}.
Arguments FundingEvent N : clear implicits.
Record CashFlow {N : Type} : Type := {
  cf_event_id : string;
  cf_kind : string;
  cf_currency : string;
  cf_amount : N;
  cf_time : Z;
  cf_source_ref : string;
}.
Arguments CashFlow N : clear implicits.
Record FinanceEntry {N : Type} : Type := {
  en_entry_id : string;
  en_economic_event_key : string;
  en_component : string;
  en_allocation_leg : string;
  en_amount : N;
  en_currency : string;
  en_instance_id : option string;
  en_source_ref : string;
  en_time : Z;
  en_reverses_entry_id : option string;
}.
Arguments FinanceEntry N : clear implicits.
Record Allocation {N : Type} : Type := {
  al_event_id : string;
  al_instance_id : string;
  al_delta : N;
  al_currency : string;
  al_time : Z;
}.
Arguments Allocation N : clear implicits.
Record NavPoint {N : Type} : Type := {
  np_scope_id : string;
  np_time : Z;
  np_source_version : string;
  np_equity : N;
  np_pnl : N;
  np_flows : N;
  np_currency : string;
  np_coverage : string;
  np_mark_source : string;
}.
Arguments NavPoint N : clear implicits.
Record IngestPage {D : Type} : Type := {
  ig_funding_events : list (FundingEvent D);
  ig_attributed_funding_ids : list string;
  ig_fills : list (Fill D);
  ig_bills : list (Bill D);
  ig_finance : list (FinanceEntry D);
  ig_cash_flows : list (CashFlow D);
  ig_allocations : list (Allocation D);
  ig_lots : list (StoredLot D);
  ig_nav : list (NavPoint D);
  ig_projected_fill_ids : list string;
  ig_cursor : option SourceCursor;
}.
Arguments IngestPage D : clear implicits.
Record WatermarkRow : Type := {
  wm_highwater : string;
  wm_adjusted_equity : string;
  wm_time : Z;
  wm_coverage : string;
}.
#[export] Instance Fill_eq_dec {N} `{EqDecision N} : EqDecision (Fill N).
Proof. solve_decision. Defined.
#[export] Instance Bill_eq_dec {N} `{EqDecision N} : EqDecision (Bill N).
Proof. solve_decision. Defined.
#[export] Instance CashFlow_eq_dec {N} `{EqDecision N} : EqDecision (CashFlow N).
Proof. solve_decision. Defined.
#[export] Instance AllocationRow_eq_dec : EqDecision AllocationRow.
Proof. solve_decision. Defined.
#[export] Instance FinanceEntry_eq_dec {N} `{EqDecision N} : EqDecision (FinanceEntry N).
Proof. solve_decision. Defined.
#[export] Instance NavPoint_eq_dec {N} `{EqDecision N} : EqDecision (NavPoint N).
Proof. solve_decision. Defined.

Record Books : Type := {
  store : Store;
  fills : list (Fill string);
  fill_pending : gmap string string;
  bills : list (Bill string);
  funding_pending : gmap string (FundingEvent string);
  cash_flows : list (CashFlow string);
  position_lots : list (StoredLot string);
  finance_entries : list (FinanceEntry string);
  finance_totals_table : gmap (string * string) string;
  instance_finance_totals : gmap (string * string * string) string;
  finance_source_links : gset (string * string);
  nav_points : list (NavPoint string);
  nav_watermarks : gmap string WatermarkRow;
  daily_losses : gmap (string * Z) string;
  source_cursors : gmap (string * string) SourceCursor;
  protection_receipts : gmap string (ProtectionReceipt string);
}.
Definition with_store (x : Store) (b : Books) : Books := {|
  store := x; fills := fills b; fill_pending := fill_pending b; bills := bills b;
  funding_pending := funding_pending b; cash_flows := cash_flows b;
  position_lots := position_lots b; finance_entries := finance_entries b;
  finance_totals_table := finance_totals_table b;
  instance_finance_totals := instance_finance_totals b;
  finance_source_links := finance_source_links b; nav_points := nav_points b;
  nav_watermarks := nav_watermarks b; daily_losses := daily_losses b;
  source_cursors := source_cursors b; protection_receipts := protection_receipts b |}.
Definition with_fills (x : list (Fill string)) (b : Books) : Books := {|
  store := store b; fills := x; fill_pending := fill_pending b; bills := bills b;
  funding_pending := funding_pending b; cash_flows := cash_flows b;
  position_lots := position_lots b; finance_entries := finance_entries b;
  finance_totals_table := finance_totals_table b;
  instance_finance_totals := instance_finance_totals b;
  finance_source_links := finance_source_links b; nav_points := nav_points b;
  nav_watermarks := nav_watermarks b; daily_losses := daily_losses b;
  source_cursors := source_cursors b; protection_receipts := protection_receipts b |}.
Definition with_fill_pending (x : gmap string string) (b : Books) : Books := {|
  store := store b; fills := fills b; fill_pending := x; bills := bills b;
  funding_pending := funding_pending b; cash_flows := cash_flows b;
  position_lots := position_lots b; finance_entries := finance_entries b;
  finance_totals_table := finance_totals_table b;
  instance_finance_totals := instance_finance_totals b;
  finance_source_links := finance_source_links b; nav_points := nav_points b;
  nav_watermarks := nav_watermarks b; daily_losses := daily_losses b;
  source_cursors := source_cursors b; protection_receipts := protection_receipts b |}.
Definition with_bills (x : list (Bill string)) (b : Books) : Books := {|
  store := store b; fills := fills b; fill_pending := fill_pending b; bills := x;
  funding_pending := funding_pending b; cash_flows := cash_flows b;
  position_lots := position_lots b; finance_entries := finance_entries b;
  finance_totals_table := finance_totals_table b;
  instance_finance_totals := instance_finance_totals b;
  finance_source_links := finance_source_links b; nav_points := nav_points b;
  nav_watermarks := nav_watermarks b; daily_losses := daily_losses b;
  source_cursors := source_cursors b; protection_receipts := protection_receipts b |}.
Definition with_funding_pending (x : gmap string (FundingEvent string)) (b : Books) : Books := {|
  store := store b; fills := fills b; fill_pending := fill_pending b; bills := bills b;
  funding_pending := x; cash_flows := cash_flows b; position_lots := position_lots b;
  finance_entries := finance_entries b; finance_totals_table := finance_totals_table b;
  instance_finance_totals := instance_finance_totals b;
  finance_source_links := finance_source_links b; nav_points := nav_points b;
  nav_watermarks := nav_watermarks b; daily_losses := daily_losses b;
  source_cursors := source_cursors b; protection_receipts := protection_receipts b |}.
Definition with_cash_flows (x : list (CashFlow string)) (b : Books) : Books := {|
  store := store b; fills := fills b; fill_pending := fill_pending b; bills := bills b;
  funding_pending := funding_pending b; cash_flows := x; position_lots := position_lots b;
  finance_entries := finance_entries b; finance_totals_table := finance_totals_table b;
  instance_finance_totals := instance_finance_totals b;
  finance_source_links := finance_source_links b; nav_points := nav_points b;
  nav_watermarks := nav_watermarks b; daily_losses := daily_losses b;
  source_cursors := source_cursors b; protection_receipts := protection_receipts b |}.
Definition with_lots (x : list (StoredLot string)) (b : Books) : Books := {|
  store := store b; fills := fills b; fill_pending := fill_pending b; bills := bills b;
  funding_pending := funding_pending b; cash_flows := cash_flows b; position_lots := x;
  finance_entries := finance_entries b; finance_totals_table := finance_totals_table b;
  instance_finance_totals := instance_finance_totals b;
  finance_source_links := finance_source_links b; nav_points := nav_points b;
  nav_watermarks := nav_watermarks b; daily_losses := daily_losses b;
  source_cursors := source_cursors b; protection_receipts := protection_receipts b |}.
Definition with_entries (x : list (FinanceEntry string)) (b : Books) : Books := {|
  store := store b; fills := fills b; fill_pending := fill_pending b; bills := bills b;
  funding_pending := funding_pending b; cash_flows := cash_flows b;
  position_lots := position_lots b; finance_entries := x;
  finance_totals_table := finance_totals_table b;
  instance_finance_totals := instance_finance_totals b;
  finance_source_links := finance_source_links b; nav_points := nav_points b;
  nav_watermarks := nav_watermarks b; daily_losses := daily_losses b;
  source_cursors := source_cursors b; protection_receipts := protection_receipts b |}.
Definition with_totals (x : gmap (string * string) string) (b : Books) : Books := {|
  store := store b; fills := fills b; fill_pending := fill_pending b; bills := bills b;
  funding_pending := funding_pending b; cash_flows := cash_flows b;
  position_lots := position_lots b; finance_entries := finance_entries b;
  finance_totals_table := x; instance_finance_totals := instance_finance_totals b;
  finance_source_links := finance_source_links b; nav_points := nav_points b;
  nav_watermarks := nav_watermarks b; daily_losses := daily_losses b;
  source_cursors := source_cursors b; protection_receipts := protection_receipts b |}.
Definition with_instance_totals (x : gmap (string * string * string) string) (b : Books) : Books := {|
  store := store b; fills := fills b; fill_pending := fill_pending b; bills := bills b;
  funding_pending := funding_pending b; cash_flows := cash_flows b;
  position_lots := position_lots b; finance_entries := finance_entries b;
  finance_totals_table := finance_totals_table b; instance_finance_totals := x;
  finance_source_links := finance_source_links b; nav_points := nav_points b;
  nav_watermarks := nav_watermarks b; daily_losses := daily_losses b;
  source_cursors := source_cursors b; protection_receipts := protection_receipts b |}.
Definition with_links (x : gset (string * string)) (b : Books) : Books := {|
  store := store b; fills := fills b; fill_pending := fill_pending b; bills := bills b;
  funding_pending := funding_pending b; cash_flows := cash_flows b;
  position_lots := position_lots b; finance_entries := finance_entries b;
  finance_totals_table := finance_totals_table b;
  instance_finance_totals := instance_finance_totals b; finance_source_links := x;
  nav_points := nav_points b; nav_watermarks := nav_watermarks b; daily_losses := daily_losses b;
  source_cursors := source_cursors b; protection_receipts := protection_receipts b |}.
Definition with_nav_points (x : list (NavPoint string)) (b : Books) : Books := {|
  store := store b; fills := fills b; fill_pending := fill_pending b; bills := bills b;
  funding_pending := funding_pending b; cash_flows := cash_flows b;
  position_lots := position_lots b; finance_entries := finance_entries b;
  finance_totals_table := finance_totals_table b;
  instance_finance_totals := instance_finance_totals b;
  finance_source_links := finance_source_links b; nav_points := x;
  nav_watermarks := nav_watermarks b; daily_losses := daily_losses b;
  source_cursors := source_cursors b; protection_receipts := protection_receipts b |}.
Definition with_watermarks (x : gmap string WatermarkRow) (b : Books) : Books := {|
  store := store b; fills := fills b; fill_pending := fill_pending b; bills := bills b;
  funding_pending := funding_pending b; cash_flows := cash_flows b;
  position_lots := position_lots b; finance_entries := finance_entries b;
  finance_totals_table := finance_totals_table b;
  instance_finance_totals := instance_finance_totals b;
  finance_source_links := finance_source_links b; nav_points := nav_points b; nav_watermarks := x;
  daily_losses := daily_losses b; source_cursors := source_cursors b;
  protection_receipts := protection_receipts b |}.
Definition with_losses (x : gmap (string * Z) string) (b : Books) : Books := {|
  store := store b; fills := fills b; fill_pending := fill_pending b; bills := bills b;
  funding_pending := funding_pending b; cash_flows := cash_flows b;
  position_lots := position_lots b; finance_entries := finance_entries b;
  finance_totals_table := finance_totals_table b;
  instance_finance_totals := instance_finance_totals b;
  finance_source_links := finance_source_links b; nav_points := nav_points b;
  nav_watermarks := nav_watermarks b; daily_losses := x; source_cursors := source_cursors b;
  protection_receipts := protection_receipts b |}.
Definition with_cursors (x : gmap (string * string) SourceCursor) (b : Books) : Books := {|
  store := store b; fills := fills b; fill_pending := fill_pending b; bills := bills b;
  funding_pending := funding_pending b; cash_flows := cash_flows b;
  position_lots := position_lots b; finance_entries := finance_entries b;
  finance_totals_table := finance_totals_table b;
  instance_finance_totals := instance_finance_totals b;
  finance_source_links := finance_source_links b; nav_points := nav_points b;
  nav_watermarks := nav_watermarks b; daily_losses := daily_losses b; source_cursors := x;
  protection_receipts := protection_receipts b |}.
Definition with_protections (x : gmap string (ProtectionReceipt string)) (b : Books) : Books := {|
  store := store b; fills := fills b; fill_pending := fill_pending b; bills := bills b;
  funding_pending := funding_pending b; cash_flows := cash_flows b;
  position_lots := position_lots b; finance_entries := finance_entries b;
  finance_totals_table := finance_totals_table b;
  instance_finance_totals := instance_finance_totals b;
  finance_source_links := finance_source_links b; nav_points := nav_points b;
  nav_watermarks := nav_watermarks b; daily_losses := daily_losses b;
  source_cursors := source_cursors b; protection_receipts := x |}.

(** The store as its owner holds it: the tables and two views derived from them, kept in memory *)
Record AccountStore {D : Type} : Type := {
  books : Books;
  cash_flow_totals_cache : option (list ((string * string) * D));
  latest_capital_assignment_time : option (option Z);
}.
Arguments AccountStore D : clear implicits.

(** ** Statements on a list table *)
Section statements.
Context {R : Type}.
(** [INSERT .. ON CONFLICT(unique) DO NOTHING]: whether a row was inserted.  The conflict
    target is looked at first, the other constraints only when a row is to be inserted. *)
Definition insert_new (same : R → bool) (ok : bool) (row : R) (l : list R) : StoreResult (bool * list R) :=
  match List.find same l with
  | Some _ => Ok (false, l)
  | None => _ ← constraint ok; Ok (true, l ++ [row])
  end.
(** [SELECT COALESCE(MAX(rowid),0) .. WHERE p] *)
Fixpoint max_rowid_from (k : Z) (p : R → bool) (l : list R) (best : Z) : Z :=
  match l with
  | [] => best
  | r :: l => max_rowid_from (k + 1) p l (if p r then k else best)
  end.
Definition max_rowid (p : R → bool) (l : list R) : Z := max_rowid_from 1 p l 0.
(** [SELECT MAX(time)] *)
Definition max_time (time : R → Z) (l : list R) : option Z :=
  foldl (λ best r, Some (match best with Some t => Z.max t (time r) | None => time r end)) None l.
End statements.

Definition strip_prefix (p s : string) : option string :=
  if String.prefix p s then Some (String.substring (String.length p) (String.length s - String.length p) s) else None.
Definition is_none_or {A} (p : A → bool) (o : option A) : bool := match o with Some a => p a | None => true end.
Definition money {A} (o : option A) : StoreResult A := ok_or (Invalid "MONEY_OVERFLOW") o.
(** [.map(decimal).transpose()?.unwrap_or(Decimal::ZERO)] *)
Definition decimal_or_zero {D} `{DecimalOps D} (o : option string) : StoreResult D :=
  match o with Some s => decimal s | None => Ok dec_zero end.

Section books.
Context {D : Type} `{DecimalMoney D}.
Notation order_db b := (db (store b)).
Definition with_order_db (d : Db) (b : Books) : Books := with_store (with_db d (store b)) b.
Definition with_books (x : Books) (s : AccountStore D) : AccountStore D := {|
  books := x; cash_flow_totals_cache := cash_flow_totals_cache s;
  latest_capital_assignment_time := latest_capital_assignment_time s |}.

(** ** Rows *)
Definition fill_row (f : Fill D) : Fill string := {|
  fi_side := fi_side f; fi_fill_id := fi_fill_id f; fi_instrument_id := fi_instrument_id f;
  fi_trade_id := fi_trade_id f; fi_exchange_order_id := fi_exchange_order_id f; fi_intent_id := fi_intent_id f;
  fi_time := fi_time f; fi_qty := exact (fi_qty f); fi_price := exact (fi_price f); fi_fee := exact (fi_fee f);
  fi_currency := fi_currency f |}.
Definition bill_row (x : Bill D) : Bill string := {|
  bl_bill_id := bl_bill_id x; bl_kind := bl_kind x; bl_time := bl_time x; bl_amount := exact (bl_amount x);
  bl_currency := bl_currency x; bl_economic_event_key := bl_economic_event_key x |}.
Definition cash_flow_row (x : CashFlow D) : CashFlow string := {|
  cf_event_id := cf_event_id x; cf_kind := cf_kind x; cf_currency := cf_currency x; cf_amount := exact (cf_amount x);
  cf_time := cf_time x; cf_source_ref := cf_source_ref x |}.
Definition funding_row (x : FundingEvent D) : FundingEvent string := {|
  fu_event_id := fu_event_id x; fu_instrument_id := fu_instrument_id x; fu_time := fu_time x;
  fu_amount := exact (fu_amount x); fu_currency := fu_currency x |}.
Definition allocation_row (a : Allocation D) : AllocationRow := {|
  all_instance_id := al_instance_id a; all_delta := exact (al_delta a); all_currency := al_currency a; all_time := al_time a |}.
Definition with_amount {N M} (x : M) (e : FinanceEntry N) : FinanceEntry M := {|
  en_entry_id := en_entry_id e; en_economic_event_key := en_economic_event_key e; en_component := en_component e;
  en_allocation_leg := en_allocation_leg e; en_amount := x; en_currency := en_currency e;
  en_instance_id := en_instance_id e; en_source_ref := en_source_ref e; en_time := en_time e;
  en_reverses_entry_id := en_reverses_entry_id e |}.
Definition entry_row (e : FinanceEntry D) : FinanceEntry string := with_amount (exact (en_amount e)) e.
Definition with_quantity {N M} (q c : M) (l : StoredLot N) : StoredLot M := {|
  lot_id := lot_id l; lot_instance_id := lot_instance_id l; lot_intent_id := lot_intent_id l; lot_fill_id := lot_fill_id l;
  lot_instrument_id := lot_instrument_id l; lot_side := lot_side l; lot_remaining_qty := q; lot_cost := c;
  lot_opened_at := lot_opened_at l |}.
Definition lot_row (l : StoredLot D) : StoredLot string := with_quantity (exact (lot_remaining_qty l)) (exact (lot_cost l)) l.
Definition nav_row (n : NavPoint D) : NavPoint string := {|
  np_scope_id := np_scope_id n; np_time := np_time n; np_source_version := np_source_version n;
  np_equity := exact (np_equity n); np_pnl := exact (np_pnl n); np_flows := exact (np_flows n);
  np_currency := np_currency n; np_coverage := np_coverage n; np_mark_source := np_mark_source n |}.

(** ** Keys *)
Definition same_trade {N M} (f : Fill N) (g : Fill M) : bool :=
  (fi_instrument_id f =? fi_instrument_id g)%string && (fi_trade_id f =? fi_trade_id g)%string
  && (fi_exchange_order_id f =? fi_exchange_order_id g)%string.
(** [UNIQUE(economic_event_key,component,allocation_leg)] *)
Definition canonical {N M} (e : FinanceEntry N) (g : FinanceEntry M) : bool :=
  (en_economic_event_key e =? en_economic_event_key g)%string && (en_component e =? en_component g)%string
  && (en_allocation_leg e =? en_allocation_leg g)%string.
Definition same_point {N M} (n : NavPoint N) (m : NavPoint M) : bool :=
  (np_scope_id n =? np_scope_id m)%string && (np_time n =? np_time m) && (np_source_version n =? np_source_version m)%string.
Definition entry_of (b : Books) (id : string) : option (FinanceEntry string) :=
  List.find (λ g, (en_entry_id g =? id)%string) (finance_entries b).
(** [REFERENCES] of a column that may be null *)
Definition references {R} (m : gmap string R) (o : option string) : bool := is_none_or (λ k, bool_decide (is_Some (m !! k))) o.

(** ** Provenance of the entries of strategies *)
Definition strategy_owner {N} (e : FinanceEntry N) : bool := negb (is_none_or (λ i, (i =? "manual")%string) (en_instance_id e)).
Definition cancels (amount : string) (x : D) : bool :=
  match (n ← dec_from_str amount; checked_add n x) with Some z => dec_eqb z dec_zero | None => false end.
Definition reverses_original (b : Books) (e : FinanceEntry D) (id : string) : bool :=
  is_some_and (λ o, (en_component o =? en_component e)%string && (en_currency o =? en_currency e)%string
                    && bool_decide (en_instance_id o = en_instance_id e) && negb (is_some (en_reverses_entry_id o))
                    && cancels (en_amount o) (en_amount e)) (entry_of b id).
Definition canonical_key {N} (f : Fill N) : string :=
  "fill:" +:+ fi_instrument_id f +:+ ":" +:+ fi_trade_id f +:+ ":" +:+ fi_exchange_order_id f.
Definition fill_proves (b : Books) (e : FinanceEntry D) (id : string) : StoreResult bool :=
  match List.find (λ f, (fi_fill_id f =? id)%string) (fills b) with
  | None => Ok false
  | Some f =>
    wrong ← (if (en_component e =? "FEE")%string then
               if negb (en_currency e =? fi_currency f)%string then Ok true else
               fee ← decimal (fi_fee f); Ok (negb (dec_eqb (en_amount e) fee))
             else Ok false);
    if wrong : bool then invalid "STRATEGY_NAV_FEE_SOURCE_MISMATCH" else
    let canonical_or_bill := (en_economic_event_key e =? canonical_key f)%string
      || is_some_and (λ bill_id, negb (bill_id =? "")%string) (strip_prefix "bill:" (en_economic_event_key e)) in
    if canonical_or_bill && (en_component e =? "FEE")%string
       && existsb (λ g, (en_source_ref g =? en_source_ref e)%string && (en_component g =? "FEE")%string
                        && negb (en_economic_event_key g =? en_economic_event_key e)%string
                        && negb (is_some (en_reverses_entry_id g))) (finance_entries b)
    then invalid "FINANCE_FILL_SOURCE_REUSED" else Ok canonical_or_bill
  end.
Definition has_bill (b : Books) (id : string) : bool := existsb (λ x, (bl_bill_id x =? id)%string) (bills b).
Definition verify_strategy_finance_source (b : Books) (e : FinanceEntry D) : StoreResult unit :=
  if negb (strategy_owner e) || one_of ["INTERNAL_CAPITAL_USD"; "CAMPAIGN_LOSS_USD"] (en_component e) then Ok tt else
  if negb (one_of ["FEE"; "FUNDING"; "REALIZED_PNL"; "LIQUIDATION_COST"] (en_component e))
  then invalid "STRATEGY_NAV_COMPONENT_UNKNOWN" else
  if negb (is_none_or (reverses_original b e) (en_reverses_entry_id e))
  then invalid "STRATEGY_NAV_ECONOMIC_SOURCE_UNVERIFIED" else
  found ← match strip_prefix "fill:" (en_source_ref e) with
          | Some id => fill_proves b e id
          | None =>
            match strip_prefix "bill:" (en_source_ref e) with
            | Some id => Ok ((en_economic_event_key e =? en_source_ref e)%string && has_bill b id)
            | None => Ok false
            end
          end;
  if negb (found : bool) then invalid "STRATEGY_NAV_ECONOMIC_SOURCE_UNVERIFIED" else Ok tt.

Definition finance_rowid (b : Books) : Z := max_rowid (λ _, true) (finance_entries b).
Definition provenance_key : string * string := ("finance_provenance", "account").
Definition provenance_watermark (b : Books) : option Z :=
  c ← source_cursors b !! provenance_key;
  if (cur_cursor c =? "")%string && (cur_coverage_gaps c =? "")%string && (cur_generation c =? 0)
  then Some (cur_watermark c) else None.
Definition finance_proof_sealed (b : Books) : bool :=
  bool_decide (provenance_watermark b = Some (finance_rowid b))
  || ((finance_rowid b =? 0) && negb (is_some (provenance_watermark b))).
Definition seal (latest : Z) (b : Books) : Books :=
  with_cursors (<[provenance_key := {| cur_source := "finance_provenance"; cur_stream_partition := "account"; cur_cursor := "";
                                       cur_watermark := latest; cur_generation := 0; cur_coverage_gaps := "" |}]>
                  (source_cursors b)) b.
Definition advance_finance_provenance (b : Books) (previous_rowid : Z) : Books :=
  let prior := provenance_watermark b in
  if negb (bool_decide (prior = Some previous_rowid)) && negb ((previous_rowid =? 0) && negb (is_some prior)) then b else
  let latest := finance_rowid b in
  if negb (latest =? previous_rowid) then seal latest b else b.

Definition upsert_source_cursor (b : Books) (c : SourceCursor) : StoreResult Books :=
  let key := (cur_source c, cur_stream_partition c) in
  if is_some_and (λ p, (cur_generation c <? cur_generation p)
                       || ((cur_generation c =? cur_generation p) && (cur_watermark c <? cur_watermark p)))
                 (source_cursors b !! key)
  then invalid "SOURCE_CURSOR_REGRESSION" else Ok (with_cursors (<[key := c]> (source_cursors b)) b).

(** ** [ingest_page], one kind of record after the other *)
Definition ingest_fill (b : Books) (f : Fill D) : StoreResult Books :=
  if dec_leb (fi_qty f) dec_zero || dec_leb (fi_price f) dec_zero || (fi_currency f =? "")%string then invalid "INVALID_FILL" else
  _ ← money (checked_mul (fi_qty f) (fi_price f));
  _ ← constraint (one_of ["buy"; "sell"] (fi_side f));
  '(inserted, rows) ← insert_new (same_trade f)
    (negb (existsb (λ g, (fi_fill_id g =? fi_fill_id f)%string) (fills b)) && references (intents (order_db b)) (fi_intent_id f))
    (fill_row f) (fills b);
  let b := with_fills rows b in
  b ← (if inserted : bool then m ← insert_row (fi_fill_id f) (fi_side f) (fill_pending b); Ok (with_fill_pending m b) else Ok b);
  old ← query_row (List.find (same_trade f) (fills b));
  if negb (bool_decide (old = fill_row f)) then invalid "IMMUTABLE_FILL_CONFLICT" else Ok b.

Definition ingest_bill (b : Books) (x : Bill D) : StoreResult Books :=
  '(_, rows) ← insert_new (λ y, (bl_bill_id y =? bl_bill_id x)%string) true (bill_row x) (bills b);
  let b := with_bills rows b in
  old ← query_row (List.find (λ y, (bl_bill_id y =? bl_bill_id x)%string) (bills b));
  if negb (bool_decide (old = bill_row x)) then invalid "IMMUTABLE_BILL_CONFLICT" else Ok b.

Definition ingest_funding (b : Books) (e : FundingEvent D) : StoreResult Books :=
  if is_some (operation_receipts (order_db b) !! ("funding:" +:+ fu_event_id e)) || is_some (funding_pending b !! fu_event_id e)
  then Ok b else
  _ ← constraint (has_bill b (fu_event_id e));
  Ok (with_funding_pending (<[fu_event_id e := funding_row e]> (funding_pending b)) b).

(** The books and whether a flow was inserted *)
Definition ingest_cash_flow (bc : Books * bool) (f : CashFlow D) : StoreResult (Books * bool) :=
  let '(b, changed) := bc in
  if (cf_currency f =? "")%string || (cf_source_ref f =? "")%string then invalid "INVALID_CASH_FLOW" else
  '(inserted, rows) ← insert_new (λ g, (cf_event_id g =? cf_event_id f)%string) true (cash_flow_row f) (cash_flows b);
  let b := with_cash_flows rows b in
  old ← query_row (List.find (λ g, (cf_event_id g =? cf_event_id f)%string) (cash_flows b));
  if negb (bool_decide (old = cash_flow_row f)) then invalid "IMMUTABLE_CASH_FLOW_CONFLICT" else Ok (b, changed || inserted).

Definition with_allocations (m : gmap string AllocationRow) (b : Books) : Books :=
  with_store {| db := order_db b; allocations := m; nav_scopes := nav_scopes (store b) |} b.
Definition ingest_allocation (b : Books) (a : Allocation D) : StoreResult Books :=
  match allocations (store b) !! al_event_id a with
  | Some old => if negb (bool_decide (old = allocation_row a)) then invalid "IMMUTABLE_ALLOCATION_CONFLICT" else Ok b
  | None =>
    _ ← constraint (bool_decide (is_Some (strategy_instances (order_db b) !! al_instance_id a)));
    Ok (with_allocations (<[al_event_id a := allocation_row a]> (allocations (store b))) b)
  end.

(** The reversal of an entry *)
Definition check_reversal (b : Books) (e : FinanceEntry D) (target : string) : StoreResult unit :=
  if negb (is_none_or (λ g, bool_decide (en_reverses_entry_id g = Some target)) (List.find (canonical e) (finance_entries b)))
  then invalid "CANONICAL_ECONOMIC_EVENT_CONFLICT" else
  original ← ok_or (Invalid "FINANCE_REVERSAL_ORIGINAL_MISSING") (entry_of b target);
  if is_some (en_reverses_entry_id original) || negb (en_component original =? en_component e)%string
     || negb (en_allocation_leg original =? en_allocation_leg e)%string || negb (en_currency original =? en_currency e)%string
     || negb (bool_decide (en_instance_id original = en_instance_id e))
  then invalid "FINANCE_REVERSAL_MISMATCH" else
  amount ← decimal (en_amount original);
  if negb (is_some_and (λ z, dec_eqb z dec_zero) (checked_add amount (en_amount e)))
  then invalid "FINANCE_REVERSAL_MISMATCH" else
  if is_some_and (λ g, negb (en_economic_event_key g =? en_economic_event_key e)%string)
       (List.find (λ g, bool_decide (en_reverses_entry_id g = Some target)) (finance_entries b))
  then invalid "FINANCE_REVERSAL_ALREADY_APPLIED" else Ok tt.

Definition add_to {K} `{Countable K} (k : K) (x : D) (m : gmap K string) : StoreResult (gmap K string) :=
  old ← decimal_or_zero (m !! k);
  total ← money (checked_add old x);
  Ok (<[k := exact total]> m).
Definition add_total (b : Books) (e : FinanceEntry D) : StoreResult Books :=
  b ← match en_instance_id e with
      | Some instance =>
        m ← add_to (instance, en_currency e, en_component e) (en_amount e) (instance_finance_totals b);
        Ok (with_instance_totals m b)
      | None => Ok b
      end;
  m ← add_to (en_currency e, en_component e) (en_amount e) (finance_totals_table b);
  Ok (with_totals m b).
Definition loss_scopes {N} (e : FinanceEntry N) : list string :=
  "account" :: match en_instance_id e with Some i => ["strategy:" +:+ i] | None => [] end.
Definition add_losses (b : Books) (e : FinanceEntry D) : StoreResult Books :=
  m ← try_fold (λ m scope, add_to (scope, utc_day (en_time e)) (en_amount e) m) (daily_losses b) (loss_scopes e);
  Ok (with_losses m b).
(** The books and the losses of the page so far *)
Definition ingest_finance (ba : Books * D) (e : FinanceEntry D) : StoreResult (Books * D) :=
  let '(b, added_loss) := ba in
  if (en_component e =? "INTERNAL_CAPITAL_USD")%string then invalid "CAPITAL_WRITE_REQUIRES_AUTHORIZED_OPERATION" else
  if (en_currency e =? "")%string then invalid "CURRENCY_REQUIRED" else
  _ ← verify_strategy_finance_source b e;
  _ ← match en_reverses_entry_id e with Some target => check_reversal b e target | None => Ok tt end;
  '(added, rows) ← insert_new (canonical e)
    (negb (is_some (entry_of b (en_entry_id e))) && references (strategy_instances (order_db b)) (en_instance_id e)
     && is_none_or (λ t, is_some (entry_of b t) || (t =? en_entry_id e)%string) (en_reverses_entry_id e))
    (entry_row e) (finance_entries b);
  let b := with_entries rows b in
  b ← (if added : bool then add_total b e else Ok b);
  saved ← query_row (List.find (canonical e) (finance_entries b));
  if negb (en_amount saved =? exact (en_amount e))%string || negb (en_currency saved =? en_currency e)%string
     || negb (bool_decide (en_instance_id saved = en_instance_id e))
     || negb (bool_decide (en_reverses_entry_id saved = en_reverses_entry_id e))
  then invalid "CANONICAL_ECONOMIC_EVENT_CONFLICT" else
  if negb (en_time saved =? en_time e) && (en_source_ref saved =? en_source_ref e)%string
  then invalid "CANONICAL_ECONOMIC_EVENT_CONFLICT" else
  let b := with_links ({[(en_entry_id saved, en_source_ref e)]} ∪ finance_source_links b) b in
  if added && (en_component e =? "CAMPAIGN_LOSS_USD")%string then
    if negb (en_currency e =? "USD")%string || dec_ltb (en_amount e) dec_zero
    then invalid "CAMPAIGN_USD_CONVERSION_REQUIRED" else
    added_loss ← money (checked_add added_loss (en_amount e));
    b ← add_losses b e;
    Ok (b, added_loss)
  else Ok (b, added_loss).
Definition with_campaign_loss (x : string) (p : PolicyRow) : PolicyRow := {|
  pol_revision := pol_revision p; pol_paused := pol_paused p; pol_campaign_id := pol_campaign_id p;
  pol_campaign_limit := pol_campaign_limit p; pol_campaign_loss := x |}.
Definition charge_campaign (b : Books) (added_loss : D) : StoreResult Books :=
  if negb (dec_ltb dec_zero added_loss) then Ok b else
  old ← decimal (pol_campaign_loss (account_policy (order_db b)));
  total ← money (checked_add old added_loss);
  Ok (with_order_db (with_policy (with_campaign_loss (exact total) (account_policy (order_db b))) (order_db b)) b).

(** Instance and instrument of an intent, by its decision *)
Definition intent_owner (d : Db) (id : string) : StoreResult (option string * string) :=
  query_row (r ← intents d !! id;
             x ← List.find (λ x, (dn_decision_id x =? i_decision_id r)%string) (decisions d);
             Some (dn_instance_id x, i_instrument_id r)).
Definition lot_owner_ok (b : Books) (l : StoredLot D) : StoreResult unit :=
  match lot_intent_id l with
  | Some intent =>
    owner ← intent_owner (order_db b) intent;
    if bool_decide (owner = (lot_instance_id l, lot_instrument_id l)) then Ok tt else invalid "LOT_OWNER_MISMATCH"
  | None => if is_some (lot_instance_id l) then invalid "EXTERNAL_FILL_MUST_BE_UNATTRIBUTED" else Ok tt
  end.
Definition same_lot {N M} (old : StoredLot N) (l : StoredLot M) : bool :=
  bool_decide (lot_instance_id old = lot_instance_id l) && (lot_instrument_id old =? lot_instrument_id l)%string
  && (lot_side old =? lot_side l)%string && bool_decide (lot_intent_id old = lot_intent_id l)
  && bool_decide (lot_fill_id old = lot_fill_id l).
Definition upsert_lot (b : Books) (l : StoredLot D) : StoreResult Books :=
  match List.find (λ o, (lot_id o =? lot_id l)%string) (position_lots b) with
  | None =>
    _ ← constraint (references (strategy_instances (order_db b)) (lot_instance_id l)
                    && references (intents (order_db b)) (lot_intent_id l)
                    && is_none_or (λ id, existsb (λ f, (fi_fill_id f =? id)%string) (fills b)) (lot_fill_id l));
    Ok (with_lots (position_lots b ++ [lot_row l]) b)
  | Some old =>
    if negb (same_lot old l) then invalid "LOT_OWNER_MISMATCH" else
    Ok (with_lots (map (λ o, if (lot_id o =? lot_id l)%string
                             then with_quantity (exact (lot_remaining_qty l)) (exact (lot_cost l)) o else o)
                       (position_lots b)) b)
  end.
Definition ingest_lot (b : Books) (l : StoredLot D) : StoreResult Books :=
  if dec_ltb (lot_remaining_qty l) dec_zero || dec_ltb (lot_cost l) dec_zero || negb (one_of ["long"; "short"] (lot_side l))
  then invalid "INVALID_POSITION_LOT" else
  _ ← lot_owner_ok b l;
  upsert_lot b l.

Definition with_scope (scope : string * string) (b : Books) : Books :=
  with_store {| db := order_db b; allocations := allocations (store b);
                nav_scopes := {[scope]} ∪ nav_scopes (store b) |} b.
Definition raise_watermark (b : Books) (n : NavPoint D) : StoreResult Books :=
  adjusted ← money (checked_sub (np_equity n) (np_flows n));
  let prior := nav_watermarks b !! np_scope_id n in
  if negb (is_none_or (λ w, wm_time w <=? np_time n) prior) then Ok b else
  peak ← match prior with Some w => decimal (wm_highwater w) | None => Ok adjusted end;
  Ok (with_watermarks (<[np_scope_id n := {| wm_highwater := exact (dec_max peak adjusted); wm_adjusted_equity := exact adjusted;
                                             wm_time := np_time n; wm_coverage := np_coverage n |}]> (nav_watermarks b)) b).
Definition ingest_nav (b : Books) (n : NavPoint D) : StoreResult Books :=
  if String.prefix "strategy:" (np_scope_id n) && String.prefix "strategy-reconciled-v1" (np_source_version n)
  then invalid "STRATEGY_NAV_REQUIRES_RECONCILIATION" else
  let b := with_scope (np_scope_id n, np_currency n) b in
  if (np_mark_source n =? "")%string then invalid "NAV_MARK_SOURCE_REQUIRED" else
  '(_, rows) ← insert_new (same_point n) true (nav_row n) (nav_points b);
  let b := with_nav_points rows b in
  saved ← query_row (List.find (same_point n) (nav_points b));
  if negb (bool_decide (saved = nav_row n)) then invalid "IMMUTABLE_NAV_SOURCE_CONFLICT" else
  if negb (np_currency n =? "USD")%string then Ok b else raise_watermark b n.

Definition fill_projected (b : Books) (id : string) : Books := with_fill_pending (delete id (fill_pending b)) b.
Definition funding_attributed (wall : Z) (b : Books) (id : string) : Books :=
  with_funding_pending (delete id (funding_pending b))
    (with_order_db (with_operations (insert_or_ignore ("funding:" +:+ id) (operation_row "FUNDING_ATTRIBUTED" id "COMMITTED" wall)
                                       (operation_receipts (order_db b))) (order_db b)) b).

(** The body of the transaction: the books it leaves and whether the cash flows changed *)
Definition ingest_body (wall : Z) (page : IngestPage D) (b : Books) : StoreResult (bool * Books) :=
  if is_some_and (λ c, (cur_source c =? "finance_provenance")%string) (ig_cursor page)
  then invalid "FINANCE_PROVENANCE_CURSOR_INTERNAL" else
  let finance_rowid_before := finance_rowid b in
  b ← try_fold ingest_fill b (ig_fills page);
  b ← try_fold ingest_bill b (ig_bills page);
  b ← try_fold ingest_funding b (ig_funding_events page);
  '(b, cash_flows_changed) ← try_fold ingest_cash_flow (b, false) (ig_cash_flows page);
  b ← try_fold ingest_allocation b (ig_allocations page);
  '(b, added_loss) ← try_fold ingest_finance (b, dec_zero) (ig_finance page);
  b ← charge_campaign b added_loss;
  b ← try_fold ingest_lot b (ig_lots page);
  b ← try_fold ingest_nav b (ig_nav page);
  b ← match ig_cursor page with Some c => upsert_source_cursor b c | None => Ok b end;
  let b := foldl fill_projected b (ig_projected_fill_ids page) in
  let b := foldl (funding_attributed wall) b (ig_attributed_funding_ids page) in
  Ok (cash_flows_changed, advance_finance_provenance b finance_rowid_before).
Definition ingest_page (wall : Z) (page : IngestPage D) (s : AccountStore D) : AccountStore D * StoreResult unit :=
  match ingest_body wall page (books s) with
  | Err e => (s, Err e)
  | Ok (cash_flows_changed, b) =>
    ({| books := b; cash_flow_totals_cache := if cash_flows_changed then None else cash_flow_totals_cache s;
        latest_capital_assignment_time := latest_capital_assignment_time s |}, Ok tt)
  end.
End books.
