(* ===== verification/BookFlows.v ===== *)
(** * BookFlows: what goes into the books and what is read from them, [ledger/sql/finance.rs]

    [ingest_attributed_fill] makes of a fill its fee, its lot or the reduction of lots, and
    [project_pending_fills] does so for the fills that wait; [attribute_pending_funding]
    splits a funding payment; [ingest_page_with_usd] adds what a page costs in USD.  The
    second half are the readings: lots, history, totals, risk, protections and cursors, and
    [view_of], what the trade service sees of the books. *)
From stdpp Require Import base option list numbers strings gmap sets pretty.
From Stdlib Require Import ZArith Lia String.
From S2P Require Import Prelude Text Ordered External Decimals Protocol Ledger Intents Instances TradeService Lots Books.
Local Open Scope string_scope.
Local Open Scope list_scope.
Local Open Scope Z_scope.

Inductive FillEffect : Type := Open (side : string) | Reduce.
Record UsdConversionEvidence {D : Type} : Type := {
  ux_observed_at : Z;
  ux_source_digest : string;
  ux_usd_per_currency : gmap string D;
}.
Arguments UsdConversionEvidence D : clear implicits.
(** Why a page has no value in USD *)
Inductive usd_failure : Type := NoRate | UsdOverflow.

(** An operator of [Lots] that panics unwinds through the call: here the code ["PANIC"],
    which no guard of the code returns. *)
Definition lots_result {A} (r : result failure A) : StoreResult A :=
  map_err (λ e, match e with Error code => Invalid code | _ => Invalid "PANIC" end) r.

Section flows.
Context {D : Type} `{DecimalMoney D}.
Notation order_db b := (db (store b)).

(** ** Readings *)
Definition read_lot (l : StoredLot string) : StoreResult (StoredLot D) :=
  q ← decimal (lot_remaining_qty l); c ← decimal (lot_cost l); Ok (with_quantity q c l).
Definition active_lots (b : Books) (instrument : string) : StoreResult (list (StoredLot D)) :=
  try_map read_lot
    (sort_by (cmp_on (λ l, (lot_side l, lot_instance_id l, lot_opened_at l, lot_id l)))
       (List.filter (λ l, (lot_instrument_id l =? instrument)%string && negb (lot_remaining_qty l =? "0")%string) (position_lots b))).

Definition read_entry (e : FinanceEntry string) : StoreResult (FinanceEntry D) :=
  x ← decimal (en_amount e); Ok (with_amount x e).
Definition by_time (l : list (FinanceEntry string)) : list (FinanceEntry string) :=
  sort_by (cmp_on (λ e, (en_time e, en_entry_id e))) l.
Definition within (from through : Z) (e : FinanceEntry string) : bool := (from <=? en_time e) && (en_time e <=? through).
Definition after_entry (time : Z) (id : string) (e : FinanceEntry string) : bool :=
  match kcmp (en_time e, en_entry_id e) (time, id) with Gt => true | _ => false end.
Definition finance_history (b : Books) (from through after_time : Z) (after_id : string) (limit : nat) : StoreResult (list (FinanceEntry D)) :=
  try_map read_entry
    (take (limit `min` 1000) (by_time (List.filter (λ e, within from through e && after_entry after_time after_id e) (finance_entries b)))).

(** [IN] over the chosen instances and currencies; an empty list chooses all *)
Definition finance_filter (instances currencies : list string) : StoreResult (FinanceEntry string → bool) :=
  if (32 <? List.length instances)%nat || (32 <? List.length currencies)%nat then invalid "FINANCE_FILTER_LIMIT" else
  if existsb (λ i, (i =? "")%string) (instances ++ currencies) then invalid "FINANCE_FILTER_INVALID" else
  Ok (λ e, (match instances with [] => true | _ => is_some_and (one_of instances) (en_instance_id e) end)
           && (match currencies with [] => true | _ => one_of currencies (en_currency e) end)).
Definition finance_history_filtered (b : Books) (from through after_time : Z) (after_id : string) (limit : nat)
    (instances currencies : list string) : StoreResult (list (FinanceEntry D)) :=
  filter ← finance_filter instances currencies;
  try_map read_entry
    (take (limit `min` 1000) (by_time (List.filter (λ e, within from through e && after_entry after_time after_id e && filter e)
                                         (finance_entries b)))).

(** One more amount of a group of a [BTreeMap] *)
Definition add_group {K} `{OrdKey K} (k : K) (amount : string) (m : list (K * D)) : StoreResult (list (K * D)) :=
  x ← decimal amount;
  total ← money (checked_add (default dec_zero (oget m k)) x);
  Ok (oinsert k total m).
Definition finance_attribution_filtered (b : Books) (from through : Z) (instances currencies : list string)
    : StoreResult (list ((option string * string * string) * D)) :=
  filter ← finance_filter instances currencies;
  try_fold (λ m e, m ← add_group (en_instance_id e, en_currency e, en_component e) (en_amount e) m;
                   if 4096 <? Z.of_nat (List.length m) then invalid "FINANCE_ATTRIBUTION_GROUP_LIMIT" else Ok m) []
    (by_time (List.filter (λ e, within from through e && filter e) (finance_entries b))).
Definition finance_totals_filtered (b : Books) (from through : Z) (instances currencies : list string)
    : StoreResult (list ((string * string) * D)) :=
  filter ← finance_filter instances currencies;
  try_fold (λ m e, add_group (en_currency e, en_component e) (en_amount e) m) []
    (by_time (List.filter (λ e, within from through e && filter e) (finance_entries b))).
Definition finance_totals (b : Books) (from through : Z) (instance : option string) : StoreResult (list ((string * string) * D)) :=
  try_fold (λ m e, add_group (en_currency e, en_component e) (en_amount e) m) []
    (by_time (List.filter (λ e, within from through e && is_none_or (λ i, bool_decide (en_instance_id e = Some i)) instance)
                (finance_entries b))).
Definition read_cash_flow_totals (b : Books) : StoreResult (list ((string * string) * D)) :=
  try_fold (λ m f, add_group (cf_currency f, cf_kind f) (cf_amount f) m) []
    (sort_by (cmp_on (λ f, (cf_time f, cf_event_id f))) (cash_flows b)).
Definition cash_flow_totals (s : AccountStore D) : AccountStore D * StoreResult (list ((string * string) * D)) :=
  match cash_flow_totals_cache s with
  | Some cached => (s, Ok cached)
  | None =>
    match read_cash_flow_totals (books s) with
    | Err e => (s, Err e)
    | Ok totals => ({| books := books s; cash_flow_totals_cache := Some totals;
                       latest_capital_assignment_time := latest_capital_assignment_time s |}, Ok totals)
    end
  end.

(** The revision of the immutable entries *)
Definition finance_revision (b : Books) : Z := finance_rowid b.

Definition opening_equity_usd (b : Books) : StoreResult D :=
  n ← query_row (List.find (λ n, (np_scope_id n =? "account")%string && (np_time n =? meta_initialized_at (meta (order_db b)))
                                 && (np_source_version n =? "opening")%string) (nav_points b));
  decimal (np_equity n).
Definition usd_component_total (b : Books) (component : string) : StoreResult D :=
  decimal_or_zero (finance_totals_table b !! ("USD", component)).
Definition drawdown_of (peak equity : D) : StoreResult D :=
  if negb (dec_ltb dec_zero peak) then Ok dec_zero else
  money (v ← checked_sub peak equity; checked_div (dec_max v dec_zero) peak).
Definition financial_risk (b : Books) (now : Z) (instance : option string) : StoreResult (FinancialRisk D) :=
  let scope := match instance with Some s => "strategy:" +:+ s | None => "account" end in
  '(drawdown, asof, complete) ←
    match nav_watermarks b !! scope with
    | Some w =>
      peak ← decimal (wm_highwater w);
      equity ← decimal (wm_adjusted_equity w);
      dd ← drawdown_of peak equity;
      Ok (dd, wm_time w, (wm_coverage w =? "COMPLETE")%string && negb (is_some instance)
                         && (wm_time w <=? now) && (now - wm_time w <=? 5000))
    | None => Ok (dec_zero, 0, false)
    end;
  daily ← decimal_or_zero (daily_losses b !! (scope, utc_day now));
  Ok {| fr_daily_loss_usd := daily; fr_drawdown_ratio := drawdown; fr_nav_complete := complete; fr_source_as_of := asof |}.

Definition cursor (b : Books) (source partition : string) : option SourceCursor := source_cursors b !! (source, partition).
Definition source_generation_base (b : Books) : StoreResult Z :=
  let generation := default 0 (max_time cur_generation (map snd (map_to_list (source_cursors b)))) in
  if (generation <? 0) || (generation =? i64_max) then invalid "SOURCE_GENERATION_INVALID" else Ok generation.

Definition protection_row (p : ProtectionReceipt D) : ProtectionReceipt string := {|
  pr_intent_id := pr_intent_id p; pr_algo_id := pr_algo_id p; pr_side := pr_side p; pr_quantity := exact (pr_quantity p);
  pr_trigger_price := exact (pr_trigger_price p); pr_trigger_basis := pr_trigger_basis p;
  pr_verified_at := pr_verified_at p; pr_source_digest := pr_source_digest p |}.
Definition verify_protection (b : Books) (p : ProtectionReceipt D) : Books * StoreResult unit :=
  match require_intent (D:=D) (order_db b) (pr_intent_id p) with
  | Err e => (b, Err e)
  | Ok i =>
    let required_side := if (ip_side (si_plan i) =? "buy")%string then "sell" else "buy" in
    if (pr_algo_id p =? "")%string || negb (pr_side p =? required_side)%string || dec_leb (pr_quantity p) dec_zero
       || dec_ltb (ip_quantity (si_plan i)) (pr_quantity p)
       || negb (is_some_and (dec_eqb (pr_trigger_price p)) (ip_stop_price (si_plan i)))
       || negb (pr_trigger_basis p =? "mark")%string || (pr_source_digest p =? "")%string
    then (b, invalid "PROTECTION_VERIFICATION_FAILED") else
    if exists_row (λ id q, negb (id =? pr_intent_id p)%string && (pr_algo_id q =? pr_algo_id p)%string) (protection_receipts b)
    then (b, Err (Sql ConstraintViolation)) else
    (with_protections (<[pr_intent_id p := protection_row p]> (protection_receipts b)) b, Ok tt)
  end.
Definition protection (b : Books) (id : string) : StoreResult (option (ProtectionReceipt D)) :=
  match protection_receipts b !! id with
  | None => Ok None
  | Some p =>
    q ← decimal (pr_quantity p); t ← decimal (pr_trigger_price p);
    Ok (Some {| pr_intent_id := id; pr_algo_id := pr_algo_id p; pr_side := pr_side p; pr_quantity := q;
                pr_trigger_price := t; pr_trigger_basis := pr_trigger_basis p; pr_verified_at := pr_verified_at p;
                pr_source_digest := pr_source_digest p |})
  end.
Definition view_of (b : Books) : View D := {|
  TradeService.financial_risk := financial_risk b; TradeService.active_lots := active_lots b;
  TradeService.protection := protection b; TradeService.verify_protection := λ p, (verify_protection b p).2;
  TradeService.cursor := λ source partition, Ok (cursor b source partition) |}.

(** ** Fills and their effect on lots *)
Definition empty_page : IngestPage D := {|
  ig_funding_events := []; ig_attributed_funding_ids := []; ig_fills := []; ig_bills := []; ig_finance := [];
  ig_cash_flows := []; ig_allocations := []; ig_lots := []; ig_nav := []; ig_projected_fill_ids := []; ig_cursor := None |}.
Definition fill_page (fills : list (Fill D)) (finance : list (FinanceEntry D)) (lots : list (StoredLot D))
    (projected : list string) (cursor : option SourceCursor) : IngestPage D := {|
  ig_funding_events := []; ig_attributed_funding_ids := []; ig_fills := fills; ig_bills := []; ig_finance := finance;
  ig_cash_flows := []; ig_allocations := []; ig_lots := lots; ig_nav := []; ig_projected_fill_ids := projected;
  ig_cursor := cursor |}.
Definition fill_entry (fill : Fill D) (instance : option string) (suffix component leg : string) (amount : D) : FinanceEntry D := {|
  en_entry_id := canonical_key fill +:+ suffix; en_economic_event_key := canonical_key fill; en_component := component;
  en_allocation_leg := leg; en_amount := amount; en_currency := fi_currency fill; en_instance_id := instance;
  en_source_ref := "fill:" +:+ fi_fill_id fill; en_time := fi_time fill; en_reverses_entry_id := None |}.
Definition opened_lot (fill : Fill D) (instance : option string) (side : string) : StoredLot D := {|
  lot_id := "lot:" +:+ fi_fill_id fill; lot_instance_id := instance; lot_intent_id := fi_intent_id fill;
  lot_fill_id := Some (fi_fill_id fill); lot_instrument_id := fi_instrument_id fill; lot_side := side;
  lot_remaining_qty := fi_qty fill; lot_cost := fi_price fill; lot_opened_at := fi_time fill |}.
(** A stored lot with the mechanics of its own intent *)
Definition position_lot (b : Books) (l : StoredLot D) : StoreResult (PositionLot D) :=
  id ← ok_or (Invalid "LOT_MECHANICS_UNAVAILABLE") (lot_intent_id l);
  p ← plan (order_db b) id;
  Ok {| pl_contract_value := ip_contract_value p; pl_inverse := ip_inverse p; pl_lot_id := lot_id l;
        pl_instance_id := lot_instance_id l; pl_instrument_id := lot_instrument_id l;
        pl_signed_qty := if (lot_side l =? "long")%string then lot_remaining_qty l else dec_neg (lot_remaining_qty l);
        pl_unit_cost := lot_cost l; pl_opened_at := lot_opened_at l |}.
Definition changed_lot (lots : list (PositionLot D)) (l : StoredLot D) : option (StoredLot D) :=
  u ← List.find (λ v, (pl_lot_id v =? lot_id l)%string) lots;
  let q := dec_abs (pl_signed_qty u) in
  if dec_eqb q (lot_remaining_qty l) then None else Some (with_quantity q (lot_cost l) l).
(** The lots that a reducing fill changes, and its profit *)
Definition reduction (b : Books) (fill : Fill D) (instance : option string) : StoreResult (string * list (StoredLot D) * D) :=
  owner ← ok_or (Invalid "EXPLICIT_INSTANCE_REQUIRED_FOR_REDUCTION") instance;
  id ← ok_or (Invalid "REDUCTION_INTENT_REQUIRED") (fi_intent_id fill);
  reduce_plan ← plan (D:=D) (order_db b) id;
  active ← active_lots b (fi_instrument_id fill);
  let existing_lots := List.filter (λ l, (lot_side l =? ip_position_side reduce_plan)%string
                                         && bool_decide (lot_instance_id l = Some owner)) active in
  lots ← try_map (position_lot b) existing_lots;
  '(lots, reductions) ← lots_result (reduce_fifo lots owner (fi_instrument_id fill) (fi_qty fill) (fi_price fill));
  pnl ← try_fold (λ a r, money (checked_add a (lr_realized_pnl r))) dec_zero reductions;
  Ok (owner, omap (changed_lot lots) existing_lots, pnl).
Definition attributed_page (b : Books) (fill : Fill D) (effect : FillEffect) (cursor : option SourceCursor) (existing : bool)
    : StoreResult (IngestPage D) :=
  instance ← match fi_intent_id fill with
             | Some id => o ← intent_owner (order_db b) id; Ok o.1
             | None => Ok None
             end;
  let fee := if dec_eqb (fi_fee fill) dec_zero then [] else [fill_entry fill instance ":fee" "FEE" "account" (fi_fee fill)] in
  match effect with
  | Open side =>
    if negb (one_of ["long"; "short"] side) then invalid "INVALID_POSITION_SIDE" else
    Ok (fill_page [fill] fee [opened_lot fill instance side] [fi_fill_id fill] cursor)
  | Reduce =>
    '(owner, lots, pnl) ← reduction b fill instance;
    let realized := if existing then [] else [fill_entry fill instance ":realized" "REALIZED_PNL" owner pnl] in
    Ok (fill_page [fill] (fee ++ realized) lots [fi_fill_id fill] cursor)
  end.
Definition ingest_attributed_fill (wall : Z) (fill : Fill D) (effect : FillEffect) (cursor : option SourceCursor)
    (s : AccountStore D) : AccountStore D * StoreResult unit :=
  let b := books s in
  let existing := existsb (same_trade fill) (fills b) in
  let pending := is_some (fill_pending b !! fi_fill_id fill) in
  if existing && negb pending then ingest_page wall (fill_page [fill] [] [] [] cursor) s else
  match attributed_page b fill effect cursor existing with
  | Err e => (s, Err e)
  | Ok page => ingest_page wall page s
  end.

(** The pending fills with their sides, oldest first *)
Definition pending_fills (b : Books) (limit : nat) : list (Fill string * string) :=
  take (limit `min` 1000)
    (sort_by (cmp_on (λ fs, (fi_time fs.1, fi_fill_id fs.1)))
       (omap (λ ks, f ← List.find (λ f, (fi_fill_id f =? ks.1)%string) (fills b); Some (f, ks.2)) (map_to_list (fill_pending b)))).
Definition read_fill (f : Fill string) (side : string) : StoreResult (Fill D) :=
  qty ← decimal (fi_qty f); price ← decimal (fi_price f); fee ← decimal (fi_fee f);
  Ok {| fi_side := side; fi_fill_id := fi_fill_id f; fi_instrument_id := fi_instrument_id f; fi_trade_id := fi_trade_id f;
        fi_exchange_order_id := fi_exchange_order_id f; fi_intent_id := fi_intent_id f; fi_time := fi_time f; fi_qty := qty;
        fi_price := price; fi_fee := fee; fi_currency := fi_currency f |}.
Definition closes (operation : string) : bool := one_of ["close"; "reduce"] operation.
Definition effect_of (b : Books) (fill : Fill D) : StoreResult FillEffect :=
  p ← match fi_intent_id fill with Some id => Some <$> plan (D:=D) (order_db b) id | None => Ok None end;
  Ok (if is_some_and (λ p, closes (ip_operation p)) p then Reduce
      else Open (if (fi_side fill =? "buy")%string then "long" else "short")).
Definition project_fill (wall : Z) (s : AccountStore D) (raw : Fill string * string) : AccountStore D * StoreResult unit :=
  match (fill ← read_fill raw.1 raw.2; effect ← effect_of (books s) fill; Ok (fill, effect)) with
  | Err e => (s, Err e)
  | Ok (fill, effect) => ingest_attributed_fill wall fill effect None s
  end.
Definition project_pending_fills (wall : Z) (limit : nat) (s : AccountStore D) : AccountStore D * StoreResult Z :=
  let rows := pending_fills (books s) limit in
  let '(s, r) := for_each (project_fill wall) s rows in
  (s, _ ← r; Ok (Z.of_nat (List.length rows))).

(** ** USD mirrors of a page *)
Definition latch (id scope reason : string) (now : Z) (s : AccountStore D) : AccountStore D :=
  with_books (with_order_db (latch_stop (order_db (books s)) id scope reason now).1 (books s)) s.
Definition usd_rate (fx : UsdConversionEvidence D) (currency : string) : result usd_failure D :=
  rate ← (if (currency =? "USD")%string then Ok dec_one else ok_or NoRate (ux_usd_per_currency fx !! currency));
  if dec_leb rate dec_zero then Err NoRate else Ok rate.
Definition has_mirror (b : Books) (key component leg : string) : bool :=
  existsb (λ g, (en_economic_event_key g =? key)%string && (en_component g =? component)%string
                && (en_allocation_leg g =? leg)%string) (finance_entries b).
Definition usd_source (fx : UsdConversionEvidence D) (rate : D) (source_ref : string) : string :=
  source_ref +:+ "|fx:" +:+ ux_source_digest fx +:+ "|rate:" +:+ exact rate +:+ "|at:" +:+ pretty (ux_observed_at fx).
Definition usd_flow (b : Books) (fx : UsdConversionEvidence D) (flow : CashFlow D) : result usd_failure (list (FinanceEntry D)) :=
  if (cf_kind flow =? "OPENING")%string || has_mirror b (cf_event_id flow) "EXTERNAL_FLOW_USD" "account" then Ok [] else
  rate ← usd_rate fx (cf_currency flow);
  amount ← ok_or UsdOverflow (checked_mul (cf_amount flow) rate);
  Ok [{| en_entry_id := cf_event_id flow +:+ ":usd-flow"; en_economic_event_key := cf_event_id flow;
         en_component := "EXTERNAL_FLOW_USD"; en_allocation_leg := "account"; en_amount := amount; en_currency := "USD";
         en_instance_id := None; en_source_ref := usd_source fx rate (cf_source_ref flow); en_time := cf_time flow;
         en_reverses_entry_id := None |}].
Definition counts_as_loss (e : FinanceEntry D) : bool :=
  dec_ltb (en_amount e) dec_zero && one_of ["FEE"; "REALIZED_PNL"; "FUNDING"; "INTEREST"; "LIQUIDATION_COST"] (en_component e).
Definition usd_loss (b : Books) (fx : UsdConversionEvidence D) (e : FinanceEntry D) : result usd_failure (list (FinanceEntry D)) :=
  let leg := en_component e +:+ ":" +:+ en_allocation_leg e in
  if negb (counts_as_loss e) || has_mirror b (en_economic_event_key e) "CAMPAIGN_LOSS_USD" leg then Ok [] else
  rate ← usd_rate fx (en_currency e);
  loss ← ok_or UsdOverflow (checked_mul (dec_neg (en_amount e)) rate);
  Ok [{| en_entry_id := en_economic_event_key e +:+ ":usd-loss:" +:+ leg; en_economic_event_key := en_economic_event_key e;
         en_component := "CAMPAIGN_LOSS_USD"; en_allocation_leg := leg; en_amount := round_away 9 loss; en_currency := "USD";
         en_instance_id := en_instance_id e; en_source_ref := usd_source fx rate (en_source_ref e); en_time := en_time e;
         en_reverses_entry_id := None |}].
Definition with_finance (l : list (FinanceEntry D)) (p : IngestPage D) : IngestPage D := {|
  ig_funding_events := ig_funding_events p; ig_attributed_funding_ids := ig_attributed_funding_ids p; ig_fills := ig_fills p;
  ig_bills := ig_bills p; ig_finance := l; ig_cash_flows := ig_cash_flows p; ig_allocations := ig_allocations p;
  ig_lots := ig_lots p; ig_nav := ig_nav p; ig_projected_fill_ids := ig_projected_fill_ids p; ig_cursor := ig_cursor p |}.
Definition normalized (b : Books) (fx : UsdConversionEvidence D) (page : IngestPage D) : result usd_failure (IngestPage D) :=
  flows ← try_map (usd_flow b fx) (ig_cash_flows page);
  losses ← try_map (usd_loss b fx) (ig_finance page);
  Ok (with_finance (ig_finance page ++ List.concat flows ++ List.concat losses) page).
Definition ingest_page_with_usd (wall : Z) (page : IngestPage D) (fx : UsdConversionEvidence D) (s : AccountStore D)
    : AccountStore D * StoreResult unit :=
  if (ux_source_digest fx =? "")%string || (ux_observed_at fx <=? 0) then (s, invalid "USD_CONVERSION_SOURCE_UNAVAILABLE") else
  match normalized (books s) fx page with
  | Ok page => ingest_page wall page s
  | Err NoRate => (latch "usd-conversion-unavailable" "account" "USD_CONVERSION_SOURCE_UNAVAILABLE" (ux_observed_at fx) s,
                   invalid "USD_CONVERSION_SOURCE_UNAVAILABLE")
  | Err UsdOverflow => (s, invalid "MONEY_OVERFLOW")
  end.

(** ** Funding *)
Definition fill_sign (d : Db) (f : Fill string) : D :=
  let p := id ← fi_intent_id f; intent_plans d !! id in
  let reducing := is_some_and (λ p, closes (p_operation p)) p in
  let position := p_position_side <$> p in
  if opt_eqb position (Some "long") then if reducing then dec_neg dec_one else dec_one
  else if opt_eqb position (Some "short") then if reducing then dec_one else dec_neg dec_one
  else if (fi_side f =? "buy")%string then dec_one else dec_neg dec_one.
Definition fill_owner (d : Db) (f : Fill string) : string :=
  default "unattributed" (id ← fi_intent_id f; r ← intents d !! id;
                          x ← List.find (λ x, (dn_decision_id x =? i_decision_id r)%string) (decisions d); dn_instance_id x).
Definition exposures (b : Books) (instrument : string) (time : Z) : StoreResult (list (string * D)) :=
  m ← try_fold (λ m f,
        q ← decimal (fi_qty f);
        signed ← money (checked_mul q (fill_sign (order_db b) f));
        let owner := fill_owner (order_db b) f in
        total ← money (checked_add (default dec_zero (oget m owner)) signed);
        Ok (oinsert owner total m)) []
      (sort_by (cmp_on (λ f, (fi_time f, fi_fill_id f)))
         (List.filter (λ f, (fi_instrument_id f =? instrument)%string && (fi_time f <=? time)) (fills b)));
  Ok (List.filter (λ iq, negb (dec_eqb iq.2 dec_zero)) m).
Definition funding_entry (e : FundingEvent string) (owner : string) (amount : D) : FinanceEntry D :=
  let key := "bill:" +:+ fu_event_id e in {|
  en_entry_id := key +:+ ":funding:" +:+ owner; en_economic_event_key := key; en_component := "FUNDING";
  en_allocation_leg := owner; en_amount := amount; en_currency := fu_currency e;
  en_instance_id := if one_of ["unattributed"; "rounding_residual"] owner then None else Some owner;
  en_source_ref := key; en_time := fu_time e; en_reverses_entry_id := None |}.
Definition funding_page (e : FundingEvent string) (allocations : list (string * D)) : IngestPage D := {|
  ig_funding_events := []; ig_attributed_funding_ids := [fu_event_id e]; ig_fills := []; ig_bills := [];
  ig_finance := omap (λ oa, if dec_eqb oa.2 dec_zero && negb (oa.1 =? "rounding_residual")%string then None
                            else Some (funding_entry e oa.1 oa.2)) allocations;
  ig_cash_flows := []; ig_allocations := []; ig_lots := []; ig_nav := []; ig_projected_fill_ids := []; ig_cursor := None |}.
Definition attribute_funding (wall : Z) (fx : UsdConversionEvidence D) (s : AccountStore D) (e : FundingEvent string)
    : AccountStore D * StoreResult unit :=
  match (amount ← decimal (fu_amount e);
         exposure ← exposures (books s) (fu_instrument_id e) (fu_time e);
         lots_result (allocate_funding amount exposure 18)) with
  | Err e => (s, Err e)
  | Ok allocations =>
    match ingest_page_with_usd wall (funding_page e allocations) fx s with
    | (s, Err e) => (s, Err e)
    | (s, Ok _) =>
      if existsb (λ oa, (oa.1 =? "unattributed")%string && negb (dec_eqb oa.2 dec_zero)) allocations
      then (latch "funding-attribution-incomplete" "account" "FUNDING_ATTRIBUTION_INCOMPLETE" (fu_time e) s, Ok tt)
      else (s, Ok tt)
    end
  end.
Definition attribute_pending_funding (wall : Z) (fx : UsdConversionEvidence D) (limit : nat) (s : AccountStore D)
    : AccountStore D * StoreResult Z :=
  let rows := take (limit `min` 100) (sort_by (cmp_on (λ e, (fu_time e, fu_event_id e))) (map snd (map_to_list (funding_pending (books s))))) in
  let '(s, r) := for_each (attribute_funding wall fx) s rows in
  (s, _ ← r; Ok (Z.of_nat (List.length rows))).
End flows.

(** ** Opening an account, [ledger/sql/schema.rs] *)
Record OpeningSnapshot {D : Type} : Type := {
  op_opening_equity_usd : D;
  op_source_ref : string;
  op_observed_at : Z;
  op_positions : Z;
  op_orders : Z;
  op_conditional_orders : Z;
  op_liabilities : D;
  op_balances : list (string * D);
}.
Arguments OpeningSnapshot D : clear implicits.
Section opening.
Context {D : Type} `{DecimalMoney D}.
Notation order_db b := (db (store b)).

Definition empty_db (m : AccountMeta) : Db := {|
  meta := m; intents := ∅; intent_plans := ∅; decisions := []; risk_receipts := ∅;
  operation_receipts := {[meta_initialize_operation_id m :=
    operation_row "INITIALIZE" (meta_account_key m +:+ "|" +:+ meta_installation_id m +:+ "|" +:+ meta_release_id m)
      (meta_opening_source m) (meta_initialized_at m)]};
  account_policy := {| pol_revision := 0; pol_paused := false; pol_campaign_id := "unconfigured"; pol_campaign_limit := "0";
                       pol_campaign_loss := "0" |};
  risk_stops := ∅; strategy_instances := ∅; definition_versions := ∅;
  storage_recovery := {| rec_requires_reconcile := false; rec_backup_at := None; rec_reconciled_evidence := None |};
  orders := ∅ |}.
Definition opening_point (m : AccountMeta) (source scope currency : string) (equity : D) : NavPoint string := {|
  np_scope_id := scope; np_time := meta_initialized_at m; np_source_version := "opening"; np_equity := exact equity; np_pnl := "0";
  np_flows := "0"; np_currency := currency; np_coverage := "COMPLETE"; np_mark_source := source |}.
Definition empty_books (m : AccountMeta) (x : OpeningSnapshot D) : Books := {|
  store := {| db := empty_db m; allocations := ∅; nav_scopes := {[("account", "USD")]} |};
  fills := []; fill_pending := ∅; bills := []; funding_pending := ∅; cash_flows := []; position_lots := [];
  finance_entries := []; finance_totals_table := ∅; instance_finance_totals := ∅; finance_source_links := ∅;
  nav_points := [opening_point m (op_source_ref x) "account" "USD" (op_opening_equity_usd x)];
  nav_watermarks := {["account" := {| wm_highwater := exact (op_opening_equity_usd x); wm_adjusted_equity := exact (op_opening_equity_usd x);
                                      wm_time := meta_initialized_at m; wm_coverage := "COMPLETE" |}]};
  daily_losses := ∅;
  source_cursors := {[("opening", "account") := {| cur_source := "opening"; cur_stream_partition := "account"; cur_cursor := op_source_ref x;
                                                   cur_watermark := op_observed_at x; cur_generation := 0; cur_coverage_gaps := "" |}]};
  protection_receipts := ∅ |}.
Definition open_flow (x : OpeningSnapshot D) (b : Books) (ca : string * D) : StoreResult Books :=
  let '(currency, amount) := ca in
  if (currency =? "")%string || dec_ltb amount dec_zero then invalid "INVALID_OPENING_BALANCE" else
  let row := {| cf_event_id := "opening:" +:+ currency; cf_kind := "OPENING"; cf_currency := currency; cf_amount := exact amount;
                cf_time := op_observed_at x; cf_source_ref := op_source_ref x |} in
  _ ← constraint (negb (existsb (λ f, (cf_event_id f =? cf_event_id row)%string) (cash_flows b)));
  Ok (with_cash_flows (cash_flows b ++ [row]) b).
Definition open_balance (x : OpeningSnapshot D) (b : Books) (ca : string * D) : StoreResult Books :=
  let '(currency, amount) := ca in
  let row := opening_point (meta (order_db b)) (op_source_ref x) ("account:" +:+ currency) currency amount in
  _ ← constraint (negb (existsb (same_point row) (nav_points b)));
  _ ← constraint (bool_decide (("account:" +:+ currency, currency) ∉ nav_scopes (store b)));
  Ok (with_scope ("account:" +:+ currency, currency) (with_nav_points (nav_points b ++ [row]) b)).
Definition meta_valid (m : AccountMeta) : bool :=
  negb (meta_account_key m =? "")%string && negb (meta_installation_id m =? "")%string && negb (meta_opening_source m =? "")%string
  && (0 <? meta_initialized_at m) && negb (meta_initialize_operation_id m =? "")%string && negb (meta_release_id m =? "")%string.
Definition no_views (b : Books) : AccountStore D :=
  {| books := b; cash_flow_totals_cache := None; latest_capital_assignment_time := None |}.
Definition initialize_flat (m : AccountMeta) (x : OpeningSnapshot D) : StoreResult (AccountStore D) :=
  if negb (op_positions x =? 0) || negb (op_orders x =? 0) || negb (op_conditional_orders x =? 0)
     || negb (dec_eqb (op_liabilities x) dec_zero)
  then invalid "ACCOUNT_NOT_FLAT" else
  if negb (op_source_ref x =? meta_opening_source m)%string || negb (op_observed_at x =? meta_initialized_at m)
     || (List.length (op_balances x) =? 0)%nat
  then invalid "OPENING_EVIDENCE_MISMATCH" else
  if negb (meta_valid m) then invalid "INVALID_ACCOUNT_META" else
  b ← try_fold (open_flow x) (empty_books m x) (op_balances x);
  b ← try_fold (open_balance x) b (op_balances x);
  Ok (no_views b).

(** The entries of strategies that are already there are verified once, in a transaction. *)
Definition audit_entry (b : Books) (_ : unit) (e : FinanceEntry string) : StoreResult unit :=
  e ← read_entry (D:=D) e; verify_strategy_finance_source b e.
Definition audit_existing_finance_provenance (b : Books) : StoreResult Books :=
  if finance_proof_sealed b then Ok b else
  _ ← try_fold (audit_entry b) tt (List.filter strategy_owner (finance_entries b));
  Ok (seal (finance_rowid b) b).
Definition open_existing (account_key installation_id : string) (b : Books) : StoreResult (AccountStore D) :=
  if negb (meta_account_key (meta (order_db b)) =? account_key)%string
     || negb (meta_installation_id (meta (order_db b)) =? installation_id)%string
  then invalid "ACCOUNT_IDENTITY_MISMATCH" else
  match audit_existing_finance_provenance b with
  | Ok b => Ok (no_views b)
  | Err (Invalid _) => Ok (no_views b)
  | Err e => Err e
  end.
End opening.
