(* ===== verification/Capital.v ===== *)
(** * Capital: principal of strategies and their valuation, [ledger/sql/finance.rs]

    Capital is booked inside the account as two legs of one event: [capital_state] reads who
    holds how much, [commit_authorized_capital_assignment] moves it.
    [reconcile_strategy_valuation] prices strategies against the account and the venue, and
    [commit_reconciled_strategy_nav] publishes the result with its receipts; [nav_summary]
    reads net asset values back, those of strategies only with a receipt of the present
    revision of the sources. *)
From stdpp Require Import base option list numbers strings gmap sets pretty.
From Stdlib Require Import ZArith Lia String.
From S2P Require Import Prelude Text Ordered External Decimals Protocol Ledger Intents Instances TradeService Lots Books BookFlows.
Local Open Scope string_scope.
Local Open Scope list_scope.
Local Open Scope Z_scope.

Record AuthorizedCapitalAssignment {D : Type} : Type := {
  ca_account_key : string;
  ca_installation_id : string;
  ca_nav_source_ref : string;
  ca_operation_id : string;
  ca_request_hash : string;
  ca_instance_id : string;
  ca_delta_usd : D;
  ca_authority_revision : Z;
  ca_authority_receipt : string;
  ca_time : Z;
}.
Arguments AuthorizedCapitalAssignment D : clear implicits.
Record AccountCapitalState {D : Type} : Type := {
  cs_account_nav_usd : D;
  cs_assigned_usd : D;
  cs_unattributed_residual_usd : D;
  cs_strategy_principal_usd : list (string * D);
  cs_nav_source_as_of : Z;
  cs_nav_source_ref : string;
  cs_coverage : string;
  cs_reason_code : option string;
}.
Arguments AccountCapitalState D : clear implicits.
Record ValuationPosition {D : Type} : Type := {
  vp_instrument_id : string;
  vp_signed_contracts : D;
  vp_mark_price : D;
}.
Arguments ValuationPosition D : clear implicits.
Record StrategyValuationEvidence {D : Type} : Type := {
  sv_account_key : string;
  sv_account_nav_source : string;
  sv_as_of : Z;
  sv_conversion : UsdConversionEvidence D;
  sv_venue_positions : list (ValuationPosition D);
}.
Arguments StrategyValuationEvidence D : clear implicits.
Record StrategyValuation {D : Type} : Type := {
  va_instance_id : string;
  va_capital_usd : D;
  va_realized_usd : D;
  va_unrealized_usd : D;
  va_equity_usd : D;
}.
Arguments StrategyValuation D : clear implicits.
Record StrategyValuationReconciliation {D : Type} : Type := {
  vr_account_nav_usd : D;
  vr_attributed_usd : D;
  vr_unattributed_usd : D;
  vr_as_of : Z;
  vr_source_ref : string;
  vr_strategies : list (StrategyValuation D);
  vr_coverage : string;
}.
Arguments StrategyValuationReconciliation D : clear implicits.
Record NavWindow {D : Type} : Type := {
  nw_scope_id : string;
  nw_currency : string;
  nw_opening_equity : option D;
  nw_current_equity : option D;
  nw_flows : option D;
  nw_pnl : option D;
  nw_opening_as_of : option Z;
  nw_current_as_of : option Z;
  nw_coverage : string;
}.
Arguments NavWindow D : clear implicits.

Section capital.
Context {D : Type} `{DecimalMoney D}.
Notation order_db b := (db (store b)).

(** [ORDER BY time DESC,source_version DESC LIMIT 1] *)
Definition latest_point (p : NavPoint string → bool) (b : Books) : option (NavPoint string) :=
  foldl (λ best n, match best with
                   | Some m => match kcmp (np_time n, np_source_version n) (np_time m, np_source_version m) with
                               | Gt => Some n | _ => best end
                   | None => Some n
                   end) None (List.filter p (nav_points b)).
Definition account_point (now : Z) (n : NavPoint string) : bool :=
  (np_scope_id n =? "account")%string && (np_currency n =? "USD")%string && (np_time n <=? now).

(** ** Who holds how much *)
Definition capital_entry {N} (e : FinanceEntry N) : bool := (en_component e =? "INTERNAL_CAPITAL_USD")%string.
Definition last_assignment (b : Books) : option Z := max_time en_time (List.filter capital_entry (finance_entries b)).
Definition nav_evidence (b : Books) (now : Z) : StoreResult (D * NavPoint string) :=
  n ← ok_or (Invalid "ACCOUNT_NAV_SOURCE_MISSING") (latest_point (account_point now) b);
  if negb (np_coverage n =? "COMPLETE")%string || (now <? np_time n) || (5000 <? now - np_time n)
     || rec_requires_reconcile (storage_recovery (order_db b))
  then invalid "ACCOUNT_CAPITAL_SOURCE_INCOMPLETE_OR_STALE" else
  nav ← decimal (np_equity n);
  if dec_ltb nav dec_zero then invalid "ACCOUNT_NAV_NEGATIVE" else Ok (nav, n).
(** The legs of the time before [now], or the projection of all of them *)
Definition principal_rows (b : Books) (now : Z) (historical : bool) : list (string * string) :=
  if historical then
    omap (λ e, (λ i, (i, en_amount e)) <$> en_instance_id e)
      (by_time (List.filter (λ e, capital_entry e && (en_currency e =? "USD")%string && (en_time e <=? now)) (finance_entries b)))
  else
    sort_by (cmp_on fst)
      (omap (λ kv : (string * string * string) * string,
               let '(i, currency, component) := kv.1 in
               if (currency =? "USD")%string && (component =? "INTERNAL_CAPITAL_USD")%string then Some (i, kv.2) else None)
            (map_to_list (instance_finance_totals b))).
Definition add_principal (pa : list (string * D) * D) (row : string * string) : StoreResult (list (string * D) * D) :=
  let '(principals, assigned) := pa in
  amount ← decimal row.2;
  next ← money (checked_add (default dec_zero (oget principals row.1)) amount);
  if (row.1 =? "manual")%string || dec_ltb next dec_zero then invalid "INTERNAL_CAPITAL_CORRUPT" else
  let principals := oinsert row.1 next principals in
  assigned ← money (checked_add assigned amount);
  if (64 <? List.length principals)%nat then invalid "CAPITAL_SCOPE_LIMIT" else Ok (principals, assigned).
Definition capital_of (b : Books) (nav : D) (n : NavPoint string) (rows : list (string * string)) : StoreResult (AccountCapitalState D) :=
  '(principals, assigned) ← try_fold add_principal ([], dec_zero) rows;
  residual ← money (checked_sub nav assigned);
  let under_collateralized := dec_ltb residual dec_zero in
  total ← decimal (default "0" (finance_totals_table b !! ("USD", "INTERNAL_CAPITAL_USD")));
  if negb (dec_eqb total dec_zero) then invalid "INTERNAL_CAPITAL_NOT_CONSERVED" else
  Ok {| cs_account_nav_usd := nav; cs_assigned_usd := assigned; cs_unattributed_residual_usd := residual;
        cs_strategy_principal_usd := principals; cs_nav_source_as_of := np_time n; cs_nav_source_ref := np_mark_source n;
        cs_coverage := if under_collateralized then "PARTIAL" else "COMPLETE";
        cs_reason_code := if under_collateralized then Some "ACCOUNT_CAPITAL_OVERASSIGNED" else None |}.
Definition with_assignment_cache (o : option (option Z)) (s : AccountStore D) : AccountStore D := {|
  books := books s; cash_flow_totals_cache := cash_flow_totals_cache s; latest_capital_assignment_time := o |}.
Definition capital_state (s : AccountStore D) (now : Z) : AccountStore D * StoreResult (AccountCapitalState D) :=
  let b := books s in
  match nav_evidence b now with
  | Err e => (s, Err e)
  | Ok (nav, n) =>
    let latest := default (last_assignment b) (latest_capital_assignment_time s) in
    (with_assignment_cache (Some latest) s,
     capital_of b nav n (principal_rows b now (is_some_and (λ last, now <? last) latest)))
  end.

(** ** Moving capital *)
Definition assignment_valid (m : AccountMeta) (r : AuthorizedCapitalAssignment D) : bool :=
  (ca_account_key r =? meta_account_key m)%string && (ca_installation_id r =? meta_installation_id m)%string
  && negb (ca_nav_source_ref r =? "")%string && negb (ca_instance_id r =? "manual")%string
  && negb (ca_instance_id r =? "")%string && negb (ca_operation_id r =? "")%string && negb (ca_request_hash r =? "")%string
  && negb (ca_authority_receipt r =? "")%string && (0 <? ca_authority_revision r) && (meta_initialized_at m <=? ca_time r)
  && negb (dec_eqb (ca_delta_usd r) dec_zero).
Definition capital_leg (r : AuthorizedCapitalAssignment D) (leg : string) (owner : option string) (delta : D) : FinanceEntry string := {|
  en_entry_id := "capital:" +:+ ca_operation_id r +:+ ":" +:+ leg; en_economic_event_key := "capital:" +:+ ca_operation_id r;
  en_component := "INTERNAL_CAPITAL_USD"; en_allocation_leg := leg; en_amount := exact delta; en_currency := "USD";
  en_instance_id := owner; en_source_ref := ca_authority_receipt r; en_time := ca_time r; en_reverses_entry_id := None |}.
(** A plain [INSERT] of an entry and of its link *)
Definition insert_leg (b : Books) (e : FinanceEntry string) : StoreResult Books :=
  _ ← constraint (negb (existsb (λ g, canonical e g || (en_entry_id g =? en_entry_id e)%string) (finance_entries b))
                  && references (strategy_instances (order_db b)) (en_instance_id e));
  _ ← constraint (bool_decide ((en_entry_id e, en_source_ref e) ∉ finance_source_links b));
  Ok (with_links ({[(en_entry_id e, en_source_ref e)]} ∪ finance_source_links b) (with_entries (finance_entries b ++ [e]) b)).
Definition book_assignment (r : AuthorizedCapitalAssignment D) (next : D) (as_of : Z) (b : Books) : StoreResult Books :=
  let before := finance_rowid b in
  opposite ← money (checked_sub dec_zero (ca_delta_usd r));
  b ← try_fold insert_leg b
        [capital_leg r ("strategy:" +:+ ca_instance_id r) (Some (ca_instance_id r)) (ca_delta_usd r);
         capital_leg r "unattributed" None opposite];
  let b := with_instance_totals (<[(ca_instance_id r, "USD", "INTERNAL_CAPITAL_USD") := exact next]> (instance_finance_totals b)) b in
  let b := with_totals (match finance_totals_table b !! ("USD", "INTERNAL_CAPITAL_USD") with
                        | Some _ => finance_totals_table b
                        | None => <[("USD", "INTERNAL_CAPITAL_USD") := "0"]> (finance_totals_table b) end) b in
  let result := "strategy:" +:+ ca_instance_id r +:+ "|principal_usd:" +:+ exact next +:+ "|account_nav_as_of:" +:+ pretty as_of in
  ops ← insert_row (ca_operation_id r) (operation_row "CAPITAL_ASSIGNMENT" (ca_request_hash r) result (ca_time r))
          (operation_receipts (order_db b));
  Ok (advance_finance_provenance (with_order_db (with_operations ops (order_db b)) b) before).
(** The guards that need the books: what the instance has afterwards *)
Definition assignment_allowed (b : Books) (r : AuthorizedCapitalAssignment D) (state : AccountCapitalState D) : StoreResult D :=
  if negb (ca_nav_source_ref r =? cs_nav_source_ref state)%string then invalid "CAPITAL_NAV_SOURCE_MISMATCH" else
  next ← money (checked_add (default dec_zero (oget (cs_strategy_principal_usd state) (ca_instance_id r))) (ca_delta_usd r));
  if dec_ltb next dec_zero
     || dec_ltb dec_zero (ca_delta_usd r) && dec_ltb (cs_unattributed_residual_usd state) (ca_delta_usd r)
  then invalid "CAPITAL_ASSIGNMENT_EXCEEDS_AVAILABLE" else
  i ← instance (D:=D) (order_db b) (ca_instance_id r);
  if negb (is_some i) then invalid "STRATEGY_INSTANCE_NOT_FOUND" else
  if negb (pol_revision (account_policy (order_db b)) =? ca_authority_revision r)
  then invalid "CAPITAL_AUTHORITY_REVISION_MISMATCH" else Ok next.
Definition commit_authorized_capital_assignment (r : AuthorizedCapitalAssignment D) (s : AccountStore D)
    : AccountStore D * StoreResult OperationReceipt :=
  let b := books s in
  if negb (assignment_valid (meta (order_db b)) r) then (s, invalid "INVALID_CAPITAL_ASSIGNMENT") else
  match operation (order_db b) (ca_operation_id r) with
  | Some old =>
    if negb (or_kind old =? "CAPITAL_ASSIGNMENT")%string || negb (or_request_hash old =? ca_request_hash r)%string
    then (s, invalid "IDEMPOTENCY_CONFLICT") else (s, Ok old)
  | None =>
    if is_some_and (λ last, ca_time r <? last) (last_assignment b) then (s, invalid "CAPITAL_ASSIGNMENT_OUT_OF_ORDER") else
    match capital_state s (ca_time r) with
    | (s, Err e) => (s, Err e)
    | (s, Ok state) =>
      match (next ← assignment_allowed b r state; book_assignment r next (cs_nav_source_as_of state) b) with
      | Err e => (s, Err e)
      | Ok b => (with_assignment_cache None (with_books b s),
                 ok_or (Invalid "CAPITAL_ASSIGNMENT_RECEIPT_MISSING") (operation (order_db b) (ca_operation_id r)))
      end
    end
  end.

(** ** Pricing strategies *)
Definition current_strategy_finance_totals (b : Books) : StoreResult (list ((option string * string * string) * D)) :=
  try_fold (λ m kv, amount ← decimal kv.2;
                    if 4096 <=? Z.of_nat (List.length m) then invalid "FINANCE_ATTRIBUTION_GROUP_LIMIT" else
                    Ok (oinsert (Some kv.1.1.1, kv.1.1.2, kv.1.2) amount m)) []
    (sort_by (cmp_on fst) (map_to_list (instance_finance_totals b))).
Definition history_streams : list (string * string) :=
  [("fills", "SPOT"); ("fills", "SWAP"); ("fills", "FUTURES"); ("fills", "OPTION"); ("bills", "account"); ("account_snapshot", "account")].
Definition stream_complete (b : Books) (as_of : Z) (key : string * string) : bool :=
  is_some_and (λ c, (as_of <=? cur_watermark c) && (cur_cursor c =? "")%string && (cur_coverage_gaps c =? "")%string)
    (source_cursors b !! key).
Definition convert (fx : gmap string D) (currency : string) (value : D) : StoreResult D :=
  rate ← (if (currency =? "USD")%string then Ok dec_one else ok_or (Invalid "STRATEGY_NAV_FX_MISSING") (fx !! currency));
  if dec_leb rate dec_zero then invalid "STRATEGY_NAV_FX_INVALID" else money (checked_mul value rate).
Definition opening_valuation (id : string) (capital : D) : StrategyValuation D := {|
  va_instance_id := id; va_capital_usd := capital; va_realized_usd := dec_zero; va_unrealized_usd := dec_zero; va_equity_usd := capital |}.
Definition with_realized (x : D) (v : StrategyValuation D) : StrategyValuation D := {|
  va_instance_id := va_instance_id v; va_capital_usd := va_capital_usd v; va_realized_usd := x;
  va_unrealized_usd := va_unrealized_usd v; va_equity_usd := va_equity_usd v |}.
Definition with_unrealized (x : D) (v : StrategyValuation D) : StrategyValuation D := {|
  va_instance_id := va_instance_id v; va_capital_usd := va_capital_usd v; va_realized_usd := va_realized_usd v;
  va_unrealized_usd := x; va_equity_usd := va_equity_usd v |}.
Definition with_equity (x : D) (v : StrategyValuation D) : StrategyValuation D := {|
  va_instance_id := va_instance_id v; va_capital_usd := va_capital_usd v; va_realized_usd := va_realized_usd v;
  va_unrealized_usd := va_unrealized_usd v; va_equity_usd := x |}.
Definition valuations := list (string * StrategyValuation D).
Definition economic_component (component : string) : bool :=
  one_of ["FEE"; "FUNDING"; "REALIZED_PNL"; "LIQUIDATION_COST"; "CAMPAIGN_LOSS_USD"] component.
Definition realize (fx : gmap string D) (m : valuations) (row : (option string * string * string) * D) : StoreResult valuations :=
  let '(owner, currency, component) := row.1 in
  match owner with
  | None => Ok m
  | Some owner =>
    if (owner =? "manual")%string || (component =? "INTERNAL_CAPITAL_USD")%string then Ok m else
    if negb (economic_component component) then invalid "STRATEGY_NAV_COMPONENT_UNKNOWN" else
    if (component =? "CAMPAIGN_LOSS_USD")%string then Ok m else
    v ← ok_or (Invalid "STRATEGY_NAV_CAPITAL_NOT_ASSIGNED") (oget m owner);
    x ← convert fx currency row.2;
    total ← money (checked_add (va_realized_usd v) x);
    Ok (oinsert owner (with_realized total v) m)
  end.
Definition add_mark (m : list (string * ValuationPosition D)) (p : ValuationPosition D) : StoreResult (list (string * ValuationPosition D)) :=
  if (vp_instrument_id p =? "")%string || dec_eqb (vp_signed_contracts p) dec_zero || dec_leb (vp_mark_price p) dec_zero
     || is_some (oget m (vp_instrument_id p))
  then invalid "STRATEGY_NAV_POSITION_WITNESS_INVALID" else Ok (oinsert (vp_instrument_id p) p m).
Definition long (l : StoredLot string) : bool := (lot_side l =? "long")%string.
(** The valuations and, per instrument, the net and the gross of its lots *)
Definition price_lot (b : Books) (fx : gmap string D) (marks : list (string * ValuationPosition D))
    (st : valuations * list (string * (D * D))) (l : StoredLot string) : StoreResult (valuations * list (string * (D * D))) :=
  let '(m, net) := st in
  qty ← decimal (lot_remaining_qty l);
  entry ← decimal (lot_cost l);
  if dec_leb qty dec_zero || dec_leb entry dec_zero || negb (one_of ["long"; "short"] (lot_side l))
  then invalid "STRATEGY_NAV_LOT_INVALID" else
  let old := default (dec_zero, dec_zero) (oget net (lot_instrument_id l)) in
  n ← money (checked_add old.1 (if long l then qty else dec_neg qty));
  g ← money (checked_add old.2 qty);
  let net := oinsert (lot_instrument_id l) (n, g) net in
  match lot_instance_id l with
  | None => Ok (m, net)
  | Some owner =>
    if (owner =? "manual")%string then Ok (m, net) else
    mark ← ok_or (Invalid "STRATEGY_NAV_MARK_MISSING") (oget marks (lot_instrument_id l));
    id ← ok_or (Invalid "STRATEGY_NAV_LOT_PROVENANCE_MISSING") (lot_intent_id l);
    p ← plan (D:=D) (order_db b) id;
    native ← lots_result (position_pnl qty entry (vp_mark_price mark) (ip_contract_value p) (ip_inverse p)
                            (if long l then dec_one else dec_neg dec_one));
    unrealized ← convert fx (ip_settlement_currency p) native;
    v ← ok_or (Invalid "STRATEGY_NAV_CAPITAL_NOT_ASSIGNED") (oget m owner);
    total ← money (checked_add (va_unrealized_usd v) unrealized);
    Ok (oinsert owner (with_unrealized total v) m, net)
  end.
Definition price_lots (b : Books) (fx : gmap string D) (marks : list (string * ValuationPosition D)) (m : valuations)
    : StoreResult (valuations * list (string * (D * D))) :=
  '(st, _) ← try_fold (λ '(st, count) l,
    if (256 <=? count)%nat then invalid "STRATEGY_NAV_POSITION_LIMIT" else
    st ← price_lot b fx marks st l; Ok (st, S count)) ((m, []), O)
    (take 258 (sort_by (cmp_on (λ l, (lot_instrument_id l, lot_id l)))
                 (List.filter (λ l, negb (lot_remaining_qty l =? "0")%string) (position_lots b))));
  Ok st.
Definition check_net (marks : list (string * ValuationPosition D)) (_ : unit) (ing : string * (D * D)) : StoreResult unit :=
  w ← ok_or (Invalid "STRATEGY_NAV_VENUE_POSITION_MISMATCH") (oget marks ing.1);
  if negb (dec_eqb ing.2.1 (vp_signed_contracts w)) || negb (dec_eqb ing.2.2 (dec_abs ing.2.1))
  then invalid "STRATEGY_NAV_VENUE_NETTING_UNRESOLVED" else Ok tt.
Definition value_row (st : list (StrategyValuation D) * D) (row : string * StrategyValuation D)
    : StoreResult (list (StrategyValuation D) * D) :=
  let v := row.2 in
  equity ← money (x ← checked_add (va_capital_usd v) (va_realized_usd v); checked_add x (va_unrealized_usd v));
  attributed ← money (checked_add st.2 equity);
  Ok (st.1 ++ [with_equity equity v], attributed).
Definition valuation_evidence_valid (b : Books) (e : StrategyValuationEvidence D) : bool :=
  (sv_account_key e =? meta_account_key (meta (order_db b)))%string && negb (sv_account_nav_source e =? "")%string
  && negb (ux_source_digest (sv_conversion e) =? "")%string && (sv_as_of e =? ux_observed_at (sv_conversion e))
  && (List.length (sv_venue_positions e) <=? 256)%nat.
Definition value_strategies (b : Books) (e : StrategyValuationEvidence D) (state : AccountCapitalState D)
    : StoreResult (StrategyValuationReconciliation D) :=
  if negb (cs_coverage state =? "COMPLETE")%string || negb (cs_nav_source_as_of state =? sv_as_of e)
     || negb (cs_nav_source_ref state =? sv_account_nav_source e)%string
  then invalid "STRATEGY_NAV_ACCOUNT_SOURCE_MISMATCH" else
  if negb (forallb (stream_complete b (sv_as_of e)) history_streams) then invalid "STRATEGY_NAV_HISTORY_INCOMPLETE" else
  if negb (bool_decide (fill_pending b = ∅)) || negb (bool_decide (dom (funding_pending b) = ∅))
  then invalid "STRATEGY_NAV_PROJECTION_PENDING" else
  if negb (finance_proof_sealed b) then invalid "STRATEGY_NAV_ECONOMIC_SOURCE_UNVERIFIED" else
  let fx := ux_usd_per_currency (sv_conversion e) in
  let m := map (λ ic, (ic.1, opening_valuation ic.1 ic.2)) (cs_strategy_principal_usd state) in
  attribution ← (if is_some_and (λ t, sv_as_of e <? t) (max_time en_time (finance_entries b))
                 then finance_attribution_filtered b (meta_initialized_at (meta (order_db b))) (sv_as_of e) [] []
                 else current_strategy_finance_totals b);
  m ← try_fold (realize fx) m attribution;
  marks ← try_fold add_mark [] (sv_venue_positions e);
  '(m, net) ← price_lots b fx marks m;
  if negb (List.length marks =? List.length net)%nat then invalid "STRATEGY_NAV_VENUE_POSITION_MISMATCH" else
  _ ← try_fold (check_net marks) tt net;
  '(rows, attributed) ← try_fold value_row ([], dec_zero) m;
  residual ← money (checked_sub (cs_account_nav_usd state) attributed);
  if dec_ltb residual dec_zero then invalid "STRATEGY_NAV_ACCOUNT_RECONCILIATION_FAILED" else
  Ok {| vr_account_nav_usd := cs_account_nav_usd state; vr_attributed_usd := attributed; vr_unattributed_usd := residual;
        vr_as_of := sv_as_of e; vr_source_ref := sv_account_nav_source e; vr_strategies := rows; vr_coverage := "COMPLETE" |}.
Definition reconcile_strategy_valuation (e : StrategyValuationEvidence D) (s : AccountStore D)
    : AccountStore D * StoreResult (StrategyValuationReconciliation D) :=
  if negb (valuation_evidence_valid (books s) e) then (s, invalid "STRATEGY_VALUATION_EVIDENCE_INVALID") else
  match capital_state s (sv_as_of e) with
  | (s, Err e) => (s, Err e)
  | (s, Ok state) => (s, value_strategies (books s) e state)
  end.

(** ** Publishing the valuation *)
Definition strategy_valuation_revision_as_of (b : Books) (through : Z) : string :=
  "f" +:+ pretty (max_rowid (λ e, en_time e <=? through) (finance_entries b))
  +:+ ":x" +:+ pretty (max_rowid (λ f, fi_time f <=? through) (fills b))
  +:+ ":b" +:+ pretty (max_rowid (λ x, bl_time x <=? through) (bills b))
  +:+ ":p" +:+ pretty (max_rowid (λ l, lot_opened_at l <=? through) (position_lots b))
  +:+ ":c" +:+ pretty (max_rowid (λ f, cf_time f <=? through) (cash_flows b))
  +:+ ":n" +:+ pretty (max_rowid (account_point through) (nav_points b)).
Definition strategy_valuation_revision (b : Books) : string := strategy_valuation_revision_as_of b i64_max.
Definition nav_version (version : string) : string := "strategy-reconciled-v1:" +:+ version.
Definition nav_receipt_id (scope : string) (time : Z) (source_version : string) : string :=
  "strategy-nav:" +:+ scope +:+ ":" +:+ pretty time +:+ ":" +:+ source_version.
Definition publish_point (scope : string) (b : Books) (point : Z * D * D * D * string * string) : StoreResult Books :=
  let '(time, equity, pnl, flows, source, version) := point in
  let row := {| np_scope_id := scope; np_time := time; np_source_version := nav_version version; np_equity := exact equity;
                np_pnl := exact pnl; np_flows := exact flows; np_currency := "USD"; np_coverage := "COMPLETE";
                np_mark_source := source |} in
  let receipt_id := nav_receipt_id scope time (nav_version version) in
  if is_some_and (λ o, negb (o_kind o =? "STRATEGY_NAV_RECONCILED")%string || negb (o_request_hash o =? version)%string
                       || negb (o_result_ref o =? source)%string) (operation_receipts (order_db b) !! receipt_id)
  then invalid "STRATEGY_NAV_WITNESS_CONFLICT" else
  let b := with_order_db (with_operations
             (insert_or_ignore receipt_id (operation_row "STRATEGY_NAV_RECONCILED" version source time)
                (operation_receipts (order_db b))) (order_db b)) b in
  '(_, rows) ← insert_new (same_point row) true row (nav_points b);
  let b := with_nav_points rows b in
  actual ← query_row (List.find (same_point row) (nav_points b));
  if negb (np_equity actual =? exact equity)%string || negb (np_pnl actual =? exact pnl)%string
     || negb (np_flows actual =? exact flows)%string || negb (np_mark_source actual =? source)%string
  then invalid "STRATEGY_NAV_WITNESS_CONFLICT" else Ok b.
Definition publish_row (e : StrategyValuationEvidence D) (revision : string) (b : Books) (v : StrategyValuation D) : StoreResult Books :=
  let scope := "strategy:" +:+ va_instance_id v in
  pnl ← money (checked_add (va_realized_usd v) (va_unrealized_usd v));
  b ← try_fold (publish_point scope) b
        [(meta_initialized_at (meta (order_db b)), dec_zero, dec_zero, dec_zero, meta_opening_source (meta (order_db b)), "opening");
         (sv_as_of e, va_equity_usd v, pnl, va_capital_usd v, sv_account_nav_source e, "revision:" +:+ revision)];
  Ok (with_scope (scope, "USD") b).
Definition commit_reconciled_strategy_nav_with_optional_cursor (e : StrategyValuationEvidence D) (cursor : option SourceCursor)
    (s : AccountStore D) : AccountStore D * StoreResult (StrategyValuationReconciliation D) :=
  match reconcile_strategy_valuation e s with
  | (s, Err err) => (s, Err err)
  | (s, Ok summary) =>
    if (List.length (vr_strategies summary) =? 0)%nat && negb (is_some cursor) then (s, Ok summary) else
    let b := books s in
    let revision := if (List.length (vr_strategies summary) =? 0)%nat then ""
                    else strategy_valuation_revision_as_of b (sv_as_of e) in
    match (b ← try_fold (publish_row e revision) b (vr_strategies summary);
           match cursor with Some c => upsert_source_cursor b c | None => Ok b end) with
    | Err err => (s, Err err)
    | Ok b => (with_books b s, Ok summary)
    end
  end.
Definition commit_reconciled_strategy_nav (e : StrategyValuationEvidence D) := commit_reconciled_strategy_nav_with_optional_cursor e None.
Definition commit_reconciled_strategy_nav_with_cursor (e : StrategyValuationEvidence D) (c : SourceCursor) :=
  commit_reconciled_strategy_nav_with_optional_cursor e (Some c).

(** ** Reading net asset values *)
Definition nav_scope_list (b : Books) (instances currencies : list string) : list (string * string) :=
  take 65
    (List.filter (λ sc, (match instances with [] => true | _ => existsb (λ i, (sc.1 =? "strategy:" +:+ i)%string) instances end)
                        && (match currencies with [] => true | _ => one_of currencies sc.2 end))
       (sort_by (cmp_on (λ sc, sc))
          (elements (nav_scopes (store b) ∪ list_to_set (map (λ ir, ("strategy:" +:+ ir.1, "USD")) (map_to_list (strategy_instances (order_db b)))))))).
Definition ordinary_strategy (scope : string) : bool := String.prefix "strategy:" scope && negb (scope =? "strategy:manual")%string.
(** A point of a strategy counts when the receipt of its reconciliation is there. *)
Definition reconciled (b : Books) (n : NavPoint string) : bool :=
  is_some_and (λ o, (o_kind o =? "STRATEGY_NAV_RECONCILED")%string && (o_result_ref o =? np_mark_source n)%string
                    && is_some_and (λ v, (o_request_hash o =? v)%string) (strip_prefix "strategy-reconciled-v1:" (np_source_version n)))
    (operation_receipts (order_db b) !! nav_receipt_id (np_scope_id n) (np_time n) (np_source_version n)).
Definition endpoint_row (b : Books) (scope : string) (time : Z) (source_revision : string) : option (NavPoint string) :=
  if ordinary_strategy scope then
    latest_point (λ n, (np_scope_id n =? scope)%string && (np_time n <=? time)
                       && one_of [nav_version "opening"; nav_version ("revision:" +:+ source_revision)] (np_source_version n)
                       && reconciled b n) b
  else latest_point (λ n, (np_scope_id n =? scope)%string && (np_time n <=? time)) b.
Definition endpoint (b : Books) (scope : string) (time : Z) (source_revision : string) : StoreResult (option (D * D * Z * string)) :=
  match endpoint_row b scope time source_revision with
  | None => Ok None
  | Some n => e ← decimal (np_equity n); f ← decimal (np_flows n); Ok (Some (e, f, np_time n, np_coverage n))
  end.
Definition capital_known (b : Books) (scope : string) (through : Z) (revision : string) : bool :=
  negb (scope =? "strategy:manual")%string
  && (negb (String.prefix "strategy:" scope)
      || existsb (λ n, (np_scope_id n =? scope)%string && (np_time n <=? through)
                       && (np_source_version n =? nav_version ("revision:" +:+ revision))%string && reconciled b n) (nav_points b)).
Definition valuation_gap (b : Books) (through : Z) (current : option (D * D * Z * string)) : bool :=
  is_some_and (λ c, negb (cur_coverage_gaps c =? "")%string && (cur_watermark c <=? through)
                    && is_none_or (λ p, p.1.2 <=? cur_watermark c) current)
    (source_cursors b !! ("strategy_valuation", "account")).
Definition account_source_matches (b : Books) (scope : string) (through : Z) (revision : string) (current : option (D * D * Z * string)) : bool :=
  match latest_point (account_point through) b, current with
  | Some a, Some c =>
    is_some_and (λ n, (c.1.2 =? np_time a) && (np_mark_source a =? np_mark_source n)%string)
      (List.find (λ n, (np_scope_id n =? scope)%string && (np_time n =? c.1.2)
                       && (np_source_version n =? nav_version ("revision:" +:+ revision))%string) (nav_points b))
  | _, _ => false
  end.
Definition near (at_ : Z) (o : option (D * D * Z * string)) : bool :=
  is_some_and (λ v, (v.2 =? "COMPLETE")%string && (at_ - v.1.2 <=? 5000)) o.
Definition nav_window (b : Books) (from through : Z) (opening_revision revision : string) (sc : string * string) : StoreResult (NavWindow D) :=
  let '(scope, currency) := sc in
  let manual := (scope =? "strategy:manual")%string in
  let known := capital_known b scope through revision in
  opening ← (if known then endpoint b scope from opening_revision else Ok None);
  current ← (if known then endpoint b scope through revision else Ok None);
  flows ← match opening, current with
          | Some o, Some c => f ← money (checked_sub c.1.1.2 o.1.1.2); Ok (Some f)
          | _, _ => Ok None
          end;
  pnl ← match opening, current, flows with
        | Some o, Some c, Some f => p ← money (v ← checked_sub c.1.1.1 o.1.1.1; checked_sub v f); Ok (Some p)
        | _, _, _ => Ok None
        end;
  let gap := ordinary_strategy scope && valuation_gap b through current in
  let matches_ := negb (ordinary_strategy scope) || account_source_matches b scope through revision current in
  let complete := matches_ && negb gap && near from opening && near through current in
  Ok {| nw_scope_id := scope; nw_currency := currency; nw_opening_equity := (λ v, v.1.1.1) <$> opening;
        nw_current_equity := (λ v, v.1.1.1) <$> current; nw_flows := flows; nw_pnl := pnl;
        nw_opening_as_of := (λ v, v.1.2) <$> opening; nw_current_as_of := (λ v, v.1.2) <$> current;
        nw_coverage := if manual then "NOT_APPLICABLE"
                       else if from <? meta_initialized_at (meta (order_db b)) then "UNAVAILABLE_BEFORE_T0"
                       else if complete && known then "COMPLETE" else "PARTIAL" |}.
Definition nav_summary (b : Books) (from through : Z) (instances currencies : list string) : StoreResult (list (NavWindow D)) :=
  if (through <? from) || (32 <? List.length instances)%nat || (32 <? List.length currencies)%nat
  then invalid "NAV_RANGE_FILTER_INVALID" else
  let scopes := nav_scope_list b instances currencies in
  if (64 <? List.length scopes)%nat then invalid "NAV_SCOPE_LIMIT" else
  let strategies := existsb (λ sc, ordinary_strategy sc.1) scopes in
  let revision_at t := if strategies then strategy_valuation_revision_as_of b t else "" in
  try_map (nav_window b from through (revision_at from) (revision_at through)) scopes.
End capital.
