(* ===== verification/BooksSums.v ===== *)
(** * BooksSums: what a page does to the money tables

    Lemmas about [ingest_page]: the steps other than finance entries keep the money tables
    ([keep]); an entry that is new changes exactly the totals it belongs to
    ([balanced_added]); the effect of a whole page is [page_effect]. *)
From stdpp Require Import base option list numbers strings gmap sets pretty relations.
From Stdlib Require Import ZArith QArith Qabs Lia Lqa Ascii String.
From S2P Require Import Prelude Text Ordered External Decimals Protocol Ledger Intents IntentSafety Instances TradeService Lots MoneyText Books BookFlows Capital.
Local Open Scope string_scope.
Local Open Scope list_scope.
Local Open Scope Z_scope.

(** Take a successful step apart; [kept] looks at the fields it leaves alone. *)
Ltac inv_step E :=
  repeat first
    [ progress inv_ok E
    | match type of E with
      | (let '(_, _) := ?p in _) = Ok _ => destruct p
      | (if ?c then _ else _) = Ok _ => let Hc := fresh "Hc" in destruct c eqn:Hc
      | match ?o with Some _ => _ | None => _ end = Ok _ => let Ho := fresh "Ho" in destruct o eqn:Ho
      | Err _ = Ok _ => discriminate E
      | invalid _ = Ok _ => discriminate E
      end ].
Ltac kept := split; simpl; try done; try (by exists []; rewrite app_nil_r); try (by eexists); try (by intros ? _ ?).
Ltac inv_if_as E Hc := match type of E with (if ?c then _ else _) = Ok _ => destruct c eqn:Hc; [discriminate E|] end.
Tactic Notation "inv_if" hyp(E) "as" ident(Hc) := inv_if_as E Hc.
Tactic Notation "inv_if" hyp(E) := let Hc := fresh "Hc" in inv_if_as E Hc.

(** ** What the steps of a page other than its finance entries keep *)
Section keep.
Context {D : Type} `{DecimalMoney D}.
Definition money_of (b : Books) := (finance_entries b, finance_totals_table b, instance_finance_totals b, daily_losses b).
Definition campaign (b : Books) : string := pol_campaign_loss (account_policy (db (store b))).
Definition has_fill (b : Books) (id : string) : bool := existsb (λ g, (fi_fill_id g =? id)%string) (fills b).
(** A fill of the ledger that does not wait for its projection does not wait afterwards. *)
Definition settled_stay (b b' : Books) : Prop :=
  ∀ id, has_fill b id = true → fill_pending b !! id = None → fill_pending b' !! id = None.
(** [c]: the cash flows may have changed; [p]: the lots *)
Record keep (c p : bool) (b b' : Books) : Prop := {
  keep_money : money_of b' = money_of b;
  keep_campaign : campaign b' = campaign b;
  keep_fills : ∃ l, fills b' = fills b ++ l;
  keep_bills : ∃ l, bills b' = bills b ++ l;
  keep_flows : c = false → cash_flows b' = cash_flows b;
  keep_lots : p = false → position_lots b' = position_lots b;
  keep_settled : settled_stay b b';
  keep_proof : source_cursors b' !! provenance_key = source_cursors b !! provenance_key;
}.
#[local] Instance keep_refl c p : Reflexive (keep c p).
Proof. intros b. split; try done; try (by intros ? _ ?); exists []; by rewrite app_nil_r. Qed.
Lemma has_fill_grows b b' l id : fills b' = fills b ++ l → has_fill b id = true → has_fill b' id = true.
Proof. intros E Hf. unfold has_fill in *. by rewrite E, existsb_app, Hf. Qed.
Lemma settled_trans b1 b2 b3 l : fills b2 = fills b1 ++ l → settled_stay b1 b2 → settled_stay b2 b3 → settled_stay b1 b3.
Proof. intros E S1 S2 id Hf Hp. apply S2; [by eapply has_fill_grows|by apply S1]. Qed.
Lemma keep_trans c1 p1 c2 p2 b1 b2 b3 : keep c1 p1 b1 b2 → keep c2 p2 b2 b3 → keep (c1 || c2) (p1 || p2) b1 b3.
Proof.
  intros [M1 C1 [f1 F1] [l1 B1] K1 Q1 S1 P1] [M2 C2 [f2 F2] [l2 B2] K2 Q2 S2 P2]. split; try congruence.
  - exists (f1 ++ f2). by rewrite F2, F1, app_assoc.
  - exists (l1 ++ l2). by rewrite B2, B1, app_assoc.
  - intros [-> ->]%orb_false_iff. by rewrite K2, K1.
  - intros [-> ->]%orb_false_iff. by rewrite Q2, Q1.
  - by eapply settled_trans.
Qed.
Lemma keep_fold {A} p (f : Books → A → StoreResult Books) l :
  (∀ b x b', x ∈ l → f b x = Ok b' → keep false p b b') → ∀ b b', try_fold f b l = Ok b' → keep false p b b'.
Proof.
  intros Hf b b'. apply (try_fold_invariant (keep false p b) f l); [|reflexivity].
  intros b1 x b2 Hx Hb E. pose proof (keep_trans _ _ _ _ _ _ _ Hb (Hf _ _ _ Hx E)) as K. rewrite (orb_diag p) in K. exact K.
Qed.
Lemma insert_new_ok {R} same ok (row : R) l r :
  insert_new same ok row l = Ok r →
  (r = (false, l) ∧ is_Some (List.find same l)) ∨ (r = (true, l ++ [row]) ∧ List.find same l = None ∧ ok = true).
Proof.
  unfold insert_new. destruct (List.find same l) eqn:E; [intros [= <-]; left; eauto|].
  destruct ok; simpl; [|done]. intros [= <-]. by right.
Qed.
Lemma ingest_fill_keep b (f : Fill D) b' : ingest_fill b f = Ok b' → keep false false b b'.
Proof.
  unfold ingest_fill. intros E. inv_step E. injection E as <-.
  match goal with Hi : insert_new _ _ _ _ = Ok _ |- _ => apply insert_new_ok in Hi as [[[= -> ->] _]|([= -> ->] & _ & Hok)] end.
  - match goal with Hi : Ok _ = Ok _ |- _ => injection Hi as <- end. kept.
  - match goal with Hi : (_ ≫= _) = Ok _ |- _ => apply bind_ok in Hi as (m & Em & [= <-]) end.
    apply insert_row_ok in Em as [_ ->]. kept. intros id Hf Hp. simpl. rewrite lookup_insert_ne; [done|]. intros <-.
    apply andb_true_iff in Hok as [Hok _]. unfold has_fill in Hf. by rewrite Hf in Hok.
Qed.
Lemma ingest_bill_keep b (x : Bill D) b' : ingest_bill b x = Ok b' → keep false false b b'.
Proof.
  unfold ingest_bill. intros E. inv_step E. injection E as <-.
  match goal with Hi : insert_new _ _ _ _ = Ok _ |- _ => apply insert_new_ok in Hi as [[[= -> ->] _]|([= -> ->] & _ & _)] end; kept.
Qed.
Lemma ingest_funding_keep b (x : FundingEvent D) b' : ingest_funding b x = Ok b' → keep false false b b'.
Proof. unfold ingest_funding. intros E. inv_step E; injection E as <-; [reflexivity|kept]. Qed.
Lemma ingest_cash_flows_keep l : ∀ b c bc',
  try_fold ingest_cash_flow (b, c) (l : list (CashFlow D)) = Ok bc' → keep bc'.2 false b bc'.1 ∧ (c = true → bc'.2 = true).
Proof.
  induction l as [|x l IH]; intros b c bc' E; simpl in E; [by injection E as <-|].
  apply bind_ok in E as ([b1 c1] & E1 & E). unfold ingest_cash_flow in E1. inv_step E1. injection E1 as <- <-.
  apply IH in E as [K Hch]. match goal with Hi : insert_new _ _ _ _ = Ok _ |- _ => apply insert_new_ok in Hi as [[[= -> ->] _]|([= -> ->] & _ & _)] end.
  - split; [|intros ->; by apply Hch]. refine (keep_trans false false bc'.2 false b _ _ _ K). kept.
  - rewrite orb_true_r in *. rewrite (Hch eq_refl) in *. split; [|done]. refine (keep_trans true false true false _ _ _ _ K). kept.
Qed.
Lemma ingest_allocation_keep b (x : Allocation D) b' : ingest_allocation b x = Ok b' → keep false false b b'.
Proof. unfold ingest_allocation. intros E. inv_step E; injection E as <-; [reflexivity|kept]. Qed.
Lemma ingest_lot_keep b (x : StoredLot D) b' : ingest_lot b x = Ok b' → keep false true b b'.
Proof. unfold ingest_lot, upsert_lot. intros E. inv_step E; injection E as <-; kept. Qed.
Lemma ingest_nav_keep b (x : NavPoint D) b' : ingest_nav b x = Ok b' → keep false false b b'.
Proof. unfold ingest_nav, raise_watermark. intros E. inv_step E; injection E as <-; kept. Qed.
Lemma cursor_keep b c b' : upsert_source_cursor b c = Ok b' → (cur_source c =? "finance_provenance")%string = false → keep false false b b'.
Proof.
  unfold upsert_source_cursor. intros E Hc. inv_step E. injection E as <-. kept.
  rewrite lookup_insert_ne; [done|]. unfold provenance_key. intros [= E _]. rewrite E in Hc. done.
Qed.
Lemma projected_keep b l : keep false false b (foldl fill_projected b l).
Proof.
  revert b. induction l as [|x l IH]; intros b; [reflexivity|]. simpl. eapply (keep_trans false false false false); [|apply IH]. kept.
  intros id _ Hp. simpl. rewrite lookup_delete_None. by right.
Qed.
Lemma attributed_keep wall b l : keep false false b (foldl (funding_attributed wall) b l).
Proof.
  revert b. induction l as [|x l IH]; intros b; [reflexivity|]. simpl. eapply (keep_trans false false false false); [|apply IH]. kept.
Qed.
End keep.

(** ** Sums of entries *)
Section sums.
Context {D : Type} `{MoneyText D}.
Definition text_val (s : string) : Q := match dec_from_str s with Some d => val d | None => 0 end.
Definition text_val_or (o : option string) : Q := match o with Some s => text_val s | None => 0 end.
Lemma text_val_exact (x : D) : (text_val (exact x) == val x)%Q.
Proof. unfold text_val, exact. destruct (reads_back x) as (y & -> & E). exact E. Qed.
Lemma decimal_val s (x : D) : decimal s = Ok x → text_val s = val x.
Proof. unfold decimal, text_val. by intros ->%ok_or_ok. Qed.
Lemma decimal_or_zero_val o (x : D) : decimal_or_zero o = Ok x → (text_val_or o == val x)%Q.
Proof.
  destruct o as [s|]; simpl; [by intros ->%decimal_val|]. intros [= <-]. by rewrite val_zero.
Qed.
Definition entries_sum (p : FinanceEntry string → bool) (l : list (FinanceEntry string)) : Q :=
  qsum (map (λ e, text_val (en_amount e)) (List.filter p l)).
Lemma entries_sum_app p l1 l2 : (entries_sum p (l1 ++ l2) == entries_sum p l1 + entries_sum p l2)%Q.
Proof. unfold entries_sum. by rewrite List.filter_app, map_app, qsum_app. Qed.
Lemma entries_sum_one p e : (entries_sum p [e] == if p e then text_val (en_amount e) else 0)%Q.
Proof. unfold entries_sum. simpl. destruct (p e); simpl; ring. Qed.
(** All sums of entries have a decimal. *)
Definition sums_exact (l : list (FinanceEntry string)) : Prop :=
  ∀ p k n, representable (entries_sum p (take n (drop k l))).
Lemma sums_exact_prefix l1 l2 : sums_exact (l1 ++ l2) → sums_exact l1.
Proof.
  intros Hs p k n. destruct (Nat.le_ge_cases k (List.length l1)) as [Hk|Hk].
  - specialize (Hs p k (n `min` List.length (drop k l1))%nat). rewrite drop_app_le in Hs by done.
    rewrite take_app_le in Hs by lia. replace (take n (drop k l1)) with (take (n `min` List.length (drop k l1)) (drop k l1)); [done|].
    destruct (Nat.le_ge_cases n (List.length (drop k l1))); [by rewrite Nat.min_l|]. rewrite Nat.min_r by done. by rewrite firstn_all, take_ge.
  - rewrite drop_ge by done. specialize (Hs p k 0%nat). by rewrite take_nil.
Qed.
Lemma sums_exact_segment l1 l2 l3 p : sums_exact (l1 ++ l2 ++ l3) → representable (entries_sum p l2).
Proof. intros Hs. specialize (Hs p (List.length l1) (List.length l2)). by rewrite drop_app_length, take_app_length in Hs. Qed.
Lemma sums_exact_all l p : sums_exact l → representable (entries_sum p l).
Proof. intros Hs. apply (sums_exact_segment [] l []). by rewrite app_nil_r. Qed.

Definition total_key (c component : string) (e : FinanceEntry string) : bool :=
  (en_currency e =? c)%string && (en_component e =? component)%string.
Definition instance_key (i c component : string) (e : FinanceEntry string) : bool :=
  bool_decide (en_instance_id e = Some i) && total_key c component e.
Definition loss_entry {N} (e : FinanceEntry N) : bool := (en_component e =? "CAMPAIGN_LOSS_USD")%string.
Definition loss_key (scope : string) (day : Z) (e : FinanceEntry string) : bool :=
  loss_entry e && bool_decide (scope ∈ loss_scopes e) && (utc_day (en_time e) =? day).
(** Every derived amount is the sum of its entries. *)
Record balanced (b : Books) : Prop := {
  bal_total : ∀ c k, (text_val_or (finance_totals_table b !! (c, k)) == entries_sum (total_key c k) (finance_entries b))%Q;
  bal_instance : ∀ i c k, (text_val_or (instance_finance_totals b !! (i, c, k)) == entries_sum (instance_key i c k) (finance_entries b))%Q;
  bal_loss : ∀ s d, (text_val_or (daily_losses b !! (s, d)) == entries_sum (loss_key s d) (finance_entries b))%Q;
}.
Lemma add_to_val {K} `{Countable K} (k : K) (x : D) m m' :
  add_to k x m = Ok m' → representable (text_val_or (m !! k) + val x) →
  ∀ k', (text_val_or (m' !! k') == text_val_or (m !! k') + if decide (k' = k) then val x else 0)%Q.
Proof.
  unfold add_to. intros E Hr k'. inv_ok E. injection E as <-. unfold money in *. apply ok_or_ok in Ha0.
  apply decimal_or_zero_val in Ha. destruct (decide (k' = k)) as [->|Hk].
  - rewrite lookup_insert_eq. simpl. rewrite text_val_exact, Ha. apply (add_exact _ _ _ Ha0).
    eapply representable_proper; [|exact Hr]. by rewrite Ha.
  - rewrite lookup_insert_ne by done. ring.
Qed.
Lemma add_to_many (keys : list string) (day : Z) (x : D) : ∀ m m',
  NoDup keys → try_fold (λ m s, add_to (s, day) x m) m keys = Ok m' →
  (∀ s, s ∈ keys → representable (text_val_or (m !! (s, day)) + val x)) →
  ∀ s d, (text_val_or (m' !! (s, d)) == text_val_or (m !! (s, d)) + if decide (s ∈ keys ∧ d = day) then val x else 0)%Q.
Proof.
  induction keys as [|s0 keys IH]; intros m m' Hnd E Hr s d; simpl in E.
  { injection E as <-. destruct (decide _) as [[Hs _]|_]; [by apply elem_of_nil in Hs|ring]. }
  apply bind_ok in E as (m1 & E1 & E). apply NoDup_cons in Hnd as [Hs0 Hnd].
  pose proof (add_to_val _ _ _ _ E1 (Hr s0 ltac:(left))) as V1.
  rewrite (IH m1 m' Hnd E).
  - rewrite V1. destruct (decide ((s, d) = (s0, day))) as [[= -> ->]|Hne].
    + rewrite (decide_False (P := s0 ∈ keys ∧ day = day)) by (intros [? _]; done).
      rewrite decide_True by (split; [left|done]). ring.
    + destruct (decide (s ∈ keys ∧ d = day)) as [[Hk ->]|Hn].
      * rewrite decide_True by (split; [by right|done]). ring.
      * rewrite decide_False; [ring|]. intros [[->|Hk]%elem_of_cons ->]; [done|]. by apply Hn.
  - intros s1 Hs1. eapply representable_proper; [|apply (Hr s1); by right]. rewrite V1, decide_False by congruence. ring.
Qed.

(** ** One finance entry *)
Definition added_to {K} `{Countable K} (k : K) (x : D) (m m' : gmap K string) : Prop := add_to k x m = Ok m'.
Record entry_added (b : Books) (a : D) (e : FinanceEntry D) (b' : Books) (a' : D) : Prop := {
  ea_verified : verify_strategy_finance_source b e = Ok tt;
  ea_external : (en_component e =? "INTERNAL_CAPITAL_USD")%string = false;
  ea_new : List.find (canonical e) (finance_entries b) = None ∧ entry_of b (en_entry_id e) = None;
  ea_entries : finance_entries b' = finance_entries b ++ [entry_row e];
  ea_total : added_to (en_currency e, en_component e) (en_amount e) (finance_totals_table b) (finance_totals_table b');
  ea_instance : match en_instance_id e with
                | Some i => added_to (i, en_currency e, en_component e) (en_amount e) (instance_finance_totals b) (instance_finance_totals b')
                | None => instance_finance_totals b' = instance_finance_totals b
                end;
  ea_loss : if loss_entry e
            then (0 <= val (en_amount e))%Q ∧ checked_add a (en_amount e) = Some a'
                 ∧ try_fold (λ m s, add_to (s, utc_day (en_time e)) (en_amount e) m) (daily_losses b) (loss_scopes e) = Ok (daily_losses b')
            else daily_losses b' = daily_losses b ∧ a' = a;
}.
Record frame (b b' : Books) : Prop := {
  fr_campaign : campaign b' = campaign b;
  fr_fills : fills b' = fills b;
  fr_bills : bills b' = bills b;
  fr_flows : cash_flows b' = cash_flows b;
  fr_lots : position_lots b' = position_lots b;
  fr_pending : fill_pending b' = fill_pending b;
  fr_cursors : source_cursors b' = source_cursors b;
}.
Lemma add_total_ok b e b' :
  add_total b e = Ok b' →
  frame b b' ∧ finance_entries b' = finance_entries b ∧ daily_losses b' = daily_losses b
  ∧ added_to (en_currency e, en_component e) (en_amount e) (finance_totals_table b) (finance_totals_table b')
  ∧ match en_instance_id e with
    | Some i => added_to (i, en_currency e, en_component e) (en_amount e) (instance_finance_totals b) (instance_finance_totals b')
    | None => instance_finance_totals b' = instance_finance_totals b
    end.
Proof.
  unfold add_total. intros E. apply bind_ok in E as (b1 & E1 & E). apply bind_ok in E as (m & Em & [= <-]).
  destruct (en_instance_id e) as [i|].
  - apply bind_ok in E1 as (mi & Ei & [= <-]). simpl in *. by repeat split.
  - injection E1 as <-. by repeat split.
Qed.
Lemma ingest_finance_cases b a e b' a' :
  ingest_finance (b, a) e = Ok (b', a') →
  frame b b' ∧ (money_of b' = money_of b ∧ a' = a ∨ entry_added b a e b' a').
Proof.
  unfold ingest_finance. intros E. destruct (en_component e =? _)%string eqn:Ec; [done|].
  destruct (en_currency e =? _)%string; [done|].
  apply bind_ok in E as ([] & Hv & E). apply bind_ok in E as (u & _ & E).
  apply bind_ok in E as ([added rows] & Hi & E). apply bind_ok in E as (b1 & Ht & E).
  apply bind_ok in E as (saved & _ & E). inv_if E. inv_if E.
  apply insert_new_ok in Hi as [([= -> ->] & _)|([= -> ->] & Hn & Hok)].
  - injection Ht as <-. simpl in E. injection E as <- <-. split; [done|]. by left.
  - apply add_total_ok in Ht as ([F1 F2 F3 F4 F5 F6 F7] & T1 & T2 & T3 & T4). simpl in *.
    assert (entry_of b (en_entry_id e) = None) as Hnew.
    { destruct (entry_of b (en_entry_id e)); [|done]. simpl in Hok. done. }
    change (en_component e =? "CAMPAIGN_LOSS_USD")%string with (loss_entry e) in E.
    destruct (loss_entry e) eqn:El.
    + simpl in E. inv_if E as Eg. apply orb_false_iff in Eg as [_ Eg]. apply dec_ltb_false in Eg. rewrite val_zero in Eg.
      apply bind_ok in E as (al & Ea & E). apply ok_or_ok in Ea. apply bind_ok in E as (b2 & Eb & [= <- <-]).
      unfold add_losses in Eb. apply bind_ok in Eb as (m & Em & [= <-]). simpl in *. split; [done|]. right.
      split; simpl; try done. rewrite El. split_and!; [done|done|]. by rewrite T2 in Em.
    + injection E as <- <-. split; [done|]. right. split; simpl; try done. by rewrite El.
Qed.
Lemma total_key_row c k e : total_key c k (entry_row e) = (en_currency e =? c)%string && (en_component e =? k)%string.
Proof. done. Qed.
Lemma balanced_added b a e b' a' :
  entry_added b a e b' a' → sums_exact (finance_entries b') → balanced b → balanced b'.
Proof.
  intros [_ _ _ Ee Et Ei El] Hs [T I L]. rewrite Ee in Hs.
  assert (Hx : (text_val (en_amount (entry_row e)) == val (en_amount e))%Q) by apply text_val_exact.
  assert (Hone : ∀ p, (entries_sum p (finance_entries b ++ [entry_row e])
                       == entries_sum p (finance_entries b) + if p (entry_row e) then val (en_amount e) else 0)%Q).
  { intros p. rewrite entries_sum_app, entries_sum_one. destruct (p (entry_row e)); [by rewrite Hx|reflexivity]. }
  assert (Hrep : ∀ p, p (entry_row e) = true → representable (entries_sum p (finance_entries b) + val (en_amount e))%Q).
  { intros p Hp. eapply representable_proper; [|apply (sums_exact_all _ p Hs)]. by rewrite Hone, Hp. }
  split; intros; rewrite Ee, Hone.
  - rewrite (add_to_val _ _ _ _ Et).
    + rewrite T. apply Qplus_comp; [reflexivity|]. rewrite total_key_row. destruct (decide _) as [[= -> ->]|Hne].
      * by rewrite !String.eqb_refl.
      * destruct (_ && _) eqn:Ek; [|reflexivity]. apply andb_true_iff in Ek as [E1%String.eqb_eq E2%String.eqb_eq]. destruct Hne; congruence.
    + eapply representable_proper; [|apply (Hrep (total_key (en_currency e) (en_component e)))]; [by rewrite T|].
      by rewrite total_key_row, !String.eqb_refl.
  - unfold instance_key. rewrite total_key_row. change (en_instance_id (entry_row e)) with (en_instance_id e).
    destruct (en_instance_id e) as [j|] eqn:Ej.
    + rewrite (add_to_val _ _ _ _ Ei).
      * rewrite I. apply Qplus_comp; [reflexivity|]. destruct (decide _) as [[= -> -> ->]|Hne].
        -- by rewrite bool_decide_true, !String.eqb_refl.
        -- destruct (_ && _) eqn:Ek; [|reflexivity].
           apply andb_true_iff in Ek as [[= E0]%bool_decide_eq_true [E1%String.eqb_eq E2%String.eqb_eq]%andb_true_iff].
           destruct Hne; congruence.
      * eapply representable_proper; [|apply (Hrep (instance_key j (en_currency e) (en_component e)))]; [by rewrite I|].
        unfold instance_key. rewrite total_key_row. change (en_instance_id (entry_row e)) with (en_instance_id e).
        by rewrite Ej, bool_decide_true, !String.eqb_refl.
    + rewrite Ei, I, bool_decide_false by done. unfold instance_key. simpl. ring.
  - assert (Hk : loss_key s d (entry_row e) = loss_entry e && bool_decide (s ∈ loss_scopes e) && (utc_day (en_time e) =? d)) by done.
    rewrite Hk. destruct (loss_entry e) eqn:Ele.
    + destruct El as (_ & _ & Ef). apply add_to_many with (s := s) (d := d) in Ef.
      * rewrite Ef, L. apply Qplus_comp; [reflexivity|]. destruct (decide _) as [[Hin ->]|Hn].
        -- by rewrite bool_decide_true, Z.eqb_refl.
        -- destruct (_ && _) eqn:Eb; [|reflexivity]. destruct Hn.
           apply andb_true_iff in Eb as [Eb1 Eb2]. simpl in Eb1. apply bool_decide_eq_true in Eb1. apply Z.eqb_eq in Eb2. done.
      * unfold loss_scopes. destruct (en_instance_id e); [|apply NoDup_singleton].
        apply NoDup_cons. split; [|apply NoDup_singleton]. intros Hin%list_elem_of_singleton. discriminate Hin.
      * intros s1 Hs1. eapply representable_proper; [|apply (Hrep (loss_key s1 (utc_day (en_time e))))].
        -- by rewrite L.
        -- unfold loss_key. change (loss_entry (entry_row e)) with (loss_entry e). rewrite Ele. simpl.
           rewrite Z.eqb_refl, andb_true_r. by apply bool_decide_eq_true.
    + destruct El as [-> _]. rewrite L. simpl. ring.
Qed.

(** ** Where the entries of strategies come from *)
Lemma strip_prefix_ok p s t : strip_prefix p s = Some t → s = p +:+ t.
Proof.
  unfold strip_prefix. revert s t. induction p as [|a p IH]; intros s t; simpl.
  - assert (∀ s, String.substring 0 (String.length s - 0) s = s) as Hall.
    { clear. intros s. rewrite Nat.sub_0_r. induction s as [|c s IH]; simpl; [done|by rewrite IH]. }
    assert (String.prefix "" s = true) as -> by (by destruct s).
    injection 1 as E. rewrite Hall in E. by rewrite E.
  - destruct s as [|c s]; [done|]. simpl. destruct (ascii_dec a c) as [->|]; [|done].
    destruct (String.prefix p s) eqn:E; [|done]. injection 1 as Et. rewrite <- Et.
    specialize (IH s (String.substring (String.length p) (String.length s - String.length p) s)). rewrite E in IH.
    change (String c s = String c (p +:+ String.substring (String.length p) (String.length s - String.length p) s)).
    by rewrite <- IH.
Qed.
(** The entry names a fill of the ledger, whose fee it is when it is a fee, or a bill. *)
Definition sourced (b : Books) (e : FinanceEntry string) : Prop :=
  (∃ f, f ∈ fills b ∧ en_source_ref e = "fill:" +:+ fi_fill_id f
        ∧ (en_component e = "FEE" → en_currency e = fi_currency f ∧ (text_val (en_amount e) == text_val (fi_fee f))%Q))
  ∨ (∃ x, x ∈ bills b ∧ en_source_ref e = "bill:" +:+ bl_bill_id x ∧ en_economic_event_key e = en_source_ref e).
Definition economic {N} (e : FinanceEntry N) : bool :=
  strategy_owner e && negb (one_of ["INTERNAL_CAPITAL_USD"; "CAMPAIGN_LOSS_USD"] (en_component e)).
Lemma sourced_grows b b' e :
  (∃ l, fills b' = fills b ++ l) → (∃ l, bills b' = bills b ++ l) → sourced b e → sourced b' e.
Proof.
  intros [fl Ef] [bl Eb] [(f & Hf & ?)|(x & Hx & ?)]; [left; exists f|right; exists x]; (split; [|done]).
  - rewrite Ef. apply elem_of_app. by left.
  - rewrite Eb. apply elem_of_app. by left.
Qed.
Lemma verify_sourced b (e : FinanceEntry D) :
  verify_strategy_finance_source b e = Ok tt → economic e = true → sourced b (entry_row e).
Proof.
  unfold verify_strategy_finance_source, economic. intros E [Hs Hc]%andb_true_iff. apply negb_true_iff in Hc.
  rewrite Hs, Hc in E. simpl in E. inv_if E. inv_if E. apply bind_ok in E as (found & E & Hf).
  destruct found; [|done]. destruct (strip_prefix "fill:" (en_source_ref e)) as [id|] eqn:Ef.
  - left. apply strip_prefix_ok in Ef. unfold fill_proves in E.
    destruct (List.find _ (fills b)) as [f|] eqn:Efind; [|done].
    apply bind_ok in E as (wrong & Ew & E). destruct wrong; [done|].
    apply find_some in Efind as [Hin Hid%String.eqb_eq]. exists f. split; [by apply list_elem_of_In|].
    split; [by rewrite Hid|]. simpl. intros Hfee. rewrite Hfee in Ew. simpl in Ew.
    destruct (en_currency e =? fi_currency f)%string eqn:Ecur; [|done]. simpl in Ew. apply String.eqb_eq in Ecur.
    split; [done|]. apply bind_ok in Ew as (fee & Ed & [= Ew]). apply negb_false_iff, dec_eqb_val in Ew.
    rewrite text_val_exact, (decimal_val _ _ Ed). done.
  - destruct (strip_prefix "bill:" (en_source_ref e)) as [id|] eqn:Eb; [|done]. right. apply strip_prefix_ok in Eb.
    injection E as [Ek%String.eqb_eq Hb]%andb_true_iff. unfold has_bill in Hb. apply existsb_exists in Hb as (x & Hx & Hid%String.eqb_eq).
    exists x. split; [by apply list_elem_of_In|]. simpl. by rewrite Hid.
Qed.

(** ** The entries of a page *)
Definition fresh_entry (l : list (FinanceEntry string)) (e : FinanceEntry string) : Prop :=
  List.find (canonical e) l = None ∧ List.find (λ g, (en_entry_id g =? en_entry_id e)%string) l = None.
(** Keys and identities are unique. *)
Definition keys_unique (l : list (FinanceEntry string)) : Prop :=
  ∀ l1 e l2, l = l1 ++ e :: l2 → fresh_entry l1 e.
Lemma keys_unique_snoc l e : keys_unique l → fresh_entry l e → keys_unique (l ++ [e]).
Proof.
  intros Hu Hf l1 x l2 E. destruct l2 as [|y l2 _] using rev_ind.
  - apply app_inj_tail in E as [-> ->]. done.
  - rewrite app_comm_cons, app_assoc in E. apply app_inj_tail in E as [-> ->]. by eapply Hu.
Qed.
Record entries_in (b : Books) (b' : Books) (new : list (FinanceEntry string)) : Prop := {
  ei_entries : finance_entries b' = finance_entries b ++ new;
  ei_balanced : sums_exact (finance_entries b') → balanced b → balanced b';
  ei_losses : ∀ e, e ∈ new → loss_entry e = true → (0 <= text_val (en_amount e))%Q;
  ei_sourced : ∀ e, e ∈ new → economic e = true → sourced b' e;
  ei_unique : keys_unique (finance_entries b) → keys_unique (finance_entries b');
}.
Lemma ingest_finance_fold l : ∀ b a b' a',
  try_fold ingest_finance (b, a) l = Ok (b', a') →
  ∃ new, frame b b' ∧ entries_in b b' new ∧ (∀ e, e ∈ new → capital_entry e = false)
    ∧ (sums_exact (finance_entries b') → ∀ old, (∃ base, finance_entries b = base ++ old) →
       (val a == entries_sum loss_entry old)%Q → (val a' == entries_sum loss_entry (old ++ new))%Q).
Proof.
  induction l as [|e l IH]; intros b a b' a' E; simpl in E.
  { injection E as <- <-. exists []. split; [done|]. split; [|split].
    - split; try done; [by rewrite app_nil_r| |]; by intros e He%elem_of_nil.
    - by intros e He%elem_of_nil.
    - intros _ old _ Ha. by rewrite app_nil_r. }
  apply bind_ok in E as ([b1 a1] & E1 & E). apply ingest_finance_cases in E1 as ([F1 F2 F3 F4 F5 F6 F7] & Hcase).
  destruct (IH _ _ _ _ E) as (new & [G1 G2 G3 G4 G5 G6 G7] & [Ne Nb Nl Ns Nu] & Nx & Hsum). clear IH E.
  assert (Hfr : frame b b') by (split; congruence).
  destruct Hcase as [([= M1 M2 M3 M4] & ->)|Hadd].
  - exists new. split; [done|]. split; [|split; [done|]].
    + split; try done; [by rewrite Ne, M1| |by rewrite <- M1].
      intros Hs Hb. apply Nb; [done|]. destruct Hb as [T I L].
      split; intros; rewrite M1; [by rewrite M2|by rewrite M3|by rewrite M4].
    + intros Hs old [base Hbase] Ha. apply Hsum; [done|exists base; by rewrite M1|done].
  - pose proof Hadd as [Av Ax [An1 An2] Ae At Ai Al]. exists (entry_row e :: new).
    assert (Ee : finance_entries b' = finance_entries b ++ entry_row e :: new) by (by rewrite Ne, Ae, <- app_assoc).
    assert (Hpre : sums_exact (finance_entries b') → sums_exact (finance_entries b1)) by (rewrite Ne; apply sums_exact_prefix).
    split; [done|]. split; [|split].
    + split; [done| | | |].
      * intros Hs Hb. apply Nb; [done|]. eapply balanced_added; [exact Hadd|by apply Hpre|done].
      * intros x [->|Hx]%elem_of_cons; [|by apply Nl]. intros Hl. change (loss_entry (entry_row e)) with (loss_entry e) in Hl.
        rewrite Hl in Al. destruct Al as [Al _]. simpl. by rewrite text_val_exact.
      * intros x [->|Hx]%elem_of_cons; [|by apply Ns]. intros He. eapply sourced_grows; [..|by apply verify_sourced].
        -- exists []. by rewrite G2, F2, app_nil_r.
        -- exists []. by rewrite G3, F3, app_nil_r.
      * intros Hu. apply Nu. rewrite Ae. apply keys_unique_snoc; [done|]. split; [exact An1|exact An2].
    + intros x [->|Hx]%elem_of_cons; [exact Ax|by apply Nx].
    + intros Hs old [base Hbase] Ha. specialize (Hsum Hs (old ++ [entry_row e])). rewrite <- app_assoc in Hsum. apply Hsum.
      * exists base. by rewrite Ae, Hbase, app_assoc.
      * rewrite entries_sum_app, entries_sum_one. change (loss_entry (entry_row e)) with (loss_entry e).
        destruct (loss_entry e) eqn:Hl.
        -- destruct Al as (_ & Al & _). rewrite (add_exact _ _ _ Al).
           ++ rewrite Ha. simpl. by rewrite text_val_exact.
           ++ eapply representable_proper; [|apply (sums_exact_segment base (old ++ [entry_row e]) new loss_entry)].
              ** rewrite entries_sum_app, entries_sum_one, Ha. change (loss_entry (entry_row e)) with (loss_entry e). rewrite Hl. simpl. by rewrite text_val_exact.
              ** rewrite Ee, Hbase in Hs. by rewrite <- app_assoc in Hs |- *.
        -- destruct Al as [_ ->]. rewrite Ha. ring.
Qed.

(** ** What is recorded *)
Lemma find_app_some {A} (p : A → bool) l1 l2 x : List.find p l1 = Some x → List.find p (l1 ++ l2) = Some x.
Proof. induction l1 as [|y l1 IH]; simpl; [done|]. destruct (p y); [done|exact IH]. Qed.
(** The row of an entry, as far as a replay has to agree *)
Definition recorded (l : list (FinanceEntry string)) (e : FinanceEntry D) : Prop :=
  ∃ g, List.find (canonical e) l = Some g ∧ en_amount g = exact (en_amount e) ∧ en_currency g = en_currency e
       ∧ en_instance_id g = en_instance_id e ∧ en_reverses_entry_id g = en_reverses_entry_id e.
Lemma ingest_finance_recorded b a e b' a' :
  ingest_finance (b, a) e = Ok (b', a') → recorded (finance_entries b') e ∧ ∃ l, finance_entries b' = finance_entries b ++ l.
Proof.
  intros E. pose proof (ingest_finance_cases _ _ _ _ _ E) as (_ & Hcase). split.
  - unfold ingest_finance in E. inv_if E. inv_if E.
    apply bind_ok in E as ([] & _ & E). apply bind_ok in E as (u & _ & E).
    apply bind_ok in E as ([added rows] & _ & E). apply bind_ok in E as (b1 & Ht & E).
    apply bind_ok in E as (saved & Hs & E). inv_if E as Hsame. inv_if E. unfold query_row in Hs. apply ok_or_ok in Hs.
    repeat (apply orb_false_iff in Hsame as [Hsame ?Hs1]).
    assert (recorded (finance_entries b1) e) as Hrec.
    { exists saved. split; [done|]. apply negb_false_iff in Hsame, Hs0, Hs1, Hs2.
      apply String.eqb_eq in Hsame, Hs2. apply bool_decide_eq_true in Hs0, Hs1. done. }
    simpl in E. destruct (added && _).
    + inv_if E. apply bind_ok in E as (al & _ & E). apply bind_ok in E as (b2 & Eb & [= <- <-]).
      unfold add_losses in Eb. apply bind_ok in Eb as (m & _ & [= <-]). exact Hrec.
    + injection E as <- <-. exact Hrec.
  - destruct Hcase as [([= -> _ _ _] & _)|[]]; [exists []; by rewrite app_nil_r|by eexists].
Qed.
Lemma ingest_fill_recorded b (f : Fill D) b' :
  ingest_fill b f = Ok b' → List.find (same_trade f) (fills b') = Some (fill_row f).
Proof.
  unfold ingest_fill. intros E. inv_step E. injection E as <-.
  match goal with Hq : query_row _ = Ok _, Hb : negb _ = false |- _ =>
    unfold query_row in Hq; apply ok_or_ok in Hq; apply negb_false_iff, bool_decide_eq_true in Hb; congruence end.
Qed.
Lemma ingest_fills_recorded l : ∀ b b',
  try_fold ingest_fill b l = Ok b' → ∀ f, f ∈ l → List.find (same_trade f) (fills b') = Some (fill_row f).
Proof.
  induction l as [|x l IH]; intros b b' E f Hf; [by apply elem_of_nil in Hf|]. simpl in E. apply bind_ok in E as (b1 & E1 & E).
  apply elem_of_cons in Hf as [->|Hf]; [|by eapply IH]. apply ingest_fill_recorded in E1.
  apply (keep_fold false ingest_fill) in E; [|intros; by eapply ingest_fill_keep]. destruct E as [_ _ [k Hk] _ _ _ _ _].
  rewrite Hk. by apply find_app_some.
Qed.
Lemma recorded_grows l1 l2 e : recorded l1 e → recorded (l1 ++ l2) e.
Proof. intros (g & Hg & ?). exists g. split; [by apply find_app_some|done]. Qed.
Lemma ingest_finance_all l : ∀ b a b' a',
  try_fold ingest_finance (b, a) l = Ok (b', a') → ∀ e, e ∈ l → recorded (finance_entries b') e.
Proof.
  induction l as [|x l IH]; intros b a b' a' E e He; [by apply elem_of_nil in He|]. simpl in E.
  apply bind_ok in E as ([b1 a1] & E1 & E). apply elem_of_cons in He as [->|He]; [|by eapply IH].
  apply ingest_finance_recorded in E1 as (Hr & _). apply ingest_finance_fold in E as (new & _ & Hin & _).
  rewrite (ei_entries _ _ _ Hin). by apply recorded_grows.
Qed.

(** ** A whole page *)
Lemma balanced_money b b' : money_of b' = money_of b → balanced b → balanced b'.
Proof.
  intros [= E1 E2 E3 E4] [T I L]. split; intros; rewrite E1.
  - by rewrite E2. - by rewrite E3. - by rewrite E4.
Qed.
Definition grows (b b' : Books) : Prop := (∃ l, fills b' = fills b ++ l) ∧ (∃ l, bills b' = bills b ++ l).
Lemma grows_trans b1 b2 b3 : grows b1 b2 → grows b2 b3 → grows b1 b3.
Proof.
  intros [[f1 F1] [l1 L1]] [[f2 F2] [l2 L2]]. split.
  - exists (f1 ++ f2). by rewrite F2, F1, app_assoc.
  - exists (l1 ++ l2). by rewrite L2, L1, app_assoc.
Qed.
Lemma grows_same b b' : fills b' = fills b → bills b' = bills b → grows b b'.
Proof. intros E1 E2. split; exists []; by rewrite app_nil_r. Qed.
Lemma entries_in_frame b b1 b2 b3 new :
  money_of b1 = money_of b → money_of b3 = money_of b2 → grows b2 b3 → entries_in b1 b2 new → entries_in b b3 new.
Proof.
  intros M1 M3 [Gf Gb] [Ne Nb Nl Ns Nu].
  assert (E1 : finance_entries b1 = finance_entries b) by (by injection M1).
  assert (E3 : finance_entries b3 = finance_entries b2) by (by injection M3). split.
  - by rewrite E3, Ne, E1.
  - rewrite E3. intros Hs Hb. eapply balanced_money; [exact M3|]. apply Nb; [done|]. by eapply balanced_money.
  - done.
  - intros e He Hec. eapply sourced_grows; [done..|by apply Ns].
  - rewrite E3, <- E1. exact Nu.
Qed.
Lemma entries_in_trans b b1 b2 n1 n2 :
  entries_in b b1 n1 → grows b1 b2 → entries_in b1 b2 n2 → entries_in b b2 (n1 ++ n2).
Proof.
  intros [Ne Nb Nl Ns Nu] [Gf Gb] [Me Mb Ml Ms Mu]. split.
  - by rewrite Me, Ne, app_assoc.
  - intros Hs Hb. apply Mb; [done|]. apply Nb; [|done]. rewrite Me in Hs. by eapply sums_exact_prefix.
  - intros e [He|He]%elem_of_app; [by apply Nl|by apply Ml].
  - intros e [He|He]%elem_of_app Hec; [|by apply Ms]. eapply sourced_grows; [done..|by apply Ns].
  - auto.
Qed.

Lemma charge_campaign_ok b (a : D) b' :
  charge_campaign b a = Ok b' →
  money_of b' = money_of b ∧ fills b' = fills b ∧ bills b' = bills b ∧ cash_flows b' = cash_flows b
  ∧ source_cursors b' = source_cursors b ∧ position_lots b' = position_lots b ∧ fill_pending b' = fill_pending b
  ∧ (representable (text_val (campaign b) + val a)%Q → (0 <= val a)%Q → (text_val (campaign b') == text_val (campaign b) + val a)%Q).
Proof.
  unfold charge_campaign. destruct (dec_ltb dec_zero a) eqn:Ea; simpl.
  - intros E. apply bind_ok in E as (old & Eo & E). apply bind_ok in E as (total & Et & [= <-]). simpl.
    do 7 (split; [done|]). intros Hr _. unfold campaign in *. simpl. unfold money in Et. apply ok_or_ok in Et.
    apply decimal_val in Eo. rewrite text_val_exact, Eo. apply (add_exact _ _ _ Et).
    eapply representable_proper; [|exact Hr]. by rewrite Eo.
  - intros [= <-]. do 7 (split; [done|]). intros _ Ha. apply dec_ltb_false in Ea. rewrite val_zero in Ea.
    assert (val a == 0)%Q as -> by lra. ring.
Qed.
Lemma charge_nothing b b' : charge_campaign b (dec_zero (D:=D)) = Ok b' → b' = b.
Proof.
  unfold charge_campaign. destruct (dec_ltb dec_zero dec_zero) eqn:E; [apply dec_ltb_val in E; lra|]. by intros [= <-].
Qed.
(** The proof of provenance follows the entries. *)
Lemma sealed_rowid b : finance_proof_sealed b = true →
  provenance_watermark b = Some (finance_rowid b) ∨ finance_rowid b = 0 ∧ provenance_watermark b = None.
Proof.
  unfold finance_proof_sealed. intros [E%bool_decide_eq_true|[E1%Z.eqb_eq E2]%andb_true_iff]%orb_true_iff; [by left|right].
  split; [done|]. by destruct (provenance_watermark b).
Qed.
Lemma advance_ok b0 b :
  finance_proof_sealed b0 = true → source_cursors b !! provenance_key = source_cursors b0 !! provenance_key →
  finance_proof_sealed (advance_finance_provenance b (finance_rowid b0)) = true.
Proof.
  intros Hs%sealed_rowid Hc. assert (Hw : provenance_watermark b = provenance_watermark b0) by (unfold provenance_watermark; by rewrite Hc).
  unfold advance_finance_provenance. rewrite Hw.
  assert (Hg : negb (bool_decide (provenance_watermark b0 = Some (finance_rowid b0)))
               && negb ((finance_rowid b0 =? 0) && negb (is_some (provenance_watermark b0))) = false).
  { destruct Hs as [E|[E1 E2]]; [by rewrite bool_decide_true|]. rewrite E1, E2. done. }
  rewrite Hg. destruct (finance_rowid b =? finance_rowid b0) eqn:Er; simpl.
  - apply Z.eqb_eq in Er. unfold finance_proof_sealed. rewrite Hw, Er. destruct Hs as [E|[E1 E2]].
    + by rewrite bool_decide_true.
    + rewrite E1, E2. by rewrite orb_true_r.
  - unfold finance_proof_sealed. apply orb_true_iff. left. apply bool_decide_eq_true.
    unfold provenance_watermark, seal. simpl. rewrite lookup_insert_eq. done.
Qed.
Lemma advance_same b n :
  money_of (advance_finance_provenance b n) = money_of b ∧ campaign (advance_finance_provenance b n) = campaign b
  ∧ fills (advance_finance_provenance b n) = fills b ∧ bills (advance_finance_provenance b n) = bills b
  ∧ cash_flows (advance_finance_provenance b n) = cash_flows b ∧ position_lots (advance_finance_provenance b n) = position_lots b
  ∧ fill_pending (advance_finance_provenance b n) = fill_pending b ∧ store (advance_finance_provenance b n) = store b.
Proof. unfold advance_finance_provenance. destruct (_ && _); [done|]. by destruct (negb _). Qed.

Record page_effect (page : IngestPage D) (b b' : Books) (changed : bool) (new : list (FinanceEntry string)) : Prop := {
  pe_entries : entries_in b b' new;
  pe_grows : grows b b';
  pe_external : ∀ e, e ∈ new → capital_entry e = false;
  pe_recorded : ∀ e, e ∈ ig_finance page → recorded (finance_entries b') e;
  pe_fills : ∀ f, f ∈ ig_fills page → List.find (same_trade f) (fills b') = Some (fill_row f);
  pe_none : ig_finance page = [] → money_of b' = money_of b ∧ campaign b' = campaign b;
  pe_lots : ∃ b1 b2, position_lots b1 = position_lots b ∧ try_fold ingest_lot b1 (ig_lots page) = Ok b2 ∧ position_lots b' = position_lots b2;
  pe_settled : settled_stay b b';
  pe_projected : ∀ id, id ∈ ig_projected_fill_ids page → fill_pending b' !! id = None;
  pe_flows : changed = false → cash_flows b' = cash_flows b;
  pe_sealed : finance_proof_sealed b = true → finance_proof_sealed b' = true;
  pe_campaign : sums_exact (finance_entries b') → representable (text_val (campaign b) + entries_sum loss_entry new)%Q →
    (text_val (campaign b') == text_val (campaign b) + entries_sum loss_entry new)%Q;
}.
Lemma page_without_lots page b b' c new : page_effect page b b' c new → ig_lots page = [] → position_lots b' = position_lots b.
Proof. intros Hp Hl. destruct (pe_lots _ _ _ _ _ Hp) as (b1 & b2 & E1 & E2 & E3). rewrite Hl in E2. injection E2 as <-. congruence. Qed.
Lemma entries_sum_nonneg p l : (∀ e, e ∈ l → p e = true → 0 <= text_val (en_amount e))%Q → (0 <= entries_sum p l)%Q.
Proof.
  intros Hl. apply qsum_nonneg. intros x Hx. apply list_elem_of_In, in_map_iff in Hx as (e & <- & He).
  apply filter_In in He as [He Hp]. apply Hl; [by apply list_elem_of_In|done].
Qed.
Lemma projected_all b l id : id ∈ l → fill_pending (foldl fill_projected b l) !! id = None.
Proof.
  revert b. induction l as [|x l IH]; intros b Hid; [by apply elem_of_nil in Hid|]. simpl.
  destruct (decide (id ∈ l)) as [Hin|Hout]; [by apply IH|]. apply elem_of_cons in Hid as [->|]; [|done].
  assert (∀ b, x ∉ l → fill_pending b !! x = None → fill_pending (foldl fill_projected b l) !! x = None) as Hstay; [|by apply Hstay; [|apply lookup_delete_eq]].
  clear. induction l as [|y l IH]; intros b Hx Hb; [done|]. simpl. apply not_elem_of_cons in Hx as [Hne Hx]. apply IH; [done|].
  simpl. by rewrite lookup_delete_ne.
Qed.
Lemma attributed_pending wall l : ∀ b, fill_pending (foldl (funding_attributed wall) b l) = fill_pending b.
Proof. induction l as [|x l IH]; intros b; [done|]. simpl. by rewrite IH. Qed.
Lemma ingest_body_ok wall (page : IngestPage D) b changed b' :
  ingest_body wall page b = Ok (changed, b') → ∃ new, page_effect page b b' changed new.
Proof.
  unfold ingest_body. intros E. destruct (is_some_and _ _) eqn:Hcur; [done|].
  apply bind_ok in E as (b1 & E1 & E). apply bind_ok in E as (b2 & E2 & E). apply bind_ok in E as (b3 & E3 & E).
  apply bind_ok in E as ([b4 c] & E4 & E). apply bind_ok in E as (b5 & E5 & E). apply bind_ok in E as ([b6 a] & E6 & E).
  apply bind_ok in E as (b7 & E7 & E). apply bind_ok in E as (b8 & E8 & E). apply bind_ok in E as (b9 & E9 & E).
  apply bind_ok in E as (b10 & E10 & [= <- <-]).
  pose proof (ingest_fills_recorded _ _ _ E1) as Hfills.
  apply (keep_fold false ingest_fill) in E1; [|intros; by eapply ingest_fill_keep].
  apply (keep_fold false ingest_bill) in E2; [|intros; by eapply ingest_bill_keep].
  apply (keep_fold false ingest_funding) in E3; [|intros; by eapply ingest_funding_keep].
  apply ingest_cash_flows_keep in E4 as [E4 _]. simpl in E4.
  apply (keep_fold false ingest_allocation) in E5; [|intros; by eapply ingest_allocation_keep].
  pose proof E8 as Hlots. apply (keep_fold true ingest_lot) in E8; [|intros; by eapply ingest_lot_keep].
  apply (keep_fold false ingest_nav) in E9; [|intros; by eapply ingest_nav_keep].
  assert (K10 : keep false false b9 b10).
  { destruct (ig_cursor page) as [cur|]; [|injection E10 as <-; by apply keep_refl]. eapply cursor_keep; [exact E10|exact Hcur]. }
  pose proof (keep_trans _ _ _ _ _ _ _ (keep_trans _ _ _ _ _ _ _ (keep_trans _ _ _ _ _ _ _ (keep_trans _ _ _ _ _ _ _ E1 E2) E3) E4) E5) as Ka.
  simpl in Ka. rewrite orb_false_r in Ka.
  assert (∃ l, fills b5 = fills b1 ++ l) as Hgrow by exact (keep_fills _ _ _ _ (keep_trans _ _ _ _ _ _ _ (keep_trans _ _ _ _ _ _ _ (keep_trans _ _ _ _ _ _ _ E2 E3) E4) E5)).
  set (b11 := foldl fill_projected b10 (ig_projected_fill_ids page)). set (b12 := foldl (funding_attributed wall) b11 (ig_attributed_funding_ids page)).
  pose proof (keep_trans _ _ _ _ _ _ _ (keep_trans _ _ _ _ _ _ _ (keep_trans _ _ _ _ _ _ _ (keep_trans _ _ _ _ _ _ _ E8 E9) K10)
    (projected_keep b10 (ig_projected_fill_ids page))) (attributed_keep wall b11 (ig_attributed_funding_ids page))) as Kb.
  fold b11 b12 in Kb. rewrite ?orb_false_r in Kb.
  assert (Kl : position_lots b12 = position_lots b8) by exact (keep_lots _ _ _ _ (keep_trans _ _ _ _ _ _ _ (keep_trans _ _ _ _ _ _ _ (keep_trans _ _ _ _ _ _ _ E9 K10)
    (projected_keep b10 (ig_projected_fill_ids page))) (attributed_keep wall b11 (ig_attributed_funding_ids page))) eq_refl).
  clear E1 E2 E3 E4 E5 E8 E9 K10 E10 Hcur.
  pose proof (ingest_finance_all _ _ _ _ _ E6) as Hall.
  assert (Hcharge : a = dec_zero → b7 = b6) by (intros ->; by apply charge_nothing).
  assert (Hnone : ig_finance page = [] → b6 = b5 ∧ a = dec_zero) by (intros Hl; rewrite Hl in E6; by injection E6 as <- <-).
  apply ingest_finance_fold in E6 as (new & [F1 F2 F3 F4 F5 F6 F7] & Hin & Hx & Hsum).
  apply charge_campaign_ok in E7 as (C1 & C2 & C3 & C4 & C5 & C6 & C7 & C8).
  destruct Ka as [A1 A2 A3 A4 A5 A6 A7 A8], Kb as [B1 B2 B3 B4 B5 B6 B7 B8].
  destruct (advance_same b12 (finance_rowid b)) as (D1 & D2 & D3 & D4 & D5 & D6 & D7 & _). exists new.
  assert (Hg : grows b6 (advance_finance_provenance b12 (finance_rowid b))).
  { eapply grows_trans; [apply grows_same; [exact C2|exact C3]|]. eapply grows_trans; [by split|]. by apply grows_same. }
  assert (Hm : money_of (advance_finance_provenance b12 (finance_rowid b)) = money_of b6) by congruence.
  assert (Hfin : finance_entries (advance_finance_provenance b12 (finance_rowid b)) = finance_entries b6) by (by injection Hm).
  split.
  - by eapply entries_in_frame.
  - eapply grows_trans; [|exact Hg]. eapply grows_trans; [by split|]. by apply grows_same.
  - exact Hx.
  - intros e He. rewrite Hfin. by apply Hall.
  - intros f Hf. destruct Hgrow as [l1 G1], B3 as [l2 G2]. rewrite D3, G2, C2, F2, G1. by do 2 apply find_app_some; apply Hfills.
  - intros Hl. destruct (Hnone Hl) as [-> Ha]. specialize (Hcharge Ha). subst b7.
    split; congruence.
  - exists b7, b8. split; [by rewrite C6, F5, A6|]. split; [exact Hlots|]. by rewrite D6, Kl.
  - destruct A3 as [l3 A3]. eapply settled_trans; [exact A3|exact A7|]. intros id Hf Hp. rewrite D7. apply B7.
    + unfold has_fill in *. by rewrite C2, F2.
    + by rewrite C7, F6.
  - intros id Hid. rewrite D7. unfold b12. rewrite attributed_pending. by apply projected_all.
  - intros ->. rewrite D5, B5, C4, F4, A5; done.
  - intros Hs. apply advance_ok; [done|]. congruence.
  - intros Hs Hr. rewrite Hfin in Hs. specialize (Hsum Hs []). rewrite val_zero in Hsum.
    assert (Ha : (val a == entries_sum loss_entry new)%Q).
    { apply Hsum; [exists (finance_entries b5); by rewrite app_nil_r|]. reflexivity. }
    rewrite D2, B2, C8.
    + rewrite F1, A2, Ha. reflexivity.
    + eapply representable_proper; [|exact Hr]. rewrite F1, A2, Ha. reflexivity.
    + rewrite Ha. apply entries_sum_nonneg. apply (ei_losses _ _ _ Hin).
Qed.
End sums.
