(* ===== verification/BooksSafety.v ===== *)
(** * BooksSafety: the ledger adds up and is proven

    Theorems about every history of the finance operations: the totals, the totals of each
    instance and the daily losses are the sums of the immutable entries, the views kept in
    memory are what the tables say ([books_balance]); the entries of strategies come from
    recorded fills and bills, and the proof of provenance stays sealed ([books_proven]). *)
From stdpp Require Import base option list numbers strings gmap sets pretty relations.
From Stdlib Require Import ZArith QArith Qabs Lia Lqa String.
From S2P Require Import Prelude Text Ordered External Decimals Protocol Ledger Intents IntentSafety Instances TradeService Lots MoneyText Books BookFlows Capital BooksSums.
Local Open Scope string_scope.
Local Open Scope list_scope.
Local Open Scope Z_scope.

Section histories.
Context {D : Type} `{MoneyText D}.
Implicit Types s : AccountStore D.

(** Everything that happens to the books; the order ledger may change as it likes. *)
Inductive account_step s : AccountStore D → Prop :=
| StepPage wall page : account_step s (ingest_page wall page s).1
| StepFill wall fill effect cursor : account_step s (ingest_attributed_fill wall fill effect cursor s).1
| StepProject wall limit : account_step s (project_pending_fills wall limit s).1
| StepUsd wall page fx : account_step s (ingest_page_with_usd wall page fx s).1
| StepFunding wall fx limit : account_step s (attribute_pending_funding wall fx limit s).1
| StepFlows : account_step s (cash_flow_totals s).1
| StepCapital now : account_step s (capital_state s now).1
| StepAssign r : account_step s (commit_authorized_capital_assignment r s).1
| StepNav e c : is_none_or (λ c, negb (cur_source c =? "finance_provenance")%string) c = true →
    account_step s (commit_reconciled_strategy_nav_with_optional_cursor e c s).1
| StepProtect p : account_step s (with_books (verify_protection (books s) p).1 s)
| StepReopen account installation s' : open_existing account installation (books s) = Ok s' → account_step s s'
| StepOrders x : account_step s (with_books (with_store x (books s)) s).

(** The views kept in memory *)
Record coherent s : Prop := {
  co_flows : ∀ m, cash_flow_totals_cache s = Some m → read_cash_flow_totals (books s) = Ok m;
  co_assignment : ∀ t, latest_capital_assignment_time s = Some t → t = last_assignment (books s);
}.
Record sound s : Prop := {
  so_balanced : sums_exact (finance_entries (books s)) → balanced (books s);
  so_unique : keys_unique (finance_entries (books s));
  so_sourced : ∀ e, e ∈ finance_entries (books s) → economic e = true → sourced (books s) e;
  so_sealed : finance_proof_sealed (books s) = true;
  so_coherent : coherent s;
}.

(** ** One after the other *)
Lemma sound_entries s s' new :
  entries_in (books s) (books s') new → grows (books s) (books s') → finance_proof_sealed (books s') = true → coherent s' →
  sound s → sound s'.
Proof.
  intros [Ne Nb Nl Ns Nu] [Gf Gb] Hs Hc [B U S _ _]. split; [|auto| |done|done].
  - intros Hx. apply Nb; [done|]. apply B. rewrite Ne in Hx. by eapply sums_exact_prefix.
  - intros e He Hec. rewrite Ne in He. apply elem_of_app in He as [He|He]; [|by apply Ns].
    eapply sourced_grows; [exact Gf|exact Gb|by apply S].
Qed.
Lemma entries_in_nil b b' : money_of b' = money_of b → entries_in (D:=D) b b' [].
Proof.
  intros E. assert (finance_entries b' = finance_entries b) as Ee by (by injection E).
  split; rewrite ?Ee; [by rewrite app_nil_r| | | |done].
  - intros _. by apply balanced_money.
  - by intros e He%elem_of_nil.
  - by intros e He%elem_of_nil.
Qed.
Lemma sealed_same b b' : money_of b' = money_of b → source_cursors b' !! provenance_key = source_cursors b !! provenance_key →
  finance_proof_sealed b' = finance_proof_sealed b.
Proof. intros [= E1 _ _ _] E2. unfold finance_proof_sealed, provenance_watermark, finance_rowid. by rewrite E1, E2. Qed.
Lemma last_assignment_entries b b' new :
  finance_entries b' = finance_entries b ++ new → (∀ e, e ∈ new → capital_entry e = false) → last_assignment b' = last_assignment b.
Proof.
  intros E Hn. unfold last_assignment. rewrite E, List.filter_app.
  assert (List.filter capital_entry new = []) as ->; [|by rewrite app_nil_r].
  clear E. induction new as [|x new IH]; [done|]. simpl. rewrite (Hn x) by left. apply IH. intros. apply Hn. by right.
Qed.
Lemma sound_keep c p s s' : keep c p (books s) (books s') → coherent s' → sound s → sound s'.
Proof.
  intros [M _ Gf Gb _ _ _ P] Hc Hs. eapply sound_entries; [by apply entries_in_nil|by split| |done|done].
  rewrite (sealed_same _ _ M P). apply Hs.
Qed.
Lemma coherent_same s s' :
  cash_flow_totals_cache s' = cash_flow_totals_cache s → latest_capital_assignment_time s' = latest_capital_assignment_time s →
  cash_flows (books s') = cash_flows (books s) → last_assignment (books s') = last_assignment (books s) → coherent s → coherent s'.
Proof.
  intros E1 E2 E3 E4 [F A]. split.
  - intros m Hm. rewrite E1 in Hm. unfold read_cash_flow_totals. rewrite E3. by apply F.
  - intros t Ht. rewrite E2 in Ht. rewrite E4. by apply A.
Qed.
Lemma sound_same p s s' : sound s → keep false p (books s) (books s') →
  cash_flow_totals_cache s' = cash_flow_totals_cache s → latest_capital_assignment_time s' = latest_capital_assignment_time s → sound s'.
Proof.
  intros Hs K E1 E2. eapply sound_keep; [exact K| |done]. apply (coherent_same s); [done..|by apply K| |apply Hs].
  eapply (last_assignment_entries _ _ []); [|by intros e He%elem_of_nil].
  rewrite app_nil_r. destruct K as [M _ _ _ _ _ _ _]. by injection M.
Qed.
Lemma sound_store s x : sound s → sound (with_books (with_store x (books s)) s).
Proof.
  intros [B U S P [F A]]. split; [|exact U|exact S|exact P|by split]. intros Hx. by eapply balanced_money; [|apply B].
Qed.
Lemma sound_page wall page s : sound s → sound (ingest_page wall page s).1.
Proof.
  intros Hs. unfold ingest_page. destruct (ingest_body wall page (books s)) as [[c b']|e] eqn:E; [|done].
  apply ingest_body_ok in E as (new & [En Eg Ex _ _ _ _ _ _ Ef Es _]). simpl.
  eapply sound_entries; [exact En|exact Eg|by apply Es, Hs| |done]. destruct Hs as [_ _ _ _ [F A]]. split; simpl.
  - intros m Hm. destruct c; [done|]. unfold read_cash_flow_totals. rewrite Ef by done. by apply F.
  - intros t Ht. rewrite (last_assignment_entries (books s) b' new); [by apply A|apply En|done].
Qed.
Lemma sound_each {A} (f : AccountStore D → A → AccountStore D * StoreResult unit) l s :
  (∀ s a, sound s → sound (f s a).1) → sound s → sound (for_each f s l).1.
Proof.
  intros Hf. revert s. induction l as [|a l IH]; intros s Hs; [done|]. simpl. specialize (Hf s a Hs).
  destruct (f s a) as [s' [u|e]]; [by apply IH|done].
Qed.
Lemma sound_fill wall fill effect cursor s : sound s → sound (ingest_attributed_fill wall fill effect cursor s).1.
Proof.
  intros Hs. unfold ingest_attributed_fill. destruct (_ && _); [by apply sound_page|].
  destruct (attributed_page _ _ _ _ _); [by apply sound_page|done].
Qed.
Lemma sound_usd wall page fx s : sound s → sound (ingest_page_with_usd wall page fx s).1.
Proof.
  intros Hs. unfold ingest_page_with_usd. destruct (_ || _); [done|].
  destruct (normalized _ _ _) as [p|[|]]; [by apply sound_page|by apply sound_store|done].
Qed.
Lemma sound_project wall limit s : sound s → sound (project_pending_fills wall limit s).1.
Proof.
  intros Hs. unfold project_pending_fills.
  assert (sound (for_each (project_fill wall) s (pending_fills (books s) limit)).1) as Hl.
  { apply sound_each; [|done]. clear s Hs. intros s raw Hs. unfold project_fill.
    destruct (_ ≫= _) as [[fill effect]|e]; [by apply sound_fill|done]. }
  by destruct (for_each _ _ _).
Qed.
Lemma sound_funding wall fx limit s : sound s → sound (attribute_pending_funding wall fx limit s).1.
Proof.
  intros Hs. unfold attribute_pending_funding.
  match goal with |- context [for_each ?f s ?l] => assert (sound (for_each f s l).1) as Hl; [|by destruct (for_each f s l)] end.
  apply sound_each; [|done]. clear s Hs. intros s e Hs. unfold attribute_funding.
  destruct (_ ≫= _) as [al|err]; [|done].
  pose proof (sound_usd wall (funding_page e al) fx s Hs) as Hu.
  destruct (ingest_page_with_usd _ _ _ s) as [s' [u|err]]; [|done]. destruct (existsb _ _); [by apply sound_store|done].
Qed.
Lemma sound_flows s : sound s → sound (cash_flow_totals s).1.
Proof.
  intros Hs. unfold cash_flow_totals. destruct (cash_flow_totals_cache s) eqn:Ec; [done|].
  destruct (read_cash_flow_totals (books s)) eqn:Er; [|done].
  destruct Hs as [B U S P [F A]]. split; try done. split; simpl; [|done]. by intros m [= <-].
Qed.
Lemma sound_capital s now : sound s → sound (capital_state s now).1.
Proof.
  intros Hs. unfold capital_state. destruct (nav_evidence _ _) as [[nav n]|e]; [|done].
  destruct Hs as [B U S P [F A]]. split; try done. split; simpl; [done|]. intros t [= <-].
  destruct (latest_capital_assignment_time s) as [t|]; simpl; [by apply A|done].
Qed.

(** ** Publishing values, protections *)
Lemma publish_point_keep scope b point b' : publish_point (D:=D) scope b point = Ok b' → keep false false b b'.
Proof.
  destruct point as [[[[[time equity] pnl] flows] source] version]. unfold publish_point. intros E. inv_if E.
  apply bind_ok in E as ([ins rows] & _ & E). apply bind_ok in E as (actual & _ & E). inv_if E. injection E as <-.
  kept.
Qed.
Lemma publish_row_keep e revision b v b' : publish_row (D:=D) e revision b v = Ok b' → keep false false b b'.
Proof.
  unfold publish_row. intros E. apply bind_ok in E as (pnl & _ & E). apply bind_ok in E as (b1 & E1 & [= <-]).
  apply (keep_fold false) in E1; [|intros; by eapply publish_point_keep].
  refine (keep_trans false false false false _ _ _ E1 _). kept.
Qed.
Lemma reconcile_state e s : sound s → sound (reconcile_strategy_valuation e s).1.
Proof.
  intros Hs. unfold reconcile_strategy_valuation. destruct (negb _); [done|].
  pose proof (sound_capital s (sv_as_of e) Hs). by destruct (capital_state s (sv_as_of e)) as [s' [st|err]].
Qed.
Lemma sound_nav e c s :
  is_none_or (λ c, negb (cur_source c =? "finance_provenance")%string) c = true → sound s →
  sound (commit_reconciled_strategy_nav_with_optional_cursor e c s).1.
Proof.
  intros Hc Hs. unfold commit_reconciled_strategy_nav_with_optional_cursor.
  pose proof (reconcile_state e s Hs) as Hr. destruct (reconcile_strategy_valuation e s) as [s1 [summary|err]]; [|done].
  simpl in Hr. destruct (_ && _); [done|].
  match goal with |- sound (match ?m with Ok _ => _ | Err _ => _ end).1 => destruct m as [b'|err] eqn:E; [|done] end.
  apply bind_ok in E as (b1 & E1 & E2). apply (keep_fold false) in E1; [|intros; by eapply publish_row_keep].
  assert (K2 : keep false false b1 b').
  { destruct c as [c|]; [|injection E2 as <-; by apply keep_refl].
    simpl in Hc. apply negb_true_iff in Hc. by eapply cursor_keep. }
  eapply sound_same; [exact Hr| |done|done]. exact (keep_trans _ _ _ _ _ _ _ E1 K2).
Qed.
Lemma sound_protect p s : sound s → sound (with_books (verify_protection (books s) p).1 s).
Proof.
  intros Hs. eapply (sound_same false); [exact Hs| |done|done]. simpl. unfold verify_protection.
  destruct (require_intent _ _) as [i|e]; simpl; [|by apply keep_refl].
  destruct (_ || _); [by apply keep_refl|]. destruct (exists_row _ _); simpl; [by apply keep_refl|].
  kept.
Qed.

(** ** Capital *)
Lemma omap_keys_NoDup {A K V} (f : A → option (K * V)) (key : A → K) (l : list A) :
  (∀ a b p q, a ∈ l → b ∈ l → f a = Some p → f b = Some q → p.1 = q.1 → a = b) → NoDup l → NoDup (omap f l).*1.
Proof.
  induction l as [|a l IH]; intros Hinj Hnd; [apply NoDup_nil_2|]. apply NoDup_cons in Hnd as [Ha Hnd]. simpl.
  assert (NoDup (omap f l).*1) as Hl by (apply IH; [|done]; intros; by eapply Hinj; eauto; right).
  destruct (f a) as [p|] eqn:Ea; [|done]. simpl. apply NoDup_cons. split; [|done].
  intros (q & Eq & (b & Hb & Ef)%list_elem_of_omap)%list_elem_of_fmap.
  apply Ha. by rewrite (Hinj a b p q ltac:(left) ltac:(by right) Ea Ef Eq).
Qed.
Lemma principal_rows_elem b now i t :
  (i, t) ∈ principal_rows b now false ↔ instance_finance_totals b !! (i, "USD", "INTERNAL_CAPITAL_USD") = Some t.
Proof.
  unfold principal_rows. rewrite sort_by_elem, list_elem_of_omap. split.
  - intros ([[[j c] k] v] & Hin & E). simpl in E. destruct (_ && _) eqn:Eb; [|done]. injection E as <- <-.
    apply andb_true_iff in Eb as [->%String.eqb_eq ->%String.eqb_eq]. by apply elem_of_map_to_list in Hin.
  - intros Hl. exists (i, "USD", "INTERNAL_CAPITAL_USD", t). split; [by apply elem_of_map_to_list|]. done.
Qed.
Lemma principal_rows_NoDup b now : NoDup (principal_rows b now false).*1.
Proof.
  unfold principal_rows. rewrite (fmap_Permutation fst _ _ (sort_by_perm _ _)).
  apply (omap_keys_NoDup _ (λ _, "")); [|apply NoDup_map_to_list].
  intros [[[i c] k] v] [[[i' c'] k'] v'] p q Hp Hq Ep Eq E. simpl in *.
  destruct (_ && _) eqn:Ec in Ep; [|done]. destruct (_ && _) eqn:Ec' in Eq; [|done].
  injection Ep as <-. injection Eq as <-. simpl in E. subst i'.
  apply andb_true_iff in Ec as [->%String.eqb_eq ->%String.eqb_eq], Ec' as [->%String.eqb_eq ->%String.eqb_eq].
  apply elem_of_map_to_list in Hp, Hq. congruence.
Qed.
Lemma add_principals rows : ∀ m a m' a',
  NoDup rows.*1 → (∀ i, i ∈ rows.*1 → oget m i = None) → try_fold (add_principal (D:=D)) (m, a) rows = Ok (m', a') →
  (∀ i t, (i, t) ∈ rows → (val (default dec_zero (oget m' i)) == text_val t)%Q)
  ∧ (∀ i, i ∉ rows.*1 → oget m' i = oget m i)
  ∧ (∀ i t, (i, t) ∈ rows → (0 <= text_val t)%Q).
Proof.
  induction rows as [|[i0 t0] rows IH]; intros m a m' a' Hnd Hm E; simpl in *.
  { injection E as <- <-. split; [by intros i t Hi%elem_of_nil|]. split; [done|by intros i t Hi%elem_of_nil]. }
  apply NoDup_cons in Hnd as [Hi0 Hnd]. apply bind_ok in E as ([m1 a1] & E1 & E).
  apply bind_ok in E1 as (amount & Ea & E1). apply bind_ok in E1 as (next & En & E1). inv_if E1 as Hneg.
  apply bind_ok in E1 as (as_ & _ & E1). inv_if E1. injection E1 as <- <-.
  rewrite (Hm i0 ltac:(left)) in En. simpl in En. unfold money in En. apply ok_or_ok in En. apply decimal_val in Ea.
  assert (Hnext : (val next == text_val t0)%Q).
  { rewrite Ea, (add_exact _ _ _ En), val_zero; [ring|]. eapply representable_proper; [|apply (representable_val amount)].
    rewrite val_zero. ring. }
  apply orb_false_iff in Hneg as [_ Hneg]. apply dec_ltb_false in Hneg. rewrite val_zero in Hneg.
  destruct (IH (oinsert i0 next m) as_ m' a' Hnd) as (Hin & Hout & Hpos); [|done|].
  { intros i Hi. rewrite oget_oinsert_ne; [by apply Hm; right|]. intros ->%kcmp_eq. done. }
  split; [|split].
  - intros i t [[= -> ->]|Hi]%elem_of_cons; [|by apply Hin]. rewrite Hout by done.
    rewrite oget_oinsert_eq by apply kcmp_refl. done.
  - intros i [Hne Hi]%not_elem_of_cons. rewrite Hout by done. apply oget_oinsert_ne. intros Hkey%kcmp_eq. congruence.
  - intros i t [[= -> ->]|Hi]%elem_of_cons; [|by eapply Hpos]. lra.
Qed.
(** [capital_state] reads what the instances have, at the present. *)
Lemma capital_of_principals b nav n now state :
  capital_of (D:=D) b nav n (principal_rows b now false) = Ok state →
  (∀ i, (val (default dec_zero (oget (cs_strategy_principal_usd state) i))
         == text_val_or (instance_finance_totals b !! (i, "USD", "INTERNAL_CAPITAL_USD")))%Q
        ∧ (0 <= text_val_or (instance_finance_totals b !! (i, "USD", "INTERNAL_CAPITAL_USD")))%Q)
  ∧ cs_account_nav_usd state = nav ∧ cs_nav_source_ref state = np_mark_source n ∧ cs_nav_source_as_of state = np_time n.
Proof.
  unfold capital_of. intros E. apply bind_ok in E as ([m a] & Em & E). apply bind_ok in E as (residual & _ & E).
  apply bind_ok in E as (total & _ & E). inv_if E. injection E as <-. split; [|done]. simpl.
  apply add_principals in Em as (Hin & Hout & Hpos); [|apply principal_rows_NoDup|done]. intros i.
  destruct (instance_finance_totals b !! (i, "USD", "INTERNAL_CAPITAL_USD")) as [t|] eqn:Et; simpl.
  - apply (principal_rows_elem b now) in Et. split; [by apply Hin|by eapply Hpos].
  - rewrite Hout; [simpl; by rewrite val_zero|]. intros ([j t] & -> & Hj)%list_elem_of_fmap. simpl in Et.
    apply principal_rows_elem in Hj. congruence.
Qed.

(** What a booked assignment does to the books *)
Record assigned (r : AuthorizedCapitalAssignment D) (next : D) (as_of : Z) (opposite : D) (b b' : Books) : Prop := {
  as_opposite : checked_sub dec_zero (ca_delta_usd r) = Some opposite;
  as_entries : finance_entries b' = finance_entries b ++
    [capital_leg r ("strategy:" +:+ ca_instance_id r) (Some (ca_instance_id r)) (ca_delta_usd r);
     capital_leg r "unattributed" None opposite];
  as_unique : keys_unique (finance_entries b) → keys_unique (finance_entries b');
  as_instance : instance_finance_totals b' = <[(ca_instance_id r, "USD", "INTERNAL_CAPITAL_USD") := exact next]> (instance_finance_totals b);
  as_total : finance_totals_table b' = match finance_totals_table b !! ("USD", "INTERNAL_CAPITAL_USD") with
             | Some _ => finance_totals_table b
             | None => <[("USD", "INTERNAL_CAPITAL_USD") := "0"]> (finance_totals_table b) end;
  as_rest : daily_losses b' = daily_losses b ∧ campaign b' = campaign b ∧ fills b' = fills b ∧ bills b' = bills b
            ∧ cash_flows b' = cash_flows b ∧ position_lots b' = position_lots b ∧ fill_pending b' = fill_pending b;
  as_receipt : ∃ result, operation_receipts (db (store b')) !! ca_operation_id r
               = Some (operation_row "CAPITAL_ASSIGNMENT" (ca_request_hash r) result (ca_time r));
  as_meta : meta (db (store b')) = meta (db (store b));
  as_sealed : finance_proof_sealed b = true → finance_proof_sealed b' = true;
}.
Lemma insert_leg_ok b e b' :
  insert_leg b e = Ok b' →
  fresh_entry (finance_entries b) e ∧ finance_entries b' = finance_entries b ++ [e]
  ∧ b' = with_links ({[(en_entry_id e, en_source_ref e)]} ∪ finance_source_links b) (with_entries (finance_entries b ++ [e]) b).
Proof.
  unfold insert_leg. intros E. apply bind_ok in E as (u & Eu & E). apply bind_ok in E as (u2 & _ & [= <-]).
  apply constraint_ok, andb_true_iff in Eu as [Hf _]. apply negb_true_iff in Hf.
  assert (Hno : ∀ g, g ∈ finance_entries b → canonical e g || (en_entry_id g =? en_entry_id e)%string = false).
  { intros g Hg. apply not_true_iff_false. intros Ht. apply not_true_iff_false in Hf. apply Hf.
    apply existsb_exists. exists g. split; [by apply list_elem_of_In|done]. }
  split; [|done]. split; (destruct (List.find _ _) as [g|] eqn:Ef; [|done]); apply find_some in Ef as [Hg Hc];
    apply list_elem_of_In, Hno, orb_false_iff in Hg as [H1' H2']; simpl in *; congruence.
Qed.
Lemma book_assignment_ok r next as_of b b' :
  book_assignment r next as_of b = Ok b' → ∃ opposite, assigned r next as_of opposite b b'.
Proof.
  unfold book_assignment. intros E. apply bind_ok in E as (opposite & Eo & E). apply bind_ok in E as (b2 & El & E).
  apply bind_ok in E as (ops & Ei & [= <-]). unfold money in Eo. apply ok_or_ok in Eo. exists opposite.
  simpl in El. apply bind_ok in El as (b1 & E1 & El). apply bind_ok in El as (b2' & E2 & [= <-]).
  apply insert_leg_ok in E1 as (Hf1 & He1 & Eb1), E2 as (Hf2 & He2 & Eb2). apply insert_row_ok in Ei as [_ ->].
  match goal with |- assigned _ _ _ _ _ (advance_finance_provenance ?x ?n) => destruct (advance_same x n) as (D1 & D2 & D3 & D4 & D5 & Hlots & Hpend & Hst); set (y := x) in * end.
  assert (Hy : finance_entries y = finance_entries b2') by done. injection D1 as D1 D6 D7 D8.
  assert (He : finance_entries b2' = finance_entries b ++
    [capital_leg r ("strategy:" +:+ ca_instance_id r) (Some (ca_instance_id r)) (ca_delta_usd r);
     capital_leg r "unattributed" None opposite]) by (by rewrite He2, He1, <- app_assoc).
  split.
  - done.
  - etransitivity; [exact D1|exact He].
  - intros Hu. rewrite D1. change (keys_unique (finance_entries b2')). rewrite He2. apply keys_unique_snoc; [|done]. rewrite He1. by apply keys_unique_snoc.
  - rewrite D7. subst b2' b1. done.
  - rewrite D6. subst b2' b1. done.
  - rewrite D8, D2, D3, D4, D5, Hlots, Hpend. subst b2' b1. done.
  - eexists. rewrite Hst. subst b2' b1. simpl. by rewrite lookup_insert_eq.
  - rewrite Hst. subst b2' b1. done.
  - intros Hs. apply advance_ok; [done|]. subst b2' b1. done.
Qed.
Lemma entries_sum_two p l (a b : FinanceEntry string) :
  (entries_sum p (l ++ [a; b]) == entries_sum p l + (if p a then text_val (en_amount a) else 0) + (if p b then text_val (en_amount b) else 0))%Q.
Proof. change (l ++ [a; b]) with (l ++ [a] ++ [b]). rewrite app_assoc, !entries_sum_app, !entries_sum_one. ring. Qed.
Lemma text_zero : (text_val "0" == 0)%Q.
Proof.
  assert (exact (dec_zero (D:=D)) = "0") as <-; [|by rewrite text_val_exact, val_zero].
  unfold exact. apply zero_text. by rewrite val_zero.
Qed.
Lemma assigned_totals r next as_of opposite b b' : assigned r next as_of opposite b b' →
  ∀ c k, (text_val_or (finance_totals_table b' !! (c, k)) == text_val_or (finance_totals_table b !! (c, k)))%Q.
Proof.
  intros [_ _ _ _ Et _ _ _ _] c k. rewrite Et. destruct (finance_totals_table b !! _) eqn:Eold; [done|].
  destruct (decide ((c, k) = ("USD", "INTERNAL_CAPITAL_USD"))) as [[= -> ->]|Hne].
  - rewrite lookup_insert_eq, Eold. simpl. apply text_zero.
  - by rewrite lookup_insert_ne.
Qed.
Lemma assigned_balanced r next as_of opposite b b' :
  assigned r next as_of opposite b b' →
  (val next == text_val_or (instance_finance_totals b !! (ca_instance_id r, "USD", "INTERNAL_CAPITAL_USD")) + val (ca_delta_usd r))%Q →
  balanced b → balanced b'.
Proof.
  intros Hall Hnext [T I L]. pose proof Hall as [Eo Ee _ Ei _ (El & _) _ _ _].
  assert (Hopp : (val opposite == - val (ca_delta_usd r))%Q).
  { rewrite (sub_exact _ _ _ Eo), val_zero; [ring|]. eapply representable_proper; [|apply representable_opp, (representable_val (ca_delta_usd r))].
    rewrite val_zero. ring. }
  set (leg1 := capital_leg r _ (Some _) _) in *. set (leg2 := capital_leg r _ None _) in *.
  assert (V1 : (text_val (en_amount leg1) == val (ca_delta_usd r))%Q) by apply text_val_exact.
  assert (V2 : (text_val (en_amount leg2) == - val (ca_delta_usd r))%Q) by (rewrite <- Hopp; apply text_val_exact).
  assert (Hsum : ∀ p, (entries_sum p (finance_entries b') == entries_sum p (finance_entries b)
      + (if p leg1 then val (ca_delta_usd r) else 0) + (if p leg2 then - val (ca_delta_usd r) else 0))%Q).
  { intros p. rewrite Ee, entries_sum_two.
    destruct (p leg1), (p leg2); rewrite ?V1, ?V2; ring. }
  split.
  - intros c k. rewrite Hsum. change (total_key c k leg2) with (total_key c k leg1).
    rewrite (assigned_totals _ _ _ _ _ _ Hall), T. destruct (total_key c k leg1); ring.
  - intros i c k. rewrite Hsum. assert (instance_key i c k leg2 = false) as -> by done.
    rewrite Ei. destruct (decide ((i, c, k) = (ca_instance_id r, "USD", "INTERNAL_CAPITAL_USD"))) as [[= -> -> ->]|Hne].
    + rewrite lookup_insert_eq. simpl. rewrite text_val_exact, Hnext, I.
      assert (instance_key (ca_instance_id r) "USD" "INTERNAL_CAPITAL_USD" leg1 = true) as ->; [|ring].
      unfold instance_key. by rewrite bool_decide_true.
    + rewrite lookup_insert_ne by done. rewrite I. destruct (instance_key i c k leg1) eqn:Ek; [|ring].
      apply andb_true_iff in Ek as [[= <-]%bool_decide_eq_true [E1%String.eqb_eq E2%String.eqb_eq]%andb_true_iff].
      simpl in E1, E2. congruence.
  - intros sc d. rewrite El, L, Hsum. assert (loss_key sc d leg1 = false) as -> by done. assert (loss_key sc d leg2 = false) as -> by done. ring.
Qed.
(** The assignment that is not a repetition *)
Record new_assignment (r : AuthorizedCapitalAssignment D) s s' receipt state next opposite : Prop := {
  na_valid : assignment_valid (meta (db (store (books s)))) r = true;
  na_fresh : operation (db (store (books s))) (ca_operation_id r) = None;
  na_state : (capital_state s (ca_time r)).2 = Ok state;
  na_allowed : assignment_allowed (books s) r state = Ok next;
  na_ordered : is_some_and (λ last, ca_time r <? last) (last_assignment (books s)) = false;
  na_books : assigned r next (cs_nav_source_as_of state) opposite (books s) (books s');
  na_flows : cash_flow_totals_cache s' = cash_flow_totals_cache s;
  na_cache : latest_capital_assignment_time s' = None;
  na_receipt : operation (db (store (books s'))) (ca_operation_id r) = Some receipt;
}.
Lemma assign_cases r s s' receipt :
  commit_authorized_capital_assignment r s = (s', Ok receipt) →
  (s' = s ∧ operation (db (store (books s))) (ca_operation_id r) = Some receipt
   ∧ or_kind receipt = "CAPITAL_ASSIGNMENT" ∧ or_request_hash receipt = ca_request_hash r)
  ∨ ∃ state next opposite, new_assignment r s s' receipt state next opposite.
Proof.
  unfold commit_authorized_capital_assignment. destruct (assignment_valid _ r) eqn:Ev; [|done]. simpl.
  destruct (operation _ _) as [old|] eqn:Eo.
  { destruct (_ || _) eqn:Ec; [done|]. intros [= <- <-]. left. split; [done|]. split; [done|].
    apply orb_false_iff in Ec as [C1%negb_false_iff%String.eqb_eq C2%negb_false_iff%String.eqb_eq]. done. }
  destruct (is_some_and _ _) eqn:El; [done|]. destruct (capital_state s (ca_time r)) as [s1 [state|e]] eqn:Es; [|done].
  destruct (_ ≫= _) as [b'|e] eqn:Eb; [|done]. intros [= <- E]. right.
  apply bind_ok in Eb as (next & Ea & Eb). apply book_assignment_ok in Eb as [opposite Ha].
  assert (Hs1 : cash_flow_totals_cache s1 = cash_flow_totals_cache s).
  { unfold capital_state in Es. destruct (nav_evidence _ _) as [[nav n]|]; by injection Es as <- _. }
  exists state, next, opposite. split; try done; [by rewrite Es|by apply ok_or_ok in E].
Qed.
(** A new assignment is priced on what the instance has at the present. *)
Lemma new_assignment_next r s s' receipt state next opposite :
  coherent s → new_assignment r s s' receipt state next opposite →
  representable (text_val_or (instance_finance_totals (books s) !! (ca_instance_id r, "USD", "INTERNAL_CAPITAL_USD")) + val (ca_delta_usd r)) →
  (val next == text_val_or (instance_finance_totals (books s) !! (ca_instance_id r, "USD", "INTERNAL_CAPITAL_USD")) + val (ca_delta_usd r))%Q.
Proof.
  intros [_ Hco] [_ _ Hst Hal Hord _ _ _ _] Hrep. unfold capital_state in Hst.
  destruct (nav_evidence (books s) (ca_time r)) as [[nav n]|e]; [|done]. simpl in Hst.
  assert (default (last_assignment (books s)) (latest_capital_assignment_time s) = last_assignment (books s)) as Hd.
  { destruct (latest_capital_assignment_time s) as [t|]; [|done]. by apply Hco. }
  rewrite Hd, Hord in Hst. apply capital_of_principals in Hst as (Hp & _).
  unfold assignment_allowed in Hal. inv_if Hal. apply bind_ok in Hal as (nx & En & Hal). inv_if Hal.
  apply bind_ok in Hal as (i & _ & Hal). inv_if Hal. inv_if Hal. injection Hal as <-.
  unfold money in En. apply ok_or_ok in En. rewrite (add_exact _ _ _ En); [by rewrite (proj1 (Hp _))|].
  eapply representable_proper; [|exact Hrep]. by rewrite (proj1 (Hp _)).
Qed.
Lemma sound_assign r s : sound s → sound (commit_authorized_capital_assignment r s).1.
Proof.
  intros Hs. destruct (commit_authorized_capital_assignment r s) as [s' [receipt|e]] eqn:E.
  - apply assign_cases in E as [(-> & _)|(state & next & opposite & Hn)]; [done|].
    pose proof (new_assignment_next _ _ _ _ _ _ _ (so_coherent _ Hs) Hn) as Hnext.
    destruct Hn as [_ _ _ _ _ Ha Hf Hc _]. pose proof Ha as [_ Ee Hu _ _ (_ & _ & Efl & Ebl & Ecf & _) _ _ Hse]. simpl.
    destruct Hs as [B U S P [F A]]. split; [|by apply Hu| |by apply Hse|].
    + intros Hx. rewrite Ee in Hx. pose proof (sums_exact_prefix _ _ Hx) as Hx0. specialize (B Hx0).
      apply (assigned_balanced _ _ _ _ _ _ Ha); [|exact B]. apply Hnext.
      rewrite cons_middle, app_assoc in Hx. apply sums_exact_prefix in Hx.
      eapply representable_proper; [|apply (sums_exact_all _ (instance_key (ca_instance_id r) "USD" "INTERNAL_CAPITAL_USD") Hx)].
      rewrite entries_sum_app, entries_sum_one, <- (bal_instance _ B). unfold instance_key at 1. simpl.
      rewrite bool_decide_true by done. simpl. by rewrite text_val_exact.
    + intros x Hx Hec. rewrite Ee in Hx. apply elem_of_app in Hx as [Hx|Hx].
      * eapply sourced_grows; [..|by apply S]; [by exists []; rewrite app_nil_r|by exists []; rewrite app_nil_r].
      * apply elem_of_cons in Hx as [->|Hx%list_elem_of_singleton]; [|subst x]; unfold economic in Hec; by rewrite andb_false_r in Hec.
    + split; [|intros t Ht; congruence]. intros m Hm. unfold read_cash_flow_totals. rewrite Ecf. apply F. congruence.
  - simpl. revert E. unfold commit_authorized_capital_assignment. destruct (negb _); [by intros [= <- _]|].
    destruct (operation _ _); [destruct (_ || _); [by intros [= <- _]|done]|]. destruct (is_some_and _ _); [by intros [= <- _]|].
    pose proof (sound_capital s (ca_time r) Hs) as Hcs. destruct (capital_state s (ca_time r)) as [s1 [state|err]]; [|by intros [= <- _]].
    destruct (_ ≫= _) as [b'|err] eqn:Eb; [|by intros [= <- _]]. intros [= _ E]. exfalso.
    apply bind_ok in Eb as (next & _ & Eb). apply book_assignment_ok in Eb as (opposite & [_ _ _ _ _ _ [res Hres] _ _]).
    unfold operation in E. rewrite Hres in E. done.
Qed.
Lemma sound_reopen account installation s s' : open_existing account installation (books s) = Ok s' → sound s → sound s'.
Proof.
  unfold open_existing, audit_existing_finance_provenance. destruct (_ || _); [done|]. intros E [B U S P _]. rewrite P in E.
  injection E as <-. by split.
Qed.
Lemma sound_step s s' : account_step s s' → sound s → sound s'.
Proof.
  intros [] Hs; eauto using sound_page, sound_fill, sound_project, sound_usd, sound_funding, sound_flows, sound_capital,
    sound_assign, sound_nav, sound_protect, sound_store, sound_reopen.
Qed.
(** A new account has no entries. *)
Lemma sound_initial m x s : initialize_flat m x = Ok s → sound s.
Proof.
  unfold initialize_flat. intros E. inv_if E. inv_if E. inv_if E. apply bind_ok in E as (b1 & E1 & E).
  apply bind_ok in E as (b2 & E2 & [= <-]).
  assert (K : keep true false (empty_books m x) b2).
  { assert (K1 : keep true false (empty_books m x) b1).
    { revert E1. apply (try_fold_invariant (keep true false (empty_books m x))); [|apply keep_refl].
      intros b [currency amount] b' _ Hb E. refine (keep_trans true false true false _ _ _ Hb _). unfold open_flow in E. inv_if E.
      apply bind_ok in E as (u & _ & [= <-]). kept. }
    refine (keep_trans true false true false _ _ _ K1 _). revert E2. apply (try_fold_invariant (keep true false b1)); [|apply keep_refl].
    intros b [currency amount] b' _ Hb E. refine (keep_trans true false true false _ _ _ Hb _). unfold open_balance in E.
    apply bind_ok in E as (u & _ & E). apply bind_ok in E as (u' & _ & [= <-]). kept. }
  destruct K as [[= Ge G1 G2 G3] _ _ _ _ _ _ Gp].
  assert (source_cursors (empty_books m x) !! provenance_key = None) as Hp by done. rewrite Hp in Gp. split; simpl.
  - intros _. split; intros; by rewrite Ge, ?G1, ?G2, ?G3, lookup_empty.
  - rewrite Ge. intros l1 e l2 E. by destruct l1.
  - rewrite Ge. by intros e He%elem_of_nil.
  - unfold finance_proof_sealed, provenance_watermark, finance_rowid. by rewrite Ge, Gp.
  - by split.
Qed.
Lemma sound_reachable m x s0 s : initialize_flat m x = Ok s0 → rtc account_step s0 s → sound s.
Proof. intros Hg Hr. apply sound_initial in Hg. induction Hr; eauto using sound_step. Qed.

(** C13: In every history of the account the ledger adds up: for every currency and component
    the total, and the total of each instance, is the sum of the immutable entries; the
    losses of an account or a strategy on a day are the sum of the campaign losses of that
    day; and what is kept in memory is what the tables say. *)
Theorem books_balance m x s0 s : initialize_flat m x = Ok s0 → rtc account_step s0 s → sums_exact (finance_entries (books s)) →
  (∀ c k, text_val_or (finance_totals_table (books s) !! (c, k)) == entries_sum (total_key c k) (finance_entries (books s)))%Q
  ∧ (∀ i c k, text_val_or (instance_finance_totals (books s) !! (i, c, k)) == entries_sum (instance_key i c k) (finance_entries (books s)))%Q
  ∧ (∀ scope day, text_val_or (daily_losses (books s) !! (scope, day)) == entries_sum (loss_key scope day) (finance_entries (books s)))%Q
  ∧ (cash_flow_totals s).2 = read_cash_flow_totals (books s)
  ∧ default (last_assignment (books s)) (latest_capital_assignment_time s) = last_assignment (books s).
Proof.
  intros Hg Hr Hx. pose proof (sound_reachable _ _ _ _ Hg Hr) as [B _ _ _ [F A]]. destruct (B Hx) as [T I L].
  do 3 (split; [done|]). split.
  - unfold cash_flow_totals. destruct (cash_flow_totals_cache s) as [view|]; [by rewrite (F view)|].
    by destruct (read_cash_flow_totals (books s)).
  - destruct (latest_capital_assignment_time s) as [t|]; [by apply A|done].
Qed.

(** C14: In every history of the account no two entries have the same economic event,
    component and leg, or the same identity; every economic entry of a strategy names a fill
    of the ledger, whose fee and currency it has when it is a fee, or the bill whose event it
    is; and the proof of provenance is sealed. *)
Theorem books_proven m x s0 s : initialize_flat m x = Ok s0 → rtc account_step s0 s →
  keys_unique (finance_entries (books s))
  ∧ (∀ e, e ∈ finance_entries (books s) → economic e = true → sourced (books s) e)
  ∧ finance_proof_sealed (books s) = true.
Proof. intros Hg Hr. by destruct (sound_reachable _ _ _ _ Hg Hr). Qed.

(** An assignment of capital that succeeds moves exactly its amount: the instance has it
    in addition and is not below zero, nobody else has more or less, the sum over the account
    stays as it was (two legs of one event that cancel), an increase is covered by what the
    account has unassigned, the policy is the one that was authorized; and the same call
    again gives the same receipt and changes nothing. *)
Theorem assignment_moves_capital m x s0 s r s' receipt :
  initialize_flat m x = Ok s0 → rtc account_step s0 s → commit_authorized_capital_assignment r s = (s', Ok receipt) →
  operation (db (store (books s))) (ca_operation_id r) = None →
  sums_exact (finance_entries (books s')) →
  let key := (ca_instance_id r, "USD", "INTERNAL_CAPITAL_USD") in
  (text_val_or (instance_finance_totals (books s') !! key) == text_val_or (instance_finance_totals (books s) !! key) + val (ca_delta_usd r))%Q
  ∧ (0 <= text_val_or (instance_finance_totals (books s') !! key))%Q
  ∧ (∀ k, k ≠ key → instance_finance_totals (books s') !! k = instance_finance_totals (books s) !! k)
  ∧ (∀ c k, text_val_or (finance_totals_table (books s') !! (c, k)) == text_val_or (finance_totals_table (books s) !! (c, k)))%Q
  ∧ (∃ state, (capital_state s (ca_time r)).2 = Ok state ∧ ca_nav_source_ref r = cs_nav_source_ref state
     ∧ (0 < val (ca_delta_usd r) → val (ca_delta_usd r) <= val (cs_unattributed_residual_usd state))%Q)
  ∧ pol_revision (account_policy (db (store (books s)))) = ca_authority_revision r
  ∧ commit_authorized_capital_assignment r s' = (s', Ok receipt).
Proof.
  intros Hg Hr E Hnew Hx. pose proof (sound_reachable _ _ _ _ Hg Hr) as Hs.
  apply assign_cases in E as [(_ & Hold & _)|(state & next & opposite & Hn)]; [congruence|].
  pose proof (new_assignment_next _ _ _ _ _ _ _ (so_coherent _ Hs) Hn) as Hnext.
  destruct Hn as [Hval _ Hst Hal _ Ha _ _ Hrec]. pose proof Ha as [Eo Ee _ Ei _ _ [result Hop] Hmeta _].
  assert (Hv : (val next == text_val_or (instance_finance_totals (books s) !! (ca_instance_id r, "USD", "INTERNAL_CAPITAL_USD"))
                 + val (ca_delta_usd r))%Q).
  { apply Hnext. rewrite Ee in Hx. pose proof (sums_exact_prefix _ _ Hx) as Hx0. pose proof (so_balanced _ Hs Hx0) as B.
    rewrite cons_middle, app_assoc in Hx. apply sums_exact_prefix in Hx.
    eapply representable_proper; [|apply (sums_exact_all _ (instance_key (ca_instance_id r) "USD" "INTERNAL_CAPITAL_USD") Hx)].
    rewrite entries_sum_app, entries_sum_one, <- (bal_instance _ B). unfold instance_key at 1. simpl.
    rewrite bool_decide_true by done. simpl. by rewrite text_val_exact. }
  unfold assignment_allowed in Hal. inv_if Hal as Href. apply bind_ok in Hal as (nx & _ & Hal). inv_if Hal as Hlim.
  apply bind_ok in Hal as (i & _ & Hal). inv_if Hal. inv_if Hal as Hrev. injection Hal as ->.
  apply orb_false_iff in Hlim as [Hlow Hlim]. apply dec_ltb_false in Hlow. rewrite val_zero in Hlow.
  simpl. rewrite Ei. split; [|split; [|split; [|split; [|split; [|split]]]]].
  - rewrite lookup_insert_eq. simpl. by rewrite text_val_exact.
  - rewrite lookup_insert_eq. simpl. by rewrite text_val_exact.
  - intros k Hk. by rewrite lookup_insert_ne.
  - by apply (assigned_totals _ _ _ _ _ _ Ha).
  - exists state. split; [done|]. apply negb_false_iff, String.eqb_eq in Href. split; [done|]. intros Hpos.
    apply andb_false_iff in Hlim as [Hz|Hl].
    + apply dec_ltb_false in Hz. rewrite val_zero in Hz. lra.
    + by apply dec_ltb_false in Hl.
  - by apply negb_false_iff, Z.eqb_eq in Hrev.
  - unfold commit_authorized_capital_assignment.
    rewrite Hmeta, Hval. simpl. rewrite Hrec. unfold operation in Hrec. rewrite Hop in Hrec. injection Hrec as <-. simpl. by rewrite !String.eqb_refl.
Qed.
End histories.

(** ** On a concrete account *)
Section demo.
Import Fixed.
Local Notation fx z := (Fixed.mk z 0).
Definition books_meta : AccountMeta := {|
  meta_initialize_operation_id := "init"; meta_release_id := "r1"; meta_account_key := "acc"; meta_installation_id := "inst";
  meta_initialized_at := 1000; meta_opening_source := "opening:1" |}.
Definition books_opening : OpeningSnapshot Fixed.t := {|
  op_opening_equity_usd := fx 1000; op_source_ref := "opening:1"; op_observed_at := 1000; op_positions := 0; op_orders := 0;
  op_conditional_orders := 0; op_liabilities := fx 0; op_balances := [("USDT", fx 1000)] |}.
(** The order ledger after a strategy was created under revision 1 *)
Definition books_store (s : AccountStore Fixed.t) : Store :=
  let d := db (store (books s)) in {|
  db := with_policy {| pol_revision := 1; pol_paused := false; pol_campaign_id := "c"; pol_campaign_limit := "100";
                       pol_campaign_loss := "0" |}
          (with_instances {["s1" := {| in_definition_id := "d"; in_definition_version := "1"; in_parameters := ""; in_enabled := true;
             in_policy_revision := 1; in_budget := "500"; in_last_decision_key := None; in_parameters_digest := "" |}]} d);
  allocations := ∅; nav_scopes := nav_scopes (store (books s)) |}.
Definition books_start : AccountStore Fixed.t :=
  match initialize_flat books_meta books_opening with Ok s => s | Err _ => no_views (empty_books books_meta books_opening) end.
Definition books_running : AccountStore Fixed.t := with_books (with_store (books_store books_start) (books books_start)) books_start.
(** A fee that the account itself paid, with its loss in USD *)
Definition books_page : IngestPage Fixed.t := with_finance
  [{| en_entry_id := "e1"; en_economic_event_key := "bill:b1"; en_component := "FEE"; en_allocation_leg := "account";
      en_amount := fx (-3); en_currency := "USDT"; en_instance_id := None; en_source_ref := "bill:b1"; en_time := 2000;
      en_reverses_entry_id := None |}] empty_page.
Definition books_fx : UsdConversionEvidence Fixed.t := {|
  ux_observed_at := 1500; ux_source_digest := "sha"; ux_usd_per_currency := {["USDT" := fx 1]} |}.
Definition books_paid : AccountStore Fixed.t := (ingest_page_with_usd 2000 books_page books_fx books_running).1.
Definition books_assignment : AuthorizedCapitalAssignment Fixed.t := {|
  ca_account_key := "acc"; ca_installation_id := "inst"; ca_nav_source_ref := "opening:1"; ca_operation_id := "op1";
  ca_request_hash := "h"; ca_instance_id := "s1"; ca_delta_usd := fx 400; ca_authority_revision := 1;
  ca_authority_receipt := "auth"; ca_time := 3000 |}.
Lemma books_started : initialize_flat books_meta books_opening = Ok books_start.
Proof. vm_compute. reflexivity. Qed.
Lemma books_history : rtc account_step books_start books_paid.
Proof.
  eapply rtc_l; [exact (StepOrders _ (books_store books_start))|]. apply rtc_once. exact (StepUsd books_running 2000 books_page books_fx).
Qed.
Lemma fixed_sums_exact l : sums_exact (D:=Fixed.t) l.
Proof. intros p k n. exact I. Qed.
Example books_paid_loss :
  (finance_totals_table (books books_paid) !! ("USD", "CAMPAIGN_LOSS_USD"), daily_losses (books books_paid) !! ("account", 0),
   List.length (finance_entries (books books_paid)), pol_campaign_loss (account_policy (db (store (books books_paid)))))
  = (Some "3", Some "3", 2%nat, "3").
Proof. vm_compute. reflexivity. Qed.

Lemma books_balance_witness :
  List.length (finance_entries (books books_paid)) = 2%nat
  ∧ (text_val_or (finance_totals_table (books books_paid) !! ("USD", "CAMPAIGN_LOSS_USD"))
     == entries_sum (total_key "USD" "CAMPAIGN_LOSS_USD") (finance_entries (books books_paid)))%Q.
Proof.
  split; [vm_compute; reflexivity|].
  exact (proj1 (books_balance books_meta books_opening books_start books_paid books_started books_history (fixed_sums_exact _))
           "USD" "CAMPAIGN_LOSS_USD").
Defined.
Lemma books_proven_witness : finance_rowid (books books_paid) = 2 ∧ finance_proof_sealed (books books_paid) = true.
Proof.
  split; [vm_compute; reflexivity|].
  exact (proj2 (proj2 (books_proven books_meta books_opening books_start books_paid books_started books_history))).
Defined.
Definition books_assigned : AccountStore Fixed.t := (commit_authorized_capital_assignment books_assignment books_paid).1.
Definition books_receipt : OperationReceipt :=
  match operation (db (store (books books_assigned))) "op1" with
  | Some r => r | None => {| or_operation_id := ""; or_kind := ""; or_request_hash := ""; or_result_ref := ""; or_committed_at := 0 |} end.
Lemma books_assigned_ok : commit_authorized_capital_assignment books_assignment books_paid = (books_assigned, Ok books_receipt).
Proof. vm_compute. reflexivity. Qed.
Lemma assignment_moves_capital_witness :
  instance_finance_totals (books books_paid) !! ("s1", "USD", "INTERNAL_CAPITAL_USD") = None
  ∧ (text_val_or (instance_finance_totals (books books_assigned) !! ("s1", "USD", "INTERNAL_CAPITAL_USD")) == 0 + 400)%Q.
Proof.
  split; [vm_compute; reflexivity|].
  exact (proj1 (assignment_moves_capital books_meta books_opening books_start books_paid books_assignment books_assigned books_receipt
    books_started books_history books_assigned_ok ltac:(vm_compute; reflexivity) (fixed_sums_exact _))).
Defined.
End demo.
