(* ===== verification/BooksFills.v ===== *)
(** * BooksFills: fills, their fees and the losses they are charged with

    What a fill does to the lots: once ([fill_applied_once]), by exactly its quantity
    ([fill_moves_holding]), and not at all when its fee was captured under another key
    ([captured_fee_blocks_projection]); and what a loss costs the campaign
    ([losses_are_charged]). *)
From stdpp Require Import base option list numbers strings gmap sets pretty relations.
From Stdlib Require Import ZArith QArith Qabs Lia Lqa Ascii String.
From S2P Require Import Prelude Text Ordered External Decimals Protocol Ledger Intents IntentSafety Instances TradeService Lots MoneyText Books BookFlows Capital BooksSums BooksSafety.
Local Open Scope string_scope.
Local Open Scope list_scope.
Local Open Scope Z_scope.

(** ** What stays over every history *)
Section later.
Context {D : Type} `{MoneyText D}.
Implicit Types s : AccountStore D.

(** Lots have distinct names and quantities that are not negative. *)
Definition lots_ok (b : Books) : Prop :=
  NoDup (map lot_id (position_lots b)) ∧ ∀ l, l ∈ position_lots b → (0 <= text_val (D:=D) (lot_remaining_qty l))%Q.
Definition settle (c : StoredLot D) (o : StoredLot string) : StoredLot string :=
  if (lot_id o =? lot_id c)%string then with_quantity (exact (lot_remaining_qty c)) (exact (lot_cost c)) o else o.
Lemma ingest_lot_cases b (l : StoredLot D) b' : ingest_lot b l = Ok b' →
  (0 <= val (lot_remaining_qty l))%Q
  ∧ (List.find (λ o, (lot_id o =? lot_id l)%string) (position_lots b) = None ∧ position_lots b' = position_lots b ++ [lot_row l]
     ∨ is_Some (List.find (λ o, (lot_id o =? lot_id l)%string) (position_lots b)) ∧ position_lots b' = map (settle l) (position_lots b)).
Proof.
  unfold ingest_lot, upsert_lot. intros E. inv_if E as Hc. apply orb_false_iff in Hc as [[Hq _]%orb_false_iff _].
  apply dec_ltb_false in Hq. rewrite val_zero in Hq. split; [done|]. apply bind_ok in E as (u & _ & E).
  destruct (List.find _ (position_lots b)) as [old|].
  - inv_if E. injection E as <-. right. by split.
  - apply bind_ok in E as (u' & _ & [= <-]). by left.
Qed.
Lemma settle_ids l (c : StoredLot D) : map lot_id (map (settle c) l) = map lot_id l.
Proof. induction l as [|o l IH]; simpl; [done|]. rewrite IH. unfold settle. by destruct (_ =? _)%string. Qed.
Lemma ingest_lot_ok b (l : StoredLot D) b' : ingest_lot b l = Ok b' → lots_ok b → lots_ok b'.
Proof.
  intros (Hq & [(Hn & E)|(_ & E)])%ingest_lot_cases [Hnd Hpos]; unfold lots_ok; rewrite E; split.
  - rewrite map_app. apply NoDup_app. split; [done|]. split; [|apply NoDup_singleton].
    intros id (o & -> & Ho)%list_elem_of_fmap Hid%list_elem_of_singleton. apply list_elem_of_In, (find_none _ _ Hn) in Ho.
    apply String.eqb_neq in Ho. by apply Ho.
  - intros o [Ho| ->%list_elem_of_singleton]%elem_of_app; [by apply Hpos|]. simpl. by rewrite text_val_exact.
  - by rewrite settle_ids.
  - intros o (x & -> & Hx)%list_elem_of_fmap. unfold settle. destruct (_ =? _)%string; [simpl; by rewrite text_val_exact|by apply Hpos].
Qed.
(** Fills and entries stay, and a fill that is settled stays so. *)
Record later (b b' : Books) : Prop := {
  lt_fills : ∃ l, fills b' = fills b ++ l;
  lt_entries : ∃ l, finance_entries b' = finance_entries b ++ l;
  lt_settled : settled_stay b b';
  lt_lots : lots_ok b → lots_ok b';
}.
#[local] Instance later_refl : Reflexive later.
Proof. intros b. split; [exists []; by rewrite app_nil_r|exists []; by rewrite app_nil_r|by intros ? _ ?|done]. Qed.
#[local] Instance later_trans : Transitive later.
Proof.
  intros b1 b2 b3 [[f1 F1] [e1 E1] S1 L1] [[f2 F2] [e2 E2] S2 L2]. split; [| | |by auto].
  - exists (f1 ++ f2). by rewrite F2, F1, app_assoc.
  - exists (e1 ++ e2). by rewrite E2, E1, app_assoc.
  - by eapply settled_trans.
Qed.
Lemma later_keep c b b' : keep c false b b' → later b b'.
Proof.
  intros [M _ F _ _ L S _]. split; [done| |done|unfold lots_ok; by rewrite L]. injection M as M _ _ _. exists []. by rewrite M, app_nil_r.
Qed.
Lemma later_page wall page s : later (books s) (books (ingest_page wall page s).1).
Proof.
  unfold ingest_page. destruct (ingest_body wall page (books s)) as [[c b']|e] eqn:E; [|reflexivity].
  apply ingest_body_ok in E as (new & [[Ne _ _ _ _] [Gf _] _ _ _ _ (b1 & b2 & E1 & E2 & E3) Es _ _ _ _]). split; [done|by exists new|done|].
  unfold lots_ok at 2. simpl. rewrite E3. intros Hb. apply (try_fold_invariant lots_ok ingest_lot (ig_lots page)) in E2; [exact E2| |].
  - intros b0 l b0' _ Hb0 E0. by eapply ingest_lot_ok.
  - unfold lots_ok. by rewrite E1.
Qed.
Lemma later_fill wall fill effect cursor s : later (books s) (books (ingest_attributed_fill wall fill effect cursor s).1).
Proof.
  unfold ingest_attributed_fill. destruct (_ && _); [apply later_page|].
  destruct (attributed_page _ _ _ _ _); [apply later_page|reflexivity].
Qed.
Lemma later_usd wall page fx s : later (books s) (books (ingest_page_with_usd wall page fx s).1).
Proof.
  unfold ingest_page_with_usd. destruct (_ || _); [reflexivity|].
  destruct (normalized _ _ _) as [p|[|]]; [apply later_page|by apply later_keep with false; kept|reflexivity].
Qed.
Lemma later_each {A} (f : AccountStore D → A → AccountStore D * StoreResult unit) l s :
  (∀ s a, later (books s) (books (f s a).1)) → later (books s) (books (for_each f s l).1).
Proof.
  intros Hf. revert s. induction l as [|a l IH]; intros s; simpl; [reflexivity|]. specialize (Hf s a).
  destruct (f s a) as [s' [u|e]]; [etransitivity; [exact Hf|apply IH]|exact Hf].
Qed.
Lemma later_project wall limit s : later (books s) (books (project_pending_fills wall limit s).1).
Proof.
  unfold project_pending_fills. pose proof (later_each (project_fill wall) (pending_fills (books s) limit) s) as Hl.
  destruct (for_each _ _ _). apply Hl. clear s Hl. intros s raw. unfold project_fill.
  destruct (_ ≫= _) as [[fill effect]|e]; [apply later_fill|reflexivity].
Qed.
Lemma later_funding wall fx limit s : later (books s) (books (attribute_pending_funding wall fx limit s).1).
Proof.
  unfold attribute_pending_funding.
  match goal with |- context [for_each ?f s ?l] => pose proof (later_each f l s) as Hl; destruct (for_each f s l) end.
  apply Hl. clear s Hl. intros s e. unfold attribute_funding. destruct (_ ≫= _) as [al|err]; [|reflexivity].
  pose proof (later_usd wall (funding_page e al) fx s) as Hu.
  destruct (ingest_page_with_usd _ _ _ s) as [s' [u|err]]; [|exact Hu]. destruct (existsb _ _); [|exact Hu].
  etransitivity; [exact Hu|]. apply later_keep with false. kept.
Qed.
Lemma later_capital s now : books (capital_state s now).1 = books s.
Proof. unfold capital_state. by destruct (nav_evidence _ _) as [[nav n]|e]. Qed.
Lemma later_assign r s : later (books s) (books (commit_authorized_capital_assignment r s).1).
Proof.
  unfold commit_authorized_capital_assignment. destruct (negb _); [reflexivity|].
  destruct (operation _ _); [by destruct (_ || _)|]. destruct (is_some_and _ _); [reflexivity|].
  pose proof (later_capital s (ca_time r)) as Hc. destruct (capital_state s (ca_time r)) as [s1 [state|e]]; simpl in Hc; [|simpl; by rewrite Hc].
  destruct (_ ≫= _) as [b'|e] eqn:Eb; [|simpl; by rewrite Hc]. apply bind_ok in Eb as (next & _ & Eb).
  apply book_assignment_ok in Eb as (opposite & [_ Ee _ _ _ (_ & _ & Ef & _ & _ & El & Ep) _ _ _]). simpl. split.
  - exists []. by rewrite Ef, app_nil_r.
  - by eexists.
  - intros id _. by rewrite Ep.
  - unfold lots_ok. by rewrite El.
Qed.
Lemma later_reconcile e s : books (reconcile_strategy_valuation e s).1 = books s.
Proof.
  unfold reconcile_strategy_valuation. destruct (negb _); [done|]. pose proof (later_capital s (sv_as_of e)) as Hc.
  by destruct (capital_state s (sv_as_of e)) as [s1 [st|err]].
Qed.
Lemma later_nav e c s : later (books s) (books (commit_reconciled_strategy_nav_with_optional_cursor e c s).1).
Proof.
  unfold commit_reconciled_strategy_nav_with_optional_cursor. pose proof (later_reconcile e s) as Hc.
  destruct (reconcile_strategy_valuation e s) as [s1 [summary|err]]; simpl in Hc; [|simpl; by rewrite Hc].
  destruct (_ && _); [simpl; by rewrite Hc|].
  match goal with |- context [match ?m with Ok _ => _ | Err _ => _ end] => destruct m as [b'|err] eqn:E; [|simpl; by rewrite Hc] end.
  apply bind_ok in E as (b1 & E1 & E2). apply (keep_fold false) in E1; [|intros; by eapply publish_row_keep].
  simpl. rewrite <- Hc. etransitivity; [by eapply later_keep|]. destruct c as [c|]; [|by injection E2 as <-].
  unfold upsert_source_cursor in E2. inv_if E2. injection E2 as <-. split; [by exists []; rewrite app_nil_r..|by intros ? _ ?|done].
Qed.
Lemma later_step s s' : account_step s s' → later (books s) (books s').
Proof.
  intros []; auto using later_page, later_fill, later_project, later_usd, later_funding, later_assign, later_nav.
  - unfold cash_flow_totals. destruct (cash_flow_totals_cache s); [reflexivity|]. by destruct (read_cash_flow_totals _).
  - by rewrite later_capital.
  - simpl. unfold verify_protection. destruct (require_intent _ _); simpl; [|reflexivity]. destruct (_ || _); [reflexivity|].
    destruct (exists_row _ _); simpl; [reflexivity|]. apply later_keep with false. kept.
  - match goal with Ho : open_existing _ _ _ = Ok _ |- _ => unfold open_existing, audit_existing_finance_provenance in Ho; destruct (_ || _); [done|];
      destruct (finance_proof_sealed _); [by injection Ho as <-|]; destruct (_ ≫= _) as [b'|[]] eqn:E; try done; injection Ho as <-; [|reflexivity] end.
    apply bind_ok in E as (u & _ & [= <-]). split; [by exists []; rewrite app_nil_r..|by intros ? _ ?|done].
  - split; [by exists []; rewrite app_nil_r..|by intros ? _ ?|done].
Qed.
Lemma initial_lots m (x : OpeningSnapshot D) s : initialize_flat m x = Ok s → lots_ok (books s).
Proof.
  unfold initialize_flat. intros E. inv_if E. inv_if E. inv_if E. apply bind_ok in E as (b1 & E1 & E).
  apply bind_ok in E as (b2 & E2 & [= <-]). unfold lots_ok. simpl.
  assert (position_lots b2 = []) as ->; [|split; [constructor|by intros l Hl%elem_of_nil]].
  apply (try_fold_invariant (λ b, position_lots b = [])) in E2; [exact E2| |].
  - intros b [currency amount] b' _ Hb E. unfold open_balance in E.
    apply bind_ok in E as (u & _ & E). apply bind_ok in E as (u' & _ & [= <-]). exact Hb.
  - apply (try_fold_invariant (λ b, position_lots b = [])) in E1; [exact E1| |done].
    intros b [currency amount] b' _ Hb E. unfold open_flow in E. inv_if E. apply bind_ok in E as (u & _ & [= <-]). exact Hb.
Qed.
Lemma later_steps s s' : rtc account_step s s' → later (books s) (books s').
Proof. induction 1; [reflexivity|]. etransitivity; [by apply later_step|done]. Qed.
End later.

(** ** A fill that was applied *)
Section fills.
Context {D : Type} `{MoneyText D}.
Implicit Types s : AccountStore D.

Lemma same_trade_row {N M} (f : Fill N) (g : Fill M) r :
  same_trade f g = true → same_trade f r = same_trade g (r : Fill string).
Proof.
  unfold same_trade. intros [[E1%String.eqb_eq E2%String.eqb_eq]%andb_true_iff E3%String.eqb_eq]%andb_true_iff. by rewrite E1, E2, E3.
Qed.
(** The fill stands in the ledger and waits for nothing. *)
Definition applied (f : Fill D) (b : Books) : Prop :=
  List.find (same_trade f) (fills b) = Some (fill_row f) ∧ fill_pending b !! fi_fill_id f = None.
Lemma find_has_fill f b : List.find (same_trade f) (fills b) = Some (fill_row f) → has_fill b (fi_fill_id f) = true.
Proof.
  intros Ef. apply find_some in Ef as [Hin _]. apply existsb_exists. exists (fill_row f). split; [done|]. apply String.eqb_refl.
Qed.
Lemma applied_later f b b' : later b b' → applied f b → applied f b'.
Proof.
  intros [[l Hl] _ Hs _] [Ef Ep]. split; [rewrite Hl; by apply find_app_some|]. apply Hs; [by apply find_has_fill|done].
Qed.

Lemma ingest_page_effect wall page s s' u :
  ingest_page wall page s = (s', Ok u) → ∃ c new, page_effect page (books s) (books s') c new.
Proof.
  unfold ingest_page. destruct (ingest_body wall page (books s)) as [[c b']|e] eqn:E; [|done].
  intros [= <- _]. apply ingest_body_ok in E as [new Hp]. by exists c, new.
Qed.
Lemma ingest_page_err wall page s s' e : ingest_page wall page s = (s', Err e) → s' = s.
Proof. unfold ingest_page. destruct (ingest_body _ _ _) as [[c b']|e']; [done|]. by intros [= <- _]. Qed.
Lemma attributed_page_parts b (f : Fill D) effect cursor existing page :
  attributed_page b f effect cursor existing = Ok page → ig_fills page = [f] ∧ ig_projected_fill_ids page = [fi_fill_id f].
Proof.
  unfold attributed_page. intros E. apply bind_ok in E as (owner & _ & E). destruct effect as [side|].
  - inv_if E. by injection E as <-.
  - apply bind_ok in E as ([[o lots] pnl] & _ & E). by injection E as <-.
Qed.
(** The books have at most one row of a trade. *)
Lemma fill_found_before (f g : Fill D) b b' :
  later b b' → same_trade f g = true → List.find (same_trade f) (fills b) = Some (fill_row f) →
  List.find (same_trade g) (fills b') = Some (fill_row g) → fill_row g = fill_row f.
Proof.
  intros [[l Hl] _ _ _] Hfg Ef Eg. rewrite Hl in Eg.
  assert (Ef' : List.find (same_trade g) (fills b) = Some (fill_row f)).
  { rewrite <- Ef. clear -Hfg. induction (fills b) as [|r rs IH]; simpl; [done|].
    rewrite (same_trade_row f g r Hfg). destruct (same_trade g r); [done|exact IH]. }
  apply (find_app_some _ _ l) in Ef'. congruence.
Qed.
(** A trade that has a row and whose fill stands there afterwards had it before. *)
Lemma applied_before (f : Fill D) b b' :
  List.find (same_trade f) (fills b') = Some (fill_row f) → (∃ l, fills b' = fills b ++ l) → existsb (same_trade f) (fills b) = true →
  fill_pending b !! fi_fill_id f = None → applied f b.
Proof.
  intros Hf [l Hl] Hex Hp. split; [|done]. apply existsb_exists in Hex as (g & Hg & Hsame).
  destruct (List.find (same_trade f) (fills b)) as [g'|] eqn:Eg; [|by rewrite (find_none _ _ Eg g Hg) in Hsame].
  rewrite Hl, (find_app_some _ _ _ _ Eg) in Hf. done.
Qed.
Lemma attributed_applied wall f effect cursor s s' :
  ingest_attributed_fill wall f effect cursor s = (s', Ok tt) → applied f (books s').
Proof.
  intros E. pose proof (later_fill wall f effect cursor s) as Hlater. rewrite E in Hlater. simpl in Hlater.
  unfold ingest_attributed_fill in E. destruct (_ && _) eqn:Ec.
  - apply andb_true_iff in Ec as [Hex Hp]. apply ingest_page_effect in E as (c & new & Hpe).
    eapply applied_later; [exact Hlater|]. apply (applied_before _ _ _ (pe_fills _ _ _ _ _ Hpe f ltac:(left)) (lt_fills _ _ Hlater) Hex).
    by destruct (fill_pending (books s) !! fi_fill_id f).
  - destruct (attributed_page _ _ _ _ _) as [page|e] eqn:Ea; [|done]. apply attributed_page_parts in Ea as [Ef Ep].
    apply ingest_page_effect in E as (c & new & Hpe). split.
    + apply (pe_fills _ _ _ _ _ Hpe). rewrite Ef. left.
    + apply (pe_projected _ _ _ _ _ Hpe). rewrite Ep. left.
Qed.

(** C24: A fill has its effect once: after it was accepted, whatever happens then, any fill of
    the same trade that is offered again changes no lot, no entry, no total, no loss and not
    the campaign: it is the same fill, or it is refused. *)
Theorem fill_applied_once wall f effect cursor s s1 s2 :
  ingest_attributed_fill wall f effect cursor s = (s1, Ok tt) → rtc account_step s1 s2 →
  ∀ wall' g effect' cursor' s3 r, same_trade f g = true → ingest_attributed_fill wall' g effect' cursor' s2 = (s3, r) →
  position_lots (books s3) = position_lots (books s2) ∧ money_of (books s3) = money_of (books s2)
  ∧ campaign (books s3) = campaign (books s2) ∧ (r = Ok tt → fill_row g = fill_row f).
Proof.
  intros E1 Hr wall' g effect' cursor' s3 r Hfg E3.
  pose proof (applied_later _ _ _ (later_steps _ _ Hr) (attributed_applied _ _ _ _ _ _ E1)) as [Hf Hp].
  pose proof (later_fill wall' g effect' cursor' s2) as Hl. rewrite E3 in Hl. simpl in Hl.
  destruct r as [[]|e].
  - pose proof (attributed_applied _ _ _ _ _ _ E3) as [Hg _].
    pose proof (fill_found_before _ _ _ _ Hl Hfg Hf Hg) as Hrow. unfold ingest_attributed_fill in E3.
    assert (fi_fill_id g = fi_fill_id f) as Hid by exact (f_equal fi_fill_id Hrow). rewrite Hid, Hp in E3.
    assert (existsb (same_trade g) (fills (books s2)) = true) as Hex.
    { apply existsb_exists. apply find_some in Hf as [Hin Hs]. exists (fill_row f). split; [done|]. by rewrite <- (same_trade_row f g). }
    rewrite Hex in E3. simpl in E3. apply ingest_page_effect in E3 as (c & new & Hpe).
    destruct (pe_none _ _ _ _ _ Hpe eq_refl) as [-> ->]. by rewrite (page_without_lots _ _ _ _ _ Hpe eq_refl).
  - assert (s3 = s2) as ->; [|done]. unfold ingest_attributed_fill in E3. destruct (_ && _); [by eapply ingest_page_err|].
    destruct (attributed_page _ _ _ _ _); [by eapply ingest_page_err|by injection E3 as <- _].
Qed.

(** ** A fee that was captured under another key *)
Definition captured_fee (row : Fill string) (g : FinanceEntry string) : Prop :=
  en_source_ref g = "fill:" +:+ fi_fill_id row ∧ en_component g = "FEE" ∧ en_reverses_entry_id g = None
  ∧ en_economic_event_key g ≠ canonical_key row.
Lemma strip_prefix_app p t : strip_prefix p (p +:+ t) = Some t.
Proof.
  unfold strip_prefix. assert (String.prefix p (p +:+ t) = true) as ->.
  { induction p as [|a p IH]; [by destruct t|]. change (String a p +:+ t) with (String a (p +:+ t)). simpl.
    destruct (ascii_dec a a); [exact IH|done]. }
  f_equal. induction p as [|a p IH].
  - change ("" +:+ t) with t. simpl. rewrite Nat.sub_0_r. induction t as [|c t IH]; simpl; [done|by rewrite IH].
  - change (String a p +:+ t) with (String a (p +:+ t)). simpl. exact IH.
Qed.
Lemma fill_proves_reused b (e : FinanceEntry D) id row g :
  List.find (λ r, (fi_fill_id r =? id)%string) (fills b) = Some row → en_component e = "FEE" →
  en_source_ref e = "fill:" +:+ id → en_economic_event_key e = canonical_key row →
  g ∈ finance_entries b → captured_fee row g → ∃ err, fill_proves b e id = Err err.
Proof.
  intros Hf Hc Hs Hk Hg (Gs & Gc & Gr & Gk). pose proof (find_some _ _ Hf) as [_ Hid%String.eqb_eq].
  unfold fill_proves. rewrite Hf. destruct (_ ≫= _) as [ok|err] eqn:E; [exfalso|by eexists].
  apply bind_ok in E as (wrong & _ & E). destruct wrong; [done|]. cbv zeta in E. rewrite Hk, Hc, !String.eqb_refl in E.
  rewrite orb_true_l, !andb_true_l in E.
  assert (existsb (λ g, (en_source_ref g =? en_source_ref e)%string && (en_component g =? "FEE")%string
      && negb (en_economic_event_key g =? canonical_key row)%string && negb (is_some (en_reverses_entry_id g)))
      (finance_entries b) = true) as Hex; [|by rewrite Hex in E].
  apply existsb_exists. exists g. split; [by apply list_elem_of_In|].
  apply String.eqb_neq in Gk. by rewrite Gs, Gc, Gr, Gk, Hs, Hid, String.eqb_refl.
Qed.
Lemma captured_fee_refused b (f : Fill D) owner row g :
  owner ≠ "manual" → List.find (λ r, (fi_fill_id r =? fi_fill_id f)%string) (fills b) = Some row → canonical_key row = canonical_key f →
  g ∈ finance_entries b → captured_fee row g →
  ∃ e, verify_strategy_finance_source b (fill_entry f (Some owner) ":fee" "FEE" "account" (fi_fee f)) = Err e.
Proof.
  intros Hm Hf Hkey Hg Hcap. unfold verify_strategy_finance_source.
  assert (strategy_owner (fill_entry f (Some owner) ":fee" "FEE" "account" (fi_fee f)) = true) as ->.
  { unfold strategy_owner. simpl. by apply negb_true_iff, String.eqb_neq. }
  change (strip_prefix "fill:" _) with (strip_prefix "fill:" ("fill:" +:+ fi_fill_id f)). rewrite strip_prefix_app.
  edestruct (fill_proves_reused b (fill_entry f (Some owner) ":fee" "FEE" "account" (fi_fee f))) as [err Herr];
    [exact Hf|done|done|symmetry; exact Hkey|exact Hg|exact Hcap|].
  rewrite Herr. by eexists.
Qed.
(** Of a fill with a fee, the fee comes first. *)
Lemma attributed_page_fee b (f : Fill D) effect cursor existing page owner instr intent :
  attributed_page b f effect cursor existing = Ok page → fi_intent_id f = Some intent →
  intent_owner (db (store b)) intent = Ok (Some owner, instr) → dec_eqb (fi_fee f) dec_zero = false →
  ig_bills page = [] ∧ ig_funding_events page = [] ∧ ig_cash_flows page = [] ∧ ig_allocations page = []
  ∧ ∃ rest, ig_finance page = fill_entry f (Some owner) ":fee" "FEE" "account" (fi_fee f) :: rest.
Proof.
  unfold attributed_page. intros E Hi Ho Hfee. rewrite Hi, Ho, Hfee in E. simpl in E. destruct effect as [side|].
  - inv_if E. injection E as <-. split_and!; try done. by eexists.
  - apply bind_ok in E as ([[o lots] pnl] & _ & [= <-]). split_and!; try done. by eexists.
Qed.
Lemma refused_page wall page b (f : Fill D) owner row g rest :
  ig_fills page = [f] → ig_bills page = [] → ig_funding_events page = [] → ig_cash_flows page = [] → ig_allocations page = [] →
  ig_finance page = fill_entry f (Some owner) ":fee" "FEE" "account" (fi_fee f) :: rest →
  owner ≠ "manual" → List.find (λ r, (fi_fill_id r =? fi_fill_id f)%string) (fills b) = Some row → canonical_key row = canonical_key f →
  g ∈ finance_entries b → captured_fee row g → ∃ e, ingest_body wall page b = Err e.
Proof.
  intros Ef Eb Eu Ec Ea En Hm Hf Hkey Hg Hcap. unfold ingest_body. rewrite Ef, Eb, Eu, Ec, Ea, En.
  destruct (is_some_and _ _); [by eexists|]. cbn [try_fold].
  destruct (ingest_fill b f) as [b1|e] eqn:E1; [|by eexists]. apply ingest_fill_keep in E1 as [M _ [l Hl] _ _ _ _ _].
  injection M as M _ _ _. cbn.
  destruct (captured_fee_refused b1 f owner row g) as [e He]; [done| |done|by rewrite M|done|].
  { rewrite Hl. by apply find_app_some. }
  unfold ingest_finance. cbn [en_component fill_entry]. change ("FEE" =? "INTERNAL_CAPITAL_USD")%string with false. cbv iota.
  destruct (_ =? "")%string; [by eexists|]. rewrite He. by eexists.
Qed.
Lemma read_fill_same raw side (f : Fill D) :
  read_fill raw side = Ok f → fi_fill_id f = fi_fill_id raw ∧ fi_intent_id f = fi_intent_id raw ∧ canonical_key f = canonical_key raw
  ∧ decimal (fi_fee raw) = Ok (fi_fee f).
Proof. unfold read_fill. intros E. inv_ok E. by injection E as <-. Qed.

(** C28: A fill whose fee was captured with the key of its bill is never applied when a
    strategy owns it: as long as it waits, whatever else happened, its projection fails and
    changes nothing, and the fills after it are not looked at. *)
Theorem captured_fee_blocks_projection s s' row side g intent owner instr :
  List.find (λ r, (fi_fill_id r =? fi_fill_id row)%string) (fills (books s)) = Some row →
  fi_intent_id row = Some intent → ~ (text_val (fi_fee row) == 0)%Q →
  g ∈ finance_entries (books s) → captured_fee row g →
  rtc account_step s s' → intent_owner (db (store (books s'))) intent = Ok (Some owner, instr) → owner ≠ "manual" →
  fill_pending (books s') !! fi_fill_id row = Some side →
  ∀ wall, (∃ e, project_fill wall s' (row, side) = (s', Err e))
  ∧ ∀ limit rest, pending_fills (books s') limit = (row, side) :: rest → ∃ e, project_pending_fills wall limit s' = (s', Err e).
Proof.
  intros Hf Hi Hfee Hg Hcap Hr Ho Hm Hp wall.
  assert (Hone : ∃ e, project_fill wall s' (row, side) = (s', Err e)).
  { destruct (later_steps _ _ Hr) as [[l Hl] [k Hk] _ _]. unfold project_fill. simpl.
    destruct (read_fill row side) as [f|e] eqn:Ef; [|by eexists]. simpl.
    destruct (effect_of (books s') f) as [effect|e]; [|by eexists]. simpl.
    apply read_fill_same in Ef as (Eid & Ei & Ekey & Efee).
    unfold ingest_attributed_fill. rewrite Eid, Hp, andb_false_r.
    destruct (attributed_page _ _ _ _ _) as [page|e] eqn:Ea; [|by eexists].
    pose proof (attributed_page_parts _ _ _ _ _ _ Ea) as [Epf _].
    apply (attributed_page_fee _ _ _ _ _ _ owner instr intent) in Ea as (B1 & B2 & B3 & B4 & rest & B5); [|congruence|done|].
    - edestruct (refused_page wall page (books s') f owner row g rest) as [e He]; try done.
      + rewrite Hl, Eid. by apply find_app_some.
      + rewrite Hk. apply elem_of_app. by left.
      + exists e. unfold ingest_page. by rewrite He.
    - destruct (dec_eqb (fi_fee f) dec_zero) eqn:Ez; [|done]. destruct Hfee. apply dec_eqb_val in Ez. rewrite val_zero in Ez.
      by rewrite (decimal_val _ _ Efee). }
  split; [done|]. intros limit rest El. destruct Hone as [e He]. unfold project_pending_fills. rewrite El.
  cbn [for_each]. rewrite He. by eexists.
Qed.
End fills.

(** ** What a loss costs *)
Section losses.
Context {D : Type} `{MoneyText D}.
Implicit Types s : AccountStore D.

Lemma try_map_elem {E A B} (f : A → result E B) l bs x : try_map f l = Ok bs → x ∈ l → ∃ y, f x = Ok y ∧ y ∈ bs.
Proof.
  intros Hl%try_map_Forall2 [i Hi]%list_elem_of_lookup. destruct (Forall2_lookup_l _ _ _ _ _ Hl Hi) as (y & Hy & E').
  exists y. split; [done|by eapply list_elem_of_lookup_2].
Qed.
Lemma concat_elem {A} (ls : list (list A)) l x : l ∈ ls → x ∈ l → x ∈ List.concat ls.
Proof. intros Hl Hx. apply list_elem_of_In, in_concat. exists l. by rewrite <- !list_elem_of_In. Qed.
(** The entry of the campaign for the loss [e], in the books *)
Definition charged (fx : UsdConversionEvidence D) (b b' : Books) (e : FinanceEntry D) : Prop :=
  ∃ g, g ∈ finance_entries b' ∧ en_economic_event_key g = en_economic_event_key e ∧ en_component g = "CAMPAIGN_LOSS_USD"
       ∧ en_allocation_leg g = en_component e +:+ ":" +:+ en_allocation_leg e
       ∧ (g ∈ finance_entries b
          ∨ en_currency g = "USD" ∧ en_instance_id g = en_instance_id e
            ∧ ∃ rate, usd_rate fx (en_currency e) = Ok rate ∧ (0 < val rate)%Q
              ∧ (representable (- val (en_amount e) * val rate) → - val (en_amount e) * val rate <= text_val (D:=D) (en_amount g))%Q).
Lemma usd_loss_charged b b' fx (e : FinanceEntry D) l :
  usd_loss b fx e = Ok l → counts_as_loss e = true → (∃ k, finance_entries b' = finance_entries b ++ k) →
  (∀ x, x ∈ l → recorded (finance_entries b') x) → charged fx b b' e.
Proof.
  unfold usd_loss. intros E Hc [k Hk] Hrec. rewrite Hc in E. simpl in E. destruct (has_mirror _ _ _ _) eqn:Em.
  - apply existsb_exists in Em as (g & Hg & [[E1%String.eqb_eq E2%String.eqb_eq]%andb_true_iff E3%String.eqb_eq]%andb_true_iff).
    apply list_elem_of_In in Hg. exists g. split_and!; [rewrite Hk; apply elem_of_app; by left|done..|by left].
  - apply bind_ok in E as (rate & Er & E). apply bind_ok in E as (loss & El & [= <-]). apply ok_or_ok in El.
    destruct (Hrec _ ltac:(left)) as (g & Hg & G1 & G2 & G3 & _). apply find_some in Hg as [Hg Hcan].
    apply andb_true_iff in Hcan as [[C1%String.eqb_eq C2%String.eqb_eq]%andb_true_iff C3%String.eqb_eq]. simpl in *.
    exists g. split_and!; [by apply list_elem_of_In|done..|]. right. split_and!; [done|done|]. exists rate. split; [done|].
    assert (Hpos : (0 < val rate)%Q).
    { unfold usd_rate in Er. apply bind_ok in Er as (r & _ & Er). destruct (dec_leb r dec_zero) eqn:El0; [done|]. injection Er as ->.
      apply dec_leb_false in El0. by rewrite val_zero in El0. }
    split; [done|]. intros Hrep. rewrite G1, text_val_exact.
    assert (Hv : (val loss == - val (en_amount e) * val rate)%Q).
    { rewrite <- neg_exact. apply (mul_exact _ _ _ El). eapply representable_proper; [|exact Hrep]. by rewrite neg_exact. }
    rewrite <- Hv. apply away_grows. rewrite Hv. unfold counts_as_loss in Hc. apply andb_true_iff in Hc as [Hc _].
    apply dec_ltb_val in Hc. rewrite val_zero in Hc. nra.
Qed.

(** C25: Every loss is charged: when a page is accepted, each fee, realized loss, funding,
    interest or liquidation cost in it has its entry in the campaign, worth at least its
    amount at the given rate in USD, unless it was charged before; and the campaign grows by
    exactly the losses among the new entries, none of which is negative. *)
Theorem losses_are_charged wall page fx s s' :
  ingest_page_with_usd wall page fx s = (s', Ok tt) → sums_exact (D:=D) (finance_entries (books s')) →
  ∃ new, finance_entries (books s') = finance_entries (books s) ++ new
  ∧ (∀ e, e ∈ ig_finance page → recorded (finance_entries (books s')) e)
  ∧ (∀ e, e ∈ ig_finance page → counts_as_loss e = true → charged fx (books s) (books s') e)
  ∧ (representable (text_val (campaign (books s)) + entries_sum loss_entry new)
     → text_val (D:=D) (campaign (books s')) == text_val (D:=D) (campaign (books s)) + entries_sum (D:=D) loss_entry new)%Q
  ∧ (∀ e, e ∈ new → loss_entry e = true → 0 <= text_val (D:=D) (en_amount e))%Q.
Proof.
  unfold ingest_page_with_usd. intros E Hx. destruct (_ || _); [done|].
  destruct (normalized _ _ _) as [p|[|]] eqn:En; [|done..]. apply ingest_page_effect in E as (c & new & Hpe).
  exists new. pose proof Hpe as [[Ne _ Nl _ _] _ _ Hrec _ _ _ _ _ _ _ Hcamp].
  unfold normalized in En. apply bind_ok in En as (flows & _ & En). apply bind_ok in En as (losses & El & [= <-]). simpl in Hrec.
  split; [done|]. split; [intros e He; apply Hrec, elem_of_app; by left|]. split; [|split; [by auto|done]].
  intros e He Hc. destruct (try_map_elem _ _ _ _ El He) as (l & Hl & Hin). eapply usd_loss_charged; [exact Hl|done|by exists new|].
  intros x Hxl. apply Hrec. apply elem_of_app. right. apply elem_of_app. right. by eapply concat_elem.
Qed.
End losses.
