(* ===== verification/Holdings.v ===== *)
(** * Holdings: what a fill does to the lots of its strategy

    [held] is the quantity of the lots of one owner on one side of an instrument.  An opening
    fill adds a lot, a reducing fill takes exactly its quantity from the lots of its owner,
    oldest first, and touches no other lot ([fill_moves_holding]). *)
From stdpp Require Import base option list numbers strings gmap sets pretty relations.
From Stdlib Require Import ZArith QArith Qabs Lia Lqa String.
From S2P Require Import Prelude Text Ordered External Decimals Protocol Ledger Intents IntentSafety Instances TradeService Lots MoneyText Books BookFlows Capital BooksSums BooksSafety BooksFills.
Local Open Scope string_scope.
Local Open Scope list_scope.
Local Open Scope Z_scope.

Section holdings.
Context {D : Type} `{MoneyText D}.
Variable grid : Q → Prop.
Hypothesis grid_proper : ∀ p q, (p == q)%Q → grid p → grid q.
Hypothesis grid_sub : ∀ p q, grid p → grid q → (q <= p)%Q → grid (p - q)%Q.
Hypothesis grid_exact : ∀ q, grid q → representable q.

Notation tv s := (text_val (D:=D) s).
Definition of_holding (owner : option string) (instrument side : string) (l : StoredLot string) : bool :=
  bool_decide (lot_instance_id l = owner) && (lot_instrument_id l =? instrument)%string && (lot_side l =? side)%string.
Definition lots_sum (l : list (StoredLot string)) : Q := qsum (map (λ o, tv (lot_remaining_qty o)) l).
Definition held (b : Books) (owner : option string) (instrument side : string) : Q :=
  lots_sum (List.filter (of_holding owner instrument side) (position_lots b)).

(** ** The lots of a page *)
Definition settle_all (changed : list (StoredLot D)) (o : StoredLot string) : StoredLot string :=
  foldl (λ o c, settle c o) o changed.
Lemma settle_own (c : StoredLot D) o : lot_id c = lot_id o → settle c o = with_quantity (exact (lot_remaining_qty c)) (exact (lot_cost c)) o.
Proof. intros E. unfold settle. by rewrite E, String.eqb_refl. Qed.
Lemma settle_other (c : StoredLot D) o : lot_id c ≠ lot_id o → settle c o = o.
Proof. intros E. unfold settle. by rewrite (proj2 (String.eqb_neq _ _)). Qed.
Lemma settle_all_id changed o : lot_id (settle_all changed o) = lot_id o.
Proof. revert o. induction changed as [|c changed IH]; intros o; [done|]. simpl. rewrite IH. unfold settle. by destruct (_ =? _)%string. Qed.
Lemma settle_all_other changed o : (∀ c, c ∈ changed → lot_id c ≠ lot_id o) → settle_all changed o = o.
Proof.
  induction changed as [|c changed IH]; intros Hn; [done|]. simpl.
  rewrite settle_other by (apply Hn; left). apply IH. intros. apply Hn. by right.
Qed.
Lemma settle_all_own changed c o :
  NoDup (map lot_id changed) → c ∈ changed → lot_id c = lot_id o →
  settle_all changed o = with_quantity (exact (lot_remaining_qty c)) (exact (lot_cost c)) o.
Proof.
  induction changed as [|x changed IH]; intros Hnd Hc Hid; [by apply elem_of_nil in Hc|]. simpl in *.
  apply NoDup_cons in Hnd as [Hx Hnd]. apply elem_of_cons in Hc as [->|Hc].
  - rewrite settle_own by done. apply settle_all_other. intros c Hc E. apply Hx. simpl in E.
    apply list_elem_of_fmap. exists c. split; [congruence|done].
  - rewrite settle_other; [by apply IH|]. intros E. apply Hx. apply list_elem_of_fmap. exists c. split; [congruence|done].
Qed.
Lemma ingest_lots_settle changed : ∀ b b',
  try_fold ingest_lot b changed = Ok b' → (∀ c, c ∈ changed → lot_id c ∈ map lot_id (position_lots b)) →
  position_lots b' = map (settle_all changed) (position_lots b).
Proof.
  induction changed as [|c changed IH]; intros b b' E Hin; simpl in E.
  { injection E as <-. symmetry. apply map_id. }
  apply bind_ok in E as (b1 & E1 & E). apply ingest_lot_cases in E1 as (_ & [(Hn & _)|(_ & E1)]).
  - exfalso. specialize (Hin c ltac:(left)). apply list_elem_of_fmap in Hin as (o & Ho & Hin).
    apply list_elem_of_In, (find_none _ _ Hn) in Hin. by rewrite <- Ho, String.eqb_refl in Hin.
  - rewrite (IH _ _ E); [|rewrite E1, settle_ids; intros; apply Hin; by right]. rewrite E1, map_map. done.
Qed.

(** ** Lists *)
Lemma qsum_Forall2 l1 l2 : Forall2 Qeq l1 l2 → (qsum l1 == qsum l2)%Q.
Proof. induction 1 as [|x y l1 l2 E _ IH]; simpl; [reflexivity|]. by rewrite E, IH. Qed.
Lemma Forall2_filter {A B} (R : A → B → Prop) (p : A → bool) (q : B → bool) l1 l2 :
  (∀ x y, R x y → p x = q y) → Forall2 R l1 l2 → Forall2 R (List.filter p l1) (List.filter q l2).
Proof.
  intros Hpq. induction 1 as [|x y l1 l2 E _ IH]; simpl; [constructor|]. rewrite (Hpq _ _ E). destruct (q y); [by constructor|done].
Qed.
Lemma find_unique {A} (key : A → string) l x :
  NoDup (map key l) → x ∈ l → List.find (λ y, (key y =? key x)%string) l = Some x.
Proof.
  induction l as [|y l IH]; intros Hnd Hx; [by apply elem_of_nil in Hx|]. simpl in *. apply NoDup_cons in Hnd as [Hy Hnd].
  apply elem_of_cons in Hx as [->|Hx]; [by rewrite String.eqb_refl|].
  rewrite (proj2 (String.eqb_neq _ _)); [by apply IH|]. intros E. apply Hy. apply list_elem_of_fmap. by exists x.
Qed.
Lemma key_unique {A} (key : A → string) l x y : NoDup (map key l) → x ∈ l → y ∈ l → key x = key y → x = y.
Proof.
  intros Hnd Hx Hy E. pose proof (find_unique key l x Hnd Hx) as F1. pose proof (find_unique key l y Hnd Hy) as F2. rewrite E in F1. congruence.
Qed.
Lemma filter_comp {A} (p q : A → bool) l : List.filter q (List.filter p l) = List.filter (λ x, p x && q x) l.
Proof. induction l as [|x l IH]; simpl; [done|]. destruct (p x); simpl; [|done]. by destruct (q x); rewrite IH. Qed.
Lemma lots_sum_split p l : (lots_sum l == lots_sum (List.filter p l) + lots_sum (List.filter (λ x, negb (p x)) l))%Q.
Proof. unfold lots_sum. induction l as [|x l IH]; simpl; [ring|]. destruct (p x); simpl; rewrite IH; ring. Qed.
Lemma lots_sum_zero l : (∀ o, o ∈ l → lot_remaining_qty o = "0") → (lots_sum l == 0)%Q.
Proof.
  unfold lots_sum. induction l as [|o l IH]; intros Hz; simpl; [reflexivity|]. rewrite (Hz o) by left.
  rewrite text_zero, IH; [ring|]. intros. apply Hz. by right.
Qed.

(** ** A lot that is read, reduced and written back *)
Definition reads (o : StoredLot string) (e : StoredLot D) : Prop :=
  lot_id e = lot_id o ∧ lot_instance_id e = lot_instance_id o ∧ lot_side e = lot_side o ∧ lot_instrument_id e = lot_instrument_id o
  ∧ tv (lot_remaining_qty o) = val (lot_remaining_qty e).
Lemma read_lot_reads o e : read_lot o = Ok e → reads o e.
Proof. unfold read_lot. intros E. inv_ok E. injection E as <-. unfold reads. simpl. split_and!; try done. by apply decimal_val. Qed.
Lemma changed_lot_id us (e c : StoredLot D) : changed_lot us e = Some c → lot_id c = lot_id e.
Proof.
  unfold changed_lot. destruct (List.find _ us) as [v|]; [|done]. simpl. destruct (dec_eqb (dec_abs (pl_signed_qty v)) _); [done|]. by intros [= <-].
Qed.
Lemma changed_ids us es : sublist (map lot_id (omap (changed_lot us) es)) (map (lot_id (D:=D)) es).
Proof.
  induction es as [|e es IH]; [constructor|]. simpl. destruct (changed_lot us e) as [c|] eqn:Ec; simpl; [|by constructor].
  rewrite (changed_lot_id _ _ _ Ec). by constructor.
Qed.
Lemma settle_value us es i o e u :
  NoDup (map lot_id es) → NoDup (map pl_lot_id us) → es !! i = Some e → us !! i = Some u → pl_lot_id u = lot_id e → reads o e →
  (tv (lot_remaining_qty (settle_all (omap (changed_lot us) es) o)) == size_of u)%Q.
Proof.
  intros Hnde Hndu He Hu Hid (Eid & _ & _ & _ & Eq).
  assert (Ec : changed_lot us e = if dec_eqb (dec_abs (pl_signed_qty u)) (lot_remaining_qty e) then None
                                  else Some (with_quantity (dec_abs (pl_signed_qty u)) (lot_cost e) e)).
  { unfold changed_lot. rewrite <- Hid, (find_unique pl_lot_id us u Hndu) by (by eapply list_elem_of_lookup_2). done. }
  destruct (dec_eqb _ _) eqn:Ez.
  - rewrite settle_all_other.
    + rewrite Eq. apply dec_eqb_val in Ez. rewrite <- Ez, abs_exact. reflexivity.
    + intros c (e' & He' & Hc)%list_elem_of_omap Eid'. rewrite <- Eid in Eid'.
      rewrite (changed_lot_id _ _ _ Hc) in Eid'. pose proof (key_unique lot_id es e' e Hnde He' (list_elem_of_lookup_2 _ _ _ He) Eid'). congruence.
  - rewrite (settle_all_own _ (with_quantity (dec_abs (pl_signed_qty u)) (lot_cost e) e)).
    + simpl. by rewrite text_val_exact, abs_exact.
    + exact (sublist_NoDup _ _ Hnde (changed_ids us es)).
    + apply list_elem_of_omap. exists e. split; [by eapply list_elem_of_lookup_2|done].
    + simpl. exact Eid.
Qed.

(** ** The lots that a reduction looks at *)
Definition live_holding (owner : string) (instrument side : string) (o : StoredLot string) : bool :=
  of_holding (Some owner) instrument side o && negb (lot_remaining_qty o =? "0")%string.
(** Rows of the table, as they are read and as positions *)
Record looked_at (b : Books) (owner instrument side : string) (rows : list (StoredLot string)) (es : list (StoredLot D))
    (lots : list (PositionLot D)) : Prop := {
  la_rows : rows ≡ₚ List.filter (live_holding owner instrument side) (position_lots b);
  la_read : Forall2 reads rows es;
  la_lots : Forall2 (λ e l, pl_lot_id l = lot_id e ∧ (size_of l == Qabs (val (lot_remaining_qty e)))%Q) es lots;
}.
Lemma reduction_looks b (f : Fill D) instance owner changed pnl :
  reduction b f instance = Ok (owner, changed, pnl) →
  ∃ id p rows es lots us rs, instance = Some owner ∧ fi_intent_id f = Some id ∧ plan (db (store b)) id = Ok p
  ∧ looked_at b owner (fi_instrument_id f) (ip_position_side p) rows es lots
  ∧ reduce_fifo lots owner (fi_instrument_id f) (fi_qty f) (fi_price f) = Ok (us, rs) ∧ changed = omap (changed_lot us) es.
Proof.
  unfold reduction. intros E. apply bind_ok in E as (o & Eo & E). apply ok_or_ok in Eo as ->.
  apply bind_ok in E as (id & Ei & E). apply ok_or_ok in Ei. apply bind_ok in E as (p & Ep & E).
  apply bind_ok in E as (active & Ea & E). apply bind_ok in E as (lots & El & E).
  apply bind_ok in E as ([us rs] & Er & E). apply bind_ok in E as (total & _ & [= -> <- <-]).
  unfold active_lots in Ea. set (A := sort_by _ _) in Ea. apply try_map_Forall2 in Ea.
  set (Q := λ o : StoredLot string, (lot_side o =? ip_position_side p)%string && bool_decide (lot_instance_id o = Some owner)).
  exists id, p, (List.filter Q A). eexists _, lots, us, rs. split_and!; [done|done|done| | |reflexivity].
  - split.
    + etransitivity; [apply filter_perm; unfold A; apply sort_by_perm|]. rewrite filter_comp.
      erewrite filter_ext; [reflexivity|]. intros o. unfold Q, live_holding, of_holding.
      destruct (lot_instrument_id o =? _)%string, (bool_decide _), (lot_side o =? _)%string, (lot_remaining_qty o =? "0")%string; done.
    + eapply Forall2_filter; [|eapply Forall2_impl; [exact Ea|apply read_lot_reads]].
      intros o e (_ & E1 & E2 & _). unfold Q. by rewrite E1, E2.
    + apply try_map_Forall2 in El. eapply Forall2_impl; [exact El|]. intros e l E. unfold position_lot in E. inv_ok E. injection E as <-.
      split; [done|]. unfold size_of. simpl. destruct (_ =? _)%string; [reflexivity|]. by rewrite neg_exact, Qabs_opp.
  - unfold lots_result, map_err in Er. by destruct (reduce_fifo _ _ _ _ _); [injection Er as ->|].
Qed.

Section looked.
Context {b : Books} {owner instrument side : string} {rows : list (StoredLot string)} {es : list (StoredLot D)} {lots us : list (PositionLot D)}.
Hypothesis looked : looked_at b owner instrument side rows es lots.
Hypothesis sound_lots : lots_ok (D:=D) b.
Hypothesis same_shape : Forall2 (λ l l', ∃ d, l' = with_qty d l) lots us.
Notation changed := (omap (changed_lot us) es).
Lemma rows_in o : o ∈ rows ↔ o ∈ position_lots b ∧ live_holding owner instrument side o = true.
Proof. destruct looked as [Hp _ _]. by rewrite Hp, !list_elem_of_In, filter_In. Qed.
Lemma rows_ids : NoDup (map lot_id rows).
Proof.
  destruct looked as [Hp _ _], sound_lots as [Hnd _].
  rewrite (fmap_Permutation lot_id _ _ Hp). revert Hnd. generalize (position_lots b). intros l.
  induction l as [|o l IH]; simpl; [done|]. intros [Ho Hnd]%NoDup_cons. destruct (live_holding _ _ _ o); [|by apply IH].
  simpl. apply NoDup_cons. split; [|by apply IH]. intros (x & Ex & Hx)%list_elem_of_fmap. apply Ho.
  apply list_elem_of_fmap. exists x. split; [done|]. apply list_elem_of_In in Hx. apply filter_In in Hx as [Hx _]. by apply list_elem_of_In.
Qed.
Lemma es_ids : map lot_id es = map lot_id rows.
Proof. destruct looked as [_ Hr _]. clear -Hr. induction Hr as [|o e rs es' [Eid _] _ IH]; [done|]. simpl. by rewrite Eid, IH. Qed.
Lemma us_ids : map pl_lot_id us = map lot_id rows.
Proof.
  rewrite <- es_ids. destruct looked as [_ _ Hl]. clear -Hl same_shape. revert us same_shape.
  induction Hl as [|e l es' ls [Eid _] _ IH]; intros us Hs; [by apply Forall2_nil_inv_l in Hs as ->|].
  apply Forall2_cons_inv_l in Hs as (u & us' & [d ->] & Hs & ->). simpl. by rewrite Eid, (IH us').
Qed.
Lemma changed_in c : c ∈ changed → ∃ o, o ∈ rows ∧ lot_id c = lot_id o.
Proof.
  intros (e & He & Hc)%list_elem_of_omap. rewrite (changed_lot_id _ _ _ Hc).
  assert (lot_id e ∈ map lot_id rows) as Hin by (rewrite <- es_ids; apply list_elem_of_fmap; by exists e).
  apply list_elem_of_fmap in Hin as (o & Eo & Ho). by exists o.
Qed.
Lemma others_stay o : o ∈ position_lots b → live_holding owner instrument side o = false → settle_all changed o = o.
Proof.
  intros Ho Hl. apply settle_all_other. intros c Hc E. apply changed_in in Hc as (o' & Ho' & E').
  apply rows_in in Ho' as [Hin Hlive]. destruct sound_lots as [Hnd _].
  assert (o = o') as Eo by (apply (key_unique lot_id (position_lots b)); [done..|by rewrite <- E, <- E']). congruence.
Qed.
Lemma rows_after : (lots_sum (map (settle_all changed) rows) == qsum (map size_of us))%Q.
Proof.
  unfold lots_sum. rewrite map_map. apply qsum_Forall2. apply Forall2_fmap_2, Forall2_same_length_lookup_2.
  - by rewrite <- (length_map lot_id rows), <- us_ids, length_map.
  - intros i o u Ho Hu. destruct looked as [_ Hr _]. destruct (Forall2_lookup_l _ _ _ _ _ Hr Ho) as (e & He & Hre).
    apply (settle_value us es i o e u); [by rewrite es_ids; apply rows_ids|by rewrite us_ids; apply rows_ids|done..| |done].
    pose proof us_ids as Eu. rewrite <- es_ids in Eu. pose proof (f_equal (λ l, l !! i) Eu) as El. simpl in El.
    rewrite !list_lookup_fmap, Hu, He in El. by injection El.
Qed.
Lemma rows_before : (lots_sum rows == qsum (map size_of lots))%Q.
Proof.
  unfold lots_sum. apply qsum_Forall2. apply Forall2_fmap_2. destruct looked as [_ Hr Hl], sound_lots as [_ Hpos].
  assert (Hpos' : ∀ o, o ∈ rows → (0 <= tv (lot_remaining_qty o))%Q) by (intros o [Ho _]%rows_in; by apply Hpos).
  clear -Hr Hl Hpos'. revert lots Hl. induction Hr as [|o e rs es' (_ & _ & _ & _ & Eq) _ IH]; intros lots Hl; [by apply Forall2_nil_inv_l in Hl as ->; constructor|].
  apply Forall2_cons_inv_l in Hl as (l & ls & [_ El] & Hl & ->). constructor; [|apply IH; [intros; apply Hpos'; by right|done]].
  rewrite El, <- Eq. symmetry. apply Qabs_pos. apply Hpos'. left.
Qed.
(** What the owner holds is what is looked at; the rest of the table stays. *)
Lemma held_rows (g : StoredLot string → StoredLot string) :
  (∀ o, of_holding (Some owner) instrument side (g o) = of_holding (Some owner) instrument side o) →
  (∀ o, o ∈ position_lots b → live_holding owner instrument side o = false → g o = o) →
  (lots_sum (List.filter (of_holding (Some owner) instrument side) (map g (position_lots b))) == lots_sum (map g rows))%Q.
Proof.
  intros Hg Hstay.
  assert (List.filter (of_holding (Some owner) instrument side) (map g (position_lots b))
          = map g (List.filter (of_holding (Some owner) instrument side) (position_lots b))) as ->.
  { clear -Hg. induction (position_lots b) as [|o l IH]; simpl; [done|]. rewrite Hg. destruct (of_holding _ _ _ o); simpl; by rewrite IH. }
  assert (∀ l, lots_sum (map g l) == lots_sum (map g (List.filter (λ o, negb (lot_remaining_qty o =? "0")%string) l))
    + lots_sum (map g (List.filter (λ o, negb (negb (lot_remaining_qty o =? "0")%string)) l)))%Q as Hsplit.
  { intros l. unfold lots_sum. induction l as [|x l IH]; simpl; [ring|]. destruct (_ =? _)%string; simpl; rewrite IH; ring. }
  rewrite Hsplit, !filter_comp.
  assert (lots_sum (map g (List.filter (λ x, of_holding (Some owner) instrument side x && negb (negb (lot_remaining_qty x =? "0")%string)) (position_lots b))) == 0)%Q as ->.
  { apply lots_sum_zero. intros o (x & -> & Hx)%list_elem_of_fmap. apply list_elem_of_In, filter_In in Hx as [Hx [_ Hz]%andb_true_iff].
    rewrite negb_involutive in Hz. rewrite Hstay; [by apply String.eqb_eq|by apply list_elem_of_In|].
    unfold live_holding. rewrite Hz. apply andb_false_r. }
  rewrite Qplus_0_r. unfold lots_sum. apply qsum_perm. destruct looked as [Hp _ _].
  do 2 apply fmap_Permutation. by rewrite Hp.
Qed.
Lemma settle_holding o : of_holding (Some owner) instrument side (settle_all changed o) = of_holding (Some owner) instrument side o.
Proof.
  generalize changed. intros l. revert o. induction l as [|c l IH]; intros o; [done|]. simpl. rewrite IH. unfold settle. by destruct (_ =? _)%string.
Qed.
Lemma held_after : (lots_sum (List.filter (of_holding (Some owner) instrument side) (map (settle_all changed) (position_lots b)))
  == qsum (map size_of us))%Q.
Proof. rewrite <- rows_after. apply held_rows; [apply settle_holding|apply others_stay]. Qed.
Lemma held_before : (held b (Some owner) instrument side == qsum (map size_of lots))%Q.
Proof.
  rewrite <- rows_before. unfold held. rewrite <- (map_id (position_lots b)), <- (map_id rows). by apply held_rows.
Qed.

(** The sums of [reduce_fifo] are sums of quantities of the table. *)
Definition quantity_of (l : PositionLot D) : Q :=
  match List.find (λ o, (lot_id o =? pl_lot_id l)%string) rows with Some o => tv (lot_remaining_qty o) | None => 0 end.
Lemma quantity_exact : Forall2 (λ o l, quantity_of l = tv (lot_remaining_qty o) ∧ (size_of l == quantity_of l)%Q) rows lots.
Proof.
  pose proof rows_ids as Hids. destruct looked as [_ Hr Hl], sound_lots as [_ Hpos].
  apply Forall2_same_length_lookup_2; [by rewrite (Forall2_length _ _ _ Hr), (Forall2_length _ _ _ Hl)|].
  intros i o l Ho Hi. destruct (Forall2_lookup_l _ _ _ _ _ Hr Ho) as (e & He & (Eid & _ & _ & _ & Eq)).
  destruct (Forall2_lookup_l _ _ _ _ _ Hl He) as (l' & Hl' & [Eid' Es]). rewrite Hi in Hl'. injection Hl' as <-.
  apply list_elem_of_lookup_2 in Ho.
  assert (quantity_of l = tv (lot_remaining_qty o)) as E.
  { unfold quantity_of. rewrite Eid', Eid, (find_unique lot_id rows o Hids Ho). done. }
  split; [done|]. rewrite E, Es, <- Eq. apply Qabs_pos. apply rows_in in Ho as [Ho _]. by apply Hpos.
Qed.
Lemma selection_sums k :
  ∃ l, l ⊆+ map (λ o, tv (lot_remaining_qty o)) (position_lots b) ∧ (qsum (take k (sizes (selection owner instrument lots))) == qsum l)%Q.
Proof.
  set (sub := take k (map snd (selection owner instrument lots))). exists (map quantity_of sub).
  assert (Hsub : sub ⊆+ lots).
  { etransitivity; [apply sublist_submseteq, sublist_take|]. unfold selection.
    rewrite (fmap_Permutation snd _ _ (sort_by_perm _ _)).
    pose proof (map_filter_imap (λ l : PositionLot D, l) (reducible owner instrument) lots) as Em. rewrite map_id in Em.
    etransitivity; [apply Permutation_submseteq, (reflexive_eq _ _ Em)|].
    apply sublist_submseteq. clear. induction lots as [|l ls IH]; simpl; [done|]. destruct (reducible _ _ l); by constructor. }
  split.
  - etransitivity; [apply fmap_submseteq, Hsub|].
    assert (quantity_of <$> lots = (λ o, tv (lot_remaining_qty o)) <$> rows) as ->.
    { pose proof quantity_exact as Hq. clear -Hq. generalize dependent quantity_of. intros f Hq.
      induction Hq as [|o l rs ls [E _] _ IH]; [done|]. by rewrite !fmap_cons, E, IH. }
    apply fmap_submseteq. destruct looked as [Hp _ _]. rewrite Hp. apply sublist_submseteq.
    clear. induction (position_lots b) as [|o l IH]; simpl; [done|]. destruct (live_holding _ _ _ o); by constructor.
  - unfold sizes. apply qsum_Forall2.
    change (map (λ il, size_of il.2) (selection owner instrument lots)) with ((λ il : nat * PositionLot D, size_of il.2) <$> selection owner instrument lots).
    rewrite <- fmap_take. unfold sub. rewrite <- fmap_take, map_map. apply Forall2_fmap_2, Forall_Forall2_diag, Forall_forall.
    intros [i l] Hl. apply (list_elem_of_fmap_2 snd) in Hl. rewrite fmap_take in Hl. fold sub in Hl. apply (elem_of_submseteq _ _ _ Hl) in Hsub.
    pose proof quantity_exact as Hq. apply list_elem_of_lookup in Hsub as [j Hj]. simpl in Hj.
    destruct (Forall2_lookup_r _ _ _ _ _ Hq Hj) as (o & _ & _ & E). exact E.
Qed.
End looked.

(** Whose lots a fill moves, and on which side *)
Definition moves (b : Books) (f : Fill D) (effect : FillEffect) (owner : option string) (side : string) : Prop :=
  match fi_intent_id f with
  | Some id => ∃ instr, intent_owner (db (store b)) id = Ok (owner, instr)
  | None => owner = None
  end
  ∧ match effect with
    | Open side' => side = side'
    | Reduce => ∃ id p, fi_intent_id f = Some id ∧ plan (D:=D) (db (store b)) id = Ok p ∧ side = ip_position_side p
    end.
Definition change_of (f : Fill D) (effect : FillEffect) : Q :=
  match effect with Open _ => val (fi_qty f) | Reduce => - val (fi_qty f) end.
Lemma owner_read b (f : Fill D) (instance : option string) :
  match fi_intent_id f with Some id => o ← intent_owner (db (store b)) id; Ok o.1 | None => Ok None end = Ok instance →
  match fi_intent_id f with Some id => ∃ instr, intent_owner (db (store b)) id = Ok (instance, instr) | None => instance = None end.
Proof.
  destruct (fi_intent_id f) as [id|]; [|by intros [= <-]]. intros E. apply bind_ok in E as ([o i] & -> & [= <-]). by exists i.
Qed.
Lemma moved_lots b b' (f : Fill D) effect cursor existing page c new :
  lots_ok (D:=D) b → attributed_page b f effect cursor existing = Ok page → page_effect page b b' c new →
  grid (val (fi_qty f)) → (∀ o, o ∈ position_lots b → grid (tv (lot_remaining_qty o))) →
  (∀ l, l ⊆+ map (λ o, tv (lot_remaining_qty o)) (position_lots b) → representable (qsum l)) →
  match effect with Open _ => List.find (λ o, (lot_id o =? "lot:" +:+ fi_fill_id f)%string) (position_lots b) = None | Reduce => True end →
  ∃ owner side, moves b f effect owner side
  ∧ (held b' owner (fi_instrument_id f) side == held b owner (fi_instrument_id f) side + change_of f effect)%Q
  ∧ ∀ o, o ∈ position_lots b → of_holding owner (fi_instrument_id f) side o = false → o ∈ position_lots b'.
Proof.
  intros Hlots E Hpe Hgf Hgl Hrep Hfresh. destruct (pe_lots _ _ _ _ _ Hpe) as (b1 & b2 & B1 & B2 & B3).
  unfold attributed_page in E. apply bind_ok in E as (instance & Ei & E). apply owner_read in Ei. destruct effect as [side|].
  - inv_if E. injection E as <-. simpl in B2. apply bind_ok in B2 as (b3 & B2 & [= <-]).
    apply ingest_lot_cases in B2 as (_ & [(_ & B2)|([x Hx] & _)]); [|rewrite B1 in Hx; simpl in Hx; congruence].
    exists instance, side. split; [done|]. unfold held. rewrite B3, B2, B1. split.
    + rewrite List.filter_app. unfold lots_sum. rewrite map_app, qsum_app. unfold of_holding at 2. simpl.
      rewrite bool_decide_true, !String.eqb_refl by done. simpl. rewrite text_val_exact. ring.
    + intros o Ho _. apply elem_of_app. by left.
  - apply bind_ok in E as ([[owner lots] pnl] & Er & [= <-]). simpl in B2.
    apply reduction_looks in Er as (id & p & rows & es & ls & us & rs & -> & Hid & Hp & Hla & Hf & ->).
    assert (Hshape : (qsum (map size_of us) == qsum (map size_of ls) - val (fi_qty f))%Q ∧ Forall2 (λ l l', ∃ d, l' = with_qty d l) ls us).
    { apply (reduce_fifo_total grid grid_proper grid_sub grid_exact _ _ _ _ _ _ _ Hf); [done| |].
      - intros l Hl. apply list_elem_of_lookup in Hl as [i Hl]. pose proof (quantity_exact Hla Hlots) as Hq.
        destruct (Forall2_lookup_r _ _ _ _ _ Hq Hl) as (o & Ho & E1 & E2). eapply grid_proper; [symmetry; exact E2|]. rewrite E1.
        apply Hgl. apply list_elem_of_lookup_2 in Ho. by apply (rows_in Hla) in Ho as [Ho _].
      - intros k. destruct (selection_sums Hla Hlots k) as (l & Hl & E). eapply representable_proper; [symmetry; exact E|by apply Hrep]. }
    destruct Hshape as [Htotal Hshape].
    apply ingest_lots_settle in B2.
    + exists (Some owner), (ip_position_side p). split; [split; [done|by exists id, p]|]. unfold held at 1. rewrite B3, B2, B1. split.
      * rewrite (held_after Hla Hlots Hshape), (held_before Hla Hlots), Htotal. simpl. ring.
      * intros o Ho Hn. apply list_elem_of_fmap. exists o. split; [|done]. symmetry. apply (others_stay Hla Hlots); [done|].
        unfold live_holding. by rewrite Hn.
    + intros x Hx. rewrite B1. apply (changed_in Hla) in Hx as (o & Ho & ->). apply list_elem_of_fmap. exists o.
      split; [done|]. by apply (rows_in Hla) in Ho as [Ho _].
Qed.

(** C15: A fill that is accepted and was not applied before moves exactly its quantity on the
    lots of its owner: an opening fill adds it on its side, a reducing fill takes it from the
    side of its plan, and no lot of anybody else, of another instrument or of the other side
    changes.  Quantities lie on a grid on which the decimals subtract exactly. *)
Theorem fill_moves_holding m x s0 s wall (f : Fill D) effect cursor s' :
  initialize_flat m x = Ok s0 → rtc account_step s0 s →
  ingest_attributed_fill wall f effect cursor s = (s', Ok tt) → ~ applied f (books s) →
  grid (val (fi_qty f)) → (∀ o, o ∈ position_lots (books s) → grid (tv (lot_remaining_qty o))) →
  (∀ l, l ⊆+ map (λ o, tv (lot_remaining_qty o)) (position_lots (books s)) → representable (qsum l)) →
  match effect with
  | Open _ => List.find (λ o, (lot_id o =? "lot:" +:+ fi_fill_id f)%string) (position_lots (books s)) = None
  | Reduce => True
  end →
  ∃ owner side, moves (books s) f effect owner side
  ∧ (held (books s') owner (fi_instrument_id f) side == held (books s) owner (fi_instrument_id f) side + change_of f effect)%Q
  ∧ ∀ o, o ∈ position_lots (books s) → of_holding owner (fi_instrument_id f) side o = false → o ∈ position_lots (books s').
Proof.
  intros Hg Hr E Hna Hgf Hgl Hrep Hfresh.
  assert (lots_ok (D:=D) (books s)) as Hlots.
  { apply (lt_lots _ _ (later_steps _ _ Hr)). by eapply initial_lots. }
  unfold ingest_attributed_fill in E. destruct (_ && _) eqn:Ec.
  - destruct Hna. apply andb_true_iff in Ec as [Hex Hp]. apply ingest_page_effect in E as (c & new & Hpe).
    apply (applied_before _ _ _ (pe_fills _ _ _ _ _ Hpe f ltac:(left)) (proj1 (pe_grows _ _ _ _ _ Hpe)) Hex).
    by destruct (fill_pending (books s) !! fi_fill_id f).
  - destruct (attributed_page _ _ _ _ _) as [page|e] eqn:Ea; [|done]. apply ingest_page_effect in E as (c & new & Hpe).
    by eapply moved_lots.
Qed.
End holdings.
