(* ===== verification/BooksDemo.v ===== *)
(** * BooksDemo: a strategy that trades, on the concrete decimal

    The account of [BooksSafety] with two intents of the strategy ["s1"], one that opens and
    one that closes: the fills of both, a fee that was captured under the key of its bill,
    and a loss that is charged, each with the theorem about it. *)
From stdpp Require Import base option list numbers strings gmap sets pretty relations.
From Stdlib Require Import ZArith QArith Lia Lqa String.
From S2P Require Import Prelude Text Ordered External Decimals Protocol Ledger Intents IntentSafety Instances TradeService Lots MoneyText Books BookFlows Capital BooksSums BooksSafety BooksFills Holdings.
Local Open Scope string_scope.
Local Open Scope list_scope.
Local Open Scope Z_scope.

Notation fx z := (Fixed.mk z 0).
Definition traded_intent : IntentRow := {|
  i_idempotency_key := "k"; i_request_hash := "h"; i_decision_id := "dec"; i_state := Filled; i_revision := 1;
  i_client_order_id := "c"; i_deadline := 5000; i_plan_hash := "p"; i_policy_revision := 1; i_risk_increase := true;
  i_instrument_id := "BTC"; i_created_at := 1500; i_updated_at := 1500; i_begin_post_at := Some 1600;
  i_exchange_order_id := None; i_incident := None |}.
Definition traded_plan (operation : string) : PlanRow := {|
  p_operation := operation; p_side := "buy"; p_quantity := "3"; p_limit_price := "100"; p_stop_price := None;
  p_strategy_instance := "s1"; p_planned_loss_usd := "1"; p_source_generation := 1; p_position_side := "long";
  p_private_source_generation := 1; p_contract_value := "1"; p_inverse := false; p_settlement_currency := "USDT";
  p_strategy_definition_id := "d"; p_strategy_definition_version := "1"; p_strategy_parameters_digest := "" |}.
Definition traded_store : Store :=
  let x := books_store books_start in {|
  db := with_plans {["i1" := traded_plan "open"; "i2" := traded_plan "close"]}
          (with_decisions [{| dn_decision_id := "dec"; dn_instance_id := Some "s1"; dn_decision_at := 1500; dn_input_digest := "";
                              dn_policy_revision := 1; dn_code_version := "" |}]
             (with_intents {["i1" := traded_intent; "i2" := traded_intent]} (db x)));
  allocations := allocations x; nav_scopes := nav_scopes x |}.
Definition traded_start : AccountStore Fixed.t := with_books (with_store traded_store (books books_start)) books_start.
Definition traded_fill (trade side : string) (intent : option string) (qty price : Z) : Fill Fixed.t := {|
  fi_side := side; fi_fill_id := "BTC:" +:+ trade +:+ ":o"; fi_instrument_id := "BTC"; fi_trade_id := trade;
  fi_exchange_order_id := "o"; fi_intent_id := intent; fi_time := 2000; fi_qty := fx qty; fi_price := fx price;
  fi_fee := fx (-1); fi_currency := "USDT" |}.
Definition opening_fill := traded_fill "t1" "buy" (Some "i1") 3 100.
Definition closing_fill := traded_fill "t2" "sell" (Some "i2") 2 110.
Definition traded_open : AccountStore Fixed.t := (ingest_attributed_fill 2000 opening_fill (Open "long") None traded_start).1.
Definition traded_closed : AccountStore Fixed.t := (ingest_attributed_fill 2000 closing_fill Reduce None traded_open).1.
Lemma traded_open_ok : ingest_attributed_fill 2000 opening_fill (Open "long") None traded_start = (traded_open, Ok tt).
Proof. vm_compute. reflexivity. Qed.
Lemma traded_closed_ok : ingest_attributed_fill 2000 closing_fill Reduce None traded_open = (traded_closed, Ok tt).
Proof. vm_compute. reflexivity. Qed.
Lemma traded_history : rtc account_step books_start traded_open.
Proof.
  eapply rtc_l; [exact (StepOrders _ traded_store)|]. apply rtc_once. exact (StepFill traded_start 2000 opening_fill (Open "long") None).
Qed.
Example traded_result :
  (map (λ l, (lot_id l, lot_remaining_qty l)) (position_lots (books traded_closed)),
   finance_totals_table (books traded_closed) !! ("USDT", "REALIZED_PNL"))
  = ([("lot:BTC:t1:o", "1")], Some "20").
Proof. vm_compute. reflexivity. Qed.

(** ** The fill of a close *)
Lemma fill_moves_holding_witness :
  (held (D:=Fixed.t) (books traded_open) (Some "s1") "BTC" "long" == 3)%Q
  ∧ ∃ owner side, moves (books traded_open) closing_fill Reduce owner side
    ∧ (held (D:=Fixed.t) (books traded_closed) owner "BTC" side == held (D:=Fixed.t) (books traded_open) owner "BTC" side + - (2))%Q
    ∧ ∀ o, o ∈ position_lots (books traded_open) → of_holding owner "BTC" side o = false → o ∈ position_lots (books traded_closed).
Proof.
  split; [vm_compute; reflexivity|].
  exact (fill_moves_holding (λ _, True) (λ _ _ _ _, I) (λ _ _ _ _ _, I) (λ _ _, I) books_meta books_opening books_start traded_open 2000
    closing_fill Reduce None traded_closed books_started traded_history traded_closed_ok
    ltac:(intros [Hf _]; vm_compute in Hf; discriminate Hf) I (λ _ _, I) (λ _ _, I) I).
Defined.
(** ** Offered again *)
Lemma fill_applied_once_witness :
  position_lots (books (ingest_attributed_fill 3000 opening_fill (Open "long") None traded_closed).1) = position_lots (books traded_closed).
Proof.
  refine (proj1 (fill_applied_once 2000 opening_fill (Open "long") None traded_start traded_open traded_closed traded_open_ok
    (rtc_once _ _ (StepFill traded_open 2000 closing_fill Reduce None)) 3000 opening_fill (Open "long") None _ _ _ (surjective_pairing _))).
  reflexivity.
Defined.

(** ** A fee under the key of its bill *)
Definition captured_fill := traded_fill "t3" "buy" (Some "i1") 3 100.
Definition captured_entry (instance : option string) : FinanceEntry Fixed.t := {|
  en_entry_id := "bill:9:fee"; en_economic_event_key := "bill:9"; en_component := "FEE"; en_allocation_leg := "account";
  en_amount := fx (-1); en_currency := "USDT"; en_instance_id := instance; en_source_ref := "fill:BTC:t3:o"; en_time := 2000;
  en_reverses_entry_id := None |}.
Definition captured_page (fill : Fill Fixed.t) (instance : option string) : IngestPage Fixed.t :=
  fill_page [fill] [captured_entry instance] [] [] None.
Definition captured_books : AccountStore Fixed.t :=
  (ingest_page_with_usd 2000 (captured_page captured_fill (Some "s1")) books_fx traded_start).1.
Example captured_refused :
  project_pending_fills 3000 100 captured_books = (captured_books, invalid "FINANCE_FILL_SOURCE_REUSED").
Proof. vm_compute. reflexivity. Qed.
(** The same fill when no strategy owns it: its fee is charged twice. *)
Definition external_fill := traded_fill "t3" "buy" None 3 100.
Example captured_twice :
  let s := (ingest_page_with_usd 2000 (captured_page external_fill None) books_fx traded_start).1 in
  let s' := (project_pending_fills 3000 100 s).1 in
  (finance_totals_table (books s) !! ("USDT", "FEE"), finance_totals_table (books s') !! ("USDT", "FEE"))
  = (Some "-1", Some "-2").
Proof. vm_compute. reflexivity. Qed.
Lemma captured_fee_blocks_projection_witness :
  ∃ e, project_pending_fills 3000 100 captured_books = (captured_books, Err e).
Proof.
  refine (proj2 (captured_fee_blocks_projection captured_books captured_books (fill_row captured_fill) "buy"
    (entry_row (captured_entry (Some "s1"))) "i1" "s1" "BTC" _ _ _ _ _ (rtc_refl _ _) _ _ _ 3000) 100%nat [] _).
  - vm_compute. reflexivity.
  - reflexivity.
  - intros Hz. vm_compute in Hz. discriminate Hz.
  - apply list_elem_of_lookup_2 with 0%nat. vm_compute. reflexivity.
  - split_and!; try reflexivity. vm_compute. discriminate.
  - vm_compute. reflexivity.
  - discriminate.
  - vm_compute. reflexivity.
  - vm_compute. reflexivity.
Defined.

(** ** A loss *)
Definition captured_result : AccountStore Fixed.t := captured_books.
Lemma captured_ok :
  ingest_page_with_usd 2000 (captured_page captured_fill (Some "s1")) books_fx traded_start = (captured_books, Ok tt).
Proof. vm_compute. reflexivity. Qed.
Lemma losses_are_charged_witness :
  charged books_fx (books traded_start) (books captured_books) (captured_entry (Some "s1")).
Proof.
  destruct (losses_are_charged 2000 (captured_page captured_fill (Some "s1")) books_fx traded_start captured_books captured_ok
    (fixed_sums_exact _)) as (new & _ & _ & Hc & _).
  apply Hc; [left|vm_compute; reflexivity].
Defined.
