(* ===== verification/Requests.v ===== *)
(** * Requests: the remaining public requests, [okx-protocol/src/trading.rs] and [analytics.rs]

    Strategy, portfolio, scenario, diagnostics, market and research requests with their
    [valid] methods.  [f64] is the binary64 of the Standard Library's [SpecFloat]; a text is
    read as [f64] by Rust's grammar and rounded once.  A JSON value is a parameter: what
    [serde_json] makes of one is the operation [from_value], its text [to_text].
    [research_bounded]: a valid study stays inside the bounds of the engine. *)
From stdpp Require Import base option list numbers strings gmap sets.
From Stdlib Require Import ZArith Lia Ascii String SpecFloat.
From S2P Require Import Prelude Text Ordered External EntryBudget Protocol.
Local Open Scope string_scope.
Local Open Scope list_scope.
Local Open Scope Z_scope.

(** ** [f64] *)
Definition f64 : Type := spec_float.
(** A literal, or [n as f64] *)
Definition f64_of_Z (n : Z) : f64 := binary_normalize 53 1024 n 0 false.
Definition is_finite (x : f64) : bool :=
  match x with S754_zero _ | S754_finite _ _ _ => true | S754_infinity _ | S754_nan => false end.
Definition f64_le : f64 → f64 → bool := SFleb.
Definition f64_lt : f64 → f64 → bool := SFltb.
Definition f64_eq : f64 → f64 → bool := SFeqb.
(** [f64::trunc]: the part before the point is exact, so nothing is rounded *)
Definition trunc (x : f64) : f64 :=
  match x with
  | S754_finite s m e =>
    if 0 <=? e then x else
    let n := Z.pos m / 2 ^ (- e) in binary_normalize 53 1024 (if s then - n else n) 0 s
  | _ => x
  end.
Definition fract (x : f64) : f64 := SFsub 53 1024 x (trunc x).

(** [str::parse::<f64>]: a sign, then [inf], [infinity], [nan] in any case, or digits with at
    most one point and an exponent; the exact value is rounded to the nearest, ties to even *)
Fixpoint take_digits (s : string) : string * string :=
  match s with
  | String a s' => if is_digit a then let '(d, r) := take_digits s' in (String a d, r) else ("", s)
  | EmptyString => ("", "")
  end.
Definition digits_value (s : string) : Z :=
  fold_left (λ n a, n * 10 + (Z.of_N (N_of_ascii a) - 48)) (list_ascii_of_string s) 0.
Definition take_sign (s : string) : bool * string :=
  match s with
  | String a s' =>
    if (a =? "-")%char then (true, s') else if (a =? "+")%char then (false, s') else (false, s)
  | EmptyString => (false, s)
  end.
Definition parse_exponent (s : string) : option Z :=
  match s with
  | EmptyString => Some 0
  | String a s' =>
    if (a =? "e")%char || (a =? "E")%char then
      let '(neg, s'') := take_sign s' in
      match take_digits s'' with
      | (String _ _ as d, EmptyString) => Some (if neg then - digits_value d else digits_value d)
      | _ => None
      end
    else None
  end.
Definition round_decimal (neg : bool) (m e : Z) : f64 :=
  match m with
  | Z.pos p =>
    if 0 <=? e then binary_normalize 53 1024 (if neg then - (m * 10 ^ e) else m * 10 ^ e) 0 neg
    else SFdiv 53 1024 (S754_finite neg p 0) (S754_finite false (Z.to_pos (10 ^ (- e))) 0)
  | _ => S754_zero neg
  end.
Definition lower_ascii (a : ascii) : ascii :=
  if is_upper a then ascii_of_N (N_of_ascii a + 32) else a.
Definition to_ascii_lowercase (s : string) : string :=
  string_of_list_ascii (map lower_ascii (list_ascii_of_string s)).
Definition parse_f64 (s : string) : option f64 :=
  let '(neg, r) := take_sign s in
  if one_of ["inf"; "infinity"] (to_ascii_lowercase r) then Some (S754_infinity neg)
  else if (to_ascii_lowercase r =? "nan")%string then Some S754_nan else
  let '(whole, r) := take_digits r in
  let '(fraction, r) :=
    match r with String a r' => if (a =? ".")%char then take_digits r' else ("", r) | _ => ("", r) end in
  if (whole =? "")%string && (fraction =? "")%string then None else
  e ← parse_exponent r;
  Some (round_decimal neg (digits_value (whole +:+ fraction)) (e - len fraction)).

(** ** [trading.rs]: strategies, portfolio, scenarios, diagnostics *)
Inductive CapitalDirection : Type := Assign | Release.
Inductive ActionClass : Type := Read | IncreaseRisk | ReduceRisk | Maintenance.
Inductive PortfolioAction : Type := Summary | PortfolioHistory.
Inductive DiagnosticsView : Type := Finance.

#[export] Instance ActionClass_eq_dec : EqDecision ActionClass.
Proof. solve_decision. Defined.

Section strategies.
  Context {Json : Type}.

Inductive StrategyRequest : Type :=
| StrategyList
| CapitalAssign (idempotency_key instance_id : string) (direction : CapitalDirection)
    (amount_usd : string) (expected_authority_revision : Z)
| StrategyStatus (instance_id : string)
| StrategyCreate (idempotency_key instance_id definition_id : string) (version : Z)
    (parameters : Json) (instruments : list string) (timeframe_ms : Z) (budget_usd : string)
| StrategyUpdate (idempotency_key instance_id : string) (expected_revision : Z)
    (parameters : Json) (budget_usd : string)
| StrategyStart (idempotency_key instance_id : string)
| StrategyStop (idempotency_key instance_id : string).

  (** [serde_json::from_value] and [Value::to_string] *)
  Variable from_value : Json → option StrategyParametersV1.
  Variable to_text : Json → string.

Definition parse (value : Json) : option StrategyParametersV1 :=
  parsed ← from_value value; if strategy_parameters_valid parsed then Some parsed else None.
Definition parameters_ok (parameters : Json) : bool :=
  is_some (parse parameters) && (len (to_text parameters) <=? 4096).
Definition strategy_request_valid (r : StrategyRequest) : bool :=
  match r with
  | StrategyList => true
  | StrategyStatus instance_id => name instance_id
  | CapitalAssign key instance_id _ amount_usd revision =>
    id key && name instance_id && negb (instance_id =? "manual")%string && decimal amount_usd
    && (0 <? revision)
  | StrategyStart key instance_id | StrategyStop key instance_id => id key && name instance_id
  | StrategyCreate key instance_id definition_id version parameters instruments timeframe_ms budget =>
    id key && name instance_id && name definition_id && (version =? 1)
    && parameters_ok parameters
    && (0 <? count instruments) && (count instruments <=? 32) && forallb name instruments
    && (1000 <=? timeframe_ms) && decimal budget
  | StrategyUpdate key instance_id _ parameters budget =>
    id key && name instance_id && parameters_ok parameters && decimal budget
  end.
End strategies.
Arguments StrategyRequest : clear implicits.

Record PortfolioRequest : Type := {
  pr_action : PortfolioAction;
  pr_accounts : list string;
  pr_start_ms : Z;
  pr_end_ms : Z;
  pr_strategies : option (list string);
  pr_currencies : option (list string);
  pr_cursor : option string;
  pr_limit : Z;
}.
Definition names_valid (v : list string) : bool := (count v <=? 32) && forallb name v.
Definition portfolio_request_valid (r : PortfolioRequest) : bool :=
  (0 <? count (pr_accounts r)) && (count (pr_accounts r) <=? 32) && forallb name (pr_accounts r)
  && (pr_start_ms r <? pr_end_ms r) && within 1 50 (pr_limit r)
  && is_none_or (λ v, len v <=? 512) (pr_cursor r)
  && is_none_or names_valid (pr_strategies r) && is_none_or names_valid (pr_currencies r).

Record ScenarioPosition : Type := {
  sp_instrument : string;
  sp_side : PositionSide;
  sp_notional_usd : string;
  sp_margin_usd : string;
  sp_price_shock_bps : Z;
  sp_volatility_bps : Z;
  sp_liquidity_cost_bps : Z;
}.
Record ScenarioCorrelation : Type := { sc_left : Z; sc_right : Z; sc_rho : f64 }.
Record PortfolioScenarioRequest : Type := {
  psr_equity_usd : string;
  psr_positions : list ScenarioPosition;
  psr_correlations : list ScenarioCorrelation;
}.
Definition scenario_position_ok (p : ScenarioPosition) : bool :=
  name (sp_instrument p) && decimal (sp_notional_usd p) && decimal (sp_margin_usd p)
  && within (-10000) 10000 (sp_price_shock_bps p) && (sp_volatility_bps p <=? 10000)
  && (sp_liquidity_cost_bps p <=? 10000).
(** The loop over the correlations with the pairs seen so far *)
Fixpoint correlations_ok (positions : Z) (pairs : gset (Z * Z)) (l : list ScenarioCorrelation) : bool :=
  match l with
  | [] => true
  | c :: l' =>
    if (sc_right c <=? sc_left c) || (positions <=? sc_right c) || negb (is_finite (sc_rho c))
       || negb (f64_le (f64_of_Z (-1)) (sc_rho c) && f64_le (sc_rho c) (f64_of_Z 1))
       || bool_decide ((sc_left c, sc_right c) ∈ pairs)
    then false else correlations_ok positions ({[(sc_left c, sc_right c)]} ∪ pairs) l'
  end.
Definition portfolio_scenario_valid (r : PortfolioScenarioRequest) : bool :=
  let n := count (psr_positions r) in
  if negb (decimal (psr_equity_usd r)) || (n =? 0) || (8 <? n)
     || negb (count (psr_correlations r) =? n * (n - 1) / 2)
  then false else
  if negb (forallb scenario_position_ok (psr_positions r)) then false else
  correlations_ok n ∅ (psr_correlations r).

Record DiagnosticsRequest : Type := {
  dr_reference : option string;
  dr_account : option string;
  dr_view : option DiagnosticsView;
  dr_cycle_id : option Z;
  dr_limit : option Z;
}.
Definition diagnostics_request_valid (r : DiagnosticsRequest) : bool :=
  is_some_and name (dr_reference r) || is_some_and name (dr_account r).

(** ** [analytics.rs] *)
Inductive RangeMode : Type := Strict | Normalize.
Inductive MarketAction : Type := Screen | Compare.
Inductive FundingMode : Type := ObservedFunding | ZeroAssumption.
Inductive ResearchDataMode : Type := HistoricalObserved | Counterfactual.
Inductive ResearchResultView : Type :=
  Trades | SummaryView | Variants | Equity | Export.

Record MarketUniverse : Type := {
  mu_instrument_type : string;
  mu_rank_globally : bool;
  mu_settle_currency : option string;
  mu_after_instrument : option string;
  mu_reference_generation : option string;
  mu_limit : Z;
}.
Record MarketFilter : Type := { mf_field : string; mf_min : option f64; mf_max : option f64 }.
Record MarketSort : Type := { ms_field : string; ms_descending : bool }.
Record MarketRequest : Type := {
  mr_action : MarketAction;
  mr_instruments : list string;
  mr_universe : option MarketUniverse;
  mr_fields : list string;
  mr_timeframe_ms : Z;
  mr_start_ms : Z;
  mr_end_ms : Z;
  mr_limit : Z;
  mr_cursor : option string;
  mr_parameters : gmap string f64;
  mr_filters : list MarketFilter;
  mr_sort : option MarketSort;
}.
Record EmaParameters : Type := { ema_fast : Z; ema_slow : Z }.
Record ResearchCosts : Type := {
  rc_maker_fee_bps : f64;
  rc_taker_fee_bps : f64;
  rc_slippage_bps : f64;
  rc_funding_mode : FundingMode;
}.
Inductive ResearchRequest : Type :=
| ResearchCapabilities
| Benchmark (idempotency_key : string)
| Validate (instruments : list string) (timeframe_ms start_ms end_ms : Z) (range_mode : RangeMode)
    (strategy_id : string) (parameters : EmaParameters) (costs : ResearchCosts)
    (data_mode : ResearchDataMode)
| Backtest (idempotency_key : string) (instruments : list string) (timeframe_ms start_ms end_ms : Z)
    (strategy_id : string) (parameters : EmaParameters) (costs : ResearchCosts)
    (data_mode : ResearchDataMode) (seed : Z)
| Grid (idempotency_key : string) (instruments : list string) (timeframe_ms start_ms end_ms : Z)
    (strategy_id : string) (variants : list EmaParameters) (costs : ResearchCosts)
    (data_mode : ResearchDataMode) (seed : Z)
| ResearchStatus (job_id : string)
| ResearchCancel (job_id idempotency_key : string)
| ResearchResult (job_id : string) (cursor : option string) (limit : Z) (view : ResearchResultView).

(** [u8::is_ascii_graphic] *)
Definition is_graphic : ascii → bool := byte_in 33 126.
Definition bounded_text (max : Z) (s : string) : bool := negb (s =? "")%string && (len s <=? max).

Definition market_universe_valid (u : MarketUniverse) : bool :=
  one_of ["SPOT"; "SWAP"; "FUTURES"] (mu_instrument_type u) && within 1 100 (mu_limit u)
  && is_none_or (λ s, bounded_text 16 s && bytes_all (λ a, is_upper a || is_digit a) s)
       (mu_settle_currency u)
  && (negb (mu_rank_globally u) || negb (is_some (mu_after_instrument u)))
  && is_none_or (λ s, bounded_text 64 s
                      && bytes_all (λ a, is_upper a || is_digit a || (a =? "-")%char) s)
       (mu_after_instrument u)
  && is_none_or (λ s, bounded_text 128 s && bytes_all is_graphic s) (mu_reference_generation u).

Definition valid_range (ms start end_ : Z) : bool :=
  existsb (Z.eqb ms) [60000; 180000; 300000; 900000; 1800000; 3600000; 14400000; 86400000]
  && (start <? end_) && ((end_ - start) / ms <=? 1000000).

Definition parameter_ok (kv : string * f64) : bool :=
  let '(key, v) := kv in
  is_finite v
  && (if one_of ["ema_period"; "atr_period"; "rsi_period"] key then
        f64_le (f64_of_Z 1) v && f64_le v (f64_of_Z 1000) && f64_eq (fract v) (f64_of_Z 0)
      else if one_of ["budget"; "price"] key then f64_lt (f64_of_Z 0) v
      else if (key =? "stop_distance")%string then f64_lt (f64_of_Z 0) v && f64_lt v (f64_of_Z 1)
      else if (key =? "notional")%string then f64_le (f64_of_Z 0) v
      else if one_of ["fee_bps"; "slippage_bps"] key then
        f64_le (f64_of_Z 0) v && f64_le v (f64_of_Z 10000)
      else false).
Definition filter_ok (fields : list string) (f : MarketFilter) : bool :=
  one_of fields (mf_field f) && is_none_or is_finite (mf_min f) && is_none_or is_finite (mf_max f)
  && match mf_min f, mf_max f with Some min, Some max => f64_le min max | _, _ => true end.
Definition market_options (r : MarketRequest) : bool :=
  (Z.of_nat (size (mr_parameters r)) <=? 9) && forallb parameter_ok (map_to_list (mr_parameters r))
  && (count (mr_filters r) <=? 14) && forallb (filter_ok (mr_fields r)) (mr_filters r)
  && is_none_or (λ s, one_of (mr_fields r) (ms_field s)) (mr_sort r).

Definition market_request_valid (r : MarketRequest) : bool :=
  ((negb (is_some (mr_universe r)) && (0 <? count (mr_instruments r)))
   || (match mr_action r with Screen => true | Compare => false end
       && (count (mr_instruments r) =? 0) && is_some_and market_universe_valid (mr_universe r)))
  && (count (mr_instruments r) <=? 100)
  && is_none_or (λ u, negb (mu_rank_globally u)
                      || (is_some (mr_sort r) && negb (one_of (mr_fields r) "pearson_correlation")))
       (mr_universe r)
  && forallb (bounded_text 64) (mr_instruments r)
  && (0 <? mr_limit r) && (mr_limit r <=? 50) && market_options r
  && valid_range (mr_timeframe_ms r) (mr_start_ms r) (mr_end_ms r)
  && (0 <? count (mr_fields r)) && (count (mr_fields r) <=? 14)
  && forallb (λ f, bounded_text 64 f && bytes_all (λ a, is_lower a || (a =? "_")%char) f) (mr_fields r).

Definition ema_parameters_valid (p : EmaParameters) : bool :=
  (1 <=? ema_fast p) && (ema_fast p <? ema_slow p) && (ema_slow p <=? 1000).
Definition research_costs_valid (c : ResearchCosts) : bool :=
  forallb (λ n, is_finite n && f64_le (f64_of_Z 0) n && f64_le n (f64_of_Z 10000))
    [rc_maker_fee_bps c; rc_taker_fee_bps c; rc_slippage_bps c].
Definition valid_job (id : string) : bool :=
  (len id =? 64) && bytes_all (λ a, is_hex a || byte_in 65 70 a) id.

(** The bound on the bars of all instruments together, with [saturating_mul] *)
Definition bars_of (instruments : list string) (timeframe_ms start_ms end_ms : Z) : Z :=
  Z.min u64_max ((end_ms - start_ms) / timeframe_ms * count instruments).
(** The conditions [Backtest] and [Grid] repeat *)
Definition study_valid (key : string) (instruments : list string) (timeframe_ms start_ms end_ms : Z)
    (strategy_id : string) : bool :=
  bounded_text 128 key && (0 <? count instruments) && (count instruments <=? 8)
  && forallb (bounded_text 64) instruments && (distinct_count instruments =? count instruments)
  && valid_range timeframe_ms start_ms end_ms
  && (bars_of instruments timeframe_ms start_ms end_ms <=? 1000000)
  && one_of ["ema_cross_v1"; "no_trade"; "close_momentum"; "two_bar_momentum"] strategy_id.
Definition backtest_valid (key : string) (instruments : list string) (timeframe_ms start_ms end_ms : Z)
    (strategy_id : string) (parameters : EmaParameters) (costs : ResearchCosts) : bool :=
  study_valid key instruments timeframe_ms start_ms end_ms strategy_id
  && ema_parameters_valid parameters && research_costs_valid costs.

Definition research_request_valid (r : ResearchRequest) : bool :=
  match r with
  | ResearchCapabilities => true
  | Benchmark key => id key
  | Validate instruments timeframe_ms start_ms end_ms _ strategy_id parameters costs _ =>
    backtest_valid "validation_only" instruments timeframe_ms start_ms end_ms strategy_id parameters costs
  | Backtest key instruments timeframe_ms start_ms end_ms strategy_id parameters costs _ _ =>
    backtest_valid key instruments timeframe_ms start_ms end_ms strategy_id parameters costs
  | Grid key instruments timeframe_ms start_ms end_ms strategy_id variants costs _ _ =>
    study_valid key instruments timeframe_ms start_ms end_ms strategy_id
    && (0 <? count variants) && (count variants <=? 64) && forallb ema_parameters_valid variants
    && research_costs_valid costs
  | ResearchStatus job_id => valid_job job_id
  | ResearchCancel job_id key => valid_job job_id && bounded_text 128 key
  | ResearchResult job_id _ limit _ => valid_job job_id && (0 <? limit) && (limit <=? 50)
  end.

(** ** Facts *)
Lemma distinct_count_NoDup l : distinct_count l = count l → NoDup l.
Proof.
  unfold distinct_count, count. intros H%Nat2Z.inj. induction l as [|x l IH]; [constructor|].
  simpl in H. destruct (decide (x ∈ (list_to_set l : gset string))) as [Hx|Hx].
  - rewrite subseteq_union_1_L in H by set_solver. exfalso.
    assert ((size (list_to_set l : gset string) ≤ List.length l)%nat); [|lia].
    clear. induction l as [|y l IH]; simpl; [done|].
    rewrite size_union_alt, size_singleton. assert (Hd : (size ((list_to_set l : gset string) ∖ {[y]}) ≤ size (list_to_set l : gset string))%nat)
      by (apply subseteq_size; set_solver). lia.
  - rewrite size_union, size_singleton in H by set_solver. constructor; [by rewrite elem_of_list_to_set in Hx|].
    apply IH. lia.
Qed.

(** A valid backtest, grid or validation asks for one to eight distinct instruments over a range
    that is not empty on a known timeframe, at most a million bars of all instruments together
    (nothing saturates). *)
Theorem research_bounded key instruments ms start_ms end_ms strategy :
  study_valid key instruments ms start_ms end_ms strategy = true →
  NoDup instruments ∧ 1 ≤ count instruments ≤ 8 ∧ start_ms < end_ms ∧ 60000 ≤ ms ≤ 86400000
  ∧ (end_ms - start_ms) / ms * count instruments ≤ 1000000.
Proof.
  unfold study_valid, valid_range, bars_of.
  rewrite !andb_true_iff, !Z.leb_le, !Z.ltb_lt, Z.eqb_eq, existsb_exists.
  intros (((((((_ & H1) & H2) & _) & Hd) & ((Hm & Hr) & _)) & Hb) & _).
  destruct Hm as (m & Hm & ->%Z.eqb_eq).
  assert (Hms : 60000 ≤ m ≤ 86400000) by (repeat (destruct Hm as [<-|Hm]; [lia|]); done).
  split; [by apply distinct_count_NoDup|]. split; [lia|]. split; [done|]. split; [done|].
  unfold u64_max in Hb. lia.
Qed.
