(* ===== verification/Session.v ===== *)
(** * Session: the messages of the process, [okx-protocol/src/lib.rs]

    Mailbox envelopes, agent requests and responses, the frames of the direct transport,
    the operations of host control and the parent's control of its child, with every
    [validate].  [aad_binds]: the authenticated text of an envelope determines what it
    binds; [account_wire_iff]: the account keys host control accepts are exactly the texts
    of valid keys; [frame_gate]: what an accepted frame is; and [direct_transport_read_only] says
    which operations pass as reads. *)
From stdpp Require Import base option list numbers strings gmap sets.
From Stdlib Require Import ZArith Lia Ascii String.
From S2P Require Import Prelude Text Ordered External EntryBudget Protocol RiskAuthority Requests.
Local Open Scope string_scope.
Local Open Scope list_scope.
Local Open Scope Z_scope.

Definition MAILBOX_ENVELOPE_SCHEMA_V1 : string := "okx.mailbox.envelope/v1".
Definition AGENT_REQUEST_SCHEMA_V1 : string := "okx.agent.request/v1".
Definition AGENT_RESPONSE_SCHEMA_V1 : string := "okx.agent.response/v1".
Definition NATIVE_CHILD_CONTROL_SCHEMA_V1 : string := "okx.native-child-control/v2".
Definition HOST_CONTROL_REQUEST_SCHEMA_V1 : string := "okx.windows.control/v1".
Definition HOST_CONTROL_RESULT_SCHEMA_V1 : string := "okx.windows.control.result/v1".
Definition MAILBOX_REPOSITORY : string := "iamaman11/okx".
Definition KDF_LABEL_CLIENT_TO_AGENT_V1 : string := "okx-mailbox-v1/client-to-agent".
Definition KDF_LABEL_AGENT_TO_CLIENT_V1 : string := "okx-mailbox-v1/agent-to-client".
Definition DIRECT_TRANSPORT_FRAME_SCHEMA_V2 : string := "okx.direct-transport.frame/v2".
Definition DIRECT_TRANSPORT_MAX_PAYLOAD_BYTES : Z := 64 * 1024.
Definition PRODUCT_CONTRACT : string := "okx.product/v1".

Inductive ProtocolError : Type :=
| UnsupportedSchema (schema : string)
| InvalidRequestId
| InvalidMutationId
| InvalidAgentKeyId
| InvalidInstrument
| InvalidAssetCode
| InvalidHistoryBar
| InvalidDecimalInput (what : string)
| InvalidHistoryLimit
| InvalidMarketResearchInstruments
| InvalidAnalyticalQuery (why : string)
| InvalidResearchRequest (why : string)
| InvalidGovernance
| InvalidPositionScenarioExit
| DirectionMismatch
| InvalidHostControlRequestId
| InvalidSourceTree
| InvalidSha256
| InvalidDirectTransportToken
| InvalidConnectionGeneration.

Notation check := (result ProtocolError unit).
Definition require (b : bool) (e : ProtocolError) : check := if b then Ok tt else Err e.
Definition is_ok {E A} (r : result E A) : bool := match r with Ok _ => true | Err _ => false end.

(** ** Texts *)
Definition token_byte (a : ascii) : bool := is_alphanumeric a || is_dash a.
Definition validate_connection_generation (value : Z) : check :=
  require (negb (value =? 0)) InvalidConnectionGeneration.
Definition validate_direct_schema (value : string) : check :=
  require (value =? DIRECT_TRANSPORT_FRAME_SCHEMA_V2)%string (UnsupportedSchema value).
Definition validate_direct_token (value : string) (min max : Z) : check :=
  require (within min max (len value) && bytes_all token_byte value) InvalidDirectTransportToken.
Definition validate_request_id (value : string) : check :=
  require (within 16 128 (len value) && bytes_all token_byte value) InvalidRequestId.
Definition validate_sha256 (value : string) : check :=
  require ((len value =? 64) && bytes_all (λ a, (is_hex a || byte_in 65 70 a) && negb (is_upper a)) value)
    InvalidSha256.
Definition validate_source_tree (value : string) : check :=
  require ((len value =? 40) && bytes_all (λ a, (is_hex a || byte_in 65 70 a) && negb (is_upper a)) value)
    InvalidSourceTree.
Definition validate_host_control_request_id (value : string) : check :=
  require (String.prefix "ctl_" value && is_ok (validate_request_id value)) InvalidHostControlRequestId.
Definition validate_agent_key_id (value : string) : check :=
  require (within 1 64 (len value) && bytes_all token_byte value) InvalidAgentKeyId.
Definition validate_asset_code (value : string) : check :=
  require (within 2 16 (len value) && bytes_all (λ a, is_upper a || is_digit a) value) InvalidAssetCode.
Definition validate_instrument (value : string) : check :=
  require (within 3 64 (len value) && bytes_all (λ a, is_upper a || is_digit a || is_dash a) value)
    InvalidInstrument.

(** [chars().any(char::is_control)] over the bytes: U+0000 to U+001F, U+007F, and U+0080 to
    U+009F, whose encoding is the byte C2 and one of 80 to 9F *)
Fixpoint has_control (s : string) : bool :=
  match s with
  | EmptyString => false
  | String a s' =>
    byte_in 0 31 a || byte_in 127 127 a
    || (byte_in 194 194 a && first_byte (byte_in 128 159) s') || has_control s'
  end.

(** ** The parent and its child *)
Inductive NativeChildOperation : Type := Shutdown (drain_timeout_ms : Z).
Record NativeChildRequest : Type := {
  ncr_schema : string;
  ncr_request_id : string;
  ncr_operation : NativeChildOperation;
}.
Definition native_child_request_valid (r : NativeChildRequest) : bool :=
  (ncr_schema r =? NATIVE_CHILD_CONTROL_SCHEMA_V1)%string && (len (ncr_request_id r) =? 64)
  && bytes_all (λ a, is_hex a || byte_in 65 70 a) (ncr_request_id r)
  && match ncr_operation r with Shutdown drain_timeout_ms => drain_timeout_ms =? 10000 end.
Record NativeChildReply : Type := {
  ncp_schema : string;
  ncp_request_id : string;
  ncp_outcome : string;
}.
Definition valid_for (r : NativeChildReply) (request_id : string) : bool :=
  (ncp_schema r =? NATIVE_CHILD_CONTROL_SCHEMA_V1)%string && (ncp_request_id r =? request_id)%string
  && one_of ["DRAINED"; "RECOVERY_REQUIRED"] (ncp_outcome r).

(** ** Mailbox envelopes *)
Inductive MailboxDirection : Type := ClientToAgent | AgentToClient.
#[export] Instance MailboxDirection_eq_dec : EqDecision MailboxDirection.
Proof. solve_decision. Defined.
Definition kdf_label (d : MailboxDirection) : string :=
  match d with
  | ClientToAgent => KDF_LABEL_CLIENT_TO_AGENT_V1
  | AgentToClient => KDF_LABEL_AGENT_TO_CLIENT_V1
  end.
Definition aad_direction (d : MailboxDirection) : string :=
  match d with ClientToAgent => "client_to_agent" | AgentToClient => "agent_to_client" end.
Record MailboxEnvelope : Type := {
  me_schema : string;
  me_request_id : string;
  me_direction : MailboxDirection;
  me_agent_key_id : string;
  me_client_ephemeral_public_key : string;
  me_nonce : string;
  me_ciphertext : string;
}.
Definition envelope_validate (e : MailboxEnvelope) (expected_direction : MailboxDirection) : check :=
  require (me_schema e =? MAILBOX_ENVELOPE_SCHEMA_V1)%string (UnsupportedSchema (me_schema e));;
  validate_request_id (me_request_id e);;
  validate_agent_key_id (me_agent_key_id e);;
  require (bool_decide (me_direction e = expected_direction)) DirectionMismatch.
Definition aad_text (request_id : string) (d : MailboxDirection) (agent_key_id : string) : string :=
  "schema=" +:+ MAILBOX_ENVELOPE_SCHEMA_V1 +:+ ";repo=" +:+ MAILBOX_REPOSITORY +:+ ";request_id="
  +:+ request_id +:+ ";direction=" +:+ aad_direction d +:+ ";agent_key_id=" +:+ agent_key_id.
Definition aad (e : MailboxEnvelope) : result ProtocolError string :=
  envelope_validate e (me_direction e);;
  Ok (aad_text (me_request_id e) (me_direction e) (me_agent_key_id e)).

(** ** Requests of the agent *)
Inductive InstrumentTypeFilter : Type := Swap | Futures.
Inductive DataQuality : Type := NotReady | Fresh | Stale | Degraded.
Inductive AgentResponseStatus : Type := Completed | Rejected | Failed.
Record AgentFailure : Type := { af_code : string; af_message : string; af_retryable : bool }.

Section session.
  (** [serde_json::Value], what it says of strategy parameters, and its text *)
  Context {Json : Type}.
  Variable from_value : Json → option StrategyParametersV1.
  Variable to_text : Json → string.

Inductive AgentOperation : Type :=
| ConnectAccount (credential_ref alias operation_id request_digest : string)
| MarketOp (request : MarketRequest)
| MarketCapabilities
| MarketMicrostructure (instrument : string) (size_contracts : option string)
| Research (request : ResearchRequest)
| Trade (request : TradeRequest)
| Strategies (request : StrategyRequest Json)
| Portfolio (request : PortfolioRequest)
| PortfolioScenario (request : PortfolioScenarioRequest)
| Diagnostics (request : DiagnosticsRequest)
| FindInstruments (asset : string) (settle_currency : option string)
    (instrument_type : option InstrumentTypeFilter)
| MarketOverview (instrument : string)
| AccountSummary
| MailboxTelemetry.
Record AgentRequest : Type := {
  ar_account : option string;
  ar_schema : string;
  ar_request_id : string;
  ar_operation : AgentOperation;
}.
Record AgentResponse : Type := {
  rs_schema : string;
  rs_request_id : string;
  rs_status : AgentResponseStatus;
  rs_generated_at : string;
  rs_quality : DataQuality;
  rs_result_schema : option string;
  rs_result : option Json;
  rs_failure : option AgentFailure;
  rs_warnings : list string;
}.

Definition action_class (o : AgentOperation) : ActionClass :=
  match o with
  | Trade (Execute _ operation _ _ _ _ _ _ _) =>
    match operation with Reduce | Close => ReduceRisk | _ => IncreaseRisk end
  | Trade (CloseIntent _ _ _) => ReduceRisk
  | Trade (Cancel _ _) => Maintenance
  | Strategies (StrategyCreate _ _ _ _ _ _ _ _) | Strategies (StrategyUpdate _ _ _ _ _)
  | Strategies (StrategyStart _ _) | Strategies (StrategyStop _ _)
  | ConnectAccount _ _ _ _ => Maintenance
  | _ => Read
  end.
Definition requires_account (o : AgentOperation) : bool :=
  match o with Trade _ | Strategies _ | AccountSummary => true | _ => false end.
Definition direct_transport_read_only (o : AgentOperation) : bool :=
  bool_decide (action_class o = Read).

Definition size_ok (v : string) : bool :=
  is_some_and (λ n, is_finite n && f64_lt (f64_of_Z 0) n && f64_le n (f64_of_Z 1000000)) (parse_f64 v).
Definition operation_ok (o : AgentOperation) : bool :=
  match o with
  | ConnectAccount credential_ref alias operation_id request_digest =>
    valid_reference credential_ref && valid_reference alias
    && is_ok (validate_direct_token operation_id 8 128)
    && (len request_digest =? 64) && bytes_all is_hex request_digest
  | MarketOp request => market_request_valid request
  | MarketCapabilities => true
  | MarketMicrostructure instrument size_contracts =>
    is_ok (validate_instrument instrument) && is_none_or size_ok size_contracts
  | Research request => research_request_valid request
  | Trade request => trade_request_valid request
  | Strategies request => strategy_request_valid from_value to_text request
  | Portfolio request => portfolio_request_valid request
  | PortfolioScenario request => portfolio_scenario_valid request
  | Diagnostics request => diagnostics_request_valid request
  | FindInstruments asset settle_currency _ =>
    is_ok (validate_asset_code asset) && is_none_or (λ v, is_ok (validate_asset_code v)) settle_currency
  | MarketOverview instrument => is_ok (validate_instrument instrument)
  | AccountSummary | MailboxTelemetry => true
  end.
Definition operation_validate (o : AgentOperation) : check :=
  require (operation_ok o) (InvalidAnalyticalQuery "invalid product request").
Definition bad_account (a : string) : bool :=
  (a =? "")%string || (128 <? len a) || has_control a.
Definition request_validate (r : AgentRequest) : check :=
  require (ar_schema r =? AGENT_REQUEST_SCHEMA_V1)%string (UnsupportedSchema (ar_schema r));;
  validate_request_id (ar_request_id r);;
  require (negb (is_some_and bad_account (ar_account r))) InvalidRequestId;;
  operation_validate (ar_operation r).
Definition response_validate (r : AgentResponse) : check :=
  require (rs_schema r =? AGENT_RESPONSE_SCHEMA_V1)%string (UnsupportedSchema (rs_schema r));;
  validate_request_id (rs_request_id r).

(** ** Frames of the direct transport; [DirectRuntimeProfile] has the one value [Engine] *)
Inductive DirectTransportFrame : Type :=
| Hello (schema runtime_id connection_id installation_id contract : string)
    (agent_pid : Z) (agent_binary_sha256 agent_incarnation : string)
| HelloAck (schema session_id : string) (connection_generation : Z)
| Ping (schema session_id : string) (connection_generation : Z) (nonce : string)
| Pong (schema session_id : string) (connection_generation : Z) (nonce : string)
| Request (schema session_id : string) (connection_generation : Z) (request : AgentRequest)
    (operator_governance : option CentralGovernanceSnapshot)
| RiskControl (schema session_id : string) (connection_generation : Z) (command : RiskCommand)
| PolicySnapshot (schema session_id : string) (connection_generation : Z)
    (snapshot : CentralGovernanceSnapshot)
| RiskControlResult (schema session_id : string) (connection_generation : Z) (result : RiskResult)
| DeliveryAck (schema session_id : string) (connection_generation : Z) (request_id : string)
| Response (schema session_id : string) (connection_generation : Z) (response : AgentResponse).

(** The three checks every frame of an open session begins with *)
Definition session_checks (schema session_id : string) (connection_generation : Z) : check :=
  validate_direct_schema schema;;
  validate_direct_token session_id 16 128;;
  validate_connection_generation connection_generation.
Definition bad_incarnation (s : string) : bool :=
  negb (len s =? 36) || negb (String.prefix "ctl_" s)
  || negb (bytes_all (λ a, (is_hex a || byte_in 65 70 a) && negb (is_upper a)) (drop_str 4 s)).
Definition foreign_governance (g : CentralGovernanceSnapshot) (connection_generation : Z) : bool :=
  negb (central_snapshot_valid g) || negb (cgs_session_generation g =? connection_generation).

Definition frame_validate (f : DirectTransportFrame) : check :=
  match f with
  | Hello schema runtime_id connection_id installation_id contract pid sha incarnation =>
    validate_direct_schema schema;;
    require (negb (pid =? 0)) InvalidDirectTransportToken;;
    validate_sha256 sha;;
    require (negb (bad_incarnation incarnation)) InvalidDirectTransportToken;;
    require (valid_installation installation_id && (contract =? PRODUCT_CONTRACT)%string)
      InvalidDirectTransportToken;;
    validate_direct_token runtime_id 1 64;;
    validate_direct_token connection_id 16 128
  | HelloAck schema session_id generation => session_checks schema session_id generation
  | Ping schema session_id generation nonce | Pong schema session_id generation nonce =>
    session_checks schema session_id generation;; validate_direct_token nonce 16 128
  | Request schema session_id generation request operator_governance =>
    session_checks schema session_id generation;;
    require (negb (is_some_and (λ p, foreign_governance p generation) operator_governance))
      InvalidGovernance;;
    request_validate request
  | PolicySnapshot schema session_id generation snapshot =>
    session_checks schema session_id generation;;
    require (negb (foreign_governance snapshot generation)) InvalidGovernance
  | RiskControl schema session_id generation command =>
    session_checks schema session_id generation;; require (command_valid command) InvalidGovernance
  | RiskControlResult schema session_id generation result =>
    session_checks schema session_id generation;; require (risk_result_valid result) InvalidGovernance
  | DeliveryAck schema session_id generation request_id =>
    session_checks schema session_id generation;; validate_request_id request_id
  | Response schema session_id generation response =>
    session_checks schema session_id generation;; response_validate response
  end.
Definition validate_incoming_envelope (f : DirectTransportFrame) : check :=
  match f with
  | Request schema session_id generation request _ =>
    session_checks schema session_id generation;;
    require (ar_schema request =? AGENT_REQUEST_SCHEMA_V1)%string (UnsupportedSchema (ar_schema request));;
    validate_request_id (ar_request_id request)
  | _ => frame_validate f
  end.
Definition frame_schema (f : DirectTransportFrame) : string :=
  match f with
  | Hello schema _ _ _ _ _ _ _ | HelloAck schema _ _ | Ping schema _ _ _ | Pong schema _ _ _
  | Request schema _ _ _ _ | PolicySnapshot schema _ _ _ | RiskControl schema _ _ _
  | RiskControlResult schema _ _ _ | DeliveryAck schema _ _ _ | Response schema _ _ _ => schema
  end.
End session.
Arguments AgentOperation : clear implicits.
Arguments AgentRequest : clear implicits.
Arguments AgentResponse : clear implicits.
Arguments DirectTransportFrame : clear implicits.

(** ** Host control *)
Inductive TradingVenue : Type := OkxVenue | BybitVenue.
Definition as_str (v : TradingVenue) : string := match v with OkxVenue => "okx" | BybitVenue => "bybit" end.
Inductive HostControlOperation : Type :=
| HostStatus | HostAccountCatalog | Sync | BuildAgent
| DeployAgent (run_id artifact_id : Z) (expected_source_tree : string)
| InstallLauncherRoot (run_id artifact_id : Z) (expected_source_tree : string)
| UpgradeLauncherRoot (run_id artifact_id : Z)
    (expected_source_tree expected_current_launcher_sha256 : string)
| StageControllerUpdate (run_id artifact_id : Z) (expected_source_tree : string)
| HandoffControllerUpdate | AbortControllerUpdate | ControllerUpdateStatus | WorkspaceStatus
| TestWorkspace | InitAgentIdentity | AgentIdentity | BootstrapAgentGithubToken
| ProvisionCloudflareRuntimeToken | StartAgent | StopAgent | RestartAgent
| InitializeInstallation (installation_id expected_release operation_id : string)
| InitializeAccount (account_key installation_id expected_release operation_id : string)
| BackupAccount (account_key : string)
| RestoreAccount (account_key snapshot_id expected_release operation_id : string)
| InstallAutostart | AutostartStatus | HandoffToAutostart | AcceptanceKillAgent
| AcceptanceCrashController | AcceptanceFailNextControllerActivation | TransportStatus.

Definition validate_account_wire (value : string) : check :=
  match split_on ":" value with
  | [venue; environment; uid] =>
    if negb (venue =? "okx")%string || negb (one_of ["real"; "demo"] environment)
    then Err InvalidRequestId else validate_sha256 uid
  | _ => Err InvalidRequestId
  end.
Definition initialize_checks (installation_id expected_release operation_id : string) : check :=
  require (valid_installation installation_id && within 8 128 (len operation_id)
           && bytes_all token_byte operation_id) InvalidRequestId;;
  validate_source_tree expected_release.
Definition artifact_checks (run_id artifact_id : Z) (expected_source_tree : string) : check :=
  require (negb ((run_id =? 0) || (artifact_id =? 0))) InvalidRequestId;;
  validate_source_tree expected_source_tree.
Definition host_operation_validate (o : HostControlOperation) : check :=
  match o with
  | InitializeInstallation installation_id expected_release operation_id =>
    initialize_checks installation_id expected_release operation_id
  | InitializeAccount account_key installation_id expected_release operation_id =>
    initialize_checks installation_id expected_release operation_id;;
    validate_account_wire account_key
  | BackupAccount account_key => validate_account_wire account_key
  | RestoreAccount account_key snapshot_id expected_release operation_id =>
    validate_account_wire account_key;;
    validate_source_tree expected_release;;
    require (negb (snapshot_id =? "")%string && (len snapshot_id <=? 128)
             && bytes_all token_byte snapshot_id && within 8 128 (len operation_id)) InvalidRequestId
  | DeployAgent run_id artifact_id tree | InstallLauncherRoot run_id artifact_id tree
  | StageControllerUpdate run_id artifact_id tree => artifact_checks run_id artifact_id tree
  | UpgradeLauncherRoot run_id artifact_id tree launcher_sha256 =>
    artifact_checks run_id artifact_id tree;; validate_sha256 launcher_sha256
  | _ => Ok tt
  end.
Record HostControlRequest : Type := {
  hc_schema : string;
  hc_request_id : string;
  hc_operation : HostControlOperation;
}.
Definition host_request_validate (r : HostControlRequest) : check :=
  require (hc_schema r =? HOST_CONTROL_REQUEST_SCHEMA_V1)%string (UnsupportedSchema (hc_schema r));;
  validate_host_control_request_id (hc_request_id r);;
  host_operation_validate (hc_operation r).
Inductive HostControlStatus : Type := Pass | HostFail.
Record HostControlFailure : Type := { hf_code : string; hf_message : string }.
Record HostControlResult {Json : Type} : Type := {
  hr_schema : string;
  hr_request_id : string;
  hr_operation : HostControlOperation;
  hr_status : HostControlStatus;
  hr_observed_at : string;
  hr_details : option Json;
  hr_failure : option HostControlFailure;
}.
Arguments HostControlResult : clear implicits.
Definition host_result_validate {Json} (r : HostControlResult Json) : check :=
  require (hr_schema r =? HOST_CONTROL_RESULT_SCHEMA_V1)%string (UnsupportedSchema (hr_schema r));;
  validate_host_control_request_id (hr_request_id r).

(** ** Facts *)
Lemma require_true b e : require b e = Ok tt ↔ b = true.
Proof. by destruct b. Qed.

Lemma then_ok {A} (c : check) (k : result ProtocolError A) v :
  (c;; k) = Ok v ↔ c = Ok tt ∧ k = Ok v.
Proof. destruct c as [[]|e]; simpl; naive_solver. Qed.

Lemma lower_hex_byte a : ((is_hex a || byte_in 65 70 a) && negb (is_upper a)) = is_hex a.
Proof.
  unfold is_hex, is_upper, is_digit, byte_in, within. generalize (Z.of_N (N_of_ascii a)). intros n.
  apply eq_iff_eq_true. rewrite !andb_true_iff, !orb_true_iff, negb_true_iff, !andb_true_iff,
    andb_false_iff, !Z.leb_le, !Z.leb_gt. lia.
Qed.
Lemma bytes_all_ext p q s : (∀ a, p a = q a) → bytes_all p s = bytes_all q s.
Proof. intros H. unfold bytes_all. induction (list_ascii_of_string s) as [|a l IH]; simpl; [done|]. by rewrite H, IH. Qed.
Lemma validate_sha256_iff s : validate_sha256 s = Ok tt ↔ lower_sha256 s = true.
Proof.
  unfold validate_sha256, lower_sha256. rewrite require_true.
  by rewrite (bytes_all_ext _ is_hex) by apply lower_hex_byte.
Qed.

Definition free (c : ascii) (s : string) : bool := bytes_all (λ a, negb (a =? c)%char) s.
Definition join (c : ascii) (l : list string) : string :=
  match l with [] => "" | h :: t => foldl (λ acc s, acc +:+ String c s) h t end.

Lemma free_split c s t : free c s = true → split_once c (s +:+ String c t) = Some (s, t).
Proof. apply split_once_here. Qed.
Lemma split_on_free c s : free c s = true → split_on c s = [s].
Proof.
  unfold free, bytes_all. induction s as [|a s IH]; simpl; [done|].
  intros [Ha Hs]%andb_true_iff. apply negb_true_iff in Ha. rewrite Ha. by rewrite IH.
Qed.
Lemma split_on_here c s t : free c s = true → split_on c (s +:+ String c t) = s :: split_on c t.
Proof.
  unfold free, bytes_all. induction s as [|a s IH]; simpl.
  - intros _. by rewrite Ascii.eqb_refl.
  - intros [Ha Hs]%andb_true_iff. apply negb_true_iff in Ha. rewrite Ha. by rewrite IH.
Qed.
Lemma split_on_three c s x y z : split_on c s = [x; y; z] → s = x +:+ String c (y +:+ String c z).
Proof.
  assert (Hne : ∀ s, split_on c s ≠ []).
  { intros t. destruct t as [|a t]; simpl; [done|]. destruct (a =? c)%char; [done|].
    by destruct (split_on c t). }
  assert (H1 : ∀ r z, split_on c r = [z] → r = z).
  { induction r as [|a t IH]; simpl; intros w; [by intros ?; simplify_eq|].
    destruct (a =? c)%char. { intros [= _ E]. by apply Hne in E. }
    destruct (split_on c t) as [|h l] eqn:E; [by apply Hne in E|].
    intros [= <- ->]. f_equal. by apply IH. }
  assert (H2 : ∀ r y z, split_on c r = [y; z] → r = y +:+ String c z).
  { induction r as [|a t IH]; simpl; intros v w; [done|].
    destruct (a =? c)%char eqn:Ea.
    - intros [= <- E]. apply H1 in E as ->. apply Ascii.eqb_eq in Ea as ->. done.
    - destruct (split_on c t) as [|h l] eqn:E; [by apply Hne in E|].
      intros [= <- ->]. by rewrite (IH _ _ eq_refl). }
  revert x. induction s as [|a t IH]; simpl; intros x; [done|].
  destruct (a =? c)%char eqn:Ea.
  - intros [= <- E]. apply H2 in E as ->. apply Ascii.eqb_eq in Ea as ->. done.
  - destruct (split_on c t) as [|h l] eqn:E; [by apply Hne in E|].
    intros [= <- ->]. by rewrite (IH _ eq_refl).
Qed.

Lemma bytes_all_free p c s : (∀ a, p a = true → (a =? c)%char = false) → bytes_all p s = true → free c s = true.
Proof. intros H. apply bytes_all_impl. intros a Ha. by rewrite (H a Ha). Qed.
Lemma not_byte p a c : p c = false → p a = true → (a =? c)%char = false.
Proof. intros Hc Ha. apply Ascii.eqb_neq. intros ->. congruence. Qed.

(** The account keys that host control accepts are exactly the texts of valid account keys. *)
Theorem account_wire_iff s :
  validate_account_wire s = Ok tt ↔ ∃ k, account_key_valid k = true ∧ wire k = s.
Proof.
  unfold validate_account_wire. split.
  - destruct (split_on ":" s) as [|v [|e [|u [|? ?]]]] eqn:E; try done.
    destruct (negb (v =? "okx")%string || negb (one_of ["real"; "demo"] e)) eqn:Eb; [done|].
    apply orb_false_iff in Eb as [Hv He]. rewrite negb_false_iff in Hv, He.
    apply String.eqb_eq in Hv as ->. rewrite validate_sha256_iff. intros Hu.
    apply split_on_three in E as ->. unfold one_of in He. simpl in He.
    rewrite !orb_true_iff, !String.eqb_eq in He.
    exists {| ak_venue := "okx"; ak_environment := if (e =? "real")%string then Real else Demo;
              ak_verified_uid := u |}.
    split; [by unfold account_key_valid|]. destruct He as [->|[->|?]]; done.
  - intros (k & [Hv Hu]%andb_true_iff & <-). apply String.eqb_eq in Hv.
    unfold wire, key_text. rewrite Hv.
    assert (Hf : free ":" (ak_verified_uid k) = true).
    { apply andb_true_iff in Hu as [_ Hu]. eapply bytes_all_free, Hu. intros a. by apply not_byte. }
    change ("okx" +:+ ":" +:+ env_text (ak_environment k) +:+ ":" +:+ ak_verified_uid k)
      with ("okx" +:+ String ":" (env_text (ak_environment k) +:+ String ":" (ak_verified_uid k))).
    rewrite split_on_here by done. rewrite split_on_here by (by destruct (ak_environment k)).
    rewrite split_on_free by done. simpl.
    destruct (ak_environment k); simpl; by apply validate_sha256_iff.
Qed.

Lemma token_free c s : token_byte c = false → bytes_all token_byte s = true → free c s = true.
Proof. intros Hc. apply bytes_all_free. intros a. by apply not_byte. Qed.
Lemma request_id_token s : validate_request_id s = Ok tt → bytes_all token_byte s = true.
Proof. unfold validate_request_id. rewrite require_true, andb_true_iff. by intros []. Qed.

Lemma append_left_inj s x y : s +:+ x = s +:+ y → x = y.
Proof. induction s as [|a s IH]; simpl; [done|]. intros [= E]. by apply IH. Qed.
Lemma aad_text_inj i d k i' d' k' :
  bytes_all token_byte i = true → bytes_all token_byte i' = true →
  aad_text i d k = aad_text i' d' k' → i = i' ∧ d = d' ∧ k = k'.
Proof.
  intros Hi Hi' E. unfold aad_text in E.
  do 5 apply append_left_inj in E.
  change (i +:+ String ";" ("direction=" +:+ aad_direction d +:+ ";agent_key_id=" +:+ k)
          = i' +:+ String ";" ("direction=" +:+ aad_direction d' +:+ ";agent_key_id=" +:+ k')) in E.
  pose proof (free_split ";" i ("direction=" +:+ aad_direction d +:+ ";agent_key_id=" +:+ k)) as H1.
  pose proof (free_split ";" i' ("direction=" +:+ aad_direction d' +:+ ";agent_key_id=" +:+ k')) as H2.
  rewrite E, H2 in H1 by (by apply token_free). specialize (H1 ltac:(by apply token_free)).
  injection H1 as <- H. split; [done|]. destruct d, d'; simpl in H; simplify_eq/=; done.
Qed.

(** The authenticated text of an envelope binds it: two envelopes that may be opened with the
    same text are of the same request, in the same direction, to the same key. *)
Theorem aad_binds (e e' : MailboxEnvelope) t :
  aad e = Ok t → aad e' = Ok t →
  me_request_id e = me_request_id e' ∧ me_direction e = me_direction e'
  ∧ me_agent_key_id e = me_agent_key_id e'.
Proof.
  unfold aad, envelope_validate. intros H H'.
  rewrite !then_ok in H, H'. destruct H as [(_ & Hi & _) H], H' as [(_ & Hi' & _) H'].
  apply request_id_token in Hi, Hi'. apply aad_text_inj; [done..|congruence].
Qed.

(** The gate of the incoming frames.  What the owner would accept the transport accepts, and
    besides the operation of a request and its governance it refuses the same frames. *)
Theorem frame_gate {Json} (from_value : Json → option StrategyParametersV1) to_text f :
  (frame_validate from_value to_text f = Ok tt → validate_incoming_envelope from_value to_text f = Ok tt)
  ∧ (validate_incoming_envelope from_value to_text f = Ok tt →
     frame_schema f = DIRECT_TRANSPORT_FRAME_SCHEMA_V2
     ∧ match f with
       | Request _ _ generation r g =>
         (∀ s, g = Some s → foreign_governance s generation = false) →
         negb (is_some_and bad_account (ar_account r)) = true →
         operation_ok from_value to_text (ar_operation r) = true →
         frame_validate from_value to_text f = Ok tt
       | _ => frame_validate from_value to_text f = Ok tt
       end).
Proof.
  destruct f; simpl; unfold session_checks, validate_direct_schema, request_validate, operation_validate;
    rewrite ?then_ok, ?require_true, ?String.eqb_eq; try (by intuition).
  split; [by intuition|]. intros H. split; [by intuition|]. intros Hg Ha Ho.
  repeat split; try (by intuition).
  destruct operator_governance as [g|]; [|done]. simpl. by rewrite (Hg g eq_refl).
Qed.
