(* ===== verification/Transport.v ===== *)
(** * Transport: the session of the direct transport, [okx-agent/src/cloudflare_transport.rs]

    One authenticated connection after its handshake: the messages of the gateway, the
    commands of the risk client, the flights (dispatched requests) and the heartbeat, as the
    arms of the [select!] of [run_session].  [step] is one turn of the loop with what it
    writes; an [Event] carries the answers of the clock, the socket and the other tasks.  The
    arm of a shutdown, which lets the flights end for ten seconds, is left out.
    [authority_needs_ping]: the policy a request carries authorizes only if it is bound to a
    ping of this session that is less than fifteen seconds old, each ping once;
    [flights_bounded]: the bounds of the work in flight.

    One turn reads the clock at most three times ([at_seen], [at_check], [at_insert]); the
    elapsed times of a [retain] are taken of one reading. *)
From stdpp Require Import base option list numbers strings gmap sets.
From Stdlib Require Import ZArith Lia Ascii String.
From S2P Require Import Prelude Text Ordered External EntryBudget Protocol RiskAuthority Requests Session.
Local Open Scope string_scope.
Local Open Scope list_scope.
Local Open Scope Z_scope.

(** ** Answers of the owner, [okx-agent/src/query.rs] *)
(** [serde_json::Value]; its numbers are a parameter *)
Inductive Value {Number : Type} : Type :=
| Null
| Bool (b : bool)
| Num (n : Number)
| Str (s : string)
| Array (rows : list Value)
| Object (fields : list (string * Value)).
Arguments Value : clear implicits.

Definition partial_quality (v : string) : bool := one_of ["partial"; "missing"; "stale"; "degraded"] v.
Definition field {Number} (key : string) (fields : list (string * Value Number)) : option (Value Number) :=
  snd <$> List.find (λ kv, (fst kv =? key)%string) fields.
Fixpoint incomplete {Number} (v : Value Number) : bool :=
  match v with
  | Object fields =>
    match field "quality" fields with Some (Str q) => partial_quality q | _ => false end
    || existsb (λ kv, incomplete (snd kv)) fields
  | Array rows => existsb incomplete rows
  | _ => false
  end.

(** [str::contains] of a text *)
Fixpoint contains (needle s : string) : bool :=
  String.prefix needle s || match s with EmptyString => false | String _ s' => contains needle s' end.
Definition is_transient_rate_defer (error : option string) : bool :=
  is_some_and (contains "OKX rate/backpressure defer:") error.
Definition is_retryable_market_source_defer (error : string) : bool := is_transient_rate_defer (Some error).

Definition response {Number} (id : string) (r : result string (Value Number)) (now : string)
    : AgentResponse (Value Number) :=
  let quality := match r with Ok v => if incomplete v then Degraded else Fresh | Err _ => NotReady end in
  let '(status, data, failure) :=
    match r with
    | Ok v => (Completed, Some v, None)
    | Err code =>
      let retryable := is_retryable_market_source_defer code in
      let public_code := if retryable then "MARKET_SOURCE_RETRYABLE" else code in
      (Rejected, None,
       Some {| af_code := public_code; af_message := public_code; af_retryable := retryable |})
    end in
  {| rs_schema := AGENT_RESPONSE_SCHEMA_V1; rs_request_id := id; rs_status := status;
     rs_generated_at := now; rs_quality := quality; rs_result_schema := Some "okx.product/v1";
     rs_result := data; rs_failure := failure; rs_warnings := [] |}.

(** ** The session *)
Definition flight_admitted (inflight : Z) (finance_view : bool) : bool :=
  inflight <? (if finance_view then 64 else 63).

Section transport.
  (** The numbers of JSON; what [serde_json] reads and writes of strategy parameters and frames *)
  Context {Number : Type}.
  Notation Json := (Value Number).
  Variable from_value : Json → option StrategyParametersV1.
  Variable to_text : Json → string.
  Variable from_str : string → option (DirectTransportFrame Json).
  Variable to_string : DirectTransportFrame Json → string.
  (** The reply channels of the risk client *)
  Context {Sender : Type}.

Inductive TransportError : Type :=
| Transport (message : string)
| Json_error
| Protocol_error (e : ProtocolError).
Definition transport (message : string) : TransportError := Transport message.

(** A message of the socket: a text, or anything else *)
Inductive Message : Type := Text (text : string) | Other.
Definition frame (message : Message) : result TransportError (DirectTransportFrame Json) :=
  match message with
  | Other => Err (transport "NON_TEXT_FRAME")
  | Text text =>
    if DIRECT_TRANSPORT_MAX_PAYLOAD_BYTES <? len text then Err (transport "OVERSIZED_FRAME") else
    match from_str text with
    | None => Err Json_error
    | Some f =>
      match validate_incoming_envelope from_value to_text f with
      | Ok _ => Ok f
      | Err e => Err (Protocol_error e)
      end
    end
  end.

(** A flight waits for its permit, is dispatched, or was refused its permit *)
Inductive Stage : Type := Waiting | Running | Refused.
Record Flight : Type := {
  fl_id : string;
  fl_request : AgentRequest Json;
  fl_governance : option CentralGovernanceSnapshot;
  fl_finance_view : bool;
  fl_stage : Stage;
}.
Record State : Type := {
  st_pending : gmap string Sender;
  st_challenges : gmap string Z;
  st_active : gset string;
  st_flights : list Flight;
  st_last_seen : Z;
}.
Definition opened (now : Z) : State :=
  {| st_pending := ∅; st_challenges := ∅; st_active := ∅; st_flights := []; st_last_seen := now |}.

(** What a turn does besides its state *)
Inductive Output : Type :=
| Sent (f : DirectTransportFrame Json)
| Policy (snapshot : CentralGovernanceSnapshot)
| Delivered (to : Sender) (r : RiskResult)
| Dropped (id : string)
| Launched (fl : Flight)
| Begun (fl : Flight).

Notation turn := (result TransportError (State * list Output)).

(** The identity of the session: who it is and which installation the engine serves *)
Variable session_id : string.
Variable connection_generation : Z.
Variable installation_id : string.

Definition seconds (n : Z) : Z := n * 1000000000.

(** [send]: the socket takes the frame ([sink_ok]) unless its text is too long *)
Definition send (sink_ok : bool) (f : DirectTransportFrame Json) : result TransportError Output :=
  if DIRECT_TRANSPORT_MAX_PAYLOAD_BYTES <? len (to_string f) then Err (transport "OVERSIZED_RESPONSE")
  else if sink_ok then Ok (Sent f) else Err (transport "WS_WRITE_FAILED").

Definition SCHEMA : string := DIRECT_TRANSPORT_FRAME_SCHEMA_V2.

Definition frame_session (f : DirectTransportFrame Json) : option (string * Z) :=
  match f with
  | Ping _ s g _ | Pong _ s g _ | Request _ s g _ _ | RiskControlResult _ s g _
  | PolicySnapshot _ s g _ => Some (s, g)
  | _ => None
  end.

(** The policy of a request counts when it is valid, of this session and installation, and
    its challenge is a ping not yet used and younger than fifteen seconds; looking it up spends
    the ping *)
Definition spend (challenges : gmap string Z) (key : option string) (now : Z) : bool * gmap string Z :=
  match key with
  | None => (false, challenges)
  | Some k =>
    match challenges !! k with
    | None => (false, challenges)
    | Some t => (now - t <? seconds 15, delete k challenges)
    end
  end.
Definition governance_of (challenges : gmap string Z) (supplied : option CentralGovernanceSnapshot)
    (now : Z) : option CentralGovernanceSnapshot * gmap string Z :=
  match supplied with
  | None => (None, challenges)
  | Some g =>
    if central_snapshot_valid g && (cgs_session_generation g =? connection_generation)
       && (gov_installation_id (cgs_state g) =? installation_id)%string
    then let '(fresh, challenges') := spend challenges (cgs_delivery_challenge g) now in
         (if fresh then Some g else None, challenges')
    else (None, challenges)
  end.

Definition is_finance_view (o : AgentOperation Json) : bool :=
  match o with
  | Diagnostics d => match dr_view d with Some Finance => true | None => false end
  | _ => false
  end.

(** The arms of the loop.  [closed] says which reply channels the risk client has given up. *)
Inductive Event : Type :=
| Tick (now : Z) (nonce : string) (sink_ok : bool)
| Outbound (command : RiskCommand) (return_to : Sender) (closed : Sender → bool) (sink_ok : bool)
| Landed (i : nat) (answer : result string Json) (generated_at : string) (sink_ok : bool)
| Polled (i : nat)
| Incoming (message : Message) (at_seen at_check at_insert : Z) (closed : Sender → bool)
    (policy_ok sink_ok sink_ok' : bool) (generated_at : string).

Definition open_senders (closed : Sender → bool) (m : gmap string Sender) : gmap string Sender :=
  filter (λ kv, closed (snd kv) = false) m.

Definition with_pending (s : State) (m : gmap string Sender) : State :=
  {| st_pending := m; st_challenges := st_challenges s; st_active := st_active s;
     st_flights := st_flights s; st_last_seen := st_last_seen s |}.
Definition with_challenges (s : State) (m : gmap string Z) : State :=
  {| st_pending := st_pending s; st_challenges := m; st_active := st_active s;
     st_flights := st_flights s; st_last_seen := st_last_seen s |}.
Definition with_flights (s : State) (active : gset string) (l : list Flight) : State :=
  {| st_pending := st_pending s; st_challenges := st_challenges s; st_active := active;
     st_flights := l; st_last_seen := st_last_seen s |}.
Definition seen (s : State) (now : Z) : State :=
  {| st_pending := st_pending s; st_challenges := st_challenges s; st_active := st_active s;
     st_flights := st_flights s; st_last_seen := now |}.

Definition tick (s : State) (now : Z) (nonce : string) (sink_ok : bool) : turn :=
  if seconds 35 <? now - st_last_seen s then Err (transport "HEARTBEAT_TIMEOUT") else
  out ← send sink_ok (Ping SCHEMA session_id connection_generation ("native_ping_" +:+ nonce));
  Ok (s, [out]).

Definition outbound (s : State) (command : RiskCommand) (return_to : Sender)
    (closed : Sender → bool) (sink_ok : bool) : turn :=
  let pending := open_senders closed (st_pending s) in
  let id := rc_command_id command in
  if 32 <=? Z.of_nat (size pending) then Ok (with_pending s pending, [Dropped id]) else
  if is_some (pending !! id) then Ok (with_pending s pending, [Dropped id]) else
  out ← send sink_ok (RiskControl SCHEMA session_id connection_generation command);
  Ok (with_pending s (<[id := return_to]> pending), [out]).

(** The permits: one diagnostic at a time, which is refused otherwise, and seven reads, which
    wait; a request that changes something needs none *)
Definition is_read (fl : Flight) : bool :=
  negb (fl_finance_view fl) && direct_transport_read_only (ar_operation (fl_request fl)).
Definition is_running (fl : Flight) : bool := match fl_stage fl with Running => true | _ => false end.
Definition running (p : Flight → bool) (l : list Flight) : Z :=
  count (List.filter (λ fl, p fl && is_running fl) l).
Definition with_stage (fl : Flight) (stage : Stage) : Flight :=
  {| fl_id := fl_id fl; fl_request := fl_request fl; fl_governance := fl_governance fl;
     fl_finance_view := fl_finance_view fl; fl_stage := stage |}.
Definition polled (s : State) (i : nat) : turn :=
  match st_flights s !! i with
  | Some fl =>
    match fl_stage fl with
    | Waiting =>
      let go stage out :=
        Ok (with_flights s (st_active s) (<[i := with_stage fl stage]> (st_flights s)), out) in
      if fl_finance_view fl then
        if running fl_finance_view (st_flights s) <? 1 then go Running [Begun fl] else go Refused []
      else if direct_transport_read_only (ar_operation (fl_request fl)) then
        if running is_read (st_flights s) <? 7 then go Running [Begun fl] else Ok (s, [])
      else go Running [Begun fl]
    | _ => Ok (s, [])
    end
  | None => Ok (s, [])
  end.

Definition landed (s : State) (i : nat) (answer : result string Json) (generated_at : string)
    (sink_ok : bool) : turn :=
  match st_flights s !! i with
  | Some fl =>
    match match fl_stage fl with
          | Waiting => None
          | Running => Some answer
          | Refused => Some (Err "NATIVE_DIAGNOSTICS_BUSY")
          end with
    | Some answer =>
      out ← send sink_ok (Response SCHEMA session_id connection_generation
                            (response (ar_request_id (fl_request fl)) answer generated_at));
      Ok (with_flights s (st_active s ∖ {[fl_id fl]}) (delete i (st_flights s)), [out])
    | None => Ok (s, [])
    end
  | None => Ok (s, [])
  end.

Definition requested (s : State) (request : AgentRequest Json)
    (supplied : option CentralGovernanceSnapshot) (now : Z) (sink_ok sink_ok' : bool)
    (generated_at : string) : turn :=
  let id := ar_request_id request in
  ack ← send sink_ok (DeliveryAck SCHEMA session_id connection_generation id);
  if bool_decide (id ∈ st_active s) then Ok (s, [ack]) else
  let finance_view := is_finance_view (ar_operation request) in
  if negb (flight_admitted (count (st_flights s)) finance_view) then
    out ← send sink_ok' (Response SCHEMA session_id connection_generation
                           (response id (Err "NATIVE_QUEUE_FULL") generated_at));
    Ok (s, [ack; out])
  else
    let '(governance, challenges) := governance_of (st_challenges s) supplied now in
    let fl := {| fl_id := id; fl_request := request; fl_governance := governance;
                 fl_finance_view := finance_view; fl_stage := Waiting |} in
    Ok (with_flights (with_challenges s challenges) ({[id]} ∪ st_active s) (st_flights s ++ [fl]),
        [ack; Launched fl]).

Definition incoming (s : State) (message : Message) (at_seen at_check at_insert : Z)
    (closed : Sender → bool) (policy_ok sink_ok sink_ok' : bool) (generated_at : string) : turn :=
  f ← frame message;
  match frame_session f with
  | None => Err (transport "UNEXPECTED_FRAME")
  | Some (sid, g) =>
    if negb (sid =? session_id)%string || negb (g =? connection_generation)
    then Err (transport "SESSION_GENERATION_MISMATCH") else
    let s := seen s at_seen in
    match f with
    | Ping _ _ _ nonce =>
      let kept := filter (λ kv : string * Z, at_check - snd kv < seconds 15) (st_challenges s) in
      let challenges := if Z.of_nat (size kept) <? 64 then <[nonce := at_insert]> kept else kept in
      out ← send sink_ok (Pong SCHEMA session_id connection_generation nonce);
      Ok (with_challenges s challenges, [out])
    | Pong _ _ _ _ => Ok (s, [])
    | PolicySnapshot _ _ _ snapshot =>
      if policy_ok then Ok (s, [Policy snapshot]) else Err (transport "INVALID_POLICY_SNAPSHOT")
    | RiskControlResult _ _ _ r =>
      let pending := open_senders closed (st_pending s) in
      Ok (with_pending s (delete (rr_command_id r) pending),
          match pending !! rr_command_id r with Some sender => [Delivered sender r] | None => [] end)
    | Request _ _ _ request supplied =>
      requested s request supplied at_check sink_ok sink_ok' generated_at
    | _ => Err (transport "UNEXPECTED_FRAME")
    end
  end.

Definition step (s : State) (e : Event) : turn :=
  match e with
  | Tick now nonce sink_ok => tick s now nonce sink_ok
  | Outbound command return_to closed sink_ok => outbound s command return_to closed sink_ok
  | Polled i => polled s i
  | Landed i answer generated_at sink_ok => landed s i answer generated_at sink_ok
  | Incoming message at_seen at_check at_insert closed policy_ok sink_ok sink_ok' generated_at =>
    incoming s message at_seen at_check at_insert closed policy_ok sink_ok sink_ok' generated_at
  end.

(** The history of a session: its events with what they put out, the last first *)
Inductive session : list (Event * list Output) → State → Prop :=
| session_opened now : session [] (opened now)
| session_turn h s e s' out : session h s → step s e = Ok (s', out) → session ((e, out) :: h) s'.

(** ** What a history shows *)
(** The pings of the gateway with the instant they were remembered *)
Definition ping_of (e : Event) : list (string * Z) :=
  match e with
  | Incoming message _ _ at_insert _ _ _ _ _ =>
    match frame message with Ok (Ping _ _ _ nonce) => [(nonce, at_insert)] | _ => [] end
  | _ => []
  end.
Definition pings (h : list (Event * list Output)) : list (string * Z) := List.concat (map (λ eo, ping_of (fst eo)) h).
(** The flights that got a policy, each with it and the instant of the decision *)
Definition granted_by (e : Event) (o : Output) : list (CentralGovernanceSnapshot * Z) :=
  match e, o with
  | Incoming _ _ at_check _ _ _ _ _ _, Launched fl =>
    match fl_governance fl with Some g => [(g, at_check)] | None => [] end
  | _, _ => []
  end.
Definition grants_of (eo : Event * list Output) : list (CentralGovernanceSnapshot * Z) :=
  List.concat (map (granted_by (fst eo)) (snd eo)).
Definition grants (h : list (Event * list Output)) : list (CentralGovernanceSnapshot * Z) :=
  List.concat (map grants_of h).

(** A policy rests on a ping *)
Definition rests_on (g : CentralGovernanceSnapshot * Z) (p : string * Z) : Prop :=
  central_snapshot_valid (fst g) = true ∧ cgs_session_generation (fst g) = connection_generation
  ∧ gov_installation_id (cgs_state (fst g)) = installation_id
  ∧ cgs_delivery_challenge (fst g) = Some (fst p) ∧ snd g - snd p < seconds 15.

(** ** Facts *)
Lemma send_ok sink_ok f out : send sink_ok f = Ok out → out = Sent f.
Proof. unfold send. destruct (_ <? _); [done|]. destruct sink_ok; [by intros [= <-]|done]. Qed.
Lemma send_grants e sink_ok f out : send sink_ok f = Ok out → granted_by e out = [].
Proof. intros ->%send_ok. by destruct e. Qed.

Lemma governance_of_some challenges supplied now g challenges' :
  governance_of challenges supplied now = (Some g, challenges') →
  ∃ k t, challenges !! k = Some t ∧ challenges' = delete k challenges ∧ rests_on (g, now) (k, t).
Proof.
  unfold governance_of. destruct supplied as [g0|]; [|done].
  destruct (_ && _ && _) eqn:E; [|done].
  rewrite !andb_true_iff, Z.eqb_eq, String.eqb_eq in E. destruct E as [[? ?] ?].
  unfold spend. destruct (cgs_delivery_challenge g0) as [k|] eqn:Ek; [|done].
  destruct (challenges !! k) as [t|] eqn:Et; [|done].
  destruct (now - t <? seconds 15) eqn:Ea; [|done]. intros [= -> <-]. apply Z.ltb_lt in Ea.
  exists k, t. by repeat split.
Qed.
Lemma governance_of_sub challenges supplied now g challenges' :
  governance_of challenges supplied now = (g, challenges') → challenges' ⊆ challenges.
Proof.
  unfold governance_of, spend. destruct supplied as [g0|]; [|by intros [= _ <-]].
  destruct (_ && _ && _); [|by intros [= _ <-]].
  destruct (cgs_delivery_challenge g0) as [k|]; [|by intros [= _ <-]].
  destruct (challenges !! k); intros [= _ <-]; [apply delete_subseteq|done].
Qed.

Lemma map_to_list_sub (m m' : gmap string Z) : m ⊆ m' → map_to_list m ⊆+ map_to_list m'.
Proof. apply map_to_list_submseteq. Qed.

(** *** The policy of a request *)
(** What a turn does to the pings that are still good, and to the policies that were granted *)
Inductive moves (e : Event) (out : list Output) (c c' : gmap string Z) : Prop :=
| moves_keep : grants_of (e, out) = [] → c' ⊆ c → moves e out c c'
| moves_ping n t kept : grants_of (e, out) = [] → ping_of e = [(n, t)] → kept ⊆ c →
    c' = <[n := t]> kept → moves e out c c'
| moves_grant g k t : grants_of (e, out) = [g] → c !! k = Some t → c' = delete k c →
    rests_on g (k, t) → moves e out c c'.

Lemma sent_grants e out : (∃ f, out = [Sent f]) → grants_of (e, out) = [].
Proof. intros [f ->]. by destruct e. Qed.

Lemma requested_moves s request supplied now ok ok' gen e s' out :
  (∀ o, granted_by e o = match o with
                         | Launched fl => match fl_governance fl with Some g => [(g, now)] | None => [] end
                         | _ => [] end) →
  requested s request supplied now ok ok' gen = Ok (s', out) →
  moves e out (st_challenges s) (st_challenges s').
Proof.
  intros He. unfold requested. destruct (send ok (DeliveryAck _ _ _ _)) as [ack|] eqn:Ea; simpl; [|done]. simpl.
  apply send_ok in Ea as ->. case_bool_decide.
  { intros [= <- <-]. apply moves_keep; [|done]. unfold grants_of. simpl. by rewrite He. }
  destruct (negb _).
  { destruct (send _ _) as [o|] eqn:Eo; simpl; [|done]. simpl. apply send_ok in Eo as ->. intros [= <- <-].
    apply moves_keep; [|done]. unfold grants_of. simpl. by rewrite !He. }
  destruct (governance_of _ _ _) as [g challenges] eqn:Eg. intros [= <- <-]. simpl.
  destruct g as [g|].
  - apply governance_of_some in Eg as (k & t & Hk & -> & Hr).
    eapply moves_grant; [|done..]. unfold grants_of. simpl. by rewrite !He.
  - apply moves_keep; [|by eapply governance_of_sub]. unfold grants_of. simpl. by rewrite !He.
Qed.

Lemma turn_moves s e s' out :
  step s e = Ok (s', out) → moves e out (st_challenges s) (st_challenges s').
Proof.
  destruct e as [now nonce ok|cmd to closed ok|i answer gen ok|i|msg t1 t2 t3 closed pok ok ok' gen]; simpl.
  - unfold tick. destruct (_ <? _); [done|]. destruct (send _ _); simpl; [|done]. intros [= <- <-].
    by apply moves_keep.
  - unfold outbound. destruct (_ <=? _); [intros [= <- <-]; by apply moves_keep|].
    destruct (is_some _); [intros [= <- <-]; by apply moves_keep|].
    destruct (send _ _); simpl; [|done]. intros [= <- <-]. by apply moves_keep.
  - unfold landed. destruct (_ !! i) as [fl|]; [|intros [= <- <-]; by apply moves_keep].
    destruct (fl_stage fl); simpl.
    1: intros [= <- <-]; by apply moves_keep.
    all: destruct (send _ _); simpl; [|done]; intros [= <- <-]; by apply moves_keep.
  - unfold polled. destruct (_ !! i) as [fl|]; [|intros [= <- <-]; by apply moves_keep].
    destruct (fl_stage fl); try (intros [= <- <-]; by apply moves_keep).
    repeat match goal with |- context [if ?b then _ else _] => destruct b end;
      intros [= <- <-]; by apply moves_keep.
  - unfold incoming. destruct (frame msg) as [f|] eqn:Ef; simpl; [|done].
    destruct (frame_session f) as [[sid g]|]; [|done]. destruct (_ || _); [done|].
    destruct f; simpl; try done.
    + destruct (send _ _) as [o|] eqn:Eo; simpl; [|done]. simpl. apply send_ok in Eo as ->. intros [= <- <-].
      simpl. destruct (_ <? _).
      * eapply moves_ping; [done|by simpl; rewrite Ef| |reflexivity]. apply map_filter_subseteq.
      * apply moves_keep; [done|]. apply map_filter_subseteq.
    + intros [= <- <-]. by apply moves_keep.
    + intros E. eapply requested_moves in E; [exact E|]. by intros [].
    + destruct pok; [|done]. intros [= <- <-]. by apply moves_keep.
    + destruct (open_senders _ _ !! _); intros [= <- <-]; by apply moves_keep.
Qed.

Lemma insert_sub (n : string) (t : Z) (kept c : gmap string Z) :
  kept ⊆ c → map_to_list (<[n := t]> kept) ⊆+ (n, t) :: map_to_list c.
Proof.
  intros Hk. rewrite <- insert_delete_eq, map_to_list_insert by apply lookup_delete_eq.
  apply submseteq_skip, map_to_list_sub. etrans; [apply delete_subseteq|done].
Qed.

(** C18: The policy a flight carries is valid, of this session and installation, and answers a ping of
    this session younger than fifteen seconds; no ping answers for two flights. *)
Theorem authority_needs_ping h s :
  session h s → ∃ ps, Forall2 rests_on (grants h) ps ∧ ps ⊆+ pings h.
Proof.
  intros Hs. cut (∃ ps, Forall2 rests_on (grants h) ps ∧ ps ++ map_to_list (st_challenges s) ⊆+ pings h).
  { intros (ps & Hr & Hp). exists ps. split; [done|]. etrans; [|exact Hp]. by apply submseteq_inserts_r. }
  induction Hs as [now|h s e s' out _ (ps & Hr & Hp) E].
  { exists []. by split; [constructor|]. }
  apply turn_moves in E. unfold grants, pings in *. simpl.
  destruct E as [Hg Hc|n t kept Hg Ht Hk ->|g k t Hg Hk -> Hrest]; rewrite Hg; simpl.
  - exists ps. split; [done|]. apply submseteq_inserts_l. etrans; [|exact Hp].
    apply submseteq_skips_l, map_to_list_sub, Hc.
  - exists ps. split; [done|]. rewrite Ht. simpl. etrans; [|apply submseteq_skip, Hp].
    rewrite Permutation_middle. by apply submseteq_skips_l, insert_sub.
  - exists ((k, t) :: ps). split; [by constructor|]. apply submseteq_inserts_l. etrans; [|exact Hp].
    rewrite <- (insert_delete_id (st_challenges s) k t) at 2 by done.
    rewrite map_to_list_insert by apply lookup_delete_eq. by rewrite <- Permutation_middle.
Qed.

(** *** The bounds of a session *)
Definition ordinary (l : list Flight) : Z := count (List.filter (λ fl, negb (fl_finance_view fl)) l).
Record bounded (s : State) : Prop := {
  bo_flights : count (st_flights s) ≤ 64;
  bo_ordinary : ordinary (st_flights s) ≤ 63;
  bo_views : running fl_finance_view (st_flights s) ≤ 1;
  bo_reads : running is_read (st_flights s) ≤ 7;
  bo_ids : NoDup (map fl_id (st_flights s));
  bo_active : ∀ id, id ∈ st_active s ↔ id ∈ map fl_id (st_flights s);
  bo_pending : Z.of_nat (size (st_pending s)) ≤ 32;
  bo_challenges : Z.of_nat (size (st_challenges s)) ≤ 64;
}.

Lemma lookup_split {A} (l : list A) i x :
  l !! i = Some x → ∃ l1 l2, l = l1 ++ x :: l2 ∧ (∀ y, <[i := y]> l = l1 ++ y :: l2) ∧ delete i l = l1 ++ l2.
Proof.
  intros H. exists (take i l), (drop (S i) l).
  assert (i < List.length l)%nat by (by eapply lookup_lt_Some).
  split; [by rewrite take_drop_middle|]. split.
  - intros y. by rewrite insert_take_drop.
  - by rewrite delete_take_drop.
Qed.
Lemma count_app {A} (l1 l2 : list A) : count (l1 ++ l2) = count l1 + count l2.
Proof. unfold count. rewrite length_app. lia. Qed.
Lemma count_cons {A} (x : A) l : count (x :: l) = 1 + count l.
Proof. unfold count. simpl. lia. Qed.
Lemma count_filter_le {A} (p q : A → bool) l :
  (∀ x, p x = true → q x = true) → count (List.filter p l) ≤ count (List.filter q l).
Proof.
  intros H. induction l as [|x l IH]; simpl; [lia|].
  destruct (p x) eqn:E; [rewrite (H x E), !count_cons; lia|].
  destruct (q x); [rewrite count_cons; lia|lia].
Qed.
Lemma count_nonneg {A} (l : list A) : 0 ≤ count l.
Proof. unfold count. lia. Qed.
Lemma mid {A} (p : A → bool) l1 x l2 :
  count (List.filter p (l1 ++ x :: l2))
  = count (List.filter p l1) + (if p x then 1 else 0) + count (List.filter p l2).
Proof. rewrite List.filter_app, count_app. simpl. destruct (p x); rewrite ?count_cons; lia. Qed.

Lemma size_filter_le {A} (P : string * A → Prop) `{∀ x, Decision (P x)} (m : gmap string A) :
  Z.of_nat (size (filter P m)) ≤ Z.of_nat (size m).
Proof. apply Nat2Z.inj_le, map_subseteq_size, map_filter_subseteq. Qed.
Lemma size_insert_le {A} (k : string) (x : A) (m : gmap string A) :
  Z.of_nat (size (<[k := x]> m)) ≤ Z.of_nat (size m) + 1.
Proof.
  rewrite <- insert_delete_eq, map_size_insert_None by apply lookup_delete_eq.
  assert (size (delete k m) ≤ size m)%nat by (apply map_subseteq_size, delete_subseteq). lia.
Qed.
Lemma size_delete_le {A} (k : string) (m : gmap string A) :
  Z.of_nat (size (delete k m)) ≤ Z.of_nat (size m).
Proof. apply Nat2Z.inj_le, map_subseteq_size, delete_subseteq. Qed.

(** A turn that leaves the flights alone *)
Lemma bounded_same s s' :
  bounded s → st_flights s' = st_flights s → st_active s' = st_active s →
  Z.of_nat (size (st_pending s')) ≤ 32 → Z.of_nat (size (st_challenges s')) ≤ 64 → bounded s'.
Proof. intros [] Hf Ha ? ?. split; rewrite ?Hf, ?Ha; auto. Qed.
(** A flight changes its stage *)
Lemma bounded_stage s i fl stage :
  bounded s → st_flights s !! i = Some fl → is_running fl = false →
  (stage = Running → fl_finance_view fl = true → running fl_finance_view (st_flights s) < 1) →
  (stage = Running → is_read fl = true → running is_read (st_flights s) < 7) →
  bounded (with_flights s (st_active s) (<[i := with_stage fl stage]> (st_flights s))).
Proof.
  intros [] Hl Hr Hv Hd. apply lookup_split in Hl as (l1 & l2 & El & Ei & _).
  unfold ordinary, running in *. rewrite El in *. 
  split; simpl; rewrite ?Ei; unfold ordinary, running; rewrite ?map_app in *; simpl in *; auto.
  - by rewrite count_app, count_cons in *.
  - by rewrite mid in *.
  - rewrite mid in *. simpl. rewrite Hr in *. rewrite andb_false_r in *. destruct stage; simpl; rewrite ?andb_false_r; try lia.
    destruct (fl_finance_view fl); simpl in *; [specialize (Hv eq_refl eq_refl)|]; lia.
  - rewrite mid in *. rewrite Hr in *. rewrite andb_false_r in *. destruct stage; simpl; rewrite ?andb_false_r; try lia.
    change (is_read (with_stage fl Running)) with (is_read fl).
    destruct (is_read fl); simpl in *; [specialize (Hd eq_refl eq_refl)|]; lia.
Qed.

Lemma bounded_polled s i s' out : bounded s → polled s i = Ok (s', out) → bounded s'.
Proof.
  intros Hb. unfold polled. destruct (_ !! i) as [fl|] eqn:El; [|by intros [= <- _]].
  destruct (fl_stage fl) eqn:Es; try by intros [= <- _].
  assert (Hr : is_running fl = false) by (unfold is_running; by rewrite Es).
  destruct (fl_finance_view fl) eqn:Ev.
  - destruct (_ <? 1) eqn:Ec; intros [= <- _]; apply bounded_stage; auto; try done.
    + intros _ _. by apply Z.ltb_lt.
    + intros _. unfold is_read. by rewrite Ev.
  - destruct (direct_transport_read_only _) eqn:Ed.
    + destruct (_ <? 7) eqn:Ec; intros [= <- _]; [|done].
      apply bounded_stage; auto; [by rewrite Ev|]. intros _ _. by apply Z.ltb_lt.
    + intros [= <- _]. apply bounded_stage; auto; [by rewrite Ev|].
      intros _. unfold is_read. by rewrite Ed, andb_false_r.
Qed.

Lemma bounded_landed s i answer gen ok s' out :
  bounded s → landed s i answer gen ok = Ok (s', out) → bounded s'.
Proof.
  intros Hb. unfold landed. destruct (_ !! i) as [fl|] eqn:El; [|by intros [= <- _]].
  destruct (match fl_stage fl with Waiting => _ | _ => _ end); [|by intros [= <- _]].
  destruct (send _ _); simpl; [|done]. intros [= <- _].
  destruct Hb. apply lookup_split in El as (l1 & l2 & El & _ & Ed).
  unfold ordinary, running in *. rewrite El in *.
  split; simpl; rewrite ?Ed; unfold ordinary, running; auto.
  - rewrite !count_app, ?count_cons in *. lia.
  - rewrite mid in *. rewrite List.filter_app, count_app. destruct (negb _); lia.
  - rewrite mid in *. rewrite List.filter_app, count_app. destruct (_ && _); lia.
  - rewrite mid in *. rewrite List.filter_app, count_app. destruct (is_read fl && _); lia.
  - rewrite map_app in *. simpl in *. rewrite NoDup_app, NoDup_cons in *. set_solver.
  - intros id. rewrite elem_of_difference, elem_of_singleton, bo_active0.
    rewrite !map_app in *. simpl in *. rewrite NoDup_app, NoDup_cons in *.
    rewrite !elem_of_app, elem_of_cons. set_solver.
Qed.

Lemma bounded_requested s request supplied now ok ok' gen s' out :
  bounded s → requested s request supplied now ok ok' gen = Ok (s', out) → bounded s'.
Proof.
  intros Hb. unfold requested. destruct (send ok (DeliveryAck _ _ _ _)); simpl; [|done].
  case_bool_decide as Hid; [by intros [= <- _]|].
  destruct (negb _) eqn:Ef. { destruct (send _ _); simpl; [|done]. by intros [= <- _]. }
  destruct (governance_of _ _ _) as [g challenges] eqn:Eg. intros [= <- _].
  apply governance_of_sub in Eg. apply negb_false_iff, Z.ltb_lt in Ef. destruct Hb.
  rewrite bo_active0 in Hid.
  assert (Hw : ∀ a b c d, is_running (Build_Flight a b c d Waiting) = false) by done.
  split; simpl; unfold ordinary, running; rewrite ?mid, ?map_app; simpl; auto.
  - rewrite count_app, count_cons. change (count []) with 0. destruct (is_finance_view _); lia.
  - pose proof (count_filter_le (λ fl, negb (fl_finance_view fl)) (λ _, true) (st_flights s) (λ _ _, eq_refl)) as Hl.
    assert (List.filter (λ _, true) (st_flights s) = st_flights s) as Ht.
    { clear. induction (st_flights s); simpl; congruence. }
    rewrite Ht in Hl. unfold ordinary in *. change (count []) with 0.
    destruct (is_finance_view _); simpl; lia.
  - rewrite Hw, andb_false_r. change (count []) with 0. unfold running in *. lia.
  - rewrite Hw, andb_false_r. change (count []) with 0. unfold running in *. lia.
  - apply NoDup_app. split; [done|]. split; [|apply NoDup_singleton].
    intros id Hin ->%list_elem_of_singleton. done.
  - intros id. rewrite elem_of_union, elem_of_singleton, elem_of_app, list_elem_of_singleton, bo_active0. tauto.
  - etrans; [|exact bo_challenges0]. by apply Nat2Z.inj_le, map_subseteq_size.
Qed.

(** C21: At most 64 requests are in flight and at most 63 of them are no diagnostics, so the slot of a
    diagnostic is always free for the first; one diagnostic and seven reads run at a time; the
    requests in flight have distinct ids, those of [active]; at most 32 commands wait for their
    result and 64 pings are remembered. *)
Theorem flights_bounded h s : session h s → bounded s.
Proof.
  induction 1 as [now|h s e s' out _ Hb E].
  { split; simpl; unfold ordinary, running; simpl; rewrite ?map_size_empty; try (unfold count; simpl; lia).
    - constructor.
    - intros id. set_solver. }
  destruct e as [now nonce ok|cmd to closed ok|i answer gen ok|i|msg t1 t2 t3 closed pok ok ok' gen]; simpl in E.
  - unfold tick in E. destruct (_ <? _); [done|]. destruct (send _ _); simpl in E; [|done]. by injection E as <- _.
  - assert (Hp : Z.of_nat (size (open_senders closed (st_pending s))) ≤ 32).
    { etrans; [apply size_filter_le|apply Hb]. }
    unfold outbound in E. destruct (32 <=? _) eqn:Ec.
    { injection E as <- _. apply (bounded_same s); auto. apply Hb. }
    destruct (is_some _). { injection E as <- _. apply (bounded_same s); auto. apply Hb. }
    destruct (send _ _); simpl in E; [|done]. injection E as <- _. apply Z.leb_gt in Ec.
    apply (bounded_same s); auto; [|apply Hb]. simpl. etrans; [apply size_insert_le|]. lia.
  - by eapply bounded_landed.
  - by eapply bounded_polled.
  - unfold incoming in E. destruct (frame msg) as [f|]; simpl in E; [|done].
    destruct (frame_session f) as [[sid g]|]; [|done]. destruct (_ || _); [done|].
    assert (Hs : bounded (seen s t1)) by (by apply (bounded_same s); auto; apply Hb).
    destruct f; simpl in E; try done.
    + destruct (send _ _); simpl in E; [|done]. injection E as <- _. apply (bounded_same s); auto; [apply Hb|].
      simpl. destruct (_ <? 64) eqn:Ec.
      * apply Z.ltb_lt in Ec. etrans; [apply size_insert_le|]. lia.
      * etrans; [apply size_filter_le|apply Hb].
    + by injection E as <- _.
    + by eapply bounded_requested.
    + destruct pok; [|done]. by injection E as <- _.
    + injection E as <- _. apply (bounded_same s); auto; [|apply Hb].
      simpl. etrans; [apply size_delete_le|]. etrans; [apply size_filter_le|apply Hb].
Qed.
End transport.
