(* ===== verification/Preflight.v ===== *)
(** * Preflight: the keys of an account, [okx-agent/src/execution_preflight.rs]

    The comparison of the read-only key and the trading key of an account before it is
    connected, the evidence of its order limit, and the read-out of what still blocks an
    order.  [credentials_sound]: what accepted keys are; [snapshot_sound]: what an accepted
    snapshot stands on. *)
From stdpp Require Import base option list numbers strings.
From Stdlib Require Import ZArith Lia Ascii String.
From S2P Require Import Prelude Text Ordered External Wire RateBudget Clock Account PrivateRuntime Protocol TradeApi Requests.
Local Open Scope string_scope.
Local Open Scope list_scope.
Local Open Scope Z_scope.

Definition EXECUTOR_CREDENTIAL_PREFLIGHT_SCHEMA_V1 : string := "okx.executor-credential-preflight/v1".
Definition EXECUTOR_PREFLIGHT_SCHEMA_V3 : string := "okx.executor-preflight/v3".
Definition EXECUTOR_PREFLIGHT_SCHEMA_V4 : string := "okx.executor-preflight/v4".

Record ExecutorCredentialPreflight : Type := {
  ecp_schema : string;
  ecp_accepted : bool;
  ecp_observer_read_only : bool;
  ecp_observer_private_ws_converged : bool;
  ecp_executor_read_permission : bool;
  ecp_executor_trade_permission : bool;
  ecp_executor_withdraw_permission : bool;
  ecp_executor_ip_bound : bool;
  ecp_account_identity_match : bool;
  ecp_account_uid_fingerprint : string;
  ecp_futures_mode : bool;
  ecp_long_short_mode : bool;
  ecp_subaccount : bool;
  ecp_production_environment : bool;
}.
Record ExecutorPreflightSnapshot : Type := {
  eps_schema : string;
  eps_accepted : bool;
  eps_credential : ExecutorCredentialPreflight;
  eps_clock : ClockEvidenceSnapshot;
  eps_account_rate_limit : AccountRateLimitEvidence;
  eps_rate_budget : RateBudgetSnapshot;
}.
Record ProtectedOcoReadiness : Type := {
  por_event_monitor_ready : bool;
  por_exchange_atomicity_proven : bool;
  por_exclusive_account_writer_proven : bool;
  por_private_ws : option PrivateWsStatus;
}.
Record ExecutorPreflightReadout : Type := {
  epr_preflight : ExecutorPreflightSnapshot;
  epr_execution_right : string;
  epr_admission_blockers : list string;
  epr_protected_oco : ProtectedOcoReadiness;
}.

(** [str::split(',')], [trim], the empty ones dropped, in lower case *)
Definition permissions (value : string) : list string :=
  map to_ascii_lowercase
    (List.filter (λ v, negb (v =? "")%string) (map trim (split_on "," value))).

Section keys.
  Context `{Hashing}.

Definition evaluate_common (environment_demo : bool) (observer_read_only observer_private_ws_converged : bool)
    (observer_fingerprint observer_account_level observer_position_mode : string)
    (executor_permissions : list string) (executor : AccountConfig) (require_demo_environment : bool)
    : ExecutorCredentialPreflight :=
  let read := one_of executor_permissions "read_only" in
  let trade := one_of executor_permissions "trade" in
  let withdraw := one_of executor_permissions "withdraw" in
  let exact := (count executor_permissions =? 2) && read && trade in
  let ip_bound := negb (trim (ac_ip executor) =? "")%string in
  let executor_fingerprint := account_uid_fingerprint (ac_uid executor) in
  let identity := negb (observer_fingerprint =? "")%string && negb (ac_uid executor =? "")%string
                  && (observer_fingerprint =? executor_fingerprint)%string in
  let futures := (observer_account_level =? "2")%string && (ac_account_level executor =? "2")%string in
  let long_short := (observer_position_mode =? "long_short_mode")%string
                    && (ac_position_mode executor =? "long_short_mode")%string in
  let subaccount := negb (ac_uid executor =? "")%string && negb (ac_main_uid executor =? "")%string
                    && negb (ac_uid executor =? ac_main_uid executor)%string in
  let accepted := observer_read_only && observer_private_ws_converged && exact && negb withdraw
                  && identity && futures && long_short && subaccount
                  && Bool.eqb environment_demo require_demo_environment in
  {| ecp_schema := EXECUTOR_CREDENTIAL_PREFLIGHT_SCHEMA_V1; ecp_accepted := accepted;
     ecp_observer_read_only := observer_read_only;
     ecp_observer_private_ws_converged := observer_private_ws_converged;
     ecp_executor_read_permission := read; ecp_executor_trade_permission := trade;
     ecp_executor_withdraw_permission := withdraw; ecp_executor_ip_bound := ip_bound;
     ecp_account_identity_match := identity; ecp_account_uid_fingerprint := executor_fingerprint;
     ecp_futures_mode := futures; ecp_long_short_mode := long_short; ecp_subaccount := subaccount;
     ecp_production_environment := negb environment_demo |}.

(** [== ["read_only"]] *)
Definition read_only (permissions : list string) : bool := bool_decide (permissions = ["read_only"]).

Definition against_snapshot (require_demo environment_demo : bool) (observer : AccountSnapshot)
    (executor : AccountConfig) : ExecutorCredentialPreflight :=
  evaluate_common environment_demo (read_only (acs_api_key_permissions observer))
    ((acs_schema observer =? ACCOUNT_SNAPSHOT_SCHEMA_V2)%string && acs_private_ws_connected observer)
    (acs_account_uid_fingerprint observer) (acs_account_level observer) (acs_position_mode observer)
    (permissions (ac_perm executor)) executor require_demo.
Definition evaluate_executor_preflight_against_snapshot : bool → AccountSnapshot → AccountConfig →
    ExecutorCredentialPreflight := against_snapshot false.
Definition evaluate_demo_executor_preflight_against_snapshot : bool → AccountSnapshot → AccountConfig →
    ExecutorCredentialPreflight := against_snapshot true.

Definition against_config (require_demo environment_demo : bool) (observer executor : AccountConfig)
    : ExecutorCredentialPreflight :=
  evaluate_common environment_demo (read_only (permissions (ac_perm observer))) true
    (account_uid_fingerprint (ac_uid observer)) (ac_account_level observer) (ac_position_mode observer)
    (permissions (ac_perm executor)) executor require_demo.
Definition evaluate_executor_preflight : bool → AccountConfig → AccountConfig →
    ExecutorCredentialPreflight := against_config false.
Definition evaluate_demo_executor_preflight : bool → AccountConfig → AccountConfig →
    ExecutorCredentialPreflight := against_config true.

(** [verify_credentials] of accounts.rs, on the configurations both keys answered with *)
Definition verify_credentials (environment_demo : bool) (observer executor : AccountConfig)
    : result string string :=
  let r := (if environment_demo then evaluate_demo_executor_preflight else evaluate_executor_preflight)
             environment_demo observer executor in
  if ecp_accepted r then Ok (ecp_account_uid_fingerprint r)
  else Err "ACCOUNT_CREDENTIAL_IDENTITY_OR_PERMISSIONS_INVALID".
End keys.

Definition account_rate_limit_accepted (credential : ExecutorCredentialPreflight)
    (limit : AccountRateLimitEvidence) (budget : RateBudgetSnapshot) : bool :=
  if rle_current_orders_per_2s limit =? 0 then false else
  match rle_source limit with
  | ExchangeLimit =>
    is_some (rle_updated_at_ms limit)
    && bool_decide (snap_observed_at_ms budget = rle_updated_at_ms limit)
    && (snap_current_limit budget =? rle_current_orders_per_2s limit)
  | DemoBaseFallback =>
    negb (ecp_production_environment credential)
    && (rle_current_orders_per_2s limit =? DEFAULT_SUBACCOUNT_ORDER_LIMIT_PER_2S)
    && negb (is_some (rle_updated_at_ms limit))
    && (snap_current_limit budget =? DEFAULT_SUBACCOUNT_ORDER_LIMIT_PER_2S)
    && negb (is_some (snap_observed_at_ms budget))
  end.

Definition snapshot_new (credential : ExecutorCredentialPreflight) (clock : ClockEvidenceSnapshot)
    (limit : AccountRateLimitEvidence) (budget : RateBudgetSnapshot) : ExecutorPreflightSnapshot :=
  {| eps_schema := EXECUTOR_PREFLIGHT_SCHEMA_V3;
     eps_accepted := ecp_accepted credential && ces_accepted clock
                     && account_rate_limit_accepted credential limit budget;
     eps_credential := credential; eps_clock := clock; eps_account_rate_limit := limit;
     eps_rate_budget := budget |}.

Definition observed_execution_right (preflight : ExecutorPreflightSnapshot)
    (demo_mutations_configured : bool) : string * list string :=
  let c := eps_credential preflight in
  let '(execution_right, blockers) :=
    if ecp_production_environment c then
      if demo_mutations_configured && eps_accepted preflight
      then ("PRODUCTION_POLICY_SELECTED", [])
      else ("PRODUCTION_READ_ONLY", ["PRODUCTION_EXECUTOR_NOT_ADMITTED"])
    else if demo_mutations_configured then ("DEMO_MUTATIONS_CONFIGURED", [])
    else ("DEMO_READ_ONLY", ["DEMO_EXECUTION_RIGHT_READ_ONLY"]) in
  (execution_right,
   blockers
   ++ (if negb (ecp_accepted c) && negb (execution_right =? "DEMO_READ_ONLY")%string
       then ["CREDENTIAL_PREFLIGHT_NOT_ACCEPTED"] else [])
   ++ (if negb (ces_accepted (eps_clock preflight)) then ["EXECUTOR_CLOCK_NOT_ACCEPTED"] else [])
   ++ (if negb (eps_accepted preflight) && ecp_accepted c && ces_accepted (eps_clock preflight)
       then ["ACCOUNT_RATE_LIMIT_NOT_ACCEPTED"] else [])).

Definition readout_new (preflight : ExecutorPreflightSnapshot) (private_ws : option PrivateWsStatus)
    (demo_mutations_configured : bool) : ExecutorPreflightReadout :=
  let '(execution_right, blockers) := observed_execution_right preflight demo_mutations_configured in
  {| epr_preflight :=
       {| eps_schema := EXECUTOR_PREFLIGHT_SCHEMA_V4; eps_accepted := eps_accepted preflight;
          eps_credential := eps_credential preflight; eps_clock := eps_clock preflight;
          eps_account_rate_limit := eps_account_rate_limit preflight;
          eps_rate_budget := eps_rate_budget preflight |};
     epr_execution_right := execution_right; epr_admission_blockers := blockers;
     epr_protected_oco :=
       {| por_event_monitor_ready := is_some_and pws_algo_subscription_ready private_ws;
          por_exchange_atomicity_proven := false; por_exclusive_account_writer_proven := false;
          por_private_ws := private_ws |} |}.

(** ** Facts *)
Lemma two_permissions (l : list string) :
  count l = 2 → "read_only" ∈ l → "trade" ∈ l → l = ["read_only"; "trade"] ∨ l = ["trade"; "read_only"].
Proof.
  unfold count. destruct l as [|a [|b [|c l]]]; simpl; try lia. intros _.
  rewrite !elem_of_cons, !elem_of_nil. intros [H1|[H1|[]]] [H2|[H2|[]]];
    first [congruence | left; congruence | right; congruence].
Qed.

(** The keys of an account are accepted only if the observing key has the one permission to
    read and the trading key exactly those to read and to trade, both are keys of the same
    account, a sub-account in futures and long-short mode, and the exchange is the one, demo or
    real, the keys were stored for. *)
Theorem credentials_sound `{Hashing} environment_demo observer executor fingerprint :
  verify_credentials environment_demo observer executor = Ok fingerprint →
  permissions (ac_perm observer) = ["read_only"]
  ∧ (permissions (ac_perm executor) = ["read_only"; "trade"]
     ∨ permissions (ac_perm executor) = ["trade"; "read_only"])
  ∧ fingerprint = account_uid_fingerprint (ac_uid executor)
  ∧ account_uid_fingerprint (ac_uid observer) = account_uid_fingerprint (ac_uid executor)
  ∧ ac_uid executor ≠ "" ∧ ac_main_uid executor ≠ "" ∧ ac_uid executor ≠ ac_main_uid executor
  ∧ ac_account_level observer = "2" ∧ ac_account_level executor = "2"
  ∧ ac_position_mode observer = "long_short_mode" ∧ ac_position_mode executor = "long_short_mode".
Proof.
  unfold verify_credentials. destruct (ecp_accepted _) eqn:E; [|done].
  intros [= <-]. unfold evaluate_demo_executor_preflight, evaluate_executor_preflight, against_config in *.
  assert (Ha : ecp_accepted (evaluate_common environment_demo (read_only (permissions (ac_perm observer)))
    true (account_uid_fingerprint (ac_uid observer)) (ac_account_level observer)
    (ac_position_mode observer) (permissions (ac_perm executor)) executor environment_demo) = true)
    by (by destruct environment_demo).
  unfold evaluate_common in Ha. simpl in Ha.
  rewrite !andb_true_iff, !negb_true_iff, !String.eqb_eq, !String.eqb_neq, !one_of_iff, Z.eqb_eq in Ha.
  unfold read_only in Ha. rewrite bool_decide_eq_true in Ha.
  destruct Ha as ((((((((Ho & _) & ((Hc & Hr) & Ht)) & _) & Hi) & Hf) & Hl) & Hs) & _).
  repeat split; try tauto; [by apply two_permissions|]. by destruct environment_demo.
Qed.

(** An accepted snapshot has accepted keys, an accepted clock and an order limit that the budget
    enforces: the one the exchange reported last, or on the demo exchange the documented one when
    it reports none.  Then nothing is reported as blocking, and only then may a real account be
    shown as selected for orders. *)
Theorem snapshot_sound credential clock limit budget configured :
  let s := snapshot_new credential clock limit budget in
  (eps_accepted s = true →
     ecp_accepted credential = true ∧ ces_accepted clock = true
     ∧ rle_current_orders_per_2s limit ≠ 0
     ∧ snap_current_limit budget = rle_current_orders_per_2s limit
     ∧ snap_observed_at_ms budget = rle_updated_at_ms limit
     ∧ (ecp_production_environment credential = true →
        rle_source limit = ExchangeLimit ∧ rle_updated_at_ms limit ≠ None))
  ∧ (configured = true →
     (snd (observed_execution_right s configured) = [] ↔ eps_accepted s = true))
  ∧ (fst (observed_execution_right s configured) = "PRODUCTION_POLICY_SELECTED" →
     ecp_production_environment credential = true ∧ eps_accepted s = true).
Proof.
  simpl. split; [|split].
  - intros [[Hc Hk]%andb_true_iff Hl]%andb_true_iff. split; [done|]. split; [done|].
    unfold account_rate_limit_accepted in Hl. destruct (_ =? 0) eqn:E; [done|].
    apply Z.eqb_neq in E. split; [done|]. destruct (rle_source limit).
    + rewrite !andb_true_iff, bool_decide_eq_true, Z.eqb_eq in Hl. destruct Hl as [[Hu Ho] Hn].
      repeat split; try done. by destruct (rle_updated_at_ms limit).
    + rewrite !andb_true_iff, !negb_true_iff, !Z.eqb_eq in Hl. destruct Hl as [[[[Hp Hn] Hu] Hm] Ho].
      repeat split; try congruence.
      by destruct (snap_observed_at_ms budget), (rle_updated_at_ms limit).
  - intros ->. unfold observed_execution_right, snapshot_new. simpl.
    destruct (ecp_production_environment credential) eqn:Ep, (ecp_accepted credential), (ces_accepted clock),
      (account_rate_limit_accepted credential limit budget); simpl; split; done.
  - unfold observed_execution_right, snapshot_new. simpl.
    destruct (ecp_production_environment credential), configured; simpl; try done.
    destruct (_ && account_rate_limit_accepted _ _ _); simpl; done.
Qed.
