(* ===== verification/GitHub.v ===== *)
(** * GitHub: the client of the mailbox and of the releases, [okx-github/src/lib.rs]

    Classification of failures and the delay before the next attempt, the persisted
    checkpoint of an issue, the paged and conditional reading of its comments, and the
    download of an artifact in parts.  What the server answers is an argument.
    [fetch_exact]: a read finds exactly the comments after the cursor, in order, or fails;
    [download_assembles]: a completed download is one representation of the file, made of its
    successive parts only; [download_ends]: it ends. *)
From stdpp Require Import base option list numbers strings gmap sets sorting.
From Stdlib Require Import ZArith Lia Ascii String.
From S2P Require Import Prelude Text Ordered External Protocol Requests Session.
Local Open Scope string_scope.
Local Open Scope list_scope.
Local Open Scope Z_scope.

Definition REPOSITORY : string := "iamaman11/okx".
Definition REPOSITORY_ID : Z := 1388071566.
Definition OWNER_USER_ID : Z := 44100369.
Definition COMMENTS_PER_PAGE : Z := 100.
Definition MAX_COMMENT_PAGES : Z := 10.
Definition MAX_COMMENT_BODY_BYTES : Z := 64 * 1024.
Definition ISSUE_CURSOR_SCHEMA_V1 : string := "okx.github.issue-cursor/v1".
Definition GITHUB_ARTIFACT_RANGE_BYTES : Z := 2 * 1024 * 1024.
Definition GITHUB_ARTIFACT_TOTAL_DEADLINE : Z := 15 * 60 * 1000000000.
Definition MAX_GITHUB_ARTIFACT_ZIP_BYTES : Z := 256 * 1024 * 1024.

(** ** Failures *)
Inductive GitHubFailureClass : Type :=
| Authentication | PrimaryRateLimit | SecondaryRateLimit | PermissionOrResource
| TransientServer | Network | Timeout | Decode | UnexpectedResponse.
#[export] Instance GitHubFailureClass_eq_dec : EqDecision GitHubFailureClass.
Proof. solve_decision. Defined.
Record GitHubResponseError : Type := {
  gre_class : GitHubFailureClass;
  gre_status : Z;
  gre_rate_limit_limit : option Z;
  gre_rate_limit_remaining : option Z;
  gre_rate_limit_reset : option Z;
  gre_retry_after_seconds : option Z;
  gre_request_id : option string;
}.
(** Of a failed read only [timeout] matters here *)
Inductive GitHubError : Type :=
| Http (is_timeout : bool)
| ResponseError (e : GitHubResponseError)
| DecodeError
| JsonAtPhase (phase : string)
| BodyRead (timeout : bool)
| BodyTooLarge (phase : string) (max_bytes received_bytes : Z) (content_length : option Z)
| ArtifactRangeInvalid
| ArtifactDownloadDeadlineExceeded
| RepositoryIdentityMismatch
| InvalidIssueNumber
| HistoryLimitExceeded
| CommentTooLarge
| UntrustedWorkflowRun
| UntrustedArtifact
| CursorJson
| CursorStateMismatch
| CursorIo
| TelemetryJson
| TelemetryStateMismatch
| TelemetryTimestamp
| TelemetryIo.

Definition classify_http_failure (is_timeout : bool) : GitHubFailureClass :=
  if is_timeout then Timeout else Network.
Definition failure_class (e : GitHubError) : GitHubFailureClass :=
  match e with
  | Http t | BodyRead t => classify_http_failure t
  | ResponseError e => gre_class e
  | DecodeError | JsonAtPhase _ => Decode
  | ArtifactDownloadDeadlineExceeded => Timeout
  | _ => UnexpectedResponse
  end.
Definition response_error (e : GitHubError) : option GitHubResponseError :=
  match e with ResponseError e => Some e | _ => None end.

Definition classify_status (status : Z) (remaining retry_after : option Z) : GitHubFailureClass :=
  let limited := (status =? 403) || (status =? 429) in
  if status =? 401 then Authentication
  else if limited && is_some retry_after then SecondaryRateLimit
  else if limited && bool_decide (remaining = Some 0) then PrimaryRateLimit
  else if status =? 429 then SecondaryRateLimit
  else if (status =? 403) || (status =? 404) then PermissionOrResource
  else if within 500 599 status then TransientServer
  else if within 400 499 status then PermissionOrResource
  else UnexpectedResponse.

(** The headers of an answer, those that are text *)
Definition Headers : Type := string → option string.
Definition header_u64 (h : Headers) (name : string) : option Z := v ← h name; parse_u64 (trim v).
Definition header_text (h : Headers) (name : string) : option string :=
  v ← h name; if (trim v =? "")%string then None else Some (String.substring 0 128 (trim v)).
Definition classify_response_error (status : Z) (h : Headers) : GitHubResponseError :=
  let remaining := header_u64 h "x-ratelimit-remaining" in
  let retry_after := header_u64 h "retry-after" in
  {| gre_class := classify_status status remaining retry_after; gre_status := status;
     gre_rate_limit_limit := header_u64 h "x-ratelimit-limit"; gre_rate_limit_remaining := remaining;
     gre_rate_limit_reset := header_u64 h "x-ratelimit-reset"; gre_retry_after_seconds := retry_after;
     gre_request_id := header_text h "x-github-request-id" |}.

(** ** Waiting after a failure; times are in seconds *)
Definition TRANSIENT : list Z := [1; 5; 15; 30; 60].
Definition SLOW : list Z := [60; 120; 300; 300].
Definition pick (l : list Z) (attempt : Z) : Z :=
  nth (Z.to_nat (Z.min attempt (count l - 1))) l 0.
Definition retry_delay_for (e : GitHubError) (attempt now_epoch_seconds : Z) : Z :=
  match response_error e ≫= gre_retry_after_seconds with
  | Some retry_after => Z.max 1 retry_after
  | None =>
    match failure_class e with
    | PrimaryRateLimit =>
      match response_error e ≫= gre_rate_limit_reset with
      | Some reset => Z.max 1 (saturating_sub_u64 reset now_epoch_seconds)
      | None => 60
      end
    | SecondaryRateLimit | Authentication | PermissionOrResource | Decode | UnexpectedResponse =>
      pick SLOW attempt
    | TransientServer | Network | Timeout => pick TRANSIENT attempt
    end
  end.
Record GitHubBackoff : Type := {
  bk_failure_count : Z;
  bk_next_retry_at : option Z;
  bk_last_class : option GitHubFailureClass;
}.
Definition backoff_default : GitHubBackoff :=
  {| bk_failure_count := 0; bk_next_retry_at := None; bk_last_class := None |}.
Definition ready (b : GitHubBackoff) (now : Z) : bool :=
  is_none_or (λ deadline, deadline <=? now) (bk_next_retry_at b).
Definition remaining (b : GitHubBackoff) (now : Z) : option Z :=
  d ← bk_next_retry_at b; let left := Z.max 0 (d - now) in if left =? 0 then None else Some left.
Definition on_success (b : GitHubBackoff) : GitHubBackoff := backoff_default.
Definition on_error (b : GitHubBackoff) (e : GitHubError) (now_epoch now : Z) : Z * GitHubBackoff :=
  let delay := retry_delay_for e (bk_failure_count b) now_epoch in
  (delay, {| bk_failure_count := Z.min u32_max (bk_failure_count b + 1);
             bk_next_retry_at := Some (now + delay); bk_last_class := Some (failure_class e) |}).

(** ** Comments, cursors and the checkpoint of an issue *)
Record IssueCommentCursor : Type := { icc_created_at : string; icc_id : Z }.
#[export] Instance IssueCommentCursor_eq_dec : EqDecision IssueCommentCursor.
Proof. solve_decision. Defined.
Record IssueComment : Type := {
  ic_id : Z;
  ic_body : string;
  ic_user_id : Z;
  ic_created_at : string;
}.
Definition cursor (c : IssueComment) : IssueCommentCursor :=
  {| icc_created_at := ic_created_at c; icc_id := ic_id c |}.
(** The derived order: by time, then by id *)
Definition cursor_cmp (a b : IssueCommentCursor) : comparison :=
  match str_cmp (icc_created_at a) (icc_created_at b) with
  | Eq => Z.compare (icc_id a) (icc_id b)
  | c => c
  end.
Definition cursor_lt (a b : IssueCommentCursor) : bool :=
  match cursor_cmp a b with Lt => true | _ => false end.
Definition comment_cmp (a b : IssueComment) : comparison := cursor_cmp (cursor a) (cursor b).
Definition sort_by_key : list IssueComment → list IssueComment := sort_by comment_cmp.

Record IssueCheckpoint : Type := {
  ick_cursor : option IssueCommentCursor;
  ick_terminal_request_ids : gset string;
  ick_ledger_initialized : bool;
}.
Definition checkpoint_default : IssueCheckpoint :=
  {| ick_cursor := None; ick_terminal_request_ids := ∅; ick_ledger_initialized := false |}.
Record PersistedIssueCursor : Type := {
  pic_schema : string;
  pic_repository_id : Z;
  pic_issue_number : Z;
  pic_cursor : IssueCommentCursor;
  pic_terminal_request_ids : gset string;
  pic_ledger_initialized : bool;
}.
(** The file of the checkpoint: absent, unreadable, no JSON of this type, or a checkpoint *)
Inductive CursorFile : Type := Absent | Unreadable | Garbled | Persisted (p : PersistedIssueCursor).

Definition validate_issue_number (issue_number : Z) : result GitHubError unit :=
  if issue_number =? 0 then Err InvalidIssueNumber else Ok tt.

Definition load_checkpoint (issue_number : Z) (file : CursorFile) : result GitHubError IssueCheckpoint :=
  match file with
  | Absent => Ok checkpoint_default
  | Unreadable => Err CursorIo
  | Garbled => Err CursorJson
  | Persisted p =>
    if negb (pic_schema p =? ISSUE_CURSOR_SCHEMA_V1)%string || negb (pic_repository_id p =? REPOSITORY_ID)
       || negb (pic_issue_number p =? issue_number)
    then Err CursorStateMismatch
    else Ok {| ick_cursor := Some (pic_cursor p);
               ick_terminal_request_ids := pic_terminal_request_ids p;
               ick_ledger_initialized := pic_ledger_initialized p |}
  end.
(** How far the writing of the file gets: it fails before the old file is removed, between its
    removal and the renaming, or not at all *)
Inductive SaveFault : Type := BeforeRemove | BeforeRename | NoFault.
Definition save_checkpoint (issue_number : Z) (file : CursorFile) (c : IssueCommentCursor)
    (terminal_request_ids : gset string) (ledger_initialized : bool) (fault : SaveFault)
    : result GitHubError unit * CursorFile :=
  match fault with
  | BeforeRemove => (Err CursorIo, file)
  | BeforeRename => (Err CursorIo, Absent)
  | NoFault =>
    (Ok tt, Persisted {| pic_schema := ISSUE_CURSOR_SCHEMA_V1; pic_repository_id := REPOSITORY_ID;
                         pic_issue_number := issue_number; pic_cursor := c;
                         pic_terminal_request_ids := terminal_request_ids;
                         pic_ledger_initialized := ledger_initialized |})
  end.
Definition save (issue_number : Z) (file : CursorFile) (c : IssueCommentCursor) (fault : SaveFault)
    : result GitHubError unit * CursorFile :=
  match load_checkpoint issue_number file with
  | Ok k => save_checkpoint issue_number file c (ick_terminal_request_ids k) (ick_ledger_initialized k) fault
  | Err e => (Err e, file)
  end.

(** ** Reading comments *)
Record CommentRequestKey : Type := {
  crk_issue_number : Z;
  crk_since : option string;
  crk_page : Z;
}.
#[export] Instance CommentRequestKey_eq_dec : EqDecision CommentRequestKey.
Proof. solve_decision. Defined.
Record GitHubCommentFetchStats : Type := {
  fs_ok_responses : Z;
  fs_conditional_attempts : Z;
  fs_not_modified_responses : Z;
}.
Record CommentConditionalState : Type := {
  ccs_validator : option (CommentRequestKey * string);
  ccs_stats : GitHubCommentFetchStats;
}.
Definition with_stats (f : GitHubCommentFetchStats → GitHubCommentFetchStats)
    (s : CommentConditionalState) : CommentConditionalState :=
  {| ccs_validator := ccs_validator s; ccs_stats := f (ccs_stats s) |}.
Definition etag_for (s : CommentConditionalState) (key : CommentRequestKey)
    : option string * CommentConditionalState :=
  match ccs_validator s with
  | Some (stored, etag) =>
    if bool_decide (stored = key) then
      (Some etag,
       with_stats (λ t, {| fs_ok_responses := fs_ok_responses t;
                           fs_conditional_attempts := saturating_add_u64 (fs_conditional_attempts t) 1;
                           fs_not_modified_responses := fs_not_modified_responses t |}) s)
    else (None, s)
  | None => (None, s)
  end.
Definition clear (s : CommentConditionalState) : CommentConditionalState :=
  {| ccs_validator := None; ccs_stats := ccs_stats s |}.
Definition arm (s : CommentConditionalState) (key : CommentRequestKey) (etag : string)
    : CommentConditionalState :=
  {| ccs_validator := Some (key, etag); ccs_stats := ccs_stats s |}.
Definition record_ok : CommentConditionalState → CommentConditionalState :=
  with_stats (λ t, {| fs_ok_responses := saturating_add_u64 (fs_ok_responses t) 1;
                      fs_conditional_attempts := fs_conditional_attempts t;
                      fs_not_modified_responses := fs_not_modified_responses t |}).
Definition record_not_modified : CommentConditionalState → CommentConditionalState :=
  with_stats (λ t, {| fs_ok_responses := fs_ok_responses t;
                      fs_conditional_attempts := fs_conditional_attempts t;
                      fs_not_modified_responses := saturating_add_u64 (fs_not_modified_responses t) 1 |}).

(** What the server answers to the request of a page: nothing, a status with headers that is no
    success, or a success with its decoded comments *)
Inductive PageAnswer : Type :=
| NoAnswer (is_timeout : bool)
| Answered (status : Z) (headers : Headers) (comments : result GitHubError (list IssueComment)).
Inductive CommentPageFetch : Type :=
| NotModified
| Modified (comments : list IssueComment) (etag : option string).
(** [StatusCode::is_success] *)
Definition is_success (status : Z) : bool := within 200 299 status.

(** [server] answers the page, given the validator sent in [If-None-Match] *)
Definition fetch_comment_page (s : CommentConditionalState) (key : CommentRequestKey) (conditional : bool)
    (server : CommentRequestKey → option string → PageAnswer)
    : result GitHubError CommentPageFetch * CommentConditionalState :=
  let '(etag, s) := if conditional then etag_for s key else (None, s) in
  match server key etag with
  | NoAnswer t => (Err (Http t), s)
  | Answered status headers comments =>
    if status =? 304 then (Ok NotModified, record_not_modified s)
    else if negb (is_success status)
    then (Err (ResponseError (classify_response_error status headers)), s)
    else
      let s := record_ok (if conditional then clear s else s) in
      match comments with
      | Ok l => (Ok (Modified l (header_text headers "etag")), s)
      | Err e => (Err e, s)
      end
  end.
Definition can_arm_comment_validator (page : Z) (fresh_is_empty etag_present : bool) : bool :=
  (page =? 1) && fresh_is_empty && etag_present.
Definition after (current : option IssueCommentCursor) (c : IssueComment) : bool :=
  is_none_or (λ current, cursor_lt current (cursor c)) current.
Definition is_empty {A} (l : list A) : bool := match l with [] => true | _ => false end.

(** The loop over the pages that are left, with the comments and the validator found so far *)
Fixpoint comment_pages (s : CommentConditionalState) (issue_number : Z) (current : option IssueCommentCursor)
    (since : option string) (server : CommentRequestKey → option string → PageAnswer)
    (fresh : list IssueComment) (first_page_etag : option string) (pages : list Z)
    : result GitHubError (list IssueComment) * CommentConditionalState :=
  match pages with
  | [] => (Err HistoryLimitExceeded, s)
  | page :: pages =>
    let conditional := is_some current && (page =? 1) in
    let key p := {| crk_issue_number := issue_number; crk_since := since; crk_page := p |} in
    match fetch_comment_page s (key page) conditional server with
    | (Err e, s) => (Err e, s)
    | (Ok NotModified, s) => (Ok [], s)
    | (Ok (Modified page_comments etag), s) =>
      let first_page_etag := if conditional then etag else first_page_etag in
      let fresh := fresh ++ List.filter (after current) page_comments in
      if count page_comments <? COMMENTS_PER_PAGE then
        let fresh := sort_by_key fresh in
        (Ok fresh,
         if is_some current && can_arm_comment_validator page (is_empty fresh) (is_some first_page_etag)
         then match first_page_etag with Some etag => arm s (key 1) etag | None => s end
         else s)
      else comment_pages s issue_number current since server fresh first_page_etag pages
    end
  end.
(** [overlap] is the time one second earlier in RFC 3339, where the text is a time *)
Definition cursor_overlap_since (overlap : string → option string) (c : IssueCommentCursor)
    : result GitHubError string :=
  match overlap (icc_created_at c) with Some t => Ok t | None => Err CursorStateMismatch end.
Definition issue_comments_after (overlap : string → option string) (s : CommentConditionalState)
    (issue_number : Z) (current : option IssueCommentCursor)
    (server : CommentRequestKey → option string → PageAnswer)
    : result GitHubError (list IssueComment) * CommentConditionalState :=
  match validate_issue_number issue_number;;
        match current with
        | Some c => t ← cursor_overlap_since overlap c; Ok (Some t)
        | None => Ok None
        end with
  | Err e => (Err e, s)
  | Ok since => comment_pages s issue_number current since server [] None (seqZ 1 MAX_COMMENT_PAGES)
  end.
Definition issue_comments (overlap : string → option string) (s : CommentConditionalState)
    (issue_number : Z) (server : CommentRequestKey → option string → PageAnswer)
    : result GitHubError (list IssueComment) * CommentConditionalState :=
  issue_comments_after overlap s issue_number None server.

Definition tail_page (comment_count : Z) : Z :=
  Z.min u32_max (saturating_sub_u64 comment_count 1 / COMMENTS_PER_PAGE + 1).
Definition post_checks (issue_number : Z) (body : string) : result GitHubError unit :=
  validate_issue_number issue_number;;
  if MAX_COMMENT_BODY_BYTES <? len body then Err CommentTooLarge else Ok tt.

(** The last page only; [None] is the panic of an unconditional page that is answered by 304 *)
Definition issue_comment_page (s : CommentConditionalState) (issue_number page : Z)
    (server : CommentRequestKey → option string → PageAnswer)
    : option (result GitHubError (list IssueComment) * CommentConditionalState) :=
  match fetch_comment_page s {| crk_issue_number := issue_number; crk_since := None; crk_page := page |}
          false server with
  | (Ok NotModified, _) => None
  | (Ok (Modified comments _), s) => Some (Ok comments, s)
  | (Err e, s) => Some (Err e, s)
  end.
Definition keep_last (l : list IssueComment) : list IssueComment :=
  drop (Z.to_nat (saturating_sub_u64 (count l) COMMENTS_PER_PAGE)) l.
Definition recent_issue_comments (s : CommentConditionalState) (issue_number : Z)
    (metadata : result GitHubError Z) (server : CommentRequestKey → option string → PageAnswer)
    : option (result GitHubError (list IssueComment) * CommentConditionalState) :=
  match validate_issue_number issue_number;; metadata with
  | Err e => Some (Err e, s)
  | Ok comments =>
    if comments =? 0 then Some (Ok [], s) else
    let page := tail_page comments in
    '(first, s) ← issue_comment_page s issue_number page server;
    match first with
    | Err e => Some (Err e, s)
    | Ok comments =>
      if count comments =? COMMENTS_PER_PAGE then
        '(next, s) ← issue_comment_page s issue_number (Z.min u32_max (page + 1)) server;
        match next with
        | Err e => Some (Err e, s)
        | Ok [] => Some (Ok (keep_last comments), s)
        | Ok next => Some (Ok (keep_last (comments ++ next)), s)
        end
      else if is_empty comments && (1 <? page) then
        '(previous, s) ← issue_comment_page s issue_number (page - 1) server;
        match previous with
        | Err e => Some (Err e, s)
        | Ok comments => Some (Ok (keep_last comments), s)
        end
      else Some (Ok (keep_last comments), s)
    end
  end.

(** ** Downloads *)
Record WorkflowRun : Type := {
  wr_id : Z; wr_name : string; wr_event : string; wr_status : string;
  wr_conclusion : option string; wr_head_sha : string;
}.
Record WorkflowArtifact : Type := { wa_id : Z; wa_name : string; wa_expired : bool }.
Definition workflow_run (run_id : Z) (run : result GitHubError WorkflowRun) : result GitHubError WorkflowRun :=
  run ← run; if negb (wr_id run =? run_id) then Err UntrustedWorkflowRun else Ok run.
Definition workflow_artifact (artifact_id : Z) (artifacts : result GitHubError (list WorkflowArtifact))
    : result GitHubError WorkflowArtifact :=
  artifacts ← artifacts;
  match List.find (λ a, wa_id a =? artifact_id) artifacts with
  | Some a => Ok a
  | None => Err UntrustedArtifact
  end.

Definition bytes : Type := list ascii.
(** The answer to a range: its status and headers, its length if announced, the chunks of its
    body and how their reading ended ([Some timeout] is a failure) *)
Record Part : Type := {
  pt_status : Z;
  pt_headers : Headers;
  pt_encoded : bool;
  pt_etag : option string;
  pt_content_length : option Z;
  pt_chunks : list bytes;
  pt_failed : option bool;
}.
Fixpoint read_chunks (phase : string) (max_bytes : Z) (content_length : option Z) (failed : option bool)
    (body : bytes) (chunks : list bytes) : result GitHubError bytes :=
  match chunks with
  | [] => match failed with Some t => Err (BodyRead t) | None => Ok body end
  | chunk :: chunks =>
    if saturating_sub_u64 max_bytes (count body) <? count chunk
    then Err (BodyTooLarge phase max_bytes (count body) content_length)
    else read_chunks phase max_bytes content_length failed (body ++ chunk) chunks
  end.
Definition read_response_body (p : Part) (phase : string) (max_bytes : Z) : result GitHubError bytes :=
  if is_some_and (λ l, max_bytes <? l) (pt_content_length p)
  then Err (BodyTooLarge phase max_bytes 0 (pt_content_length p))
  else read_chunks phase max_bytes (pt_content_length p) (pt_failed p) [] (pt_chunks p).

Definition strip_prefix (p s : string) : option string :=
  if String.prefix p s then Some (drop_str (String.length p) s) else None.
Definition parse_artifact_content_range (value : string) : option (Z * Z * Z) :=
  rest ← strip_prefix "bytes " value;
  '(span, total) ← split_once "/" rest;
  '(first, last) ← split_once "-" span;
  if negb (forallb (λ part, negb (part =? "")%string && bytes_all is_digit part) [first; last; total])
  then None else
  first ← parse_u64 first; last ← parse_u64 last; total ← parse_u64 total;
  if (0 <? total) && (first <=? last) && (last <? total) then Some (first, last, total) else None.

(** What one answer adds to the [offset] bytes already there: the total and the bytes *)
Definition accept_part (part_bytes max_bytes offset : Z) (total_bytes : option Z)
    (expected_etag : option string) (p : Part) : result GitHubError (Z * bytes) :=
  if negb (is_success (pt_status p))
  then Err (ResponseError (classify_response_error (pt_status p) (pt_headers p))) else
  if negb (pt_status p =? 206) || pt_encoded p then Err ArtifactRangeInvalid else
  match pt_headers p "content-range" ≫= parse_artifact_content_range with
  | None => Err ArtifactRangeInvalid
  | Some (start, last, total) =>
    if max_bytes <? total then Err (BodyTooLarge "download_artifact_zip" max_bytes offset (Some total)) else
    if total <=? offset then Err ArtifactRangeInvalid else
    let expected_last := offset + Z.min (total - offset) part_bytes - 1 in
    if negb (start =? offset) || negb (last =? expected_last)
       || is_some_and (λ previous, negb (previous =? total)) total_bytes
       || negb (bool_decide (pt_content_length p = Some (last - start + 1)))
    then Err ArtifactRangeInvalid else
    if (0 <? offset) && negb (bool_decide (pt_etag p = expected_etag)) then Err ArtifactRangeInvalid else
    part ← read_response_body p "download_artifact_zip" part_bytes;
    if negb (count part =? last - start + 1) then Err ArtifactRangeInvalid else Ok (total, part)
  end.

(** The loop, on the answers with the time since the start at which each was asked for; [Http] is
    a request without an answer.  [None]: not yet decided by these answers. *)
Fixpoint download_parts (part_bytes max_bytes : Z) (zip : bytes) (total_bytes : option Z)
    (expected_etag : option string) (answers : list (Z * (Part + bool)))
    : option (result GitHubError bytes) :=
  match answers with
  | [] => None
  | (elapsed, answer) :: answers =>
    if GITHUB_ARTIFACT_TOTAL_DEADLINE <=? elapsed then Some (Err ArtifactDownloadDeadlineExceeded) else
    let offset := count zip in
    if u64_max <? offset + (part_bytes - 1) then Some (Err ArtifactRangeInvalid) else
    match answer with
    | inr timeout => Some (Err (Http timeout))
    | inl p =>
      match accept_part part_bytes max_bytes offset total_bytes expected_etag p with
      | Err e => Some (Err e)
      | Ok (total, part) =>
        let zip := zip ++ part in
        if count zip =? total then Some (Ok zip) else
        download_parts part_bytes max_bytes zip
          (if offset =? 0 then Some total else total_bytes)
          (if offset =? 0 then pt_etag p else expected_etag) answers
      end
    end
  end.
Definition download_artifact_zip_in_parts (part_bytes max_bytes : Z) (answers : list (Z * (Part + bool)))
    : option (result GitHubError bytes) :=
  if (part_bytes =? 0) || (max_bytes <? part_bytes) then Some (Err ArtifactRangeInvalid)
  else download_parts part_bytes max_bytes [] None None answers.
Definition download_artifact_zip : list (Z * (Part + bool)) → option (result GitHubError bytes) :=
  download_artifact_zip_in_parts GITHUB_ARTIFACT_RANGE_BYTES MAX_GITHUB_ARTIFACT_ZIP_BYTES.

(** ** Facts *)
Lemma cursor_cmp_antisym a b : cursor_cmp b a = CompOpp (cursor_cmp a b).
Proof.
  unfold cursor_cmp. rewrite (str_cmp_antisym (icc_created_at a)).
  destruct (str_cmp _ _); simpl; [apply Z.compare_antisym|done..].
Qed.
Lemma str_le_trans s t u : str_cmp s t ≠ Gt → str_cmp t u ≠ Gt → str_cmp s u ≠ Gt.
Proof.
  destruct (str_cmp s t) eqn:E1; [apply str_cmp_eq in E1 as ->; done| |done].
  destruct (str_cmp t u) eqn:E2; [apply str_cmp_eq in E2 as ->; by rewrite E1| |done].
  intros _ _. by rewrite (str_cmp_trans _ _ _ E1 E2).
Qed.
Lemma cursor_le_trans a b c : cursor_cmp a b ≠ Gt → cursor_cmp b c ≠ Gt → cursor_cmp a c ≠ Gt.
Proof.
  unfold cursor_cmp.
  destruct (str_cmp (icc_created_at a) (icc_created_at b)) eqn:E1; try done.
  - apply str_cmp_eq in E1 as ->. destruct (str_cmp _ _); try done.
    rewrite !Z.compare_le_iff. lia.
  - destruct (str_cmp (icc_created_at b) (icc_created_at c)) eqn:E2; try done.
    + apply str_cmp_eq in E2 as <-. by rewrite E1.
    + by rewrite (str_cmp_trans _ _ _ E1 E2).
Qed.

(** [fetch_exact] compares with the pages of a list of comments *)
Definition page_of (all : list IssueComment) (p : Z) : list IssueComment :=
  take 100 (drop (Z.to_nat ((p - 1) * 100)) all).
(** The server has these comments for the whole read and answers every page in full *)
Definition serves (all : list IssueComment) (server : CommentRequestKey → option string → PageAnswer) : Prop :=
  ∀ key etag, ∃ headers, server key etag = Answered 200 headers (Ok (page_of all (crk_page key))).

Lemma take_drop_seq {A} (l : list A) n : take 100 (drop n l) ++ drop (n + 100) l = drop n l.
Proof. rewrite <- drop_drop. apply take_drop. Qed.
Lemma filter_app_l {A} (p : A → bool) l1 l2 : List.filter p (l1 ++ l2) = List.filter p l1 ++ List.filter p l2.
Proof. apply List.filter_app. Qed.

Lemma comment_pages_exact s n current since server all fresh etag p k :
  serves all server → 1 ≤ p → 
  fresh = List.filter (after current) (take (Z.to_nat ((p - 1) * 100)) all) →
  fst (comment_pages s n current since server fresh etag (seqZ p (Z.of_nat k)))
  = if count all <? (p - 1 + Z.of_nat k) * 100
    then (if (p - 1) * 100 <=? count all then Ok (sort_by_key (List.filter (after current) all))
          else fst (comment_pages s n current since server fresh etag (seqZ p (Z.of_nat k))))
    else Err HistoryLimitExceeded.
Proof.
  intros Hs. revert s fresh etag p. induction k as [|k IH]; intros s fresh etag p Hp Hf.
  { change (seqZ p 0) with (@nil Z). simpl. destruct (count all <? _) eqn:E; [|done].
    apply Z.ltb_lt in E. destruct (_ <=? count all) eqn:E2; [|done]. apply Z.leb_le in E2. lia. }
  rewrite seqZ_cons by lia. replace (Z.pred (Z.of_nat (S k))) with (Z.of_nat k) by lia.
  destruct ((p - 1) * 100 <=? count all) eqn:Ele.
  2: { destruct (count all <? _) eqn:E; [done|]. apply Z.ltb_ge in E. apply Z.leb_gt in Ele. lia. }
  apply Z.leb_le in Ele. simpl. unfold fetch_comment_page.
  match goal with |- context [if ?b then etag_for ?t ?k else (None, ?t)] =>
    destruct (if b then etag_for t k else (None, t)) as [et s1] end.
  destruct (Hs {| crk_issue_number := n; crk_since := since; crk_page := p |} et) as [h ->]. simpl.
  set (pg := page_of all p).
  assert (Hnew : fresh ++ List.filter (after current) pg
                 = List.filter (after current) (take (Z.to_nat (p * 100)) all)).
  { rewrite Hf. unfold pg, page_of. rewrite <- filter_app_l. f_equal.
    replace (Z.to_nat (p * 100)) with (Z.to_nat ((p - 1) * 100) + 100)%nat by lia.
    by rewrite take_take_drop. }
  assert (Hlen : count pg = Z.min 100 (count all - (p - 1) * 100)).
  { unfold pg, page_of, count. rewrite length_take, length_drop. unfold count in Ele. lia. }
  unfold COMMENTS_PER_PAGE. rewrite Hlen.
  destruct (Z.min 100 (count all - (p - 1) * 100) <? 100) eqn:E.
  - apply Z.ltb_lt in E. simpl. rewrite Hnew.
    assert (Ht : take (Z.to_nat (p * 100)) all = all) by (apply take_ge; unfold count in *; lia).
    rewrite Ht. destruct (count all <? _) eqn:E2; [done|]. apply Z.ltb_ge in E2. lia.
  - apply Z.ltb_ge in E. replace (Z.succ p) with (p + 1) by lia.
    rewrite (IH _ _ _ (p + 1)); [|lia|]. 2: { rewrite Hnew. do 3 f_equal. lia. }
    replace (p + 1 - 1 + Z.of_nat k) with (p - 1 + Z.of_nat (S k)) by lia.
    destruct (count all <? _) eqn:E2; [|done].
    destruct ((p + 1 - 1) * 100 <=? count all) eqn:E3; [done|]. apply Z.leb_gt in E3. lia.
Qed.

(** While the comments of an issue do not change, a read of those after a cursor finds them
    exactly, each once and in order of time and id; when there are too many of them to be read
    within the bound on the pages it fails, and it never answers with a part. *)
Theorem fetch_exact overlap s n current server all since :
  serves all server → n ≠ 0 →
  (∀ c, current = Some c → overlap (icc_created_at c) = Some since) →
  match fst (issue_comments_after overlap s n current server) with
  | Ok l => l ≡ₚ List.filter (after current) all
            ∧ StronglySorted (λ a b, cursor_cmp (cursor a) (cursor b) ≠ Gt) l ∧ count all < 1000
  | Err e => e = HistoryLimitExceeded ∧ 1000 ≤ count all
  end.
Proof.
  intros Hs Hn Ho. unfold issue_comments_after.
  assert (Hc : ∃ since', (validate_issue_number n;;
                          match current with
                          | Some c => t ← cursor_overlap_since overlap c; Ok (Some t)
                          | None => Ok None end) = Ok (E := GitHubError) since').
  { unfold validate_issue_number. apply Z.eqb_neq in Hn. rewrite Hn. simpl.
    destruct current as [c|]; [|by eexists]. unfold cursor_overlap_since.
    rewrite (Ho c eq_refl). simpl. by eexists. }
  destruct Hc as [since' ->].
  pose proof (comment_pages_exact s n current since' server all [] None 1 10 Hs ltac:(lia) eq_refl) as H.
  unfold MAX_COMMENT_PAGES. change (Z.of_nat 10) with 10 in H. change ((1 - 1 + 10) * 100) with 1000 in H.
  change ((1 - 1) * 100) with 0 in H. rewrite H.
  destruct (count all <? 1000) eqn:E.
  - apply Z.ltb_lt in E. destruct (0 <=? count all) eqn:E0; [|apply Z.leb_gt in E0; unfold count in E0; lia].
    split; [apply sort_by_perm|]. split; [|done].
    apply sort_by_sorted.
    + intros x y. apply cursor_cmp_antisym.
    + intros x y z. apply cursor_le_trans.
  - apply Z.ltb_ge in E. done.
Qed.

Lemma is_ok_bind {E A B} (r : result E A) (k : A → result E B) b :
  (r ≫= k) = Ok b → ∃ a, r = Ok a ∧ k a = Ok b.
Proof. destruct r as [a|e]; simpl; [by exists a|done]. Qed.

(** What an accepted answer says of itself *)
Lemma accept_part_ok part_bytes max_bytes offset total expected p total' body :
  accept_part part_bytes max_bytes offset total expected p = Ok (total', body) →
  pt_status p = 206 ∧ total' ≤ max_bytes ∧ offset < total'
  ∧ pt_encoded p = false ∧ pt_content_length p = Some (Z.min (total' - offset) part_bytes)
  ∧ (∀ t, total = Some t → t = total') ∧ (0 < offset → pt_etag p = expected)
  ∧ (pt_headers p "content-range" ≫= parse_artifact_content_range)
    = Some (offset, offset + Z.min (total' - offset) part_bytes - 1, total')
  ∧ count body = Z.min (total' - offset) part_bytes
  ∧ body = List.concat (pt_chunks p).
Proof.
  unfold accept_part. destruct (negb (is_success _)); [done|].
  destruct (negb (pt_status p =? 206) || _) eqn:E2; [done|].
  apply orb_false_iff in E2 as [E2 Eenc]. apply negb_false_iff, Z.eqb_eq in E2.
  destruct (_ ≫= _) as [[[start last] t]|] eqn:Er; [|done].
  destruct (max_bytes <? t) eqn:Em; [done|]. destruct (t <=? offset) eqn:Eo; [done|].
  destruct (negb (start =? offset) || _ || _ || _) eqn:Eb; [done|].
  rewrite !orb_false_iff, !negb_false_iff, bool_decide_eq_true, !Z.eqb_eq in Eb.
  destruct Eb as [[[Hs Hl] Hp] Hcl].
  destruct ((0 <? offset) && _) eqn:Ee; [done|].
  intros (part & Hb & H)%is_ok_bind. destruct (negb (count part =? _)) eqn:Ec; [done|].
  injection H as <- <-. apply negb_false_iff, Z.eqb_eq in Ec. apply Z.ltb_ge in Em. apply Z.leb_gt in Eo.
  split; [done|]. split; [done|]. split; [done|]. split; [done|]. split; [rewrite Hcl; f_equal; lia|]. split.
  { intros u ->. simpl in Hp. by apply negb_false_iff, Z.eqb_eq in Hp. }
  split.
  { intros Ho. apply andb_false_iff in Ee as [Ee|Ee]; [apply Z.ltb_ge in Ee; lia|].
    apply negb_false_iff, bool_decide_eq_true in Ee. done. }
  split; [by rewrite Hs, Hl|]. split; [lia|].
  unfold read_response_body in Hb. destruct (is_some_and (λ l, part_bytes <? l) _); [done|].
  assert (Hc : ∀ ph m cl f acc chunks r, read_chunks ph m cl f acc chunks = Ok r → r = acc ++ List.concat chunks).
  { clear. intros ph m cl f acc chunks. revert acc. induction chunks as [|c l IH]; intros acc r; simpl.
    - destruct f; [done|]. intros [= <-]. by rewrite app_nil_r.
    - destruct (_ <? _); [done|]. intros ->%IH. by rewrite app_assoc. }
  by apply Hc in Hb.
Qed.

(** What the answers of a server are taken to mean.  An artifact has a representation for
    each validator and length it is announced with; an answer 206 in the encoding of the
    file is about the representation it names, and its body starts like the range it
    names.  Nothing is said of other answers; a body may be cut anywhere, and different
    answers may be about different representations. *)
Definition speaks (file_of : option string → Z → bytes) (p : Part) : Prop :=
  ∀ first last total,
  pt_status p = 206 → pt_encoded p = false →
  (pt_headers p "content-range" ≫= parse_artifact_content_range) = Some (first, last, total) →
  count (file_of (pt_etag p) total) = total
  ∧ ∃ cut, take (Z.to_nat (last - first + 1)) (drop (Z.to_nat first) (file_of (pt_etag p) total))
           = List.concat (pt_chunks p) ++ cut.
Definition all_speak (file_of : option string → Z → bytes) (answers : list (Z * (Part + bool))) : Prop :=
  Forall (λ a, match a.2 with inl p => speaks file_of p | inr _ => True end) answers.

(** The answer is the whole part at [offset] of the representation [tag] of length [total]. *)
Definition part_at (file : bytes) (tag : option string) (total part_bytes offset : Z) (a : Z * (Part + bool)) : Prop :=
  let size := Z.min (total - offset) part_bytes in
  a.1 < GITHUB_ARTIFACT_TOTAL_DEADLINE ∧
  ∃ p, a.2 = inl p ∧ pt_status p = 206 ∧ pt_encoded p = false ∧ pt_etag p = tag
    ∧ (pt_headers p "content-range" ≫= parse_artifact_content_range) = Some (offset, offset + size - 1, total)
    ∧ pt_content_length p = Some size
    ∧ List.concat (pt_chunks p) = take (Z.to_nat size) (drop (Z.to_nat offset) file).

Lemma prefix_full {A} (l k : list A) : (∃ cut, k = l ++ cut) → (List.length k ≤ List.length l)%nat → l = k.
Proof. intros [r ->]. rewrite length_app. intros. destruct r; [by rewrite app_nil_r|simpl in *; lia]. Qed.
(** One accepted answer is a whole part, and continues the file. *)
Lemma part_step file_of part_bytes max_bytes elapsed zip total expected p t body :
  accept_part part_bytes max_bytes (count zip) total expected p = Ok (t, body) → 0 < part_bytes →
  elapsed < GITHUB_ARTIFACT_TOTAL_DEADLINE → speaks file_of p →
  let file := file_of (pt_etag p) t in
  zip = take (List.length zip) file →
  count file = t ∧ t ≤ max_bytes ∧ count zip < t
  ∧ part_at file (pt_etag p) t part_bytes (count zip) (elapsed, inl p)
  ∧ count (zip ++ body) = count zip + Z.min (t - count zip) part_bytes
  ∧ zip ++ body = take (List.length (zip ++ body)) file.
Proof.
  intros (H206 & Hm & Ho & Henc & Hcl & _ & _ & Hr & Hc & ->)%accept_part_ok Hpb Hel Hs file Hz.
  destruct (Hs _ _ _ H206 Henc Hr) as [Ht Hpre]. fold file in Ht, Hpre. set (size := Z.min (t - count zip) part_bytes) in *.
  replace (count zip + size - 1 - count zip + 1) with size in Hpre by lia.
  apply prefix_full in Hpre as Hbody.
  2:{ rewrite length_take. unfold count in Hc. lia. }
  split; [done|]. split; [done|]. split; [done|]. split; [split; [done|]; by exists p|].
  unfold count in *. rewrite length_app. split; [lia|].
  rewrite Hbody at 1. rewrite Nat2Z.id. rewrite Hz at 1. rewrite take_take_drop. f_equal. lia.
Qed.

(** The parts from the [k]-th on *)
Lemma download_rest file_of part_bytes max_bytes tag total (k : Z) zip answers r :
  0 < part_bytes → 0 < k → all_speak file_of answers →
  count zip = k * part_bytes → zip = take (List.length zip) (file_of tag total) →
  download_parts part_bytes max_bytes zip (Some total) tag answers = Some (Ok r) →
  ∃ used rest, answers = used ++ rest ∧ r = file_of tag total ∧ count r = total ∧ total ≤ max_bytes
    ∧ (∀ i a, used !! i = Some a → part_at r tag total part_bytes ((k + Z.of_nat i) * part_bytes) a)
    ∧ (k + count used - 1) * part_bytes < total ≤ (k + count used) * part_bytes.
Proof.
  intros Hpb Hk Hall. revert k Hk zip. induction Hall as [|[el [p|t]] answers Hp Hall IH]; intros k Hk zip Hz Hzip; simpl; [done| |].
  2:{ destruct (_ <=? el); [done|]. by destruct (u64_max <? _). }
  destruct (_ <=? el) eqn:Eel; [done|]. apply Z.leb_gt in Eel. destruct (u64_max <? _); [done|].
  destruct (accept_part _ _ _ _ _ _) as [[t body]|] eqn:Ea; [|done].
  pose proof (accept_part_ok _ _ _ _ _ _ _ _ Ea) as (_ & _ & _ & _ & _ & Htot & Htag & _).
  specialize (Htot _ eq_refl). subst t. rewrite <- (Htag ltac:(nia)) in Hzip |- *.
  destruct (part_step file_of _ _ el _ _ _ _ _ _ Ea Hpb Eel Hp Hzip) as (Hc & Hm & Hlt & Hpart & Hn & Hzip').
  destruct (count (zip ++ body) =? total) eqn:E.
  - apply Z.eqb_eq in E. intros [= <-]. exists [(el, inl p)], answers. split; [done|].
    assert (Hr : zip ++ body = file_of (pt_etag p) total).
    { rewrite Hzip'. apply take_ge. unfold count in *. lia. }
    rewrite Hr. split; [done|]. split; [done|]. split; [done|]. change (count [(el, inl p)]) with 1. split; [|nia].
    intros [|i] a; [|done]. intros [= <-]. rewrite Z.add_0_r, <- Hz. done.
  - apply Z.eqb_neq in E. replace (count zip =? 0) with false by (symmetry; apply Z.eqb_neq; nia).
    rewrite (Htag ltac:(nia)) in *. intros Hd.
    destruct (IH (k + 1) ltac:(lia) (zip ++ body)) as (used & rest & -> & -> & Hcr & _ & Hu & Hb); [lia|done|done|].
    exists ((el, inl p) :: used), rest. do 4 (split; [done|]).
    assert (Hl : count ((el, inl p) :: used) = 1 + count used) by (unfold count; simpl; lia). rewrite Hl. split; [|lia].
    intros [|i] a; simpl.
    + intros [= <-]. rewrite Z.add_0_r, <- Hz. done.
    + intros Ha. specialize (Hu i a Ha). by replace (k + Z.of_nat (S i)) with (k + 1 + Z.of_nat i) by lia.
Qed.

(** C22: A completed download is one representation of the artifact, whole and within its
    bound, put together from answers each of which is the next part of exactly that
    representation, asked for before the deadline; answers that are cut short, encoded, of
    another range, length or validator, or no partial content at all, never become part of it. *)
Theorem download_assembles file_of part_bytes max_bytes answers zip :
  all_speak file_of answers → 0 ≤ part_bytes →
  download_artifact_zip_in_parts part_bytes max_bytes answers = Some (Ok zip) →
  ∃ tag total used rest,
    answers = used ++ rest ∧ zip = file_of tag total ∧ count zip = total ∧ total ≤ max_bytes
    ∧ (∀ i a, used !! i = Some a → part_at zip tag total part_bytes (Z.of_nat i * part_bytes) a)
    ∧ (count used - 1) * part_bytes < total ≤ count used * part_bytes.
Proof.
  unfold download_artifact_zip_in_parts. intros Hall Hp0. destruct (part_bytes =? 0) eqn:E0; simpl; [done|].
  destruct (max_bytes <? part_bytes); [done|]. apply Z.eqb_neq in E0. assert (Hpb : 0 < part_bytes) by lia.
  destruct Hall as [|[el [p|t]] answers Hp Hall]; simpl; [done| |].
  2:{ destruct (_ <=? el); [done|]. by destruct (u64_max <? _). }
  destruct (_ <=? el) eqn:Eel; [done|]. apply Z.leb_gt in Eel. destruct (u64_max <? _); [done|].
  destruct (accept_part _ _ _ _ _ _) as [[t body]|] eqn:Ea; [|done].
  destruct (part_step file_of _ _ el [] _ _ _ _ _ Ea Hpb Eel Hp eq_refl) as (Hc & Hm & Hlt & Hpart & Hn & Hzip').
  change (count []) with 0 in *. simpl in *. destruct (count body =? t) eqn:E.
  - apply Z.eqb_eq in E. intros [= <-]. exists (pt_etag p), t, [(el, inl p)], answers. split; [done|].
    assert (Hr : body = file_of (pt_etag p) t) by (rewrite Hzip'; apply take_ge; unfold count in *; lia).
    rewrite Hr. split; [done|]. split; [done|]. split; [done|]. change (count [(el, inl p)]) with 1. split; [|lia].
    intros [|i] a; [|done]. by intros [= <-].
  - apply Z.eqb_neq in E. intros Hd.
    destruct (download_rest file_of part_bytes max_bytes (pt_etag p) t 1 body answers zip) as (used & rest & -> & -> & Hcr & _ & Hu & Hb);
      [done|done|done|lia|done|done|].
    exists (pt_etag p), t, ((el, inl p) :: used), rest. do 4 (split; [done|]).
    assert (Hl : count ((el, inl p) :: used) = 1 + count used) by (unfold count; simpl; lia). rewrite Hl. split; [|lia].
    intros [|i] a; simpl.
    + by intros [= <-].
    + intros Ha. specialize (Hu i a Ha). by replace (Z.of_nat (S i)) with (1 + Z.of_nat i) by lia.
Qed.

Lemma download_parts_ends part_bytes max_bytes zip total expected answers :
  0 < part_bytes → max_bytes ≤ count zip + count answers * part_bytes → answers ≠ [] →
  is_some (download_parts part_bytes max_bytes zip total expected answers) = true.
Proof.
  intros Hp. revert zip total expected. induction answers as [|[el a] answers IH]; intros zip total expected Hm Hne;
    [done|]. simpl. destruct (_ <=? el); [done|]. destruct (u64_max <? _); [done|].
  destruct a as [p|t]; [|done].
  destruct (accept_part _ _ _ _ _ _) as [[t body]|] eqn:Ea; [|done].
  apply accept_part_ok in Ea as (_ & Hle & Ho & _ & _ & _ & _ & _ & Hc & _).
  destruct (count (zip ++ body) =? t) eqn:E; [done|]. apply Z.eqb_neq in E.
  assert (Happ : count (zip ++ body) = count zip + count body) by (unfold count; rewrite length_app; lia).
  assert (Hl : count ((el, inl p) :: answers) = 1 + count answers) by (unfold count; simpl; lia).
  apply IH; [nia|]. intros ->. change (count []) with 0 in Hl. nia.
Qed.

(** A download is decided after at most as many answers as parts fit its bound. *)
Theorem download_ends part_bytes max_bytes answers :
  0 ≤ part_bytes → max_bytes ≤ count answers * part_bytes → answers ≠ [] →
  is_some (download_artifact_zip_in_parts part_bytes max_bytes answers) = true.
Proof.
  intros Hp Hm Hne. unfold download_artifact_zip_in_parts. destruct (part_bytes =? 0) eqn:E; [done|].
  simpl. destruct (max_bytes <? part_bytes); [done|]. apply Z.eqb_neq in E.
  apply download_parts_ends; [lia| |done]. by change (count []) with 0.
Qed.
