(* ===== verification/Mailbox.v ===== *)
(** * Mailbox: requests through the comments of an issue

    [okx-protocol/src/crypto.rs] and [okx-agent/src/once.rs] (one encrypted request and its
    answer) and [okx-agent/src/github_mailbox.rs] (one poll of the issue).  The curve, the
    key derivation, the cipher, base64 and JSON are parameters.  [mailbox_opens]: what is
    dispatched was sealed for this key under this id and passes as a read;
    [capital_passes_as_read]: so does a move of capital; [answer_fits]: an answer fits a
    comment; [answered_once]: a request that was answered is never dispatched again.  A read
    of the comments is an argument; [mailbox_run] takes it to find
    the comments after the cursor, as [GitHub.fetch_exact] has it of comments in order of
    time, and comments to be only added. *)
From stdpp Require Import base option list numbers strings gmap sets sorting.
From Stdlib Require Import ZArith Lia Ascii String.
From S2P Require Import Prelude Text Ordered External EntryBudget Protocol Requests Session GitHub.
Local Open Scope string_scope.
Local Open Scope list_scope.
Local Open Scope Z_scope.

Definition HKDF_SALT_V1 : string := "okx-mailbox-v1/hkdf-sha256".
Definition INVALID_REQUEST_CODE : string := "INVALID_REQUEST".
Definition MAILBOX_EXECUTION_DISABLED_CODE : string := "MAILBOX_EXECUTION_DISABLED".
Definition RESPONSE_TOO_LARGE_CODE : string := "RESPONSE_TOO_LARGE".
Definition GLOBAL_RESPONSE_PLAINTEXT_BYTES : Z := 40 * 1024.
Definition COMPACT_RESPONSE_PLAINTEXT_BYTES : Z := 8 * 1024.
Definition AEAD_TAG_BYTES : Z := 16.

Inductive CryptoError : Type :=
| CryptoProtocol (e : ProtocolError)
| NonContributoryPeerKey
| Kdf
| Encrypt
| Decrypt.
Inductive AgentError : Type :=
| Protocol (e : ProtocolError)
| Crypto (e : CryptoError)
| Json_error
| Github (e : GitHubError)
| Base64
| Random
| InvalidPrivateKeyLength (n : Z)
| AgentKeyMismatch (expected actual : string)
| RequestIdMismatch
| ResponseBudgetInvariant.
Inductive ClientEnvelopePreflightError : Type :=
| PreflightProtocol (e : ProtocolError)
| PreflightCrypto (e : CryptoError)
| PreflightBase64
| PreflightJson
| InvalidClientPublicKeyLength
| InvalidNonceLength
| ClientPublicKeyMismatch
| PreflightRequestIdMismatch
| RequestMismatch.

(** [map_err] *)
Definition map_err {E F A} (f : E → F) (r : result E A) : result F A :=
  match r with Ok a => Ok a | Err e => Err (f e) end.
Definition ok_or {E A} (e : E) (o : option A) : result E A := match o with Some a => Ok a | None => Err e end.

Section mailbox.
  Context {Json : Type}.
  Variable from_value : Json → option StrategyParametersV1.
  Variable to_text : Json → string.
  (** base64, X25519, HKDF-SHA256 (salt, secret, info) and ChaCha20-Poly1305
      (key, nonce, authenticated text, message), all on byte strings *)
  Variable b64_encode : string → string.
  Variable b64_decode : string → option string.
  Variable x25519 : string → string → string.
  Variable hkdf : string → string → string → option string.
  Variable seal : string → string → string → string → option string.
  Variable open : string → string → string → string → option string.
  (** JSON of requests, responses and envelopes *)
  Variable request_from_slice : string → option (AgentRequest Json).
  Variable response_to_vec : AgentResponse Json → option string.
  Variable envelope_to_vec : MailboxEnvelope → option string.
  Variable envelope_from_str : string → option MailboxEnvelope.

(** ** [crypto.rs] *)
Definition zero_key : string := string_of_list_ascii (repeat (ascii_of_N 0) 32).
Definition shared_secret (private_key peer_public_key : string) : result CryptoError string :=
  let shared := x25519 private_key peer_public_key in
  if (shared =? zero_key)%string then Err NonContributoryPeerKey else Ok shared.
Definition key_info (request_id agent_key_id : string) (direction : MailboxDirection) : string :=
  "repo=" +:+ MAILBOX_REPOSITORY +:+ ";request_id=" +:+ request_id +:+ ";agent_key_id=" +:+ agent_key_id
  +:+ ";direction=" +:+ aad_direction direction.
Definition derive_directional_key (shared request_id agent_key_id : string)
    (direction : MailboxDirection) : result CryptoError string :=
  map_err CryptoProtocol (validate_request_id request_id);;
  map_err CryptoProtocol (validate_agent_key_id agent_key_id);;
  ok_or Kdf (hkdf HKDF_SALT_V1 shared (key_info request_id agent_key_id direction)).
Definition encrypt (key nonce aad plaintext : string) : result CryptoError string :=
  ok_or Encrypt (seal key nonce aad plaintext).
Definition decrypt (key nonce aad ciphertext : string) : result CryptoError string :=
  ok_or Decrypt (open key nonce aad ciphertext).

Section client.
  (** The base point of the curve, and the equality of requests *)
  Variable basepoint : string.
  Variable request_eqb : AgentRequest Json → AgentRequest Json → bool.

Definition public_key_from_private (private_key : string) : string := x25519 private_key basepoint.
Definition preflight_client_request_envelope (e : MailboxEnvelope) (request : AgentRequest Json)
    (client_private_key agent_public_key : string) : result ClientEnvelopePreflightError unit :=
  map_err PreflightProtocol (envelope_validate e ClientToAgent);;
  map_err PreflightProtocol (request_validate from_value to_text request);;
  if negb (me_request_id e =? ar_request_id request)%string then Err PreflightRequestIdMismatch else
  public ← ok_or PreflightBase64 (b64_decode (me_client_ephemeral_public_key e));
  if negb (len public =? 32) then Err InvalidClientPublicKeyLength else
  if negb (public =? public_key_from_private client_private_key)%string then Err ClientPublicKeyMismatch else
  nonce ← ok_or PreflightBase64 (b64_decode (me_nonce e));
  if negb (len nonce =? 12) then Err InvalidNonceLength else
  ciphertext ← ok_or PreflightBase64 (b64_decode (me_ciphertext e));
  shared ← map_err PreflightCrypto (shared_secret client_private_key agent_public_key);
  key ← map_err PreflightCrypto
          (derive_directional_key shared (me_request_id e) (me_agent_key_id e) ClientToAgent);
  text ← map_err PreflightProtocol (aad e);
  plaintext ← map_err PreflightCrypto (decrypt key nonce text ciphertext);
  decoded ← ok_or PreflightJson (request_from_slice plaintext);
  map_err PreflightProtocol (request_validate from_value to_text decoded);;
  if negb (ar_request_id decoded =? me_request_id e)%string then Err PreflightRequestIdMismatch else
  if negb (request_eqb decoded request) then Err RequestMismatch else Ok tt.
End client.

(** ** [once.rs] *)
Record ResponseSize : Type := { rsz_plaintext_bytes : Z; rsz_predicted_comment_bytes : Z }.
Record ResponseSizeTelemetry : Type := {
  rst_plaintext_bytes : Z;
  rst_plaintext_budget_bytes : Z;
  rst_predicted_comment_bytes : Z;
  rst_budget_exceeded : bool;
}.
Definition failed_response (request_id generated_at : string) (status : AgentResponseStatus)
    (code message : string) : AgentResponse Json :=
  {| rs_schema := AGENT_RESPONSE_SCHEMA_V1; rs_request_id := request_id; rs_status := status;
     rs_generated_at := generated_at; rs_quality := NotReady; rs_result_schema := None; rs_result := None;
     rs_failure := Some {| af_code := code; af_message := message; af_retryable := false |};
     rs_warnings := [] |}.
Definition mailbox_execution_disabled (request_id generated_at : string) : AgentResponse Json :=
  failed_response request_id generated_at Rejected MAILBOX_EXECUTION_DISABLED_CODE
    "GitHub mailbox and local Once are read-only; trading writes require the authenticated primary Cloudflare direct transport and native account policy".
Definition invalid_request_response (request_id generated_at : string) : AgentResponse Json :=
  failed_response request_id generated_at Rejected INVALID_REQUEST_CODE
    "authenticated request payload does not match the supported typed query contract".
Definition response_too_large_response (request_id generated_at : string) (size : ResponseSize)
    (budget : Z) : AgentResponse Json :=
  failed_response request_id generated_at Failed RESPONSE_TOO_LARGE_CODE
    ("serialized response exceeds bounded transport budget: plaintext=" +:+ show_u64 (rsz_plaintext_bytes size)
     +:+ "B limit=" +:+ show_u64 (Z.min budget GLOBAL_RESPONSE_PLAINTEXT_BYTES)
     +:+ "B predicted_comment=" +:+ show_u64 (rsz_predicted_comment_bytes size)
     +:+ "B comment_limit=" +:+ show_u64 MAX_COMMENT_BODY_BYTES +:+ "B").

Definition response_budget (o : AgentOperation Json) : Z :=
  match o with Portfolio _ => 4 * 1024 | _ => COMPACT_RESPONSE_PLAINTEXT_BYTES end.
Definition response_envelope (e : MailboxEnvelope) (expected_key_id nonce ciphertext : string) : MailboxEnvelope :=
  {| me_schema := MAILBOX_ENVELOPE_SCHEMA_V1; me_request_id := me_request_id e; me_direction := AgentToClient;
     me_agent_key_id := expected_key_id;
     me_client_ephemeral_public_key := me_client_ephemeral_public_key e;
     me_nonce := b64_encode nonce; me_ciphertext := ciphertext |}.
Definition checked_usize (n : Z) : result AgentError Z :=
  if n <=? u64_max then Ok n else Err ResponseBudgetInvariant.
Definition response_size (e : MailboxEnvelope) (expected_key_id nonce : string) (plaintext_bytes : Z)
    : result AgentError ResponseSize :=
  ciphertext_bytes ← checked_usize (plaintext_bytes + AEAD_TAG_BYTES);
  padded ← checked_usize (ciphertext_bytes + 2);
  ciphertext_base64_bytes ← checked_usize (padded / 3 * 4);
  projected ← ok_or Json_error (envelope_to_vec (response_envelope e expected_key_id nonce ""));
  predicted_comment_bytes ← checked_usize (len projected + ciphertext_base64_bytes);
  Ok {| rsz_plaintext_bytes := plaintext_bytes; rsz_predicted_comment_bytes := predicted_comment_bytes |}.
Definition response_size_within_budget (size : ResponseSize) (budget : Z) : bool :=
  (rsz_plaintext_bytes size <=? budget) && (rsz_plaintext_bytes size <=? GLOBAL_RESPONSE_PLAINTEXT_BYTES)
  && (rsz_predicted_comment_bytes size <=? MAX_COMMENT_BODY_BYTES).
Definition bounded_response_plaintext (response : AgentResponse Json) (budget : Z) (e : MailboxEnvelope)
    (expected_key_id nonce generated_at : string) : result AgentError (string * ResponseSizeTelemetry) :=
  map_err Protocol (response_validate response);;
  plaintext ← ok_or Json_error (response_to_vec response);
  size ← response_size e expected_key_id nonce (len plaintext);
  let within_budget := response_size_within_budget size budget in
  let telemetry :=
    {| rst_plaintext_bytes := rsz_plaintext_bytes size;
       rst_plaintext_budget_bytes := Z.min budget GLOBAL_RESPONSE_PLAINTEXT_BYTES;
       rst_predicted_comment_bytes := rsz_predicted_comment_bytes size;
       rst_budget_exceeded := negb within_budget |} in
  if within_budget then Ok (plaintext, telemetry) else
  let failure := response_too_large_response (rs_request_id response) generated_at size budget in
  map_err Protocol (response_validate failure);;
  failure_plaintext ← ok_or Json_error (response_to_vec failure);
  failure_size ← response_size e expected_key_id nonce (len failure_plaintext);
  if negb (response_size_within_budget failure_size COMPACT_RESPONSE_PLAINTEXT_BYTES)
  then Err ResponseBudgetInvariant else Ok (failure_plaintext, telemetry).

Definition decode_fixed (n : Z) (value : string) : result AgentError string :=
  b ← ok_or Base64 (b64_decode value);
  if len b =? n then Ok b else Err (InvalidPrivateKeyLength (len b)).

(** The request inside an envelope, as far as it can be opened *)
Definition open_envelope (e : MailboxEnvelope) (expected_key_id agent_private_key : string)
    : result AgentError (string * string) :=
  map_err Protocol (envelope_validate e ClientToAgent);;
  if negb (me_agent_key_id e =? expected_key_id)%string
  then Err (AgentKeyMismatch expected_key_id (me_agent_key_id e)) else
  client_public_key ← decode_fixed 32 (me_client_ephemeral_public_key e);
  request_nonce ← decode_fixed 12 (me_nonce e);
  shared ← map_err Crypto (shared_secret agent_private_key client_public_key);
  request_key ← map_err Crypto (derive_directional_key shared (me_request_id e) expected_key_id ClientToAgent);
  ciphertext ← ok_or Base64 (b64_decode (me_ciphertext e));
  text ← map_err Protocol (aad e);
  plaintext ← map_err Crypto (decrypt request_key request_nonce text ciphertext);
  Ok (shared, plaintext).
(** What is dispatched of an opened request, and the answer with its budget.  [dispatch] is the
    answer of the owner, [has_context] whether there is one. *)
Definition answer (e : MailboxEnvelope) (plaintext generated_at : string) (has_context : bool)
    (dispatch : AgentRequest Json → AgentResponse Json)
    : list (AgentRequest Json) * (AgentResponse Json * Z) :=
  match request_from_slice plaintext with
  | Some request =>
    if is_ok (request_validate from_value to_text request)
       && (ar_request_id request =? me_request_id e)%string
    then
      let budget := response_budget (ar_operation request) in
      if direct_transport_read_only (ar_operation request) then
        if has_context then ([request], (dispatch request, budget))
        else ([], (invalid_request_response (ar_request_id request) generated_at, budget))
      else ([], (mailbox_execution_disabled (ar_request_id request) generated_at, budget))
    else ([], (invalid_request_response (me_request_id e) generated_at, COMPACT_RESPONSE_PLAINTEXT_BYTES))
  | None => ([], (invalid_request_response (me_request_id e) generated_at, COMPACT_RESPONSE_PLAINTEXT_BYTES))
  end.
Definition seal_answer (e : MailboxEnvelope) (expected_key_id shared nonce generated_at : string)
    (response : AgentResponse Json) (budget : Z)
    : result AgentError (MailboxEnvelope * ResponseSizeTelemetry) :=
  '(bytes, telemetry) ← bounded_response_plaintext response budget e expected_key_id nonce generated_at;
  response_key ← map_err Crypto (derive_directional_key shared (me_request_id e) expected_key_id AgentToClient);
  let envelope := response_envelope e expected_key_id nonce "" in
  text ← map_err Protocol (aad envelope);
  ciphertext ← map_err Crypto (encrypt response_key nonce text bytes);
  Ok (response_envelope e expected_key_id nonce (b64_encode ciphertext), telemetry).
Definition process_once_with_size_telemetry (e : MailboxEnvelope) (expected_key_id agent_private_key : string)
    (has_context : bool) (dispatch : AgentRequest Json → AgentResponse Json) (nonce generated_at : string)
    : list (AgentRequest Json) * result AgentError (MailboxEnvelope * ResponseSizeTelemetry) :=
  match open_envelope e expected_key_id agent_private_key with
  | Err err => ([], Err err)
  | Ok (shared, plaintext) =>
    let '(dispatched, (response, budget)) := answer e plaintext generated_at has_context dispatch in
    (dispatched, seal_answer e expected_key_id shared nonce generated_at response budget)
  end.
(** With the random nonce, when there is one, and the time *)
Definition process_once_now_with_size_telemetry (e : MailboxEnvelope) (expected_key_id agent_private_key : string)
    (dispatch : AgentRequest Json → AgentResponse Json) (random : option string) (generated_at : string)
    : list (AgentRequest Json) * result AgentError (MailboxEnvelope * ResponseSizeTelemetry) :=
  match random with
  | None => ([], Err Random)
  | Some nonce =>
    process_once_with_size_telemetry e expected_key_id agent_private_key true dispatch nonce generated_at
  end.

(** ** [github_mailbox.rs] *)
Definition permanent_mailbox_input_error (e : AgentError) : bool :=
  match e with
  | Protocol _ | Crypto _ | Base64 | AgentKeyMismatch _ _ | InvalidPrivateKeyLength _ | RequestIdMismatch => true
  | _ => false
  end.
(** The id a comment of the owner answers, if it is an answer *)
Definition terminal_id (c : IssueComment) : option string :=
  if negb (ic_user_id c =? OWNER_USER_ID) then None else
  e ← envelope_from_str (ic_body c);
  if bool_decide (me_direction e = AgentToClient) && is_ok (envelope_validate e AgentToClient)
  then Some (me_request_id e) else None.
Definition terminal_request_ids (comments : list IssueComment) : gset string :=
  list_to_set (omap terminal_id comments).
Fixpoint find_map {A B} (f : A → option B) (l : list A) : option B :=
  match l with [] => None | a :: l => match f a with Some b => Some b | None => find_map f l end end.
Definition last_terminal_request_id (comments : list IssueComment) : option string :=
  find_map terminal_id (rev comments).
Definition completed_batch_cursor (comments : list IssueComment) (batch_complete : bool)
    : option IssueCommentCursor :=
  if batch_complete then cursor <$> last comments else None.
Definition load_checkpoint_for_poll (issue_number : Z) (file : CursorFile) : result AgentError IssueCheckpoint :=
  match load_checkpoint issue_number file with
  | Ok c => Ok c
  | Err CursorJson | Err CursorStateMismatch => Ok checkpoint_default
  | Err e => Err (Github e)
  end.

(** What the world answers while one comment is processed: the random nonce, the time, the owner's
    answer to the request, and what became of the post: [Lost] is an error after the comment was
    written *)
Inductive Outcome : Type := PostAccepted | Lost | PostRefused (e : GitHubError).
Record World : Type := {
  wo_random : option string;
  wo_generated_at : string;
  wo_dispatch : AgentRequest Json → AgentResponse Json;
  wo_outcome : Outcome;
}.
(** What a poll does: it dispatches a request, and it writes a comment *)
Inductive Act : Type := Dispatched (request : AgentRequest Json) | Wrote (body : string).

Definition post (issue_number : Z) (body : string) (outcome : Outcome) : list Act * result AgentError unit :=
  match post_checks issue_number body with
  | Err e => ([], Err (Github e))
  | Ok _ =>
    match outcome with
    | PostAccepted => ([Wrote body], Ok tt)
    | Lost => ([Wrote body], Err (Github (Http true)))
    | PostRefused e => ([], Err (Github e))
    end
  end.

Record Batch : Type := {
  ba_terminal_ids : gset string;
  ba_processed : Z;
  ba_complete : bool;
  ba_acts : list Act;
}.
Definition acted (b : Batch) (acts : list Act) : Batch :=
  {| ba_terminal_ids := ba_terminal_ids b; ba_processed := ba_processed b; ba_complete := ba_complete b;
     ba_acts := ba_acts b ++ acts |}.

(** One comment of the batch.  An error is that of a post: it ends the poll *)
Definition process_comment (issue_number : Z) (expected_key_id agent_private_key : string) (w : World)
    (c : IssueComment) (b : Batch) : Batch * result AgentError unit :=
  if negb (ic_user_id c =? OWNER_USER_ID) then (b, Ok tt) else
  match envelope_from_str (ic_body c) with
  | None => (b, Ok tt)
  | Some e =>
    if negb (bool_decide (me_direction e = ClientToAgent)) || bool_decide (me_request_id e ∈ ba_terminal_ids b)
    then (b, Ok tt) else
    match process_once_now_with_size_telemetry e expected_key_id agent_private_key (wo_dispatch w)
            (wo_random w) (wo_generated_at w) with
    | (dispatched, Ok (response, _)) =>
      let b := acted b (map Dispatched dispatched) in
      match envelope_to_vec response with
      | None => (b, Err Json_error)
      | Some body =>
        let '(acts, r) := post issue_number body (wo_outcome w) in
        match r with
        | Err err => (acted b acts, Err err)
        | Ok _ =>
          ({| ba_terminal_ids := {[me_request_id e]} ∪ ba_terminal_ids b; ba_processed := ba_processed b + 1;
              ba_complete := ba_complete b; ba_acts := ba_acts b ++ acts |}, Ok tt)
        end
      end
    | (dispatched, Err err) =>
      let b := acted b (map Dispatched dispatched) in
      (if permanent_mailbox_input_error err then b
       else {| ba_terminal_ids := ba_terminal_ids b; ba_processed := ba_processed b; ba_complete := false;
               ba_acts := ba_acts b |}, Ok tt)
    end
  end.
Fixpoint process_batch (issue_number : Z) (expected_key_id agent_private_key : string) (world : nat → World)
    (i : nat) (comments : list IssueComment) (b : Batch) : Batch * result AgentError unit :=
  match comments with
  | [] => (b, Ok tt)
  | c :: comments =>
    match process_comment issue_number expected_key_id agent_private_key (world i) c b with
    | (b, Ok _) => process_batch issue_number expected_key_id agent_private_key world (S i) comments b
    | (b, Err e) => (b, Err e)
    end
  end.

(** A poll: the checkpoint, the comments, the batch, the new checkpoint.  [fetch] reads the
    comments after a cursor, or all *)
Definition poll_checkpoint (checkpoint : IssueCheckpoint)
    (fetch : option IssueCommentCursor → result GitHubError (list IssueComment))
    : result GitHubError (IssueCheckpoint * list IssueComment) :=
  if ick_ledger_initialized checkpoint then
    comments ← fetch (ick_cursor checkpoint); Ok (checkpoint, comments)
  else
    history ← fetch None;
    let checkpoint :=
      {| ick_cursor := ick_cursor checkpoint;
         ick_terminal_request_ids := ick_terminal_request_ids checkpoint ∪ terminal_request_ids history;
         ick_ledger_initialized := true |} in
    match ick_cursor checkpoint with
    | None => Ok (checkpoint, history)
    | Some c => comments ← fetch (Some c); Ok (checkpoint, comments)
    end.
Definition process_pending (issue_number : Z) (expected_key_id agent_private_key : string) (file : CursorFile)
    (fetch : option IssueCommentCursor → result GitHubError (list IssueComment)) (world : nat → World)
    (fault : SaveFault) : (list Act * CursorFile) * result AgentError Z :=
  match load_checkpoint_for_poll issue_number file with
  | Err e => (([], file), Err e)
  | Ok checkpoint =>
    match poll_checkpoint checkpoint fetch with
    | Err e => (([], file), Err (Github e))
    | Ok (checkpoint, []) =>
      match ick_cursor checkpoint with
      | Some c =>
        if ick_ledger_initialized checkpoint then
          let '(r, file) := save_checkpoint issue_number file c (ick_terminal_request_ids checkpoint) true fault in
          (([], file), match r with Ok _ => Ok 0 | Err e => Err (Github e) end)
        else (([], file), Ok 0)
      | None => (([], file), Ok 0)
      end
    | Ok (checkpoint, comments) =>
      let b := {| ba_terminal_ids := ick_terminal_request_ids checkpoint ∪ terminal_request_ids comments;
                  ba_processed := 0; ba_complete := true; ba_acts := [] |} in
      match process_batch issue_number expected_key_id agent_private_key world 0 comments b with
      | (b, Err e) => ((ba_acts b, file), Err e)
      | (b, Ok _) =>
        match completed_batch_cursor comments (ba_complete b) with
        | Some c =>
          let '(r, file) := save_checkpoint issue_number file c (ba_terminal_ids b) true fault in
          ((ba_acts b, file), match r with Ok _ => Ok (ba_processed b) | Err e => Err (Github e) end)
        | None => ((ba_acts b, file), Ok (ba_processed b))
        end
      end
    end
  end.

(** ** A history of the mailbox *)
(** The id that a comment of the agent with this body answers *)
Definition reply_id (body : string) : option string :=
  terminal_id {| ic_id := 0; ic_body := body; ic_user_id := OWNER_USER_ID; ic_created_at := "" |}.
(** The comments of the issue (never changed or removed), the file of the checkpoint, and all the
    agent did, in order.  Anyone may comment at any time; the comments a poll writes are of the
    owner's account; a comment has a later time and id than those before it. *)
Definition follows (issue later : list IssueComment) : Prop :=
  ∀ d c, d ∈ issue → c ∈ later → cursor_lt (cursor d) (cursor c) = true.
Inductive mailbox_run (issue_number : Z) (expected_key_id agent_private_key : string)
    : list IssueComment → CursorFile → list Act → Prop :=
| run_start issue : mailbox_run issue_number expected_key_id agent_private_key issue Absent []
| run_comments issue file log later :
    mailbox_run issue_number expected_key_id agent_private_key issue file log → follows issue later →
    mailbox_run issue_number expected_key_id agent_private_key (issue ++ later) file log
| run_poll issue file log fetch world fault acts file' r later :
    mailbox_run issue_number expected_key_id agent_private_key issue file log →
    (∀ current l, fetch current = Ok l → l = List.filter (after current) issue) →
    process_pending issue_number expected_key_id agent_private_key file fetch world fault = ((acts, file'), r) →
    follows issue later →
    (∀ body, Wrote body ∈ acts → ∃ c, c ∈ later ∧ ic_body c = body ∧ ic_user_id c = OWNER_USER_ID) →
    mailbox_run issue_number expected_key_id agent_private_key (issue ++ later) file' (log ++ acts).

(** ** Facts *)
Lemma open_envelope_ok e key priv shared plaintext :
  open_envelope e key priv = Ok (shared, plaintext) →
  envelope_validate e ClientToAgent = Ok tt ∧ me_agent_key_id e = key
  ∧ ∃ peer nonce ciphertext request_key,
      b64_decode (me_client_ephemeral_public_key e) = Some peer ∧ len peer = 32
      ∧ b64_decode (me_nonce e) = Some nonce ∧ len nonce = 12
      ∧ b64_decode (me_ciphertext e) = Some ciphertext
      ∧ shared = x25519 priv peer ∧ shared ≠ zero_key
      ∧ hkdf HKDF_SALT_V1 shared (key_info (me_request_id e) key ClientToAgent) = Some request_key
      ∧ open request_key nonce (aad_text (me_request_id e) ClientToAgent key) ciphertext = Some plaintext.
Proof.
  unfold open_envelope. rewrite bind_ok_iff. intros ([] & Hv & H). apply map_err_ok in Hv.
  destruct (negb _) eqn:Ek; [done|]. apply negb_false_iff, String.eqb_eq in Ek.
  rewrite !bind_ok_iff in H. destruct H as (peer & Hp & H).
  rewrite bind_ok_iff in H. destruct H as (nonce & Hn & H).
  rewrite bind_ok_iff in H. destruct H as (sh & Hs & H).
  rewrite bind_ok_iff in H. destruct H as (rk & Hr & H).
  rewrite bind_ok_iff in H. destruct H as (ct & Hc & H).
  rewrite bind_ok_iff in H. destruct H as (txt & Ht & H).
  rewrite bind_ok_iff in H. destruct H as (pt & Hd & H). simplify_eq.
  apply map_err_ok in Hs. apply map_err_ok in Hr. apply map_err_ok in Ht. apply map_err_ok in Hd.
  apply ok_or_ok in Hc.
  unfold decode_fixed in Hp, Hn. rewrite bind_ok_iff in Hp. rewrite bind_ok_iff in Hn.
  destruct Hp as (p' & Hp & Hpl), Hn as (n' & Hn & Hnl). apply ok_or_ok in Hp. apply ok_or_ok in Hn.
  destruct (len p' =? 32) eqn:E1; [|done]. destruct (len n' =? 12) eqn:E2; [|done]. simplify_eq.
  apply Z.eqb_eq in E1, E2. unfold shared_secret in Hs. destruct (_ =? zero_key)%string eqn:E3; [done|].
  simplify_eq. apply String.eqb_neq in E3.
  unfold derive_directional_key in Hr. rewrite !bind_ok_iff in Hr. destruct Hr as (_ & _ & Hr).
  rewrite bind_ok_iff in Hr. destruct Hr as (_ & _ & Hr). apply ok_or_ok in Hr.
  unfold aad in Ht. rewrite bind_ok_iff in Ht. destruct Ht as (_ & _ & Ht).
  assert (Hd' : me_direction e = ClientToAgent).
  { unfold envelope_validate in Hv. rewrite !then_ok in Hv. destruct Hv as (_ & _ & _ & Hv).
    apply require_true in Hv. by apply bool_decide_eq_true in Hv. }
  rewrite Hd' in Ht. assert (Ht' : txt = aad_text (me_request_id e) ClientToAgent (me_agent_key_id e)) by congruence.
  subst txt. unfold decrypt in Hd. apply ok_or_ok in Hd.
  split; [done|]. split; [done|]. by exists peer, nonce, ct, rk.
Qed.

Lemma answer_dispatched e plaintext gen ctx dispatch ds rb :
  answer e plaintext gen ctx dispatch = (ds, rb) →
  ds = [] ∨ ∃ q, ds = [q] ∧ request_from_slice plaintext = Some q
               ∧ request_validate from_value to_text q = Ok tt ∧ ar_request_id q = me_request_id e
               ∧ action_class (ar_operation q) = Read ∧ fst rb = dispatch q.
Proof.
  unfold answer. destruct (request_from_slice plaintext) as [q|] eqn:Eq; [|intros [= <- _]; by left].
  destruct (is_ok _ && _) eqn:Ev; [|intros [= <- _]; by left].
  destruct (direct_transport_read_only _) eqn:Ed; [|intros [= <- _]; by left].
  destruct ctx; [|intros [= <- _]; by left].
  intros [= <- <-]. right. exists q. apply andb_true_iff in Ev as [Ev Ei]. apply String.eqb_eq in Ei.
  destruct (request_validate _ _ q) as [[]|] eqn:Er; [|done].
  unfold direct_transport_read_only in Ed. apply bool_decide_eq_true in Ed. by repeat split.
Qed.

(** C20: At most one request is dispatched of an envelope: it was addressed to the agent and to this
    key, sealed under the key of this id, direction and address with the same three as
    authenticated text, is valid, has the id of its envelope, and passes as a read. *)
Theorem mailbox_opens e key priv ctx dispatch nonce gen ds r q :
  process_once_with_size_telemetry e key priv ctx dispatch nonce gen = (ds, r) → q ∈ ds →
  ds = [q] ∧ me_direction e = ClientToAgent ∧ me_agent_key_id e = key
  ∧ request_validate from_value to_text q = Ok tt ∧ ar_request_id q = me_request_id e
  ∧ action_class (ar_operation q) = Read
  ∧ ∃ peer n ciphertext request_key plaintext,
      b64_decode (me_ciphertext e) = Some ciphertext ∧ b64_decode (me_nonce e) = Some n
      ∧ b64_decode (me_client_ephemeral_public_key e) = Some peer ∧ x25519 priv peer ≠ zero_key
      ∧ hkdf HKDF_SALT_V1 (x25519 priv peer) (key_info (me_request_id e) key ClientToAgent) = Some request_key
      ∧ open request_key n (aad_text (me_request_id e) ClientToAgent key) ciphertext = Some plaintext
      ∧ request_from_slice plaintext = Some q.
Proof.
  unfold process_once_with_size_telemetry.
  destruct (open_envelope e key priv) as [[shared plaintext]|] eqn:Eo.
  2: { intros [= <- _] Hq. by apply elem_of_nil in Hq. }
  destruct (answer e plaintext gen ctx dispatch) as [ds' [resp budget]] eqn:Ea. intros [= <- _] Hq.
  apply open_envelope_ok in Eo as (Hv & Hk & peer & n & ct & rk & Hp & _ & Hn & _ & Hc & -> & Hz & Hr & Ho).
  apply answer_dispatched in Ea as [->|(q' & -> & Hs & Hval & Hid & Hcl & _)];
    [by apply elem_of_nil in Hq|]. apply list_elem_of_singleton in Hq as ->.
  assert (Hd : me_direction e = ClientToAgent).
  { unfold envelope_validate in Hv. rewrite !then_ok in Hv. destruct Hv as (_ & _ & _ & Hv).
    apply require_true in Hv. by apply bool_decide_eq_true in Hv. }
  repeat split; try done. by exists peer, n, ct, rk, plaintext.
Qed.

(** A request to move capital between account and strategies passes as a read: the mailbox, which
    refuses what changes orders or strategies, dispatches it. *)
Lemma capital_passes_as_read e plaintext gen dispatch q key instance direction amount revision :
  request_from_slice plaintext = Some q →
  ar_operation q = Strategies (CapitalAssign key instance direction amount revision) →
  request_validate from_value to_text q = Ok tt → ar_request_id q = me_request_id e →
  fst (answer e plaintext gen true dispatch) = [q].
Proof.
  intros Hs Ho Hv Hi. unfold answer. rewrite Hs, Hv, Hi, String.eqb_refl, Ho. done.
Qed.

Lemma checked_usize_ok n m : checked_usize n = Ok m → m = n.
Proof. unfold checked_usize. destruct (_ <=? _); [|done]. congruence. Qed.
Lemma response_size_ok e key nonce n size :
  response_size e key nonce n = Ok size →
  ∃ t0, envelope_to_vec (response_envelope e key nonce "") = Some t0
        ∧ rsz_plaintext_bytes size = n
        ∧ rsz_predicted_comment_bytes size = len t0 + (n + AEAD_TAG_BYTES + 2) / 3 * 4.
Proof.
  unfold response_size. rewrite bind_ok_iff. intros (c & ->%checked_usize_ok & H).
  rewrite bind_ok_iff in H. destruct H as (p & ->%checked_usize_ok & H).
  rewrite bind_ok_iff in H. destruct H as (b & ->%checked_usize_ok & H).
  rewrite bind_ok_iff in H. destruct H as (t0 & Ht & H). apply ok_or_ok in Ht.
  rewrite bind_ok_iff in H. destruct H as (q & ->%checked_usize_ok & [= <-]). by exists t0.
Qed.
(** What is sealed was measured and is within the bounds *)
Lemma bounded_plaintext_ok response budget e key nonce gen bytes t :
  bounded_response_plaintext response budget e key nonce gen = Ok (bytes, t) →
  budget ≤ COMPACT_RESPONSE_PLAINTEXT_BYTES →
  ∃ t0, envelope_to_vec (response_envelope e key nonce "") = Some t0
        ∧ len bytes ≤ COMPACT_RESPONSE_PLAINTEXT_BYTES
        ∧ len t0 + (len bytes + AEAD_TAG_BYTES + 2) / 3 * 4 ≤ MAX_COMMENT_BODY_BYTES.
Proof.
  intros H Hb.
  assert (Hw : ∀ n size b, response_size e key nonce n = Ok size → b ≤ COMPACT_RESPONSE_PLAINTEXT_BYTES →
    response_size_within_budget size b = true →
    ∃ t0, envelope_to_vec (response_envelope e key nonce "") = Some t0 ∧ n ≤ COMPACT_RESPONSE_PLAINTEXT_BYTES
          ∧ len t0 + (n + AEAD_TAG_BYTES + 2) / 3 * 4 ≤ MAX_COMMENT_BODY_BYTES).
  { intros n size b (t0 & Ht & Hn & Hp)%response_size_ok Hle Hw. exists t0. split; [done|].
    unfold response_size_within_budget in Hw. rewrite !andb_true_iff, !Z.leb_le in Hw. lia. }
  unfold bounded_response_plaintext in H. rewrite bind_ok_iff in H. destruct H as (_ & _ & H).
  rewrite bind_ok_iff in H. destruct H as (pt & _ & H).
  rewrite bind_ok_iff in H. destruct H as (size & Hs & H).
  destruct (response_size_within_budget size budget) eqn:E.
  - assert (Hpt : pt = bytes) by congruence. subst pt. by eapply Hw.
  - rewrite bind_ok_iff in H. destruct H as (_ & _ & H).
    rewrite bind_ok_iff in H. destruct H as (fp & _ & H).
    rewrite bind_ok_iff in H. destruct H as (fs & Hfs & H).
    destruct (response_size_within_budget fs _) eqn:E2; simpl in H; [|done].
    assert (Hpt : fp = bytes) by congruence. subst fp. eapply Hw; [exact Hfs|reflexivity|exact E2].
Qed.

Lemma seal_answer_ok e key shared nonce gen response budget e' t :
  seal_answer e key shared nonce gen response budget = Ok (e', t) →
  ∃ bytes t' ciphertext response_key,
    bounded_response_plaintext response budget e key nonce gen = Ok (bytes, t')
    ∧ validate_request_id (me_request_id e) = Ok tt ∧ validate_agent_key_id key = Ok tt
    ∧ hkdf HKDF_SALT_V1 shared (key_info (me_request_id e) key AgentToClient) = Some response_key
    ∧ seal response_key nonce (aad_text (me_request_id e) AgentToClient key) bytes = Some ciphertext
    ∧ e' = response_envelope e key nonce (b64_encode ciphertext).
Proof.
  unfold seal_answer. rewrite bind_ok_iff. intros ([bytes t'] & Hb & H).
  rewrite bind_ok_iff in H. destruct H as (rk & Hr & H). apply map_err_ok in Hr.
  rewrite bind_ok_iff in H. destruct H as (txt & Ht & H). apply map_err_ok in Ht.
  rewrite bind_ok_iff in H. destruct H as (ct & Hc & H). apply map_err_ok in Hc.
  unfold encrypt in Hc. apply ok_or_ok in Hc.
  unfold derive_directional_key in Hr. rewrite !bind_ok_iff in Hr. destruct Hr as ([] & Hi & Hr).
  rewrite bind_ok_iff in Hr. destruct Hr as ([] & Hk & Hr). apply ok_or_ok in Hr.
  apply map_err_ok in Hi. apply map_err_ok in Hk.
  unfold aad in Ht. rewrite bind_ok_iff in Ht. destruct Ht as (_ & _ & Ht).
  assert (Ht' : txt = aad_text (me_request_id e) AgentToClient key) by (simpl in Ht; congruence). subst txt.
  exists bytes, t', ct, rk. repeat split; try done. congruence.
Qed.

Lemma budget_le o : response_budget o ≤ COMPACT_RESPONSE_PLAINTEXT_BYTES.
Proof. destruct o; simpl; unfold COMPACT_RESPONSE_PLAINTEXT_BYTES; lia. Qed.
Lemma answer_budget e plaintext gen ctx dispatch ds resp budget :
  answer e plaintext gen ctx dispatch = (ds, (resp, budget)) → budget ≤ COMPACT_RESPONSE_PLAINTEXT_BYTES.
Proof.
  unfold answer. destruct (request_from_slice plaintext) as [q|]; [|intros [= _ _ <-]; done].
  destruct (is_ok _ && _); [|intros [= _ _ <-]; done].
  destruct (direct_transport_read_only _); [|intros [= _ _ <-]; apply budget_le].
  destruct ctx; intros [= _ _ <-]; apply budget_le.
Qed.

(** The answer to an envelope is a valid envelope of the same id to the client, sealed with these
    as authenticated text, and with the lengths that base64, the cipher and JSON promise it always
    fits the comment it is posted in, so the measure taken before it was sealed was right. *)
Theorem answer_fits e key priv ctx dispatch nonce gen ds e' t body issue_number :
  (∀ b, len (b64_encode b) = (len b + 2) / 3 * 4) →
  (∀ k n a m c, seal k n a m = Some c → len c = len m + AEAD_TAG_BYTES) →
  (∀ c t0, envelope_to_vec (response_envelope e key nonce "") = Some t0 →
           envelope_to_vec (response_envelope e key nonce (b64_encode c)) = Some body →
           len body = len t0 + len (b64_encode c)) →
  process_once_with_size_telemetry e key priv ctx dispatch nonce gen = (ds, Ok (e', t)) →
  envelope_to_vec e' = Some body → issue_number ≠ 0 →
  post_checks issue_number body = Ok tt ∧ me_request_id e' = me_request_id e
  ∧ envelope_validate e' AgentToClient = Ok tt.
Proof.
  intros H64 Hseal Hjson. unfold process_once_with_size_telemetry.
  destruct (open_envelope e key priv) as [[shared plaintext]|]; [|done].
  destruct (answer e plaintext gen ctx dispatch) as [ds' [resp budget]] eqn:Ea. intros [= _ Hs] Hbody Hn.
  apply answer_budget in Ea.
  apply seal_answer_ok in Hs as (bytes & t' & ct & rk & Hb & Hi & Hk & _ & Hc & ->).
  apply bounded_plaintext_ok in Hb as (t0 & Ht0 & Hlen & Hfit); [|done].
  specialize (Hjson ct t0 Ht0 Hbody). rewrite H64, (Hseal _ _ _ _ _ Hc) in Hjson.
  split; [|split; [done|]].
  - unfold post_checks, validate_issue_number. apply Z.eqb_neq in Hn. rewrite Hn. simpl.
    destruct (MAX_COMMENT_BODY_BYTES <? len body) eqn:E; [|done]. apply Z.ltb_lt in E. lia.
  - unfold envelope_validate. rewrite !then_ok, !require_true. simpl. by rewrite Hi, Hk.
Qed.

(** *** Requests are answered once *)
(** The ids that some acts answered *)
Fixpoint replies (acts : list Act) : gset string :=
  match acts with
  | [] => ∅
  | Wrote body :: acts =>
    match reply_id body with Some i => {[i]} ∪ replies acts | None => replies acts end
  | Dispatched _ :: acts => replies acts
  end.
(** No act dispatches a request whose id is in [done] or was answered by an earlier act *)
Fixpoint unanswered (done : gset string) (acts : list Act) : Prop :=
  match acts with
  | [] => True
  | Dispatched q :: acts => ar_request_id q ∉ done ∧ unanswered done acts
  | Wrote body :: acts => unanswered (replies [Wrote body] ∪ done) acts
  end.

Lemma replies_app a b : replies (a ++ b) = replies a ∪ replies b.
Proof.
  induction a as [|[q|body] a IH]; simpl; [set_solver|done|].
  destruct (reply_id body); rewrite IH; set_solver.
Qed.
Lemma replies_cons o acts : replies (o :: acts) = replies [o] ∪ replies acts.
Proof. by rewrite <- (replies_app [o] acts). Qed.
Lemma elem_replies i acts : i ∈ replies acts ↔ ∃ body, Wrote body ∈ acts ∧ reply_id body = Some i.
Proof.
  induction acts as [|[q|body] acts IH].
  - simpl. rewrite elem_of_empty. split; [done|]. intros (b & Hb & _). by apply elem_of_nil in Hb.
  - simpl. rewrite IH. split; intros (b & Hb & Hi); exists b; (split; [|done]).
    + by right.
    + apply elem_of_cons in Hb as [?|?]; [done|done].
  - rewrite replies_cons, elem_of_union, IH. simpl. split.
    + intros [H|(b & Hb & Hi)]; [|exists b; split; [by right|done]].
      exists body. split; [left|]. destruct (reply_id body); set_solver.
    + intros (b & [[= ->]|Hb]%elem_of_cons & Hi); [left; rewrite Hi; set_solver|right; by exists b].
Qed.
Lemma unanswered_mono d d' acts : d ⊆ d' → unanswered d' acts → unanswered d acts.
Proof.
  revert d d'. induction acts as [|[q|body] acts IH]; intros d d' Hd; [done| |].
  - intros [Hq H]. split; [set_solver|]. by eapply IH.
  - apply IH. set_solver.
Qed.
Lemma unanswered_app d a b : unanswered d (a ++ b) ↔ unanswered d a ∧ unanswered (replies a ∪ d) b.
Proof.
  revert d. induction a as [|[q|body] a IH]; intros d.
  - simpl. replace (∅ ∪ d) with d by set_solver. tauto.
  - simpl. rewrite IH. tauto.
  - change (Wrote body :: a) with ([Wrote body] ++ a). rewrite replies_app.
    change (unanswered d (([Wrote body] ++ a) ++ b)) with (unanswered (replies [Wrote body] ∪ d) (a ++ b)).
    change (unanswered d ([Wrote body] ++ a)) with (unanswered (replies [Wrote body] ∪ d) a).
    rewrite IH. replace (replies a ∪ (replies [Wrote body] ∪ d)) with (replies [Wrote body] ∪ replies a ∪ d)
      by set_solver. done.
Qed.
Lemma unanswered_sends d ds : (∀ q, q ∈ ds → ar_request_id q ∉ d) → unanswered d (map Dispatched ds).
Proof. induction ds as [|q ds IH]; simpl; [done|]. intros H. split; [apply H; by left|]. apply IH. intros. apply H. by right. Qed.
Lemma replies_sends ds : replies (map Dispatched ds) = ∅.
Proof. by induction ds. Qed.

Section once.
  (** An envelope is read back from its JSON *)
  Hypothesis read_back : ∀ e body, envelope_to_vec e = Some body → envelope_from_str body = Some e.
  Variable issue_number : Z.
  Variables key priv : string.

(** While a batch goes on, what it answered is among the ids it skips *)
Definition batch_ok (T : gset string) (b : Batch) : Prop :=
  unanswered T (ba_acts b) ∧ replies (ba_acts b) ∪ T ⊆ ba_terminal_ids b.

Lemma sent_ids e w ds r :
  process_once_now_with_size_telemetry e key priv (wo_dispatch w) (wo_random w) (wo_generated_at w) = (ds, r) →
  (∀ q, q ∈ ds → ar_request_id q = me_request_id e)
  ∧ ∀ e' t, r = Ok (e', t) → me_request_id e' = me_request_id e.
Proof.
  unfold process_once_now_with_size_telemetry. destruct (wo_random w) as [nonce|].
  2: { intros [= <- <-]. split; [intros q Hq; by apply elem_of_nil in Hq|done]. }
  unfold process_once_with_size_telemetry.
  destruct (open_envelope e key priv) as [[shared plaintext]|].
  2: { intros [= <- <-]. split; [intros q Hq; by apply elem_of_nil in Hq|done]. }
  destruct (answer e plaintext _ _ _) as [ds' [resp budget]] eqn:Ea. intros [= <- <-]. split.
  - intros q Hq. apply answer_dispatched in Ea as [->|(q' & -> & _ & _ & Hid & _)];
      [by apply elem_of_nil in Hq|]. by apply list_elem_of_singleton in Hq as ->.
  - intros e' t Hs. apply seal_answer_ok in Hs as (? & ? & ct & ? & _ & _ & _ & _ & _ & ->). done.
Qed.

Lemma acted_ok T b ds :
  batch_ok T b → (∀ q, q ∈ ds → ar_request_id q ∉ ba_terminal_ids b) →
  batch_ok T (acted b (map Dispatched ds)).
Proof.
  intros [Hu Hr] Hd. split; simpl.
  - apply unanswered_app. split; [done|]. apply unanswered_sends. intros q Hq Hin. by eapply Hd, Hr.
  - rewrite replies_app, replies_sends. set_solver.
Qed.

Lemma process_comment_ok T w c b b' r :
  batch_ok T b → process_comment issue_number key priv w c b = (b', r) →
  unanswered T (ba_acts b') ∧ (r = Ok tt → batch_ok T b').
Proof using read_back.
  intros Hb. unfold process_comment. destruct (negb _); [intros [= <- <-]; split; [apply Hb|done]|].
  destruct (envelope_from_str (ic_body c)) as [e|]; [|intros [= <- <-]; split; [apply Hb|done]].
  destruct (_ || bool_decide _) eqn:Eskip; [intros [= <- <-]; split; [apply Hb|done]|].
  apply orb_false_iff in Eskip as [_ Hnew]. apply bool_decide_eq_false in Hnew.
  destruct (process_once_now_with_size_telemetry _ _ _ _ _ _) as [ds res] eqn:Ep.
  apply sent_ids in Ep as [Hds He].
  assert (Hb1 : batch_ok T (acted b (map Dispatched ds))).
  { apply acted_ok; [done|]. intros q Hq. by rewrite (Hds q Hq). }
  destruct res as [[e' t]|err].
  - specialize (He e' t eq_refl).
    destruct (envelope_to_vec e') as [body|] eqn:Ev; [|intros [= <- <-]; split; [apply Hb1|done]].
    destruct (post issue_number body (wo_outcome w)) as [acts pr] eqn:Eo.
    assert (Hacts : acts = [] ∨ acts = [Wrote body]).
    { unfold post in Eo. destruct (post_checks _ _); [|injection Eo as <- _; by left].
      destruct (wo_outcome w); injection Eo as <- _; auto. }
    assert (Hrep : replies acts ⊆ {[me_request_id e]}).
    { destruct Hacts as [->| ->]; simpl; [set_solver|].
      unfold reply_id, terminal_id. simpl. rewrite (read_back _ _ Ev). simpl.
      destruct (_ && _); [rewrite He; set_solver|set_solver]. }
    assert (Hu : unanswered T (ba_acts (acted (acted b (map Dispatched ds)) acts))).
    { simpl. apply unanswered_app. split; [apply Hb1|]. by destruct Hacts as [->| ->]. }
    destruct pr as [[]|err]; intros [= <- <-]; (split; [exact Hu|]); [|done].
    intros _. split; [exact Hu|]. simpl. rewrite replies_app, replies_app, replies_sends.
    destruct Hb as [_ Hr]. set_solver.
  - destruct (permanent_mailbox_input_error err); intros [= <- <-]; (split; [apply Hb1|]); intros _; apply Hb1.
Qed.

Lemma process_batch_ok T world i comments b b' r :
  batch_ok T b → process_batch issue_number key priv world i comments b = (b', r) →
  unanswered T (ba_acts b') ∧ (r = Ok tt → batch_ok T b').
Proof using read_back.
  revert i b. induction comments as [|c comments IH]; intros i b Hb; simpl.
  { intros [= <- <-]. split; [apply Hb|done]. }
  destruct (process_comment _ _ _ _ _ _) as [b1 r1] eqn:E.
  apply process_comment_ok with (T := T) in E as [Hu Hok]; [|done].
  destruct r1 as [[]|err]; [|intros [= <- <-]; by split]. apply IH. by apply Hok.
Qed.

(** What the checkpoint file knows of the issue *)
Definition covers (issue : list IssueComment) (T : gset string) (current : option IssueCommentCursor) : Prop :=
  ∀ c i, c ∈ issue → terminal_id c = Some i → after current c = false → i ∈ T.
Record run_ok (issue : list IssueComment) (file : CursorFile) (log : list Act) : Prop := {
  ro_written : replies log ⊆ terminal_request_ids issue;
  ro_log : unanswered ∅ log;
  ro_file : match file with
            | Absent => True
            | Persisted p => pic_ledger_initialized p = true
                             ∧ covers issue (pic_terminal_request_ids p) (Some (pic_cursor p))
                             ∧ ∃ c, c ∈ issue ∧ cursor c = pic_cursor p
            | _ => False
            end;
}.

Lemma elem_terminal i issue : i ∈ terminal_request_ids issue ↔ ∃ c, c ∈ issue ∧ terminal_id c = Some i.
Proof.
  unfold terminal_request_ids. rewrite elem_of_list_to_set, list_elem_of_omap. naive_solver.
Qed.
Lemma terminal_app a b : terminal_request_ids (a ++ b) = terminal_request_ids a ∪ terminal_request_ids b.
Proof. apply set_eq. intros i. rewrite elem_of_union, !elem_terminal. setoid_rewrite elem_of_app. naive_solver. Qed.
Lemma covers_later issue later T c :
  covers issue T (Some (cursor c)) → c ∈ issue → follows issue later → covers (issue ++ later) T (Some (cursor c)).
Proof.
  intros Hc Hin Hf d i [Hd|Hd]%elem_of_app Ht Ha; [by eapply Hc|].
  specialize (Hf c d Hin Hd). simpl in Ha. congruence.
Qed.
Lemma written_reply body c :
  ic_body c = body → ic_user_id c = OWNER_USER_ID → terminal_id c = reply_id body.
Proof. intros <- Hu. unfold reply_id, terminal_id. simpl. by rewrite Hu. Qed.

(** The ids a poll starts with are all that were answered in the issue *)
Lemma poll_starts issue file log fetch checkpoint checkpoint' comments :
  run_ok issue file log → (∀ current l, fetch current = Ok l → l = List.filter (after current) issue) →
  load_checkpoint_for_poll issue_number file = Ok checkpoint →
  poll_checkpoint checkpoint fetch = Ok (checkpoint', comments) →
  ick_ledger_initialized checkpoint' = true ∧ (∀ c, c ∈ comments → c ∈ issue)
  ∧ terminal_request_ids issue ⊆ ick_terminal_request_ids checkpoint' ∪ terminal_request_ids comments
  ∧ (∀ k, ick_cursor checkpoint' = Some k → ∃ c, c ∈ issue ∧ cursor c = k).
Proof.
  intros [_ _ Hfile] Hfetch Hl Hp.
  assert (Hall : List.filter (after None) issue = issue).
  { clear. induction issue as [|c l IH]; simpl; [done|]. by rewrite IH. }
  assert (Hcase : checkpoint = checkpoint_default
    ∨ (ick_ledger_initialized checkpoint = true
       ∧ ∃ k, ick_cursor checkpoint = Some k ∧ covers issue (ick_terminal_request_ids checkpoint) (Some k)
              ∧ ∃ c, c ∈ issue ∧ cursor c = k)).
  { unfold load_checkpoint_for_poll, load_checkpoint in Hl. destruct file as [| | |p]; try done.
    - injection Hl as <-. by left.
    - destruct (_ || _); injection Hl as <-; [by left|]. right. destruct Hfile as (Hi & Hc & Hin).
      split; [done|]. by eexists. }
  unfold poll_checkpoint in Hp. destruct Hcase as [->|(Hi & k & Hk & Hc & Hin)].
  - simpl in Hp. rewrite bind_ok_iff in Hp. destruct Hp as (history & Hh & [= <- <-]).
    apply Hfetch in Hh. rewrite Hall in Hh. subst history. simpl.
    repeat split; try done. set_solver.
  - rewrite Hi in Hp. rewrite bind_ok_iff in Hp. destruct Hp as (cs & Hcs & [= <- <-]).
    rewrite Hk in Hcs. apply Hfetch in Hcs. subst cs. split; [done|]. split; [|split].
    + intros c. rewrite list_elem_of_In, List.filter_In, list_elem_of_In. tauto.
    + intros i (c & Hin' & Ht)%elem_terminal. rewrite elem_of_union, elem_terminal.
      destruct (after (Some k) c) eqn:E; [right|left; by eapply Hc].
      exists c. split; [|done]. rewrite list_elem_of_In, List.filter_In, <- list_elem_of_In. done.
    + intros k' [= <-]%(eq_trans (eq_sym Hk)). done.
Qed.

Lemma save_ok n file c T fault r file' :
  save_checkpoint n file c T true fault = (r, file') →
  file' = file ∨ file' = Absent
  ∨ ∃ p, file' = Persisted p ∧ pic_ledger_initialized p = true ∧ pic_cursor p = c ∧ pic_terminal_request_ids p = T.
Proof.
  unfold save_checkpoint. destruct fault; intros [= _ <-]; [by left|right; by left|].
  right; right. by eexists.
Qed.

Lemma last_elem {A} (l : list A) x : last l = Some x → x ∈ l.
Proof. intros H. apply last_Some in H as (l' & ->). set_solver. Qed.

Lemma process_pending_ok issue file log fetch world fault acts file' r :
  run_ok issue file log → (∀ current l, fetch current = Ok l → l = List.filter (after current) issue) →
  process_pending issue_number key priv file fetch world fault = ((acts, file'), r) →
  unanswered (terminal_request_ids issue) acts
  ∧ (file' = file ∨ file' = Absent
     ∨ ∃ p, file' = Persisted p ∧ pic_ledger_initialized p = true
            ∧ terminal_request_ids issue ⊆ pic_terminal_request_ids p
            ∧ ∃ c, c ∈ issue ∧ cursor c = pic_cursor p).
Proof.
  intros Hrun Hfetch. unfold process_pending.
  destruct (load_checkpoint_for_poll _ _) as [checkpoint|] eqn:El; [|intros [= <- <- _]; split; [done|by left]].
  destruct (poll_checkpoint _ _) as [[checkpoint' comments]|] eqn:Ep; [|intros [= <- <- _]; split; [done|by left]].
  destruct (poll_starts _ _ _ _ _ _ _ Hrun Hfetch El Ep) as (Hi & Hsub & Hall & Hcur).
  destruct comments as [|c comments].
  - destruct (ick_cursor checkpoint') as [k|] eqn:Ek; [|intros [= <- <- _]; split; [done|by left]].
    rewrite Hi. destruct (save_checkpoint _ _ _ _ _ _) as [rs f'] eqn:Es. intros [= <- <- _]. split; [done|].
    apply save_ok in Es as [->|[->|(p & -> & Hp & Hc & HT)]]; [by left|right; by left|].
    right; right. exists p. rewrite Hc, HT. repeat split; [done| |by apply Hcur].
    simpl in Hall. set_solver.
  - set (cs := c :: comments) in *. set (b := {| ba_terminal_ids := _ |}).
    assert (Hb : batch_ok (terminal_request_ids issue) b) by (split; [done|]; simpl; set_solver).
    destruct (process_batch _ _ _ _ _ _ _) as [b' rb] eqn:Eb.
    apply process_batch_ok with (T := terminal_request_ids issue) in Eb as [Hu Hok]; [|done].
    destruct rb as [[]|e]; [|intros [= <- <- _]; split; [done|by left]].
    destruct (completed_batch_cursor cs _) as [k|] eqn:Ec; [|intros [= <- <- _]; split; [done|by left]].
    destruct (save_checkpoint _ _ _ _ _ _) as [rs f'] eqn:Es. intros [= <- <- _]. split; [done|].
    apply save_ok in Es as [->|[->|(p & -> & Hp & Hc & HT)]]; [by left|right; by left|].
    right; right. exists p. rewrite Hc, HT. destruct (Hok eq_refl) as [_ Hr].
    repeat split; [done|set_solver|]. unfold completed_batch_cursor in Ec.
    destruct (ba_complete b'); [|done]. apply fmap_Some in Ec as (d & Hd & ->).
    exists d. split; [|done]. by apply Hsub, last_elem.
Qed.

Lemma run_invariant issue file log :
  mailbox_run issue_number key priv issue file log → run_ok issue file log.
Proof.
  induction 1 as [issue|issue file log later _ IH Hf|issue file log fetch world fault acts file' r later _ IH Hfetch Hp Hf Hw].
  - split; simpl; [set_solver|done|done].
  - destruct IH as [Hw Hl Hfile]. split; [rewrite terminal_app; set_solver|done|].
    destruct file as [| | |p]; try done. destruct Hfile as (Hi & Hc & c & Hin & Hk).
    split; [done|]. rewrite <- Hk in *. split; [by apply covers_later|].
    exists c. split; [|done]. apply elem_of_app. by left.
  - pose proof IH as [Hrw Hl Hfile].
    apply process_pending_ok with (issue := issue) (log := log) in Hp as [Hu Hcase]; [|done|done].
    split.
    + rewrite replies_app, terminal_app. apply union_mono; [done|].
      intros i (body & Hb & Hi)%elem_replies. apply elem_terminal. destruct (Hw body Hb) as (c & Hc & Hcb & Hcu).
      exists c. split; [done|]. by rewrite (written_reply body c).
    + apply unanswered_app. split; [done|]. eapply unanswered_mono, Hu. set_solver.
    + destruct Hcase as [->|[->|(p & -> & Hi & HT & c & Hin & Hk)]]; [|done|].
      * destruct file as [| | |p]; try done. destruct Hfile as (Hi & Hc & c & Hin & Hk).
        split; [done|]. rewrite <- Hk in *. split; [by apply covers_later|].
        exists c. split; [|done]. apply elem_of_app. by left.
      * split; [done|]. rewrite <- Hk. split.
        -- apply covers_later; [|done|done]. intros d i Hd Ht _. apply HT, elem_terminal. by exists d.
        -- exists c. split; [|done]. apply elem_of_app. by left.
Qed.

(** C19: Over any history of the mailbox, with comments of anyone at any time, posts that fail or whose
    success is not learned, and a checkpoint that is lost or left half written: once an answer to
    a request was written, no request of the same id is ever dispatched again. *)
Theorem answered_once issue file log l1 body i l2 q l3 :
  mailbox_run issue_number key priv issue file log →
  log = l1 ++ Wrote body :: l2 ++ Dispatched q :: l3 → reply_id body = Some i →
  ar_request_id q ≠ i.
Proof.
  intros [_ Hl _]%run_invariant -> Hi Heq.
  apply unanswered_app in Hl as [_ Hl]. simpl in Hl. rewrite Hi in Hl.
  apply unanswered_app in Hl as [_ [Hq _]]. rewrite Heq in Hq. set_solver.
Qed.
End once.
End mailbox.
