(* ===== verification/Catalog.v ===== *)
(** * Catalog: the verified accounts of an installation

    [okx-protocol/src/accounts.rs] and [account_catalog_proto.rs]: access to an account, the
    catalog of accounts and its one file.  The Protobuf codec is a parameter; the file system is
    the content of the files named here.  [catalog_roundtrip]: a catalog is read back from what
    is written, and only from that; [append_exact]: what adding an account does.  The one-time
    promotion of the older form of the catalog is not modelled. *)
From stdpp Require Import base option list numbers strings gmap sets.
From Stdlib Require Import ZArith Lia Ascii String.
From S2P Require Import Prelude Text Ordered External Protocol Session.
Local Open Scope string_scope.
Local Open Scope list_scope.
Local Open Scope Z_scope.

(** ** [accounts.rs] *)
#[export] Instance AccountKey_eq_dec : EqDecision AccountKey.
Proof. solve_decision. Defined.
#[export] Instance AccountKey_countable : Countable AccountKey.
Proof.
  refine (inj_countable' (λ k, (ak_venue k, bool_decide (ak_environment k = Demo), ak_verified_uid k))
    (λ '(v, e, u), {| ak_venue := v; ak_environment := if e : bool then Demo else Real; ak_verified_uid := u |}) _).
  by intros [v [] u].
Defined.

Record TradingAccess {L : Type} : Type := {
  ta_account_key : AccountKey;
  ta_enabled : bool;
  ta_policy_revision : Z;
  ta_limits : L;
  ta_explicit_pause : bool;
}.
Arguments TradingAccess : clear implicits.
Definition permits_new_risk {L} (a : TradingAccess L) : bool :=
  account_key_valid (ta_account_key a) && (0 <? ta_policy_revision a) && ta_enabled a
  && negb (ta_explicit_pause a).

Record VerifiedAccountConfig : Type := {
  vac_account_key : AccountKey;
  vac_alias : string;
  vac_credential_ref : string;
  vac_connect_operation_id : string;
  vac_configuration_digest : string;
}.
#[export] Instance VerifiedAccountConfig_eq_dec : EqDecision VerifiedAccountConfig.
Proof. solve_decision. Defined.
Definition account_config_valid (a : VerifiedAccountConfig) : bool :=
  account_key_valid (vac_account_key a) && lower_sha256 (vac_configuration_digest a)
  && valid_reference (vac_alias a) && valid_reference (vac_credential_ref a)
  && within 8 128 (len (vac_connect_operation_id a)) && bytes_all token_byte (vac_connect_operation_id a).

Record AccountCatalog : Type := {
  cat_schema : string;
  cat_installation_id : string;
  cat_accounts : list VerifiedAccountConfig;
}.
#[export] Instance AccountCatalog_eq_dec : EqDecision AccountCatalog.
Proof. solve_decision. Defined.
Definition CATALOG_SCHEMA : string := "okx.verified-account-catalog/v1".
(** The accounts in order, with the aliases, keys and credentials seen so far *)
Fixpoint accounts_distinct (aliases : gset string) (keys : gset AccountKey) (refs : gset string)
    (l : list VerifiedAccountConfig) : bool :=
  match l with
  | [] => true
  | a :: l' =>
    account_config_valid a && bool_decide (vac_alias a ∉ aliases) && bool_decide (vac_account_key a ∉ keys)
    && bool_decide (vac_credential_ref a ∉ refs)
    && accounts_distinct ({[vac_alias a]} ∪ aliases) ({[vac_account_key a]} ∪ keys)
         ({[vac_credential_ref a]} ∪ refs) l'
  end.
Definition catalog_valid (c : AccountCatalog) : bool :=
  (cat_schema c =? CATALOG_SCHEMA)%string && valid_installation (cat_installation_id c)
  && (count (cat_accounts c) <=? 32) && accounts_distinct ∅ ∅ ∅ (cat_accounts c).

(** ** [account_catalog_proto.rs] *)
Definition VERSION : Z := 1.
Definition MAX_BYTES : Z := 32 * 1024.
Record AccountWire : Type := {
  aw_venue : string;
  aw_environment : Z;
  aw_uid : string;
  aw_alias : string;
  aw_credential_ref : string;
  aw_connect_operation_id : string;
  aw_configuration_digest : string;
}.
Record CatalogWire : Type := {
  cw_version : Z;
  cw_installation_id : string;
  cw_accounts : list AccountWire;
}.
(** The errors of the file: invalid data, an existing installation, or the system's own *)
Inductive IoError : Type := Invalid | AlreadyExists | System.
Definition invalid : IoError := Invalid.
Definition to_wire (a : VerifiedAccountConfig) : AccountWire :=
  {| aw_venue := ak_venue (vac_account_key a);
     aw_environment := match ak_environment (vac_account_key a) with Real => 1 | Demo => 2 end;
     aw_uid := ak_verified_uid (vac_account_key a); aw_alias := vac_alias a;
     aw_credential_ref := vac_credential_ref a; aw_connect_operation_id := vac_connect_operation_id a;
     aw_configuration_digest := vac_configuration_digest a |}.
Definition from_wire (a : AccountWire) : result IoError VerifiedAccountConfig :=
  environment ← (if aw_environment a =? 1 then Ok Real else if aw_environment a =? 2 then Ok Demo
                 else Err invalid);
  Ok {| vac_account_key := {| ak_venue := aw_venue a; ak_environment := environment;
                              ak_verified_uid := aw_uid a |};
        vac_alias := aw_alias a; vac_credential_ref := aw_credential_ref a;
        vac_connect_operation_id := aw_connect_operation_id a;
        vac_configuration_digest := aw_configuration_digest a |}.
(** [collect::<io::Result<Vec<_>>>] *)
Fixpoint collect {A B} (f : A → result IoError B) (l : list A) : result IoError (list B) :=
  match l with
  | [] => Ok []
  | a :: l => b ← f a; bs ← collect f l; Ok (b :: bs)
  end.

Section codec.
  (** [prost]'s [encode_to_vec] and [decode] of the catalog *)
  Variable encode_to_vec : CatalogWire → string.
  Variable decode_wire : string → option CatalogWire.

Definition catalog_wire (c : AccountCatalog) : CatalogWire :=
  {| cw_version := VERSION; cw_installation_id := cat_installation_id c;
     cw_accounts := map to_wire (cat_accounts c) |}.
Definition encode (c : AccountCatalog) : result IoError string :=
  if negb (catalog_valid c) then Err invalid else
  let bytes := encode_to_vec (catalog_wire c) in
  if MAX_BYTES <? len bytes then Err invalid else Ok bytes.
Definition decode (bytes : string) : result IoError AccountCatalog :=
  if (bytes =? "")%string || (MAX_BYTES <? len bytes) then Err invalid else
  match decode_wire bytes with
  | None => Err invalid
  | Some w =>
    if negb (cw_version w =? VERSION) || negb (encode_to_vec w =? bytes)%string then Err invalid else
    accounts ← collect from_wire (cw_accounts w);
    let c := {| cat_schema := CATALOG_SCHEMA; cat_installation_id := cw_installation_id w;
                cat_accounts := accounts |} in
    if negb (catalog_valid c) then Err invalid else Ok c
  end.

(** The files of the root that matter: the catalog and the older installation file.  [Fault] is where the system refuses: in staging the new file, or
    in putting it in place. *)
Record Files : Type := {
  fs_catalog : option string;
  fs_installation : option string;
}.
Inductive Fault : Type := NoFault | StageFails | PlaceFails.
Definition with_catalog (f : Files) (bytes : string) : Files :=
  {| fs_catalog := Some bytes; fs_installation := fs_installation f |}.
Definition load (f : Files) : result IoError AccountCatalog :=
  match fs_catalog f with Some bytes => decode bytes | None => Err System end.
Definition place (f : Files) (bytes : string) (fault : Fault) : result IoError unit * Files :=
  match fault with
  | NoFault => (Ok tt, with_catalog f bytes)
  | StageFails | PlaceFails => (Err System, f)
  end.
Definition initialize (f : Files) (installation_id : string) (fault : Fault) : result IoError unit * Files :=
  match encode {| cat_schema := CATALOG_SCHEMA; cat_installation_id := installation_id; cat_accounts := [] |} with
  | Err e => (Err e, f)
  | Ok bytes =>
    if is_some (fs_catalog f) || is_some (fs_installation f) then (Err AlreadyExists, f)
    else place f bytes fault
  end.
Definition append (f : Files) (config : VerifiedAccountConfig) (fault : Fault) : result IoError unit * Files :=
  match load f with
  | Err e => (Err e, f)
  | Ok c =>
    match encode {| cat_schema := cat_schema c; cat_installation_id := cat_installation_id c;
                    cat_accounts := cat_accounts c ++ [config] |} with
    | Err e => (Err e, f)
    | Ok bytes => place f bytes fault
    end
  end.

(** ** Facts *)
Lemma from_to_wire a : from_wire (to_wire a) = Ok a.
Proof. by destruct a as [[v [] u] al cr op dg]. Qed.
Lemma to_from_wire w a : from_wire w = Ok a → to_wire a = w.
Proof.
  unfold from_wire. destruct w as [v e u al cr op dg]. simpl.
  destruct (e =? 1) eqn:E1; [|destruct (e =? 2) eqn:E2]; simpl; [..|done]; intros [= <-];
    unfold to_wire; simpl; f_equal; by apply Z.eqb_eq in E1 || apply Z.eqb_eq in E2.
Qed.
Lemma collect_to l : collect from_wire (map to_wire l) = Ok l.
Proof. induction l as [|a l IH]; [done|]. cbn [map collect]. rewrite from_to_wire. simpl. by rewrite IH. Qed.
Lemma collect_from ws l : collect from_wire ws = Ok l → map to_wire l = ws.
Proof.
  revert l. induction ws as [|w ws IH]; intros l; simpl; [by intros [= <-]|].
  destruct (from_wire w) as [a|] eqn:Ea; simpl; [|done].
  destruct (collect from_wire ws) as [l'|]; simpl; [|done]. intros [= <-]. simpl.
  f_equal; [by apply to_from_wire|by apply IH].
Qed.
Lemma catalog_valid_schema c : catalog_valid c = true → cat_schema c = CATALOG_SCHEMA.
Proof. unfold catalog_valid. rewrite !andb_true_iff, String.eqb_eq. tauto. Qed.

Section laws.
  (** Decoding what was encoded gives it back, and a message with a field that is set is not empty *)
  Hypothesis decode_encode : ∀ w, decode_wire (encode_to_vec w) = Some w.
  Hypothesis encode_some : ∀ w, cw_version w ≠ 0 → encode_to_vec w ≠ "".

Lemma decode_encoded c bytes : encode c = Ok bytes → decode bytes = Ok c.
Proof.
  unfold encode, decode.
  destruct (catalog_valid c) eqn:Ev; simpl; [|done].
  destruct (MAX_BYTES <? _) eqn:Em; [done|]. intros [= <-]. rewrite Em.
  destruct (_ =? "")%string eqn:E0; [apply String.eqb_eq, encode_some in E0; done|]. simpl.
  rewrite decode_encode, String.eqb_refl. simpl. rewrite collect_to. simpl.
  assert (Hc : {| cat_schema := CATALOG_SCHEMA; cat_installation_id := cat_installation_id c;
                  cat_accounts := cat_accounts c |} = c).
  { apply catalog_valid_schema in Ev. destruct c. simpl in *. by rewrite Ev. }
  by rewrite Hc, Ev.
Qed.
Lemma encode_decoded c bytes : decode bytes = Ok c → encode c = Ok bytes.
Proof.
  unfold encode, decode.
  destruct (_ || (MAX_BYTES <? len bytes)) eqn:E; [done|]. apply orb_false_iff in E as [_ Em].
  destruct (decode_wire bytes) as [w|]; [|done].
  destruct (negb _ || negb _) eqn:Eb; [done|]. rewrite orb_false_iff, !negb_false_iff in Eb.
  destruct Eb as [Hver%Z.eqb_eq Heq%String.eqb_eq].
  destruct (collect from_wire (cw_accounts w)) as [l|] eqn:El; simpl; [|done].
  destruct (catalog_valid _) eqn:Ev; [|done]. intros [= <-]. rewrite Ev. simpl.
  assert (Hw : catalog_wire {| cat_schema := CATALOG_SCHEMA; cat_installation_id := cw_installation_id w;
                               cat_accounts := l |} = w).
  { unfold catalog_wire. simpl. apply collect_from in El. destruct w. simpl in *. by rewrite El, Hver. }
  by rewrite Hw, Heq, Em.
Qed.

(** C23: The file of a catalog is its encoding and nothing else: a catalog is read from some bytes
    exactly when it is what those bytes are written for. *)
Theorem catalog_roundtrip c bytes : encode c = Ok bytes ↔ decode bytes = Ok c.
Proof. split; [apply decode_encoded|apply encode_decoded]. Qed.

Lemma accounts_distinct_snoc A K R l x :
  accounts_distinct A K R (l ++ [x]) = true ↔
  accounts_distinct A K R l = true ∧ account_config_valid x = true
  ∧ vac_alias x ∉ A ∪ list_to_set (map vac_alias l) ∧ vac_account_key x ∉ K ∪ list_to_set (map vac_account_key l)
  ∧ vac_credential_ref x ∉ R ∪ list_to_set (map vac_credential_ref l).
Proof.
  revert A K R. induction l as [|a l IH]; intros A K R; simpl.
  - rewrite !andb_true_iff, !bool_decide_eq_true. set_solver.
  - rewrite !andb_true_iff, IH. set_solver.
Qed.

(** Adding an account keeps those of the catalog in order and adds it last, and it succeeds only
    when the account is valid, neither its alias nor its key nor its credential is in use and there
    are fewer than 32; when it fails the file stays as it was. *)
Theorem append_exact f config fault r f' c :
  load f = Ok c → append f config fault = (r, f') →
  match r with
  | Ok _ => load f' = Ok {| cat_schema := CATALOG_SCHEMA; cat_installation_id := cat_installation_id c;
                                        cat_accounts := cat_accounts c ++ [config] |}
            ∧ account_config_valid config = true ∧ count (cat_accounts c) < 32
            ∧ (∀ a, a ∈ cat_accounts c → vac_alias a ≠ vac_alias config
                     ∧ vac_account_key a ≠ vac_account_key config
                     ∧ vac_credential_ref a ≠ vac_credential_ref config)
  | Err _ => f' = f
  end.
Proof.
  intros Hl. unfold append. rewrite Hl.
  destruct (encode _) as [bytes|e] eqn:Ee; [|by intros [= <- <-]].
  destruct fault; simpl; intros [= <- <-]; [|done..].
  assert (Hs : cat_schema c = CATALOG_SCHEMA).
  { unfold load in Hl. destruct (fs_catalog f) as [b|]; [|done]. apply encode_decoded in Hl.
    unfold encode in Hl. destruct (catalog_valid c) eqn:Ev; [|done]. by apply catalog_valid_schema. }
  rewrite Hs in Ee. split; [by apply decode_encoded|].
  unfold encode in Ee. destruct (catalog_valid _) eqn:Ev; [|done].
  unfold catalog_valid in Ev. simpl in Ev. rewrite !andb_true_iff, accounts_distinct_snoc in Ev.
  destruct Ev as ([_ Hc] & _ & Hv & Ha & Hk & Hr). apply Z.leb_le in Hc. split; [done|].
  unfold count in *. rewrite length_app in Hc. simpl in Hc. split; [lia|].
  intros a Hin.
  rewrite elem_of_union, elem_of_list_to_set, list_elem_of_fmap in Ha.
  rewrite elem_of_union, elem_of_list_to_set, list_elem_of_fmap in Hk.
  rewrite elem_of_union, elem_of_list_to_set, list_elem_of_fmap in Hr.
  repeat split; intros E; [apply Ha|apply Hk|apply Hr]; right; exists a; by split.
Qed.
End laws.
End codec.
