(* ===== verification/SessionDemo.v ===== *)
(** * SessionDemo: inputs at which the theorems on sessions, mailbox, downloads and catalog apply

    A small codec of fields as texts that is read back exactly, and one concrete session of the
    direct transport, two polls of the mailbox, a download and a catalog. *)
From stdpp Require Import base option list numbers strings gmap sets sorting.
From Stdlib Require Import ZArith Lia Ascii String.
From S2P Require Import Prelude Text Ordered External EntryBudget Protocol RiskAuthority Requests Session Transport.
From S2P Require Import GitHub Mailbox Catalog.
Local Open Scope string_scope.
Local Open Scope list_scope.
Local Open Scope Z_scope.

(** ** A codec of fields *)
Fixpoint put (s rest : string) : string :=
  match s with EmptyString => String "z" rest | String c s' => String "a" (String c (put s' rest)) end.
Fixpoint get (s : string) : option (string * string) :=
  match s with
  | EmptyString => None
  | String a t =>
    if (a =? "z")%char then Some ("", t) else
    match t with
    | EmptyString => None
    | String c r => '(x, rest) ← get r; Some (String c x, rest)
    end
  end.
Lemma get_put s rest : get (put s rest) = Some (s, rest).
Proof. induction s as [|c s IH]; [done|]. simpl. by rewrite IH. Qed.

Fixpoint bits (p : BinNums.positive) : string :=
  match p with xH => "" | xO p => String "0" (bits p) | xI p => String "1" (bits p) end.
Fixpoint unbits (s : string) : BinNums.positive :=
  match s with EmptyString => 1%positive
  | String a s => if (a =? "0")%char then xO (unbits s) else xI (unbits s) end.
Lemma unbits_bits p : unbits (bits p) = p.
Proof. induction p as [p IH|p IH|]; simpl; by rewrite ?IH. Qed.
Definition put_Z (n : Z) (rest : string) : string :=
  put (match n with Z0 => "" | Zpos p => String "+" (bits p) | Zneg p => String "-" (bits p) end) rest.
Definition get_Z (s : string) : option (Z * string) :=
  '(t, rest) ← get s;
  Some (match t with EmptyString => 0
        | String a b => if (a =? "+")%char then Z.pos (unbits b) else Z.neg (unbits b) end, rest).
Lemma get_put_Z n rest : get_Z (put_Z n rest) = Some (n, rest).
Proof. unfold get_Z, put_Z. rewrite get_put. destruct n; simpl; by rewrite ?unbits_bits. Qed.

(** ** The catalog *)
Definition put_account (a : AccountWire) (rest : string) : string :=
  put (aw_venue a) (put_Z (aw_environment a) (put (aw_uid a) (put (aw_alias a) (put (aw_credential_ref a)
    (put (aw_connect_operation_id a) (put (aw_configuration_digest a) rest)))))).
Definition get_account (s : string) : option (AccountWire * string) :=
  '(v, s) ← get s; '(e, s) ← get_Z s; '(u, s) ← get s; '(al, s) ← get s; '(cr, s) ← get s;
  '(op, s) ← get s; '(dg, s) ← get s;
  Some ({| aw_venue := v; aw_environment := e; aw_uid := u; aw_alias := al; aw_credential_ref := cr;
           aw_connect_operation_id := op; aw_configuration_digest := dg |}, s).
Lemma get_put_account a rest : get_account (put_account a rest) = Some (a, rest).
Proof.
  unfold get_account, put_account. repeat (rewrite ?get_put, ?get_put_Z; simpl). by destruct a.
Qed.
Fixpoint put_accounts (l : list AccountWire) : string :=
  match l with [] => "" | a :: l => put_account a (put_accounts l) end.
Fixpoint get_accounts (fuel : nat) (s : string) : option (list AccountWire) :=
  match s, fuel with
  | EmptyString, _ => Some []
  | _, O => None
  | _, S fuel => '(a, s) ← get_account s; l ← get_accounts fuel s; Some (a :: l)
  end.
Lemma put_some s rest : ∃ c t, put s rest = String c t ∧ (String.length rest < String.length (put s rest))%nat.
Proof.
  induction s as [|c s (c' & t & E & L)]; simpl; [by exists "z"%char, rest; split; [|lia]|].
  exists "a"%char, (String c (put s rest)). split; [done|]. lia.
Qed.
Lemma put_account_some a rest :
  ∃ c t, put_account a rest = String c t ∧ (String.length rest < String.length (put_account a rest))%nat.
Proof.
  unfold put_account, put_Z.
  repeat match goal with |- context [put ?x ?y] =>
    lazymatch goal with H : (String.length y < String.length (put x y))%nat |- _ => fail | _ =>
      let c := fresh in let t := fresh in
      destruct (put_some x y) as (c & t & ? & ?) end end.
  eexists _, _. split; [eassumption|]. lia.
Qed.
Lemma get_put_accounts l fuel : (String.length (put_accounts l) ≤ fuel)%nat → get_accounts fuel (put_accounts l) = Some l.
Proof.
  revert fuel. induction l as [|a l IH]; intros fuel Hf; [by destruct fuel|].
  destruct (put_account_some a (put_accounts l)) as (c & t & E & L).
  change (put_accounts (a :: l)) with (put_account a (put_accounts l)) in *.
  destruct fuel as [|fuel]; [lia|]. rewrite E. simpl. rewrite <- E, get_put_account. simpl.
  rewrite IH; [done|lia].
Qed.
Definition catalog_to_vec (w : CatalogWire) : string :=
  put_Z (cw_version w) (put (cw_installation_id w) (put_accounts (cw_accounts w))).
Definition catalog_of_vec (s : string) : option CatalogWire :=
  '(v, s) ← get_Z s; '(i, s) ← get s; l ← get_accounts (String.length s) s;
  Some {| cw_version := v; cw_installation_id := i; cw_accounts := l |}.
Lemma catalog_read_back w : catalog_of_vec (catalog_to_vec w) = Some w.
Proof.
  unfold catalog_of_vec, catalog_to_vec. rewrite get_put_Z. simpl. rewrite get_put. simpl.
  rewrite get_put_accounts by done. simpl. by destruct w.
Qed.
Lemma catalog_some w : cw_version w ≠ 0 → catalog_to_vec w ≠ "".
Proof.
  intros _. unfold catalog_to_vec, put_Z.
  match goal with |- put ?x ?y ≠ _ => destruct (put_some x y) as (c & t & -> & _) end. done.
Qed.

Definition hex64 : string := "aaaaaaaaaaaaaaaaaaaaaaaaaaaaaaaaaaaaaaaaaaaaaaaaaaaaaaaaaaaaaaaa".
Definition demo_config : VerifiedAccountConfig := {|
  vac_account_key := {| ak_venue := "okx"; ak_environment := Real; ak_verified_uid := hex64 |};
  vac_alias := "account_one"; vac_credential_ref := "credential_one";
  vac_connect_operation_id := "connect_1234"; vac_configuration_digest := hex64 |}.
Definition demo_catalog : AccountCatalog := {|
  cat_schema := CATALOG_SCHEMA; cat_installation_id := "installation-test"; cat_accounts := [demo_config] |}.

Lemma catalog_roundtrip_witness :
  is_ok (encode catalog_to_vec demo_catalog) = true
  ∧ (encode catalog_to_vec demo_catalog = Ok (catalog_to_vec (catalog_wire demo_catalog))
     ↔ decode catalog_to_vec catalog_of_vec (catalog_to_vec (catalog_wire demo_catalog)) = Ok demo_catalog).
Proof.
  split; [vm_compute; reflexivity|].
  apply (catalog_roundtrip catalog_to_vec catalog_of_vec catalog_read_back catalog_some).
Defined.

(** ** A session of the direct transport *)
Definition demo_snapshot : CentralGovernanceSnapshot := {|
  cgs_state := sample_governance; cgs_issued_at_ms := 1; cgs_session_generation := 3;
  cgs_delivery_challenge := Some "native_ping_0001" |}.
Definition demo_request : AgentRequest (Value unit) := {|
  ar_account := Some "main"; ar_schema := AGENT_REQUEST_SCHEMA_V1; ar_request_id := "request_12345678";
  ar_operation := AccountSummary |}.
Definition demo_session : string := "session_12345678".
Definition demo_frame (text : string) : option (DirectTransportFrame (Value unit)) :=
  if (text =? "ping")%string then Some (Ping DIRECT_TRANSPORT_FRAME_SCHEMA_V2 demo_session 3 "native_ping_0001")
  else if (text =? "request")%string
  then Some (Request DIRECT_TRANSPORT_FRAME_SCHEMA_V2 demo_session 3 demo_request (Some demo_snapshot))
  else None.
Definition no_parameters (v : Value unit) : option StrategyParametersV1 := None.
Definition no_text {A} (v : A) : string := "".
Definition demo_message (text : string) (now : Z) : Event (Number := unit) (Sender := unit) :=
  Incoming (Text text) now now now (λ _, false) true true true "2026-01-01T00:00:00Z".
Definition demo_step := step (Sender := unit) no_parameters no_text demo_frame no_text demo_session 3
  (gov_installation_id sample_governance).
Notation demo_run := (session (Sender := unit) no_parameters no_text demo_frame no_text demo_session 3
  (gov_installation_id sample_governance)).
Definition demo_events : list (Event (Number := unit) (Sender := unit)) :=
  [demo_message "ping" (seconds 1); demo_message "request" (seconds 2); Polled 0].
(** The state and the history after some events, in order *)
Fixpoint replay (events : list (Event (Number := unit) (Sender := unit))) (h : list (Event * list Output))
    (s : State) : list (Event * list Output) * State :=
  match events with
  | [] => (h, s)
  | e :: events => match demo_step s e with Ok (s', out) => replay events ((e, out) :: h) s' | Err _ => (h, s) end
  end.
Lemma replay_session events h s : demo_run h s → demo_run (fst (replay events h s)) (snd (replay events h s)).
Proof.
  revert h s. induction events as [|e events IH]; intros h s Hs; [done|]. simpl.
  destruct (demo_step s e) as [[s' out]|] eqn:E; [|done]. apply IH. by econstructor.
Qed.
Definition demo_end : list (Event * list Output) * State := replay demo_events [] (opened (seconds 0)).

Lemma authority_needs_ping_witness :
  grants (fst demo_end) = [(demo_snapshot, seconds 2)]
  ∧ pings no_parameters no_text demo_frame (fst demo_end) = [("native_ping_0001", seconds 1)]
  ∧ ∃ ps, Forall2 (rests_on 3 (gov_installation_id sample_governance)) (grants (fst demo_end)) ps
          ∧ ps ⊆+ pings no_parameters no_text demo_frame (fst demo_end).
Proof.
  split; [vm_compute; reflexivity|]. split; [vm_compute; reflexivity|].
  apply (authority_needs_ping no_parameters no_text demo_frame no_text demo_session 3
    (gov_installation_id sample_governance) (fst demo_end) (snd demo_end)).
  apply replay_session. constructor.
Defined.

Lemma flights_bounded_witness :
  List.length (st_flights (snd demo_end)) = 1%nat ∧ bounded (snd demo_end).
Proof.
  split; [vm_compute; reflexivity|].
  apply (flights_bounded no_parameters no_text demo_frame no_text demo_session 3
    (gov_installation_id sample_governance) (fst demo_end) (snd demo_end)).
  apply replay_session. constructor.
Defined.

(** ** Two polls of the mailbox *)
Definition put_envelope (e : MailboxEnvelope) : option string :=
  Some (put (me_schema e) (put (me_request_id e)
    (put (match me_direction e with ClientToAgent => "c" | AgentToClient => "a" end)
      (put (me_agent_key_id e) (put (me_client_ephemeral_public_key e) (put (me_nonce e)
        (put (me_ciphertext e) ""))))))).
Definition get_envelope (s : string) : option MailboxEnvelope :=
  '(sc, s) ← get s; '(i, s) ← get s; '(d, s) ← get s; '(k, s) ← get s; '(p, s) ← get s;
  '(n, s) ← get s; '(c, s) ← get s;
  Some {| me_schema := sc; me_request_id := i;
          me_direction := if (d =? "c")%string then ClientToAgent else AgentToClient;
          me_agent_key_id := k; me_client_ephemeral_public_key := p; me_nonce := n; me_ciphertext := c |}.
Lemma envelope_read_back e body : put_envelope e = Some body → get_envelope body = Some e.
Proof.
  intros [= <-]. unfold get_envelope. repeat (rewrite get_put; simpl). by destruct e as [? ? [] ? ? ? ?].
Qed.

Definition plain (s : string) : option string := Some s.
Definition one_key (_ _ : string) : string := "secret".
Definition derived (_ _ info : string) : option string := Some info.
Definition sealed (_ _ _ message : string) : option string := Some message.
Definition demo_read (id : string) : AgentRequest unit := {|
  ar_account := None; ar_schema := AGENT_REQUEST_SCHEMA_V1; ar_request_id := id;
  ar_operation := AccountSummary |}.
Definition read_request (text : string) : option (AgentRequest unit) := Some (demo_read text).
Definition no_value (v : unit) : option StrategyParametersV1 := None.
Definition demo_envelope (id : string) : MailboxEnvelope := {|
  me_schema := MAILBOX_ENVELOPE_SCHEMA_V1; me_request_id := id; me_direction := ClientToAgent;
  me_agent_key_id := "key"; me_client_ephemeral_public_key := "aaaaaaaaaaaaaaaaaaaaaaaaaaaaaaaa";
  me_nonce := "aaaaaaaaaaaa"; me_ciphertext := id |}.
Definition demo_comment (n : Z) (created body : string) : IssueComment :=
  {| ic_id := n; ic_body := body; ic_user_id := OWNER_USER_ID; ic_created_at := created |}.
Definition demo_text (e : MailboxEnvelope) : string := default "" (put_envelope e).
Definition reply_text (id : string) : string :=
  demo_text (response_envelope (λ s, s) (demo_envelope id) "key" "bbbbbbbbbbbb" "answer").
Definition comment_one : IssueComment := demo_comment 1 "2026-01-01T00:00:01Z" (demo_text (demo_envelope "request_00000001")).
Definition comment_two : IssueComment := demo_comment 3 "2026-01-01T00:00:03Z" (demo_text (demo_envelope "request_00000002")).
Definition answer_one : IssueComment := demo_comment 2 "2026-01-01T00:00:02Z" (reply_text "request_00000001").
Definition answer_two : IssueComment := demo_comment 4 "2026-01-01T00:00:04Z" (reply_text "request_00000002").
Definition demo_world (_ : nat) : World (Json := unit) := {|
  wo_random := Some "bbbbbbbbbbbb"; wo_generated_at := "2026-01-01T00:00:00Z";
  wo_dispatch := λ r, {| rs_schema := AGENT_RESPONSE_SCHEMA_V1; rs_request_id := ar_request_id r;
    rs_status := Completed; rs_generated_at := ""; rs_quality := Fresh; rs_result_schema := None;
    rs_result := None; rs_failure := None; rs_warnings := [] |};
  wo_outcome := PostAccepted |}.
Definition demo_vec (r : AgentResponse unit) : option string := Some "answer".
Definition demo_fetch (issue : list IssueComment) (current : option IssueCommentCursor)
    : result GitHubError (list IssueComment) := Ok (List.filter (after current) issue).
Notation demo_poll file issue :=
  (process_pending no_value no_text (λ s, s) plain one_key derived sealed sealed read_request demo_vec
    put_envelope get_envelope 7 "key" "private" file (demo_fetch issue) demo_world GitHub.NoFault).
Notation demo_mailbox :=
  (mailbox_run no_value no_text (λ s, s) plain one_key derived sealed sealed read_request demo_vec
    put_envelope get_envelope 7 "key" "private").
Definition first_poll := demo_poll Absent [comment_one].
Definition first_file : CursorFile := snd (fst first_poll).
Definition first_acts : list (Act (Json := unit)) := [Dispatched (demo_read "request_00000001"); Wrote (reply_text "request_00000001")].
Definition second_issue : list IssueComment := ([comment_one] ++ [answer_one]) ++ [comment_two].
Definition second_poll := demo_poll first_file second_issue.
Definition second_acts : list (Act (Json := unit)) := [Dispatched (demo_read "request_00000002"); Wrote (reply_text "request_00000002")].
Lemma first_poll_acts : first_poll = ((first_acts, first_file), Ok 1).
Proof. vm_compute. reflexivity. Qed.
Lemma second_poll_acts : second_poll = ((second_acts, snd (fst second_poll)), Ok 1).
Proof. vm_compute. reflexivity. Qed.
Ltac follow := intros ? ? ?%list_elem_of_singleton ?%list_elem_of_singleton; subst; vm_compute; reflexivity.
Lemma demo_history : demo_mailbox (second_issue ++ [answer_two]) (snd (fst second_poll)) (([] ++ first_acts) ++ second_acts).
Proof.
  eapply (run_poll _ _ _ _ _ _ _ _ _ _ _ _ _ _ _ second_issue first_file _ (demo_fetch second_issue) demo_world GitHub.NoFault
            _ _ _ [answer_two]); [|by intros ? ? [= <-]|exact second_poll_acts| |].
  - eapply (run_comments _ _ _ _ _ _ _ _ _ _ _ _ _ _ _ ([comment_one] ++ [answer_one])).
    + eapply (run_poll _ _ _ _ _ _ _ _ _ _ _ _ _ _ _ [comment_one] Absent [] (demo_fetch [comment_one]) demo_world GitHub.NoFault
              _ _ _ [answer_one]); [constructor|by intros ? ? [= <-]|exact first_poll_acts|follow|].
      intros body [Hb|Hb%list_elem_of_singleton]%elem_of_cons; [done|]. injection Hb as ->.
      exists answer_one. split; [by left|done].
    + intros d c Hd Hc. apply list_elem_of_singleton in Hc as ->.
      repeat (apply elem_of_cons in Hd as [->|Hd]; [vm_compute; reflexivity|]). by apply elem_of_nil in Hd.
  - intros d c Hd Hc. apply list_elem_of_singleton in Hc as ->.
    repeat (apply elem_of_cons in Hd as [->|Hd]; [vm_compute; reflexivity|]). by apply elem_of_nil in Hd.
  - intros body [Hb|Hb%list_elem_of_singleton]%elem_of_cons; [done|]. injection Hb as ->.
    exists answer_two. split; [by left|done].
Qed.

Lemma answered_once_witness :
  reply_id get_envelope (reply_text "request_00000001") = Some "request_00000001"
  ∧ ar_request_id (demo_read "request_00000002") ≠ "request_00000001".
Proof.
  split; [vm_compute; reflexivity|].
  apply (answered_once no_value no_text (λ s, s) plain one_key derived sealed sealed read_request demo_vec
    put_envelope get_envelope envelope_read_back 7 "key" "private" (second_issue ++ [answer_two]) (snd (fst second_poll))
    (([] ++ first_acts) ++ second_acts) [Dispatched (demo_read "request_00000001")]
    (reply_text "request_00000001") "request_00000001" [] (demo_read "request_00000002")
    [Wrote (reply_text "request_00000002")] demo_history); [reflexivity|vm_compute; reflexivity].
Defined.

Definition opened_once := process_once_with_size_telemetry no_value no_text (λ s, s) plain one_key derived sealed sealed
  read_request demo_vec put_envelope (demo_envelope "request_00000001") "key" "private" true
  (wo_dispatch (demo_world 0)) "bbbbbbbbbbbb" "2026-01-01T00:00:00Z".
Lemma mailbox_opens_witness :
  fst opened_once = [demo_read "request_00000001"]
  ∧ action_class (ar_operation (demo_read "request_00000001")) = Read.
Proof.
  split; [vm_compute; reflexivity|].
  apply (mailbox_opens no_value no_text (λ s, s) plain one_key derived sealed sealed read_request demo_vec put_envelope
    (demo_envelope "request_00000001") "key" "private" true (wo_dispatch (demo_world 0)) "bbbbbbbbbbbb"
    "2026-01-01T00:00:00Z" (fst opened_once) (snd opened_once) (demo_read "request_00000001"));
    [vm_compute; reflexivity|left].
Defined.

(** ** A download in three parts

    The artifact has two versions; a fourth answer, of the other version and cut short, is
    never asked for, and a server that gives it as the third one makes the download fail. *)
Definition demo_file (tag : option string) (total : Z) : bytes :=
  if bool_decide (tag = Some "v1") && (total =? 5) then list_ascii_of_string "abcde" else repeat "000"%char (Z.to_nat total).
Definition demo_part (tag range : string) (chunks : list string) (length : Z) : Z * (Part + bool) :=
  (0, inl {| pt_status := 206; pt_headers := λ h, if (h =? "content-range")%string then Some range else None;
             pt_encoded := false; pt_etag := Some tag; pt_content_length := Some length;
             pt_chunks := map list_ascii_of_string chunks; pt_failed := None |}).
Definition demo_cut : Z * (Part + bool) := demo_part "v2" "bytes 4-4/5" [] 1.
Definition demo_answers : list (Z * (Part + bool)) :=
  [demo_part "v1" "bytes 0-1/5" ["a"; "b"] 2; demo_part "v1" "bytes 2-3/5" ["cd"] 2; demo_part "v1" "bytes 4-4/5" ["e"] 1; demo_cut].
Lemma demo_speaks : all_speak demo_file demo_answers.
Proof.
  assert (Hpart : ∀ tag range chunks n f l t cut, parse_artifact_content_range range = Some (f, l, t) →
    count (demo_file (Some tag) t) = t →
    take (Z.to_nat (l - f + 1)) (drop (Z.to_nat f) (demo_file (Some tag) t)) = List.concat (map list_ascii_of_string chunks) ++ cut →
    match (demo_part tag range chunks n).2 with inl p => speaks demo_file p | inr _ => True end).
  { intros tag range chunks n f l t cut E Hc Hb f' l' t' _ _ E'. simpl in E'. rewrite E in E'. injection E' as <- <- <-.
    split; [done|]. by exists cut. }
  repeat apply List.Forall_cons; [..|apply List.Forall_nil].
  - by apply (Hpart "v1" "bytes 0-1/5" ["a"; "b"] 2 0 1 5 []).
  - by apply (Hpart "v1" "bytes 2-3/5" ["cd"] 2 2 3 5 []).
  - by apply (Hpart "v1" "bytes 4-4/5" ["e"] 1 4 4 5 []).
  - by apply (Hpart "v2" "bytes 4-4/5" [] 1 4 4 5 ["000"%char]).
Qed.
Example demo_cut_refused :
  download_artifact_zip_in_parts 2 10 (take 2 demo_answers ++ [demo_cut]) = Some (Err ArtifactRangeInvalid).
Proof. vm_compute. reflexivity. Qed.
Lemma download_assembles_witness :
  download_artifact_zip_in_parts 2 10 demo_answers = Some (Ok (list_ascii_of_string "abcde"))
  ∧ ∃ tag total used rest,
      demo_answers = used ++ rest ∧ list_ascii_of_string "abcde" = demo_file tag total
      ∧ (count used - 1) * 2 < total ≤ count used * 2.
Proof.
  split; [vm_compute; reflexivity|].
  destruct (download_assembles demo_file 2 10 demo_answers (list_ascii_of_string "abcde") demo_speaks)
    as (tag & total & used & rest & E1 & E2 & _ & _ & _ & E3); [lia|vm_compute; reflexivity|].
  exists tag, total, used, rest. split; [exact E1|]. split; [exact E2|exact E3].
Defined.
